(* ===== verification/_CoqProject ===== *)
-Q . S2P
Prelude.v
SdkErrors.v
Frame.v
IntType.v
GoStrings.v
Regex.v
Denom.v
Coin.v
CoinFacts.v
Dec.v
TimeBytes.v
Gas.v
KVStore.v
CacheKV.v
CacheKVThms.v
PrefixKV.v
GasKV.v
Sha256.v
Auth.v
StdTx.v
Ante.v
BaseApp.v
Bank.v
BankFacts.v
BankThms.v
BankBurn.v
BankFrame.v
AnteFacts.v
Mint.v
Htlc.v
HtlcFacts.v
HtlcThms.v
Guardian.v
Service.v
ServiceKeeper.v
ServiceFacts.v
ServiceTimeout.v
ServiceThms.v
StakeTypes.v
Stake.v
StakeFacts.v
StakeInv.v
StakeFrame.v
StakeSlash.v
StakeSet.v
StakeApply.v
StakeDue.v
StakeThms.v
StakeSteps.v
Slashing.v
SlashFacts.v
DistrTypes.v
Distr.v
DistrFacts.v
Chain.v
ChainThms.v
SlashThms.v
Rat.v
Asset.v
AssetKeeper.v
AssetThms.v
AssetSupply.v
Rand.v
Coinswap.v
ParamSets.v
Upgrade.v
GovTypes.v
Gov.v
GovFacts.v
GovRules.v
GovThms.v
CoinswapFacts.v
CoinswapThms.v
CoinswapLiquidity.v
ModuleFrames.v
BaseAppFacts.v
App.v
AppFacts.v
AppThms.v
AppProps.v
