(* ===== verification/Prelude.v ===== *)
(** * A verification development of IRISHub

    IRISHub is a blockchain application in Go on the Cosmos SDK of its time.
    This library models the path of a transaction from its bytes to the stores:
    the value types, the stores, the accounts and fees, the execution of
    transactions, and the modules for transfers, tokens, random numbers,
    guardians, hash time locked contracts and the coin exchange, put together as
    protocol v2; beside it, the module for services; the chain of staking with
    inflation, distribution and slashing; and governance with upgrades over that
    chain.

    ** The program and how its parts interact

    The node hands the application a block of transactions.  A transaction
    carries messages; baseapp decodes it and checks the messages without state
    ([ValidateBasic]), lets the ante handlers authenticate it and take its fee,
    and gives each message to the handler of its module, which calls a keeper.
    Keepers read and write their own key-value store; the stores of a transaction
    are a write-back cache, and a gas meter charges for what they do.  The fee
    that was not used is refunded at the end.  All coins live in the account
    store of auth; the other modules move them only through the bank keeper: HTLC
    locks coins in one account, coinswap keeps each pool in an account derived
    from the pool's name, asset creates coins and burns fees, and service keeps
    deposits, fees and tax in three accounts.  At the start of a block mint
    creates the inflation of the block, HTLC expires the contracts whose height
    has come, and rand answers the requests that are due; at its end service
    settles the requests that time out, and staking tells Tendermint the changes
    of the validator set and completes what was unbonding.  Staking records the
    tokens of bonded validators in a pool and the others, with the bank, as loose
    tokens; it informs distribution and slashing through hooks.  Distribution
    collects the inflation and the fees and pays them to validators and
    delegators; slashing punishes validators that miss blocks or sign two of one
    height.  Governance holds the deposits of proposals in an account, counts the
    votes by the tokens of staking when their time is over, and executes what
    passes: it can change parameters of the modules, add tokens, spend the tax of
    the community, stop the chain, or plan an upgrade, which is then decided by
    the signals of the validators.

    ** Files

    - [Prelude]: what a Go function can do - return, return an error or panic
      ([Outcome]), over a state ([M]) - with its notation, the inversion tactic
      [inv_ok], hint databases, and lemmas on lists, byte strings, sums over
      finite maps and uint64.  [Frame]: relations that a computation keeps
      whatever its outcome ([framed]), with the rules that compose them; what
      holds of every normal result of a computation ([wp]) and what a
      computation does return ([tot]), with their rules and tactics.
    - [SdkErrors]: types/errors.go.  [IntType]: types/int.go, [Int]
      of 255 bits and [Uint] of 256.  [Dec]: types/decimal.go.  [Rat]:
      types/rational.go.  [TimeBytes]: FormatTimeBytes of types/utils.go, the
      calendar of package time.
    - [GoStrings], [Regex]: the parts of Go's strings, bytes and regexp packages
      that are used.  [Denom]: types/coin_type.go, types/asset.go and the
      regular expressions of types/coin.go.
    - [Coin], [CoinFacts]: types/coin.go and its theorems.
    - [Gas]: types/gas.go.
    - [KVStore]: the store of a module as a finite map with prefix iteration,
      and the KVStore interface of types/store.go, as the classes [KVOps]
      (operations) and [KVLaws] (a store stands for a mapping).  [CacheKV],
      [CacheKVThms]: store/cachekvstore.go,
      cachemergeiterator.go and memiterator.go.  [PrefixKV]:
      PrefixEndBytes and the prefix iterators of types/store.go,
      store/prefixstore.go.  [GasKV]: store/gaskvstore.go.
    - [Sha256]: the hash, its constants computed from the primes.
    - [Auth]: app/v1/auth/account.go and keeper.go.  [StdTx]:
      modules/auth/stdtx.go, types/context.go, types/result.go,
      app/v1/auth/feekeeper.go, feeauth.go and params.go.  [Ante]:
      app/v1/auth/ante.go.  [AnteFacts]: what authentication establishes.
    - [BaseApp]: app/baseapp.go and app/protocol/engine.go, over a record
      [Protocol] of handlers.  [BaseAppFacts]: the phases of a transaction
      ([tx_effect]) and the interface [ProtocolLaws] that a protocol meets.
    - [Bank]: app/v1/bank.  [BankFacts]: lemmas per operation.  [BankThms],
      [BankBurn]: theorems.  [BankFrame]: the interfaces the modules see
      ([BankKeeper] and its laws [BankLaws]), the instance for the bank,
      what every bank operation keeps, and the error codes of arithmetic.
    - [Htlc], [HtlcFacts], [HtlcThms]: app/v2/htlc, over the interface.
    - [Coinswap], [CoinswapFacts], [CoinswapThms], [CoinswapLiquidity]:
      app/v2/coinswap, over the interface.
    - [Guardian]: modules/guardian.  [Rand]: app/v1/rand.  [Mint]: app/v1/mint.
    - [StakeTypes]: types and keys of app/v1/stake.  [Stake]: its keeper,
      handlers, end of a block and genesis.  [StakeFacts], [StakeInv],
      [StakeSlash] (modules [StakeOps] and [StakeSlash]): the ledger of tokens
      and shares and that every operation keeps it, over the interface
      [StakingHooks] with the laws [HookLaws].  [StakeFrame]: what an operation
      leaves alone.  [StakeDue]: queues by time, and what is completed.
      [StakeSet], [StakeApply], [StakeThms]: the validator set, and the
      module's invariants.go.
      [StakeSteps]: runs of the module and the theorems.
    - [Slashing], [SlashFacts]: app/v1/slashing, its windows and periods.
      [DistrTypes], [Distr]: app/v1/distribution.  [DistrFacts]: what it owes and
      that every operation keeps it.  [Chain]: the hooks of both modules as the
      instance of [StakingHooks] that protocol v2 makes, with its laws, the begin
      of a block, and the steps of the chain of these modules.  [ChainThms],
      [SlashThms]: theorems.
    - [ParamSets]: the sets of parameters that protocol v2 registers with
      app/v1/params, and the parsers of their values.  [Upgrade]:
      types/protocol.go and app/v1/upgrade.  [GovTypes], [Gov]: app/v1/gov, over
      the state [World] of the modules it changes.  [GovFacts] (modules
      [GovFacts], [GovOps] and [GovEnd]): its invariant, what the operations do,
      and the end of a block.  [GovRules]: parameters and the count of votes.
      [GovThms]: theorems of governance and upgrades.
    - [Service]: tools/protoidl, and the types, messages, parameters and keys of
      app/v1/service.  [ServiceKeeper]: its keeper, handlers, end of a
      block, genesis and queries.  [ServiceFacts]: the invariant and that every
      operation keeps it.  [ServiceTimeout]: the expiry of requests.
      [ServiceThms]: theorems.
    - [Asset]: app/v1/asset/internal/types.  [AssetKeeper]: the keeper, fees,
      ante handler, handlers and genesis of app/v1/asset.  [AssetThms] (modules
      [AssetFacts] and [AssetThms]), [AssetSupply]: their lemmas and theorems.
    - [ModuleFrames]: what the handlers of the modules keep, and whose
      coins they may take.
    - [App]: app/v2/protocol_v2.go and app/protocol/router.go, the modules put
      together.  [AppFacts]: the routes and ante handlers, and that
      the protocol meets [ProtocolLaws].  [AppThms], [AppProps]: transactions in
      a block.

    A definition has the name of the Go function it models, a prefix for the
    receiver or the module where two would clash ([Coins_Add], [htlc_Handler],
    [cache_Get]).  A struct is a record, a keeper method a computation in [M]
    over the state of the keeper, a handler the composition the code makes,
    with the guards in the order of the code.  State survives an error or a
    panic inside [M], as memory does in Go; baseapp undoes the writes of a failed
    transaction by dropping the cache ([cacheTxContext]), and
    [cache_transaction] shows that a dropped cache leaves the parent as it was.

    ** What the theorems show

    - Transactions, for any block of those of the bank, guardian, asset, rand,
      coinswap and HTLC modules under protocol v2: the native token in accounts and
      in the pool of fees is conserved; the coins of an account, other than the
      locked coins of HTLC and the reserve pools of coinswap, and the entry and
      supply of a token change to the cost of their owner only through a
      transaction the owner signed with its key and its current sequence number; a
      transaction that succeeded cannot be delivered again.
    - Numbers: multiplication of [Int] panics exactly on overflow; [Dec] rounds
      to nearest, half to even, and its text form can be read back; a rational
      is rounded to a nearest integer; gas is charged exactly.
    - Coins: [Add], [Sub], [NewCoins], [AmountOf] and the comparisons compute
      what they mean on valid sets, seen as finite maps; what happens to the
      caller's slice when zero coins are removed.
    - Stores: a cache, a prefix store and a gas store over any store that stands
      for a mapping stand for the expected mapping, for every sequence of
      operations; a cache is a transaction; a prefix iterator visits the keys
      of the prefix and no others; operations of a gas store have a price, which
      a meter with a base scales.
    - Bank: a message conserves the coins, a transfer moves exactly its amount
      and succeeds when the balance suffices; burning and the recorded supply;
      the invariants hold of the states the code reaches.
    - HTLC: in every reachable state the coins of the open contracts are in the
      module account and the queue holds the open contracts; contracts go from
      open to completed, expired and refunded and settled ones never change;
      claims with the secret and refunds of expired contracts pay.
    - Coinswap: prices are the best integers for the constant product; no swap
      lowers the product of a pool; liquidity operations never dilute the other
      holders, and depositing and withdrawing earns nothing.
    - Asset: along every history the recorded supply of a token stays within its
      maximum, or within the initial supply of a token that was issued with more
      than the default maximum; only the owner changes a token or a gateway or mints, and a fee
      is split between the community and the burned coins.
    - Guardian: guardians of genesis stay, and every other one was added by one
      of genesis; genesis can be exported and read back.  Rand: a request is
      answered in the block it asks for.  Mint: every block mints the same exact
      part of the yearly inflation, without failing.
    - Service: along every history the accounts of the module cover the deposits
      and fees it owes; the end of a block settles exactly the requests that
      expire, and goes through exactly when the prices of their bindings ask for
      a minimum deposit that can be computed; fees that are owed can be taken out; a response is paid once.
    - Stake: in every reachable state the loose tokens, the bonded pool and the
      shares add up, the indexes and queues describe the records, and three of
      the four checks at run time pass; at the end of a block the bonded
      validators are the best ones and Tendermint has exactly them with their
      powers; what has finished unbonding is paid, and finished redelegations are
      removed.
    - The chain of staking, distribution, slashing and mint: each of its runs is
      a run of staking, since the hooks keep the laws, so that the theorems on
      staking hold of it; the loose tokens are those of accounts, fees, pools,
      rewards, unbonding delegations and unbonded validators, up to what is
      dropped with the record of a validator, and the check of the supply passes
      exactly when nothing was dropped.  In these runs no withdraw address is the
      account of burned coins, and the steps of other modules keep the ledger.
      Slashing: the count of missed blocks is that of the window, and decides who
      goes to jail, with nothing else in the store of the module changed; the
      double signs of one period cost what one costs; who may leave jail.
    - Governance: in every reachable state the deposits are backed by their
      account and every open proposal is in the queue of its status; the numbers
      of critical and normal proposals are limited; the end of a block that goes
      through decides exactly what is due, and it goes through when no vote ends and
      the deposits can be burned; a refund gives back all but the part that is burned;
      shares of delegators that vote are counted once and taken off those of the
      validator; the order of the map in the count does not matter; a proposal
      changes the one parameter it names and nothing else, and keeps them valid,
      but one on governance itself is a panic.  Upgrade: a planned upgrade is
      decided in the block before its height, by the power of the signals.

    Theorems and examples that name a flaw say so in their comment: the zero coin in a burn,
    the slice changed by [removeZeroCoins], the double swap that charges the
    sender twice, the hash lock with a colon, the default maximum supply, the
    lost request for a random number, the transaction over the gas of its block
    that stays, the amounts that stop the node, the price that stops the chain,
    the requests that share a key, the slashing of an unbonding delegation that
    stops the chain, the redelegation that leaves no shares, the rewards that are
    dropped with a validator, the parameter of governance that stops the chain,
    the important proposals that are not counted, and the tax that is burned
    twice.

    ** Bounds and fuel

    Integers keep their width: [wrap64] and [wrap_int64] stand where Go wraps,
    range checks where the code checks.  The binary search of [AmountOf] and
    the loop that removes zero coins have the length of the list as fuel, loops
    over iterators and the skipping loop of the merged iterator one step more
    than the entries left, the printer of numbers one step more than the binary
    logarithm.  Each is proved enough: the theorems on these functions state
    that they return the result, not what holds if they do.  The parser of
    durations has the length of the text as fuel ([duration_terms_enough]), the
    hexadecimal printer the 16 digits of 64 bits ([format_hex_enough]).
    Theorems on runs of governance take times within the calendar of package
    time and proposal numbers below 2^64, those on upgrades heights below 2^63,
    those on windows fewer than 2^62 blocks.

    ** What is a parameter

    Tendermint's [AddressHash] (class [Crypto]), keys and signatures (class
    [KeyOps]) and tm-db's [IsKeyInDomain] (class [TmDb], with its documented
    meaning); JSON (class [JsonOps], [msg_json]), the codec of transactions and
    the bech32 text of an address; the regular expressions an account or message
    supplies; the parser of interface descriptions and the kind of network; the
    logarithms of a gas meter with a base and of the asset fee
    factor, in floating point; the parent of a store (class [KVLaws]); the bank
    under HTLC and coinswap (class [BankLaws], discharged by the bank); consensus
    keys (class [ConsCrypto]) and the hooks of staking (class [StakingHooks],
    discharged by [Chain]); that addresses computed by the hash have their length
    and that the accounts of the community tax, of burned coins and of deposits
    differ (class [AddressLaws], hypothesis [tax_apart]); the texts of the
    addresses of operators, which differ when the addresses do, and of consensus
    addresses; what happens at the begin and the end of a block, and the other protocol versions,
    in the theorems on transactions.

    ** What is not modelled

    Error messages, logs, tags and coin flow records; amino and JSON encodings,
    so that a store holds values and not bytes; the per-byte gas of the keepers'
    own store accesses, and with it the meter that the transactions of a block
    share until the ante handler sets their own; nil numbers; letters beyond ASCII in case mapping and
    trimming; locks.  An iterator is the list of the pairs it has left, since the
    contract of the stores excludes writes while iterating.  A gas store's
    iteration is that of a client that visits the whole domain.  Start-up, the
    stores on disk and queries of baseapp.  Command line, REST and server code,
    key storage, the IAVL tree and the superseded app/v0 are outside.

    Metrics.  In the steps of the theorems on governance the rest of the
    application is any change that takes nothing out of the account of the
    deposits.

    ** Plan

    The routes of staking, distribution, slashing, gov and service in protocol
    v2, with its begin and end of a block. *)

From stdpp Require Export base gmap strings list sorting fin_maps.
From Stdlib Require Export ZArith Lia.

Declare Scope sdk_scope.
Delimit Scope sdk_scope with sdk.
#[export] Set Warnings "-clear-no-such-hyp,-register-all".
#[global] Open Scope sdk_scope.
#[local] Open Scope Z_scope.

Create HintDb sdk.
Create Rewrite HintDb sdk_sign.

(** ** Results of Go functions

    A Go function of the repository either returns normally, returns a
    non-nil [sdk.Error], or panics.  An error is identified by its codespace
    and code; its message is not represented. *)
Record Error := mkError { codespace : string; code : Z }.

Inductive Outcome (A : Type) : Type :=
| Ok (a : A)
| Err (e : Error)
| Panic (why : string).
Arguments Ok {A} a.
Arguments Err {A} e.
Arguments Panic {A} why.

Definition obind {A B} (c : Outcome A) (k : A → Outcome B) : Outcome B :=
  match c with
  | Ok a => k a
  | Err e => Err e
  | Panic w => Panic w
  end.

Notation "'let?' x ':=' c 'in' k" := (obind c (λ x, k))
  (at level 10, x pattern, c at level 200, k at level 200, only parsing) : sdk_scope.

Definition omap {A B} (f : A → B) (c : Outcome A) : Outcome B :=
  obind c (λ a, Ok (f a)).

Definition is_ok {A} (c : Outcome A) : bool :=
  match c with Ok _ => true | _ => false end.

(** ** Stateful code

    A keeper method reads and writes the stores reachable from its context.
    The state is returned in every case: Go does not undo the writes made
    before an error is returned or a panic is raised. *)
Definition M (S A : Type) : Type := S → Outcome A * S.

Definition ret {S A} (a : A) : M S A := λ s, (Ok a, s).
Definition throw {S A} (e : Error) : M S A := λ s, (Err e, s).
Definition panic {S A} (w : string) : M S A := λ s, (Panic w, s).
Definition get {S} : M S S := λ s, (Ok s, s).
Definition put {S} (s : S) : M S unit := λ _, (Ok tt, s).
Definition gets {S A} (f : S → A) : M S A := λ s, (Ok (f s), s).
Definition modify {S} (f : S → S) : M S unit := λ s, (Ok tt, f s).
Definition lift {S A} (c : Outcome A) : M S A := λ s, (c, s).
Definition bind {S A B} (c : M S A) (k : A → M S B) : M S B :=
  λ s, match c s with
       | (Ok a, s') => k a s'
       | (Err e, s') => (Err e, s')
       | (Panic w, s') => (Panic w, s')
       end.

(** A callee whose [sdk.Error] is dropped by the caller; panics still
    propagate. *)
Definition ignore_err {S A} (c : M S A) : M S unit :=
  λ s, match c s with
       | (Ok _, s') | (Err _, s') => (Ok tt, s')
       | (Panic w, s') => (Panic w, s')
       end.

Notation "x <- c ;; k" := (bind c (λ x, k))
  (at level 100, c at next level, right associativity) : sdk_scope.
Notation "c ;;; k" := (bind c (λ _, k))
  (at level 100, right associativity) : sdk_scope.

(** [require b e] is the Go guard [if !b { return e }]. *)
Definition require {S} (b : bool) (e : Error) : M S unit :=
  if b then ret tt else throw e.

(** Run a component's computation on its part of a larger state. *)
Definition zoom {S T A} (view : T → S) (upd : S → T → T) (c : M S A) : M T A :=
  λ t, let '(r, s) := c (view t) in (r, upd s t).

(** Iterate a stateful body over a slice, stopping at the first error. *)
Fixpoint for_each {S A} (l : list A) (body : A → M S unit) : M S unit :=
  match l with
  | [] => ret tt
  | x :: l => body x ;;; for_each l body
  end.

Section monad.
Context {S : Type}.

Lemma bind_ok {A B} (c : M S A) (k : A → M S B) s b s' :
  bind c k s = (Ok b, s') ↔ ∃ a s1, c s = (Ok a, s1) ∧ k a s1 = (Ok b, s').
Proof.
  unfold bind. destruct (c s) as [[a|e|w] s1]; split.
  - eauto.
  - by intros (?&?&[= <- <-]&?).
  - done.
  - by intros (?&?&?&?).
  - done.
  - by intros (?&?&?&?).
Qed.

Lemma bind_run {A B} (c : M S A) (k : A → M S B) s a s1 :
  c s = (Ok a, s1) → bind c k s = k a s1.
Proof. unfold bind. by intros ->. Qed.

Lemma bind_err {A B} (c : M S A) (k : A → M S B) s e s1 :
  c s = (Err e, s1) → bind c k s = (Err e, s1).
Proof. unfold bind. by intros ->. Qed.

Lemma bind_panic {A B} (c : M S A) (k : A → M S B) s w s1 :
  c s = (Panic w, s1) → bind c k s = (Panic w, s1).
Proof. unfold bind. by intros ->. Qed.

Lemma bind_ret {A B} (a : A) (k : A → M S B) : bind (ret a) k = k a.
Proof. done. Qed.

Lemma require_ok b e (s s' : S) u : require b e s = (Ok u, s') ↔ b = true ∧ s' = s.
Proof. destruct u, b; unfold require, ret, throw; naive_solver. Qed.

Lemma lift_ok {A} (c : Outcome A) (s s' : S) a : lift c s = (Ok a, s') ↔ c = Ok a ∧ s' = s.
Proof. unfold lift. naive_solver. Qed.

Lemma for_each_ok {A} (body : A → M S unit) x l (s s' : S) u :
  for_each (x :: l) body s = (Ok u, s') ↔
  ∃ s1, body x s = (Ok tt, s1) ∧ for_each l body s1 = (Ok u, s').
Proof.
  simpl. rewrite bind_ok. split.
  - intros ([]&?&?&?). eauto.
  - intros (?&?&?). eauto.
Qed.
End monad.

Lemma obind_ok {A B} (c : Outcome A) (k : A → Outcome B) b :
  obind c k = Ok b ↔ ∃ a, c = Ok a ∧ k a = Ok b.
Proof. destruct c; naive_solver. Qed.

Lemma omap_ok {A B} (f : A → B) (c : Outcome A) b :
  omap f c = Ok b ↔ ∃ a, c = Ok a ∧ b = f a.
Proof. destruct c; unfold omap; naive_solver. Qed.

Lemma zoom_ok {S T A} (view : T → S) upd (c : M S A) t a t' :
  zoom view upd c t = (Ok a, t') ↔ ∃ s', c (view t) = (Ok a, s') ∧ t' = upd s' t.
Proof. unfold zoom. destruct (c (view t)) as [r s1]; naive_solver. Qed.

(** ** Code that returns no error: it succeeds or panics *)
Definition never_errs {S A} (c : M S A) : Prop := ∀ s e s', c s ≠ (Err e, s').
Definition no_err {A} (o : Outcome A) : Prop := ∀ e, o ≠ Err e.

Create HintDb noerr.
Section never_errs.
Context {S : Type}.

Lemma never_errs_bind {A B} (c : M S A) (k : A → M S B) :
  never_errs c → (∀ a, never_errs (k a)) → never_errs (bind c k).
Proof. unfold never_errs, bind. intros Hc Hk s. specialize (Hc s). destruct (c s) as [[]]; naive_solver. Qed.
Lemma never_errs_lift {A} (o : Outcome A) : no_err o → never_errs (S := S) (lift o).
Proof. unfold no_err, never_errs, lift. naive_solver. Qed.
Lemma never_errs_ignore {A} (c : M S A) : never_errs (ignore_err c).
Proof. unfold never_errs, ignore_err. intros s. destruct (c s) as [[]]; naive_solver. Qed.
Lemma never_errs_zoom {T A} (v : T → S) u (c : M S A) : never_errs c → never_errs (zoom v u c).
Proof. unfold never_errs, zoom. intros Hc t. specialize (Hc (v t)). destruct (c (v t)); naive_solver. Qed.
Lemma never_errs_for_each {A} (l : list A) (body : A → M S unit) :
  (∀ x, never_errs (body x)) → never_errs (for_each l body).
Proof. intros Hb. induction l; simpl; [done|]. by apply never_errs_bind. Qed.
Lemma never_errs_ret {A} (a : A) : never_errs (S := S) (ret a).
Proof. done. Qed.
Lemma never_errs_panic {A} w : never_errs (S := S) (A := A) (panic w).
Proof. done. Qed.
Lemma never_errs_gets {A} (f : S → A) : never_errs (gets f).
Proof. done. Qed.
Lemma never_errs_get : never_errs (S := S) get.
Proof. done. Qed.
Lemma never_errs_modify (f : S → S) : never_errs (modify f).
Proof. done. Qed.
End never_errs.

Lemma no_err_obind {A B} (c : Outcome A) (k : A → Outcome B) :
  no_err c → (∀ a, no_err (k a)) → no_err (obind c k).
Proof. unfold no_err. destruct c; naive_solver. Qed.
#[export] Hint Resolve never_errs_bind never_errs_lift never_errs_ignore never_errs_zoom
  never_errs_for_each never_errs_ret never_errs_panic never_errs_gets never_errs_get
  never_errs_modify no_err_obind : noerr.
#[export] Hint Extern 1 (no_err (Ok _)) => done : noerr.
#[export] Hint Extern 1 (no_err (Panic _)) => done : noerr.

(** The run of a computation, named by its own result. *)
Lemma run_ok {S A} (c : M S A) s a : (c s).1 = Ok a → c s = (Ok a, (c s).2).
Proof. destruct (c s) as [r s']. simpl. by intros ->. Qed.

(** Evaluate a concrete run whose final state is named by the run itself. *)
Ltac run_vm :=
  match goal with
  | |- ?c ?s = (Ok ?a, _) => refine (run_ok c s a _); vm_compute; reflexivity
  end.

(** [inv_ok H] decomposes a hypothesis stating that a computation returned
    normally, following sequencing, guards and lifted results. *)
Ltac inv_ok_step H :=
  lazymatch type of H with
  | bind _ _ _ = (Ok _, _) =>
      let a := fresh "a" in let s := fresh "s" in let E := fresh "E" in
      apply bind_ok in H; destruct H as (a & s & E & H);
      inv_ok_step E; try inv_ok_step H
  | obind _ _ = Ok _ =>
      let a := fresh "a" in let E := fresh "E" in
      apply obind_ok in H; destruct H as (a & E & H);
      try inv_ok_step E; try inv_ok_step H
  | require _ _ _ = (Ok _, _) =>
      let e := fresh "Es" in
      apply require_ok in H; destruct H as [H e]; subst
  | lift _ _ = (Ok _, _) =>
      let e := fresh "Es" in
      apply lift_ok in H; destruct H as [H e]; subst; try inv_ok_step H
  | gets _ _ = (Ok _, _) => unfold gets in H; simplify_eq H; intros; subst; clear H
  | modify _ _ = (Ok _, _) => unfold modify in H; simplify_eq H; intros; subst; clear H
  | ret _ _ = (Ok _, _) => unfold ret in H; simplify_eq H; intros; subst; clear H
  | throw _ _ = (Ok _, _) => discriminate H
  | panic _ _ = (Ok _, _) => discriminate H
  | Err _ = Ok _ => discriminate H
  | Panic _ = Ok _ => discriminate H
  | _ => idtac
  end.
Ltac inv_ok H := inv_ok_step H.

(** ** Byte strings

    Go strings and byte slices are byte sequences compared byte by byte. *)
Definition str_lt (a b : string) : Prop := String.compare a b = Lt.
Definition str_ltb (a b : string) : bool :=
  match String.compare a b with Lt => true | _ => false end.

Lemma str_compare_refl a : String.compare a a = Eq.
Proof.
  induction a as [|c a IH]; [done|]. simpl.
  unfold Ascii.compare. by rewrite N.compare_refl.
Qed.

Lemma str_compare_Eq a b : String.compare a b = Eq ↔ a = b.
Proof.
  split; [apply String.compare_eq_iff|]. intros ->. apply str_compare_refl.
Qed.

Lemma str_compare_Gt a b : String.compare a b = Gt ↔ str_lt b a.
Proof.
  unfold str_lt. rewrite (String.compare_antisym a b).
  by destruct (String.compare b a).
Qed.

Lemma str_lt_trans a b c : str_lt a b → str_lt b c → str_lt a c.
Proof.
  unfold str_lt. revert b c.
  induction a as [|x a IH]; intros [|y b] [|z c]; simpl; try done.
  unfold Ascii.compare.
  destruct (N.compare_spec (Ascii.N_of_ascii x) (Ascii.N_of_ascii y)) as [E1|L1|L1];
  destruct (N.compare_spec (Ascii.N_of_ascii y) (Ascii.N_of_ascii z)) as [E2|L2|L2];
  try done; intros H1 H2.
  - rewrite (proj2 (N.compare_eq_iff _ _)) by congruence. eauto.
  - by rewrite (proj2 (N.compare_lt_iff _ _)) by congruence.
  - by rewrite (proj2 (N.compare_lt_iff _ _)) by congruence.
  - by rewrite (proj2 (N.compare_lt_iff _ _)) by (by etrans).
Qed.

Lemma str_lt_irrefl a : ¬ str_lt a a.
Proof. unfold str_lt. by rewrite str_compare_refl. Qed.

#[export] Instance str_lt_strict : StrictOrder str_lt.
Proof. split; [intros ?; apply str_lt_irrefl | intros ???; apply str_lt_trans]. Qed.

#[export] Instance str_lt_dec a b : Decision (str_lt a b).
Proof. unfold str_lt. solve_decision. Defined.

Lemma str_lt_total a b : str_lt a b ∨ a = b ∨ str_lt b a.
Proof.
  destruct (String.compare a b) eqn:E.
  - right; left. by apply str_compare_Eq.
  - by left.
  - right; right. by apply str_compare_Gt.
Qed.

Lemma str_ltb_spec a b : reflect (str_lt a b) (str_ltb a b).
Proof.
  unfold str_ltb, str_lt. destruct (String.compare a b) eqn:E; constructor; congruence.
Qed.

Lemma str_lt_ne a b : str_lt a b → a ≠ b.
Proof. intros H ->. by apply str_lt_irrefl in H. Qed.

#[export] Hint Resolve str_lt_ne : sdk.

(** Case analysis on Go's [strings.Compare]. *)
Inductive str_cmp_spec (a b : string) : comparison → Prop :=
| StrEq : a = b → str_cmp_spec a b Eq
| StrLt : str_lt a b → str_cmp_spec a b Lt
| StrGt : str_lt b a → str_cmp_spec a b Gt.

Lemma str_compareP a b : str_cmp_spec a b (String.compare a b).
Proof.
  destruct (String.compare a b) eqn:E; constructor; [by apply str_compare_Eq|done|].
  by apply str_compare_Gt.
Qed.

(** ** Sums over finite maps *)
Section map_sum.
Context {K V : Type} `{Countable K}.

Definition map_sum (f : V → Z) (m : gmap K V) : Z :=
  map_fold (λ _ v acc, f v + acc) 0 m.

Lemma map_sum_empty f : map_sum f ∅ = 0.
Proof. apply map_fold_empty. Qed.

Lemma map_sum_insert_new f m k v :
  m !! k = None → map_sum f (<[k:=v]> m) = f v + map_sum f m.
Proof.
  intros Hk. unfold map_sum.
  rewrite (map_fold_insert_L (λ _ v acc, f v + acc)); [done| |done].
  intros. lia.
Qed.

Lemma map_sum_delete f m k v :
  m !! k = Some v → map_sum f (delete k m) = map_sum f m - f v.
Proof.
  intros Hk. rewrite <-(insert_delete_id m k v Hk) at 2.
  rewrite map_sum_insert_new; [lia|]. apply lookup_delete_eq.
Qed.

(** The contribution of one key, zero when it is absent. *)
Definition at_key (f : V → Z) (m : gmap K V) (k : K) : Z :=
  match m !! k with Some v => f v | None => 0 end.

Lemma map_sum_insert f m k v :
  map_sum f (<[k:=v]> m) = map_sum f m - at_key f m k + f v.
Proof.
  unfold at_key. destruct (m !! k) as [v'|] eqn:Hk.
  - rewrite <-insert_delete_eq, map_sum_insert_new by apply lookup_delete_eq.
    rewrite (map_sum_delete _ _ _ _ Hk). lia.
  - rewrite map_sum_insert_new by done. lia.
Qed.

Lemma map_sum_nonneg f m : (∀ k v, m !! k = Some v → 0 ≤ f v) → 0 ≤ map_sum f m.
Proof.
  induction m as [|k v m Hk IH] using map_ind; intros Hf.
  - by rewrite map_sum_empty.
  - rewrite map_sum_insert_new by done.
    assert (0 ≤ f v) by (eapply Hf; apply lookup_insert_eq).
    assert (0 ≤ map_sum f m); [|lia].
    apply IH. intros k' v' Hk'. eapply (Hf k').
    rewrite lookup_insert_ne; [done|]. by intros ->; simplify_eq.
Qed.

Lemma map_sum_le_key f m k v :
  (∀ k v, m !! k = Some v → 0 ≤ f v) → m !! k = Some v → f v ≤ map_sum f m.
Proof.
  intros Hf Hk. pose proof (map_sum_delete f _ _ _ Hk) as Hd.
  assert (0 ≤ map_sum f (delete k m)); [|lia].
  apply map_sum_nonneg. intros k' v' Hk'.
  apply lookup_delete_Some in Hk' as [_ Hk']. eauto.
Qed.

Lemma map_sum_ext f g m :
  (∀ k v, m !! k = Some v → f v = g v) → map_sum f m = map_sum g m.
Proof.
  induction m as [|k v m Hk IH] using map_ind; intros Hf.
  - by rewrite !map_sum_empty.
  - rewrite !map_sum_insert_new by done. f_equal.
    + eapply Hf. apply lookup_insert_eq.
    + apply IH. intros k' v' Hk'. apply (Hf k').
      rewrite lookup_insert_ne; [done|]. by intros ->; simplify_eq.
Qed.
End map_sum.
Arguments map_sum {K V _ _} f m : simpl never.

(** ** Machine integers *)
Definition uint64_max : Z := 2^64 - 1.
Definition wrap64 (x : Z) : Z := x mod 2^64.
(** Conversion to int64 keeps the low 64 bits. *)
Definition wrap_int64 (x : Z) : Z := (x + 2^63) mod 2^64 - 2^63.
Definition is_int64 (x : Z) : bool := (-2^63 <=? x) && (x <? 2^63).
Definition is_uint64 (x : Z) : bool := (0 <=? x) && (x <? 2^64).

Lemma wrap64_small x : 0 ≤ x < 2^64 → wrap64 x = x.
Proof. apply Z.mod_small. Qed.

(** Turn boolean comparisons into linear arithmetic facts. *)
Ltac zbool :=
  repeat match goal with
  | H : _ && _ = true |- _ => apply andb_true_iff in H; destruct H
  | H : _ || _ = false |- _ => apply orb_false_iff in H; destruct H
  | H : negb _ = true |- _ => apply negb_true_iff in H
  | H : negb _ = false |- _ => apply negb_false_iff in H
  | H : (_ <? _) = true |- _ => apply Z.ltb_lt in H
  | H : (_ <? _) = false |- _ => apply Z.ltb_ge in H
  | H : (_ <=? _) = true |- _ => apply Z.leb_le in H
  | H : (_ <=? _) = false |- _ => apply Z.leb_gt in H
  | H : (_ =? _) = true |- _ => apply Z.eqb_eq in H
  | H : (_ =? _) = false |- _ => apply Z.eqb_neq in H
  | H : bool_decide _ = true |- _ => apply bool_decide_eq_true in H
  | H : bool_decide _ = false |- _ => apply bool_decide_eq_false in H
  end.

Lemma wrap_int64_small x : is_int64 x = true → wrap_int64 x = x.
Proof. unfold is_int64, wrap_int64. intros. zbool. rewrite Z.mod_small; lia. Qed.

(** Split the boolean comparison a goal branches on. *)
Ltac zcase :=
  match goal with
  | |- context [?a <? ?b] => destruct (Z.ltb_spec a b)
  | |- context [?a <=? ?b] => destruct (Z.leb_spec a b)
  | |- context [?a =? ?b] => destruct (Z.eqb_spec a b)
  end.

(** ** Sums over lists *)
Fixpoint list_sum {A} (f : A → Z) (l : list A) : Z :=
  match l with [] => 0 | x :: l => f x + list_sum f l end.

Lemma list_sum_app {A} (f : A → Z) l k : list_sum f (l ++ k) = list_sum f l + list_sum f k.
Proof. induction l; simpl; lia. Qed.

Lemma list_sum_perm {A} (f : A → Z) l k : l ≡ₚ k → list_sum f l = list_sum f k.
Proof. induction 1; simpl; lia. Qed.

#[export] Instance list_sum_proper {A} (f : A → Z) : Proper ((≡ₚ) ==> (=)) (list_sum f).
Proof. intros l k. apply list_sum_perm. Qed.

Lemma list_sum_ext {A} (f g : A → Z) l : (∀ x, x ∈ l → f x = g x) → list_sum f l = list_sum g l.
Proof.
  induction l as [|x l IH]; intros Hfg; simpl; [done|]. rewrite Hfg by left. f_equal. apply IH. intros y Hy. apply Hfg. by right.
Qed.

Lemma list_sum_fmap {A B} (g : A → B) (f : B → Z) l : list_sum f (g <$> l) = list_sum (λ x, f (g x)) l.
Proof. induction l; csimpl; lia. Qed.

Lemma list_sum_nonneg {A} (f : A → Z) l : Forall (λ x, 0 ≤ f x) l → 0 ≤ list_sum f l.
Proof. induction 1; simpl; lia. Qed.

Lemma list_sum_le {A} (f : A → Z) l x : Forall (λ x, 0 ≤ f x) l → x ∈ l → f x ≤ list_sum f l.
Proof.
  induction 1 as [|y l Hy Hl IH]; [by intros ?%elem_of_nil|].
  pose proof (list_sum_nonneg f l Hl). intros [->|Hx]%elem_of_cons; simpl; [lia|].
  specialize (IH Hx). lia.
Qed.

Lemma map_sum_list {K V} `{Countable K} (f : V → Z) (m : gmap K V) :
  map_sum f m = list_sum f (map_to_list m).*2.
Proof.
  unfold map_sum. rewrite map_fold_foldr. induction (map_to_list m) as [|[k v] l IH]; [done|].
  csimpl. lia.
Qed.
