(* ===== verification/SdkErrors.v ===== *)
(** * SDK errors (types/errors.go)

    The codes of the root codespace and the error constructors.  An error is
    its codespace and code; messages, traces and JSON logs are not
    represented. *)

From S2P Require Import Prelude.
#[local] Open Scope Z_scope.

Definition CodespaceUndefined : string := "".
Definition CodespaceRoot : string := "sdk".

Definition CodeOK : Z := 0.
Definition CodeInternal : Z := 1.
Definition CodeTxDecode : Z := 2.
Definition CodeInvalidSequence : Z := 3.
Definition CodeUnauthorized : Z := 4.
Definition CodeInsufficientFunds : Z := 5.
Definition CodeUnknownRequest : Z := 6.
Definition CodeInvalidAddress : Z := 7.
Definition CodeInvalidPubKey : Z := 8.
Definition CodeUnknownAddress : Z := 9.
Definition CodeInsufficientCoins : Z := 10.
Definition CodeInvalidCoins : Z := 11.
Definition CodeOutOfGas : Z := 12.
Definition CodeMemoTooLarge : Z := 13.
Definition CodeInsufficientFee : Z := 14.
Definition CodeTooManySignatures : Z := 16.
Definition CodeGasPriceTooLow : Z := 17.
Definition CodeInvalidGas : Z := 18.
Definition CodeExceedsTxSize : Z := 21.
Definition CodeServiceTxLimit : Z := 22.

Definition NewError (codespace : string) (code : Z) : Error := mkError codespace code.
Definition newErrorWithRootCodespace (code : Z) : Error := NewError CodespaceRoot code.

Definition ErrInternal : Error := newErrorWithRootCodespace CodeInternal.
Definition ErrTxDecode : Error := newErrorWithRootCodespace CodeTxDecode.
Definition ErrInvalidSequence : Error := newErrorWithRootCodespace CodeInvalidSequence.
Definition ErrUnauthorized : Error := newErrorWithRootCodespace CodeUnauthorized.
Definition ErrInsufficientFunds : Error := newErrorWithRootCodespace CodeInsufficientFunds.
Definition ErrUnknownRequest : Error := newErrorWithRootCodespace CodeUnknownRequest.
Definition ErrInvalidAddress : Error := newErrorWithRootCodespace CodeInvalidAddress.
Definition ErrUnknownAddress : Error := newErrorWithRootCodespace CodeUnknownAddress.
Definition ErrInvalidPubKey : Error := newErrorWithRootCodespace CodeInvalidPubKey.
Definition ErrInsufficientCoins : Error := newErrorWithRootCodespace CodeInsufficientCoins.
Definition ErrInvalidCoins : Error := newErrorWithRootCodespace CodeInvalidCoins.
Definition ErrOutOfGas : Error := newErrorWithRootCodespace CodeOutOfGas.
Definition ErrMemoTooLarge : Error := newErrorWithRootCodespace CodeMemoTooLarge.
Definition ErrInsufficientFee : Error := newErrorWithRootCodespace CodeInsufficientFee.
Definition ErrTooManySignatures : Error := newErrorWithRootCodespace CodeTooManySignatures.
Definition ErrGasPriceTooLow : Error := newErrorWithRootCodespace CodeGasPriceTooLow.
Definition ErrInvalidGas : Error := newErrorWithRootCodespace CodeInvalidGas.
Definition ErrExceedsTxSize : Error := newErrorWithRootCodespace CodeExceedsTxSize.
Definition ErrServiceTxLimit : Error := newErrorWithRootCodespace CodeServiceTxLimit.

(** The local [codespace] the method computes is not the one it stores. *)
Definition WithDefaultCodespace (err : Error) (cs : string) : Error :=
  let codespace := if bool_decide (codespace err = CodespaceUndefined) then cs else codespace err in
  mkError cs (code err).

(** An error that already has a codespace loses it. *)
Lemma WithDefaultCodespace_overrides :
  codespace (WithDefaultCodespace ErrInvalidCoins "bank") = "bank" ∧
  codespace ErrInvalidCoins ≠ CodespaceUndefined.
Proof. by split. Qed.
