(* ===== verification/Frame.v ===== *)
(** * What a computation leaves alone

    [framed R c]: when [c] returns, the states before and after are related by the
    preorder [R]; the errors it returns have a code other than 0 (a result with
    code 0 counts as a success).  The predicate follows sequencing, so that the
    frame of a handler is that of the store operations it calls. *)

From S2P Require Import Prelude SdkErrors.
#[local] Open Scope Z_scope.

Create HintDb frame.

Definition err_nz {A} (o : Outcome A) : Prop := ∀ e, o = Err e → code e ≠ 0.

Lemma err_nz_ok {A} (a : A) : err_nz (Ok a).
Proof. done. Qed.
Lemma err_nz_panic {A} w : err_nz (Panic w : Outcome A).
Proof. done. Qed.
Lemma err_nz_err {A} e : code e ≠ 0 → err_nz (Err e : Outcome A).
Proof. intros He e' [= <-]. done. Qed.
Lemma err_nz_no_err {A} (o : Outcome A) : no_err o → err_nz o.
Proof. intros Ho e ->. by destruct (Ho e). Qed.
Lemma err_nz_obind {A B} (o : Outcome A) (k : A → Outcome B) :
  err_nz o → (∀ a, o = Ok a → err_nz (k a)) → err_nz (obind o k).
Proof. unfold err_nz, obind. destruct o; naive_solver. Qed.

#[export] Hint Resolve err_nz_ok err_nz_panic err_nz_err : frame.
#[export] Hint Extern 5 (code _ ≠ 0) => (vm_compute; discriminate) : frame.

(** Split the outcomes of an error-or-value expression. *)
Ltac err_nz_step :=
  match goal with
  | |- err_nz (obind _ _) => apply err_nz_obind; [|intros ? ?]
  | |- err_nz (Ok _) => apply err_nz_ok
  | |- err_nz (Panic _) => apply err_nz_panic
  | |- err_nz (Err _) => apply err_nz_err; vm_compute; discriminate
  | |- err_nz (if ?b then _ else _) => destruct b eqn:?
  | |- err_nz (let '(_, _) := ?x in _) => destruct x
  | |- err_nz (match ?x with _ => _ end) => destruct x eqn:?
  | |- err_nz _ => solve [eauto with frame]
  end.
Ltac err_nz := repeat err_nz_step.

Section framed.
Context {S : Type} (R : relation S) `{!PreOrder R}.

Definition framed {A} (c : M S A) : Prop := ∀ s,
  match c s with
  | (Ok _, s') => R s s'
  | (Err e, _) => code e ≠ 0
  | (Panic _, _) => True
  end.

Lemma framed_ok {A} (c : M S A) s a s' : framed c → c s = (Ok a, s') → R s s'.
Proof. intros Hc Hr. specialize (Hc s). by rewrite Hr in Hc. Qed.
Lemma framed_err {A} (c : M S A) s e s' : framed c → c s = (Err e, s') → code e ≠ 0.
Proof. intros Hc Hr. specialize (Hc s). by rewrite Hr in Hc. Qed.
Lemma framed_intro {A} (c : M S A) :
  (∀ s a s', c s = (Ok a, s') → R s s') → (∀ s e s', c s = (Err e, s') → code e ≠ 0) → framed c.
Proof. intros H1 H2 s. destruct (c s) as [[]] eqn:E; eauto. Qed.

Lemma framed_ret {A} (a : A) : framed (ret a).
Proof. intros s. simpl. reflexivity. Qed.
Lemma framed_get : framed get.
Proof. intros s. simpl. reflexivity. Qed.
Lemma framed_gets {A} (f : S → A) : framed (gets f).
Proof. intros s. simpl. reflexivity. Qed.
Lemma framed_panic {A} w : framed (panic (A := A) w).
Proof. done. Qed.
Lemma framed_throw {A} e : code e ≠ 0 → framed (throw (A := A) e).
Proof. by intros He s. Qed.
Lemma framed_require b e : code e ≠ 0 → framed (require b e).
Proof. destruct b; [intros; apply framed_ret|apply framed_throw]. Qed.
Lemma framed_lift {A} (o : Outcome A) : err_nz o → framed (lift o).
Proof. intros Ho s. unfold lift. destruct o; [reflexivity|by apply Ho|done]. Qed.
Lemma framed_bind {A B} (c : M S A) (k : A → M S B) :
  framed c → (∀ a, framed (k a)) → framed (bind c k).
Proof.
  intros Hc Hk s. unfold bind. specialize (Hc s). destruct (c s) as [[a|e|w] s1]; [|done..].
  specialize (Hk a s1). destruct (k a s1) as [[b|e|w] s2]; [by etrans|done..].
Qed.
(** A value bound from a pure expression may be used with its equation. *)
Lemma framed_bind_lift {A B} (o : Outcome A) (k : A → M S B) :
  err_nz o → (∀ a, o = Ok a → framed (k a)) → framed (bind (lift o) k).
Proof. intros Ho Hk s. unfold bind, lift. destruct o; [by apply Hk|by apply Ho|done]. Qed.
Lemma framed_for_each_in {A} (l : list A) (body : A → M S unit) :
  (∀ x, x ∈ l → framed (body x)) → framed (for_each l body).
Proof.
  induction l as [|x l IH]; intros Hb; simpl; [apply framed_ret|].
  apply framed_bind; [apply Hb; set_solver|]. intros _. apply IH. set_solver.
Qed.
Lemma framed_for_each {A} (l : list A) (body : A → M S unit) :
  (∀ x, framed (body x)) → framed (for_each l body).
Proof. intros Hb. by apply framed_for_each_in. Qed.
Lemma framed_modify (f : S → S) : (∀ s, R s (f s)) → framed (modify f).
Proof. intros Hf s. apply Hf. Qed.
Lemma framed_ignore {A} (c : M S A) :
  framed c → (∀ s e s', c s = (Err e, s') → R s s') → framed (ignore_err c).
Proof.
  intros Hc He s. unfold ignore_err. specialize (Hc s). specialize (He s).
  destruct (c s) as [[a|e|w] s1]; naive_solver.
Qed.
Lemma framed_ignore_no_err {A} (c : M S A) : framed c → never_errs c → framed (ignore_err c).
Proof. intros Hc Hn. apply framed_ignore; [done|]. intros s e s' E. by apply Hn in E. Qed.
End framed.

Lemma framed_impl {S A} (R Q : relation S) (c : M S A) : (∀ s s', R s s' → Q s s') → framed R c → framed Q c.
Proof. intros HRQ Hc s. specialize (Hc s). destruct (c s) as [[]]; auto. Qed.

(** The frame of a component inside a larger state. *)
Lemma framed_zoom {S T A} (R : relation S) (Q : relation T) (view : T → S) upd (c : M S A) :
  (∀ t s', R (view t) s' → Q t (upd s' t)) → framed R c → framed Q (zoom view upd c).
Proof.
  intros Hup Hc t. unfold zoom. specialize (Hc (view t)).
  destruct (c (view t)) as [[a|e|w] s1]; [by apply Hup|done..].
Qed.

(** Follow the structure of a computation; the frames of the operations it calls
    come from the hint database. *)
Ltac framed_step :=
  match goal with
  | |- framed ?R (bind (lift _) _) => apply (framed_bind_lift R); [err_nz|intros ? ?]
  | |- framed ?R (bind _ _) => apply (framed_bind R); [|intros ?]
  | |- framed ?R (ret _) => apply (framed_ret R)
  | |- framed ?R get => apply (framed_get R)
  | |- framed ?R (gets _) => apply (framed_gets R)
  | |- framed ?R (panic _) => apply (framed_panic R)
  | |- framed ?R (throw _) => apply (framed_throw R); vm_compute; discriminate
  | |- framed ?R (require _ _) => apply (framed_require R); vm_compute; discriminate
  | |- framed ?R (lift _) => apply (framed_lift R); err_nz
  | |- framed ?R (for_each _ _) => apply (framed_for_each R); intros ?
  | |- framed _ (if ?b then _ else _) => destruct b eqn:?
  | |- framed _ (let '(_, _) := ?x in _) => destruct x
  | |- framed _ (match ?x with _ => _ end) => destruct x eqn:?
  | |- framed _ _ => solve [eauto with frame]
  end.
Ltac framed := repeat framed_step.

(** * Reasoning about computations

    [wp c Q s]: a normal return of [c] from [s] satisfies [Q].  [tot c Q s]: [c]
    returns normally from [s], in a state that satisfies [Q].  The rules follow the
    syntax of a computation, so the tactics [wp] and [tot] walk through its body. *)
Section rules.
Context {S : Type}.
Implicit Types s : S.

Definition wp {A} (c : M S A) (Q : A → S → Prop) s : Prop := ∀ a s', c s = (Ok a, s') → Q a s'.
Definition tot {A} (c : M S A) (Q : A → S → Prop) s : Prop := ∃ a s', c s = (Ok a, s') ∧ Q a s'.

Lemma wp_use {A} (c : M S A) Q s a s' : c s = (Ok a, s') → wp c Q s → Q a s'.
Proof. intros H Hw. by apply Hw. Qed.
Lemma wp_intro {A} (c : M S A) (Q : A → S → Prop) s : (∀ a s', c s = (Ok a, s') → Q a s') → wp c Q s.
Proof. done. Qed.
Lemma wp_run {A} (c : M S A) (Q : A → S → Prop) s a s' : c s = (Ok a, s') → Q a s' → wp c Q s.
Proof. intros E HQ b s1. rewrite E. by intros [= <- <-]. Qed.
Lemma wp_mono {A} (c : M S A) (Q R : A → S → Prop) s : wp c Q s → (∀ a s', Q a s' → R a s') → wp c R s.
Proof. unfold wp. eauto. Qed.
Lemma wp_bind {A B} (c : M S A) (k : A → M S B) Q s : wp c (λ a, wp (k a) Q) s → wp (bind c k) Q s.
Proof. intros H b s' (a&s1&E&Hk)%bind_ok. exact (H _ _ E _ _ Hk). Qed.
Lemma wp_ret {A} (a : A) (Q : A → S → Prop) s : Q a s → wp (ret a) Q s.
Proof. intros H b s' [= <- <-]. done. Qed.
Lemma wp_get (Q : S → S → Prop) s : Q s s → wp get Q s.
Proof. intros H b s' [= <- <-]. done. Qed.
Lemma wp_gets {A} (f : S → A) (Q : A → S → Prop) s : Q (f s) s → wp (gets f) Q s.
Proof. intros H b s' [= <- <-]. done. Qed.
Lemma wp_modify (f : S → S) (Q : unit → S → Prop) s : Q tt (f s) → wp (modify f) Q s.
Proof. intros H b s' [= <- <-]. done. Qed.
Lemma wp_lift {A} (o : Outcome A) (Q : A → S → Prop) s : (∀ a, o = Ok a → Q a s) → wp (lift o) Q s.
Proof. intros H b s' [E ->]%lift_ok. auto. Qed.
Lemma wp_require b e (Q : unit → S → Prop) s : (b = true → Q tt s) → wp (require b e) Q s.
Proof. intros H [] s' [E ->]%require_ok. auto. Qed.
Lemma wp_throw {A} e (Q : A → S → Prop) s : wp (throw e) Q s.
Proof. intros ?? [=]. Qed.
Lemma wp_panic {A} w (Q : A → S → Prop) s : wp (panic w) Q s.
Proof. intros ?? [=]. Qed.
Lemma wp_zoom {T A} (view : S → T) upd (c : M T A) (Q : A → S → Prop) s :
  (∀ a t, c (view s) = (Ok a, t) → Q a (upd t s)) → wp (zoom view upd c) Q s.
Proof. intros H a s' (t&E&->)%zoom_ok. by apply H. Qed.

Lemma wp_ignore {A} (c : M S A) (Q : unit → S → Prop) s :
  wp c (λ _, Q tt) s → (∀ e s', c s = (Err e, s') → Q tt s') → wp (ignore_err c) Q s.
Proof.
  intros Hc He u s'. unfold ignore_err. destruct (c s) as [[a|e|w] s1] eqn:E; intros [= <- <-]; eauto.
Qed.

(** A loop keeps what its body keeps. *)
Lemma wp_for_each {A} (l : list A) (body : A → M S unit) (I : S → Prop) s :
  I s → (∀ a s1, a ∈ l → I s1 → wp (body a) (λ _, I) s1) → wp (for_each l body) (λ _, I) s.
Proof.
  revert s. induction l as [|x l IH]; intros s Hs Hb; [by apply wp_ret|].
  intros u s' H. change (bind (body x) (λ _, for_each l body) s = (Ok u, s')) in H. revert u s' H.
  apply wp_bind. eapply wp_mono; [apply Hb; [set_solver|done]|].
  intros ? s1 Hs1. apply IH; [done|]. intros y s2 Hy. apply Hb. set_solver.
Qed.
(** The loop with the elements that remain. *)
Lemma wp_for_each_list {A} (l : list A) (body : A → M S unit) (I : list A → S → Prop) s :
  I l s → (∀ a l' s1, I (a :: l') s1 → wp (body a) (λ _, I l') s1) → wp (for_each l body) (λ _, I []) s.
Proof.
  intros Hs Hb. revert s Hs. induction l as [|x l IH]; intros s Hs; [by apply wp_ret|].
  intros u s' H. change (bind (body x) (λ _, for_each l body) s = (Ok u, s')) in H. revert u s' H.
  apply wp_bind. eapply wp_mono; [by apply Hb|]. intros ? s1. apply IH.
Qed.

Lemma tot_mono {A} (c : M S A) (Q R : A → S → Prop) s : tot c Q s → (∀ a s', Q a s' → R a s') → tot c R s.
Proof. intros (a&s'&E&HQ) H. exists a, s'. auto. Qed.
Lemma tot_wp {A} (c : M S A) (Q R : A → S → Prop) s :
  tot c Q s → wp c R s → tot c (λ a s', Q a s' ∧ R a s') s.
Proof. intros (a&s'&E&HQ) H. exists a, s'. auto. Qed.
Lemma tot_bind {A B} (c : M S A) (k : A → M S B) Q s : tot c (λ a, tot (k a) Q) s → tot (bind c k) Q s.
Proof. intros (a&s1&E&b&s'&Hk&HQ). exists b, s'. split; [|done]. by rewrite (bind_run _ _ _ _ _ E). Qed.
Lemma tot_ret {A} (a : A) (Q : A → S → Prop) s : Q a s → tot (ret a) Q s.
Proof. intros H. by exists a, s. Qed.
Lemma tot_get (Q : S → S → Prop) s : Q s s → tot get Q s.
Proof. intros H. by exists s, s. Qed.
Lemma tot_gets {A} (f : S → A) (Q : A → S → Prop) s : Q (f s) s → tot (gets f) Q s.
Proof. intros H. by exists (f s), s. Qed.
Lemma tot_modify (f : S → S) (Q : unit → S → Prop) s : Q tt (f s) → tot (modify f) Q s.
Proof. intros H. by exists tt, (f s). Qed.
Lemma tot_lift {A} (o : Outcome A) (Q : A → S → Prop) s a : o = Ok a → Q a s → tot (lift o) Q s.
Proof. intros -> H. by exists a, s. Qed.
Lemma tot_require b e (Q : unit → S → Prop) s : b = true → Q tt s → tot (require b e) Q s.
Proof. intros -> H. by exists tt, s. Qed.
Lemma tot_for_each_list {A} (l : list A) (body : A → M S unit) (I : list A → S → Prop) s :
  I l s → (∀ a l' s1, I (a :: l') s1 → tot (body a) (λ _, I l') s1) → tot (for_each l body) (λ _, I []) s.
Proof.
  intros Hs Hb. revert s Hs. induction l as [|x l IH]; intros s Hs; [by apply tot_ret|].
  change (tot (bind (body x) (λ _, for_each l body)) (λ _, I []) s).
  apply tot_bind. eapply tot_mono; [by apply Hb|]. intros ? s1. apply IH.
Qed.
Lemma tot_ignore {A} (c : M S A) (Q : unit → S → Prop) s : tot c (λ _, Q tt) s → tot (ignore_err c) Q s.
Proof. intros (a&s'&E&HQ). exists tt, s'. split; [|done]. unfold ignore_err. by rewrite E. Qed.
End rules.
Lemma tot_zoom {S T A} (view : S → T) upd (c : M T A) (Q : A → S → Prop) s :
  tot c (λ a t, Q a (upd t s)) (view s) → tot (zoom view upd c) Q s.
Proof. intros (a&t&E&HQ). exists a, (upd t s). split; [|done]. unfold zoom. by rewrite E. Qed.

(** One step through the body of a computation. *)
Ltac wp_step :=
  lazymatch goal with
  | |- wp (bind _ _) _ _ => apply wp_bind
  | |- wp (ret _) _ _ => apply wp_ret
  | |- wp get _ _ => apply wp_get
  | |- wp (gets _) _ _ => apply wp_gets
  | |- wp (modify _) _ _ => apply wp_modify
  | |- wp (lift _) _ _ => apply wp_lift; let a := fresh "x" in let E := fresh "Hx" in intros a E
  | |- wp (require _ _) _ _ => apply wp_require; let E := fresh "Hb" in intros E
  | |- wp (throw _) _ _ => apply wp_throw
  | |- wp (panic _) _ _ => apply wp_panic
  end.
Ltac wps := repeat (wp_step; cbv beta).
(** The first computation of a sequence. *)
Ltac wpb := lazymatch goal with |- wp (bind _ _) _ _ => apply wp_bind; wpb | _ => idtac end.

(** ** What a computation leaves alone *)
Section keeps.
Context {S : Type} (R : relation S) `{!PreOrder R}.
Definition keeps {A} (c : M S A) : Prop := ∀ s, wp c (λ _, R s) s.
Lemma keeps_bind {A B} (c : M S A) (k : A → M S B) : keeps c → (∀ a, keeps (k a)) → keeps (bind c k).
Proof.
  intros Hc Hk s. apply wp_bind. eapply wp_mono; [apply Hc|]. intros a s1 H1. eapply wp_mono; [apply Hk|].
  intros b s2 H2. cbv beta in *. by etrans.
Qed.
Lemma keeps_ret {A} (a : A) : keeps (ret a).
Proof. intros s. apply wp_ret. reflexivity. Qed.
Lemma keeps_get : keeps get.
Proof. intros s. apply wp_get. reflexivity. Qed.
Lemma keeps_gets {A} (f : S → A) : keeps (gets f).
Proof. intros s. apply wp_gets. reflexivity. Qed.
Lemma keeps_modify (f : S → S) : (∀ s, R s (f s)) → keeps (modify f).
Proof. intros Hf s. apply wp_modify, Hf. Qed.
Lemma keeps_lift {A} (o : Outcome A) : keeps (lift o).
Proof. intros s. apply wp_lift. intros a _. reflexivity. Qed.
Lemma keeps_require b e : keeps (require b e).
Proof. intros s. apply wp_require. intros _. reflexivity. Qed.
Lemma keeps_throw {A} e : keeps (throw (A := A) e).
Proof. intros s. apply wp_throw. Qed.
Lemma keeps_panic {A} w : keeps (panic (A := A) w).
Proof. intros s. apply wp_panic. Qed.
Lemma keeps_zoom {T A} (view : S → T) upd (c : M T A) : (∀ s t, R s (upd t s)) → keeps (zoom view upd c).
Proof. intros Hu s. apply wp_zoom. intros a t _. apply Hu. Qed.
Lemma keeps_for_each {A} (l : list A) (body : A → M S unit) : (∀ a, keeps (body a)) → keeps (for_each l body).
Proof.
  intros Hb s. apply wp_for_each; [reflexivity|]. intros a s1 _ H1. eapply wp_mono; [apply Hb|].
  intros [] s2 H2. cbv beta in *. by etrans.
Qed.
End keeps.
Create HintDb keeps.
Ltac keeps_step :=
  lazymatch goal with
  | |- keeps ?R (bind _ _) => apply (keeps_bind R); [|intros ?]
  | |- keeps ?R (ret _) => apply (keeps_ret R)
  | |- keeps ?R get => apply (keeps_get R)
  | |- keeps ?R (gets _) => apply (keeps_gets R)
  | |- keeps ?R (lift _) => apply (keeps_lift R)
  | |- keeps ?R (require _ _) => apply (keeps_require R)
  | |- keeps ?R (throw _) => apply (keeps_throw R)
  | |- keeps ?R (panic _) => apply (keeps_panic R)
  | |- keeps ?R (for_each _ _) => apply (keeps_for_each R); intros ?
  | |- keeps _ (if ?b then _ else _) => destruct b
  | |- keeps _ (let '(_, _) := ?x in _) => destruct x
  | |- keeps _ (match ?x with _ => _ end) => destruct x
  | |- keeps _ _ => solve [eauto with keeps]
  end.
Ltac keeps := repeat keeps_step.
