(* ===== verification/IntType.v ===== *)
(** * Bounded integers (types/int.go)

    [Int] wraps a [big.Int] and panics when a result needs more than 255 bits;
    [Uint] does the same for 256-bit unsigned values.  A value is modelled by
    the integer it holds; a nil pointer (an [Int] that was never set) is not
    represented. *)

From S2P Require Import Prelude.
#[local] Open Scope Z_scope.

Abbreviation Int := Z (only parsing).
Abbreviation Uint := Z (only parsing).

(** ** math/big *)

(** Length of the absolute value in bits; 0 has length 0. *)
Definition BitLen (z : Z) : Z := if z =? 0 then 0 else Z.log2 (Z.abs z) + 1.

(** [big.Int.Div] and [big.Int.Mod] are Euclidean. *)
Definition euclid_div (a b : Z) : Z := Z.sgn b * (a / Z.abs b).
Definition euclid_mod (a b : Z) : Z := a mod Z.abs b.

(** ** Int *)
Definition NewInt (n : Z) : Int := n.

Definition NewIntFromBigInt (i : Z) : Outcome Int :=
  if 255 <? BitLen i then Panic "NewIntFromBigInt() out of bound" else Ok i.

Definition NewIntWithDecimal (n : Z) (dec : Z) : Outcome Int :=
  if dec <? 0 then Panic "NewIntWithDecimal() decimal is negative" else
  let i := n * 10 ^ dec in
  if 255 <? BitLen i then Panic "NewIntWithDecimal() out of bound" else Ok i.

Definition Int_Int64 (i : Int) : Outcome Z :=
  if is_int64 i then Ok i else Panic "Int64() out of bound".

Definition Int_IsZero (i : Int) : bool := Z.sgn i =? 0.
Definition Int_IsNegative (i : Int) : bool := Z.sgn i =? -1.
Definition Int_IsPositive (i : Int) : bool := Z.sgn i =? 1.
Definition Int_Equal (i i2 : Int) : bool := i =? i2.
Definition Int_GT (i i2 : Int) : bool := i2 <? i.
Definition Int_GTE (i i2 : Int) : bool := i2 <=? i.
Definition Int_LT (i i2 : Int) : bool := i <? i2.
Definition Int_LTE (i i2 : Int) : bool := i <=? i2.

Definition Int_Add (i i2 : Int) : Outcome Int :=
  let res := i + i2 in
  if 255 <? BitLen res then Panic "Int overflow" else Ok res.

Definition Int_Sub (i i2 : Int) : Outcome Int :=
  let res := i - i2 in
  if 255 <? BitLen res then Panic "Int overflow" else Ok res.

Definition Int_Mul (i i2 : Int) : Outcome Int :=
  if 255 <? BitLen i + BitLen i2 - 1 then Panic "Int overflow" else
  let res := i * i2 in
  if 255 <? BitLen res then Panic "Int overflow" else Ok res.

Definition Int_Div (i i2 : Int) : Outcome Int :=
  if Z.sgn i2 =? 0 then Panic "Division by zero" else Ok (euclid_div i i2).

Definition Int_Mod (i i2 : Int) : Outcome Int :=
  if Z.sgn i2 =? 0 then Panic "division-by-zero" else Ok (euclid_mod i i2).

Definition Int_AddRaw (i : Int) (i2 : Z) : Outcome Int := Int_Add i (NewInt i2).
Definition Int_SubRaw (i : Int) (i2 : Z) : Outcome Int := Int_Sub i (NewInt i2).
Definition Int_MulRaw (i : Int) (i2 : Z) : Outcome Int := Int_Mul i (NewInt i2).
Definition Int_DivRaw (i : Int) (i2 : Z) : Outcome Int := Int_Div i (NewInt i2).
Definition Int_ModRaw (i : Int) (i2 : Z) : Outcome Int := Int_Mod i (NewInt i2).
Definition Int_Neg (i : Int) : Int := - i.
Definition MinInt (i1 i2 : Int) : Int := if Int_GT i1 i2 then i2 else i1.

(** ** Uint *)
Definition UintOverflow (x : Uint) : bool :=
  (Z.sgn x =? -1) || ((Z.sgn x =? 1) && (256 <? BitLen x)).

Definition NewUintFromBigInt (i : Z) : Outcome Uint :=
  if UintOverflow i then Panic "Uint overflow" else Ok i.

Definition NewUintWithDecimal (n : Z) (dec : Z) : Outcome Uint :=
  if dec <? 0 then Panic "NewUintWithDecimal() decimal is negative" else
  let i := n * 10 ^ dec in
  if UintOverflow i then Panic "NewUintWithDecimal() out of bound" else Ok i.

Definition Uint_Uint64 (i : Uint) : Outcome Z :=
  if is_uint64 i then Ok i else Panic "Uint64() out of bound".

Definition Uint_Add (i i2 : Uint) : Outcome Uint :=
  let res := i + i2 in
  if UintOverflow res then Panic "Uint overflow" else Ok res.

Definition Uint_Sub (i i2 : Uint) : Outcome Uint :=
  let res := i - i2 in
  if UintOverflow res then Panic "Uint overflow" else Ok res.

Definition Uint_SafeSub (i i2 : Uint) : Uint * bool :=
  let res := i - i2 in
  if UintOverflow res then (res, true) else (res, false).

Definition Uint_Mul (i i2 : Uint) : Outcome Uint :=
  if 256 <? BitLen i + BitLen i2 - 1 then Panic "Uint overflow" else
  let res := i * i2 in
  if UintOverflow res then Panic "Uint overflow" else Ok res.

Definition Uint_Div (i i2 : Uint) : Outcome Uint :=
  if Z.sgn i2 =? 0 then Panic "division-by-zero" else Ok (euclid_div i i2).

Definition Uint_Mod (i i2 : Uint) : Outcome Uint :=
  if Z.sgn i2 =? 0 then Panic "division-by-zero" else Ok (euclid_mod i i2).

Definition MinUint (i1 i2 : Uint) : Uint := if Int_GT i1 i2 then i2 else i1.

(** ** uint64 addition with an overflow flag *)
Definition AddUint64Overflow (a b : Z) : Z * bool :=
  if wrap64 (uint64_max - a) <? b then (0, true) else (wrap64 (a + b), false).

(** ** Ranges *)
Definition int_ok (i : Int) : Prop := Z.abs i < 2^255.
Definition uint_ok (i : Uint) : Prop := 0 ≤ i < 2^256.

Lemma BitLen_nonneg z : 0 ≤ BitLen z.
Proof. unfold BitLen. zcase; [lia|]. pose proof (Z.log2_nonneg (Z.abs z)). lia. Qed.

Lemma BitLen_le z n : 0 ≤ n → (BitLen z ≤ n ↔ Z.abs z < 2^n).
Proof.
  intros Hn. unfold BitLen. zcase; [subst|].
  - simpl. pose proof (Z.pow_pos_nonneg 2 n). lia.
  - rewrite (Z.log2_lt_pow2 (Z.abs z) n) by lia. lia.
Qed.

Lemma BitLen_mul_lower a b : a ≠ 0 → b ≠ 0 → BitLen a + BitLen b - 1 ≤ BitLen (a * b).
Proof.
  intros Ha Hb. unfold BitLen.
  rewrite !(proj2 (Z.eqb_neq _ _)) by nia.
  rewrite Z.abs_mul. pose proof (Z.log2_mul_below (Z.abs a) (Z.abs b)). lia.
Qed.

(** The overflow test of [Int]: a length above 255 bits is a value out of range. *)
Lemma overflow_check z : (255 <? BitLen z) = negb (Z.abs z <? 2^255).
Proof.
  pose proof (BitLen_le z 255 ltac:(lia)) as H. cbn [negb].
  destruct (Z.ltb_spec 255 (BitLen z)), (Z.ltb_spec (Z.abs z) (2^255)); simpl; try done; lia.
Qed.

Lemma fits_255 z : (255 <? BitLen z) = false ↔ int_ok z.
Proof.
  rewrite overflow_check. unfold int_ok.
  destruct (Z.ltb_spec (Z.abs z) (2^255)); simpl; split; done || lia.
Qed.

Lemma exceeds_255 z : (255 <? BitLen z) = true ↔ ¬ int_ok z.
Proof. rewrite <-fits_255. by destruct (255 <? BitLen z). Qed.

Lemma UintOverflow_false x : UintOverflow x = false ↔ uint_ok x.
Proof.
  unfold UintOverflow, uint_ok.
  pose proof (BitLen_le x 256 ltac:(lia)) as Hl.
  destruct (Z.sgn_spec x) as [[? ->]|[[? ->]|[? ->]]]; simpl.
  - zcase; split; intros; try done; lia.
  - subst. split; intros; [lia|done].
  - split; [done|lia].
Qed.

(** ** What the arithmetic returns *)

Lemma Int_Add_ok a b c : Int_Add a b = Ok c ↔ c = a + b ∧ int_ok (a + b).
Proof.
  unfold Int_Add. destruct (255 <? BitLen (a + b)) eqn:E.
  - apply exceeds_255 in E. naive_solver.
  - apply fits_255 in E. naive_solver.
Qed.

Lemma Int_Sub_ok a b c : Int_Sub a b = Ok c ↔ c = a - b ∧ int_ok (a - b).
Proof.
  unfold Int_Sub. destruct (255 <? BitLen (a - b)) eqn:E.
  - apply exceeds_255 in E. naive_solver.
  - apply fits_255 in E. naive_solver.
Qed.

(** Overflow is a panic, never an error value. *)
Lemma Int_Sub_no_err a b e : Int_Sub a b ≠ Err e.
Proof. unfold Int_Sub. by case_match. Qed.

Lemma Int_Mul_ok a b c :
  int_ok a → int_ok b → Int_Mul a b = Ok c ↔ c = a * b ∧ int_ok (a * b).
Proof.
  intros Ha Hb. unfold Int_Mul.
  destruct (255 <? BitLen a + BitLen b - 1) eqn:E0.
  - split; [done|]. intros [_ Hab]. apply fits_255 in Hab. zbool.
    destruct (decide (a = 0)) as [->|]; [|destruct (decide (b = 0)) as [->|]].
    + apply fits_255 in Hb. zbool. change (BitLen 0) with 0 in *. lia.
    + apply fits_255 in Ha. zbool. change (BitLen 0) with 0 in *. lia.
    + pose proof (BitLen_mul_lower a b). lia.
  - destruct (255 <? BitLen (a * b)) eqn:E.
    + apply exceeds_255 in E. naive_solver.
    + apply fits_255 in E. naive_solver.
Qed.

(** Without range assumptions a product that is returned is exact. *)
Lemma Int_Mul_exact a b c : Int_Mul a b = Ok c → c = a * b ∧ int_ok (a * b).
Proof.
  unfold Int_Mul. repeat case_match; try done.
  intros [= <-]. split; [done|]. by apply fits_255.
Qed.

Lemma Int_Div_ok a b c : Int_Div a b = Ok c ↔ b ≠ 0 ∧ c = euclid_div a b.
Proof.
  unfold Int_Div. destruct (Z.eqb_spec (Z.sgn b) 0) as [E|E].
  - rewrite Z.sgn_null_iff in E. split; [done|]. by intros [? _].
  - rewrite Z.sgn_null_iff in E. split; [by intros [= <-]|by intros [_ ->]].
Qed.

Lemma euclid_div_pos a b : 0 < b → euclid_div a b = a / b.
Proof.
  intros Hb. unfold euclid_div.
  rewrite Z.sgn_pos, Z.abs_eq by lia. lia.
Qed.

Lemma Int_Div_pos a b c : 0 < b → Int_Div a b = Ok c ↔ c = a / b.
Proof. intros Hb. rewrite Int_Div_ok, euclid_div_pos by done.
  split; [by intros [_ ->]|intros ->; split; [lia|done]].
Qed.

Lemma NewIntFromBigInt_ok a c : NewIntFromBigInt a = Ok c ↔ c = a ∧ int_ok a.
Proof.
  unfold NewIntFromBigInt. destruct (255 <? BitLen a) eqn:E.
  - apply exceeds_255 in E. naive_solver.
  - apply fits_255 in E. naive_solver.
Qed.

Lemma Int_IsZero_iff a : Int_IsZero a = true ↔ a = 0.
Proof. unfold Int_IsZero. rewrite Z.eqb_eq. apply Z.sgn_null_iff. Qed.
Lemma Int_IsPositive_iff a : Int_IsPositive a = true ↔ 0 < a.
Proof. unfold Int_IsPositive. rewrite Z.eqb_eq. apply Z.sgn_pos_iff. Qed.
Lemma Int_IsNegative_iff a : Int_IsNegative a = true ↔ a < 0.
Proof. unfold Int_IsNegative. rewrite Z.eqb_eq. apply Z.sgn_neg_iff. Qed.

Lemma Int_IsZero_eqb a : Int_IsZero a = (a =? 0).
Proof. apply eq_bool_prop_intro. by rewrite !Is_true_true, Int_IsZero_iff, Z.eqb_eq. Qed.
Lemma Int_IsPositive_ltb a : Int_IsPositive a = (0 <? a).
Proof. apply eq_bool_prop_intro. by rewrite !Is_true_true, Int_IsPositive_iff, Z.ltb_lt. Qed.
Lemma Int_IsNegative_ltb a : Int_IsNegative a = (a <? 0).
Proof. apply eq_bool_prop_intro. by rewrite !Is_true_true, Int_IsNegative_iff, Z.ltb_lt. Qed.
#[export] Hint Rewrite Int_IsZero_eqb Int_IsPositive_ltb Int_IsNegative_ltb : sdk_sign.

(** Division and remainder stay in range and satisfy Euclid's equation. *)
Lemma Int_DivMod_euclid a b q r :
  int_ok a → int_ok b → Int_Div a b = Ok q → Int_Mod a b = Ok r →
  a = b * q + r ∧ 0 ≤ r < Z.abs b ∧ int_ok q ∧ int_ok r.
Proof.
  intros Ha Hb [Hb0 ->]%Int_Div_ok Hr.
  unfold Int_Mod in Hr. destruct (Z.eqb_spec (Z.sgn b) 0); [done|].
  injection Hr as <-. unfold euclid_div, euclid_mod, int_ok in *.
  pose proof (Z.div_mod a (Z.abs b) ltac:(lia)) as Hdm.
  pose proof (Z.mod_pos_bound a (Z.abs b) ltac:(lia)) as Hmod.
  assert (Hq : Z.abs (a / Z.abs b) ≤ Z.abs a).
  { destruct (Z.leb_spec 0 a).
    - pose proof (Z.div_pos a (Z.abs b)). pose proof (Z.div_le_upper_bound a (Z.abs b) a). nia.
    - assert (a ≤ a / Z.abs b); [|pose proof (Z.div_lt_upper_bound a (Z.abs b) 0); lia].
      apply Z.div_le_lower_bound; nia. }
  assert (Hs : Z.abs b = b * Z.sgn b) by (symmetry; apply Z.sgn_abs).
  split; [rewrite Z.mul_assoc, <-Hs; lia|]. split; [lia|]. split; [|lia].
  rewrite Z.abs_mul. destruct (Z.sgn_spec b) as [[? ->]|[[? ->]|[? ->]]]; lia.
Qed.

(** Addition of two uint64 values: the flag is raised exactly on wrap-around,
    and otherwise the sum is exact. *)
Lemma AddUint64Overflow_ok a b :
  0 ≤ a < 2^64 → 0 ≤ b < 2^64 →
  AddUint64Overflow a b = if a + b <? 2^64 then (a + b, false) else (0, true).
Proof.
  intros Ha Hb. unfold AddUint64Overflow, uint64_max.
  rewrite wrap64_small by lia.
  destruct (Z.ltb_spec (2^64 - 1 - a) b), (Z.ltb_spec (a + b) (2^64)); try lia; [done|].
  by rewrite wrap64_small by lia.
Qed.

(** ** Exactness and closure of [Int] *)

(** Multiplication of in-range values is exact, and it panics exactly when the
    product does not fit: the cheap length test made before multiplying never
    rejects a product that fits. *)
Theorem Int_Mul_spec (a b : Int) (Ha : int_ok a) (Hb : int_ok b) :
  Int_Mul a b = if Z.abs (a * b) <? 2^255 then Ok (a * b) else Panic "Int overflow".
Proof.
  destruct (Z.ltb_spec (Z.abs (a * b)) (2^255)) as [H|H].
  - by apply Int_Mul_ok.
  - destruct (Int_Mul a b) as [c| |w] eqn:E.
    + apply Int_Mul_ok in E as [_ E]; [|done..]. unfold int_ok in E. lia.
    + unfold Int_Mul in E. by repeat case_match.
    + unfold Int_Mul in E. repeat case_match; congruence.
Qed.

Lemma Int_Mul_spec_witness :
  Int_Mul (2^127) (2^127) = Ok (2^254) ∧ Int_Mul (2^128) (2^127) = Panic "Int overflow".
Proof.
  split.
  - rewrite (Int_Mul_spec (2^127) (2^127)) by (vm_compute; reflexivity). reflexivity.
  - rewrite (Int_Mul_spec (2^128) (2^127)) by (vm_compute; reflexivity). reflexivity.
Defined.
