(* ===== verification/GoStrings.v ===== *)
(** * Go's strings, decimal text and big-endian bytes

    The parts of Go's standard library the repository's string code uses:
    [strings.HasPrefix], [TrimSuffix], [ToLower], [Split], the decimal text of
    a [big.Int] and its parser, and [binary.BigEndian.PutUint64].  Case mapping
    and space trimming are those of ASCII. *)

From S2P Require Import Prelude.
From Stdlib Require Import Ascii.
#[local] Open Scope Z_scope.

(** ** Strings as byte lists *)
Definition chars (s : string) : list ascii := String.list_ascii_of_string s.
Definition str (l : list ascii) : string := String.string_of_list_ascii l.

Lemma str_chars s : str (chars s) = s.
Proof. apply String.string_of_list_ascii_of_string. Qed.
Lemma chars_str l : chars (str l) = l.
Proof. apply String.list_ascii_of_string_of_list_ascii. Qed.
Lemma chars_inj s t : chars s = chars t → s = t.
Proof. intros H. by rewrite <-(str_chars s), <-(str_chars t), H. Qed.
Lemma chars_app s t : chars (s +:+ t) = chars s ++ chars t.
Proof. induction s as [|c s IH]; [done|]. simpl. f_equal. apply IH. Qed.
Lemma str_app l k : str (l ++ k) = str l +:+ str k.
Proof. apply chars_inj. by rewrite chars_app, !chars_str. Qed.
Lemma str_app_assoc (a b c : string) : a +:+ b +:+ c = (a +:+ b) +:+ c.
Proof. apply chars_inj. by rewrite !chars_app, app_assoc. Qed.

Definition str_len (s : string) : nat := length (chars s).

(** ** package strings *)
Definition HasPrefix (s p : string) : bool := bool_decide (chars p `prefix_of` chars s).
Definition HasSuffix (s p : string) : bool := bool_decide (chars p `suffix_of` chars s).
Definition TrimPrefix (s p : string) : string :=
  if HasPrefix s p then str (drop (str_len p) (chars s)) else s.
Definition TrimSuffix (s p : string) : string :=
  if HasSuffix s p then str (take (str_len s - str_len p) (chars s)) else s.

Definition is_upper (c : ascii) : bool :=
  let n := Ascii.N_of_ascii c in ((65 <=? n) && (n <=? 90))%N.
Definition is_lower (c : ascii) : bool :=
  let n := Ascii.N_of_ascii c in ((97 <=? n) && (n <=? 122))%N.
Definition is_digit (c : ascii) : bool :=
  let n := Ascii.N_of_ascii c in ((48 <=? n) && (n <=? 57))%N.
Definition is_space (c : ascii) : bool :=
  let n := Ascii.N_of_ascii c in ((n =? 32) || ((9 <=? n) && (n <=? 13)))%N.

Definition lower_char (c : ascii) : ascii :=
  if is_upper c then Ascii.ascii_of_N (Ascii.N_of_ascii c + 32) else c.
Definition ToLower (s : string) : string := str (lower_char <$> chars s).

Fixpoint drop_while {A} (p : A → bool) (l : list A) : list A :=
  match l with
  | [] => []
  | x :: l' => if p x then drop_while p l' else l
  end.
Definition TrimSpace (s : string) : string :=
  str (rev (drop_while is_space (rev (drop_while is_space (chars s))))).

(** [strings.Split] on a one-byte separator: always at least one part. *)
Fixpoint split_chars (sep : ascii) (l : list ascii) : list (list ascii) :=
  match l with
  | [] => [[]]
  | c :: l' =>
      if bool_decide (c = sep) then [] :: split_chars sep l'
      else match split_chars sep l' with
           | p :: ps => (c :: p) :: ps
           | [] => [[c]]
           end
  end.
Definition Split (s : string) (sep : ascii) : list string :=
  str <$> split_chars sep (chars s).

Lemma HasPrefix_app p s : HasPrefix (p +:+ s) p = true.
Proof. apply bool_decide_eq_true. rewrite chars_app. by apply prefix_app_r. Qed.

Lemma TrimPrefix_app p s : TrimPrefix (p +:+ s) p = s.
Proof.
  unfold TrimPrefix, str_len. rewrite HasPrefix_app, chars_app, drop_app_length.
  apply str_chars.
Qed.

Lemma HasPrefix_iff p s : HasPrefix s p = true ↔ ∃ t, s = p +:+ t.
Proof.
  unfold HasPrefix. rewrite bool_decide_eq_true. split.
  - intros [k Hk]. exists (str k). apply chars_inj. by rewrite Hk, chars_app, chars_str.
  - intros [t ->]. rewrite chars_app. by exists (chars t).
Qed.

Lemma HasSuffix_app s p : HasSuffix (s +:+ p) p = true.
Proof. apply bool_decide_eq_true. rewrite chars_app. by exists (chars s). Qed.

Lemma HasSuffix_iff s p : HasSuffix s p = true ↔ ∃ t, s = t +:+ p.
Proof.
  unfold HasSuffix. rewrite bool_decide_eq_true. split.
  - intros [k Hk]. exists (str k). apply chars_inj. by rewrite Hk, chars_app, chars_str.
  - intros [t ->]. rewrite chars_app. by exists (chars t).
Qed.

Lemma TrimSuffix_app s p : TrimSuffix (s +:+ p) p = s.
Proof.
  unfold TrimSuffix, str_len. rewrite HasSuffix_app, chars_app, length_app.
  rewrite take_app_le by lia. rewrite take_ge by lia. apply str_chars.
Qed.

Lemma ToLower_id s : Forall (λ c, is_upper c = false) (chars s) → ToLower s = s.
Proof.
  intros Hs. unfold ToLower. rewrite <-(str_chars s) at 2. f_equal.
  induction Hs as [|c l Hc _ IH]; [done|]. simpl. f_equal; [|done].
  unfold lower_char. by rewrite Hc.
Qed.

Lemma split_chars_none sep l : sep ∉ l → split_chars sep l = [l].
Proof.
  induction l as [|c l IH]; intros Hn; [done|]. simpl.
  rewrite bool_decide_false by set_solver. rewrite IH by set_solver. done.
Qed.

Lemma split_chars_app sep l k :
  sep ∉ l → split_chars sep (l ++ sep :: k) = l :: split_chars sep k.
Proof.
  induction l as [|c l IH]; intros Hn; simpl.
  - by rewrite bool_decide_true.
  - rewrite bool_decide_false by set_solver. rewrite IH by set_solver. done.
Qed.

(** The text around the last occurrence of a separator is determined. *)
Lemma last_sep_inj {A} (sep : A) (a b a' b' : list A) :
  sep ∉ b → sep ∉ b' → a ++ sep :: b = a' ++ sep :: b' → a = a' ∧ b = b'.
Proof.
  intros Hb Hb'. revert a'. induction a as [|x a IH]; intros [|x' a']; simpl; intros H.
  - by simplify_eq.
  - simplify_eq. exfalso. apply Hb. set_solver.
  - simplify_eq. exfalso. apply Hb'. set_solver.
  - injection H as -> H. by destruct (IH _ H) as [-> ->].
Qed.

(** So is the text around the first one. *)
Lemma first_sep_inj {A} (sep : A) (a b a' b' : list A) :
  sep ∉ a → sep ∉ a' → a ++ sep :: b = a' ++ sep :: b' → a = a'.
Proof.
  revert a'. induction a as [|x a IH]; intros [|x' a'] Ha Ha' E; simpl in *; simplify_eq;
    [done|set_solver|set_solver|].
  f_equal. apply IH; set_solver.
Qed.

(** ** Decimal text of integers *)
Definition digit_char (d : Z) : ascii := Ascii.ascii_of_N (48 + Z.to_N d).
Definition digit_val (c : ascii) : option Z :=
  if is_digit c then Some (Z.of_N (Ascii.N_of_ascii c) - 48) else None.

Fixpoint digits_fuel (fuel : nat) (n : Z) : list ascii :=
  match fuel with
  | O => []
  | S fuel =>
      if n <? 10 then [digit_char n]
      else digits_fuel fuel (n / 10) ++ [digit_char (n mod 10)]
  end.

(** Decimal digits of a non-negative integer; the length in bits is enough
    fuel since each step divides by ten. *)
Definition digits (n : Z) : list ascii := digits_fuel (S (Z.to_nat (Z.log2 n))) n.

(** [big.Int.MarshalText]. *)
Definition int_text (z : Z) : list ascii :=
  if z <? 0 then "-"%char :: digits (- z) else digits z.

Fixpoint parse_digits_acc (acc : Z) (l : list ascii) : option Z :=
  match l with
  | [] => Some acc
  | c :: l => match digit_val c with
              | Some d => parse_digits_acc (acc * 10 + d) l
              | None => None
              end
  end.

Definition parse_digits (l : list ascii) : option Z :=
  match l with [] => None | _ => parse_digits_acc 0 l end.

(** [big.Int.SetString(s, 10)]: an optional sign, then at least one digit. *)
Definition parse_int (l : list ascii) : option Z :=
  match l with
  | "-"%char :: l => Z.opp <$> parse_digits l
  | "+"%char :: l => parse_digits l
  | l => parse_digits l
  end.

Lemma digit_cases d : 0 ≤ d < 10 →
  d = 0 ∨ d = 1 ∨ d = 2 ∨ d = 3 ∨ d = 4 ∨ d = 5 ∨ d = 6 ∨ d = 7 ∨ d = 8 ∨ d = 9.
Proof. lia. Qed.

Lemma digit_val_char d : 0 ≤ d < 10 → digit_val (digit_char d) = Some d.
Proof. intros Hd%digit_cases. by repeat destruct Hd as [->|Hd]; subst. Qed.

Lemma digit_char_is_digit d : 0 ≤ d < 10 → is_digit (digit_char d) = true.
Proof. intros Hd%digit_cases. by repeat destruct Hd as [->|Hd]; subst. Qed.

Lemma digit_val_nonneg c d : digit_val c = Some d → 0 ≤ d < 10.
Proof.
  unfold digit_val, is_digit. case_match; [|done]. intros [= <-].
  apply andb_true_iff in H as [H1%N.leb_le H2%N.leb_le]. lia.
Qed.

Lemma parse_digits_acc_app acc l k :
  parse_digits_acc acc (l ++ k) =
  match parse_digits_acc acc l with Some a => parse_digits_acc a k | None => None end.
Proof.
  revert acc. induction l as [|c l IH]; intros acc; [done|]. simpl.
  destruct (digit_val c); [apply IH|done].
Qed.

Lemma parse_digits_acc_shift acc l n :
  parse_digits_acc 0 l = Some n →
  parse_digits_acc acc l = Some (acc * 10 ^ Z.of_nat (length l) + n).
Proof.
  revert acc n. induction l as [|c l IH] using rev_ind; intros acc n.
  - simpl. intros [= <-]. f_equal. lia.
  - rewrite !parse_digits_acc_app, length_app.
    destruct (parse_digits_acc 0 l) as [m|] eqn:E; [|done].
    rewrite (IH acc m eq_refl). simpl.
    destruct (digit_val c) as [d|]; [|done]. intros [= <-]. f_equal.
    rewrite Nat2Z.inj_add, Z.pow_add_r by lia. simpl. lia.
Qed.

Lemma digits_fuel_parse fuel n :
  0 ≤ n < 2 ^ Z.of_nat fuel → (0 < fuel)%nat →
  parse_digits_acc 0 (digits_fuel fuel n) = Some n.
Proof.
  revert n. induction fuel as [|fuel IH]; intros n Hn Hf; [lia|].
  simpl. zcase.
  - simpl. rewrite digit_val_char by lia. done.
  - rewrite parse_digits_acc_app.
    assert (0 < fuel)%nat by (destruct fuel; [simpl in *; lia|lia]).
    rewrite IH; [|split|done].
    + simpl. pose proof (Z.mod_pos_bound n 10). rewrite digit_val_char by lia.
      f_equal. pose proof (Z.div_mod n 10). lia.
    + apply Z.div_pos; lia.
    + apply Z.div_lt_upper_bound; [lia|].
      rewrite Nat2Z.inj_succ, Z.pow_succ_r in Hn by lia. lia.
Qed.

Lemma digits_parse n : 0 ≤ n → parse_digits_acc 0 (digits n) = Some n.
Proof.
  intros Hn. apply digits_fuel_parse; [|lia]. split; [done|].
  rewrite Nat2Z.inj_succ, Z2Nat.id by apply Z.log2_nonneg.
  destruct (decide (n = 0)) as [->|]; [done|].
  apply Z.log2_spec. lia.
Qed.

Lemma digits_fuel_ne fuel n : (0 < fuel)%nat → digits_fuel fuel n ≠ [].
Proof. destruct fuel; [lia|]. simpl. zcase; [done|]. by destruct (digits_fuel fuel (n / 10)). Qed.

Lemma digits_ne n : digits n ≠ [].
Proof. apply digits_fuel_ne. lia. Qed.

Lemma digits_fuel_digit fuel n :
  0 ≤ n → Forall (λ c, is_digit c = true) (digits_fuel fuel n).
Proof.
  revert n. induction fuel as [|fuel IH]; intros n Hn; simpl; [done|]. zcase.
  - constructor; [|done]. apply digit_char_is_digit. lia.
  - apply Forall_app. split; [apply IH, Z.div_pos; lia|].
    constructor; [|done]. apply digit_char_is_digit. by apply Z.mod_pos_bound.
Qed.

Lemma digits_digit n : 0 ≤ n → Forall (λ c, is_digit c = true) (digits n).
Proof. apply digits_fuel_digit. Qed.

Lemma digits_parse_digits n : 0 ≤ n → parse_digits (digits n) = Some n.
Proof.
  intros Hn. unfold parse_digits. pose proof (digits_parse n Hn) as Hp.
  destruct (digits n) eqn:E; [|done]. by destruct (digits_ne n).
Qed.

(** A text of [k] digits denotes a number below [10^k]. *)
Lemma parse_digits_bound l n :
  parse_digits_acc 0 l = Some n → 0 ≤ n < 10 ^ Z.of_nat (length l).
Proof.
  revert n. induction l as [|c l IH] using rev_ind; intros n; simpl.
  - intros [= <-]. lia.
  - rewrite parse_digits_acc_app, length_app.
    destruct (parse_digits_acc 0 l) as [m|]; [|done]. simpl.
    destruct (digit_val c) as [d|] eqn:Ed; [|done]. intros [= <-].
    specialize (IH m eq_refl). apply digit_val_nonneg in Ed.
    rewrite Nat2Z.inj_add, Z.pow_add_r by lia. simpl. lia.
Qed.

(** The decimal text of [n] is as long as [n] needs. *)
Lemma digits_fuel_length fuel n k :
  0 ≤ n → (0 < k)%nat → n < 10 ^ Z.of_nat k → (length (digits_fuel fuel n) ≤ k)%nat.
Proof.
  revert n k. induction fuel as [|fuel IH]; intros n k Hn Hk Hlt; simpl; [lia|].
  zcase; [simpl; lia|]. rewrite length_app. simpl.
  destruct k as [|[|k]]; [lia|simpl in Hlt; lia|].
  assert (length (digits_fuel fuel (n / 10)) ≤ S k)%nat; [|lia].
  apply IH; [apply Z.div_pos; lia|lia|].
  apply Z.div_lt_upper_bound; [lia|].
  rewrite (Nat2Z.inj_succ (S k)), Z.pow_succ_r in Hlt by lia. lia.
Qed.

Lemma digits_length_le n k :
  0 ≤ n → (0 < k)%nat → (length (digits n) ≤ k)%nat ↔ n < 10 ^ Z.of_nat k.
Proof.
  intros Hn Hk. split; [|by apply digits_fuel_length].
  intros Hl. destruct (parse_digits_bound _ _ (digits_parse n Hn)) as [_ Hb].
  eapply Z.lt_le_trans; [done|]. apply Z.pow_le_mono_r; lia.
Qed.

Lemma parse_int_text z : parse_int (int_text z) = Some z.
Proof.
  unfold int_text. zcase.
  - simpl. rewrite digits_parse_digits by lia. simpl. f_equal. lia.
  - pose proof (digits_digit z ltac:(lia)) as Hd.
    pose proof (digits_parse_digits z ltac:(lia)) as Hp.
    destruct (digits z) as [|c l] eqn:E; [by destruct (digits_ne z)|].
    apply Forall_cons in Hd as [Hc _].
    unfold parse_int. destruct (decide (c = "-"%char)) as [->|]; [done|].
    destruct (decide (c = "+"%char)) as [->|]; [done|].
    rewrite <-Hp. destruct c as [[] [] [] [] [] [] [] []]; done.
Qed.

(** ** Big-endian encoding of a uint64 *)
Definition byte_at (i : Z) (x : Z) : ascii :=
  Ascii.ascii_of_N (Z.to_N (Z.land (Z.shiftr x (8 * i)) 255)).

Definition Uint64ToBigEndian (x : Z) : string :=
  str (map (λ i, byte_at i x) [7; 6; 5; 4; 3; 2; 1; 0]).

Definition byte_val (c : ascii) : Z := Z.of_N (Ascii.N_of_ascii c).
Definition BigEndianToUint64 (s : string) : Z :=
  foldl (λ acc c, acc * 256 + byte_val c) 0 (chars s).

Lemma byte_at_val i x : 0 ≤ i → byte_val (byte_at i x) = (x / 2 ^ (8 * i)) mod 256.
Proof.
  intros Hi. unfold byte_val, byte_at.
  change 255 with (Z.ones 8). rewrite Z.land_ones, Z.shiftr_div_pow2 by lia.
  change (2 ^ 8) with 256. pose proof (Z.mod_pos_bound (x / 2 ^ (8 * i)) 256).
  rewrite Ascii.N_ascii_embedding by lia. rewrite Z2N.id by lia. done.
Qed.

Lemma BigEndian_roundtrip x : 0 ≤ x < 2^64 → BigEndianToUint64 (Uint64ToBigEndian x) = x.
Proof.
  intros Hx. unfold BigEndianToUint64, Uint64ToBigEndian. rewrite chars_str.
  cbn [map foldl]. rewrite !byte_at_val by lia. simpl Z.mul. simpl Z.pow.
  rewrite Z.div_1_r.
  Z.div_mod_to_equations. lia.
Qed.

Lemma Uint64ToBigEndian_inj x y :
  0 ≤ x < 2^64 → 0 ≤ y < 2^64 → Uint64ToBigEndian x = Uint64ToBigEndian y → x = y.
Proof.
  intros Hx Hy H. by rewrite <-(BigEndian_roundtrip x), <-(BigEndian_roundtrip y), H by done.
Qed.

Lemma Uint64ToBigEndian_length x : str_len (Uint64ToBigEndian x) = 8%nat.
Proof. unfold str_len, Uint64ToBigEndian. by rewrite chars_str. Qed.

(** ** encoding/hex *)
Definition hex_digit (n : Z) : ascii :=
  if n <? 10 then digit_char n else Ascii.ascii_of_N (Z.to_N (87 + n)).
Definition hex_val (c : ascii) : option Z :=
  let n := byte_val c in
  if is_digit c then Some (n - 48)
  else if (97 <=? n) && (n <=? 102) then Some (n - 87)
  else if (65 <=? n) && (n <=? 70) then Some (n - 55)
  else None.

Fixpoint hex_encode (l : list ascii) : list ascii :=
  match l with
  | [] => []
  | c :: l => hex_digit (byte_val c / 16) :: hex_digit (byte_val c mod 16) :: hex_encode l
  end.
Fixpoint hex_decode (l : list ascii) : option (list ascii) :=
  match l with
  | [] => Some []
  | a :: b :: l =>
      match hex_val a, hex_val b, hex_decode l with
      | Some x, Some y, Some r => Some (Ascii.ascii_of_N (Z.to_N (16 * x + y)) :: r)
      | _, _, _ => None
      end
  | _ => None
  end.
Definition EncodeToString (s : string) : string := str (hex_encode (chars s)).
Definition DecodeString (s : string) : option string := str <$> hex_decode (chars s).

Lemma byte_hex c :
  hex_val (hex_digit (byte_val c / 16)) = Some (byte_val c / 16) ∧
  hex_val (hex_digit (byte_val c mod 16)) = Some (byte_val c mod 16) ∧
  Ascii.ascii_of_N (Z.to_N (16 * (byte_val c / 16) + byte_val c mod 16)) = c.
Proof. destruct c as [[] [] [] [] [] [] [] []]; vm_compute; split_and!; reflexivity. Qed.

Lemma DecodeString_EncodeToString s : DecodeString (EncodeToString s) = Some s.
Proof.
  unfold DecodeString, EncodeToString. rewrite chars_str.
  assert (H : hex_decode (hex_encode (chars s)) = Some (chars s)).
  { induction (chars s) as [|c l IH]; [done|]. cbn [hex_encode hex_decode].
    destruct (byte_hex c) as (->&->&->). by rewrite IH. }
  rewrite H. simpl. by rewrite str_chars.
Qed.

Lemma EncodeToString_inj s t : EncodeToString s = EncodeToString t → s = t.
Proof.
  intros E%(f_equal DecodeString). rewrite !DecodeString_EncodeToString in E. congruence.
Qed.

(** ** Package strconv *)
(** The value [strconv.ParseInt(_, 10, 64)] returns, and whether with an error. *)
Definition ParseInt64 (s : string) : Z * bool :=
  match parse_int (chars s) with
  | None => (0, true)
  | Some z => if z <? - 2^63 then (- 2^63, true) else if 2^63 - 1 <? z then (2^63 - 1, true) else (z, false)
  end.
