(* ===== verification/Regex.v ===== *)
(** * Regular expressions

    The repository checks denominations with compiled [regexp] patterns.  The
    patterns it uses are character classes, sequences, alternatives and
    bounded repetitions; they are matched here with Brzozowski derivatives, and
    the matcher is proved against the language of the expression. *)

From S2P Require Import Prelude GoStrings.
From Stdlib Require Import Ascii.

Inductive re : Type :=
| RVoid
| REps
| RClass (p : ascii → bool)
| RCat (r1 r2 : re)
| RAlt (r1 r2 : re)
| RStar (r : re).

Inductive matches : re → list ascii → Prop :=
| MEps : matches REps []
| MClass p c : p c = true → matches (RClass p) [c]
| MCat r1 r2 l1 l2 : matches r1 l1 → matches r2 l2 → matches (RCat r1 r2) (l1 ++ l2)
| MAltL r1 r2 l : matches r1 l → matches (RAlt r1 r2) l
| MAltR r1 r2 l : matches r2 l → matches (RAlt r1 r2) l
| MStarNil r : matches (RStar r) []
| MStarCons r c l1 l2 :
    matches r (c :: l1) → matches (RStar r) l2 → matches (RStar r) (c :: l1 ++ l2).

#[export] Hint Constructors matches : sdk.

Fixpoint nullable (r : re) : bool :=
  match r with
  | RVoid | RClass _ => false
  | REps | RStar _ => true
  | RCat r1 r2 => nullable r1 && nullable r2
  | RAlt r1 r2 => nullable r1 || nullable r2
  end.

(** Constructors that keep derivatives small. *)
Definition rcat (r1 r2 : re) : re :=
  match r1, r2 with
  | RVoid, _ | _, RVoid => RVoid
  | REps, r => r
  | r1, r2 => RCat r1 r2
  end.
Definition ralt (r1 r2 : re) : re :=
  match r1, r2 with
  | RVoid, r => r
  | r, RVoid => r
  | r1, r2 => RAlt r1 r2
  end.

Fixpoint deriv (c : ascii) (r : re) : re :=
  match r with
  | RVoid | REps => RVoid
  | RClass p => if p c then REps else RVoid
  | RCat r1 r2 =>
      if nullable r1 then ralt (rcat (deriv c r1) r2) (deriv c r2)
      else rcat (deriv c r1) r2
  | RAlt r1 r2 => ralt (deriv c r1) (deriv c r2)
  | RStar r => rcat (deriv c r) (RStar r)
  end.

Fixpoint re_match (r : re) (l : list ascii) : bool :=
  match l with
  | [] => nullable r
  | c :: l => re_match (deriv c r) l
  end.

Lemma nullable_matches r : nullable r = true ↔ matches r [].
Proof.
  induction r as [| |p|r1 IH1 r2 IH2|r1 IH1 r2 IH2|r IH]; simpl.
  - split; [done|]. inversion 1.
  - split; [constructor|done].
  - split; [done|]. inversion 1.
  - rewrite andb_true_iff, IH1, IH2. split.
    + intros [H1 H2]. by apply (MCat r1 r2 [] []).
    + inversion 1 as [| |? ? l1 l2 H1 H2 E H3| | | |]; subst.
      by apply app_eq_nil in H3 as [-> ->].
  - rewrite orb_true_iff, IH1, IH2. split.
    + intros [H|H]; auto with sdk.
    + inversion 1; auto.
  - split; [constructor|done].
Qed.

Lemma matches_rcat r1 r2 l : matches (rcat r1 r2) l ↔ matches (RCat r1 r2) l.
Proof.
  assert (Hv : ∀ r l, matches (RCat RVoid r) l → False).
  { intros r l' H. inversion H as [| |? ? ? ? H1| | | |]; subst. inversion H1. }
  assert (Hv' : ∀ r l, matches (RCat r RVoid) l → False).
  { intros r l' H. inversion H as [| |? ? ? ? ? H1| | | |]; subst. inversion H1. }
  assert (He : ∀ r l, matches (RCat REps r) l ↔ matches r l).
  { intros r l'. split.
    - inversion 1 as [| |? ? ? ? H1| | | |]; subst. by inversion H1; subst.
    - intros H. by apply (MCat REps r [] l'); [constructor|]. }
  assert (Hvl : ∀ l, matches RVoid l → False) by (intros ? H; inversion H).
  destruct r1, r2; simpl; try done; split; intros H;
    try (by destruct (Hvl _ H)); try (by destruct (Hv _ _ H));
    try (by destruct (Hv' _ _ H)); by apply He.
Qed.

Lemma matches_ralt r1 r2 l : matches (ralt r1 r2) l ↔ matches r1 l ∨ matches r2 l.
Proof.
  assert (Hvl : ∀ l, matches RVoid l → False) by (intros ? H; inversion H).
  assert (Ha : ∀ r1 r2 l, matches (RAlt r1 r2) l ↔ matches r1 l ∨ matches r2 l).
  { intros ???; split; [inversion 1; auto|intros [?|?]; auto with sdk]. }
  destruct r1, r2; simpl; rewrite ?Ha; naive_solver.
Qed.

Lemma deriv_matches c r l : matches (deriv c r) l ↔ matches r (c :: l).
Proof.
  revert l. induction r as [| |p|r1 IH1 r2 IH2|r1 IH1 r2 IH2|r IH]; intros l; simpl.
  - split; inversion 1.
  - split; inversion 1.
  - destruct (p c) eqn:E; split; intros H; inversion H; subst; try congruence; by constructor.
  - assert (Hcat : matches (rcat (deriv c r1) r2) l ↔
                   ∃ l1 l2, l = l1 ++ l2 ∧ matches r1 (c :: l1) ∧ matches r2 l2).
    { rewrite matches_rcat. split.
      - inversion 1; subst. do 2 eexists. split; [done|]. by rewrite <-IH1.
      - intros (l1&l2&->&H1&H2). constructor; [by apply IH1|done]. }
    assert (Hinv : matches (RCat r1 r2) (c :: l) ↔
      (∃ l1 l2, l = l1 ++ l2 ∧ matches r1 (c :: l1) ∧ matches r2 l2) ∨
      (matches r1 [] ∧ matches r2 (c :: l))).
    { split.
      - inversion 1 as [| |? ? l1 l2 H1 H2 E H3| | | |]; subst.
        destruct l1 as [|c' l1]; simpl in *; simplify_eq; eauto 10.
      - intros [(l1&l2&->&H1&H2)|[H1 H2]].
        + by apply (MCat r1 r2 (c :: l1) l2).
        + by apply (MCat r1 r2 [] (c :: l)). }
    rewrite Hinv, <-nullable_matches.
    destruct (nullable r1); rewrite ?matches_ralt, Hcat, ?IH2; naive_solver.
  - rewrite matches_ralt, IH1, IH2. split; [intros [?|?]; auto with sdk|inversion 1; auto].
  - rewrite matches_rcat. split.
    + inversion 1; subst. constructor; [by apply IH|done].
    + inversion 1; subst. constructor; [by apply IH|done].
Qed.

Lemma re_match_iff r l : re_match r l = true ↔ matches r l.
Proof.
  revert r. induction l as [|c l IH]; intros r; simpl.
  - apply nullable_matches.
  - rewrite IH. apply deriv_matches.
Qed.

(** ** Derived forms *)
Definition ropt (r : re) : re := RAlt REps r.
Fixpoint rrep (n : nat) (r : re) : re :=
  match n with O => REps | S n => RCat r (rrep n r) end.
Fixpoint rupto (n : nat) (r : re) : re :=
  match n with O => REps | S n => ropt (RCat r (rupto n r)) end.
(** [r{m,n}] *)
Definition rrange (m n : nat) (r : re) : re := RCat (rrep m r) (rupto (n - m) r).
Definition rchar (c : ascii) : re := RClass (λ x, bool_decide (x = c)).
Definition rany : re := RClass (λ _, true).
(** A pattern without [^] and [$] is searched for anywhere in the text. *)
Definition re_search (r : re) (l : list ascii) : bool :=
  re_match (RCat (RStar rany) (RCat r (RStar rany))) l.

Lemma matches_cat r1 r2 l :
  matches (RCat r1 r2) l ↔ ∃ l1 l2, l = l1 ++ l2 ∧ matches r1 l1 ∧ matches r2 l2.
Proof. split; [inversion 1; eauto|]. intros (?&?&->&?&?). by constructor. Qed.

Lemma matches_opt r l : matches (ropt r) l ↔ l = [] ∨ matches r l.
Proof.
  unfold ropt. split.
  - inversion 1 as [| | |? ? ? H'| | |]; subst; [inversion H'|]; auto.
  - intros [->|?]; auto with sdk.
Qed.

Lemma matches_alt r1 r2 l : matches (RAlt r1 r2) l ↔ matches r1 l ∨ matches r2 l.
Proof. split; [inversion 1; auto|intros [?|?]; auto with sdk]. Qed.

Lemma matches_class p l : matches (RClass p) l ↔ ∃ c, l = [c] ∧ p c = true.
Proof. split; [inversion 1; eauto|]. intros (?&->&?). by constructor. Qed.

Lemma matches_char c l : matches (rchar c) l ↔ l = [c].
Proof.
  unfold rchar. rewrite matches_class. setoid_rewrite bool_decide_eq_true. naive_solver.
Qed.

(** Every character of a matched text belongs to one of the classes. *)
Fixpoint classes_within (P : ascii → Prop) (r : re) : Prop :=
  match r with
  | RVoid | REps => True
  | RClass p => ∀ c, p c = true → P c
  | RCat r1 r2 | RAlt r1 r2 => classes_within P r1 ∧ classes_within P r2
  | RStar r => classes_within P r
  end.

Lemma matches_chars P r l : classes_within P r → matches r l → Forall P l.
Proof.
  intros Hw Hm. induction Hm; simpl in *; destruct_and?; try done; auto.
  - apply Forall_app; auto.
  - specialize (IHHm1 Hw). apply Forall_cons in IHHm1 as [? ?].
    constructor; [done|]. apply Forall_app; auto.
Qed.

Lemma classes_within_rep P n r : classes_within P r → classes_within P (rrep n r).
Proof. induction n; simpl; auto. Qed.
Lemma classes_within_upto P n r : classes_within P r → classes_within P (rupto n r).
Proof. induction n; simpl; auto. Qed.

(** A bounded repetition is non-empty when its lower bound is positive. *)
Lemma matches_rep_length n r l :
  (∀ k, matches r k → length k = 1) → matches (rrep n r) l → length l = n.
Proof.
  intros Hr. revert l. induction n as [|n IH]; intros l; simpl.
  - by inversion 1.
  - rewrite matches_cat. intros (l1&l2&->&H1&H2).
    rewrite length_app, (Hr _ H1), (IH _ H2). done.
Qed.

Lemma matches_upto_class p n l :
  length l ≤ n → Forall (λ c, p c = true) l → matches (rupto n (RClass p)) l.
Proof.
  revert l. induction n as [|n IH]; intros [|c l] Hl Hp; simpl in *; try lia; auto with sdk.
  - apply matches_opt. by left.
  - apply matches_opt. right. apply Forall_cons in Hp as [??].
    apply (MCat _ _ [c] l); [by constructor|]. apply IH; [lia|done].
Qed.

Lemma matches_rep_class p n l :
  length l = n → Forall (λ c, p c = true) l → matches (rrep n (RClass p)) l.
Proof.
  intros <- Hp. induction Hp as [|c l Hc Hp IH]; simpl; [constructor|].
  apply (MCat _ _ [c] l); [by constructor|done].
Qed.

(** A text of the class whose length is within the bounds. *)
Lemma matches_range_class p m n l :
  m ≤ length l ≤ n → Forall (λ c, p c = true) l → matches (rrange m n (RClass p)) l.
Proof.
  intros Hl Hp. unfold rrange. rewrite <-(take_drop m l). constructor.
  - apply matches_rep_class; [rewrite length_take; lia|by apply Forall_take].
  - apply matches_upto_class; [rewrite length_drop; lia|by apply Forall_drop].
Qed.

Lemma matches_star_any l : matches (RStar rany) l.
Proof.
  induction l as [|c l IH]; [constructor|]. apply (MStarCons rany c [] l); [by constructor|done].
Qed.

Lemma re_search_intro r a k b : matches r k → re_search r (a ++ k ++ b) = true.
Proof.
  intros Hk. apply re_match_iff. constructor; [apply matches_star_any|].
  constructor; [done|apply matches_star_any].
Qed.

Lemma re_match_void l : re_match RVoid l = false.
Proof. by induction l. Qed.

Lemma matches_upto_length n p l : matches (rupto n (RClass p)) l → length l ≤ n.
Proof.
  revert l. induction n as [|n IH]; intros l; simpl.
  - by inversion 1.
  - rewrite matches_opt, matches_cat. intros [->|(l1&l2&->&H1&H2)]; [simpl; lia|].
    apply matches_class in H1 as (c&->&_). apply IH in H2. simpl. lia.
Qed.
