(* ===== verification/Denom.v ===== *)
(** * Denominations (types/coin.go, types/coin_type.go, types/asset.go)

    The names of coins: the patterns a denomination has to match, the units of
    the native token, and the conversions between a coin name, its minimum
    denomination and the key of its token in the store. *)

From S2P Require Import Prelude GoStrings Regex.
From Stdlib Require Import Ascii.
#[local] Open Scope Z_scope.

Definition Iris : string := "iris".
Definition IrisAtto : string := "iris-atto".
Definition MinDenomSuffix : string := "-min".
Definition FormatUniABSPrefix : string := "uni:".

(** ** Patterns *)
Definition cls_az (c : ascii) : bool := is_lower c.
Definition cls_az09 (c : ascii) : bool := is_lower c || is_digit c.

(** [[a-z][a-z0-9]{2,7}] *)
Definition reSymbol : re := RCat (RClass cls_az) (rrange 2 7 (RClass cls_az09)).
(** [([a-z][0-9a-z]{2}[:])?] *)
Definition reABS : re :=
  ropt (RCat (RClass cls_az) (RCat (rrep 2 (RClass cls_az09)) (rchar ":"))).
(** [(([a-z][a-z0-9]{2,7}|x)\.)?] *)
Definition reGateway : re := ropt (RCat (RAlt reSymbol (rchar "x")) (rchar ".")).
Definition reCoinName : re := RCat reABS (RCat reGateway reSymbol).
(** [(-[a-z]{3,5})?] *)
Definition reUnit : re := ropt (RCat (rchar "-") (rrange 3 5 (RClass cls_az))).
Definition reDenom : re := RCat reCoinName reUnit.

Definition IsCoinNameValid (coinName : string) : bool := re_match reCoinName (chars coinName).

Definition IsCoinMinDenomValid (denom : string) : bool :=
  if bool_decide (denom ≠ IrisAtto) &&
     (negb (HasSuffix denom MinDenomSuffix) || HasPrefix denom (Iris +:+ "-"))
  then false
  else re_match reDenom (chars denom).

(** ** Units of a coin type *)
Record Unit := mkUnit { u_Denom : string; u_Decimal : Z }.
Definition NewUnit (denom : string) (decimal : Z) : Unit := mkUnit denom decimal.

Record CoinType := mkCoinType {
  ct_Name : string; ct_MinUnit : Unit; ct_Units : list Unit; ct_Desc : string }.

Definition NewIrisCoinType : CoinType :=
  let units :=
    [NewUnit Iris 0; NewUnit "iris-milli" 3; NewUnit "iris-micro" 6; NewUnit "iris-nano" 9;
     NewUnit "iris-pico" 12; NewUnit "iris-femto" 15; NewUnit "iris-atto" 18] in
  {| ct_Name := Iris; ct_Units := units; ct_MinUnit := NewUnit "iris-atto" 18;
     ct_Desc := "IRIS Network" |}.
Definition IrisCoinType : CoinType := NewIrisCoinType.

Definition CoinType_GetUnit (ct : CoinType) (denom : string) : option Unit :=
  list_find (λ u, ToLower denom = ToLower (u_Denom u)) (ct_Units ct) ≫= λ p, Some p.2.

Definition CoinType_GetMainUnit (ct : CoinType) : Unit :=
  default (mkUnit "" 0) (CoinType_GetUnit ct (ct_Name ct)).

(** ** Coin names *)
Definition GetCoinNameByDenom (denom : string) : option string :=
  let denom := ToLower denom in
  if HasPrefix denom (Iris +:+ "-") then
    match CoinType_GetUnit IrisCoinType denom with
    | None => None
    | Some _ => Some Iris
    end
  else if negb (IsCoinMinDenomValid denom) then None
  else
    let coinName := TrimSuffix denom MinDenomSuffix in
    if bool_decide (coinName = "") then None else Some coinName.

Definition GetCoinMinDenom (coinName : string) : option string :=
  let coinName := ToLower (TrimSpace coinName) in
  if bool_decide (coinName = Iris) then Some IrisAtto
  else Some (coinName +:+ MinDenomSuffix).

(** ** Store keys of tokens (types/asset.go) *)
Definition is_alnum (c : ascii) : bool := is_upper c || is_lower c || is_digit c.
(** [[A-Za-z0-9\.]{3,17}], not anchored *)
Definition reToken : re :=
  rrange 3 17 (RClass (λ c, is_alnum c || bool_decide (c = "."%char))).
(** [[A-Za-z0-9\.\-]{3,21}], not anchored *)
Definition reDnm : re :=
  rrange 3 21 (RClass (λ c, is_alnum c || bool_decide (c = "."%char) || bool_decide (c = "-"%char))).

Definition Contains_char (s : string) (c : ascii) : bool := bool_decide (c ∈ chars s).

Definition ConvertIdToTokenKeyId (tokenId : string) : option string :=
  if negb (re_search reToken (chars tokenId)) then None
  else if Contains_char tokenId "." then Some (ToLower tokenId)
  else Some (ToLower ("i." +:+ tokenId)).

Definition ConvertDenomToTokenId (denom : string) : option string :=
  if negb (re_search reDnm (chars denom)) then None
  else match Split denom "-" with
       | tokenId :: _ => Some (ToLower tokenId)
       | [] => None
       end.

Definition ConvertDenomToTokenKeyId (denom : string) : option string :=
  match ConvertDenomToTokenId denom with
  | None => None
  | Some tokenId => ConvertIdToTokenKeyId tokenId
  end.

Example denom_examples :
  IsCoinMinDenomValid "iris-atto" = true ∧ IsCoinMinDenomValid "iris-min" = false ∧
  IsCoinMinDenomValid "btc-min" = true ∧ IsCoinMinDenomValid "gdex.btc-min" = true ∧
  IsCoinMinDenomValid "uni:btc-min" = true ∧ IsCoinMinDenomValid "btc" = false ∧
  ConvertDenomToTokenKeyId "btc-min" = Some "i.btc" ∧
  ConvertDenomToTokenKeyId "x.btc-min" = Some "x.btc".
Proof. vm_compute. repeat split. Qed.

(** ** Facts about valid names *)

(** Characters of a coin name: no dash, no capital, no space. *)
Definition name_char (c : ascii) : Prop :=
  c ≠ "-"%char ∧ is_upper c = false ∧ is_space c = false.

Lemma cls_az_name c : cls_az c = true → name_char c.
Proof. destruct c as [[] [] [] [] [] [] [] []]; vm_compute; intuition discriminate. Qed.
Lemma cls_az09_name c : cls_az09 c = true → name_char c.
Proof. destruct c as [[] [] [] [] [] [] [] []]; vm_compute; intuition discriminate. Qed.
Lemma cls_az_not_sep c : cls_az c = true → c ≠ ":"%char ∧ c ≠ "."%char.
Proof. destruct c as [[] [] [] [] [] [] [] []]; vm_compute; intuition discriminate. Qed.
Lemma cls_az09_not_sep c : cls_az09 c = true → c ≠ ":"%char ∧ c ≠ "."%char.
Proof. destruct c as [[] [] [] [] [] [] [] []]; vm_compute; intuition discriminate. Qed.

Section within.
Context (P : ascii → Prop).
Hypothesis P_az : ∀ c, cls_az c = true → P c.
Hypothesis P_az09 : ∀ c, cls_az09 c = true → P c.

Lemma rchar_within c : P c → classes_within P (rchar c).
Proof. intros Hc c'. rewrite bool_decide_eq_true. by intros ->. Qed.

Lemma reSymbol_within : classes_within P reSymbol.
Proof.
  split; [done|]. split; [by apply classes_within_rep|by apply classes_within_upto].
Qed.

Lemma reABS_within : P ":"%char → classes_within P reABS.
Proof.
  intros Hc. split; [done|]. split; [done|].
  split; [by apply classes_within_rep|by apply rchar_within].
Qed.

Lemma reGateway_within : P "."%char → P "x"%char → classes_within P reGateway.
Proof.
  intros Hd Hx. split; [done|]. split; [split|].
  - apply reSymbol_within.
  - by apply rchar_within.
  - by apply rchar_within.
Qed.
End within.

Lemma reName_within : classes_within name_char reCoinName.
Proof.
  split; [by apply reABS_within; [apply cls_az_name|apply cls_az09_name|]|].
  split; [by apply reGateway_within; [apply cls_az_name|apply cls_az09_name|..]|].
  apply reSymbol_within; [apply cls_az_name|apply cls_az09_name].
Qed.

Lemma name_valid_chars n : IsCoinNameValid n = true → Forall name_char (chars n).
Proof. intros H%re_match_iff. eapply matches_chars; [apply reName_within|done]. Qed.

Lemma no_dash l : Forall name_char l → "-"%char ∉ l.
Proof. rewrite Forall_forall. intros Hl Hin. by destruct (Hl _ Hin). Qed.

Lemma name_valid_lower n : IsCoinNameValid n = true → ToLower n = n.
Proof.
  intros Hn%name_valid_chars. apply ToLower_id. eapply Forall_impl; [done|]. by intros c (?&?&?).
Qed.

Lemma drop_while_none {A} (p : A → bool) l : Forall (λ x, p x = false) l → drop_while p l = l.
Proof. destruct 1 as [|x l Hx]; [done|]. simpl. by rewrite Hx. Qed.

Lemma name_valid_trim n : IsCoinNameValid n = true → TrimSpace n = n.
Proof.
  intros Hn%name_valid_chars. unfold TrimSpace.
  assert (Hs : Forall (λ c, is_space c = false) (chars n)).
  { eapply Forall_impl; [done|]. by intros c (?&?&?). }
  rewrite (drop_while_none _ (chars n)) by done.
  rewrite drop_while_none by (by apply Forall_rev). by rewrite rev_involutive, str_chars.
Qed.

Lemma reSymbol_ne l : matches reSymbol l → l ≠ [].
Proof.
  intros (l1&l2&->&Hc&_)%matches_cat. apply matches_class in Hc as (c&->&_). done.
Qed.

Lemma name_valid_ne n : IsCoinNameValid n = true → n ≠ "".
Proof.
  intros H%re_match_iff ->. apply matches_cat in H as (l1&l2&E&_&H).
  apply matches_cat in H as (l3&l4&->&_&H). apply reSymbol_ne in H.
  simpl in E. symmetry in E. apply app_eq_nil in E as [_ E]. by apply app_eq_nil in E as [_ ?].
Qed.

(** A min-denomination is the native one or a coin name with the suffix. *)
Lemma reDenom_min d n :
  d = n +:+ MinDenomSuffix → matches reDenom (chars d) → IsCoinNameValid n = true.
Proof.
  intros -> Hm. rewrite chars_app in Hm. apply matches_cat in Hm as (l1&l2&E&H1&H2).
  apply re_match_iff. pose proof (matches_chars _ _ _ reName_within H1) as Hc%no_dash.
  apply matches_opt in H2 as [->|H2].
  - rewrite app_nil_r in E. exfalso. apply Hc. rewrite <-E. apply elem_of_app. right. left.
  - apply matches_cat in H2 as (l3&l4&->&H3&H4). apply matches_char in H3 as ->.
    assert (Hd : "-"%char ∉ l4).
    { apply no_dash. eapply matches_chars; [|done].
      split; [apply classes_within_rep|apply classes_within_upto]; exact cls_az_name. }
    apply (last_sep_inj "-"%char (chars n) ["m";"i";"n"]%char) in E as [-> _]; [done| |done].
    vm_compute. set_solver.
Qed.

Lemma name_not_iris_prefix n :
  IsCoinNameValid n = true → HasPrefix (n +:+ MinDenomSuffix) (Iris +:+ "-") = true → n = Iris.
Proof.
  intros Hn [t Ht]%HasPrefix_iff. apply chars_inj.
  pose proof (no_dash _ (name_valid_chars _ Hn)) as Hd.
  apply (f_equal chars) in Ht. rewrite !chars_app, <-app_assoc in Ht.
  eapply (first_sep_inj "-"%char _ _ (chars Iris)); [done| |exact Ht].
  vm_compute. set_solver.
Qed.

Lemma min_denom_inv d :
  IsCoinMinDenomValid d = true →
  d = IrisAtto ∨ ∃ n, d = n +:+ MinDenomSuffix ∧ IsCoinNameValid n = true ∧ n ≠ Iris.
Proof.
  unfold IsCoinMinDenomValid. destruct (decide (d = IrisAtto)) as [->|Hne]; [by left|].
  rewrite (bool_decide_true (d ≠ IrisAtto)) by done.
  destruct (HasSuffix d MinDenomSuffix) eqn:Hs; [|done].
  destruct (HasPrefix d (Iris +:+ "-")) eqn:Hp; [done|]. simpl. intros Hm%re_match_iff.
  right. apply HasSuffix_iff in Hs as [n ->]. exists n.
  split; [done|]. split; [by eapply reDenom_min|]. by intros ->.
Qed.

Lemma reUnit_min : matches reUnit (chars MinDenomSuffix).
Proof. apply re_match_iff. by vm_compute. Qed.

Lemma min_denom_intro n :
  IsCoinNameValid n = true → n ≠ Iris → IsCoinMinDenomValid (n +:+ MinDenomSuffix) = true.
Proof.
  intros Hn Hi. unfold IsCoinMinDenomValid. rewrite HasSuffix_app. simpl.
  destruct (HasPrefix _ _) eqn:Hp; [by apply name_not_iris_prefix in Hp|].
  rewrite andb_false_r. apply re_match_iff. rewrite chars_app.
  constructor; [by apply re_match_iff|apply reUnit_min].
Qed.

(** Lower case is already the case of a valid minimum denomination. *)
Lemma min_denom_lower n : IsCoinNameValid n = true → ToLower (n +:+ MinDenomSuffix) = n +:+ MinDenomSuffix.
Proof.
  intros Hn. apply ToLower_id. rewrite chars_app. apply Forall_app. split.
  - eapply Forall_impl; [by apply name_valid_chars|]. by intros c (?&?&?).
  - repeat constructor.
Qed.

Lemma GetCoinNameByDenom_min n :
  IsCoinNameValid n = true → n ≠ Iris → GetCoinNameByDenom (n +:+ MinDenomSuffix) = Some n.
Proof.
  intros Hn Hi. unfold GetCoinNameByDenom. rewrite min_denom_lower by done.
  destruct (HasPrefix _ _) eqn:Hp; [by apply name_not_iris_prefix in Hp|].
  rewrite min_denom_intro, TrimSuffix_app by done. simpl.
  rewrite bool_decide_false; [done|]. by apply name_valid_ne.
Qed.

(** Coin names and minimum denominations are two views of a coin: every valid
    coin name has a minimum denomination, that denomination is valid, and the
    name is recovered from it. *)
Theorem coin_name_roundtrip (n : string) (Hn : IsCoinNameValid n = true) :
  ∃ d, GetCoinMinDenom n = Some d ∧ IsCoinMinDenomValid d = true ∧
       GetCoinNameByDenom d = Some n.
Proof.
  unfold GetCoinMinDenom. rewrite name_valid_trim, name_valid_lower by done.
  destruct (decide (n = Iris)) as [->|Hi].
  - exists IrisAtto. by vm_compute.
  - rewrite bool_decide_false by done. eexists. split; [done|].
    split; [by apply min_denom_intro|by apply GetCoinNameByDenom_min].
Qed.

Lemma coin_name_roundtrip_witness :
  ∃ d, GetCoinMinDenom "gdex.btc" = Some d ∧ IsCoinMinDenomValid d = true ∧
       GetCoinNameByDenom d = Some "gdex.btc".
Proof. apply (coin_name_roundtrip "gdex.btc"). vm_compute. reflexivity. Defined.

(** Every coin denomination a message can carry names a coin. *)
Lemma min_denom_has_name d :
  IsCoinMinDenomValid d = true → ∃ n, GetCoinNameByDenom d = Some n.
Proof.
  intros [->|(n&->&Hn&Hi)]%min_denom_inv; [by exists Iris|].
  exists n. by apply GetCoinNameByDenom_min.
Qed.

(** ** Token keys *)
Lemma reSymbol_shape l :
  matches reSymbol l → Forall (λ c, cls_az09 c = true) l ∧ (3 ≤ length l ≤ 8)%nat.
Proof.
  intros Hm. split.
  - eapply matches_chars; [|done]. apply reSymbol_within; [|done].
    intros c Hc. unfold cls_az09. unfold cls_az in Hc. by rewrite Hc.
  - apply matches_cat in Hm as (l1&l2&->&(c&->&_)%matches_class&H2).
    apply matches_cat in H2 as (l3&l4&->&H3&H4%matches_upto_length).
    apply matches_rep_length in H3; [|by intros k (?&->&_)%matches_class].
    rewrite !length_app. simpl. lia.
Qed.

(** A valid name ends in a symbol. *)
Lemma name_symbol n :
  IsCoinNameValid n = true →
  ∃ pre sym, chars n = pre ++ sym ∧ Forall (λ c, cls_az09 c = true) sym ∧ (3 ≤ length sym ≤ 8)%nat.
Proof.
  intros (l1&l2&E&_&(l3&l4&->&_&Hs)%matches_cat)%re_match_iff%matches_cat.
  exists (l1 ++ l3), l4. rewrite E, app_assoc. split; [done|]. by apply reSymbol_shape.
Qed.

Lemma az09_alnum c : cls_az09 c = true → is_alnum c = true.
Proof. unfold cls_az09, is_alnum. intros [->| ->]%orb_true_iff; by rewrite !orb_true_r. Qed.

(** The key of the token with a given coin name. *)
Definition token_key (n : string) : string :=
  if Contains_char n "." then n else "i." +:+ n.

Lemma ConvertIdToTokenKeyId_name n :
  IsCoinNameValid n = true → ConvertIdToTokenKeyId n = Some (token_key n).
Proof.
  intros Hn. destruct (name_symbol n Hn) as (pre&sym&E&Hs&Hl).
  unfold ConvertIdToTokenKeyId. rewrite E, <-(app_nil_r sym), re_search_intro; simpl.
  2:{ apply matches_range_class; [lia|]. eapply Forall_impl; [done|].
      intros c Hc. by rewrite az09_alnum. }
  unfold token_key. pose proof (name_valid_lower n Hn) as Hlow.
  destruct (Contains_char n "."); [by rewrite Hlow|].
  f_equal. apply ToLower_id. rewrite chars_app. apply Forall_app. split; [by repeat constructor|].
  eapply Forall_impl; [by apply name_valid_chars|]. by intros c (?&?&?).
Qed.

Lemma split_name n rest :
  IsCoinNameValid n = true → Split (n +:+ "-" +:+ rest) "-" = n :: Split rest "-".
Proof.
  intros Hn. unfold Split. rewrite !chars_app.
  change (chars "-" ++ chars rest) with ("-"%char :: chars rest).
  rewrite split_chars_app by (by apply no_dash, name_valid_chars).
  rewrite fmap_cons. by rewrite str_chars.
Qed.

Lemma ConvertDenomToTokenKeyId_name n rest :
  IsCoinNameValid n = true → ConvertDenomToTokenKeyId (n +:+ "-" +:+ rest) = Some (token_key n).
Proof.
  intros Hn. unfold ConvertDenomToTokenKeyId, ConvertDenomToTokenId.
  rewrite split_name by done. destruct (name_symbol n Hn) as (pre&sym&E&Hs&Hl).
  rewrite chars_app, E, <-app_assoc, re_search_intro; simpl.
  - rewrite name_valid_lower by done. by apply ConvertIdToTokenKeyId_name.
  - apply matches_range_class; [lia|]. eapply Forall_impl; [done|].
    intros c Hc. by rewrite az09_alnum.
Qed.

Lemma name_not_i_dot m : IsCoinNameValid ("i." +:+ m) = false.
Proof.
  unfold IsCoinNameValid. rewrite chars_app.
  change (re_match (deriv "." (deriv "i" reCoinName)) (chars m) = false).
  change (re_match RVoid (chars m) = false). apply re_match_void.
Qed.

Lemma token_key_inj n m :
  IsCoinNameValid n = true → IsCoinNameValid m = true → token_key n = token_key m → n = m.
Proof.
  unfold token_key. intros Hn Hm. pose proof (name_not_i_dot m). pose proof (name_not_i_dot n).
  destruct (Contains_char n "."), (Contains_char m "."); intros E; try done; try congruence.
  by simplify_eq/=.
Qed.

(** The name a valid minimum denomination stands for. *)
Lemma min_denom_name d :
  IsCoinMinDenomValid d = true →
  ∃ n, IsCoinNameValid n = true ∧ ConvertDenomToTokenKeyId d = Some (token_key n) ∧
       d = if decide (n = Iris) then IrisAtto else n +:+ MinDenomSuffix.
Proof.
  intros [->|(n&->&Hn&Hi)]%min_denom_inv.
  - exists Iris. split_and!; by vm_compute.
  - exists n. rewrite decide_False by done. split_and!; [done| |done].
    by apply (ConvertDenomToTokenKeyId_name n "min").
Qed.

(** Distinct denominations have distinct token keys. *)
Lemma ConvertDenomToTokenKeyId_inj d d' :
  IsCoinMinDenomValid d = true → IsCoinMinDenomValid d' = true →
  ConvertDenomToTokenKeyId d = ConvertDenomToTokenKeyId d' → d = d'.
Proof.
  intros (n&Hn&Ek&->)%min_denom_name (m&Hm&Em&->)%min_denom_name.
  rewrite Ek, Em. intros [= E]. by rewrite (token_key_inj n m).
Qed.
