(* ===== verification/Coin.v ===== *)
(** * Coins (types/coin.go)

    A [Coin] is an amount of one denomination; [Coins] is a slice of them kept
    sorted by denomination.  [removeZeroCoins] works in place, so the functions
    built on it also change the array of the slice they are given; the
    [_array] definitions compute what the caller's slice holds afterwards. *)

From S2P Require Import Prelude GoStrings Regex Denom IntType.
#[local] Open Scope Z_scope.

Record Coin := mkCoin { denom : string; amount : Int }.
Abbreviation Coins := (list Coin).

#[export] Instance Coin_eq_dec : EqDecision Coin.
Proof. solve_decision. Defined.

(** ** Coin *)
Definition Coin_IsPositive (c : Coin) : bool := Int_IsPositive (amount c).
Definition Coin_IsNegative (c : Coin) : bool := Int_IsNegative (amount c).
Definition Coin_IsZero (c : Coin) : bool := Int_IsZero (amount c).

Definition NewCoin (d : string) (a : Int) : Outcome Coin :=
  if Int_IsNegative a then Panic "negative coin amount" else Ok (mkCoin d a).

Definition Coin_IsValid (c : Coin) : bool :=
  if Coin_IsNegative c then false else IsCoinMinDenomValid (denom c).

Definition Coin_IsValidIrisAtto (c : Coin) : bool :=
  bool_decide (denom c = IrisAtto) && Coin_IsPositive c.

Definition Coin_IsGTE (c other : Coin) : bool :=
  bool_decide (denom c = denom other) && Int_GTE (amount c) (amount other).
Definition Coin_IsLT (c other : Coin) : bool :=
  bool_decide (denom c = denom other) && Int_LT (amount c) (amount other).
Definition Coin_IsEqual (c other : Coin) : bool :=
  bool_decide (denom c = denom other) && Int_Equal (amount c) (amount other).

Definition Coin_Add (c cB : Coin) : Outcome Coin :=
  if bool_decide (denom c ≠ denom cB) then Panic "invalid coin denominations" else
  let? a := Int_Add (amount c) (amount cB) in Ok (mkCoin (denom c) a).

Definition Coin_Sub (c cB : Coin) : Outcome Coin :=
  if bool_decide (denom c ≠ denom cB) then Panic "invalid coin denominations" else
  let? a := Int_Sub (amount c) (amount cB) in NewCoin (denom c) a.

(** ** Removing zero coins in place

    The loop shifts the tail of the slice [arr[0:l]] left over each zero coin.
    [fuel] bounds the iterations: each one shortens [l - i]. *)
Fixpoint removeZero_loop (fuel : nat) (arr : Coins) (i l : nat) : Coins * nat :=
  match fuel with
  | O => (arr, i)
  | S fuel =>
      if (i <? l)%nat then
        match arr !! i with
        | Some c =>
            if Coin_IsZero c
            then removeZero_loop fuel
                   (take i arr ++ drop (S i) (take l arr) ++ drop (l - 1) arr) i (l - 1)
            else removeZero_loop fuel arr (S i) l
        | None => (arr, i)
        end
      else (arr, i)
  end.

Definition removeZeroCoins (coins : Coins) : Coins :=
  let '(arr, i) := removeZero_loop (length coins) coins 0 (length coins) in take i arr.

(** What the caller's slice reads after the call. *)
Definition removeZeroCoins_array (coins : Coins) : Coins :=
  (removeZero_loop (length coins) coins 0 (length coins)).1.

(** ** Sets of coins *)
Fixpoint safeAdd (coins : Coins) : Coins → Outcome Coins :=
  fix inner (coinsB : Coins) : Outcome Coins :=
    match coins, coinsB with
    | [], [] => Ok []
    | [], _ => Ok (removeZeroCoins coinsB)
    | _, [] => Ok (removeZeroCoins coins)
    | coinA :: restA, coinB :: restB =>
        match String.compare (denom coinA) (denom coinB) with
        | Lt =>
            let? sum := safeAdd restA coinsB in
            Ok (if Coin_IsZero coinA then sum else coinA :: sum)
        | Eq =>
            let? res := Coin_Add coinA coinB in
            let? sum := safeAdd restA restB in
            Ok (if Coin_IsZero res then sum else res :: sum)
        | Gt =>
            let? sum := inner restB in
            Ok (if Coin_IsZero coinB then sum else coinB :: sum)
        end
    end.

(** What the argument slice [coinsB] reads after [coins.safeAdd(coinsB)]: when
    [coins] is exhausted first, the zero coins of the rest of [coinsB] are
    removed in place. *)
Fixpoint safeAdd_arrayB (coins : Coins) : Coins → Coins :=
  fix inner (coinsB : Coins) : Coins :=
    match coins, coinsB with
    | [], _ => removeZeroCoins_array coinsB
    | _, [] => []
    | coinA :: restA, coinB :: restB =>
        match String.compare (denom coinA) (denom coinB) with
        | Lt => safeAdd_arrayB restA coinsB
        | Eq => coinB :: safeAdd_arrayB restA restB
        | Gt => coinB :: inner restB
        end
    end.

Definition IsAnyNegative (coins : Coins) : bool := existsb Coin_IsNegative coins.

Definition Coins_SafeAdd (coins coinsB : Coins) : Outcome (Coins * bool) :=
  let? sum := safeAdd coins coinsB in Ok (sum, IsAnyNegative sum).

Definition Coins_Add (coins coinsB : Coins) : Outcome Coins :=
  let? r := Coins_SafeAdd coins coinsB in
  let '(sum, hasNeg) := r in
  if hasNeg : bool then Panic "negative coin amount" else Ok sum.

Definition negative (coins : Coins) : Coins :=
  map (λ c, mkCoin (denom c) (Int_Neg (amount c))) coins.

Definition Coins_SafeSub (coins coinsB : Coins) : Outcome (Coins * bool) :=
  let? diff := safeAdd coins (negative coinsB) in Ok (diff, IsAnyNegative diff).

Definition Coins_Sub (coins coinsB : Coins) : Outcome Coins :=
  let? r := Coins_SafeSub coins coinsB in
  let '(diff, hasNeg) := r in
  if hasNeg : bool then Panic "negative coin amount" else Ok diff.

Fixpoint IsValid_loop (lowDenom : string) (coins : Coins) : bool :=
  match coins with
  | [] => true
  | c :: coins =>
      if negb (Coin_IsValid c) then false
      else if negb (str_ltb lowDenom (denom c)) then false
      else IsValid_loop (denom c) coins
  end.

Definition Coins_IsValid (coins : Coins) : bool :=
  match coins with
  | [] => true
  | [c] => Coin_IsValid c
  | c :: rest => if negb (Coin_IsValid c) then false else IsValid_loop (denom c) rest
  end.

Definition Coins_IsValidIrisAtto (coins : Coins) : bool :=
  match coins with [c] => Coin_IsValidIrisAtto c | _ => false end.

Definition Coins_IsZero (coins : Coins) : bool := forallb Coin_IsZero coins.
Definition Coins_Empty (coins : Coins) : bool := bool_decide (coins = []).

Definition IsAllPositive (coins : Coins) : bool :=
  match coins with [] => false | _ => forallb Coin_IsPositive coins end.

(** Binary search for a denomination; every step halves the slice, so its
    length is enough fuel. *)
Fixpoint AmountOf_fuel (fuel : nat) (coins : Coins) (d : string) : Int :=
  match fuel with
  | O => 0
  | S fuel =>
      match coins with
      | [] => 0
      | [c] => if bool_decide (denom c = d) then amount c else 0
      | _ =>
          let midIdx := (length coins / 2)%nat in
          match coins !! midIdx with
          | None => 0
          | Some c =>
              if str_ltb d (denom c) then AmountOf_fuel fuel (take midIdx coins) d
              else if bool_decide (d = denom c) then amount c
              else AmountOf_fuel fuel (drop (S midIdx) coins) d
          end
      end
  end.
Definition AmountOf (coins : Coins) (d : string) : Int :=
  AmountOf_fuel (length coins) coins d.

Definition IsAllGT (coins coinsB : Coins) : bool :=
  if Coins_IsZero coins then false
  else if Coins_IsZero coinsB then true
  else forallb (λ cB, negb (Int_LTE (AmountOf coins (denom cB)) (amount cB))) coinsB.

Definition IsAllGTE (coins coinsB : Coins) : bool :=
  if Coins_IsZero coinsB then true
  else if Coins_IsZero coins then false
  else forallb (λ cB, negb (Int_LT (AmountOf coins (denom cB)) (amount cB))) coinsB.

Definition IsAllLT (coins coinsB : Coins) : bool := IsAllGT coinsB coins.
Definition IsAllLTE (coins coinsB : Coins) : bool := IsAllGTE coinsB coins.

Definition IsAnyGT (coins coinsB : Coins) : bool :=
  match coinsB with
  | [] => false
  | _ => existsb (λ c, let amt := AmountOf coinsB (denom c) in
                       Int_GT (amount c) amt && negb (Int_IsZero amt)) coins
  end.
Definition IsAnyGTE (coins coinsB : Coins) : bool :=
  match coinsB with
  | [] => false
  | _ => existsb (λ c, let amt := AmountOf coinsB (denom c) in
                       Int_GTE (amount c) amt && negb (Int_IsZero amt)) coins
  end.

Definition GetCoin (coins : Coins) (d : string) : option Coin :=
  list_find (λ c, denom c = d) coins ≫= λ p, Some p.2.

(** [sort.Sort] on the denominations. *)
Definition denom_le (a b : Coin) : Prop := ¬ str_lt (denom b) (denom a).
#[export] Instance denom_le_dec a b : Decision (denom_le a b).
Proof. unfold denom_le. apply _. Defined.
Definition Coins_Sort (coins : Coins) : Coins := merge_sort denom_le coins.

Definition NewCoins (coins : Coins) : Outcome Coins :=
  let newCoins := removeZeroCoins coins in
  match newCoins with
  | [] => Ok []
  | _ =>
      let newCoins := Coins_Sort newCoins in
      if negb (Coins_IsValid newCoins) then Panic "invalid coin set" else Ok newCoins
  end.

Definition Coins_IsEqual (coins coinsB : Coins) : bool :=
  if bool_decide (length coins ≠ length coinsB) then false else
  forallb (λ p, Coin_IsEqual p.1 p.2) (zip (Coins_Sort coins) (Coins_Sort coinsB)).
