(* ===== verification/CoinFacts.v ===== *)
(** * The algebra of coins

    A [Coins] slice denotes an amount for every denomination, [amt].  Addition
    and subtraction of slices are addition and subtraction of these amounts;
    sorted slices without zero coins are determined by them; the binary search
    of [AmountOf] and the comparison [IsAllGTE] compute what they say. *)

From S2P Require Import Prelude GoStrings Regex Denom IntType Coin.
#[local] Open Scope Z_scope.

(** ** Amounts and sortedness *)
Fixpoint amt (coins : Coins) (d : string) : Z :=
  match coins with
  | [] => 0
  | c :: coins => (if decide (denom c = d) then amount c else 0) + amt coins d
  end.

Definition denom_lt (a b : Coin) : Prop := str_lt (denom a) (denom b).
Definition sorted (coins : Coins) : Prop := StronglySorted denom_lt coins.
Definition nonzero (coins : Coins) : Prop := Forall (λ c, amount c ≠ 0) coins.
Definition nonneg (coins : Coins) : Prop := Forall (λ c, 0 ≤ amount c) coins.
Definition in_range (coins : Coins) : Prop := Forall (λ c, int_ok (amount c)) coins.
Definition valid_denoms (coins : Coins) : Prop :=
  Forall (λ c, IsCoinMinDenomValid (denom c) = true) coins.
(** The shape of every balance the bank writes. *)
Definition canonical (coins : Coins) : Prop := sorted coins ∧ nonzero coins.

#[export] Instance denom_lt_trans : Transitive denom_lt.
Proof. intros ???. unfold denom_lt. apply str_lt_trans. Qed.

Lemma amt_app a b d : amt (a ++ b) d = amt a d + amt b d.
Proof. induction a as [|c a IH]; simpl; [lia|]. rewrite IH. lia. Qed.

Lemma amt_perm a b d : a ≡ₚ b → amt a d = amt b d.
Proof. induction 1; simpl; lia. Qed.

Lemma amt_notin coins d : Forall (λ c, denom c ≠ d) coins → amt coins d = 0.
Proof. induction 1; simpl; [done|]. rewrite decide_False by done. lia. Qed.

Lemma amt_below coins c d :
  sorted (c :: coins) → str_lt d (denom c) → amt (c :: coins) d = 0.
Proof.
  intros Hs Hd. apply amt_notin.
  apply StronglySorted_inv in Hs as [_ Hall]. constructor.
  - intros E. rewrite E in Hd. by apply str_lt_irrefl in Hd.
  - eapply Forall_impl; [done|]. intros c' Hc' E. unfold denom_lt in Hc'. rewrite E in Hc'.
    apply (str_lt_irrefl d). by etrans.
Qed.

Lemma amt_head coins c : sorted (c :: coins) → amt (c :: coins) (denom c) = amount c.
Proof.
  intros [_ Hall]%StronglySorted_inv. simpl. rewrite decide_True by done.
  rewrite amt_notin; [lia|]. eapply Forall_impl; [done|].
  intros c' Hc' E. unfold denom_lt in Hc'. rewrite E in Hc'. by apply str_lt_irrefl in Hc'.
Qed.

Lemma amt_in coins c : sorted coins → c ∈ coins → amt coins (denom c) = amount c.
Proof.
  intros Hs Hin. induction coins as [|c' coins IH]; [by apply elem_of_nil in Hin|].
  apply elem_of_cons in Hin as [->|Hin]; [by apply amt_head|].
  pose proof Hs as [Hs' Hall]%StronglySorted_inv. simpl.
  rewrite Forall_forall in Hall. specialize (Hall _ Hin). unfold denom_lt in Hall.
  rewrite decide_False by auto with sdk. rewrite IH by done. lia.
Qed.

Lemma amt_nonneg coins d : nonneg coins → 0 ≤ amt coins d.
Proof. induction 1; simpl; [done|]. case_decide; lia. Qed.

Lemma amt_pos_in coins d : amt coins d ≠ 0 → ∃ c, c ∈ coins ∧ denom c = d.
Proof.
  induction coins as [|c coins IH]; simpl; [done|]. case_decide as Hd.
  - exists c. split; [left|done].
  - intros H. destruct IH as (c'&?&?); [lia|]. exists c'. split; [by right|done].
Qed.

(** Sorted slices without zero coins are equal when they hold the same amounts. *)
Lemma canonical_ext a b : canonical a → canonical b → (∀ d, amt a d = amt b d) → a = b.
Proof.
  intros [Hsa Hna] [Hsb Hnb]. revert b Hsb Hnb.
  induction a as [|x a IH]; intros [|y b] Hsb Hnb Heq; [done|..].
  - specialize (Heq (denom y)). rewrite amt_head in Heq by done.
    apply Forall_cons in Hnb as [? _]. simpl in Heq. lia.
  - specialize (Heq (denom x)). rewrite amt_head in Heq by done.
    apply Forall_cons in Hna as [? _]. simpl in Heq. lia.
  - apply Forall_cons in Hna as [Hx Hna], Hnb as [Hy Hnb].
    assert (Hd : denom x = denom y).
    { destruct (str_lt_total (denom x) (denom y)) as [Hlt|[?|Hlt]]; [|done|].
      - specialize (Heq (denom x)). rewrite amt_head, amt_below in Heq by done. lia.
      - specialize (Heq (denom y)). rewrite (amt_head b), amt_below in Heq by done. lia. }
    assert (Ha : amount x = amount y).
    { specialize (Heq (denom x)). rewrite amt_head in Heq by done.
      by rewrite Hd, amt_head in Heq by done. }
    destruct x as [dx ax], y as [dy ay]; simpl in *; subst. f_equal.
    apply IH; [by apply StronglySorted_inv in Hsa as [? _]|done|by apply StronglySorted_inv in Hsb as [? _]|done|].
    intros d. specialize (Heq d). simpl in Heq. case_decide; lia.
Qed.

(** ** Removing zero coins *)
Definition nz (c : Coin) : Prop := amount c ≠ 0.
#[export] Instance nz_dec c : Decision (nz c).
Proof. unfold nz. apply _. Defined.

Lemma Coin_IsZero_iff c : Coin_IsZero c = true ↔ amount c = 0.
Proof. apply Int_IsZero_iff. Qed.
Lemma Coin_IsZero_false c : Coin_IsZero c = false ↔ nz c.
Proof. unfold nz. rewrite <-Coin_IsZero_iff. by destruct (Coin_IsZero c). Qed.

Definition zeros (coins : Coins) : nat := length (filter (λ c, ¬ nz c) coins).

Lemma zeros_length coins : (length (filter nz coins) + zeros coins = length coins)%nat.
Proof.
  unfold zeros. induction coins as [|x l IH]; [done|]. rewrite !filter_cons.
  destruct (decide (nz x)); [rewrite decide_False by auto|rewrite decide_True by done]; simpl; lia.
Qed.

Lemma filter_nz_length coins : length (filter nz coins) = length coins → filter nz coins = coins.
Proof.
  induction coins as [|x l IH]; [done|]. rewrite filter_cons. case_decide as Hx; simpl.
  - intros [= Hl]. f_equal. auto.
  - intros Hl. pose proof (zeros_length l). lia.
Qed.

Lemma drop_last (c : Coin) mid d0 : drop (length mid) (c :: mid) = [default d0 (last (c :: mid))].
Proof. revert c. induction mid as [|x mid IH]; intros c; [done|]. simpl. apply IH. Qed.

(** One shift of the loop: the coin after [pre] disappears and the last slot
    keeps its old content. *)
Lemma removeZero_shift pre (c : Coin) mid stale d0 :
  let arr := pre ++ (c :: mid) ++ stale in
  let l := (length pre + S (length mid))%nat in
  take (length pre) arr ++ drop (S (length pre)) (take l arr) ++ drop (l - 1) arr =
  pre ++ mid ++ default d0 (last (c :: mid)) :: stale.
Proof.
  intros arr l. unfold arr, l. rewrite take_app_length.
  rewrite take_app_add. simpl. rewrite take_app_length.
  replace (S (length pre)) with (length pre + 1)%nat by lia.
  replace (length pre + S (length mid) - 1)%nat with (length pre + length mid)%nat by lia.
  rewrite !drop_app_add. simpl. rewrite drop_0. f_equal. f_equal.
  change (c :: mid ++ stale) with ((c :: mid) ++ stale).
  rewrite drop_app_le by (simpl; lia). by rewrite (drop_last c mid d0).
Qed.

Lemma last_cons_default (c x : Coin) mid d0 : default d0 (last (c :: x :: mid)) = default d0 (last (x :: mid)).
Proof. done. Qed.

Lemma replicate_snoc {A} n (x : A) l : replicate n x ++ x :: l = x :: replicate n x ++ l.
Proof. induction n; simpl; [done|]. by f_equal. Qed.

(** The loop started at the boundary of a clean prefix [pre]: it compacts the
    middle and leaves copies of its last coin in the slots it frees. *)
Lemma removeZero_loop_spec fuel pre mid stale d0 :
  (length mid ≤ fuel)%nat →
  removeZero_loop fuel (pre ++ mid ++ stale) (length pre) (length pre + length mid) =
  (pre ++ filter nz mid ++ replicate (zeros mid) (default d0 (last mid)) ++ stale,
   (length pre + length (filter nz mid))%nat).
Proof.
  revert pre mid stale. induction fuel as [|fuel IH]; intros pre mid stale Hf.
  - destruct mid; simpl in *; [|lia]. f_equal. lia.
  - destruct mid as [|c mid]; simpl.
    { rewrite Nat.add_0_r, (proj2 (Nat.ltb_ge _ _)) by lia. done. }
    rewrite (proj2 (Nat.ltb_lt _ _)) by lia.
    rewrite lookup_app_r, Nat.sub_diag by lia. simpl in *.
    unfold zeros. rewrite !filter_cons.
    destruct (Coin_IsZero c) eqn:Hz.
    + apply Coin_IsZero_iff in Hz. rewrite (decide_False (P:=nz c)) by (unfold nz; lia).
      rewrite (decide_True (P:=¬ nz c)) by (unfold nz; lia).
      pose proof (removeZero_shift pre c mid stale d0) as Hs. simpl in Hs. rewrite Hs. clear Hs.
      replace (length pre + S (length mid) - 1)%nat with (length pre + length mid)%nat by lia.
      rewrite IH by lia. f_equal. f_equal. f_equal. unfold zeros. simpl length.
      destruct mid as [|x mid]; [done|]. rewrite last_cons_default. simpl replicate.
      apply replicate_snoc.
    + apply Coin_IsZero_false in Hz. rewrite (decide_True (P:=nz c)) by done.
      rewrite (decide_False (P:=¬ nz c)) by auto.
      specialize (IH (pre ++ [c]) mid stale).
      rewrite length_app, <-!app_assoc in IH. simpl in IH.
      replace (length pre + S (length mid))%nat with (length pre + 1 + length mid)%nat by lia.
      replace (S (length pre)) with (length pre + 1)%nat by lia.
      rewrite IH by lia. f_equal; [|simpl; lia]. f_equal. simpl. f_equal. f_equal. f_equal.
      by destruct mid.
Qed.

Lemma removeZeroCoins_filter coins : removeZeroCoins coins = filter nz coins.
Proof.
  unfold removeZeroCoins.
  pose proof (removeZero_loop_spec (length coins) [] coins [] (mkCoin "" 0) (le_n _)) as H.
  simpl in H. rewrite app_nil_r in H. rewrite H. apply take_app_length.
Qed.

(** What the caller's slice holds after zero coins were removed from it: the
    kept coins, then one copy of its last coin per coin removed. *)
Lemma removeZeroCoins_array_spec coins d0 :
  removeZeroCoins_array coins =
  filter nz coins ++ replicate (zeros coins) (default d0 (last coins)).
Proof.
  unfold removeZeroCoins_array.
  pose proof (removeZero_loop_spec (length coins) [] coins [] d0 (le_n _)) as H.
  simpl in H. rewrite app_nil_r in H. rewrite H. simpl. by rewrite app_nil_r.
Qed.

Lemma removeZeroCoins_array_id coins : nonzero coins → removeZeroCoins_array coins = coins.
Proof.
  intros Hn. rewrite (removeZeroCoins_array_spec coins (mkCoin "" 0)). unfold zeros.
  assert (E1 : filter nz coins = coins).
  { induction Hn; [done|]. rewrite filter_cons_True by done. by f_equal. }
  assert (E2 : filter (λ c, ¬ nz c) coins = []).
  { clear E1. induction Hn; [done|]. rewrite filter_cons_False by auto. done. }
  by rewrite E1, E2, app_nil_r.
Qed.

Lemma amt_filter_nz coins d : amt (filter nz coins) d = amt coins d.
Proof.
  induction coins as [|c coins IH]; [done|]. rewrite filter_cons. unfold nz at 1.
  case_decide as Hz; simpl; rewrite IH; [done|]. case_decide; lia.
Qed.

Lemma sorted_filter (P : Coin → Prop) `{∀ c, Decision (P c)} coins :
  sorted coins → sorted (filter P coins).
Proof.
  induction 1 as [|c coins Hs IH Hall]; [constructor|].
  rewrite filter_cons. case_decide; [|done]. constructor; [done|].
  rewrite Forall_forall in Hall |- *. intros c' [_ Hin]%list_elem_of_filter. auto.
Qed.

Lemma nonzero_filter coins : nonzero (filter nz coins).
Proof. apply Forall_forall. by intros c [? _]%list_elem_of_filter. Qed.

(** ** Addition *)

(** A coin put in front of a sum unless it is zero. *)
Definition cons_nz (c : Coin) (s : Coins) : Coins := if Coin_IsZero c then s else c :: s.

Lemma cons_nz_amt c s d : amt (cons_nz c s) d = (if decide (denom c = d) then amount c else 0) + amt s d.
Proof.
  unfold cons_nz. destruct (Coin_IsZero c) eqn:Hz; [|done].
  apply Coin_IsZero_iff in Hz. rewrite Hz. case_decide; lia.
Qed.

Lemma cons_nz_nonzero c s : nonzero s → nonzero (cons_nz c s).
Proof.
  unfold cons_nz. destruct (Coin_IsZero c) eqn:Hz; [done|].
  apply Coin_IsZero_false in Hz. by constructor.
Qed.

Lemma cons_nz_Forall (P : Coin → Prop) c s : (amount c ≠ 0 → P c) → Forall P s → Forall P (cons_nz c s).
Proof.
  unfold cons_nz. destruct (Coin_IsZero c) eqn:Hz; [done|].
  apply Coin_IsZero_false in Hz. constructor; auto.
Qed.

Lemma cons_nz_sorted c s : Forall (denom_lt c) s → sorted s → sorted (cons_nz c s).
Proof. unfold cons_nz. destruct (Coin_IsZero c); [done|]. by constructor. Qed.

Lemma NewCoin_ok d a c : NewCoin d a = Ok c → c = mkCoin d a ∧ 0 ≤ a.
Proof. unfold NewCoin. rewrite Int_IsNegative_ltb. destruct (Z.ltb_spec a 0); [done|]. intros [= <-]. done. Qed.

Lemma Coin_Add_ok c cB r :
  Coin_Add c cB = Ok r ↔
  denom c = denom cB ∧ int_ok (amount c + amount cB) ∧
  r = mkCoin (denom c) (amount c + amount cB).
Proof.
  unfold Coin_Add. destruct (decide (denom c = denom cB)) as [E|E].
  - rewrite bool_decide_false by auto. rewrite obind_ok.
    setoid_rewrite Int_Add_ok. naive_solver.
  - rewrite bool_decide_true by done. naive_solver.
Qed.

(** The cases of the merge loop. *)
Inductive add_spec : Coins → Coins → Coins → Prop :=
| add_nil_l b : add_spec [] b (filter nz b)
| add_nil_r a : add_spec a [] (filter nz a)
| add_lt x a y b s :
    str_lt (denom x) (denom y) → add_spec a (y :: b) s →
    add_spec (x :: a) (y :: b) (cons_nz x s)
| add_eq x a y b s :
    denom x = denom y → int_ok (amount x + amount y) → add_spec a b s →
    add_spec (x :: a) (y :: b) (cons_nz (mkCoin (denom x) (amount x + amount y)) s)
| add_gt x a y b s :
    str_lt (denom y) (denom x) → add_spec (x :: a) b s →
    add_spec (x :: a) (y :: b) (cons_nz y s).

Lemma safeAdd_spec a b s : safeAdd a b = Ok s → add_spec a b s.
Proof.
  revert b s. induction a as [|x a IHa]; intros b s.
  - destruct b as [|y b]; simpl; intros [= <-]; [apply add_nil_l|].
    rewrite removeZeroCoins_filter. constructor.
  - revert s. induction b as [|y b IHb]; intros s.
    + simpl. intros [= <-]. rewrite removeZeroCoins_filter. constructor.
    + cbn [safeAdd]. destruct (str_compareP (denom x) (denom y)) as [E|L|G]; intros H; inv_ok H.
      * apply Coin_Add_ok in E0 as (_&?&->). injection H as <-. apply add_eq; auto.
      * injection H as <-. apply add_lt; auto.
      * injection H as <-. apply add_gt; auto.
Qed.

Lemma add_spec_amt a b s d : add_spec a b s → amt s d = amt a d + amt b d.
Proof.
  induction 1 as [b|a|x a y b s _ _ IH|x a y b s E _ _ IH|x a y b s _ _ IH];
    rewrite ?cons_nz_amt, ?IH, ?amt_filter_nz; simpl; try lia.
  rewrite E. case_decide; lia.
Qed.

Lemma add_spec_nonzero a b s : add_spec a b s → nonzero s.
Proof. induction 1; auto using nonzero_filter, cons_nz_nonzero. Qed.

(** Denominations of a sum come from its arguments. *)
Lemma add_spec_denoms (P : string → Prop) a b s :
  add_spec a b s → Forall (P ∘ denom) a → Forall (P ∘ denom) b → Forall (P ∘ denom) s.
Proof.
  induction 1 as [b|a|x a y b s _ _ IH|x a y b s E _ _ IH|x a y b s _ _ IH]; intros Ha Hb;
    rewrite ?Forall_cons in *; destruct_and?.
  - apply Forall_forall. intros c [_ Hin]%list_elem_of_filter.
    by rewrite Forall_forall in Hb; apply Hb.
  - apply Forall_forall. intros c [_ Hin]%list_elem_of_filter.
    by rewrite Forall_forall in Ha; apply Ha.
  - apply cons_nz_Forall; [done|]. apply IH; [done|by constructor].
  - apply cons_nz_Forall; [done|]. by apply IH.
  - apply cons_nz_Forall; [done|]. apply IH; [by constructor|done].
Qed.

Lemma sorted_cons_inv c s : sorted (c :: s) → sorted s ∧ Forall (denom_lt c) s.
Proof. apply StronglySorted_inv. Qed.

Lemma denom_lt_weaken x y s : denom_lt x y → Forall (denom_lt y) s → Forall (denom_lt x) (y :: s).
Proof. intros H Hs. constructor; [done|]. eapply Forall_impl; [done|]. intros z. by etrans. Qed.

Lemma add_spec_sorted a b s : add_spec a b s → sorted a → sorted b → sorted s.
Proof.
  induction 1 as [b|a|x a y b s L Hadd IH|x a y b s E _ Hadd IH|x a y b s G Hadd IH]; intros Ha Hb;
    auto using sorted_filter.
  - apply sorted_cons_inv in Ha as [Ha Hx]. apply cons_nz_sorted; [|auto].
    apply (add_spec_denoms (str_lt (denom x)) _ _ _ Hadd); [done|].
    apply sorted_cons_inv in Hb as [_ Hy]. by apply denom_lt_weaken.
  - apply sorted_cons_inv in Ha as [Ha Hx], Hb as [Hb Hy]. apply cons_nz_sorted; [|auto].
    apply (add_spec_denoms (str_lt (denom x)) _ _ _ Hadd); [done|].
    eapply Forall_impl; [exact Hy|]. intros z. unfold denom_lt. simpl. by rewrite E.
  - pose proof Hb as [Hb' Hy]%sorted_cons_inv. apply cons_nz_sorted; [|auto].
    apply (add_spec_denoms (str_lt (denom y)) _ _ _ Hadd); [|done].
    apply sorted_cons_inv in Ha as [_ Hx]. by apply denom_lt_weaken.
Qed.

(** Addition returns a sum when matching coins do not overflow. *)
Definition no_overflow (a b : Coins) : Prop :=
  ∀ x y, x ∈ a → y ∈ b → denom x = denom y → int_ok (amount x + amount y).

Lemma safeAdd_total a b : no_overflow a b → ∃ s, safeAdd a b = Ok s.
Proof.
  revert b. induction a as [|x a IHa]; intros b Hov.
  - destruct b; simpl; eauto.
  - induction b as [|y b IHb]; [simpl; eauto|]. cbn [safeAdd].
    destruct (str_compareP (denom x) (denom y)) as [E|L|G].
    + destruct (IHa b) as [s Hs]; [intros ????; apply Hov; by right|].
      assert (Hxy : Coin_Add x y = Ok (mkCoin (denom x) (amount x + amount y))).
      { apply Coin_Add_ok. split_and!; [done| |done]. apply Hov; set_solver. }
      rewrite Hxy. simpl. rewrite Hs. simpl. eauto.
    + destruct (IHa (y :: b)) as [s Hs]; [intros ????; apply Hov; set_solver|].
      rewrite Hs. simpl. eauto.
    + destruct IHb as [s Hs]; [intros ????; apply Hov; set_solver|].
      cbn [safeAdd] in Hs. rewrite Hs. simpl. eauto.
Qed.

(** Sufficient bound for [no_overflow], in terms of the amounts held. *)
Lemma no_overflow_amt a b :
  sorted a → sorted b → (∀ d, int_ok (amt a d + amt b d)) → no_overflow a b.
Proof.
  intros Ha Hb H x y Hx Hy E. specialize (H (denom x)).
  rewrite (amt_in a x) in H by done. rewrite E, (amt_in b y) in H by done. done.
Qed.

(** ** Negative amounts *)
Lemma IsAnyNegative_false coins : IsAnyNegative coins = false ↔ nonneg coins.
Proof.
  unfold IsAnyNegative, nonneg. induction coins as [|c coins IH]; simpl; [done|].
  rewrite orb_false_iff, Forall_cons, IH. unfold Coin_IsNegative.
  autorewrite with sdk_sign. by rewrite Z.ltb_ge.
Qed.

Lemma IsAnyNegative_true coins : IsAnyNegative coins = true ↔ ∃ c, c ∈ coins ∧ amount c < 0.
Proof.
  unfold IsAnyNegative. rewrite existsb_exists. setoid_rewrite <-list_elem_of_In.
  unfold Coin_IsNegative. by setoid_rewrite Int_IsNegative_iff.
Qed.

Lemma nonneg_amt coins : sorted coins → nonneg coins ↔ ∀ d, 0 ≤ amt coins d.
Proof.
  intros Hs. split; [intros ??; by apply amt_nonneg|].
  intros H. apply Forall_forall. intros c Hc. specialize (H (denom c)).
  by rewrite amt_in in H.
Qed.

Lemma amt_negative coins d : amt (negative coins) d = - amt coins d.
Proof.
  induction coins as [|c coins IH]; [done|]. simpl. rewrite IH. unfold Int_Neg. case_decide; lia.
Qed.

Lemma sorted_negative coins : sorted coins → sorted (negative coins).
Proof.
  induction 1 as [|c coins Hs IH Hall]; [constructor|]. simpl. constructor; [done|].
  unfold negative. apply Forall_map. eapply Forall_impl; [exact Hall|]. done.
Qed.

(** ** Results of the checked operations *)
Lemma Coins_Add_ok a b s :
  Coins_Add a b = Ok s ↔ safeAdd a b = Ok s ∧ nonneg s.
Proof.
  unfold Coins_Add, Coins_SafeAdd. destruct (safeAdd a b) as [s'|e|w]; simpl;
    [|by split; [|intros [??]]..].
  destruct (IsAnyNegative s') eqn:E.
  - split; [done|]. intros [[= <-] Hn]. apply IsAnyNegative_false in Hn. congruence.
  - apply IsAnyNegative_false in E. naive_solver.
Qed.

Lemma Coins_Add_amt a b s d : Coins_Add a b = Ok s → amt s d = amt a d + amt b d.
Proof. intros [H _]%Coins_Add_ok. by apply add_spec_amt, safeAdd_spec. Qed.

Lemma Coins_Add_canonical a b s :
  sorted a → sorted b → Coins_Add a b = Ok s → canonical s ∧ nonneg s.
Proof.
  intros Ha Hb [H%safeAdd_spec Hn]%Coins_Add_ok. split; [split|done].
  - by eapply add_spec_sorted.
  - by eapply add_spec_nonzero.
Qed.

Lemma Coins_Add_total a b :
  sorted a → sorted b → nonneg a → nonneg b → (∀ d, int_ok (amt a d + amt b d)) →
  ∃ s, Coins_Add a b = Ok s.
Proof.
  intros Ha Hb Na Nb H. destruct (safeAdd_total a b) as [s Hs]; [by apply no_overflow_amt|].
  exists s. apply Coins_Add_ok. split; [done|]. apply safeAdd_spec in Hs.
  apply nonneg_amt; [by eapply add_spec_sorted|]. intros d.
  rewrite (add_spec_amt _ _ _ _ Hs). pose proof (amt_nonneg a d Na).
  pose proof (amt_nonneg b d Nb). lia.
Qed.

Lemma Coins_SafeSub_ok a b s neg :
  Coins_SafeSub a b = Ok (s, neg) ↔ safeAdd a (negative b) = Ok s ∧ neg = IsAnyNegative s.
Proof.
  unfold Coins_SafeSub. destruct (safeAdd a (negative b)); simpl; naive_solver.
Qed.

(** Subtraction is pointwise, and the flag is raised exactly when some
    denomination is short. *)
Lemma Coins_SafeSub_spec a b s neg :
  sorted a → sorted b → Coins_SafeSub a b = Ok (s, neg) →
  canonical s ∧ (∀ d, amt s d = amt a d - amt b d) ∧
  (neg = false ↔ ∀ d, amt b d ≤ amt a d).
Proof.
  intros Ha Hb [H ->]%Coins_SafeSub_ok. apply safeAdd_spec in H.
  assert (Hs : sorted s) by (eapply add_spec_sorted; eauto using sorted_negative).
  assert (Hamt : ∀ d, amt s d = amt a d - amt b d).
  { intros d. rewrite (add_spec_amt _ _ _ _ H), amt_negative. lia. }
  split; [split; [done|by eapply add_spec_nonzero]|]. split; [done|].
  rewrite IsAnyNegative_false, nonneg_amt by done.
  split; intros Hd d; specialize (Hd d); rewrite Hamt in *; lia.
Qed.

Lemma Coins_SafeSub_total a b :
  sorted a → sorted b → (∀ d, int_ok (amt a d - amt b d)) → ∃ r, Coins_SafeSub a b = Ok r.
Proof.
  intros Ha Hb H. destruct (safeAdd_total a (negative b)) as [s Hs].
  - apply no_overflow_amt; [done|by apply sorted_negative|].
    intros d. rewrite amt_negative. apply H.
  - exists (s, IsAnyNegative s). by apply Coins_SafeSub_ok.
Qed.

Lemma Coins_Sub_ok a b s :
  Coins_Sub a b = Ok s ↔ safeAdd a (negative b) = Ok s ∧ nonneg s.
Proof.
  unfold Coins_Sub, Coins_SafeSub. destruct (safeAdd a (negative b)) as [s'|e|w]; simpl;
    [|by split; [|intros [??]]..].
  destruct (IsAnyNegative s') eqn:E.
  - split; [done|]. intros [[= <-] Hn]. apply IsAnyNegative_false in Hn. congruence.
  - apply IsAnyNegative_false in E. naive_solver.
Qed.

(** ** Validity *)
Lemma Coin_IsValid_iff c :
  Coin_IsValid c = true ↔ 0 ≤ amount c ∧ IsCoinMinDenomValid (denom c) = true.
Proof.
  unfold Coin_IsValid, Coin_IsNegative. autorewrite with sdk_sign.
  destruct (Z.ltb_spec (amount c) 0); split; intros; destruct_and?; try done; lia.
Qed.

Lemma IsValid_loop_iff low coins :
  IsValid_loop low coins = true ↔
  sorted coins ∧ Forall (λ c, str_lt low (denom c)) coins ∧ nonneg coins ∧ valid_denoms coins.
Proof.
  revert low. induction coins as [|c coins IH]; intros low; simpl.
  - split; [intros _; split_and!; by constructor|done].
  - unfold nonneg, valid_denoms in *. rewrite !Forall_cons. split.
    + destruct (Coin_IsValid c) eqn:Hv; [|done]. simpl. apply Coin_IsValid_iff in Hv as [??].
      destruct (str_ltb_spec low (denom c)) as [Hlt|]; [|done]. simpl.
      intros (?&Hall&?&?)%IH. split_and!; try done.
      * by constructor.
      * eapply Forall_impl; [exact Hall|]. intros c' ?. by transitivity (denom c).
    + intros ([? ?]%sorted_cons_inv&[Hlt _]&[? ?]&[? ?]).
      rewrite (proj2 (Coin_IsValid_iff c)) by done. simpl.
      destruct (str_ltb_spec low (denom c)); [|done]. simpl. by apply IH.
Qed.

Lemma Coins_IsValid_iff coins :
  Coins_IsValid coins = true ↔ sorted coins ∧ nonneg coins ∧ valid_denoms coins.
Proof.
  destruct coins as [|c [|c' rest]].
  - split; [intros _; split_and!; by constructor|done].
  - simpl. rewrite Coin_IsValid_iff. unfold nonneg, valid_denoms. rewrite !Forall_singleton.
    split; [|naive_solver]. intros [??]. split_and!; [by repeat constructor|done..].
  - cbn [Coins_IsValid]. unfold nonneg, valid_denoms in *. rewrite (Forall_cons _ c), (Forall_cons _ c).
    destruct (Coin_IsValid c) eqn:Hv; cbn [negb].
    + apply Coin_IsValid_iff in Hv as [??]. rewrite IsValid_loop_iff. split.
      * intros (?&?&?&?). split_and!; try done. by constructor.
      * intros ([??]%sorted_cons_inv&[_ ?]&[_ ?]). done.
    + split; [done|]. intros (_&[??]&[??]).
      assert (Coin_IsValid c = true) by (by apply Coin_IsValid_iff). congruence.
Qed.

(** ** Binary search *)
Lemma sorted_app_inv a b : sorted (a ++ b) →
  sorted a ∧ sorted b ∧ ∀ x y, x ∈ a → y ∈ b → denom_lt x y.
Proof.
  induction a as [|c a IH]; simpl.
  - intros Hs. split_and!; [constructor|done|]. intros ?? Hx. by apply elem_of_nil in Hx.
  - intros [Hs Hall]%sorted_cons_inv. apply IH in Hs as (Ha&Hb&Hab).
    apply Forall_app in Hall as [Hca Hcb]. split_and!; [by constructor|done|].
    intros x y [->|Hx]%elem_of_cons Hy; [|by apply Hab].
    rewrite Forall_forall in Hcb. by apply Hcb.
Qed.

Lemma amt_split_mid a c b d :
  sorted (a ++ c :: b) →
  amt (a ++ c :: b) d =
  if decide (str_lt d (denom c)) then amt a d
  else if decide (d = denom c) then amount c else amt b d.
Proof.
  intros Hs. pose proof (sorted_app_inv _ _ Hs) as (Ha&Hcb&Hab).
  rewrite amt_app. case_decide as Hlt; [rewrite amt_below by done; lia|].
  assert (Hna : ∀ d', ¬ str_lt d' (denom c) → amt a d' = 0).
  { intros d' Hd'. apply amt_notin, Forall_forall. intros x Hx E. apply Hd'. rewrite <-E.
    apply (Hab x c); [done|left]. }
  rewrite (Hna d Hlt). case_decide as Heq.
  - subst. rewrite amt_head by done. lia.
  - simpl. rewrite decide_False by auto. lia.
Qed.

Lemma AmountOf_fuel_spec fuel coins d :
  sorted coins → (length coins ≤ fuel)%nat → AmountOf_fuel fuel coins d = amt coins d.
Proof.
  revert coins. induction fuel as [|fuel IH]; intros coins Hs Hf.
  { destruct coins; [done|]. simpl in Hf. lia. }
  destruct coins as [|c0 [|c1 rest]]; [done|..].
  - simpl. destruct (decide (denom c0 = d)) as [E|E].
    + rewrite bool_decide_true by done. lia.
    + rewrite bool_decide_false by done. done.
  - cbn [AmountOf_fuel]. set (coins := c0 :: c1 :: rest) in *.
    set (mid := (length coins / 2)%nat).
    assert (Hmid : (0 < mid < length coins)%nat).
    { unfold mid. split; [apply Nat.div_str_pos|apply Nat.div_lt]; unfold coins; simpl; lia. }
    destruct (lookup_lt_is_Some_2 coins mid) as [c Hc]; [lia|]. rewrite Hc.
    pose proof (take_drop_middle _ _ _ Hc) as Hsplit.
    rewrite <-Hsplit in Hs. pose proof (sorted_app_inv _ _ Hs) as (Ha&Hcb&_).
    rewrite <-Hsplit at 3. rewrite amt_split_mid by done.
    destruct (str_ltb_spec d (denom c)) as [Hlt|Hlt].
    + rewrite decide_True by done. apply IH; [done|]. rewrite length_take. lia.
    + rewrite decide_False by done. destruct (decide (d = denom c)) as [E|E].
      * by rewrite bool_decide_true by done.
      * rewrite bool_decide_false by done. apply IH; [by apply sorted_cons_inv in Hcb as [??]|].
        rewrite length_drop. lia.
Qed.

Lemma AmountOf_amt coins d : sorted coins → AmountOf coins d = amt coins d.
Proof. intros Hs. by apply AmountOf_fuel_spec. Qed.

(** ** Comparison *)
Lemma Coins_IsZero_iff coins : Coins_IsZero coins = true ↔ Forall (λ c, amount c = 0) coins.
Proof.
  unfold Coins_IsZero. rewrite forallb_forall, Forall_forall.
  setoid_rewrite <-list_elem_of_In. by setoid_rewrite Coin_IsZero_iff.
Qed.

Lemma amt_zero coins d : Forall (λ c, amount c = 0) coins → amt coins d = 0.
Proof. induction 1; simpl; [done|]. case_decide; lia. Qed.

Lemma not_all_zero coins : Coins_IsZero coins = false → ∃ c, c ∈ coins ∧ amount c ≠ 0.
Proof.
  unfold Coins_IsZero. induction coins as [|c coins IH]; simpl; [done|].
  destruct (Coin_IsZero c) eqn:E; simpl.
  - intros (c'&?&?)%IH. exists c'. split; [by right|done].
  - apply Coin_IsZero_false in E. intros _. exists c. split; [left|done].
Qed.

Lemma IsAllGTE_iff a b :
  sorted a → sorted b → nonneg a → nonneg b →
  IsAllGTE a b = true ↔ ∀ d, amt b d ≤ amt a d.
Proof.
  intros Ha Hb Na Nb. unfold IsAllGTE.
  destruct (Coins_IsZero b) eqn:Zb.
  { apply Coins_IsZero_iff in Zb. split; [|done]. intros _ d.
    rewrite (amt_zero b) by done. by apply amt_nonneg. }
  destruct (Coins_IsZero a) eqn:Za.
  { split; [done|]. intros H. apply Coins_IsZero_iff in Za.
    apply not_all_zero in Zb as (c&Hc&Hz). specialize (H (denom c)).
    rewrite amt_in, amt_zero in H by done.
    pose proof (proj1 (Forall_forall _ _) Nb _ Hc) as Hnn. simpl in Hnn. lia. }
  rewrite forallb_forall. setoid_rewrite <-list_elem_of_In. unfold Int_LT.
  split.
  - intros H d. destruct (decide (amt b d = 0)) as [->|Hnz]; [by apply amt_nonneg|].
    apply amt_pos_in in Hnz as (c&Hc&<-). specialize (H _ Hc). zbool.
    rewrite AmountOf_amt in H by done. by rewrite (amt_in b).
  - intros H c Hc. apply negb_true_iff, Z.ltb_ge. rewrite AmountOf_amt by done.
    rewrite <-(amt_in b c) by done. apply H.
Qed.

(** ** Construction *)
#[export] Instance denom_le_total : Total denom_le.
Proof.
  intros a b. unfold denom_le. destruct (decide (str_lt (denom b) (denom a))) as [H|H]; [|by left].
  right. intros H'. apply (str_lt_irrefl (denom a)). by transitivity (denom b).
Qed.
#[export] Instance denom_le_trans : Transitive denom_le.
Proof.
  intros a b c Hab Hbc Hca. unfold denom_le in *.
  destruct (str_lt_total (denom a) (denom b)) as [H|[H|H]].
  - apply Hbc. by transitivity (denom a).
  - apply Hbc. by rewrite <-H.
  - done.
Qed.

Lemma Coins_Sort_perm coins : Coins_Sort coins ≡ₚ coins.
Proof. apply merge_sort_Permutation. Qed.

Lemma Sort_sorted coins : NoDup (denom <$> coins) → sorted (Coins_Sort coins).
Proof.
  intros Hnd. unfold Coins_Sort.
  pose proof (StronglySorted_merge_sort denom_le coins) as Hle.
  assert (Hnd' : NoDup (denom <$> merge_sort denom_le coins)).
  { by rewrite (merge_sort_Permutation denom_le coins). }
  induction Hle as [|c l Hl IH Hall]; [constructor|].
  simpl in Hnd'. apply NoDup_cons in Hnd' as [Hnin Hnd'].
  constructor; [by apply IH|]. rewrite Forall_forall in Hall |- *. intros c' Hc'.
  specialize (Hall _ Hc'). unfold denom_le in Hall. unfold denom_lt.
  destruct (str_lt_total (denom c) (denom c')) as [?|[E|?]]; [done| |done].
  exfalso. apply Hnin. rewrite E. apply list_elem_of_fmap. eauto.
Qed.

Lemma sorted_NoDup coins : sorted coins → NoDup (denom <$> coins).
Proof.
  induction 1 as [|c l Hl IH Hall]; simpl; constructor; [|done].
  intros (c'&E&Hc')%list_elem_of_fmap. rewrite Forall_forall in Hall. specialize (Hall _ Hc').
  unfold denom_lt in Hall. rewrite E in Hall. by apply str_lt_irrefl in Hall.
Qed.

Lemma NewCoins_ok coins s :
  NewCoins coins = Ok s →
  canonical s ∧ nonneg s ∧ valid_denoms s ∧ ∀ d, amt s d = amt coins d.
Proof.
  unfold NewCoins. rewrite removeZeroCoins_filter.
  assert (Hamt : ∀ d, amt (filter nz coins) d = amt coins d) by (intros; apply amt_filter_nz).
  destruct (filter nz coins) as [|c l] eqn:E.
  - intros [= <-]. split_and!; [by repeat constructor..|]. intros d. by rewrite <-Hamt.
  - rewrite <-E in *. destruct (Coins_IsValid (Coins_Sort (filter nz coins))) eqn:Hv; [|done].
    intros [= <-]. apply Coins_IsValid_iff in Hv as (Hs&Hn&Hd).
    split_and!; try done.
    + split; [done|]. unfold nonzero. rewrite (Coins_Sort_perm (filter nz coins)). apply nonzero_filter.
    + intros d. rewrite (amt_perm _ _ d (Coins_Sort_perm _)). apply Hamt.
Qed.

Lemma NewCoins_total coins :
  NoDup (denom <$> coins) → nonneg coins → valid_denoms coins → ∃ s, NewCoins coins = Ok s.
Proof.
  intros Hnd Hn Hv. unfold NewCoins. rewrite removeZeroCoins_filter.
  destruct (filter nz coins) as [|c l] eqn:E; [eauto|]. rewrite <-E in *.
  assert (HF : ∀ P : Coin → Prop, Forall P coins → Forall P (Coins_Sort (filter nz coins))).
  { intros P HP. rewrite (Coins_Sort_perm (filter nz coins)). apply Forall_forall.
    intros x [_ Hx]%list_elem_of_filter. rewrite Forall_forall in HP. auto. }
  rewrite (proj2 (Coins_IsValid_iff (Coins_Sort (filter nz coins)))); [simpl; eauto|].
  split_and!; [|by apply HF..]. apply Sort_sorted.
  eapply sublist_NoDup; [exact Hnd|]. apply fmap_sublist, sublist_filter.
Qed.

Lemma Coin_IsEqual_iff c c' : Coin_IsEqual c c' = true ↔ c = c'.
Proof.
  unfold Coin_IsEqual, Int_Equal. rewrite andb_true_iff, bool_decide_eq_true, Z.eqb_eq.
  destruct c, c'; simpl. naive_solver.
Qed.

Lemma forallb_zip_eq a b :
  length a = length b → forallb (λ p, Coin_IsEqual p.1 p.2) (zip a b) = true ↔ a = b.
Proof.
  revert b. induction a as [|x a IH]; intros [|y b]; simpl; try done.
  intros [= Hl]. rewrite andb_true_iff, Coin_IsEqual_iff, IH by done. naive_solver.
Qed.

Lemma sorted_perm_eq a b : sorted a → sorted b → a ≡ₚ b → a = b.
Proof.
  revert b. induction a as [|x a IH]; intros b Ha Hb Hp.
  { by apply Permutation_nil_l in Hp. }
  destruct b as [|y b]; [by apply Permutation_nil_r in Hp|].
  assert (x = y) as ->.
  { pose proof (elem_of_cons b x y) as Hxin. rewrite <-Hp in Hxin.
    pose proof (elem_of_cons a y x) as Hyin. rewrite Hp in Hyin.
    destruct (proj1 Hxin ltac:(left)) as [?|Hx]; [done|].
    destruct (proj1 Hyin ltac:(left)) as [?|Hy]; [done|].
    apply sorted_cons_inv in Ha as [_ Ha], Hb as [_ Hb].
    rewrite Forall_forall in Ha, Hb. specialize (Ha _ Hy). specialize (Hb _ Hx).
    exfalso. apply (str_lt_irrefl (denom x)). unfold denom_lt in *. by transitivity (denom y). }
  f_equal. apply IH; [by apply sorted_cons_inv in Ha as [??]|by apply sorted_cons_inv in Hb as [??]|].
  by apply Permutation_cons_inv in Hp.
Qed.

Lemma Coins_IsEqual_iff a b :
  NoDup (denom <$> a) → NoDup (denom <$> b) → Coins_IsEqual a b = true ↔ a ≡ₚ b.
Proof.
  intros Ha Hb. unfold Coins_IsEqual.
  destruct (decide (length a = length b)) as [Hl|Hl].
  - rewrite bool_decide_false by auto.
    rewrite forallb_zip_eq by (by rewrite !Coins_Sort_perm). split; intros H.
    + by rewrite <-(Coins_Sort_perm a), H, Coins_Sort_perm.
    + apply sorted_perm_eq; [by apply Sort_sorted..|]. by rewrite !Coins_Sort_perm.
  - rewrite bool_decide_true by done. split; [done|]. intros Hp. by rewrite Hp in Hl.
Qed.

(** ** The caller's slice after an addition *)
Lemma safeAdd_arrayB_split a b :
  ∃ pre suf, b = pre ++ suf ∧ safeAdd_arrayB a b = pre ++ removeZeroCoins_array suf.
Proof.
  revert b. induction a as [|x a IHa]; intros b.
  - exists [], b. split; [done|]. by destruct b.
  - induction b as [|y b IHb]; [by exists [], []|].
    destruct IHb as (pre&suf&E1&E2). cbn [safeAdd_arrayB].
    destruct (String.compare (denom x) (denom y)).
    + destruct (IHa b) as (pre'&suf'&E1'&E2'). exists (y :: pre'), suf'.
      split; [by rewrite E1'|]. simpl. by rewrite E2'.
    + destruct (IHa (y :: b)) as (pre'&suf'&E1'&E2'). exists pre', suf'. by split.
    + exists (y :: pre), suf. split; [by rewrite E1|]. simpl. f_equal. apply E2.
Qed.

(** If the slice is still sorted after the in-place removal, it is unchanged. *)
Lemma removeZeroCoins_array_sorted coins :
  sorted (removeZeroCoins_array coins) → removeZeroCoins_array coins = coins.
Proof.
  destruct coins as [|c l _] using rev_ind; [done|].
  rewrite (removeZeroCoins_array_spec _ c), last_snoc. simpl. intros Hs.
  pose proof (zeros_length (l ++ [c])) as Hz.
  destruct (decide (nz c)) as [Hc|Hc].
  - assert (Hin : c ∈ filter nz (l ++ [c])) by (apply list_elem_of_filter; set_solver).
    destruct (zeros (l ++ [c])) as [|n] eqn:En.
    + simpl. rewrite app_nil_r. apply filter_nz_length. lia.
    + exfalso. apply sorted_app_inv in Hs as (_&_&Hlt).
      apply (str_lt_irrefl (denom c)), (Hlt c c); [done|]. left.
  - revert Hs Hz. unfold zeros. rewrite !filter_app, !filter_cons, !filter_nil.
    rewrite (decide_False (P:=nz c)), (decide_True (P:=¬ nz c)) by done.
    rewrite !length_app, app_nil_r. simpl. intros Hs Hz.
    destruct (length (filter (λ c, ¬ nz c) l)) as [|n] eqn:En.
    + simpl. f_equal. apply filter_nz_length. lia.
    + exfalso. replace (S n + 1)%nat with (S (S n)) in Hs by lia.
      apply sorted_app_inv in Hs as (_&Hr&_). simpl in Hr.
      apply sorted_cons_inv in Hr as [_ [Hlt _]%Forall_cons]. by apply (str_lt_irrefl (denom c)).
Qed.

Lemma safeAdd_arrayB_sorted a b : sorted (safeAdd_arrayB a b) → safeAdd_arrayB a b = b.
Proof.
  destruct (safeAdd_arrayB_split a b) as (pre&suf&->&->).
  intros (_&Hs&_)%sorted_app_inv. by rewrite removeZeroCoins_array_sorted.
Qed.

Lemma safeAdd_arrayB_nonzero a b : nonzero b → safeAdd_arrayB a b = b.
Proof.
  destruct (safeAdd_arrayB_split a b) as (pre&suf&->&->).
  intros [_ Hn]%Forall_app. by rewrite removeZeroCoins_array_id.
Qed.

(** * Theorems about coins *)

(** C30. Adding two sorted sets of coins gives a sorted set without zero coins that
    holds, for every denomination, the sum of what the arguments hold; it is
    the only such set. *)
Theorem Coins_Add_correct (a b s : Coins) (Ha : sorted a) (Hb : sorted b)
    (H : Coins_Add a b = Ok s) :
  canonical s ∧ nonneg s ∧ (∀ d, amt s d = amt a d + amt b d) ∧
  (∀ s', canonical s' → (∀ d, amt s' d = amt a d + amt b d) → s' = s).
Proof.
  destruct (Coins_Add_canonical _ _ _ Ha Hb H) as [Hc Hn].
  assert (Hs : ∀ d, amt s d = amt a d + amt b d) by (intros; by apply Coins_Add_amt).
  split_and!; try done. intros s' Hc' Hs'. apply canonical_ext; [done..|].
  intros d. by rewrite Hs, Hs'.
Qed.

Definition ex_coins : Coins := [mkCoin "btc-min" 2; mkCoin "eth-min" 3].

Lemma ex_coins_sorted : sorted ex_coins.
Proof. by apply Coins_IsValid_iff. Qed.

Lemma Coins_Add_correct_witness :
  Coins_Add ex_coins [mkCoin "abc-min" 1; mkCoin "eth-min" 4] =
    Ok [mkCoin "abc-min" 1; mkCoin "btc-min" 2; mkCoin "eth-min" 7] ∧
  amt [mkCoin "abc-min" 1; mkCoin "btc-min" 2; mkCoin "eth-min" 7] "eth-min" =
  amt ex_coins "eth-min" + amt [mkCoin "abc-min" 1; mkCoin "eth-min" 4] "eth-min".
Proof.
  split; [reflexivity|].
  apply (Coins_Add_correct ex_coins [mkCoin "abc-min" 1; mkCoin "eth-min" 4]
           [mkCoin "abc-min" 1; mkCoin "btc-min" 2; mkCoin "eth-min" 7]).
  - apply ex_coins_sorted.
  - by apply Coins_IsValid_iff.
  - reflexivity.
Defined.

(** C34. The binary search of [AmountOf] finds the amount of a denomination in
    every sorted set of coins, and 0 for a denomination it does not contain. *)
Theorem AmountOf_correct (coins : Coins) (d : string) (Hs : sorted coins) :
  (∀ c, c ∈ coins → denom c = d → AmountOf coins d = amount c) ∧
  ((∀ c, c ∈ coins → denom c ≠ d) → AmountOf coins d = 0).
Proof.
  rewrite AmountOf_amt by done. split.
  - intros c Hc <-. by apply amt_in.
  - intros H. by apply amt_notin, Forall_forall.
Qed.

Lemma AmountOf_correct_witness :
  AmountOf ex_coins "eth-min" = 3 ∧ AmountOf ex_coins "aaa-min" = 0.
Proof.
  split.
  - apply (proj1 (AmountOf_correct ex_coins "eth-min" ex_coins_sorted) (mkCoin "eth-min" 3)).
    + right. left.
    + reflexivity.
  - apply (proj2 (AmountOf_correct ex_coins "aaa-min" ex_coins_sorted)).
    intros c Hc. unfold ex_coins in Hc.
    apply elem_of_cons in Hc as [->|Hc]; [discriminate|].
    apply elem_of_cons in Hc as [->|Hc]; [discriminate|].
    by apply elem_of_nil in Hc.
Defined.

(** [a.IsAllGTE(b)] decides whether [a.SafeSub(b)] has no negative coin, that
    is, whether [a] covers [b] in every denomination; so a balance check by
    comparison and one by subtraction agree. *)
Theorem IsAllGTE_SafeSub (a b s : Coins) (neg : bool)
    (Ha : Coins_IsValid a = true) (Hb : Coins_IsValid b = true)
    (H : Coins_SafeSub a b = Ok (s, neg)) :
  IsAllGTE a b = negb neg ∧ (neg = false ↔ ∀ d, amt b d ≤ amt a d).
Proof.
  apply Coins_IsValid_iff in Ha as (Sa&Na&_), Hb as (Sb&Nb&_).
  destruct (Coins_SafeSub_spec _ _ _ _ Sa Sb H) as (_&_&Hneg). split; [|done].
  pose proof (IsAllGTE_iff _ _ Sa Sb Na Nb) as Hg. rewrite <-Hneg in Hg.
  destruct neg, (IsAllGTE a b); simpl; try done; naive_solver.
Qed.

Lemma IsAllGTE_SafeSub_witness :
  IsAllGTE ex_coins [mkCoin "eth-min" 4] = false ∧ IsAllGTE ex_coins [mkCoin "eth-min" 3] = true.
Proof.
  split.
  - apply (IsAllGTE_SafeSub ex_coins [mkCoin "eth-min" 4]
             [mkCoin "btc-min" 2; mkCoin "eth-min" (-1)] true); reflexivity.
  - apply (IsAllGTE_SafeSub ex_coins [mkCoin "eth-min" 3] [mkCoin "btc-min" 2] false); reflexivity.
Defined.

(** Subtracting what was added gives the original coins back. *)
Theorem Coins_Add_Sub (a b s : Coins) (Ha : canonical a) (Na : nonneg a) (Ra : in_range a)
    (Hb : sorted b) (H : Coins_Add a b = Ok s) : Coins_Sub s b = Ok a.
Proof.
  destruct Ha as [Sa Za]. pose proof H as [Hc Hn]%Coins_Add_canonical; [|done..].
  destruct Hc as [Ss Zs].
  assert (Hd : ∀ d, amt s d - amt b d = amt a d).
  { intros d. rewrite (Coins_Add_amt _ _ _ _ H). lia. }
  destruct (safeAdd_total s (negative b)) as [r Hr].
  { apply no_overflow_amt; [done|by apply sorted_negative|]. intros d.
    rewrite amt_negative. change (int_ok (amt s d - amt b d)). rewrite Hd.
    destruct (decide (amt a d = 0)) as [->|Hnz]; [by unfold int_ok|].
    apply amt_pos_in in Hnz as (c&Hin&<-). rewrite amt_in by done.
    by apply (proj1 (Forall_forall _ _) Ra). }
  apply Coins_Sub_ok. pose proof Hr as Hr'%safeAdd_spec.
  assert (r = a) as ->; [|done].
  apply canonical_ext; [split|by split|].
  - eapply add_spec_sorted; eauto using sorted_negative.
  - by eapply add_spec_nonzero.
  - intros d. rewrite (add_spec_amt _ _ _ _ Hr'), amt_negative, <-Hd. lia.
Qed.

Lemma Coins_Add_Sub_witness :
  Coins_Sub [mkCoin "btc-min" 2; mkCoin "eth-min" 7] [mkCoin "eth-min" 4] = Ok ex_coins.
Proof.
  apply (Coins_Add_Sub ex_coins [mkCoin "eth-min" 4] [mkCoin "btc-min" 2; mkCoin "eth-min" 7]).
  - split; [apply ex_coins_sorted|]. repeat constructor; simpl; lia.
  - repeat constructor; simpl; lia.
  - repeat constructor.
  - by apply Coins_IsValid_iff.
  - reflexivity.
Defined.

(** [NewCoins] builds the set of the coins it is given: it succeeds on distinct
    valid denominations with non-negative amounts, and what it returns is a
    valid sorted set without zero coins holding the same amounts. *)
Theorem NewCoins_correct (coins : Coins) (Hnd : NoDup (denom <$> coins))
    (Hn : nonneg coins) (Hv : valid_denoms coins) :
  ∃ s, NewCoins coins = Ok s ∧ Coins_IsValid s = true ∧ nonzero s ∧
       ∀ d, amt s d = amt coins d.
Proof.
  destruct (NewCoins_total coins) as [s Hs]; [done..|]. exists s. split; [done|].
  apply NewCoins_ok in Hs as ([??]&?&?&?). split_and!; try done. by apply Coins_IsValid_iff.
Qed.

Lemma NewCoins_correct_witness :
  ∃ s, NewCoins [mkCoin "eth-min" 3; mkCoin "abc-min" 0; mkCoin "btc-min" 2] = Ok s ∧
       Coins_IsValid s = true ∧ nonzero s ∧
       ∀ d, amt s d = amt [mkCoin "eth-min" 3; mkCoin "abc-min" 0; mkCoin "btc-min" 2] d.
Proof.
  apply NewCoins_correct.
  - apply (bool_decide_unpack _). vm_compute. exact I.
  - repeat constructor; simpl; lia.
  - repeat constructor.
Defined.

(** [removeZeroCoins] returns the non-zero coins in order.  The slice it was
    called on reads, after the call, those coins followed by as many copies of
    its last coin as there were zero coins: a caller that keeps using the slice
    sees a different set of coins whenever a zero coin was removed. *)
Theorem removeZeroCoins_aliasing (coins : Coins) (c : Coin) (Hlast : last coins = Some c) :
  removeZeroCoins coins = filter nz coins ∧
  removeZeroCoins_array coins =
    removeZeroCoins coins ++ replicate (length coins - length (removeZeroCoins coins)) c.
Proof.
  rewrite removeZeroCoins_filter, (removeZeroCoins_array_spec coins c), Hlast. simpl.
  rewrite <-(zeros_length coins) at 1. split; [done|]. do 2 f_equal. lia.
Qed.

Lemma removeZeroCoins_aliasing_witness :
  removeZeroCoins_array [mkCoin "abc-min" 0; mkCoin "btc-min" 5] =
    [mkCoin "btc-min" 5; mkCoin "btc-min" 5].
Proof.
  apply (removeZeroCoins_aliasing [mkCoin "abc-min" 0; mkCoin "btc-min" 5] (mkCoin "btc-min" 5)).
  reflexivity.
Defined.
