(* ===== verification/Dec.v ===== *)
(** * Fixed-point decimals (types/decimal.go)

    A [Dec] holds the integer [d * 10^10] in a [big.Int]; it is modelled by
    that integer.  Addition, subtraction, multiplication and division panic
    when the result needs more than 289 bits. *)

From Stdlib Require Import Ascii.
From S2P Require Import Prelude SdkErrors IntType GoStrings.
#[local] Open Scope Z_scope.

Abbreviation Dec := Z (only parsing).

Definition Precision : Z := 10.
Definition DecimalPrecisionBits : Z := 34.
Definition precisionReuse : Z := 10 ^ Precision.
Definition fivePrecision : Z := Z.quot precisionReuse 2.

Definition ZeroDec : Dec := 0.
Definition OneDec : Dec := precisionReuse.

Definition calcPrecisionMultiplier (prec : Z) : Outcome Z :=
  if Precision <? prec then Panic "too much precision" else
  let zerosToAdd := Precision - prec in Ok (10 ^ zerosToAdd).

(** The table of multipliers is indexed by [prec]; a negative index panics. *)
Definition precisionMultipliers : list Z :=
  map (λ i, 10 ^ (Precision - Z.of_nat i)) (seq 0 11).
Definition precisionMultiplier (prec : Z) : Outcome Z :=
  if Precision <? prec then Panic "too much precision" else
  if prec <? 0 then Panic "index out of range" else
  match precisionMultipliers !! Z.to_nat prec with
  | Some m => Ok m
  | None => Panic "index out of range"
  end.

Definition NewDecWithPrec (i prec : Z) : Outcome Dec :=
  let? m := precisionMultiplier prec in Ok (i * m).
Definition NewDec (i : Z) : Outcome Dec := NewDecWithPrec i 0.
Definition NewDecFromBigIntWithPrec (i : Z) (prec : Z) : Outcome Dec :=
  let? m := precisionMultiplier prec in Ok (i * m).
Definition NewDecFromBigInt (i : Z) : Outcome Dec := NewDecFromBigIntWithPrec i 0.
Definition NewDecFromIntWithPrec (i : Int) (prec : Z) : Outcome Dec :=
  let? m := precisionMultiplier prec in Ok (i * m).
Definition NewDecFromInt (i : Int) : Outcome Dec := NewDecFromIntWithPrec i 0.

(** The zeros of [fmt.Sprintf("%0<n>s", "")]. *)
Definition zero_chars (n : nat) : list ascii := replicate n "0"%char.

Definition NewDecFromStr (s : string) : Outcome Dec :=
  let l := chars s in
  if bool_decide (length l = 0%nat) then Err ErrUnknownRequest else
  let neg := bool_decide (head l = Some "-"%char) in
  let l := if neg then tail l else l in
  if bool_decide (length l = 0%nat) then Err ErrUnknownRequest else
  let strs := split_chars "." l in
  let? split :=
    match strs with
    | [whole] => Ok (whole, 0%nat)
    | [whole; decs] =>
        if bool_decide (length decs = 0%nat) || bool_decide (length whole = 0%nat)
        then Err ErrUnknownRequest
        else Ok (whole ++ decs, length decs)
    | _ => Err ErrUnknownRequest
    end in
  let '(combinedStr, lenDecs) := split in
  if Precision <? Z.of_nat lenDecs then Err ErrUnknownRequest else
  let zerosToAdd := (Z.to_nat Precision - lenDecs)%nat in
  let combinedStr := combinedStr ++ zero_chars zerosToAdd in
  match parse_int combinedStr with
  | None => Err ErrUnknownRequest
  | Some combined => Ok (if neg then - combined else combined)
  end.

Definition Dec_IsZero (d : Dec) : bool := Z.sgn d =? 0.
Definition Dec_IsNegative (d : Dec) : bool := Z.sgn d =? -1.
Definition Dec_IsPositive (d : Dec) : bool := Z.sgn d =? 1.
Definition Dec_Equal (d d2 : Dec) : bool := d =? d2.
Definition Dec_GT (d d2 : Dec) : bool := d2 <? d.
Definition Dec_GTE (d d2 : Dec) : bool := d2 <=? d.
Definition Dec_LT (d d2 : Dec) : bool := d <? d2.
Definition Dec_LTE (d d2 : Dec) : bool := d <=? d2.
Definition Dec_Neg (d : Dec) : Dec := - d.
Definition Dec_Abs (d : Dec) : Dec := Z.abs d.

(** The range check shared by the operations. *)
Definition dec_checked (res : Z) : Outcome Dec :=
  if 255 + DecimalPrecisionBits <? BitLen res then Panic "Int overflow" else Ok res.

Definition Dec_Add (d d2 : Dec) : Outcome Dec := dec_checked (d + d2).
Definition Dec_Sub (d d2 : Dec) : Outcome Dec := dec_checked (d - d2).

(** Bankers rounding of a non-negative number. *)
Definition chop_nonneg (d : Z) : Z :=
  let quo := Z.quot d precisionReuse in
  let rem := Z.rem d precisionReuse in
  if Z.sgn rem =? 0 then quo else
  match rem ?= fivePrecision with
  | Lt => quo
  | Gt => quo + 1
  | Eq => if negb (Z.testbit quo 0) then quo else quo + 1
  end.

Definition chopPrecisionAndRound (d : Z) : Z :=
  if Z.sgn d =? -1 then - chop_nonneg (- d) else chop_nonneg d.

Definition Dec_Mul (d d2 : Dec) : Outcome Dec :=
  let mul := d * d2 in dec_checked (chopPrecisionAndRound mul).
Definition Dec_MulInt (d : Dec) (i : Int) : Outcome Dec := dec_checked (d * i).

(** [big.Int.Quo] truncates and panics on a zero divisor. *)
Definition big_Quo (a b : Z) : Outcome Z :=
  if b =? 0 then Panic "division by zero" else Ok (Z.quot a b).

Definition Dec_Quo (d d2 : Dec) : Outcome Dec :=
  let mul := d * precisionReuse in
  let mul := mul * precisionReuse in
  let? quo := big_Quo mul d2 in
  dec_checked (chopPrecisionAndRound quo).
Definition Dec_QuoInt (d : Dec) (i : Int) : Outcome Dec := big_Quo d i.

Definition Dec_IsInteger (d : Dec) : bool := Z.sgn (Z.rem d precisionReuse) =? 0.

Definition Dec_String (d : Dec) : string :=
  let bz := int_text d in
  let inputSize := length bz in
  str (if bool_decide (inputSize ≤ 10)%nat
       then ["0"%char; "."%char] ++ zero_chars (10 - inputSize) ++ bz
       else take (inputSize - 10) bz ++ ["."%char] ++ drop (inputSize - 10) bz).

Definition Dec_RoundInt64 (d : Dec) : Outcome Z :=
  let chopped := chopPrecisionAndRound d in
  if is_int64 chopped then Ok chopped else Panic "Int64() out of bound".
Definition Dec_RoundInt (d : Dec) : Outcome Int := NewIntFromBigInt (chopPrecisionAndRound d).

Definition chopPrecisionAndTruncate (d : Z) : Z := Z.quot d precisionReuse.
Definition Dec_TruncateInt64 (d : Dec) : Outcome Z :=
  let chopped := chopPrecisionAndTruncate d in
  if is_int64 chopped then Ok chopped else Panic "Int64() out of bound".
Definition Dec_TruncateInt (d : Dec) : Outcome Int :=
  NewIntFromBigInt (chopPrecisionAndTruncate d).
Definition Dec_TruncateDec (d : Dec) : Outcome Dec :=
  let? i := NewIntFromBigInt (chopPrecisionAndTruncate d) in NewDecFromInt i.

Definition Dec_MarshalAmino (d : Dec) : string := str (int_text d).
Definition Dec_UnmarshalAmino (text : string) : option Dec := parse_int (chars text).

Definition DecsEqual (d1s d2s : list Dec) : bool :=
  if bool_decide (length d1s ≠ length d2s) then false
  else forallb (λ p, Dec_Equal p.1 p.2) (zip d1s d2s).
Definition MinDec (d1 d2 : Dec) : Dec := if Dec_LT d1 d2 then d1 else d2.
Definition MaxDec (d1 d2 : Dec) : Dec := if Dec_LT d1 d2 then d2 else d1.

(** ** Rounding *)

(** [n] is [d / 10^10] rounded to nearest, ties to even. *)
Definition bankers_round (d n : Z) : Prop :=
  2 * Z.abs (d - n * precisionReuse) ≤ precisionReuse ∧
  (2 * Z.abs (d - n * precisionReuse) = precisionReuse → Z.Even n).

Lemma precisionReuse_val : precisionReuse = 10000000000.
Proof. reflexivity. Qed.
Lemma fivePrecision_val : fivePrecision = 5000000000.
Proof. reflexivity. Qed.


Lemma bankers_round_unique d n m : bankers_round d n → bankers_round d m → n = m.
Proof.
  unfold bankers_round. rewrite precisionReuse_val. intros [Hn En] [Hm Em].
  assert (n - m = 0 ∨ n - m = 1 ∨ n - m = -1) as [?|[?|?]] by lia; [lia|..].
  - destruct En as [a Ha]; [lia|]. destruct Em as [b Hb]; [lia|]. lia.
  - destruct En as [a Ha]; [lia|]. destruct Em as [b Hb]; [lia|]. lia.
Qed.

Lemma bankers_round_neg d n : bankers_round (- d) n → bankers_round d (- n).
Proof.
  unfold bankers_round. rewrite precisionReuse_val. intros [Hn En]. split; [lia|].
  intros H. destruct En as [a Ha]; [lia|]. exists (- a). lia.
Qed.

Lemma chop_nonneg_round d : 0 ≤ d → bankers_round d (chop_nonneg d).
Proof.
  intros Hd. unfold chop_nonneg, bankers_round.
  rewrite Z.quot_div_nonneg, Z.rem_mod_nonneg by (rewrite ?precisionReuse_val; lia).
  pose proof (Z.div_mod d precisionReuse) as Hdm.
  pose proof (Z.mod_pos_bound d precisionReuse) as Hr.
  set (q := d / precisionReuse) in *. set (r := d mod precisionReuse) in *. clearbody q r.
  rewrite fivePrecision_val, precisionReuse_val in *.
  rewrite Z.bit0_odd, Z.negb_odd.
  destruct (Z.eqb_spec (Z.sgn r) 0) as [E|E]; [rewrite Z.sgn_null_iff in E; lia|].
  destruct (Z.compare_spec r 5000000000); [|lia..].
  destruct (Z.even q) eqn:Ev.
  - apply Z.even_spec in Ev. split; [lia|done].
  - split; [lia|]. intros _. rewrite <-Z.negb_odd in Ev. apply negb_false_iff, Z.odd_spec in Ev.
    destruct Ev as [k Hk]. exists (k + 1). lia.
Qed.

Lemma chop_round d : bankers_round d (chopPrecisionAndRound d).
Proof.
  unfold chopPrecisionAndRound. destruct (Z.eqb_spec (Z.sgn d) (-1)) as [E|E].
  - apply bankers_round_neg, chop_nonneg_round. rewrite Z.sgn_neg_iff in E. lia.
  - apply chop_nonneg_round. pose proof (Z.sgn_neg_iff d). lia.
Qed.

(** ** Ranges *)
Definition dec_ok (d : Dec) : Prop := Z.abs d < 2^289.

Lemma dec_checked_ok r c : dec_checked r = Ok c ↔ c = r ∧ dec_ok r.
Proof.
  unfold dec_checked, dec_ok, DecimalPrecisionBits. change (255 + 34) with 289.
  pose proof (BitLen_le r 289 ltac:(lia)).
  destruct (Z.ltb_spec 289 (BitLen r)); split.
  - done.
  - lia.
  - intros [= <-]. split; [done|lia].
  - by intros [-> _].
Qed.

Lemma dec_checked_spec r :
  dec_checked r = if Z.abs r <? 2^289 then Ok r else Panic "Int overflow".
Proof.
  unfold dec_checked, DecimalPrecisionBits. change (255 + 34) with 289.
  pose proof (BitLen_le r 289 ltac:(lia)).
  destruct (Z.ltb_spec 289 (BitLen r)), (Z.ltb_spec (Z.abs r) (2^289)); done || lia.
Qed.

Lemma NewDecFromInt_ok i : NewDecFromInt i = Ok (i * precisionReuse).
Proof. reflexivity. Qed.

Lemma precisionMultiplier_ok prec :
  0 ≤ prec ≤ Precision → precisionMultiplier prec = Ok (10 ^ (Precision - prec)).
Proof.
  unfold Precision. intros Hp.
  assert (prec = 0 ∨ prec = 1 ∨ prec = 2 ∨ prec = 3 ∨ prec = 4 ∨ prec = 5 ∨ prec = 6 ∨
          prec = 7 ∨ prec = 8 ∨ prec = 9 ∨ prec = 10) as Hc by lia.
  by repeat destruct Hc as [->|Hc]; subst.
Qed.

(** ** Text *)
Lemma zero_chars_parse n : parse_digits_acc 0 (zero_chars n) = Some 0.
Proof. induction n; simpl; done. Qed.

Lemma zero_chars_length n : length (zero_chars n) = n.
Proof. apply length_replicate. Qed.

Lemma parse_zeros_app n l : parse_digits_acc 0 (zero_chars n ++ l) = parse_digits_acc 0 l.
Proof. by rewrite parse_digits_acc_app, zero_chars_parse. Qed.

Lemma digit_not (c : ascii) l n :
  is_digit c = false → c ∉ digits n → c ∉ l → c ∉ l ++ digits n.
Proof. set_solver. Qed.

Lemma digits_notin (c : ascii) n : is_digit c = false → 0 ≤ n → c ∉ digits n.
Proof.
  intros Hc Hn Hin. pose proof (proj1 (Forall_forall _ _) (digits_digit n Hn) _ Hin). congruence.
Qed.

Lemma digits_head n : 0 ≤ n → ∃ c l, digits n = c :: l ∧ is_digit c = true.
Proof.
  intros Hn. pose proof (digits_digit n Hn) as Hd. destruct (digits n) as [|c l] eqn:E.
  - by destruct (digits_ne n).
  - exists c, l. split; [done|]. by apply Forall_cons in Hd as [? _].
Qed.

(** A text that starts with a digit is parsed without a sign. *)
Lemma parse_int_digit c l : is_digit c = true → parse_int (c :: l) = parse_digits_acc 0 (c :: l).
Proof. intros Hc. destruct c as [[] [] [] [] [] [] [] []]; try discriminate Hc; reflexivity. Qed.

(** Parsing a whole part and exactly ten decimals. *)
Lemma NewDecFromStr_ten whole decs c :
  "."%char ∉ c :: whole → "."%char ∉ decs → is_digit c = true → length decs = 10%nat →
  NewDecFromStr (str ((c :: whole) ++ "."%char :: decs)) =
  match parse_digits_acc 0 ((c :: whole) ++ decs) with
  | Some n => Ok n | None => Err ErrUnknownRequest end.
Proof.
  intros Hw Hds Hc Hl. unfold NewDecFromStr. rewrite chars_str.
  assert (Hm : bool_decide (Some c = Some "-"%char) = false).
  { apply bool_decide_false. by intros [= ->]. }
  rewrite bool_decide_false by done. cbn [head app]. rewrite Hm. cbv zeta.
  rewrite bool_decide_false by done.
  change (c :: whole ++ "."%char :: decs) with ((c :: whole) ++ "."%char :: decs).
  rewrite split_chars_app, split_chars_none by done.
  rewrite !bool_decide_false by (rewrite ?Hl; done). rewrite Hl. cbn [orb obind].
  change (Precision <? Z.of_nat 10) with false.
  change (zero_chars (Z.to_nat Precision - 10)) with (@nil ascii).
  rewrite app_nil_r. change ((c :: whole) ++ decs) with (c :: (whole ++ decs)).
  by rewrite parse_int_digit.
Qed.

Lemma NewDecFromStr_neg_ten whole decs c :
  "."%char ∉ c :: whole → "."%char ∉ decs → is_digit c = true → length decs = 10%nat →
  NewDecFromStr (str ("-"%char :: (c :: whole) ++ "."%char :: decs)) =
  match parse_digits_acc 0 ((c :: whole) ++ decs) with
  | Some n => Ok (- n) | None => Err ErrUnknownRequest end.
Proof.
  intros Hw Hds Hc Hl. unfold NewDecFromStr. rewrite chars_str.
  rewrite bool_decide_false by done. cbn [head tail app].
  rewrite (bool_decide_true (Some "-"%char = Some "-"%char)) by done. cbv zeta.
  rewrite bool_decide_false by done.
  change (c :: whole ++ "."%char :: decs) with ((c :: whole) ++ "."%char :: decs).
  rewrite split_chars_app, split_chars_none by done.
  rewrite !bool_decide_false by (rewrite ?Hl; done). rewrite Hl. cbn [orb obind].
  change (Precision <? Z.of_nat 10) with false.
  change (zero_chars (Z.to_nat Precision - 10)) with (@nil ascii).
  rewrite app_nil_r. change ((c :: whole) ++ decs) with (c :: (whole ++ decs)).
  by rewrite parse_int_digit.
Qed.

Lemma take_drop_ten (l : list ascii) :
  (10 < length l)%nat → ∃ w, w ≠ [] ∧ l = w ++ drop (length l - 10) l ∧
    take (length l - 10) l = w ∧ length (drop (length l - 10) l) = 10%nat.
Proof.
  intros Hl. exists (take (length l - 10) l). split_and!.
  - intros E%(f_equal length). rewrite length_take in E. simpl in E. lia.
  - by rewrite take_drop.
  - done.
  - rewrite length_drop. lia.
Qed.

Lemma Dec_String_short d : (length (int_text d) ≤ 10)%nat →
  Dec_String d = str (["0"%char] ++ "."%char :: zero_chars (10 - length (int_text d)) ++ int_text d).
Proof. intros Hl. unfold Dec_String. by rewrite bool_decide_true. Qed.

Lemma zero_chars_notin (c : ascii) n : c ≠ "0"%char → c ∉ zero_chars n.
Proof. intros Hc Hin. apply elem_of_replicate in Hin as [-> _]. done. Qed.

Lemma parse_digits_acc_bad acc l c k : is_digit c = false → parse_digits_acc acc (l ++ c :: k) = None.
Proof.
  intros Hc. rewrite parse_digits_acc_app. case_match; [|done]. simpl.
  unfold digit_val. by rewrite Hc.
Qed.

Lemma Dec_String_parse_nonneg d : 0 ≤ d → NewDecFromStr (Dec_String d) = Ok d.
Proof.
  intros Hd. assert (Ht : int_text d = digits d).
  { unfold int_text. destruct (Z.ltb_spec d 0); [lia|done]. }
  pose proof (digits_parse d Hd) as Hp.
  destruct (decide (length (digits d) ≤ 10)%nat) as [Hl|Hl].
  - rewrite Dec_String_short, Ht by (by rewrite Ht). rewrite NewDecFromStr_ten; [|set_solver| |done|].
    + change (["0"%char] ++ ?l) with (zero_chars 1 ++ l). by rewrite !parse_zeros_app, Hp.
    + rewrite elem_of_app. intros [H|H]; [by apply zero_chars_notin in H|by apply digits_notin in H].
    + rewrite length_app, zero_chars_length. lia.
  - unfold Dec_String. rewrite Ht, bool_decide_false by done.
    destruct (take_drop_ten (digits d)) as (w&Hw&Heq&->&Hten); [lia|].
    set (decs := drop _ _) in *. clearbody decs.
    pose proof (digits_digit d Hd) as Hdig. rewrite Heq in Hp, Hdig.
    assert (Hdot : "."%char ∉ digits d) by (by apply digits_notin). rewrite Heq in Hdot.
    destruct w as [|c w]; [done|]. simpl app at 2. rewrite NewDecFromStr_ten; [by rewrite Hp|..].
    + set_solver.
    + set_solver.
    + by apply Forall_app in Hdig as [[? _]%Forall_cons _].
    + done.
Qed.

Lemma Dec_String_parse_neg d : d ≤ - 10 ^ 10 → NewDecFromStr (Dec_String d) = Ok d.
Proof.
  intros Hd. assert (Ht : int_text d = "-"%char :: digits (- d)).
  { unfold int_text. destruct (Z.ltb_spec d 0); [done|lia]. }
  pose proof (digits_parse (- d) ltac:(lia)) as Hp.
  assert (Hl : (10 < length (digits (- d)))%nat).
  { pose proof (digits_length_le (- d) 10 ltac:(lia) ltac:(lia)). lia. }
  unfold Dec_String. rewrite Ht, bool_decide_false by (simpl; lia).
  destruct (take_drop_ten (digits (- d))) as (w&Hw&Heq&Htk&Hten); [lia|].
  simpl length. replace (S (length (digits (- d))) - 10)%nat with (S (length (digits (- d)) - 10)) by lia.
  cbn [take drop]. rewrite Htk. set (decs := drop _ _) in *. clearbody decs.
  pose proof (digits_digit (- d) ltac:(lia)) as Hdig. rewrite Heq in Hp, Hdig.
  assert (Hdot : "."%char ∉ digits (- d)) by (apply digits_notin; [done|lia]). rewrite Heq in Hdot.
  destruct w as [|c w]; [done|]. change (("-"%char :: c :: w) ++ ["."%char] ++ decs) with
    ("-"%char :: (c :: w) ++ "."%char :: decs).
  rewrite NewDecFromStr_neg_ten; [rewrite Hp; f_equal; lia|..].
  - set_solver.
  - set_solver.
  - by apply Forall_app in Hdig as [[? _]%Forall_cons _].
  - done.
Qed.

(** The text of a decimal strictly between -1 and 0 cannot be read back. *)
Lemma Dec_String_parse_frac d : - 10 ^ 10 < d < 0 → NewDecFromStr (Dec_String d) = Err ErrUnknownRequest.
Proof.
  intros Hd. assert (Ht : int_text d = "-"%char :: digits (- d)).
  { unfold int_text. destruct (Z.ltb_spec d 0); [done|lia]. }
  assert (Hl : (length (digits (- d)) ≤ 10)%nat).
  { apply digits_length_le; lia. }
  assert (Hdot : "."%char ∉ digits (- d)) by (apply digits_notin; [done|lia]).
  destruct (decide (length (digits (- d)) = 10%nat)) as [E|E].
  - unfold Dec_String. rewrite Ht, bool_decide_false by (simpl; lia). simpl length. rewrite E.
    cbn [Nat.sub take drop app]. unfold NewDecFromStr. rewrite chars_str.
    rewrite bool_decide_false by done. cbn [head tail].
    rewrite (bool_decide_true (Some "-"%char = Some "-"%char)) by done. cbv zeta.
    rewrite bool_decide_false by done.
    change ("."%char :: digits (- d)) with ([] ++ "."%char :: digits (- d)).
    rewrite split_chars_app, split_chars_none by (done || set_solver).
    rewrite (bool_decide_true (length [] = 0%nat)) by done. by rewrite orb_true_r.
  - rewrite Dec_String_short, Ht by (rewrite Ht; simpl; lia). rewrite NewDecFromStr_ten; [|set_solver| |done|].
    + by rewrite app_assoc, parse_digits_acc_bad.
    + simpl length. rewrite elem_of_app, elem_of_cons.
      intros [H|[H|H]]; [by apply zero_chars_notin in H|done|done].
    + rewrite length_app, zero_chars_length. simpl. lia.
Qed.

(** Truncating a quotient and then rounding it adds less than one to the error. *)
Lemma Quo_error_bound a b m :
  b ≠ 0 → m = a * (precisionReuse * precisionReuse) →
  2 * Z.abs (a * precisionReuse ^ 2 - chopPrecisionAndRound (Z.quot m b) * precisionReuse * b)
    < (precisionReuse + 2) * Z.abs b.
Proof.
  intros Hb Hm. pose proof (chop_round (Z.quot m b)) as [Hc _].
  replace (a * precisionReuse ^ 2) with m by lia.
  set (c := chopPrecisionAndRound _) in *. clearbody c.
  pose proof (Z.quot_rem m b Hb) as Hqr. pose proof (Z.rem_bound_abs m b Hb) as Hrem.
  set (q := Z.quot m b) in *. set (x := Z.rem m b) in *. clearbody q x. clear Hm.
  set (P := precisionReuse) in *. clearbody P.
  assert (Heq : m - c * P * b = b * (q - c * P) + x) by (rewrite Hqr; ring).
  rewrite Heq. pose proof (Z.abs_triangle (b * (q - c * P)) x). rewrite Z.abs_mul in H. nia.
Qed.

(** * Theorems about decimals *)

(** [chopPrecisionAndRound] is the one integer that bankers rounding (to
    nearest, ties to even, for both signs) allows. *)
Theorem chopPrecisionAndRound_bankers (d n : Z) :
  chopPrecisionAndRound d = n ↔ bankers_round d n.
Proof.
  split; [intros <-; apply chop_round|]. intros H.
  by apply (bankers_round_unique d); [apply chop_round|].
Qed.

(** A product is the exact product rounded to nearest even, and a quotient by a
    non-zero decimal is within half a unit plus one part in 10^20 of the exact
    quotient; they panic exactly when this result needs more than 289 bits, or
    the divisor is zero. *)
Theorem Dec_Mul_Quo_spec (a b : Dec) :
  (∃ n, bankers_round (a * b) n ∧
    Dec_Mul a b = if Z.abs n <? 2^289 then Ok n else Panic "Int overflow") ∧
  (if b =? 0 then Dec_Quo a b = Panic "division by zero" else
   ∃ n, 2 * Z.abs (a * precisionReuse ^ 2 - n * precisionReuse * b)
          < (precisionReuse + 2) * Z.abs b ∧
        Dec_Quo a b = if Z.abs n <? 2^289 then Ok n else Panic "Int overflow").
Proof.
  split; [eexists; split; [apply chop_round|apply dec_checked_spec]|].
  unfold Dec_Quo, big_Quo. destruct (Z.eqb_spec b 0) as [|Hb]; [done|]. cbn [obind].
  eexists; split; [|apply dec_checked_spec]. apply Quo_error_bound; [done|]. by rewrite <-Z.mul_assoc.
Qed.

(** C35. Reading back the text of a decimal gives the decimal, except strictly
    between -1 and 0, where the text is rejected: there [String] writes the
    sign after the decimal point, or no digit before it. *)
Theorem Dec_String_roundtrip (d : Dec) :
  NewDecFromStr (Dec_String d) =
  if (- precisionReuse <? d) && (d <? 0) then Err ErrUnknownRequest else Ok d.
Proof.
  rewrite precisionReuse_val.
  destruct (Z.ltb_spec (Z.opp 10000000000) d), (Z.ltb_spec d 0); cbn [andb].
  - by apply Dec_String_parse_frac.
  - by apply Dec_String_parse_nonneg.
  - by apply Dec_String_parse_neg.
  - by apply Dec_String_parse_nonneg.
Qed.
