(* ===== verification/TimeBytes.v ===== *)
(** * Times as store keys (types/utils.go)

    The queues of the keepers are iterated in the byte order of their keys, which
    start with a time in a textual format; an iteration up to a time visits the
    slices that are due when that order is the order of the times. *)

From Stdlib Require Import Ascii.
From S2P Require Import Prelude IntType GoStrings Dec.
#[local] Open Scope Z_scope.

(** ** The calendar of package time

    A time is the number of nanoseconds since 1970 in UTC, so [UTC] and
    [Round(0)], which drops a monotonic clock reading, leave it alone. *)
Definition secondsPerDay : Z := 86400.
Definition Second : Z := 10^9.

(** [absDate]: the year and the day in it, for a day counted from 0001-01-01; the
    last year of a cycle of four takes the leap day. *)
Definition daysPer400Years : Z := 365 * 400 + 97.
Definition daysPer100Years : Z := 365 * 100 + 24.
Definition daysPer4Years : Z := 365 * 4 + 1.
Definition year_day (d : Z) : Z * Z :=
  let n := d / daysPer400Years in
  let y := 400 * n in
  let d := d - daysPer400Years * n in
  let n := d / daysPer100Years in
  let n := n - Z.shiftr n 2 in
  let y := y + 100 * n in
  let d := d - daysPer100Years * n in
  let n := d / daysPer4Years in
  let y := y + 4 * n in
  let d := d - daysPer4Years * n in
  let n := d / 365 in
  let n := n - Z.shiftr n 2 in
  (y + n + 1, d - 365 * n).

Definition isLeap (year : Z) : bool := (year mod 4 =? 0) && (negb (year mod 100 =? 0) || (year mod 400 =? 0)).
Definition daysBefore (m : Z) : Z :=
  nth (Z.to_nat m) [0; 31; 59; 90; 120; 151; 181; 212; 243; 273; 304; 334; 365] 0.
Definition month_day (leap : bool) (yday : Z) : Z * Z :=
  if leap && (yday =? 31 + 29 - 1) then (2, 29) else
  let day := if leap && (31 + 29 - 1 <? yday) then yday - 1 else yday in
  let month := day / 31 in
  let stop := daysBefore (month + 1) in
  if stop <=? day then (month + 2, day - stop + 1) else (month + 1, day - daysBefore month + 1).

(** [Time.Date] for a day counted from 1970. *)
Definition Date (days : Z) : Z * Z * Z :=
  let '(year, yday) := year_day (days + 719162) in
  let '(month, day) := month_day (isLeap year) yday in
  (year, month, day).

(** [appendInt] of package time: the sign, then the digits padded to a width. *)
Definition appendInt (x : Z) (width : nat) : list ascii :=
  let u := digits (Z.abs x) in
  (if x <? 0 then ["-"%char] else []) ++ zero_chars (width - length u) ++ u.

(** The layout "2006-01-02T15:04:05.000000000". *)
Definition FormatTimeBytes (t : Z) : string :=
  let secs := t / Second in
  let days := secs / secondsPerDay in
  let s := secs mod secondsPerDay in
  let '(year, month, day) := Date days in
  str (appendInt year 4 ++ "-"%char :: appendInt month 2 ++ "-"%char :: appendInt day 2 ++ "T"%char ::
       appendInt (s / 3600) 2 ++ ":"%char :: appendInt (s / 60 mod 60) 2 ++ ":"%char :: appendInt (s mod 60) 2 ++
       "."%char :: appendInt (t mod Second) 9).

(** ** Byte order *)
Lemma str_lt_app_l p s t : str_lt s t → str_lt (p +:+ s) (p +:+ t).
Proof.
  unfold str_lt. intros H. induction p as [|c p IH]; [done|]. simpl. unfold Ascii.compare. by rewrite N.compare_refl.
Qed.
Lemma str_lt_same_len (l k x y : list ascii) :
  length l = length k → str_lt (str l) (str k) → str_lt (str (l ++ x)) (str (k ++ y)).
Proof.
  unfold str_lt, str. revert k. induction l as [|a l IH]; intros [|b k]; simpl; try done. intros [= Hl].
  unfold Ascii.compare. destruct (_ ?= _)%N; [by apply IH|done..].
Qed.
Lemma str_lt_cons c l k : str_lt (str l) (str k) → str_lt (str (c :: l)) (str (c :: k)).
Proof. intros H. apply (str_lt_app_l (str [c]) _ _ H). Qed.
Lemma str_lt_head c d l k : byte_val c < byte_val d → str_lt (str (c :: l)) (str (d :: k)).
Proof.
  unfold byte_val, str_lt, str. intros H. simpl. unfold Ascii.compare.
  by rewrite (proj2 (N.compare_lt_iff _ _)) by lia.
Qed.
Lemma byte_val_inj c d : byte_val c = byte_val d → c = d.
Proof.
  unfold byte_val. intros H%N2Z.inj. by rewrite <-(Ascii.ascii_N_embedding c), <-(Ascii.ascii_N_embedding d), H.
Qed.
Lemma digit_val_byte c v : digit_val c = Some v → v = byte_val c - 48.
Proof. unfold digit_val, byte_val. case_match; naive_solver. Qed.

(** Numbers written with as many digits are ordered as their texts are. *)
Lemma parse_digits_none l a b : parse_digits_acc a l = None → parse_digits_acc b l = None.
Proof.
  revert a b. induction l as [|c l IH]; intros a b; simpl; [done|]. destruct (digit_val c); [apply IH|done].
Qed.
Lemma parse_digits_cons c l n :
  parse_digits_acc 0 (c :: l) = Some n →
  ∃ v m, digit_val c = Some v ∧ parse_digits_acc 0 l = Some m ∧ n = v * 10 ^ Z.of_nat (length l) + m.
Proof.
  change (c :: l) with ([c] ++ l). rewrite parse_digits_acc_app. simpl. destruct (digit_val c) as [v|]; [|done].
  destruct (parse_digits_acc 0 l) as [m|] eqn:E.
  - rewrite (parse_digits_acc_shift _ _ _ E). intros [= <-]. eauto.
  - by rewrite (parse_digits_none _ _ (0 * 10 + v) E).
Qed.
Lemma digits_order l k a b :
  length l = length k → parse_digits_acc 0 l = Some a → parse_digits_acc 0 k = Some b →
  a < b → str_lt (str l) (str k).
Proof.
  revert k a b. induction l as [|c l IH]; intros [|d k] a b; try done.
  - simpl. intros _ [= <-] [= <-]. lia.
  - intros [= Hl] (v&m&Hv&Hm&->)%parse_digits_cons (w&n&Hw&Hn&->)%parse_digits_cons Hlt.
    pose proof (parse_digits_bound _ _ Hm) as B1. pose proof (parse_digits_bound _ _ Hn) as B2. rewrite Hl in *.
    set (p := 10 ^ Z.of_nat (length k)) in *.
    assert (v < w ∨ v = w) as [Hvw| ->] by nia.
    + apply str_lt_head. apply digit_val_byte in Hv, Hw. lia.
    + assert (c = d) as -> by (apply byte_val_inj; apply digit_val_byte in Hv, Hw; lia).
      apply str_lt_cons. eapply IH; eauto; lia.
Qed.

Lemma appendInt_parse x w :
  0 ≤ x < 10 ^ Z.of_nat w → (0 < w)%nat →
  length (appendInt x w) = w ∧ parse_digits_acc 0 (appendInt x w) = Some x.
Proof.
  intros Hx Hw. unfold appendInt. rewrite Z.abs_eq by lia. destruct (Z.ltb_spec x 0); [lia|]. cbn [app].
  rewrite parse_zeros_app, digits_parse by lia. split; [|done].
  pose proof (proj2 (digits_length_le x w ltac:(lia) Hw) ltac:(lia)).
  rewrite length_app, zero_chars_length. lia.
Qed.

(** Fixed-width fields compare as the numbers do, and equal ones are skipped. *)
Lemma field_lt x y w r q :
  0 ≤ x → y < 10 ^ Z.of_nat w → (0 < w)%nat → x < y → str_lt (str (appendInt x w ++ r)) (str (appendInt y w ++ q)).
Proof.
  intros H0 Hy Hw Hlt.
  destruct (appendInt_parse x w ltac:(lia) Hw) as [L1 P1]. destruct (appendInt_parse y w ltac:(lia) Hw) as [L2 P2].
  apply str_lt_same_len; [congruence|]. eapply digits_order; eauto. congruence.
Qed.
Lemma field_le x y w r q :
  0 ≤ x → y < 10 ^ Z.of_nat w → (0 < w)%nat → x < y ∨ x = y ∧ str_lt (str r) (str q) →
  str_lt (str (appendInt x w ++ r)) (str (appendInt y w ++ q)).
Proof.
  intros H0 Hy Hw [Hlt|[-> Hlt]]; [by apply field_lt|]. rewrite !str_app. by apply str_lt_app_l.
Qed.

(** Big-endian numbers of as many bytes. *)
Definition be_val (l : list ascii) : Z := foldl (λ acc c, acc * 256 + byte_val c) 0 l.
Lemma byte_val_bound c : 0 ≤ byte_val c < 256.
Proof. unfold byte_val. pose proof (Ascii.N_ascii_bounded c). lia. Qed.
Lemma be_val_shift l a : foldl (λ acc c, acc * 256 + byte_val c) a l = a * 256 ^ Z.of_nat (length l) + be_val l.
Proof.
  unfold be_val. revert a. induction l as [|c l IH]; intros a; [simpl; lia|]. cbn [foldl length].
  rewrite (IH (a * 256 + byte_val c)), (IH (0 * 256 + byte_val c)), Nat2Z.inj_succ, Z.pow_succ_r by lia. lia.
Qed.
Lemma be_val_cons c l : be_val (c :: l) = byte_val c * 256 ^ Z.of_nat (length l) + be_val l.
Proof. unfold be_val at 1. cbn [foldl]. rewrite be_val_shift. f_equal. Qed.
Lemma be_val_bound l : 0 ≤ be_val l < 256 ^ Z.of_nat (length l).
Proof.
  induction l as [|c l IH]; [done|]. rewrite be_val_cons. cbn [length]. rewrite Nat2Z.inj_succ, Z.pow_succ_r by lia.
  pose proof (byte_val_bound c). nia.
Qed.
Lemma be_order l k : length l = length k → be_val l < be_val k → str_lt (str l) (str k).
Proof.
  revert k. induction l as [|c l IH]; intros [|d k]; try done. intros [= Hl]. rewrite !be_val_cons, Hl. intros Hlt.
  pose proof (be_val_bound l) as B1. pose proof (be_val_bound k) as B2. rewrite Hl in B1.
  set (p := 256 ^ Z.of_nat (length k)) in *.
  assert (byte_val c < byte_val d ∨ byte_val c = byte_val d) as [H|H] by nia.
  - by apply str_lt_head.
  - apply byte_val_inj in H as <-. apply str_lt_cons, IH; [done|nia].
Qed.
Lemma Uint64ToBigEndian_order x y :
  0 ≤ x < 2^64 → 0 ≤ y < 2^64 → x < y → str_lt (Uint64ToBigEndian x) (Uint64ToBigEndian y).
Proof.
  intros Hx Hy Hlt. rewrite <-(BigEndian_roundtrip x Hx), <-(BigEndian_roundtrip y Hy) in Hlt.
  unfold BigEndianToUint64 in Hlt. fold (be_val (chars (Uint64ToBigEndian x))) (be_val (chars (Uint64ToBigEndian y))) in Hlt.
  rewrite <-(str_chars (Uint64ToBigEndian x)), <-(str_chars (Uint64ToBigEndian y)). apply be_order; [done|done].
Qed.

(** ** The calendar is monotone *)
Lemma quarter_cap d k :
  0 < k → 0 ≤ d ≤ 4 * k →
  let n := d / k - Z.shiftr (d / k) 2 in 0 ≤ n ≤ 3 ∧ 0 ≤ d - k * n ∧ (n < 3 → d - k * n < k) ∧ d - k * n ≤ k.
Proof.
  intros Hk Hd. rewrite Z.shiftr_div_pow2 by done. change (2^2) with 4. set (q := d / k).
  assert (k * q ≤ d < k * q + k) by (subst q; pose proof (Z.mul_div_le d k); pose proof (Z.mul_succ_div_gt d k); lia).
  assert (0 ≤ q ≤ 4) by nia. assert (q = 0 ∨ q = 1 ∨ q = 2 ∨ q = 3 ∨ q = 4) as Hq by lia.
  clearbody q. destruct Hq as [->|[->|[->|[->| ->]]]]; cbv zeta;
  [change (0 / 4) with 0|change (1 / 4) with 0|change (2 / 4) with 0|change (3 / 4) with 0|change (4 / 4) with 1]; lia.
Qed.
Lemma year_day_spec d : ∃ a b c e yday,
  year_day d = (400 * a + 100 * b + 4 * c + e + 1, yday) ∧
  d = daysPer400Years * a + daysPer100Years * b + daysPer4Years * c + 365 * e + yday ∧
  0 ≤ b ≤ 3 ∧ 0 ≤ c ≤ 24 ∧ 0 ≤ e ≤ 3 ∧ 0 ≤ yday ≤ 365 ∧ (e < 3 → yday < 365) ∧
  daysPer4Years * c + 365 * e + yday ≤ daysPer100Years ∧ (b < 3 → daysPer4Years * c + 365 * e + yday < daysPer100Years).
Proof.
  unfold year_day. change daysPer400Years with 146097. change daysPer100Years with 36524. change daysPer4Years with 1461.
  set (a := d / 146097). set (d1 := d - 146097 * a).
  assert (0 ≤ d1 < 146097).
  { subst d1 a. pose proof (Z.mod_pos_bound d 146097). pose proof (Z.div_mod d 146097). lia. }
  pose proof (quarter_cap d1 36524 ltac:(done) ltac:(lia)) as Hb.
  cbv zeta in *. set (b := d1 / 36524 - _) in *. set (d2 := d1 - 36524 * b) in *.
  set (c := d2 / 1461). set (d3 := d2 - 1461 * c).
  assert (0 ≤ d3 < 1461).
  { subst d3 c. pose proof (Z.mod_pos_bound d2 1461). pose proof (Z.div_mod d2 1461). lia. }
  pose proof (quarter_cap d3 365 ltac:(done) ltac:(lia)) as He.
  cbv zeta in *. set (e := d3 / 365 - _) in *.
  exists a, b, c, e, (d3 - 365 * e). split_and!; try lia. f_equal; lia.
Qed.
Lemma year_day_lt d d' : d < d' →
  let '(y, n) := year_day d in let '(y', n') := year_day d' in y < y' ∨ y = y' ∧ n < n'.
Proof.
  intros Hlt. destruct (year_day_spec d) as (a&b&c&e&n&->&?&?&?&?&?&?&?&?).
  destruct (year_day_spec d') as (a'&b'&c'&e'&n'&->&?&?&?&?&?&?&?&?).
  unfold daysPer400Years, daysPer100Years, daysPer4Years in *.
  assert (a < a' ∨ a = a') as [|<-] by lia; [lia|]. assert (b < b' ∨ b = b') as [|<-] by lia; [lia|].
  assert (c < c' ∨ c = c') as [|<-] by lia; [lia|]. assert (e < e' ∨ e = e') as [|<-] by lia; lia.
Qed.
Lemma year_day_bound d : 0 ≤ (year_day d).2 ≤ 365.
Proof. destruct (year_day_spec d) as (a&b&c&e&n&->&?). simpl. lia. Qed.

(** The 366 days of a year, in order. *)
Definition month_lt (a b : Z * Z) : Prop := a.1 < b.1 ∨ a.1 = b.1 ∧ a.2 < b.2.
Definition month_check (leap : bool) : bool :=
  forallb (λ i, let a := month_day leap (Z.of_nat i) in let b := month_day leap (Z.of_nat i + 1) in
    (0 <=? a.1) && (a.1 <=? 13) && (0 <=? a.2) && (a.2 <=? 31) && ((a.1 <? b.1) || (a.1 =? b.1) && (a.2 <? b.2))) (seq 0 366).
Lemma month_checked leap : month_check leap = true.
Proof. destruct leap; vm_compute; reflexivity. Qed.
Lemma month_step leap i : 0 ≤ i < 366 →
  month_lt (month_day leap i) (month_day leap (i + 1)) ∧ 0 ≤ (month_day leap i).1 ≤ 13 ∧ 0 ≤ (month_day leap i).2 ≤ 31.
Proof.
  intros Hi. pose proof (month_checked leap) as Hc. unfold month_check in Hc. rewrite forallb_forall in Hc.
  specialize (Hc (Z.to_nat i)). rewrite Z2Nat.id in Hc by lia.
  specialize (Hc ltac:(apply in_seq; lia)). cbv zeta in Hc. unfold month_lt. zbool. lia.
Qed.
Lemma month_day_lt leap i j : 0 ≤ i → i < j → j ≤ 366 → month_lt (month_day leap i) (month_day leap j).
Proof.
  intros Hi Hlt. replace j with (i + 1 + Z.of_nat (Z.to_nat (j - i - 1))) by lia.
  induction (Z.to_nat (j - i - 1)) as [|n IH]; intros Hj.
  - rewrite Z.add_0_r. apply month_step. lia.
  - rewrite Nat2Z.inj_succ in *. specialize (IH ltac:(lia)).
    destruct (month_step leap (i + 1 + Z.of_nat n) ltac:(lia)) as [Hs _].
    replace (i + 1 + Z.succ (Z.of_nat n)) with (i + 1 + Z.of_nat n + 1) by lia. unfold month_lt in *. lia.
Qed.

Definition date_lt (a b : Z * Z * Z) : Prop :=
  a.1.1 < b.1.1 ∨ a.1.1 = b.1.1 ∧ month_lt (a.1.2, a.2) (b.1.2, b.2).
Lemma Date_lt d d' : d < d' → date_lt (Date d) (Date d').
Proof.
  intros Hlt. unfold Date. pose proof (year_day_lt (d + 719162) (d' + 719162) ltac:(lia)) as H.
  pose proof (year_day_bound (d + 719162)) as B1. pose proof (year_day_bound (d' + 719162)) as B2.
  destruct (year_day (d + 719162)) as [y n], (year_day (d' + 719162)) as [y' n']. simpl in B1, B2.
  pose proof (λ l, month_day_lt l n n' ltac:(lia)) as Hm.
  destruct H as [H|[<- H]]; [|specialize (Hm (isLeap y) H ltac:(lia))]; repeat case_match; unfold date_lt; simpl; auto.
Qed.
Lemma Date_bounds d : 0 ≤ d < 2932897 → let '(y, m, day) := Date d in 1970 ≤ y ≤ 9999 ∧ 0 ≤ m ≤ 13 ∧ 0 ≤ day ≤ 31.
Proof.
  intros Hd.
  assert (1970 ≤ (Date d).1.1 ≤ 9999) as Hy.
  { destruct (decide (d = 0)) as [->|]; [vm_compute; by split|]. destruct (decide (d = 2932896)) as [->|]; [vm_compute; by split|].
    pose proof (Date_lt 0 d ltac:(lia)) as L. pose proof (Date_lt d 2932896 ltac:(lia)) as U.
    change (Date 0) with (1970, 1, 1) in L. change (Date 2932896) with (9999, 12, 31) in U.
    unfold date_lt in *. simpl in *. lia. }
  revert Hy. unfold Date. pose proof (year_day_bound (d + 719162)) as B. destruct (year_day (d + 719162)) as [y n]. simpl in B.
  pose proof (month_step (isLeap y) n ltac:(lia)) as (_&?&?). destruct (month_day (isLeap y) n). simpl in *. lia.
Qed.

(** The seconds of a day, as hours, minutes and seconds. *)
Lemma clock_lt s s' : 0 ≤ s → s < s' → s' < 86400 →
  s / 3600 < s' / 3600 ∨ s / 3600 = s' / 3600 ∧ (s / 60 mod 60 < s' / 60 mod 60 ∨ s / 60 mod 60 = s' / 60 mod 60 ∧ s mod 60 < s' mod 60).
Proof. intros. Z.div_mod_to_equations. lia. Qed.
Lemma clock_bounds s : 0 ≤ s < 86400 → 0 ≤ s / 3600 < 24 ∧ 0 ≤ s / 60 mod 60 < 60 ∧ 0 ≤ s mod 60 < 60.
Proof. intros. Z.div_mod_to_equations. lia. Qed.

(** The first nanosecond of the year 10000. *)
Definition year10000 : Z := 2932897 * secondsPerDay * Second.

(** The byte order of the keys is the order of the times. *)
Lemma FormatTimeBytes_lt t t' :
  0 ≤ t → t < t' → t' < year10000 → str_lt (FormatTimeBytes t) (FormatTimeBytes t').
Proof.
  unfold year10000, FormatTimeBytes. change secondsPerDay with 86400. change Second with 1000000000.
  intros H0 Hlt Hmax. set (s := t / 1000000000). set (s' := t' / 1000000000).
  set (n := t mod 1000000000). set (n' := t' mod 1000000000).
  assert (t = s * 1000000000 + n ∧ 0 ≤ n < 1000000000) as [Et Hn] by (subst s n; Z.div_mod_to_equations; lia).
  assert (t' = s' * 1000000000 + n' ∧ 0 ≤ n' < 1000000000) as [Et' Hn'] by (subst s' n'; Z.div_mod_to_equations; lia).
  clearbody s s' n n'. set (d := s / 86400). set (d' := s' / 86400). set (c := s mod 86400). set (c' := s' mod 86400).
  assert (s = d * 86400 + c ∧ 0 ≤ c < 86400) as [Es Hc] by (subst c d; Z.div_mod_to_equations; lia).
  assert (s' = d' * 86400 + c' ∧ 0 ≤ c' < 86400) as [Es' Hc'] by (subst c' d'; Z.div_mod_to_equations; lia).
  clearbody d d' c c'.
  pose proof (Date_bounds d ltac:(lia)) as B. pose proof (Date_bounds d' ltac:(lia)) as B'.
  pose proof (Date_lt d d') as L.
  assert (d < d' ∨ d = d' ∧ (c < c' ∨ c = c' ∧ n < n')) as Hcase by lia.
  pose proof (clock_lt c c' ltac:(lia)) as Lc. pose proof (clock_bounds c Hc) as Bc. pose proof (clock_bounds c' Hc') as Bc'.
  destruct (Date d) as [[y m] day] eqn:Ed, (Date d') as [[y' m'] day'] eqn:Ed'. unfold date_lt, month_lt in L. simpl in L.
  assert (Heq : d = d' → y = y' ∧ m = m' ∧ day = day') by (intros ->; rewrite Ed in Ed'; naive_solver).
  apply field_le; [lia|simpl; lia|lia|]. destruct (decide (y < y')); [by left|right; split; [lia|]]. apply str_lt_cons.
  apply field_le; [lia|simpl; lia|lia|]. destruct (decide (m < m')); [by left|right; split; [lia|]]. apply str_lt_cons.
  apply field_le; [lia|simpl; lia|lia|]. destruct (decide (day < day')); [by left|right; split; [lia|]]. apply str_lt_cons.
  assert (d = d') as -> by lia.
  apply field_le; [lia|simpl; lia|lia|]. destruct (decide (c / 3600 < c' / 3600)); [by left|right; split; [|]].
  { destruct (decide (c = c')) as [->|]; [done|]. lia. }
  apply str_lt_cons. apply field_le; [lia|simpl; lia|lia|].
  destruct (decide (c / 60 mod 60 < c' / 60 mod 60)); [by left|right; split; [|]].
  { destruct (decide (c = c')) as [->|]; [done|]. lia. }
  apply str_lt_cons. apply field_le; [lia|simpl; lia|lia|].
  destruct (decide (c mod 60 < c' mod 60)); [by left|right; split; [|]].
  { destruct (decide (c = c')) as [->|]; [done|]. lia. }
  apply str_lt_cons. rewrite <-(app_nil_r (appendInt n 9)), <-(app_nil_r (appendInt n' 9)).
  apply field_lt; [lia|simpl; lia|lia|]. destruct (decide (c = c')) as [->|]; lia.
Qed.
Lemma FormatTimeBytes_inj t t' :
  0 ≤ t < year10000 → 0 ≤ t' < year10000 → FormatTimeBytes t = FormatTimeBytes t' → t = t'.
Proof.
  intros Ht Ht' E. destruct (Z.lt_total t t') as [H|[H|H]]; [exfalso|done|exfalso].
  - apply (str_lt_irrefl (FormatTimeBytes t)). rewrite E at 2. apply FormatTimeBytes_lt; lia.
  - apply (str_lt_irrefl (FormatTimeBytes t)). rewrite E at 1. apply FormatTimeBytes_lt; lia.
Qed.

(** An iteration up to the key of [now] visits the keys of the times up to [now]
    and no other: the queues release a slice exactly when it is due. *)
Lemma FormatTimeBytes_due t now :
  0 ≤ t < year10000 → 0 ≤ now < year10000 → ¬ str_lt (FormatTimeBytes now) (FormatTimeBytes t) ↔ t ≤ now.
Proof.
  intros Ht Hnow. split; intros H.
  - destruct (decide (t ≤ now)); [done|]. destruct H. apply FormatTimeBytes_lt; lia.
  - intros Hlt. destruct (decide (t = now)) as [->|]; [by apply str_lt_irrefl in Hlt|].
    apply (str_lt_irrefl (FormatTimeBytes now)). etrans; [done|]. apply FormatTimeBytes_lt; lia.
Qed.
Example FormatTimeBytes_text : FormatTimeBytes 1514159999000000000 = "2017-12-24T23:59:59.000000000".
Proof. vm_compute. reflexivity. Qed.
