(* ===== verification/Gas.v ===== *)
(** * Gas meters (types/gas.go)

    Gas is a uint64.  A basic meter has a limit and panics when it is passed;
    an infinite meter only panics when the counter itself overflows.  The
    float64 [base] of a basic meter is represented by what the code uses of it:
    whether it exceeds 1, and then the function
    [amount => uint64(math.Log(amount) / math.Log(base))]. *)

From S2P Require Import Prelude IntType.
#[local] Open Scope Z_scope.

Definition GasWritePerByteDesc : string := "WritePerByte".
Definition GasReadPerByteDesc : string := "ReadPerByte".

Inductive GasMeter :=
| basicGasMeter (limit consumed : Z) (base : option (Z → Z)) (shift : Z)
| infiniteGasMeter (consumed : Z).

Definition NewGasMeter (limit : Z) : GasMeter := basicGasMeter limit 0 None 0.
Definition NewGasMeterWithBase (limit : Z) (base : option (Z → Z)) (shift : Z) : GasMeter :=
  basicGasMeter limit 0 base shift.
Definition NewInfiniteGasMeter : GasMeter := infiniteGasMeter 0.

Definition GasConsumed (g : GasMeter) : Z :=
  match g with basicGasMeter _ consumed _ _ | infiniteGasMeter consumed => consumed end.

Definition Limit (g : GasMeter) : Z :=
  match g with basicGasMeter limit _ _ _ => limit | infiniteGasMeter _ => 0 end.

Definition IsPastLimit (g : GasMeter) : bool :=
  match g with
  | basicGasMeter limit consumed _ _ => limit <? consumed
  | infiniteGasMeter _ => false
  end.

Definition IsOutOfGas (g : GasMeter) : bool :=
  match g with
  | basicGasMeter limit consumed _ _ => limit <=? consumed
  | infiniteGasMeter _ => false
  end.

Definition GasConsumedToLimit (g : GasMeter) : Z :=
  match g with
  | basicGasMeter limit consumed _ _ => if IsPastLimit g then limit else consumed
  | infiniteGasMeter consumed => consumed
  end.

Definition scaled_amount (base : option (Z → Z)) (shift amount : Z) (descriptor : string) : Z :=
  match base with
  | Some log_base =>
      if (shift <? amount) && (amount <? 2^63 - 1) &&
         (bool_decide (descriptor = GasWritePerByteDesc) ||
          bool_decide (descriptor = GasReadPerByteDesc))
      then log_base amount else amount
  | None => amount
  end.

Definition ConsumeGas (amount : Z) (descriptor : string) : M GasMeter unit := λ g,
  match g with
  | basicGasMeter limit consumed base shift =>
      let amount := scaled_amount base shift amount descriptor in
      let '(consumed, overflow) := AddUint64Overflow consumed amount in
      let g := basicGasMeter limit consumed base shift in
      if overflow : bool then (Panic "ErrorGasOverflow", g)
      else if limit <? consumed then (Panic "ErrorOutOfGas", g) else (Ok tt, g)
  | infiniteGasMeter consumed =>
      let '(consumed, overflow) := AddUint64Overflow consumed amount in
      let g := infiniteGasMeter consumed in
      if overflow : bool then (Panic "ErrorGasOverflow", g) else (Ok tt, g)
  end.

(** ** The default costs *)
Record GasConfig := mkGasConfig {
  HasCost : Z; DeleteCost : Z; ReadCostFlat : Z; ReadCostPerByte : Z;
  WriteCostFlat : Z; WriteCostPerByte : Z; ValueCostPerByte : Z; IterNextCostFlat : Z }.

Definition KVGasConfig : GasConfig := mkGasConfig 10 10 10 1 10 10 1 15.
Definition TransientGasConfig : GasConfig := KVGasConfig.

(** ** Charging *)

(** How much a meter still accepts. *)
Definition gas_room (g : GasMeter) : Z :=
  match g with
  | basicGasMeter limit consumed _ _ => limit - consumed
  | infiniteGasMeter consumed => uint64_max - consumed
  end.

Definition gas_wf (g : GasMeter) : Prop :=
  match g with
  | basicGasMeter limit consumed base shift =>
      0 ≤ consumed ∧ 0 ≤ limit < 2^64 ∧ consumed < 2^64 ∧ base = None
  | infiniteGasMeter consumed => 0 ≤ consumed < 2^64
  end.

(** A charge that fits is taken and the room shrinks by its amount. *)
Lemma ConsumeGas_ok g amount desc :
  gas_wf g → 0 ≤ amount ≤ gas_room g →
  ∃ g', ConsumeGas amount desc g = (Ok tt, g') ∧ gas_wf g' ∧ gas_room g' = gas_room g - amount.
Proof.
  destruct g as [limit consumed base shift|consumed]; unfold ConsumeGas, gas_wf, gas_room, uint64_max.
  - intros (?&?&?&->) ?. cbn [scaled_amount]. rewrite AddUint64Overflow_ok by lia.
    rewrite (proj2 (Z.ltb_lt _ _)) by lia. rewrite (proj2 (Z.ltb_ge _ _)) by lia.
    eexists. split; [done|]. split; [split_and!; done || lia|]. lia.
  - intros ? ?. rewrite AddUint64Overflow_ok by lia. rewrite (proj2 (Z.ltb_lt _ _)) by lia.
    eexists. split; [done|]. lia.
Qed.

(** A charge that does not fit panics. *)
Lemma ConsumeGas_panic g amount desc :
  gas_wf g → 0 ≤ amount < 2^64 → gas_room g < amount →
  ∃ w g', ConsumeGas amount desc g = (Panic w, g').
Proof.
  destruct g as [limit consumed base shift|consumed]; unfold ConsumeGas, gas_wf, gas_room, uint64_max.
  - intros (?&?&?&->) ??. cbn [scaled_amount]. rewrite AddUint64Overflow_ok by lia.
    destruct (Z.ltb_spec (consumed + amount) (2^64)); [|eauto].
    rewrite (proj2 (Z.ltb_lt limit _)) by lia. eauto.
  - intros ???. rewrite AddUint64Overflow_ok by lia. rewrite (proj2 (Z.ltb_ge _ _)) by lia. eauto.
Qed.

Definition sum_Z (l : list Z) : Z := foldr Z.add 0 l.

Lemma sum_Z_nonneg l : Forall (λ a, 0 ≤ a < 2^64) l → 0 ≤ sum_Z l.
Proof. induction 1; simpl; lia. Qed.

(** A sequence of charges goes through exactly when their sum fits. *)
Theorem ConsumeGas_sequence (g : GasMeter) (charges : list Z) (desc : string)
    (Hg : gas_wf g) (Hc : Forall (λ a, 0 ≤ a < 2^64) charges) (Hroom : 0 ≤ gas_room g) :
  is_ok (for_each charges (λ a, ConsumeGas a desc) g).1 = (sum_Z charges <=? gas_room g) ∧
  (sum_Z charges ≤ gas_room g →
   gas_room (for_each charges (λ a, ConsumeGas a desc) g).2 = gas_room g - sum_Z charges).
Proof.
  revert g Hg Hroom. induction Hc as [|a charges Ha Hc IH]; intros g Hg Hroom.
  - simpl. rewrite (proj2 (Z.leb_le _ _)) by done. split; [done|]. simpl. lia.
  - pose proof (sum_Z_nonneg _ Hc). simpl sum_Z. cbn [for_each]. unfold bind.
    destruct (decide (a ≤ gas_room g)) as [Hle|Hgt].
    + destruct (ConsumeGas_ok g a desc Hg) as (g'&->&Hg'&Hr); [lia|].
      destruct (IH g' Hg') as [IH1 IH2]; [lia|]. rewrite IH1, Hr. split.
      * destruct (Z.leb_spec (sum_Z charges) (gas_room g - a)),
          (Z.leb_spec (a + sum_Z charges) (gas_room g)); lia || done.
      * intros ?. rewrite IH2 by lia. lia.
    + destruct (ConsumeGas_panic g a desc Hg Ha) as (w&g'&->); [lia|]. simpl.
      split; [symmetry; apply Z.leb_gt; lia|]. lia.
Qed.

Lemma ConsumeGas_sequence_witness :
  is_ok (for_each [10; 20; 70] (λ a, ConsumeGas a "x") (NewGasMeter 100)).1 = true ∧
  is_ok (for_each [10; 20; 71] (λ a, ConsumeGas a "x") (NewGasMeter 100)).1 = false.
Proof.
  split.
  - apply (proj1 (ConsumeGas_sequence (NewGasMeter 100) [10; 20; 70] "x"
      ltac:(simpl; split_and!; done || lia) ltac:(repeat constructor; lia) ltac:(simpl; lia))).
  - apply (proj1 (ConsumeGas_sequence (NewGasMeter 100) [10; 20; 71] "x"
      ltac:(simpl; split_and!; done || lia) ltac:(repeat constructor; lia) ltac:(simpl; lia))).
Defined.
