(* ===== verification/KVStore.v ===== *)
(** * Key-value stores

    A store maps byte strings to values; an iterator over a prefix visits the
    keys with that prefix in ascending byte order, as the IAVL-backed stores of
    the application do.  The iterators the keepers use read the store while it
    is not modified, or collect their keys before it is, so an iteration is the
    list of the entries it visits. *)

From Stdlib Require Import Ascii.
From S2P Require Import Prelude GoStrings.

Definition key_le {V} (a b : string * V) : Prop := ¬ str_lt b.1 a.1.
#[export] Instance key_le_dec {V} (a b : string * V) : Decision (key_le a b).
Proof. unfold key_le. apply _. Defined.
#[export] Instance key_le_total {V} : Total (@key_le V).
Proof.
  intros a b. unfold key_le. destruct (str_lt_total a.1 b.1) as [H|[H|H]].
  - left. intros H'. apply (str_lt_irrefl a.1). by etrans.
  - left. rewrite H. apply str_lt_irrefl.
  - right. intros H'. apply (str_lt_irrefl a.1). by etrans.
Qed.
#[export] Instance key_le_trans {V} : Transitive (@key_le V).
Proof.
  intros a b c. unfold key_le. intros Hab Hbc Hca.
  destruct (str_lt_total b.1 c.1) as [H|[H|H]]; [|by rewrite <-H in Hca|done].
  apply Hab. by etrans.
Qed.

(** All the entries in key order. *)
Definition entries {V} (store : gmap string V) : list (string * V) :=
  merge_sort key_le (map_to_list store).

(** The entries whose key starts with [prefix], in key order. *)
Definition prefix_iterator {V} (store : gmap string V) (prefix : string) : list (string * V) :=
  filter (λ kv, HasPrefix kv.1 prefix = true) (entries store).

Lemma entries_perm {V} (store : gmap string V) : entries store ≡ₚ map_to_list store.
Proof. apply merge_sort_Permutation. Qed.

Lemma entries_elem {V} (store : gmap string V) k v : (k, v) ∈ entries store ↔ store !! k = Some v.
Proof. by rewrite entries_perm, elem_of_map_to_list. Qed.

Lemma entries_NoDup {V} (store : gmap string V) : NoDup (entries store).*1.
Proof. rewrite entries_perm. apply NoDup_fst_map_to_list. Qed.

Lemma entries_sorted {V} (store : gmap string V) : StronglySorted key_le (entries store).
Proof. apply StronglySorted_merge_sort; apply _. Qed.

Lemma prefix_iterator_elem {V} (store : gmap string V) p k v :
  (k, v) ∈ prefix_iterator store p ↔ store !! k = Some v ∧ HasPrefix k p = true.
Proof. unfold prefix_iterator. rewrite list_elem_of_filter, entries_elem. naive_solver. Qed.

Lemma prefix_iterator_NoDup {V} (store : gmap string V) p : NoDup (prefix_iterator store p).*1.
Proof.
  eapply sublist_NoDup; [apply (entries_NoDup store)|]. apply fmap_sublist, sublist_filter.
Qed.

(** * The interface of key-value stores (types/store.go)

    A store is known through its operations and through the mapping from keys to
    values it stands for.  An iterator is the list of the pairs it has yet to
    visit: the interface forbids writes to a domain while an iterator over it
    exists.  A missing value is nil; keys are never nil. *)
(** ** Byte order, in both directions *)
Definition cmp_dir (asc : bool) (a b : string) : comparison :=
  if asc then String.compare a b else CompOpp (String.compare a b).
Definition key_lt (asc : bool) (a b : string) : Prop := if asc then str_lt a b else str_lt b a.

Inductive cmp_dir_spec (asc : bool) (a b : string) : comparison → Prop :=
| DirEq : a = b → cmp_dir_spec asc a b Eq
| DirLt : key_lt asc a b → cmp_dir_spec asc a b Lt
| DirGt : key_lt asc b a → cmp_dir_spec asc a b Gt.

Lemma cmp_dirP asc a b : cmp_dir_spec asc a b (cmp_dir asc a b).
Proof. unfold cmp_dir. destruct asc, (str_compareP a b); by constructor. Qed.

#[export] Instance key_lt_strict asc : StrictOrder (key_lt asc).
Proof.
  destruct asc; [apply str_lt_strict|]. split.
  - intros a. apply str_lt_irrefl.
  - intros a b c Hab Hbc. exact (str_lt_trans _ _ _ Hbc Hab).
Qed.

#[export] Instance key_lt_dec asc a b : Decision (key_lt asc a b).
Proof. unfold key_lt. destruct asc; apply _. Defined.

Lemma key_lt_total asc a b : key_lt asc a b ∨ a = b ∨ key_lt asc b a.
Proof. destruct (cmp_dirP asc a b); auto. Qed.

Lemma cmp_dir_Eq asc a b : cmp_dir asc a b = Eq ↔ a = b.
Proof.
  split; [|intros ->; unfold cmp_dir; rewrite str_compare_refl; by destruct asc].
  destruct (cmp_dirP asc a b); done.
Qed.
Lemma cmp_dir_Lt asc a b : cmp_dir asc a b = Lt ↔ key_lt asc a b.
Proof.
  destruct (cmp_dirP asc a b) as [->|L|G]; (split; [done|]); try done; intros H; exfalso.
  - by apply (irreflexivity (key_lt asc)) in H.
  - apply (irreflexivity (key_lt asc) a). by etrans.
Qed.
Lemma cmp_dir_Gt asc a b : cmp_dir asc a b = Gt ↔ key_lt asc b a.
Proof.
  destruct (cmp_dirP asc a b) as [->|L|G]; (split; [done|]); try done; intros H; exfalso.
  - by apply (irreflexivity (key_lt asc)) in H.
  - apply (irreflexivity (key_lt asc) a). by etrans.
Qed.

(** ** Domains of iteration *)
Definition str_le (a b : string) : Prop := ¬ str_lt b a.
#[export] Instance str_le_dec a b : Decision (str_le a b).
Proof. unfold str_le. apply _. Defined.
(** [start] is included, [end] is not; nil is no bound. *)
Definition in_domain (k : string) (start stop : option string) : Prop :=
  (∀ a, start = Some a → str_le a k) ∧ (∀ b, stop = Some b → str_lt k b).

(** ** Operations *)
Abbreviation Iterator := (list (string * option string)).

Class KVOps (S : Type) := {
  kv_Get : string → M S (option string);
  kv_Has : string → M S bool;
  kv_Set : string → string → M S unit;
  kv_Delete : string → M S unit;
  kv_iterator : bool → option string → option string → M S Iterator }.

Definition kv_Iterator {S} `{KVOps S} := kv_iterator (S := S) true.
Definition kv_ReverseIterator {S} `{KVOps S} := kv_iterator (S := S) false.

(** What a domain of a mapping looks like to an iterator. *)
Record iterates (asc : bool) (start stop : option string) (view : string → option string)
    (it : Iterator) : Prop := {
  it_sorted : StronglySorted (key_lt asc) it.*1;
  it_elem k ov : (k, ov) ∈ it ↔ ov = view k ∧ ov ≠ None ∧ in_domain k start stop }.

(** ** Laws

    The mapping a store stands for, and the effect of the operations on it; every
    operation returns. *)
Class KVLaws (S : Type) `{KVOps S} := {
  kv_wf : S → Prop;
  kv_view : S → string → option string;
  law_Get k s : kv_wf s →
    ∃ s', kv_Get k s = (Ok (kv_view s k), s') ∧ kv_wf s' ∧ ∀ x, kv_view s' x = kv_view s x;
  law_Has k s : kv_wf s →
    ∃ s', kv_Has k s = (Ok (bool_decide (kv_view s k ≠ None)), s') ∧ kv_wf s' ∧
          ∀ x, kv_view s' x = kv_view s x;
  law_Set k v s : kv_wf s →
    ∃ s', kv_Set k v s = (Ok tt, s') ∧ kv_wf s' ∧
          ∀ x, kv_view s' x = if decide (x = k) then Some v else kv_view s x;
  law_Delete k s : kv_wf s →
    ∃ s', kv_Delete k s = (Ok tt, s') ∧ kv_wf s' ∧
          ∀ x, kv_view s' x = if decide (x = k) then None else kv_view s x;
  law_iterator asc start stop s : kv_wf s →
    ∃ it s', kv_iterator asc start stop s = (Ok it, s') ∧ kv_wf s' ∧
             (∀ x, kv_view s' x = kv_view s x) ∧ iterates asc start stop (kv_view s) it }.

(** ** Two iterations of the same domain are equal *)
Lemma iterates_NoDup asc it : StronglySorted (key_lt asc) it.*1 → NoDup (it : Iterator).*1.
Proof.
  intros Hs. induction Hs as [|k l Hl IH Hall]; constructor; [|done].
  intros Hin. rewrite Forall_forall in Hall. by apply (irreflexivity (key_lt asc) k), Hall.
Qed.

Lemma sorted_keys_ext asc (a b : Iterator) :
  StronglySorted (key_lt asc) a.*1 → StronglySorted (key_lt asc) b.*1 →
  (∀ x, x ∈ a ↔ x ∈ b) → a = b.
Proof.
  intros Ha Hb Heq.
  assert (Hp : a ≡ₚ b).
  { apply NoDup_Permutation; [..|done]; eapply NoDup_fmap_1, iterates_NoDup; done. }
  clear Heq. revert b Hb Hp. induction a as [|x a IH]; intros b Hb Hp.
  { by apply Permutation_nil_l in Hp. }
  destruct b as [|y b]; [by apply Permutation_nil_r in Hp|].
  csimpl in *. apply StronglySorted_inv in Ha as [Ha HFa], Hb as [Hb HFb].
  assert (Exy : x = y).
  { assert (Hx : x ∈ y :: b) by (rewrite <-Hp; left). assert (Hy : y ∈ x :: a) by (rewrite Hp; left).
    apply elem_of_cons in Hx as [|Hx]; [done|]. apply elem_of_cons in Hy as [|Hy]; [done|].
    rewrite Forall_fmap, Forall_forall in HFa, HFb. apply HFa in Hy. apply HFb in Hx. simpl in *.
    exfalso. apply (irreflexivity (key_lt asc) x.1). by etrans. }
  subst y. f_equal. apply IH; [done|done|]. by apply Permutation_cons_inv in Hp.
Qed.

Lemma iterates_unique asc start stop view a b :
  iterates asc start stop view a → iterates asc start stop view b → a = b.
Proof.
  intros [Ha Ea] [Hb Eb]. apply (sorted_keys_ext asc); [done|done|].
  intros [k ov]. by rewrite Ea, Eb.
Qed.
