(* ===== verification/CacheKV.v ===== *)
(** * The write-back cache of a store
    (store/cachekvstore.go, cachemergeiterator.go, memiterator.go)

    The cache remembers the values read and the pending writes and deletions of
    its parent, merges both in its iterators, and pushes the pending changes to
    the parent on [Write].  Locks are not represented: the operations are atomic. *)

From S2P Require Import Prelude GoStrings KVStore.

(** ** tm-db

    [IsKeyInDomain] belongs to the database library; its documentation says that
    the start is inclusive, the end exclusive, and nil no bound. *)
Class TmDb := {
  IsKeyInDomain : string → option string → option string → bool;
  IsKeyInDomain_spec k start stop : IsKeyInDomain k start stop = true ↔ in_domain k start stop }.

(** ** memIterator *)
Section memIterator.
Context `{TmDb}.
Definition newMemIterator (start stop : option string) (items : Iterator) : Iterator :=
  filter (λ item, IsKeyInDomain item.1 start stop = true) items.
End memIterator.

Definition mem_Valid (it : Iterator) : bool := match it with [] => false | _ => true end.
Definition mem_Next (it : Iterator) : Outcome Iterator :=
  match it with [] => Panic "memIterator is invalid" | _ :: it => Ok it end.
Definition mem_Key (it : Iterator) : Outcome string :=
  match it with [] => Panic "memIterator is invalid" | (k, _) :: _ => Ok k end.
Definition mem_Value (it : Iterator) : Outcome (option string) :=
  match it with [] => Panic "memIterator is invalid" | (_, v) :: _ => Ok v end.

(** ** cacheMergeIterator *)
Record MergeIterator := mkMerge { m_parent : Iterator; m_cache : Iterator; m_asc : bool }.
Definition newCacheMergeIterator (parent cache : Iterator) (ascending : bool) : MergeIterator :=
  mkMerge parent cache ascending.
Abbreviation MI := (M MergeIterator).

Definition set_parent (p : Iterator) : MI unit := modify (λ it, mkMerge p (m_cache it) (m_asc it)).
Definition set_cache (c : Iterator) : MI unit := modify (λ it, mkMerge (m_parent it) c (m_asc it)).
Definition parent_Next : MI unit := it <- get ;; p <- lift (mem_Next (m_parent it)) ;; set_parent p.
Definition cache_Next : MI unit := it <- get ;; c <- lift (mem_Next (m_cache it)) ;; set_cache c.
Definition merge_compare (it : MergeIterator) (a b : string) : comparison := cmp_dir (m_asc it) a b.

(** The loop over the cache's items: deletions before [until] are dropped. *)
Fixpoint skip_deletes (asc : bool) (until : option string) (cache : Iterator) : Iterator :=
  match cache with
  | (k, None) :: rest =>
      if match until with
         | None => true
         | Some u => match cmp_dir asc k u with Lt => true | _ => false end
         end
      then skip_deletes asc until rest else cache
  | _ => cache
  end.
Definition skipCacheDeletes (until : option string) : MI unit :=
  it <- get ;; set_cache (skip_deletes (m_asc it) until (m_cache it)).

(** The outer loop; every turn that continues removes an item. *)
Fixpoint skip_loop (fuel : nat) : MI bool :=
  match fuel with
  | O => panic "out of fuel"
  | S fuel =>
      it <- get ;;
      if negb (mem_Valid (m_parent it)) then
        skipCacheDeletes None ;;;
        gets (λ it, mem_Valid (m_cache it))
      else if negb (mem_Valid (m_cache it)) then ret true
      else
        keyP <- lift (mem_Key (m_parent it)) ;;
        keyC <- lift (mem_Key (m_cache it)) ;;
        valueC <- lift (mem_Value (m_cache it)) ;;
        match merge_compare it keyP keyC with
        | Lt => ret true
        | Eq => match valueC with
                | None => parent_Next ;;; cache_Next ;;; skip_loop fuel
                | Some _ => ret true
                end
        | Gt => match valueC with
                | None => skipCacheDeletes (Some keyP) ;;; skip_loop fuel
                | Some _ => ret true
                end
        end
  end.
Definition skipUntilExistsOrInvalid : MI bool :=
  it <- get ;; skip_loop (S (length (m_parent it) + length (m_cache it))).

Definition merge_Valid : MI bool := skipUntilExistsOrInvalid.
Definition merge_assertValid : MI unit :=
  v <- merge_Valid ;; if v : bool then ret tt else panic "iterator is invalid".

Definition merge_Next : MI unit :=
  skipUntilExistsOrInvalid ;;;
  merge_assertValid ;;;
  it <- get ;;
  if negb (mem_Valid (m_parent it)) then cache_Next
  else if negb (mem_Valid (m_cache it)) then parent_Next
  else
    keyP <- lift (mem_Key (m_parent it)) ;;
    keyC <- lift (mem_Key (m_cache it)) ;;
    match merge_compare it keyP keyC with
    | Lt => parent_Next
    | Eq => parent_Next ;;; cache_Next
    | Gt => cache_Next
    end.

Definition merge_Key : MI string :=
  skipUntilExistsOrInvalid ;;;
  merge_assertValid ;;;
  it <- get ;;
  if negb (mem_Valid (m_parent it)) then lift (mem_Key (m_cache it))
  else if negb (mem_Valid (m_cache it)) then lift (mem_Key (m_parent it))
  else
    keyP <- lift (mem_Key (m_parent it)) ;;
    keyC <- lift (mem_Key (m_cache it)) ;;
    match merge_compare it keyP keyC with
    | Lt | Eq => ret keyP
    | Gt => ret keyC
    end.

Definition merge_Value : MI (option string) :=
  skipUntilExistsOrInvalid ;;;
  merge_assertValid ;;;
  it <- get ;;
  if negb (mem_Valid (m_parent it)) then lift (mem_Value (m_cache it))
  else if negb (mem_Valid (m_cache it)) then lift (mem_Value (m_parent it))
  else
    keyP <- lift (mem_Key (m_parent it)) ;;
    keyC <- lift (mem_Key (m_cache it)) ;;
    match merge_compare it keyP keyC with
    | Lt => lift (mem_Value (m_parent it))
    | Eq | Gt => lift (mem_Value (m_cache it))
    end.

(** The loop of a client: [for ; it.Valid(); it.Next()]. *)
Fixpoint drain_loop (fuel : nat) : MI Iterator :=
  match fuel with
  | O => panic "out of fuel"
  | S fuel =>
      v <- merge_Valid ;;
      if v : bool then
        k <- merge_Key ;; x <- merge_Value ;; merge_Next ;;;
        rest <- drain_loop fuel ;; ret ((k, x) :: rest)
      else ret []
  end.
Definition drain : MI Iterator :=
  it <- get ;; drain_loop (S (length (m_parent it) + length (m_cache it))).

(** ** cacheKVStore *)
Record cValue := mkCValue { cv_value : option string; cv_deleted : bool; cv_dirty : bool }.
Record CacheKV (P : Type) := mkCache { c_cache : gmap string cValue; c_parent : P }.
Arguments mkCache {P}.
Arguments c_cache {P}.
Arguments c_parent {P}.

Section cacheKVStore.
Context {P : Type} `{KVOps P} `{TmDb}.
Abbreviation MC := (M (CacheKV P)).

Definition NewCacheKVStore (parent : P) : CacheKV P := mkCache ∅ parent.
Definition on_parent {A} (c : M P A) : MC A := zoom c_parent (λ p s, mkCache (c_cache s) p) c.

Definition setCacheValue (key : string) (value : option string) (deleted dirty : bool) : MC unit :=
  modify (λ s, mkCache (<[key := mkCValue value deleted dirty]> (c_cache s)) (c_parent s)).

Definition cache_Get (key : string) : MC (option string) :=
  s <- get ;;
  match c_cache s !! key with
  | None =>
      value <- on_parent (kv_Get key) ;;
      setCacheValue key value false false ;;;
      ret value
  | Some cacheValue => ret (cv_value cacheValue)
  end.

Definition cache_Set (key value : string) : MC unit := setCacheValue key (Some value) false true.
Definition cache_Has (key : string) : MC bool :=
  value <- cache_Get key ;; ret (bool_decide (value ≠ None)).
Definition cache_Delete (key : string) : MC unit := setCacheValue key None true true.

(** One pending change. *)
Definition write_key (cache : gmap string cValue) (key : string) : M P unit :=
  match cache !! key with
  | None => ret tt
  | Some cacheValue =>
      if cv_deleted cacheValue then kv_Delete key
      else match cv_value cacheValue with
           | None => ret tt
           | Some v => kv_Set key v
           end
  end.

Definition dirty_keys (cache : gmap string cValue) : list string :=
  merge_sort str_le (filter (λ kv, cv_dirty kv.2 = true) (map_to_list cache)).*1.

Definition cache_Write : MC unit :=
  s <- get ;;
  on_parent (for_each (dirty_keys (c_cache s)) (write_key (c_cache s))) ;;;
  modify (λ s, mkCache ∅ (c_parent s)).

Definition item_le (asc : bool) (a b : string * option string) : Prop := ¬ key_lt asc b.1 a.1.
#[global] Instance item_le_dec asc a b : Decision (item_le asc a b).
Proof. unfold item_le. apply _. Defined.

Definition dirtyItems (start stop : option string) (ascending : bool) (cache : gmap string cValue)
    : Iterator :=
  merge_sort (item_le ascending)
    (map (λ kv, (kv.1, cv_value kv.2))
       (filter (λ kv, cv_dirty kv.2 = true ∧ IsKeyInDomain kv.1 start stop = true)
               (map_to_list cache))).

(** The pairs the merged iterator visits. *)
Definition cache_iterator (ascending : bool) (start stop : option string) : MC Iterator :=
  parent <- on_parent (kv_iterator ascending start stop) ;;
  s <- get ;;
  let items := dirtyItems start stop ascending (c_cache s) in
  let cache := newMemIterator start stop items in
  lift (drain (newCacheMergeIterator parent cache ascending)).1.

#[export] Instance cache_ops : KVOps (CacheKV P) := {|
  kv_Get := cache_Get;
  kv_Has := cache_Has;
  kv_Set := cache_Set;
  kv_Delete := cache_Delete;
  kv_iterator := cache_iterator |}.
End cacheKVStore.
