(* ===== verification/CacheKVThms.v ===== *)
(** * The merged iterator visits the merged mapping *)

From S2P Require Import Prelude GoStrings KVStore CacheKV.

(** ** Reference definition of the merge *)
Fixpoint merge_ref (asc : bool) (P : Iterator) : Iterator → Iterator :=
  fix inner (C : Iterator) : Iterator :=
    match P, C with
    | [], _ => filter (λ x, x.2 ≠ None) C
    | _, [] => P
    | p :: P', c :: C' =>
        match cmp_dir asc p.1 c.1 with
        | Lt => p :: merge_ref asc P' C
        | Eq => match c.2 with None => merge_ref asc P' C' | Some _ => c :: merge_ref asc P' C' end
        | Gt => match c.2 with None => inner C' | Some _ => c :: inner C' end
        end
    end.

Section merge.
Variable (asc : bool).
Abbreviation merged := (merge_ref asc).

(** The current item exists: the cache does not stand on a deletion that hides or
    precedes the parent's item. *)
Definition settled (P C : Iterator) : Prop :=
  match P, C with
  | [], c :: _ => c.2 ≠ None
  | p :: _, c :: _ => match cmp_dir asc p.1 c.1 with Lt => True | _ => c.2 ≠ None end
  | _, [] => True
  end.
Definition more (P C : Iterator) : bool := mem_Valid P || mem_Valid C.

Lemma merged_nil C : merged [] C = filter (λ x, x.2 ≠ None) C.
Proof. by destruct C. Qed.

Lemma skip_deletes_none C :
  merged [] (skip_deletes asc None C) = merged [] C ∧ settled [] (skip_deletes asc None C) ∧
  (length (skip_deletes asc None C) ≤ length C)%nat.
Proof.
  rewrite !merged_nil. induction C as [|[k [v|]] C IH]; [done|done|].
  cbn [skip_deletes]. destruct IH as (?&?&?). rewrite filter_cons, decide_False by naive_solver.
  split_and!; [done|done|simpl; lia].
Qed.

Lemma skip_deletes_until p P C :
  merged (p :: P) (skip_deletes asc (Some p.1) C) = merged (p :: P) C ∧
  (length (skip_deletes asc (Some p.1) C) ≤ length C)%nat ∧
  (∀ k C', C = (k, None) :: C' → key_lt asc k p.1 → (length (skip_deletes asc (Some p.1) C) < length C)%nat).
Proof.
  induction C as [|[k [v|]] C IH]; [done|by split_and!|].
  cbn [skip_deletes]. destruct IH as (IH1&IH2&_).
  assert (Hflip : cmp_dir asc p.1 k = CompOpp (cmp_dir asc k p.1)).
  { unfold cmp_dir. rewrite (String.compare_antisym p.1 k). by destruct asc, (String.compare k p.1). }
  destruct (cmp_dir asc k p.1) eqn:Ec.
  - split_and!; [done|done|]. intros k' C' [= <- <-] L%cmp_dir_Lt. congruence.
  - split_and!; [|simpl; lia|intros; simpl; lia].
    rewrite IH1. cbn [merge_ref fst snd]. by rewrite Hflip.
  - split_and!; [done|done|]. intros k' C' [= <- <-] L%cmp_dir_Lt. congruence.
Qed.

Lemma skip_loop_both fuel kP vP P kC vC C :
  let it := mkMerge ((kP, vP) :: P) ((kC, vC) :: C) asc in
  skip_loop (S fuel) it =
  match cmp_dir asc kP kC, vC with
  | Eq, None => skip_loop fuel (mkMerge P C asc)
  | Gt, None => skip_loop fuel (mkMerge ((kP, vP) :: P) (skip_deletes asc (Some kP) ((kC, vC) :: C)) asc)
  | _, _ => (Ok true, it)
  end.
Proof.
  cbn [skip_loop]. unfold bind, get, lift, merge_compare. cbn -[cmp_dir skip_deletes skip_loop].
  by destruct (cmp_dir asc kP kC), vC.
Qed.

Lemma skip_loop_spec fuel P C :
  (length P + length C < fuel)%nat →
  ∃ P' C', skip_loop fuel (mkMerge P C asc) = (Ok (more P' C'), mkMerge P' C' asc) ∧
    merged P' C' = merged P C ∧ settled P' C' ∧ (length P' + length C' ≤ length P + length C)%nat.
Proof.
  revert P C. induction fuel as [|fuel IH]; intros P C Hf; [lia|].
  destruct P as [|[kP vP] P].
  - destruct (skip_deletes_none C) as (?&?&?). exists [], (skip_deletes asc None C). by split_and!.
  - destruct C as [|[kC vC] C]; [by exists ((kP, vP) :: P), []|].
    destruct (cmp_dir asc kP kC) eqn:Ec.
    + destruct vC as [v|].
      * exists ((kP, vP) :: P), ((kC, Some v) :: C). split_and!; [by rewrite skip_loop_both, Ec|done|simpl; by rewrite Ec|done].
      * destruct (IH P C) as (P'&C'&Hrun&Hm&Hs&Hl); [simpl in *; lia|]. exists P', C'.
        split_and!; [|rewrite Hm; cbn [merge_ref fst snd]; by rewrite Ec|done|simpl; lia].
        by rewrite skip_loop_both, Ec.
    + exists ((kP, vP) :: P), ((kC, vC) :: C). split_and!; [by rewrite skip_loop_both, Ec|done|simpl; by rewrite Ec|done].
    + destruct vC as [v|].
      * exists ((kP, vP) :: P), ((kC, Some v) :: C). split_and!; [by rewrite skip_loop_both, Ec|done|simpl; by rewrite Ec|done].
      * destruct (skip_deletes_until (kP, vP) P ((kC, None) :: C)) as (Hsk&_&Hlt).
        specialize (Hlt _ _ eq_refl (proj1 (cmp_dir_Gt _ _ _) Ec)). cbn [fst] in *.
        destruct (IH ((kP, vP) :: P) (skip_deletes asc (Some kP) ((kC, None) :: C))) as (P'&C'&Hrun&Hm&Hs&Hl);
          [simpl in *; lia|].
        exists P', C'. split_and!; [|by rewrite Hm, Hsk|done|simpl in *; lia].
        by rewrite skip_loop_both, Ec.
Qed.

(** From a settled state the loop stays where it is. *)
Lemma skip_settled fuel P C :
  settled P C → skip_loop (S fuel) (mkMerge P C asc) = (Ok (more P C), mkMerge P C asc).
Proof.
  destruct P as [|[kP vP] P], C as [|[kC vC] C]; intros Hs; try done.
  - destruct vC; [done|]. by destruct Hs.
  - rewrite skip_loop_both. simpl in Hs. destruct (cmp_dir asc kP kC), vC; done.
Qed.

Lemma assert_settled P C :
  settled P C → more P C = true → merge_assertValid (mkMerge P C asc) = (Ok tt, mkMerge P C asc).
Proof.
  intros Hs Hm. unfold merge_assertValid, merge_Valid, skipUntilExistsOrInvalid, bind, get.
  cbv beta iota. rewrite skip_settled by done. by rewrite Hm.
Qed.

Lemma settled_run {A} P C (k : MI A) :
  settled P C → more P C = true →
  (skipUntilExistsOrInvalid ;;; merge_assertValid ;;; k) (mkMerge P C asc) = k (mkMerge P C asc).
Proof.
  intros Hs Hm. rewrite (bind_run _ _ _ true (mkMerge P C asc)).
  - by rewrite (bind_run _ _ _ _ _ (assert_settled P C Hs Hm)).
  - unfold skipUntilExistsOrInvalid, bind, get. cbv beta iota. rewrite skip_settled by done. by rewrite Hm.
Qed.

(** Key, value and successor of a settled state. *)
Lemma settled_step P C :
  settled P C → more P C = true →
  let it := mkMerge P C asc in
  ∃ k v P' C', merge_Key it = (Ok k, it) ∧ merge_Value it = (Ok v, it) ∧
    merge_Next it = (Ok tt, mkMerge P' C' asc) ∧ merged P C = (k, v) :: merged P' C' ∧
    (length P' + length C' < length P + length C)%nat.
Proof.
  intros Hs Hm it.
  pose proof (settled_run P C _ Hs Hm : merge_Key it = _) as EK.
  pose proof (settled_run P C _ Hs Hm : merge_Value it = _) as EV.
  pose proof (settled_run P C _ Hs Hm : merge_Next it = _) as EN.
  rewrite EK, EV, EN. clear EK EV EN.
  unfold it in *. clear it. destruct P as [|[kP vP] P], C as [|[kC vC] C]; [done|..].
  - exists kC, vC, [], C. split_and!; try done; [|simpl; lia].
    rewrite !merged_nil, filter_cons, decide_True by done. done.
  - exists kP, vP, P, []. split_and!; try done; [|simpl; lia]. by destruct P.
  - unfold bind, get, lift, merge_compare, parent_Next, cache_Next, set_parent, set_cache, bind, get, lift, modify.
    cbn -[cmp_dir merge_ref]. cbn [merge_ref fst snd]. simpl in Hs.
    destruct (cmp_dir asc kP kC) eqn:Ec; cbn -[merge_ref].
    + apply cmp_dir_Eq in Ec as ->. destruct vC as [v|]; [|done].
      eexists _, _, P, C. split_and!; try done. lia.
    + eexists _, _, P, ((kC, vC) :: C). split_and!; try done. simpl. lia.
    + destruct vC as [v|]; [|done]. eexists _, _, ((kP, vP) :: P), C. split_and!; try done. simpl. lia.
Qed.

(** Draining the merged iterator gives the reference merge. *)
Lemma drain_loop_merge fuel P C :
  (length P + length C < fuel)%nat →
  ∃ it', drain_loop fuel (mkMerge P C asc) = (Ok (merged P C), it').
Proof.
  revert P C. induction fuel as [|fuel IH]; intros P C Hf; [lia|]. cbn [drain_loop].
  destruct (skip_loop_spec (S (length P + length C)) P C) as (P1&C1&Hrun&Hm&Hs&Hl); [lia|].
  rewrite (bind_run merge_Valid _ _ (more P1 C1) (mkMerge P1 C1 asc)) by exact Hrun.
  destruct (more P1 C1) eqn:Hmore.
  - destruct (settled_step P1 C1 Hs Hmore) as (k&v&P2&C2&Hk&Hv&Hn&Hc&Hlen).
    rewrite (bind_run _ _ _ _ _ Hk), (bind_run _ _ _ _ _ Hv), (bind_run _ _ _ _ _ Hn).
    destruct (IH P2 C2) as [it' Hd]; [lia|]. rewrite (bind_run _ _ _ _ _ Hd).
    exists it'. unfold ret. by rewrite <-Hm, Hc.
  - destruct P1, C1; try done. exists (mkMerge [] [] asc). by rewrite <-Hm.
Qed.

Lemma drain_merge P C : (drain (mkMerge P C asc)).1 = Ok (merged P C).
Proof.
  destruct (drain_loop_merge (S (length P + length C)) P C) as [it' Hd]; [lia|].
  unfold drain, bind, get. cbv beta iota. cbn [m_parent m_cache]. by rewrite Hd.
Qed.

(** ** What the merge contains *)
Lemma merged_from P C x : x ∈ merged P C → x ∈ P ∨ x ∈ C.
Proof.
  revert C. induction P as [|p P IHP]; intros C.
  { rewrite merged_nil, list_elem_of_filter. tauto. }
  induction C as [|c C IHC]; [tauto|]. cbn [merge_ref].
  destruct (cmp_dir asc p.1 c.1).
  - destruct c.2; [rewrite elem_of_cons; intros [->|Hx]|intros Hx];
      [right; left| |]; apply IHP in Hx as [?|?]; (left; by right) || (right; by right).
  - rewrite elem_of_cons. intros [->|Hx]; [left; left|]. apply IHP in Hx as [?|?]; [left; by right|by right].
  - destruct c.2; [rewrite elem_of_cons; intros [->|Hx]; [right; left|]|intros Hx];
      apply IHC in Hx as [?|?]; (by left) || (right; by right).
Qed.

Abbreviation ksorted := (λ l : Iterator, StronglySorted (key_lt asc) l.*1).

Lemma merged_above x P C :
  Forall (key_lt asc x) P.*1 → Forall (key_lt asc x) C.*1 → Forall (key_lt asc x) (merged P C).*1.
Proof.
  rewrite !Forall_fmap, !Forall_forall. intros HP HC y Hy. apply merged_from in Hy as [?|?]; auto.
Qed.

Lemma ksorted_cons (x : string * option string) l :
  ksorted (x :: l) ↔ ksorted l ∧ Forall (key_lt asc x.1) l.*1.
Proof. csimpl. split; [apply StronglySorted_inv|intros []; by constructor]. Qed.

Lemma above_trans x y (l : Iterator) : key_lt asc x y → Forall (key_lt asc y) l.*1 → Forall (key_lt asc x) l.*1.
Proof. intros Hxy Hl. eapply Forall_impl; [done|]. intros z Hz. by etrans. Qed.

Lemma merged_sorted P C : ksorted P → ksorted C → ksorted (merged P C).
Proof.
  revert C. induction P as [|p P IHP]; intros C HP HC.
  { rewrite merged_nil. induction C as [|c C IH]; [done|]. apply ksorted_cons in HC as [HC HF].
    rewrite filter_cons. case_decide; [|by apply IH]. apply ksorted_cons. split; [by apply IH|].
    rewrite Forall_fmap in *. rewrite Forall_forall in *. intros y [_ Hy]%list_elem_of_filter. by apply HF. }
  apply ksorted_cons in HP as [HP HFP]. induction C as [|c C IHC]; [by apply ksorted_cons|].
  apply ksorted_cons in HC as [HC HFC]. cbn [merge_ref].
  destruct (cmp_dir asc p.1 c.1) eqn:Ec.
  - apply cmp_dir_Eq in Ec. destruct c.2; [|by apply IHP]. apply ksorted_cons. split; [by apply IHP|].
    apply merged_above; [by rewrite <-Ec|done].
  - apply cmp_dir_Lt in Ec. apply ksorted_cons. split; [apply IHP; [done|by apply ksorted_cons]|].
    apply merged_above; [done|]. csimpl. constructor; [done|]. by eapply above_trans.
  - apply cmp_dir_Gt in Ec. destruct c.2; [|by apply IHC]. apply ksorted_cons. split; [by apply IHC|].
    apply (merged_above c.1 (p :: P) C); [|done]. csimpl. constructor; [done|]. by eapply above_trans.
Qed.

Lemma not_above k (l : Iterator) x : (k, x) ∈ l → Forall (key_lt asc k) l.*1 → False.
Proof.
  rewrite Forall_fmap, Forall_forall. intros Hin HF. by apply (irreflexivity (key_lt asc) k), (HF _ Hin).
Qed.

Lemma merged_elem P C k ov :
  ksorted P → ksorted C →
  (k, ov) ∈ merged P C ↔ ((k, ov) ∈ C ∧ ov ≠ None) ∨ ((k, ov) ∈ P ∧ k ∉ C.*1).
Proof.
  revert C. induction P as [|[kp vp] P IHP]; intros C HP HC.
  { rewrite merged_nil, list_elem_of_filter. simpl. rewrite elem_of_nil. tauto. }
  apply ksorted_cons in HP as HP'. destruct HP' as [HP' HFP]. cbn [fst] in HFP.
  induction C as [|[kc vc] C IHC].
  { cbn [merge_ref]. rewrite !elem_of_nil. tauto. }
  apply ksorted_cons in HC as HC'. destruct HC' as [HC' HFC]. cbn [fst] in HFC. cbn [merge_ref fst snd].
  pose proof (λ v, not_above kp P v) as Hnp. pose proof (λ v, not_above kc C v) as Hnc.
  assert (HkC : ∀ k, k ∈ C.*1 ↔ ∃ v, (k, v) ∈ C).
  { intros k'. rewrite list_elem_of_fmap. split; [intros ([? v]&->&?); by exists v|intros [v ?]; by exists (k', v)]. }
  destruct (cmp_dir asc kp kc) eqn:Ec.
  - apply cmp_dir_Eq in Ec as ->. csimpl. destruct vc as [v|]; rewrite ?elem_of_cons, IHP by done.
    all: rewrite ?elem_of_cons, HkC; naive_solver.
  - apply cmp_dir_Lt in Ec. csimpl. rewrite elem_of_cons, IHP by done. csimpl.
    assert (Hlow : ∀ v, (kp, v) ∉ C).
    { intros v Hin. apply (not_above kp C v Hin). by eapply above_trans. }
    assert (kp ≠ kc) by (intros ->; by apply (irreflexivity (key_lt asc)) in Ec).
    rewrite !elem_of_cons, !HkC. naive_solver.
  - apply cmp_dir_Gt in Ec. csimpl.
    assert (Hlow : ∀ v, (kc, v) ∉ P).
    { intros v Hin. apply (not_above kc P v Hin). by eapply above_trans. }
    assert (kp ≠ kc) by (intros ->; by apply (irreflexivity (key_lt asc)) in Ec).
    destruct vc as [v|]; rewrite ?elem_of_cons.
    + change ((k, ov) = (kc, Some v) ∨ (k, ov) ∈ merged ((kp, vp) :: P) C ↔
        ((k, ov) = (kc, Some v) ∨ (k, ov) ∈ C) ∧ ov ≠ None ∨
        ((k, ov) = (kp, vp) ∨ (k, ov) ∈ P) ∧ ¬ (k = kc ∨ k ∈ C.*1)).
      rewrite IHC by done. rewrite elem_of_cons, !HkC. naive_solver.
    + change ((k, ov) ∈ merged ((kp, vp) :: P) C ↔
        ((k, ov) = (kc, None) ∨ (k, ov) ∈ C) ∧ ov ≠ None ∨
        ((k, ov) = (kp, vp) ∨ (k, ov) ∈ P) ∧ ¬ (k = kc ∨ k ∈ C.*1)).
      rewrite IHC by done. rewrite elem_of_cons, !HkC. naive_solver.
Qed.
End merge.

(** * The cache is a transaction on its parent

    A cache over a lawful store is a lawful store whose mapping is the parent's
    overridden by the pending changes; until [Write] the parent is not changed,
    and [Write] makes the parent's mapping the cache's. *)
(** ** Sorted items *)
#[export] Instance item_le_total asc : Total (item_le asc).
Proof.
  intros a b. unfold item_le. destruct (key_lt_total asc a.1 b.1) as [H|[H|H]].
  - left. intros H'. apply (irreflexivity (key_lt asc) a.1). by etrans.
  - left. rewrite H. apply irreflexivity, key_lt_strict.
  - right. intros H'. apply (irreflexivity (key_lt asc) a.1). by etrans.
Qed.
#[export] Instance item_le_trans asc : Transitive (item_le asc).
Proof.
  intros a b c. unfold item_le. intros Hab Hbc Hca.
  destruct (key_lt_total asc b.1 c.1) as [H|[H|H]]; [|by rewrite <-H in Hca|done].
  apply Hab. by etrans.
Qed.

Lemma sort_strict asc (l : Iterator) :
  NoDup l.*1 → StronglySorted (key_lt asc) (merge_sort (item_le asc) l).*1.
Proof.
  intros Hnd. assert (Hp : merge_sort (item_le asc) l ≡ₚ l) by apply merge_sort_Permutation.
  assert (Hs : StronglySorted (item_le asc) (merge_sort (item_le asc) l)) by (apply StronglySorted_merge_sort; apply _).
  rewrite <-Hp in Hnd. clear Hp. revert Hnd Hs. generalize (merge_sort (item_le asc) l). clear l.
  intros l Hnd Hs. induction Hs as [|x s Hs IH Hall]; csimpl in *; [constructor|].
  apply NoDup_cons in Hnd as [Hni Hnd]. constructor; [by apply IH|].
  rewrite Forall_fmap, Forall_forall in *. intros y Hy. specialize (Hall y Hy). unfold item_le in Hall. simpl.
  destruct (key_lt_total asc x.1 y.1) as [?|[E|?]]; [done| |done].
  exfalso. apply Hni. rewrite E. by apply list_elem_of_fmap_2.
Qed.

Lemma filter_all {A} (Q : A → Prop) `{∀ x, Decision (Q x)} (l : list A) :
  (∀ x, x ∈ l → Q x) → filter Q l = l.
Proof.
  intros Hl. induction l as [|x l IH]; [done|]. rewrite filter_cons, decide_True by (apply Hl; left).
  f_equal. apply IH. intros y Hy. apply Hl. by right.
Qed.

Section laws.
Context {P : Type} `{KVLaws P} `{TmDb}.
Implicit Types (s : CacheKV P) (cache : gmap string cValue).

(** ** The invariant and the mapping of a cache *)
Definition cv_ok (p : P) (k : string) (cv : cValue) : Prop :=
  if cv_dirty cv then cv_deleted cv = true ↔ cv_value cv = None else cv_value cv = kv_view p k.
Definition cache_wf s : Prop :=
  kv_wf (c_parent s) ∧ ∀ k cv, c_cache s !! k = Some cv → cv_ok (c_parent s) k cv.
Definition cache_view s (k : string) : option string :=
  match c_cache s !! k with Some cv => cv_value cv | None => kv_view (c_parent s) k end.

Lemma NewCacheKVStore_wf p : kv_wf p → cache_wf (NewCacheKVStore p).
Proof. by split. Qed.

(** ** Dirty items *)
Lemma dirty_NoDup cache (Q : string * cValue → Prop) `{∀ x, Decision (Q x)} :
  NoDup (map (λ kv, (kv.1, cv_value kv.2)) (filter Q (map_to_list cache))).*1.
Proof.
  change (map ?f ?l) with (f <$> l). rewrite <-list_fmap_compose. simpl.
  eapply sublist_NoDup; [apply (NoDup_fst_map_to_list cache)|]. apply fmap_sublist, sublist_filter.
Qed.

Lemma dirtyItems_elem start stop asc cache k ov :
  (k, ov) ∈ dirtyItems start stop asc cache ↔
  ∃ cv, cache !! k = Some cv ∧ cv_dirty cv = true ∧ in_domain k start stop ∧ ov = cv_value cv.
Proof.
  unfold dirtyItems. rewrite merge_sort_Permutation.
  change (map ?f ?l) with (f <$> l). rewrite list_elem_of_fmap. split.
  - intros ([k' cv]&[= -> ->]&[Hd Hin]%list_elem_of_filter). apply elem_of_map_to_list in Hin.
    exists cv. simpl in Hd. rewrite IsKeyInDomain_spec in Hd. naive_solver.
  - intros (cv&Hk&Hd&Hdom&->). exists (k, cv). split; [done|]. apply list_elem_of_filter. simpl.
    rewrite IsKeyInDomain_spec. split; [done|]. by apply elem_of_map_to_list.
Qed.

(** The domain filter of the memory iterator keeps every dirty item. *)
Lemma newMemIterator_id start stop asc cache :
  newMemIterator start stop (dirtyItems start stop asc cache) = dirtyItems start stop asc cache.
Proof.
  unfold newMemIterator. apply filter_all. intros [k ov] (cv&_&_&Hd&_)%dirtyItems_elem.
  by apply IsKeyInDomain_spec.
Qed.

Lemma cache_iterates asc start stop s itp :
  cache_wf s → iterates asc start stop (kv_view (c_parent s)) itp →
  iterates asc start stop (cache_view s) (merge_ref asc itp (dirtyItems start stop asc (c_cache s))).
Proof.
  intros [_ Hc] [Hs He].
  assert (Hd : StronglySorted (key_lt asc) (dirtyItems start stop asc (c_cache s)).*1)
    by apply sort_strict, dirty_NoDup.
  split; [by apply merged_sorted|]. intros k ov. rewrite merged_elem by done. rewrite dirtyItems_elem, He.
  rewrite list_elem_of_fmap. unfold cache_view. split.
  - intros [[(cv&->&Hdirty&Hdom&->) Hn]|[(->&Hn&Hdom) Hni]]; [done|].
    destruct (c_cache s !! k) as [cv|] eqn:Hk; [|done]. apply Hc in Hk as Hok. unfold cv_ok in Hok.
    destruct (cv_dirty cv) eqn:Hdirty; [|by rewrite Hok].
    destruct Hni. exists (k, cv_value cv). split; [done|]. apply dirtyItems_elem. eauto.
  - intros (->&Hn&Hdom). destruct (c_cache s !! k) as [cv|] eqn:Hk.
    + apply Hc in Hk as Hok. unfold cv_ok in Hok. destruct (cv_dirty cv) eqn:Hdirty.
      * left. eauto 10.
      * right. rewrite Hok in *. split; [done|]. intros ([k' ov']&E&(cv'&Hk'&Hdirty'&_)%dirtyItems_elem).
        simpl in E. subst k'. congruence.
    + right. split; [done|]. intros ([k' ov']&E&(cv'&Hk'&_)%dirtyItems_elem). simpl in E. subst k'. congruence.
Qed.

(** ** A cache over a lawful store is a lawful store *)
Lemma set_view s k v del dirty x :
  cache_view (mkCache (<[k := mkCValue v del dirty]> (c_cache s)) (c_parent s)) x =
  if decide (x = k) then v else cache_view s x.
Proof.
  unfold cache_view. simpl. case_decide as E.
  - subst. by rewrite lookup_insert_eq.
  - by rewrite lookup_insert_ne.
Qed.

Lemma set_wf s k v del dirty :
  cache_wf s → cv_ok (c_parent s) k (mkCValue v del dirty) →
  cache_wf (mkCache (<[k := mkCValue v del dirty]> (c_cache s)) (c_parent s)).
Proof.
  intros [Hp Hc] Hok. split; [done|]. simpl. intros k' cv [[-> <-]|[_ Hk]]%lookup_insert_Some; auto.
Qed.

(** The parent may change as long as its mapping does not. *)
Lemma parent_wf s p' :
  cache_wf s → kv_wf p' → (∀ x, kv_view p' x = kv_view (c_parent s) x) →
  cache_wf (mkCache (c_cache s) p') ∧ ∀ x, cache_view (mkCache (c_cache s) p') x = cache_view s x.
Proof.
  intros [_ Hc] Hp' Hv. split; [split; [done|]|].
  - simpl. intros k cv Hk. unfold cv_ok. rewrite Hv. by apply Hc.
  - intros x. unfold cache_view. simpl. by rewrite Hv.
Qed.

Lemma on_parent_run {A} (c : M P A) s a p' :
  c (c_parent s) = (Ok a, p') → on_parent c s = (Ok a, mkCache (c_cache s) p').
Proof. intros Hr. unfold on_parent, zoom. by rewrite Hr. Qed.

Lemma cache_Get_law k s :
  cache_wf s → ∃ s', cache_Get k s = (Ok (cache_view s k), s') ∧ cache_wf s' ∧
    (∀ x, kv_view (c_parent s') x = kv_view (c_parent s) x) ∧ ∀ x, cache_view s' x = cache_view s x.
Proof.
  intros Hw. unfold cache_Get. rewrite (bind_run get _ s s s) by done. unfold cache_view at 1.
  destruct (c_cache s !! k) as [cv|] eqn:Hk; [by exists s|].
  destruct (law_Get k (c_parent s) (proj1 Hw)) as (p'&Hr&Hp'&Hv).
  rewrite (bind_run _ _ _ _ _ (on_parent_run _ _ _ _ Hr)).
  destruct (parent_wf s p' Hw Hp' Hv) as [Hw1 Hv1].
  eexists. split; [done|]. split_and!.
  - apply (set_wf (mkCache (c_cache s) p')); [done|]. unfold cv_ok. simpl. by rewrite Hv.
  - done.
  - intros x. rewrite (set_view (mkCache (c_cache s) p')), Hv1. case_decide as E; [|done].
    subst. unfold cache_view. by rewrite Hk.
Qed.

Lemma cache_iterator_law asc start stop s :
  cache_wf s → ∃ it s', cache_iterator asc start stop s = (Ok it, s') ∧ cache_wf s' ∧
    (∀ x, kv_view (c_parent s') x = kv_view (c_parent s) x) ∧
    (∀ x, cache_view s' x = cache_view s x) ∧ iterates asc start stop (cache_view s) it.
Proof.
  intros Hw. destruct (law_iterator asc start stop (c_parent s) (proj1 Hw)) as (itp&p'&Hr&Hp'&Hv&Hit).
  destruct (parent_wf s p' Hw Hp' Hv) as [Hw1 Hv1].
  exists (merge_ref asc itp (dirtyItems start stop asc (c_cache s))), (mkCache (c_cache s) p').
  split_and!; [|done|done|done|by apply cache_iterates].
  unfold cache_iterator. rewrite (bind_run _ _ _ _ _ (on_parent_run _ _ _ _ Hr)).
  rewrite (bind_run get _ _ _ _ eq_refl). unfold lift. simpl c_cache.
  by rewrite newMemIterator_id, drain_merge.
Qed.

#[export] Instance cache_laws : KVLaws (CacheKV P).
Proof.
  refine {| kv_wf := cache_wf; kv_view := cache_view |}.
  - intros k s Hw. destruct (cache_Get_law k s Hw) as (s'&?&?&_&?). eauto.
  - intros k s Hw. destruct (cache_Get_law k s Hw) as (s'&Hr&?&_&?). exists s'. split_and!; [|done|done].
    simpl. unfold cache_Has. by rewrite (bind_run _ _ _ _ _ Hr).
  - intros k v s Hw. eexists. split; [done|]. split; [|apply set_view]. by apply set_wf.
  - intros k s Hw. eexists. split; [done|]. split; [|apply set_view]. by apply set_wf.
  - intros asc start stop s Hw. destruct (cache_iterator_law asc start stop s Hw) as (it&s'&?&?&_&?&?). eauto 10.
Defined.

(** ** Write *)
Lemma dirty_keys_elem cache k :
  k ∈ dirty_keys cache ↔ ∃ cv, cache !! k = Some cv ∧ cv_dirty cv = true.
Proof.
  unfold dirty_keys. rewrite merge_sort_Permutation, list_elem_of_fmap. split.
  - intros ([k' cv]&->&[Hd Hin]%list_elem_of_filter). apply elem_of_map_to_list in Hin. eauto.
  - intros (cv&Hk&Hd). exists (k, cv). split; [done|]. apply list_elem_of_filter. by rewrite elem_of_map_to_list.
Qed.

(** Pushing the changes of some keys, in any order. *)
Lemma write_keys cache (p0 p : P) keys :
  kv_wf p → (∀ k cv, cache !! k = Some cv → cv_ok p0 k cv) →
  (∀ k, k ∈ keys → ∃ cv, cache !! k = Some cv ∧ cv_dirty cv = true) →
  ∃ p', for_each keys (write_key cache) p = (Ok tt, p') ∧ kv_wf p' ∧
    ∀ x, kv_view p' x = if decide (x ∈ keys) then cache !! x ≫= cv_value else kv_view p x.
Proof.
  intros Hw Hc. revert p Hw. induction keys as [|k keys IH]; intros p Hw Hk.
  { exists p. split_and!; [done|done|]. intros x. by rewrite decide_False by apply not_elem_of_nil. }
  destruct (Hk k ltac:(left)) as (cv&Hcv&Hdirty). apply Hc in Hcv as Hok. unfold cv_ok in Hok. rewrite Hdirty in Hok.
  assert (Hone : ∃ p1, write_key cache k p = (Ok tt, p1) ∧ kv_wf p1 ∧
    ∀ x, kv_view p1 x = if decide (x = k) then cv_value cv else kv_view p x).
  { unfold write_key. rewrite Hcv. destruct (cv_deleted cv).
    - rewrite (proj1 Hok) by done. apply law_Delete. done.
    - destruct (cv_value cv) as [v|]; [by apply law_Set|]. by destruct Hok as [_ ?]; naive_solver. }
  destruct Hone as (p1&Hr&Hw1&Hv1). destruct (IH p1 Hw1) as (p'&Hr'&Hw'&Hv').
  { intros x Hx. apply Hk. by right. }
  exists p'. split_and!; [|done|].
  - cbn [for_each]. by rewrite (bind_run _ _ _ _ _ Hr).
  - intros x. rewrite Hv', Hv1. destruct (decide (x ∈ keys)) as [Hin|Hni].
    + by rewrite decide_True by (by right).
    + destruct (decide (x = k)) as [->|Hne].
      * rewrite decide_True by left. by rewrite Hcv.
      * by rewrite decide_False by (rewrite elem_of_cons; tauto).
Qed.

Lemma cache_Write_law s :
  cache_wf s → ∃ s', cache_Write s = (Ok tt, s') ∧ cache_wf s' ∧ c_cache s' = ∅ ∧
    ∀ x, kv_view (c_parent s') x = cache_view s x.
Proof.
  intros [Hp Hc]. destruct (write_keys (c_cache s) (c_parent s) (c_parent s) (dirty_keys (c_cache s)) Hp Hc) as (p'&Hr&Hp'&Hv).
  { intros k. apply dirty_keys_elem. }
  exists (mkCache ∅ p'). split_and!; [|by apply (NewCacheKVStore_wf p')|done|].
  - unfold cache_Write. rewrite (bind_run get _ _ _ _ eq_refl).
    by rewrite (bind_run _ _ _ _ _ (on_parent_run _ _ _ _ Hr)).
  - intros x. simpl. rewrite Hv. unfold cache_view. destruct (decide (x ∈ dirty_keys (c_cache s))) as [Hx|Hx].
    + apply dirty_keys_elem in Hx as (cv&Hcv&_). by rewrite Hcv.
    + destruct (c_cache s !! x) as [cv|] eqn:Hcv; [|done]. apply Hc in Hcv as Hok. unfold cv_ok in Hok.
      destruct (cv_dirty cv) eqn:Hd; [|done]. destruct Hx. apply dirty_keys_elem. eauto.
Qed.
End laws.

(** ** Sequences of operations *)
Inductive KVOp :=
| OpGet (k : string)
| OpHas (k : string)
| OpSet (k v : string)
| OpDelete (k : string)
| OpIterate (asc : bool) (start stop : option string).
Inductive KVRes :=
| RValue (v : option string)
| RBool (b : bool)
| RUnit
| RItems (it : Iterator).

Definition run_op {S} `{KVOps S} (op : KVOp) : M S KVRes :=
  match op with
  | OpGet k => v <- kv_Get k ;; ret (RValue v)
  | OpHas k => b <- kv_Has k ;; ret (RBool b)
  | OpSet k v => kv_Set k v ;;; ret RUnit
  | OpDelete k => kv_Delete k ;;; ret RUnit
  | OpIterate asc start stop => it <- kv_iterator asc start stop ;; ret (RItems it)
  end.
Fixpoint run_ops {S} `{KVOps S} (ops : list KVOp) : M S (list KVRes) :=
  match ops with
  | [] => ret []
  | op :: ops => r <- run_op op ;; rs <- run_ops ops ;; ret (r :: rs)
  end.

(** The same operations on a finite map. *)
Definition in_domain_b (k : string) (start stop : option string) : bool :=
  match start with Some a => bool_decide (str_le a k) | None => true end &&
  match stop with Some b => bool_decide (str_lt k b) | None => true end.
Definition map_items (asc : bool) (start stop : option string) (m : gmap string string) : Iterator :=
  merge_sort (item_le asc)
    (map (λ kv, (kv.1, Some kv.2)) (filter (λ kv, in_domain_b kv.1 start stop = true) (map_to_list m))).
Definition map_op (op : KVOp) (m : gmap string string) : KVRes * gmap string string :=
  match op with
  | OpGet k => (RValue (m !! k), m)
  | OpHas k => (RBool (bool_decide (m !! k ≠ None)), m)
  | OpSet k v => (RUnit, <[k := v]> m)
  | OpDelete k => (RUnit, delete k m)
  | OpIterate asc start stop => (RItems (map_items asc start stop m), m)
  end.
Fixpoint map_ops (ops : list KVOp) (m : gmap string string) : list KVRes * gmap string string :=
  match ops with
  | [] => ([], m)
  | op :: ops => let '(r, m) := map_op op m in let '(rs, m) := map_ops ops m in (r :: rs, m)
  end.

Lemma in_domain_b_spec k start stop : in_domain_b k start stop = true ↔ in_domain k start stop.
Proof.
  unfold in_domain_b, in_domain. rewrite andb_true_iff.
  destruct start, stop; rewrite ?bool_decide_eq_true; naive_solver.
Qed.

Lemma map_items_iterates asc start stop (m : gmap string string) :
  iterates asc start stop (λ k, m !! k) (map_items asc start stop m).
Proof.
  split.
  - apply sort_strict. change (map ?f ?l) with (f <$> l). rewrite <-list_fmap_compose. simpl.
    eapply sublist_NoDup; [apply (NoDup_fst_map_to_list m)|]. apply fmap_sublist, sublist_filter.
  - intros k ov. unfold map_items. rewrite merge_sort_Permutation.
    change (map ?f ?l) with (f <$> l). rewrite list_elem_of_fmap. split.
    + intros ([k' v]&[= -> ->]&[Hd Hin]%list_elem_of_filter). apply elem_of_map_to_list in Hin. simpl in *.
      rewrite Hin. split_and!; [done|done|by apply in_domain_b_spec].
    + intros (->&Hn&Hd). destruct (m !! k) as [v|] eqn:Hk; [|done]. exists (k, v). split; [done|].
      apply list_elem_of_filter. rewrite elem_of_map_to_list. by rewrite in_domain_b_spec.
Qed.

(** ** Refinement *)
Definition stands_for {S} `{KVLaws S} (s : S) (m : gmap string string) : Prop :=
  kv_wf s ∧ ∀ k, kv_view s k = m !! k.

Lemma run_op_sim {S} `{KVLaws S} (op : KVOp) (s : S) m :
  stands_for s m → ∃ s', run_op op s = (Ok (map_op op m).1, s') ∧ stands_for s' (map_op op m).2.
Proof.
  intros [Hw Hv]. destruct op as [k|k|k v|k|asc start stop]; unfold run_op; cbn [map_op fst snd].
  - destruct (law_Get k s Hw) as (s'&Hr&Hw'&Hv'). exists s'. rewrite (bind_run _ _ _ _ _ Hr), Hv. split; [done|].
    split; [done|]. intros x. by rewrite Hv'.
  - destruct (law_Has k s Hw) as (s'&Hr&Hw'&Hv'). exists s'. rewrite (bind_run _ _ _ _ _ Hr), Hv. split; [done|].
    split; [done|]. intros x. by rewrite Hv'.
  - destruct (law_Set k v s Hw) as (s'&Hr&Hw'&Hv'). exists s'. rewrite (bind_run _ _ _ _ _ Hr). split; [done|].
    split; [done|]. intros x. rewrite Hv', Hv, lookup_insert. repeat case_decide; congruence.
  - destruct (law_Delete k s Hw) as (s'&Hr&Hw'&Hv'). exists s'. rewrite (bind_run _ _ _ _ _ Hr). split; [done|].
    split; [done|]. intros x. rewrite Hv', Hv, lookup_delete. repeat case_decide; congruence.
  - destruct (law_iterator asc start stop s Hw) as (it&s'&Hr&Hw'&Hv'&Hit). exists s'.
    rewrite (bind_run _ _ _ _ _ Hr). split; [|split; [done|]; intros x; by rewrite Hv'].
    unfold ret. do 3 f_equal. eapply iterates_unique; [done|].
    destruct (map_items_iterates asc start stop m) as [Hs He]. split; [done|]. intros k ov. by rewrite He, Hv.
Qed.

Lemma run_ops_sim {S} `{KVLaws S} (ops : list KVOp) (s : S) m :
  stands_for s m →
  ∃ s', run_ops ops s = (Ok (map_ops ops m).1, s') ∧ stands_for s' (map_ops ops m).2.
Proof.
  revert s m. induction ops as [|op ops IH]; intros s m Hs; [by exists s|].
  destruct (run_op_sim op s m Hs) as (s1&Hr&Hs1). cbn [run_ops map_ops].
  destruct (map_op op m) as [r m1]. cbn [fst snd] in *. destruct (IH s1 m1 Hs1) as (s2&Hr2&Hs2).
  destruct (map_ops ops m1) as [rs m2]. cbn [fst snd] in *. exists s2. split; [|done].
  by rewrite (bind_run _ _ _ _ _ Hr), (bind_run _ _ _ _ _ Hr2).
Qed.

Section transaction.
Context {P : Type} `{KVLaws P} `{TmDb}.

(** No operation but [Write] changes what the parent stands for. *)
Lemma run_op_parent (op : KVOp) (s s' : CacheKV P) r :
  cache_wf s → run_op op s = (Ok r, s') → ∀ x, kv_view (c_parent s') x = kv_view (c_parent s) x.
Proof.
  intros Hw. destruct op as [k|k|k v|k|asc start stop]; unfold run_op; simpl.
  - destruct (cache_Get_law k s Hw) as (s1&Hr&_&Hv&_). rewrite (bind_run _ _ _ _ _ Hr). by intros [= _ <-].
  - destruct (cache_Get_law k s Hw) as (s1&Hr&_&Hv&_). unfold cache_Has, bind. rewrite Hr. by intros [= _ <-].
  - by intros [= _ <-].
  - by intros [= _ <-].
  - destruct (cache_iterator_law asc start stop s Hw) as (it&s1&Hr&_&Hv&_). rewrite (bind_run _ _ _ _ _ Hr).
    by intros [= _ <-].
Qed.

Lemma run_ops_parent (ops : list KVOp) (s : CacheKV P) m rs s' :
  stands_for s m → run_ops ops s = (Ok rs, s') → ∀ x, kv_view (c_parent s') x = kv_view (c_parent s) x.
Proof.
  revert s m rs. induction ops as [|op ops IH]; intros s m rs Hs Hrun x; [by injection Hrun as _ <-|].
  destruct (run_op_sim op s m Hs) as (s1&Hr&Hs1). cbn [run_ops] in Hrun.
  rewrite (bind_run _ _ _ _ _ Hr) in Hrun. inv_ok Hrun.
  rewrite (IH _ _ _ Hs1 E). by eapply run_op_parent; [apply Hs|].
Qed.

(** C14. A cache behaves as the mapping of its parent for any sequence of reads,
    writes, deletions and iterations in both directions, and every operation
    returns.  The parent is untouched all along: dropping the cache undoes
    everything, and [Write] carries over exactly the final mapping. *)
Theorem cache_transaction (p : P) (m : gmap string string) (ops : list KVOp)
    (Hp : stands_for p m) :
  ∃ s s', run_ops ops (NewCacheKVStore p) = (Ok (map_ops ops m).1, s) ∧
    (∀ k, kv_view (c_parent s) k = m !! k) ∧
    cache_Write s = (Ok tt, s') ∧ stands_for (c_parent s') (map_ops ops m).2 ∧ c_cache s' = ∅.
Proof.
  destruct Hp as [Hw Hv].
  assert (Hs : stands_for (NewCacheKVStore p) m) by (split; [by apply NewCacheKVStore_wf|exact Hv]).
  destruct (run_ops_sim ops _ _ Hs) as (s&Hr&Hw'&Hv').
  destruct (cache_Write_law s Hw') as (s'&Hwr&Hws&He&Hvs). exists s, s'. split_and!; try done.
  - intros k. rewrite (run_ops_parent _ _ _ _ _ Hs Hr). apply Hv.
  - split; [apply Hws|]. intros k. rewrite Hvs. apply Hv'.
Qed.
End transaction.

(** ** A store in memory *)
Module MemStore.
Abbreviation MemDB := (gmap string string).
Definition mem_ops : KVOps MemDB := {|
  kv_Get k := gets (λ m : MemDB, m !! k);
  kv_Has k := gets (λ m : MemDB, bool_decide (m !! k ≠ None));
  kv_Set k v := modify (λ m : MemDB, <[k := v]> m);
  kv_Delete k := modify (λ m : MemDB, delete k m);
  kv_iterator asc start stop := gets (map_items asc start stop) |}.
#[export] Existing Instance mem_ops.

#[export] Instance mem_laws : KVLaws MemDB.
Proof.
  refine {| kv_wf _ := True; kv_view (m : MemDB) k := m !! k |}.
  - intros k m _. by exists m.
  - intros k m _. by exists m.
  - intros k v m _. eexists. split_and!; [done|done|]. intros x. rewrite lookup_insert. repeat case_decide; congruence.
  - intros k m _. eexists. split_and!; [done|done|]. intros x. rewrite lookup_delete. repeat case_decide; congruence.
  - intros asc start stop m _. eexists _, m. split_and!; [done|done|done|apply map_items_iterates].
Defined.

#[export] Instance tm_db : TmDb := {| IsKeyInDomain := in_domain_b; IsKeyInDomain_spec := in_domain_b_spec |}.

Definition db0 : MemDB := <["a" := "1"]> (<["b" := "2"]> (<["c" := "3"]> ∅)).
Definition ops0 : list KVOp :=
  [OpGet "b"; OpSet "d" "4"; OpDelete "a"; OpIterate false (Some "a") None; OpHas "a"].

(** A cache over a cache over the store. *)
Lemma cache_transaction_witness :
  ∃ s s', run_ops ops0 (NewCacheKVStore (NewCacheKVStore db0)) = (Ok (map_ops ops0 db0).1, s) ∧
    (∀ k, kv_view (c_parent s) k = db0 !! k) ∧
    cache_Write s = (Ok tt, s') ∧ stands_for (c_parent s') (map_ops ops0 db0).2 ∧ c_cache s' = ∅.
Proof.
  apply (cache_transaction (NewCacheKVStore db0) db0 ops0). split; [|intros k; reflexivity].
  apply NewCacheKVStore_wf. exact I.
Defined.

Example items0 : map_items false (Some "b") None db0 = [("c", Some "3"); ("b", Some "2")].
Proof. vm_compute. reflexivity. Qed.
End MemStore.
