(* ===== verification/PrefixKV.v ===== *)
(** * Prefixes of a store (types/store.go, store/prefixstore.go)

    [KVStorePrefixIterator] and the prefix store: a store restricted to the keys
    with a given prefix, which are shown without it. *)

From Stdlib Require Import Ascii.
From S2P Require Import Prelude GoStrings KVStore CacheKV CacheKVThms.

(** ** The end of a prefix *)
Definition byte_max : ascii := ascii_of_nat 255.
Definition byte_succ (c : ascii) : ascii := ascii_of_nat (S (nat_of_ascii c)).

(** The loop over the copy of the prefix, last byte first. *)
Fixpoint prefix_end (rl : list ascii) : option (list ascii) :=
  match rl with
  | [] => None
  | c :: rest => if bool_decide (c ≠ byte_max) then Some (byte_succ c :: rest) else prefix_end rest
  end.

(** A prefix that is not nil but empty indexes outside of its copy. *)
Definition PrefixEndBytes (prefix : option string) : Outcome (option string) :=
  match prefix with
  | None => Ok None
  | Some p =>
      match rev (chars p) with
      | [] => Panic "index out of range"
      | rl => Ok ((λ l, str (rev l)) <$> prefix_end rl)
      end
  end.

Definition KVStorePrefixIterator {S} `{KVOps S} (prefix : string) : M S Iterator :=
  stop <- lift (PrefixEndBytes (Some prefix)) ;; kv_Iterator (Some prefix) stop.
Definition KVStoreReversePrefixIterator {S} `{KVOps S} (prefix : string) : M S Iterator :=
  stop <- lift (PrefixEndBytes (Some prefix)) ;; kv_ReverseIterator (Some prefix) stop.

(** ** prefixIterator *)
Record PrefixIterator := mkPrefixIter { pi_prefix : string; pi_iter : Iterator; pi_valid : bool }.

Definition has_head (it : Iterator) (prefix : string) : bool :=
  match it with [] => false | (k, _) :: _ => HasPrefix k prefix end.
Definition newPrefixIterator (prefix : string) (parent : Iterator) : PrefixIterator :=
  mkPrefixIter prefix parent (has_head parent prefix).
Definition pi_Valid (it : PrefixIterator) : bool :=
  pi_valid it && match pi_iter it with [] => false | _ => true end.
Definition pi_Next (it : PrefixIterator) : Outcome PrefixIterator :=
  if negb (pi_valid it) then Panic "prefixIterator invalid, cannot call Next()" else
  match pi_iter it with
  | [] => Panic "iterator is invalid"
  | _ :: rest => Ok (mkPrefixIter (pi_prefix it) rest (has_head rest (pi_prefix it)))
  end.
Definition stripPrefix (key prefix : string) : Outcome string :=
  if HasPrefix key prefix then Ok (TrimPrefix key prefix) else Panic "should not happen".
Definition pi_Key (it : PrefixIterator) : Outcome string :=
  if negb (pi_valid it) then Panic "prefixIterator invalid, cannot call Key()" else
  match pi_iter it with
  | [] => Panic "iterator is invalid"
  | (k, _) :: _ => stripPrefix k (pi_prefix it)
  end.
Definition pi_Value (it : PrefixIterator) : Outcome (option string) :=
  if negb (pi_valid it) then Panic "prefixIterator invalid, cannot call Value()" else
  match pi_iter it with
  | [] => Panic "iterator is invalid"
  | (_, v) :: _ => Ok v
  end.

(** The loop of a client. *)
Fixpoint pi_drain (fuel : nat) (it : PrefixIterator) : Outcome Iterator :=
  match fuel with
  | O => Panic "out of fuel"
  | S fuel =>
      if pi_Valid it then
        let? k := pi_Key it in let? v := pi_Value it in let? it := pi_Next it in
        let? rest := pi_drain fuel it in Ok ((k, v) :: rest)
      else Ok []
  end.

(** ** prefixStore *)
Record PrefixKV (P : Type) := mkPrefix { ps_parent : P; ps_prefix : string }.
Arguments mkPrefix {P}.
Arguments ps_parent {P}.
Arguments ps_prefix {P}.

Section prefixStore.
Context {P : Type} `{KVOps P}.
Abbreviation MP := (M (PrefixKV P)).

Definition ps_on {A} (c : M P A) : MP A := zoom ps_parent (λ p s, mkPrefix p (ps_prefix s)) c.
Definition cloneAppend (bz tail : string) : string := bz +:+ tail.
Definition ps_key (key : string) : MP string := gets (λ s, cloneAppend (ps_prefix s) key).

Definition prefix_Get (key : string) : MP (option string) := k <- ps_key key ;; ps_on (kv_Get k).
Definition prefix_Has (key : string) : MP bool := k <- ps_key key ;; ps_on (kv_Has k).
Definition prefix_Set (key value : string) : MP unit := k <- ps_key key ;; ps_on (kv_Set k value).
Definition prefix_Delete (key : string) : MP unit := k <- ps_key key ;; ps_on (kv_Delete k).

Definition prefixStore_iterator (asc : bool) (start stop : option string) : MP Iterator :=
  s <- get ;;
  let newstart := cloneAppend (ps_prefix s) (default "" start) in
  newend <- lift (match stop with
                  | None => PrefixEndBytes (Some (ps_prefix s))
                  | Some e => Ok (Some (cloneAppend (ps_prefix s) e))
                  end) ;;
  iter <- ps_on (kv_iterator asc (Some newstart) newend) ;;
  lift (pi_drain (S (length iter)) (newPrefixIterator (ps_prefix s) iter)).

#[export] Instance prefix_ops : KVOps (PrefixKV P) := {|
  kv_Get := prefix_Get;
  kv_Has := prefix_Has;
  kv_Set := prefix_Set;
  kv_Delete := prefix_Delete;
  kv_iterator := prefixStore_iterator |}.
End prefixStore.

(** ** Byte strings with a common prefix *)
Lemma HasPrefix_cons c k d p : HasPrefix (String c k) (String d p) = bool_decide (c = d) && HasPrefix k p.
Proof.
  unfold HasPrefix. apply eq_bool_prop_intro. rewrite andb_True, !bool_decide_spec. simpl. split.
  - intros Hp. split; [by apply prefix_cons_inv_1 in Hp as ->|by apply prefix_cons_inv_2 in Hp].
  - intros [-> Hp]. by apply prefix_cons.
Qed.

Lemma compare_app p a b : String.compare (p +:+ a) (p +:+ b) = String.compare a b.
Proof.
  induction p as [|c p IH]; [done|]. simpl. unfold Ascii.compare. by rewrite N.compare_refl.
Qed.

Lemma str_lt_app p a b : str_lt (p +:+ a) (p +:+ b) ↔ str_lt a b.
Proof. unfold str_lt. by rewrite compare_app. Qed.

Lemma str_lt_app_r x p a : str_lt x p → str_lt x (p +:+ a).
Proof.
  unfold str_lt. revert x. induction p as [|c p IH]; intros x; [by destruct x|].
  destruct x as [|d x]; [done|]. simpl. destruct (Ascii.compare d c); auto.
Qed.

(** A string between two with a common prefix has that prefix. *)
Lemma between_prefix p x a b :
  str_le (p +:+ a) x → str_lt x (p +:+ b) → HasPrefix x p = true.
Proof.
  revert x. induction p as [|c p IH]; intros x Hlo Hhi; [done|].
  destruct x as [|d x]; [by destruct Hlo|]. unfold str_le, str_lt in *. simpl in *.
  rewrite HasPrefix_cons. unfold Ascii.compare in *. rewrite (N.compare_antisym (N_of_ascii c) (N_of_ascii d)) in Hhi.
  destruct (N.compare_spec (N_of_ascii c) (N_of_ascii d)) as [E|L|G]; simpl in Hhi; [|done|].
  - apply (f_equal ascii_of_N) in E. rewrite !ascii_N_embedding in E. subst d.
    rewrite bool_decide_true by done. simpl. rewrite N.compare_refl in Hlo. by apply IH.
  - rewrite (proj2 (N.compare_lt_iff _ _)) in Hlo by done. done.
Qed.

(** ** The end of a prefix bounds its keys *)
(** The same computation, first byte first. *)
Fixpoint pend (p : string) : option string :=
  match p with
  | EmptyString => None
  | String c p =>
      match pend p with
      | Some e => Some (String c e)
      | None => if bool_decide (c ≠ byte_max) then Some (String (byte_succ c) "") else None
      end
  end.

Lemma prefix_end_app rl c :
  prefix_end (rl ++ [c]) =
  match prefix_end rl with
  | Some e => Some (e ++ [c])
  | None => if bool_decide (c ≠ byte_max) then Some [byte_succ c] else None
  end.
Proof. induction rl as [|d rl IH]; simpl; [by case_bool_decide|]. destruct (bool_decide (d ≠ byte_max)); [done|apply IH]. Qed.

Lemma prefix_end_pend p : (λ l, str (rev l)) <$> prefix_end (rev (chars p)) = pend p.
Proof.
  induction p as [|c p IH]; [done|].
  change (chars (String c p)) with (c :: chars p). cbn [rev pend]. rewrite prefix_end_app, <-IH.
  destruct (prefix_end (rev (chars p))) as [e|]; simpl.
  - by rewrite rev_app_distr.
  - by case_bool_decide.
Qed.

Lemma PrefixEndBytes_pend p : p ≠ "" → PrefixEndBytes (Some p) = Ok (pend p).
Proof.
  intros Hp. unfold PrefixEndBytes. rewrite <-prefix_end_pend.
  destruct (rev (chars p)) as [|c l] eqn:E; [|done].
  destruct Hp. apply chars_inj. apply (f_equal (@rev _)) in E. by rewrite rev_involutive in E.
Qed.

Lemma byte_succ_N c : c ≠ byte_max → N_of_ascii (byte_succ c) = (N_of_ascii c + 1)%N.
Proof.
  intros Hc. unfold byte_succ. rewrite <-(ascii_N_embedding c) at 2.
  destruct c as [[] [] [] [] [] [] [] []]; vm_compute; try reflexivity. by destruct Hc.
Qed.

Lemma byte_le_max c : (N_of_ascii c ≤ N_of_ascii byte_max)%N.
Proof. pose proof (N_ascii_bounded c). change (N_of_ascii byte_max) with 255%N. lia. Qed.

Lemma pend_spec p k :
  HasPrefix k p = true ↔ str_le p k ∧ ∀ e, pend p = Some e → str_lt k e.
Proof.
  unfold str_le, str_lt. revert k. induction p as [|c p IH]; intros k.
  { split; [|done]. intros _. split; [by destruct k|done]. }
  destruct k as [|d k].
  { split; [done|]. by intros [[] _]. }
  rewrite HasPrefix_cons. cbn [pend String.compare]. unfold Ascii.compare.
  destruct (N.compare_spec (N_of_ascii d) (N_of_ascii c)) as [E|L|G].
  - apply (f_equal ascii_of_N) in E. rewrite !ascii_N_embedding in E. subst d.
    rewrite bool_decide_true by done. cbn [andb]. rewrite IH. f_equiv.
    destruct (pend p) as [e|]; [|case_bool_decide as Hc; [|done]].
    + split; intros He e' [= <-]; [simpl; unfold Ascii.compare; rewrite N.compare_refl; by apply He|].
      specialize (He _ eq_refl). simpl in He. unfold Ascii.compare in He. by rewrite N.compare_refl in He.
    + split; [|done]. intros _ e' [= <-]. simpl. unfold Ascii.compare. rewrite byte_succ_N by done.
      by rewrite (proj2 (N.compare_lt_iff _ _)) by lia.
  - rewrite bool_decide_false by (intros ->; lia). split; [done|]. by intros [[] _].
  - rewrite bool_decide_false by (intros ->; lia). split; [done|]. intros [_ He].
    destruct (pend p) as [e|]; [|case_bool_decide as Hc].
    + specialize (He _ eq_refl). simpl in He. unfold Ascii.compare in He.
      by rewrite (proj2 (N.compare_gt_iff _ _)) in He.
    + specialize (He _ eq_refl). simpl in He. unfold Ascii.compare in He. rewrite byte_succ_N in He by done.
      destruct (N.compare_spec (N_of_ascii d) (N_of_ascii c + 1)); [by destruct k|lia|done].
    + pose proof (byte_le_max d). subst c. lia.
Qed.

(** * Prefix iterators and prefix stores are restrictions of the mapping *)
(** The keys from a prefix to its end are the keys with the prefix. *)
Lemma prefix_domain p k :
  in_domain k (Some p) (pend p) ↔ HasPrefix k p = true.
Proof.
  rewrite pend_spec. unfold in_domain. split.
  - intros [Hlo Hhi]. split; [by apply Hlo|]. intros e He. by apply Hhi.
  - intros [Hlo Hhi]. split; [by intros a [= <-]|]. intros b Hb. by apply Hhi.
Qed.

Section prefix.
Context {P : Type} `{KVLaws P}.
Implicit Types (s : PrefixKV P).

(** ** Draining *)
Lemma pi_drain_all prefix it fuel :
  Forall (λ x, HasPrefix x.1 prefix = true) it → (length it < fuel)%nat →
  pi_drain fuel (newPrefixIterator prefix it) = Ok (map (λ x, (TrimPrefix x.1 prefix, x.2)) it).
Proof.
  revert fuel. induction it as [|[k v] it IH]; intros fuel Hall Hf; (destruct fuel as [|fuel]; [simpl in *; lia|]); [done|].
  apply Forall_cons in Hall as [Hk Hall]. cbn [fst] in Hk. cbn [pi_drain].
  unfold pi_Valid, pi_Key, pi_Value, pi_Next, newPrefixIterator, stripPrefix, has_head.
  cbn [pi_valid pi_iter pi_prefix]. rewrite Hk. cbn [andb negb obind].
  fold (has_head it prefix). fold (newPrefixIterator prefix it). rewrite IH; [done|done|simpl in *; lia].
Qed.

(** ** The mapping of a prefix store *)
Definition prefix_wf s : Prop := kv_wf (ps_parent s) ∧ ps_prefix s ≠ "".
Definition prefix_view s (k : string) : option string := kv_view (ps_parent s) (ps_prefix s +:+ k).

Lemma ps_on_run {A} (c : M P A) s a p' :
  c (ps_parent s) = (Ok a, p') → ps_on c s = (Ok a, mkPrefix p' (ps_prefix s)).
Proof. intros Hr. unfold ps_on, zoom. by rewrite Hr. Qed.

Lemma app_ne_decide (pre x k : string) {A} (a b : A) :
  (if decide (pre +:+ x = pre +:+ k) then a else b) = if decide (x = k) then a else b.
Proof. destruct (decide (x = k)) as [->|Hn]; [by rewrite decide_True|]. rewrite decide_False; [done|]. by intros ?%(inj _). Qed.

Definition shifted_end (prefix : string) (stop : option string) : option string :=
  match stop with None => pend prefix | Some e => Some (prefix +:+ e) end.

(** The parent's domain is the image of the domain asked for. *)
Lemma shifted_domain prefix start stop x :
  in_domain x (Some (prefix +:+ default "" start)) (shifted_end prefix stop) ↔
  ∃ k, x = prefix +:+ k ∧ in_domain k start stop.
Proof.
  unfold in_domain, shifted_end, str_le. split.
  - intros [Hlo Hhi]. specialize (Hlo _ eq_refl).
    assert (Hpre : HasPrefix x prefix = true).
    { destruct stop as [e|]; [eapply between_prefix; [exact Hlo|by apply Hhi]|].
      apply pend_spec. split; [|done]. intros Hlt. apply Hlo. by apply str_lt_app_r. }
    apply HasPrefix_iff in Hpre as [k ->]. exists k. split; [done|]. split.
    + intros a ->. simpl in Hlo. by rewrite str_lt_app in Hlo.
    + intros b ->. specialize (Hhi _ eq_refl). by apply str_lt_app in Hhi.
  - intros (k&->&Hlo&Hhi). split.
    + intros a [= <-]. rewrite str_lt_app. destruct start as [a|]; [by apply Hlo|].
      unfold str_lt. by destruct k.
    + intros b Hb. destruct stop as [e|]; [injection Hb as <-; by apply str_lt_app, Hhi|].
      by eapply (proj1 (pend_spec prefix (prefix +:+ k)) (HasPrefix_app _ _)).
Qed.

Lemma shifted_iterates asc start stop s it :
  iterates asc (Some (ps_prefix s +:+ default "" start)) (shifted_end (ps_prefix s) stop) (kv_view (ps_parent s)) it →
  Forall (λ x, HasPrefix x.1 (ps_prefix s) = true) it ∧
  iterates asc start stop (prefix_view s) (map (λ x, (TrimPrefix x.1 (ps_prefix s), x.2)) it).
Proof.
  intros [Hs He]. set (pre := ps_prefix s) in *.
  assert (Hall : Forall (λ x, ∃ k, x.1 = pre +:+ k) it).
  { apply Forall_forall. intros [x ov] Hin. apply He in Hin as (_&_&Hd). apply shifted_domain in Hd as (k&->&_). by exists k. }
  split; [eapply Forall_impl; [done|]; intros x [k Hk]; rewrite Hk; apply HasPrefix_app|].
  change (map ?f ?l) with (f <$> l). split.
  - rewrite <-list_fmap_compose. clear He. induction it as [|x it IH]; csimpl in *; [constructor|].
    apply Forall_cons in Hall as [[k Hk] Hall]. apply StronglySorted_inv in Hs as [Hs HF].
    constructor; [by apply IH|]. rewrite Forall_fmap, Forall_forall in *. intros y Hy. simpl.
    specialize (HF y Hy). destruct (Hall y Hy) as [k' Hk']. simpl in HF. rewrite Hk, Hk' in *.
    rewrite !TrimPrefix_app. destruct asc; by apply str_lt_app in HF.
  - intros k ov. rewrite list_elem_of_fmap. unfold prefix_view. fold pre. split.
    + intros ([x ov']&[= -> ->]&Hin). apply He in Hin as (->&Hn&Hd). apply shifted_domain in Hd as (k&->&Hd).
      by rewrite TrimPrefix_app.
    + intros (->&Hn&Hd). exists (pre +:+ k, kv_view (ps_parent s) (pre +:+ k)). simpl. rewrite TrimPrefix_app.
      split; [done|]. apply He. split_and!; [done|done|]. apply shifted_domain. eauto.
Qed.

#[export] Instance prefix_laws : KVLaws (PrefixKV P).
Proof.
  refine {| kv_wf := prefix_wf; kv_view := prefix_view |}.
  - intros k s [Hw Hp]. destruct (law_Get (ps_prefix s +:+ k) _ Hw) as (p'&Hr&Hw'&Hv).
    eexists. split; [apply (ps_on_run _ _ _ _ Hr)|]. split; [by split|]. intros x. apply Hv.
  - intros k s [Hw Hp]. destruct (law_Has (ps_prefix s +:+ k) _ Hw) as (p'&Hr&Hw'&Hv).
    eexists. split; [apply (ps_on_run _ _ _ _ Hr)|]. split; [by split|]. intros x. apply Hv.
  - intros k v s [Hw Hp]. destruct (law_Set (ps_prefix s +:+ k) v _ Hw) as (p'&Hr&Hw'&Hv).
    eexists. split; [apply (ps_on_run _ _ _ _ Hr)|]. split; [by split|]. intros x. unfold prefix_view at 1. simpl.
    rewrite Hv. apply app_ne_decide.
  - intros k s [Hw Hp]. destruct (law_Delete (ps_prefix s +:+ k) _ Hw) as (p'&Hr&Hw'&Hv).
    eexists. split; [apply (ps_on_run _ _ _ _ Hr)|]. split; [by split|]. intros x. unfold prefix_view at 1. simpl.
    rewrite Hv. apply app_ne_decide.
  - intros asc start stop s [Hw Hp].
    destruct (law_iterator asc (Some (ps_prefix s +:+ default "" start)) (shifted_end (ps_prefix s) stop) _ Hw)
      as (it&p'&Hr&Hw'&Hv&Hit).
    destruct (shifted_iterates _ _ _ _ _ Hit) as [Hall Hit'].
    eexists _, (mkPrefix p' (ps_prefix s)). split; [|split; [by split|split; [intros x; apply Hv|exact Hit']]].
    simpl. unfold prefixStore_iterator. rewrite (bind_run get _ _ _ _ eq_refl).
    rewrite (bind_run _ _ s (shifted_end (ps_prefix s) stop) s)
      by (destruct stop; [done|]; unfold lift; by rewrite PrefixEndBytes_pend).
    rewrite (bind_run _ _ _ _ _ (ps_on_run _ _ _ _ Hr)). unfold lift. rewrite pi_drain_all; [done|done|lia].
Defined.
End prefix.

Lemma StronglySorted_snoc {A} (R : A → A → Prop) l x :
  StronglySorted R l → Forall (λ y, R y x) l → StronglySorted R (l ++ [x]).
Proof.
  induction 1 as [|y l Hl IH HF]; intros Hx; simpl; [repeat constructor|].
  apply Forall_cons in Hx as [Hy Hx]. constructor; [by apply IH|]. apply Forall_app. by repeat constructor.
Qed.

Lemma sorted_rev_dir (l : list string) :
  StronglySorted (key_lt true) l → StronglySorted (key_lt false) (rev l).
Proof.
  induction 1 as [|x l Hl IH HF]; [constructor|]. simpl. apply StronglySorted_snoc; [done|].
  apply Forall_forall. intros y Hy. rewrite Forall_forall in HF. apply HF.
  by apply list_elem_of_In, in_rev, list_elem_of_In.
Qed.

Lemma rev_elem {A} (x : A) l : x ∈ rev l ↔ x ∈ l.
Proof. by rewrite !list_elem_of_In, <-in_rev. Qed.

(** [KVStorePrefixIterator] and its reverse visit exactly the entries whose key
    has the prefix, in ascending or descending byte order, on any store that
    stands for a mapping: the end computed by [PrefixEndBytes] neither cuts a key
    of the prefix off nor lets another one in, also when the prefix ends in the
    largest byte. *)
Theorem prefix_iterator_exact {S : Type} `{KVLaws S} (s : S) (prefix : string)
    (Hs : kv_wf s) (Hp : prefix ≠ "") :
  ∃ up down s1 s2,
    KVStorePrefixIterator prefix s = (Ok up, s1) ∧ KVStoreReversePrefixIterator prefix s = (Ok down, s2) ∧
    StronglySorted (key_lt true) up.*1 ∧ down = rev up ∧
    ∀ k ov, (k, ov) ∈ up ↔ ov = kv_view s k ∧ ov ≠ None ∧ HasPrefix k prefix = true.
Proof.
  destruct (law_iterator true (Some prefix) (pend prefix) s Hs) as (up&s1&Hup&_&_&[Hsu Heu]).
  destruct (law_iterator false (Some prefix) (pend prefix) s Hs) as (down&s2&Hdown&_&_&[Hsd Hed]).
  exists up, down, s1, s2. unfold KVStorePrefixIterator, KVStoreReversePrefixIterator.
  rewrite PrefixEndBytes_pend by done. split_and!; try done.
  - apply (sorted_keys_ext false); [done| |].
    + change (rev up).*1 with (map fst (rev up)). rewrite map_rev. by apply sorted_rev_dir.
    + intros [k ov]. rewrite rev_elem. by rewrite Hed, Heu.
  - intros k ov. rewrite Heu. by rewrite prefix_domain.
Qed.

Section isolation.
Context {P : Type} `{KVLaws P}.
Implicit Types (s : PrefixKV P).

Definition same_outside s s' : Prop :=
  ps_prefix s' = ps_prefix s ∧
  ∀ x, HasPrefix x (ps_prefix s) = false → kv_view (ps_parent s') x = kv_view (ps_parent s) x.

Lemma outside_ne s k x : HasPrefix x (ps_prefix s) = false → x ≠ ps_prefix s +:+ k.
Proof. intros Hx ->. by rewrite HasPrefix_app in Hx. Qed.

Lemma prefix_op_outside (op : KVOp) s r s' :
  prefix_wf s → run_op op s = (Ok r, s') → same_outside s s'.
Proof.
  intros [Hw Hp]. unfold same_outside. destruct op as [k|k|k v|k|asc start stop]; unfold run_op; simpl.
  - destruct (law_Get (ps_prefix s +:+ k) _ Hw) as (p'&Hr&_&Hv).
    rewrite (bind_run (prefix_Get k) _ s _ _ (ps_on_run _ _ _ _ Hr)). by intros [= _ <-].
  - destruct (law_Has (ps_prefix s +:+ k) _ Hw) as (p'&Hr&_&Hv).
    rewrite (bind_run (prefix_Has k) _ s _ _ (ps_on_run _ _ _ _ Hr)). by intros [= _ <-].
  - destruct (law_Set (ps_prefix s +:+ k) v _ Hw) as (p'&Hr&_&Hv).
    rewrite (bind_run (prefix_Set k v) _ s _ _ (ps_on_run _ _ _ _ Hr)). intros [= _ <-].
    split; [done|]. intros x Hx. simpl. by rewrite Hv, decide_False by (by apply outside_ne).
  - destruct (law_Delete (ps_prefix s +:+ k) _ Hw) as (p'&Hr&_&Hv).
    rewrite (bind_run (prefix_Delete k) _ s _ _ (ps_on_run _ _ _ _ Hr)). intros [= _ <-].
    split; [done|]. intros x Hx. simpl. by rewrite Hv, decide_False by (by apply outside_ne).
  - intros Hrun. inv_ok Hrun. unfold prefixStore_iterator in E. rewrite (bind_run get _ _ _ _ eq_refl) in E.
    apply bind_ok in E as (newend&s1&E1&E). apply lift_ok in E1 as [_ ->].
    destruct (law_iterator asc (Some (ps_prefix s +:+ default "" start)) newend _ Hw) as (it&p'&Hr&_&Hv&_).
    rewrite (bind_run _ _ _ _ _ (ps_on_run _ _ _ _ Hr)) in E. apply lift_ok in E as [_ ->]. by split.
Qed.

(** C32. A prefix store behaves, for any sequence of operations, as the mapping of the
    keys of its parent that have the prefix, shown without it, and leaves every
    other key of the parent alone. *)
Theorem prefix_store_isolated (p : P) (prefix : string) (m sub : gmap string string) (ops : list KVOp)
    (Hp : stands_for p m) (Hpre : prefix ≠ "") (Hsub : ∀ k, sub !! k = m !! (prefix +:+ k)) :
  ∃ s', run_ops ops (mkPrefix p prefix) = (Ok (map_ops ops sub).1, s') ∧
    (∀ k, kv_view (ps_parent s') (prefix +:+ k) = (map_ops ops sub).2 !! k) ∧
    (∀ x, HasPrefix x prefix = false → kv_view (ps_parent s') x = m !! x).
Proof.
  destruct Hp as [Hw Hv].
  assert (Hs : stands_for (mkPrefix p prefix) sub).
  { split; [by split|]. intros k. rewrite Hsub. apply Hv. }
  destruct (run_ops_sim ops _ _ Hs) as (s'&Hr&Hw'&Hv'). exists s'. split; [done|].
  assert (Hout : same_outside (mkPrefix p prefix) s').
  { clear Hv' Hsub Hw' Hv. revert Hs Hr. generalize (mkPrefix p prefix), sub. clear.
    induction ops as [|op ops IH]; intros s sub Hs Hr; [by injection Hr as <-|].
    destruct (run_op_sim op s sub Hs) as (s1&Hr1&Hs1). cbn [run_ops map_ops] in Hr.
    destruct (map_op op sub) as [r m1]. cbn [fst snd] in *.
    destruct (map_ops ops m1) as [rs m2] eqn:Em. cbn [fst snd] in *.
    rewrite (bind_run _ _ _ _ _ Hr1) in Hr. inv_ok Hr.
    destruct (prefix_op_outside _ _ _ _ (proj1 Hs) Hr1) as [E1 Ho1].
    destruct (IH s1 m1) as [E2 Ho2]; [done|by rewrite Em|].
    split; [by rewrite E2|]. intros x Hx. rewrite Ho2 by (by rewrite E1). by apply Ho1. }
  destruct Hout as [Epre Hout]. simpl in Epre, Hout. split.
  - intros k. rewrite <-Hv'. simpl. unfold prefix_view. by rewrite Epre.
  - intros x Hx. rewrite Hout by done. apply Hv.
Qed.
End isolation.

Module PrefixExample.
Import MemStore.

Definition db1 : gmap string string := <["acc:x" := "1"]> (<["acc:y" := "2"]> (<["fee" := "3"]> ∅)).
Definition sub1 : gmap string string := <["x" := "1"]> (<["y" := "2"]> ∅).

Lemma prefix_iterator_exact_witness :
  ∃ up down s1 s2,
    KVStorePrefixIterator "acc:" (NewCacheKVStore db1) = (Ok up, s1) ∧
    KVStoreReversePrefixIterator "acc:" (NewCacheKVStore db1) = (Ok down, s2) ∧
    StronglySorted (key_lt true) up.*1 ∧ down = rev up ∧
    ∀ k ov, (k, ov) ∈ up ↔ ov = kv_view (NewCacheKVStore db1) k ∧ ov ≠ None ∧ HasPrefix k "acc:" = true.
Proof.
  apply (prefix_iterator_exact (NewCacheKVStore db1) "acc:"); [apply NewCacheKVStore_wf; exact I|discriminate].
Defined.

Lemma sub1_spec k : sub1 !! k = db1 !! ("acc:" +:+ k).
Proof.
  unfold sub1, db1. destruct (decide (k = "x")) as [->|Hx]; [vm_compute; reflexivity|].
  destruct (decide (k = "y")) as [->|Hy]; [vm_compute; reflexivity|].
  rewrite !lookup_insert_ne; [done|..]; try done; try (by intros E; apply Hx, (inj (String.append "acc:"))); by intros E; apply Hy, (inj (String.append "acc:")).
Qed.

Lemma prefix_store_isolated_witness :
  ∃ s', run_ops ops0 (mkPrefix db1 "acc:") = (Ok (map_ops ops0 sub1).1, s') ∧
    (∀ k, kv_view (ps_parent s') ("acc:" +:+ k) = (map_ops ops0 sub1).2 !! k) ∧
    (∀ x, HasPrefix x "acc:" = false → kv_view (ps_parent s') x = db1 !! x).
Proof.
  apply (prefix_store_isolated db1 "acc:" db1 sub1 ops0).
  - split; [exact I|intros k; reflexivity].
  - discriminate.
  - apply sub1_spec.
Defined.
End PrefixExample.
