(* ===== verification/GasKV.v ===== *)
(** * The gas-charging store (store/gaskvstore.go)

    A store that charges a gas meter for every operation on its parent.  The
    meter is shared with whoever holds it; here it is part of the state.  An
    iteration is charged as a client that visits the whole domain is. *)

From S2P Require Import Prelude IntType GoStrings Gas KVStore CacheKV CacheKVThms PrefixKV.
#[local] Open Scope Z_scope.

Definition GasIterNextCostFlatDesc : string := "IterNextFlat".
Definition GasValuePerByteDesc : string := "ValuePerByte".
Definition GasWriteCostFlatDesc : string := "WriteFlat".
Definition GasReadCostFlatDesc : string := "ReadFlat".
Definition GasHasDesc : string := "Has".
Definition GasDeleteDesc : string := "Delete".

Record GasKV (P : Type) := mkGasKV { gk_meter : GasMeter; gk_config : GasConfig; gk_parent : P }.
Arguments mkGasKV {P}.
Arguments gk_meter {P}.
Arguments gk_config {P}.
Arguments gk_parent {P}.

Definition NewGasKVStore {P} (meter : GasMeter) (config : GasConfig) (parent : P) : GasKV P :=
  mkGasKV meter config parent.
(** The gas layer stays on top of the prefix. *)
Definition gas_Prefix {P} (gs : GasKV P) (prefix : string) : GasKV (PrefixKV P) :=
  mkGasKV (gk_meter gs) (gk_config gs) (mkPrefix (gk_parent gs) prefix).

(** [len] of a value, which may be nil. *)
Definition value_len (v : option string) : Z := Z.of_nat (String.length (default "" v)).

Section gasKVStore.
Context {P : Type} `{KVOps P}.
Abbreviation MG := (M (GasKV P)).

Definition gk_consume (amount : Z) (descriptor : string) : MG unit :=
  zoom gk_meter (λ g s, mkGasKV g (gk_config s) (gk_parent s)) (ConsumeGas amount descriptor).
Definition gk_on {A} (c : M P A) : MG A :=
  zoom gk_parent (λ p s, mkGasKV (gk_meter s) (gk_config s) p) c.

Definition gas_Get (key : string) : MG (option string) :=
  cfg <- gets gk_config ;;
  gk_consume (ReadCostFlat cfg) GasReadCostFlatDesc ;;;
  value <- gk_on (kv_Get key) ;;
  gk_consume (wrap64 (ReadCostPerByte cfg * value_len value)) GasReadPerByteDesc ;;;
  ret value.

Definition gas_Set (key value : string) : MG unit :=
  cfg <- gets gk_config ;;
  gk_consume (WriteCostFlat cfg) GasWriteCostFlatDesc ;;;
  gk_consume (wrap64 (WriteCostPerByte cfg * value_len (Some value))) GasWritePerByteDesc ;;;
  gk_on (kv_Set key value).

Definition gas_Has (key : string) : MG bool :=
  cfg <- gets gk_config ;;
  gk_consume (HasCost cfg) GasHasDesc ;;;
  gk_on (kv_Has key).

Definition gas_Delete (key : string) : MG unit :=
  cfg <- gets gk_config ;;
  gk_consume (DeleteCost cfg) GasDeleteDesc ;;;
  gk_on (kv_Delete key).

(** ** gasIterator *)
Definition consumeSeekGas (it : Iterator) : MG unit :=
  value <- lift (mem_Value it) ;;
  cfg <- gets gk_config ;;
  gk_consume (wrap64 (ValueCostPerByte cfg * value_len value)) GasValuePerByteDesc ;;;
  gk_consume (IterNextCostFlat cfg) GasIterNextCostFlatDesc.

Definition gi_Next (it : Iterator) : MG Iterator :=
  (if mem_Valid it then consumeSeekGas it else ret tt) ;;;
  lift (mem_Next it).

Definition gas_iterator (ascending : bool) (start stop : option string) : MG Iterator :=
  gi <- gk_on (kv_iterator ascending start stop) ;;
  (if mem_Valid gi then consumeSeekGas gi else ret tt) ;;;
  ret gi.

(** The loop of a client. *)
Fixpoint gi_drain (fuel : nat) (it : Iterator) : MG Iterator :=
  match fuel with
  | O => panic "out of fuel"
  | S fuel =>
      if mem_Valid it then
        k <- lift (mem_Key it) ;; v <- lift (mem_Value it) ;;
        it <- gi_Next it ;;
        rest <- gi_drain fuel it ;;
        ret ((k, v) :: rest)
      else ret []
  end.

#[export] Instance gas_ops : KVOps (GasKV P) := {|
  kv_Get := gas_Get;
  kv_Has := gas_Has;
  kv_Set := gas_Set;
  kv_Delete := gas_Delete;
  kv_iterator asc start stop := it <- gas_iterator asc start stop ;; gi_drain (S (length it)) it |}.
End gasKVStore.

(** ** The price of an operation

    [ch] is what the meter takes for an amount with a description: the meter of a
    transaction takes less for the bytes of a long value. *)
Section price.
Variable ch : Z → string → Z.
Variable cfg : GasConfig.

Definition seek_cost (v : option string) : Z :=
  ch (wrap64 (ValueCostPerByte cfg * value_len v)) GasValuePerByteDesc + ch (IterNextCostFlat cfg) GasIterNextCostFlatDesc.
Definition items_cost (it : Iterator) : Z := sum_Z (map (λ x, seek_cost x.2) it).
(** The first entry is charged when the iterator is made and when it is left. *)
Definition iteration_cost (it : Iterator) : Z :=
  match it with [] => 0 | x :: _ => seek_cost x.2 + items_cost it end.

Definition op_cost (op : KVOp) (m : gmap string string) : Z :=
  match op with
  | OpGet k => ch (ReadCostFlat cfg) GasReadCostFlatDesc + ch (wrap64 (ReadCostPerByte cfg * value_len (m !! k))) GasReadPerByteDesc
  | OpHas _ => ch (HasCost cfg) GasHasDesc
  | OpSet _ v => ch (WriteCostFlat cfg) GasWriteCostFlatDesc + ch (wrap64 (WriteCostPerByte cfg * value_len (Some v))) GasWritePerByteDesc
  | OpDelete _ => ch (DeleteCost cfg) GasDeleteDesc
  | OpIterate asc start stop => iteration_cost (map_items asc start stop m)
  end.
Fixpoint ops_cost (ops : list KVOp) (m : gmap string string) : Z :=
  match ops with
  | [] => 0
  | op :: ops => op_cost op m + ops_cost ops (map_op op m).2
  end.
End price.

Definition is_uint64 (x : Z) : Prop := 0 ≤ x < 2^64.
Definition config_ok (cfg : GasConfig) : Prop :=
  Forall is_uint64 [HasCost cfg; DeleteCost cfg; ReadCostFlat cfg; ReadCostPerByte cfg;
    WriteCostFlat cfg; WriteCostPerByte cfg; ValueCostPerByte cfg; IterNextCostFlat cfg].

(** What a meter takes, and the meters with counters in range.  The logarithm of a
    transaction's meter stays within uint64. *)
Definition meter_charge (g : GasMeter) (amount : Z) (descriptor : string) : Z :=
  match g with
  | basicGasMeter _ _ base shift => scaled_amount base shift amount descriptor
  | infiniteGasMeter _ => amount
  end.
Definition meter_ok (g : GasMeter) : Prop :=
  match g with
  | basicGasMeter limit consumed base shift =>
      is_uint64 limit ∧ is_uint64 consumed ∧
      match base with Some log_base => ∀ a, shift < a < 2^63 - 1 → is_uint64 (log_base a) | None => True end
  | infiniteGasMeter consumed => is_uint64 consumed
  end.
Lemma meter_charge_range g a d : meter_ok g → is_uint64 a → is_uint64 (meter_charge g a d).
Proof.
  destruct g as [limit consumed [log_base|] shift|consumed]; try done. intros (_&_&Hb) Ha. simpl. case_match eqn:E; [|done].
  apply andb_true_iff in E as [[E1%Z.ltb_lt E2%Z.ltb_lt]%andb_true_iff _]. by apply Hb.
Qed.
Lemma meter_takes g a d :
  meter_ok g → is_uint64 a → ∃ o g', ConsumeGas a d g = (o, g') ∧ meter_charge g' = meter_charge g ∧
    if decide (meter_charge g a d ≤ gas_room g) then o = Ok tt ∧ meter_ok g' ∧ gas_room g' = gas_room g - meter_charge g a d else ∃ w, o = Panic w.
Proof.
  intros Hg Ha. pose proof (meter_charge_range g a d Hg Ha) as Hn. unfold is_uint64 in *.
  destruct g as [limit consumed base shift|consumed]; unfold ConsumeGas, gas_room, uint64_max.
  - destruct Hg as (Hl&Hc&Hb). unfold is_uint64 in *. cbn [meter_charge] in Hn. rewrite AddUint64Overflow_ok by lia.
    cbn [meter_charge]. set (n := scaled_amount base shift a d) in *. destruct (Z.ltb_spec (consumed + n) (2^64)).
    + destruct (Z.ltb_spec limit (consumed + n)); (eexists _, _; split; [done|]; split; [done|]); case_decide; try lia; [by eexists|].
      split; [done|]. unfold meter_ok, is_uint64. split_and!; try done; lia.
    + eexists _, _. split; [done|]. split; [done|]. rewrite decide_False by lia. by eexists.
  - cbn [meter_charge] in *. unfold meter_ok, is_uint64 in Hg. rewrite AddUint64Overflow_ok by lia. destruct (Z.ltb_spec (consumed + a) (2^64)).
    + eexists _, _. split; [done|]. split; [done|]. rewrite decide_True by lia. unfold meter_ok, is_uint64. split_and!; try done; lia.
    + eexists _, _. split; [done|]. split; [done|]. rewrite decide_False by lia. by eexists.
Qed.

(** ** Priced computations *)
Section priced.
Context {P : Type} `{KVLaws P}.
Implicit Types (s : GasKV P).

Definition gk_room s : Z := gas_room (gk_meter s).
Definition gk_ok s : Prop :=
  meter_ok (gk_meter s) ∧ 0 ≤ gk_room s ∧ config_ok (gk_config s) ∧ kv_wf (gk_parent s).
Definition pay s : Z → string → Z := meter_charge (gk_meter s).
(** Neither the costs nor what the parent stands for changed. *)
Definition gk_same s s' : Prop :=
  (gk_config s' = gk_config s ∧ pay s' = pay s) ∧ kv_wf (gk_parent s') ∧
  ∀ x, kv_view (gk_parent s') x = kv_view (gk_parent s) x.

(** [c] costs [n]: it returns when there is room for it, and panics without a
    change otherwise. *)
Record priced {A} (c : M (GasKV P) A) (s : GasKV P) (n : Z) (Q : A → GasKV P → Prop) : Prop := {
  priced_fits : n ≤ gk_room s →
    ∃ a s', c s = (Ok a, s') ∧ gk_ok s' ∧ gk_room s' = gk_room s - n ∧ Q a s';
  priced_short : gk_room s < n → ∃ w s', c s = (Panic w, s') ∧ gk_same s s' }.

Lemma gk_same_refl s : gk_ok s → gk_same s s.
Proof. by intros (_&_&_&Hw). Qed.
Lemma gk_same_trans s1 s2 s3 : gk_same s1 s2 → gk_same s2 s3 → gk_same s1 s3.
Proof. intros ([E1 P1]&_&V1) ([E2 P2]&W&V2). split_and!; [congruence|congruence|done|]. intros x. by rewrite V2. Qed.

Lemma gk_pay s s' : gk_same s s' → pay s' = pay s.
Proof. by intros ([_ E]&_). Qed.
Lemma gk_cost s s' : gk_same s s' → gk_config s' = gk_config s.
Proof. by intros ([E _]&_). Qed.
Lemma priced_weaken {A} (c : M (GasKV P) A) s n (Q Q' : A → GasKV P → Prop) :
  (∀ a s', Q a s' → Q' a s') → priced c s n Q → priced c s n Q'.
Proof.
  intros HQ [Hf Hs]. split; [|done]. intros Hn. destruct (Hf Hn) as (a&s'&?&?&?&?). eauto 10.
Qed.

Lemma priced_pure {A} (c : M (GasKV P) A) s a (Q : A → GasKV P → Prop) :
  gk_ok s → c s = (Ok a, s) → Q a s → priced c s 0 Q.
Proof.
  intros Hok Hc HQ. split.
  - intros _. exists a, s. split_and!; try done. lia.
  - destruct Hok as (_&?&_). lia.
Qed.

Lemma priced_bind {A B} (c : M (GasKV P) A) (k : A → M (GasKV P) B) s n n' R Q :
  0 ≤ n → 0 ≤ n' → priced c s n (λ a s', gk_same s s' ∧ R a) →
  (∀ a s', gk_ok s' → gk_same s s' → R a → priced (k a) s' n' Q) →
  priced (bind c k) s (n + n') Q.
Proof.
  intros Hn Hn' [Hf Hs] Hk. split.
  - intros Hr. destruct Hf as (a&s1&Hc&Hok&Hr1&Hsame&HR); [lia|]. rewrite (bind_run _ _ _ _ _ Hc).
    destruct (Hk a s1 Hok Hsame HR) as [Hf' _]. destruct Hf' as (b&s2&Hk2&Hok2&Hr2&HQ); [lia|].
    exists b, s2. split_and!; try done. lia.
  - intros Hr. destruct (decide (n ≤ gk_room s)) as [Hle|Hgt].
    + destruct (Hf Hle) as (a&s1&Hc&Hok&Hr1&Hsame&HR). rewrite (bind_run _ _ _ _ _ Hc).
      destruct (Hk a s1 Hok Hsame HR) as [_ Hs']. destruct Hs' as (w&s2&Hk2&Hsame2); [lia|].
      exists w, s2. split; [done|]. by eapply gk_same_trans.
    + destruct Hs as (w&s1&Hc&Hsame); [lia|]. exists w, s1. by rewrite (bind_panic _ _ _ _ _ Hc).
Qed.

(** A free step in front. *)
Lemma priced_bind_pure {A B} (c : M (GasKV P) A) (k : A → M (GasKV P) B) s a n Q :
  c s = (Ok a, s) → priced (k a) s n Q → priced (bind c k) s n Q.
Proof. intros Hc [Hf Hs]. split; rewrite (bind_run _ _ _ _ _ Hc); done. Qed.

Lemma priced_consume s a d :
  gk_ok s → is_uint64 a → priced (gk_consume a d) s (pay s a d) (λ _ s', gk_same s s' ∧ True).
Proof.
  intros (Hg&Hr&Hc&Hw) Ha. unfold gk_consume, zoom. destruct (meter_takes (gk_meter s) a d Hg Ha) as (o&g'&Hrun&Ec&Ho).
  split; intros Hn; rewrite Hrun.
  - rewrite decide_True in Ho by done. destruct Ho as (->&Hg'&Hr'). eexists _, _. split; [done|].
    unfold gk_ok, gk_room, gk_same, pay in *. simpl. rewrite Hr'. split_and!; try done; lia.
  - rewrite decide_False in Ho by (unfold gk_room, pay in Hn; lia). destruct Ho as [w ->]. by eexists _, _.
Qed.
Lemma pay_range s a d : gk_ok s → is_uint64 a → is_uint64 (pay s a d).
Proof. intros (Hg&_). by apply meter_charge_range. Qed.

(** A step of the parent is free. *)
Lemma priced_on {A} (c : M P A) s a p' (Q : A → GasKV P → Prop) :
  gk_ok s → c (gk_parent s) = (Ok a, p') → kv_wf p' →
  Q a (mkGasKV (gk_meter s) (gk_config s) p') → priced (gk_on c) s 0 Q.
Proof.
  intros (Hg&Hr&Hc&Hw) Hrun Hw' HQ. unfold gk_on, zoom. split.
  - intros _. rewrite Hrun. eexists _, _. split; [done|]. split_and!; try done. unfold gk_room. simpl. lia.
  - lia.
Qed.

(** ** The operations are priced *)
Lemma wrap64_uint64 x : is_uint64 (wrap64 x).
Proof. apply Z.mod_pos_bound. lia. Qed.
Lemma uint64_nonneg x : is_uint64 x → 0 ≤ x.
Proof. by intros []. Qed.
Lemma config_costs s : gk_ok s → config_ok (gk_config s).
Proof. by intros (_&_&?&_). Qed.
(** A way of charging that stays within uint64. *)
Definition charges_ok (ch : Z → string → Z) : Prop := ∀ a d, is_uint64 a → is_uint64 (ch a d).
Lemma pay_ok s : gk_ok s → charges_ok (pay s).
Proof. intros Hok a d. by apply pay_range. Qed.
Lemma seek_cost_nonneg ch cfg v : charges_ok ch → config_ok cfg → 0 ≤ seek_cost ch cfg v.
Proof.
  intros Hp Hc. unfold seek_cost. pose proof (uint64_nonneg _ (Hp _ GasValuePerByteDesc (wrap64_uint64 (ValueCostPerByte cfg * value_len v)))).
  unfold config_ok in Hc. rewrite !Forall_cons in Hc. assert (is_uint64 (IterNextCostFlat cfg)) as Hi by apply Hc.
  pose proof (uint64_nonneg _ (Hp _ GasIterNextCostFlatDesc Hi)). lia.
Qed.
Lemma items_cost_nonneg ch cfg it : charges_ok ch → config_ok cfg → 0 ≤ items_cost ch cfg it.
Proof.
  intros Hp Hc. unfold items_cost. induction it as [|x it IH]; csimpl; [done|].
  pose proof (seek_cost_nonneg ch cfg x.2 Hp Hc). unfold sum_Z in *. simpl. lia.
Qed.

Ltac cost :=
  lazymatch goal with |- 0 ≤ _ => apply uint64_nonneg | _ => idtac end;
  first [ apply pay_range; [done|] | match goal with Hp : charges_ok _ |- _ => apply Hp end | idtac ];
  repeat match goal with
  | Hok : gk_ok ?s |- _ => lazymatch goal with
      | _ : config_ok (gk_config s) |- _ => fail
      | _ => pose proof (config_costs s Hok) end
  end;
  first
    [ apply wrap64_uint64
    | match goal with Hc : config_ok _ |- _ =>
        unfold config_ok in Hc; rewrite !Forall_cons in Hc; unfold is_uint64 in *; destruct_and?; lia end ].

Lemma priced_seek s x it :
  gk_ok s → priced (consumeSeekGas (x :: it)) s (seek_cost (pay s) (gk_config s) x.2) (λ _ s', gk_same s s' ∧ True).
Proof.
  intros Hok. destruct x as [k v]. unfold consumeSeekGas, seek_cost.
  apply (priced_bind_pure _ _ s v); [done|]. apply (priced_bind_pure _ _ s (gk_config s)); [done|].
  eapply priced_bind; [cost|cost|apply priced_consume; [done|cost]|].
  intros _ s' Hok' Hs' _. rewrite <-(gk_pay _ _ Hs'). eapply priced_weaken; [|apply priced_consume; [done|cost]].
  intros _ s2 [Hs2 _]. split; [|done]. by eapply gk_same_trans.
Qed.

Lemma priced_drain fuel it s :
  gk_ok s → (length it < fuel)%nat →
  priced (gi_drain fuel it) s (items_cost (pay s) (gk_config s) it) (λ r s', gk_same s s' ∧ r = it).
Proof.
  revert it s. induction fuel as [|fuel IH]; intros it s Hok Hf; [lia|]. destruct it as [|[k v] it]; cbn [gi_drain mem_Valid].
  { apply (priced_pure _ s []); [done|done|]. split; [by apply gk_same_refl|done]. }
  apply (priced_bind_pure _ _ s k); [done|]. apply (priced_bind_pure _ _ s v); [done|].
  change (items_cost (pay s) (gk_config s) ((k, v) :: it)) with (seek_cost (pay s) (gk_config s) v + items_cost (pay s) (gk_config s) it).
  pose proof (config_costs s Hok) as Hc. pose proof (pay_ok s Hok) as Hp.
  apply (priced_bind _ _ s _ _ (λ r, r = it)); [by apply seek_cost_nonneg|by apply items_cost_nonneg| |].
  - unfold gi_Next. cbn [mem_Valid]. rewrite <-(Z.add_0_r (seek_cost _ _ _)).
    eapply priced_bind; [by apply seek_cost_nonneg|done|by apply (priced_seek s (k, v) it)|].
    intros _ s' Hok' Hs' _. by apply (priced_pure _ s' it).
  - intros r s' Hok' Hs' ->. pose proof (gk_cost _ _ Hs') as Ec. rewrite <-Ec, <-(gk_pay _ _ Hs'), <-(Z.add_0_r (items_cost _ _ _)).
    apply (priced_bind _ _ s' _ _ (λ r, r = it)); [|done| |].
    + apply items_cost_nonneg; [by apply pay_ok|by rewrite Ec].
    + apply IH; [done|]. simpl in Hf. lia.
    + intros r s2 Hok2 Hs2 ->. apply (priced_pure _ s2 ((k, v) :: it)); [done|done|]. split; [|done].
      by eapply gk_same_trans.
Qed.

Lemma stands_for_same s s' m :
  gk_same s s' → stands_for (gk_parent s) m → stands_for (gk_parent s') m.
Proof. intros (_&Hw&Hv) [_ Hm]. split; [done|]. intros x. by rewrite Hv. Qed.

(** The state after an operation, and its answer. *)
Definition op_done (op : KVOp) (m : gmap string string) s (r : KVRes) s' : Prop :=
  (gk_config s' = gk_config s ∧ pay s' = pay s) ∧ stands_for (gk_parent s') (map_op op m).2 ∧ r = (map_op op m).1.

Lemma priced_map {A B} (c : M (GasKV P) A) (f : A → B) s n Q :
  priced c s n (λ a s', Q (f a) s') → priced (bind c (λ a, ret (f a))) s n Q.
Proof.
  intros [Hf Hs]. split; intros Hn.
  - destruct (Hf Hn) as (a&s'&Hc&?&?&?). exists (f a), s'. by rewrite (bind_run _ _ _ _ _ Hc).
  - destruct (Hs Hn) as (w&s'&Hc&?). exists w, s'. by rewrite (bind_panic _ _ _ _ _ Hc).
Qed.

(** Charge, then go on. *)
Lemma priced_charge {B} a d (k : unit → M (GasKV P) B) s n Q :
  gk_ok s → is_uint64 a → 0 ≤ n →
  (∀ s', gk_ok s' → gk_same s s' → priced (k tt) s' n Q) → priced (bind (gk_consume a d) k) s (pay s a d + n) Q.
Proof.
  intros Hok Ha Hn Hk. eapply priced_bind; [by apply uint64_nonneg, pay_range|done|by apply priced_consume|].
  intros [] s' Hok' Hs' _. by apply Hk.
Qed.

(** Read the parent, then go on. *)
Lemma priced_read {A B} (c : M P A) a p' (k : A → M (GasKV P) B) s n Q :
  gk_ok s → c (gk_parent s) = (Ok a, p') → kv_wf p' →
  (∀ x, kv_view p' x = kv_view (gk_parent s) x) → 0 ≤ n →
  (∀ s', gk_ok s' → gk_same s s' → priced (k a) s' n Q) → priced (bind (gk_on c) k) s n Q.
Proof.
  intros Hok Hc Hw Hv Hn Hk. rewrite <-(Z.add_0_l n).
  apply (priced_bind _ _ _ _ _ (λ r, r = a)); [done|done| |intros ? s' Hok' Hs' ->; by apply Hk].
  by eapply priced_on.
Qed.

Lemma priced_charge_last {B} a d (k : unit → M (GasKV P) B) s Q :
  gk_ok s → is_uint64 a →
  (∀ s', gk_ok s' → gk_same s s' → priced (k tt) s' 0 Q) → priced (bind (gk_consume a d) k) s (pay s a d) Q.
Proof. intros. rewrite <-(Z.add_0_r (pay s a d)). by apply priced_charge. Qed.

(** Act on the parent at the end. *)
Lemma priced_finish {A} (c : M P A) (mk : A → KVRes) s s1 op m a p' :
  gk_ok s1 → gk_same s s1 → bind c (λ a, ret (mk a)) (gk_parent s1) = (Ok a, p') →
  a = (map_op op m).1 → stands_for p' (map_op op m).2 →
  priced (gk_on c) s1 0 (λ a s', op_done op m s (mk a) s').
Proof.
  intros Hok (Ec&_) Hrun Ha Hm. inv_ok Hrun. eapply priced_on; [done|exact E|apply Hm|]. split; [exact Ec|by split].
Qed.

Lemma op_done_read op m s s' r :
  stands_for (gk_parent s) m → gk_same s s' → map_op op m = (r, m) → op_done op m s r s'.
Proof. intros Hm Hs Hr. unfold op_done. rewrite Hr. split; [apply Hs|]. split; [|done]. by apply (stands_for_same s). Qed.

Definition open_cost (ch : Z → string → Z) (cfg : GasConfig) (it : Iterator) : Z :=
  match it with [] => 0 | x :: _ => seek_cost ch cfg x.2 end.

Lemma gas_iterator_priced asc start stop s m :
  gk_ok s → stands_for (gk_parent s) m →
  let it := map_items asc start stop m in
  priced (gas_iterator asc start stop) s (open_cost (pay s) (gk_config s) it) (λ r s', gk_same s s' ∧ r = it).
Proof.
  intros Hok Hm it. pose proof (config_costs s Hok) as Hcfg. pose proof (pay_ok s Hok) as Hpay.
  destruct (run_op_sim (OpIterate asc start stop) _ _ Hm) as (p'&Hr&Hw'&Hv'). unfold run_op in Hr.
  cbn [map_op fst snd] in *. inv_ok Hr. fold it in E.
  eapply (priced_read _ it p'); [done|done|done|intros x; rewrite Hv'; symmetry; apply Hm| |].
  - unfold open_cost. destruct it; [done|by apply seek_cost_nonneg].
  - intros s1 Hok1 Hs1. clearbody it. destruct it as [|x it]; simpl.
    + apply (priced_pure _ s1 []); by eauto using gk_same_refl.
    + pose proof (gk_cost _ _ Hs1) as Ec. rewrite <-Ec, <-(gk_pay _ _ Hs1), <-(Z.add_0_r (seek_cost _ _ _)).
      eapply priced_bind; [apply seek_cost_nonneg; [by apply pay_ok|by rewrite Ec]|done|by apply priced_seek|].
      intros _ s2 Hok2 Hs2 _. apply (priced_pure _ s2 (x :: it)); [done|done|]. split; [|done].
      by apply (gk_same_trans s s1).
Qed.

Lemma gas_iteration_priced asc start stop s m :
  gk_ok s → stands_for (gk_parent s) m →
  priced (kv_iterator asc start stop) s (iteration_cost (pay s) (gk_config s) (map_items asc start stop m))
    (λ it s', op_done (OpIterate asc start stop) m s (RItems it) s').
Proof.
  intros Hok Hm. pose proof (config_costs s Hok) as Hcfg. pose proof (pay_ok s Hok) as Hpay.
  pose proof (gas_iterator_priced asc start stop s m Hok Hm) as Hopen.
  assert (Hpost : ∀ s1, gk_same s s1 → op_done (OpIterate asc start stop) m s (RItems (map_items asc start stop m)) s1)
    by (intros; by apply op_done_read).
  set (it := map_items asc start stop m) in *. cbv zeta in Hopen.
  replace (iteration_cost (pay s) (gk_config s) it) with (open_cost (pay s) (gk_config s) it + items_cost (pay s) (gk_config s) it)
    by (by destruct it).
  apply (priced_bind _ _ _ _ _ (λ r, r = it)); [|by apply items_cost_nonneg|done|].
  - unfold open_cost. destruct it; [done|by apply seek_cost_nonneg].
  - intros r s1 Hok1 Hs1 ->. rewrite <-(gk_cost _ _ Hs1), <-(gk_pay _ _ Hs1).
    eapply priced_weaken; [|apply priced_drain; [done|lia]].
    intros r s2 [Hs2 ->]. apply Hpost. by eapply gk_same_trans.
Qed.

Lemma gas_op_priced op s m :
  gk_ok s → stands_for (gk_parent s) m →
  priced (run_op op) s (op_cost (pay s) (gk_config s) op m) (op_done op m s).
Proof.
  intros Hok Hm. pose proof (config_costs s Hok) as Hcfg. pose proof (pay_ok s Hok) as Hpay.
  destruct op as [k|k|k v|k|asc start stop]; unfold run_op, op_cost; apply priced_map;
    try (apply (priced_bind_pure _ _ s (gk_config s)); [done|]).
  - apply priced_charge; [done|cost|cost|]. intros s1 Hok1 Hs1.
    destruct (stands_for_same _ _ _ Hs1 Hm) as [Hw1 Hv1]. destruct (law_Get k _ Hw1) as (p'&Hr&Hw'&Hv').
    rewrite Hv1 in Hr. eapply priced_read; [done..|cost|]. intros s2 Hok2 Hs2.
    rewrite <-(gk_pay _ _ Hs1), <-(gk_pay _ _ Hs2). apply priced_charge_last; [done|cost|]. intros s3 Hok3 Hs3.
    apply (priced_pure _ s3 (m !! k)); [done|done|].
    apply op_done_read; [done|eauto using gk_same_trans|done].
  - apply priced_charge_last; [done|cost|]. intros s1 Hok1 Hs1.
    destruct (run_op_sim (OpHas k) _ _ (stands_for_same _ _ _ Hs1 Hm)) as (p'&Hr&Hm').
    by eapply priced_finish.
  - apply priced_charge; [done|cost|cost|]. intros s1 Hok1 Hs1.
    rewrite <-(gk_pay _ _ Hs1). apply priced_charge_last; [done|cost|]. intros s2 Hok2 Hs2.
    assert (gk_same s s2) as Hs by (eauto using gk_same_trans).
    destruct (run_op_sim (OpSet k v) _ _ (stands_for_same _ _ _ Hs Hm)) as (p'&Hr&Hm').
    by apply (priced_finish _ (λ _, RUnit) _ _ _ _ _ _ Hok2 Hs Hr).
  - apply priced_charge_last; [done|cost|]. intros s1 Hok1 Hs1.
    destruct (run_op_sim (OpDelete k) _ _ (stands_for_same _ _ _ Hs1 Hm)) as (p'&Hr&Hm').
    by apply (priced_finish _ (λ _, RUnit) _ _ _ _ _ _ Hok1 Hs1 Hr).
  - by apply gas_iteration_priced.
Qed.

Lemma op_cost_nonneg ch cfg op m : charges_ok ch → config_ok cfg → 0 ≤ op_cost ch cfg op m.
Proof.
  intros Hp Hc. destruct op as [k|k|k v|k|asc start stop]; simpl; [apply Z.add_nonneg_nonneg; cost|cost|apply Z.add_nonneg_nonneg; cost|cost|].
  unfold iteration_cost. destruct (map_items asc start stop m) as [|x it]; [done|].
  pose proof (seek_cost_nonneg ch cfg x.2 Hp Hc). pose proof (items_cost_nonneg ch cfg (x :: it) Hp Hc). lia.
Qed.
Lemma ops_cost_nonneg ch cfg ops m : charges_ok ch → config_ok cfg → 0 ≤ ops_cost ch cfg ops m.
Proof.
  intros Hp Hc. revert m. induction ops as [|op ops IH]; intros m; simpl; [done|].
  pose proof (op_cost_nonneg ch cfg op m Hp Hc). pose proof (IH (map_op op m).2). lia.
Qed.

(** C33. The operations of a gas store on top of a store that stands for a mapping
    return what the mapping returns and take exactly their price off the meter
    when the whole sequence fits; otherwise they panic at the first operation
    that does not fit, and the parent is left as the operations before it made
    it: no operation takes effect without being paid.  The price is that of the
    meter: a basic or an infinite one, or the meter of a transaction, which takes
    the logarithm of what the bytes of a long value cost. *)
Theorem gas_store_metered (s : GasKV P) (m : gmap string string) (ops : list KVOp)
    (Hok : gk_ok s) (Hm : stands_for (gk_parent s) m) :
  (ops_cost (pay s) (gk_config s) ops m ≤ gk_room s →
   ∃ s', run_ops ops s = (Ok (map_ops ops m).1, s') ∧
     stands_for (gk_parent s') (map_ops ops m).2 ∧
     gk_room s' = gk_room s - ops_cost (pay s) (gk_config s) ops m) ∧
  (gk_room s < ops_cost (pay s) (gk_config s) ops m →
   ∃ w s' before op after, run_ops ops s = (Panic w, s') ∧ ops = before ++ op :: after ∧
     ops_cost (pay s) (gk_config s) before m ≤ gk_room s < ops_cost (pay s) (gk_config s) (before ++ [op]) m ∧
     stands_for (gk_parent s') (map_ops before m).2).
Proof.
  revert s m Hok Hm. induction ops as [|op ops IH]; intros s m Hok Hm.
  - split; [intros _; exists s; by rewrite Z.sub_0_r|]. destruct Hok as (_&?&_). simpl. lia.
  - destruct (gas_op_priced op s m Hok Hm) as [Hf Hs]. cbn [run_ops map_ops ops_cost].
    destruct (decide (op_cost (pay s) (gk_config s) op m ≤ gk_room s)) as [Hle|Hgt].
    + destruct (Hf Hle) as (r&s1&Hr&Hok1&Hroom&[Ec Ep]&Hm1&->). rewrite (bind_run _ _ _ _ _ Hr).
      destruct (IH s1 _ Hok1 Hm1) as [IHf IHs]. rewrite Ec, Ep in IHf, IHs. destruct (map_op op m) as [r m1] eqn:Eop.
      cbn [fst snd] in *. destruct (map_ops ops m1) as [rs m2] eqn:Eops. cbn [fst snd] in *. split; intros Hn.
      * destruct IHf as (s2&Hr2&Hm2&Hroom2); [lia|]. exists s2. rewrite (bind_run _ _ _ _ _ Hr2).
        split_and!; [done|done|lia].
      * destruct IHs as (w&s2&before&o&after&Hr2&->&Hb&Hm2); [lia|].
        exists w, s2, (op :: before), o, after. rewrite (bind_panic _ _ _ _ _ Hr2). cbn [ops_cost map_ops app].
        rewrite Eop. cbn [snd]. split_and!; [done|done|lia|lia|]. by destruct (map_ops before m1).
    + split; [|intros _].
      * pose proof (ops_cost_nonneg (pay s) (gk_config s) ops (map_op op m).2 (pay_ok s Hok) (config_costs s Hok)). lia.
      * destruct Hs as (w&s1&Hr&Hsame); [lia|]. exists w, s1, [], op, ops. rewrite (bind_panic _ _ _ _ _ Hr).
        destruct Hok as (_&?&_). cbn. split_and!; [done|done|lia|lia|by apply (stands_for_same s)].
Qed.
End priced.

Module GasExample.
Import MemStore PrefixExample.

(** Gas over a prefix over a cache over the store. *)
Definition gs0 : GasKV (PrefixKV (CacheKV (gmap string string))) :=
  gas_Prefix (NewGasKVStore (NewGasMeter 200) KVGasConfig (NewCacheKVStore db1)) "acc:".
Definition gas_ops0 : list KVOp := [OpGet "x"; OpSet "z" "30"; OpHas "y"; OpDelete "x"].
Definition gas_ops1 : list KVOp := gas_ops0 ++ [OpSet "y" "0123456789012345"; OpDelete "z"].

Lemma gs0_ok : gk_ok gs0.
Proof.
  split; [by vm_compute|]. split; [by vm_compute|]. split; [by repeat constructor|].
  split; [apply NewCacheKVStore_wf; exact I|discriminate].
Qed.
Lemma gs0_sub : stands_for (gk_parent gs0) sub1.
Proof. split; [apply gs0_ok|]. intros k. symmetry. apply sub1_spec. Qed.

(** The same store in a transaction, whose meter takes less for a long value. *)
Definition gs1 : GasKV (PrefixKV (CacheKV (gmap string string))) :=
  gas_Prefix (NewGasKVStore (NewGasMeterWithBase 200 (Some Z.log2) 100) KVGasConfig (NewCacheKVStore db1)) "acc:".
Lemma gs1_ok : gk_ok gs1.
Proof.
  split; [|split; [by vm_compute|split; [by repeat constructor|split; [apply NewCacheKVStore_wf; exact I|discriminate]]]].
  split; [by vm_compute|]. split; [by vm_compute|]. intros a Ha. split; [apply Z.log2_nonneg|]. assert (Z.log2 a < 63); [apply Z.log2_lt_pow2; lia|lia].
Qed.
Lemma gas_store_metered_witness :
  (∃ s', run_ops gas_ops1 gs1 = (Ok (map_ops gas_ops1 sub1).1, s') ∧ gk_room s' = gk_room gs1 - ops_cost (pay gs1) (gk_config gs1) gas_ops1 sub1) ∧
  (∃ s', run_ops gas_ops0 gs0 = (Ok (map_ops gas_ops0 sub1).1, s') ∧
     stands_for (gk_parent s') (map_ops gas_ops0 sub1).2 ∧
     gk_room s' = gk_room gs0 - ops_cost (pay gs0) (gk_config gs0) gas_ops0 sub1) ∧
  (∃ w s' before op after, run_ops gas_ops1 gs0 = (Panic w, s') ∧ gas_ops1 = before ++ op :: after ∧
     ops_cost (pay gs0) (gk_config gs0) before sub1 ≤ gk_room gs0 < ops_cost (pay gs0) (gk_config gs0) (before ++ [op]) sub1 ∧
     stands_for (gk_parent s') (map_ops before sub1).2).
Proof.
  split_and!.
  - destruct (gas_store_metered gs1 sub1 gas_ops1 gs1_ok) as [Hf _]; [split; [apply gs1_ok|]; intros k; symmetry; apply sub1_spec|].
    destruct Hf as (s'&Hr&_&Hroom); [vm_compute; discriminate|]. exists s'. split; [exact Hr|exact Hroom].
  - apply (gas_store_metered gs0 sub1 gas_ops0 gs0_ok gs0_sub). vm_compute. discriminate.
  - apply (gas_store_metered gs0 sub1 gas_ops1 gs0_ok gs0_sub). vm_compute. reflexivity.
Defined.
End GasExample.
