(* ===== verification/Sha256.v ===== *)
(** * SHA-256 (types/utils.go, crypto/sha256)

    The hash the modules use, on byte strings, as FIPS 180-4 defines it: 32-bit
    words are integers reduced modulo [2^32]. *)

From Stdlib Require Import Ascii.
From S2P Require Import Prelude GoStrings.
#[local] Open Scope Z_scope.

Definition w32 (x : Z) : Z := x mod 2^32.
Definition rotr (n x : Z) : Z := Z.lor (Z.shiftr x n) (w32 (Z.shiftl x (32 - n))).
Definition Ch (x y z : Z) : Z := Z.lxor (Z.land x y) (Z.land (Z.lxor x (2^32 - 1)) z).
Definition Maj (x y z : Z) : Z := Z.lxor (Z.lxor (Z.land x y) (Z.land x z)) (Z.land y z).
Definition Sigma0 (x : Z) : Z := Z.lxor (Z.lxor (rotr 2 x) (rotr 13 x)) (rotr 22 x).
Definition Sigma1 (x : Z) : Z := Z.lxor (Z.lxor (rotr 6 x) (rotr 11 x)) (rotr 25 x).
Definition sigma0 (x : Z) : Z := Z.lxor (Z.lxor (rotr 7 x) (rotr 18 x)) (Z.shiftr x 3).
Definition sigma1 (x : Z) : Z := Z.lxor (Z.lxor (rotr 17 x) (rotr 19 x)) (Z.shiftr x 10).

(** The constants are the first 32 bits of the fractional parts of the cube roots
    of the first 64 primes, and of the square roots of the first 8. *)
Definition is_prime (n : Z) : bool :=
  forallb (λ d, negb (n mod d =? 0)) (seqZ 2 (n - 2)).
Definition primes (n : nat) : list Z := take n (List.filter is_prime (seqZ 2 320)).

(** The largest [r] below [2^n] added to [acc] whose power [k] is at most [x]. *)
Fixpoint int_root (k x : Z) (n : nat) (acc : Z) : Z :=
  match n with
  | O => acc
  | S n =>
      let acc' := acc + 2 ^ Z.of_nat n in
      int_root k x n (if acc' ^ k <=? x then acc' else acc)
  end.
Definition root_bits (k p : Z) : Z := w32 (int_root k (p * 2 ^ (32 * k)) 40 0).

Definition sha_K : list Z := Eval vm_compute in map (root_bits 3) (primes 64).
Definition sha_H0 : list Z := Eval vm_compute in map (root_bits 2) (primes 8).

(** The message schedule, most recent word first: each step needs the words
    2, 7, 15 and 16 positions back. *)
Fixpoint schedule (n : nat) (w : list Z) : list Z :=
  match n with
  | O => w
  | S n =>
      let at' i := nth i w 0 in
      schedule n (w32 (sigma1 (at' 1%nat) + at' 6%nat + sigma0 (at' 14%nat) + at' 15%nat) :: w)
  end.

Definition sha_round (st : list Z) (kw : Z * Z) : list Z :=
  match st with
  | [a; b; c; d; e; f; g; h] =>
      let t1 := h + Sigma1 e + Ch e f g + kw.1 + kw.2 in
      let t2 := Sigma0 a + Maj a b c in
      [w32 (t1 + t2); a; b; c; w32 (d + t1); e; f; g]
  | _ => st
  end.

Definition sha_block (st : list Z) (block : list Z) : list Z :=
  let ws := rev (schedule 48 (rev block)) in
  zip_with (λ x y, w32 (x + y)) st (foldl sha_round st (zip sha_K ws)).

(** Big-endian words of a byte sequence, and back. *)
Fixpoint be_words (l : list Z) : list Z :=
  match l with
  | a :: b :: c :: d :: l => (a * 2^24 + b * 2^16 + c * 2^8 + d) :: be_words l
  | _ => []
  end.

Definition be_bytes (x : Z) : list Z :=
  map (λ s, Z.land (Z.shiftr x s) 255) [24; 16; 8; 0].

Definition sha_pad (l : list Z) : list Z :=
  let n := length l in
  let k := ((55 + 64 - n mod 64) mod 64)%nat in
  l ++ [128] ++ replicate k 0 ++
  map (λ s, Z.land (Z.shiftr (8 * Z.of_nat n) s) 255) [56; 48; 40; 32; 24; 16; 8; 0].

(** [n] blocks of sixteen words. *)
Fixpoint sha_blocks (n : nat) (ws : list Z) (st : list Z) : list Z :=
  match n with
  | O => st
  | S n => sha_blocks n (drop 16 ws) (sha_block st (take 16 ws))
  end.

Definition SHA256 (data : string) : string :=
  let bytes := sha_pad (byte_val <$> chars data) in
  let st := sha_blocks (length bytes / 64) (be_words bytes) sha_H0 in
  str (map (λ b, Ascii.ascii_of_N (Z.to_N b)) (st ≫= be_bytes)).

(** ** Test vectors of FIPS 180-4 *)
Definition to_hex (s : string) : string :=
  let nibble n := nth (Z.to_nat n) (chars "0123456789abcdef") "0"%char in
  str (chars s ≫= λ c, [nibble (byte_val c / 16); nibble (byte_val c mod 16)]).

Example SHA256_abc :
  to_hex (SHA256 "abc") = "ba7816bf8f01cfea414140de5dae2223b00361a396177a9cb410ff61f20015ad".
Proof. vm_compute. reflexivity. Qed.

Example SHA256_empty :
  to_hex (SHA256 "") = "e3b0c44298fc1c149afbf4c8996fb92427ae41e4649b934ca495991b7852b855".
Proof. vm_compute. reflexivity. Qed.

Example SHA256_two_blocks :
  to_hex (SHA256 "abcdbcdecdefdefgefghfghighijhijkijkljklmklmnlmnomnopnopq") =
  "248d6a61d20638b8e5c026930c3e6039a33ce45964ff2167f6ecedd419db06c1".
Proof. vm_compute. reflexivity. Qed.

(** ** The length of a hash *)
Lemma sha_round_length st kw : length (sha_round st kw) = length st.
Proof.
  unfold sha_round. by destruct st as [|? [|? [|? [|? [|? [|? [|? [|? [|]]]]]]]]].
Qed.

Lemma sha_rounds_length kws st : length (foldl sha_round st kws) = length st.
Proof.
  revert st. induction kws as [|kw kws IH]; intros st; [done|]. simpl.
  by rewrite IH, sha_round_length.
Qed.

Lemma sha_blocks_length n ws st : length (sha_blocks n ws st) = length st.
Proof.
  revert ws st. induction n as [|n IH]; intros ws st; [done|]. cbn [sha_blocks].
  rewrite IH. unfold sha_block. rewrite length_zip_with, sha_rounds_length. lia.
Qed.

Lemma SHA256_length data : str_len (SHA256 data) = 32%nat.
Proof.
  unfold str_len, SHA256. rewrite chars_str, length_map.
  set (st := sha_blocks _ _ _). assert (Hl : length st = 8%nat) by apply sha_blocks_length.
  clearbody st. clear data.
  assert (H : length (st ≫= be_bytes) = (4 * length st)%nat).
  { clear Hl. induction st as [|x st IH]; [done|]. rewrite bind_cons, length_app, IH. simpl. lia. }
  lia.
Qed.
