(* ===== verification/Auth.v ===== *)
(** * Accounts (app/v1/auth/keeper.go, app/v1/auth/account.go)

    The account store: accounts by address, the account number counter, the
    amount of loose native tokens and the supply of the other tokens.  These
    live in one store under disjoint key prefixes; each prefix is a field of
    [AuthState].  The gas meter of the context is part of the state; the gas
    charged by the store itself per byte is not represented. *)

From S2P Require Import Prelude SdkErrors IntType GoStrings Denom Coin CoinFacts Gas KVStore.
#[local] Open Scope Z_scope.

(** Tendermint's address hash of a byte string. *)
Class Crypto := { AddressHash : string → string }.

Abbreviation AccAddress := string (only parsing).

Definition AccAddress_Empty (aa : AccAddress) : bool := bool_decide (aa = "").
Definition AccAddress_Equals (aa aa2 : AccAddress) : bool :=
  if AccAddress_Empty aa && AccAddress_Empty aa2 then true
  else match String.compare aa aa2 with Eq => true | _ => false end.

Lemma AccAddress_Equals_iff a b : AccAddress_Equals a b = true ↔ a = b.
Proof.
  unfold AccAddress_Equals, AccAddress_Empty.
  destruct (bool_decide (a = "") && bool_decide (b = "")) eqn:E.
  - zbool. by subst.
  - destruct (str_compareP a b) as [->|H|H]; split; try done; intros ->; by apply str_lt_irrefl in H.
Qed.

(** ** Special addresses *)
Section addresses.
Context `{Crypto}.
Definition BurnedCoinsAccAddr : AccAddress := AddressHash "burnedCoins".
Definition GovDepositCoinsAccAddr : AccAddress := AddressHash "govDepositedCoins".
Definition CommunityTaxCoinsAccAddr : AccAddress := AddressHash "communityTaxCoins".
Definition ServiceDepositCoinsAccAddr : AccAddress := AddressHash "serviceDepositedCoins".
Definition ServiceRequestCoinsAccAddr : AccAddress := AddressHash "serviceRequestCoins".
Definition ServiceTaxCoinsAccAddr : AccAddress := AddressHash "serviceTaxCoins".
Definition HTLCLockedCoinsAccAddr : AccAddress := AddressHash "HTLCLockedCoins".
End addresses.

(** ** Public keys

    The key types of Tendermint that the code tells apart; the bytes of a key are
    opaque. *)
Inductive PubKey :=
| PubKeyEd25519 (bz : string)
| PubKeySecp256k1 (bz : string)
| PubKeyMultisigThreshold (K : Z) (PubKeys : list PubKey)
| PubKeyOther (name bz : string).

(** ** BaseAccount *)
Record BaseAccount := mkAccount {
  acc_Address : AccAddress;
  acc_Coins : Coins;
  acc_PubKey : option PubKey;
  acc_AccountNumber : Z;
  acc_Sequence : Z;
  acc_MemoRegexp : string }.

Definition ProtoBaseAccount : BaseAccount := mkAccount "" [] None 0 0 "".
Definition NewBaseAccountWithAddress (addr : AccAddress) : BaseAccount :=
  mkAccount addr [] None 0 0 "".

Definition SetAddress (acc : BaseAccount) (addr : AccAddress) : option BaseAccount :=
  if bool_decide (str_len (acc_Address acc) ≠ 0%nat) then None
  else Some (mkAccount addr (acc_Coins acc) (acc_PubKey acc) (acc_AccountNumber acc)
               (acc_Sequence acc) (acc_MemoRegexp acc)).
Definition SetPubKey (acc : BaseAccount) (pk : option PubKey) : BaseAccount :=
  mkAccount (acc_Address acc) (acc_Coins acc) pk (acc_AccountNumber acc)
    (acc_Sequence acc) (acc_MemoRegexp acc).
Definition SetCoins (acc : BaseAccount) (coins : Coins) : BaseAccount :=
  mkAccount (acc_Address acc) coins (acc_PubKey acc) (acc_AccountNumber acc)
    (acc_Sequence acc) (acc_MemoRegexp acc).
Definition SetAccountNumber (acc : BaseAccount) (n : Z) : BaseAccount :=
  mkAccount (acc_Address acc) (acc_Coins acc) (acc_PubKey acc) n
    (acc_Sequence acc) (acc_MemoRegexp acc).
Definition SetSequence (acc : BaseAccount) (seq : Z) : BaseAccount :=
  mkAccount (acc_Address acc) (acc_Coins acc) (acc_PubKey acc) (acc_AccountNumber acc)
    seq (acc_MemoRegexp acc).
Definition Account_SetMemoRegexp (acc : BaseAccount) (regexp : string) : BaseAccount :=
  mkAccount (acc_Address acc) (acc_Coins acc) (acc_PubKey acc) (acc_AccountNumber acc)
    (acc_Sequence acc) regexp.

(** ** The store *)
Record AuthState := mkAuth {
  accounts : gmap AccAddress BaseAccount;
  globalAccountNumber : option Z;
  totalLoosenToken : option Coins;
  totalSupply : gmap string Coin;
  burnedToken : option Coins;
  gas : GasMeter }.

Definition set_accounts (f : gmap AccAddress BaseAccount → gmap AccAddress BaseAccount)
    (s : AuthState) : AuthState :=
  mkAuth (f (accounts s)) (globalAccountNumber s) (totalLoosenToken s) (totalSupply s)
    (burnedToken s) (gas s).
Definition set_globalAccountNumber (n : option Z) (s : AuthState) : AuthState :=
  mkAuth (accounts s) n (totalLoosenToken s) (totalSupply s) (burnedToken s) (gas s).
Definition set_totalLoosenToken (c : option Coins) (s : AuthState) : AuthState :=
  mkAuth (accounts s) (globalAccountNumber s) c (totalSupply s) (burnedToken s) (gas s).
Definition set_totalSupply (f : gmap string Coin → gmap string Coin) (s : AuthState) : AuthState :=
  mkAuth (accounts s) (globalAccountNumber s) (totalLoosenToken s) (f (totalSupply s))
    (burnedToken s) (gas s).
Definition set_gas (g : GasMeter) (s : AuthState) : AuthState :=
  mkAuth (accounts s) (globalAccountNumber s) (totalLoosenToken s) (totalSupply s)
    (burnedToken s) g.

Definition addressStoreKeyPrefix : string := "account:".
Definition totalSupplyKeyPrefix : string := "totalSupply:".
Definition AddressStoreKey (addr : AccAddress) : string := addressStoreKeyPrefix +:+ addr.
Definition TotalSupplyStoreKey (d : string) : string :=
  totalSupplyKeyPrefix +:+ default "" (ConvertDenomToTokenKeyId d).

(** Charge the context's gas meter. *)
Definition ctx_ConsumeGas (amount : Z) (descriptor : string) : M AuthState unit :=
  zoom gas set_gas (ConsumeGas amount descriptor).

(** ** AccountKeeper *)
Definition GetNextAccountNumber : M AuthState Z :=
  s <- get ;;
  let accNumber := match globalAccountNumber s with None => 0 | Some n => n end in
  modify (set_globalAccountNumber (Some (wrap64 (accNumber + 1)))) ;;;
  ret accNumber.

Definition NewAccountWithAddress (addr : AccAddress) : M AuthState BaseAccount :=
  match SetAddress ProtoBaseAccount addr with
  | None => panic "cannot override BaseAccount address"
  | Some acc => n <- GetNextAccountNumber ;; ret (SetAccountNumber acc n)
  end.

Definition GetAccount (addr : AccAddress) : M AuthState (option BaseAccount) :=
  gets (λ s, accounts s !! addr).

Definition SetAccount (acc : BaseAccount) : M AuthState unit :=
  modify (set_accounts (insert (acc_Address acc) acc)).

Definition RemoveAccount (acc : BaseAccount) : M AuthState unit :=
  modify (set_accounts (delete (acc_Address acc))).

(** The accounts in the order of the store's keys. *)
Definition GetAllAccounts : M AuthState (list BaseAccount) :=
  gets (λ s, (entries (accounts s)).*2).

Definition GetPubKey (addr : AccAddress) : M AuthState (option PubKey) :=
  acc <- GetAccount addr ;;
  match acc with None => throw ErrUnknownAddress | Some acc => ret (acc_PubKey acc) end.

Definition GetSequence (addr : AccAddress) : M AuthState Z :=
  acc <- GetAccount addr ;;
  match acc with None => throw ErrUnknownAddress | Some acc => ret (acc_Sequence acc) end.

Definition setSequence (addr : AccAddress) (newSequence : Z) : M AuthState unit :=
  acc <- GetAccount addr ;;
  match acc with
  | None => throw ErrUnknownAddress
  | Some acc => SetAccount (SetSequence acc newSequence)
  end.

Definition GetTotalLoosenToken : M AuthState Coins :=
  gets (λ s, default [] (totalLoosenToken s)).

Definition IncreaseTotalLoosenToken (coins : Coins) : M AuthState unit :=
  if Coins_Empty coins then ret tt else
  match GetCoin coins IrisAtto with
  | None => panic "invalid coins"
  | Some deltaCoin =>
      if negb (Coin_IsPositive deltaCoin) then ret tt else
      total <- GetTotalLoosenToken ;;
      total <- lift (Coins_Add total [deltaCoin]) ;;
      modify (set_totalLoosenToken (Some total))
  end.

Definition DecreaseTotalLoosenToken (coins : Coins) : M AuthState unit :=
  if Coins_Empty coins then ret tt else
  match GetCoin coins IrisAtto with
  | None => panic "invalid coins"
  | Some deltaCoin =>
      if negb (Coin_IsPositive deltaCoin) then ret tt else
      total <- GetTotalLoosenToken ;;
      r <- lift (Coins_SafeSub total [deltaCoin]) ;;
      let '(total, hasNeg) := r in
      if hasNeg : bool then panic "total loose token is negative"
      else modify (set_totalLoosenToken (Some total))
  end.

Definition GetTotalSupply (d : string) : M AuthState (option Coin) :=
  gets (λ s, totalSupply s !! TotalSupplyStoreKey d).

Definition SetTotalSupply (supply : Coin) : M AuthState unit :=
  modify (set_totalSupply (insert (TotalSupplyStoreKey (denom supply)) supply)).

Definition IncreaseTotalSupply (coin : Coin) : M AuthState unit :=
  if negb (HasSuffix (denom coin) MinDenomSuffix) then throw ErrInvalidCoins else
  if negb (Coin_IsPositive coin) then ret tt else
  supply <- GetTotalSupply (denom coin) ;;
  match supply with
  | None => throw ErrInvalidCoins
  | Some supply => supply <- lift (Coin_Add supply coin) ;; SetTotalSupply supply
  end.

Definition DecreaseTotalSupply (coin : Coin) : M AuthState unit :=
  if negb (HasSuffix (denom coin) MinDenomSuffix) then throw ErrInvalidCoins else
  if negb (Coin_IsPositive coin) then ret tt else
  supply <- GetTotalSupply (denom coin) ;;
  match supply with
  | None => throw ErrInvalidCoins
  | Some supply =>
      supply <- lift (Coin_Sub supply coin) ;;
      if Coin_IsNegative supply then panic "total supply is negative" else SetTotalSupply supply
  end.

(** The supply entries, in key order. *)
Definition GetTotalSupplies : M AuthState (list (string * Coin)) :=
  gets (λ s, prefix_iterator (totalSupply s) (TotalSupplyStoreKey "")).

(** One coin of an account added to the table of supplies. *)
Definition tally_coin (ts : Outcome (gmap string Coin)) (coin : Coin) : Outcome (gmap string Coin) :=
  let? tsMap := ts in
  if bool_decide (IrisAtto = denom coin) || bool_decide (Iris = denom coin) ||
     HasPrefix (denom coin) FormatUniABSPrefix
  then Ok tsMap
  else match tsMap !! denom coin with
       | None => Ok (<[denom coin := coin]> tsMap)
       | Some supply => let? c := Coin_Add coin supply in Ok (<[denom coin := c]> tsMap)
       end.

Definition InitTotalSupply : M AuthState unit :=
  accts <- GetAllAccounts ;;
  tsMap <- lift (foldl (λ ts acc, foldl tally_coin ts (acc_Coins acc)) (Ok ∅) accts) ;;
  for_each (Coins_Sort ((map_to_list tsMap).*2)) SetTotalSupply.

Section genesis.
Context `{Crypto}.
Definition SetGenesisAccount (acc : BaseAccount) : M AuthState unit :=
  (if negb (AccAddress_Equals (acc_Address acc) BurnedCoinsAccAddr)
   then IncreaseTotalLoosenToken (acc_Coins acc) else ret tt) ;;;
  SetAccount acc.
End genesis.
