(* ===== verification/StdTx.v ===== *)
(** * Transactions (modules/auth/stdtx.go, types/tx_msg.go, types/context.go)

    The standard transaction: messages, a fee, signatures and a memo, with the
    checks that need no state.  The type of messages is a parameter; what every
    message offers is the class [Msg].  Checking a message may change it in place,
    so [msg_ValidateBasic] is a computation on the message. *)

From S2P Require Import Prelude SdkErrors IntType GoStrings Denom Coin CoinFacts Gas KVStore Auth.
#[local] Open Scope Z_scope.

(** ** Tendermint's keys and signatures

    The address of a key, verification, and the decoding of a multisignature into
    its bit array and its signatures. *)
Class KeyOps := {
  pk_Address : PubKey → AccAddress;
  pk_VerifyBytes : PubKey → string → string → bool;
  multisig_Unmarshal : string → option (list bool * list string) }.

(** ** Msg (types/tx_msg.go) *)
Class Msg (T : Type) := {
  msg_Route : T → string;
  msg_Type : T → string;
  msg_ValidateBasic : M T unit;
  msg_GetSignBytes : T → string;
  msg_GetSigners : T → list AccAddress }.

(** ** StdTx *)
Record StdFee := mkFee { fee_Amount : Coins; fee_Gas : Z }.
Record StdSignature := mkSig {
  sig_PubKey : option PubKey; sig_Signature : string; sig_AccountNumber : Z; sig_Sequence : Z }.
Record StdTx (T : Type) := mkStdTx {
  tx_Msgs : list T; tx_Fee : StdFee; tx_Signatures : list StdSignature; tx_Memo : string }.
Arguments mkStdTx {T}.
Arguments tx_Msgs {T}.
Arguments tx_Fee {T}.
Arguments tx_Signatures {T}.
Arguments tx_Memo {T}.

Definition maxMemoCharacters : nat := 100.
Definition txSigLimit : nat := 7.

Fixpoint countSubKeys (pub : PubKey) : nat :=
  match pub with
  | PubKeyMultisigThreshold _ keys => foldr Nat.add 0%nat (map countSubKeys keys)
  | _ => 1
  end.
(** A missing key is not a multisignature key. *)
Definition countSubKeys_opt (pub : option PubKey) : nat :=
  match pub with Some pub => countSubKeys pub | None => 1 end.

(** The loop that counts the keys, with its early exit. *)
Fixpoint within_sig_limit (sigCount : nat) (sigs : list StdSignature) : bool :=
  match sigs with
  | [] => true
  | sig :: sigs =>
      let sigCount := (sigCount + countSubKeys_opt (sig_PubKey sig))%nat in
      if bool_decide (txSigLimit < sigCount)%nat then false else within_sig_limit sigCount sigs
  end.

(** The addresses without those seen before. *)
Fixpoint unseen (seen : list AccAddress) (addrs : list AccAddress) : list AccAddress :=
  match addrs with
  | [] => []
  | addr :: addrs =>
      if bool_decide (addr ∈ seen) then unseen seen addrs else addr :: unseen (addr :: seen) addrs
  end.

Section stdtx.
Context {T : Type} `{Msg T}.
Implicit Types (tx : StdTx T).

Definition GetSigners tx : list AccAddress := unseen [] (mjoin (msg_GetSigners <$> tx_Msgs tx)).

Definition StdTx_ValidateBasic tx : Outcome unit :=
  let stdSigs := tx_Signatures tx in
  if IsAnyNegative (fee_Amount (tx_Fee tx)) then Err ErrInsufficientFee else
  if bool_decide (length stdSigs = 0%nat) then Err ErrUnauthorized else
  if bool_decide (length stdSigs ≠ length (GetSigners tx)) then Err ErrUnauthorized else
  if bool_decide (maxMemoCharacters < str_len (tx_Memo tx))%nat then Err ErrMemoTooLarge else
  if negb (within_sig_limit 0 stdSigs) then Err ErrTooManySignatures else Ok tt.
End stdtx.

(** ** What is signed

    The JSON encoder and the sorting of its keys are parameters. *)
Record StdSignDoc := mkSignDoc {
  doc_AccountNumber : Z; doc_ChainID : string; doc_Fee : string; doc_Memo : string;
  doc_Msgs : list string; doc_Sequence : Z }.

Class JsonOps := {
  json_fee : StdFee → string;
  json_doc : StdSignDoc → string;
  MustSortJSON : string → string }.

Definition StdSignBytes {T} `{Msg T} `{JsonOps} (chainID : string) (accnum sequence : Z)
    (fee : StdFee) (msgs : list T) (memo : string) : string :=
  MustSortJSON (json_doc (mkSignDoc accnum chainID (json_fee fee) memo
                            (msg_GetSignBytes <$> msgs) sequence)).

(** ** Context and Result (types/context.go, types/result.go)

    The parts of a context the code reads; the stores and the gas meter are part
    of the state. *)
Record Header := mkHeader {
  hd_ChainID : string; hd_Height : Z; hd_Time : Z; hd_LastBlockHash : string }.
Record Context := mkCtx {
  ctx_Header : Header;
  ctx_CheckTx : bool;
  ctx_MinimumFees : Coins;
  ctx_Signers : list BaseAccount;
  ctx_TxBytes : string }.
Definition NewContext (header : Header) (isCheckTx : bool) : Context := mkCtx header isCheckTx [] [] "".
Definition WithMinimumFees (ctx : Context) (fees : Coins) : Context :=
  mkCtx (ctx_Header ctx) (ctx_CheckTx ctx) fees (ctx_Signers ctx) (ctx_TxBytes ctx).
Definition WithSigners (ctx : Context) (accounts : list BaseAccount) : Context :=
  mkCtx (ctx_Header ctx) (ctx_CheckTx ctx) (ctx_MinimumFees ctx) accounts (ctx_TxBytes ctx).
Definition WithBlockHeader (ctx : Context) (header : Header) : Context :=
  mkCtx header (ctx_CheckTx ctx) (ctx_MinimumFees ctx) (ctx_Signers ctx) (ctx_TxBytes ctx).
Definition WithTxBytes (ctx : Context) (txBytes : string) : Context :=
  mkCtx (ctx_Header ctx) (ctx_CheckTx ctx) (ctx_MinimumFees ctx) (ctx_Signers ctx) txBytes.

(** The result of a transaction; it is judged by its code alone. *)
Record Result := mkResult {
  res_Codespace : string; res_Code : Z; res_GasWanted : Z; res_GasUsed : Z }.
Definition res_IsOK (r : Result) : bool := res_Code r =? CodeOK.
Definition zero_Result : Result := mkResult "" CodeOK 0 0.
Definition Error_Result (e : Error) : Result := mkResult (codespace e) (code e) 0 0.

(** ** The decoder ([DefaultTxDecoder]); the codec is a parameter *)
Definition DefaultTxDecoder {T} (UnmarshalBinaryLengthPrefixed : string → option (StdTx T)) (txBytes : string)
    : Outcome (StdTx T) :=
  if bool_decide (str_len txBytes = 0%nat) then Err ErrTxDecode else
  match UnmarshalBinaryLengthPrefixed txBytes with None => Err ErrTxDecode | Some tx => Ok tx end.

(** * Fees (app/v1/auth/feekeeper.go, feeauth.go, params.go, genesis.go)

    The pool of collected fees, the minimum price of gas, and the refund of the
    part of a fee that pays for unused gas. *)
(** ** Parameters (params.go) *)
Definition params_DefaultCodespace : string := "params".
Definition CodeInvalidGasPriceThreshold : Z := 600.
Definition CodeInvalidTxSizeLimit : Z := 601.
Definition MinimumGasPrice : Int := 0.
Definition MaximumGasPrice : Int := 10^18.
Definition MinimumTxSizeLimit : Z := 500.
Definition MaximumTxSizeLimit : Z := 1500.

Record AuthParams := mkAuthParams { GasPriceThreshold : Int; TxSizeLimit : Z }.
Definition auth_DefaultParams : AuthParams := mkAuthParams (6 * 10^12) 1000.

Definition validateParams (p : AuthParams) : Outcome unit :=
  if negb (Int_GT (GasPriceThreshold p) MinimumGasPrice) || Int_GT (GasPriceThreshold p) MaximumGasPrice
  then Err (NewError params_DefaultCodespace CodeInvalidGasPriceThreshold) else
  if (TxSizeLimit p <? MinimumTxSizeLimit) || (MaximumTxSizeLimit <? TxSizeLimit p)
  then Err (NewError params_DefaultCodespace CodeInvalidTxSizeLimit) else Ok tt.

(** ** FeeKeeper (feekeeper.go) *)
Record FeeStore := mkFees {
  collectedFees : option Coins;
  feeAuth : option string;
  feeParams : AuthParams }.
Definition InitialFeeAuth : string := IrisAtto.

Definition GetCollectedFees : M FeeStore Coins := gets (λ s, default [] (collectedFees s)).
Definition setCollectedFees (coins : Coins) : M FeeStore unit :=
  modify (λ s, mkFees (Some coins) (feeAuth s) (feeParams s)).
Definition AddCollectedFees (coins : Coins) : M FeeStore Coins :=
  fees <- GetCollectedFees ;;
  newCoins <- lift (Coins_Add fees coins) ;;
  setCollectedFees newCoins ;;; ret newCoins.
Definition RefundCollectedFees (coins : Coins) : M FeeStore Coins :=
  fees <- GetCollectedFees ;;
  newCoins <- lift (Coins_Sub fees coins) ;;
  if IsAnyNegative newCoins then panic "fee collector contains negative coins" else
  setCollectedFees newCoins ;;; ret newCoins.
Definition ClearCollectedFees : M FeeStore unit := setCollectedFees [].
Definition GetFeeAuth : M FeeStore string :=
  s <- get ;;
  match feeAuth s with
  | None => panic "Stored fee pool should not have been nil"
  | Some a => ret a
  end.
Definition SetFeeAuth (a : string) : M FeeStore unit :=
  modify (λ s, mkFees (collectedFees s) (Some a) (feeParams s)).
Definition auth_SetParamSet (p : AuthParams) : M FeeStore unit :=
  modify (λ s, mkFees (collectedFees s) (feeAuth s) p).

(** ** The state of the account and fee keepers *)
Record TxState := mkTxState { ts_auth : AuthState; ts_fee : FeeStore }.
Definition on_auth {A} (c : M AuthState A) : M TxState A :=
  zoom ts_auth (λ a s, mkTxState a (ts_fee s)) c.
Definition on_fee {A} (c : M FeeStore A) : M TxState A :=
  zoom ts_fee (λ f s, mkTxState (ts_auth s) f) c.

(** ** Fee handlers (feeauth.go) *)
Definition getFee (coins : Coins) : Outcome Coin :=
  if Coins_Empty coins then NewCoin IrisAtto 0 else NewCoin IrisAtto (AmountOf coins IrisAtto).

Definition checkFee (params : AuthParams) (fee : Coin) (gasLimit : Z) : Outcome unit :=
  if (gasLimit =? 0) || (wrap_int64 gasLimit <? 0) then Err ErrInvalidGas else
  let? gasPrice := Int_Div (amount fee) (NewInt (wrap_int64 gasLimit)) in
  if Int_LT gasPrice (GasPriceThreshold params) then
    let? _ := Int_Mul (NewInt (wrap_int64 gasLimit)) (GasPriceThreshold params) in
    Err ErrGasPriceTooLow
  else Ok tt.

Definition FeePreprocessHandler {T} (tx : StdTx T) : M TxState unit :=
  fee <- lift (getFee (fee_Amount (tx_Fee tx))) ;;
  s <- get ;;
  lift (checkFee (feeParams (ts_fee s)) fee (fee_Gas (tx_Fee tx))).

(** Runs with a gas meter of its own; the coin it returns is the fee kept. *)
Definition FeeRefundHandler {T} (ctx : Context) (tx : StdTx T) (txResult : Result) : M TxState Coin :=
  match ctx_Signers ctx with
  | [] => ret (mkCoin "" 0)
  | firstAccount :: _ =>
      fee <- lift (getFee (fee_Amount (tx_Fee tx))) ;;
      if res_GasWanted txResult <=? res_GasUsed txResult then ret fee else
      let unusedGas := res_GasWanted txResult - res_GasUsed txResult in
      m <- lift (Int_Mul (amount fee) (NewInt (wrap_int64 unusedGas))) ;;
      q <- lift (Int_Div m (NewInt (wrap_int64 (res_GasWanted txResult)))) ;;
      refundCoin <- lift (NewCoin (denom fee) q) ;;
      acc <- on_auth (GetAccount (acc_Address firstAccount)) ;;
      match acc with
      | None => panic "nil account"
      | Some acc =>
          coins <- lift (Coins_Add (acc_Coins acc) [refundCoin]) ;;
          on_auth (SetAccount (SetCoins acc coins)) ;;;
          on_fee (RefundCollectedFees [refundCoin]) ;;;
          kept <- lift (Int_Sub (amount fee) (amount refundCoin)) ;;
          lift (NewCoin (denom fee) kept)
      end
  end.
