(* ===== verification/Ante.v ===== *)
(** * The ante handler (app/v1/auth/ante.go)

    Before its messages run, a transaction is authenticated: sequence numbers and
    signatures of all signers are checked, the first signer pays the fee, and the
    sequence numbers advance.  The handler installs the gas meter of the
    transaction. *)

From S2P Require Import Prelude SdkErrors IntType GoStrings Denom Coin CoinFacts Gas KVStore Auth StdTx.
#[local] Open Scope Z_scope.

Definition ed25519VerifyCost : Z := 59.
Definition secp256k1VerifyCost : Z := 100.
Definition gasShift : Z := 285.
Definition OutOfGas : string := "ErrorOutOfGas".

(** The key that stands for an unknown one in a simulation; its 33 bytes are not
    looked at. *)
Definition dummySecp256k1Pubkey : PubKey :=
  PubKeySecp256k1 (default "" (DecodeString "035AD6810A47F073553FF30D2FCC7E0D3B1C0B74B61A1AAA2582344037151E143A")).

Section ante.
Context {T : Type} `{Msg T} `{JsonOps} `{KeyOps}.
(** [amount => uint64(math.Log(amount) / math.Log(1.02))], in floating point. *)
Variable log_gasBase : Z → Z.
Implicit Types (tx : StdTx T) (ctx : Context).

Definition setGasMeter (simulate : bool) ctx (gasLimit : Z) : GasMeter :=
  if simulate || (hd_Height (ctx_Header ctx) =? 0) then NewInfiniteGasMeter
  else NewGasMeterWithBase gasLimit (Some log_gasBase) gasShift.

Definition ensureSufficientMempoolFees ctx tx : Outcome unit :=
  if fee_Gas (tx_Fee tx) <=? 0 then Err ErrInternal else
  if negb (Coins_IsZero (ctx_MinimumFees ctx)) &&
     negb (IsAllGTE (fee_Amount (tx_Fee tx)) (ctx_MinimumFees ctx))
  then Err ErrInsufficientFee else Ok tt.

Definition getSignBytesList (chainID : string) tx : list string :=
  map (λ sig, StdSignBytes chainID (sig_AccountNumber sig) (sig_Sequence sig)
                (tx_Fee tx) (tx_Msgs tx) (tx_Memo tx)) (tx_Signatures tx).

Fixpoint getSignerAccs (addrs : list AccAddress) : M AuthState (list BaseAccount) :=
  match addrs with
  | [] => ret []
  | addr :: addrs =>
      acc <- GetAccount addr ;;
      match acc with
      | None => throw ErrUnknownAddress
      | Some acc => accs <- getSignerAccs addrs ;; ret (acc :: accs)
      end
  end.

Fixpoint validateAccNumAndSequence ctx (accs : list BaseAccount) (sigs : list StdSignature) : Outcome unit :=
  match accs with
  | [] => Ok tt
  | acc :: accs =>
      match sigs with
      | [] => Panic "index out of range"
      | sig :: sigs =>
          let height := hd_Height (ctx_Header ctx) in
          if (height =? 0) && negb (sig_AccountNumber sig =? 0) then Err ErrInvalidSequence else
          if negb (height =? 0) && negb (acc_AccountNumber acc =? sig_AccountNumber sig)
          then Err ErrInvalidSequence else
          if negb (acc_Sequence acc =? sig_Sequence sig) then Err ErrInvalidSequence else
          validateAccNumAndSequence ctx accs sigs
      end
  end.

Definition deductFees (acc : BaseAccount) (fee : StdFee) : Outcome BaseAccount :=
  let? r := Coins_SafeSub (acc_Coins acc) (fee_Amount fee) in
  let '(newCoins, hasNeg) := r in
  if hasNeg : bool then Err ErrInsufficientFunds else Ok (SetCoins acc newCoins).

Definition processPubKey (acc : BaseAccount) (sig : StdSignature) (simulate : bool) : Outcome PubKey :=
  if simulate then Ok (default dummySecp256k1Pubkey (acc_PubKey acc)) else
  match acc_PubKey acc with
  | Some pubKey => Ok pubKey
  | None =>
      match sig_PubKey sig with
      | None => Err ErrInvalidPubKey
      | Some pubKey =>
          if negb (bool_decide (pk_Address pubKey = acc_Address acc)) then Err ErrInvalidPubKey
          else Ok pubKey
      end
  end.

(** The loop over the bits of a multisignature calls [consume] on the keys of the
    set bits; a nested failure is dropped, an index out of range panics. *)
Fixpoint consumeSignatureVerificationGas (sig : string) (pubkey : PubKey) : M GasMeter unit :=
  match pubkey with
  | PubKeyEd25519 _ => ConsumeGas ed25519VerifyCost "ante verify: ed25519"
  | PubKeySecp256k1 _ => ConsumeGas secp256k1VerifyCost "ante verify: secp256k1"
  | PubKeyMultisigThreshold _ keys =>
      match multisig_Unmarshal sig with
      | None => panic "unmarshal"
      | Some (bits, sigs) =>
          (fix loop (keys : list PubKey) (bits : list bool) (sigs : list string) {struct keys} : M GasMeter unit :=
             match bits with
             | [] => ret tt
             | bit :: bits =>
                 match keys with
                 | [] => if existsb id (bit :: bits) then panic "index out of range" else ret tt
                 | key :: keys =>
                     if bit : bool then
                       match sigs with
                       | [] => panic "index out of range"
                       | s :: sigs =>
                           ignore_err (consumeSignatureVerificationGas s key) ;;; loop keys bits sigs
                       end
                     else loop keys bits sigs
                 end
             end) keys bits sigs
      end
  | PubKeyOther _ _ => throw ErrInvalidPubKey
  end.

Definition processSig (acc : BaseAccount) (sig : StdSignature) (signBytes : string) (simulate : bool)
    : M AuthState BaseAccount :=
  pubKey <- lift (processPubKey acc sig simulate) ;;
  let acc := SetPubKey acc (Some pubKey) in
  zoom gas set_gas (consumeSignatureVerificationGas (sig_Signature sig) pubKey) ;;;
  require (simulate || pk_VerifyBytes pubKey signBytes (sig_Signature sig)) ErrUnauthorized ;;;
  ret (SetSequence acc (wrap64 (acc_Sequence acc + 1))).

(** Check and store the signers one by one; the result is the list of signers as
    it stands at the end. *)
Fixpoint processSigs (accs : list BaseAccount) (sigs : list StdSignature) (signBytesList : list string)
    (simulate : bool) : M AuthState (list BaseAccount) :=
  match sigs, signBytesList with
  | sig :: sigs, signBytes :: signBytesList =>
      match accs with
      | [] => panic "index out of range"
      | acc :: accs =>
          acc <- processSig acc sig signBytes simulate ;;
          SetAccount acc ;;;
          accs <- processSigs accs sigs signBytesList simulate ;;
          ret (acc :: accs)
      end
  | _, _ => ret accs
  end.

(** The first signer pays. *)
Definition payFees (signerAccs : list BaseAccount) (fee : StdFee) : M TxState (list BaseAccount) :=
  if Coins_IsZero (fee_Amount fee) then ret signerAccs else
  match signerAccs with
  | [] => panic "index out of range"
  | payer :: rest =>
      payer <- lift (deductFees payer fee) ;;
      on_fee (AddCollectedFees (fee_Amount fee)) ;;;
      ret (payer :: rest)
  end.

Definition authenticate ctx tx (simulate : bool) : M TxState (list BaseAccount) :=
  lift (StdTx_ValidateBasic tx) ;;;
  let stdSigs := tx_Signatures tx in
  let signBytesList := getSignBytesList (hd_ChainID (ctx_Header ctx)) tx in
  signerAccs <- on_auth (getSignerAccs (GetSigners tx)) ;;
  lift (validateAccNumAndSequence ctx signerAccs stdSigs) ;;;
  signerAccs <- payFees signerAccs (tx_Fee tx) ;;
  on_auth (processSigs signerAccs stdSigs signBytesList simulate).

(** The new context (none where the zero context is returned), the result, and
    whether to abort.  Out of gas is turned into a result; another panic goes on,
    and then the context keeps its old gas meter. *)
Definition auth_AnteHandler ctx tx (simulate : bool) : M TxState (option Context * Result * bool) := λ s,
  match (if ctx_CheckTx ctx && negb simulate then ensureSufficientMempoolFees ctx tx else Ok tt) with
  | Err e => (Ok (None, Error_Result e, true), s)
  | Panic w => (Panic w, s)
  | Ok _ =>
      let oldMeter := gas (ts_auth s) in
      let gasWanted := fee_Gas (tx_Fee tx) in
      let s := mkTxState (set_gas (setGasMeter simulate ctx gasWanted) (ts_auth s)) (ts_fee s) in
      match authenticate ctx tx simulate s with
      | (Ok signerAccs, s) => (Ok (Some (WithSigners ctx signerAccs), mkResult "" CodeOK gasWanted 0, false), s)
      | (Err e, s) => (Ok (Some ctx, Error_Result e, true), s)
      | (Panic w, s) =>
          if bool_decide (w = OutOfGas)
          then (Ok (Some ctx, mkResult (codespace ErrOutOfGas) (code ErrOutOfGas) gasWanted
                                (GasConsumed (gas (ts_auth s))), true), s)
          else (Panic w, mkTxState (set_gas oldMeter (ts_auth s)) (ts_fee s))
      end
  end.
End ante.
