(* ===== verification/BaseApp.v ===== *)
(** * The path of a transaction (app/baseapp.go, app/helpers.go, app/protocol/engine.go)

    The application keeps a committed store, a store for checking transactions and
    one for the block in progress.  A transaction is decoded, checked, preprocessed,
    authenticated by the ante handlers on a cache, and its messages run on a
    second cache; deferred functions charge the block, refund unused gas and
    recover from panics.

    The type [S] stands for the contents of the multistore together with the gas
    meter of the context in use, which is not rolled back with the store; a cache
    is a copy that replaces the store when it is written and is dropped otherwise.
    A [Panic] of an operation of the application is a crash of the node. *)

From S2P Require Import Prelude SdkErrors IntType GoStrings Denom Coin CoinFacts Gas KVStore Auth StdTx Ante.
#[local] Open Scope Z_scope.

(** ** Stores with a gas meter *)
Class MultiStore (S : Type) := {
  ms_gas : S → GasMeter;
  ms_set_gas : GasMeter → S → S;
  ms_gas_set g s : ms_gas (ms_set_gas g s) = g;
  ms_set_gas_gas s : ms_set_gas (ms_gas s) s = s;
  ms_set_set g g' s : ms_set_gas g (ms_set_gas g' s) = ms_set_gas g s }.

(** The store [s] with the meter of [s']: what is left of a dropped cache. *)
Definition drop_cache {S} `{MultiStore S} (s' s : S) : S := ms_set_gas (ms_gas s') s.

(** An error as a value; a panic goes on. *)
Definition try_err {S A} (c : M S A) : M S (A + Error) := λ s,
  match c s with
  | (Ok a, s) => (Ok (inl a), s)
  | (Err e, s) => (Ok (inr e), s)
  | (Panic w, s) => (Panic w, s)
  end.

Inductive RunTxMode := RunTxModeCheck | RunTxModeSimulate | RunTxModeDeliver.
#[export] Instance RunTxMode_dec : EqDecision RunTxMode.
Proof. solve_decision. Defined.

(** ** Protocols (app/protocol) *)
Record Protocol (S T : Type) := mkProtocol {
  p_Version : Z;
  p_Init : Context → M S unit;
  p_ValidateTx : string → list T → M S unit;
  p_anteHandlers : list (Context → StdTx T → bool → M S (option Context * Result * bool));
  p_feeRefundHandler : option (Context → StdTx T → Result → M S Coin);
  p_feePreprocessHandler : option (StdTx T → M S unit);
  p_router : string → option (Context → T → M S unit);
  p_beginBlocker : option (Context → M S unit);
  (** the value of the application version tag, if there is one *)
  p_endBlocker : option (Context → M S (option Z)) }.
Arguments p_Version {S T}.
Arguments p_Init {S T}.
Arguments p_ValidateTx {S T}.
Arguments p_anteHandlers {S T}.
Arguments p_feeRefundHandler {S T}.
Arguments p_feePreprocessHandler {S T}.
Arguments p_router {S T}.
Arguments p_beginBlocker {S T}.
Arguments p_endBlocker {S T}.

Definition BlockStoreCostPerByte : Z := 10.

(** ** The state of a running transaction: the variables of [runTx] its deferred
    functions see, the store, and the block's gas meter and counter *)
Record Run (S : Type) := mkRun {
  run_ctx : Context; run_gasWanted : Z; run_store : S; run_blockGas : GasMeter; run_validTx : Z }.
Arguments mkRun {S}.
Arguments run_ctx {S}.
Arguments run_gasWanted {S}.
Arguments run_store {S}.
Arguments run_blockGas {S}.
Arguments run_validTx {S}.

Section runTx.
Context {S T : Type} `{MultiStore S} `{Msg T}.
Variable p : Protocol S T.
Abbreviation MR := (M (Run S)).

Definition with_store (s : S) (r : Run S) : Run S :=
  mkRun (run_ctx r) (run_gasWanted r) s (run_blockGas r) (run_validTx r).
Definition with_ctx (ctx : Context) (r : Run S) : Run S :=
  mkRun ctx (run_gasWanted r) (run_store r) (run_blockGas r) (run_validTx r).
Definition add_gasWanted (n : Z) (r : Run S) : Run S :=
  mkRun (run_ctx r) (wrap64 (run_gasWanted r + n)) (run_store r) (run_blockGas r) (run_validTx r).
Definition on_store {A} (c : M S A) : MR A := zoom run_store with_store c.
Definition on_blockGas {A} (c : M GasMeter A) : MR A :=
  zoom run_blockGas (λ g r, mkRun (run_ctx r) (run_gasWanted r) (run_store r) g (run_validTx r)) c.
Definition ms_ConsumeGas (amount : Z) (descriptor : string) : M S unit :=
  zoom ms_gas ms_set_gas (ConsumeGas amount descriptor).

(** Work on a cache of the store, which is written when [write] says so. *)
Definition cacheTxContext {A} (write : A → bool) (c : MR A) : MR A := λ r,
  let '(o, r') := c r in
  let dropped := with_store (drop_cache (run_store r') (run_store r)) r' in
  match o with
  | Ok a => (Ok a, if write a then r' else dropped)
  | _ => (o, dropped)
  end.

(** Messages are checked in order; a failing check overrides the codespace. *)
Fixpoint validate_msgs (msgs : list T) : Outcome unit * list T :=
  match msgs with
  | [] => (Ok tt, [])
  | msg :: rest =>
      match msg_ValidateBasic msg with
      | (Ok _, msg) => let '(o, rest) := validate_msgs rest in (o, msg :: rest)
      | (Err e, msg) => (Err (WithDefaultCodespace e CodespaceRoot), msg :: rest)
      | (Panic w, msg) => (Panic w, msg :: rest)
      end
  end.
Definition validateBasicTxMsgs (msgs : list T) : Outcome unit * list T :=
  match msgs with [] => (Err ErrInternal, []) | _ => validate_msgs msgs end.

(** The messages in turn, up to the first whose result is not OK; the handler of
    an unknown route ends the run at once. *)
Fixpoint runMsgs (ctx : Context) (msgs : list T) (mode : RunTxMode) : M S Result :=
  match msgs with
  | [] => s <- get ;; ret (mkResult "" CodeOK 0 (GasConsumed (ms_gas s)))
  | msg :: msgs =>
      match p_router p (msg_Route msg) with
      | None => ret (Error_Result ErrUnknownRequest)
      | Some handler =>
          r <- (if bool_decide (mode = RunTxModeCheck) then ret (inl tt) else try_err (handler ctx msg)) ;;
          match r with
          | inr e =>
              if code e =? CodeOK then runMsgs ctx msgs mode
              else s <- get ;; ret (mkResult (codespace e) (code e) 0 (GasConsumed (ms_gas s)))
          | inl _ => runMsgs ctx msgs mode
          end
      end
  end.

(** The ante handlers in turn; the result of the one that aborts, if any. *)
Fixpoint run_antes (handlers : list (Context → StdTx T → bool → M S (option Context * Result * bool)))
    (tx : StdTx T) (simulate : bool) : MR (option Result) :=
  match handlers with
  | [] => ret None
  | anteHandler :: handlers =>
      r <- get ;;
      res <- on_store (anteHandler (run_ctx r) tx simulate) ;;
      let '(newCtx, result, abort) := res in
      modify (λ r, match newCtx with Some ctx => with_ctx ctx r | None => r end) ;;;
      if abort : bool then ret (Some result) else
      modify (add_gasWanted (res_GasWanted result)) ;;;
      run_antes handlers tx simulate
  end.

Definition ante_section (mode : RunTxMode) (txBytes : string) (tx : StdTx T) : MR (option Result) :=
  match p_anteHandlers p with
  | [] => ret None
  | anteHandlers =>
      cacheTxContext (λ aborted, bool_decide (aborted = None))
        (aborted <- run_antes anteHandlers tx (bool_decide (mode = RunTxModeSimulate)) ;;
         match aborted with
         | Some result => ret (Some result)
         | None =>
             on_store (ms_ConsumeGas (wrap64 (BlockStoreCostPerByte * Z.of_nat (str_len txBytes)))
                         "blockstore") ;;;
             ret None
         end)
  end.

(** The body of [runTx] after the deferred functions are set up. *)
Definition runTx_body (mode : RunTxMode) (txBytes : string) (tx : StdTx T) : MR Result :=
  r <- get ;;
  pre <- match p_feePreprocessHandler p with
         | Some feePreprocessHandler =>
             if hd_Height (ctx_Header (run_ctx r)) =? 0 then ret (inl tt)
             else try_err (on_store (feePreprocessHandler tx))
         | None => ret (inl tt)
         end ;;
  match pre with
  | inr e => ret (Error_Result e)
  | inl _ =>
      aborted <- ante_section mode txBytes tx ;;
      match aborted with
      | Some result => ret result
      | None =>
          if bool_decide (mode = RunTxModeCheck) then ret zero_Result else
          cacheTxContext (λ result, bool_decide (mode = RunTxModeDeliver) && res_IsOK result)
            (r <- get ;;
             result <- on_store (runMsgs (run_ctx r) (tx_Msgs tx) mode) ;;
             ret (mkResult (res_Codespace result) (res_Code result) (run_gasWanted r) (res_GasUsed result)))
      end
  end.

(** *** The deferred functions, last first: the result so far and the panic *)
Definition defer_blockGas (mode : RunTxMode) (st : Result * option string) : MR (Result * option string) := λ r,
  if bool_decide (mode = RunTxModeDeliver) then
    match on_blockGas (ConsumeGas (GasConsumedToLimit (ms_gas (run_store r))) "block gas meter") r with
    | (Panic w, r) => (Ok (st.1, Some w), r)
    | (_, r) => (Ok st, r)
    end
  else (Ok st, r).

Definition defer_refund (mode : RunTxMode) (tx : StdTx T) (st : Result * option string)
    : MR (Result * option string) := λ r,
  let result := mkResult (res_Codespace st.1) (res_Code st.1) (res_GasWanted st.1)
                  (GasConsumed (ms_gas (run_store r))) in
  match p_feeRefundHandler p with
  | Some feeRefundHandler =>
      if bool_decide (mode = RunTxModeCheck) then (Ok (result, st.2), r) else
      match cacheTxContext (λ _, true) (on_store (feeRefundHandler (run_ctx r) tx result)) r with
      | (Ok _, r) => (Ok (result, st.2), r)
      | (Err _, r) => (Ok (Error_Result ErrInternal, st.2), r)
      | (Panic w, r) => (Ok (result, Some w), r)
      end
  | None => (Ok (result, st.2), r)
  end.

Definition defer_recover (st : Result * option string) : MR Result := λ r,
  let result :=
    match st.2 with
    | None => st.1
    | Some w => Error_Result (if bool_decide (w = OutOfGas) then ErrOutOfGas else ErrInternal)
    end in
  (Ok (mkResult (res_Codespace result) (res_Code result) (run_gasWanted r)
         (GasConsumed (ms_gas (run_store r)))), r).

Definition runTx (mode : RunTxMode) (txBytes : string) (tx : StdTx T) : MR Result :=
  r <- get ;;
  if bool_decide (mode = RunTxModeDeliver) && IsOutOfGas (run_blockGas r)
  then ret (Error_Result ErrOutOfGas) else
  valid <- try_err (on_store (p_ValidateTx p txBytes (tx_Msgs tx))) ;;
  match valid with
  | inr e => ret (Error_Result e)
  | inl _ =>
      let '(o, msgs) := validateBasicTxMsgs (tx_Msgs tx) in
      basic <- try_err (lift o) ;;
      match basic with
      | inr e => ret (Error_Result e)
      | inl _ =>
          let tx := mkStdTx msgs (tx_Fee tx) (tx_Signatures tx) (tx_Memo tx) in
          let fees := fee_Amount (tx_Fee tx) in
          if (0 <? p_Version p) && negb (Coins_Empty fees) && negb (Coins_IsValidIrisAtto fees)
          then ret (Error_Result ErrInvalidCoins) else
          (if bool_decide (mode = RunTxModeDeliver)
           then modify (λ r, mkRun (run_ctx r) (run_gasWanted r) (run_store r) (run_blockGas r)
                               (run_validTx r + 1))
           else ret tt) ;;;
          (λ r, let '(o, r) := runTx_body mode txBytes tx r in
                let st := match o with
                          | Ok result => (result, None)
                          | Err e => (Error_Result e, None)
                          | Panic w => (zero_Result, Some w)
                          end in
                (st <- defer_blockGas mode st ;; st <- defer_refund mode tx st ;; defer_recover st) r)
      end
  end.
End runTx.

(** ** The application *)
Record DeliverState (S : Type) := mkDeliver {
  d_store : S; d_ctx : Context; d_blockGas : option GasMeter; d_validTx : Z }.
Arguments mkDeliver {S}.
Arguments d_store {S}.
Arguments d_ctx {S}.
Arguments d_blockGas {S}.
Arguments d_validTx {S}.

Record BaseApp (S : Type) := mkApp {
  app_cms : S;
  app_checkState : S * Context;
  app_deliverState : option (DeliverState S);
  (** [consensusParams.BlockSize.MaxGas], an int64 *)
  app_maxGas : option Z;
  app_minimumFees : Coins;
  app_current : Z }.
Arguments mkApp {S}.
Arguments app_cms {S}.
Arguments app_checkState {S}.
Arguments app_deliverState {S}.
Arguments app_maxGas {S}.
Arguments app_minimumFees {S}.
Arguments app_current {S}.

Section app.
Context {S T : Type} `{MultiStore S} `{Msg T}.
(** The protocols of the engine by version, and the decoder of transactions. *)
Variable protocols : Z → option (Protocol S T).
Variable txDecoder : string → Outcome (StdTx T).
Abbreviation MA := (M (BaseApp S)).

Definition set_check (c : S * Context) (a : BaseApp S) : BaseApp S :=
  mkApp (app_cms a) c (app_deliverState a) (app_maxGas a) (app_minimumFees a) (app_current a).
Definition set_deliver (d : option (DeliverState S)) (a : BaseApp S) : BaseApp S :=
  mkApp (app_cms a) (app_checkState a) d (app_maxGas a) (app_minimumFees a) (app_current a).
Definition set_cms (s : S) (a : BaseApp S) : BaseApp S :=
  mkApp s (app_checkState a) (app_deliverState a) (app_maxGas a) (app_minimumFees a) (app_current a).
Definition set_current (v : Z) (a : BaseApp S) : BaseApp S :=
  mkApp (app_cms a) (app_checkState a) (app_deliverState a) (app_maxGas a) (app_minimumFees a) v.

(** A new context comes with a meter of its own. *)
Definition fresh (s : S) : S := ms_set_gas NewInfiniteGasMeter s.

Definition setCheckState (header : Header) : MA unit :=
  modify (λ a, set_check (fresh (app_cms a), WithMinimumFees (NewContext header true) (app_minimumFees a)) a).
Definition setDeliverState (header : Header) : MA unit :=
  modify (λ a, set_deliver (Some (mkDeliver (fresh (app_cms a)) (NewContext header false) None 0)) a).
Definition getMaximumBlockGas (a : BaseApp S) : Z :=
  match app_maxGas a with None => 0 | Some g => wrap64 g end.

Definition GetCurrentProtocol : MA (Protocol S T) :=
  a <- get ;;
  match protocols (app_current a) with Some p => ret p | None => panic "nil protocol" end.
Definition get_deliver : MA (DeliverState S) :=
  a <- get ;;
  match app_deliverState a with Some d => ret d | None => panic "nil deliverState" end.
(** Work on the store of the block in progress. *)
Definition on_deliver {A} (c : Context → M S A) : MA A :=
  d <- get_deliver ;;
  λ a, let '(o, s) := c (d_ctx d) (d_store d) in
       (o, set_deliver (Some (mkDeliver s (d_ctx d) (d_blockGas d) (d_validTx d))) a).

Definition BeginBlock (header : Header) : MA unit :=
  a <- get ;;
  match app_deliverState a with
  | None => setDeliverState header
  | Some d => modify (set_deliver (Some (mkDeliver (d_store d) (WithBlockHeader (d_ctx d) header)
                                           (d_blockGas d) 0)))
  end ;;;
  let maxGas := getMaximumBlockGas a in
  let gasMeter := if 0 <? maxGas then NewGasMeter maxGas else NewInfiniteGasMeter in
  d <- get_deliver ;;
  modify (set_deliver (Some (mkDeliver (d_store d) (d_ctx d) (Some gasMeter) (d_validTx d)))) ;;;
  p <- GetCurrentProtocol ;;
  match p_beginBlocker p with
  | Some beginBlocker => on_deliver beginBlocker
  | None => ret tt
  end.

(** A check runs on the check state. *)
Definition CheckTx (txBytes : string) : MA Result :=
  match txDecoder txBytes with
  | Err e => ret (Error_Result e)
  | Panic w => panic w
  | Ok tx =>
      p <- GetCurrentProtocol ;;
      λ a, let '(s, ctx) := app_checkState a in
           let '(o, r) := runTx p RunTxModeCheck txBytes tx (mkRun (WithTxBytes ctx txBytes) 0 (fresh s) NewInfiniteGasMeter 0) in
           (o, set_check (run_store r, ctx) a)
  end.

(** A simulation runs on a cache of the check state that is never written. *)
Definition Simulate (txBytes : string) (tx : StdTx T) : MA Result :=
  p <- GetCurrentProtocol ;;
  λ a, let '(s, ctx) := app_checkState a in
       let '(o, _) := runTx p RunTxModeSimulate txBytes tx (mkRun (WithTxBytes ctx txBytes) 0 (fresh s) NewInfiniteGasMeter 0) in
       (o, a).

Definition DeliverTx (txBytes : string) : MA Result :=
  match txDecoder txBytes with
  | Err e => ret (Error_Result e)
  | Panic w => panic w
  | Ok tx =>
      p <- GetCurrentProtocol ;;
      d <- get_deliver ;;
      match d_blockGas d with
      | None => panic "nil block gas meter"
      | Some g =>
          λ a, let '(o, r) := runTx p RunTxModeDeliver txBytes tx
                                (mkRun (WithTxBytes (d_ctx d) txBytes) 0 (fresh (d_store d)) g (d_validTx d)) in
               (o, set_deliver (Some (mkDeliver (run_store r) (d_ctx d) (Some (run_blockGas r))
                                        (run_validTx r))) a)
      end
  end.

(** Switch to a protocol the engine has. *)
Definition Activate (version : Z) : MA bool :=
  match protocols version with
  | Some p => on_deliver (p_Init p) ;;; modify (set_current version) ;;; ret true
  | None => ret false
  end.

(** Whether an upgrade was due that this software cannot make. *)
Definition EndBlock : MA bool :=
  p <- GetCurrentProtocol ;;
  appVersion <- match p_endBlocker p with
                | Some endBlocker => on_deliver endBlocker
                | None => ret None
                end ;;
  match appVersion with
  | None => ret false
  | Some appVersion =>
      a <- get ;;
      if appVersion <=? app_current a then ret false else
      success <- Activate appVersion ;; ret (negb success)
  end.

Definition Commit : MA unit :=
  d <- get_deliver ;;
  modify (set_cms (d_store d)) ;;;
  setCheckState (ctx_Header (d_ctx d)) ;;;
  modify (set_deliver None).
End app.
