(* ===== verification/Bank.v ===== *)
(** * Bank (app/v1/bank)

    Transfers between accounts, burning, the messages of the module with their
    stateless checks, the handler, the memo check and the invariants.  The
    in-place removal of zero coins by [Coins.Add] reaches the coins of a message
    or of a caller; where the code reads these again, the definitions use the
    slice as it then is. *)

From S2P Require Import Prelude SdkErrors IntType GoStrings Denom Coin CoinFacts Gas KVStore Auth.
#[local] Open Scope Z_scope.

(** ** Errors (errors.go) *)
Definition bank_DefaultCodespace : string := "bank".
Definition bank_ErrInvalidInput : Error := NewError bank_DefaultCodespace 101.
Definition bank_ErrNoInputs : Error := NewError bank_DefaultCodespace 101.
Definition bank_ErrNoOutputs : Error := NewError bank_DefaultCodespace 102.
Definition bank_ErrInvalidMemo : Error := NewError bank_DefaultCodespace 104.
Definition bank_ErrInvalidMemoRegexp : Error := NewError bank_DefaultCodespace 105.
Definition bank_ErrInvalidAccount : Error := NewError bank_DefaultCodespace 106.

(** ** Messages (msgs.go) *)
Record Input := mkInput { in_Address : AccAddress; in_Coins : Coins }.
Record Output := mkOutput { out_Address : AccAddress; out_Coins : Coins }.
Record MsgSend := mkMsgSend { Inputs : list Input; Outputs : list Output }.
Record MsgBurn := mkMsgBurn { burn_Owner : AccAddress; burn_Coins : Coins }.
Record MsgSetMemoRegexp := mkMsgSetMemoRegexp { memo_Owner : AccAddress; memo_Regexp : string }.

Inductive BankMsg :=
| BMsgSend (m : MsgSend)
| BMsgBurn (m : MsgBurn)
| BMsgSetMemoRegexp (m : MsgSetMemoRegexp)
| BMsgOther.

(** The checks shared by inputs, outputs and burns. *)
Definition validate_addr_coins (addr : AccAddress) (coins : Coins) : Outcome unit :=
  if bool_decide (str_len addr = 0%nat) then Err ErrInvalidAddress else
  if Coins_Empty coins then Err ErrInvalidCoins else
  if negb (Coins_IsValid coins) then Err ErrInvalidCoins else Ok tt.

Definition Input_ValidateBasic (i : Input) : Outcome unit :=
  validate_addr_coins (in_Address i) (in_Coins i).
Definition Output_ValidateBasic (o : Output) : Outcome unit :=
  validate_addr_coins (out_Address o) (out_Coins o).
Definition MsgBurn_ValidateBasic (m : MsgBurn) : Outcome unit :=
  validate_addr_coins (burn_Owner m) (burn_Coins m).

(** The loops of [MsgSend.ValidateBasic]: the total, and the inputs (outputs)
    with the slices [totalIn.Add(in.Coins)] leaves behind. *)
Fixpoint validate_inputs (totalIn : Coins) (ins : list Input) : Outcome Coins * list Input :=
  match ins with
  | [] => (Ok totalIn, [])
  | i :: rest =>
      match Input_ValidateBasic i with
      | Err e => (Err e, i :: rest)
      | Panic w => (Panic w, i :: rest)
      | Ok _ =>
          let i' := mkInput (in_Address i) (safeAdd_arrayB totalIn (in_Coins i)) in
          match Coins_Add totalIn (in_Coins i) with
          | Err e => (Err e, i' :: rest)
          | Panic w => (Panic w, i' :: rest)
          | Ok totalIn => let '(r, rest) := validate_inputs totalIn rest in (r, i' :: rest)
          end
      end
  end.

Fixpoint validate_outputs (totalOut : Coins) (outs : list Output) : Outcome Coins * list Output :=
  match outs with
  | [] => (Ok totalOut, [])
  | o :: rest =>
      match Output_ValidateBasic o with
      | Err e => (Err e, o :: rest)
      | Panic w => (Panic w, o :: rest)
      | Ok _ =>
          let o' := mkOutput (out_Address o) (safeAdd_arrayB totalOut (out_Coins o)) in
          match Coins_Add totalOut (out_Coins o) with
          | Err e => (Err e, o' :: rest)
          | Panic w => (Panic w, o' :: rest)
          | Ok totalOut => let '(r, rest) := validate_outputs totalOut rest in (r, o' :: rest)
          end
      end
  end.

(** A computation on the message, because the checks change its coins. *)
Definition MsgSend_ValidateBasic : M MsgSend unit := λ msg,
  if bool_decide (length (Inputs msg) = 0%nat) then (Err bank_ErrNoInputs, msg) else
  if bool_decide (length (Outputs msg) = 0%nat) then (Err bank_ErrNoOutputs, msg) else
  let '(totalIn, ins) := validate_inputs [] (Inputs msg) in
  match totalIn with
  | Err e => (Err e, mkMsgSend ins (Outputs msg))
  | Panic w => (Panic w, mkMsgSend ins (Outputs msg))
  | Ok totalIn =>
      let '(totalOut, outs) := validate_outputs [] (Outputs msg) in
      match totalOut with
      | Err e => (Err e, mkMsgSend ins outs)
      | Panic w => (Panic w, mkMsgSend ins outs)
      | Ok totalOut =>
          (if negb (Coins_IsEqual totalIn totalOut) then Err ErrInvalidCoins else Ok tt,
           mkMsgSend ins outs)
      end
  end.

Definition MsgSend_GetSigners (msg : MsgSend) : list AccAddress := in_Address <$> Inputs msg.
Definition MsgBurn_GetSigners (msg : MsgBurn) : list AccAddress := [burn_Owner msg].
Definition MsgSetMemoRegexp_GetSigners (msg : MsgSetMemoRegexp) : list AccAddress := [memo_Owner msg].
Definition BankMsg_GetSigners (msg : BankMsg) : list AccAddress :=
  match msg with
  | BMsgSend m => MsgSend_GetSigners m
  | BMsgBurn m => MsgBurn_GetSigners m
  | BMsgSetMemoRegexp m => MsgSetMemoRegexp_GetSigners m
  | BMsgOther => []
  end.

(** ** The keeper (keeper.go) *)
Definition costGetCoins : Z := 10.
Definition costGetLoosenCoins : Z := 10.
Definition costBurnCoins : Z := 100.
Definition costHasCoins : Z := 10.
Definition costSetCoins : Z := 100.
Definition costSubtractCoins : Z := 10.
Definition costAddCoins : Z := 10.

Definition getCoins (addr : AccAddress) : M AuthState Coins :=
  ctx_ConsumeGas costGetCoins "getCoins" ;;;
  acc <- GetAccount addr ;;
  match acc with None => ret [] | Some acc => ret (acc_Coins acc) end.

Definition getLoosenCoins : M AuthState Coins :=
  ctx_ConsumeGas costGetLoosenCoins "getLoosenCoins" ;;; GetTotalLoosenToken.

Definition setCoins (addr : AccAddress) (amt : Coins) : M AuthState unit :=
  ctx_ConsumeGas costSetCoins "setCoins" ;;;
  acc <- GetAccount addr ;;
  acc <- match acc with None => NewAccountWithAddress addr | Some acc => ret acc end ;;
  SetAccount (SetCoins acc amt).

Definition hasCoins (addr : AccAddress) (amt : Coins) : M AuthState bool :=
  ctx_ConsumeGas costHasCoins "hasCoins" ;;;
  coins <- getCoins addr ;;
  ret (IsAllGTE coins amt).

Definition subtractCoins (addr : AccAddress) (amt : Coins) : M AuthState Coins :=
  if negb (Coins_IsValid amt) then panic "invalid coins" else
  ctx_ConsumeGas costSubtractCoins "subtractCoins" ;;;
  oldCoins <- getCoins addr ;;
  r <- lift (Coins_SafeSub oldCoins amt) ;;
  let '(newCoins, hasNeg) := r in
  if hasNeg : bool then throw ErrInsufficientCoins else
  setCoins addr newCoins ;;; ret newCoins.

Definition SetMemoRegexp (fromAddr : AccAddress) (regexp : string) : M AuthState unit :=
  acc <- GetAccount fromAddr ;;
  match acc with
  | None => throw bank_ErrInvalidAccount
  | Some acc => SetAccount (Account_SetMemoRegexp acc regexp)
  end.

Section keeper.
Context `{Crypto}.

(** The accounting of one coin that reaches the burned-coins address; the
    error of [DecreaseTotalSupply] is dropped. *)
Definition burn_coin (coin : Coin) : M AuthState unit :=
  if bool_decide (denom coin = IrisAtto) then DecreaseTotalLoosenToken [coin]
  else ignore_err (DecreaseTotalSupply coin).

Definition addCoins (addr : AccAddress) (amt : Coins) : M AuthState Coins :=
  if negb (Coins_IsValid amt) then panic "invalid coins" else
  ctx_ConsumeGas costAddCoins "addCoins" ;;;
  oldCoins <- getCoins addr ;;
  newCoins <- lift (Coins_Add oldCoins amt) ;;
  setCoins addr newCoins ;;;
  (if AccAddress_Equals addr BurnedCoinsAccAddr
   then for_each (safeAdd_arrayB oldCoins amt) burn_coin else ret tt) ;;;
  ret newCoins.

Definition sendCoins (fromAddr toAddr : AccAddress) (amt : Coins) : M AuthState unit :=
  subtractCoins fromAddr amt ;;;
  addCoins toAddr amt ;;;
  ret tt.

Definition BurnCoins (fromAddr : AccAddress) (amt : Coins) : M AuthState unit :=
  ctx_ConsumeGas costBurnCoins "burnCoins" ;;;
  sendCoins fromAddr BurnedCoinsAccAddr amt.

Definition inputOutputCoins (inputs : list Input) (outputs : list Output) : M AuthState unit :=
  for_each inputs (λ i, subtractCoins (in_Address i) (in_Coins i) ;;; ret tt) ;;;
  for_each outputs (λ o, addCoins (out_Address o) (out_Coins o) ;;; ret tt).

(** Start of protocol v1: coins sent to the burned-coins address under v0 and
    the old counter of burned coins are merged. *)
Definition Keeper_Init : M AuthState unit :=
  burnedCoins <- gets (λ s, default [] (burnedToken s)) ;;
  v0burnedAddrCoins <- getCoins BurnedCoinsAccAddr ;;
  (if negb (Coins_Empty v0burnedAddrCoins)
   then DecreaseTotalLoosenToken v0burnedAddrCoins else ret tt) ;;;
  IncreaseTotalLoosenToken burnedCoins ;;;
  ignore_err (addCoins BurnedCoinsAccAddr burnedCoins).

(** ** The handler (handler.go) *)
Definition handleMsgSend (msg : MsgSend) : M AuthState unit :=
  inputOutputCoins (Inputs msg) (Outputs msg).
Definition handleMsgBurn (msg : MsgBurn) : M AuthState unit :=
  BurnCoins (burn_Owner msg) (burn_Coins msg).
Definition handleMsgSetMemoRegexp (msg : MsgSetMemoRegexp) : M AuthState unit :=
  SetMemoRegexp (memo_Owner msg) (memo_Regexp msg).

Definition bank_Handler (msg : BankMsg) : M AuthState unit :=
  match msg with
  | BMsgSend msg => handleMsgSend msg
  | BMsgBurn msg => handleMsgBurn msg
  | BMsgSetMemoRegexp msg => handleMsgSetMemoRegexp msg
  | BMsgOther => throw ErrUnknownRequest
  end.
End keeper.

(** ** Memo rules (msgs.go, ante.go)

    [Compile] and [MatchString] stand for the functions of package regexp on
    patterns chosen by users. *)
Section memo.
Variable Compile : string → bool.
Variable MatchString : string → string → bool.

Definition memoRegexpLengthLimit : nat := 50.

Definition MsgSetMemoRegexp_ValidateBasic (m : MsgSetMemoRegexp) : Outcome unit :=
  if bool_decide (str_len (memo_Owner m) = 0%nat) then Err ErrInvalidAddress else
  if bool_decide (memoRegexpLengthLimit < str_len (memo_Regexp m))%nat
  then Err bank_ErrInvalidMemoRegexp else
  if negb (Compile (memo_Regexp m)) then Err bank_ErrInvalidMemoRegexp else Ok tt.

Definition memo_ok (memo : string) (acc : option BaseAccount) : bool :=
  match acc with
  | None => true
  | Some acc =>
      if bool_decide (acc_MemoRegexp acc ≠ "") then MatchString (acc_MemoRegexp acc) memo else true
  end.

Definition bank_AnteHandler (memo : string) (msgs : list BankMsg) : M AuthState unit :=
  for_each msgs (λ msg,
    match msg with
    | BMsgSend sendMsg =>
        for_each (Outputs sendMsg) (λ output,
          acc <- GetAccount (out_Address output) ;;
          require (memo_ok memo acc) bank_ErrInvalidMemo)
    | _ => ret tt
    end).
End memo.

(** ** Invariants (invariants.go) *)
Definition NonnegativeBalanceInvariant : M AuthState bool :=
  accts <- GetAllAccounts ;;
  ret (forallb (λ acc, negb (IsAnyNegative (acc_Coins acc))) accts).

(** A panic while adding up is reported as a broken invariant. *)
Definition TotalCoinsInvariant (totalSupplyFn : Coins) : M AuthState bool :=
  accts <- GetAllAccounts ;;
  match foldl (λ t acc, let? t := t in Coins_Add t (acc_Coins acc)) (Ok []) accts with
  | Ok totalCoins => ret (Coins_IsEqual totalSupplyFn totalCoins)
  | _ => ret false
  end.
