(* ===== verification/BankFacts.v ===== *)
(** * What the bank guarantees

    The well-formedness of the account store, the effect of every transfer on
    every balance, conservation of coins by messages, and the accounting of
    burned coins. *)

From S2P Require Import Prelude SdkErrors IntType GoStrings Denom Coin CoinFacts Gas KVStore Auth Bank.
#[local] Open Scope Z_scope.

(** ** The view of the account store *)
Definition coins_of (s : AuthState) (a : AccAddress) : Coins :=
  match accounts s !! a with Some acc => acc_Coins acc | None => [] end.
Definition balance (s : AuthState) (a : AccAddress) (d : string) : Z := amt (coins_of s a) d.
Definition total (s : AuthState) (d : string) : Z :=
  map_sum (λ acc, amt (acc_Coins acc) d) (accounts s).
Definition loosen (s : AuthState) (d : string) : Z := amt (default [] (totalLoosenToken s)) d.
(** The recorded supply of a token. *)
Definition supply (s : AuthState) (d : string) : option Z :=
  amount <$> totalSupply s !! TotalSupplyStoreKey d.

Record auth_wf (s : AuthState) : Prop := {
  wf_address : ∀ a acc, accounts s !! a = Some acc → acc_Address acc = a;
  wf_canonical : ∀ a, canonical (coins_of s a);
  wf_nonneg : ∀ a, nonneg (coins_of s a) }.

(** The parts of the store no transfer between ordinary accounts touches. *)
Definition same_supply (s s' : AuthState) : Prop :=
  totalLoosenToken s' = totalLoosenToken s ∧ totalSupply s' = totalSupply s ∧
  burnedToken s' = burnedToken s.

#[export] Instance same_supply_po : PreOrder same_supply.
Proof. unfold same_supply. split; [done|]. intros ???; naive_solver congruence. Qed.

Lemma coins_of_sorted s a : auth_wf s → sorted (coins_of s a).
Proof. intros Hs. apply (wf_canonical _ Hs a). Qed.

Lemma balance_nonneg s a d : auth_wf s → 0 ≤ balance s a d.
Proof. intros Hs. apply amt_nonneg, (wf_nonneg _ Hs). Qed.

#[export] Hint Resolve coins_of_sorted wf_canonical wf_nonneg balance_nonneg : sdk.

(** ** Gas *)
Lemma ctx_ConsumeGas_inv n desc s u s' :
  ctx_ConsumeGas n desc s = (Ok u, s') → ∃ g, s' = set_gas g s.
Proof. intros (g&_&->)%zoom_ok. eauto. Qed.

Lemma auth_wf_gas g s : auth_wf s → auth_wf (set_gas g s).
Proof. intros [H1 H2 H3]. by split. Qed.

Lemma getCoins_ok a s c s' :
  getCoins a s = (Ok c, s') → (∃ g, s' = set_gas g s) ∧ c = coins_of s a.
Proof.
  unfold getCoins. intros H. inv_ok H. apply ctx_ConsumeGas_inv in E as [g ->].
  unfold GetAccount, gets in E0. injection E0 as <- <-. unfold coins_of. simpl in *.
  destruct (accounts s !! a); unfold ret in H; injection H as <- <-; eauto.
Qed.

(** ** Writing an account's coins *)
Lemma GetNextAccountNumber_ok s n s' :
  GetNextAccountNumber s = (Ok n, s') →
  s' = set_globalAccountNumber (Some (wrap64 (default 0 (globalAccountNumber s) + 1))) s ∧
  n = default 0 (globalAccountNumber s).
Proof.
  unfold GetNextAccountNumber, bind, get, modify, ret. intros [= <- <-].
  by destruct (globalAccountNumber s).
Qed.

Lemma setCoins_ok a c s u s' :
  auth_wf s → setCoins a c s = (Ok u, s') →
  ∃ acc, accounts s' = <[a := acc]> (accounts s) ∧ acc_Address acc = a ∧ acc_Coins acc = c ∧
         same_supply s s'.
Proof.
  intros Hs H. unfold setCoins in H. inv_ok H. apply ctx_ConsumeGas_inv in E as [g ->].
  unfold GetAccount, gets in E0. injection E0 as <- <-. simpl in *.
  unfold SetAccount, modify in H. injection H as <- <-.
  destruct (accounts s !! a) as [acc|] eqn:Ea.
  - unfold ret in E1. injection E1 as <- <-. pose proof (wf_address _ Hs _ _ Ea).
    exists (SetCoins acc c). simpl. split_and!; try done. by f_equal.
  - change (NewAccountWithAddress a) with
      (bind GetNextAccountNumber (λ n, ret (SetAccountNumber (NewBaseAccountWithAddress a) n)))
      in E1. inv_ok E1.
    apply GetNextAccountNumber_ok in E as [-> ->].
    eexists. split; [done|]. split_and!; done.
Qed.

Lemma setCoins_coins_of a c s u s' x :
  auth_wf s → setCoins a c s = (Ok u, s') →
  coins_of s' x = if decide (x = a) then c else coins_of s x.
Proof.
  intros Hs H. destruct (setCoins_ok _ _ _ _ _ Hs H) as (acc&Ha&_&<-&_).
  unfold coins_of. rewrite Ha. case_decide as E.
  - subst. by rewrite lookup_insert_eq.
  - by rewrite lookup_insert_ne.
Qed.

Lemma setCoins_wf a c s u s' :
  auth_wf s → canonical c → nonneg c → setCoins a c s = (Ok u, s') → auth_wf s'.
Proof.
  intros Hs Hc Hn H. destruct (setCoins_ok _ _ _ _ _ Hs H) as (acc&Ha&Had&_&_).
  pose proof (setCoins_coins_of a c s u s') as Hco. split.
  - intros x acc'. rewrite Ha, lookup_insert_Some.
    intros [[<- <-]|[? ?]]; [done|]. by apply (wf_address _ Hs).
  - intros x. rewrite Hco by done. case_decide; [done|]. apply (wf_canonical _ Hs).
  - intros x. rewrite Hco by done. case_decide; [done|]. apply (wf_nonneg _ Hs).
Qed.

Lemma setCoins_total a c s u s' d :
  auth_wf s → setCoins a c s = (Ok u, s') → total s' d = total s d - balance s a d + amt c d.
Proof.
  intros Hs H. destruct (setCoins_ok _ _ _ _ _ Hs H) as (acc&Ha&_&<-&_).
  unfold total. rewrite Ha, map_sum_insert. unfold at_key, balance, coins_of.
  by destruct (accounts s !! a).
Qed.

(** ** Taking and giving coins *)

(** What an operation that changes the coins of one account does. *)
Record changes (s s' : AuthState) (a : AccAddress) (delta : string → Z) : Prop := {
  ch_wf : auth_wf s';
  ch_balance : ∀ x d, balance s' x d = balance s x d + if decide (x = a) then delta d else 0;
  ch_total : ∀ d, total s' d = total s d + delta d }.

Lemma setCoins_changes a c s u s' :
  auth_wf s → canonical c → nonneg c → setCoins a c s = (Ok u, s') →
  changes s s' a (λ d, amt c d - balance s a d).
Proof.
  intros Hs Hc Hn H. split.
  - by eapply setCoins_wf.
  - intros x d. unfold balance at 1. rewrite (setCoins_coins_of _ _ _ _ _ x Hs H).
    case_decide as E; [subst|]; unfold balance; lia.
  - intros d. rewrite (setCoins_total _ _ _ _ _ d Hs H). lia.
Qed.

Lemma changes_ext s s' a f g : (∀ d, f d = g d) → changes s s' a f → changes s s' a g.
Proof.
  intros He [H1 H2 H3]. split; [done|..].
  - intros x d. by rewrite H2, He.
  - intros d. by rewrite H3, He.
Qed.

Lemma changes_gas s s' a f g : changes (set_gas g s) s' a f → changes s s' a f.
Proof. intros [H1 H2 H3]. by split. Qed.

Lemma subtractCoins_ok a c s r s' :
  auth_wf s → subtractCoins a c s = (Ok r, s') →
  Coins_IsValid c = true ∧ changes s s' a (λ d, - amt c d) ∧ same_supply s s' ∧
  (∀ d, amt c d ≤ balance s a d) ∧ r = coins_of s' a.
Proof.
  intros Hs. unfold subtractCoins. destruct (Coins_IsValid c) eqn:Hv; [|done]. simpl.
  intros H. inv_ok H. apply ctx_ConsumeGas_inv in E as [g ->].
  apply getCoins_ok in E0 as [[g' ->] ->]. destruct a2 as [new neg].
  destruct neg; [done|]. inv_ok H. simpl in E1. change (coins_of (set_gas g s) a) with (coins_of s a) in *.
  pose proof Hv as (Sc&Nc&_)%Coins_IsValid_iff.
  destruct (Coins_SafeSub_spec _ _ _ _ (coins_of_sorted s a Hs) Sc E1) as (Hc&Ha&Hn).
  pose proof (proj1 Hn eq_refl) as Hle.
  assert (Hnn : nonneg r).
  { apply nonneg_amt; [apply Hc|]. intros d. rewrite Ha. specialize (Hle d). lia. }
  assert (Hw : auth_wf (set_gas g' (set_gas g s))) by (by do 2 apply auth_wf_gas).
  split_and!; [done| | |done|].
  - eapply changes_gas, changes_gas, changes_ext; [|by eapply (setCoins_changes a r _ _ _ Hw)].
    intros d. simpl. rewrite Ha. unfold balance, coins_of. simpl. lia.
  - by destruct (setCoins_ok _ _ _ _ _ Hw E) as (?&_&_&_&?).
  - rewrite (setCoins_coins_of _ _ _ _ _ a Hw E). by rewrite decide_True.
Qed.

(** Accounting of burned coins leaves the accounts alone. *)
Definition same_accounts (s s' : AuthState) : Prop := accounts s' = accounts s.

#[export] Instance same_accounts_po : PreOrder same_accounts.
Proof. unfold same_accounts. split; [done|]. intros ???; congruence. Qed.

Lemma changes_same_accounts s s1 s' a f :
  changes s s1 a f → same_accounts s1 s' → changes s s' a f.
Proof.
  intros [[W1 W2 W3] H2 H3] E.
  assert (Hc : ∀ x, coins_of s' x = coins_of s1 x) by (intros x; unfold coins_of; by rewrite E).
  split; [split|..].
  - by rewrite E.
  - intros x. by rewrite Hc.
  - intros x. by rewrite Hc.
  - intros x d. unfold balance at 1. by rewrite Hc, <-H2.
  - intros d. unfold total at 1. by rewrite E, <-H3.
Qed.

Lemma DecreaseTotalLoosenToken_accounts c s r s' :
  DecreaseTotalLoosenToken c s = (r, s') → same_accounts s s'.
Proof.
  unfold DecreaseTotalLoosenToken, GetTotalLoosenToken, bind, gets, lift, modify, panic, ret.
  repeat case_match; intros; simplify_eq; done.
Qed.

Lemma DecreaseTotalSupply_accounts c s r s' :
  DecreaseTotalSupply c s = (r, s') → same_accounts s s'.
Proof.
  unfold DecreaseTotalSupply, GetTotalSupply, SetTotalSupply, bind, gets, lift, modify, panic, throw, ret.
  repeat case_match; intros; simplify_eq; done.
Qed.

Lemma burn_coin_accounts c s u s' : burn_coin c s = (Ok u, s') → same_accounts s s'.
Proof.
  unfold burn_coin. case_bool_decide; [apply DecreaseTotalLoosenToken_accounts|].
  unfold ignore_err. destruct (DecreaseTotalSupply c s) as [r s1] eqn:E.
  apply DecreaseTotalSupply_accounts in E. destruct r; intros; by simplify_eq.
Qed.

Lemma burn_coins_accounts l s u s' : for_each l burn_coin s = (Ok u, s') → same_accounts s s'.
Proof.
  revert s. induction l as [|c l IH]; intros s H.
  - unfold for_each, ret in H. by simplify_eq.
  - apply for_each_ok in H as (s1&H1%burn_coin_accounts&H2%IH). by etrans.
Qed.

Section keeper.
Context `{Crypto}.

(** The state reached by [addCoins] before the accounting of burned coins. *)
Lemma addCoins_ok a c s r s' :
  auth_wf s → addCoins a c s = (Ok r, s') →
  Coins_IsValid c = true ∧ ∃ s1,
    changes s s1 a (amt c) ∧ same_supply s s1 ∧ r = coins_of s1 a ∧
    if decide (a = BurnedCoinsAccAddr)
    then for_each (safeAdd_arrayB (coins_of s a) c) burn_coin s1 = (Ok tt, s')
    else s' = s1.
Proof.
  intros Hs. unfold addCoins. destruct (Coins_IsValid c) eqn:Hv; [|done]. simpl.
  intros H1. inv_ok H1. apply ctx_ConsumeGas_inv in E as [g ->].
  apply getCoins_ok in E0 as [[g' ->] ->].
  change (coins_of (set_gas g s) a) with (coins_of s a) in *.
  pose proof Hv as (Sc&Nc&_)%Coins_IsValid_iff.
  destruct (Coins_Add_canonical _ _ _ (coins_of_sorted s a Hs) Sc E1) as [Hc Hn].
  pose proof (λ d, Coins_Add_amt _ _ _ d E1) as Ha.
  assert (Hw : auth_wf (set_gas g' (set_gas g s))) by (by do 2 apply auth_wf_gas).
  split; [done|]. eexists. split_and!.
  - eapply changes_gas, changes_gas, changes_ext; [|by eapply (setCoins_changes a _ _ _ _ Hw)].
    intros d. simpl. rewrite Ha. unfold balance, coins_of. simpl. lia.
  - by destruct (setCoins_ok _ _ _ _ _ Hw E2) as (?&_&_&_&?).
  - rewrite (setCoins_coins_of _ _ _ _ _ a Hw E2). by rewrite decide_True.
  - case_decide as Eb.
    + rewrite (proj2 (AccAddress_Equals_iff _ _) Eb) in E3. by destruct a4.
    + destruct (AccAddress_Equals a BurnedCoinsAccAddr) eqn:Eq.
      * by apply AccAddress_Equals_iff in Eq.
      * unfold ret in E3. by simplify_eq.
Qed.

Lemma addCoins_changes a c s r s' :
  auth_wf s → addCoins a c s = (Ok r, s') →
  Coins_IsValid c = true ∧ changes s s' a (amt c) ∧ (a ≠ BurnedCoinsAccAddr → same_supply s s').
Proof.
  intros Hs (Hv&s1&Hc&Hsup&_&Hb)%addCoins_ok; [|done]. split; [done|]. case_decide as E.
  - split; [|done]. eapply changes_same_accounts; [done|]. by eapply burn_coins_accounts.
  - by subst.
Qed.

(** A transfer moves exactly [c], from the balance of [from] to that of [to]. *)
Lemma sendCoins_ok from to c s u s' :
  auth_wf s → sendCoins from to c s = (Ok u, s') →
  Coins_IsValid c = true ∧ auth_wf s' ∧
  (∀ x d, balance s' x d = balance s x d - (if decide (x = from) then amt c d else 0)
                                         + (if decide (x = to) then amt c d else 0)) ∧
  (∀ d, total s' d = total s d) ∧
  (∀ d, amt c d ≤ balance s from d) ∧
  (to ≠ BurnedCoinsAccAddr → same_supply s s').
Proof.
  intros Hs Hsend. unfold sendCoins in Hsend. inv_ok Hsend.
  destruct (subtractCoins_ok _ _ _ _ _ Hs E) as (Hv&Hc1&Hs1&Hle&_).
  destruct (addCoins_changes _ _ _ _ _ (ch_wf _ _ _ _ Hc1) E0) as (_&Hc2&Hs2).
  split_and!; [done|by eapply ch_wf| | |done|].
  - intros x d. rewrite (ch_balance _ _ _ _ Hc2), (ch_balance _ _ _ _ Hc1).
    repeat case_decide; lia.
  - intros d. rewrite (ch_total _ _ _ _ Hc2), (ch_total _ _ _ _ Hc1). lia.
  - intros Hto. etrans; [done|]. auto.
Qed.

(** ** When transfers succeed *)

(** A computation that succeeds from [s] and uses [n] units of gas. *)
Definition runs {A} (c : M AuthState A) (s : AuthState) (n : Z) (Q : A → AuthState → Prop) : Prop :=
  ∃ a s', c s = (Ok a, s') ∧ gas_wf (gas s') ∧ gas_room (gas s') = gas_room (gas s) - n ∧ Q a s'.

Definition has_gas (s : AuthState) (n : Z) : Prop := gas_wf (gas s) ∧ n ≤ gas_room (gas s).

Lemma ConsumeGas_runs n desc s :
  has_gas s n → 0 ≤ n → runs (ctx_ConsumeGas n desc) s n (λ _ s', ∃ g, s' = set_gas g s).
Proof.
  intros [Hg Hr] Hn. destruct (ConsumeGas_ok (gas s) n desc) as (g&Hok&Hw&Hroom); [done|lia|].
  exists tt, (set_gas g s). split; [apply zoom_ok; eauto|]. simpl. split_and!; try done. eauto.
Qed.

Lemma runs_bind {A B} (c : M AuthState A) (k : A → M AuthState B) s n m P Q :
  runs c s n P → (∀ a s', P a s' → gas_wf (gas s') → gas_room (gas s') = gas_room (gas s) - n →
                  runs (k a) s' m Q) → runs (bind c k) s (n + m) Q.
Proof.
  intros (a&s1&Hc&Hw&Hr&HP) Hk. destruct (Hk a s1 HP Hw Hr) as (b&s2&Hb&Hw2&Hr2&HQ).
  exists b, s2. split; [by rewrite (bind_run _ _ _ _ _ Hc)|]. split_and!; [done|lia|done].
Qed.

Lemma getCoins_runs a s :
  has_gas s costGetCoins → runs (getCoins a) s costGetCoins (λ c s', c = coins_of s a ∧ ∃ g, s' = set_gas g s).
Proof.
  intros Hg. eapply (runs_bind _ _ _ costGetCoins 0); [by apply ConsumeGas_runs|]. intros [] s' [g ->] Hw Hr.
  unfold runs, coins_of, GetAccount, bind, gets. simpl in *.
  destruct (accounts s !! a) as [acc|]; unfold ret;
    (do 2 eexists; split; [done|]; split_and!; [done|simpl; lia|done|eauto]).
Qed.

Lemma setCoins_runs a c s :
  has_gas s costSetCoins → runs (setCoins a c) s costSetCoins (λ _ s', same_supply s s').
Proof.
  intros Hg. eapply (runs_bind _ _ _ costSetCoins 0); [by apply ConsumeGas_runs|]. intros [] s' [g ->] Hw Hr.
  unfold runs, GetAccount, bind, gets, SetAccount, modify. simpl in *.
  destruct (accounts s !! a) as [acc|]; unfold ret;
    (do 2 eexists; split; [done|]; split_and!; [done|simpl; lia|done]).
Qed.

Lemma wf_amt_nonneg s d a acc : auth_wf s → accounts s !! a = Some acc → 0 ≤ amt (acc_Coins acc) d.
Proof. intros Hs Ha. pose proof (balance_nonneg s a d Hs) as Hb. unfold balance, coins_of in Hb. by rewrite Ha in Hb. Qed.
Lemma amt_int_ok coins d : sorted coins → in_range coins → int_ok (amt coins d).
Proof.
  intros Hs Hr. destruct (decide (amt coins d = 0)) as [->|Hnz]; [done|].
  apply amt_pos_in in Hnz as (c&Hin&<-). rewrite amt_in by done.
  by apply (proj1 (Forall_forall _ _) Hr).
Qed.

(** Balances are parts of the total. *)
Lemma balance_le_total s x d : auth_wf s → balance s x d ≤ total s d.
Proof.
  intros Hs. unfold balance, coins_of, total. destruct (accounts s !! x) as [acc|] eqn:E.
  - apply (map_sum_le_key (λ acc, amt (acc_Coins acc) d) _ _ _ (λ a acc, wf_amt_nonneg s d a acc Hs) E).
  - apply map_sum_nonneg. intros a acc. by apply wf_amt_nonneg.
Qed.
Lemma balances_le_total s x y d : auth_wf s → x ≠ y → balance s x d + balance s y d ≤ total s d.
Proof.
  intros Hs Hne. unfold balance at 1, coins_of. destruct (accounts s !! x) as [acc|] eqn:E;
    [|pose proof (balance_le_total s y d Hs); simpl; lia].
  pose proof (map_sum_delete (λ acc, amt (acc_Coins acc) d) _ _ _ E) as Hd. fold (total s d) in Hd.
  assert (Hnn : ∀ a acc', delete x (accounts s) !! a = Some acc' → 0 ≤ amt (acc_Coins acc') d).
  { intros a acc' [_ Ha]%lookup_delete_Some. by eapply wf_amt_nonneg. }
  unfold balance, coins_of. destruct (accounts s !! y) as [acc'|] eqn:Ey; simpl.
  - pose proof (map_sum_le_key (λ acc, amt (acc_Coins acc) d) _ y acc' Hnn) as Hle. simpl in *.
    rewrite lookup_delete_ne in Hle by done. specialize (Hle Ey). lia.
  - assert (0 ≤ map_sum (λ acc, amt (acc_Coins acc) d) (delete x (accounts s))) by by apply map_sum_nonneg. simpl in Hd. lia.
Qed.

Lemma in_range_total s x : auth_wf s → (∀ d, total s d < 2^255) → in_range (coins_of s x).
Proof.
  intros Hs Ht. apply Forall_forall. intros c Hc. pose proof (amt_in _ _ (coins_of_sorted s x Hs) Hc) as Ha.
  pose proof (balance_nonneg s x (denom c) Hs) as Hn. pose proof (balance_le_total s x (denom c) Hs) as Hle.
  unfold balance in *. specialize (Ht (denom c)). unfold int_ok. lia.
Qed.

Definition gasSubtract : Z := costSubtractCoins + (costGetCoins + costSetCoins).
Definition gasAdd : Z := costAddCoins + (costGetCoins + costSetCoins).

(** With gas and in-range balances, [subtractCoins] either takes the coins or
    reports that they are missing, and [IsAllGTE] tells which. *)
Lemma subtractCoins_runs a c s :
  auth_wf s → in_range (coins_of s a) → has_gas s gasSubtract → Coins_IsValid c = true →
  (∀ d, amt c d ≤ balance s a d) →
  runs (subtractCoins a c) s gasSubtract (λ _ _, True).
Proof.
  intros Hs Hr [Hw Hg] Hv Hle. unfold subtractCoins. rewrite Hv. simpl negb. cbv iota.
  pose proof Hv as (Sc&Nc&_)%Coins_IsValid_iff. unfold gasSubtract in *.
  unfold costSubtractCoins, costGetCoins, costSetCoins in Hg.
  eapply runs_bind; [apply ConsumeGas_runs; [split; [done|]|]; unfold costSubtractCoins; lia|].
  intros [] s1 [g ->] Hw1 Hr1. unfold costSubtractCoins in Hr1. simpl in *.
  eapply runs_bind; [apply getCoins_runs; split; [done|]; unfold costGetCoins; simpl; lia|].
  intros c1 s2 [-> [g2 ->]] Hw2 Hr2. unfold costGetCoins in Hr2. simpl in *.
  change (coins_of (set_gas g s) a) with (coins_of s a).
  destruct (Coins_SafeSub_total (coins_of s a) c) as [[new neg] Hsub]; [by apply coins_of_sorted|done|..].
  { intros d. pose proof (amt_int_ok (coins_of s a) d (coins_of_sorted s a Hs) Hr) as Hok.
    pose proof (amt_nonneg c d Nc). specialize (Hle d). unfold balance in Hle. unfold int_ok in *. lia. }
  destruct (Coins_SafeSub_spec _ _ _ _ (coins_of_sorted s a Hs) Sc Hsub) as (_&_&Hn).
  pose proof (proj2 Hn Hle) as ->. rewrite Hsub. unfold bind at 1, lift at 1.
  eapply (runs_bind _ _ _ costSetCoins 0); [apply setCoins_runs; split; [done|]; unfold costSetCoins; simpl; lia|].
  intros [] s3 _ Hw3 Hr3. exists new, s3. split_and!; [done|done|lia|done].
Qed.

Lemma addCoins_runs_gen a c s (Q : AuthState → Prop) :
  auth_wf s → has_gas s gasAdd → Coins_IsValid c = true →
  (∀ d, int_ok (balance s a d + amt c d)) →
  (∀ s1, same_supply s s1 → has_gas s1 0 →
         runs (if AccAddress_Equals a BurnedCoinsAccAddr
               then for_each (safeAdd_arrayB (coins_of s a) c) burn_coin else ret tt) s1 0 (λ _, Q)) →
  runs (addCoins a c) s gasAdd (λ _, Q).
Proof.
  intros Hs [Hw Hg] Hv Hok Hburn. unfold addCoins. rewrite Hv. simpl negb. cbv iota.
  pose proof Hv as (Sc&Nc&_)%Coins_IsValid_iff. unfold gasAdd in *.
  unfold costAddCoins, costGetCoins, costSetCoins in Hg.
  eapply runs_bind; [apply ConsumeGas_runs; [split; [done|]|]; unfold costAddCoins; lia|].
  intros [] s1 [g ->] Hw1 Hr1. unfold costAddCoins in Hr1. simpl in *.
  eapply runs_bind; [apply getCoins_runs; split; [done|]; unfold costGetCoins; simpl; lia|].
  intros c1 s2 [-> [g2 ->]] Hw2 Hr2. unfold costGetCoins in Hr2. simpl in *.
  change (coins_of (set_gas g s) a) with (coins_of s a).
  destruct (Coins_Add_total (coins_of s a) c) as [new Hadd];
    [by apply coins_of_sorted|done|by apply (wf_nonneg _ Hs)|done|done|].
  rewrite Hadd. unfold bind at 1, lift at 1.
  eapply (runs_bind _ _ _ costSetCoins 0); [apply setCoins_runs; split; [done|]; unfold costSetCoins; simpl; lia|].
  intros [] s3 Hsup Hw3 Hr3. unfold costSetCoins in Hr3. simpl in Hr3.
  eapply (runs_bind _ _ _ 0 0 (λ _, Q)); [|intros u s4 HQ Hw4 Hr4; exists new, s4; split_and!; [done|done|lia|done]].
  apply Hburn; [exact Hsup|split; [done|lia]].
Qed.
Lemma addCoins_runs a c s :
  auth_wf s → a ≠ BurnedCoinsAccAddr → has_gas s gasAdd → Coins_IsValid c = true →
  (∀ d, int_ok (balance s a d + amt c d)) →
  runs (addCoins a c) s gasAdd (λ _ _, True).
Proof.
  intros Hs Hb Hg Hv Hok. apply (addCoins_runs_gen a c s (λ _, True)); [done..|]. intros s1 _ [Hw Hr].
  destruct (AccAddress_Equals a BurnedCoinsAccAddr) eqn:Eq; [by apply AccAddress_Equals_iff in Eq|].
  exists tt, s1. split_and!; [done|done|lia|done].
Qed.
(** A transfer the bank can carry out. *)
Definition auth_fits (s : AuthState) (f t : AccAddress) (c : Coins) : Prop :=
  has_gas s (gasSubtract + gasAdd) ∧ t ≠ BurnedCoinsAccAddr ∧
  in_range (coins_of s f) ∧ ∀ d, int_ok (balance s t d + amt c d).

Lemma sendCoins_total f t c s :
  auth_wf s → auth_fits s f t c → f ≠ t → Coins_IsValid c = true →
  (∀ d, amt c d ≤ balance s f d) → ∃ s', sendCoins f t c s = (Ok tt, s').
Proof.
  intros Hs ([Hw Hg]&Hb&Hr&Hok) Hne Hv Hle.
  unfold gasSubtract, gasAdd, costSubtractCoins, costAddCoins, costGetCoins, costSetCoins in Hg.
  destruct (subtractCoins_runs f c s) as (r&s1&Hsub&Hw1&Hr1&_); [done|done| |done|done|].
  { split; [done|]. unfold gasSubtract, costSubtractCoins, costGetCoins, costSetCoins. lia. }
  destruct (subtractCoins_ok _ _ _ _ _ Hs Hsub) as (_&[Hwf Hbal _]&_).
  destruct (addCoins_runs t c s1) as (r'&s2&Hadd&_); [done|done| |done|..].
  { split; [done|]. rewrite Hr1.
    unfold gasSubtract, gasAdd, costSubtractCoins, costAddCoins, costGetCoins, costSetCoins. lia. }
  { intros d. rewrite Hbal, decide_False by done. rewrite Z.add_0_r. apply Hok. }
  exists s2. unfold sendCoins. rewrite (bind_run _ _ _ _ _ Hsub). by rewrite (bind_run _ _ _ _ _ Hadd).
Qed.

Lemma hasCoins_run a c s :
  has_gas s (costHasCoins + costGetCoins) →
  (hasCoins a c s).1 = Ok (IsAllGTE (coins_of s a) c).
Proof.
  intros [Hw Hg]. unfold costHasCoins, costGetCoins in Hg.
  destruct (ConsumeGas_runs costHasCoins "hasCoins" s) as (u&s1&E1&Hw1&Hr1&g&->); [|done|].
  { split; [done|]. unfold costHasCoins. lia. }
  unfold costHasCoins in Hr1. simpl in Hr1, Hw1.
  destruct (getCoins_runs a (set_gas g s)) as (c'&s2&E2&_&_&->&_).
  { split; [done|]. unfold costGetCoins. simpl. lia. }
  unfold hasCoins. rewrite (bind_run _ _ _ _ _ E1). by rewrite (bind_run _ _ _ _ _ E2).
Qed.

(** Missing coins are reported as an error. *)
Lemma subtractCoins_insufficient a c s k :
  auth_wf s → in_range (coins_of s a) → has_gas s (costSubtractCoins + costGetCoins) →
  Coins_IsValid c = true → ¬ (∀ d, amt c d ≤ balance s a d) →
  (∀ d, int_ok (amt c d)) →
  (bind (subtractCoins a c) k s).1 = Err (A := unit) ErrInsufficientCoins.
Proof.
  intros Hs Hr [Hw Hg] Hv Hle Hok. unfold costSubtractCoins, costGetCoins in Hg.
  pose proof Hv as (Sc&Nc&_)%Coins_IsValid_iff.
  destruct (ConsumeGas_runs costSubtractCoins "subtractCoins" s) as (u&s1&E1&Hw1&Hr1&g&->); [|done|].
  { split; [done|]. unfold costSubtractCoins. lia. }
  unfold costSubtractCoins in Hr1. simpl in Hr1, Hw1.
  destruct (getCoins_runs a (set_gas g s)) as (c'&s2&E2&_&_&->&_).
  { split; [done|]. unfold costGetCoins. simpl. lia. }
  change (coins_of (set_gas g s) a) with (coins_of s a) in E2.
  destruct (Coins_SafeSub_total (coins_of s a) c) as [[new neg] Hsub]; [by apply coins_of_sorted|done|..].
  { intros d. pose proof (amt_int_ok (coins_of s a) d (coins_of_sorted s a Hs) Hr) as Ha.
    pose proof (amt_nonneg c d Nc). pose proof (balance_nonneg s a d Hs) as Hb. specialize (Hok d).
    unfold balance in Hb. unfold int_ok in *. lia. }
  destruct (Coins_SafeSub_spec _ _ _ _ (coins_of_sorted s a Hs) Sc Hsub) as (_&_&Hn).
  destruct neg; [|by destruct Hle; apply Hn].
  unfold subtractCoins. rewrite Hv. simpl negb. cbv iota.
  unfold bind at 1. rewrite (bind_run _ _ _ _ _ E1). rewrite (bind_run _ _ _ _ _ E2).
  by rewrite Hsub.
Qed.
End keeper.

(** ** Example states *)

(** A check of well-formedness that evaluates. *)
Definition auth_wfb (s : AuthState) : bool :=
  forallb (λ p, bool_decide (acc_Address p.2 = p.1) && Coins_IsValid (acc_Coins p.2) &&
                forallb (λ c, negb (Coin_IsZero c)) (acc_Coins p.2)) (map_to_list (accounts s)).

Lemma auth_wfb_ok s : auth_wfb s = true → auth_wf s.
Proof.
  unfold auth_wfb. rewrite forallb_forall. intros H.
  assert (Hacc : ∀ a acc, accounts s !! a = Some acc →
    acc_Address acc = a ∧ canonical (acc_Coins acc) ∧ nonneg (acc_Coins acc)).
  { intros a acc Ha%elem_of_map_to_list%list_elem_of_In%H. simpl in Ha.
    apply andb_true_iff in Ha as [Ha Hz]. apply andb_true_iff in Ha as [Ha Hv].
    apply bool_decide_eq_true in Ha. apply Coins_IsValid_iff in Hv as (?&?&_).
    split_and!; [done| |done]. split; [done|]. apply Forall_forall. intros c Hc.
    rewrite forallb_forall in Hz. apply list_elem_of_In in Hc.
    specialize (Hz _ Hc). by apply negb_true_iff, Coin_IsZero_false in Hz. }
  split.
  - intros a acc Ha. by destruct (Hacc _ _ Ha) as (?&?&?).
  - intros a. unfold coins_of. destruct (accounts s !! a) eqn:Ha; [|by split; constructor].
    by destruct (Hacc _ _ Ha) as (?&?&?).
  - intros a. unfold coins_of. destruct (accounts s !! a) eqn:Ha; [|by constructor].
    by destruct (Hacc _ _ Ha) as (?&?&?).
Qed.

(** Addresses that are their own names, for evaluating examples. *)
Definition name_crypto : Crypto := {| AddressHash s := s |}.

Definition ex_account (a : AccAddress) (n : Z) (c : Coins) : BaseAccount := mkAccount a c None n 0 "".

Definition ex_bank (accts : list (AccAddress * Coins)) (loose : Z) (supplies : list Coin) : AuthState :=
  {| accounts := list_to_map (imap (λ i p, (p.1, ex_account p.1 (Z.of_nat i) p.2)) accts);
     globalAccountNumber := Some (Z.of_nat (length accts));
     totalLoosenToken := Some [mkCoin IrisAtto loose];
     totalSupply := list_to_map (map (λ c, (TotalSupplyStoreKey (denom c), c)) supplies);
     burnedToken := None;
     gas := NewGasMeter 10000 |}.

Definition ex_state : AuthState :=
  ex_bank [("alice", [mkCoin "btc-min" 10; mkCoin "iris-atto" 100]);
           ("bob", [mkCoin "btc-min" 1])] 100 [mkCoin "btc-min" 11].

Lemma ex_state_wf : auth_wf ex_state.
Proof. apply auth_wfb_ok. vm_compute. reflexivity. Qed.
