(* ===== verification/BankThms.v ===== *)
(** * Theorems about the bank

    Transfers, messages, burning and the module's invariants, stated on the
    view of the account store of [BankFacts]. *)

From S2P Require Import Prelude SdkErrors IntType GoStrings Denom Coin CoinFacts Gas KVStore Auth Bank BankFacts.
#[local] Open Scope Z_scope.

(** ** Sums over the parts of a message *)
Abbreviation parts := (list (AccAddress * Coins)).
Definition in_part (i : Input) : AccAddress * Coins := (in_Address i, in_Coins i).
Definition out_part (o : Output) : AccAddress * Coins := (out_Address o, out_Coins o).

Fixpoint sum_at (l : parts) (x : AccAddress) (d : string) : Z :=
  match l with
  | [] => 0
  | (a, c) :: l => (if decide (x = a) then amt c d else 0) + sum_at l x d
  end.
Fixpoint sum_all (l : parts) (d : string) : Z :=
  match l with [] => 0 | (_, c) :: l => amt c d + sum_all l d end.

(** ** ValidateBasic of MsgSend *)
Lemma validate_addr_coins_ok a c u : validate_addr_coins a c = Ok u → Coins_IsValid c = true.
Proof. unfold validate_addr_coins. repeat case_match; try done. by destruct (Coins_IsValid c). Qed.

(** The parts a check leaves behind: unless the coins stopped being sorted,
    they are the original ones. *)
Definition kept (p p' : AccAddress * Coins) : Prop :=
  p'.1 = p.1 ∧ (sorted p'.2 → p'.2 = p.2).

Lemma validate_inputs_ok t ins t' ins' :
  sorted t → validate_inputs t ins = (Ok t', ins') →
  sorted t' ∧ (∀ d, amt t' d = amt t d + sum_all (in_part <$> ins) d) ∧
  Forall2 kept (in_part <$> ins) (in_part <$> ins').
Proof.
  revert t t' ins'. induction ins as [|i ins IH]; intros t t' ins' Ht H; simpl in H.
  - simplify_eq. split_and!; [done|intros; simpl; lia|constructor].
  - destruct (Input_ValidateBasic i) as [u| |] eqn:Hi; [|done..].
    apply validate_addr_coins_ok, Coins_IsValid_iff in Hi as [Si _].
    destruct (Coins_Add t (in_Coins i)) as [t1| |] eqn:Ha; [|done..].
    destruct (validate_inputs t1 ins) as [r rest] eqn:Hr. simplify_eq.
    destruct (Coins_Add_canonical _ _ _ Ht Si Ha) as [[St1 _] _].
    destruct (IH _ _ _ St1 Hr) as (?&Hsum&?). split_and!; [done| |].
    + intros d. rewrite Hsum, (Coins_Add_amt _ _ _ d Ha). csimpl. lia.
    + constructor; [|done]. split; [done|]. apply safeAdd_arrayB_sorted.
Qed.

Lemma validate_outputs_ok t outs t' outs' :
  sorted t → validate_outputs t outs = (Ok t', outs') →
  sorted t' ∧ (∀ d, amt t' d = amt t d + sum_all (out_part <$> outs) d) ∧
  Forall2 kept (out_part <$> outs) (out_part <$> outs').
Proof.
  revert t t' outs'. induction outs as [|o outs IH]; intros t t' outs' Ht H; simpl in H.
  - simplify_eq. split_and!; [done|intros; simpl; lia|constructor].
  - destruct (Output_ValidateBasic o) as [u| |] eqn:Ho; [|done..].
    apply validate_addr_coins_ok, Coins_IsValid_iff in Ho as [So _].
    destruct (Coins_Add t (out_Coins o)) as [t1| |] eqn:Ha; [|done..].
    destruct (validate_outputs t1 outs) as [r rest] eqn:Hr. simplify_eq.
    destruct (Coins_Add_canonical _ _ _ Ht So Ha) as [[St1 _] _].
    destruct (IH _ _ _ St1 Hr) as (?&Hsum&?). split_and!; [done| |].
    + intros d. rewrite Hsum, (Coins_Add_amt _ _ _ d Ha). csimpl. lia.
    + constructor; [|done]. split; [done|]. apply safeAdd_arrayB_sorted.
Qed.

Lemma MsgSend_ValidateBasic_ok msg msg' :
  MsgSend_ValidateBasic msg = (Ok tt, msg') →
  (∀ d, sum_all (in_part <$> Inputs msg) d = sum_all (out_part <$> Outputs msg) d) ∧
  Forall2 kept (in_part <$> Inputs msg) (in_part <$> Inputs msg') ∧
  Forall2 kept (out_part <$> Outputs msg) (out_part <$> Outputs msg').
Proof.
  unfold MsgSend_ValidateBasic. case_bool_decide; [done|]. case_bool_decide; [done|].
  destruct (validate_inputs [] _) as [[ti| |] ins] eqn:Hi; [|done..].
  destruct (validate_outputs [] _) as [[to| |] outs] eqn:Ho; [|done..].
  destruct (Coins_IsEqual ti to) eqn:He; [|done]. intros [= <-].
  apply validate_inputs_ok in Hi as (Si&Hi&?); [|constructor].
  apply validate_outputs_ok in Ho as (So&Ho&?); [|constructor].
  apply Coins_IsEqual_iff in He; [|by apply sorted_NoDup..].
  split_and!; [|done..]. intros d. specialize (Hi d). specialize (Ho d).
  rewrite (amt_perm _ _ d He) in Hi. simpl in *. lia.
Qed.

(** Parts that are still valid are unchanged. *)
Lemma kept_valid l l' :
  Forall2 kept l l' → Forall (λ p, Coins_IsValid p.2 = true) l' → l' = l.
Proof.
  induction 1 as [|[a c] [a' c'] l l' [E1 E2] _ IH]; intros Hv; [done|].
  apply Forall_cons in Hv as [Hc Hv]. apply Coins_IsValid_iff in Hc as [Hc _].
  simpl in *. rewrite E1, (E2 Hc), IH; done.
Qed.

(** ** The loops of InputOutputCoins *)
Section msgs.
Context `{Crypto}.

Lemma inputs_ok ins s u s' :
  auth_wf s →
  for_each ins (λ i, subtractCoins (in_Address i) (in_Coins i) ;;; ret tt) s = (Ok u, s') →
  auth_wf s' ∧ Forall (λ p, Coins_IsValid p.2 = true) (in_part <$> ins) ∧ same_supply s s' ∧
  (∀ x d, balance s' x d = balance s x d - sum_at (in_part <$> ins) x d) ∧
  (∀ d, total s' d = total s d - sum_all (in_part <$> ins) d).
Proof.
  revert s. induction ins as [|i ins IH]; intros s Hs Hrun.
  - unfold for_each, ret in Hrun. simplify_eq.
    split_and!; [done|constructor|try done..]; intros; csimpl; lia.
  - apply for_each_ok in Hrun as (s1&H1&H2). inv_ok H1.
    destruct (subtractCoins_ok _ _ _ _ _ Hs E) as (Hv&[Hw Hb Ht]&Hsup&_&_).
    destruct (IH _ Hw H2) as (?&?&?&Hb'&Ht'). split_and!; [done|by constructor|by etrans|..].
    + intros x d. rewrite Hb', Hb. csimpl. case_decide; lia.
    + intros d. rewrite Ht', Ht. csimpl. lia.
Qed.

Lemma outputs_ok outs s u s' :
  auth_wf s →
  for_each outs (λ o, addCoins (out_Address o) (out_Coins o) ;;; ret tt) s = (Ok u, s') →
  auth_wf s' ∧ Forall (λ p, Coins_IsValid p.2 = true) (out_part <$> outs) ∧
  (∀ x d, balance s' x d = balance s x d + sum_at (out_part <$> outs) x d) ∧
  (∀ d, total s' d = total s d + sum_all (out_part <$> outs) d).
Proof.
  revert s. induction outs as [|o outs IH]; intros s Hs Hrun.
  - unfold for_each, ret in Hrun. simplify_eq.
    split_and!; [done|constructor|try done..]; intros; csimpl; lia.
  - apply for_each_ok in Hrun as (s1&H1&H2). inv_ok H1.
    destruct (addCoins_changes _ _ _ _ _ Hs E) as (Hv&[Hw Hb Ht]&_).
    destruct (IH _ Hw H2) as (?&?&Hb'&Ht'). split_and!; [done|by constructor|..].
    + intros x d. rewrite Hb', Hb. csimpl. case_decide; lia.
    + intros d. rewrite Ht', Ht. csimpl. lia.
Qed.

Lemma handleMsgSend_ok msg s u s' :
  auth_wf s → handleMsgSend msg s = (Ok u, s') →
  auth_wf s' ∧
  Forall (λ p, Coins_IsValid p.2 = true) (in_part <$> Inputs msg) ∧
  Forall (λ p, Coins_IsValid p.2 = true) (out_part <$> Outputs msg) ∧
  (∀ x d, balance s' x d = balance s x d - sum_at (in_part <$> Inputs msg) x d
                                         + sum_at (out_part <$> Outputs msg) x d) ∧
  (∀ d, total s' d = total s d - sum_all (in_part <$> Inputs msg) d
                               + sum_all (out_part <$> Outputs msg) d).
Proof.
  intros Hs Hrun. unfold handleMsgSend, inputOutputCoins in Hrun. inv_ok Hrun.
  destruct (inputs_ok _ _ _ _ Hs E) as (Hw&?&_&Hb&Ht).
  destruct (outputs_ok _ _ _ _ Hw Hrun) as (?&?&Hb'&Ht').
  split_and!; try done; intros; rewrite ?Hb', ?Hb, ?Ht', ?Ht; lia.
Qed.

(** ** Transfers *)

(** A successful transfer of [c] moves exactly [c] from one balance to the
    other, changes no other balance, keeps the store well-formed and the total
    of every denomination; between ordinary accounts it changes no supply. *)
Theorem sendCoins_moves (from to : AccAddress) (c : Coins) (s s' : AuthState)
    (Hs : auth_wf s) (Hrun : sendCoins from to c s = (Ok tt, s')) :
  auth_wf s' ∧
  (∀ x d, balance s' x d = balance s x d - (if decide (x = from) then amt c d else 0)
                                         + (if decide (x = to) then amt c d else 0)) ∧
  (∀ d, total s' d = total s d) ∧
  (to ≠ BurnedCoinsAccAddr → same_supply s s').
Proof. by destruct (sendCoins_ok _ _ _ _ _ _ Hs Hrun) as (_&?&?&?&_&?). Qed.

(** A transfer of valid coins between distinct ordinary accounts succeeds
    exactly when the sender covers it; otherwise it reports insufficient coins.
    The checks made by [hasCoins] agree with it. *)
Theorem sendCoins_succeeds (from to : AccAddress) (c : Coins) (s : AuthState)
    (Hs : auth_wf s) (Hgas : has_gas s (gasSubtract + gasAdd + costHasCoins))
    (Hv : Coins_IsValid c = true) (Hto : to ≠ BurnedCoinsAccAddr) (Hne : from ≠ to)
    (Hr : in_range (coins_of s from)) (Hroom : ∀ d, int_ok (balance s to d + amt c d)) :
  if IsAllGTE (coins_of s from) c
  then (∃ s', sendCoins from to c s = (Ok tt, s')) ∧ (hasCoins from c s).1 = Ok true
  else (sendCoins from to c s).1 = Err ErrInsufficientCoins ∧ (hasCoins from c s).1 = Ok false.
Proof.
  pose proof Hv as (Sc&Nc&_)%Coins_IsValid_iff. destruct Hgas as [Hw Hg].
  unfold gasSubtract, gasAdd, costSubtractCoins, costAddCoins, costGetCoins, costSetCoins, costHasCoins in Hg.
  assert (Hhas : (hasCoins from c s).1 = Ok (IsAllGTE (coins_of s from) c)).
  { eapply hasCoins_run. split; [done|]. unfold costHasCoins, costGetCoins. lia. }
  pose proof (IsAllGTE_iff (coins_of s from) c (coins_of_sorted _ _ Hs) Sc (wf_nonneg _ Hs _) Nc) as Hiff.
  destruct (IsAllGTE (coins_of s from) c) eqn:Eg.
  - split; [|done]. pose proof (proj1 Hiff eq_refl) as Hle. clear Hiff.
    apply sendCoins_total; [done| |done..]. split_and!; [|done..]. split; [done|].
    unfold gasSubtract, gasAdd, costSubtractCoins, costAddCoins, costGetCoins, costSetCoins. lia.
  - split; [|done]. unfold sendCoins. eapply subtractCoins_insufficient; try done.
    + split; [done|]. unfold costSubtractCoins, costGetCoins. lia.
    + intros Hle. by apply Hiff in Hle.
    + intros d. specialize (Hroom d). pose proof (amt_nonneg c d Nc).
      pose proof (balance_nonneg s to d Hs). unfold int_ok in *. lia.
Qed.

(** ** Messages *)

(** Delivering a send message: the stateless checks run first, on the message
    the handler then executes. *)
Definition deliver_send (msg : MsgSend) : M AuthState unit := λ s,
  match MsgSend_ValidateBasic msg with
  | (Ok _, msg') => handleMsgSend msg' s
  | (Err e, _) => (Err e, s)
  | (Panic w, _) => (Panic w, s)
  end.

(** C37. A send message that is delivered takes from every account what its inputs
    say and gives what its outputs say; as the checks force inputs and outputs
    to balance, the total of every denomination is conserved. *)
Theorem MsgSend_conserves (msg : MsgSend) (s s' : AuthState)
    (Hs : auth_wf s) (Hrun : deliver_send msg s = (Ok tt, s')) :
  auth_wf s' ∧
  (∀ x d, balance s' x d = balance s x d - sum_at (in_part <$> Inputs msg) x d
                                         + sum_at (out_part <$> Outputs msg) x d) ∧
  (∀ d, total s' d = total s d).
Proof.
  unfold deliver_send in Hrun. destruct (MsgSend_ValidateBasic msg) as [[[]| |] msg'] eqn:Hvb; [|done..].
  apply MsgSend_ValidateBasic_ok in Hvb as (Hsum&Hin&Hout).
  destruct (handleMsgSend_ok _ _ _ _ Hs Hrun) as (?&Vin&Vout&Hb&Ht).
  apply kept_valid in Hin as Ein; [|done]. apply kept_valid in Hout as Eout; [|done].
  rewrite Ein, Eout in *. split_and!; [done..|]. intros d. rewrite Ht, Hsum. lia.
Qed.
End msgs.

(** ** Witnesses *)
Lemma sendCoins_moves_witness :
  let s' := (sendCoins (H := name_crypto) "alice" "bob" [mkCoin "btc-min" 4] ex_state).2 in
  balance s' "bob" "btc-min" = 5 ∧ balance s' "alice" "btc-min" = 6.
Proof.
  intros s'.
  destruct (sendCoins_moves (H := name_crypto) "alice" "bob" [mkCoin "btc-min" 4] ex_state s'
    ex_state_wf ltac:(run_vm)) as (_&Hb&_).
  split; rewrite Hb; vm_compute; reflexivity.
Defined.

Lemma small_sum (l k : Coins) :
  Forall (λ x, Z.abs (amount x) < 2^200) l → Forall (λ x, Z.abs (amount x) < 2^200) k →
  (length l + length k ≤ 100)%nat → ∀ d, int_ok (amt l d + amt k d).
Proof.
  assert (Hb : ∀ l d, Forall (λ x, Z.abs (amount x) < 2^200) l → Z.abs (amt l d) ≤ Z.of_nat (length l) * 2^200).
  { intros l' d. induction 1 as [|x l' Hx Hl IH]; [simpl; lia|]. cbn [amt length]. case_decide; lia. }
  intros H1 H2 L d. pose proof (Hb _ d H1). pose proof (Hb _ d H2). unfold int_ok. nia.
Qed.

Lemma sendCoins_succeeds_witness :
  (∃ s', sendCoins (H := name_crypto) "alice" "bob" [mkCoin "btc-min" 4] ex_state = (Ok tt, s')) ∧
  (sendCoins (H := name_crypto) "alice" "bob" [mkCoin "btc-min" 40] ex_state).1 =
    Err ErrInsufficientCoins.
Proof.
  assert (Hg : has_gas ex_state (gasSubtract + gasAdd + costHasCoins)).
  { split; [vm_compute; intuition discriminate|]. vm_compute. discriminate. }
  assert (Ea : coins_of ex_state "alice" = [mkCoin "btc-min" 10; mkCoin "iris-atto" 100])
    by (vm_compute; reflexivity).
  assert (Eb : coins_of ex_state "bob" = [mkCoin "btc-min" 1]) by (vm_compute; reflexivity).
  split.
  - pose proof (sendCoins_succeeds (H := name_crypto) "alice" "bob" [mkCoin "btc-min" 4] ex_state
      ex_state_wf Hg eq_refl ltac:(discriminate) ltac:(discriminate)) as P.
    unfold balance in P. rewrite Ea, Eb in P. destruct P as [P _]; [|by apply small_sum; repeat constructor|done].
    by repeat constructor.
  - pose proof (sendCoins_succeeds (H := name_crypto) "alice" "bob" [mkCoin "btc-min" 40] ex_state
      ex_state_wf Hg eq_refl ltac:(discriminate) ltac:(discriminate)) as P.
    unfold balance in P. rewrite Ea, Eb in P. destruct P as [P _]; [|by apply small_sum; repeat constructor|done].
    by repeat constructor.
Defined.

Definition ex_send : MsgSend :=
  mkMsgSend [mkInput "alice" [mkCoin "btc-min" 4; mkCoin "iris-atto" 7]]
            [mkOutput "bob" [mkCoin "btc-min" 4]; mkOutput "carol" [mkCoin "iris-atto" 7]].

Lemma MsgSend_conserves_witness :
  let s' := (deliver_send (H := name_crypto) ex_send ex_state).2 in
  balance s' "carol" "iris-atto" = 7 ∧ total s' "btc-min" = 11.
Proof.
  intros s'.
  destruct (MsgSend_conserves (H := name_crypto) ex_send ex_state s' ex_state_wf
              ltac:(run_vm)) as (_&Hb&Ht).
  split; [rewrite Hb|rewrite Ht]; vm_compute; reflexivity.
Defined.

(** ** The module's invariants *)
Lemma total_list s d : total s d = list_sum (λ acc, amt (acc_Coins acc) d) ((entries (accounts s)).*2).
Proof. unfold total. by rewrite map_sum_list, entries_perm. Qed.

Lemma accounts_coins s acc :
  acc ∈ (entries (accounts s)).*2 → ∃ a, acc_Coins acc = coins_of s a.
Proof.
  intros ([a acc']&->&Ha%entries_elem)%list_elem_of_fmap. exists a. unfold coins_of. by rewrite Ha.
Qed.

Lemma fold_add_ok accts t r :
  sorted t → Forall (λ acc, sorted (acc_Coins acc)) accts →
  foldl (λ t acc, let? t := t in Coins_Add t (acc_Coins acc)) (Ok t) accts = Ok r →
  sorted r ∧ ∀ d, amt r d = amt t d + list_sum (λ acc, amt (acc_Coins acc) d) accts.
Proof.
  revert t. induction accts as [|acc accts IH]; intros t Ht Ha H; simpl in H.
  - injection H as <-. split; [done|]. intros d. simpl. lia.
  - apply Forall_cons in Ha as [Hacc Ha].
    destruct (Coins_Add t (acc_Coins acc)) as [t1|e|w] eqn:E.
    + destruct (Coins_Add_canonical _ _ _ Ht Hacc E) as [[Ht1 _] _].
      destruct (IH _ Ht1 Ha H) as [? Hs]. split; [done|]. intros d.
      rewrite Hs, (Coins_Add_amt _ _ _ d E). simpl. lia.
    + clear -H. exfalso. induction accts; [discriminate|]. auto.
    + clear -H. exfalso. induction accts; [discriminate|]. auto.
Qed.

(** The balance invariant holds in every well-formed store, and the
    total-coins invariant reports success only when the expected supply is, in
    every denomination, the sum of all balances. *)
Theorem bank_invariants_sound (s : AuthState) (expected : Coins)
    (Hs : auth_wf s) (He : sorted expected) :
  (NonnegativeBalanceInvariant s).1 = Ok true ∧
  ((TotalCoinsInvariant expected s).1 = Ok true → ∀ d, amt expected d = total s d).
Proof.
  assert (Hwf : Forall (λ acc, sorted (acc_Coins acc) ∧ nonneg (acc_Coins acc)) ((entries (accounts s)).*2)).
  { apply Forall_forall. intros acc [a ->]%accounts_coins. auto with sdk. }
  split.
  - unfold NonnegativeBalanceInvariant, GetAllAccounts, bind, gets, ret. simpl. f_equal.
    apply forallb_forall. intros acc Hacc%list_elem_of_In.
    apply negb_true_iff, IsAnyNegative_false. by apply (proj1 (Forall_forall _ _) Hwf).
  - unfold TotalCoinsInvariant, GetAllAccounts, bind, gets, ret. simpl.
    destruct (foldl _ _ _) as [r| |] eqn:Ef; simpl; intros [= H0]. intros d.
    apply fold_add_ok in Ef as [Hr Hsum]; [|constructor|by eapply Forall_impl; [exact Hwf|]; intros ? [??]].
    apply Coins_IsEqual_iff in H0; [|by apply sorted_NoDup..].
    by rewrite (amt_perm _ _ d H0), Hsum, total_list.
Qed.

Lemma bank_invariants_sound_witness : total ex_state "btc-min" = 11.
Proof.
  assert (Hsort : sorted [mkCoin "btc-min" 11; mkCoin "iris-atto" 100]) by (by apply Coins_IsValid_iff).
  destruct (bank_invariants_sound ex_state [mkCoin "btc-min" 11; mkCoin "iris-atto" 100]
              ex_state_wf Hsort) as [_ H].
  rewrite <-H; vm_compute; reflexivity.
Defined.
