(* ===== verification/BankBurn.v ===== *)
(** * Burning coins

    Coins that reach the burned-coins address leave the recorded supply: the
    loose native tokens for the native denomination, the total supply for the
    others.  The amounts subtracted are those of the slice the loop reads, which
    [Coins.Add] has changed in place when it held zero coins. *)

From S2P Require Import Prelude SdkErrors IntType GoStrings Denom Coin CoinFacts Gas KVStore Auth Bank BankFacts.
#[local] Open Scope Z_scope.

Lemma Coins_SafeSub_amt a b r neg d :
  Coins_SafeSub a b = Ok (r, neg) → amt r d = amt a d - amt b d.
Proof.
  intros [Hs%safeAdd_spec _]%Coins_SafeSub_ok. rewrite (add_spec_amt _ _ _ d Hs), amt_negative. lia.
Qed.

Lemma GetCoin_head c d : denom c = d → GetCoin [c] d = Some c.
Proof. intros E. unfold GetCoin. simpl. by rewrite decide_True. Qed.

(** The decrease a denomination sees when the coins [l] are burned. *)
Definition loosen_part (l : Coins) (d : string) : Z := if decide (d = IrisAtto) then amt l d else 0.
Definition supply_part (l : Coins) (d : string) : Z := if decide (d = IrisAtto) then 0 else amt l d.

Lemma DecreaseTotalLoosenToken_ok c s u s' :
  denom c = IrisAtto → 0 ≤ amount c → DecreaseTotalLoosenToken [c] s = (Ok u, s') →
  totalSupply s' = totalSupply s ∧ ∀ d, loosen s' d = loosen s d - loosen_part [c] d.
Proof.
  intros Hd Ha. unfold DecreaseTotalLoosenToken. rewrite (GetCoin_head c) by done.
  change (Coins_Empty [c]) with false. cbv iota. unfold Coin_IsPositive. autorewrite with sdk_sign.
  assert (Hpart : ∀ d, loosen_part [c] d = amt [c] d).
  { intros d. unfold loosen_part. case_decide as E; [done|]. simpl. rewrite decide_False by congruence. lia. }
  destruct (Z.ltb_spec 0 (amount c)) as [Hpos|Hz]; cbn [negb]; intros H.
  - inv_ok H. unfold GetTotalLoosenToken, gets in E. injection E as <- <-.
    destruct a0 as [new neg]. destruct neg; [done|]. unfold modify in H. injection H as <- <-.
    split; [done|]. intros d. unfold loosen at 1. simpl. rewrite Hpart.
    by rewrite (Coins_SafeSub_amt _ _ _ _ d E0).
  - unfold ret in H. simplify_eq. split; [done|]. intros d. rewrite Hpart. simpl.
    case_decide; lia.
Qed.

Lemma supply_insert s c d :
  IsCoinMinDenomValid d = true → IsCoinMinDenomValid (denom c) = true →
  supply (set_totalSupply (insert (TotalSupplyStoreKey (denom c)) c) s) d =
  if decide (d = denom c) then Some (amount c) else supply s d.
Proof.
  intros Hd Hc. unfold supply. simpl. case_decide as E.
  - rewrite E. by rewrite lookup_insert_eq.
  - rewrite lookup_insert_ne; [done|]. intros Hk. apply E.
    apply ConvertDenomToTokenKeyId_inj; [done..|]. unfold TotalSupplyStoreKey in Hk.
    destruct (min_denom_name _ Hd) as (n&_&En&_), (min_denom_name _ Hc) as (m&_&Em&_).
    rewrite En, Em in *. simpl in Hk. f_equal.
    apply (f_equal chars) in Hk. rewrite !chars_app in Hk. apply app_inv_head in Hk.
    by apply chars_inj.
Qed.

(** The error of [DecreaseTotalSupply] is raised only for a token without a
    recorded supply, so dropping it loses nothing. *)
Lemma DecreaseTotalSupply_ok c s u s' :
  IsCoinMinDenomValid (denom c) = true → denom c ≠ IrisAtto → 0 ≤ amount c →
  ignore_err (DecreaseTotalSupply c) s = (Ok u, s') →
  totalLoosenToken s' = totalLoosenToken s ∧
  ∀ d, IsCoinMinDenomValid d = true → supply s' d = (λ n, n - supply_part [c] d) <$> supply s d.
Proof.
  intros Hv Hi Ha H.
  assert (Hsuf : HasSuffix (denom c) MinDenomSuffix = true).
  { apply min_denom_inv in Hv as [?|(n&->&_)]; [done|]. apply HasSuffix_app. }
  assert (Hpart : ∀ d, supply_part [c] d = if decide (d = denom c) then amount c else 0).
  { intros d. unfold supply_part. simpl. repeat case_decide; simplify_eq; done || lia. }
  unfold ignore_err, DecreaseTotalSupply in H. rewrite Hsuf in H. cbn [negb] in H.
  revert H. unfold Coin_IsPositive. autorewrite with sdk_sign.
  destruct (Z.ltb_spec 0 (amount c)) as [Hpos|Hz]; cbn [negb].
  - unfold GetTotalSupply, bind, gets, lift, throw, panic, SetTotalSupply, modify.
    destruct (totalSupply s !! TotalSupplyStoreKey (denom c)) as [sup|] eqn:Es.
    + unfold Coin_Sub. case_bool_decide as Ed; [done|].
      destruct (Int_Sub (amount sup) (amount c)) as [n|e|] eqn:En; [|by apply Int_Sub_no_err in En|done].
      apply Int_Sub_ok in En as [-> _]. cbn [obind]. unfold NewCoin.
      destruct (Int_IsNegative (amount sup - amount c)) eqn:Eneg; [done|].
      unfold Coin_IsNegative. cbn [amount]. rewrite Eneg. intros [= <- <-].
      split; [done|]. intros d Hd.
      pose proof (supply_insert s (mkCoin (denom sup) (amount sup - amount c)) d Hd) as Hins.
      cbn [denom amount] in Hins. cbn [denom]. rewrite Hins by (by rewrite Ed).
      rewrite Hpart, <-Ed. case_decide as E; [|by destruct (supply s d) as [n|]; simpl; [f_equal; lia|]].
      subst d. unfold supply. rewrite Ed, Es. done.
    + intros [= <- <-]. split; [done|]. intros d Hd. rewrite Hpart. case_decide as E.
      * subst d. unfold supply. by rewrite Es.
      * destruct (supply s d); simpl; [f_equal; lia|done].
  - intros [= <- <-]. split; [done|]. intros d Hd. rewrite Hpart.
    destruct (supply s d); simpl; [|done]. f_equal. case_decide; lia.
Qed.

(** What burning leaves in the records. *)
Definition burned (s s' : AuthState) (l : Coins) : Prop :=
  (∀ d, loosen s' d = loosen s d - loosen_part l d) ∧
  (∀ d, IsCoinMinDenomValid d = true → supply s' d = (λ n, n - supply_part l d) <$> supply s d).

Lemma burned_refl s : burned s s [].
Proof.
  split; intros d; unfold loosen_part, supply_part; [case_decide; simpl; lia|].
  intros _. destruct (supply s d); simpl; [|done]. f_equal. case_decide; simpl; lia.
Qed.

Lemma burned_trans s s1 s' c l : burned s s1 [c] → burned s1 s' l → burned s s' (c :: l).
Proof.
  intros [L1 S1] [L2 S2]. split.
  - intros d. rewrite L2, L1. unfold loosen_part. simpl. repeat case_decide; lia.
  - intros d Hd. rewrite S2, S1 by done. destruct (supply s d); simpl; [|done]. f_equal.
    unfold supply_part. simpl. repeat case_decide; lia.
Qed.

Lemma burn_coin_ok c s u s' :
  IsCoinMinDenomValid (denom c) = true → 0 ≤ amount c → burn_coin c s = (Ok u, s') →
  burned s s' [c].
Proof.
  intros Hv Ha. unfold burn_coin. case_bool_decide as Hi; intros H.
  - destruct (DecreaseTotalLoosenToken_ok _ _ _ _ Hi Ha H) as [Es El]. split; [done|].
    intros d _. unfold supply. rewrite Es. unfold supply_part. simpl.
    destruct (totalSupply s !! _); simpl; [|done]. f_equal.
    case_decide; [lia|]. rewrite decide_False by congruence. lia.
  - destruct (DecreaseTotalSupply_ok _ _ _ _ Hv Hi Ha H) as [El Es]. split; [|done].
    intros d. unfold loosen. rewrite El. unfold loosen_part. simpl.
    case_decide; [rewrite decide_False by congruence|]; lia.
Qed.

Lemma burn_coins_ok l s u s' :
  Forall (λ c, IsCoinMinDenomValid (denom c) = true ∧ 0 ≤ amount c) l →
  for_each l burn_coin s = (Ok u, s') → burned s s' l.
Proof.
  intros Hl. revert s. induction Hl as [|c l [Hv Ha] Hl IH]; intros s H.
  - unfold for_each, ret in H. simplify_eq. apply burned_refl.
  - apply for_each_ok in H as (s1&H1&H2). eapply burned_trans; [by eapply burn_coin_ok|eauto].
Qed.

Lemma safeAdd_arrayB_Forall (P : Coin → Prop) a b : Forall P b → Forall P (safeAdd_arrayB a b).
Proof.
  destruct (safeAdd_arrayB_split a b) as (pre&suf&->&->). intros [Hp Hs]%Forall_app.
  apply Forall_app. split; [done|].
  destruct suf as [|c suf _] using rev_ind; [constructor|].
  rewrite (removeZeroCoins_array_spec _ c), last_snoc. apply Forall_app. split.
  - apply Forall_forall. intros x [_ Hx]%list_elem_of_filter. by apply (proj1 (Forall_forall _ _) Hs).
  - apply Forall_forall. intros x [-> _]%elem_of_replicate. by apply Forall_app in Hs as [_ [? _]%Forall_cons].
Qed.

Section burn.
Context `{Crypto}.

Lemma BurnCoins_ok from c s u s' :
  auth_wf s → from ≠ BurnedCoinsAccAddr → BurnCoins from c s = (Ok u, s') →
  burned s s' (safeAdd_arrayB (coins_of s BurnedCoinsAccAddr) c) ∧
  (∀ d, balance s' BurnedCoinsAccAddr d = balance s BurnedCoinsAccAddr d + amt c d) ∧
  (∀ d, balance s' from d = balance s from d - amt c d) ∧ Coins_IsValid c = true.
Proof.
  intros Hs Hne Hrun. unfold BurnCoins in Hrun. inv_ok Hrun.
  apply ctx_ConsumeGas_inv in E as [g ->].
  pose proof (auth_wf_gas g s Hs) as Hg.
  destruct (sendCoins_ok _ _ _ _ _ _ Hg Hrun) as (Hv&_&Hb&_).
  split_and!; [|intros d; rewrite Hb..|done].
  - unfold sendCoins in Hrun. inv_ok Hrun.
    destruct (subtractCoins_ok _ _ _ _ _ Hg E) as (_&[Hw1 Hb1 _]&Hsup1&_).
    destruct (addCoins_ok _ _ _ _ _ Hw1 E0) as (_&s2&_&Hsup2&_&Hburn).
    rewrite decide_True in Hburn by done.
    assert (Hc : coins_of s0 BurnedCoinsAccAddr = coins_of s BurnedCoinsAccAddr).
    { apply canonical_ext; [apply (wf_canonical _ Hw1)|apply (wf_canonical _ Hs)|]. intros d.
      pose proof (Hb1 BurnedCoinsAccAddr d) as E1. rewrite decide_False in E1 by done.
      unfold balance in E1. change (coins_of (set_gas g s) ?x) with (coins_of s x) in E1. lia. }
    rewrite Hc in Hburn. apply burn_coins_ok in Hburn as [Hl Hsu].
    + assert (Heq : same_supply s s2) by (etrans; [|exact Hsup2]; by etrans; [|exact Hsup1]).
      destruct Heq as (El&Es&_). unfold loosen, supply in *. rewrite El, Es in *. by split.
    + apply safeAdd_arrayB_Forall. apply Coins_IsValid_iff in Hv as (_&Hn&Hd).
      apply Forall_and. split; [apply Hd|apply Hn].
  - rewrite decide_False, decide_True by done. unfold balance, coins_of. simpl. lia.
  - rewrite decide_True, decide_False by done. unfold balance, coins_of. simpl. lia.
Qed.

(** Burning a set of coins without zero amounts takes exactly that set out of
    the records: what the burned-coins address gains, the loose native tokens
    or the recorded supplies lose. *)
Theorem BurnCoins_accounting (from : AccAddress) (c : Coins) (s s' : AuthState)
    (Hs : auth_wf s) (Hne : from ≠ BurnedCoinsAccAddr) (Hz : nonzero c)
    (Hrun : BurnCoins from c s = (Ok tt, s')) :
  (∀ d, balance s' BurnedCoinsAccAddr d = balance s BurnedCoinsAccAddr d + amt c d) ∧
  loosen s' IrisAtto = loosen s IrisAtto - amt c IrisAtto ∧
  (∀ d, IsCoinMinDenomValid d = true → d ≠ IrisAtto →
        supply s' d = (λ n, n - amt c d) <$> supply s d).
Proof.
  destruct (BurnCoins_ok _ _ _ _ _ Hs Hne Hrun) as ([Hl Hsu]&Hb&_&_).
  rewrite safeAdd_arrayB_nonzero in Hl, Hsu by done. split_and!; [done|..].
  - rewrite Hl. unfold loosen_part. by rewrite decide_True.
  - intros d Hd Hi. rewrite Hsu by done. unfold supply_part. by rewrite decide_False.
Qed.

(** A zero coin before the last coin makes the records lose that last coin
    twice, while the burned-coins address gains it once. *)
Theorem BurnCoins_zero_coin (from : AccAddress) (a b : string) (n : Z) (s s' : AuthState)
    (Hs : auth_wf s) (Hne : from ≠ BurnedCoinsAccAddr) (Hb : b ≠ IrisAtto) (Hn : n ≠ 0)
    (Hempty : coins_of s BurnedCoinsAccAddr = [])
    (Hrun : BurnCoins from [mkCoin a 0; mkCoin b n] s = (Ok tt, s')) :
  balance s' BurnedCoinsAccAddr b = n ∧ supply s' b = (λ m, m - 2 * n) <$> supply s b.
Proof.
  destruct (BurnCoins_ok _ _ _ _ _ Hs Hne Hrun) as ([_ Hsu]&Hbal&_&Hv).
  apply Coins_IsValid_iff in Hv as (Hsort&_&Hd).
  apply sorted_cons_inv in Hsort as [_ [Hab _]%Forall_cons].
  assert (a ≠ b) by (by apply str_lt_ne).
  split.
  - rewrite Hbal. unfold balance. rewrite Hempty. simpl.
    rewrite decide_False, decide_True by done. lia.
  - rewrite Hsu by (by apply Forall_cons in Hd as [_ [? _]%Forall_cons]).
    unfold supply_part. rewrite decide_False, Hempty by done. cbn [safeAdd_arrayB].
    assert (E : removeZeroCoins_array [mkCoin a 0; mkCoin b n] = [mkCoin b n; mkCoin b n]).
    { unfold removeZeroCoins_array. simpl. by rewrite (proj2 (Coin_IsZero_false (mkCoin b n)) Hn). }
    rewrite E. simpl.
    rewrite !decide_True by done. destruct (supply s b); simpl; [f_equal; lia|done].
Qed.
End burn.

Lemma BurnCoins_accounting_witness :
  let s' := (BurnCoins (H := name_crypto) "alice" [mkCoin "btc-min" 5; mkCoin "iris-atto" 30] ex_state).2 in
  loosen s' IrisAtto = 70 ∧ supply s' "btc-min" = Some 6.
Proof.
  intros s'.
  destruct (BurnCoins_accounting (H := name_crypto) "alice" [mkCoin "btc-min" 5; mkCoin "iris-atto" 30]
    ex_state s' ex_state_wf ltac:(discriminate) ltac:(by repeat constructor)
    ltac:(run_vm)) as (_&Hl&Hs).
  split; [rewrite Hl; vm_compute; reflexivity|].
  rewrite Hs by (vm_compute; congruence). vm_compute. reflexivity.
Defined.

(** Five of eleven [btc-min] are burned, and the recorded supply drops to one. *)
Lemma BurnCoins_zero_coin_witness :
  let s' := (BurnCoins (H := name_crypto) "alice" [mkCoin "abc-min" 0; mkCoin "btc-min" 5] ex_state).2 in
  balance s' "burnedCoins" "btc-min" = 5 ∧ supply s' "btc-min" = Some 1.
Proof.
  intros s'.
  destruct (BurnCoins_zero_coin (H := name_crypto) "alice" "abc-min" "btc-min" 5
    ex_state s' ex_state_wf ltac:(discriminate) ltac:(discriminate) ltac:(discriminate)
    ltac:(vm_compute; reflexivity) ltac:(run_vm)) as [Hb Hs].
  split; [exact Hb|]. rewrite Hs. vm_compute. reflexivity.
Defined.
