(* ===== verification/BankFrame.v ===== *)
(** * The bank as its clients see it
    (app/v2/htlc and app/v2/coinswap expected_keepers.go)

    The modules that hold coins are written against an interface of the bank
    keeper.  [BankKeeper] lists the methods they call, [BankLaws] what they rely
    on; the bank of [Bank] is an instance, so the theorems of the clients hold
    for the real keeper.  The error codes of arithmetic come first. *)

From S2P Require Import Prelude SdkErrors Frame IntType GoStrings Denom Coin CoinFacts Dec Gas KVStore Auth Bank BankFacts BankThms.
#[local] Open Scope Z_scope.

(** ** The error codes of arithmetic

    None of the operations on integers, decimals and coins returns an error with
    code 0, the code of success; most return no error at all. *)
Lemma safeAdd_no_err a b : no_err (safeAdd a b).
Proof.
  revert b. induction a as [|x a IHa]; intros b; [by destruct b|].
  induction b as [|y b IHb]; [done|]. cbn [safeAdd].
  destruct (String.compare (denom x) (denom y)).
  - apply no_err_obind; [|intros; by apply no_err_obind].
    unfold Coin_Add, Int_Add. intros e. by repeat case_match.
  - by apply no_err_obind.
  - by apply no_err_obind.
Qed.

Lemma Coins_Add_no_err a b : no_err (Coins_Add a b).
Proof.
  apply no_err_obind; [|by intros [? []]]. apply no_err_obind; [apply safeAdd_no_err|done].
Qed.

Lemma Coins_SafeSub_nz a b : err_nz (Coins_SafeSub a b).
Proof. apply err_nz_no_err, no_err_obind; [apply safeAdd_no_err|done]. Qed.
Lemma Coins_Add_nz a b : err_nz (Coins_Add a b).
Proof. apply err_nz_no_err, Coins_Add_no_err. Qed.
Lemma NewCoin_nz d a : err_nz (NewCoin d a).
Proof. unfold NewCoin. err_nz. Qed.
Lemma NewCoins_nz l : err_nz (NewCoins l).
Proof. unfold NewCoins. err_nz. Qed.
Lemma Int_Add_nz a b : err_nz (Int_Add a b).
Proof. unfold Int_Add. err_nz. Qed.
Lemma Int_Sub_nz a b : err_nz (Int_Sub a b).
Proof. unfold Int_Sub. err_nz. Qed.
Lemma Int_Mul_nz a b : err_nz (Int_Mul a b).
Proof. unfold Int_Mul. err_nz. Qed.
Lemma Int_Div_nz a b : err_nz (Int_Div a b).
Proof. unfold Int_Div. err_nz. Qed.
Lemma NewIntWithDecimal_nz a b : err_nz (NewIntWithDecimal a b).
Proof. unfold NewIntWithDecimal. err_nz. Qed.
#[export] Hint Resolve Coins_SafeSub_nz Coins_Add_nz NewCoin_nz NewCoins_nz Int_Add_nz Int_Sub_nz Int_Mul_nz Int_Div_nz
  NewIntWithDecimal_nz : frame.
Lemma Coin_Sub_nz a b : err_nz (Coin_Sub a b).
Proof. unfold Coin_Sub. err_nz. Qed.
Lemma Coin_Add_nz a b : err_nz (Coin_Add a b).
Proof. unfold Coin_Add. err_nz. Qed.
Lemma NewDecFromInt_nz a : err_nz (NewDecFromInt a).
Proof. unfold NewDecFromInt, NewDecFromIntWithPrec, precisionMultiplier. err_nz. Qed.
Lemma Dec_Quo_nz a b : err_nz (Dec_Quo a b).
Proof. unfold Dec_Quo, big_Quo, dec_checked. err_nz. Qed.
Lemma Dec_Mul_nz a b : err_nz (Dec_Mul a b).
Proof. unfold Dec_Mul, dec_checked. err_nz. Qed.
Lemma NewDec_nz a : err_nz (NewDec a).
Proof. unfold NewDec, NewDecWithPrec, precisionMultiplier. err_nz. Qed.
Lemma Dec_TruncateInt_nz a : err_nz (Dec_TruncateInt a).
Proof. unfold Dec_TruncateInt, NewIntFromBigInt. err_nz. Qed.
#[export] Hint Resolve Coin_Sub_nz Coin_Add_nz NewDecFromInt_nz Dec_Quo_nz Dec_Mul_nz NewDec_nz Dec_TruncateInt_nz : frame.

Class BankKeeper (S : Type) := {
  (** the coins of [GetAccount], nil for an account that does not exist *)
  bk_coins : S → AccAddress → Coins;
  bk_SendCoins : AccAddress → AccAddress → Coins → M S unit;
  bk_AddCoins : AccAddress → Coins → M S Coins;
  bk_SubtractCoins : AccAddress → Coins → M S Coins;
  (** what the caller's slice reads after [SendCoins] *)
  bk_SendCoins_amt : AccAddress → AccAddress → Coins → S → Coins }.

(** The balance of one denomination. *)
Definition bal {S} `{BankKeeper S} (s : S) (a : AccAddress) (d : string) : Z := amt (bk_coins s a) d.

Class BankLaws (S : Type) `{BankKeeper S} := {
  bk_wf : S → Prop;
  (** enough gas, and the receiving balance stays in range *)
  bk_fits : S → AccAddress → AccAddress → Coins → Prop;
  law_coins s a : bk_wf s → canonical (bk_coins s a) ∧ nonneg (bk_coins s a);
  law_send f t c s s' :
    bk_wf s → bk_SendCoins f t c s = (Ok tt, s') →
    Coins_IsValid c = true ∧ bk_wf s' ∧ (∀ d, amt c d ≤ bal s f d) ∧
    ∀ x d, bal s' x d = bal s x d - (if decide (x = f) then amt c d else 0)
                                  + (if decide (x = t) then amt c d else 0);
  law_add a c s r s' :
    bk_wf s → bk_AddCoins a c s = (Ok r, s') →
    bk_wf s' ∧ ∀ x d, bal s' x d = bal s x d + (if decide (x = a) then amt c d else 0);
  law_add_no_err a c : never_errs (bk_AddCoins a c);
  law_subtract a c s r s' :
    bk_wf s → bk_SubtractCoins a c s = (Ok r, s') →
    bk_wf s' ∧ (∀ d, amt c d ≤ bal s a d) ∧
    ∀ x d, bal s' x d = bal s x d - (if decide (x = a) then amt c d else 0);
  law_send_amt f t c s : nonzero c → bk_SendCoins_amt f t c s = c;
  law_send_total f t c s :
    bk_wf s → bk_fits s f t c → f ≠ t → Coins_IsValid c = true → (∀ d, amt c d ≤ bal s f d) →
    ∃ s', bk_SendCoins f t c s = (Ok tt, s') }.

Lemma bal_nonneg {S} `{BankLaws S} s a d : bk_wf s → 0 ≤ bal s a d.
Proof. intros Hs. apply amt_nonneg, (law_coins s a Hs). Qed.

(** Reading an amount from an account's coins. *)
Lemma AmountOf_bal {S} `{BankLaws S} s a d : bk_wf s → AmountOf (bk_coins s a) d = bal s a d.
Proof. intros Hs. apply AmountOf_amt, (law_coins s a Hs). Qed.

(** ** The bank keeper is such a bank *)
Section instance.
Context `{Crypto}.

Lemma ConsumeGas_no_err n d : never_errs (ConsumeGas n d).
Proof. intros []; unfold ConsumeGas; intros; repeat case_match; done. Qed.

Lemma burn_coin_no_err c : never_errs (burn_coin c).
Proof.
  unfold burn_coin, DecreaseTotalLoosenToken, GetTotalLoosenToken.
  repeat case_match; auto with noerr. apply never_errs_bind; [done|]. intros total.
  apply never_errs_bind; [|intros [? []]; done]. apply never_errs_lift.
  apply no_err_obind; [apply safeAdd_no_err|done].
Qed.

(** [addCoins] either succeeds or panics; its error result is always nil. *)
Lemma addCoins_no_err a c : never_errs (addCoins a c).
Proof.
  unfold addCoins, setCoins, getCoins, ctx_ConsumeGas, GetAccount, SetAccount.
  case_match; [done|].
  repeat (apply never_errs_bind; [|intros]); auto using Coins_Add_no_err, ConsumeGas_no_err with noerr.
  all: try (unfold NewAccountWithAddress, GetNextAccountNumber; repeat case_match; done).
  - case_match; auto using burn_coin_no_err with noerr.
Qed.

Definition sendCoins_amt (from to : AccAddress) (c : Coins) (s : AuthState) : Coins :=
  match subtractCoins from c s with
  | (Ok _, s1) => safeAdd_arrayB (coins_of s1 to) c
  | _ => c
  end.

#[export] Instance bank_keeper : BankKeeper AuthState := {|
  bk_coins := coins_of;
  bk_SendCoins := sendCoins;
  bk_AddCoins := addCoins;
  bk_SubtractCoins := subtractCoins;
  bk_SendCoins_amt := sendCoins_amt |}.

#[export] Instance bank_laws : BankLaws AuthState.
Proof.
  refine {| bk_wf := auth_wf; bk_fits := auth_fits |}.
  - intros s a Hs. split; [by apply wf_canonical|by apply wf_nonneg].
  - intros f t c s s' Hs Hrun. by destruct (sendCoins_ok _ _ _ _ _ _ Hs Hrun) as (?&?&?&_&?&_).
  - intros a c s r s' Hs Hrun. destruct (addCoins_changes _ _ _ _ _ Hs Hrun) as (_&[? Hb _]&_).
    split; [done|]. intros x d. apply Hb.
  - apply addCoins_no_err.
  - intros a c s r s' Hs Hrun. destruct (subtractCoins_ok _ _ _ _ _ Hs Hrun) as (_&[? Hb _]&_&?&_).
    split_and!; [done..|]. intros x d. pose proof (Hb x d) as E. unfold balance in E. unfold bal. simpl. rewrite E. case_decide; lia.
  - intros f t c s Hc. simpl. unfold sendCoins_amt. destruct (subtractCoins f c s) as [[]]; try done.
    by apply safeAdd_arrayB_nonzero.
  - intros f t c s. apply sendCoins_total.
Defined.
End instance.

(** * What transfers leave alone

    Whatever the bank does to balances, accounts stay, with their keys, numbers and
    sequences, and the native token is neither made nor lost: the frame of every
    module that moves coins through the bank. *)
(** ** Identities *)
Definition same_identity (a b : BaseAccount) : Prop :=
  acc_Address a = acc_Address b ∧ acc_PubKey a = acc_PubKey b ∧
  acc_AccountNumber a = acc_AccountNumber b ∧ acc_Sequence a = acc_Sequence b.
Definition keeps_accounts (s s' : AuthState) : Prop :=
  ∀ x acc, accounts s !! x = Some acc →
  ∃ acc', accounts s' !! x = Some acc' ∧ same_identity acc acc'.

#[export] Instance same_identity_po : PreOrder same_identity.
Proof. unfold same_identity. split; [done|]. intros ???; naive_solver congruence. Qed.
#[export] Instance keeps_accounts_po : PreOrder keeps_accounts.
Proof.
  split; [by intros s x acc Hx; exists acc|]. intros s1 s2 s3 H1 H2 x acc Hx.
  destruct (H1 _ _ Hx) as (acc2&Hx2&Hi). destruct (H2 _ _ Hx2) as (acc3&Hx3&Hi').
  exists acc3. split; [done|]. by etrans.
Qed.

Lemma keeps_same_accounts s s' : same_accounts s s' → keeps_accounts s s'.
Proof. unfold same_accounts. intros E x acc Hx. exists acc. by rewrite E. Qed.

Lemma keeps_insert s s' acc :
  accounts s' = <[acc_Address acc := acc]> (accounts s) →
  (∀ old, accounts s !! acc_Address acc = Some old → same_identity old acc) →
  keeps_accounts s s'.
Proof.
  intros E Hi x old Hx. rewrite E. destruct (decide (x = acc_Address acc)) as [->|Hne].
  - exists acc. rewrite lookup_insert_eq. eauto.
  - exists old. by rewrite lookup_insert_ne.
Qed.

(** ** Writing an account *)
Definition put_account (acc : BaseAccount) (s : AuthState) : AuthState :=
  set_accounts (insert (acc_Address acc) acc) s.

Lemma put_account_coins acc s x :
  coins_of (put_account acc s) x = if decide (x = acc_Address acc) then acc_Coins acc else coins_of s x.
Proof.
  unfold coins_of, put_account. simpl. case_decide as E.
  - subst. by rewrite lookup_insert_eq.
  - by rewrite lookup_insert_ne.
Qed.
Lemma put_account_wf acc s :
  auth_wf s → canonical (acc_Coins acc) → nonneg (acc_Coins acc) → auth_wf (put_account acc s).
Proof.
  intros [W1 W2 W3] Hc Hn. split.
  - intros a acc'. simpl. rewrite lookup_insert_Some. intros [[<- <-]|[_ ?]]; [done|by apply W1].
  - intros x. rewrite put_account_coins. by case_decide.
  - intros x. rewrite put_account_coins. by case_decide.
Qed.
Lemma put_account_total acc s d :
  total (put_account acc s) d = total s d - balance s (acc_Address acc) d + amt (acc_Coins acc) d.
Proof.
  unfold total, put_account, balance, coins_of. simpl. rewrite map_sum_insert. unfold at_key.
  by destruct (accounts s !! acc_Address acc).
Qed.
Lemma coins_of_Some s x acc : accounts s !! x = Some acc → coins_of s x = acc_Coins acc.
Proof. unfold coins_of. by intros ->. Qed.

Lemma setCoins_keeps a c s u s' : auth_wf s → setCoins a c s = (Ok u, s') → keeps_accounts s s'.
Proof.
  intros Hs H. unfold setCoins in H. inv_ok H. apply ctx_ConsumeGas_inv in E as [g ->].
  unfold GetAccount, gets in E0. injection E0 as <- <-. simpl in *.
  unfold SetAccount, modify in H. injection H as <- <-.
  destruct (accounts s !! a) as [acc|] eqn:Ea.
  - unfold ret in E1. injection E1 as <- <-. eapply (keeps_insert _ _ (SetCoins acc c)); [done|].
    intros old. simpl. rewrite (wf_address _ Hs _ _ Ea), Ea. by intros [= <-].
  - change (NewAccountWithAddress a) with
      (bind GetNextAccountNumber (λ n, ret (SetAccountNumber (NewBaseAccountWithAddress a) n))) in E1.
    inv_ok E1. apply GetNextAccountNumber_ok in E as [-> ->].
    intros x old Hx. simpl. exists old. rewrite lookup_insert_ne; [done|]. by intros <-; rewrite Ea in Hx.
Qed.

Lemma subtractCoins_keeps a c s r s' : auth_wf s → subtractCoins a c s = (Ok r, s') → keeps_accounts s s'.
Proof.
  intros Hs. unfold subtractCoins. case_match; [done|]. intros Hr. inv_ok Hr.
  apply ctx_ConsumeGas_inv in E as [g ->]. apply getCoins_ok in E0 as [[g' ->] ->].
  destruct a2 as [new []]; [done|]. inv_ok Hr. simpl in E.
  apply setCoins_keeps in E; [done|]. by do 2 apply auth_wf_gas.
Qed.

Section keeper.
Context `{Crypto}.

Lemma addCoins_keeps a c s r s' : auth_wf s → addCoins a c s = (Ok r, s') → keeps_accounts s s'.
Proof.
  intros Hs. unfold addCoins. case_match; [done|]. intros Hr. inv_ok Hr.
  apply ctx_ConsumeGas_inv in E as [g ->]. apply getCoins_ok in E0 as [[g' ->] ->].
  apply setCoins_keeps in E2; [|by do 2 apply auth_wf_gas]. etrans; [apply E2|].
  apply keeps_same_accounts. destruct (AccAddress_Equals _ _).
  - by eapply burn_coins_accounts.
  - unfold ret in E3. by simplify_eq.
Qed.

(** ** The relation *)
Record bank_step (s s' : AuthState) : Prop := {
  bs_wf : auth_wf s';
  bs_iris : total s' IrisAtto = total s IrisAtto;
  bs_keeps : keeps_accounts s s' }.
Definition bank_rel (s s' : AuthState) : Prop := auth_wf s → bank_step s s'.

#[export] Instance bank_rel_po : PreOrder bank_rel.
Proof.
  split; [by intros s Hs|]. intros s1 s2 s3 H1 H2 Hs. destruct (H1 Hs) as [W1 T1 K1].
  destruct (H2 W1) as [W2 T2 K2]. split; [done|by rewrite T2|by etrans].
Qed.

Lemma bank_rel_gas g s : bank_rel s (set_gas g s).
Proof. intros Hs. split; [by apply auth_wf_gas|done|by apply keeps_same_accounts]. Qed.

(** The errors of the bank have codes. *)
Definition any_rel (_ _ : AuthState) : Prop := True.
#[local] Instance any_rel_po : PreOrder any_rel.
Proof. done. Qed.

Lemma consume_any n d : framed any_rel (ctx_ConsumeGas n d).
Proof.
  apply framed_intro; [done|]. intros s e s'. unfold ctx_ConsumeGas, zoom.
  destruct (ConsumeGas n d (gas s)) as [[]] eqn:E; intros; simplify_eq. by apply ConsumeGas_no_err in E.
Qed.
#[local] Hint Resolve consume_any : frame.
Lemma getCoins_any a : framed any_rel (getCoins a).
Proof. unfold getCoins, GetAccount. framed. Qed.
Lemma setCoins_any a c : framed any_rel (setCoins a c).
Proof.
  unfold setCoins, GetAccount, SetAccount, NewAccountWithAddress, GetNextAccountNumber.
  framed; by apply framed_modify.
Qed.
#[local] Hint Resolve getCoins_any setCoins_any : frame.
Lemma subtractCoins_any a c : framed any_rel (subtractCoins a c).
Proof. unfold subtractCoins. framed. Qed.

(** ** Frames of the operations *)
Lemma subtractCoins_framed a c :
  amt c IrisAtto = 0 → framed bank_rel (subtractCoins a c).
Proof.
  intros Hc. apply framed_intro; [|intros s e s' E; by eapply (framed_err any_rel), E; apply subtractCoins_any].
  intros s r s' Hr Hs. destruct (subtractCoins_ok _ _ _ _ _ Hs Hr) as (_&Hch&_).
  split; [by eapply ch_wf| |by eapply subtractCoins_keeps].
  rewrite (ch_total _ _ _ _ Hch), Hc. lia.
Qed.

Lemma addCoins_framed a c : amt c IrisAtto = 0 → framed bank_rel (addCoins a c).
Proof.
  intros Hc. apply framed_intro; [|intros s e s' E; by apply addCoins_no_err in E].
  intros s r s' Hr Hs. destruct (addCoins_changes _ _ _ _ _ Hs Hr) as (_&Hch&_).
  split; [by eapply ch_wf| |by eapply addCoins_keeps].
  rewrite (ch_total _ _ _ _ Hch), Hc. lia.
Qed.

Lemma sendCoins_framed from to c : framed bank_rel (sendCoins from to c).
Proof.
  apply framed_intro.
  - intros s u s' Hr Hs. destruct (sendCoins_ok _ _ _ _ _ _ Hs Hr) as (_&Hw&_&Ht&_).
    split; [done|apply Ht|]. unfold sendCoins in Hr. inv_ok Hr.
    destruct (subtractCoins_ok _ _ _ _ _ Hs E) as (_&Hch&_).
    etrans; [by eapply subtractCoins_keeps|]. eapply addCoins_keeps; [by eapply ch_wf|done].
  - intros s e s' Hr. unfold sendCoins in Hr.
    assert (Hf : framed any_rel (subtractCoins from c ;;; addCoins to c ;;; ret tt)); [|by eapply framed_err].
    apply (framed_bind any_rel); [apply subtractCoins_any|intros _]. apply (framed_bind any_rel); [|intros _; framed].
    apply framed_intro; [done|]. intros s1 e1 s2 E. by apply addCoins_no_err in E.
Qed.

(** Accounts are kept, whatever happens to the coins. *)
Definition keeps_rel (s s' : AuthState) : Prop := auth_wf s → auth_wf s' ∧ keeps_accounts s s'.
#[local] Instance keeps_rel_po : PreOrder keeps_rel.
Proof.
  split; [by intros s Hs|]. intros s1 s2 s3 H1 H2 Hs. destruct (H1 Hs) as [W1 K1].
  destruct (H2 W1) as [W2 K2]. split; [done|by etrans].
Qed.
Lemma subtractCoins_keeps_rel a c : framed keeps_rel (subtractCoins a c).
Proof.
  apply framed_intro; [|intros s e s' E; by eapply (framed_err any_rel), E; apply subtractCoins_any].
  intros s r s' Hr Hs. destruct (subtractCoins_ok _ _ _ _ _ Hs Hr) as (_&Hch&_).
  split; [by eapply ch_wf|by eapply subtractCoins_keeps].
Qed.
Lemma addCoins_keeps_rel a c : framed keeps_rel (addCoins a c).
Proof.
  apply framed_intro; [|intros s e s' E; by apply addCoins_no_err in E].
  intros s r s' Hr Hs. destruct (addCoins_changes _ _ _ _ _ Hs Hr) as (_&Hch&_).
  split; [by eapply ch_wf|by eapply addCoins_keeps].
Qed.
#[local] Hint Resolve subtractCoins_keeps_rel addCoins_keeps_rel : frame.
Lemma handleMsgSend_keeps_rel msg : framed keeps_rel (handleMsgSend msg).
Proof. unfold handleMsgSend, inputOutputCoins. framed. Qed.

(** A checked transfer message, a burn, a memo rule. *)
Definition bank_checked (msg : BankMsg) : Prop :=
  match msg with
  | BMsgSend m => ∃ m0, MsgSend_ValidateBasic m0 = (Ok tt, m)
  | _ => True
  end.

Lemma handleMsgSend_framed m0 m :
  MsgSend_ValidateBasic m0 = (Ok tt, m) → framed bank_rel (handleMsgSend m).
Proof.
  intros Hv. apply framed_intro.
  - intros s u s' Hr Hs. destruct (framed_ok _ _ _ _ _ (handleMsgSend_keeps_rel m) Hr Hs) as [Hw Hk].
    split; [done| |done]. destruct (handleMsgSend_ok _ _ _ _ Hs Hr) as (_&Hi&Ho&_&Ht).
    destruct (MsgSend_ValidateBasic_ok _ _ Hv) as (Hsum&Ki&Ko).
    rewrite Ht, (kept_valid _ _ Ki Hi), (kept_valid _ _ Ko Ho), Hsum. lia.
  - intros s e s' E. by eapply (framed_err keeps_rel), E; apply handleMsgSend_keeps_rel.
Qed.

Lemma SetMemoRegexp_framed a r : framed bank_rel (SetMemoRegexp a r).
Proof.
  apply framed_intro.
  - intros s u s' Hr Hs. unfold SetMemoRegexp, GetAccount, SetAccount, bind, gets in Hr.
    destruct (accounts s !! a) as [acc|] eqn:Ea; [|done].
    unfold modify in Hr. injection Hr as <- <-. pose proof (wf_address _ Hs _ _ Ea) as Had.
    change (bank_step s (put_account (Account_SetMemoRegexp acc r) s)).
    assert (Hco : acc_Coins acc = coins_of s a) by (by rewrite (coins_of_Some _ _ _ Ea)).
    split.
    + apply put_account_wf; simpl; [done|rewrite Hco; auto with sdk..].
    + rewrite put_account_total. simpl. unfold balance. rewrite Had, Hco. lia.
    + eapply (keeps_insert _ _ (Account_SetMemoRegexp acc r)); [done|]. intros old. simpl.
      rewrite Had, Ea. by intros [= <-].
  - intros s e s'. unfold SetMemoRegexp, GetAccount, SetAccount, bind, gets, throw, modify.
    case_match; intros; simplify_eq. vm_compute. discriminate.
Qed.

Lemma BurnCoins_framed a c : framed bank_rel (BurnCoins a c).
Proof.
  unfold BurnCoins. apply (framed_bind bank_rel); [|intros _; apply sendCoins_framed].
  apply framed_intro; [|intros s e s' E; by eapply (framed_err any_rel), E; apply consume_any].
  intros s u s' [g ->]%ctx_ConsumeGas_inv. apply bank_rel_gas.
Qed.

Lemma bank_Handler_framed msg : bank_checked msg → framed bank_rel (bank_Handler msg).
Proof.
  intros Hm. destruct msg as [m|m|m|]; simpl.
  - destruct Hm as [m0 Hm]. by eapply handleMsgSend_framed.
  - apply BurnCoins_framed.
  - apply SetMemoRegexp_framed.
  - framed.
Qed.
End keeper.
