(* ===== verification/AnteFacts.v ===== *)
(** * What the ante handler and the fee handlers do to the state *)

From S2P Require Import Prelude SdkErrors Frame IntType GoStrings Denom Coin CoinFacts Dec Gas KVStore Auth StdTx Ante Bank BankFacts BankFrame.
#[local] Open Scope Z_scope.

(** ** Well-formed states *)
Definition fee_pool (s : TxState) : Coins := default [] (collectedFees (ts_fee s)).
Record tx_wf (s : TxState) : Prop := {
  tw_auth : auth_wf (ts_auth s);
  tw_canonical : canonical (fee_pool s);
  tw_nonneg : nonneg (fee_pool s) }.
(** All coins of a denomination: in accounts and in the pool of fees. *)
Definition all_coins (s : TxState) (d : string) : Z := total (ts_auth s) d + amt (fee_pool s) d.

(** A fee as [runTx] lets it through. *)
Definition fee_ok (fee : Coins) : Prop := fee = [] ∨ Coins_IsValidIrisAtto fee = true.

Lemma fee_ok_inv fee : fee_ok fee → sorted fee ∧ nonneg fee ∧ nonzero fee.
Proof.
  intros [->|Hv]; [repeat constructor|]. destruct fee as [|c [|]]; try done. simpl in Hv.
  unfold Coin_IsValidIrisAtto in Hv. apply andb_true_iff in Hv as [_ Hp%Int_IsPositive_iff].
  split_and!; repeat constructor; simpl in *; lia.
Qed.

(** ** Signers *)
Section signers.
Context {T : Type} `{Msg T}.

Lemma unseen_spec seen l : NoDup (unseen seen l) ∧ ∀ x, x ∈ unseen seen l ↔ x ∈ l ∧ x ∉ seen.
Proof.
  revert seen. induction l as [|a l IH]; intros seen; simpl; [split; [constructor|set_solver]|].
  case_bool_decide as Ha.
  - destruct (IH seen) as [Hn He]. split; [done|]. intros x. rewrite He. set_solver.
  - destruct (IH (a :: seen)) as [Hn He]. split.
    + constructor; [|done]. rewrite He. set_solver.
    + intros x. rewrite elem_of_cons, He. destruct (decide (x = a)); set_solver.
Qed.
Lemma GetSigners_NoDup (tx : StdTx T) : NoDup (GetSigners tx).
Proof. apply unseen_spec. Qed.
End signers.

Section ante.
Context {T : Type} `{Msg T} `{JsonOps} `{KeyOps}.
Implicit Types (tx : StdTx T) (ctx : Context).

Lemma getSignerAccs_ok addrs s accs s' :
  getSignerAccs addrs s = (Ok accs, s') →
  s' = s ∧ Forall2 (λ addr acc, accounts s !! addr = Some acc) addrs accs.
Proof.
  revert accs. induction addrs as [|a addrs IH]; intros accs Hr; simpl in Hr.
  - injection Hr as <- <-. by split.
  - unfold GetAccount in Hr. unfold bind at 1, gets in Hr. destruct (accounts s !! a) as [acc|] eqn:Ea; [|done].
    inv_ok Hr. destruct (IH _ E) as [-> HF]. split; [done|]. by constructor.
Qed.

Lemma validate_sequence ctx accs sigs :
  length accs = length sigs → validateAccNumAndSequence ctx accs sigs = Ok tt →
  Forall2 (λ acc sig, acc_Sequence acc = sig_Sequence sig ∧
                      if hd_Height (ctx_Header ctx) =? 0 then sig_AccountNumber sig = 0
                      else acc_AccountNumber acc = sig_AccountNumber sig) accs sigs.
Proof.
  revert sigs. induction accs as [|acc accs IH]; intros [|sig sigs] Hl Hv; simpl in *; try done.
  destruct (hd_Height (ctx_Header ctx) =? 0) eqn:Eh; simpl in Hv.
  - destruct (Z.eqb_spec (sig_AccountNumber sig) 0); [|done]. simpl in Hv.
    destruct (Z.eqb_spec (acc_Sequence acc) (sig_Sequence sig)); [|done]. simpl in Hv.
    constructor; [done|]. apply IH; [lia|done].
  - destruct (Z.eqb_spec (acc_AccountNumber acc) (sig_AccountNumber sig)); [|done]. simpl in Hv.
    destruct (Z.eqb_spec (acc_Sequence acc) (sig_Sequence sig)); [|done]. simpl in Hv.
    constructor; [done|]. apply IH; [lia|done].
Qed.

(** The key a signature is checked with. *)
Definition signing_key (acc : BaseAccount) (sig : StdSignature) (simulate : bool) (pk : PubKey) : Prop :=
  if simulate then pk = default dummySecp256k1Pubkey (acc_PubKey acc)
  else acc_PubKey acc = Some pk ∨
       acc_PubKey acc = None ∧ sig_PubKey sig = Some pk ∧ pk_Address pk = acc_Address acc.

(** The account after its signature was accepted. *)
Definition signed (simulate : bool) (bytes : StdSignature → string) (acc : BaseAccount) (sig : StdSignature)
    (acc' : BaseAccount) : Prop :=
  ∃ pk, signing_key acc sig simulate pk ∧
        (simulate = true ∨ pk_VerifyBytes pk (bytes sig) (sig_Signature sig) = true) ∧
        acc' = SetSequence (SetPubKey acc (Some pk)) (wrap64 (acc_Sequence acc + 1)).

Lemma processPubKey_ok acc sig simulate pk :
  processPubKey acc sig simulate = Ok pk → signing_key acc sig simulate pk.
Proof.
  unfold processPubKey, signing_key. destruct simulate; [by intros [= <-]|].
  destruct (acc_PubKey acc) as [k|]; [intros [= <-]; by left|].
  destruct (sig_PubKey sig) as [k|]; [|done]. case_bool_decide; [|done]. intros [= <-]. by right.
Qed.

Lemma processSig_ok acc sig bytes simulate s acc' s' :
  processSig acc sig (bytes sig) simulate s = (Ok acc', s') →
  signed simulate bytes acc sig acc' ∧ ∃ g, s' = set_gas g s.
Proof.
  unfold processSig. intros Hr. inv_ok Hr. apply processPubKey_ok in E.
  apply zoom_ok in E0 as (g&_&->). split; [|eauto]. exists a. split; [done|].
  destruct simulate; [by split; [left|]|]. split; [by right|done].
Qed.

(** Only the accounts and the meter changed. *)
Definition only_accounts (s s' : AuthState) : Prop :=
  globalAccountNumber s' = globalAccountNumber s ∧ same_supply s s'.
#[export] Instance only_accounts_po : PreOrder only_accounts.
Proof. unfold only_accounts. split; [done|]. intros ???. intros [? ?] [? ?]. split; [congruence|by etrans]. Qed.

Lemma processSigs_ok bytes accs sigs simulate s accs' s' :
  length accs = length sigs → NoDup (acc_Address <$> accs) →
  processSigs accs sigs (map bytes sigs) simulate s = (Ok accs', s') →
  Forall3 (signed simulate bytes) accs sigs accs' ∧
  (∀ x, x ∉ acc_Address <$> accs → accounts s' !! x = accounts s !! x) ∧
  Forall (λ acc, accounts s' !! acc_Address acc = Some acc) accs' ∧
  only_accounts s s' ∧
  (∀ d, total s' d = total s d + list_sum (λ acc, amt (acc_Coins acc) d - balance s (acc_Address acc) d) accs) ∧
  (auth_wf s → Forall (λ acc, canonical (acc_Coins acc) ∧ nonneg (acc_Coins acc)) accs → auth_wf s').
Proof.
  revert sigs s accs'. induction accs as [|acc accs IH]; intros [|sig sigs] s accs' Hl Hnd Hr; simpl in *; try done.
  - injection Hr as <- <-. split_and!; [constructor|done|constructor|done|intros d; lia|done].
  - unfold bind at 1 in Hr. destruct (processSig acc sig (bytes sig) simulate s) as [[acc1| |] s1] eqn:E1; try done.
    apply processSig_ok in E1 as [Hsig [g ->]].
    unfold SetAccount, modify in Hr. unfold bind at 1 in Hr. fold (put_account acc1 (set_gas g s)) in Hr.
    inv_ok Hr. apply NoDup_cons in Hnd as [Hni Hnd].
    destruct (IH _ _ _ (Nat.succ_inj _ _ Hl) Hnd E) as (HF&Ho&Hin&Hoa&Ht&Hw).
    destruct Hsig as (pk&Hk&Hv&->). set (acc1 := SetSequence _ _) in *.
    change (acc_Address acc) with (acc_Address acc1) in *.
    split_and!.
    + constructor; [by exists pk|done].
    + intros x Hx. rewrite not_elem_of_cons in Hx. destruct Hx as [Hx1 Hx2].
      rewrite Ho by done. unfold put_account. simpl. by rewrite lookup_insert_ne.
    + constructor; [|done]. rewrite Ho by done. unfold put_account. simpl. by rewrite lookup_insert_eq.
    + by etrans; [|apply Hoa].
    + intros d. rewrite Ht, put_account_total.
      assert (Hs : list_sum (λ acc, amt (acc_Coins acc) d - balance (put_account acc1 (set_gas g s)) (acc_Address acc) d) accs
                   = list_sum (λ acc, amt (acc_Coins acc) d - balance s (acc_Address acc) d) accs).
      { apply list_sum_ext. intros b Hb. unfold balance. rewrite put_account_coins, decide_False; [done|].
        intros E'. apply Hni. rewrite <-E'. apply list_elem_of_fmap. eauto. }
      rewrite Hs. change (total (set_gas g s) d) with (total s d).
      change (balance (set_gas g s) (acc_Address acc1) d) with (balance s (acc_Address acc1) d). simpl. lia.
    + intros Hs [Hc Hcs]%Forall_cons. apply Hw; [|done]. apply put_account_wf; [by apply auth_wf_gas|apply Hc..].
Qed.

(** The first account pays the fee. *)
Definition paid (fee : Coins) (accs accs' : list BaseAccount) : Prop :=
  (Coins_IsZero fee = true ∧ accs' = accs) ∨
  ∃ payer rest c, accs = payer :: rest ∧ accs' = SetCoins payer c :: rest ∧
    canonical c ∧ nonneg c ∧ ∀ d, amt c d = amt (acc_Coins payer) d - amt fee d.

Lemma fee_zero fee d : Coins_IsZero fee = true → amt fee d = 0.
Proof. intros Hz. apply amt_zero. by apply Coins_IsZero_iff. Qed.

Lemma payFees_ok accs fee s accs' s' :
  fee_ok (fee_Amount fee) → tx_wf s → Forall (λ acc, canonical (acc_Coins acc) ∧ nonneg (acc_Coins acc)) accs →
  payFees accs fee s = (Ok accs', s') →
  paid (fee_Amount fee) accs accs' ∧ ts_auth s' = ts_auth s ∧ tx_wf s' ∧
  ∀ d, amt (fee_pool s') d = amt (fee_pool s) d + amt (fee_Amount fee) d.
Proof.
  intros Hfee Hs Haccs. destruct (fee_ok_inv _ Hfee) as (Sf&Nf&Zf). unfold payFees.
  destruct (Coins_IsZero (fee_Amount fee)) eqn:Hz.
  { intros [= <- <-]. split_and!; [by left|done|done|]. intros d. rewrite (fee_zero _ d Hz). lia. }
  destruct accs as [|payer rest]; [done|]. apply Forall_cons in Haccs as [[Cp Np] _].
  intros Hr. inv_ok Hr. unfold deductFees in E. inv_ok E. destruct a1 as [c []]; [done|].
  injection E as <-. destruct (Coins_SafeSub_spec _ _ _ _ (proj1 Cp) Sf E1) as (Hc&Ha&Hn).
  apply zoom_ok in E0 as (f&Hadd&->). unfold AddCollectedFees, GetCollectedFees, setCollectedFees in Hadd.
  inv_ok Hadd. simpl in *.
  pose proof (λ d, Coins_Add_amt _ _ _ d E) as Hp.
  destruct (Coins_Add_canonical _ _ _ (proj1 (tw_canonical _ Hs)) Sf E) as [Hcp Hnp].
  split_and!; [|done|split; [apply Hs|done|done]|done].
  right. exists payer, rest, c. split_and!; try done.
  apply nonneg_amt; [apply Hc|]. intros d. rewrite Ha. pose proof (proj1 Hn eq_refl d). lia.
Qed.

(** The bytes a signature must sign. *)
Definition sign_bytes ctx tx (sig : StdSignature) : string :=
  StdSignBytes (hd_ChainID (ctx_Header ctx)) (sig_AccountNumber sig) (sig_Sequence sig)
    (tx_Fee tx) (tx_Msgs tx) (tx_Memo tx).

(** The state after a transaction was authenticated. *)
Record authenticated ctx tx (simulate : bool) (s : TxState) (accs' : list BaseAccount) (s' : TxState) : Prop := {
  au_signers : ∃ accs accs1,
    Forall2 (λ addr acc, accounts (ts_auth s) !! addr = Some acc) (GetSigners tx) accs ∧
    Forall2 (λ acc sig, acc_Sequence acc = sig_Sequence sig ∧
               if hd_Height (ctx_Header ctx) =? 0 then sig_AccountNumber sig = 0
               else acc_AccountNumber acc = sig_AccountNumber sig) accs (tx_Signatures tx) ∧
    paid (fee_Amount (tx_Fee tx)) accs accs1 ∧
    Forall3 (signed simulate (sign_bytes ctx tx)) accs1 (tx_Signatures tx) accs';
  au_some : GetSigners tx ≠ [];
  au_stored : Forall (λ acc, accounts (ts_auth s') !! acc_Address acc = Some acc) accs';
  au_others x : x ∉ GetSigners tx → accounts (ts_auth s') !! x = accounts (ts_auth s) !! x;
  au_supply : only_accounts (ts_auth s) (ts_auth s');
  au_pool d : amt (fee_pool s') d = amt (fee_pool s) d + amt (fee_Amount (tx_Fee tx)) d;
  au_coins d : all_coins s' d = all_coins s d;
  au_wf : tx_wf s' }.

Lemma paid_length fee accs accs' : paid fee accs accs' → length accs' = length accs.
Proof. intros [[_ ->]|(payer&rest&c&->&->&_)]; done. Qed.
Lemma paid_addresses fee accs accs' : paid fee accs accs' → acc_Address <$> accs' = acc_Address <$> accs.
Proof. intros [[_ ->]|(payer&rest&c&->&->&_)]; done. Qed.

Lemma paid_canonical fee accs accs' :
  Forall (λ acc, canonical (acc_Coins acc) ∧ nonneg (acc_Coins acc)) accs → paid fee accs accs' →
  Forall (λ acc, canonical (acc_Coins acc) ∧ nonneg (acc_Coins acc)) accs'.
Proof.
  intros Hf [[_ ->]|(payer&rest&c&->&->&Hc&Hn&_)]; [done|]. apply Forall_cons in Hf as [_ Hf]. by constructor.
Qed.

Lemma loaded_addresses s addrs accs :
  auth_wf s → Forall2 (λ addr acc, accounts s !! addr = Some acc) addrs accs → acc_Address <$> accs = addrs.
Proof.
  intros Hs. induction 1 as [|a acc addrs accs Ha _ IH]; csimpl; [done|]. by rewrite IH, (wf_address _ Hs _ _ Ha).
Qed.
Lemma loaded_coins s addrs accs :
  auth_wf s → Forall2 (λ addr acc, accounts s !! addr = Some acc) addrs accs →
  Forall (λ acc, acc_Coins acc = coins_of s (acc_Address acc)) accs.
Proof.
  intros Hs. induction 1 as [|a acc addrs accs Ha _ IH]; constructor; [|done].
  by rewrite (wf_address _ Hs _ _ Ha), (coins_of_Some _ _ _ Ha).
Qed.

(** The accounts given the coins they had, but for the fee. *)
Lemma paid_sum fee accs accs' s d :
  Forall (λ acc, acc_Coins acc = coins_of s (acc_Address acc)) accs → paid fee accs accs' →
  list_sum (λ acc, amt (acc_Coins acc) d - balance s (acc_Address acc) d) accs' = - amt fee d.
Proof.
  intros Hl Hp.
  assert (Hz : ∀ l, Forall (λ acc, acc_Coins acc = coins_of s (acc_Address acc)) l →
               list_sum (λ acc, amt (acc_Coins acc) d - balance s (acc_Address acc) d) l = 0).
  { induction 1 as [|acc l Ha _ IH]; simpl; [done|]. unfold balance at 1. rewrite <-Ha. lia. }
  destruct Hp as [[Hf ->]|(payer&rest&c&->&->&_&_&Hc)]; [rewrite Hz, (fee_zero _ d Hf) by done; lia|].
  apply Forall_cons in Hl as [Hp Hl]. simpl. rewrite Hz by done. unfold balance. rewrite <-Hp, Hc. lia.
Qed.

Lemma StdTx_ValidateBasic_ok tx :
  StdTx_ValidateBasic tx = Ok tt → length (tx_Signatures tx) = length (GetSigners tx) ∧ tx_Signatures tx ≠ [].
Proof.
  unfold StdTx_ValidateBasic. repeat case_match; try done. intros _. zbool. split; [lia|].
  intros E. by rewrite E in *.
Qed.

Lemma authenticate_ok ctx tx simulate s accs' s' :
  fee_ok (fee_Amount (tx_Fee tx)) → tx_wf s →
  authenticate ctx tx simulate s = (Ok accs', s') → authenticated ctx tx simulate s accs' s'.
Proof.
  intros Hfee Hs Hr. unfold authenticate in Hr. inv_ok Hr. destruct a, a1.
  apply StdTx_ValidateBasic_ok in E as [Hlen Hsome].
  apply zoom_ok in E0 as (st&E0&->). apply getSignerAccs_ok in E0 as [-> Hload].
  assert (Heta : {| ts_auth := ts_auth s; ts_fee := ts_fee s |} = s) by by destruct s.
  rewrite Heta in E2. clear Heta.
  pose proof (Forall2_length _ _ _ Hload) as Hlen0.
  apply validate_sequence in E1; [|lia].
  pose proof (tw_auth _ Hs) as Hw.
  assert (Hcn : Forall (λ acc, canonical (acc_Coins acc) ∧ nonneg (acc_Coins acc)) a0).
  { clear -Hload Hw. induction Hload as [|x acc l k Hx _ IH]; constructor; [|done].
    rewrite <-(coins_of_Some _ _ _ Hx). split; [by apply wf_canonical|by apply wf_nonneg]. }
  destruct (payFees_ok _ _ _ _ _ Hfee Hs Hcn E2) as (Hp&Ea&Hw1&Hpool).
  apply zoom_ok in Hr as (st&Hr&->). rewrite Ea in Hr.
  pose proof (paid_addresses _ _ _ Hp) as Haddr. rewrite (loaded_addresses _ _ _ Hw Hload) in Haddr.
  apply (processSigs_ok (sign_bytes ctx tx)) in Hr as (HF&Ho&Hin&Hoa&Ht&Hwf);
    [|rewrite (paid_length _ _ _ Hp); lia|rewrite Haddr; apply GetSigners_NoDup].
  rewrite Haddr in Ho. split; simpl; try done.
  - exists a0, a2. done.
  - intros En. rewrite En in Hlen. by destruct (tx_Signatures tx).
  - intros d. unfold all_coins. simpl. rewrite Ht, (paid_sum _ _ _ _ _ (loaded_coins _ _ _ Hw Hload) Hp).
    unfold fee_pool in *. simpl. rewrite Hpool. lia.
  - split; simpl; [|apply Hw1..]. apply Hwf; [done|]. by eapply paid_canonical.
Qed.

(** ** Errors of the ante handler have codes *)
Definition some_state (_ _ : TxState) : Prop := True.
#[local] Instance some_state_po : PreOrder some_state.
Proof. done. Qed.
Definition some_auth (_ _ : AuthState) : Prop := True.
#[local] Instance some_auth_po : PreOrder some_auth.
Proof. done. Qed.
Lemma StdTx_ValidateBasic_nz tx : err_nz (StdTx_ValidateBasic tx).
Proof. unfold StdTx_ValidateBasic. err_nz. Qed.
Lemma validate_sequence_nz ctx accs sigs : err_nz (validateAccNumAndSequence ctx accs sigs).
Proof.
  revert sigs. induction accs as [|acc accs IH]; intros sigs; simpl; [err_nz|]. destruct sigs; [err_nz|].
  repeat (case_match; [err_nz|]). apply IH.
Qed.
Lemma deductFees_nz acc fee : err_nz (deductFees acc fee).
Proof. unfold deductFees. err_nz. Qed.
Lemma processPubKey_nz acc sig simulate : err_nz (processPubKey acc sig simulate).
Proof. unfold processPubKey. err_nz. Qed.
#[local] Hint Resolve StdTx_ValidateBasic_nz validate_sequence_nz deductFees_nz processPubKey_nz : frame.
Lemma verification_gas_nz sig pk g e g' :
  consumeSignatureVerificationGas sig pk g = (Err e, g') → code e ≠ 0.
Proof.
  destruct pk as [k|k|n keys|n k]; simpl.
  - by intros E%ConsumeGas_no_err.
  - by intros E%ConsumeGas_no_err.
  - destruct (multisig_Unmarshal sig) as [[bits sigs]|]; [|done]. intros Hr. exfalso. revert bits sigs g Hr.
    induction keys as [|k keys IH]; intros bits sigs g Hr; destruct bits as [|b bits]; simpl in Hr; try done.
    + by destruct (b || existsb id bits).
    + destruct b; [|by eapply IH]. destruct sigs as [|s sigs]; [done|]. unfold bind, ignore_err in Hr.
      destruct (consumeSignatureVerificationGas s k g) as [[[]|e1|w] g1]; [by eapply IH..|done].
  - by intros [= <- _].
Qed.
Lemma getSignerAccs_any addrs : framed some_auth (getSignerAccs addrs).
Proof. induction addrs; simpl; unfold GetAccount in *; framed. Qed.
Lemma verification_any sig pk : framed some_auth (zoom gas set_gas (consumeSignatureVerificationGas sig pk)).
Proof.
  apply framed_intro; [done|]. intros s e s'. unfold zoom.
  destruct (consumeSignatureVerificationGas sig pk (gas s)) as [[[]|e1|w] g1] eqn:E; intros; simplify_eq.
  by eapply verification_gas_nz.
Qed.
#[local] Hint Resolve getSignerAccs_any verification_any : frame.
Lemma processSigs_any accs sigs bytes simulate : framed some_auth (processSigs accs sigs bytes simulate).
Proof.
  revert sigs bytes. induction accs as [|acc accs IH]; intros [|sig sigs] [|b bytes]; simpl;
    unfold processSig, SetAccount; framed; try done.
Qed.
#[local] Hint Resolve processSigs_any : frame.
Lemma on_auth_any {A} (c : M AuthState A) : framed some_auth c → framed some_state (on_auth c).
Proof. intros Hc. by eapply framed_zoom. Qed.
#[local] Hint Resolve on_auth_any : frame.
Lemma payFees_any accs fee : framed some_state (payFees accs fee).
Proof.
  unfold payFees. framed. eapply (framed_zoom (λ _ _ : FeeStore, True)); [done|].
  assert (PreOrder (λ _ _ : FeeStore, True)) by done.
  unfold AddCollectedFees, GetCollectedFees, setCollectedFees. framed. by apply framed_modify.
Qed.
#[local] Hint Resolve payFees_any : frame.
Lemma authenticate_any ctx tx simulate : framed some_state (authenticate ctx tx simulate).
Proof. unfold authenticate. framed. Qed.

(** The outcomes of the handler. *)
Variable log_gasBase : Z → Z.
Lemma auth_AnteHandler_spec ctx tx simulate s o s' :
  auth_AnteHandler log_gasBase ctx tx simulate s = (o, s') →
  match o with
  | Ok (newCtx, res, abort) =>
      (abort = false ∧ ∃ g accs, authenticate ctx tx simulate (mkTxState (set_gas g (ts_auth s)) (ts_fee s)) = (Ok accs, s') ∧
         newCtx = Some (WithSigners ctx accs) ∧ res = mkResult "" CodeOK (fee_Gas (tx_Fee tx)) 0) ∨
      (abort = true ∧ res_IsOK res = false ∧ (newCtx = None ∨ newCtx = Some ctx))
  | Err _ => False
  | Panic _ => True
  end.
Proof.
  unfold auth_AnteHandler, ensureSufficientMempoolFees. intros Hr.
  destruct (if ctx_CheckTx ctx && negb simulate then _ else Ok tt) as [[]|e|w] eqn:Em.
  - set (s0 := mkTxState _ _) in Hr. pose proof (authenticate_any ctx tx simulate s0) as Hnz.
    destruct (authenticate ctx tx simulate s0) as [[accs|e|w] s1] eqn:Ea.
    + injection Hr as <- <-. left. split; [done|]. by eexists _, accs.
    + injection Hr as <- <-. right. split_and!; [done| |by right]. unfold res_IsOK. by apply Z.eqb_neq.
    + case_bool_decide; injection Hr as <- <-; [|done]. right. split_and!; [done|done|by right].
  - injection Hr as <- <-. right. split_and!; [done| |by left]. unfold res_IsOK. apply Z.eqb_neq.
    repeat case_match; by simplify_eq.
  - by injection Hr as <- _.
Qed.
End ante.

(** ** Refunds *)
(** The first signer gets [r] of the native token back from the pool. *)
Record refunded (payer : AccAddress) (r : Z) (s s' : TxState) : Prop := {
  rf_wf : tx_wf s';
  rf_nonneg : 0 ≤ r;
  rf_coins d : all_coins s' d = all_coins s d;
  rf_pool d : amt (fee_pool s') d = amt (fee_pool s) d - (if decide (d = IrisAtto) then r else 0);
  rf_balance x d : balance (ts_auth s') x d =
    balance (ts_auth s) x d + (if decide (x = payer ∧ d = IrisAtto) then r else 0);
  rf_keeps : keeps_accounts (ts_auth s) (ts_auth s');
  rf_supply : only_accounts (ts_auth s) (ts_auth s');
  rf_params : feeParams (ts_fee s') = feeParams (ts_fee s) }.

Lemma amt_iris r d : amt [mkCoin IrisAtto r] d = if decide (d = IrisAtto) then r else 0.
Proof.
  unfold amt. simpl. repeat case_decide; congruence || lia.
Qed.

Lemma Coins_Sub_spec a b s :
  sorted a → sorted b → Coins_Sub a b = Ok s → canonical s ∧ nonneg s ∧ ∀ d, amt s d = amt a d - amt b d.
Proof.
  intros Ha Hb [H Hn]%Coins_Sub_ok.
  destruct (Coins_SafeSub_spec a b s (IsAnyNegative s)) as (Hc&Hamt&_); [done|done|by apply Coins_SafeSub_ok|done].
Qed.

Lemma getFee_ok fee c : sorted fee → getFee fee = Ok c → c = mkCoin IrisAtto (amt fee IrisAtto).
Proof.
  intros Hs. unfold getFee, NewCoin. rewrite AmountOf_amt by done. destruct fee; simpl; [by intros [= <-]|].
  case_match; [done|]. by intros [= <-].
Qed.

Lemma refund_steps payer acc r coins s fees f :
  tx_wf s → 0 ≤ r → accounts (ts_auth s) !! payer = Some acc →
  Coins_Add (acc_Coins acc) [mkCoin IrisAtto r] = Ok coins →
  RefundCollectedFees [mkCoin IrisAtto r] (ts_fee s) = (Ok fees, f) →
  refunded payer r s (mkTxState (put_account (SetCoins acc coins) (ts_auth s)) f).
Proof.
  intros Hs Hr Hacc Hadd Hsub. pose proof (tw_auth _ Hs) as Hw.
  assert (S1 : sorted [mkCoin IrisAtto r]) by repeat constructor.
  pose proof (λ d, Coins_Add_amt _ _ _ d Hadd) as Ha. setoid_rewrite amt_iris in Ha.
  rewrite <-(coins_of_Some _ _ _ Hacc) in Hadd, Ha.
  destruct (Coins_Add_canonical _ _ _ (proj1 (wf_canonical _ Hw payer)) S1 Hadd) as [Cc Nc].
  unfold RefundCollectedFees, GetCollectedFees, setCollectedFees in Hsub. inv_ok Hsub.
  destruct (IsAnyNegative a); [done|]. inv_ok Hsub.
  destruct (Coins_Sub_spec _ _ _ (proj1 (tw_canonical _ Hs)) S1 E) as (Cp&Np&Hp). setoid_rewrite amt_iris in Hp.
  pose proof (wf_address _ Hw _ _ Hacc) as Haddr. split; simpl; try done.
  - split; [|done..]. by apply put_account_wf.
  - intros d. unfold all_coins. simpl. rewrite put_account_total. simpl. rewrite Haddr, Ha.
    unfold fee_pool at 1. simpl. rewrite Hp. unfold balance, fee_pool. lia.
  - intros x d. unfold balance. rewrite put_account_coins. simpl. rewrite Haddr.
    destruct (decide (x = payer)) as [->|Hx].
    + rewrite Ha. destruct (decide (d = IrisAtto)); [rewrite decide_True|rewrite decide_False]; naive_solver.
    + rewrite decide_False by naive_solver. lia.
  - eapply keeps_insert; [done|]. intros old. simpl. rewrite Haddr, Hacc. by intros [= <-].
Qed.

(** The refund of a transaction that asked for [wanted] gas and used [used]. *)
Definition refund_of (fee wanted used : Z) : Z :=
  euclid_div (fee * wrap_int64 (wanted - used)) (wrap_int64 wanted).

Lemma FeeRefundHandler_ok {T} ctx (tx : StdTx T) res s kept s' :
  sorted (fee_Amount (tx_Fee tx)) → tx_wf s → FeeRefundHandler ctx tx res s = (Ok kept, s') →
  match ctx_Signers ctx with
  | [] => s' = s
  | payer :: _ =>
      let fee := amt (fee_Amount (tx_Fee tx)) IrisAtto in
      let r := refund_of fee (res_GasWanted res) (res_GasUsed res) in
      if res_GasWanted res <=? res_GasUsed res then s' = s
      else refunded (acc_Address payer) r s s' ∧ kept = mkCoin IrisAtto (fee - r) ∧ 0 ≤ fee - r
  end.
Proof.
  intros Hf Hs. unfold FeeRefundHandler. destruct (ctx_Signers ctx) as [|payer rest]; [by intros [= _ <-]|].
  intros Hr. inv_ok Hr. apply (getFee_ok _ _ Hf) in E as ->. case_match; [by injection Hr as _ <-|].
  inv_ok Hr. simpl in *. unfold NewInt in *. apply Int_Mul_exact in E as [-> _]. apply Int_Div_ok in E0 as [_ ->].
  fold (refund_of (amt (fee_Amount (tx_Fee tx)) IrisAtto) (res_GasWanted res) (res_GasUsed res)) in E1.
  set (r := refund_of _ _ _) in *. apply NewCoin_ok in E1 as [-> Hr0].
  apply zoom_ok in E2 as (st&E2&->). injection E2 as <- <-. simpl in Hr.
  destruct (accounts (ts_auth s) !! acc_Address payer) as [acc|] eqn:Ea; [|done]. inv_ok Hr.
  apply zoom_ok in E0 as (st&E0&->). injection E0 as <- <-. apply zoom_ok in E1 as (f&E1&->). simpl in *.
  apply Int_Sub_ok in E2 as [-> _]. apply NewCoin_ok in Hr as [-> Hk]. split; [|done].
  by eapply refund_steps.
Qed.
