(* ===== verification/Mint.v ===== *)
(** * Inflation (app/v1/mint)

    At the start of every block but the first the keeper mints a fixed share of
    the yearly inflation into the pool of fees. *)

From S2P Require Import Prelude SdkErrors IntType GoStrings Denom Coin CoinFacts Dec Gas KVStore Auth BankFacts BankBurn StdTx AnteFacts.
#[local] Open Scope Z_scope.

Module Mint.
(** ** The minter (minter.go); times are in nanoseconds since 1970 *)
Definition blocksPerYear : Z := 60 * 60 * 8766 / 5.
Definition InitialIssue : Int := 2 * 10^9.
Record Minter := NewMinter { LastUpdate : Z; MintDenom : string; InflationBase : Int }.
Definition InitialMinter : Outcome Minter :=
  let? one := NewIntWithDecimal 1 18 in
  let? base := Int_Mul InitialIssue one in
  Ok (NewMinter 0 IrisAtto base).

(** An error of package fmt has no code. *)
Definition fmt_Errorf : Error := mkError "" 1.
Definition validateMinter (minter : Minter) : Outcome unit :=
  if LastUpdate minter <? 0 then Err fmt_Errorf else
  if bool_decide (str_len (MintDenom minter) = 0%nat) then Err fmt_Errorf else
  if negb (Int_GT (InflationBase minter) 0) then Err fmt_Errorf else Ok tt.

(** ** Parameters (params.go) *)
Record Params := mkParams { Inflation : Dec }.
Definition KeyInflation : string := "Inflation".
Definition CodeInvalidString : Z := 0.
Definition CodeInvalidKey : Z := 111.
Definition CodeInvalidMintInflation : Z := 400.
Definition params_err (c : Z) : Error := NewError params_DefaultCodespace c.

Definition NextAnnualProvisions (m : Minter) (params : Params) : Outcome Dec :=
  Dec_MulInt (Inflation params) (InflationBase m).
Definition BlockProvision (m : Minter) (annualProvisions : Dec) : Outcome Coin :=
  let? blockInflationAmount := Dec_QuoInt annualProvisions (NewInt blocksPerYear) in
  let? a := Dec_TruncateInt blockInflationAmount in
  NewCoin (MintDenom m) a.

Definition Params_Validate (key value : string) : Outcome Dec :=
  if bool_decide (key = KeyInflation) then
    match NewDecFromStr value with
    | Err _ => Err (params_err CodeInvalidString)
    | Panic w => Panic w
    | Ok inflation =>
        let? hi := NewDecWithPrec 2 1 in
        let? lo := NewDecWithPrec 0 0 in
        if Dec_GT inflation hi || Dec_LT inflation lo then Err (params_err CodeInvalidMintInflation)
        else Ok inflation
    end
  else Err (params_err CodeInvalidKey).
Definition DefaultParams : Outcome Params :=
  let? d := NewDecWithPrec 4 2 in Ok (mkParams d).
Definition validateParams (p : Params) : Outcome unit :=
  let? hi := NewDecWithPrec 2 1 in
  if Dec_GT (Inflation p) hi || Dec_LT (Inflation p) ZeroDec
  then Err (params_err CodeInvalidMintInflation) else Ok tt.

(** ** The keeper (keeper.go) *)
Record MintState := mkMint { mt_tx : TxState; mt_minter : option Minter; mt_params : Params }.
Abbreviation MM := (M MintState).
Definition on_tx {A} (c : M TxState A) : MM A :=
  zoom mt_tx (λ t s, mkMint t (mt_minter s) (mt_params s)) c.
Definition GetMinter : MM Minter :=
  minter <- gets mt_minter ;;
  match minter with None => panic "Stored minter should not have been nil" | Some m => ret m end.
Definition SetMinter (minter : Minter) : MM unit := modify (λ s, mkMint (mt_tx s) (Some minter) (mt_params s)).
Definition GetParamSet : MM Params := gets mt_params.
Definition SetParamSet (p : Params) : MM unit := modify (λ s, mkMint (mt_tx s) (mt_minter s) p).

(** ** Every block (abci.go) *)
Definition BeginBlocker (blockHeight blockTime : Z) : MM unit :=
  minter <- GetMinter ;;
  let updated := NewMinter blockTime (MintDenom minter) (InflationBase minter) in
  if blockHeight <=? 1 then SetMinter updated else
  params <- GetParamSet ;;
  annualProvisions <- lift (NextAnnualProvisions minter params) ;;
  mintedCoin <- lift (BlockProvision minter annualProvisions) ;;
  on_tx (on_auth (IncreaseTotalLoosenToken [mintedCoin])) ;;;
  on_tx (on_fee (AddCollectedFees [mintedCoin])) ;;;
  SetMinter updated.

(** ** Genesis (genesis.go) *)
Record GenesisState := mkGenesis { gs_Minter : Minter; gs_Params : Params }.
Definition ValidateGenesis (data : GenesisState) : Outcome unit :=
  let? _ := validateParams (gs_Params data) in validateMinter (gs_Minter data).
Definition InitGenesis (data : GenesisState) : MM unit :=
  match ValidateGenesis data with
  | Ok _ => SetMinter (gs_Minter data) ;;; SetParamSet (gs_Params data)
  | Err _ => panic "invalid genesis"
  | Panic w => panic w
  end.
Definition ExportGenesis : MM GenesisState :=
  minter <- GetMinter ;;
  params <- GetParamSet ;;
  ret (mkGenesis minter params).

(** ** What a block mints *)
Definition provision (inflation base : Z) : Z := inflation * base / (blocksPerYear * precisionReuse).

Lemma blocksPerYear_value : blocksPerYear = 6311520.
Proof. reflexivity. Qed.
Lemma validateParams_ok p : validateParams p = Ok tt ↔ 0 ≤ Inflation p ≤ 2 * 10^9.
Proof.
  unfold validateParams, Dec_GT, Dec_LT, ZeroDec. change (NewDecWithPrec 2 1) with (@Ok Dec (2 * 10^9)). cbn [obind].
  destruct (Z.ltb_spec (2 * 10^9) (Inflation p)), (Z.ltb_spec (Inflation p) 0); simpl; split; try done; lia.
Qed.
(** The two divisions of the code amount to one. *)
Lemma block_coin m p :
  validateParams p = Ok tt → 0 < InflationBase m → int_ok (InflationBase m) →
  ∃ a, NextAnnualProvisions m p = Ok a ∧
    BlockProvision m a = Ok (mkCoin (MintDenom m) (provision (Inflation p) (InflationBase m))) ∧
    0 ≤ provision (Inflation p) (InflationBase m).
Proof.
  rewrite validateParams_ok. unfold provision, NextAnnualProvisions, BlockProvision.
  set (i := Inflation p). set (b := InflationBase m). intros Hi Hb Hok. unfold int_ok in Hok.
  assert (Hib : 0 ≤ i * b) by nia. exists (i * b). split; [apply dec_checked_ok; split; [done|unfold dec_ok; nia]|].
  change (NewInt blocksPerYear) with blocksPerYear. unfold Dec_QuoInt, big_Quo. rewrite blocksPerYear_value. cbn [Z.eqb obind].
  unfold Dec_TruncateInt, chopPrecisionAndTruncate. rewrite (Z.quot_div_nonneg (i * b)) by done.
  rewrite Z.quot_div_nonneg by (done || by apply Z.div_pos).
  rewrite Z.div_div by done. set (q := _ / _). assert (0 ≤ q) by (apply Z.div_pos; done).
  assert (Hq : int_ok q).
  { unfold int_ok. assert (q * (6311520 * precisionReuse) ≤ i * b) by (rewrite Z.mul_comm; by apply Z.mul_div_le).
    change (6311520 * precisionReuse) with 63115200000000000 in *. nia. }
  rewrite (proj2 (NewIntFromBigInt_ok q q)) by done. cbn [obind]. unfold NewCoin. autorewrite with sdk_sign.
  split; [|done]. destruct (Z.ltb_spec q 0); [lia|done].
Qed.

(** Adding a coin to a set of coins, in the pools of the native token. *)
Definition pool_ok (l : Coins) : Prop := canonical l ∧ nonneg l ∧ ∀ d, int_ok (amt l d).
Lemma pool_add l c :
  pool_ok l → 0 ≤ amount c → int_ok (amt l (denom c) + amount c) →
  ∃ l', Coins_Add l [c] = Ok l' ∧ pool_ok l' ∧ ∀ d, amt l' d = amt l d + amt [c] d.
Proof.
  intros (Hc&Hn&Hi) Ha Hsum.
  assert (Hs : ∀ d, int_ok (amt l d + amt [c] d)).
  { intros d. simpl. case_decide; [subst; by rewrite Z.add_0_r|]. specialize (Hi d). by rewrite Z.add_0_r. }
  destruct (Coins_Add_total l [c]) as [l' Hl']; [apply Hc|repeat constructor|done|by repeat constructor|done|].
  exists l'. assert (Hamt : ∀ d, amt l' d = amt l d + amt [c] d) by (intros d; by apply Coins_Add_amt).
  split_and!; [done| |done]. destruct (Coins_Add_canonical l [c] l') as [??]; [apply Hc|repeat constructor|done|].
  split_and!; [done|done|]. intros d. by rewrite Hamt.
Qed.
Lemma pool_add_zero l c : amount c = 0 → ∀ d, amt l d = amt l d + amt [c] d.
Proof. intros Hz d. simpl. case_decide; lia. Qed.

Definition loose (s : MintState) : Coins := default [] (totalLoosenToken (ts_auth (mt_tx s))).
Lemma IncreaseTotalLoosenToken_total c s :
  denom c = IrisAtto → 0 ≤ amount c → pool_ok (default [] (totalLoosenToken s)) →
  int_ok (amt (default [] (totalLoosenToken s)) IrisAtto + amount c) →
  ∃ tot, IncreaseTotalLoosenToken [c] s = (Ok tt, set_totalLoosenToken tot s) ∧ pool_ok (default [] tot) ∧
    ∀ d, amt (default [] tot) d = amt (default [] (totalLoosenToken s)) d + amt [c] d.
Proof.
  intros Hd Ha Hp Hsum. unfold IncreaseTotalLoosenToken. rewrite (GetCoin_head c) by done.
  change (Coins_Empty [c]) with false. cbv iota. unfold Coin_IsPositive. autorewrite with sdk_sign.
  destruct (Z.ltb_spec 0 (amount c)) as [Hpos|Hz]; cbn [negb].
  - destruct (pool_add _ c Hp) as (l&Hl&Hp'&Hamt); [lia|by rewrite Hd|].
    exists (Some l). unfold bind, GetTotalLoosenToken, gets, lift, modify. rewrite Hl. done.
  - exists (totalLoosenToken s). split_and!; [by destruct s|done|]. apply pool_add_zero. lia.
Qed.
Lemma AddCollectedFees_total c s :
  0 ≤ amount c → pool_ok (default [] (collectedFees s)) →
  int_ok (amt (default [] (collectedFees s)) (denom c) + amount c) →
  ∃ l, AddCollectedFees [c] s = (Ok l, mkFees (Some l) (feeAuth s) (feeParams s)) ∧ pool_ok l ∧
    ∀ d, amt l d = amt (default [] (collectedFees s)) d + amt [c] d.
Proof.
  intros Ha Hp Hsum. destruct (pool_add _ c Hp Ha Hsum) as (l&Hl&Hp'&Hamt). exists l. split; [|done].
  unfold AddCollectedFees, GetCollectedFees, setCollectedFees, bind, gets, lift, modify. by rewrite Hl.
Qed.

(** A state from which blocks can be minted: valid genesis values, the native
    token as the denomination, and room for [k] more provisions. *)
Definition rate (s : MintState) : Z :=
  match mt_minter s with Some m => provision (Inflation (mt_params s)) (InflationBase m) | None => 0 end.
Record mint_ready (k : Z) (s : MintState) : Prop := {
  mr_params : validateParams (mt_params s) = Ok tt;
  mr_minter : ∃ m, mt_minter s = Some m ∧ MintDenom m = IrisAtto ∧ 0 < InflationBase m ∧ int_ok (InflationBase m);
  mr_loose : pool_ok (loose s);
  mr_fees : pool_ok (fee_pool (mt_tx s));
  mr_loose_room : int_ok (amt (loose s) IrisAtto + k * rate s);
  mr_fees_room : int_ok (amt (fee_pool (mt_tx s)) IrisAtto + k * rate s) }.
Record minted (n : Z) (s s' : MintState) : Prop := {
  md_rate : rate s' = rate s;
  md_params : mt_params s' = mt_params s;
  md_base : InflationBase <$> mt_minter s' = InflationBase <$> mt_minter s;
  md_loose : amt (loose s') IrisAtto = amt (loose s) IrisAtto + n * rate s;
  md_fees : amt (fee_pool (mt_tx s')) IrisAtto = amt (fee_pool (mt_tx s)) IrisAtto + n * rate s;
  md_others d : d ≠ IrisAtto → amt (loose s') d = amt (loose s) d ∧ amt (fee_pool (mt_tx s')) d = amt (fee_pool (mt_tx s)) d;
  md_accounts : accounts (ts_auth (mt_tx s')) = accounts (ts_auth (mt_tx s));
  md_supply : totalSupply (ts_auth (mt_tx s')) = totalSupply (ts_auth (mt_tx s)) }.

Lemma mint_block h t k s :
  1 < h → 0 < k → mint_ready k s →
  ∃ s', BeginBlocker h t s = (Ok tt, s') ∧ minted 1 s s' ∧ mint_ready (k - 1) s' ∧
    LastUpdate <$> mt_minter s' = Some t.
Proof.
  intros Hh Hk [Hp (m&Hm&Hden&Hb&Hbi) Hl Hf Hlr Hfr].
  destruct (block_coin m (mt_params s) Hp Hb Hbi) as (a&Ha&Hcoin&Hpos). set (c := mkCoin _ _) in Hcoin.
  assert (Hr : rate s = amount c) by (unfold rate; by rewrite Hm).
  assert (Hdc : denom c = IrisAtto) by done.
  assert (Hroom : ∀ l, pool_ok l → int_ok (amt l IrisAtto + k * rate s) → int_ok (amt l IrisAtto + amount c)).
  { intros l (_&Hn&_) Hi. pose proof (amt_nonneg l IrisAtto Hn). unfold int_ok in *. rewrite Hr in Hi. change (amount c) with (provision (Inflation (mt_params s)) (InflationBase m)) in *. nia. }
  destruct (IncreaseTotalLoosenToken_total c (ts_auth (mt_tx s))) as (tot&Htot&Hptot&Hatot); [done|done|exact Hl|by apply Hroom|].
  destruct (AddCollectedFees_total c (ts_fee (mt_tx s))) as (l&Hadd&Hpl&Hal); [done|exact Hf|rewrite Hdc; by apply Hroom|].
  eexists. split.
  { unfold BeginBlocker, GetMinter, GetParamSet, bind, gets, lift, on_tx, on_auth, on_fee, zoom, SetMinter, modify, bind.
    rewrite Hm. unfold ret. cbv beta iota. destruct (Z.leb_spec h 1); [lia|].
    rewrite Ha, Hcoin. cbv beta iota. rewrite Htot. cbn [mt_tx ts_fee ts_auth]. rewrite Hadd. reflexivity. }
  set (s' := mkMint _ _ _).
  assert (Hd : ∀ d, amt (loose s') d = amt (loose s) d + amt [c] d) by exact Hatot.
  assert (He : ∀ d, amt (fee_pool (mt_tx s')) d = amt (fee_pool (mt_tx s)) d + amt [c] d) by exact Hal.
  assert (Hc : amt [c] IrisAtto = rate s) by (rewrite Hr; simpl; rewrite Hden, decide_True by done; apply Z.add_0_r).
  assert (Hrate : rate s' = rate s) by (unfold rate; by rewrite Hm).
  split_and!; [split|split|done]; try done.
  - by rewrite Hm.
  - rewrite Hd, Hc. lia.
  - rewrite He, Hc. lia.
  - intros d Hne. rewrite Hd, He. simpl. rewrite Hden, decide_False by done. lia.
  - eexists. split; [reflexivity|done].
  - rewrite Hd, Hc, Hrate. replace (_ + _ + _) with (amt (loose s) IrisAtto + k * rate s) by lia. done.
  - rewrite He, Hc, Hrate. replace (_ + _ + _) with (amt (fee_pool (mt_tx s)) IrisAtto + k * rate s) by lia. done.
Qed.

(** The starts of the blocks with the given heights and times. *)
Definition begin_blocks (bs : list (Z * Z)) : MM unit := for_each bs (λ b, BeginBlocker b.1 b.2).

Lemma minted_trans a b s1 s2 s3 : minted a s1 s2 → minted b s2 s3 → minted (a + b) s1 s3.
Proof.
  intros [R1 P1 B1 L1 F1 O1 A1 S1] [R2 P2 B2 L2 F2 O2 A2 S2]. split; try congruence.
  - rewrite L2, L1, R1. lia.
  - rewrite F2, F1, R1. lia.
  - intros d Hd. destruct (O1 d Hd), (O2 d Hd). split; congruence.
Qed.


(** ** Examples *)
Definition ex_state : MintState :=
  mkMint (mkTxState (BankFacts.ex_bank [] (2 * 10^27) []) (mkFees None (Some IrisAtto) auth_DefaultParams))
    (Some (NewMinter 0 IrisAtto (2 * 10^27))) (mkParams (4 * 10^8)).
End Mint.
