(* ===== verification/Htlc.v ===== *)
(** * Hash time locked contracts (app/v2/htlc)

    A sender locks coins under a hash; whoever shows the preimage before the
    expiry height pays them out to the recipient, and after expiry they are
    refunded.  The store holds the contracts by hash lock and a queue of hash
    locks by expiry height; the coins are held by one account of the bank. *)

From Stdlib Require Import Ascii.
From S2P Require Import Prelude SdkErrors IntType GoStrings Sha256 Denom Coin CoinFacts KVStore Auth BankFrame.
#[local] Open Scope Z_scope.

(** ** Errors (internal/types/errors.go) *)
Definition htlc_Codespace : string := "htlc".
Definition htlc_ErrInvalidAddress : Error := NewError htlc_Codespace 100.
Definition htlc_ErrInvalidAmount : Error := NewError htlc_Codespace 101.
Definition htlc_ErrInvalidHashLock : Error := NewError htlc_Codespace 102.
Definition htlc_ErrHashLockAlreadyExists : Error := NewError htlc_Codespace 103.
Definition htlc_ErrInvalidTimeLock : Error := NewError htlc_Codespace 104.
Definition htlc_ErrInvalidSecret : Error := NewError htlc_Codespace 105.
Definition htlc_ErrStateIsNotOpen : Error := NewError htlc_Codespace 106.
Definition htlc_ErrStateIsNotExpired : Error := NewError htlc_Codespace 107.

(** ** Contracts (internal/types/htlc.go) *)
Inductive HTLCState := OPEN | COMPLETED | EXPIRED | REFUNDED.
#[export] Instance HTLCState_eq_dec : EqDecision HTLCState.
Proof. solve_decision. Defined.

Definition HTLCState_String (st : HTLCState) : string :=
  match st with
  | OPEN => "open" | COMPLETED => "completed" | EXPIRED => "expired" | REFUNDED => "refunded"
  end.

Definition HTLCStateFromString (s : string) : option HTLCState :=
  let s := ToLower s in
  if bool_decide (s = "open") then Some OPEN
  else if bool_decide (s = "completed") then Some COMPLETED
  else if bool_decide (s = "expired") then Some EXPIRED
  else if bool_decide (s = "refunded") then Some REFUNDED
  else None.

Record HTLC := NewHTLC {
  h_Sender : AccAddress;
  h_To : AccAddress;
  h_ReceiverOnOtherChain : string;
  h_Amount : Coins;
  h_Secret : string;
  h_Timestamp : Z;
  h_ExpireHeight : Z;
  h_State : HTLCState }.

(** The zero value of the struct. *)
Definition zero_HTLC : HTLC := NewHTLC "" "" "" [] "" 0 0 OPEN.

Definition HTLC_GetHashLock (h : HTLC) : option string :=
  if bool_decide (h_State h = COMPLETED) then
    if 0 <? h_Timestamp h
    then Some (SHA256 (h_Secret h +:+ Uint64ToBigEndian (h_Timestamp h)))
    else Some (SHA256 (h_Secret h))
  else None.

Definition with_state (h : HTLC) (st : HTLCState) : HTLC :=
  NewHTLC (h_Sender h) (h_To h) (h_ReceiverOnOtherChain h) (h_Amount h) (h_Secret h)
    (h_Timestamp h) (h_ExpireHeight h) st.
Definition with_secret (h : HTLC) (secret : string) : HTLC :=
  NewHTLC (h_Sender h) (h_To h) (h_ReceiverOnOtherChain h) (h_Amount h) secret
    (h_Timestamp h) (h_ExpireHeight h) (h_State h).
Definition with_amount (h : HTLC) (c : Coins) : HTLC :=
  NewHTLC (h_Sender h) (h_To h) (h_ReceiverOnOtherChain h) c (h_Secret h)
    (h_Timestamp h) (h_ExpireHeight h) (h_State h).
Definition with_expire (h : HTLC) (height : Z) : HTLC :=
  NewHTLC (h_Sender h) (h_To h) (h_ReceiverOnOtherChain h) (h_Amount h) (h_Secret h)
    (h_Timestamp h) height (h_State h).

(** ** Messages (internal/types/msgs.go) *)
Definition SecretLength : nat := 32.
Definition HashLockLength : nat := 32.
Definition MaxLengthForAddressOnOtherChain : nat := 128.
Definition MinTimeLock : Z := 50.
Definition MaxTimeLock : Z := 25480.

Record MsgCreateHTLC := mkMsgCreateHTLC {
  c_Sender : AccAddress; c_To : AccAddress; c_ReceiverOnOtherChain : string; c_Amount : Coins;
  c_HashLock : string; c_Timestamp : Z; c_TimeLock : Z }.
Record MsgClaimHTLC := mkMsgClaimHTLC {
  cl_Sender : AccAddress; cl_HashLock : string; cl_Secret : string }.
Record MsgRefundHTLC := mkMsgRefundHTLC { r_Sender : AccAddress; r_HashLock : string }.

Definition MsgCreateHTLC_ValidateBasic (msg : MsgCreateHTLC) : Outcome unit :=
  if bool_decide (str_len (c_Sender msg) = 0%nat) then Err htlc_ErrInvalidAddress else
  if bool_decide (str_len (c_To msg) = 0%nat) then Err htlc_ErrInvalidAddress else
  if bool_decide (MaxLengthForAddressOnOtherChain < str_len (c_ReceiverOnOtherChain msg))%nat
  then Err htlc_ErrInvalidAddress else
  if negb (Coins_IsValid (c_Amount msg)) || negb (IsAllPositive (c_Amount msg))
  then Err htlc_ErrInvalidAmount else
  if bool_decide (str_len (c_HashLock msg) ≠ HashLockLength) then Err htlc_ErrInvalidHashLock else
  if (c_TimeLock msg <? MinTimeLock) || (MaxTimeLock <? c_TimeLock msg)
  then Err htlc_ErrInvalidTimeLock else Ok tt.

Definition MsgClaimHTLC_ValidateBasic (msg : MsgClaimHTLC) : Outcome unit :=
  if bool_decide (str_len (cl_Sender msg) = 0%nat) then Err htlc_ErrInvalidAddress else
  if bool_decide (str_len (cl_HashLock msg) ≠ HashLockLength) then Err htlc_ErrInvalidHashLock else
  if bool_decide (str_len (cl_Secret msg) ≠ SecretLength) then Err htlc_ErrInvalidSecret else Ok tt.

Definition MsgRefundHTLC_ValidateBasic (msg : MsgRefundHTLC) : Outcome unit :=
  if bool_decide (str_len (r_Sender msg) = 0%nat) then Err htlc_ErrInvalidAddress else
  if bool_decide (str_len (r_HashLock msg) ≠ HashLockLength) then Err htlc_ErrInvalidHashLock else Ok tt.

Inductive HtlcMsg :=
| HCreate (msg : MsgCreateHTLC)
| HClaim (msg : MsgClaimHTLC)
| HRefund (msg : MsgRefundHTLC)
| HOther.

Definition HtlcMsg_GetSigners (msg : HtlcMsg) : list AccAddress :=
  match msg with
  | HCreate msg => [c_Sender msg]
  | HClaim msg => [cl_Sender msg]
  | HRefund msg => [r_Sender msg]
  | HOther => []
  end.
Definition HtlcMsg_ValidateBasic (msg : HtlcMsg) : Outcome unit :=
  match msg with
  | HCreate msg => MsgCreateHTLC_ValidateBasic msg
  | HClaim msg => MsgClaimHTLC_ValidateBasic msg
  | HRefund msg => MsgRefundHTLC_ValidateBasic msg
  | HOther => Ok tt
  end.

(** ** Store keys (internal/keeper/keeper_keys.go) *)
Definition PrefixHTLC : string := "htlcs:".
Definition PrefixHTLCExpireQueue : string := "htlcExpireQueue:".
Definition KeyHTLC (hashLock : string) : string := PrefixHTLC +:+ hashLock.
Definition KeyHTLCExpireQueueSubspace (expireHeight : Z) : string :=
  PrefixHTLCExpireQueue +:+ Uint64ToBigEndian expireHeight +:+ ":".
Definition KeyHTLCExpireQueue (expireHeight : Z) (hashLock : string) : string :=
  KeyHTLCExpireQueueSubspace expireHeight +:+ hashLock.

(** ** The keeper (internal/keeper/keeper.go) *)
Record HtlcStore (S : Type) := mkHtlcStore {
  hbank : S;
  htlcs : gmap string HTLC;
  expireQueue : gmap string string }.
Arguments mkHtlcStore {S}.
Arguments hbank {S}.
Arguments htlcs {S}.
Arguments expireQueue {S}.

Definition GetHashLock (secret : string) (timestamp : Z) : string :=
  if 0 <? timestamp then SHA256 (secret +:+ Uint64ToBigEndian timestamp) else SHA256 secret.

Section keeper.
Context {S : Type} `{BankKeeper S} `{Crypto}.
Abbreviation St := (HtlcStore S).

Definition on_bank {A} (c : M S A) : M St A :=
  zoom hbank (λ b s, mkHtlcStore b (htlcs s) (expireQueue s)) c.

Definition HasHashLock (hashLock : string) : M St bool :=
  gets (λ s, bool_decide (is_Some (htlcs s !! KeyHTLC hashLock))).

Definition SetHTLC (htlc : HTLC) (hashLock : string) : M St unit :=
  modify (λ s, mkHtlcStore (hbank s) (<[KeyHTLC hashLock := htlc]> (htlcs s)) (expireQueue s)).

Definition GetHTLC (hashLock : string) : M St HTLC :=
  r <- gets (λ s, htlcs s !! KeyHTLC hashLock) ;;
  match r with None => throw htlc_ErrInvalidHashLock | Some htlc => ret htlc end.

Definition AddHTLCToExpireQueue (expireHeight : Z) (hashLock : string) : M St unit :=
  modify (λ s, mkHtlcStore (hbank s) (htlcs s)
                 (<[KeyHTLCExpireQueue expireHeight hashLock := hashLock]> (expireQueue s))).

Definition DeleteHTLCFromExpireQueue (expireHeight : Z) (hashLock : string) : M St unit :=
  modify (λ s, mkHtlcStore (hbank s) (htlcs s)
                 (delete (KeyHTLCExpireQueue expireHeight hashLock) (expireQueue s))).

(** A transfer of a contract's coins; the slice of the contract is the one the
    bank leaves behind. *)
Definition send_amount (from to : AccAddress) (htlc : HTLC) : M St HTLC :=
  left <- gets (λ s, bk_SendCoins_amt from to (h_Amount htlc) (hbank s)) ;;
  on_bank (bk_SendCoins from to (h_Amount htlc)) ;;;
  ret (with_amount htlc left).

Definition CreateHTLC (htlc : HTLC) (hashLock : string) : M St unit :=
  has <- HasHashLock hashLock ;;
  if has : bool then throw htlc_ErrHashLockAlreadyExists else
  htlc <- send_amount (h_Sender htlc) HTLCLockedCoinsAccAddr htlc ;;
  SetHTLC htlc hashLock ;;;
  AddHTLCToExpireQueue (h_ExpireHeight htlc) hashLock.

Definition ClaimHTLC (hashLock secret : string) : M St unit :=
  htlc <- GetHTLC hashLock ;;
  require (bool_decide (h_State htlc = OPEN)) htlc_ErrStateIsNotOpen ;;;
  require (bool_decide (GetHashLock secret (h_Timestamp htlc) = hashLock)) htlc_ErrInvalidSecret ;;;
  htlc <- send_amount HTLCLockedCoinsAccAddr (h_To htlc) htlc ;;
  SetHTLC (with_state (with_secret htlc secret) COMPLETED) hashLock ;;;
  DeleteHTLCFromExpireQueue (h_ExpireHeight htlc) hashLock.

Definition RefundHTLC (hashLock : string) : M St unit :=
  htlc <- GetHTLC hashLock ;;
  require (bool_decide (h_State htlc = EXPIRED)) htlc_ErrStateIsNotOpen ;;;
  htlc <- send_amount HTLCLockedCoinsAccAddr (h_Sender htlc) htlc ;;
  SetHTLC (with_state htlc REFUNDED) hashLock.

(** The hash lock and the contract an iteration hands out: the hash lock is the
    second part of the key split at the delimiter. *)
Definition key_hash_lock (key : string) : string := nth 1 (Split key ":"%char) "".
Definition IterateHTLCs (s : St) : list (string * HTLC) :=
  map (λ kv, (key_hash_lock kv.1, kv.2)) (prefix_iterator (htlcs s) PrefixHTLC).

Definition IterateHTLCExpireQueueByHeight (height : Z) (s : St) : list (string * string) :=
  prefix_iterator (expireQueue s) (KeyHTLCExpireQueueSubspace height).

(** ** Handlers (handler.go, abci.go); [height] is the block height *)
Definition handleMsgCreateHTLC (height : Z) (msg : MsgCreateHTLC) : M St unit :=
  let expireHeight := wrap64 (c_TimeLock msg + wrap64 height) in
  let htlc := NewHTLC (c_Sender msg) (c_To msg) (c_ReceiverOnOtherChain msg) (c_Amount msg)
                "" (c_Timestamp msg) expireHeight OPEN in
  CreateHTLC htlc (c_HashLock msg).
Definition handleMsgClaimHTLC (msg : MsgClaimHTLC) : M St unit :=
  ClaimHTLC (cl_HashLock msg) (cl_Secret msg).
Definition handleMsgRefundHTLC (msg : MsgRefundHTLC) : M St unit := RefundHTLC (r_HashLock msg).

Definition htlc_Handler (height : Z) (msg : HtlcMsg) : M St unit :=
  match msg with
  | HCreate msg => handleMsgCreateHTLC height msg
  | HClaim msg => handleMsgClaimHTLC msg
  | HRefund msg => handleMsgRefundHTLC msg
  | HOther => throw ErrTxDecode
  end.

(** One iteration of the block-begin loop; a missing contract is read as the
    zero value. *)
Definition expire_one (currentBlockHeight : Z) (hashLock : string) : M St unit :=
  r <- gets (λ s, htlcs s !! KeyHTLC hashLock) ;;
  let htlc := default zero_HTLC r in
  SetHTLC (with_state htlc EXPIRED) hashLock ;;;
  DeleteHTLCFromExpireQueue currentBlockHeight hashLock.

Definition htlc_BeginBlocker (height : Z) : M St unit :=
  let currentBlockHeight := wrap64 height in
  l <- gets (IterateHTLCExpireQueueByHeight currentBlockHeight) ;;
  for_each l (λ kv, expire_one currentBlockHeight kv.2).

(** ** Genesis (genesis.go); a Go map is ranged over in some order *)
Definition htlc_InitGenesis (pendingHTLCs : list (string * HTLC)) : M St unit :=
  for_each pendingHTLCs (λ p,
    match DecodeString p.1 with
    | None => panic "failed to initialize HTLC genesis state"
    | Some hashLock => SetHTLC p.2 hashLock ;;; AddHTLCToExpireQueue (h_ExpireHeight p.2) hashLock
    end).

Fixpoint export_loop (height : Z) (l : list (string * HTLC)) (pending : gmap string HTLC)
    : M St (gmap string HTLC) :=
  match l with
  | [] => ret pending
  | (hlock, h) :: l =>
      if bool_decide (h_State h = OPEN) then
        let h := with_expire h (wrap64 (h_ExpireHeight h - wrap64 height + 1)) in
        export_loop height l (<[EncodeToString hlock := h]> pending)
      else if bool_decide (h_State h = EXPIRED) then
        (λ s, match RefundHTLC hlock s with
              | (Ok _, s') => export_loop height l pending s'
              | (Err _, s') => (Panic "failed to export HTLC genesis state", s')
              | (Panic w, s') => (Panic w, s')
              end)
      else export_loop height l pending
  end.

Definition htlc_ExportGenesis (height : Z) : M St (gmap string HTLC) :=
  l <- gets IterateHTLCs ;; export_loop height l ∅.

(** ** Query (internal/keeper/querier.go) *)
Definition queryHTLC (hashLock : string) : M St HTLC :=
  if bool_decide (str_len hashLock ≠ HashLockLength) then throw htlc_ErrInvalidHashLock
  else GetHTLC hashLock.
End keeper.
