(* ===== verification/HtlcFacts.v ===== *)
(** * The contract store as a state machine

    Transactions, block beginnings and the activity of the other modules are
    steps; the invariant says that the locked coins cover every pending
    contract and that the queue lists exactly the open contracts. *)

From S2P Require Import Prelude SdkErrors IntType GoStrings Sha256 Denom Coin CoinFacts KVStore Auth BankFrame Htlc.
#[local] Open Scope Z_scope.

(** ** Keys *)
Lemma KeyHTLC_inj a b : KeyHTLC a = KeyHTLC b → a = b.
Proof.
  intros E%(f_equal chars). unfold KeyHTLC in E. rewrite !chars_app in E.
  apply app_inv_head in E. by apply chars_inj.
Qed.

Lemma subspace_chars h :
  chars (KeyHTLCExpireQueueSubspace h) =
  chars PrefixHTLCExpireQueue ++ chars (Uint64ToBigEndian h) ++ chars ":".
Proof. unfold KeyHTLCExpireQueueSubspace. by rewrite !chars_app. Qed.

Lemma subspace_prefix h e hl :
  0 ≤ h < 2^64 → 0 ≤ e < 2^64 →
  HasPrefix (KeyHTLCExpireQueue e hl) (KeyHTLCExpireQueueSubspace h) = true ↔ e = h.
Proof.
  intros Hh He. split.
  - intros [t Ht]%HasPrefix_iff. apply (f_equal chars) in Ht. unfold KeyHTLCExpireQueue in Ht.
    rewrite !chars_app, !subspace_chars, <-!app_assoc in Ht. apply app_inv_head in Ht.
    apply app_inj_1 in Ht as [Ht _].
    + apply chars_inj in Ht. by apply Uint64ToBigEndian_inj.
    + by rewrite (Uint64ToBigEndian_length e : length _ = _), (Uint64ToBigEndian_length h : length _ = _).
  - intros ->. apply HasPrefix_app.
Qed.

Lemma KeyHTLCExpireQueue_inj e hl e' hl' :
  0 ≤ e < 2^64 → 0 ≤ e' < 2^64 → KeyHTLCExpireQueue e hl = KeyHTLCExpireQueue e' hl' →
  e = e' ∧ hl = hl'.
Proof.
  intros He He' E. assert (e = e') as ->.
  { apply (subspace_prefix e' e hl); [done..|]. rewrite E. apply HasPrefix_app. }
  split; [done|]. apply (f_equal chars) in E. unfold KeyHTLCExpireQueue in E.
  rewrite !chars_app in E. apply app_inv_head in E. by apply chars_inj.
Qed.

(** ** Pending contracts *)
Definition is_pending (st : HTLCState) : bool :=
  match st with OPEN | EXPIRED => true | COMPLETED | REFUNDED => false end.
Definition pending (d : string) (x : HTLC) : Z :=
  if is_pending (h_State x) then amt (h_Amount x) d else 0.

Lemma with_amount_id x : with_amount x (h_Amount x) = x.
Proof. by destruct x. Qed.

Section facts.
Context {S : Type} `{BankLaws S} `{Crypto}.
Abbreviation St := (HtlcStore S).
Abbreviation locked := HTLCLockedCoinsAccAddr.

Definition locked_sum (s : St) (d : string) : Z := map_sum (pending d) (htlcs s).

(** A contract as the module stores it. *)
Record entry_ok (x : HTLC) : Prop := {
  e_valid : Coins_IsValid (h_Amount x) = true;
  e_nonzero : nonzero (h_Amount x);
  e_sender : h_Sender x ≠ locked;
  e_height : 0 ≤ h_ExpireHeight x < 2^64 }.

Record store_inv (s : St) : Prop := {
  i_bank : bk_wf (hbank s);
  i_key : ∀ k x, htlcs s !! k = Some x → ∃ hl, k = KeyHTLC hl;
  i_entry : ∀ hl x, htlcs s !! KeyHTLC hl = Some x → entry_ok x;
  i_queued : ∀ hl x, htlcs s !! KeyHTLC hl = Some x → h_State x = OPEN →
    expireQueue s !! KeyHTLCExpireQueue (h_ExpireHeight x) hl = Some hl;
  i_queue : ∀ k hl, expireQueue s !! k = Some hl → ∃ x,
    k = KeyHTLCExpireQueue (h_ExpireHeight x) hl ∧ htlcs s !! KeyHTLC hl = Some x ∧ h_State x = OPEN;
  i_solvent : ∀ d, locked_sum s d ≤ bal (hbank s) locked d }.

(** ** Paying out of and into the locked account *)
Lemma send_amount_ok f t x s x' s' :
  bk_wf (hbank s) → nonzero (h_Amount x) → send_amount f t x s = (Ok x', s') →
  x' = x ∧ htlcs s' = htlcs s ∧ expireQueue s' = expireQueue s ∧ bk_wf (hbank s') ∧
  Coins_IsValid (h_Amount x) = true ∧
  ∀ a d, bal (hbank s') a d = bal (hbank s) a d - (if decide (a = f) then amt (h_Amount x) d else 0)
                                               + (if decide (a = t) then amt (h_Amount x) d else 0).
Proof.
  intros Hw Hn Hs. unfold send_amount in Hs. inv_ok Hs.
  apply zoom_ok in E as (b&Hb&->). rewrite law_send_amt by done. destruct a.
  destruct (law_send _ _ _ _ _ Hw Hb) as (?&?&?&?). rewrite with_amount_id. by split_and!.
Qed.

(** Updating one contract changes the pending sum by that contract. *)
Lemma locked_sum_insert (s s' : St) hl x d :
  htlcs s' = <[KeyHTLC hl := x]> (htlcs s) →
  locked_sum s' d = locked_sum s d - at_key (pending d) (htlcs s) (KeyHTLC hl) + pending d x.
Proof. intros E. unfold locked_sum. by rewrite E, map_sum_insert. Qed.

Lemma lookup_htlc_insert (s s' : St) hl x hl' y :
  htlcs s' = <[KeyHTLC hl := x]> (htlcs s) → htlcs s' !! KeyHTLC hl' = Some y →
  (hl' = hl ∧ y = x) ∨ (hl' ≠ hl ∧ htlcs s !! KeyHTLC hl' = Some y).
Proof.
  intros ->. rewrite lookup_insert_Some. intros [[E%KeyHTLC_inj <-]|[Hne ?]]; [by left|].
  right. split; [|done]. by intros ->.
Qed.

(** The invariant after replacing the contract at [hl], from what changed. *)
Lemma store_inv_update (s s' : St) hl x :
  store_inv s → bk_wf (hbank s') → entry_ok x →
  htlcs s' = <[KeyHTLC hl := x]> (htlcs s) →
  (∀ y, htlcs s !! KeyHTLC hl = Some y → h_ExpireHeight y = h_ExpireHeight x) →
  expireQueue s' = (if decide (h_State x = OPEN)
                    then <[KeyHTLCExpireQueue (h_ExpireHeight x) hl := hl]> (expireQueue s)
                    else delete (KeyHTLCExpireQueue (h_ExpireHeight x) hl) (expireQueue s)) →
  (∀ d, locked_sum s' d ≤ bal (hbank s') locked d) → store_inv s'.
Proof.
  intros Hi Hw Hx Hh Hexp Hq Hsol. split; [done|..|done].
  - intros k y. rewrite Hh, lookup_insert_Some. intros [[<- <-]|[_ Hk]]; [by eexists|].
    by eapply i_key.
  - intros hl' y Hy. destruct (lookup_htlc_insert _ _ _ _ _ _ Hh Hy) as [[-> ->]|[Hne Hy']]; [done|].
    by eapply i_entry.
  - intros hl' y Hy Ho. destruct (lookup_htlc_insert _ _ _ _ _ _ Hh Hy) as [[-> ->]|[Hne Hy']].
    + rewrite Hq, decide_True by done. apply lookup_insert_eq.
    + pose proof (i_queued _ Hi _ _ Hy' Ho) as Hold. rewrite Hq.
      assert (KeyHTLCExpireQueue (h_ExpireHeight x) hl ≠ KeyHTLCExpireQueue (h_ExpireHeight y) hl').
      { intros [_ E]%KeyHTLCExpireQueue_inj; [done|apply Hx|].
        by apply (e_height _ (i_entry _ Hi _ _ Hy')). }
      case_decide; [by rewrite lookup_insert_ne|by rewrite lookup_delete_ne].
  - intros k hl' Hk. rewrite Hq in Hk.
    assert (Hold : expireQueue s !! k = Some hl' → hl' ≠ hl → ∃ y,
      k = KeyHTLCExpireQueue (h_ExpireHeight y) hl' ∧ htlcs s' !! KeyHTLC hl' = Some y ∧ h_State y = OPEN).
    { intros (y&?&?&?)%(i_queue _ Hi) Hne. exists y. split_and!; try done.
      rewrite Hh, lookup_insert_ne; [done|]. by intros E%KeyHTLC_inj. }
    case_decide as Ho.
    + apply lookup_insert_Some in Hk as [[<- <-]|[Hne Hk]].
      * exists x. split_and!; try done. rewrite Hh. apply lookup_insert_eq.
      * apply Hold; [done|]. intros ->. pose proof (i_queue _ Hi _ _ Hk) as (y&->&Hy&_).
        by rewrite (Hexp _ Hy) in Hne.
    + apply lookup_delete_Some in Hk as [Hne Hk]. apply Hold; [done|]. intros ->.
      pose proof (i_queue _ Hi _ _ Hk) as (y&->&Hy&_). by rewrite (Hexp _ Hy) in Hne.
Qed.

(** ** What each operation does *)
Lemma CreateHTLC_ok x hl s u s' :
  bk_wf (hbank s) → nonzero (h_Amount x) → CreateHTLC x hl s = (Ok u, s') →
  htlcs s !! KeyHTLC hl = None ∧ htlcs s' = <[KeyHTLC hl := x]> (htlcs s) ∧
  expireQueue s' = <[KeyHTLCExpireQueue (h_ExpireHeight x) hl := hl]> (expireQueue s) ∧
  bk_wf (hbank s') ∧ Coins_IsValid (h_Amount x) = true ∧
  ∀ a d, bal (hbank s') a d =
    bal (hbank s) a d - (if decide (a = h_Sender x) then amt (h_Amount x) d else 0)
                      + (if decide (a = locked) then amt (h_Amount x) d else 0).
Proof.
  intros Hw Hn Hc. unfold CreateHTLC, HasHashLock in Hc. inv_ok Hc.
  case_bool_decide as Hnone; [done|]. inv_ok Hc.
  destruct (send_amount_ok _ _ _ _ _ _ Hw Hn E) as (->&Hh&Hq&?&?&?).
  unfold SetHTLC, AddHTLCToExpireQueue, modify in *. simplify_eq/=. rewrite Hh, Hq.
  split_and!; try done. by apply eq_None_not_Some.
Qed.

Lemma GetHTLC_ok hl (s : St) x (s' : St) : GetHTLC hl s = (Ok x, s') → s' = s ∧ htlcs s !! KeyHTLC hl = Some x.
Proof.
  unfold GetHTLC, bind, gets. destruct (htlcs s !! KeyHTLC hl) eqn:E; [|done].
  unfold ret. by intros [= <- <-].
Qed.

Lemma ClaimHTLC_ok hl secret s u s' :
  store_inv s → ClaimHTLC hl secret s = (Ok u, s') → ∃ x,
  htlcs s !! KeyHTLC hl = Some x ∧ h_State x = OPEN ∧ GetHashLock secret (h_Timestamp x) = hl ∧
  htlcs s' = <[KeyHTLC hl := with_state (with_secret x secret) COMPLETED]> (htlcs s) ∧
  expireQueue s' = delete (KeyHTLCExpireQueue (h_ExpireHeight x) hl) (expireQueue s) ∧
  bk_wf (hbank s') ∧
  ∀ a d, bal (hbank s') a d =
    bal (hbank s) a d - (if decide (a = locked) then amt (h_Amount x) d else 0)
                      + (if decide (a = h_To x) then amt (h_Amount x) d else 0).
Proof.
  intros Hi Hc. unfold ClaimHTLC in Hc. inv_ok Hc. apply GetHTLC_ok in E as [-> Hx]. zbool.
  pose proof (i_entry _ Hi _ _ Hx) as He.
  destruct (send_amount_ok _ _ _ _ _ _ (i_bank _ Hi) (e_nonzero _ He) E2) as (->&Hh&Hq&?&?&?).
  unfold SetHTLC, DeleteHTLCFromExpireQueue, modify in *. simplify_eq/=. rewrite Hh, Hq.
  eexists. split_and!; done.
Qed.

Lemma RefundHTLC_ok hl s u s' :
  store_inv s → RefundHTLC hl s = (Ok u, s') → ∃ x,
  htlcs s !! KeyHTLC hl = Some x ∧ h_State x = EXPIRED ∧
  htlcs s' = <[KeyHTLC hl := with_state x REFUNDED]> (htlcs s) ∧
  expireQueue s' = expireQueue s ∧ bk_wf (hbank s') ∧
  ∀ a d, bal (hbank s') a d =
    bal (hbank s) a d - (if decide (a = locked) then amt (h_Amount x) d else 0)
                      + (if decide (a = h_Sender x) then amt (h_Amount x) d else 0).
Proof.
  intros Hi Hc. unfold RefundHTLC in Hc. inv_ok Hc. apply GetHTLC_ok in E as [-> Hx]. zbool.
  pose proof (i_entry _ Hi _ _ Hx) as He.
  destruct (send_amount_ok _ _ _ _ _ _ (i_bank _ Hi) (e_nonzero _ He) E1) as (->&Hh&Hq&?&?&?).
  unfold SetHTLC, modify in *. simplify_eq/=. rewrite Hh.
  eexists. split_and!; done.
Qed.

(** A contract that is not open is not in the queue. *)
Lemma not_open_not_queued s hl x :
  store_inv s → htlcs s !! KeyHTLC hl = Some x → h_State x ≠ OPEN →
  expireQueue s !! KeyHTLCExpireQueue (h_ExpireHeight x) hl = None.
Proof.
  intros Hi Hx Hno. destruct (expireQueue s !! _) as [hl'|] eqn:Hq; [|done].
  destruct (i_queue _ Hi _ _ Hq) as (y&Hk&Hy&Ho).
  apply KeyHTLCExpireQueue_inj in Hk as [_ <-].
  - by simplify_eq.
  - apply (e_height _ (i_entry _ Hi _ _ Hx)).
  - apply (e_height _ (i_entry _ Hi _ _ Hy)).
Qed.

(** ** Preservation *)
Lemma create_inv x hl s u s' :
  store_inv s → nonzero (h_Amount x) → h_Sender x ≠ locked → 0 ≤ h_ExpireHeight x < 2^64 →
  h_State x = OPEN → CreateHTLC x hl s = (Ok u, s') → store_inv s'.
Proof.
  intros Hi Hn Hs He Ho Hc.
  destruct (CreateHTLC_ok _ _ _ _ _ (i_bank _ Hi) Hn Hc) as (Hnone&Hh&Hq&Hw&Hv&Hb).
  eapply (store_inv_update s s' hl x); try done.
  - rewrite Hnone. done.
  - by rewrite decide_True.
  - intros d. rewrite (locked_sum_insert s s' hl x d Hh), Hb. unfold at_key. rewrite Hnone.
    unfold pending. rewrite Ho. simpl. rewrite decide_False, decide_True by done.
    pose proof (i_solvent _ Hi d). lia.
Qed.

Lemma at_key_pending (s : St) hl x d :
  htlcs s !! KeyHTLC hl = Some x → at_key (pending d) (htlcs s) (KeyHTLC hl) = pending d x.
Proof. intros E. unfold at_key. by rewrite E. Qed.

Lemma entry_ok_nonneg x d : entry_ok x → 0 ≤ amt (h_Amount x) d.
Proof. intros [Hv _ _ _]. apply Coins_IsValid_iff in Hv as (_&Hn&_). by apply amt_nonneg. Qed.

Lemma claim_inv hl secret s u s' :
  store_inv s → ClaimHTLC hl secret s = (Ok u, s') → store_inv s'.
Proof.
  intros Hi Hc. destruct (ClaimHTLC_ok _ _ _ _ _ Hi Hc) as (x&Hx&Ho&_&Hh&Hq&Hw&Hb).
  pose proof (i_entry _ Hi _ _ Hx) as [Hv Hn Hs He].
  eapply (store_inv_update s s' hl); [done|done| |exact Hh|..].
  - by split.
  - intros y Hy. by simplify_eq.
  - by rewrite Hq.
  - intros d. rewrite (locked_sum_insert s s' hl _ d Hh), Hb, (at_key_pending _ _ _ _ Hx).
    unfold pending. simpl. rewrite Ho, decide_True by done. simpl.
    pose proof (i_solvent _ Hi d). pose proof (entry_ok_nonneg x d (i_entry _ Hi _ _ Hx)).
    case_decide; lia.
Qed.

Lemma refund_inv hl s u s' :
  store_inv s → RefundHTLC hl s = (Ok u, s') → store_inv s'.
Proof.
  intros Hi Hc. destruct (RefundHTLC_ok _ _ _ _ Hi Hc) as (x&Hx&Ho&Hh&Hq&Hw&Hb).
  pose proof (i_entry _ Hi _ _ Hx) as [Hv Hn Hs He].
  eapply (store_inv_update s s' hl); [done|done| |exact Hh|..].
  - by split.
  - intros y Hy. by simplify_eq.
  - rewrite Hq. simpl. symmetry. apply delete_id.
    eapply not_open_not_queued; [done|done|]. by rewrite Ho.
  - intros d. rewrite (locked_sum_insert s s' hl _ d Hh), Hb, (at_key_pending _ _ _ _ Hx).
    unfold pending. simpl. rewrite Ho, decide_True by done. simpl.
    pose proof (i_solvent _ Hi d). pose proof (entry_ok_nonneg x d (i_entry _ Hi _ _ Hx)).
    case_decide; lia.
Qed.

(** Block beginning: one contract. *)
Lemma expire_one_ok h hl (s : St) x :
  htlcs s !! KeyHTLC hl = Some x → expire_one h hl s =
  (Ok tt, mkHtlcStore (hbank s) (<[KeyHTLC hl := with_state x EXPIRED]> (htlcs s))
            (delete (KeyHTLCExpireQueue h hl) (expireQueue s))).
Proof. intros Hx. unfold expire_one, bind, gets. by rewrite Hx. Qed.

Lemma expire_one_inv hl s x s' :
  store_inv s → htlcs s !! KeyHTLC hl = Some x → h_State x = OPEN →
  expire_one (h_ExpireHeight x) hl s = (Ok tt, s') → store_inv s'.
Proof.
  intros Hi Hx Ho. rewrite (expire_one_ok _ _ _ _ Hx). intros [= <-].
  pose proof (i_entry _ Hi _ _ Hx) as [Hv Hn Hs He].
  eapply (store_inv_update s _ hl (with_state x EXPIRED)); try done.
  - apply Hi.
  - intros y Hy. by simplify_eq.
  - intros d. erewrite (locked_sum_insert s _ hl (with_state x EXPIRED) d) by done.
    rewrite (at_key_pending _ _ _ _ Hx). unfold pending. rewrite Ho. simpl.
    pose proof (i_solvent _ Hi d). lia.
Qed.

(** The whole loop: the listed contracts expire, the others stay. *)
Lemma expire_loop (l : list (string * string)) (s : St) h :
  store_inv s → NoDup l.*2 →
  (∀ k hl, (k, hl) ∈ l → ∃ x, htlcs s !! KeyHTLC hl = Some x ∧ h_State x = OPEN ∧ h_ExpireHeight x = h) →
  ∃ s', for_each l (λ kv, expire_one h kv.2) s = (Ok tt, s') ∧ store_inv s' ∧ hbank s' = hbank s ∧
  ∀ hl, htlcs s' !! KeyHTLC hl =
    (λ x, if decide (hl ∈ l.*2) then with_state x EXPIRED else x) <$> htlcs s !! KeyHTLC hl.
Proof.
  revert s. induction l as [|[k hl] l IH]; intros s Hi Hnd Hl.
  - exists s. split_and!; try done. intros hl. by destruct (htlcs s !! KeyHTLC hl).
  - destruct (Hl k hl) as (x&Hx&Ho&Hexp); [left|]. csimpl in *.
    apply NoDup_cons in Hnd as [Hnin Hnd].
    pose proof (expire_one_ok h hl s x Hx) as Hone.
    destruct (IH _ (expire_one_inv hl s x _ Hi Hx Ho (eq_trans (f_equal (λ n, expire_one n hl s) Hexp) Hone)) Hnd)
      as (s'&Hrun&Hi'&Hb&Hlk).
    + intros k' hl' Hin. destruct (Hl k' hl') as (y&Hy&?&?); [by right|]. exists y. split; [|done].
      simpl. rewrite lookup_insert_ne; [done|]. intros E%KeyHTLC_inj. subst hl'.
      apply Hnin, list_elem_of_fmap. by exists (k', hl).
    + exists s'. split; [|split_and!; [done|done|]].
      * cbn [for_each]. rewrite (bind_run _ _ _ _ _ Hone). apply Hrun.
      * intros hl'. rewrite Hlk. simpl. destruct (decide (hl' = hl)) as [->|Hne].
        -- rewrite lookup_insert_eq, Hx. simpl. rewrite (decide_True (P := hl ∈ hl :: l.*2)) by left.
           by case_decide.
        -- rewrite lookup_insert_ne by (by intros E%KeyHTLC_inj).
           destruct (htlcs s !! KeyHTLC hl'); simpl; [|done]. f_equal.
           repeat case_decide; set_solver.
Qed.
End facts.
