(* ===== verification/HtlcThms.v ===== *)
(** * Theorems about hash time locked contracts

    The system of transactions and blocks, its invariant on reachable states,
    the life cycle of a contract, and the conditions under which a claim or a
    refund goes through. *)

From Stdlib Require Import Ascii.
From S2P Require Import Prelude SdkErrors IntType GoStrings Sha256 Denom Coin CoinFacts Gas KVStore Auth Bank BankFacts BankFrame Htlc HtlcFacts.
#[local] Open Scope Z_scope.

Section system.
Context {S : Type} `{BankLaws S} `{Crypto}.
Abbreviation St := (HtlcStore S).
Abbreviation locked := HTLCLockedCoinsAccAddr.

(** What the beginning of a block does to a contract. *)
Definition expire_at (h : Z) (x : HTLC) : HTLC :=
  if decide (h_State x = OPEN ∧ h_ExpireHeight x = h) then with_state x EXPIRED else x.

Lemma queue_at_height (s : St) h k hl :
  store_inv s → 0 ≤ h < 2^64 →
  (k, hl) ∈ IterateHTLCExpireQueueByHeight h s ↔
  k = KeyHTLCExpireQueue h hl ∧
  ∃ x, htlcs s !! KeyHTLC hl = Some x ∧ h_State x = OPEN ∧ h_ExpireHeight x = h.
Proof.
  intros Hi Hh. unfold IterateHTLCExpireQueueByHeight. rewrite prefix_iterator_elem. split.
  - intros [Hq Hp]. destruct (i_queue _ Hi _ _ Hq) as (x&->&Hx&Ho).
    apply subspace_prefix in Hp; [|done|apply (e_height _ (i_entry _ Hi _ _ Hx))].
    rewrite Hp. split; [done|]. by exists x.
  - intros (->&x&Hx&Ho&<-). split; [by apply i_queued|]. by apply subspace_prefix.
Qed.

Lemma queue_NoDup (s : St) h :
  store_inv s → 0 ≤ h < 2^64 → NoDup (IterateHTLCExpireQueueByHeight h s).*2.
Proof.
  intros Hi Hh. apply (NoDup_fmap_1 (KeyHTLCExpireQueue h)).
  replace (KeyHTLCExpireQueue h <$> (IterateHTLCExpireQueueByHeight h s).*2)
    with (IterateHTLCExpireQueueByHeight h s).*1; [apply prefix_iterator_NoDup|].
  rewrite <-list_fmap_compose. apply list_fmap_ext. intros i [k hl] Hin.
  apply list_elem_of_lookup_2 in Hin. by apply queue_at_height in Hin as [-> _].
Qed.

Lemma BeginBlocker_ok (s : St) h :
  store_inv s → 0 ≤ h < 2^64 →
  ∃ s', htlc_BeginBlocker h s = (Ok tt, s') ∧ store_inv s' ∧ hbank s' = hbank s ∧
        ∀ hl, htlcs s' !! KeyHTLC hl = expire_at h <$> htlcs s !! KeyHTLC hl.
Proof.
  intros Hi Hh. unfold htlc_BeginBlocker. rewrite wrap64_small by done.
  destruct (expire_loop (IterateHTLCExpireQueueByHeight h s) s h Hi) as (s'&Hrun&Hi'&Hb&Hlk).
  - by apply queue_NoDup.
  - intros k hl Hin. by apply queue_at_height in Hin as [_ ?].
  - exists s'. split_and!; try done. intros hl. rewrite Hlk.
    destruct (htlcs s !! KeyHTLC hl) as [x|] eqn:Hx; simpl; [|done]. f_equal. unfold expire_at.
    assert (Hiff : hl ∈ (IterateHTLCExpireQueueByHeight h s).*2 ↔ h_State x = OPEN ∧ h_ExpireHeight x = h).
    { rewrite list_elem_of_fmap. split.
      - intros ([k hl']&->&(_&y&Hy&Ho&He)%queue_at_height); [|done..]. simpl in Hx. by simplify_eq.
      - intros [Ho He]. exists (KeyHTLCExpireQueue h hl, hl). split; [done|].
        apply queue_at_height; [done..|]. split; [done|]. by exists x. }
    repeat case_decide; tauto.
Qed.

(** ** The system *)
Record Sys := mkSys { height : Z; store : St }.

Definition signer (msg : HtlcMsg) : AccAddress :=
  match msg with
  | HCreate m => c_Sender m | HClaim m => cl_Sender m | HRefund m => r_Sender m | HOther => ""
  end.

(** A delivered transaction of the module, signed by its sender (nobody signs
    for the locked address); the beginning of the next block; and whatever the
    other modules do to the bank, which cannot take coins from the locked
    address.  Failed transactions are rolled back, so they are no step. *)
Inductive step : Sys → Sys → Prop :=
| step_tx h s msg s' :
    HtlcMsg_ValidateBasic msg = Ok tt → signer msg ≠ locked →
    htlc_Handler h msg s = (Ok tt, s') → step (mkSys h s) (mkSys h s')
| step_block h s s' :
    h + 1 + MaxTimeLock < 2^63 →
    htlc_BeginBlocker (h + 1) s = (Ok tt, s') → step (mkSys h s) (mkSys (h + 1) s')
| step_other h s b :
    bk_wf b → (∀ d, bal (hbank s) locked d ≤ bal b locked d) →
    step (mkSys h s) (mkSys h (mkHtlcStore b (htlcs s) (expireQueue s))).

Record sys_inv (sys : Sys) : Prop := {
  s_height : 0 ≤ height sys ∧ height sys + MaxTimeLock < 2^63;
  s_store : store_inv (store sys);
  s_open : ∀ hl x, htlcs (store sys) !! KeyHTLC hl = Some x → h_State x = OPEN →
                   height sys < h_ExpireHeight x }.

(** What the checks of a create message give. *)
Lemma create_checked msg :
  MsgCreateHTLC_ValidateBasic msg = Ok tt →
  nonzero (c_Amount msg) ∧ MinTimeLock ≤ c_TimeLock msg ≤ MaxTimeLock.
Proof.
  unfold MsgCreateHTLC_ValidateBasic. repeat (case_bool_decide; [done|]).
  destruct (Coins_IsValid (c_Amount msg)); [|done].
  destruct (IsAllPositive (c_Amount msg)) eqn:Hpos; [|done]. simpl.
  case_bool_decide; [done|]. destruct (_ || _) eqn:Et; [done|]. intros _. zbool. split; [|lia].
  unfold IsAllPositive in Hpos. destruct (c_Amount msg) as [|c l]; [done|].
  apply Forall_forall. intros x Hx%list_elem_of_In. rewrite forallb_forall in Hpos.
  specialize (Hpos _ Hx). unfold Coin_IsPositive in Hpos. apply Int_IsPositive_iff in Hpos. lia.
Qed.

Definition created (h : Z) (msg : MsgCreateHTLC) : HTLC :=
  NewHTLC (c_Sender msg) (c_To msg) (c_ReceiverOnOtherChain msg) (c_Amount msg) ""
    (c_Timestamp msg) (c_TimeLock msg + h) OPEN.

Lemma handleMsgCreateHTLC_run h msg (s : St) :
  0 ≤ h → h + MaxTimeLock < 2^63 → MsgCreateHTLC_ValidateBasic msg = Ok tt →
  handleMsgCreateHTLC h msg s = CreateHTLC (created h msg) (c_HashLock msg) s.
Proof.
  intros Hh Hm [_ Ht]%create_checked. unfold handleMsgCreateHTLC, created, MinTimeLock, MaxTimeLock in *.
  rewrite (wrap64_small h) by lia. by rewrite wrap64_small by lia.
Qed.

(** The contracts after a successful transaction. *)
Inductive tx_effect (h : Z) (s s' : St) : Prop :=
| TxCreate msg :
    htlcs s !! KeyHTLC (c_HashLock msg) = None →
    htlcs s' = <[KeyHTLC (c_HashLock msg) := created h msg]> (htlcs s) →
    MinTimeLock ≤ c_TimeLock msg → tx_effect h s s'
| TxClaim hl x secret :
    htlcs s !! KeyHTLC hl = Some x → h_State x = OPEN → GetHashLock secret (h_Timestamp x) = hl →
    htlcs s' = <[KeyHTLC hl := with_state (with_secret x secret) COMPLETED]> (htlcs s) →
    tx_effect h s s'
| TxRefund hl x :
    htlcs s !! KeyHTLC hl = Some x → h_State x = EXPIRED →
    htlcs s' = <[KeyHTLC hl := with_state x REFUNDED]> (htlcs s) → tx_effect h s s'.

Lemma handler_effect h msg s s' :
  store_inv s → 0 ≤ h → h + MaxTimeLock < 2^63 → HtlcMsg_ValidateBasic msg = Ok tt →
  signer msg ≠ locked → htlc_Handler h msg s = (Ok tt, s') →
  store_inv s' ∧ tx_effect h s s'.
Proof.
  intros Hi Hh Hm Hv Hsig Hrun. destruct msg as [msg|msg|msg|]; simpl in *; [| | |done].
  - rewrite handleMsgCreateHTLC_run in Hrun by done. pose proof (create_checked _ Hv) as [Hn [Ht1 Ht2]].
    destruct (CreateHTLC_ok (created h msg) _ _ _ _ (i_bank _ Hi) Hn Hrun) as (Hnone&Hset&_).
    split; [|by eapply TxCreate].
    eapply (create_inv (created h msg)); try done. simpl. unfold MinTimeLock, MaxTimeLock in *. lia.
  - split; [by eapply claim_inv|].
    destruct (ClaimHTLC_ok _ _ _ _ _ Hi Hrun) as (x&?&?&?&?&_). by eapply TxClaim.
  - split; [by eapply refund_inv|].
    destruct (RefundHTLC_ok _ _ _ _ Hi Hrun) as (x&?&?&?&_). by eapply TxRefund.
Qed.

Lemma step_inv sys sys' : sys_inv sys → step sys sys' → sys_inv sys'.
Proof.
  intros [Hh Hi Ho] Hstep. destruct Hstep as [h s msg s' Hv Hsig Hrun|h s s' Hb Hrun|h s b Hw Hle]; simpl in *.
  - destruct (handler_effect h msg s s') as [Hi' Heff]; try done; [lia..|].
    split; [done|done|]. simpl. intros hl x Hx Hopen.
    destruct Heff as [m Hnone Hset Ht|hl' y secret Hy HyO _ Hset|hl' y Hy HyE Hset];
      destruct (lookup_htlc_insert _ _ _ _ _ _ Hset Hx) as [[-> ->]|[_ Hold]]; try done; try exact (Ho _ _ Hold Hopen).
    simpl. unfold MinTimeLock in Ht. lia.
  - destruct (BeginBlocker_ok s (h + 1) Hi) as (s1&Hrun1&Hi1&_&Hlk); [unfold MaxTimeLock in *; lia|].
    rewrite Hrun1 in Hrun. injection Hrun as <-.
    split; [simpl; lia|done|]. simpl. intros hl x Hx Hopen. rewrite Hlk in Hx.
    destruct (htlcs s !! KeyHTLC hl) as [y|] eqn:Hy; [|done]. simpl in Hx.
    unfold expire_at in Hx. case_decide as Hd; simplify_eq.
    specialize (Ho _ _ Hy Hopen). destruct (decide (h_ExpireHeight x = h + 1)); [by destruct Hd|lia].
  - split; [done| |exact Ho]. pose proof (i_solvent _ Hi) as Hsol. destruct Hi.
    split; try done. intros d. eapply Z.le_trans; [apply Hsol|apply Hle].
Qed.

Lemma steps_inv sys sys' : sys_inv sys → rtc step sys sys' → sys_inv sys'.
Proof. intros Hi. induction 1; [done|]. eauto using step_inv. Qed.

(** The initial system: no contracts yet. *)
Definition initial (h : Z) (b : S) : Sys := mkSys h (mkHtlcStore b ∅ ∅).

Lemma initial_inv h b :
  0 ≤ h → h + MaxTimeLock < 2^63 → bk_wf b → sys_inv (initial h b).
Proof.
  intros Hh Hm Hb. split; [done| |].
  - split; simpl.
    + done.
    + intros k x. by rewrite lookup_empty.
    + intros hl x. by rewrite lookup_empty.
    + intros hl x. by rewrite lookup_empty.
    + intros k hl. by rewrite lookup_empty.
    + intros d. unfold locked_sum. simpl. rewrite map_sum_empty. by apply bal_nonneg.
  - intros hl x. simpl. by rewrite lookup_empty.
Qed.

(** C7. In every reachable state the locked account covers the sum of all open and
    expired contracts in every denomination, the expiry queue holds exactly the
    open contracts, and every open contract expires in the future. *)
Theorem htlc_reachable_invariant (h : Z) (b : S) (sys : Sys)
    (Hh : 0 ≤ h) (Hm : h + MaxTimeLock < 2^63) (Hb : bk_wf b)
    (Hreach : rtc step (initial h b) sys) :
  (∀ d, locked_sum (store sys) d ≤ bal (hbank (store sys)) locked d) ∧
  (∀ k hl, expireQueue (store sys) !! k = Some hl ↔
     ∃ x, k = KeyHTLCExpireQueue (h_ExpireHeight x) hl ∧
          htlcs (store sys) !! KeyHTLC hl = Some x ∧ h_State x = OPEN) ∧
  (∀ hl x, htlcs (store sys) !! KeyHTLC hl = Some x → h_State x = OPEN →
     height sys < h_ExpireHeight x).
Proof.
  destruct (steps_inv _ _ (initial_inv h b Hh Hm Hb) Hreach) as [_ Hi Ho].
  split_and!; [by apply i_solvent| |done]. intros k hl. split; [by apply i_queue|].
  intros (x&->&Hx&Hopen). by apply i_queued.
Qed.

(** What can happen to a contract in one step. *)
Inductive transition (h : Z) (hl : string) (x : HTLC) : HTLC → Prop :=
| TrSame : transition h hl x x
| TrClaim secret :
    h_State x = OPEN → GetHashLock secret (h_Timestamp x) = hl → h < h_ExpireHeight x →
    transition h hl x (with_state (with_secret x secret) COMPLETED)
| TrExpire : h_State x = OPEN → h_ExpireHeight x = h → transition h hl x (with_state x EXPIRED)
| TrRefund : h_State x = EXPIRED → transition h hl x (with_state x REFUNDED).

Lemma lifecycle_step sys sys' hl x :
  sys_inv sys → step sys sys' → htlcs (store sys) !! KeyHTLC hl = Some x →
  ∃ y, htlcs (store sys') !! KeyHTLC hl = Some y ∧ transition (height sys') hl x y.
Proof.
  intros [Hh Hi Ho] Hstep Hx.
  destruct Hstep as [h s msg s' Hv Hsig Hrun|h s s' Hb Hrun|h s b Hw Hle]; simpl in *.
  - destruct (handler_effect h msg s s') as [_ Heff]; try done; [lia..|].
    assert (Hother : ∀ hl' z, htlcs s' = <[KeyHTLC hl' := z]> (htlcs s) → hl' ≠ hl →
      ∃ y, htlcs s' !! KeyHTLC hl = Some y ∧ transition h hl x y).
    { intros hl' z -> Hne. exists x. split; [|constructor].
      rewrite lookup_insert_ne; [done|]. by intros E%KeyHTLC_inj. }
    destruct Heff as [m Hnone Hset _|hl' z secret Hz HzO Hhash Hset|hl' z Hz HzE Hset].
    + eapply Hother; [done|]. intros <-. congruence.
    + destruct (decide (hl' = hl)) as [->|Hne]; [|by eapply Hother]. simplify_eq.
      eexists. split; [rewrite Hset; apply lookup_insert_eq|]. apply TrClaim; [done|done|by eapply Ho].
    + destruct (decide (hl' = hl)) as [->|Hne]; [|by eapply Hother]. simplify_eq.
      eexists. split; [rewrite Hset; apply lookup_insert_eq|]. by apply TrRefund.
  - destruct (BeginBlocker_ok s (h + 1) Hi) as (s1&Hrun1&_&_&Hlk); [unfold MaxTimeLock in *; lia|].
    rewrite Hrun1 in Hrun. injection Hrun as <-. rewrite Hlk, Hx. simpl. eexists. split; [done|].
    unfold expire_at. case_decide as Hd; [apply TrExpire; tauto|constructor].
  - exists x. split; [done|constructor].
Qed.

(** C25. The life of a contract: a step leaves it alone, completes an open one
    before its expiry height with a secret that hashes to its lock, expires an
    open one in the block of its expiry height, or refunds an expired one.  The
    parties and the amount never change. *)
Theorem htlc_lifecycle (sys sys' : Sys) (hl : string) (x : HTLC)
    (Hi : sys_inv sys) (Hstep : step sys sys')
    (Hx : htlcs (store sys) !! KeyHTLC hl = Some x) :
  ∃ y, htlcs (store sys') !! KeyHTLC hl = Some y ∧ transition (height sys') hl x y ∧
       h_Sender y = h_Sender x ∧ h_To y = h_To x ∧ h_Amount y = h_Amount x ∧
       h_ExpireHeight y = h_ExpireHeight x.
Proof.
  destruct (lifecycle_step _ _ _ _ Hi Hstep Hx) as (y&Hy&Htr). exists y. split; [done|].
  split; [done|]. by destruct Htr.
Qed.

(** A settled contract is never touched again: completed and refunded contracts
    are the same in every later state. *)
Theorem htlc_settled_final (sys sys' : Sys) (hl : string) (x : HTLC)
    (Hi : sys_inv sys) (Hsteps : rtc step sys sys')
    (Hx : htlcs (store sys) !! KeyHTLC hl = Some x)
    (Hdone : h_State x = COMPLETED ∨ h_State x = REFUNDED) :
  htlcs (store sys') !! KeyHTLC hl = Some x.
Proof.
  revert Hi Hx. induction Hsteps as [|sys sys1 sys' Hstep _ IH]; intros Hi Hx; [done|].
  apply IH; [by eapply step_inv|].
  destruct (lifecycle_step _ _ _ _ Hi Hstep Hx) as (y&Hy&Htr).
  destruct Htr; [done|..]; destruct Hdone; congruence.
Qed.

(** The beginning of a block always goes through, moves no coins, and expires
    exactly the open contracts whose expiry height has come. *)
Theorem htlc_BeginBlocker_exact (s : St) (h : Z) (Hi : store_inv s) (Hh : 0 ≤ h < 2^64) :
  ∃ s', htlc_BeginBlocker h s = (Ok tt, s') ∧ store_inv s' ∧ hbank s' = hbank s ∧
        ∀ hl, htlcs s' !! KeyHTLC hl = expire_at h <$> htlcs s !! KeyHTLC hl.
Proof. by apply BeginBlocker_ok. Qed.

(** The locked coins of a pending contract are there. *)
Lemma pending_covered (s : St) hl x d :
  store_inv s → htlcs s !! KeyHTLC hl = Some x → is_pending (h_State x) = true →
  amt (h_Amount x) d ≤ bal (hbank s) locked d.
Proof.
  intros Hi Hx Hp. eapply Z.le_trans; [|by apply i_solvent].
  assert (Hpend : pending d x = amt (h_Amount x) d) by (unfold pending; by rewrite Hp).
  rewrite <-Hpend. eapply map_sum_le_key; [|done]. intros k y Hy.
  destruct (i_key _ Hi _ _ Hy) as [hl' ->]. unfold pending. destruct (is_pending (h_State y)); [|done].
  by apply entry_ok_nonneg, (i_entry _ Hi _ _ Hy).
Qed.

Lemma send_amount_run f t x (s : St) :
  bk_wf (hbank s) → entry_ok x → bk_fits (hbank s) f t (h_Amount x) → f ≠ t →
  (∀ d, amt (h_Amount x) d ≤ bal (hbank s) f d) → ∃ s', send_amount f t x s = (Ok x, s').
Proof.
  intros Hw He Hf Hne Hle. destruct (law_send_total f t (h_Amount x) (hbank s)) as [b Hb]; try done.
  { apply He. }
  unfold send_amount, bind, gets, on_bank, zoom. rewrite Hb, law_send_amt by apply He.
  rewrite with_amount_id. by eexists.
Qed.

(** An open contract pays its recipient: with a secret that hashes to the lock,
    and a transfer the bank has gas and range for, the claim succeeds and the
    recipient receives exactly the locked amount. *)
Theorem htlc_claim_pays (s : St) (hl secret : string) (x : HTLC)
    (Hi : store_inv s) (Hx : htlcs s !! KeyHTLC hl = Some x) (Ho : h_State x = OPEN)
    (Hsec : GetHashLock secret (h_Timestamp x) = hl) (Hto : h_To x ≠ locked)
    (Hfit : bk_fits (hbank s) locked (h_To x) (h_Amount x)) :
  ∃ s', ClaimHTLC hl secret s = (Ok tt, s') ∧
        (∀ d, bal (hbank s') (h_To x) d = bal (hbank s) (h_To x) d + amt (h_Amount x) d) ∧
        htlcs s' !! KeyHTLC hl = Some (with_state (with_secret x secret) COMPLETED).
Proof.
  destruct (send_amount_run locked (h_To x) x s) as [s1 Hs1]; try done.
  { apply Hi. } { by eapply i_entry. }
  { intros d. eapply pending_covered; [done..|]. by rewrite Ho. }
  assert (Hrun : ∃ s', ClaimHTLC hl secret s = (Ok tt, s')).
  { unfold ClaimHTLC, GetHTLC, bind, gets. rewrite Hx. simpl. unfold ret, require.
    rewrite !bool_decide_true by done. unfold ret. rewrite Hs1. by eexists. }
  destruct Hrun as [s' Hrun]. exists s'. split; [done|].
  destruct (ClaimHTLC_ok _ _ _ _ _ Hi Hrun) as (y&Hy&_&_&Hset&_&_&Hb). simplify_eq. split.
  - intros d. rewrite Hb, decide_False, decide_True by done. lia.
  - rewrite Hset. apply lookup_insert_eq.
Qed.

(** An expired contract goes back to its sender, exactly. *)
Theorem htlc_refund_pays (s : St) (hl : string) (x : HTLC)
    (Hi : store_inv s) (Hx : htlcs s !! KeyHTLC hl = Some x) (He : h_State x = EXPIRED)
    (Hfit : bk_fits (hbank s) locked (h_Sender x) (h_Amount x)) :
  ∃ s', RefundHTLC hl s = (Ok tt, s') ∧
        (∀ d, bal (hbank s') (h_Sender x) d = bal (hbank s) (h_Sender x) d + amt (h_Amount x) d) ∧
        htlcs s' !! KeyHTLC hl = Some (with_state x REFUNDED).
Proof.
  pose proof (i_entry _ Hi _ _ Hx) as Hok. pose proof (e_sender _ Hok) as Hne.
  destruct (send_amount_run locked (h_Sender x) x s) as [s1 Hs1]; try done.
  { apply Hi. } { intros d. eapply pending_covered; [done..|]. by rewrite He. }
  assert (Hrun : ∃ s', RefundHTLC hl s = (Ok tt, s')).
  { unfold RefundHTLC, GetHTLC, bind, gets. rewrite Hx. simpl. unfold ret, require.
    rewrite !bool_decide_true by done. unfold ret. rewrite Hs1. by eexists. }
  destruct Hrun as [s' Hrun]. exists s'. split; [done|].
  destruct (RefundHTLC_ok _ _ _ _ Hi Hrun) as (y&Hy&_&Hset&_&_&Hb). simplify_eq. split.
  - intros d. rewrite Hb, decide_False, decide_True by done. lia.
  - rewrite Hset. apply lookup_insert_eq.
Qed.
End system.

(** The hash lock an iteration recovers from a key is the stored one exactly
    when it contains no colon: a lock with a colon byte is cut short, and the
    export of genesis then lists, or refunds, the wrong key. *)
Theorem key_hash_lock_colon (hl : string) :
  key_hash_lock (KeyHTLC hl) = hl ↔ ":"%char ∉ chars hl.
Proof.
  assert (E : key_hash_lock (KeyHTLC hl) = nth 0 (Split hl ":"%char) "").
  { unfold key_hash_lock, KeyHTLC, Split. rewrite chars_app.
    change (chars PrefixHTLC) with (["h";"t";"l";"c";"s"]%char ++ [":"%char]).
    rewrite <-app_assoc. simpl app at 2. rewrite split_chars_app; [done|]. set_solver. }
  rewrite E. unfold Split. split.
  - intros Hl Hin. apply list_elem_of_split_l in Hin as (a&b&Hab&Ha).
    rewrite Hab, split_chars_app in Hl by done. simpl in Hl. apply (f_equal chars) in Hl.
    rewrite chars_str in Hl. rewrite Hab in Hl. apply (f_equal length) in Hl.
    rewrite length_app in Hl. simpl in Hl. lia.
  - intros Hn. rewrite split_chars_none by done. simpl. apply str_chars.
Qed.

(** ** Witnesses: a contract of alice for bob, over the bank of [BankFacts] *)
Module HtlcExample.
#[local] Existing Instance name_crypto.

Definition ex_secret : string := "0123456789abcdef0123456789abcdef".
Definition ex_lock : string := SHA256 ex_secret.
Definition ex_create : MsgCreateHTLC :=
  mkMsgCreateHTLC "alice" "bob" "" [mkCoin "btc-min" 4] ex_lock 0 50.

Definition ex0 : HtlcStore AuthState := mkHtlcStore ex_state ∅ ∅.
Definition ex1 : HtlcStore AuthState := (htlc_Handler 100 (HCreate ex_create) ex0).2.
Definition ex2 : HtlcStore AuthState := (htlc_BeginBlocker 150 ex1).2.
Definition ex_claimed : HtlcStore AuthState :=
  (htlc_Handler 100 (HClaim (mkMsgClaimHTLC "carol" ex_lock ex_secret)) ex1).2.

Lemma ex1_step : step (mkSys 100 ex0) (mkSys 100 ex1).
Proof.
  eapply (step_tx 100 ex0 (HCreate ex_create)); [vm_compute; reflexivity|discriminate|run_vm].
Qed.

Lemma ex_claim_step : step (mkSys 100 ex1) (mkSys 100 ex_claimed).
Proof.
  eapply (step_tx 100 ex1 (HClaim (mkMsgClaimHTLC "carol" ex_lock ex_secret)));
    [vm_compute; reflexivity|discriminate|run_vm].
Qed.

Lemma ex0_inv : sys_inv (mkSys 100 ex0).
Proof. apply (initial_inv 100 ex_state); [done|done|]. apply ex_state_wf. Qed.

Lemma ex1_inv : sys_inv (mkSys 100 ex1).
Proof. eapply step_inv; [apply ex0_inv|apply ex1_step]. Qed.

Lemma ex_claimed_inv : sys_inv (mkSys 100 ex_claimed).
Proof. eapply step_inv; [apply ex1_inv|apply ex_claim_step]. Qed.

Lemma ex2_inv : store_inv ex2.
Proof.
  destruct (BeginBlocker_ok ex1 150 (s_store _ ex1_inv)) as (s'&Hrun&Hi&_); [lia|].
  unfold ex2. rewrite Hrun. exact Hi.
Qed.

Definition ex_contract : HTLC := created 100 ex_create.

Lemma ex1_lookup : htlcs ex1 !! KeyHTLC ex_lock = Some ex_contract.
Proof. vm_compute. reflexivity. Qed.

Lemma ex2_lookup : htlcs ex2 !! KeyHTLC ex_lock = Some (with_state ex_contract EXPIRED).
Proof. vm_compute. reflexivity. Qed.

Lemma htlc_reachable_invariant_witness :
  locked_sum ex1 "btc-min" = 4 ∧
  locked_sum ex1 "btc-min" ≤ bal (hbank ex1) HTLCLockedCoinsAccAddr "btc-min".
Proof.
  split; [vm_compute; reflexivity|].
  apply (htlc_reachable_invariant 100 ex_state (mkSys 100 ex1)); [lia|done|apply ex_state_wf|].
  apply rtc_once, ex1_step.
Defined.

Lemma htlc_lifecycle_witness :
  ∃ y, htlcs ex_claimed !! KeyHTLC ex_lock = Some y ∧ transition 100 ex_lock ex_contract y.
Proof.
  destruct (htlc_lifecycle (mkSys 100 ex1) (mkSys 100 ex_claimed) ex_lock ex_contract
    ex1_inv ex_claim_step ex1_lookup) as (y&Hy&Htr&_).
  exact (ex_intro _ y (conj Hy Htr)).
Defined.

Lemma htlc_settled_final_witness :
  htlcs ex_claimed !! KeyHTLC ex_lock =
    Some (with_state (with_secret ex_contract ex_secret) COMPLETED).
Proof.
  apply (htlc_settled_final (mkSys 100 ex_claimed) (mkSys 100 ex_claimed) ex_lock).
  - apply ex_claimed_inv.
  - apply rtc_refl.
  - vm_compute. reflexivity.
  - by left.
Defined.

Lemma htlc_BeginBlocker_exact_witness :
  ∃ s', htlc_BeginBlocker 150 ex1 = (Ok tt, s') ∧
        htlcs s' !! KeyHTLC ex_lock = Some (with_state ex_contract EXPIRED).
Proof.
  destruct (htlc_BeginBlocker_exact ex1 150 (s_store _ ex1_inv) ltac:(lia)) as (s'&Hrun&_&_&Hlk).
  exists s'. split; [exact Hrun|]. rewrite Hlk, ex1_lookup. reflexivity.
Defined.

Lemma ex_small (l : Coins) : l = [mkCoin "btc-min" 4] → in_range l.
Proof. intros ->. by repeat constructor. Qed.

Lemma ex_room (l : Coins) (n : Z) :
  l = [mkCoin "btc-min" n] ∨ (∃ m, l = [mkCoin "btc-min" n; mkCoin "iris-atto" m] ∧ 0 ≤ m < 2^200) →
  0 ≤ n < 2^200 → ∀ d, int_ok (amt l d + amt [mkCoin "btc-min" 4] d).
Proof.
  intros [->|(m&->&?)] Hn d; unfold int_ok; simpl; repeat case_decide; lia.
Qed.

Lemma htlc_claim_pays_witness :
  ∃ s', ClaimHTLC ex_lock ex_secret ex1 = (Ok tt, s') ∧
        bal (hbank s') "bob" "btc-min" = bal (hbank ex1) "bob" "btc-min" + 4.
Proof.
  destruct (htlc_claim_pays ex1 ex_lock ex_secret ex_contract (s_store _ ex1_inv) ex1_lookup
    eq_refl ltac:(vm_compute; reflexivity)) as (s'&Hrun&Hb&_).
  - discriminate.
  - split_and!.
    + split; [vm_compute; intuition discriminate|vm_compute; discriminate].
    + discriminate.
    + apply ex_small. vm_compute. reflexivity.
    + unfold balance. apply (ex_room _ 1); [left; vm_compute; reflexivity|lia].
  - exists s'. split; [exact Hrun|]. exact (Hb "btc-min").
Defined.

Lemma htlc_refund_pays_witness :
  ∃ s', RefundHTLC ex_lock ex2 = (Ok tt, s') ∧
        bal (hbank s') "alice" "btc-min" = bal (hbank ex2) "alice" "btc-min" + 4.
Proof.
  destruct (htlc_refund_pays ex2 ex_lock (with_state ex_contract EXPIRED) ex2_inv ex2_lookup
    eq_refl) as (s'&Hrun&Hb&_).
  - split_and!.
    + split; [vm_compute; intuition discriminate|vm_compute; discriminate].
    + discriminate.
    + apply ex_small. vm_compute. reflexivity.
    + unfold balance. apply (ex_room _ 6); [|lia]. right. exists 100.
      split; [vm_compute; reflexivity|lia].
  - exists s'. split; [exact Hrun|]. exact (Hb "btc-min").
Defined.
End HtlcExample.
