(* ===== verification/Guardian.v ===== *)
(** * Guardians (modules/guardian: types.go, msgs.go, keeper.go, handler.go, genesis.go, querier.go)

    Profilers and trustees are accounts with special rights.  Those of the genesis
    file may add and remove ordinary ones of their kind; nobody may remove them. *)

From S2P Require Import Prelude SdkErrors Frame GoStrings KVStore Auth.
#[local] Open Scope Z_scope.

Module Guardian.

(** ** Types (types.go, error.go) *)
Definition DefaultCodespace : string := "guardian".
Inductive GuardianCode :=
| CodeInvalidOperator | CodeProfilerExists | CodeProfilerNotExists | CodeTrusteeExists | CodeTrusteeNotExists
| CodeInvalidDescription | CodeDeleteGenesisProfiler | CodeDeleteGenesisTrustee | CodeInvalidGuardian.
Definition code_num (c : GuardianCode) : Z :=
  match c with
  | CodeInvalidOperator => 100 | CodeProfilerExists => 101 | CodeProfilerNotExists => 102
  | CodeTrusteeExists => 103 | CodeTrusteeNotExists => 104 | CodeInvalidDescription => 105
  | CodeDeleteGenesisProfiler => 106 | CodeDeleteGenesisTrustee => 107 | CodeInvalidGuardian => 108
  end.
Definition guardian_err (c : GuardianCode) : Error := NewError DefaultCodespace (code_num c).

Inductive AccountType := Genesis | Ordinary | OtherType (b : Z).
#[export] Instance AccountType_dec : EqDecision AccountType.
Proof. solve_decision. Defined.
Definition AccountTypeFromString (s : string) : option AccountType :=
  if bool_decide (s = "Genesis") then Some Genesis else
  if bool_decide (s = "Ordinary") then Some Ordinary else None.
Definition validAccountType (bt : AccountType) : bool :=
  match bt with Genesis | Ordinary => true | OtherType _ => false end.
Definition AccountType_String (bt : AccountType) : string :=
  match bt with Genesis => "Genesis" | Ordinary => "Ordinary" | OtherType _ => "" end.

Record Guardian := NewGuardian {
  g_Description : string; g_AccountType : AccountType; g_Address : AccAddress; g_AddedBy : AccAddress }.
#[export] Instance Guardian_dec : EqDecision Guardian.
Proof. solve_decision. Defined.
Definition Guardian_Equal (g guardian : Guardian) : bool :=
  AccAddress_Equals (g_Address g) (g_Address guardian) &&
  AccAddress_Equals (g_AddedBy g) (g_AddedBy guardian) &&
  bool_decide (g_Description g = g_Description guardian) &&
  bool_decide (g_AccountType g = g_AccountType guardian).

(** ** Messages (msgs.go) *)
Record AddGuardian := mkAdd { ag_Description : string; ag_Address : AccAddress; ag_AddedBy : AccAddress }.
Record DeleteGuardian := mkDelete { dg_Address : AccAddress; dg_DeletedBy : AccAddress }.
Inductive GuardianMsg :=
| MsgAddProfiler (g : AddGuardian)
| MsgDeleteProfiler (g : DeleteGuardian)
| MsgAddTrustee (g : AddGuardian)
| MsgDeleteTrustee (g : DeleteGuardian)
| OtherMsg.

Definition EnsureLength (g : AddGuardian) : Outcome unit :=
  if 70 <? Z.of_nat (str_len (ag_Description g)) then Err (guardian_err CodeInvalidGuardian) else Ok tt.
Definition AddGuardian_ValidateBasic (g : AddGuardian) : Outcome unit :=
  if bool_decide (str_len (ag_Description g) = 0%nat) then Err (guardian_err CodeInvalidDescription) else
  if bool_decide (str_len (ag_Address g) = 0%nat) then Err ErrInvalidAddress else
  if bool_decide (str_len (ag_AddedBy g) = 0%nat) then Err ErrInvalidAddress else EnsureLength g.
Definition DeleteGuardian_ValidateBasic (g : DeleteGuardian) : Outcome unit :=
  if bool_decide (str_len (dg_Address g) = 0%nat) then Err ErrInvalidAddress else
  if bool_decide (str_len (dg_DeletedBy g) = 0%nat) then Err ErrInvalidAddress else Ok tt.
Definition ValidateBasic (msg : GuardianMsg) : Outcome unit :=
  match msg with
  | MsgAddProfiler g | MsgAddTrustee g => AddGuardian_ValidateBasic g
  | MsgDeleteProfiler g | MsgDeleteTrustee g => DeleteGuardian_ValidateBasic g
  | OtherMsg => Ok tt
  end.
Definition GetSigners (msg : GuardianMsg) : list AccAddress :=
  match msg with
  | MsgAddProfiler g | MsgAddTrustee g => [ag_AddedBy g]
  | MsgDeleteProfiler g | MsgDeleteTrustee g => [dg_DeletedBy g]
  | OtherMsg => []
  end.

(** ** Keeper (keeper_keys.go, keeper.go) *)
Definition profilerKey : string := String (Ascii.ascii_of_nat 0) "".
Definition trusteeKey : string := String (Ascii.ascii_of_nat 1) "".
Definition GetProfilerKey (addr : AccAddress) : string := profilerKey +:+ addr.
Definition GetTrusteeKey (addr : AccAddress) : string := trusteeKey +:+ addr.
Abbreviation Store := (gmap string Guardian).

Definition AddProfiler (guardian : Guardian) : M Store unit :=
  modify (insert (GetProfilerKey (g_Address guardian)) guardian).
Definition DeleteProfiler (address : AccAddress) : M Store unit := modify (delete (GetProfilerKey address)).
Definition GetProfiler (addr : AccAddress) : M Store (option Guardian) := gets (λ s, s !! GetProfilerKey addr).
Definition ProfilersIterator (s : Store) : list (string * Guardian) := prefix_iterator s profilerKey.
Definition AddTrustee (guardian : Guardian) : M Store unit :=
  modify (insert (GetTrusteeKey (g_Address guardian)) guardian).
Definition DeleteTrustee (address : AccAddress) : M Store unit := modify (delete (GetTrusteeKey address)).
Definition GetTrustee (addr : AccAddress) : M Store (option Guardian) := gets (λ s, s !! GetTrusteeKey addr).
Definition TrusteesIterator (s : Store) : list (string * Guardian) := prefix_iterator s trusteeKey.

(** ** Handlers (handler.go) *)
Definition is_genesis (g : option Guardian) : bool :=
  match g with Some g => bool_decide (g_AccountType g = Genesis) | None => false end.

Definition handleMsgAddProfiler (msg : AddGuardian) : M Store unit :=
  profiler <- GetProfiler (ag_AddedBy msg) ;;
  require (is_genesis profiler) (guardian_err CodeInvalidOperator) ;;;
  found <- GetProfiler (ag_Address msg) ;;
  require (bool_decide (found = None)) (guardian_err CodeProfilerExists) ;;;
  AddProfiler (NewGuardian (ag_Description msg) Ordinary (ag_Address msg) (ag_AddedBy msg)).
Definition handleMsgAddTrustee (msg : AddGuardian) : M Store unit :=
  trustee <- GetTrustee (ag_AddedBy msg) ;;
  require (is_genesis trustee) (guardian_err CodeInvalidOperator) ;;;
  found <- GetTrustee (ag_Address msg) ;;
  require (bool_decide (found = None)) (guardian_err CodeTrusteeExists) ;;;
  AddTrustee (NewGuardian (ag_Description msg) Ordinary (ag_Address msg) (ag_AddedBy msg)).
Definition handleMsgDeleteProfiler (msg : DeleteGuardian) : M Store unit :=
  profiler <- GetProfiler (dg_DeletedBy msg) ;;
  require (is_genesis profiler) (guardian_err CodeInvalidOperator) ;;;
  profiler <- GetProfiler (dg_Address msg) ;;
  match profiler with
  | None => throw (guardian_err CodeProfilerNotExists)
  | Some profiler =>
      require (bool_decide (g_AccountType profiler ≠ Genesis)) (guardian_err CodeDeleteGenesisProfiler) ;;;
      DeleteProfiler (dg_Address msg)
  end.
Definition handleMsgDeleteTrustee (msg : DeleteGuardian) : M Store unit :=
  trustee <- GetTrustee (dg_DeletedBy msg) ;;
  require (is_genesis trustee) (guardian_err CodeInvalidOperator) ;;;
  trustee <- GetTrustee (dg_Address msg) ;;
  match trustee with
  | None => throw (guardian_err CodeTrusteeNotExists)
  | Some trustee =>
      require (bool_decide (g_AccountType trustee ≠ Genesis)) (guardian_err CodeDeleteGenesisTrustee) ;;;
      DeleteTrustee (dg_Address msg)
  end.
Definition Handler (msg : GuardianMsg) : M Store unit :=
  match msg with
  | MsgAddProfiler g => handleMsgAddProfiler g
  | MsgAddTrustee g => handleMsgAddTrustee g
  | MsgDeleteProfiler g => handleMsgDeleteProfiler g
  | MsgDeleteTrustee g => handleMsgDeleteTrustee g
  | OtherMsg => throw ErrTxDecode
  end.

(** ** Genesis (genesis.go), queries (querier.go) *)
Record GenesisState := mkGenesis { Profilers : list Guardian; Trustees : list Guardian }.
Definition InitGenesis (data : GenesisState) : M Store unit :=
  for_each (Profilers data) AddProfiler ;;; for_each (Trustees data) AddTrustee.
Definition ExportGenesis (s : Store) : GenesisState :=
  mkGenesis (ProfilersIterator s).*2 (TrusteesIterator s).*2.
Definition query (path : string) (s : Store) : Outcome (list Guardian) :=
  if bool_decide (path = "profilers") then Ok (ProfilersIterator s).*2 else
  if bool_decide (path = "trustees") then Ok (TrusteesIterator s).*2 else Err ErrUnknownRequest.

(** * Theorems *)

(** Every guardian is stored under the key of its address. *)
Definition store_wf (s : Store) : Prop :=
  ∀ k g, s !! k = Some g → k = GetProfilerKey (g_Address g) ∨ k = GetTrusteeKey (g_Address g).

(** The message, its kind of guardian, its operator and the guardian it names. *)
Definition key_of (msg : GuardianMsg) : AccAddress → string :=
  match msg with MsgAddProfiler _ | MsgDeleteProfiler _ => GetProfilerKey | _ => GetTrusteeKey end.
Definition operator (msg : GuardianMsg) : AccAddress :=
  match msg with
  | MsgAddProfiler g | MsgAddTrustee g => ag_AddedBy g
  | MsgDeleteProfiler g | MsgDeleteTrustee g => dg_DeletedBy g
  | OtherMsg => ""
  end.
(** What the message asks for. *)
Definition effect (msg : GuardianMsg) (s : Store) : Store :=
  match msg with
  | MsgAddProfiler g | MsgAddTrustee g =>
      <[key_of msg (ag_Address g) := NewGuardian (ag_Description g) Ordinary (ag_Address g) (ag_AddedBy g)]> s
  | MsgDeleteProfiler g | MsgDeleteTrustee g => delete (key_of msg (dg_Address g)) s
  | OtherMsg => s
  end.
(** When it may have it. *)
Definition allowed (msg : GuardianMsg) (s : Store) : Prop :=
  is_genesis (s !! key_of msg (operator msg)) = true ∧
  match msg with
  | MsgAddProfiler g | MsgAddTrustee g => s !! key_of msg (ag_Address g) = None
  | MsgDeleteProfiler g | MsgDeleteTrustee g =>
      ∃ t, s !! key_of msg (dg_Address g) = Some t ∧ g_AccountType t ≠ Genesis
  | OtherMsg => False
  end.

Lemma Handler_spec msg s o s' :
  Handler msg s = (o, s') →
  (o = Ok tt ∧ allowed msg s ∧ s' = effect msg s) ∨ (∃ e, o = Err e ∧ code e ≠ 0 ∧ ¬ allowed msg s ∧ s' = s).
Proof.
  destruct msg as [g|g|g|g|]; simpl;
    unfold allowed, operator, handleMsgAddProfiler, handleMsgAddTrustee, handleMsgDeleteProfiler, handleMsgDeleteTrustee,
      GetProfiler, GetTrustee, bind, gets, require, AddProfiler, AddTrustee, DeleteProfiler, DeleteTrustee, modify;
    simpl.
  1-4: destruct (is_genesis _); simpl; [|intros [= <- <-]; right; eexists; split_and!; [done..|naive_solver|done]].
  - case_bool_decide as Hn; intros [= <- <-]; [by left|right]. eexists. split_and!; [done..|naive_solver|done].
  - destruct (s !! GetProfilerKey (dg_Address g)) as [t|].
    + case_bool_decide as Hn; intros [= <- <-]; [left; naive_solver|right]. eexists. split_and!; [done..|naive_solver|done].
    + intros [= <- <-]. right. eexists. split_and!; [done..|naive_solver|done].
  - case_bool_decide as Hn; intros [= <- <-]; [by left|right]. eexists. split_and!; [done..|naive_solver|done].
  - destruct (s !! GetTrusteeKey (dg_Address g)) as [t|].
    + case_bool_decide as Hn; intros [= <- <-]; [left; naive_solver|right]. eexists. split_and!; [done..|naive_solver|done].
    + intros [= <- <-]. right. eexists. split_and!; [done..|naive_solver|done].
  - intros [= <- <-]. right. eexists. split_and!; [done..|naive_solver|done].
Qed.

(** A block's messages, the failing ones dropped. *)
Definition run_msgs (msgs : list GuardianMsg) (s : Store) : Store :=
  foldl (λ s msg, (Handler msg s).2) s msgs.

(** The guardians of genesis are the same in both stores. *)
Definition same_genesis (s s' : Store) : Prop :=
  ∀ k, is_genesis (s !! k) = true ∨ is_genesis (s' !! k) = true → s' !! k = s !! k.
(** Every other guardian was added by a guardian of genesis of its kind. *)
Definition vouched (s : Store) : Prop :=
  ∀ k g, s !! k = Some g → g_AccountType g ≠ Genesis →
  (k = GetProfilerKey (g_Address g) ∧ is_genesis (s !! GetProfilerKey (g_AddedBy g)) = true) ∨
  (k = GetTrusteeKey (g_Address g) ∧ is_genesis (s !! GetTrusteeKey (g_AddedBy g)) = true).

Lemma same_genesis_is s s' k : same_genesis s s' → is_genesis (s !! k) = true → is_genesis (s' !! k) = true.
Proof. intros Hg Hk. rewrite Hg; [done|by left]. Qed.

#[export] Instance same_genesis_po : PreOrder same_genesis.
Proof.
  split; [done|]. intros s1 s2 s3 H1 H2 k [Hk|Hk].
  - assert (E : s2 !! k = s1 !! k) by (apply H1; by left). rewrite <-E. apply H2. left. by rewrite E.
  - assert (E : s3 !! k = s2 !! k) by (apply H2; by right). rewrite E. apply H1. right. by rewrite <-E.
Qed.

Lemma effect_same_genesis msg s : allowed msg s → same_genesis s (effect msg s).
Proof.
  intros [Hop Hal] k. destruct msg as [g|g|g|g|]; cbn [effect] in *; [..|done].
  1,3: rewrite lookup_insert; case_decide as Hk; [subst; rewrite Hal; intros [?|?]; done|done].
  all: destruct Hal as (t&Ht&Hng); rewrite lookup_delete; case_decide as Hk; [subst|done].
  all: rewrite Ht; intros [Hk|Hk]; [|done]; simpl in Hk; by rewrite bool_decide_eq_false_2 in Hk.
Qed.

Lemma profiler_trustee a b : GetProfilerKey a ≠ GetTrusteeKey b.
Proof. done. Qed.

Lemma effect_vouched msg s : allowed msg s → vouched s → vouched (effect msg s).
Proof.
  intros Hal Hv. pose proof (effect_same_genesis msg s Hal) as Hsg. destruct Hal as [Hop _].
  assert (Hstep : ∀ k g, s !! k = Some g → g_AccountType g ≠ Genesis →
    (k = GetProfilerKey (g_Address g) ∧ is_genesis (effect msg s !! GetProfilerKey (g_AddedBy g)) = true) ∨
    (k = GetTrusteeKey (g_Address g) ∧ is_genesis (effect msg s !! GetTrusteeKey (g_AddedBy g)) = true)).
  { intros k g Hk Hg. destruct (Hv _ _ Hk Hg) as [[? Hi]|[? Hi]]; [left|right]; split; try done; by eapply same_genesis_is. }
  apply (same_genesis_is _ _ _ Hsg) in Hop.
  intros k g Hk Hg. destruct msg as [a|a|a|a|]; cbn [effect operator key_of] in *; [..|by apply Hstep].
  - apply lookup_insert_Some in Hk as [[<- <-]|[_ Hk]]; [|by apply Hstep]. by left.
  - apply lookup_delete_Some in Hk as [_ Hk]. by apply Hstep.
  - apply lookup_insert_Some in Hk as [[<- <-]|[_ Hk]]; [|by apply Hstep]. by right.
  - apply lookup_delete_Some in Hk as [_ Hk]. by apply Hstep.
Qed.

Lemma effect_wf msg s : store_wf s → store_wf (effect msg s).
Proof.
  intros Hw k g. destruct msg as [a|a|a|a|]; cbn [effect key_of]; rewrite ?lookup_insert_Some, ?lookup_delete_Some.
  - intros [[<- <-]|[_ Hk]]; [by left|by apply Hw].
  - intros [_ Hk]. by apply Hw.
  - intros [[<- <-]|[_ Hk]]; [by right|by apply Hw].
  - intros [_ Hk]. by apply Hw.
  - apply Hw.
Qed.

(** Whatever messages are sent, the guardians of genesis stay as they are, every
    other guardian was added by one of them of its own kind, and each is stored
    under its address. *)
Theorem guardians_trust (msgs : list GuardianMsg) (s : Store) (Hw : store_wf s) (Hv : vouched s) :
  same_genesis s (run_msgs msgs s) ∧ vouched (run_msgs msgs s) ∧ store_wf (run_msgs msgs s).
Proof.
  revert s Hw Hv. induction msgs as [|msg msgs IH]; intros s Hw Hv; [done|]. unfold run_msgs. simpl.
  destruct (Handler msg s) as [o s1] eqn:E. simpl. fold (run_msgs msgs s1).
  destruct (Handler_spec _ _ _ _ E) as [(_&Hal&->)|(e&_&_&_&->)]; [|by apply IH].
  destruct (IH _ (effect_wf msg s Hw) (effect_vouched msg s Hal Hv)) as (Hg&?&?).
  split; [|done]. etrans; [by apply effect_same_genesis|done].
Qed.

Definition ex_genesis : Guardian := NewGuardian "genesis" Genesis "alice" "".
Definition ex_store : Store := {[ GetProfilerKey "alice" := ex_genesis ]}.
Lemma guardians_trust_witness :
  run_msgs [MsgAddProfiler (mkAdd "new" "bob" "alice"); MsgAddProfiler (mkAdd "no" "carol" "bob");
            MsgDeleteProfiler (mkDelete "alice" "alice")] ex_store !! GetProfilerKey "bob" =
    Some (NewGuardian "new" Ordinary "bob" "alice") ∧
  same_genesis ex_store (run_msgs [MsgDeleteProfiler (mkDelete "alice" "alice")] ex_store).
Proof.
  split; [vm_compute; reflexivity|]. apply guardians_trust.
  - unfold ex_store. intros k g [<- <-]%lookup_singleton_Some. by left.
  - unfold ex_store. intros k g [<- <-]%lookup_singleton_Some. by destruct 1.
Defined.

(** ** Genesis *)
Definition put_all (key : AccAddress → string) (l : list Guardian) (s : Store) : Store :=
  foldl (λ s g, <[key (g_Address g) := g]> s) s l.

Lemma put_all_run (key : AccAddress → string) (l : list Guardian) (s : Store) :
  for_each l (λ g, modify (insert (key (g_Address g)) g)) s = (Ok tt, put_all key l s).
Proof. revert s. induction l as [|g l IH]; intros s; simpl; [done|]. unfold bind, modify. by rewrite IH. Qed.

Lemma put_all_lookup key l (s : Store) k g :
  NoDup ((λ g, key (g_Address g)) <$> l) →
  put_all key l s !! k = Some g ↔
  (g ∈ l ∧ key (g_Address g) = k) ∨ ((k ∉ ((λ g, key (g_Address g)) <$> l)) ∧ s !! k = Some g).
Proof.
  revert s. induction l as [|h l IH]; intros s; [simpl; set_solver|]. csimpl. intros [Hni Hnd]%NoDup_cons.
  unfold put_all. simpl. fold (put_all key l (<[key (g_Address h) := h]> s)). rewrite IH by done.
  rewrite lookup_insert_Some, elem_of_cons, not_elem_of_cons. split.
  - intros [[Hg Hk]|[Hn [[<- <-]|[Hne Hs]]]]; [by left; split; [right|]|left; by split; [left|]|]. right. naive_solver.
  - intros [[[->|Hg] Hk]|[[Hne Hn] Hs]]; [right; split; [by rewrite <-Hk|by left]|by left|].
    right. naive_solver.
Qed.

(** What an iterator over one kind of guardian sees. *)
Lemma iterated (s : Store) (p : string) (g : Guardian) :
  g ∈ (prefix_iterator s p).*2 ↔ ∃ k, s !! k = Some g ∧ HasPrefix k p = true.
Proof.
  rewrite list_elem_of_fmap. split.
  - intros ([k g']&->&Hin). exists k. by apply prefix_iterator_elem.
  - intros (k&Hk). exists (k, g). split; [done|]. by apply prefix_iterator_elem.
Qed.

Lemma iterated_NoDup (s : Store) (p : string) (key : AccAddress → string) :
  (∀ k g, s !! k = Some g → HasPrefix k p = true → k = key (g_Address g)) →
  NoDup ((λ g, key (g_Address g)) <$> (prefix_iterator s p).*2).
Proof.
  intros Hk. assert (E : (λ g, key (g_Address g)) <$> (prefix_iterator s p).*2 = (prefix_iterator s p).*1).
  { rewrite <-list_fmap_compose. apply list_fmap_ext. intros i [k g] Hi. simpl. symmetry.
    apply list_elem_of_lookup_2, prefix_iterator_elem in Hi as [Hs Hp]. by apply Hk. }
  rewrite E. apply prefix_iterator_NoDup.
Qed.

(** The guardians a chain exports are the ones it starts with again. *)
Theorem guardian_genesis_roundtrip (s : Store) (Hw : store_wf s) :
  InitGenesis (ExportGenesis s) ∅ = (Ok tt, s).
Proof.
  unfold InitGenesis, ExportGenesis, AddProfiler, AddTrustee, ProfilersIterator, TrusteesIterator, bind. simpl.
  rewrite put_all_run, put_all_run. f_equal.
  assert (HP : ∀ k g, s !! k = Some g → HasPrefix k profilerKey = true → k = GetProfilerKey (g_Address g)).
  { intros k g Hk Hp. by destruct (Hw _ _ Hk) as [->| ->]. }
  assert (HT : ∀ k g, s !! k = Some g → HasPrefix k trusteeKey = true → k = GetTrusteeKey (g_Address g)).
  { intros k g Hk Hp. by destruct (Hw _ _ Hk) as [->| ->]. }
  apply map_eq. intros k. apply option_eq. intros g.
  rewrite put_all_lookup by (by apply iterated_NoDup). rewrite put_all_lookup by (by apply iterated_NoDup).
  rewrite !iterated, lookup_empty. split.
  - intros [[(k'&Hk'&Hp) <-]|[_ [[(k'&Hk'&Hp) <-]|[_ ?]]]]; [by rewrite <-(HT _ _ Hk' Hp)|by rewrite <-(HP _ _ Hk' Hp)|done].
  - intros Hk. destruct (Hw _ _ Hk) as [->| ->].
    + right. split; [|left; split; [|done]; exists (GetProfilerKey (g_Address g)); split; [done|apply HasPrefix_app]].
      intros ([k' g']&Hg&Hin)%list_elem_of_fmap. done.
    + left. split; [|done]. exists (GetTrusteeKey (g_Address g)). split; [done|apply HasPrefix_app].
Qed.
Lemma guardian_genesis_roundtrip_witness : InitGenesis (ExportGenesis ex_store) ∅ = (Ok tt, ex_store).
Proof.
  apply guardian_genesis_roundtrip. unfold ex_store. intros k g [<- <-]%lookup_singleton_Some. by left.
Defined.

(** A message is carried out exactly when its operator is a guardian of genesis of
    the kind it names and the guardian it adds is new, or the one it removes exists
    and is not of genesis; otherwise it fails and nothing changes. *)
Theorem Handler_exact (msg : GuardianMsg) (s : Store) :
  (allowed msg s ∧ Handler msg s = (Ok tt, effect msg s)) ∨
  (¬ allowed msg s ∧ ∃ e, Handler msg s = (Err e, s) ∧ code e ≠ 0).
Proof.
  destruct (Handler msg s) as [o s'] eqn:E.
  destruct (Handler_spec _ _ _ _ E) as [(->&Hal&->)|(e&->&He&Hal&->)]; [by left|right]. eauto.
Qed.
End Guardian.
