(* ===== verification/Service.v ===== *)
(** * Methods of an interface description (tools/protoidl/parse.go)

    The text is parsed by the library emicklei/proto, a parameter; what the code
    reads of its result is the number of top-level elements, the methods and the
    messages in the order of the walk, and the lines of the comment of a method. *)

From Stdlib Require Import Ascii.
From S2P Require Import Prelude GoStrings SdkErrors IntType Denom Coin Dec KVStore Auth StdTx.
#[local] Open Scope Z_scope.

Record RPC := mkRPC { rpc_Name : string; rpc_Comment : option (list string) }.
Record ProtoDefinition := mkProto { Elements : nat; RPCs : list RPC; Messages : list string }.
Record Method := mkMethod { mth_Name : string; mth_Attributes : gmap string string }.

Definition maxElements : nat := 200.

(** [strings.Index]: the first position of a substring. *)
Fixpoint index_chars (sub l : list ascii) : option nat :=
  if bool_decide (sub `prefix_of` l) then Some 0%nat
  else match l with [] => None | _ :: l => S <$> index_chars sub l end.
(** [strings.SplitN(_, ":", 2)]: the parts around the first colon. *)
Fixpoint split_colon (l : list ascii) : option (list ascii * list ascii) :=
  match l with
  | [] => None
  | c :: l => if bool_decide (c = ":"%char) then Some ([], l)
              else match split_colon l with Some (a, b) => Some (c :: a, b) | None => None end
  end.

Definition attribute_mark : string := "@Attribute".
(** One line: nothing, an attribute, or an error. *)
Definition line_attribute (line : string) : option (option (string * string)) :=
  match index_chars (chars attribute_mark) (chars line) with
  | None => Some None
  | Some index =>
      match split_colon (drop (index + 10) (chars line)) with
      | None => None
      | Some (k, v) =>
          let key := str (filter (λ c, c ≠ " "%char) k) in
          let value := TrimSpace (str v) in
          if bool_decide (key = "") then None else
          if bool_decide (value = "") then None else Some (Some (key, value))
      end
  end.
Fixpoint transferComment (attributes : gmap string string) (lines : list string) : option (gmap string string) :=
  match lines with
  | [] => Some attributes
  | line :: lines =>
      match line_attribute line with
      | None => None
      | Some None => transferComment attributes lines
      | Some (Some (key, value)) => transferComment (<[key:=value]> attributes) lines
      end
  end.

Definition rpc_method (r : RPC) : option Method :=
  match rpc_Comment r with
  | None => Some (mkMethod (rpc_Name r) ∅)
  | Some lines => mkMethod (rpc_Name r) <$> transferComment ∅ lines
  end.

Section idl.
Variable Parse : string → option ProtoDefinition.

Definition ValidateProto (content : string) : bool := bool_decide (is_Some (Parse content)).

(** The methods of the description, or an error. *)
Definition GetMethods (content : string) : option (list Method) :=
  match Parse content with
  | None => None
  | Some definition =>
      if (maxElements <? Elements definition)%nat then None else
      if negb (bool_decide (NoDup (rpc_Name <$> RPCs definition))) then None else
      if negb (bool_decide (NoDup (Messages definition))) then None else
      mapM rpc_method (RPCs definition)
  end.
End idl.

(** * Services: data, messages and keys (app/v1/service)

    A service is defined by its interface, bound by providers with prices and a
    deposit, called by consumers who pay the price, and answered by the provider.
    This file has the types, the checks of the messages, the parameters and the
    keys of the store. *)
Module Service.
(** ** Errors (error.go) *)
Definition DefaultCodespace : string := "service".
Inductive ServiceCode :=
| CodeInvalidIDL | CodeSvcDefExists | CodeSvcDefNotExists | CodeInvalidOutputPrivacyEnum
| CodeInvalidOutputCachedEnum | CodeInvalidServiceName | CodeInvalidChainId | CodeInvalidAuthor
| CodeInvalidMethodName | CodeSvcBindingExists | CodeSvcBindingNotExists | CodeInvalidDefChainId
| CodeInvalidBindingType | CodeInvalidLevel | CodeInvalidPriceCount | CodeInvalidRefundDeposit
| CodeLtMinProviderDeposit | CodeInvalidDisable | CodeInvalidEnable | CodeMethodNotExists
| CodeRequestNotActive | CodeReturnFeeNotExists | CodeWithdrawFeeNotExists | CodeLtServiceFee
| CodeInvalidReqId | CodeSvcBindingNotAvailable | CodeNotMatchingProvider | CodeInvalidReqChainId
| CodeInvalidBindChainId | CodeNotMatchingReqChainID | CodeIntOverflow | CodeInvalidInput.
Definition code_num (c : ServiceCode) : Z :=
  match c with
  | CodeInvalidIDL => 100 | CodeSvcDefExists => 101 | CodeSvcDefNotExists => 102
  | CodeInvalidOutputPrivacyEnum => 103 | CodeInvalidOutputCachedEnum => 104
  | CodeInvalidServiceName => 105 | CodeInvalidChainId => 106 | CodeInvalidAuthor => 107
  | CodeInvalidMethodName => 108 | CodeSvcBindingExists => 109 | CodeSvcBindingNotExists => 110
  | CodeInvalidDefChainId => 111 | CodeInvalidBindingType => 112 | CodeInvalidLevel => 113
  | CodeInvalidPriceCount => 114 | CodeInvalidRefundDeposit => 115 | CodeLtMinProviderDeposit => 116
  | CodeInvalidDisable => 117 | CodeInvalidEnable => 118 | CodeMethodNotExists => 119
  | CodeRequestNotActive => 120 | CodeReturnFeeNotExists => 121 | CodeWithdrawFeeNotExists => 122
  | CodeLtServiceFee => 123 | CodeInvalidReqId => 124 | CodeSvcBindingNotAvailable => 125
  | CodeNotMatchingProvider => 126 | CodeInvalidReqChainId => 127 | CodeInvalidBindChainId => 128
  | CodeNotMatchingReqChainID => 129 | CodeIntOverflow => 130 | CodeInvalidInput => 131
  end.
Definition service_err (c : ServiceCode) : Error := NewError DefaultCodespace (code_num c).

(** ** Definitions (definition.go) *)
Record SvcDef := NewSvcDef {
  sd_Name : string; sd_ChainId : string; sd_Description : string; sd_Tags : list string;
  sd_Author : AccAddress; sd_AuthorDescription : string; sd_IDLContent : string }.
Inductive OutputPrivacyEnum := NoPrivacy | PubKeyEncryption | OtherPrivacy.
Inductive OutputCachedEnum := OffChainCached | NoCached | OtherCached.
Record MethodProperty := mkMethodProperty {
  mp_ID : Z; mp_Name : string; mp_Description : string;
  mp_OutputPrivacy : OutputPrivacyEnum; mp_OutputCached : OutputCachedEnum }.

(** The value for an invalid text is that of the byte 0xff. *)
Definition OutputCachedEnumFromString (s : string) : OutputCachedEnum * bool :=
  if bool_decide (s = "OffChainCached") then (OffChainCached, true) else
  if bool_decide (s = "NoCached") then (NoCached, true) else (OtherCached, false).
Definition OutputPrivacyEnumFromString (s : string) : OutputPrivacyEnum * bool :=
  if bool_decide (s = "NoPrivacy") then (NoPrivacy, true) else
  if bool_decide (s = "PubKeyEncryption") then (PubKeyEncryption, true) else (OtherPrivacy, false).

Definition outputPrivacy : string := "output_privacy".
Definition outputCached : string := "output_cached".
Definition description : string := "description".

Fixpoint validateMethods (methods : list Method) : Outcome unit :=
  match methods with
  | [] => Ok tt
  | method :: methods =>
      if bool_decide (str_len (mth_Name method) = 0%nat) then Err (service_err CodeInvalidMethodName) else
      if match mth_Attributes method !! outputPrivacy with
         | Some v => negb (OutputPrivacyEnumFromString v).2 | None => false end
      then Err (service_err CodeInvalidOutputPrivacyEnum) else
      if match mth_Attributes method !! outputCached with
         | Some v => negb (OutputCachedEnumFromString v).2 | None => false end
      then Err (service_err CodeInvalidOutputCachedEnum) else validateMethods methods
  end.

(** [int16(_)]. *)
Definition wrap_int16 (z : Z) : Z := (z + 2^15) mod 2^16 - 2^15.

(** The error of an invalid [output_cached] is looked for in the wrong variable and
    never found. *)
Definition methodToMethodProperty (index : Z) (method : Method) : Outcome MethodProperty :=
  let attr := mth_Attributes method in
  let? opp := match attr !! outputPrivacy with
              | Some v => let '(e, ok) := OutputPrivacyEnumFromString v in
                          if ok : bool then Ok e else Err (service_err CodeInvalidOutputPrivacyEnum)
              | None => Ok NoPrivacy end in
  let opc := match attr !! outputCached with Some v => (OutputCachedEnumFromString v).1 | None => NoCached end in
  Ok (mkMethodProperty (wrap_int16 index) (mth_Name method) (default "" (attr !! description)) opp opc).

(** ** Bindings (binding.go); times are in nanoseconds since 1970 *)
Record Level := mkLevel { AvgRspTime : Z; UsableTime : Z }.
Inductive BindingType := UnsetBinding | Global | Local | OtherBinding (b : Z).
#[export] Instance BindingType_eq_dec : EqDecision BindingType.
Proof. solve_decision. Defined.
Record SvcBinding := mkBinding {
  sb_DefName : string; sb_DefChainID : string; sb_BindChainID : string; sb_Provider : AccAddress;
  sb_BindingType : BindingType; sb_Deposit : Coins; sb_Prices : list Coin; sb_Level : Level;
  sb_Available : bool; sb_DisableTime : Z }.
(** [time.Time{}], the first instant of year 1. *)
Definition zero_time : Z := - 62135596800 * 10^9.
Definition zero_SvcBinding : SvcBinding :=
  mkBinding "" "" "" "" UnsetBinding [] [] (mkLevel 0 0) false zero_time.
Definition NewSvcBinding (blockTime : Z) (defChainID defName bindChainID : string) (provider : AccAddress)
    (bindingType : BindingType) (deposit : Coins) (prices : list Coin) (level : Level) (available : bool) : SvcBinding :=
  mkBinding defName defChainID bindChainID provider bindingType deposit prices level available blockTime.

Definition validLevel (lv : Level) : bool := (0 <? AvgRspTime lv) && (0 <? UsableTime lv) && (UsableTime lv <=? 10000).
Definition validUpdateLevel (lv : Level) : bool :=
  negb (AvgRspTime lv <? 0) && negb ((UsableTime lv <? 0) || (10000 <? UsableTime lv)).
Definition validBindingType (bt : BindingType) : bool :=
  match bt with Local | Global => true | _ => false end.

(** ** Requests and responses (invocation.go) *)
Record SvcRequest := mkRequest {
  sr_DefChainID : string; sr_DefName : string; sr_BindChainID : string; sr_ReqChainID : string;
  sr_MethodID : Z; sr_Provider : AccAddress; sr_Consumer : AccAddress; sr_Input : string;
  sr_ServiceFee : Coins; sr_Profiling : bool;
  sr_RequestHeight : Z; sr_RequestIntraTxCounter : Z; sr_ExpirationHeight : Z }.
Definition NewSvcRequest (defChainID defName bindChainID reqChainID : string) (consumer provider : AccAddress)
    (methodID : Z) (input : string) (serviceFee : Coins) (profiling : bool) : SvcRequest :=
  mkRequest defChainID defName bindChainID reqChainID methodID provider consumer input serviceFee profiling 0 0 0.
Definition RequestID (req : SvcRequest) : string :=
  str (int_text (sr_ExpirationHeight req)) +:+ "-" +:+ str (int_text (sr_RequestHeight req)) +:+ "-" +:+
  str (int_text (sr_RequestIntraTxCounter req)).

(** The heights and the counter, and whether with an error. *)
Definition ConvertRequestID (requestId : string) : (Z * Z * Z) * bool :=
  match Split requestId "-"%char with
  | [e; r; c] =>
      let '(eHeight, err) := ParseInt64 e in
      if err : bool then (eHeight, 0, 0, true) else
      let '(rHeight, err) := ParseInt64 r in
      if err : bool then (eHeight, rHeight, 0, true) else
      let '(counterInt, err) := ParseInt64 c in
      if err : bool then (eHeight, rHeight, 0, true) else (eHeight, rHeight, wrap_int16 counterInt, false)
  | _ => (0, 0, 0, true)
  end.

Record SvcResponse := NewSvcResponse {
  sp_ReqChainID : string; sp_ExpirationHeight : Z; sp_RequestHeight : Z; sp_RequestIntraTxCounter : Z;
  sp_Provider : AccAddress; sp_Consumer : AccAddress; sp_Output : string; sp_ErrorMsg : string }.
Record ReturnedFee := NewReturnedFee { rf_Address : AccAddress; rf_Coins : Coins }.
Record IncomingFee := NewIncomingFee { if_Address : AccAddress; if_Coins : Coins }.

(** ** Messages (msgs.go) *)
Record MsgSvcBind := mkBind {
  bd_DefName : string; bd_DefChainID : string; bd_BindChainID : string; bd_Provider : AccAddress;
  bd_BindingType : BindingType; bd_Deposit : Coins; bd_Prices : list Coin; bd_Level : Level }.
Record MsgSvcKey := mkKey { ky_DefName : string; ky_DefChainID : string; ky_BindChainID : string; ky_Provider : AccAddress }.
Record MsgSvcEnable := mkEnable { en_Key : MsgSvcKey; en_Deposit : Coins }.
Record MsgSvcRequest := mkMsgRequest {
  mr_DefChainID : string; mr_DefName : string; mr_BindChainID : string; mr_ReqChainID : string;
  mr_MethodID : Z; mr_Provider : AccAddress; mr_Consumer : AccAddress; mr_Input : string;
  mr_ServiceFee : Coins; mr_Profiling : bool }.
Record MsgSvcResponse := mkMsgResponse {
  ms_ReqChainID : string; ms_RequestID : string; ms_Provider : AccAddress; ms_Output : string; ms_ErrorMsg : string }.
Record MsgSvcWithdrawTax := mkWithdrawTax { wt_Trustee : AccAddress; wt_DestAddress : AccAddress; wt_Amount : Coins }.

(** The messages of disabling and of refunding a deposit have the same fields, as
    have those of binding and of updating a binding. *)
Inductive ServiceMsg :=
| SvcDefMsg (m : SvcDef)
| SvcBindMsg (m : MsgSvcBind)
| SvcBindingUpdateMsg (m : MsgSvcBind)
| SvcDisableMsg (m : MsgSvcKey)
| SvcEnableMsg (m : MsgSvcEnable)
| SvcRefundDepositMsg (m : MsgSvcKey)
| SvcRequestMsg (m : MsgSvcRequest)
| SvcResponseMsg (m : MsgSvcResponse)
| SvcRefundFeesMsg (consumer : AccAddress)
| SvcWithdrawFeesMsg (provider : AccAddress)
| SvcWithdrawTaxMsg (m : MsgSvcWithdrawTax)
| OtherMsg.

Definition guard (b : bool) (e : Error) : Outcome unit := if b then Ok tt else Err e.
Definition nonempty (s : string) : bool := negb (bool_decide (str_len s = 0%nat)).
Definition ErrInvalidLength : Error := service_err CodeInvalidInput.

(** Only letters, digits, _ and - are accepted. *)
Definition name_char (c : ascii) : bool :=
  is_upper c || is_lower c || is_digit c || bool_decide (c = "_"%char) || bool_decide (c = "-"%char).
Definition validServiceName (name : string) : bool :=
  negb (bool_decide (str_len name = 0%nat) || (128 <? str_len name)%nat) && forallb name_char (chars name).
Definition ensureNameLength (name : string) : Outcome unit := guard (str_len name <=? 70)%nat ErrInvalidLength.
Definition ensureChainIdLength (chainId : string) : Outcome unit := guard (str_len chainId <=? 50)%nat ErrInvalidLength.
Definition EnsureLength (msg : SvcDef) : Outcome unit :=
  let? _ := ensureNameLength (sd_Name msg) in
  let? _ := ensureChainIdLength (sd_ChainId msg) in
  let? _ := guard (str_len (sd_Description msg) <=? 280)%nat ErrInvalidLength in
  let? _ := guard (length (sd_Tags msg) <=? 10)%nat ErrInvalidLength in
  let? _ := guard (forallb (λ tag, str_len tag <=? 70)%nat (sd_Tags msg)) ErrInvalidLength in
  guard (str_len (sd_AuthorDescription msg) <=? 280)%nat ErrInvalidLength.

Section validate.
Variable Parse : string → option ProtoDefinition.

Definition MsgSvcDef_ValidateBasic (msg : SvcDef) : Outcome unit :=
  let? _ := guard (nonempty (sd_ChainId msg)) (service_err CodeInvalidChainId) in
  let? _ := guard (validServiceName (sd_Name msg)) (service_err CodeInvalidServiceName) in
  let? _ := guard (nonempty (sd_Author msg)) (service_err CodeInvalidAuthor) in
  let? _ := guard (nonempty (sd_IDLContent msg)) (service_err CodeInvalidIDL) in
  let? _ := EnsureLength msg in
  match GetMethods Parse (sd_IDLContent msg) with
  | None => Err (service_err CodeInvalidIDL)
  | Some methods => validateMethods methods
  end.

(** The checks of the chain ids and the name that most messages begin with. *)
Definition validate_key (defChainID bindChainID defName : string) : Outcome unit :=
  let? _ := guard (nonempty defChainID) (service_err CodeInvalidDefChainId) in
  let? _ := guard (nonempty bindChainID) (service_err CodeInvalidChainId) in
  let? _ := ensureChainIdLength defChainID in
  let? _ := ensureChainIdLength bindChainID in
  let? _ := guard (validServiceName defName) (service_err CodeInvalidServiceName) in
  ensureNameLength defName.
Definition validate_prices (prices : list Coin) : Outcome unit :=
  guard (forallb Coin_IsValidIrisAtto prices) ErrInvalidCoins.
Definition MsgSvcBind_ValidateBasic (msg : MsgSvcBind) : Outcome unit :=
  let? _ := validate_key (bd_DefChainID msg) (bd_BindChainID msg) (bd_DefName msg) in
  let? _ := guard (validBindingType (bd_BindingType msg)) (service_err CodeInvalidBindingType) in
  let? _ := guard (nonempty (bd_Provider msg)) ErrInvalidAddress in
  let? _ := guard (Coins_IsValidIrisAtto (bd_Deposit msg)) ErrInvalidCoins in
  let? _ := validate_prices (bd_Prices msg) in
  guard (validLevel (bd_Level msg)) (service_err CodeInvalidLevel).
Definition MsgSvcBindingUpdate_ValidateBasic (msg : MsgSvcBind) : Outcome unit :=
  let? _ := validate_key (bd_DefChainID msg) (bd_BindChainID msg) (bd_DefName msg) in
  let? _ := guard (nonempty (bd_Provider msg)) ErrInvalidAddress in
  let? _ := guard (bool_decide (bd_BindingType msg = UnsetBinding) || validBindingType (bd_BindingType msg))
              (service_err CodeInvalidBindingType) in
  let? _ := guard (Coins_IsValidIrisAtto (bd_Deposit msg)) ErrInvalidCoins in
  let? _ := validate_prices (bd_Prices msg) in
  guard (validUpdateLevel (bd_Level msg)) (service_err CodeInvalidLevel).
Definition MsgSvcKey_ValidateBasic (msg : MsgSvcKey) : Outcome unit :=
  let? _ := validate_key (ky_DefChainID msg) (ky_BindChainID msg) (ky_DefName msg) in
  guard (nonempty (ky_Provider msg)) ErrInvalidAddress.
Definition MsgSvcEnable_ValidateBasic (msg : MsgSvcEnable) : Outcome unit :=
  let k := en_Key msg in
  let? _ := validate_key (ky_DefChainID k) (ky_BindChainID k) (ky_DefName k) in
  let? _ := guard (Coins_IsValidIrisAtto (en_Deposit msg)) ErrInvalidCoins in
  guard (nonempty (ky_Provider k)) ErrInvalidAddress.
Definition MsgSvcRequest_ValidateBasic (msg : MsgSvcRequest) : Outcome unit :=
  let? _ := guard (nonempty (mr_DefChainID msg)) (service_err CodeInvalidDefChainId) in
  let? _ := guard (nonempty (mr_BindChainID msg)) (service_err CodeInvalidBindChainId) in
  let? _ := guard (nonempty (mr_ReqChainID msg)) (service_err CodeInvalidChainId) in
  let? _ := ensureChainIdLength (mr_DefChainID msg) in
  let? _ := ensureChainIdLength (mr_BindChainID msg) in
  let? _ := ensureChainIdLength (mr_ReqChainID msg) in
  let? _ := guard (validServiceName (mr_DefName msg)) (service_err CodeInvalidServiceName) in
  let? _ := ensureNameLength (mr_DefName msg) in
  let? _ := guard (nonempty (mr_Provider msg)) ErrInvalidAddress in
  let? _ := guard (nonempty (mr_Consumer msg)) ErrInvalidAddress in
  guard (Coins_IsValidIrisAtto (mr_ServiceFee msg)) ErrInvalidCoins.
Definition MsgSvcResponse_ValidateBasic (msg : MsgSvcResponse) : Outcome unit :=
  let? _ := guard (nonempty (ms_ReqChainID msg)) (service_err CodeInvalidReqChainId) in
  let? _ := ensureChainIdLength (ms_ReqChainID msg) in
  let? _ := guard (nonempty (ms_Provider msg)) ErrInvalidAddress in
  guard (negb (ConvertRequestID (ms_RequestID msg)).2) (service_err CodeInvalidReqId).
Definition MsgSvcWithdrawTax_ValidateBasic (msg : MsgSvcWithdrawTax) : Outcome unit :=
  let? _ := guard (nonempty (wt_Trustee msg)) ErrInvalidAddress in
  let? _ := guard (nonempty (wt_DestAddress msg)) ErrInvalidAddress in
  guard (Coins_IsValidIrisAtto (wt_Amount msg)) ErrInvalidCoins.

Definition ValidateBasic (msg : ServiceMsg) : Outcome unit :=
  match msg with
  | SvcDefMsg m => MsgSvcDef_ValidateBasic m
  | SvcBindMsg m => MsgSvcBind_ValidateBasic m
  | SvcBindingUpdateMsg m => MsgSvcBindingUpdate_ValidateBasic m
  | SvcDisableMsg m => MsgSvcKey_ValidateBasic m
  | SvcEnableMsg m => MsgSvcEnable_ValidateBasic m
  | SvcRefundDepositMsg m => MsgSvcKey_ValidateBasic m
  | SvcRequestMsg m => MsgSvcRequest_ValidateBasic m
  | SvcResponseMsg m => MsgSvcResponse_ValidateBasic m
  | SvcRefundFeesMsg a => guard (nonempty a) ErrInvalidAddress
  | SvcWithdrawFeesMsg a => guard (nonempty a) ErrInvalidAddress
  | SvcWithdrawTaxMsg m => MsgSvcWithdrawTax_ValidateBasic m
  | OtherMsg => Ok tt
  end.
End validate.
Definition GetSigners (msg : ServiceMsg) : list AccAddress :=
  match msg with
  | SvcDefMsg m => [sd_Author m]
  | SvcBindMsg m | SvcBindingUpdateMsg m => [bd_Provider m]
  | SvcDisableMsg m | SvcRefundDepositMsg m => [ky_Provider m]
  | SvcEnableMsg m => [ky_Provider (en_Key m)]
  | SvcRequestMsg m => [mr_Consumer m]
  | SvcResponseMsg m => [ms_Provider m]
  | SvcRefundFeesMsg a | SvcWithdrawFeesMsg a => [a]
  | SvcWithdrawTaxMsg m => [wt_Trustee m]
  | OtherMsg => []
  end.

(** ** Parameters (params.go); durations are in nanoseconds *)
Record Params := mkParams {
  MaxRequestTimeout : Z; MinDepositMultiple : Z; ServiceFeeTax : Dec; SlashFraction : Dec;
  ComplaintRetrospect : Z; ArbitrationTimeLimit : Z; ServiceTxSizeLimit : Z }.
Definition Second : Z := 10^9.
Definition Day : Z := 24 * 3600 * Second.
Definition DefaultParams : Params :=
  mkParams 100 1000 (10^8) (10^7) (15 * Day) (5 * Day) 4000.
Definition params_err (c : Z) : Error := NewError params_DefaultCodespace c.

Section params.
(** Whether [sdk.NetworkType] is the main network. *)
Variable mainnet : bool.
Definition validateMaxRequestTimeout (v : Z) : Outcome unit :=
  guard (negb (v <? (if mainnet then 20 else 5))) (params_err 200).
Definition validateMinDepositMultiple (v : Z) : Outcome unit :=
  guard (negb ((v <? (if mainnet then 500 else 10)) || (5000 <? v))) (params_err 201).
Definition validateSlashFraction (v : Dec) : Outcome unit :=
  let? hi := NewDecWithPrec 1 2 in guard (negb (Dec_LTE v ZeroDec || Dec_GT v hi)) (params_err 203).
Definition validateServiceFeeTax (v : Dec) : Outcome unit :=
  let? hi := NewDecWithPrec 2 1 in guard (negb (Dec_LTE v ZeroDec || Dec_GT v hi)) (params_err 202).
Definition validateComplaintRetrospect (v : Z) : Outcome unit :=
  guard (negb (if mainnet then (v <? 15 * Day) || (30 * Day <? v) else v <? 20 * Second)) (params_err 205).
Definition validateArbitrationTimeLimit (v : Z) : Outcome unit :=
  guard (negb (if mainnet then (v <? 5 * Day) || (10 * Day <? v) else v <? 20 * Second)) (params_err 204).
Definition validateTxSizeLimit (v : Z) : Outcome unit :=
  guard (negb ((v <? 2000) || (6000 <? v))) (params_err 206).
Definition validateParams (p : Params) : Outcome unit :=
  let? _ := validateMaxRequestTimeout (MaxRequestTimeout p) in
  let? _ := validateMinDepositMultiple (MinDepositMultiple p) in
  let? _ := validateSlashFraction (SlashFraction p) in
  let? _ := validateServiceFeeTax (ServiceFeeTax p) in
  let? _ := validateComplaintRetrospect (ComplaintRetrospect p) in
  let? _ := validateArbitrationTimeLimit (ArbitrationTimeLimit p) in
  validateTxSizeLimit (ServiceTxSizeLimit p).
End params.

(** ** Keys (keeper_keys.go); the stores of the prefixes are separate maps *)
(** [string(_)] of an integer: the UTF-8 encoding of a code point, that of U+FFFD
    where there is none. *)
Definition byte_char (n : Z) : ascii := Ascii.ascii_of_N (Z.to_N n).
Definition rune_string (n : Z) : string :=
  let cont k := byte_char (128 + Z.land (Z.shiftr n k) 63) in
  let bad := str [byte_char 239; byte_char 191; byte_char 189] in
  if (n <? 0) || (1114111 <? n) || ((55296 <=? n) && (n <=? 57343)) then bad else
  if n <=? 127 then str [byte_char n] else
  if n <=? 2047 then str [byte_char (192 + Z.shiftr n 6); cont 0] else
  if n <=? 65535 then str [byte_char (224 + Z.shiftr n 12); cont 6; cont 0] else
  str [byte_char (240 + Z.shiftr n 18); cont 12; cont 6; cont 0].

Definition emptyByte : string := str [byte_char 0].
(** The strings with a zero byte between them. *)
Fixpoint getStringsKey (ss : list string) : string :=
  match ss with
  | [] => ""
  | [s] => s
  | s :: ss => s +:+ emptyByte +:+ getStringsKey ss
  end.
Definition GetServiceDefinitionKey (chainId name : string) : string := getStringsKey [chainId; name].
Definition GetMethodPropertyKey (chainId serviceName : string) (id : Z) : string :=
  getStringsKey [chainId; serviceName; rune_string id].
Definition GetMethodsSubspaceKey (chainId serviceName : string) : string :=
  getStringsKey [chainId; serviceName] +:+ emptyByte.
Definition GetResponseKey (reqChainId : string) (eHeight rHeight counter : Z) : string :=
  getStringsKey [reqChainId; rune_string eHeight; rune_string rHeight; rune_string counter].
Definition Uint16ToBigEndian (x : Z) : string := str [byte_at 1 x; byte_at 0 x].
Definition GetRequestsByExpirationPrefix (height : Z) : string := Uint64ToBigEndian (wrap64 height).
Definition GetRequestsByExpirationIndexKey (eHeight rHeight counter : Z) : string :=
  GetRequestsByExpirationPrefix eHeight +:+ Uint64ToBigEndian (wrap64 rHeight) +:+ Uint16ToBigEndian (counter mod 2^16).
Definition GetRequestsByExpirationIndexKeyByReq (req : SvcRequest) : string :=
  GetRequestsByExpirationIndexKey (sr_ExpirationHeight req) (sr_RequestHeight req) (sr_RequestIntraTxCounter req).

Section keys.
(** The bech32 text of an address. *)
Variable acc_String : AccAddress → string.
Definition GetServiceBindingKey (defChainId name bindChainId : string) (provider : AccAddress) : string :=
  getStringsKey [defChainId; name; bindChainId; acc_String provider].
Definition GetBindingsSubspaceKey (chainId serviceName : string) : string :=
  getStringsKey [chainId; serviceName] +:+ emptyByte.
Definition GetActiveRequestKey (defChainId serviceName bindChainId : string) (provider : AccAddress) (height counter : Z) : string :=
  getStringsKey [defChainId; serviceName; bindChainId; acc_String provider; rune_string height; rune_string counter].
Definition GetSubActiveRequestKey (defChainId serviceName bindChainId : string) (provider : AccAddress) : string :=
  getStringsKey [defChainId; serviceName; bindChainId; acc_String provider] +:+ emptyByte.
End keys.
End Service.
