(* ===== verification/ServiceKeeper.v ===== *)
(** * Services: keeper, handlers and the end of a block (app/v1/service)

    The deposits of providers, the fees of open requests with those to be paid out,
    and the tax are in three accounts of the module. *)

From Stdlib Require Import Ascii.
From S2P Require Import Prelude SdkErrors IntType GoStrings Denom Coin CoinFacts Dec Gas KVStore Auth Bank BankFacts BankFrame StdTx Guardian Service.
#[local] Open Scope Z_scope.

Module ServiceKeeper.
Import Service.

Record ServiceState := mkService {
  sv_auth : AuthState;
  sv_guardian : Guardian.Store;
  definitions : gmap string SvcDef;
  methods : gmap string MethodProperty;
  bindings : gmap string SvcBinding;
  requests : gmap string SvcRequest;
  responses : gmap string SvcResponse;
  expirations : gmap string SvcRequest;
  intraTxCounter : option Z;
  activeRequests : gmap string SvcRequest;
  returnedFees : gmap AccAddress ReturnedFee;
  incomingFees : gmap AccAddress IncomingFee;
  sv_params : Params }.
Abbreviation MS := (M ServiceState).
Definition set_auth (a : AuthState) (s : ServiceState) : ServiceState :=
  mkService a (sv_guardian s) (definitions s) (methods s) (bindings s) (requests s) (responses s) (expirations s)
    (intraTxCounter s) (activeRequests s) (returnedFees s) (incomingFees s) (sv_params s).
Definition set_definitions f (s : ServiceState) : ServiceState :=
  mkService (sv_auth s) (sv_guardian s) (f (definitions s)) (methods s) (bindings s) (requests s) (responses s) (expirations s)
    (intraTxCounter s) (activeRequests s) (returnedFees s) (incomingFees s) (sv_params s).
Definition set_methods f (s : ServiceState) : ServiceState :=
  mkService (sv_auth s) (sv_guardian s) (definitions s) (f (methods s)) (bindings s) (requests s) (responses s) (expirations s)
    (intraTxCounter s) (activeRequests s) (returnedFees s) (incomingFees s) (sv_params s).
Definition set_bindings f (s : ServiceState) : ServiceState :=
  mkService (sv_auth s) (sv_guardian s) (definitions s) (methods s) (f (bindings s)) (requests s) (responses s) (expirations s)
    (intraTxCounter s) (activeRequests s) (returnedFees s) (incomingFees s) (sv_params s).
Definition set_requests f (s : ServiceState) : ServiceState :=
  mkService (sv_auth s) (sv_guardian s) (definitions s) (methods s) (bindings s) (f (requests s)) (responses s) (expirations s)
    (intraTxCounter s) (activeRequests s) (returnedFees s) (incomingFees s) (sv_params s).
Definition set_responses f (s : ServiceState) : ServiceState :=
  mkService (sv_auth s) (sv_guardian s) (definitions s) (methods s) (bindings s) (requests s) (f (responses s)) (expirations s)
    (intraTxCounter s) (activeRequests s) (returnedFees s) (incomingFees s) (sv_params s).
Definition set_expirations f (s : ServiceState) : ServiceState :=
  mkService (sv_auth s) (sv_guardian s) (definitions s) (methods s) (bindings s) (requests s) (responses s) (f (expirations s))
    (intraTxCounter s) (activeRequests s) (returnedFees s) (incomingFees s) (sv_params s).
Definition set_counter c (s : ServiceState) : ServiceState :=
  mkService (sv_auth s) (sv_guardian s) (definitions s) (methods s) (bindings s) (requests s) (responses s) (expirations s)
    c (activeRequests s) (returnedFees s) (incomingFees s) (sv_params s).
Definition set_activeRequests f (s : ServiceState) : ServiceState :=
  mkService (sv_auth s) (sv_guardian s) (definitions s) (methods s) (bindings s) (requests s) (responses s) (expirations s)
    (intraTxCounter s) (f (activeRequests s)) (returnedFees s) (incomingFees s) (sv_params s).
Definition set_returnedFees f (s : ServiceState) : ServiceState :=
  mkService (sv_auth s) (sv_guardian s) (definitions s) (methods s) (bindings s) (requests s) (responses s) (expirations s)
    (intraTxCounter s) (activeRequests s) (f (returnedFees s)) (incomingFees s) (sv_params s).
Definition set_incomingFees f (s : ServiceState) : ServiceState :=
  mkService (sv_auth s) (sv_guardian s) (definitions s) (methods s) (bindings s) (requests s) (responses s) (expirations s)
    (intraTxCounter s) (activeRequests s) (returnedFees s) (f (incomingFees s)) (sv_params s).
Definition set_params (p : Params) (s : ServiceState) : ServiceState :=
  mkService (sv_auth s) (sv_guardian s) (definitions s) (methods s) (bindings s) (requests s) (responses s) (expirations s)
    (intraTxCounter s) (activeRequests s) (returnedFees s) (incomingFees s) p.
Definition on_auth {A} (c : M AuthState A) : MS A := zoom sv_auth set_auth c.

Section keeper.
Context `{Crypto}.
Variable Parse : string → option ProtoDefinition.
Variable acc_String : AccAddress → string.

(** ** Definitions (keeper.go) *)
Definition AddServiceDefinition (svcDef : SvcDef) : MS unit :=
  modify (set_definitions (insert (GetServiceDefinitionKey (sd_ChainId svcDef) (sd_Name svcDef)) svcDef)).
Definition GetServiceDefinition (chainId name : string) : MS (option SvcDef) :=
  gets (λ s, definitions s !! GetServiceDefinitionKey chainId name).
Fixpoint add_methods (svcDef : SvcDef) (index : Z) (l : list Method) : MS unit :=
  match l with
  | [] => ret tt
  | method :: l =>
      p <- lift (methodToMethodProperty (index + 1) method) ;;
      modify (set_methods (insert (GetMethodPropertyKey (sd_ChainId svcDef) (sd_Name svcDef) (mp_ID p)) p)) ;;;
      add_methods svcDef (index + 1) l
  end.
Definition AddMethods (svcDef : SvcDef) : MS unit :=
  match GetMethods Parse (sd_IDLContent svcDef) with
  | None => panic "invalid idl"
  | Some l => add_methods svcDef 0 l
  end.
Definition GetMethod (chainId name : string) (id : Z) : MS (option MethodProperty) :=
  gets (λ s, methods s !! GetMethodPropertyKey chainId name id).
(** [Keeper.GetMethods]. *)
Definition service_methods (chainId name : string) (s : ServiceState) : list MethodProperty :=
  (prefix_iterator (methods s) (GetMethodsSubspaceKey chainId name)).*2.

(** ** Bindings *)
Definition binding_key (b : SvcBinding) : string :=
  GetServiceBindingKey acc_String (sb_DefChainID b) (sb_DefName b) (sb_BindChainID b) (sb_Provider b).
Definition put_binding (b : SvcBinding) : MS unit := modify (set_bindings (insert (binding_key b) b)).
Definition GetServiceBinding (defChainID defName bindChainID : string) (provider : AccAddress) : MS (option SvcBinding) :=
  gets (λ s, bindings s !! GetServiceBindingKey acc_String defChainID defName bindChainID provider).
Definition ServiceBindingsIterator (defChainID defName : string) (s : ServiceState) : list SvcBinding :=
  (prefix_iterator (bindings s) (GetBindingsSubspaceKey defChainID defName)).*2.

Definition with_deposit (b : SvcBinding) (deposit : Coins) : SvcBinding :=
  mkBinding (sb_DefName b) (sb_DefChainID b) (sb_BindChainID b) (sb_Provider b) (sb_BindingType b) deposit
    (sb_Prices b) (sb_Level b) (sb_Available b) (sb_DisableTime b).
Definition with_available (b : SvcBinding) (available : bool) (t : Z) : SvcBinding :=
  mkBinding (sb_DefName b) (sb_DefChainID b) (sb_BindChainID b) (sb_Provider b) (sb_BindingType b) (sb_Deposit b)
    (sb_Prices b) (sb_Level b) available t.
Definition with_terms (b : SvcBinding) (bt : BindingType) (prices : list Coin) (level : Level) : SvcBinding :=
  mkBinding (sb_DefName b) (sb_DefChainID b) (sb_BindChainID b) (sb_Provider b) bt (sb_Deposit b)
    prices level (sb_Available b) (sb_DisableTime b).

Fixpoint min_deposit (minDepositMultiple : Int) (minDeposit : Coins) (prices : list Coin) : Outcome Coins :=
  match prices with
  | [] => Ok minDeposit
  | price :: prices =>
      if 255 <? BitLen (amount price) + BitLen minDepositMultiple - 1 then Err (service_err CodeIntOverflow) else
      let? minInt := Int_Mul (amount price) minDepositMultiple in
      let? c := NewCoin (denom price) minInt in
      let? minDeposit := Coins_Add minDeposit [c] in
      min_deposit minDepositMultiple minDeposit prices
  end.
Definition getMinDeposit (prices : list Coin) : MS Coins :=
  params <- gets sv_params ;;
  lift (min_deposit (NewInt (MinDepositMultiple params)) [] prices).

Definition validateMethodPrices (svcBinding : SvcBinding) : MS unit :=
  l <- gets (service_methods (sb_DefChainID svcBinding) (sb_DefName svcBinding)) ;;
  require (bool_decide (length l = length (sb_Prices svcBinding))) (service_err CodeInvalidPriceCount).

(** [SendCoins] and what the caller's slice reads after it. *)
Definition send (from to : AccAddress) (amt : Coins) : MS Coins :=
  s <- get ;;
  on_auth (sendCoins from to amt) ;;;
  ret (sendCoins_amt from to amt (sv_auth s)).

Definition AddServiceBinding (svcBinding : SvcBinding) : MS unit :=
  def <- GetServiceDefinition (sb_DefChainID svcBinding) (sb_DefName svcBinding) ;;
  require (bool_decide (is_Some def)) (service_err CodeSvcDefNotExists) ;;;
  old <- GetServiceBinding (sb_DefChainID svcBinding) (sb_DefName svcBinding) (sb_BindChainID svcBinding) (sb_Provider svcBinding) ;;
  require (negb (bool_decide (is_Some old))) (service_err CodeSvcBindingExists) ;;;
  minDeposit <- getMinDeposit (sb_Prices svcBinding) ;;
  require (IsAllGTE (sb_Deposit svcBinding) minDeposit) (service_err CodeLtMinProviderDeposit) ;;;
  validateMethodPrices svcBinding ;;;
  deposit <- send (sb_Provider svcBinding) ServiceDepositCoinsAccAddr (sb_Deposit svcBinding) ;;
  put_binding (with_deposit (with_available svcBinding (sb_Available svcBinding) zero_time) deposit).

(** The deposit with [extra], and what the slice of [extra] reads after it. *)
Definition add_deposit (deposit extra : Coins) : Outcome (Coins * Coins) :=
  if IsAnyNegative extra then Ok (deposit, extra) else
  let? sum := Coins_Add deposit extra in Ok (sum, safeAdd_arrayB deposit extra).
(** Reject a deposit below the minimum; the message has the amount that is missing. *)
Definition check_deposit (prices : list Coin) (deposit extra : Coins) : MS unit :=
  minDeposit <- getMinDeposit prices ;;
  if IsAllGTE deposit minDeposit then ret tt else
  lift (let? d := Coins_Sub minDeposit deposit in Coins_Add d extra) ;;;
  throw (service_err CodeLtMinProviderDeposit).

Definition UpdateServiceBinding (svcBinding : SvcBinding) : MS unit :=
  old <- GetServiceBinding (sb_DefChainID svcBinding) (sb_DefName svcBinding) (sb_BindChainID svcBinding) (sb_Provider svcBinding) ;;
  match old with
  | None => throw (service_err CodeSvcBindingNotExists)
  | Some oldBinding =>
      (if (0 <? length (sb_Prices svcBinding))%nat then validateMethodPrices svcBinding else ret tt) ;;;
      let prices := if (0 <? length (sb_Prices svcBinding))%nat then sb_Prices svcBinding else sb_Prices oldBinding in
      let bt := if bool_decide (sb_BindingType svcBinding = UnsetBinding) then sb_BindingType oldBinding
                else sb_BindingType svcBinding in
      d <- lift (add_deposit (sb_Deposit oldBinding) (sb_Deposit svcBinding)) ;;
      let '(deposit, extra) := d in
      extra <- send (sb_Provider svcBinding) ServiceDepositCoinsAccAddr extra ;;
      let level := mkLevel
        (if AvgRspTime (sb_Level svcBinding) =? 0 then AvgRspTime (sb_Level oldBinding) else AvgRspTime (sb_Level svcBinding))
        (if UsableTime (sb_Level svcBinding) =? 0 then UsableTime (sb_Level oldBinding) else UsableTime (sb_Level svcBinding)) in
      (if sb_Available oldBinding then check_deposit prices deposit extra else ret tt) ;;;
      modify (set_bindings (insert (binding_key svcBinding) (with_deposit (with_terms oldBinding bt prices level) deposit)))
  end.

Definition Disable (blockTime : Z) (defChainID defName bindChainID : string) (provider : AccAddress) : MS unit :=
  binding <- GetServiceBinding defChainID defName bindChainID provider ;;
  match binding with
  | None => throw (service_err CodeSvcBindingNotExists)
  | Some binding =>
      require (sb_Available binding) (service_err CodeInvalidDisable) ;;;
      put_binding (with_available binding false blockTime)
  end.

Definition Enable (defChainID defName bindChainID : string) (provider : AccAddress) (deposit : Coins) : MS unit :=
  binding <- GetServiceBinding defChainID defName bindChainID provider ;;
  match binding with
  | None => throw (service_err CodeSvcBindingNotExists)
  | Some binding =>
      require (negb (sb_Available binding)) (service_err CodeInvalidEnable) ;;;
      d <- lift (add_deposit (sb_Deposit binding) deposit) ;;
      let '(total, deposit) := d in
      check_deposit (sb_Prices binding) total deposit ;;;
      send (sb_Provider binding) ServiceDepositCoinsAccAddr deposit ;;;
      put_binding (with_deposit (with_available binding true zero_time) total)
  end.

Definition RefundDeposit (blockTime : Z) (defChainID defName bindChainID : string) (provider : AccAddress) : MS unit :=
  binding <- GetServiceBinding defChainID defName bindChainID provider ;;
  match binding with
  | None => throw (service_err CodeSvcBindingNotExists)
  | Some binding =>
      require (negb (sb_Available binding)) (service_err CodeInvalidRefundDeposit) ;;;
      require (negb (Coins_IsZero (sb_Deposit binding))) (service_err CodeInvalidRefundDeposit) ;;;
      params <- gets sv_params ;;
      let refundTime := sb_DisableTime binding + ArbitrationTimeLimit params + ComplaintRetrospect params in
      require (negb (blockTime <? refundTime)) (service_err CodeInvalidRefundDeposit) ;;;
      on_auth (sendCoins ServiceDepositCoinsAccAddr (sb_Provider binding) (sb_Deposit binding)) ;;;
      put_binding (with_deposit binding [])
  end.

(** ** Requests *)
Definition GetIntraTxCounter : MS Z := gets (λ s, default 0 (intraTxCounter s)).
Definition SetIntraTxCounter (counter : Z) : MS unit := modify (set_counter (Some counter)).
Definition active_key (req : SvcRequest) : string :=
  GetActiveRequestKey acc_String (sr_DefChainID req) (sr_DefName req) (sr_BindChainID req) (sr_Provider req)
    (sr_RequestHeight req) (sr_RequestIntraTxCounter req).
Definition AddActiveRequest (req : SvcRequest) : MS unit := modify (set_activeRequests (insert (active_key req) req)).
Definition DeleteActiveRequest (req : SvcRequest) : MS unit := modify (set_activeRequests (delete (active_key req))).
Definition AddRequestExpiration (req : SvcRequest) : MS unit :=
  modify (set_expirations (insert (GetRequestsByExpirationIndexKeyByReq req) req)).
Definition DeleteRequestExpiration (req : SvcRequest) : MS unit :=
  modify (set_expirations (delete (GetRequestsByExpirationIndexKeyByReq req))).
Definition GetActiveRequest (eHeight rHeight counter : Z) : MS (option SvcRequest) :=
  gets (λ s, expirations s !! GetRequestsByExpirationIndexKey eHeight rHeight counter).
Definition ActiveBindRequestsIterator (defChainID defName bindChainID : string) (provider : AccAddress) (s : ServiceState)
    : list SvcRequest :=
  (prefix_iterator (activeRequests s) (GetSubActiveRequestKey acc_String defChainID defName bindChainID provider)).*2.
Definition ActiveRequestQueueIterator (height : Z) (s : ServiceState) : list (string * SvcRequest) :=
  prefix_iterator (expirations s) (GetRequestsByExpirationPrefix height).

Definition with_place (req : SvcRequest) (height counter expiration : Z) : SvcRequest :=
  mkRequest (sr_DefChainID req) (sr_DefName req) (sr_BindChainID req) (sr_ReqChainID req) (sr_MethodID req)
    (sr_Provider req) (sr_Consumer req) (sr_Input req) (sr_ServiceFee req) (sr_Profiling req) height counter expiration.
Definition with_fee (req : SvcRequest) (fee : Coins) : SvcRequest :=
  mkRequest (sr_DefChainID req) (sr_DefName req) (sr_BindChainID req) (sr_ReqChainID req) (sr_MethodID req)
    (sr_Provider req) (sr_Consumer req) (sr_Input req) fee (sr_Profiling req)
    (sr_RequestHeight req) (sr_RequestIntraTxCounter req) (sr_ExpirationHeight req).
Definition AddRequest (blockHeight : Z) (req : SvcRequest) : MS SvcRequest :=
  counter <- GetIntraTxCounter ;;
  SetIntraTxCounter (wrap_int16 (counter + 1)) ;;;
  params <- gets sv_params ;;
  let req := with_place req blockHeight counter (wrap_int64 (blockHeight + MaxRequestTimeout params)) in
  modify (set_requests (insert (active_key req) req)) ;;;
  fee <- send (sr_Consumer req) ServiceRequestCoinsAccAddr (sr_ServiceFee req) ;;
  let req := with_fee req fee in
  AddActiveRequest req ;;;
  AddRequestExpiration req ;;;
  ret req.

Definition response_key (resp : SvcResponse) : string :=
  GetResponseKey (sp_ReqChainID resp) (sp_ExpirationHeight resp) (sp_RequestHeight resp) (sp_RequestIntraTxCounter resp).
Definition AddResponse (resp : SvcResponse) : MS unit := modify (set_responses (insert (response_key resp) resp)).
Definition GetResponse (reqChainID : string) (eHeight rHeight counter : Z) : MS (option SvcResponse) :=
  gets (λ s, responses s !! GetResponseKey reqChainID eHeight rHeight counter).

(** ** Fees *)
Definition SetReturnFee (address : AccAddress) (coins : Coins) : MS unit :=
  modify (set_returnedFees (insert address (NewReturnedFee address coins))).
Definition GetReturnFee (address : AccAddress) : MS (option ReturnedFee) := gets (λ s, returnedFees s !! address).
Definition AddReturnFee (address : AccAddress) (coins : Coins) : MS unit :=
  fee <- GetReturnFee address ;;
  match fee with
  | None => SetReturnFee address coins
  | Some fee => c <- lift (Coins_Add (rf_Coins fee) coins) ;; SetReturnFee address c
  end.
Definition RefundFee (address : AccAddress) : MS unit :=
  fee <- GetReturnFee address ;;
  match fee with
  | None => throw (service_err CodeReturnFeeNotExists)
  | Some fee =>
      on_auth (sendCoins ServiceRequestCoinsAccAddr address (rf_Coins fee)) ;;;
      modify (set_returnedFees (delete address))
  end.
Definition SetIncomingFee (address : AccAddress) (coins : Coins) : MS unit :=
  modify (set_incomingFees (insert address (NewIncomingFee address coins))).
Definition GetIncomingFee (address : AccAddress) : MS (option IncomingFee) := gets (λ s, incomingFees s !! address).

(** The part [rate] of each coin, rounded down. *)
Fixpoint part_coins (rate : Dec) (coins : Coins) : Outcome Coins :=
  match coins with
  | [] => Ok []
  | coin :: coins =>
      let? d := NewDecFromInt (amount coin) in
      let? d := Dec_Mul d rate in
      let? a := Dec_TruncateInt d in
      let? c := NewCoin (denom coin) a in
      let? l := part_coins rate coins in
      Ok (c :: l)
  end.
Definition AddIncomingFee (address : AccAddress) (coins : Coins) : MS unit :=
  params <- gets sv_params ;;
  taxCoins <- lift (part_coins (ServiceFeeTax params) coins) ;;
  let taxCoins := Coins_Sort taxCoins in
  taxCoins <- send ServiceRequestCoinsAccAddr ServiceTaxCoinsAccAddr taxCoins ;;
  r <- lift (Coins_SafeSub coins taxCoins) ;;
  let '(incomingFee, hasNeg) := r in
  if hasNeg : bool then throw ErrInsufficientFunds else
  fee <- GetIncomingFee address ;;
  (match fee with None => SetIncomingFee address coins | Some _ => ret tt end) ;;;
  c <- lift (Coins_Add (default [] (if_Coins <$> fee)) incomingFee) ;;
  SetIncomingFee address c.
Definition WithdrawFee (address : AccAddress) : MS unit :=
  fee <- GetIncomingFee address ;;
  match fee with
  | None => throw (service_err CodeWithdrawFeeNotExists)
  | Some fee =>
      on_auth (sendCoins ServiceRequestCoinsAccAddr address (if_Coins fee)) ;;;
      modify (set_incomingFees (delete address))
  end.

Definition Slash (blockTime : Z) (binding : SvcBinding) (slashCoins : Coins) : MS unit :=
  r <- lift (Coins_SafeSub (sb_Deposit binding) slashCoins) ;;
  let '(deposit, hasNeg) := r in
  if hasNeg : bool then panic "deposit is less than the slash" else
  let binding := with_deposit binding deposit in
  minDeposit <- getMinDeposit (sb_Prices binding) ;;
  put_binding (if IsAllGTE (sb_Deposit binding) minDeposit then binding else with_available binding false blockTime).

(** ** Handlers (handler.go) *)
Definition handleMsgSvcDef (msg : SvcDef) : MS unit :=
  def <- GetServiceDefinition (sd_ChainId msg) (sd_Name msg) ;;
  require (negb (bool_decide (is_Some def))) (service_err CodeSvcDefExists) ;;;
  AddServiceDefinition msg ;;;
  AddMethods msg.
Definition binding_of (blockTime : Z) (msg : MsgSvcBind) (available : bool) : SvcBinding :=
  NewSvcBinding blockTime (bd_DefChainID msg) (bd_DefName msg) (bd_BindChainID msg) (bd_Provider msg) (bd_BindingType msg)
    (bd_Deposit msg) (bd_Prices msg) (bd_Level msg) available.

(** The price of a method; method ids start at 1. *)
Definition price_of (bind : SvcBinding) (methodID : Z) : Outcome (option Coin) :=
  if Z.of_nat (length (sb_Prices bind)) <? methodID then Ok None else
  if methodID - 1 <? 0 then Panic "index out of range" else
  match sb_Prices bind !! Z.to_nat (methodID - 1) with
  | Some price => Ok (Some price)
  | None => Panic "index out of range"
  end.
Definition handleMsgSvcRequest (blockHeight : Z) (msg : MsgSvcRequest) : MS unit :=
  bind <- GetServiceBinding (mr_DefChainID msg) (mr_DefName msg) (mr_BindChainID msg) (mr_Provider msg) ;;
  match bind with
  | None => throw (service_err CodeSvcBindingNotExists)
  | Some bind =>
      require (sb_Available bind) (service_err CodeSvcBindingNotAvailable) ;;;
      method <- GetMethod (mr_DefChainID msg) (mr_DefName msg) (mr_MethodID msg) ;;
      require (bool_decide (is_Some method)) (service_err CodeMethodNotExists) ;;;
      profiler <- gets (λ s, sv_guardian s !! Guardian.GetProfilerKey (mr_Consumer msg)) ;;
      require (negb (mr_Profiling msg) || bool_decide (is_Some profiler)) (service_err CodeInvalidInput) ;;;
      price <- lift (price_of bind (mr_MethodID msg)) ;;
      require (match price with Some price => IsAllGTE (mr_ServiceFee msg) [price] | None => true end)
        (service_err CodeLtServiceFee) ;;;
      let fee := match price with
                 | Some price => if mr_Profiling msg then [] else [price]
                 | None => [] end in
      AddRequest blockHeight (NewSvcRequest (mr_DefChainID msg) (mr_DefName msg) (mr_BindChainID msg) (mr_ReqChainID msg)
        (mr_Consumer msg) (mr_Provider msg) (mr_MethodID msg) (mr_Input msg) fee (mr_Profiling msg)) ;;;
      ret tt
  end.
Definition handleMsgSvcResponse (msg : MsgSvcResponse) : MS unit :=
  let '(eHeight, rHeight, counter, _) := ConvertRequestID (ms_RequestID msg) in
  request <- GetActiveRequest eHeight rHeight counter ;;
  match request with
  | None => throw (service_err CodeRequestNotActive)
  | Some request =>
      require (AccAddress_Equals (ms_Provider msg) (sr_Provider request)) (service_err CodeNotMatchingProvider) ;;;
      require (bool_decide (sr_ReqChainID request = ms_ReqChainID msg)) (service_err CodeNotMatchingReqChainID) ;;;
      AddResponse (NewSvcResponse (ms_ReqChainID msg) eHeight rHeight counter (ms_Provider msg) (sr_Consumer request)
        (ms_Output msg) (ms_ErrorMsg msg)) ;;;
      DeleteActiveRequest request ;;;
      DeleteRequestExpiration request ;;;
      AddIncomingFee (ms_Provider msg) (sr_ServiceFee request)
  end.
Definition handleMsgSvcWithdrawTax (msg : MsgSvcWithdrawTax) : MS unit :=
  trustee <- gets (λ s, sv_guardian s !! Guardian.GetTrusteeKey (wt_Trustee msg)) ;;
  require (bool_decide (is_Some trustee)) (service_err CodeInvalidInput) ;;;
  on_auth (sendCoins ServiceTaxCoinsAccAddr (wt_DestAddress msg) (wt_Amount msg)).

Definition Handler (blockHeight blockTime : Z) (msg : ServiceMsg) : MS unit :=
  match msg with
  | SvcDefMsg m => handleMsgSvcDef m
  | SvcBindMsg m => AddServiceBinding (binding_of blockTime m true)
  | SvcBindingUpdateMsg m => UpdateServiceBinding (binding_of blockTime m false)
  | SvcDisableMsg m => Disable blockTime (ky_DefChainID m) (ky_DefName m) (ky_BindChainID m) (ky_Provider m)
  | SvcEnableMsg m => let k := en_Key m in
      Enable (ky_DefChainID k) (ky_DefName k) (ky_BindChainID k) (ky_Provider k) (en_Deposit m)
  | SvcRefundDepositMsg m => RefundDeposit blockTime (ky_DefChainID m) (ky_DefName m) (ky_BindChainID m) (ky_Provider m)
  | SvcRequestMsg m => handleMsgSvcRequest blockHeight m
  | SvcResponseMsg m => handleMsgSvcResponse m
  | SvcRefundFeesMsg a => RefundFee a
  | SvcWithdrawFeesMsg a => WithdrawFee a
  | SvcWithdrawTaxMsg m => handleMsgSvcWithdrawTax m
  | OtherMsg => throw ErrTxDecode
  end.

(** ** The end of a block (abci.go) *)
Definition must {A} (c : MS A) : MS A := λ s,
  match c s with (Err _, s) => (Panic "error", s) | r => r end.
Definition slash_one (blockTime : Z) (slashFraction : Dec) (req : SvcRequest) : MS unit :=
  binding <- GetServiceBinding (sr_DefChainID req) (sr_DefName req) (sr_BindChainID req) (sr_Provider req) ;;
  slashCoins <- lift (match binding with
                      | Some b => part_coins slashFraction (sb_Deposit b)
                      | None => Ok [] end) ;;
  let slashCoins := Coins_Sort slashCoins in
  s <- get ;;
  must (on_auth (BurnCoins ServiceDepositCoinsAccAddr slashCoins)) ;;;
  let slashCoins := sendCoins_amt ServiceDepositCoinsAccAddr BurnedCoinsAccAddr slashCoins (sv_auth s) in
  must (Slash blockTime (default zero_SvcBinding binding) slashCoins).
Definition expire_one (blockTime : Z) (slashFraction : Dec) (req : SvcRequest) : MS unit :=
  (if sr_Profiling req then ret tt else slash_one blockTime slashFraction req) ;;;
  AddReturnFee (sr_Consumer req) (sr_ServiceFee req) ;;;
  DeleteActiveRequest req ;;;
  DeleteRequestExpiration req.
Definition EndBlocker (blockHeight blockTime : Z) : MS unit :=
  SetIntraTxCounter 0 ;;;
  params <- gets sv_params ;;
  queue <- gets (ActiveRequestQueueIterator blockHeight) ;;
  for_each queue (λ kv, expire_one blockTime (SlashFraction params) kv.2).

(** ** Genesis (genesis.go) *)
Section genesis.
Variable mainnet : bool.
Definition InitGenesis (data : Params) : MS unit :=
  match validateParams mainnet data with
  | Ok _ => modify (set_params data)
  | Err _ => panic "invalid genesis"
  | Panic w => panic w
  end.
End genesis.
Definition ExportGenesis (s : ServiceState) : Params := sv_params s.
Definition pay_back (from to : AccAddress) (coins : Coins) : MS unit :=
  ignore_err (on_auth (sendCoins from to coins)).
Definition PrepForZeroHeightGenesis : MS unit :=
  s <- get ;;
  for_each (entries (bindings s)) (λ kv, pay_back ServiceDepositCoinsAccAddr (sb_Provider kv.2) (sb_Deposit kv.2)) ;;;
  for_each (entries (activeRequests s)) (λ kv, pay_back ServiceRequestCoinsAccAddr (sr_Consumer kv.2) (sr_ServiceFee kv.2)) ;;;
  for_each (entries (incomingFees s)) (λ kv, pay_back ServiceRequestCoinsAccAddr (if_Address kv.2) (if_Coins kv.2)) ;;;
  for_each (entries (returnedFees s)) (λ kv, pay_back ServiceRequestCoinsAccAddr (rf_Address kv.2) (rf_Coins kv.2)).

(** ** Queries (querier.go) *)
Definition queryDefinition (chainId name : string) : MS (SvcDef * list MethodProperty) :=
  def <- GetServiceDefinition chainId name ;;
  match def with
  | None => throw (service_err CodeSvcDefNotExists)
  | Some def => l <- gets (service_methods chainId name) ;; ret (def, l)
  end.
Definition queryBinding (defChainID name bindChainID : string) (provider : AccAddress) : MS SvcBinding :=
  b <- GetServiceBinding defChainID name bindChainID provider ;;
  match b with None => throw (service_err CodeSvcBindingNotExists) | Some b => ret b end.
Definition queryResponse (reqChainId requestId : string) : MS SvcResponse :=
  let '(eHeight, rHeight, counter, err) := ConvertRequestID requestId in
  if err : bool then throw ErrUnknownRequest else
  response <- GetResponse reqChainId eHeight rHeight counter ;;
  match response with None => throw (service_err CodeInvalidInput) | Some response => ret response end.
Definition queryFees (address : AccAddress) (s : ServiceState) : Coins * Coins :=
  (default [] (rf_Coins <$> returnedFees s !! address), default [] (if_Coins <$> incomingFees s !! address)).
End keeper.
End ServiceKeeper.
