(* ===== verification/ServiceFacts.v ===== *)
(** * Lemmas on services: coins of the native token, transfers and the invariant *)

From S2P Require Import Prelude SdkErrors IntType GoStrings Denom Coin CoinFacts Dec Gas KVStore Auth Bank BankFacts BankBurn BankFrame StdTx Guardian Service ServiceKeeper.
#[local] Open Scope Z_scope.

Module ServiceFacts.
Import Service ServiceKeeper.

(** ** Sets of coins of the native token *)
Abbreviation iris c := (amt c IrisAtto).
Definition iris_coins (c : Coins) : Prop := c = [] ∨ ∃ n, 0 < n ∧ c = [mkCoin IrisAtto n].

Lemma iris_coins_canonical c : iris_coins c → canonical c ∧ nonneg c.
Proof.
  intros [->|(n&Hn&->)]; (split; [split|]); repeat constructor; simpl; lia.
Qed.
Lemma iris_coins_amt c d : iris_coins c → d ≠ IrisAtto → amt c d = 0.
Proof. intros [->|(n&_&->)] Hd; [done|]. simpl. by rewrite decide_False. Qed.
Lemma iris_coins_nonneg c : iris_coins c → 0 ≤ iris c.
Proof. intros Hc. by apply amt_nonneg, iris_coins_canonical. Qed.
Lemma iris_coins_intro c :
  canonical c → nonneg c → (∀ d, d ≠ IrisAtto → amt c d = 0) → iris_coins c.
Proof.
  intros [Hs Hz] Hn Ha.
  assert (Hden : ∀ x, x ∈ c → denom x = IrisAtto).
  { intros x Hx. destruct (decide (denom x = IrisAtto)) as [|Hd]; [done|]. specialize (Ha _ Hd).
    rewrite (amt_in _ _ Hs Hx) in Ha. pose proof (proj1 (Forall_forall _ _) Hz x Hx) as Hx0. by destruct (Hx0 Ha). }
  destruct c as [|x [|y l]]; [by left| |].
  - right. exists (amount x). inversion Hz; inversion Hn; subst. split; [lia|].
    f_equal. rewrite <-(Hden x) by by left. by destruct x.
  - exfalso. inversion Hs as [|?? _ Hall]; subst. inversion Hall as [|?? Hlt]; subst. unfold denom_lt in Hlt.
    rewrite (Hden x), (Hden y) in Hlt by set_solver. by apply str_lt_irrefl in Hlt.
Qed.
Lemma iris_coins_valid c : Coins_IsValidIrisAtto c = true → iris_coins c.
Proof.
  destruct c as [|x [|y l]]; [done| |done]. simpl. unfold Coin_IsValidIrisAtto, Coin_IsPositive.
  autorewrite with sdk_sign. intros [Hd Hn]%andb_true_iff. apply bool_decide_eq_true in Hd. right.
  exists (amount x). split; [lia|]. rewrite <-Hd. by destruct x.
Qed.
Lemma iris_price p : Coin_IsValidIrisAtto p = true → iris_coins [p].
Proof. intros H. apply iris_coins_valid. done. Qed.

Lemma iris_add a b s : iris_coins a → iris_coins b → Coins_Add a b = Ok s → iris_coins s ∧ iris s = iris a + iris b.
Proof.
  intros Ha Hb Hadd. split; [|by apply Coins_Add_amt].
  destruct (iris_coins_canonical _ Ha) as [[Sa _] _], (iris_coins_canonical _ Hb) as [[Sb _] _].
  destruct (Coins_Add_canonical _ _ _ Sa Sb Hadd) as [??]. apply iris_coins_intro; [done|done|].
  intros d Hd. rewrite (Coins_Add_amt _ _ _ d Hadd), !iris_coins_amt by done. lia.
Qed.
Lemma iris_sub a b s :
  iris_coins a → sorted b → (∀ d, d ≠ IrisAtto → amt b d = 0) → Coins_SafeSub a b = Ok (s, false) →
  iris_coins s ∧ iris s = iris a - iris b.
Proof.
  intros Ha Sb Hb Hsub. destruct (iris_coins_canonical _ Ha) as [[Sa _] _].
  destruct (Coins_SafeSub_spec _ _ _ _ Sa Sb Hsub) as (Hc&Hamt&Hn). split; [|by rewrite Hamt].
  apply iris_coins_intro; [done| |].
  - apply nonneg_amt; [apply Hc|]. intros d. rewrite Hamt. pose proof (proj1 Hn eq_refl d). lia.
  - intros d Hd. rewrite Hamt, Hb, iris_coins_amt by done. lia.
Qed.

(** A part of such coins: at most one coin, which can be zero. *)
Definition part (rate n : Z) : Z := n * rate / precisionReuse.
Lemma part_bounds rate n : 0 ≤ rate ≤ precisionReuse → 0 ≤ n → 0 ≤ part rate n ≤ n.
Proof.
  intros Hr Hn. unfold part. change precisionReuse with (10^10) in *. split; [apply Z.div_pos; nia|].
  apply Z.div_le_upper_bound; nia.
Qed.
Lemma chop_exact m : 0 ≤ m → chopPrecisionAndRound (m * precisionReuse) = m.
Proof.
  intros Hm. unfold chopPrecisionAndRound. assert (0 ≤ m * precisionReuse) by (change precisionReuse with (10^10); nia).
  destruct (Z.eqb_spec (Z.sgn (m * precisionReuse)) (-1)); [lia|]. unfold chop_nonneg.
  by rewrite Z.quot_mul, Z.rem_mul by done.
Qed.
Lemma part_coin rate n l :
  0 ≤ rate → 0 ≤ n → part_coins rate [mkCoin IrisAtto n] = Ok l → l = [mkCoin IrisAtto (part rate n)].
Proof.
  intros Hr Hn. cbn [part_coins amount denom]. unfold NewDecFromInt, NewDecFromIntWithPrec. change (precisionMultiplier 0) with (@Ok Z precisionReuse).
  cbn [obind]. unfold Dec_Mul. replace (n * precisionReuse * rate) with (n * rate * precisionReuse) by lia.
  rewrite chop_exact by nia. destruct (dec_checked (n * rate)) as [x| |] eqn:E; [|done..]. apply dec_checked_ok in E as [-> _]. cbn [obind].
  unfold Dec_TruncateInt, chopPrecisionAndTruncate. rewrite Z.quot_div_nonneg by (done || nia).
  destruct (NewIntFromBigInt _) as [y| |] eqn:E; [|done..]. apply NewIntFromBigInt_ok in E as [-> _]. cbn [obind].
  unfold NewCoin. destruct (Int_IsNegative _); [done|]. by intros [= <-].
Qed.
Lemma part_coin_total rate n :
  0 ≤ rate ≤ precisionReuse → 0 ≤ n → int_ok n → part_coins rate [mkCoin IrisAtto n] = Ok [mkCoin IrisAtto (part rate n)].
Proof.
  intros Hr Hn Hok. pose proof (part_bounds rate n Hr Hn) as Hp. unfold int_ok in Hok. cbn [part_coins amount denom].
  unfold NewDecFromInt, NewDecFromIntWithPrec. change (precisionMultiplier 0) with (@Ok Z precisionReuse).
  cbn [obind]. unfold Dec_Mul. replace (n * precisionReuse * rate) with (n * rate * precisionReuse) by lia.
  rewrite chop_exact by nia. rewrite (proj2 (dec_checked_ok (n * rate) (n * rate))); [cbn [obind]|split; [done|]].
  2:{ unfold dec_ok. change precisionReuse with (10^10) in Hr. nia. }
  unfold Dec_TruncateInt, chopPrecisionAndTruncate. rewrite Z.quot_div_nonneg by (done || nia). fold (part rate n).
  rewrite (proj2 (NewIntFromBigInt_ok (part rate n) (part rate n))) by (split; [done|unfold int_ok; lia]). cbn [obind].
  unfold NewCoin. autorewrite with sdk_sign. destruct (Z.ltb_spec (part rate n) 0); [lia|done].
Qed.

(** What a module reads of coins it has sent. *)
Lemma arrayB_one a c : safeAdd_arrayB a [c] = [c].
Proof.
  destruct (safeAdd_arrayB_split a [c]) as (pre&suf&E&->). destruct pre as [|p pre].
  - simpl in E. subst suf. unfold removeZeroCoins_array. simpl. by destruct (Coin_IsZero c).
  - injection E as -> E. apply eq_sym, app_nil in E as [-> ->]. done.
Qed.
Record iris_like (l : Coins) : Prop := {
  il_form : l = [] ∨ ∃ n, 0 ≤ n ∧ l = [mkCoin IrisAtto n];
  il_sorted : sorted l;
  il_array a : safeAdd_arrayB a l = l;
  il_sort : Coins_Sort l = l;
  il_amt d : d ≠ IrisAtto → amt l d = 0;
  il_nonneg : 0 ≤ iris l }.
Lemma iris_like_one n : 0 ≤ n → iris_like [mkCoin IrisAtto n].
Proof.
  intros Hn. split; [by right; exists n|by repeat constructor|intros a; apply arrayB_one|done| |].
  - intros d Hd. simpl. by rewrite decide_False.
  - simpl. lia.
Qed.
Lemma iris_like_nil : iris_like [].
Proof. split; [by left|constructor|intros a; by destruct a|done|done|done]. Qed.
Lemma iris_coins_like c : iris_coins c → iris_like c.
Proof. intros [->|(n&Hn&->)]; [apply iris_like_nil|apply iris_like_one; lia]. Qed.
Lemma part_coins_iris rate c l :
  0 ≤ rate ≤ precisionReuse → iris_coins c → part_coins rate c = Ok l →
  iris_like l ∧ iris l = part rate (iris c) ∧ iris l ≤ iris c.
Proof.
  intros Hr [->|(n&Hn&->)] Hp.
  - injection Hp as <-. split; [apply iris_like_nil|done].
  - apply part_coin in Hp as ->; [|lia..]. pose proof (part_bounds rate n Hr ltac:(lia)).
    split; [apply iris_like_one; lia|]. simpl. rewrite !Z.add_0_r. done || lia.
Qed.
Lemma part_coins_total rate c :
  0 ≤ rate ≤ precisionReuse → iris_coins c → int_ok (iris c) → ∃ l, part_coins rate c = Ok l.
Proof.
  intros Hr [->|(n&Hn&->)] Hok; [by eexists|]. simpl in Hok. rewrite Z.add_0_r in Hok. eexists. apply part_coin_total; [done|lia|done].
Qed.

(** ** The invariant *)
Section inv.
Context `{Crypto}.
Variable acc_String : AccAddress → string.
Abbreviation binding_key := (binding_key acc_String).
Abbreviation bind_key r := (GetServiceBindingKey acc_String (sr_DefChainID r) (sr_DefName r) (sr_BindChainID r) (sr_Provider r)).

(** The accounts of the module are different. *)
Record modules_distinct : Prop := {
  md_deposit_request : ServiceDepositCoinsAccAddr ≠ ServiceRequestCoinsAccAddr;
  md_deposit_tax : ServiceDepositCoinsAccAddr ≠ ServiceTaxCoinsAccAddr;
  md_request_tax : ServiceRequestCoinsAccAddr ≠ ServiceTaxCoinsAccAddr;
  md_deposit_burned : ServiceDepositCoinsAccAddr ≠ BurnedCoinsAccAddr;
  md_request_burned : ServiceRequestCoinsAccAddr ≠ BurnedCoinsAccAddr }.
Definition outside (x : AccAddress) : Prop := x ≠ ServiceDepositCoinsAccAddr ∧ x ≠ ServiceRequestCoinsAccAddr.

Definition rates_ok (p : Params) : Prop :=
  0 ≤ ServiceFeeTax p ≤ precisionReuse ∧ 0 ≤ SlashFraction p ≤ precisionReuse.
Record binding_ok (k : string) (b : SvcBinding) : Prop := {
  bo_key : k = binding_key b;
  bo_deposit : iris_coins (sb_Deposit b);
  bo_prices : Forall (λ p, Coin_IsValidIrisAtto p = true) (sb_Prices b);
  bo_provider : outside (sb_Provider b) }.

Definition deposits (s : ServiceState) : Z := map_sum (λ b, iris (sb_Deposit b)) (bindings s).
Definition open_fees (s : ServiceState) : Z := map_sum (λ r, iris (sr_ServiceFee r)) (expirations s).
Definition returned (s : ServiceState) : Z := map_sum (λ f, iris (rf_Coins f)) (returnedFees s).
Definition incoming (s : ServiceState) : Z := map_sum (λ f, iris (if_Coins f)) (incomingFees s).
Definition held (s : ServiceState) (x : AccAddress) : Z := balance (sv_auth s) x IrisAtto.

(** The accounts of deposits and of fees cover what the module owes; [n] is the fee
    an operation has in hand. *)
Record service_owes (n : Z) (s : ServiceState) : Prop := {
  si_auth : auth_wf (sv_auth s);
  si_rates : rates_ok (sv_params s);
  si_bindings k b : bindings s !! k = Some b → binding_ok k b;
  si_open k r : expirations s !! k = Some r → k = GetRequestsByExpirationIndexKeyByReq r ∧
    iris_coins (sr_ServiceFee r) ∧ is_Some (bindings s !! bind_key r);
  si_returned a f : returnedFees s !! a = Some f → iris_coins (rf_Coins f) ∧ rf_Address f = a;
  si_incoming a f : incomingFees s !! a = Some f → iris_coins (if_Coins f) ∧ if_Address f = a;
  si_deposits : deposits s ≤ held s ServiceDepositCoinsAccAddr;
  si_fees : n + open_fees s + returned s + incoming s ≤ held s ServiceRequestCoinsAccAddr }.
Definition service_inv : ServiceState → Prop := service_owes 0.

(** The parts of the state the invariant does not look at. *)
Lemma inv_core n s s' :
  sv_auth s' = sv_auth s → bindings s' = bindings s → expirations s' = expirations s →
  returnedFees s' = returnedFees s → incomingFees s' = incomingFees s → sv_params s' = sv_params s →
  service_owes n s → service_owes n s'.
Proof.
  intros Ea Eb Ee Er Ei Ep [H1 H2 H3 H4 H5 H6 H7 H8]. unfold deposits, open_fees, returned, incoming, held in *.
  split; unfold deposits, open_fees, returned, incoming, held;
    rewrite ?Ea, ?Eb, ?Ee, ?Er, ?Ei, ?Ep; done.
Qed.
(** Coins that move. *)
Lemma inv_auth a m n s :
  auth_wf a → held s ServiceDepositCoinsAccAddr ≤ balance a ServiceDepositCoinsAccAddr IrisAtto →
  held s ServiceRequestCoinsAccAddr + (m - n) ≤ balance a ServiceRequestCoinsAccAddr IrisAtto →
  service_owes n s → service_owes m (set_auth a s).
Proof.
  intros Hw Hd Hq [H1 H2 H3 H4 H5 H6 H7 H8]. unfold held in *. split; try done; simpl.
  - change (deposits s ≤ balance a ServiceDepositCoinsAccAddr IrisAtto). lia.
  - change (m + open_fees s + returned s + incoming s ≤ balance a ServiceRequestCoinsAccAddr IrisAtto). lia.
Qed.
(** A binding written, with the coins that follow its deposit. *)
Lemma inv_binding k b a n s :
  auth_wf a → binding_ok k b →
  held s ServiceDepositCoinsAccAddr + (iris (sb_Deposit b) - at_key (λ b, iris (sb_Deposit b)) (bindings s) k)
    ≤ balance a ServiceDepositCoinsAccAddr IrisAtto →
  held s ServiceRequestCoinsAccAddr ≤ balance a ServiceRequestCoinsAccAddr IrisAtto →
  service_owes n s → service_owes n (set_bindings (insert k b) (set_auth a s)).
Proof.
  intros Hw Hb Hd Hq [H1 H2 H3 H4 H5 H6 H7 H8]. unfold held in *. split; try done; simpl.
  - intros k' b'. rewrite lookup_insert. case_decide; [by intros [= <-]; subst|apply H3].
  - intros k' r Hr. destruct (H4 _ _ Hr) as (?&?&?). split_and!; [done|done|]. rewrite lookup_insert.
    by case_decide.
  - change (map_sum (λ b, iris (sb_Deposit b)) (<[k:=b]> (bindings s)) ≤ balance a ServiceDepositCoinsAccAddr IrisAtto).
    rewrite map_sum_insert. unfold deposits in H7. lia.
  - change (n + open_fees s + returned s + incoming s ≤ balance a ServiceRequestCoinsAccAddr IrisAtto). lia.
Qed.
Lemma inv_binding_kept k b n s :
  binding_ok k b → iris (sb_Deposit b) ≤ at_key (λ b, iris (sb_Deposit b)) (bindings s) k →
  service_owes n s → service_owes n (set_bindings (insert k b) s).
Proof.
  intros Hb Hd Hi. apply (inv_core n (set_bindings (insert k b) (set_auth (sv_auth s) s))); [done..|].
  apply inv_binding; [apply Hi|done| |done|done]. unfold held in *. lia.
Qed.
(** Fees that change their place. *)
Lemma at_key_nonneg {V} (f : V → Z) (m : gmap string V) k :
  (∀ k v, m !! k = Some v → 0 ≤ f v) → 0 ≤ at_key f m k.
Proof. intros Hf. unfold at_key. destruct (m !! k) eqn:E; [by eapply Hf|done]. Qed.
Lemma inv_open r n s :
  iris_coins (sr_ServiceFee r) → is_Some (bindings s !! bind_key r) → service_owes n s →
  service_owes (n - iris (sr_ServiceFee r)) (set_expirations (insert (GetRequestsByExpirationIndexKeyByReq r) r) s).
Proof.
  intros Hf Hb [H1 H2 H3 H4 H5 H6 H7 H8]. split; try done; simpl.
  - intros k r'. rewrite lookup_insert. case_decide; [by intros [= <-]; subst|apply H4].
  - unfold open_fees in *. simpl. rewrite map_sum_insert.
    pose proof (at_key_nonneg (λ r, iris (sr_ServiceFee r)) (expirations s) (GetRequestsByExpirationIndexKeyByReq r)) as Hn.
    lapply Hn; [|intros k v Hk; by apply iris_coins_nonneg, (H4 _ _ Hk)].
    unfold returned, incoming, held in *. simpl. lia.
Qed.
Lemma inv_close k r n s :
  expirations s !! k = Some r → service_owes n s → service_owes (n + iris (sr_ServiceFee r)) (set_expirations (delete k) s).
Proof.
  intros Hk [H1 H2 H3 H4 H5 H6 H7 H8]. split; try done; simpl.
  - intros k' r' [_ Hr]%lookup_delete_Some. by apply H4.
  - unfold open_fees in *. simpl. rewrite (map_sum_delete _ _ _ _ Hk). unfold returned, incoming, held in *. simpl. lia.
Qed.
Lemma inv_returned a c n s :
  iris_coins c → service_owes n s →
  service_owes (n - (iris c - at_key (λ f, iris (rf_Coins f)) (returnedFees s) a))
    (set_returnedFees (insert a (NewReturnedFee a c)) s).
Proof.
  intros Hc [H1 H2 H3 H4 H5 H6 H7 H8]. split; try done; simpl.
  - intros a' f. rewrite lookup_insert. case_decide; [by intros [= <-]; subst|apply H5].
  - unfold returned in *. simpl. rewrite map_sum_insert. unfold open_fees, incoming, held in *. simpl. lia.
Qed.
Lemma inv_incoming a c n s :
  iris_coins c → service_owes n s →
  service_owes (n - (iris c - at_key (λ f, iris (if_Coins f)) (incomingFees s) a))
    (set_incomingFees (insert a (NewIncomingFee a c)) s).
Proof.
  intros Hc [H1 H2 H3 H4 H5 H6 H7 H8]. split; try done; simpl.
  - intros a' f. rewrite lookup_insert. case_decide; [by intros [= <-]; subst|apply H6].
  - unfold incoming in *. simpl. rewrite map_sum_insert. unfold open_fees, returned, held in *. simpl. lia.
Qed.
Lemma inv_paid_return a f n s :
  returnedFees s !! a = Some f → service_owes n s → service_owes (n + iris (rf_Coins f)) (set_returnedFees (delete a) s).
Proof.
  intros Hf [H1 H2 H3 H4 H5 H6 H7 H8]. split; try done; simpl.
  - intros a' f' [_ Hr]%lookup_delete_Some. by apply H5.
  - unfold returned in *. simpl. rewrite (map_sum_delete _ _ _ _ Hf). unfold open_fees, incoming, held in *. simpl. lia.
Qed.
Lemma inv_paid_incoming a f n s :
  incomingFees s !! a = Some f → service_owes n s → service_owes (n + iris (if_Coins f)) (set_incomingFees (delete a) s).
Proof.
  intros Hf [H1 H2 H3 H4 H5 H6 H7 H8]. split; try done; simpl.
  - intros a' f' [_ Hr]%lookup_delete_Some. by apply H6.
  - unfold incoming in *. simpl. rewrite (map_sum_delete _ _ _ _ Hf). unfold open_fees, returned, held in *. simpl. lia.
Qed.
Lemma inv_less n m s : m ≤ n → service_owes n s → service_owes m s.
Proof. intros Hl [H1 H2 H3 H4 H5 H6 H7 H8]. split; try done. lia. Qed.

(** ** Transfers *)
Lemma sendCoins_amt_like f t c s : iris_like c → sendCoins_amt f t c s = c.
Proof. intros Hc. unfold sendCoins_amt. destruct (subtractCoins f c s) as [[]]; [by apply il_array|done|done]. Qed.
Lemma send_ok f t c s c' s' :
  auth_wf (sv_auth s) → iris_like c → send f t c s = (Ok c', s') →
  ∃ a, s' = set_auth a s ∧ c' = c ∧ auth_wf a ∧ iris c ≤ held s f ∧ 0 ≤ iris c ∧
    ∀ x, balance a x IrisAtto = held s x - (if decide (x = f) then iris c else 0) + (if decide (x = t) then iris c else 0).
Proof.
  intros Hw Hc Hr. unfold send in Hr. unfold bind at 1, get in Hr. inv_ok Hr. apply zoom_ok in E as (a'&E&->).
  destruct (sendCoins_ok _ _ _ _ _ _ Hw E) as (_&Hwa&Hb&_&Hle&_). exists a'.
  split_and!; [done| |done|apply Hle|by apply il_nonneg|intros x; apply Hb].
  by apply sendCoins_amt_like.
Qed.
Lemma on_auth_send_ok f t c s u s' :
  auth_wf (sv_auth s) → on_auth (sendCoins f t c) s = (Ok u, s') →
  ∃ a, s' = set_auth a s ∧ auth_wf a ∧ iris c ≤ held s f ∧
    ∀ x, balance a x IrisAtto = held s x - (if decide (x = f) then iris c else 0) + (if decide (x = t) then iris c else 0).
Proof.
  intros Hw Hr. apply zoom_ok in Hr as (a'&E&->). destruct (sendCoins_ok _ _ _ _ _ _ Hw E) as (_&Hwa&Hb&_&Hle&_).
  exists a'. split_and!; [done|done|apply Hle|intros x; apply Hb].
Qed.

(** ** Operations keep the invariant *)
Section keep.
Variable Parse : string → option ProtoDefinition.
Hypothesis Hmod : modules_distinct.

Ltac accounts :=
  destruct Hmod as [?????]; unfold outside in *; destruct_and?;
  repeat match goal with |- context [decide ?P] => destruct (decide P) end; simpl; congruence || lia.

Ltac inv_send :=
  match goal with
  | E : send ?f ?t ?c ?s = (Ok ?c', ?s') |- _ =>
      let G := fresh "G" in
      enough (G : auth_wf (sv_auth s) ∧ iris_like c);
      [destruct (send_ok _ _ _ _ _ _ (proj1 G) (proj2 G) E) as (a'&->&->&Hw&Hle&Hn&Hb); clear G|split]
  end.
Ltac inv_transfer :=
  match goal with
  | E : on_auth (sendCoins ?f ?t ?c) ?s = (Ok ?c', ?s') |- _ =>
      let G := fresh "G" in
      enough (G : auth_wf (sv_auth s));
      [destruct (on_auth_send_ok _ _ _ _ _ _ G E) as (a'&->&Hw&Hle&Hb); clear G|]
  end.
Lemma forallb_Forall_true {A} (f : A → bool) l : forallb f l = true → Forall (λ x, f x = true) l.
Proof. induction l; simpl; [done|]. intros [??]%andb_true_iff. auto. Qed.

Lemma keep_SvcDef msg s u s' : handleMsgSvcDef Parse msg s = (Ok u, s') → service_inv s → service_inv s'.
Proof.
  intros Hr Hi. unfold handleMsgSvcDef, GetServiceDefinition, AddServiceDefinition in Hr. inv_ok Hr.
  unfold AddMethods in Hr. destruct (GetMethods Parse _) as [l|]; [|done].
  assert (Hd : service_inv (set_definitions (insert (GetServiceDefinitionKey (sd_ChainId msg) (sd_Name msg)) msg) s0))
    by by apply (inv_core 0 s0).
  clear Hi. revert Hr Hd. generalize (set_definitions (insert (GetServiceDefinitionKey (sd_ChainId msg) (sd_Name msg)) msg) s0).
  generalize 0. induction l as [|m l IH]; intros i s Hr Hi; simpl in Hr; inv_ok Hr; [done|].
  eapply IH; [exact Hr|]. by apply (inv_core 0 s).
Qed.

Lemma keep_bind b s u s' :
  Coins_IsValidIrisAtto (sb_Deposit b) = true → forallb Coin_IsValidIrisAtto (sb_Prices b) = true → outside (sb_Provider b) →
  AddServiceBinding acc_String b s = (Ok u, s') → service_inv s → service_inv s'.
Proof.
  intros Hd Hp Hout Hr Hi. apply iris_coins_valid in Hd as Hc. apply forallb_Forall_true in Hp.
  unfold AddServiceBinding, GetServiceDefinition, GetServiceBinding, getMinDeposit, validateMethodPrices, put_binding in Hr.
  inv_ok Hr. inv_send; [|apply Hi|by apply iris_coins_like].
  assert (Hnew : bindings s0 !! binding_key b = None).
  { destruct (bindings s0 !! binding_key b) eqn:Eb; [|done]. unfold ServiceKeeper.binding_key in Eb. rewrite Eb in *. done. }
  apply inv_binding; [done|by split| | |done]; simpl.
  - unfold at_key. replace (bindings s0 !! _) with (@None SvcBinding) by (symmetry; exact Hnew). rewrite Hb. accounts.
  - rewrite Hb. accounts.
Qed.

Lemma add_deposit_ok d e r :
  iris_coins d → iris_coins e → add_deposit d e = Ok r →
  iris_coins r.1 ∧ iris r.1 = iris d + iris e ∧ r.2 = e.
Proof.
  intros Hd He Hr. unfold add_deposit in Hr. destruct (iris_coins_like _ He) as [_ _ Ha _ _ _].
  assert (Hn : IsAnyNegative e = false).
  { destruct He as [->|(n&Hn&->)]; [done|]. simpl. unfold Coin_IsNegative. autorewrite with sdk_sign. simpl. by destruct (Z.ltb_spec n 0); [lia|]. }
  rewrite Hn in Hr. inv_ok Hr. injection Hr as <-. simpl. destruct (iris_add _ _ _ Hd He E). rewrite Ha. done.
Qed.
Lemma check_deposit_ok prices d e s u s' : check_deposit prices d e s = (Ok u, s') → s' = s.
Proof. unfold check_deposit, getMinDeposit. intros Hr. inv_ok Hr. destruct (IsAllGTE _ _); [by injection Hr|]. inv_ok Hr. Qed.

Lemma keep_update b s u s' :
  Coins_IsValidIrisAtto (sb_Deposit b) = true → forallb Coin_IsValidIrisAtto (sb_Prices b) = true → outside (sb_Provider b) →
  UpdateServiceBinding acc_String b s = (Ok u, s') → service_inv s → service_inv s'.
Proof.
  intros Hd Hp Hout Hr Hi. apply iris_coins_valid in Hd as Hc. apply forallb_Forall_true in Hp.
  unfold UpdateServiceBinding, GetServiceBinding in Hr. unfold bind at 1, gets at 1 in Hr.
  destruct (bindings s !! _) as [old|] eqn:Eold; [|done]. pose proof (si_bindings _ _ Hi _ _ Eold) as [Hk Hdep Hpr Hpo].
  apply bind_ok in Hr as ([]&s1&E&Hr).
  assert (s1 = s) as -> by (destruct (0 <? _)%nat; [unfold validateMethodPrices in E|]; inv_ok E; done).
  inv_ok Hr. destruct a as [total extra]. destruct (add_deposit_ok _ _ _ Hdep Hc E0) as (Hit&Ht&He). simpl in *. subst extra.
  inv_ok Hr. inv_send; [|apply Hi|by apply iris_coins_like].
  assert (s1 = set_auth a' s) as ->.
  { destruct (sb_Available old); [by eapply check_deposit_ok|by inv_ok E2]. }
  apply inv_binding; [done| | | |done]; simpl.
  - split; simpl; [exact Hk|done|by destruct (0 <? _)%nat|done].
  - unfold at_key, ServiceKeeper.binding_key. rewrite Eold, Hb, Ht. accounts.
  - rewrite Hb. accounts.
Qed.

Lemma keep_disable t dc dn bc p s u s' :
  Disable acc_String t dc dn bc p s = (Ok u, s') → service_inv s → service_inv s'.
Proof.
  intros Hr Hi. unfold Disable, GetServiceBinding in Hr. unfold bind at 1, gets at 1 in Hr.
  destruct (bindings s !! _) as [b|] eqn:Eb; [|done]. pose proof (si_bindings _ _ Hi _ _ Eb) as [Hk Hd Hp Ho].
  unfold put_binding in Hr. inv_ok Hr. apply inv_binding_kept; [by split| |done].
  unfold at_key, ServiceKeeper.binding_key. simpl. unfold ServiceKeeper.binding_key in Hk. rewrite <-Hk, Eb. lia.
Qed.

Lemma keep_enable dc dn bc p d s u s' :
  Coins_IsValidIrisAtto d = true → Enable acc_String dc dn bc p d s = (Ok u, s') → service_inv s → service_inv s'.
Proof.
  intros Hc Hr Hi. apply iris_coins_valid in Hc. unfold Enable, GetServiceBinding in Hr. unfold bind at 1, gets at 1 in Hr.
  destruct (bindings s !! _) as [b|] eqn:Eb; [|done]. pose proof (si_bindings _ _ Hi _ _ Eb) as [Hk Hd Hp Ho].
  inv_ok Hr. destruct a0 as [total extra]. destruct (add_deposit_ok _ _ _ Hd Hc E0) as (Hit&Ht&He). simpl in *. subst extra.
  unfold put_binding in Hr. inv_ok Hr. apply check_deposit_ok in E1 as ->. inv_send; [|apply Hi|by apply iris_coins_like].
  apply inv_binding; [done|by split| | |done]; unfold outside in *; simpl.
  - unfold at_key, ServiceKeeper.binding_key. simpl. unfold ServiceKeeper.binding_key in Hk. rewrite <-Hk, Eb, Hb, Ht. accounts.
  - rewrite Hb. accounts.
Qed.

Lemma keep_refund_deposit t dc dn bc p s u s' :
  RefundDeposit acc_String t dc dn bc p s = (Ok u, s') → service_inv s → service_inv s'.
Proof.
  intros Hr Hi. unfold RefundDeposit, GetServiceBinding in Hr. unfold bind at 1, gets at 1 in Hr.
  destruct (bindings s !! _) as [b|] eqn:Eb; [|done]. pose proof (si_bindings _ _ Hi _ _ Eb) as [Hk Hd Hp Ho].
  unfold put_binding in Hr. inv_ok Hr. inv_transfer; [|apply Hi].
  apply inv_binding; [done|split; [done|by left|done|done]| | |done]; unfold outside in *; simpl.
  - unfold at_key, ServiceKeeper.binding_key. simpl. unfold ServiceKeeper.binding_key in Hk. rewrite <-Hk, Eb, Hb. accounts.
  - rewrite Hb. accounts.
Qed.

Lemma keep_add_request h req s r s' :
  iris_coins (sr_ServiceFee req) → outside (sr_Consumer req) → is_Some (bindings s !! bind_key req) →
  AddRequest acc_String h req s = (Ok r, s') → service_inv s → service_inv s'.
Proof.
  intros Hf Ho Hbd Hr Hi. unfold AddRequest, GetIntraTxCounter, SetIntraTxCounter, AddActiveRequest, AddRequestExpiration in Hr.
  inv_ok Hr. inv_send; [|apply Hi|by apply iris_coins_like].
  set (r' := with_fee _ _). apply (inv_less (iris (sr_ServiceFee req) - iris (sr_ServiceFee r'))); [simpl; lia|].
  apply inv_open; [done|done|]. eapply (inv_core _ (set_auth a' s0)); [done..|].
  eapply inv_auth; [done|..|exact Hi]; rewrite Hb; unfold held; simpl; accounts.
Qed.

Lemma keep_request h msg s u s' :
  outside (mr_Consumer msg) → handleMsgSvcRequest acc_String h msg s = (Ok u, s') → service_inv s → service_inv s'.
Proof.
  intros Ho Hr Hi. unfold handleMsgSvcRequest, GetServiceBinding in Hr. unfold bind at 1, gets at 1 in Hr.
  destruct (bindings s !! _) as [b|] eqn:Eb; [|done]. pose proof (si_bindings _ _ Hi _ _ Eb) as [Hk Hd Hp _].
  unfold GetMethod in Hr. inv_ok Hr. eapply keep_add_request; [| | |exact E4|done]; [|done|exists b; exact Eb].
  destruct a2 as [price|]; [|by left]. simpl. destruct (mr_Profiling msg); [by left|]. apply iris_price.
  unfold price_of in E2. repeat case_match; simplify_eq.
  match goal with Hl : sb_Prices b !! _ = _ |- _ => exact (Forall_lookup_1 _ _ _ _ Hp Hl) end.
Qed.

(** The fee of a response, less the tax, is credited to the provider. *)
Lemma AddIncomingFee_ok addr coins s u s' :
  iris_coins coins → auth_wf (sv_auth s) → rates_ok (sv_params s) →
  (∀ f, incomingFees s !! addr = Some f → iris_coins (if_Coins f)) →
  AddIncomingFee addr coins s = (Ok u, s') →
  let tax := part (ServiceFeeTax (sv_params s)) (iris coins) in
  0 ≤ tax ≤ iris coins ∧
  ∃ a c, s' = set_incomingFees (insert addr (NewIncomingFee addr c)) (set_auth a s) ∧ iris_coins c ∧
    iris c = at_key (λ f, iris (if_Coins f)) (incomingFees s) addr + (iris coins - tax) ∧ auth_wf a ∧
    ∀ x, balance a x IrisAtto = held s x - (if decide (x = ServiceRequestCoinsAccAddr) then tax else 0)
                                         + (if decide (x = ServiceTaxCoinsAccAddr) then tax else 0).
Proof.
  intros Hc Hws [Ht _] Hinc Hr tax. pose proof (part_bounds _ _ Ht (iris_coins_nonneg _ Hc)) as Hbounds. split; [done|].
  unfold AddIncomingFee, GetIncomingFee, SetIncomingFee in Hr. inv_ok Hr.
  destruct (part_coins_iris _ _ _ Ht Hc E) as (Hl&Hamt&_). rewrite (il_sort _ Hl) in E0. inv_send; [|done|done].
  destruct a1 as [rest neg]. destruct neg; inv_ok Hr. fold tax in Hamt. rewrite Hamt in *.
  destruct (iris_sub _ _ _ Hc (il_sorted _ Hl) (il_amt _ Hl) E1) as [Hrest Hra].
  simpl in E3. destruct (incomingFees _ !! addr) as [f|] eqn:Ef; inv_ok E2; simpl in E3; rewrite ?Ef in E3;
    (apply iris_add in E3 as [Hci Hca]; [|auto; by left|done]); exists a', a1.
  - split_and!; [done|done| |done|done]. unfold at_key. rewrite Ef. lia.
  - split_and!; [|done| |done|done].
    + destruct s0. unfold set_incomingFees. simpl. by rewrite insert_insert_eq.
    + unfold at_key. rewrite Ef. simpl in Hca. lia.
Qed.
Lemma keep_incoming addr coins s u s' :
  iris_coins coins → AddIncomingFee addr coins s = (Ok u, s') → service_owes (iris coins) s → service_inv s'.
Proof.
  intros Hc Hr Hi.
  destruct (AddIncomingFee_ok _ _ _ _ _ Hc (si_auth _ _ Hi) (si_rates _ _ Hi) (λ f Hf, proj1 (si_incoming _ _ Hi _ _ Hf)) Hr)
    as (Ht&a&c&->&Hci&Hca&Hw&Hb). set (tax := part _ _) in *.
  eapply inv_less; [|apply inv_incoming; [done|eapply (inv_auth a (iris coins - tax)); [done| | |exact Hi]; rewrite Hb; accounts]].
  simpl. lia.
Qed.

Lemma keep_response msg s u s' :
  handleMsgSvcResponse acc_String msg s = (Ok u, s') → service_inv s → service_inv s'.
Proof.
  intros Hr Hi. unfold handleMsgSvcResponse in Hr. destruct (ConvertRequestID _) as [[[e h] c] err].
  unfold GetActiveRequest in Hr. unfold bind at 1, gets at 1 in Hr.
  destruct (expirations s !! _) as [r|] eqn:Er; [|done]. destruct (si_open _ _ Hi _ _ Er) as (Hk&Hf&_).
  unfold AddResponse, DeleteActiveRequest, DeleteRequestExpiration in Hr. inv_ok Hr.
  eapply keep_incoming in Hr; [done|done|]. rewrite <-Hk.
  eapply (inv_core _ (set_expirations (delete _) s)); [done..|]. change (iris (sr_ServiceFee r)) with (0 + iris (sr_ServiceFee r)).
  by eapply inv_close.
Qed.

Lemma keep_refund_fee a s u s' : outside a → RefundFee a s = (Ok u, s') → service_inv s → service_inv s'.
Proof.
  intros Ho Hr Hi. unfold RefundFee, GetReturnFee in Hr. unfold bind at 1, gets at 1 in Hr.
  destruct (returnedFees s !! a) as [f|] eqn:Ef; [|done]. inv_ok Hr. inv_transfer; [|apply Hi].
  eapply (inv_core _ (set_auth a' (set_returnedFees (delete a) s))); [done..|].
  eapply inv_auth; [done| | |by eapply inv_paid_return]; rewrite Hb; unfold held; simpl; accounts.
Qed.
Lemma keep_withdraw_fee a s u s' : outside a → WithdrawFee a s = (Ok u, s') → service_inv s → service_inv s'.
Proof.
  intros Ho Hr Hi. unfold WithdrawFee, GetIncomingFee in Hr. unfold bind at 1, gets at 1 in Hr.
  destruct (incomingFees s !! a) as [f|] eqn:Ef; [|done]. inv_ok Hr. inv_transfer; [|apply Hi].
  eapply (inv_core _ (set_auth a' (set_incomingFees (delete a) s))); [done..|].
  eapply inv_auth; [done| | |by eapply inv_paid_incoming]; rewrite Hb; unfold held; simpl; accounts.
Qed.
Lemma keep_withdraw_tax msg s u s' :
  Coins_IsValidIrisAtto (wt_Amount msg) = true → handleMsgSvcWithdrawTax msg s = (Ok u, s') → service_inv s → service_inv s'.
Proof.
  intros Hc Hr Hi. apply iris_coins_valid, iris_coins_nonneg in Hc. unfold handleMsgSvcWithdrawTax in Hr. inv_ok Hr.
  inv_transfer; [|apply Hi]. eapply inv_auth; [done| | |exact Hi]; rewrite Hb; accounts.
Qed.

(** ** The expiry of a request *)

(** The binding of an expired request. *)
Definition slashed (p : Params) (t : Z) (b b' : SvcBinding) : Prop :=
  ∃ d m, iris_coins d ∧ iris d = iris (sb_Deposit b) - part (SlashFraction p) (iris (sb_Deposit b)) ∧
    min_deposit (NewInt (MinDepositMultiple p)) [] (sb_Prices b) = Ok m ∧
    b' = if IsAllGTE d m then with_deposit b d else with_available (with_deposit b d) false t.
(** Coins that are burned. *)
Definition burns (s : ServiceState) (a : AuthState) (n : Z) : Prop :=
  auth_wf a ∧ ∀ x, balance a x IrisAtto = held s x - (if decide (x = ServiceDepositCoinsAccAddr) then n else 0)
                                                  + (if decide (x = BurnedCoinsAccAddr) then n else 0).
Lemma must_ok {A} (c : MS A) s (x : A) s' : must c s = (Ok x, s') → c s = (Ok x, s').
Proof. unfold must. destruct (c s) as [[]]; naive_solver. Qed.
Lemma slash_one_ok t req b s u s' :
  service_inv s → bindings s !! bind_key req = Some b →
  slash_one acc_String t (SlashFraction (sv_params s)) req s = (Ok u, s') →
  ∃ a b', s' = set_bindings (insert (bind_key req) b') (set_auth a s) ∧ slashed (sv_params s) t b b' ∧
    burns s a (part (SlashFraction (sv_params s)) (iris (sb_Deposit b))).
Proof.
  intros Hi Eb Hr. destruct (si_bindings _ _ Hi _ _ Eb) as [Hk Hd Hp Ho]. destruct (si_rates _ _ Hi) as [_ Hs].
  unfold slash_one, GetServiceBinding in Hr. unfold bind at 1, gets at 1 in Hr. rewrite Eb in Hr. simpl in Hr.
  inv_ok Hr. injection E0 as <- <-. destruct (part_coins_iris _ _ _ Hs Hd E) as (Hl&Hamt&_).
  rewrite (il_sort _ Hl) in *. rewrite sendCoins_amt_like in Hr by done.
  apply must_ok, zoom_ok in E1 as (a'&E1&->). unfold BurnCoins in E1. inv_ok E1. apply ctx_ConsumeGas_inv in E0 as [g ->].
  destruct (sendCoins_ok _ _ _ _ _ _ (auth_wf_gas g _ (si_auth _ _ Hi)) E1) as (_&Hwa&Hb&_).
  apply must_ok in Hr. unfold Slash, getMinDeposit, put_binding in Hr. inv_ok Hr. destruct a2 as [d neg]. destruct neg; inv_ok Hr.
  destruct (iris_sub _ _ _ Hd (il_sorted _ Hl) (il_amt _ Hl) E0) as [Hdi Hda].
  eexists a', _. split_and!.
  - rewrite Hk. f_equal. f_equal. by case_match.
  - exists d. eexists. split_and!; [done|lia|done|done].
  - split; [done|]. intros x. rewrite Hb, Hamt. done.
Qed.

(** The request expired: what changes outside of its binding and the coins. *)
Definition expire_record (req : SvcRequest) (c : Coins) (s : ServiceState) : ServiceState :=
  set_expirations (delete (GetRequestsByExpirationIndexKeyByReq req))
    (set_activeRequests (delete (active_key acc_String req))
      (set_returnedFees (insert (sr_Consumer req) (NewReturnedFee (sr_Consumer req) c)) s)).
Definition fee_at (s : ServiceState) (a : AccAddress) : Z := at_key (λ f, iris (rf_Coins f)) (returnedFees s) a.
Definition deposit_at (s : ServiceState) (k : string) : Z := at_key (λ b, iris (sb_Deposit b)) (bindings s) k.

Lemma request_expire_ok t k req b s u s' :
  service_inv s → expirations s !! k = Some req → bindings s !! bind_key req = Some b →
  expire_one acc_String t (SlashFraction (sv_params s)) req s = (Ok u, s') →
  ∃ c s1, s' = expire_record req c s1 ∧ iris_coins c ∧ iris c = fee_at s (sr_Consumer req) + iris (sr_ServiceFee req) ∧
    if sr_Profiling req then s1 = s else
    ∃ a b', s1 = set_bindings (insert (bind_key req) b') (set_auth a s) ∧ slashed (sv_params s) t b b' ∧
      burns s a (part (SlashFraction (sv_params s)) (iris (sb_Deposit b))).
Proof.
  intros Hi Ek Eb Hr. unfold expire_one, AddReturnFee, GetReturnFee, DeleteActiveRequest, DeleteRequestExpiration in Hr.
  destruct (si_open _ _ Hi _ _ Ek) as (_&Hf&_).
  apply bind_ok in Hr as ([]&s1&E&Hr).
  assert (Hs1 : if sr_Profiling req then s1 = s else
    ∃ a b', s1 = set_bindings (insert (bind_key req) b') (set_auth a s) ∧ slashed (sv_params s) t b b' ∧
      burns s a (part (SlashFraction (sv_params s)) (iris (sb_Deposit b)))).
  { destruct (sr_Profiling req); [by inv_ok E|by eapply slash_one_ok]. }
  assert (Hret : returnedFees s1 = returnedFees s).
  { destruct (sr_Profiling req); [by subst|]. by destruct Hs1 as (?&?&->&_). }
  clear E. apply bind_ok in Hr as ([]&s2&E&Hr). inv_ok Hr. unfold bind at 1, gets at 1, SetReturnFee in E.
  unfold fee_at, at_key. rewrite <-Hret.
  destruct (returnedFees s1 !! sr_Consumer req) as [f|] eqn:Ef; inv_ok E.
  - rewrite Hret in Ef. destruct (iris_add _ _ _ (proj1 (si_returned _ _ Hi _ _ Ef)) Hf E0). eexists _, s1. done.
  - eexists _, s1. done.
Qed.

Lemma slashed_ok k p t b b' :
  rates_ok p → binding_ok k b → slashed p t b b' →
  binding_ok k b' ∧ iris (sb_Deposit b') = iris (sb_Deposit b) - part (SlashFraction p) (iris (sb_Deposit b)) ∧
  sb_Prices b' = sb_Prices b.
Proof.
  intros [_ Hs] [Hk Hd Hp Ho] (d&m&Hdi&Hda&_&->).
  destruct (IsAllGTE d m); (split; [by split|done]).
Qed.
Lemma keep_expire_record req c n s :
  iris_coins c → expirations s !! GetRequestsByExpirationIndexKeyByReq req = Some req →
  iris c = fee_at s (sr_Consumer req) + iris (sr_ServiceFee req) →
  service_owes n s → service_owes n (expire_record req c s).
Proof.
  intros Hc Ek Hca Hi. unfold expire_record. pose proof (inv_close _ _ _ _ Ek Hi) as H1.
  apply (inv_returned (sr_Consumer req) c) in H1; [|done]. simpl in H1.
  refine (inv_core _ _ _ _ _ _ _ _ _ (inv_less _ _ _ _ H1)); [done..|]. unfold fee_at in Hca. lia.
Qed.
Lemma keep_slash req b b' t a s :
  service_inv s → bindings s !! bind_key req = Some b → slashed (sv_params s) t b b' →
  burns s a (part (SlashFraction (sv_params s)) (iris (sb_Deposit b))) →
  service_inv (set_bindings (insert (bind_key req) b') (set_auth a s)).
Proof.
  intros Hi Eb Hb' [Hw Hb]. pose proof (si_bindings _ _ Hi _ _ Eb) as Hbo. pose proof (si_rates _ _ Hi) as Hrates.
  destruct (slashed_ok _ _ _ _ _ Hrates Hbo Hb') as (Hbo'&Hd&_).
  pose proof (part_bounds _ _ (proj2 Hrates) (iris_coins_nonneg _ (bo_deposit _ _ Hbo))) as Hp.
  apply inv_binding; [done|done| | |done].
  - unfold at_key. rewrite Eb, Hb, Hd. accounts.
  - rewrite Hb. accounts.
Qed.
End keep.
End inv.
End ServiceFacts.
