(* ===== verification/ServiceTimeout.v ===== *)
(** * Services: what the end of a block does to the requests that expire *)

From S2P Require Import Prelude SdkErrors IntType GoStrings Denom Coin CoinFacts Dec Gas KVStore Auth Bank BankFacts BankBurn BankFrame StdTx Guardian Service ServiceKeeper ServiceFacts.
#[local] Open Scope Z_scope.

Module ServiceTimeout.
Import Service ServiceKeeper ServiceFacts.

Lemma total_bound s d : auth_wf s → total s d ≤ map_sum (λ acc, list_sum amount (acc_Coins acc)) (accounts s).
Proof.
  intros Hs. unfold total. rewrite !map_sum_list.
  assert (Hn : ∀ acc, acc ∈ (map_to_list (accounts s)).*2 → nonneg (acc_Coins acc)).
  { intros acc ([a acc']&->&Ha%elem_of_map_to_list)%list_elem_of_fmap. pose proof (wf_nonneg _ Hs a) as Hn.
    unfold coins_of in Hn. by rewrite Ha in Hn. }
  induction ((map_to_list (accounts s)).*2) as [|acc l IH]; simpl; [done|]. specialize (IH ltac:(set_solver)).
  enough (amt (acc_Coins acc) d ≤ list_sum amount (acc_Coins acc)) by lia.
  specialize (Hn acc ltac:(set_solver)). clear IH. induction Hn as [|c cs Hc _ IHc]; simpl; [done|]. case_decide; lia.
Qed.

Section timeout.
Context `{Crypto}.
Variable acc_String : AccAddress → string.
Hypothesis Hmod : modules_distinct.
Abbreviation bind_key r := (GetServiceBindingKey acc_String (sr_DefChainID r) (sr_DefName r) (sr_BindChainID r) (sr_Provider r)).
Abbreviation service_inv := (service_inv acc_String).
Abbreviation expire_one := (expire_one acc_String).

(** ** The effect of a list of expiries *)
Definition slash_times (f : Dec) (n : nat) (d : Z) : Z := Nat.iter n (λ d, d - part f d) d.
Definition slashes (k : string) (l : list (string * SvcRequest)) : nat :=
  length (filter (λ kr, sr_Profiling kr.2 = false ∧ bind_key kr.2 = k) l).
Definition fees_of (a : AccAddress) (l : list (string * SvcRequest)) : Z :=
  list_sum (λ kr, if decide (sr_Consumer kr.2 = a) then iris (sr_ServiceFee kr.2) else 0) l.

(** The smallest deposit for the prices of the provider of an unanswered request can be
    computed: no product leaves the integers. *)
Definition priced (s : ServiceState) (kr : string * SvcRequest) : Prop :=
  sr_Profiling kr.2 = false → ∀ b, bindings s !! bind_key kr.2 = Some b →
  ∃ m, min_deposit (NewInt (MinDepositMultiple (sv_params s))) [] (sb_Prices b) = Ok m.
Lemma priced_same s s' kr :
  (∀ k, (sb_Prices <$> bindings s' !! k) = sb_Prices <$> bindings s !! k) → sv_params s' = sv_params s → priced s kr ↔ priced s' kr.
Proof.
  intros Hb Ep. unfold priced. rewrite Ep. specialize (Hb (bind_key kr.2)). split; intros Hp Hf b Eb; rewrite Eb in Hb; simpl in Hb.
  - destruct (bindings s !! bind_key kr.2) as [b0|]; [|done]. injection Hb as ->. by apply Hp.
  - destruct (bindings s' !! bind_key kr.2) as [b0|]; [|done]. injection Hb as <-. by apply Hp.
Qed.
(** The requests [l] are closed, their consumers are credited with the fees, the
    deposits of their providers are slashed once for each, and the coins that leave
    the deposits are burned. *)
Record expired (l : list (string * SvcRequest)) (s s' : ServiceState) : Prop := {
  ex_inv : service_inv s';
  ex_open k : expirations s' !! k = if decide (k ∈ l.*1) then None else expirations s !! k;
  ex_returned a : fee_at s' a = fee_at s a + fees_of a l;
  ex_deposit k : deposit_at s' k = slash_times (SlashFraction (sv_params s)) (slashes k l) (deposit_at s k);
  ex_terms k : (sb_Prices <$> bindings s' !! k) = sb_Prices <$> bindings s !! k;
  ex_balance x : held s' x = held s x - (if decide (x = ServiceDepositCoinsAccAddr) then deposits s - deposits s' else 0)
                                      + (if decide (x = BurnedCoinsAccAddr) then deposits s - deposits s' else 0);
  ex_priced : Forall (priced s) l;
  ex_incoming : incomingFees s' = incomingFees s;
  ex_params : sv_params s' = sv_params s }.

Lemma expired_refl s : service_inv s → expired [] s s.
Proof.
  intros Hi. split; try done.
  - intros a. unfold fees_of. simpl. lia.
  - intros x. repeat case_decide; lia.
Qed.
Lemma expired_trans l l' s s1 s' : expired l s s1 → expired l' s1 s' → expired (l ++ l') s s'.
Proof.
  intros [I1 O1 R1 D1 T1 B1 C1 N1 P1] [I2 O2 R2 D2 T2 B2 C2 N2 P2]. split; [done|..|congruence|congruence].
  - intros k. rewrite O2, O1, fmap_app. repeat case_decide; set_solver.
  - intros a. rewrite R2, R1. unfold fees_of. rewrite list_sum_app. lia.
  - intros k. rewrite D2, D1, P1. unfold slash_times, slashes. by rewrite filter_app, length_app, Nat.add_comm, Nat.iter_add.
  - intros k. by rewrite T2, T1.
  - intros x. rewrite B2, B1. repeat case_decide; lia.
  - apply Forall_app. split; [done|]. eapply Forall_impl; [exact C2|]. intros kr. by apply priced_same.
Qed.

(** The part of it that is the binding and the coins. *)
Record slashed_for (kr : string * SvcRequest) (s s1 : ServiceState) : Prop := {
  sf_inv : service_inv s1;
  sf_rest : expirations s1 = expirations s ∧ returnedFees s1 = returnedFees s ∧ incomingFees s1 = incomingFees s ∧
            sv_params s1 = sv_params s;
  sf_deposit k : deposit_at s1 k = slash_times (SlashFraction (sv_params s)) (slashes k [kr]) (deposit_at s k);
  sf_terms k : (sb_Prices <$> bindings s1 !! k) = sb_Prices <$> bindings s !! k;
  sf_balance x : held s1 x = held s x - (if decide (x = ServiceDepositCoinsAccAddr) then deposits s - deposits s1 else 0)
                                      + (if decide (x = BurnedCoinsAccAddr) then deposits s - deposits s1 else 0);
  sf_priced : priced s kr }.
Lemma slashes_one k k' req :
  slashes k [(k', req)] = if sr_Profiling req then 0%nat else if decide (bind_key req = k) then 1%nat else 0%nat.
Proof.
  unfold slashes. rewrite filter_cons, filter_nil. cbn [snd].
  destruct (sr_Profiling req); repeat case_decide; naive_solver.
Qed.
Lemma slash_slashed_for t k req a b b' s :
  service_inv s → sr_Profiling req = false → bindings s !! bind_key req = Some b → slashed (sv_params s) t b b' →
  burns s a (part (SlashFraction (sv_params s)) (iris (sb_Deposit b))) →
  slashed_for (k, req) s (set_bindings (insert (bind_key req) b') (set_auth a s)).
Proof.
  intros Hi Hp Eb Hb' Hburn. destruct (slashed_ok _ _ _ _ _ _ (si_rates _ _ _ Hi) (si_bindings _ _ _ Hi _ _ Eb) Hb') as (_&Hd&Hpr).
  assert (Hdep : deposits (set_bindings (insert (bind_key req) b') (set_auth a s)) =
    deposits s - part (SlashFraction (sv_params s)) (iris (sb_Deposit b))).
  { unfold deposits. simpl. rewrite map_sum_insert. unfold at_key. rewrite Eb, Hd. lia. }
  split; [by eapply keep_slash|done|..].
  - intros k'. rewrite slashes_one, Hp. unfold deposit_at, at_key. simpl. rewrite lookup_insert.
    case_decide; [subst; rewrite Eb, Hd; done|done].
  - intros k'. simpl. rewrite lookup_insert. case_decide; [subst; by rewrite Eb; simpl; rewrite Hpr|done].
  - intros x. rewrite Hdep. unfold held at 1. simpl. rewrite (proj2 Hburn). repeat case_decide; lia.
  - intros _ b0 Eb0. simpl in Eb0. rewrite Eb in Eb0. injection Eb0 as <-. destruct Hb' as (_&m&_&_&Hm&_). by exists m.
Qed.
Lemma profiling_slashed_for k req s : service_inv s → sr_Profiling req = true → slashed_for (k, req) s s.
Proof.
  intros Hi Hp. split; [done|done|..|done| |].
  - intros k'. by rewrite slashes_one, Hp.
  - intros x. repeat case_decide; lia.
  - intros Hf. simpl in Hf. by rewrite Hp in Hf.
Qed.

Lemma expire_one_expired t k req s u s' :
  service_inv s → expirations s !! k = Some req →
  expire_one t (SlashFraction (sv_params s)) req s = (Ok u, s') → expired [(k, req)] s s'.
Proof.
  intros Hi Ek Hr. destruct (si_open _ _ _ Hi _ _ Ek) as (Hk&Hf&b&Eb).
  destruct (request_expire_ok _ _ _ _ _ _ _ _ Hi Ek Eb Hr) as (c&s1&->&Hc&Hca&Hs1).
  assert (Hsf : slashed_for (k, req) s s1).
  { destruct (sr_Profiling req) eqn:Hp; [subst; by apply profiling_slashed_for|].
    destruct Hs1 as (a&b'&->&Hb'&Hburn). by eapply slash_slashed_for. }
  destruct Hsf as [I (E1&E2&E3&E4) D T B C]. rewrite Hk in *. split; [|..|done|done|done|by constructor|done|done].
  - apply keep_expire_record; [done|by rewrite E1|unfold fee_at; rewrite E2; done|done].
  - intros k'. simpl. rewrite lookup_delete, E1. repeat case_decide; set_solver.
  - intros a. unfold fee_at, at_key, fees_of in *. simpl. rewrite lookup_insert, E2.
    case_decide; [subst; simpl; rewrite Hca; unfold at_key; lia|lia].
Qed.

(** ** The end of a block *)
Lemma expire_all_expired t l s u s' :
  service_inv s → NoDup l.*1 → (∀ k r, (k, r) ∈ l → expirations s !! k = Some r) →
  for_each l (λ kr, expire_one t (SlashFraction (sv_params s)) kr.2) s = (Ok u, s') → expired l s s'.
Proof.
  revert s. induction l as [|[k r] l IH]; intros s Hi Hnd Hl Hr.
  - injection Hr as <- <-. by apply expired_refl.
  - apply for_each_ok in Hr as (s1&H1&H2). apply NoDup_cons in Hnd as [Hk Hnd].
    assert (He : expired [(k, r)] s s1) by (eapply expire_one_expired; [done|apply Hl; by left|exact H1]).
    apply (expired_trans [(k, r)] l s s1 s' He). rewrite <-(ex_params _ _ _ He) in H2.
    apply IH; [apply He|done| |exact H2]. intros k' r' Hin. rewrite (ex_open _ _ _ He), decide_False; [by apply Hl; right|].
    simpl. intros ->%list_elem_of_singleton. by apply Hk, (list_elem_of_fmap_2 fst _ (k, r')).
Qed.
Lemma EndBlocker_expired h t s u s' :
  service_inv s → EndBlocker acc_String h t s = (Ok u, s') →
  expired (ActiveRequestQueueIterator h s) (set_counter (Some 0) s) s'.
Proof.
  intros Hi Hr. unfold EndBlocker, SetIntraTxCounter in Hr. inv_ok Hr.
  apply (expire_all_expired t _ (set_counter (Some 0) s) u); [by apply (inv_core _ 0 s)| | |exact Hr].
  - apply prefix_iterator_NoDup.
  - by intros k r [? _]%prefix_iterator_elem.
Qed.

(** ** It goes through *)

Lemma iris_sub_total d l :
  iris_coins d → iris_like l → iris l ≤ iris d → int_ok (iris d) → ∃ r, Coins_SafeSub d l = Ok (r, false).
Proof.
  intros Hd Hl Hle Hok. pose proof (iris_coins_canonical _ Hd) as [[Hs _] _]. pose proof (il_nonneg _ Hl). unfold int_ok in Hok.
  destruct (Coins_SafeSub_total d l) as [[r neg] Hsub]; [done|apply Hl| |].
  { intros x. destruct (decide (x = IrisAtto)) as [->|Hx]; [unfold int_ok; lia|]. by rewrite (il_amt _ Hl), iris_coins_amt by done. }
  assert (neg = false) as ->; [|by exists r].
  apply (Coins_SafeSub_spec _ _ _ _ Hs (il_sorted _ Hl) Hsub). intros x.
  destruct (decide (x = IrisAtto)) as [->|Hx]; [done|]. by rewrite (il_amt _ Hl), iris_coins_amt by done.
Qed.
(** Burning native tokens that are there. *)
Definition loose (s : AuthState) : Coins := default [] (totalLoosenToken s).
Lemma burn_iris_runs c s :
  iris_like c → iris_coins (loose s) → int_ok (iris (loose s)) → iris c ≤ iris (loose s) → has_gas s 0 →
  runs (for_each c burn_coin) s 0 (λ _ s', iris_coins (loose s') ∧ iris (loose s') = iris (loose s) - iris c).
Proof.
  intros Hl Hc Hok Hle [Hw Hg]. destruct (il_form _ Hl) as [->|(n&Hn&->)].
  - exists tt, s. split_and!; [done|done|lia|done|simpl; lia].
  - simpl in Hle. cbn [for_each]. unfold burn_coin. simpl denom. rewrite bool_decide_true by done.
    unfold DecreaseTotalLoosenToken, Coins_Empty. rewrite GetCoin_head by done. unfold Coin_IsPositive. autorewrite with sdk_sign.
    simpl amount. destruct (Z.ltb_spec 0 n) as [Hp|Hp]; simpl negb; cbv iota.
    2:{ exists tt, s. split_and!; [done|done|lia|done|simpl; lia]. }
    destruct (iris_sub_total _ _ Hc Hl) as [new Hsub]; [simpl; lia|done|].
    destruct (iris_sub _ _ _ Hc (il_sorted _ Hl) (il_amt _ Hl) Hsub) as [Hnc Hna].
    exists tt, (set_totalLoosenToken (Some new) s). split_and!; [|done|simpl; lia|done|done].
    unfold bind, GetTotalLoosenToken, gets, lift. rewrite bool_decide_false by done. fold (loose s). by rewrite Hsub.
Qed.

Definition gasBurn : Z := costBurnCoins + (gasSubtract + gasAdd).
Lemma iris_like_valid c : iris_like c → Coins_IsValid c = true.
Proof.
  intros Hl. apply Coins_IsValid_iff. split; [apply Hl|]. destruct (il_form _ Hl) as [->|(n&Hn&->)]; split; repeat constructor; done.
Qed.
(** The accounts fit in the integers of the bank. *)
Record bank_fits (s : AuthState) : Prop := {
  bf_wf : auth_wf s;
  bf_total d : total s d < 2^255;
  bf_loose : iris_coins (loose s);
  bf_loose_ok : int_ok (iris (loose s)) }.
Lemma burn_add_runs f c s s1 :
  bank_fits s → f ≠ BurnedCoinsAccAddr → iris_like c → (∀ d, 0 ≤ amt c d ≤ balance s f d) → iris c ≤ iris (loose s) →
  changes s s1 f (λ d, - amt c d) → same_supply s s1 → has_gas s1 gasAdd →
  runs (addCoins BurnedCoinsAccAddr c) s1 gasAdd (λ _ s', iris_coins (loose s') ∧ iris (loose s') = iris (loose s) - iris c).
Proof.
  intros [Hw Ht Hl Hlo] Hf Hc Hcb Hle [Hwf Hbal _] (Hsl&_) Hg. apply (addCoins_runs_gen _ _ _ (λ s', _ ∧ _)); [done|done|by apply iris_like_valid| |].
  - intros d. rewrite Hbal, decide_False by done. pose proof (balances_le_total s _ _ d Hw Hf).
    pose proof (balance_nonneg s BurnedCoinsAccAddr d Hw). specialize (Hcb d). specialize (Ht d). unfold int_ok. lia.
  - intros s2 (Hsl2&_) Hg2. rewrite (proj2 (AccAddress_Equals_iff _ _) eq_refl), (il_array _ Hc).
    assert (Heq : loose s2 = loose s) by (unfold loose; by rewrite Hsl2, Hsl). rewrite <-Heq in *.
    by apply burn_iris_runs.
Qed.
Lemma BurnCoins_runs f c s :
  bank_fits s → f ≠ BurnedCoinsAccAddr → iris_like c → iris c ≤ balance s f IrisAtto → iris c ≤ iris (loose s) →
  has_gas s gasBurn →
  runs (BurnCoins f c) s gasBurn (λ _ s', iris_coins (loose s') ∧ iris (loose s') = iris (loose s) - iris c).
Proof.
  intros [Hw Ht Hl Hlo] Hf Hc Hb Hle [Hgw Hgr].
  assert (Hcb : ∀ d, 0 ≤ amt c d ≤ balance s f d).
  { intros d. destruct (decide (d = IrisAtto)) as [->|Hd]; [split; [by apply il_nonneg|done]|].
    rewrite (il_amt _ Hc) by done. split; [done|by apply balance_nonneg]. }
  unfold gasBurn in *. unfold costBurnCoins, gasSubtract, gasAdd, costSubtractCoins, costAddCoins, costGetCoins, costSetCoins in Hgr.
  eapply runs_bind; [apply ConsumeGas_runs; [split; [done|]|]; unfold costBurnCoins; lia|].
  intros [] s1 [g ->] Hw1 Hr1. unfold costBurnCoins in Hr1. simpl in Hr1, Hw1. unfold sendCoins.
  assert (Hwg : auth_wf (set_gas g s)) by by apply auth_wf_gas.
  assert (Hsr : runs (subtractCoins f c) (set_gas g s) gasSubtract (λ _ _, True)).
  { apply subtractCoins_runs; [done|by apply in_range_total| |by apply iris_like_valid|intros d; apply Hcb].
    split; [done|]. unfold gasSubtract, costSubtractCoins, costGetCoins, costSetCoins. simpl. lia. }
  destruct Hsr as (r&s2&Hsub&Hw2&Hr2&_).
  destruct (subtractCoins_ok _ _ _ _ _ Hwg Hsub) as (_&Hch&Hsup&_).
  destruct (burn_add_runs f c (set_gas g s) s2) as (r'&s3&Hadd&Hw3&Hr3&HQ); [by split|done|done|done|done|done|done| |].
  { split; [done|]. rewrite Hr2. unfold gasSubtract, gasAdd, costSubtractCoins, costAddCoins, costGetCoins, costSetCoins. simpl. lia. }
  exists tt, s3. split; [|split_and!; [done|lia|apply HQ|apply HQ]].
  rewrite (bind_run _ _ _ _ _ Hsub). by rewrite (bind_run _ _ _ _ _ Hadd).
Qed.

(** A state that the end of a block can deal with: gas for [n] expiries, accounts that
    fit the integers of the bank, and recorded loose tokens that cover the account
    of the deposits. *)
Record ready (n : Z) (s : ServiceState) : Prop := {
  rd_inv : service_inv s;
  rd_gas : has_gas (sv_auth s) (n * gasBurn);
  rd_bank : bank_fits (sv_auth s);
  rd_loose : held s ServiceDepositCoinsAccAddr ≤ iris (loose (sv_auth s)) }.

Lemma deposit_covered k b s :
  service_inv s → bank_fits (sv_auth s) → bindings s !! k = Some b →
  iris (sb_Deposit b) ≤ held s ServiceDepositCoinsAccAddr ∧ int_ok (iris (sb_Deposit b)).
Proof.
  intros Hi Hb Eb. pose proof (si_deposits _ _ _ Hi) as Hsd.
  assert (Hdl : iris (sb_Deposit b) ≤ deposits s).
  { apply (map_sum_le_key (λ b, iris (sb_Deposit b)) _ k b); [|done].
    intros k' b' Hk'. by apply iris_coins_nonneg, (si_bindings _ _ _ Hi _ _ Hk'). }
  pose proof (balance_le_total (sv_auth s) ServiceDepositCoinsAccAddr IrisAtto (bf_wf _ Hb)). pose proof (bf_total _ Hb IrisAtto).
  pose proof (iris_coins_nonneg _ (bo_deposit _ _ _ (si_bindings _ _ _ Hi _ _ Eb))). unfold int_ok, held in *. lia.
Qed.
Lemma BurnCoins_total f c s u s' :
  auth_wf s → BurnCoins f c s = (Ok u, s') → auth_wf s' ∧ ∀ d, total s' d = total s d.
Proof.
  intros Hw Hr. unfold BurnCoins in Hr. inv_ok Hr. apply ctx_ConsumeGas_inv in E as [g ->].
  destruct (sendCoins_ok _ _ _ _ _ _ (auth_wf_gas g _ Hw) Hr) as (_&?&_&Ht&_). done.
Qed.
Lemma slash_one_run t k req b s :
  ready 1 s → sr_Profiling req = false → priced s (k, req) → bindings s !! bind_key req = Some b →
  ∃ a b', slash_one acc_String t (SlashFraction (sv_params s)) req s = (Ok tt, set_bindings (insert (bind_key req) b') (set_auth a s)) ∧
    gas_wf (gas a) ∧ gas_room (gas a) = gas_room (gas (sv_auth s)) - gasBurn ∧ bank_fits a ∧
    iris (loose a) = iris (loose (sv_auth s)) - part (SlashFraction (sv_params s)) (iris (sb_Deposit b)).
Proof.
  intros [Hi Hg Hb Hl] Hprof Hp Eb. destruct (si_bindings _ _ _ Hi _ _ Eb) as [Hk Hd Hpr Ho].
  destruct (si_rates _ _ _ Hi) as [_ Hs]. destruct (deposit_covered _ _ _ Hi Hb Eb) as [Hdl Hok].
  destruct (part_coins_total _ _ Hs Hd Hok) as [l Hpart]. destruct (part_coins_iris _ _ _ Hs Hd Hpart) as (Hlk&Hlp&Hle).
  rewrite Z.mul_1_l in Hg.
  destruct (BurnCoins_runs ServiceDepositCoinsAccAddr l (sv_auth s)) as ([]&a'&Hburn&Hgw&Hgr&Hll&Hla);
    [done|apply Hmod|done|unfold held in *; lia|lia|done|].
  destruct (iris_sub_total _ _ Hd Hlk Hle Hok) as [r Hsub]. destruct (Hp Hprof _ Eb) as [m Hm].
  destruct (BurnCoins_total _ _ _ _ _ (bf_wf _ Hb) Hburn) as [Hwa Hta].
  exists a', (if IsAllGTE r m then with_deposit b r else with_available (with_deposit b r) false t).
  split_and!; [|done|done| |lia].
  - unfold slash_one, bind, GetServiceBinding, gets, lift, get. rewrite Eb. simpl. rewrite Hpart, (il_sort _ Hlk).
    unfold must, on_auth, zoom. rewrite Hburn, sendCoins_amt_like by done.
    unfold Slash, bind, lift. rewrite Hsub. unfold getMinDeposit, bind, gets, lift. simpl. rewrite Hm. unfold put_binding, modify.
    do 3 f_equal. rewrite Hk. by destruct (IsAllGTE r m).
  - destruct Hb as [_ Ht _ Hlo]. split; [done|intros d; by rewrite Hta|done|].
    pose proof (iris_coins_nonneg _ Hll). pose proof (il_nonneg _ Hlk). unfold int_ok in *. lia.
Qed.
Lemma gasBurn_pos : 0 ≤ gasBurn.
Proof. done. Qed.
Lemma ready_less n m s : 0 ≤ m ≤ n → ready n s → ready m s.
Proof.
  intros Hm [Hi [Hgw Hgr] Hb Hl]. split; try done. split; [done|]. pose proof gasBurn_pos. nia.
Qed.
Lemma slash_one_runs t k req b n s :
  0 ≤ n → ready (1 + n) s → sr_Profiling req = false → priced s (k, req) → bindings s !! bind_key req = Some b →
  ∃ s', slash_one acc_String t (SlashFraction (sv_params s)) req s = (Ok tt, s') ∧ ready n s' ∧
    expirations s' = expirations s ∧ returnedFees s' = returnedFees s ∧ sv_params s' = sv_params s.
Proof.
  intros Hn Hrd Hprof Hp Eb. destruct (slash_one_run t k req b s) as (a&b'&Hrun&Hgw&Hgr&Hbf&Hla); [eapply ready_less, Hrd; lia|done..|].
  eexists. split; [exact Hrun|]. split; [|done]. destruct Hrd as [Hi Hg Hb Hl].
  destruct (slash_one_ok _ _ _ _ _ _ _ Hi Eb Hrun) as (a1&b1&Heq&Hsl&Hbu).
  assert (a1 = a) as -> by (by apply (f_equal sv_auth) in Heq). assert (b1 = b') as ->.
  { apply (f_equal (λ s, bindings s !! bind_key req)) in Heq. simpl in Heq. rewrite !lookup_insert_eq in Heq. by injection Heq. }
  destruct (slashed_ok _ _ _ _ _ _ (si_rates _ _ _ Hi) (si_bindings _ _ _ Hi _ _ Eb) Hsl) as (_&Hd&Hpr).
  split; [by eapply keep_slash| |done|].
  - split; [done|]. simpl. destruct Hg. lia.
  - unfold held. simpl. rewrite (proj2 Hbu), decide_True, decide_False by (done || apply Hmod). lia.
Qed.

Lemma iris_add_total a b : iris_coins a → iris_coins b → int_ok (iris a + iris b) → ∃ c, Coins_Add a b = Ok c.
Proof.
  intros Ha Hb Hok. pose proof (iris_coins_canonical _ Ha) as [[Sa _] Na]. pose proof (iris_coins_canonical _ Hb) as [[Sb _] Nb].
  apply Coins_Add_total; [done..|]. intros d. destruct (decide (d = IrisAtto)) as [->|Hd]; [done|].
  by rewrite !iris_coins_amt by done.
Qed.
(** The fee of an open request, with what its consumer is owed already, is there. *)
Lemma fee_covered k req s :
  service_inv s → bank_fits (sv_auth s) → expirations s !! k = Some req →
  int_ok (fee_at s (sr_Consumer req) + iris (sr_ServiceFee req)).
Proof.
  intros Hi Hb Ek. pose proof (si_fees _ _ _ Hi) as Hs.
  assert (Hr : ∀ a f, returnedFees s !! a = Some f → 0 ≤ iris (rf_Coins f)) by (intros a f Hf; by apply iris_coins_nonneg, (si_returned _ _ _ Hi _ _ Hf)).
  assert (Ho : ∀ k r, expirations s !! k = Some r → 0 ≤ iris (sr_ServiceFee r)) by (intros k' r Hk; by apply iris_coins_nonneg, (si_open _ _ _ Hi _ _ Hk)).
  assert (H1 : iris (sr_ServiceFee req) ≤ open_fees s) by by apply (map_sum_le_key (λ r, iris (sr_ServiceFee r)) _ k).
  assert (H2 : 0 ≤ fee_at s (sr_Consumer req) ≤ returned s).
  { split; [by apply at_key_nonneg|]. unfold fee_at, at_key. destruct (returnedFees s !! _) as [f|] eqn:Ef;
      [by apply (map_sum_le_key (λ f, iris (rf_Coins f)) _ (sr_Consumer req))|by apply map_sum_nonneg]. }
  assert (H3 : 0 ≤ incoming s) by (apply map_sum_nonneg; intros a f Hf; by apply iris_coins_nonneg, (si_incoming _ _ _ Hi _ _ Hf)).
  pose proof (balance_le_total (sv_auth s) ServiceRequestCoinsAccAddr IrisAtto (bf_wf _ Hb)). pose proof (bf_total _ Hb IrisAtto).
  specialize (Ho _ _ Ek). unfold int_ok, held in *. lia.
Qed.
Lemma AddReturnFee_run k req s :
  service_inv s → bank_fits (sv_auth s) → expirations s !! k = Some req →
  ∃ c, AddReturnFee (sr_Consumer req) (sr_ServiceFee req) s =
         (Ok tt, set_returnedFees (insert (sr_Consumer req) (NewReturnedFee (sr_Consumer req) c)) s).
Proof.
  intros Hi Hb Ek. pose proof (fee_covered _ _ _ Hi Hb Ek) as Hok. destruct (si_open _ _ _ Hi _ _ Ek) as (_&Hf&_).
  unfold AddReturnFee, GetReturnFee, bind, gets, SetReturnFee, modify, lift. unfold fee_at, at_key in Hok.
  destruct (returnedFees s !! sr_Consumer req) as [f|] eqn:Ef; [|by eexists].
  destruct (iris_add_total _ _ (proj1 (si_returned _ _ _ Hi _ _ Ef)) Hf Hok) as [c ->]. by eexists.
Qed.

Lemma expire_one_runs t k req n s :
  0 ≤ n → ready (1 + n) s → priced s (k, req) → expirations s !! k = Some req →
  ∃ s', expire_one t (SlashFraction (sv_params s)) req s = (Ok tt, s') ∧ ready n s'.
Proof.
  intros Hn Hrd Hp Ek. pose proof (rd_inv _ _ Hrd) as Hi. destruct (si_open _ _ _ Hi _ _ Ek) as (Hk&_&b&Eb).
  assert (Hs1 : ∃ s1, (if sr_Profiling req then ret tt else slash_one acc_String t (SlashFraction (sv_params s)) req) s = (Ok tt, s1) ∧
    ready n s1 ∧ expirations s1 = expirations s).
  { destruct (sr_Profiling req) eqn:Hprof; [exists s; split_and!; [done|eapply ready_less, Hrd; lia|done]|].
    destruct (slash_one_runs t k req b n s Hn Hrd Hprof Hp Eb) as (s1&?&?&?&_). by exists s1. }
  destruct Hs1 as (s1&Hrun&Hrd1&Hexp).
  destruct (AddReturnFee_run k req s1) as [c Hc]; [apply Hrd1|apply Hrd1|by rewrite Hexp|].
  assert (Hall : expire_one t (SlashFraction (sv_params s)) req s = (Ok tt, expire_record acc_String req c s1)).
  { unfold ServiceKeeper.expire_one. rewrite (bind_run _ _ _ _ _ Hrun), (bind_run _ _ _ _ _ Hc). done. }
  exists (expire_record acc_String req c s1). split; [exact Hall|].
  pose proof (expire_one_expired _ _ _ _ _ _ Hi Ek Hall) as He. destruct Hrd1 as [_ Hg Hb Hl].
  split; [apply He|done..].
Qed.
Lemma expire_all_runs t l n s :
  0 ≤ n → ready (Z.of_nat (length l) + n) s → Forall (priced s) l → NoDup l.*1 → (∀ k r, (k, r) ∈ l → expirations s !! k = Some r) →
  ∃ s', for_each l (λ kr, expire_one t (SlashFraction (sv_params s)) kr.2) s = (Ok tt, s') ∧ ready n s'.
Proof.
  intros Hn. revert s. induction l as [|[k r] l IH]; intros s Hrd Hpr Hnd Hl; [by exists s|].
  apply Forall_cons in Hpr as [Hp Hpr]. apply NoDup_cons in Hnd as [Hk Hnd]. pose proof (Hl k r ltac:(by left)) as Ek.
  destruct (expire_one_runs t k r (Z.of_nat (length l) + n) s) as (s1&Hrun&Hrd1); [lia| |done|done|].
  { replace (1 + (Z.of_nat (length l) + n)) with (Z.of_nat (length ((k, r) :: l)) + n) by (simpl; lia). done. }
  pose proof (expire_one_expired _ _ _ _ _ _ (rd_inv _ _ Hrd) Ek Hrun) as He.
  destruct (IH s1 Hrd1) as (s'&Hrun'&Hrd'); [|done|..].
  { eapply Forall_impl; [exact Hpr|]. intros kr Hkr. apply (priced_same s s1); [apply He|apply He|done]. }
  { intros k' r' Hin. rewrite (ex_open _ _ _ He), decide_False; [by apply Hl; right|].
    simpl. intros ->%list_elem_of_singleton. by apply Hk, (list_elem_of_fmap_2 fst _ (k, r')). }
  exists s'. split; [|done]. simpl. rewrite (bind_run _ _ _ _ _ Hrun). by rewrite (ex_params _ _ _ He) in Hrun'.
Qed.
End timeout.
End ServiceTimeout.
