(* ===== verification/ServiceThms.v ===== *)
(** * Services: solvency, timeouts, fees and responses

    What the service module owes is always covered by its accounts; the end of a
    block settles exactly the requests that expire; the fees that are owed can be
    taken out; a response is paid once. *)

From S2P Require Import Prelude SdkErrors IntType GoStrings Denom Coin CoinFacts Dec Gas KVStore Auth Bank BankFacts BankBurn BankFrame StdTx Guardian Service ServiceKeeper ServiceFacts ServiceTimeout.
#[local] Open Scope Z_scope.

Module ServiceThms.
Import Service ServiceKeeper ServiceFacts ServiceTimeout.

Section thms.
Context `{Crypto}.
Variable Parse : string → option ProtoDefinition.
Variable acc_String : AccAddress → string.
Variable mainnet : bool.
Hypothesis Hmod : modules_distinct.
Abbreviation service_inv := (service_inv acc_String).

Lemma guard_ok b e u : guard b e = Ok u → b = true.
Proof. unfold guard. by destruct b. Qed.
Lemma validateParams_rates p : validateParams mainnet p = Ok tt → rates_ok p.
Proof.
  unfold validateParams, validateSlashFraction, validateServiceFeeTax. intros Hr. inv_ok Hr.
  repeat match goal with E : guard _ _ = Ok _ |- _ => apply guard_ok, negb_true_iff, orb_false_iff in E as [??] end.
  repeat match goal with E : NewDecWithPrec _ _ = Ok _ |- _ => vm_compute in E; injection E as <- end.
  unfold Dec_LTE, Dec_GT in *. change ZeroDec with 0 in *. unfold rates_ok. change precisionReuse with (10^10). lia.
Qed.

Lemma service_Handler_keeps h t msg s u s' :
  ValidateBasic Parse msg = Ok tt → Forall outside (GetSigners msg) →
  Handler Parse acc_String h t msg s = (Ok u, s') → service_inv s → service_inv s'.
Proof.
  intros Hv Ho Hr Hi. destruct msg; simpl in *; try (apply Forall_cons in Ho as [Ho _]).
  - by eapply keep_SvcDef.
  - unfold MsgSvcBind_ValidateBasic, validate_prices in Hv. inv_ok Hv.
    eapply keep_bind; [| | | |exact Hr|exact Hi]; [done|by eapply guard_ok|by eapply guard_ok|done].
  - unfold MsgSvcBindingUpdate_ValidateBasic, validate_prices in Hv. inv_ok Hv.
    eapply keep_update; [| | | |exact Hr|exact Hi]; [done|by eapply guard_ok|by eapply guard_ok|done].
  - by eapply keep_disable.
  - unfold MsgSvcEnable_ValidateBasic in Hv. inv_ok Hv. eapply keep_enable; [| |exact Hr|exact Hi]; [done|by eapply guard_ok].
  - by eapply keep_refund_deposit.
  - by eapply keep_request.
  - by eapply keep_response.
  - by eapply keep_refund_fee.
  - by eapply keep_withdraw_fee.
  - unfold MsgSvcWithdrawTax_ValidateBasic in Hv. inv_ok Hv. eapply keep_withdraw_tax; [| |exact Hr|exact Hi]; [done|by eapply guard_ok].
  - done.
Qed.

(** ** Solvency *)

(** What can happen to the module: its messages, the end of a block, and what other
    modules do to the accounts, the guardians and the parameters.  No one signs for
    the accounts of the module. *)
Inductive service_step (s : ServiceState) : ServiceState → Prop :=
| step_msg h t msg s' : ValidateBasic Parse msg = Ok tt → Forall outside (GetSigners msg) →
    Handler Parse acc_String h t msg s = (Ok tt, s') → service_step s s'
| step_end h t s' : EndBlocker acc_String h t s = (Ok tt, s') → service_step s s'
| step_bank a : auth_wf a → held s ServiceDepositCoinsAccAddr ≤ balance a ServiceDepositCoinsAccAddr IrisAtto →
    held s ServiceRequestCoinsAccAddr ≤ balance a ServiceRequestCoinsAccAddr IrisAtto → service_step s (set_auth a s)
| step_guardian g : service_step s (mkService (sv_auth s) g (definitions s) (methods s) (bindings s) (requests s) (responses s)
    (expirations s) (intraTxCounter s) (activeRequests s) (returnedFees s) (incomingFees s) (sv_params s))
| step_params p : validateParams mainnet p = Ok tt → service_step s (set_params p s).

Definition fresh (s : ServiceState) : Prop :=
  auth_wf (sv_auth s) ∧ validateParams mainnet (sv_params s) = Ok tt ∧
  bindings s = ∅ ∧ expirations s = ∅ ∧ returnedFees s = ∅ ∧ incomingFees s = ∅.
Lemma fresh_inv s : fresh s → service_inv s.
Proof.
  intros (Hw&Hp&Eb&Ee&Er&Ei). split; unfold deposits, open_fees, returned, incoming; rewrite ?Eb, ?Ee, ?Er, ?Ei; try done.
  - by apply validateParams_rates.
  - by apply balance_nonneg.
  - by apply balance_nonneg.
Qed.
Lemma step_keeps s s' : service_step s s' → service_inv s → service_inv s'.
Proof.
  intros [h t msg s1 Hv Ho Hr|h t s1 Hr|a Hw Hd Hq|g|p Hp] Hi.
  - by eapply service_Handler_keeps.
  - by eapply ex_inv, EndBlocker_expired.
  - eapply inv_auth; [done|done| |exact Hi]. lia.
  - by apply (inv_core _ 0 s).
  - destruct Hi as [H1 H2 H3 H4 H5 H6 H7 H8]. split; try done. by apply validateParams_rates.
Qed.

Lemma reach_inv s s' : fresh s → rtc service_step s s' → service_inv s'.
Proof.
  intros Hs Hst. apply fresh_inv in Hs. induction Hst as [|s s1 s' H1 _ IH]; [done|]. by apply IH, (step_keeps s).
Qed.

(** C13. Whatever the messages, blocks and other changes since the start, the account of
    deposits covers the deposits of all bindings, and the account of fees covers the
    fees of the open requests with what is owed to consumers and providers. *)
Theorem service_solvent (s s' : ServiceState) (Hs : fresh s) (Hst : rtc service_step s s') :
  deposits s' ≤ held s' ServiceDepositCoinsAccAddr ∧
  open_fees s' + returned s' + incoming s' ≤ held s' ServiceRequestCoinsAccAddr ∧
  (∀ k b, bindings s' !! k = Some b → iris_coins (sb_Deposit b)) ∧
  (∀ k r, expirations s' !! k = Some r → iris_coins (sr_ServiceFee r)).
Proof.
  pose proof (reach_inv _ _ Hs Hst) as Hi.
  split_and!; [apply Hi|apply Hi| |]; intros k x Hx; [by apply (si_bindings _ _ _ Hi _ _ Hx)|by apply (si_open _ _ _ Hi _ _ Hx)].
Qed.

(** ** Timeouts *)

(** C28. At the end of a block the requests that expire are dealt with.  Given gas for
    them, accounts that fit the integers of the bank, and recorded loose tokens that
    cover the account of the deposits, the end block goes through exactly when the
    smallest deposit can be computed for the prices of every provider that is to be
    slashed; otherwise it panics or fails.  When it goes through, exactly those
    requests are closed, each consumer is credited with the fees of its requests, the
    deposit of a provider is slashed once for each request it left unanswered, and
    exactly what is slashed is burned. *)
Theorem service_timeout (h t : Z) (s : ServiceState)
    (Hrd : ready acc_String (Z.of_nat (length (ActiveRequestQueueIterator h s))) s) :
  ((∃ s', EndBlocker acc_String h t s = (Ok tt, s')) ↔ Forall (priced acc_String s) (ActiveRequestQueueIterator h s)) ∧
  ∀ s', EndBlocker acc_String h t s = (Ok tt, s') →
    expired acc_String (ActiveRequestQueueIterator h s) s s' ∧ ActiveRequestQueueIterator h s' = [].
Proof.
  set (l := ActiveRequestQueueIterator h s) in *.
  assert (Hl : ∀ k r, (k, r) ∈ l → expirations s !! k = Some r) by by intros k r [? _]%prefix_iterator_elem.
  split; [split|].
  - intros (s'&Hend). exact (ex_priced _ _ _ _ (EndBlocker_expired _ Hmod h t s tt s' (rd_inv _ _ _ Hrd) Hend)).
  - intros Hp. assert (Hr0 : ready acc_String (Z.of_nat (length l) + 0) (set_counter (Some 0) s)).
    { rewrite Z.add_0_r. destruct Hrd as [Hi Hg Hb Hlo]. split; try done. by apply (inv_core _ 0 s). }
    destruct (expire_all_runs acc_String Hmod t l 0 (set_counter (Some 0) s)) as (s'&Hrun&_); [done|done|done|apply prefix_iterator_NoDup|done|].
    by exists s'.
  - intros s' Hend. destruct (EndBlocker_expired _ Hmod h t s tt s' (rd_inv _ _ _ Hrd) Hend) as [I O R D T B C N P]. split; [by split|].
    destruct (ActiveRequestQueueIterator h s') as [|[k r] l'] eqn:El; [done|].
    assert (Hk : (k, r) ∈ ActiveRequestQueueIterator h s') by (rewrite El; by left).
    apply prefix_iterator_elem in Hk as [Hk Hpre]. rewrite O in Hk. case_decide as Hin; [done|]. destruct Hin.
    apply (list_elem_of_fmap_2 fst _ (k, r)). by apply prefix_iterator_elem.
Qed.

(** ** Fees *)
Lemma owed_covered {V} (f : V → Coins) (m : gmap string V) k v :
  (∀ k v, m !! k = Some v → iris_coins (f v)) → m !! k = Some v → 0 ≤ iris (f v) ≤ map_sum (λ v, iris (f v)) m.
Proof.
  intros Hm Hk. split; [by eapply iris_coins_nonneg, Hm|]. apply (map_sum_le_key (λ v, iris (f v)) _ k); [|done].
  intros k' v' Hk'. by eapply iris_coins_nonneg, Hm.
Qed.
Lemma map_owed_nonneg {V} (f : V → Coins) (m : gmap string V) :
  (∀ k v, m !! k = Some v → iris_coins (f v)) → 0 ≤ map_sum (λ v, iris (f v)) m.
Proof. intros Hm. apply map_sum_nonneg. intros k v Hk. by eapply iris_coins_nonneg, Hm. Qed.
Lemma pay_run c a s :
  service_inv s → iris_coins c → outside a → iris c ≤ held s ServiceRequestCoinsAccAddr →
  auth_fits (sv_auth s) ServiceRequestCoinsAccAddr a c →
  ∃ b, on_auth (sendCoins ServiceRequestCoinsAccAddr a c) s = (Ok tt, set_auth b s) ∧ balance b a IrisAtto = held s a + iris c.
Proof.
  intros Hi Hc [_ Ha] Hle Hf. destruct (sendCoins_total ServiceRequestCoinsAccAddr a c (sv_auth s)) as [b Hb].
  { apply Hi. } { done. } { done. } { by apply iris_like_valid, iris_coins_like. }
  { intros d. destruct (decide (d = IrisAtto)) as [->|Hd]; [done|]. rewrite iris_coins_amt by done. apply balance_nonneg, Hi. }
  exists b. split; [apply zoom_ok; by exists b|].
  destruct (sendCoins_ok _ _ _ _ _ _ (si_auth _ _ _ Hi) Hb) as (_&_&Hbal&_). rewrite Hbal, decide_False, decide_True by done.
  unfold held. lia.
Qed.

(** In every state that is reached, a provider can take out exactly the fees it has
    earned and a consumer exactly the fees it is to get back, where the bank has
    the gas and the range for the transfer. *)
Theorem service_fees_paid (s0 s : ServiceState) (a : AccAddress)
    (Hs : fresh s0) (Hst : rtc service_step s0 s) (Ha : outside a) :
  (∀ f, incomingFees s !! a = Some f → auth_fits (sv_auth s) ServiceRequestCoinsAccAddr a (if_Coins f) →
     ∃ s', WithdrawFee a s = (Ok tt, s') ∧ held s' a = held s a + iris (if_Coins f) ∧
           incomingFees s' = delete a (incomingFees s)) ∧
  (∀ f, returnedFees s !! a = Some f → auth_fits (sv_auth s) ServiceRequestCoinsAccAddr a (rf_Coins f) →
     ∃ s', RefundFee a s = (Ok tt, s') ∧ held s' a = held s a + iris (rf_Coins f) ∧
           returnedFees s' = delete a (returnedFees s)).
Proof.
  pose proof (reach_inv _ _ Hs Hst) as Hi. pose proof (si_fees _ _ _ Hi) as Hfees. unfold open_fees, returned, incoming in Hfees.
  pose proof (map_owed_nonneg sr_ServiceFee _ (λ k r Hk, proj1 (proj2 (si_open _ _ _ Hi k r Hk)))).
  pose proof (map_owed_nonneg rf_Coins _ (λ k f Hk, proj1 (si_returned _ _ _ Hi k f Hk))).
  pose proof (map_owed_nonneg if_Coins _ (λ k f Hk, proj1 (si_incoming _ _ _ Hi k f Hk))).
  split; intros f Hf Hfit.
  - pose proof (owed_covered if_Coins _ _ _ (λ k f Hk, proj1 (si_incoming _ _ _ Hi k f Hk)) Hf).
    destruct (pay_run (if_Coins f) a s) as (b&Hb&Hbal); [done|by apply (si_incoming _ _ _ Hi _ _ Hf)|done|lia|done|].
    eexists. unfold WithdrawFee, GetIncomingFee. unfold bind at 1, gets at 1. rewrite Hf, (bind_run _ _ _ _ _ Hb). done.
  - pose proof (owed_covered rf_Coins _ _ _ (λ k f Hk, proj1 (si_returned _ _ _ Hi k f Hk)) Hf).
    destruct (pay_run (rf_Coins f) a s) as (b&Hb&Hbal); [done|by apply (si_returned _ _ _ Hi _ _ Hf)|done|lia|done|].
    eexists. unfold RefundFee, GetReturnFee. unfold bind at 1, gets at 1. rewrite Hf, (bind_run _ _ _ _ _ Hb). done.
Qed.

(** ** Responses *)
Definition earned_at (s : ServiceState) (a : AccAddress) : Z := at_key (λ f, iris (if_Coins f)) (incomingFees s) a.
Definition request_key (requestID : string) : string :=
  let '(eHeight, rHeight, counter, _) := ConvertRequestID requestID in GetRequestsByExpirationIndexKey eHeight rHeight counter.

(** C36. A response that is accepted is that of the provider of an open request; the
    request is closed, the provider earns its fee less the tax and the tax goes to
    the tax account, no other balance changes, and no further response to it is
    accepted. *)
Theorem service_response_once (s0 s s' : ServiceState) (msg : MsgSvcResponse)
    (Hs : fresh s0) (Hst : rtc service_step s0 s) (Hr : handleMsgSvcResponse acc_String msg s = (Ok tt, s')) :
  ∃ r, expirations s !! request_key (ms_RequestID msg) = Some r ∧ ms_Provider msg = sr_Provider r ∧
    expirations s' = delete (request_key (ms_RequestID msg)) (expirations s) ∧
    (let tax := part (ServiceFeeTax (sv_params s)) (iris (sr_ServiceFee r)) in
     earned_at s' (ms_Provider msg) = earned_at s (ms_Provider msg) + (iris (sr_ServiceFee r) - tax) ∧
     ∀ x, held s' x = held s x - (if decide (x = ServiceRequestCoinsAccAddr) then tax else 0)
                               + (if decide (x = ServiceTaxCoinsAccAddr) then tax else 0)) ∧
    ∀ msg', ms_RequestID msg' = ms_RequestID msg →
      handleMsgSvcResponse acc_String msg' s' = (Err (service_err CodeRequestNotActive), s').
Proof.
  pose proof (reach_inv _ _ Hs Hst) as Hi. unfold handleMsgSvcResponse, request_key in *.
  destruct (ConvertRequestID (ms_RequestID msg)) as [[[e h] c] err] eqn:Ec. set (k := GetRequestsByExpirationIndexKey e h c) in *.
  unfold GetActiveRequest in *. unfold bind at 1, gets at 1 in Hr. fold k in Hr.
  destruct (expirations s !! k) as [r|] eqn:Er; [|done]. destruct (si_open _ _ _ Hi _ _ Er) as (Hk&Hf&_).
  unfold AddResponse, DeleteActiveRequest, DeleteRequestExpiration in Hr. inv_ok Hr. rewrite <-Hk in Hr.
  apply AccAddress_Equals_iff in E.
  apply AddIncomingFee_ok in Hr as (_&b&d&->&Hd&Hda&_&Hb);
    [|done|apply Hi|apply Hi|intros f Hff; by apply (si_incoming _ _ _ Hi _ _ Hff)]. exists r. split_and!; [done|done|done| |exact Hb|].
  - unfold earned_at, at_key. simpl. rewrite lookup_insert_eq. exact Hda.
  - intros msg' ->. rewrite Ec. unfold bind at 1, gets at 1. fold k. simpl. by rewrite lookup_delete_eq.
Qed.
End thms.

(** ** Examples *)
#[local] Existing Instance name_crypto.
Definition ex_parse (_ : string) : option ProtoDefinition := Some (mkProto 1 [mkRPC "call" None] []).
Abbreviation ex_Handler := (Handler ex_parse id).
Definition ex0 : ServiceState :=
  mkService (ex_bank [("alice", [mkCoin IrisAtto 500000]); ("bob", [mkCoin IrisAtto 1000])] 1000000 []) ∅ ∅ ∅ ∅ ∅ ∅ ∅
    None ∅ ∅ ∅ DefaultParams.
Definition ex_def : ServiceMsg := SvcDefMsg (NewSvcDef "svc" "iris" "" [] "alice" "" "idl").
Definition ex_bind : ServiceMsg :=
  SvcBindMsg (mkBind "svc" "iris" "iris" "alice" Local [mkCoin IrisAtto 100000] [mkCoin IrisAtto 100] (mkLevel 1 1)).
Definition ex_request : ServiceMsg :=
  SvcRequestMsg (mkMsgRequest "iris" "svc" "iris" "iris" 1 "alice" "bob" "in" [mkCoin IrisAtto 100] false).
Definition ex_response : MsgSvcResponse := mkMsgResponse "iris" "110-10-0" "alice" "out" "".
Definition ex1 : ServiceState := (ex_Handler 10 0 ex_def ex0).2.
Definition ex2 : ServiceState := (ex_Handler 10 0 ex_bind ex1).2.
Definition ex3 : ServiceState := (ex_Handler 10 0 ex_request ex2).2.
Definition ex4 : ServiceState := (handleMsgSvcResponse id ex_response ex3).2.

Lemma ex_modules : modules_distinct.
Proof. split; vm_compute; discriminate. Qed.
Lemma ex_fresh : fresh true ex0.
Proof. split_and!; [|done..]. apply auth_wfb_ok. vm_compute. reflexivity. Qed.
Lemma ex_outside a : a = "alice" ∨ a = "bob" → outside a.
Proof. intros [->| ->]; split; vm_compute; discriminate. Qed.
Lemma ex_step h t msg s :
  ValidateBasic ex_parse msg = Ok tt → GetSigners msg = ["alice"] ∨ GetSigners msg = ["bob"] → (ex_Handler h t msg s).1 = Ok tt →
  service_step ex_parse id true s (ex_Handler h t msg s).2.
Proof.
  intros Hv Hs Hr. eapply step_msg; [exact Hv| |by apply run_ok].
  destruct Hs as [-> | ->]; repeat constructor; apply ex_outside; auto.
Qed.
Lemma ex_reach3 : rtc (service_step ex_parse id true) ex0 ex3.
Proof.
  eapply rtc_l; [apply (ex_step 10 0 ex_def); vm_compute; auto|]. fold ex1.
  eapply rtc_l; [apply (ex_step 10 0 ex_bind); vm_compute; auto|]. fold ex2.
  eapply rtc_l; [apply (ex_step 10 0 ex_request); vm_compute; auto|]. apply rtc_refl.
Qed.
Lemma ex_reach4 : rtc (service_step ex_parse id true) ex0 ex4.
Proof.
  eapply rtc_r; [exact ex_reach3|]. apply (ex_step 20 0 (SvcResponseMsg ex_response)); vm_compute; auto.
Qed.

Lemma service_solvent_witness : deposits ex3 ≤ held ex3 ServiceDepositCoinsAccAddr ∧ deposits ex3 = 100000 ∧ open_fees ex3 = 100.
Proof.
  destruct (service_solvent ex_parse id true ex_modules ex0 ex3 ex_fresh ex_reach3) as (Hd&_).
  split; [exact Hd|]. split; vm_compute; reflexivity.
Defined.

Lemma service_fees_paid_witness : ∃ s', WithdrawFee "alice" ex4 = (Ok tt, s') ∧ held s' "alice" = held ex4 "alice" + 99.
Proof.
  destruct (service_fees_paid ex_parse id true ex_modules ex0 ex4 "alice" ex_fresh ex_reach4 (ex_outside _ (or_introl eq_refl))) as [Hw _].
  destruct (Hw (NewIncomingFee "alice" [mkCoin IrisAtto 99])) as (s'&Hr&Hb&_).
  - vm_compute. reflexivity.
  - split_and!; [split; [vm_compute; intuition discriminate|vm_compute; discriminate]|discriminate| |].
    + replace (coins_of (sv_auth ex4) _) with [mkCoin IrisAtto 99] by (vm_compute; reflexivity).
      constructor; [by split|constructor].
    + intros d. unfold balance. replace (coins_of (sv_auth ex4) "alice") with [mkCoin IrisAtto 400000] by (vm_compute; reflexivity).
      unfold int_ok. simpl. case_decide; lia.
  - exists s'. split; [exact Hr|exact Hb].
Defined.

Lemma service_response_once_witness : earned_at ex4 "alice" = earned_at ex3 "alice" + 99.
Proof.
  destruct (service_response_once ex_parse id true ex_modules ex0 ex3 ex4 ex_response ex_fresh ex_reach3) as (r&Hr&_&_&[He _]&_).
  - run_vm.
  - vm_compute in Hr. injection Hr as <-. exact He.
Defined.

Definition is_ok {A} (o : Outcome A) : bool := match o with Ok _ => true | _ => false end.
Lemma service_timeout_witness :
  ∃ s', EndBlocker id 110 5 ex3 = (Ok tt, s') ∧ fee_at s' "bob" = 100 ∧
    deposit_at s' (GetServiceBindingKey id "iris" "svc" "iris" "alice") = 99900.
Proof.
  pose proof (reach_inv ex_parse id true ex_modules _ _ ex_fresh ex_reach3) as Hi.
  destruct (service_timeout id ex_modules 110 5 ex3) as [[_ Hgo] He].
  - split; [exact Hi| | |].
    + split; [vm_compute; intuition discriminate|vm_compute; discriminate].
    + split; [apply Hi| | |].
      * intros d. eapply Z.le_lt_trans; [apply total_bound, Hi|]. vm_compute. reflexivity.
      * right. exists 1000000. split; [done|vm_compute; reflexivity].
      * vm_compute. auto.
    + vm_compute. discriminate.
  - destruct Hgo as [s' Hr].
    { apply Forall_forall. intros kr _ _ b Hb%elem_of_map_to_list.
      assert (Hall : forallb (λ kb, is_ok (min_deposit 1000 [] (sb_Prices kb.2))) (map_to_list (bindings ex3)) = true)
        by (vm_compute; reflexivity).
      apply forallb_Forall_true in Hall. apply (proj1 (Forall_forall _ _) Hall) in Hb. simpl in Hb.
      change (NewInt _) with 1000. destruct (min_deposit 1000 [] (sb_Prices b)) as [m| |]; [by exists m|done..]. }
    exists s'. split; [exact Hr|]. destruct (He s' Hr) as [[_ _ Hret Hdep _ _ _ _ _] _]. split; [rewrite Hret|rewrite Hdep]; vm_compute; reflexivity.
Defined.

(** ** Two flaws *)

Definition ex_key : MsgSvcKey := mkKey "svc" "iris" "iris" "alice".
Definition ex_raise : MsgSvcBind :=
  mkBind "svc" "iris" "iris" "alice" Local [mkCoin IrisAtto 1] [mkCoin IrisAtto (2^254)] (mkLevel 0 0).
Definition ex5 : ServiceState := (ex_Handler 11 0 (SvcDisableMsg ex_key) ex3).2.
Definition ex6 : ServiceState := (ex_Handler 12 0 (SvcBindingUpdateMsg ex_raise) ex5).2.
(** A provider with an open request disables its binding and then raises the price
    beyond what a deposit can be computed for; both messages are accepted, and the
    end of the block in which the request expires panics. *)
Example price_update_halts :
  ValidateBasic ex_parse (SvcDisableMsg ex_key) = Ok tt ∧ ValidateBasic ex_parse (SvcBindingUpdateMsg ex_raise) = Ok tt ∧
  ex_Handler 11 0 (SvcDisableMsg ex_key) ex3 = (Ok tt, ex5) ∧
  ex_Handler 12 0 (SvcBindingUpdateMsg ex_raise) ex5 = (Ok tt, ex6) ∧
  (EndBlocker id 110 5 ex6).1 = Panic "error".
Proof.
  split; [vm_compute; reflexivity|]. split; [vm_compute; reflexivity|]. split; [run_vm|]. split; [run_vm|].
  vm_compute. reflexivity.
Qed.

Definition ex7 : ServiceState := (ex_Handler 1200000 0 ex_request ex2).2.
Definition ex8 : ServiceState := (EndBlocker id 1200000 0 ex7).2.
Definition ex9 : ServiceState := (ex_Handler 1200001 0 ex_request ex8).2.
(** Two requests of a consumer in blocks above height 1114111 share a key: the second
    takes the place of the first among the active requests, and when the chain is
    restarted from height zero only one of the two fees is paid back. *)
Example requests_share_key :
  ex_Handler 1200000 0 ex_request ex2 = (Ok tt, ex7) ∧ EndBlocker id 1200000 0 ex7 = (Ok tt, ex8) ∧
  ex_Handler 1200001 0 ex_request ex8 = (Ok tt, ex9) ∧
  size (expirations ex9) = 2%nat ∧ size (activeRequests ex9) = 1%nat ∧
  ∃ s', PrepForZeroHeightGenesis ex9 = (Ok tt, s') ∧ held s' "bob" = 900 ∧ held s' ServiceRequestCoinsAccAddr = 100.
Proof.
  split; [run_vm|]. split; [run_vm|]. split; [run_vm|]. split; [vm_compute; reflexivity|]. split; [vm_compute; reflexivity|].
  eexists. split; [run_vm|]. split; vm_compute; reflexivity.
Qed.
End ServiceThms.
