(* ===== verification/StakeTypes.v ===== *)
(** * Staking: data, messages and keys (app/v1/stake/types, keeper/key.go)

    Validators hold tokens against shares of their delegators; a pool records the
    bonded tokens and the bank the loose ones.  This file has the records with
    their operations, the checks of the messages, the parameters and the keys of
    the store. *)

From Stdlib Require Import Ascii.
From S2P Require Import Prelude SdkErrors IntType GoStrings Denom Coin Dec TimeBytes Auth Bank StdTx.
#[local] Open Scope Z_scope.

Module StakeTypes.
(** ** Errors (errors.go) *)
Definition DefaultCodespace : string := "stake".
Definition CodeInvalidValidator : Z := 101.
Definition CodeInvalidDelegation : Z := 102.
Definition CodeInvalidInput : Z := 103.
Definition CodeValidatorJailed : Z := 104.
Definition stake_err (c : Z) : Error := NewError DefaultCodespace c.
Definition ErrNilValidatorAddr : Error := stake_err CodeInvalidInput.
Definition ErrNoValidatorFound : Error := stake_err CodeInvalidValidator.
Definition ErrValidatorOwnerExists : Error := stake_err CodeInvalidValidator.
Definition ErrValidatorPubKeyExists : Error := stake_err CodeInvalidValidator.
Definition ErrValidatorPubKeyTypeNotSupported : Error := stake_err CodeInvalidValidator.
Definition ErrValidatorJailed : Error := stake_err CodeInvalidValidator.
Definition ErrDescriptionLength : Error := stake_err CodeInvalidValidator.
Definition ErrCommissionNegative : Error := stake_err CodeInvalidValidator.
Definition ErrCommissionHuge : Error := stake_err CodeInvalidValidator.
Definition ErrCommissionGTMaxRate : Error := stake_err CodeInvalidValidator.
Definition ErrCommissionUpdateTime : Error := stake_err CodeInvalidValidator.
Definition ErrCommissionChangeRateNegative : Error := stake_err CodeInvalidValidator.
Definition ErrCommissionChangeRateGTMaxRate : Error := stake_err CodeInvalidValidator.
Definition ErrCommissionGTMaxChangeRate : Error := stake_err CodeInvalidValidator.
Definition ErrNilDelegatorAddr : Error := stake_err CodeInvalidInput.
Definition ErrBadDelegationAmount : Error := stake_err CodeInvalidDelegation.
Definition ErrNoDelegation : Error := stake_err CodeInvalidDelegation.
Definition ErrNoDelegatorForAddress : Error := stake_err CodeInvalidDelegation.
Definition ErrNotEnoughDelegationShares : Error := stake_err CodeInvalidDelegation.
Definition ErrBadSharesAmount : Error := stake_err CodeInvalidDelegation.
Definition ErrNotMature : Error := stake_err CodeUnauthorized.
Definition ErrNoUnbondingDelegation : Error := stake_err CodeInvalidDelegation.
Definition ErrExistingUnbondingDelegation : Error := stake_err CodeInvalidDelegation.
Definition ErrNoRedelegation : Error := stake_err CodeInvalidDelegation.
Definition ErrSelfRedelegation : Error := stake_err CodeInvalidDelegation.
Definition ErrBadRedelegationDst : Error := stake_err CodeInvalidDelegation.
Definition ErrTransitiveRedelegation : Error := stake_err CodeInvalidDelegation.
Definition ErrConflictingRedelegation : Error := stake_err CodeInvalidDelegation.
Definition ErrDelegatorShareExRateInvalid : Error := stake_err CodeInvalidDelegation.

Definition ensure (b : bool) (e : Error) : Outcome unit := if b then Ok tt else Err e.

(** ** Keys of consensus, and addresses

    The text of a key stands for it; its address and the name of its type for
    Tendermint are given by the cryptographic library. *)
Abbreviation ValAddress := string (only parsing).
Abbreviation ConsAddress := string (only parsing).
Abbreviation ConsKey := string (only parsing).
Class ConsCrypto := { PubKey_Address : ConsKey → ConsAddress; TM2PB_Type : ConsKey → string }.
Definition AddrLen : nat := 20.
Definition StakeDenom : string := IrisAtto.
Definition ValidatorUpdateDelay : Z := 1.
Definition AttoScaleFactor : Int := 10^18.

(** ** Commission (commission.go); a rate that was not sent is nil *)
Record Commission := mkCommission { Rate : Dec; MaxRate : Dec; MaxChangeRate : Dec; UpdateTime : Z }.
Record CommissionMsg := mkCommissionMsg { cm_Rate : option Dec; cm_MaxRate : option Dec; cm_MaxChangeRate : option Dec }.
Definition NewCommission (rate maxRate maxChangeRate : Dec) : Commission := mkCommission rate maxRate maxChangeRate 0.
Definition NewCommissionWithTime (rate maxRate maxChangeRate : Dec) (updatedAt : Z) : Commission :=
  mkCommission rate maxRate maxChangeRate updatedAt.
Definition Commission_Equal (c c2 : Commission) : bool :=
  Dec_Equal (Rate c) (Rate c2) && Dec_Equal (MaxRate c) (MaxRate c2) &&
  Dec_Equal (MaxChangeRate c) (MaxChangeRate c2) && (UpdateTime c =? UpdateTime c2).
Definition Commission_Validate (c : Commission) : Outcome unit :=
  if Dec_LT (MaxRate c) ZeroDec then Err ErrCommissionNegative else
  if Dec_GT (MaxRate c) OneDec then Err ErrCommissionHuge else
  if Dec_LT (Rate c) ZeroDec then Err ErrCommissionNegative else
  if Dec_GT (Rate c) (MaxRate c) then Err ErrCommissionGTMaxRate else
  if Dec_LT (MaxChangeRate c) ZeroDec then Err ErrCommissionChangeRateNegative else
  if Dec_GT (MaxChangeRate c) (MaxRate c) then Err ErrCommissionChangeRateGTMaxRate else Ok tt.
(** [Sub] saturates far outside a day, where [Hours] is still compared with 24. *)
Definition ValidateNewRate (c : Commission) (newRate : Dec) (blockTime : Z) : Outcome unit :=
  if blockTime - UpdateTime c <? 24 * 3600 * Second then Err ErrCommissionUpdateTime else
  if Dec_LT newRate ZeroDec then Err ErrCommissionNegative else
  if Dec_GT newRate (MaxRate c) then Err ErrCommissionGTMaxRate else
  let? change := Dec_Sub newRate (Rate c) in
  if Dec_GT (Dec_Abs change) (MaxChangeRate c) then Err ErrCommissionGTMaxChangeRate else Ok tt.

(** ** Descriptions (validator.go) *)
Record Description := NewDescription { Moniker : string; Identity : string; Website : string; Details : string }.
#[export] Instance Description_eq_dec : EqDecision Description.
Proof. solve_decision. Defined.
Definition DoNotModifyDesc : string := "[do-not-modify]".
Definition EnsureLength (d : Description) : Outcome Description :=
  if (70 <? str_len (Moniker d))%nat then Err ErrDescriptionLength else
  if 3000 <? Z.of_nat (str_len (Identity d)) then Err ErrDescriptionLength else
  if (140 <? str_len (Website d))%nat then Err ErrDescriptionLength else
  if (280 <? str_len (Details d))%nat then Err ErrDescriptionLength else Ok d.
Definition keep_field (old new : string) : string := if bool_decide (new = DoNotModifyDesc) then old else new.
Definition UpdateDescription (d d2 : Description) : Outcome Description :=
  EnsureLength (NewDescription (keep_field (Moniker d) (Moniker d2)) (keep_field (Identity d) (Identity d2))
    (keep_field (Website d) (Website d2)) (keep_field (Details d) (Details d2))).

(** ** Validators (validator.go, types/stake.go) *)
Inductive BondStatus := Unbonded | Unbonding | Bonded.
#[export] Instance BondStatus_eq_dec : EqDecision BondStatus.
Proof. solve_decision. Defined.
Record Validator := mkValidator {
  v_OperatorAddr : ValAddress; v_ConsPubKey : ConsKey; v_Jailed : bool; v_Status : BondStatus;
  v_Tokens : Dec; v_DelegatorShares : Dec; v_Description : Description; v_BondHeight : Z;
  v_UnbondingHeight : Z; v_UnbondingMinTime : Z; v_Commission : Commission }.
Definition NewValidator (operator : ValAddress) (pubKey : ConsKey) (description : Description) : Validator :=
  mkValidator operator pubKey false Unbonded ZeroDec ZeroDec description 0 0 0 (NewCommission ZeroDec ZeroDec ZeroDec).

Definition with_jailed (j : bool) (v : Validator) : Validator :=
  mkValidator (v_OperatorAddr v) (v_ConsPubKey v) j (v_Status v) (v_Tokens v) (v_DelegatorShares v) (v_Description v)
    (v_BondHeight v) (v_UnbondingHeight v) (v_UnbondingMinTime v) (v_Commission v).
Definition with_status (st : BondStatus) (v : Validator) : Validator :=
  mkValidator (v_OperatorAddr v) (v_ConsPubKey v) (v_Jailed v) st (v_Tokens v) (v_DelegatorShares v) (v_Description v)
    (v_BondHeight v) (v_UnbondingHeight v) (v_UnbondingMinTime v) (v_Commission v).
Definition with_tokens (tokens shares : Dec) (v : Validator) : Validator :=
  mkValidator (v_OperatorAddr v) (v_ConsPubKey v) (v_Jailed v) (v_Status v) tokens shares (v_Description v)
    (v_BondHeight v) (v_UnbondingHeight v) (v_UnbondingMinTime v) (v_Commission v).
Definition with_description (d : Description) (v : Validator) : Validator :=
  mkValidator (v_OperatorAddr v) (v_ConsPubKey v) (v_Jailed v) (v_Status v) (v_Tokens v) (v_DelegatorShares v) d
    (v_BondHeight v) (v_UnbondingHeight v) (v_UnbondingMinTime v) (v_Commission v).
Definition with_bondHeight (h : Z) (v : Validator) : Validator :=
  mkValidator (v_OperatorAddr v) (v_ConsPubKey v) (v_Jailed v) (v_Status v) (v_Tokens v) (v_DelegatorShares v) (v_Description v)
    h (v_UnbondingHeight v) (v_UnbondingMinTime v) (v_Commission v).
Definition with_unbonding (minTime h : Z) (v : Validator) : Validator :=
  mkValidator (v_OperatorAddr v) (v_ConsPubKey v) (v_Jailed v) (v_Status v) (v_Tokens v) (v_DelegatorShares v) (v_Description v)
    (v_BondHeight v) h minTime (v_Commission v).
Definition with_commission (c : Commission) (v : Validator) : Validator :=
  mkValidator (v_OperatorAddr v) (v_ConsPubKey v) (v_Jailed v) (v_Status v) (v_Tokens v) (v_DelegatorShares v) (v_Description v)
    (v_BondHeight v) (v_UnbondingHeight v) (v_UnbondingMinTime v) c.

Definition Validator_Equal (v v2 : Validator) : bool :=
  bool_decide (v_ConsPubKey v = v_ConsPubKey v2) && bool_decide (v_OperatorAddr v = v_OperatorAddr v2) &&
  bool_decide (v_Status v = v_Status v2) && Dec_Equal (v_Tokens v) (v_Tokens v2) &&
  Dec_Equal (v_DelegatorShares v) (v_DelegatorShares v2) && bool_decide (v_Description v = v_Description v2) &&
  Commission_Equal (v_Commission v) (v_Commission v2).
Definition ConsAddr `{ConsCrypto} (v : Validator) : ConsAddress := PubKey_Address (v_ConsPubKey v).
Definition BondedTokens (v : Validator) : Dec := if decide (v_Status v = Bonded) then v_Tokens v else ZeroDec.
Definition GetPower (v : Validator) : Outcome Dec := Dec_QuoInt (BondedTokens v) AttoScaleFactor.
Definition GetPotentialPower (v : Validator) : Outcome Dec := Dec_QuoInt (v_Tokens v) AttoScaleFactor.
(** The power reported to Tendermint. *)
Definition tm_power (v : Validator) : Outcome Z := let? p := GetPower v in Dec_RoundInt64 p.
Definition potential_power (v : Validator) : Outcome Z := let? p := GetPotentialPower v in Dec_RoundInt64 p.
Record ValidatorUpdate := mkUpdate { vu_PubKey : ConsKey; vu_Power : Z }.
Definition ABCIValidatorUpdate (v : Validator) : Outcome ValidatorUpdate :=
  let? p := tm_power v in Ok (mkUpdate (v_ConsPubKey v) p).
Definition ABCIValidatorUpdateZero (v : Validator) : ValidatorUpdate := mkUpdate (v_ConsPubKey v) 0.
Definition SetInitialCommission (v : Validator) (commission : Commission) : Outcome Validator :=
  let? _ := Commission_Validate commission in Ok (with_commission commission v).
Definition DelegatorShareExRate (v : Validator) : Outcome Dec :=
  if Dec_IsZero (v_DelegatorShares v) then Ok OneDec else Dec_Quo (v_Tokens v) (v_DelegatorShares v).

(** ** The pool (pool.go)

    The loose tokens are a record of the bank, so moving tokens between the two
    is a computation on its store. *)
Record Pool := mkPool { BondedPool : Dec }.
Definition InitialBondedPool : Pool := mkPool ZeroDec.
(** The amount as an integer; decimal tokens panic. *)
Definition whole_tokens (d : Dec) : Outcome Int :=
  let? round := Dec_TruncateInt d in
  let? r := NewDecFromInt round in
  let? change := Dec_Sub d r in
  if negb (Dec_IsZero change) then Panic "token is not integer" else Ok round.
Definition loosenTokenToBonded (p : Pool) (bondedTokens : Dec) : M AuthState Pool :=
  round <- lift (whole_tokens bondedTokens) ;;
  b <- lift (Dec_Add (BondedPool p) bondedTokens) ;;
  balance <- lift (NewCoin StakeDenom round) ;;
  DecreaseTotalLoosenToken [balance] ;;;
  ret (mkPool b).
Definition bondedTokenToLoosen (p : Pool) (bondedTokens : Dec) : M AuthState Pool :=
  round <- lift (whole_tokens bondedTokens) ;;
  b <- lift (Dec_Sub (BondedPool p) bondedTokens) ;;
  balance <- lift (NewCoin StakeDenom round) ;;
  IncreaseTotalLoosenToken [balance] ;;;
  ret (mkPool b).
Definition GetLoosenTokenAmount : M AuthState Dec :=
  coins <- getLoosenCoins ;; lift (NewDecFromInt (AmountOf coins StakeDenom)).
Record PoolStatus := mkPoolStatus { ps_LooseTokens : Dec; ps_BondedTokens : Dec }.
Definition TokenSupply (p : PoolStatus) : Outcome Dec := Dec_Add (ps_LooseTokens p) (ps_BondedTokens p).
Definition BondedRatio (p : PoolStatus) : Outcome Dec :=
  let? supply := TokenSupply p in
  if Dec_GT supply ZeroDec then Dec_Quo (ps_BondedTokens p) supply else Ok ZeroDec.

(** ** Tokens and shares of a validator (validator.go) *)
Definition UpdateStatus (v : Validator) (pool : Pool) (newStatus : BondStatus) : M AuthState (Validator * Pool) :=
  match v_Status v, newStatus with
  | Unbonded, Unbonded | Unbonding, Unbonding | Bonded, Bonded => ret (v, pool)
  | Unbonded, Bonded | Unbonding, Bonded =>
      pool <- loosenTokenToBonded pool (v_Tokens v) ;; ret (with_status newStatus v, pool)
  | Unbonded, Unbonding | Unbonding, Unbonded => ret (with_status newStatus v, pool)
  | Bonded, _ => pool <- bondedTokenToLoosen pool (v_Tokens v) ;; ret (with_status newStatus v, pool)
  end.
Definition RemoveTokens (v : Validator) (pool : Pool) (tokens : Dec) : M AuthState (Validator * Pool) :=
  if Dec_IsNegative tokens then panic "trying to remove negative tokens" else
  if Dec_LT (v_Tokens v) tokens then panic "trying to remove more tokens than held" else
  left <- lift (Dec_Sub (v_Tokens v) tokens) ;;
  let v := with_tokens left (v_DelegatorShares v) v in
  pool <- (if decide (v_Status v = Bonded) then bondedTokenToLoosen pool tokens else ret pool) ;;
  ret (v, pool).
Definition AddTokensFromDel (v : Validator) (pool : Pool) (amount : Int) : M AuthState (Validator * Pool * Dec) :=
  exRate <- lift (DelegatorShareExRate v) ;;
  amountDec <- lift (NewDecFromInt amount) ;;
  pool <- (if decide (v_Status v = Bonded) then loosenTokenToBonded pool amountDec else ret pool) ;;
  if Dec_IsZero exRate then panic "zero exRate should not happen" else
  tokens <- lift (Dec_Add (v_Tokens v) amountDec) ;;
  issuedShares <- lift (Dec_Quo amountDec exRate) ;;
  shares <- lift (Dec_Add (v_DelegatorShares v) issuedShares) ;;
  ret (with_tokens tokens shares v, pool, issuedShares).
(** What [delShares] shares are worth. *)
Definition issued_amount (v : Validator) (delShares : Dec) : Outcome Dec :=
  let? exRate := DelegatorShareExRate v in
  let? worth := Dec_Mul exRate delShares in
  let? issuedAmount := Dec_TruncateDec worth in
  Ok (if Dec_GT issuedAmount (v_Tokens v) || Dec_Equal delShares (v_DelegatorShares v) then v_Tokens v else issuedAmount).
Definition RemoveDelShares (v : Validator) (pool : Pool) (delShares : Dec) : M AuthState (Validator * Pool * Dec) :=
  issuedAmount <- lift (issued_amount v delShares) ;;
  tokens <- lift (Dec_Sub (v_Tokens v) issuedAmount) ;;
  shares <- lift (Dec_Sub (v_DelegatorShares v) delShares) ;;
  pool <- (if decide (v_Status v = Bonded) then bondedTokenToLoosen pool issuedAmount else ret pool) ;;
  ret (with_tokens tokens shares v, pool, issuedAmount).

(** ** Delegations (delegation.go) *)
Record DVPair := mkDVPair { dv_DelegatorAddr : AccAddress; dv_ValidatorAddr : ValAddress }.
Record DVVTriplet := mkDVV { dvv_DelegatorAddr : AccAddress; dvv_ValidatorSrcAddr : ValAddress; dvv_ValidatorDstAddr : ValAddress }.
Record Delegation := mkDelegation {
  d_DelegatorAddr : AccAddress; d_ValidatorAddr : ValAddress; d_Shares : Dec; d_Height : Z }.
Record UnbondingDelegation := mkUBD {
  ub_TxHash : string; ub_DelegatorAddr : AccAddress; ub_ValidatorAddr : ValAddress; ub_CreationHeight : Z;
  ub_MinTime : Z; ub_InitialBalance : Coin; ub_Balance : Coin }.
Record Redelegation := mkRED {
  rd_DelegatorAddr : AccAddress; rd_ValidatorSrcAddr : ValAddress; rd_ValidatorDstAddr : ValAddress;
  rd_CreationHeight : Z; rd_MinTime : Z; rd_InitialBalance : Coin; rd_Balance : Coin;
  rd_SharesSrc : Dec; rd_SharesDst : Dec }.
Definition Delegation_Equal (d d2 : Delegation) : bool :=
  bool_decide (d_DelegatorAddr d = d_DelegatorAddr d2) && bool_decide (d_ValidatorAddr d = d_ValidatorAddr d2) &&
  (d_Height d =? d_Height d2) && Dec_Equal (d_Shares d) (d_Shares d2).

(** ** Parameters (params.go) *)
Record Params := mkParams { UnbondingTime : Z; MaxValidators : Z }.
Definition Minute : Z := 60 * Second.
Definition Week : Z := 7 * 24 * 60 * Minute.
Definition DefaultParams : Params := mkParams (3 * Week) 100.
Definition CodeInvalidUnbondingTime : Z := 500.
Definition CodeInvalidMaxValidators : Z := 501.
Definition params_err (c : Z) : Error := NewError params_DefaultCodespace c.
Section params.
(** Whether [sdk.NetworkType] is the main network. *)
Variable mainnet : bool.
Definition validateUnbondingTime (v : Z) : Outcome unit :=
  ensure (negb (v <? (if mainnet then 2 * Week else 2 * Minute))) (params_err CodeInvalidUnbondingTime).
Definition validateMaxValidators (v : Z) : Outcome unit :=
  ensure (negb (if mainnet then (v <? 100) || (200 <? v) else (v =? 0) || (200 <? v))) (params_err CodeInvalidMaxValidators).
Definition ValidateParams (p : Params) : Outcome unit :=
  let? _ := validateUnbondingTime (UnbondingTime p) in validateMaxValidators (MaxValidators p).
End params.

(** ** Messages (msg.go) *)
Record MsgCreateValidator := mkMsgCreateValidator {
  cv_Description : Description; cv_Commission : CommissionMsg; cv_DelegatorAddr : AccAddress;
  cv_ValidatorAddr : ValAddress; cv_PubKey : option ConsKey; cv_Delegation : Coin }.
Record MsgEditValidator := mkMsgEditValidator {
  ev_Description : Description; ev_ValidatorAddr : ValAddress; ev_CommissionRate : option Dec }.
Record MsgDelegate := mkMsgDelegate { md_DelegatorAddr : AccAddress; md_ValidatorAddr : ValAddress; md_Delegation : Coin }.
Record MsgBeginRedelegate := mkMsgBeginRedelegate {
  mr_DelegatorAddr : AccAddress; mr_ValidatorSrcAddr : ValAddress; mr_ValidatorDstAddr : ValAddress; mr_SharesAmount : option Dec }.
Record MsgBeginUnbonding := mkMsgBeginUnbonding {
  mu_DelegatorAddr : AccAddress; mu_ValidatorAddr : ValAddress; mu_SharesAmount : option Dec }.
Inductive StakeMsg :=
| CreateValidator (m : MsgCreateValidator)
| EditValidator (m : MsgEditValidator)
| Delegate_ (m : MsgDelegate)
| BeginRedelegate (m : MsgBeginRedelegate)
| BeginUnbonding_ (m : MsgBeginUnbonding).

Definition is_nil (a : string) : bool := bool_decide (a = "").
Definition shares_ok (d : option Dec) : bool := match d with None => false | Some d => negb (Dec_LTE d ZeroDec) end.
Definition empty_description : Description := NewDescription "" "" "" "".
Definition MsgCreateValidator_GetSigners (m : MsgCreateValidator) : list AccAddress :=
  cv_DelegatorAddr m :: (if bool_decide (cv_DelegatorAddr m = cv_ValidatorAddr m) then [] else [cv_ValidatorAddr m]).
Definition MsgCreateValidator_ValidateBasic (m : MsgCreateValidator) : Outcome unit :=
  let? _ := ensure (negb (is_nil (cv_DelegatorAddr m))) ErrNilDelegatorAddr in
  let? _ := ensure (negb (is_nil (cv_ValidatorAddr m))) ErrNilValidatorAddr in
  let? _ := ensure (Coin_IsValidIrisAtto (cv_Delegation m)) ErrBadDelegationAmount in
  let? _ := ensure (negb (bool_decide (cv_Description m = empty_description))) (stake_err CodeInvalidInput) in
  let? _ := ensure (match cv_Commission m with mkCommissionMsg None None None => false | _ => true end) (stake_err CodeInvalidInput) in
  let? _ := EnsureLength (cv_Description m) in Ok tt.
Definition MsgEditValidator_ValidateBasic (m : MsgEditValidator) : Outcome unit :=
  let? _ := ensure (negb (is_nil (ev_ValidatorAddr m))) (stake_err CodeInvalidInput) in
  let? _ := ensure (negb (bool_decide (ev_Description m = empty_description))) (stake_err CodeInvalidInput) in
  let? _ := EnsureLength (ev_Description m) in Ok tt.
Definition MsgDelegate_ValidateBasic (m : MsgDelegate) : Outcome unit :=
  let? _ := ensure (negb (is_nil (md_DelegatorAddr m))) ErrNilDelegatorAddr in
  let? _ := ensure (negb (is_nil (md_ValidatorAddr m))) ErrNilValidatorAddr in
  ensure (Coin_IsValidIrisAtto (md_Delegation m)) ErrBadDelegationAmount.
Definition MsgBeginRedelegate_ValidateBasic (m : MsgBeginRedelegate) : Outcome unit :=
  let? _ := ensure (negb (is_nil (mr_DelegatorAddr m))) ErrNilDelegatorAddr in
  let? _ := ensure (negb (is_nil (mr_ValidatorSrcAddr m))) ErrNilValidatorAddr in
  let? _ := ensure (negb (is_nil (mr_ValidatorDstAddr m))) ErrNilValidatorAddr in
  ensure (shares_ok (mr_SharesAmount m)) ErrBadSharesAmount.
Definition MsgBeginUnbonding_ValidateBasic (m : MsgBeginUnbonding) : Outcome unit :=
  let? _ := ensure (negb (is_nil (mu_DelegatorAddr m))) ErrNilDelegatorAddr in
  let? _ := ensure (negb (is_nil (mu_ValidatorAddr m))) ErrNilValidatorAddr in
  ensure (shares_ok (mu_SharesAmount m)) ErrBadSharesAmount.
Definition StakeMsg_ValidateBasic (m : StakeMsg) : Outcome unit :=
  match m with
  | CreateValidator m => MsgCreateValidator_ValidateBasic m
  | EditValidator m => MsgEditValidator_ValidateBasic m
  | Delegate_ m => MsgDelegate_ValidateBasic m
  | BeginRedelegate m => MsgBeginRedelegate_ValidateBasic m
  | BeginUnbonding_ m => MsgBeginUnbonding_ValidateBasic m
  end.
Definition StakeMsg_GetSigners (m : StakeMsg) : list AccAddress :=
  match m with
  | CreateValidator m => MsgCreateValidator_GetSigners m
  | EditValidator m => [ev_ValidatorAddr m]
  | Delegate_ m => [md_DelegatorAddr m]
  | BeginRedelegate m => [mr_DelegatorAddr m]
  | BeginUnbonding_ m => [mu_DelegatorAddr m]
  end.

(** The document whose JSON text is signed for the two messages on validators: a
    field that is not set has the zero of its type. *)
Record CreateSignDoc := mkCreateSignDoc {
  sg_Description : Description; sg_Commission : CommissionMsg; sg_DelegatorAddr : AccAddress;
  sg_ValidatorAddr : ValAddress; sg_PubKey : option ConsKey; sg_Delegation : Coin }.
Definition MsgCreateValidator_sign_doc (m : MsgCreateValidator) : CreateSignDoc :=
  mkCreateSignDoc (cv_Description m) (mkCommissionMsg None None None) "" (cv_ValidatorAddr m) (cv_PubKey m) (cv_Delegation m).
Record EditSignDoc := mkEditSignDoc { se_Description : Description; se_ValidatorAddr : ValAddress }.
Definition MsgEditValidator_sign_doc (m : MsgEditValidator) : EditSignDoc :=
  mkEditSignDoc (ev_Description m) (ev_ValidatorAddr m).

(** ** Keys (keeper/key.go)

    The stores of the prefixes are separate maps, and a key is without its
    prefix. *)
(** [copy] into a field of the length of an address. *)
Definition addr_field (a : string) : string := str (take AddrLen (chars a ++ replicate AddrLen (Ascii.ascii_of_N 0))).
Definition inv_byte (c : ascii) : ascii := Ascii.ascii_of_N (255 - Ascii.N_of_ascii c).
Definition inv_bytes (a : string) : string := str (inv_byte <$> chars a).
Definition getValidatorPowerRank (v : Validator) : Outcome string :=
  let? tendermintPower := potential_power v in
  Ok (Uint64ToBigEndian (wrap64 tendermintPower) +:+ addr_field (inv_bytes (v_OperatorAddr v))).
Definition parseValidatorPowerRankKey (key : string) : Outcome string :=
  if negb (bool_decide (str_len key = 8 + AddrLen)%nat) then Panic "Invalid validator power rank key length"
  else Ok (str (inv_byte <$> drop 8 (chars key))).
Definition GetDelegationKey (delAddr : AccAddress) (valAddr : ValAddress) : string := delAddr +:+ valAddr.
Definition GetUBDKey (delAddr : AccAddress) (valAddr : ValAddress) : string := delAddr +:+ valAddr.
Definition GetUBDByValIndexKey (delAddr : AccAddress) (valAddr : ValAddress) : string := valAddr +:+ delAddr.
Definition GetUBDKeyFromValIndexKey (key : string) : Outcome string :=
  if negb (bool_decide (str_len key = 2 * AddrLen)%nat) then Panic "unexpected key length" else
  Ok (GetUBDKey (str (drop AddrLen (chars key))) (str (take AddrLen (chars key)))).
Definition GetREDKey (delAddr : AccAddress) (valSrcAddr valDstAddr : ValAddress) : string :=
  addr_field delAddr +:+ addr_field valSrcAddr +:+ addr_field valDstAddr.
Definition GetREDByValSrcIndexKey (delAddr : AccAddress) (valSrcAddr valDstAddr : ValAddress) : string :=
  valSrcAddr +:+ addr_field delAddr +:+ addr_field valDstAddr.
Definition GetREDByValDstIndexKey (delAddr : AccAddress) (valSrcAddr valDstAddr : ValAddress) : string :=
  valDstAddr +:+ addr_field delAddr +:+ addr_field valSrcAddr.
Definition GetREDKeyFromValSrcIndexKey (key : string) : Outcome string :=
  if negb (bool_decide (str_len key = 3 * AddrLen)%nat) then Panic "unexpected key length" else
  Ok (GetREDKey (str (take AddrLen (drop AddrLen (chars key)))) (str (take AddrLen (chars key)))
        (str (drop (2 * AddrLen) (chars key)))).
Definition GetREDsByDelToValDstIndexKey (delAddr : AccAddress) (valDstAddr : ValAddress) : string := valDstAddr +:+ delAddr.
End StakeTypes.
