(* ===== verification/Stake.v ===== *)
(** * Staking: the keeper (app/v1/stake/keeper)

    The stores of the module, the hooks by which it informs the modules of
    distribution and slashing, delegations with their queues, and the changes of
    the validator set. *)

From Stdlib Require Import Ascii.
From S2P Require Import Prelude SdkErrors IntType GoStrings Denom Coin Dec TimeBytes KVStore Auth Bank StakeTypes.
#[local] Open Scope Z_scope.

Module Stake.
Import StakeTypes.

(** ** The stores

    A record is kept with the addresses that are in its key.  [st_other] has the
    stores of the modules behind the hooks. *)
Record StakeState (X : Type) := mkStake {
  st_auth : AuthState;
  st_other : X;
  pool : option Pool;
  lastPower : gmap ValAddress Int;
  lastTotalPower : option Int;
  validators : gmap ValAddress Validator;
  byConsAddr : gmap ConsAddress ValAddress;
  byPower : gmap string ValAddress;
  delegations : gmap string Delegation;
  ubds : gmap string UnbondingDelegation;
  ubdByVal : gmap string unit;
  reds : gmap string Redelegation;
  redBySrc : gmap string unit;
  redByDst : gmap string unit;
  ubdQueue : gmap string (list DVPair);
  redQueue : gmap string (list DVVTriplet);
  valQueue : gmap string (list ValAddress);
  st_params : Params }.
Arguments mkStake {X}.
Arguments st_auth {X}. Arguments st_other {X}. Arguments pool {X}. Arguments lastPower {X}. Arguments lastTotalPower {X}.
Arguments validators {X}. Arguments byConsAddr {X}. Arguments byPower {X}. Arguments delegations {X}. Arguments ubds {X}.
Arguments ubdByVal {X}. Arguments reds {X}. Arguments redBySrc {X}. Arguments redByDst {X}. Arguments ubdQueue {X}.
Arguments redQueue {X}. Arguments valQueue {X}. Arguments st_params {X}.

Section setters.
Context {X : Type}.
Implicit Type s : StakeState X.
Definition set_auth (x : AuthState) s : StakeState X :=
  mkStake x (st_other s) (pool s) (lastPower s) (lastTotalPower s) (validators s) (byConsAddr s) (byPower s)
    (delegations s) (ubds s) (ubdByVal s) (reds s) (redBySrc s) (redByDst s) (ubdQueue s) (redQueue s) (valQueue s)
    (st_params s).
Definition set_other (x : X) s : StakeState X :=
  mkStake (st_auth s) x (pool s) (lastPower s) (lastTotalPower s) (validators s) (byConsAddr s) (byPower s)
    (delegations s) (ubds s) (ubdByVal s) (reds s) (redBySrc s) (redByDst s) (ubdQueue s) (redQueue s) (valQueue s)
    (st_params s).
Definition set_pool (x : option Pool) s : StakeState X :=
  mkStake (st_auth s) (st_other s) x (lastPower s) (lastTotalPower s) (validators s) (byConsAddr s) (byPower s)
    (delegations s) (ubds s) (ubdByVal s) (reds s) (redBySrc s) (redByDst s) (ubdQueue s) (redQueue s) (valQueue s)
    (st_params s).
Definition set_lastPower g s : StakeState X :=
  mkStake (st_auth s) (st_other s) (pool s) (g (lastPower s)) (lastTotalPower s) (validators s) (byConsAddr s)
    (byPower s) (delegations s) (ubds s) (ubdByVal s) (reds s) (redBySrc s) (redByDst s) (ubdQueue s) (redQueue s)
    (valQueue s) (st_params s).
Definition set_lastTotalPower (x : option Int) s : StakeState X :=
  mkStake (st_auth s) (st_other s) (pool s) (lastPower s) x (validators s) (byConsAddr s) (byPower s) (delegations s)
    (ubds s) (ubdByVal s) (reds s) (redBySrc s) (redByDst s) (ubdQueue s) (redQueue s) (valQueue s) (st_params s).
Definition set_validators g s : StakeState X :=
  mkStake (st_auth s) (st_other s) (pool s) (lastPower s) (lastTotalPower s) (g (validators s)) (byConsAddr s)
    (byPower s) (delegations s) (ubds s) (ubdByVal s) (reds s) (redBySrc s) (redByDst s) (ubdQueue s) (redQueue s)
    (valQueue s) (st_params s).
Definition set_byConsAddr g s : StakeState X :=
  mkStake (st_auth s) (st_other s) (pool s) (lastPower s) (lastTotalPower s) (validators s) (g (byConsAddr s))
    (byPower s) (delegations s) (ubds s) (ubdByVal s) (reds s) (redBySrc s) (redByDst s) (ubdQueue s) (redQueue s)
    (valQueue s) (st_params s).
Definition set_byPower g s : StakeState X :=
  mkStake (st_auth s) (st_other s) (pool s) (lastPower s) (lastTotalPower s) (validators s) (byConsAddr s)
    (g (byPower s)) (delegations s) (ubds s) (ubdByVal s) (reds s) (redBySrc s) (redByDst s) (ubdQueue s) (redQueue s)
    (valQueue s) (st_params s).
Definition set_delegations g s : StakeState X :=
  mkStake (st_auth s) (st_other s) (pool s) (lastPower s) (lastTotalPower s) (validators s) (byConsAddr s) (byPower s)
    (g (delegations s)) (ubds s) (ubdByVal s) (reds s) (redBySrc s) (redByDst s) (ubdQueue s) (redQueue s)
    (valQueue s) (st_params s).
Definition set_ubds g s : StakeState X :=
  mkStake (st_auth s) (st_other s) (pool s) (lastPower s) (lastTotalPower s) (validators s) (byConsAddr s) (byPower s)
    (delegations s) (g (ubds s)) (ubdByVal s) (reds s) (redBySrc s) (redByDst s) (ubdQueue s) (redQueue s)
    (valQueue s) (st_params s).
Definition set_ubdByVal g s : StakeState X :=
  mkStake (st_auth s) (st_other s) (pool s) (lastPower s) (lastTotalPower s) (validators s) (byConsAddr s) (byPower s)
    (delegations s) (ubds s) (g (ubdByVal s)) (reds s) (redBySrc s) (redByDst s) (ubdQueue s) (redQueue s)
    (valQueue s) (st_params s).
Definition set_reds g s : StakeState X :=
  mkStake (st_auth s) (st_other s) (pool s) (lastPower s) (lastTotalPower s) (validators s) (byConsAddr s) (byPower s)
    (delegations s) (ubds s) (ubdByVal s) (g (reds s)) (redBySrc s) (redByDst s) (ubdQueue s) (redQueue s)
    (valQueue s) (st_params s).
Definition set_redBySrc g s : StakeState X :=
  mkStake (st_auth s) (st_other s) (pool s) (lastPower s) (lastTotalPower s) (validators s) (byConsAddr s) (byPower s)
    (delegations s) (ubds s) (ubdByVal s) (reds s) (g (redBySrc s)) (redByDst s) (ubdQueue s) (redQueue s)
    (valQueue s) (st_params s).
Definition set_redByDst g s : StakeState X :=
  mkStake (st_auth s) (st_other s) (pool s) (lastPower s) (lastTotalPower s) (validators s) (byConsAddr s) (byPower s)
    (delegations s) (ubds s) (ubdByVal s) (reds s) (redBySrc s) (g (redByDst s)) (ubdQueue s) (redQueue s)
    (valQueue s) (st_params s).
Definition set_ubdQueue g s : StakeState X :=
  mkStake (st_auth s) (st_other s) (pool s) (lastPower s) (lastTotalPower s) (validators s) (byConsAddr s) (byPower s)
    (delegations s) (ubds s) (ubdByVal s) (reds s) (redBySrc s) (redByDst s) (g (ubdQueue s)) (redQueue s)
    (valQueue s) (st_params s).
Definition set_redQueue g s : StakeState X :=
  mkStake (st_auth s) (st_other s) (pool s) (lastPower s) (lastTotalPower s) (validators s) (byConsAddr s) (byPower s)
    (delegations s) (ubds s) (ubdByVal s) (reds s) (redBySrc s) (redByDst s) (ubdQueue s) (g (redQueue s))
    (valQueue s) (st_params s).
Definition set_valQueue g s : StakeState X :=
  mkStake (st_auth s) (st_other s) (pool s) (lastPower s) (lastTotalPower s) (validators s) (byConsAddr s) (byPower s)
    (delegations s) (ubds s) (ubdByVal s) (reds s) (redBySrc s) (redByDst s) (ubdQueue s) (redQueue s)
    (g (valQueue s)) (st_params s).
Definition set_params (x : Params) s : StakeState X :=
  mkStake (st_auth s) (st_other s) (pool s) (lastPower s) (lastTotalPower s) (validators s) (byConsAddr s) (byPower s)
    (delegations s) (ubds s) (ubdByVal s) (reds s) (redBySrc s) (redByDst s) (ubdQueue s) (redQueue s) (valQueue s) x.
End setters.

(** ** The context of a block *)
Record Ctx := mkCtx {
  BlockHeight : Z; BlockTime : Z; CoinFlowTrigger : string;
  (** the key types of the consensus parameters, where they are set *)
  PubKeyTypes : option (list string) }.
Definition WithBlockHeight (h : Z) (ctx : Ctx) : Ctx := mkCtx h (BlockTime ctx) (CoinFlowTrigger ctx) (PubKeyTypes ctx).
Definition WithCoinFlowTrigger (t : string) (ctx : Ctx) : Ctx := mkCtx (BlockHeight ctx) (BlockTime ctx) t (PubKeyTypes ctx).

(** ** Hooks (types/stake.go) *)
Class StakingHooks (X : Type) := {
  OnValidatorCreated : Ctx → ValAddress → M (StakeState X) unit;
  OnValidatorModified : Ctx → ValAddress → M (StakeState X) unit;
  OnValidatorRemoved : Ctx → ConsAddress → ValAddress → M (StakeState X) unit;
  OnValidatorBonded : Ctx → ConsAddress → ValAddress → M (StakeState X) unit;
  OnValidatorBeginUnbonding : Ctx → ConsAddress → ValAddress → M (StakeState X) unit;
  OnValidatorPowerDidChange : Ctx → ConsAddress → ValAddress → M (StakeState X) unit;
  OnDelegationCreated : Ctx → AccAddress → ValAddress → M (StakeState X) unit;
  OnDelegationSharesModified : Ctx → AccAddress → ValAddress → M (StakeState X) unit;
  OnDelegationRemoved : Ctx → AccAddress → ValAddress → M (StakeState X) unit }.

(** The part of the stores of a module among those beside staking. *)
Class Part (X A : Type) := { part : X → A; set_part : A → X → X }.
Definition on_part {X A B} `{!Part X A} (c : M A B) : M (StakeState X) B :=
  zoom (λ s, part (st_other s)) (λ a s, set_other (set_part a (st_other s)) s) c.

(** A check whose failure is a panic. *)
Definition expect {S} (b : bool) (w : string) : M S unit := if b then ret tt else panic w.
(** [MustUnmarshal]: a key of the wrong length panics. *)
Definition unmarshal {S A} (n : nat) (key : string) (a : A) : M S A :=
  expect (bool_decide (str_len key = n)) "unexpected address length" ;;; ret a.

Section keeper.
Context {X : Type} `{Crypto, ConsCrypto, StakingHooks X}.
Abbreviation SM := (M (StakeState X)).
Definition on_auth {A} (c : M AuthState A) : SM A := zoom st_auth set_auth c.

(** ** The pool and the last powers (keeper.go, params.go) *)
Definition GetPool : SM Pool :=
  p <- gets pool ;; match p with None => panic "stored pool should not have been nil" | Some p => ret p end.
Definition SetPool (p : Pool) : SM unit := modify (set_pool (Some p)).
Definition GetPoolStatus : SM PoolStatus :=
  p <- GetPool ;; loose <- on_auth GetLoosenTokenAmount ;; ret (mkPoolStatus loose (BondedPool p)).
Definition GetLastTotalPower : SM Int := gets (λ s, default 0 (lastTotalPower s)).
Definition SetLastTotalPower (power : Int) : SM unit := modify (set_lastTotalPower (Some power)).
Definition GetLastValidatorPower (operator : ValAddress) : SM Int := gets (λ s, default 0 (lastPower s !! operator)).
Definition SetLastValidatorPower (operator : ValAddress) (power : Int) : SM unit :=
  modify (set_lastPower (insert operator power)).
Definition DeleteLastValidatorPower (operator : ValAddress) : SM unit := modify (set_lastPower (delete operator)).
Definition GetParams : SM Params := gets st_params.
Definition SetParams (p : Params) : SM unit := modify (set_params p).

(** ** Validators (validator.go)

    The cache of decoded validators holds what decoding gives, so a read is that
    of the store. *)
Definition GetValidator (addr : ValAddress) : SM (option Validator) :=
  v <- gets (λ s, validators s !! addr) ;;
  match v with None => ret None | Some v => v <- unmarshal AddrLen addr v ;; ret (Some v) end.
Definition mustGetValidator (addr : ValAddress) : SM Validator :=
  v <- GetValidator addr ;; match v with None => panic "validator record not found" | Some v => ret v end.
Definition GetValidatorByConsAddr (consAddr : ConsAddress) : SM (option Validator) :=
  opAddr <- gets (λ s, byConsAddr s !! consAddr) ;;
  match opAddr with None => ret None | Some opAddr => GetValidator opAddr end.
Definition mustGetValidatorByConsAddr (consAddr : ConsAddress) : SM Validator :=
  v <- GetValidatorByConsAddr consAddr ;; match v with None => panic "validator not found" | Some v => ret v end.
Definition SetValidator (v : Validator) : SM unit := modify (set_validators (insert (v_OperatorAddr v) v)).
Definition SetValidatorByConsAddr (v : Validator) : SM unit :=
  modify (set_byConsAddr (insert (ConsAddr v) (v_OperatorAddr v))).
Definition SetValidatorByPowerIndex (v : Validator) : SM unit :=
  if v_Jailed v then ret tt else
  k <- lift (getValidatorPowerRank v) ;; modify (set_byPower (insert k (v_OperatorAddr v))).
Definition DeleteValidatorByPowerIndex (v : Validator) : SM unit :=
  k <- lift (getValidatorPowerRank v) ;; modify (set_byPower (delete k)).
Definition SetNewValidatorByPowerIndex (v : Validator) : SM unit :=
  GetPool ;;; k <- lift (getValidatorPowerRank v) ;; modify (set_byPower (insert k (v_OperatorAddr v))).

Definition AddValidatorTokensAndShares (v : Validator) (tokensToAdd : Int) : SM (Validator * Dec) :=
  pool <- GetPool ;;
  DeleteValidatorByPowerIndex v ;;;
  r <- on_auth (AddTokensFromDel v pool tokensToAdd) ;;
  let '(v, pool, addedShares) := r in
  SetValidator v ;;; SetPool pool ;;; SetValidatorByPowerIndex v ;;; ret (v, addedShares).
Definition RemoveValidatorTokensAndShares (v : Validator) (sharesToRemove : Dec) : SM (Validator * Dec) :=
  pool <- GetPool ;;
  DeleteValidatorByPowerIndex v ;;;
  r <- on_auth (RemoveDelShares v pool sharesToRemove) ;;
  let '(v, pool, removedTokens) := r in
  SetValidator v ;;; SetPool pool ;;; SetValidatorByPowerIndex v ;;; ret (v, removedTokens).
Definition RemoveValidatorTokens (v : Validator) (tokensToRemove : Dec) : SM Validator :=
  pool <- GetPool ;;
  DeleteValidatorByPowerIndex v ;;;
  r <- on_auth (RemoveTokens v pool tokensToRemove) ;;
  let '(v, pool) := r in
  SetValidator v ;;; SetPool pool ;;; SetValidatorByPowerIndex v ;;; ret v.
Definition UpdateValidatorCommission (ctx : Ctx) (v : Validator) (newRate : Dec) : Outcome Commission :=
  let commission := v_Commission v in
  let? _ := ValidateNewRate commission newRate (BlockTime ctx) in
  Ok (mkCommission newRate (MaxRate commission) (MaxChangeRate commission) (BlockTime ctx)).
Definition RemoveValidator (ctx : Ctx) (address : ValAddress) : SM unit :=
  v <- GetValidator address ;;
  match v with
  | None => ret tt
  | Some v =>
      expect (bool_decide (v_Status v = Unbonded)) "Cannot call RemoveValidator on bonded or unbonding validators" ;;;
      GetPool ;;;
      modify (set_validators (delete address)) ;;;
      modify (set_byConsAddr (delete (ConsAddr v))) ;;;
      DeleteValidatorByPowerIndex v ;;;
      OnValidatorRemoved ctx (ConsAddr v) (v_OperatorAddr v)
  end.
Definition GetAllValidators (s : StakeState X) : list Validator := (entries (validators s)).*2.

(** The queue of unbonding validators *)
Definition GetValidatorQueueTimeSlice (t : Z) : SM (list ValAddress) :=
  gets (λ s, default [] (valQueue s !! FormatTimeBytes t)).
Definition SetValidatorQueueTimeSlice (t : Z) (keys : list ValAddress) : SM unit :=
  modify (set_valQueue (insert (FormatTimeBytes t) keys)).
Definition DeleteValidatorQueueTimeSlice (t : Z) : SM unit := modify (set_valQueue (delete (FormatTimeBytes t))).
Definition InsertValidatorQueue (v : Validator) : SM unit :=
  timeSlice <- GetValidatorQueueTimeSlice (v_UnbondingMinTime v) ;;
  SetValidatorQueueTimeSlice (v_UnbondingMinTime v) (timeSlice ++ [v_OperatorAddr v]).
Definition DeleteValidatorQueue (v : Validator) : SM unit :=
  timeSlice <- GetValidatorQueueTimeSlice (v_UnbondingMinTime v) ;;
  let newTimeSlice := filter (λ a, a ≠ v_OperatorAddr v) timeSlice in
  if bool_decide (newTimeSlice = []) then DeleteValidatorQueueTimeSlice (v_UnbondingMinTime v)
  else SetValidatorQueueTimeSlice (v_UnbondingMinTime v) newTimeSlice.
(** The slices of a queue up to a time, in the order of their keys. *)
Definition due {A} (queue : gmap string (list A)) (t : Z) : list (string * list A) :=
  filter (λ kv, ¬ str_lt (FormatTimeBytes t) kv.1) (entries queue).

(** ** State changes of validators (val_state_change.go) *)
Definition jailValidator (v : Validator) : SM unit :=
  expect (negb (v_Jailed v)) "cannot jail already jailed validator" ;;;
  GetPool ;;;
  SetValidator (with_jailed true v) ;;;
  DeleteValidatorByPowerIndex (with_jailed true v).
Definition unjailValidator (v : Validator) : SM unit :=
  expect (v_Jailed v) "cannot unjail already unjailed validator" ;;;
  GetPool ;;;
  SetValidator (with_jailed false v) ;;;
  SetValidatorByPowerIndex (with_jailed false v).
Definition bondValidator (ctx : Ctx) (v : Validator) : SM Validator :=
  pool <- GetPool ;;
  DeleteValidatorByPowerIndex v ;;;
  r <- on_auth (UpdateStatus (with_bondHeight (BlockHeight ctx) v) pool Bonded) ;;
  let '(v, pool) := r in
  SetPool pool ;;;
  SetValidator v ;;;
  SetValidatorByPowerIndex v ;;;
  DeleteValidatorQueue v ;;;
  OnValidatorBonded ctx (ConsAddr v) (v_OperatorAddr v) ;;;
  ret v.
Definition beginUnbondingValidator (ctx : Ctx) (v : Validator) : SM Validator :=
  pool <- GetPool ;;
  params <- GetParams ;;
  DeleteValidatorByPowerIndex v ;;;
  expect (bool_decide (v_Status v = Bonded)) "should not already be unbonded or unbonding" ;;;
  r <- on_auth (UpdateStatus v pool Unbonding) ;;
  let '(v, pool) := r in
  SetPool pool ;;;
  let v := with_unbonding (BlockTime ctx + UnbondingTime params) (BlockHeight ctx) v in
  SetValidator v ;;;
  SetValidatorByPowerIndex v ;;;
  InsertValidatorQueue v ;;;
  OnValidatorBeginUnbonding ctx (ConsAddr v) (v_OperatorAddr v) ;;;
  ret v.
Definition completeUnbondingValidator (v : Validator) : SM Validator :=
  pool <- GetPool ;;
  r <- on_auth (UpdateStatus v pool Unbonded) ;;
  let '(v, pool) := r in
  SetPool pool ;;; SetValidator v ;;; ret v.
Definition bondedToUnbonding (ctx : Ctx) (v : Validator) : SM Validator :=
  expect (bool_decide (v_Status v = Bonded)) "bad state transition bondedToUnbonding" ;;; beginUnbondingValidator ctx v.
Definition unbondingToBonded (ctx : Ctx) (v : Validator) : SM Validator :=
  expect (bool_decide (v_Status v = Unbonding)) "bad state transition unbondingToBonded" ;;; bondValidator ctx v.
Definition unbondedToBonded (ctx : Ctx) (v : Validator) : SM Validator :=
  expect (bool_decide (v_Status v = Unbonded)) "bad state transition unbondedToBonded" ;;; bondValidator ctx v.
Definition unbondingToUnbonded (v : Validator) : SM Validator :=
  expect (bool_decide (v_Status v = Unbonding)) "bad state transition unbondingToBonded" ;;; completeUnbondingValidator v.

(** The loop over the power index, from the highest power; [last] loses the
    validators that stay in the set. *)
Definition getLastValidatorsByAddr (s : StakeState X) : gmap ValAddress Int :=
  foldl (λ m kv, <[addr_field kv.1 := kv.2]> m) ∅ (entries (lastPower s)).
Record SetChange := mkChange { sc_last : gmap ValAddress Int; sc_totalPower : Int; sc_updates : list ValidatorUpdate }.
Fixpoint bond_loop (ctx : Ctx) (maxValidators count : Z) (l : list ValAddress) (acc : SetChange) : SM SetChange :=
  match l with
  | [] => ret acc
  | valAddr :: l =>
      if negb (count <? maxValidators) then ret acc else
      v <- mustGetValidator valAddr ;;
      expect (negb (v_Jailed v)) "should never retrieve a jailed validator from the power store" ;;;
      p <- lift (potential_power v) ;;
      if p =? 0 then ret acc else
      v <- match v_Status v with
           | Unbonded => unbondedToBonded ctx v
           | Unbonding => unbondingToBonded ctx v
           | Bonded => ret v
           end ;;
      newPower <- lift (tm_power v) ;;
      updates <- (if bool_decide (sc_last acc !! addr_field valAddr = Some newPower) then ret (sc_updates acc) else
                  update <- lift (ABCIValidatorUpdate v) ;;
                  OnValidatorPowerDidChange ctx (ConsAddr v) valAddr ;;;
                  SetLastValidatorPower valAddr newPower ;;;
                  ret (sc_updates acc ++ [update])) ;;
      totalPower <- lift (Int_Add (sc_totalPower acc) newPower) ;;
      bond_loop ctx maxValidators (count + 1) l (mkChange (delete (addr_field valAddr) (sc_last acc)) totalPower updates)
  end.
Fixpoint unbond_loop (ctx : Ctx) (l : list ValAddress) (updates : list ValidatorUpdate) : SM (list ValidatorUpdate) :=
  match l with
  | [] => ret updates
  | valAddr :: l =>
      v <- mustGetValidator valAddr ;;
      bondedToUnbonding ctx v ;;;
      DeleteLastValidatorPower valAddr ;;;
      unbond_loop ctx l (updates ++ [ABCIValidatorUpdateZero v])
  end.
Definition ValidatorsPowerStoreIterator (s : StakeState X) : list ValAddress := rev (entries (byPower s)).*2.
Definition sortNoLongerBonded (last : gmap ValAddress Int) : list ValAddress := (entries last).*1.
Definition ApplyAndReturnValidatorSetUpdates (ctx : Ctx) : SM (list ValidatorUpdate) :=
  params <- GetParams ;;
  last <- gets getLastValidatorsByAddr ;;
  l <- gets ValidatorsPowerStoreIterator ;;
  acc <- bond_loop ctx (MaxValidators params) 0 l (mkChange last 0 []) ;;
  updates <- unbond_loop ctx (sortNoLongerBonded (sc_last acc)) (sc_updates acc) ;;
  (if bool_decide (updates = []) then ret tt else SetLastTotalPower (sc_totalPower acc)) ;;;
  ret updates.

Definition unbond_mature (ctx : Ctx) (valAddr : ValAddress) : SM unit :=
  v <- GetValidator valAddr ;;
  match v with
  | None => ret tt
  | Some v =>
      expect (bool_decide (v_Status v = Unbonding)) "unexpected validator in unbonding queue" ;;;
      unbondingToUnbonded v ;;;
      if Dec_IsZero (v_DelegatorShares v) then RemoveValidator ctx (v_OperatorAddr v) else ret tt
  end.
Definition UnbondAllMatureValidatorQueue (ctx : Ctx) : SM unit :=
  slices <- gets (λ s, due (valQueue s) (BlockTime ctx)) ;;
  for_each slices (λ kv, for_each kv.2 (unbond_mature ctx) ;;; modify (set_valQueue (delete kv.1))).

(** ** Delegations (delegation.go) *)
Definition GetDelegation (delAddr : AccAddress) (valAddr : ValAddress) : SM (option Delegation) :=
  let key := GetDelegationKey delAddr valAddr in
  d <- gets (λ s, delegations s !! key) ;;
  match d with None => ret None | Some d => d <- unmarshal (2 * AddrLen) key d ;; ret (Some d) end.
Definition SetDelegation (d : Delegation) : SM unit :=
  modify (set_delegations (insert (GetDelegationKey (d_DelegatorAddr d) (d_ValidatorAddr d)) d)).
Definition RemoveDelegation (ctx : Ctx) (d : Delegation) : SM unit :=
  OnDelegationRemoved ctx (d_DelegatorAddr d) (d_ValidatorAddr d) ;;;
  modify (set_delegations (delete (GetDelegationKey (d_DelegatorAddr d) (d_ValidatorAddr d)))).
Definition GetAllDelegations (s : StakeState X) : list Delegation := (entries (delegations s)).*2.
Definition GetValidatorDelegations (valAddr : ValAddress) (s : StakeState X) : list Delegation :=
  filter (λ d, d_ValidatorAddr d = valAddr) (GetAllDelegations s).
Definition GetAllDelegatorDelegations (delegator : AccAddress) (s : StakeState X) : list Delegation :=
  (prefix_iterator (delegations s) delegator).*2.
Definition GetDelegatorDelegations (delegator : AccAddress) (maxRetrieve : nat) (s : StakeState X) : list Delegation :=
  take maxRetrieve (GetAllDelegatorDelegations delegator s).

Definition GetUnbondingDelegation (delAddr : AccAddress) (valAddr : ValAddress) : SM (option UnbondingDelegation) :=
  let key := GetUBDKey delAddr valAddr in
  u <- gets (λ s, ubds s !! key) ;;
  match u with None => ret None | Some u => u <- unmarshal (2 * AddrLen) key u ;; ret (Some u) end.
(** The records an index leads to. *)
Fixpoint read_index {A} (store : StakeState X → gmap string A) (key_of : string → Outcome string) (n : nat) (l : list string)
    : SM (list A) :=
  match l with
  | [] => ret []
  | ik :: l =>
      key <- lift (key_of ik) ;;
      v <- gets (λ s, store s !! key) ;;
      match v with
      | None => panic "no record for the index"
      | Some v => v <- unmarshal n key v ;; rest <- read_index store key_of n l ;; ret (v :: rest)
      end
  end.
Definition GetUnbondingDelegationsFromValidator (valAddr : ValAddress) : SM (list UnbondingDelegation) :=
  keys <- gets (λ s, (prefix_iterator (ubdByVal s) valAddr).*1) ;;
  read_index ubds GetUBDKeyFromValIndexKey (2 * AddrLen) keys.
Definition SetUnbondingDelegation (u : UnbondingDelegation) : SM unit :=
  modify (set_ubds (insert (GetUBDKey (ub_DelegatorAddr u) (ub_ValidatorAddr u)) u)) ;;;
  modify (set_ubdByVal (insert (GetUBDByValIndexKey (ub_DelegatorAddr u) (ub_ValidatorAddr u)) tt)).
Definition RemoveUnbondingDelegation (u : UnbondingDelegation) : SM unit :=
  modify (set_ubds (delete (GetUBDKey (ub_DelegatorAddr u) (ub_ValidatorAddr u)))) ;;;
  modify (set_ubdByVal (delete (GetUBDByValIndexKey (ub_DelegatorAddr u) (ub_ValidatorAddr u)))).
Definition InsertUnbondingQueue (u : UnbondingDelegation) : SM unit :=
  timeSlice <- gets (λ s, default [] (ubdQueue s !! FormatTimeBytes (ub_MinTime u))) ;;
  modify (set_ubdQueue (insert (FormatTimeBytes (ub_MinTime u))
            (timeSlice ++ [mkDVPair (ub_DelegatorAddr u) (ub_ValidatorAddr u)]))).
Definition DequeueAllMatureUnbondingQueue (ctx : Ctx) : SM (list DVPair) :=
  slices <- gets (λ s, due (ubdQueue s) (BlockTime ctx)) ;;
  for_each slices (λ kv, modify (set_ubdQueue (delete kv.1))) ;;;
  ret (mjoin slices.*2).

Definition GetRedelegation (delAddr : AccAddress) (valSrcAddr valDstAddr : ValAddress) : SM (option Redelegation) :=
  let key := GetREDKey delAddr valSrcAddr valDstAddr in
  r <- gets (λ s, reds s !! key) ;;
  match r with None => ret None | Some r => r <- unmarshal (3 * AddrLen) key r ;; ret (Some r) end.
Definition GetRedelegationsFromValidator (valAddr : ValAddress) : SM (list Redelegation) :=
  keys <- gets (λ s, (prefix_iterator (redBySrc s) valAddr).*1) ;;
  read_index reds GetREDKeyFromValSrcIndexKey (3 * AddrLen) keys.
Definition HasReceivingRedelegation (delAddr : AccAddress) (valDstAddr : ValAddress) : SM bool :=
  gets (λ s, negb (bool_decide (prefix_iterator (redByDst s) (GetREDsByDelToValDstIndexKey delAddr valDstAddr) = []))).
Definition SetRedelegation (r : Redelegation) : SM unit :=
  modify (set_reds (insert (GetREDKey (rd_DelegatorAddr r) (rd_ValidatorSrcAddr r) (rd_ValidatorDstAddr r)) r)) ;;;
  modify (set_redBySrc (insert (GetREDByValSrcIndexKey (rd_DelegatorAddr r) (rd_ValidatorSrcAddr r) (rd_ValidatorDstAddr r)) tt)) ;;;
  modify (set_redByDst (insert (GetREDByValDstIndexKey (rd_DelegatorAddr r) (rd_ValidatorSrcAddr r) (rd_ValidatorDstAddr r)) tt)).
Definition RemoveRedelegation (r : Redelegation) : SM unit :=
  modify (set_reds (delete (GetREDKey (rd_DelegatorAddr r) (rd_ValidatorSrcAddr r) (rd_ValidatorDstAddr r)))) ;;;
  modify (set_redBySrc (delete (GetREDByValSrcIndexKey (rd_DelegatorAddr r) (rd_ValidatorSrcAddr r) (rd_ValidatorDstAddr r)))) ;;;
  modify (set_redByDst (delete (GetREDByValDstIndexKey (rd_DelegatorAddr r) (rd_ValidatorSrcAddr r) (rd_ValidatorDstAddr r)))).
Definition InsertRedelegationQueue (r : Redelegation) : SM unit :=
  timeSlice <- gets (λ s, default [] (redQueue s !! FormatTimeBytes (rd_MinTime r))) ;;
  modify (set_redQueue (insert (FormatTimeBytes (rd_MinTime r))
            (timeSlice ++ [mkDVV (rd_DelegatorAddr r) (rd_ValidatorSrcAddr r) (rd_ValidatorDstAddr r)]))).
Definition DequeueAllMatureRedelegationQueue (ctx : Ctx) : SM (list DVVTriplet) :=
  slices <- gets (λ s, due (redQueue s) (BlockTime ctx)) ;;
  for_each slices (λ kv, modify (set_redQueue (delete kv.1))) ;;;
  ret (mjoin slices.*2).

Definition Delegate (ctx : Ctx) (delAddr : AccAddress) (bondAmt : Coin) (v : Validator) (subtractAccount : bool) : SM Dec :=
  exRate <- lift (DelegatorShareExRate v) ;;
  require (negb (Dec_IsZero exRate)) ErrDelegatorShareExRateInvalid ;;;
  found <- GetDelegation delAddr (v_OperatorAddr v) ;;
  let d := match found with Some d => d | None => mkDelegation delAddr (v_OperatorAddr v) ZeroDec 0 end in
  (match found with
   | Some _ => OnDelegationSharesModified ctx delAddr (v_OperatorAddr v)
   | None => OnDelegationCreated ctx delAddr (v_OperatorAddr v)
   end) ;;;
  (if subtractAccount then on_auth (subtractCoins (d_DelegatorAddr d) [bondAmt]) ;;; ret tt else ret tt) ;;;
  r <- AddValidatorTokensAndShares v (amount bondAmt) ;;
  let newShares := r.2 in
  shares <- lift (Dec_Add (d_Shares d) newShares) ;;
  SetDelegation (mkDelegation (d_DelegatorAddr d) (d_ValidatorAddr d) shares (BlockHeight ctx)) ;;;
  ret newShares.

Definition unbond (ctx : Ctx) (delAddr : AccAddress) (valAddr : ValAddress) (shares : Dec) : SM Dec :=
  d <- GetDelegation delAddr valAddr ;;
  match d with
  | None => throw ErrNoDelegatorForAddress
  | Some d =>
      OnDelegationSharesModified ctx delAddr valAddr ;;;
      require (negb (Dec_LT (d_Shares d) shares)) ErrNotEnoughDelegationShares ;;;
      v <- GetValidator valAddr ;;
      match v with
      | None => throw ErrNoValidatorFound
      | Some v =>
          left <- lift (Dec_Sub (d_Shares d) shares) ;;
          v <- (if Dec_IsZero left then
                  v <- (if bool_decide (d_DelegatorAddr d = v_OperatorAddr v) && negb (v_Jailed v)
                        then jailValidator v ;;; mustGetValidator (v_OperatorAddr v) else ret v) ;;
                  RemoveDelegation ctx d ;;; ret v
                else SetDelegation (mkDelegation (d_DelegatorAddr d) (d_ValidatorAddr d) left (BlockHeight ctx)) ;;; ret v) ;;
          r <- RemoveValidatorTokensAndShares v shares ;;
          let '(v, amount) := r in
          (if Dec_IsZero (v_DelegatorShares v) && bool_decide (v_Status v = Unbonded)
           then RemoveValidator ctx (v_OperatorAddr v) else ret tt) ;;;
          ret amount
      end
  end.

Definition BeginUnbonding (ctx : Ctx) (delAddr : AccAddress) (valAddr : ValAddress) (sharesAmount : Dec) : SM UnbondingDelegation :=
  found <- GetUnbondingDelegation delAddr valAddr ;;
  require (negb (bool_decide (is_Some found))) ErrExistingUnbondingDelegation ;;;
  returnAmount <- unbond ctx delAddr valAddr sharesAmount ;;
  rounded <- lift (Dec_TruncateInt returnAmount) ;;
  balance <- lift (NewCoin StakeDenom rounded) ;;
  params <- GetParams ;;
  let u := mkUBD (CoinFlowTrigger ctx) delAddr valAddr (BlockHeight ctx) (BlockTime ctx + UnbondingTime params) balance balance in
  SetUnbondingDelegation u ;;;
  InsertUnbondingQueue u ;;;
  ret u.
Definition CompleteUnbonding (delAddr : AccAddress) (valAddr : ValAddress) : SM unit :=
  u <- GetUnbondingDelegation delAddr valAddr ;;
  match u with
  | None => throw ErrNoUnbondingDelegation
  | Some u =>
      on_auth (addCoins (ub_DelegatorAddr u) [ub_Balance u]) ;;;
      RemoveUnbondingDelegation u
  end.

Definition BeginRedelegation (ctx : Ctx) (delAddr : AccAddress) (valSrcAddr valDstAddr : ValAddress) (sharesAmount : Dec)
    : SM Redelegation :=
  require (negb (bool_decide (valSrcAddr = valDstAddr))) ErrSelfRedelegation ;;;
  found <- GetRedelegation delAddr valSrcAddr valDstAddr ;;
  require (negb (bool_decide (is_Some found))) ErrConflictingRedelegation ;;;
  receiving <- HasReceivingRedelegation delAddr valSrcAddr ;;
  require (negb receiving) ErrTransitiveRedelegation ;;;
  returnAmount <- unbond ctx delAddr valSrcAddr sharesAmount ;;
  rounded <- lift (Dec_TruncateInt returnAmount) ;;
  returnCoin <- lift (NewCoin StakeDenom rounded) ;;
  dst <- GetValidator valDstAddr ;;
  match dst with
  | None => throw ErrBadRedelegationDst
  | Some dst =>
      sharesCreated <- Delegate ctx delAddr returnCoin dst false ;;
      params <- GetParams ;;
      let r := mkRED delAddr valSrcAddr valDstAddr (BlockHeight ctx) (BlockTime ctx + UnbondingTime params)
                 returnCoin returnCoin sharesAmount sharesCreated in
      SetRedelegation r ;;;
      InsertRedelegationQueue r ;;;
      ret r
  end.
Definition CompleteRedelegation (ctx : Ctx) (delAddr : AccAddress) (valSrcAddr valDstAddr : ValAddress) : SM unit :=
  r <- GetRedelegation delAddr valSrcAddr valDstAddr ;;
  match r with
  | None => throw ErrNoRedelegation
  | Some r =>
      require (negb (BlockTime ctx <? rd_MinTime r)) ErrNotMature ;;;
      RemoveRedelegation r
  end.

(** ** Slashing (slash.go) *)
Definition slashUnbondingDelegation (ctx : Ctx) (u : UnbondingDelegation) (infractionHeight : Z) (slashFactor : Dec) : SM Dec :=
  if ub_CreationHeight u <? infractionHeight then ret ZeroDec else
  if ub_MinTime u <? BlockTime ctx then ret ZeroDec else
  slashAmount <- lift (Dec_MulInt slashFactor (amount (ub_InitialBalance u))) ;;
  rounded <- lift (Dec_RoundInt slashAmount) ;;
  let unbondingSlashAmount := MinInt rounded (amount (ub_Balance u)) in
  (if Int_IsZero unbondingSlashAmount then ret tt else
   left <- lift (Int_Sub (amount (ub_Balance u)) unbondingSlashAmount) ;;
   SetUnbondingDelegation (mkUBD (ub_TxHash u) (ub_DelegatorAddr u) (ub_ValidatorAddr u) (ub_CreationHeight u) (ub_MinTime u)
     (ub_InitialBalance u) (mkCoin (denom (ub_Balance u)) left)) ;;;
   c <- lift (NewCoin StakeDenom unbondingSlashAmount) ;;
   on_auth (DecreaseTotalLoosenToken [c])) ;;;
  ret slashAmount.
Definition slashRedelegation (ctx : Ctx) (r : Redelegation) (infractionHeight : Z) (slashFactor : Dec) : SM Dec :=
  if rd_CreationHeight r <? infractionHeight then ret ZeroDec else
  if rd_MinTime r <? BlockTime ctx then ret ZeroDec else
  slashAmount <- lift (Dec_MulInt slashFactor (amount (rd_InitialBalance r))) ;;
  rounded <- lift (Dec_RoundInt slashAmount) ;;
  let redelegationSlashAmount := MinInt rounded (amount (rd_Balance r)) in
  (if Int_IsZero redelegationSlashAmount then ret tt else
   left <- lift (Int_Sub (amount (rd_Balance r)) redelegationSlashAmount) ;;
   SetRedelegation (mkRED (rd_DelegatorAddr r) (rd_ValidatorSrcAddr r) (rd_ValidatorDstAddr r) (rd_CreationHeight r) (rd_MinTime r)
     (rd_InitialBalance r) (mkCoin (denom (rd_Balance r)) left) (rd_SharesSrc r) (rd_SharesDst r))) ;;;
  sharesToUnbond <- lift (Dec_Mul slashFactor (rd_SharesDst r)) ;;
  if Dec_IsZero sharesToUnbond then ret slashAmount else
  d <- GetDelegation (rd_DelegatorAddr r) (rd_ValidatorDstAddr r) ;;
  match d with
  | None => ret slashAmount
  | Some d =>
      let sharesToUnbond := if Dec_GT sharesToUnbond (d_Shares d) then d_Shares d else sharesToUnbond in
      tokensToBurn <- (λ s, match unbond ctx (rd_DelegatorAddr r) (rd_ValidatorDstAddr r) sharesToUnbond s with
                            | (Err _, s) => (Panic "error unbonding delegator", s)
                            | r => r
                            end) ;;
      burnt <- lift (Dec_TruncateInt tokensToBurn) ;;
      c <- lift (NewCoin StakeDenom burnt) ;;
      on_auth (DecreaseTotalLoosenToken [c]) ;;;
      ret slashAmount
  end.
(** The loops of [Slash] over the records of one kind; what is slashed there is
    taken off the amount that remains. *)
Fixpoint slash_all {A} (slash : A → SM Dec) (remaining : Dec) (l : list A) : SM Dec :=
  match l with
  | [] => ret remaining
  | a :: l =>
      amountSlashed <- slash a ;;
      remaining <- (if Dec_IsZero amountSlashed then ret remaining else lift (Dec_Sub remaining amountSlashed)) ;;
      slash_all slash remaining l
  end.
Definition Slash (ctx : Ctx) (consAddr : ConsAddress) (infractionHeight power : Z) (slashFactor : Dec) : SM unit :=
  expect (negb (Dec_LT slashFactor ZeroDec)) "attempted to slash with a negative slash factor" ;;;
  slashAmount <- lift (let? p := NewDec power in let? a := Dec_Mul p slashFactor in
                       let? a := Dec_MulInt a AttoScaleFactor in Dec_TruncateDec a) ;;
  v <- GetValidatorByConsAddr consAddr ;;
  match v with
  | None => ret tt
  | Some v =>
      expect (negb (bool_decide (v_Status v = Unbonded))) "should not be slashing unbonded validator" ;;;
      OnValidatorModified ctx (v_OperatorAddr v) ;;;
      remainingSlashAmount <-
        (if BlockHeight ctx <? infractionHeight then panic "impossible attempt to slash future infraction" else
         if infractionHeight =? BlockHeight ctx then ret slashAmount else
         us <- GetUnbondingDelegationsFromValidator (v_OperatorAddr v) ;;
         remaining <- slash_all (λ u, slashUnbondingDelegation ctx u infractionHeight slashFactor) slashAmount us ;;
         rs <- GetRedelegationsFromValidator (v_OperatorAddr v) ;;
         slash_all (λ r, slashRedelegation ctx r infractionHeight slashFactor) remaining rs) ;;
      let tokensToBurn := MaxDec (MinDec remainingSlashAmount (v_Tokens v)) ZeroDec in
      RemoveValidatorTokens v tokensToBurn ;;;
      whole <- lift (Dec_TruncateDec tokensToBurn) ;;
      change <- lift (Dec_Sub tokensToBurn whole) ;;
      expect (Dec_IsZero change) "slash decimal token in redelegation" ;;;
      burnt <- lift (Dec_TruncateInt tokensToBurn) ;;
      c <- lift (NewCoin StakeDenom burnt) ;;
      on_auth (DecreaseTotalLoosenToken [c])
  end.
Definition Jail (consAddr : ConsAddress) : SM unit := v <- mustGetValidatorByConsAddr consAddr ;; jailValidator v.
Definition Unjail (consAddr : ConsAddress) : SM unit := v <- mustGetValidatorByConsAddr consAddr ;; unjailValidator v.

(** ** Views of other modules (sdk_types.go, query_utils.go) *)
(** The bonded validators by power, at most [maxValidators]. *)
Fixpoint bonded_by_power (n : Z) (l : list ValAddress) : SM (list Validator) :=
  match l with
  | [] => ret []
  | a :: l =>
      if n <=? 0 then ret [] else
      v <- mustGetValidator a ;;
      if decide (v_Status v = Bonded) then rest <- bonded_by_power (n - 1) l ;; ret (v :: rest)
      else bonded_by_power n l
  end.
Definition GetBondedValidatorsByPower : SM (list Validator) :=
  params <- GetParams ;;
  l <- gets ValidatorsPowerStoreIterator ;;
  bonded_by_power (MaxValidators params) l.
Fixpoint last_validators (n : Z) (l : list ValAddress) : SM (list Validator) :=
  match l with
  | [] => ret []
  | a :: l =>
      expect (0 <? n) "more validators than maxValidators found" ;;;
      v <- mustGetValidator a ;; rest <- last_validators (n - 1) l ;; ret (v :: rest)
  end.
Definition GetLastValidators : SM (list Validator) :=
  params <- GetParams ;;
  l <- gets (λ s, (entries (lastPower s)).*1) ;;
  last_validators (MaxValidators params) l.
Definition TotalPower : SM Dec := p <- GetPool ;; ret (BondedPool p).
Definition keeper_BondedRatio : SM Dec :=
  p <- GetPool ;;
  loosenAmount <- on_auth GetLoosenTokenAmount ;;
  lift (BondedRatio (mkPoolStatus loosenAmount (BondedPool p))).
Definition GetDelegatorValidator (delegatorAddr : AccAddress) (validatorAddr : ValAddress) : SM Validator :=
  d <- GetDelegation delegatorAddr validatorAddr ;;
  match d with
  | None => throw ErrNoDelegation
  | Some d =>
      v <- GetValidator (d_ValidatorAddr d) ;;
      match v with None => panic "validator does not exist for that address" | Some v => ret v end
  end.

(** ** Messages (handler.go) *)
Definition handleMsgCreateValidator (ctx : Ctx) (msg : MsgCreateValidator) : SM unit :=
  found <- GetValidator (cv_ValidatorAddr msg) ;;
  require (negb (bool_decide (is_Some found))) ErrValidatorOwnerExists ;;;
  match cv_PubKey msg with
  | None => panic "nil public key"
  | Some pubKey =>
      found <- GetValidatorByConsAddr (PubKey_Address pubKey) ;;
      require (negb (bool_decide (is_Some found))) ErrValidatorPubKeyExists ;;;
      require (match PubKeyTypes ctx with None => true | Some l => bool_decide (TM2PB_Type pubKey ∈ l) end)
        ErrValidatorPubKeyTypeNotSupported ;;;
      match cm_Rate (cv_Commission msg) with
      | None => panic "nil commission rate"
      | Some rate =>
          one <- lift (NewDec 1) ;;
          v <- lift (SetInitialCommission (NewValidator (cv_ValidatorAddr msg) pubKey (cv_Description msg))
                       (NewCommissionWithTime rate one one (BlockTime ctx))) ;;
          SetValidator v ;;;
          SetValidatorByConsAddr v ;;;
          SetNewValidatorByPowerIndex v ;;;
          OnValidatorCreated ctx (v_OperatorAddr v) ;;;
          Delegate ctx (cv_DelegatorAddr msg) (cv_Delegation msg) v true ;;;
          ret tt
      end
  end.
Definition handleMsgEditValidator (ctx : Ctx) (msg : MsgEditValidator) : SM unit :=
  v <- GetValidator (ev_ValidatorAddr msg) ;;
  match v with
  | None => throw ErrNoValidatorFound
  | Some v =>
      description <- lift (UpdateDescription (v_Description v) (ev_Description msg)) ;;
      let v := with_description description v in
      v <- match ev_CommissionRate msg with
           | None => ret v
           | Some rate =>
               commission <- lift (UpdateValidatorCommission ctx v rate) ;;
               OnValidatorModified ctx (ev_ValidatorAddr msg) ;;;
               ret (with_commission commission v)
           end ;;
      SetValidator v
  end.
Definition handleMsgDelegate (ctx : Ctx) (msg : MsgDelegate) : SM unit :=
  v <- GetValidator (md_ValidatorAddr msg) ;;
  match v with
  | None => throw ErrNoValidatorFound
  | Some v =>
      require (negb (v_Jailed v && negb (bool_decide (v_OperatorAddr v = md_DelegatorAddr msg)))) ErrValidatorJailed ;;;
      Delegate ctx (md_DelegatorAddr msg) (md_Delegation msg) v true ;;;
      ret tt
  end.
(** A share amount that was not sent is nil, which the comparisons panic on. *)
Definition handleMsgBeginUnbonding (ctx : Ctx) (msg : MsgBeginUnbonding) : SM unit :=
  match mu_SharesAmount msg with
  | None => panic "nil shares"
  | Some shares => BeginUnbonding ctx (mu_DelegatorAddr msg) (mu_ValidatorAddr msg) shares ;;; ret tt
  end.
Definition handleMsgBeginRedelegate (ctx : Ctx) (msg : MsgBeginRedelegate) : SM unit :=
  match mr_SharesAmount msg with
  | None => panic "nil shares"
  | Some shares => BeginRedelegation ctx (mr_DelegatorAddr msg) (mr_ValidatorSrcAddr msg) (mr_ValidatorDstAddr msg) shares ;;; ret tt
  end.
Definition stake_Handler (ctx : Ctx) (msg : StakeMsg) : SM unit :=
  match msg with
  | CreateValidator m => handleMsgCreateValidator ctx m
  | EditValidator m => handleMsgEditValidator ctx m
  | Delegate_ m => handleMsgDelegate ctx m
  | BeginRedelegate m => handleMsgBeginRedelegate ctx m
  | BeginUnbonding_ m => handleMsgBeginUnbonding ctx m
  end.

(** ** The end of a block (abci.go) *)
(** The balances are read for the metrics. *)
Definition UpdateMetrics : SM unit := on_auth (getCoins BurnedCoinsAccAddr) ;;; on_auth getLoosenCoins ;;; ret tt.
Definition StakeEndBlocker : string := "stakeEndBlocker".
(** Its loops over the delegations and redelegations that are mature. *)
Definition complete_unbondings (ctx : Ctx) : SM unit :=
  matureUnbonds <- DequeueAllMatureUnbondingQueue ctx ;;
  for_each matureUnbonds (λ p, ignore_err (CompleteUnbonding (dv_DelegatorAddr p) (dv_ValidatorAddr p))).
Definition complete_redelegations (ctx : Ctx) : SM unit :=
  matureRedelegations <- DequeueAllMatureRedelegationQueue ctx ;;
  for_each matureRedelegations (λ t, ignore_err
    (CompleteRedelegation ctx (dvv_DelegatorAddr t) (dvv_ValidatorSrcAddr t) (dvv_ValidatorDstAddr t))).
Definition EndBlocker (ctx : Ctx) : SM (list ValidatorUpdate) :=
  let ctx := WithCoinFlowTrigger StakeEndBlocker ctx in
  validatorUpdates <- ApplyAndReturnValidatorSetUpdates ctx ;;
  UnbondAllMatureValidatorQueue ctx ;;;
  complete_unbondings ctx ;;;
  complete_redelegations ctx ;;;
  UpdateMetrics ;;;
  ret validatorUpdates.

(** ** Genesis (genesis.go) *)
Record GenesisState := mkGenesis {
  gs_BondedPool : Pool; gs_Params : Params; gs_LastTotalPower : Int; gs_LastValidatorPowers : list (ValAddress * Int);
  gs_Validators : list Validator; gs_Bonds : list Delegation; gs_UnbondingDelegations : list UnbondingDelegation;
  gs_Redelegations : list Redelegation; gs_Exported : bool }.
Definition fmt_Errorf : Error := mkError "" 1.
Fixpoint validateGenesisStateValidators (seen : gset ConsKey) (l : list Validator) : Outcome unit :=
  match l with
  | [] => Ok tt
  | v :: l =>
      if bool_decide (v_ConsPubKey v ∈ seen) then Err fmt_Errorf else
      if v_Jailed v && bool_decide (v_Status v = Bonded) then Err fmt_Errorf else
      if Dec_IsZero (v_DelegatorShares v) && negb (bool_decide (v_Status v = Unbonding)) then Err fmt_Errorf else
      validateGenesisStateValidators ({[v_ConsPubKey v]} ∪ seen) l
  end.
Definition ValidateGenesis (mainnet : bool) (data : GenesisState) : Outcome unit :=
  let? _ := validateGenesisStateValidators ∅ (gs_Validators data) in ValidateParams mainnet (gs_Params data).
Definition init_validator (ctx : Ctx) (v : Validator) : SM unit :=
  SetValidator v ;;;
  SetValidatorByConsAddr v ;;;
  SetValidatorByPowerIndex v ;;;
  OnValidatorCreated ctx (v_OperatorAddr v) ;;;
  (if decide (v_Status v = Unbonding) then InsertValidatorQueue v else ret tt) ;;;
  (if decide (v_Status v = Bonded) then ret tt else
   t <- lift (Dec_TruncateInt (v_Tokens v)) ;;
   balance <- lift (NewCoin StakeDenom t) ;;
   on_auth (IncreaseTotalLoosenToken [balance])).
Definition init_bond (ctx : Ctx) (d : Delegation) : SM unit :=
  SetDelegation d ;;; OnDelegationCreated ctx (d_DelegatorAddr d) (d_ValidatorAddr d).
Definition init_ubd (u : UnbondingDelegation) : SM unit :=
  SetUnbondingDelegation u ;;; InsertUnbondingQueue u ;;; on_auth (IncreaseTotalLoosenToken [ub_Balance u]).
Definition init_red (r : Redelegation) : SM unit := SetRedelegation r ;;; InsertRedelegationQueue r.
Fixpoint init_powers (l : list (ValAddress * Int)) : SM (list ValidatorUpdate) :=
  match l with
  | [] => ret []
  | (a, p) :: l =>
      SetLastValidatorPower a p ;;;
      v <- GetValidator a ;;
      match v with
      | None => panic "expected validator, not found"
      | Some v =>
          update <- lift (ABCIValidatorUpdate v) ;;
          p64 <- lift (Int_Int64 p) ;;
          rest <- init_powers l ;;
          ret (mkUpdate (vu_PubKey update) p64 :: rest)
      end
  end.
(** [sort.SliceStable] by the height of creation. *)
Fixpoint insert_by {A} (height : A → Z) (a : A) (l : list A) : list A :=
  match l with
  | [] => [a]
  | b :: l => if height a <=? height b then a :: b :: l else b :: insert_by height a l
  end.
Definition SliceStable {A} (height : A → Z) (l : list A) : list A := foldr (insert_by height) [] l.
Definition InitGenesis (ctx : Ctx) (mainnet : bool) (data : GenesisState) : SM (list ValidatorUpdate) :=
  (match ValidateGenesis mainnet data with Ok _ => ret tt | Err _ => panic "invalid genesis" | Panic w => panic w end) ;;;
  let ctx := WithBlockHeight (1 - ValidatorUpdateDelay) ctx in
  SetPool (gs_BondedPool data) ;;;
  SetParams (gs_Params data) ;;;
  SetLastTotalPower (gs_LastTotalPower data) ;;;
  GetPool ;;;
  for_each (gs_Validators data) (init_validator ctx) ;;;
  for_each (gs_Bonds data) (init_bond ctx) ;;;
  for_each (SliceStable ub_CreationHeight (gs_UnbondingDelegations data)) init_ubd ;;;
  for_each (SliceStable rd_CreationHeight (gs_Redelegations data)) init_red ;;;
  if gs_Exported data then init_powers (gs_LastValidatorPowers data) else ApplyAndReturnValidatorSetUpdates ctx.
Definition ExportGenesis : SM GenesisState :=
  p <- GetPool ;;
  params <- GetParams ;;
  lastTotalPower <- GetLastTotalPower ;;
  s <- get ;;
  ret (mkGenesis p params lastTotalPower (entries (lastPower s)) (GetAllValidators s) (GetAllDelegations s)
         ((entries (ubds s)).*2) ((entries (reds s)).*2) true).
End keeper.
End Stake.
