(* ===== verification/StakeFacts.v ===== *)
(** * Staking: the invariant

    What the stores of the module satisfy between messages, with room for the
    imbalance an operation has half way, and what each step of the keeper does to
    it. *)

From Stdlib Require Import Ascii.
From S2P Require Import Prelude SdkErrors IntType GoStrings Denom Coin CoinFacts Dec TimeBytes KVStore Gas Auth Bank BankFacts BankBurn BankFrame Frame StakeTypes Stake.
#[local] Open Scope Z_scope.

Module StakeFacts.
Import StakeTypes Stake.
Abbreviation P := precisionReuse.
Definition is_addr (a : string) : Prop := str_len a = AddrLen.
(** An address that somebody can have the key of. *)
Definition good_signer `{Crypto} (a : AccAddress) : Prop := is_addr a ∧ a ≠ BurnedCoinsAccAddr.

(** ** Measures *)
(** Loose native tokens in accounts; those of the burned-coins address are gone. *)
Definition circulating `{Crypto} (a : AuthState) : Z := total a IrisAtto - balance a BurnedCoinsAccAddr IrisAtto.
Definition loose_tokens (v : Validator) : Z := if decide (v_Status v = Bonded) then 0 else v_Tokens v.
Definition ubd_balance (u : UnbondingDelegation) : Z := amount (ub_Balance u).
Definition shares_to (a : ValAddress) (d : Delegation) : Z := if decide (d_ValidatorAddr d = a) then d_Shares d else 0.
Definition shares_of (vals : gmap ValAddress Validator) (a : ValAddress) : Z :=
  match vals !! a with Some v => v_DelegatorShares v | None => 0 end.

(** ** Parts of the invariant *)
Record val_ok (v : Validator) : Prop := {
  vo_addr : is_addr (v_OperatorAddr v);
  vo_tokens : 0 ≤ v_Tokens v;
  vo_whole : (P | v_Tokens v);
  vo_shares : 0 ≤ v_DelegatorShares v;
  vo_empty : v_DelegatorShares v = 0 → v_Tokens v = 0 }.
Definition vals_ok (vals : gmap ValAddress Validator) : Prop :=
  ∀ a v, vals !! a = Some v → v_OperatorAddr v = a ∧ val_ok v.
Definition index_ok (vals : gmap ValAddress Validator) (idx : gmap string ValAddress) : Prop :=
  ∀ k a, idx !! k = Some a ↔ ∃ v, vals !! a = Some v ∧ v_Jailed v = false ∧ getValidatorPowerRank v = Ok k.
Definition cons_ok `{ConsCrypto} (vals : gmap ValAddress Validator) (idx : gmap ConsAddress ValAddress) : Prop :=
  ∀ c a, idx !! c = Some a ↔ ∃ v, vals !! a = Some v ∧ ConsAddr v = c.
Definition dels_ok `{Crypto} (dels : gmap string Delegation) : Prop :=
  ∀ k d, dels !! k = Some d →
    k = GetDelegationKey (d_DelegatorAddr d) (d_ValidatorAddr d) ∧
    good_signer (d_DelegatorAddr d) ∧ is_addr (d_ValidatorAddr d) ∧ 0 ≤ d_Shares d.
Record ubds_ok (us : gmap string UnbondingDelegation) (idx : gmap string unit) : Prop := {
  uo_record : ∀ k u, us !! k = Some u →
    k = GetUBDKey (ub_DelegatorAddr u) (ub_ValidatorAddr u) ∧
    is_addr (ub_DelegatorAddr u) ∧ is_addr (ub_ValidatorAddr u) ∧
    denom (ub_Balance u) = IrisAtto ∧ 0 ≤ amount (ub_Balance u) ∧ 0 ≤ amount (ub_InitialBalance u);
  uo_index : ∀ ik, is_Some (idx !! ik) ↔
    ∃ k u, us !! k = Some u ∧ ik = GetUBDByValIndexKey (ub_DelegatorAddr u) (ub_ValidatorAddr u) }.
Record reds_ok (rs : gmap string Redelegation) (src dst : gmap string unit) : Prop := {
  ro_record : ∀ k r, rs !! k = Some r →
    k = GetREDKey (rd_DelegatorAddr r) (rd_ValidatorSrcAddr r) (rd_ValidatorDstAddr r) ∧
    is_addr (rd_DelegatorAddr r) ∧ is_addr (rd_ValidatorSrcAddr r) ∧ is_addr (rd_ValidatorDstAddr r) ∧
    rd_ValidatorSrcAddr r ≠ rd_ValidatorDstAddr r ∧ 0 ≤ rd_SharesDst r ∧
    0 ≤ amount (rd_Balance r) ∧ 0 ≤ amount (rd_InitialBalance r);
  ro_src : ∀ ik, is_Some (src !! ik) ↔ ∃ k r, rs !! k = Some r ∧
    ik = GetREDByValSrcIndexKey (rd_DelegatorAddr r) (rd_ValidatorSrcAddr r) (rd_ValidatorDstAddr r);
  ro_dst : ∀ ik, is_Some (dst !! ik) ↔ ∃ k r, rs !! k = Some r ∧
    ik = GetREDByValDstIndexKey (rd_DelegatorAddr r) (rd_ValidatorSrcAddr r) (rd_ValidatorDstAddr r) }.
Definition loose_ok (a : AuthState) : Prop :=
  canonical (default [] (totalLoosenToken a)) ∧ nonneg (default [] (totalLoosenToken a)).

(** ** Addresses and keys *)
Lemma addr_field_id a : is_addr a → addr_field a = a.
Proof.
  unfold is_addr, addr_field, str_len. intros H. rewrite take_app_le by lia.
  by rewrite firstn_all2, str_chars by lia.
Qed.
Lemma str_app_inj (a b a' b' : string) : str_len a = str_len a' → a +:+ b = a' +:+ b' → a = a' ∧ b = b'.
Proof.
  intros Hl E%(f_equal chars). rewrite !chars_app in E. apply app_inj_1 in E as [E1 E2]; [|done].
  split; by apply chars_inj.
Qed.
Lemma str_len_app a b : str_len (a +:+ b) = (str_len a + str_len b)%nat.
Proof. unfold str_len. by rewrite chars_app, length_app. Qed.
Lemma inv_byte_inv c : inv_byte (inv_byte c) = c.
Proof.
  unfold inv_byte. pose proof (Ascii.N_ascii_bounded c).
  rewrite Ascii.N_ascii_embedding by lia. replace (255 - (255 - Ascii.N_of_ascii c))%N with (Ascii.N_of_ascii c) by lia.
  apply Ascii.ascii_N_embedding.
Qed.
Lemma inv_bytes_len a : str_len (inv_bytes a) = str_len a.
Proof. unfold inv_bytes, str_len. by rewrite chars_str, length_fmap. Qed.
Lemma inv_bytes_inj a b : inv_bytes a = inv_bytes b → a = b.
Proof.
  unfold inv_bytes. intros E%(f_equal chars). rewrite !chars_str in E. apply chars_inj.
  apply (f_equal (fmap inv_byte)) in E. rewrite <-!list_fmap_compose in E.
  rewrite !(list_fmap_ext (inv_byte ∘ inv_byte) id) in E by (intros; apply inv_byte_inv). by rewrite !list_fmap_id in E.
Qed.
Lemma rank_ok v k :
  getValidatorPowerRank v = Ok k →
  ∃ p, potential_power v = Ok p ∧ k = Uint64ToBigEndian (wrap64 p) +:+ addr_field (inv_bytes (v_OperatorAddr v)).
Proof. unfold getValidatorPowerRank. intros (p&Hp&[= <-])%obind_ok. eauto. Qed.
Lemma rank_inj v w k :
  is_addr (v_OperatorAddr v) → is_addr (v_OperatorAddr w) →
  getValidatorPowerRank v = Ok k → getValidatorPowerRank w = Ok k → v_OperatorAddr v = v_OperatorAddr w.
Proof.
  intros Hv Hw (p&_&->)%rank_ok (q&_&E)%rank_ok.
  rewrite !addr_field_id in E by (unfold is_addr; by rewrite inv_bytes_len).
  apply str_app_inj in E as [_ E]; [by apply inv_bytes_inj|by rewrite !Uint64ToBigEndian_length].
Qed.

(** ** The power index *)
Section index.
Context (vals : gmap ValAddress Validator) (idx : gmap string ValAddress).
Context (Hv : vals_ok vals) (Hi : index_ok vals idx).

Lemma index_update old new k k' :
  vals !! v_OperatorAddr old = Some old → v_OperatorAddr new = v_OperatorAddr old →
  getValidatorPowerRank old = Ok k → (v_Jailed new = false → getValidatorPowerRank new = Ok k') →
  index_ok (<[v_OperatorAddr new := new]> vals)
    (if v_Jailed new then delete k idx else <[k' := v_OperatorAddr new]> (delete k idx)).
Proof.
  intros Ho En Hk Hk'. rewrite En. set (a := v_OperatorAddr old) in *.
  assert (Ha : is_addr a) by (apply vo_addr, (Hv a), Ho).
  assert (Hbase : ∀ j b, delete k idx !! j = Some b ↔ b ≠ a ∧ ∃ v, vals !! b = Some v ∧ v_Jailed v = false ∧ getValidatorPowerRank v = Ok j).
  { intros j b. rewrite lookup_delete_Some, (Hi j b). split.
    - intros (Hne&v&Hb&Hj&Hr). split; [|eauto]. intros ->. assert (v = old) as -> by congruence. congruence.
    - intros (Hne&v&Hb&Hj&Hr). split; [|eauto]. intros ->. apply Hne.
      destruct (Hv b v Hb) as [<- Hvo]. symmetry. by eapply rank_inj; [done|apply vo_addr| |]. }
  intros j b. destruct (v_Jailed new) eqn:Ej.
  - rewrite Hbase. split.
    + intros (Hne&v&Hb&?). exists v. by rewrite lookup_insert_ne.
    + intros (v&Hb&Hj&Hr). apply lookup_insert_Some in Hb as [[<- <-]|[??]]; [congruence|]. eauto.
  - specialize (Hk' eq_refl). rewrite lookup_insert_Some, Hbase. split.
    + intros [[<- <-]|(Hne&Hba&v&Hb&?)]; [exists new|exists v]; [by rewrite lookup_insert_eq|].
      rewrite lookup_insert_ne by congruence. done.
    + intros (v&Hb&Hj&Hr). apply lookup_insert_Some in Hb as [[<- <-]|[Hne Hb]]; [left; split; congruence|].
      right. split; [|eauto]. intros ->. apply Hne. destruct (Hv b v Hb) as [<- Hvo]. rewrite <-En.
      eapply rank_inj; [by rewrite En|by apply vo_addr|done..].
Qed.
Lemma index_unjail old k' :
  vals !! v_OperatorAddr old = Some old → v_Jailed old = true → getValidatorPowerRank (with_jailed false old) = Ok k' →
  index_ok (<[v_OperatorAddr old := with_jailed false old]> vals) (<[k' := v_OperatorAddr old]> idx).
Proof.
  intros Ho Hj Hk. assert (getValidatorPowerRank old = Ok k') as Hk' by done.
  pose proof (index_update old (with_jailed false old) k' k' Ho eq_refl Hk' (λ _, Hk)) as H. simpl in H.
  rewrite delete_id in H; [done|]. destruct (idx !! k') as [b|] eqn:Eb; [|done]. exfalso.
  apply Hi in Eb as (v&Hb&Hvj&Hr). destruct (Hv _ _ Ho) as [_ Ha]. destruct (Hv b v Hb) as [<- Hb'].
  assert (v_OperatorAddr v = v_OperatorAddr old) as E by (eapply rank_inj; [apply vo_addr..| |]; done).
  rewrite E in Hb. congruence.
Qed.
Lemma index_remove old k :
  vals !! v_OperatorAddr old = Some old → getValidatorPowerRank old = Ok k →
  index_ok (delete (v_OperatorAddr old) vals) (delete k idx).
Proof.
  intros Ho Hk. pose proof (index_update old (with_jailed true old) k k Ho eq_refl Hk) as H. simpl in H.
  specialize (H ltac:(done)). intros j b. rewrite (H j b). split; intros (v&Hb&Hj&Hr); exists v.
  - apply lookup_insert_Some in Hb as [[<- <-]|[??]]; [done|]. by rewrite lookup_delete_ne.
  - apply lookup_delete_Some in Hb as [??]. by rewrite lookup_insert_ne.
Qed.
Lemma index_new new k :
  vals !! v_OperatorAddr new = None → is_addr (v_OperatorAddr new) → v_Jailed new = false → getValidatorPowerRank new = Ok k →
  index_ok (<[v_OperatorAddr new := new]> vals) (<[k := v_OperatorAddr new]> idx).
Proof.
  intros Hn Ha Hj Hk j b. rewrite lookup_insert_Some, (Hi j b). split.
  - intros [[<- <-]|(Hne&v&Hb&?)]; [exists new|exists v]; [by rewrite lookup_insert_eq|].
    rewrite lookup_insert_ne by congruence. done.
  - intros (v&Hb&Hvj&Hr). apply lookup_insert_Some in Hb as [[<- <-]|[Hne Hb]]; [left; split; congruence|].
    right. split; [|eauto]. intros ->. apply Hne. destruct (Hv b v Hb) as [<- Hvo].
    by eapply rank_inj; [done|apply vo_addr| |].
Qed.
End index.

(** ** Moving loose tokens *)
Record shifted (n : Z) (a a' : AuthState) : Prop := {
  sh_accounts : accounts a' = accounts a;
  sh_ok : loose_ok a → loose_ok a';
  sh_amt : loosen a' IrisAtto = loosen a IrisAtto + n }.
Lemma shifted_refl a : shifted 0 a a.
Proof. split; [done..|lia]. Qed.
Lemma sorted_one c : sorted [c].
Proof. repeat constructor. Qed.
Lemma Decrease_shifted n u a a' :
  0 ≤ n → DecreaseTotalLoosenToken [mkCoin IrisAtto n] a = (Ok u, a') → shifted (- n) a a'.
Proof.
  intros Hn H. split.
  - by apply DecreaseTotalLoosenToken_accounts in H.
  - intros [Hc Hnn]. revert H. unfold DecreaseTotalLoosenToken. rewrite (GetCoin_head (mkCoin IrisAtto n)) by done.
    change (Coins_Empty [_]) with false. cbv iota. destruct (Coin_IsPositive _); cbn [negb]; intros H; [|inv_ok H; done].
    unfold GetTotalLoosenToken in H. inv_ok H. destruct a as [new neg]. destruct neg; [done|]. inv_ok H.
    destruct (Coins_SafeSub_spec _ _ _ _ (proj1 Hc) (sorted_one _) E) as (Hc'&Ha&Hneg).
    split; [done|]. apply nonneg_amt; [apply Hc'|]. intros d. rewrite Ha. pose proof (proj1 Hneg eq_refl d). lia.
  - destruct (DecreaseTotalLoosenToken_ok (mkCoin IrisAtto n) _ _ _ eq_refl Hn H) as [_ Hl].
    rewrite Hl. change (loosen_part [mkCoin IrisAtto n] IrisAtto) with (n + 0). lia.
Qed.
Lemma Increase_shifted n u a a' :
  0 ≤ n → IncreaseTotalLoosenToken [mkCoin IrisAtto n] a = (Ok u, a') → shifted n a a'.
Proof.
  intros Hn. unfold IncreaseTotalLoosenToken. rewrite (GetCoin_head (mkCoin IrisAtto n)) by done.
  change (Coins_Empty [_]) with false. cbv iota. unfold Coin_IsPositive. autorewrite with sdk_sign. cbn [amount].
  destruct (Z.ltb_spec 0 n) as [Hp|Hz]; cbn [negb]; intros H; [|inv_ok H; replace n with 0 by lia; apply shifted_refl].
  unfold GetTotalLoosenToken in H. inv_ok H. split; [done|..].
  - intros [Hc Hnn]. unfold loose_ok. simpl.
    destruct (Coins_Add_canonical _ _ _ (proj1 Hc) (sorted_one _) E) as [Hc' Hn']. by split.
  - unfold loosen at 1. simpl. rewrite (Coins_Add_amt _ _ _ _ E).
    change (amt [mkCoin IrisAtto n] IrisAtto) with (n + 0). unfold loosen. lia.
Qed.
Lemma shifted_wf n a a' : shifted n a a' → auth_wf a → auth_wf a'.
Proof.
  intros [Ea _ _] [W1 W2 W3]. assert (∀ x, coins_of a' x = coins_of a x) as E by (intros x; unfold coins_of; by rewrite Ea).
  split; [by rewrite Ea|intros x; by rewrite E..].
Qed.
Lemma shifted_circulating `{Crypto} n a a' : shifted n a a' → circulating a' = circulating a.
Proof. intros [Ea _ _]. unfold circulating, total, balance, coins_of. by rewrite Ea. Qed.

Lemma whole_tokens_ok t n : whole_tokens t = Ok n → t = n * P.
Proof.
  unfold whole_tokens. intros H. inv_ok H. rewrite NewDecFromInt_ok in E0. injection E0 as <-.
  apply dec_checked_ok in E1 as [-> _]. destruct (Dec_IsZero (t - a * P)) eqn:Ez; [|done]. injection H as <-.
  unfold Dec_IsZero in Ez. apply Z.eqb_eq, Z.sgn_null_iff in Ez. lia.
Qed.
Definition new_pool (p p' : Pool) (t : Z) : Prop := BondedPool p' = BondedPool p + t.
Lemma loosenTokenToBonded_ok p t a p' a' :
  loosenTokenToBonded p t a = (Ok p', a') → ∃ n, t = n * P ∧ 0 ≤ n ∧ new_pool p p' t ∧ shifted (- n) a a'.
Proof.
  unfold loosenTokenToBonded. intros H. inv_ok H. apply whole_tokens_ok in E as ->. apply dec_checked_ok in E0 as [-> _].
  apply NewCoin_ok in E1 as [-> Hn]. exists a0. split_and!; [done..|]. by eapply Decrease_shifted.
Qed.
Lemma bondedTokenToLoosen_ok p t a p' a' :
  bondedTokenToLoosen p t a = (Ok p', a') → ∃ n, t = n * P ∧ 0 ≤ n ∧ new_pool p p' (- t) ∧ shifted n a a'.
Proof.
  unfold bondedTokenToLoosen. intros H. inv_ok H. apply whole_tokens_ok in E as ->. apply dec_checked_ok in E0 as [-> _].
  apply NewCoin_ok in E1 as [-> Hn]. exists a0. split_and!; [done|done| |by eapply Increase_shifted]. unfold new_pool. simpl. lia.
Qed.

(** What an operation on a validator [v] with the pool [p] does: [v'] has the
    changed tokens, and the loose tokens make up for those that changed sides. *)
Record moved (v v' : Validator) (p p' : Pool) (a a' : AuthState) (gain : Z) : Prop := {
  mv_pool : new_pool p p' (BondedTokens v' - BondedTokens v);
  mv_shift : ∃ n, shifted n a a' ∧ n * P = gain + loose_tokens v' - loose_tokens v }.

Lemma tokens_split v : BondedTokens v + loose_tokens v = v_Tokens v.
Proof. unfold BondedTokens, loose_tokens, ZeroDec. case_decide; lia. Qed.
Lemma UpdateStatus_ok v p st a v' p' a' :
  UpdateStatus v p st a = (Ok (v', p'), a') → v' = with_status st v ∧ moved v v' p p' a a' 0.
Proof.
  assert (Hsame : v_Status v = st → with_status st v = v) by (intros <-; by destruct v).
  assert (Hmove : ∀ n, moved v (with_status st v) p p' a a' n → moved v (with_status st v) p p' a a' n) by done.
  unfold UpdateStatus. intros H.
  assert (moved v v p p a a 0) as Hid.
  { split; [unfold new_pool; lia|]. exists 0. split; [apply shifted_refl|lia]. }
  destruct (v_Status v) eqn:Es, st; inv_ok H; try (rewrite Hsame by done; split; [done|exact Hid]).
  - split; [done|]. split; [unfold new_pool, BondedTokens; simpl; rewrite Es; simpl; lia|].
    exists 0. split; [apply shifted_refl|]. unfold loose_tokens. simpl. rewrite Es. simpl. lia.
  - apply loosenTokenToBonded_ok in E as (n&Ht&Hn&Hp&Hs). split; [done|]. split.
    + unfold new_pool, BondedTokens in *. simpl. rewrite Es. simpl. unfold ZeroDec. lia.
    + exists (- n). split; [done|]. unfold loose_tokens. simpl. rewrite Es. simpl. lia.
  - split; [done|]. split; [unfold new_pool, BondedTokens; simpl; rewrite Es; simpl; lia|].
    exists 0. split; [apply shifted_refl|]. unfold loose_tokens. simpl. rewrite Es. simpl. lia.
  - apply loosenTokenToBonded_ok in E as (n&Ht&Hn&Hp&Hs). split; [done|]. split.
    + unfold new_pool, BondedTokens in *. simpl. rewrite Es. simpl. unfold ZeroDec. lia.
    + exists (- n). split; [done|]. unfold loose_tokens. simpl. rewrite Es. simpl. lia.
  - apply bondedTokenToLoosen_ok in E as (n&Ht&Hn&Hp&Hs). split; [done|]. split.
    + unfold new_pool, BondedTokens in *. simpl. rewrite Es. simpl. unfold ZeroDec. lia.
    + exists n. split; [done|]. unfold loose_tokens. simpl. rewrite Es. simpl. lia.
  - apply bondedTokenToLoosen_ok in E as (n&Ht&Hn&Hp&Hs). split; [done|]. split.
    + unfold new_pool, BondedTokens in *. simpl. rewrite Es. simpl. unfold ZeroDec. lia.
    + exists n. split; [done|]. unfold loose_tokens. simpl. rewrite Es. simpl. lia.
Qed.

(** ** Shares and tokens *)
Lemma P_pos : 0 < P.
Proof. done. Qed.
Lemma chop_pos d : 0 ≤ d → 0 ≤ chopPrecisionAndRound d.
Proof. intros Hd. destruct (chop_round d) as [H _]. rewrite precisionReuse_val in H. lia. Qed.
Lemma chop_mul n : chopPrecisionAndRound (n * P) = n.
Proof.
  eapply bankers_round_unique; [apply chop_round|]. unfold bankers_round. rewrite Z.sub_diag. simpl.
  rewrite precisionReuse_val. split; [lia|done].
Qed.
Lemma Dec_Quo_ok a b r : Dec_Quo a b = Ok r → b ≠ 0 ∧ r = chopPrecisionAndRound (Z.quot (a * P * P) b).
Proof.
  unfold Dec_Quo, big_Quo. intros H. inv_ok H. destruct (Z.eqb_spec b 0); [done|]. injection E as <-.
  apply dec_checked_ok in H as [-> _]. done.
Qed.
Lemma Dec_Quo_nonneg a b r : 0 ≤ a → 0 ≤ b → Dec_Quo a b = Ok r → 0 ≤ r.
Proof.
  intros Ha Hb [Hz ->]%Dec_Quo_ok. apply chop_pos. rewrite precisionReuse_val.
  rewrite Z.quot_div_nonneg by lia. apply Z.div_pos; lia.
Qed.
Lemma Dec_Quo_one a r : Dec_Quo a OneDec = Ok r → r = a.
Proof.
  intros [_ ->]%Dec_Quo_ok. unfold OneDec. rewrite Z.quot_mul by done. apply chop_mul.
Qed.
Lemma exRate_nonneg v r : val_ok v → DelegatorShareExRate v = Ok r → 0 ≤ r.
Proof.
  intros [_ Ht _ Hs _]. unfold DelegatorShareExRate. destruct (Dec_IsZero _); [by intros [= <-]|]. by apply Dec_Quo_nonneg.
Qed.
Lemma Dec_IsZero_iff d : Dec_IsZero d = true ↔ d = 0.
Proof. unfold Dec_IsZero. rewrite Z.eqb_eq. apply Z.sgn_null_iff. Qed.
Lemma Dec_IsZero_false d : Dec_IsZero d = false ↔ d ≠ 0.
Proof. rewrite <-not_true_iff_false, Dec_IsZero_iff. done. Qed.

Definition more_tokens (v : Validator) (t sh : Z) : Validator := with_tokens (v_Tokens v + t) (v_DelegatorShares v + sh) v.
Lemma AddTokensFromDel_ok v p n a v' p' iss a' :
  val_ok v → 0 ≤ n → AddTokensFromDel v p n a = (Ok (v', p', iss), a') →
  v' = more_tokens v (n * P) iss ∧ 0 ≤ iss ∧ val_ok v' ∧ moved v v' p p' a a' (- (n * P)).
Proof.
  intros Hv Hn. revert v' p' iss a'.
  assert (Hgoal : wp (AddTokensFromDel v p n) (λ r a', let '(v', p', iss) := r in
    v' = more_tokens v (n * P) iss ∧ 0 ≤ iss ∧ val_ok v' ∧ moved v v' p p' a a' (- (n * P))) a);
    [|intros v' p' iss a' H; exact (Hgoal _ _ H)].
  unfold AddTokensFromDel. wps. rewrite NewDecFromInt_ok in Hx0. injection Hx0 as <-.
  pose proof (exRate_nonneg v x Hv Hx) as Hr.
  eapply (wp_mono _ (λ p' a', new_pool p p' (if decide (v_Status v = Bonded) then n * P else 0) ∧
    shifted (if decide (v_Status v = Bonded) then - n else 0) a a')).
  { case_decide.
    - intros p' a' (m&Hm&_&Hp&Hs)%loosenTokenToBonded_ok. assert (m = n) as -> by (pose proof P_pos; nia). done.
    - apply wp_ret. split; [unfold new_pool; lia|apply shifted_refl]. }
  intros p' a' [Hp Hs]. destruct (Dec_IsZero x) eqn:Ez; wps. apply Dec_IsZero_false in Ez.
  apply dec_checked_ok in Hx0 as [-> _]. apply dec_checked_ok in Hx2 as [-> _].
  assert (0 ≤ x1) by (eapply Dec_Quo_nonneg; [|done..]; pose proof P_pos; nia).
  split_and!; [done|done|..].
  - destruct Hv as [V1 V2 V3 V4 V5]. split; simpl; [done|pose proof P_pos; nia| |lia|].
    + apply Z.divide_add_r; [done|]. by exists n.
    + intros E. unfold DelegatorShareExRate in Hx. rewrite (proj2 (Dec_IsZero_iff _)) in Hx by lia. injection Hx as <-.
      apply Dec_Quo_one in Hx1. rewrite V5 by lia. lia.
  - destruct Hv. split.
    + unfold new_pool, BondedTokens, ZeroDec in *. simpl. case_decide; lia.
    + exists (if decide (v_Status v = Bonded) then - n else 0). split; [done|]. unfold loose_tokens. simpl. case_decide; lia.
Qed.

Lemma issued_amount_ok v ds r :
  val_ok v → 0 ≤ ds → issued_amount v ds = Ok r →
  0 ≤ r ≤ v_Tokens v ∧ (P | r) ∧ (ds = v_DelegatorShares v → r = v_Tokens v).
Proof.
  intros Hv Hd. unfold issued_amount. intros H. inv_ok H. injection H as <-.
  pose proof (exRate_nonneg _ _ Hv E) as Hr. unfold Dec_Mul in E0. apply dec_checked_ok in E0 as [-> _].
  unfold Dec_TruncateDec in E1. inv_ok E1. apply NewIntFromBigInt_ok in E0 as [-> _].
  rewrite NewDecFromInt_ok in E1. injection E1 as <-. set (w := chopPrecisionAndRound _).
  assert (0 ≤ w) by (apply chop_pos; nia). unfold chopPrecisionAndTruncate.
  assert (0 ≤ Z.quot w P) by (rewrite Z.quot_div_nonneg by done; by apply Z.div_pos).
  destruct Hv as [_ V2 V3 _ _]. unfold Dec_GT, Dec_Equal.
  destruct (Z.ltb_spec (v_Tokens v) (Z.quot w P * P)), (Z.eqb_spec ds (v_DelegatorShares v)); simpl; split_and!; try done; try lia.
  - pose proof P_pos. nia.
  - by exists (Z.quot w P).
Qed.
Lemma RemoveDelShares_ok v p ds a v' p' iss a' :
  val_ok v → 0 ≤ ds ≤ v_DelegatorShares v → RemoveDelShares v p ds a = (Ok (v', p', iss), a') →
  v' = more_tokens v (- iss) (- ds) ∧ 0 ≤ iss ∧ (P | iss) ∧ val_ok v' ∧ moved v v' p p' a a' iss.
Proof.
  intros Hv Hd. revert v' p' iss a'.
  assert (Hgoal : wp (RemoveDelShares v p ds) (λ r a', let '(v', p', iss) := r in
    v' = more_tokens v (- iss) (- ds) ∧ 0 ≤ iss ∧ (P | iss) ∧ val_ok v' ∧ moved v v' p p' a a' iss) a);
    [|intros v' p' iss a' H; exact (Hgoal _ _ H)].
  unfold RemoveDelShares. wps. destruct (issued_amount_ok v ds x Hv ltac:(lia) Hx) as (Hb&Hw&Hall).
  apply dec_checked_ok in Hx0 as [-> _]. apply dec_checked_ok in Hx1 as [-> _].
  eapply (wp_mono _ (λ p' a', new_pool p p' (if decide (v_Status v = Bonded) then - x else 0) ∧
    ∃ n, n * P = (if decide (v_Status v = Bonded) then x else 0) ∧ shifted n a a')).
  { case_decide.
    - intros p' a' (m&Hm&_&Hp&Hs)%bondedTokenToLoosen_ok. eauto.
    - apply wp_ret. split; [unfold new_pool; lia|]. exists 0. split; [done|apply shifted_refl]. }
  intros p' a' (Hp&n&En&Hs). wps. split_and!; [done|lia|done|..].
  - destruct Hv as [V1 V2 V3 V4 V5]. split; simpl; [done|lia| |lia|].
    + apply Z.divide_add_r; [done|]. by apply Z.divide_opp_r.
    + intros E. rewrite Hall by lia. lia.
  - split.
    + unfold new_pool, BondedTokens, ZeroDec in *. simpl. case_decide; lia.
    + exists n. split; [done|]. unfold loose_tokens. simpl. case_decide; lia.
Qed.
Lemma RemoveTokens_ok v p t a v' p' a' :
  val_ok v → (P | t) → RemoveTokens v p t a = (Ok (v', p'), a') →
  v' = more_tokens v (- t) 0 ∧ 0 ≤ t ∧ val_ok v' ∧ moved v v' p p' a a' t.
Proof.
  intros Hv Hw. revert v' p' a'.
  assert (Hgoal : wp (RemoveTokens v p t) (λ r a', let '(v', p') := r in
    v' = more_tokens v (- t) 0 ∧ 0 ≤ t ∧ val_ok v' ∧ moved v v' p p' a a' t) a);
    [|intros v' p' a' H; exact (Hgoal _ _ H)].
  unfold RemoveTokens. destruct (Dec_IsNegative t) eqn:En; wps. destruct (Dec_LT (v_Tokens v) t) eqn:El; wps.
  assert (0 ≤ t). { unfold Dec_IsNegative in En. pose proof (Z.sgn_neg_iff t). rewrite Z.eqb_neq in En. lia. }
  unfold Dec_LT in El. apply Z.ltb_ge in El. apply dec_checked_ok in Hx as [-> _]. simpl.
  eapply (wp_mono _ (λ p' a', new_pool p p' (if decide (v_Status v = Bonded) then - t else 0) ∧
    ∃ n, n * P = (if decide (v_Status v = Bonded) then t else 0) ∧ shifted n a a')).
  { case_decide.
    - intros p' a' (m&Hm&_&Hp&Hs)%bondedTokenToLoosen_ok. eauto.
    - apply wp_ret. split; [unfold new_pool; lia|]. exists 0. split; [done|apply shifted_refl]. }
  intros p' a' (Hp&n&Em&Hs). wps. split_and!; [|done|..].
  - unfold more_tokens. by rewrite Z.add_0_r.
  - destruct Hv as [V1 V2 V3 V4 V5]. split; simpl; [done|lia| |done|].
    + by apply Z.divide_sub_r.
    + intros E. specialize (V5 E). lia.
  - split.
    + unfold new_pool, BondedTokens, ZeroDec in *. simpl. case_decide; lia.
    + exists n. split; [done|]. unfold loose_tokens. simpl. case_decide; lia.
Qed.
End StakeFacts.

(** * Queues by time

    Staking keeps three queues: unbonding validators, unbonding delegations and
    redelegations wait in slices under the bytes of the time they are due.  [f] tells
    when an element is due, if it waits at all. *)
Module StakeQueue.
Import Stake.

Section queue.
Context {A : Type} `{EqDecision A}.
Implicit Types (f : A → option Z) (q : gmap string (list A)).
Record queue_ok f q : Prop := {
  qo_slice k l : q !! k = Some l → NoDup l ∧ ∀ a, a ∈ l → ∃ t, f a = Some t ∧ k = FormatTimeBytes t;
  qo_in a t : f a = Some t → ∃ l, q !! FormatTimeBytes t = Some l ∧ a ∈ l }.
Definition queued q (t : Z) : list A := default [] (q !! FormatTimeBytes t).
Definition enqueue (a : A) (t : Z) q : gmap string (list A) := <[FormatTimeBytes t := queued q t ++ [a]]> q.
Definition dequeue (a : A) (t : Z) q : gmap string (list A) :=
  let l := filter (λ b, b ≠ a) (queued q t) in
  if bool_decide (l = []) then delete (FormatTimeBytes t) q else <[FormatTimeBytes t := l]> q.

Lemma queue_ext f f' q : (∀ a, f' a = f a) → queue_ok f q → queue_ok f' q.
Proof.
  intros E [H1 H2]. split; [intros k l Hk; destruct (H1 _ _ Hk) as [Hn Hl]; split; [done|]; intros b; rewrite E; auto|].
  intros b t. rewrite E. eauto.
Qed.
(** An element is in one slice only. *)
Lemma queue_one f q k l k' l' a : queue_ok f q → q !! k = Some l → q !! k' = Some l' → a ∈ l → a ∈ l' → k = k'.
Proof.
  intros Hq Hl Hl' Ha Ha'. destruct (qo_slice _ _ Hq _ _ Hl) as [_ H1]. destruct (qo_slice _ _ Hq _ _ Hl') as [_ H2].
  destruct (H1 _ Ha) as (t&E&->). destruct (H2 _ Ha') as (t'&E'&->). congruence.
Qed.

Section update.
Context f f' q (a : A) (Hother : ∀ b, b ≠ a → f' b = f b).
Lemma queue_enqueue t : f a = None → f' a = Some t → queue_ok f q → queue_ok f' (enqueue a t q).
Proof.
  intros Hn Ha [H1 H2]. assert (Hslice : ∀ k l, q !! k = Some l → (NoDup l ∧ a ∉ l) ∧ ∀ b, b ∈ l → ∃ t, f' b = Some t ∧ k = FormatTimeBytes t).
  { intros k l Hl. destruct (H1 _ _ Hl) as [Hnd Hin]. assert (a ∉ l) as Hal by (intros Hal; destruct (Hin _ Hal) as (?&?&_); congruence).
    split; [done|]. intros b Hb. rewrite Hother by (by intros ->). auto. }
  unfold enqueue, queued. split.
  - intros k l [[<- <-]|[Hk Hl]]%lookup_insert_Some; [|destruct (Hslice _ _ Hl) as [[? _] ?]; done].
    destruct (q !! FormatTimeBytes t) as [l|] eqn:El; simpl.
    + destruct (Hslice _ _ El) as [[Hnd Hal] Hin]. split.
      * apply NoDup_app. split_and!; [done| |apply NoDup_singleton]. by intros b Hb ->%list_elem_of_singleton.
      * intros b [Hb| ->%list_elem_of_singleton]%elem_of_app; eauto.
    + split; [apply NoDup_singleton|]. intros b ->%list_elem_of_singleton. eauto.
  - intros b t' Hb. destruct (decide (b = a)) as [->|Hne].
    + rewrite Ha in Hb. injection Hb as <-. rewrite lookup_insert_eq. eexists. split; [done|]. apply elem_of_app. right. by constructor.
    + rewrite Hother in Hb by done. destruct (H2 _ _ Hb) as (l&Hl&Hin).
      destruct (decide (FormatTimeBytes t' = FormatTimeBytes t)) as [E|E]; [|rewrite lookup_insert_ne by done; eauto].
      rewrite E in *. rewrite lookup_insert_eq, Hl. eexists. split; [done|]. apply elem_of_app. by left.
Qed.
Lemma queue_dequeue t : (∀ t', f a = Some t' → t' = t) → f' a = None → queue_ok f q → queue_ok f' (dequeue a t q).
Proof.
  intros Ht Hn [H1 H2]. unfold dequeue. set (l0 := filter _ _).
  assert (Hne : ∀ b t', f' b = Some t' → b ≠ a) by (intros b t' Hb ->; congruence).
  assert (Hl0 : NoDup l0 ∧ ∀ b, b ∈ l0 → ∃ t', f' b = Some t' ∧ FormatTimeBytes t = FormatTimeBytes t').
  { unfold l0, queued. destruct (q !! FormatTimeBytes t) as [l|] eqn:El; [|split; [constructor|by intros b ?%elem_of_nil]].
    destruct (H1 _ _ El) as [Hnd Hin]. split; [by apply NoDup_filter|]. intros b [Hb Hbl]%list_elem_of_filter. rewrite Hother by done. auto. }
  assert (Hk : ∀ k l, k ≠ FormatTimeBytes t → q !! k = Some l → NoDup l ∧ ∀ b, b ∈ l → ∃ t', f' b = Some t' ∧ k = FormatTimeBytes t').
  { intros k l Hk Hl. destruct (H1 _ _ Hl) as [Hnd Hin]. split; [done|]. intros b Hb. rewrite Hother; [auto|]. intros ->.
    destruct (Hin _ Hb) as (t'&E&->). by rewrite (Ht _ E) in Hk. }
  assert (Hin : ∀ b t', f' b = Some t' → FormatTimeBytes t' = FormatTimeBytes t → b ∈ l0).
  { intros b t' Hb E. pose proof (Hne _ _ Hb) as Hba. rewrite Hother in Hb by done. destruct (H2 _ _ Hb) as (l&Hl&Hbl).
    unfold l0, queued. rewrite <-E, Hl. by apply list_elem_of_filter. }
  assert (Hout : ∀ b t', f' b = Some t' → FormatTimeBytes t' ≠ FormatTimeBytes t → ∃ l, q !! FormatTimeBytes t' = Some l ∧ b ∈ l).
  { intros b t' Hb _. rewrite Hother in Hb by eauto. eauto. }
  case_bool_decide as E; split.
  - intros k l [Hkt Hl]%lookup_delete_Some. by apply Hk.
  - intros b t' Hb. destruct (decide (FormatTimeBytes t' = FormatTimeBytes t)) as [Et|Et]; [|rewrite lookup_delete_ne by done; eauto].
    pose proof (Hin _ _ Hb Et) as Hb'. rewrite E in Hb'. by apply elem_of_nil in Hb'.
  - intros k l [[<- <-]|[Hkt Hl]]%lookup_insert_Some; [done|by apply Hk].
  - intros b t' Hb. destruct (decide (FormatTimeBytes t' = FormatTimeBytes t)) as [Et|Et]; [|rewrite lookup_insert_ne by done; eauto].
    rewrite Et, lookup_insert_eq. eauto.
Qed.
(** One element of a slice is done. *)
Lemma queue_pop k l : f' a = None → queue_ok f (<[k := a :: l]> q) → queue_ok f' (<[k := l]> q).
Proof.
  intros Hn [H1 H2]. destruct (H1 k (a :: l)) as [Hnd Hin]; [by rewrite lookup_insert_eq|]. apply NoDup_cons in Hnd as [Hal Hnd].
  destruct (Hin a) as (ta&Hta&Ek); [by left|]. split.
  - intros j m [[<- <-]|[Hne Hm]]%lookup_insert_Some.
    + split; [done|]. intros b Hb. rewrite Hother by (by intros ->). apply Hin. by right.
    + destruct (H1 j m) as [Hnm Hinm]; [by rewrite lookup_insert_ne|]. split; [done|]. intros b Hb. destruct (Hinm _ Hb) as (t&E&->).
      exists t. split; [|done]. rewrite Hother; [done|]. intros ->. congruence.
  - intros b t Hb. assert (b ≠ a) as Hne by (intros ->; congruence). rewrite Hother in Hb by done.
    destruct (H2 _ _ Hb) as (m&[[<- <-]|[Hk Hm]]%lookup_insert_Some&Hbm).
    + exists l. rewrite lookup_insert_eq. split; [done|]. by apply elem_of_cons in Hbm as [|].
    + exists m. by rewrite lookup_insert_ne.
Qed.
End update.
Lemma queue_clear f q k : queue_ok f (<[k := []]> q) → queue_ok f (delete k q).
Proof.
  intros [H1 H2]. split.
  - intros j l [Hne Hl]%lookup_delete_Some. apply H1. by rewrite lookup_insert_ne.
  - intros a t Ha. destruct (H2 _ _ Ha) as (l&[[_ <-]|[Hne Hl]]%lookup_insert_Some&Hin); [by apply elem_of_nil in Hin|].
    exists l. by rewrite lookup_delete_ne.
Qed.

(** ** What is due *)
Lemma due_elem q t k x : (k, x) ∈ due q t ↔ q !! k = Some x ∧ ¬ str_lt (FormatTimeBytes t) k.
Proof. unfold due. rewrite list_elem_of_filter, entries_elem. naive_solver. Qed.
Lemma due_NoDup q t : NoDup (due q t).*1.
Proof. eapply sublist_NoDup; [apply (entries_NoDup q)|]. apply fmap_sublist, sublist_filter. Qed.
Definition matures q (t : Z) : list A := mjoin (due q t).*2.
Lemma matures_elem f q t a :
  queue_ok f q → a ∈ matures q t ↔ ∃ t', f a = Some t' ∧ ¬ str_lt (FormatTimeBytes t) (FormatTimeBytes t').
Proof.
  intros Hq. unfold matures. rewrite list_elem_of_join. split.
  - intros (l&Ha&([k x]&->&[Hk Hd]%due_elem)%list_elem_of_fmap). simpl in Ha.
    destruct (qo_slice _ _ Hq _ _ Hk) as [_ Hin]. destruct (Hin _ Ha) as (t'&E&->). eauto.
  - intros (t'&E&Hd). destruct (qo_in _ _ Hq _ _ E) as (l&Hl&Ha). exists l. split; [done|].
    apply list_elem_of_fmap. exists (FormatTimeBytes t', l). split; [done|]. by apply due_elem.
Qed.
Lemma join_NoDup (ls : list (string * list A)) :
  NoDup ls.*1 → (∀ k l, (k, l) ∈ ls → NoDup l) →
  (∀ k l k' l' a, (k, l) ∈ ls → (k', l') ∈ ls → a ∈ l → a ∈ l' → k = k') → NoDup (mjoin ls.*2).
Proof.
  induction ls as [|[k l] ls IH]; intros Hk Hl Hd; [constructor|]. cbn in *. apply NoDup_cons in Hk as [Hk Hks].
  apply NoDup_app. split_and!.
  - apply (Hl k). by left.
  - intros a Ha (l'&Ha'&([k' x]&->&Hin)%list_elem_of_fmap)%list_elem_of_join. apply Hk.
    rewrite (Hd k l k' x a); [|by left|by right|done|done]. by apply (list_elem_of_fmap_2 fst) in Hin.
  - apply IH; [done|intros k' l' Hin; apply (Hl k'); by right|]. intros k1 l1 k2 l2 a H1 H2. apply Hd; by right.
Qed.
Lemma matures_NoDup f q t : queue_ok f q → NoDup (matures q t).
Proof.
  intros Hq. apply join_NoDup; [apply due_NoDup| |].
  - intros k l [Hk _]%due_elem. by apply (qo_slice _ _ Hq) in Hk as [? _].
  - intros k l k' l' a [Hk _]%due_elem [Hk' _]%due_elem. by apply (queue_one f q).
Qed.
(** The queue without the slices that are due, once their elements are gone. *)
Definition drop_due q (t : Z) : gmap string (list A) := foldl (λ q kv, delete kv.1 q) q (due q t).
Lemma foldl_delete_lookup (ls : list (string * list A)) q k :
  foldl (λ q kv, delete kv.1 q) q ls !! k = if decide (k ∈ ls.*1) then None else q !! k.
Proof.
  revert q. induction ls as [|[j x] ls IH]; intros q; [done|]. cbn [foldl fmap list_fmap fst]. rewrite IH.
  destruct (decide (k = j)) as [->|Hne].
  - rewrite lookup_delete_eq, (decide_True (P := j ∈ j :: _)) by (by left). by case_decide.
  - rewrite lookup_delete_ne by done. repeat case_decide; try done; set_solver.
Qed.
Lemma drop_due_lookup q t k : drop_due q t !! k = if decide (str_lt (FormatTimeBytes t) k) then q !! k else None.
Proof.
  unfold drop_due. rewrite foldl_delete_lookup. case_decide as E1; case_decide as E2; try done.
  - apply list_elem_of_fmap in E1 as ([j x]&->&[_ ?]%due_elem). done.
  - destruct (q !! k) as [x|] eqn:Ek; [|done]. destruct E1. apply (list_elem_of_fmap_2 fst _ (k, x)), due_elem. done.
Qed.
Lemma queue_drop_due f f' q t :
  (∀ a, f' a = if decide (a ∈ matures q t) then None else f a) → queue_ok f q → queue_ok f' (drop_due q t).
Proof.
  intros Hf Hq. split.
  - intros k l Hk. rewrite drop_due_lookup in Hk. case_decide as Hlt; [|done]. destruct (qo_slice _ _ Hq _ _ Hk) as [Hn Hin].
    split; [done|]. intros a Ha. destruct (Hin _ Ha) as (t'&E&->). exists t'. rewrite Hf. split; [|done]. rewrite decide_False; [done|].
    intros (t2&E2&Hd)%(matures_elem f); [|done]. rewrite E in E2. injection E2 as <-. done.
  - intros a t' Ha. rewrite Hf in Ha. case_decide as Hm; [done|]. destruct (qo_in _ _ Hq _ _ Ha) as (l&Hl&Hin). exists l. split; [|done].
    rewrite drop_due_lookup. case_decide as Hlt; [done|]. destruct Hm. apply (matures_elem f); eauto.
Qed.
End queue.
End StakeQueue.
