(* ===== verification/StakeInv.v ===== *)
(** * Staking: what the steps of the keeper preserve

    The hooks are those of modules that leave the stores of staking alone and
    account for the loose tokens they hold; every step of the keeper then changes
    the balance of the loose tokens and of the shares by a known amount. *)

From Stdlib Require Import Ascii.
From S2P Require Import Prelude SdkErrors IntType GoStrings Denom Coin CoinFacts Dec TimeBytes KVStore Gas Auth Bank BankFacts BankBurn BankFrame Frame StakeTypes Stake StakeFacts.
#[local] Open Scope Z_scope.

Module StakeInv.
Import StakeTypes Stake StakeFacts.

(** ** What staking expects of the hooks *)
Section laws.
Context {X : Type} `{Crypto}.
(** The loose tokens, in decimal units, that a module behind the hooks holds. *)
Variable held : X → Z.
Variable other_ok : X → Prop.
Definition gap (a : AuthState) (x : X) : Z := (loosen a IrisAtto - circulating a) * P - held x.
Record kept (a : AuthState) (x : X) (a' : AuthState) (x' : X) : Prop := {
  kp_auth : auth_wf a';
  kp_loose : loose_ok a';
  kp_other : other_ok x';
  kp_gap : gap a' x' = gap a x }.
(** A computation that changes accounts and the other modules only, and the
    accounts well if it is called as it should. *)
Definition outside (called : Prop) {A} (c : M (StakeState X) A) : Prop := ∀ s,
  wp c (λ _ s', ∃ a x, s' = set_other x (set_auth a s) ∧
    (called → auth_wf (st_auth s) → loose_ok (st_auth s) → other_ok (st_other s) → kept (st_auth s) (st_other s) a x)) s.
End laws.
Class HookLaws (X : Type) `{Crypto, StakingHooks X} := {
  held : X → Z;
  other_ok : X → Prop;
  law_created ctx v : outside held other_ok True (OnValidatorCreated ctx v);
  law_modified ctx v : outside held other_ok True (OnValidatorModified ctx v);
  law_removed ctx c v : outside held other_ok True (OnValidatorRemoved ctx c v);
  law_bonded ctx c v : outside held other_ok True (OnValidatorBonded ctx c v);
  law_unbonding ctx c v : outside held other_ok True (OnValidatorBeginUnbonding ctx c v);
  law_power ctx c v : outside held other_ok True (OnValidatorPowerDidChange ctx c v);
  law_del_created ctx d v : outside held other_ok (good_signer d) (OnDelegationCreated ctx d v);
  law_del_modified ctx d v : outside held other_ok (good_signer d) (OnDelegationSharesModified ctx d v);
  law_del_removed ctx d v : outside held other_ok (good_signer d) (OnDelegationRemoved ctx d v) }.

(** ** Sums over an updated store *)
Section sums.
Context (vals : gmap ValAddress Validator).
Lemma sum_update (f : Validator → Z) a old new :
  vals !! a = Some old → map_sum f (<[a := new]> vals) = map_sum f vals - f old + f new.
Proof. intros Ha. rewrite map_sum_insert. unfold at_key. by rewrite Ha. Qed.
Lemma shares_of_update a new b :
  shares_of (<[a := new]> vals) b = if decide (b = a) then v_DelegatorShares new else shares_of vals b.
Proof. unfold shares_of. case_decide as E; [subst; by rewrite lookup_insert_eq|by rewrite lookup_insert_ne]. Qed.
End sums.

Lemma wp_unmarshal {S A} n key (a : A) (Q : A → S → Prop) (s : S) : (str_len key = n → Q a s) → wp (unmarshal n key a) Q s.
Proof. intros HQ. unfold unmarshal, expect. apply wp_bind. case_bool_decide; wps. auto. Qed.
Lemma wp_expect {S} b w (Q : unit → S → Prop) (s : S) : (b = true → Q tt s) → wp (expect b w) Q s.
Proof. intros HQ. unfold expect. destruct b; wps. auto. Qed.

Section inv.
Context {X : Type} `{Crypto, ConsCrypto, StakingHooks X, !HookLaws X}.
Implicit Types s : StakeState X.

(** The invariant, with the loose tokens and the shares an operation has taken
    from one side and not yet given to the other. *)
Record sinv (L : Z) (D : ValAddress → Z) s : Prop := {
  si_auth : auth_wf (st_auth s);
  si_loose : loose_ok (st_auth s);
  si_other : other_ok (st_other s);
  si_vals : vals_ok (validators s);
  si_pool : ∃ p, pool s = Some p ∧ BondedPool p = map_sum BondedTokens (validators s);
  si_index : index_ok (validators s) (byPower s);
  si_cons : cons_ok (validators s) (byConsAddr s);
  si_dels : dels_ok (delegations s);
  si_ubds : ubds_ok (ubds s) (ubdByVal s);
  si_reds : reds_ok (reds s) (redBySrc s) (redByDst s);
  si_shares a : shares_of (validators s) a = map_sum (shares_to a) (delegations s) + D a;
  si_ledger : gap held (st_auth s) (st_other s) - P * map_sum ubd_balance (ubds s)
              - map_sum loose_tokens (validators s) = L }.
Definition none : ValAddress → Z := λ _, 0.
Definition at_val (a : ValAddress) (n : Z) (D : ValAddress → Z) : ValAddress → Z := λ b, D b + if decide (b = a) then n else 0.

Lemma sinv_ext L L' D D' s : L = L' → (∀ a, D a = D' a) → sinv L D s → sinv L' D' s.
Proof. intros <- HD [?? ? ? ? ? ? ? ? ? Hs ?]. split; try done. intros a. by rewrite <-HD. Qed.
Lemma sinv_fields L D s s' :
  st_auth s' = st_auth s → st_other s' = st_other s → pool s' = pool s → validators s' = validators s →
  byConsAddr s' = byConsAddr s → byPower s' = byPower s → delegations s' = delegations s → ubds s' = ubds s →
  ubdByVal s' = ubdByVal s → reds s' = reds s → redBySrc s' = redBySrc s → redByDst s' = redByDst s →
  sinv L D s → sinv L D s'.
Proof. intros E1 E2 E3 E4 E5 E6 E7 E8 E9 E10 E11 E12 []. split; rewrite ?E1, ?E2, ?E3, ?E4, ?E5, ?E6, ?E7, ?E8, ?E9, ?E10, ?E11, ?E12; done. Qed.

(** Steps of other modules. *)
Lemma sinv_kept L D s a x :
  sinv L D s → kept held other_ok (st_auth s) (st_other s) a x → sinv L D (set_other x (set_auth a s)).
Proof. intros [] [? ? ? Hg]. split; try done. simpl. by rewrite Hg. Qed.
Lemma wp_outside {A} called (c : M (StakeState X) A) (Q : A → StakeState X → Prop) L D s :
  outside held other_ok called c → called → sinv L D s →
  (∀ r a x, sinv L D (set_other x (set_auth a s)) → Q r (set_other x (set_auth a s))) → wp c Q s.
Proof.
  intros Hc Hp Hi HQ. eapply wp_mono; [apply Hc|]. intros r s' (a&x&->&Hk). apply HQ.
  apply sinv_kept; [done|]. apply Hk; [done|apply Hi..].
Qed.
(** Steps of the bank. *)
Lemma sinv_shifted n L D s a : sinv L D s → shifted n (st_auth s) a → sinv (L + n * P) D (set_auth a s).
Proof.
  intros [] Hs. split; try done; simpl.
  - by eapply shifted_wf.
  - by eapply sh_ok.
  - unfold gap in *. rewrite (shifted_circulating _ _ _ Hs), (sh_amt _ _ _ Hs). lia.
Qed.
Lemma wp_Decrease n (Q : unit → StakeState X → Prop) L D s :
  0 ≤ n → sinv L D s → (∀ a, sinv (L - n * P) D (set_auth a s) → Q tt (set_auth a s)) →
  wp (on_auth (DecreaseTotalLoosenToken [mkCoin IrisAtto n])) Q s.
Proof.
  intros Hn Hi HQ. apply wp_zoom. intros [] a Hr. apply HQ. apply Decrease_shifted in Hr; [|done].
  eapply sinv_ext; [..|by eapply sinv_shifted]; [lia|done].
Qed.
Lemma wp_Increase n (Q : unit → StakeState X → Prop) L D s :
  0 ≤ n → sinv L D s → (∀ a, sinv (L + n * P) D (set_auth a s) → Q tt (set_auth a s)) →
  wp (on_auth (IncreaseTotalLoosenToken [mkCoin IrisAtto n])) Q s.
Proof.
  intros Hn Hi HQ. apply wp_zoom. intros [] a Hr. apply HQ. apply Increase_shifted in Hr; [|done]. by apply sinv_shifted.
Qed.
Lemma wp_subtract d n (Q : Coins → StakeState X → Prop) L D s :
  d ≠ BurnedCoinsAccAddr → sinv L D s →
  (∀ r a, sinv (L + n * P) D (set_auth a s) → Q r (set_auth a s)) →
  wp (on_auth (subtractCoins d [mkCoin IrisAtto n])) Q s.
Proof.
  intros Hd Hi HQ. apply wp_zoom. intros r a Hr. apply HQ. destruct Hi.
  destruct (subtractCoins_ok _ _ _ _ _ si_auth0 Hr) as (_&[Hw Hb Ht]&(El&_&_)&_&_).
  split; try done; simpl; [unfold loose_ok; by rewrite El|].
  unfold gap, circulating, loosen in *. rewrite El, Ht, Hb, decide_False by done.
  change (amt [mkCoin IrisAtto n] IrisAtto) with (n + 0). lia.
Qed.
Lemma wp_addCoins d n (Q : Coins → StakeState X → Prop) L D s :
  sinv L D s → (∀ r a, sinv (L - n * P) D (set_auth a s) → Q r (set_auth a s)) →
  wp (on_auth (addCoins d [mkCoin IrisAtto n])) Q s.
Proof.
  intros Hi HQ. apply wp_zoom. intros r a Hr. apply HQ. destruct Hi.
  destruct (addCoins_ok _ _ _ _ _ si_auth0 Hr) as (Hv&a1&Hc&Hsup&_&Hb).
  destruct (addCoins_changes _ _ _ _ _ si_auth0 Hr) as (_&[Hw Hbal Ht]&Hnb).
  assert (loose_ok a ∧ loosen a IrisAtto = loosen (st_auth s) IrisAtto - if decide (d = BurnedCoinsAccAddr) then n else 0) as [Hl Hamt].
  { destruct (decide (d = BurnedCoinsAccAddr)) as [Eb|Eb].
    - pose proof Hv as (_&Hn&_)%Coins_IsValid_iff. apply Forall_cons in Hn as [Hn _]. simpl in Hn.
      assert (safeAdd_arrayB (coins_of (st_auth s) d) [mkCoin IrisAtto n] = [mkCoin IrisAtto n]) as Earr.
      { destruct (decide (n = 0)) as [->|]; [|by apply safeAdd_arrayB_nonzero; repeat constructor].
        pose proof (safeAdd_arrayB_Forall (λ c, c = mkCoin IrisAtto 0) (coins_of (st_auth s) d) [mkCoin IrisAtto 0] ltac:(by repeat constructor)) as Hf.
        destruct (safeAdd_arrayB_split (coins_of (st_auth s) d) [mkCoin IrisAtto 0]) as (pre&suf&Es&->).
        destruct pre as [|x pre]; [|by destruct pre, suf].
        simpl in Es. subst suf. reflexivity. }
      rewrite Earr in Hb. change (for_each [mkCoin IrisAtto n] burn_coin) with (bind (burn_coin (mkCoin IrisAtto n)) (λ _, @ret AuthState unit tt)) in Hb.
      inv_ok Hb. unfold burn_coin in E. change (bool_decide (denom (mkCoin IrisAtto n) = IrisAtto)) with true in E.
      cbv iota in E. apply Decrease_shifted in E; [|done]. destruct Hsup as (El&_&_). destruct E as [_ Hok Ha].
      split; [apply Hok; unfold loose_ok; by rewrite El|]. rewrite Ha. unfold loosen. rewrite El. lia.
    - destruct (Hnb Eb) as (El&_&_). unfold loose_ok, loosen. rewrite El. split; [done|lia]. }
  split; try done. simpl. unfold gap, circulating in *. rewrite Hamt, Ht, Hbal.
  change (amt [mkCoin IrisAtto n] IrisAtto) with (n + 0). repeat case_decide; subst; try done; lia.
Qed.

(** ** Validators *)
(** The power index after [old] became [new]. *)
Definition reindex (k k' : string) (new : Validator) (m : gmap string ValAddress) : gmap string ValAddress :=
  if v_Jailed new then delete k m else <[k' := v_OperatorAddr new]> (delete k m).
Definition put_validator (k k' : string) (new : Validator) (p : Pool) (a : AuthState) s : StakeState X :=
  set_byPower (reindex k k' new) (set_pool (Some p) (set_validators (insert (v_OperatorAddr new) new) (set_auth a s))).

Lemma vals_ok_update vals a new : vals_ok vals → v_OperatorAddr new = a → val_ok new → vals_ok (<[a := new]> vals).
Proof. intros Hv Ha Hn b v [[<- <-]|[_ Hb]]%lookup_insert_Some; [done|by apply Hv]. Qed.
Lemma cons_ok_update vals idx a old new :
  cons_ok vals idx → vals !! a = Some old → ConsAddr new = ConsAddr old → cons_ok (<[a := new]> vals) idx.
Proof.
  intros Hc Ha E c b. rewrite (Hc c b). split; intros (v&Hb&Hv).
  - destruct (decide (b = a)) as [->|]; [exists new|exists v].
    + rewrite lookup_insert_eq. split; [done|]. congruence.
    + by rewrite lookup_insert_ne.
  - apply lookup_insert_Some in Hb as [[<- <-]|[_ Hb]]; [exists old; split; [done|congruence]|eauto].
Qed.
Lemma sinv_put L D s old new k k' p' a' gain :
  sinv L D s → validators s !! v_OperatorAddr old = Some old →
  v_OperatorAddr new = v_OperatorAddr old → v_ConsPubKey new = v_ConsPubKey old → val_ok new →
  getValidatorPowerRank old = Ok k → (v_Jailed new = false → getValidatorPowerRank new = Ok k') →
  (∃ p, pool s = Some p ∧ moved old new p p' (st_auth s) a' gain) →
  sinv (L + gain) (at_val (v_OperatorAddr old) (v_DelegatorShares new - v_DelegatorShares old) D)
    (put_validator k k' new p' a' s).
Proof.
  intros [] Ho Ea Ec Hn Hk Hk' (p&Hp&[Hmp (n&Hs&Hg)]). destruct si_pool0 as (q&Hq&Eq).
  assert (q = p) as -> by congruence. split; simpl; try done.
  - by eapply shifted_wf.
  - by eapply sh_ok.
  - apply vals_ok_update; [done|done|done].
  - exists p'. split; [done|]. rewrite Ea, (sum_update _ _ _ old) by done. unfold new_pool in Hmp. lia.
  - by apply (index_update _ _ si_vals0 si_index0 old).
  - rewrite Ea. eapply cons_ok_update; [done..|]. unfold ConsAddr. by rewrite Ec.
  - intros b. rewrite Ea, shares_of_update. unfold at_val. case_decide as Eb; [subst b|rewrite si_shares0; lia].
    pose proof (si_shares0 (v_OperatorAddr old)) as Hsh. unfold shares_of in Hsh. rewrite Ho in Hsh. lia.
  - rewrite Ea, (sum_update _ _ _ old) by done. unfold gap in *.
    rewrite (shifted_circulating _ _ _ Hs), (sh_amt _ _ _ Hs). lia.
Qed.

(** Reading validators. *)
Lemma wp_GetValidator a (Q : option Validator → StakeState X → Prop) s :
  (validators s !! a = None → Q None s) → (∀ v, validators s !! a = Some v → Q (Some v) s) → wp (GetValidator a) Q s.
Proof.
  intros H1' H2'. unfold GetValidator. wps. destruct (validators s !! a) as [v|] eqn:E; wps; [|auto].
  apply wp_unmarshal. intros _. wps. auto.
Qed.
Lemma wp_mustGetValidator a (Q : Validator → StakeState X → Prop) s :
  (∀ v, validators s !! a = Some v → Q v s) → wp (mustGetValidator a) Q s.
Proof. intros HQ. unfold mustGetValidator. apply wp_bind. apply wp_GetValidator; intros; wps. auto. Qed.
Lemma wp_GetPool (Q : Pool → StakeState X → Prop) s : (∀ p, pool s = Some p → Q p s) → wp GetPool Q s.
Proof. intros HQ. unfold GetPool. wps. destruct (pool s) as [p|]; wps. auto. Qed.

(** The last step of an update: the new entry of the index. *)
Lemma wp_SetIndex v (Q : unit → StakeState X → Prop) s :
  (∀ k', (v_Jailed v = false → getValidatorPowerRank v = Ok k') →
     Q tt (if v_Jailed v then s else set_byPower (insert k' (v_OperatorAddr v)) s)) →
  wp (SetValidatorByPowerIndex v) Q s.
Proof.
  intros HQ. unfold SetValidatorByPowerIndex. destruct (v_Jailed v) eqn:Ej; wps.
  - apply (HQ ""). done.
  - by apply HQ.
Qed.
(** The pattern of the three operations that change the tokens of a validator. *)
Lemma put_validator_eq k k' v p a s :
  (if v_Jailed v then set_pool (Some p) (set_validators (insert (v_OperatorAddr v) v) (set_auth a (set_byPower (delete k) s)))
   else set_byPower (insert k' (v_OperatorAddr v))
          (set_pool (Some p) (set_validators (insert (v_OperatorAddr v) v) (set_auth a (set_byPower (delete k) s))))) =
  put_validator k k' v p a s.
Proof. unfold put_validator, reindex. by destruct (v_Jailed v). Qed.

(** The two halves of such an operation: up to the change of the validator, and
    from it to the end. *)
Ltac update_start Hi Hv :=
  apply wp_bind, wp_GetPool; let p := fresh "p" in let Hp := fresh "Hp" in intros p Hp;
  unfold DeleteValidatorByPowerIndex; wps; apply wp_zoom; destruct (si_vals _ _ _ Hi _ _ Hv) as [_ Hvo].
Ltac update_finish v new p' a' s :=
  unfold SetValidator, SetPool; wps; apply wp_SetIndex;
  let k' := fresh "k'" in let Hk' := fresh "Hk'" in intros k' Hk'; wps;
  match goal with Hk : getValidatorPowerRank v = Ok ?k |- _ =>
    let E := fresh "E" in pose proof (put_validator_eq k k' new p' a' s) as E;
    cbn [more_tokens with_tokens v_Jailed v_OperatorAddr] in *; rewrite E; clear E end;
  match goal with HQ : ∀ _, _ |- _ => apply HQ; [done..|] end;
  eapply sinv_ext; [..|eapply (sinv_put _ _ s v); [done..|by eexists]]; [lia|];
  let b := fresh "b" in intros b; unfold at_val; simpl; case_decide; lia.
Lemma wp_AddValidatorTokensAndShares v n (Q : Validator * Dec → StakeState X → Prop) L D s :
  sinv L D s → validators s !! v_OperatorAddr v = Some v → 0 ≤ n →
  (∀ iss k k' p a, 0 ≤ iss → let v' := more_tokens v (n * P) iss in
     sinv (L - n * P) (at_val (v_OperatorAddr v) iss D) (put_validator k k' v' p a s) →
     Q (v', iss) (put_validator k k' v' p a s)) →
  wp (AddValidatorTokensAndShares v n) Q s.
Proof.
  intros Hi Hv Hn HQ. unfold AddValidatorTokensAndShares. update_start Hi Hv. intros [[v' p'] iss] a' Hr. simpl in Hr.
  apply AddTokensFromDel_ok in Hr as (->&Hiss&Hvo'&Hm); [|done..].
  update_finish v (more_tokens v (n * P) iss) p' a' s.
Qed.
Lemma wp_RemoveValidatorTokensAndShares v ds (Q : Validator * Dec → StakeState X → Prop) L D s :
  sinv L D s → validators s !! v_OperatorAddr v = Some v → 0 ≤ ds ≤ v_DelegatorShares v →
  (∀ iss k k' p a, 0 ≤ iss → (P | iss) → let v' := more_tokens v (- iss) (- ds) in
     sinv (L + iss) (at_val (v_OperatorAddr v) (- ds) D) (put_validator k k' v' p a s) →
     Q (v', iss) (put_validator k k' v' p a s)) →
  wp (RemoveValidatorTokensAndShares v ds) Q s.
Proof.
  intros Hi Hv Hd HQ. unfold RemoveValidatorTokensAndShares. update_start Hi Hv. intros [[v' p'] iss] a' Hr. simpl in Hr.
  apply RemoveDelShares_ok in Hr as (->&Hiss&Hw&Hvo'&Hm); [|done..].
  update_finish v (more_tokens v (- iss) (- ds)) p' a' s.
Qed.
Lemma wp_RemoveValidatorTokens v t (Q : Validator → StakeState X → Prop) L D s :
  sinv L D s → validators s !! v_OperatorAddr v = Some v → (P | t) →
  (∀ k k' p a, 0 ≤ t → let v' := more_tokens v (- t) 0 in
     sinv (L + t) D (put_validator k k' v' p a s) → Q v' (put_validator k k' v' p a s)) →
  wp (RemoveValidatorTokens v t) Q s.
Proof.
  intros Hi Hv Hd HQ. unfold RemoveValidatorTokens. update_start Hi Hv. intros [v' p'] a' Hr. simpl in Hr.
  apply RemoveTokens_ok in Hr as (->&Ht&Hvo'&Hm); [|done..].
  update_finish v (more_tokens v (- t) 0) p' a' s.
Qed.

(** Changes that move no tokens. *)
Lemma moved_same v v' p a : BondedTokens v' = BondedTokens v → loose_tokens v' = loose_tokens v → moved v v' p p a a 0.
Proof. intros E1 E2. split; [unfold new_pool; lia|]. exists 0. split; [apply shifted_refl|lia]. Qed.
Lemma put_validator_same k k' v p s :
  pool s = Some p →
  put_validator k k' v p (st_auth s) s = set_byPower (reindex k k' v) (set_validators (insert (v_OperatorAddr v) v) s).
Proof. intros E. unfold put_validator. by destruct s; simpl in *; subst. Qed.
Lemma sinv_relabel L D s old new k k' :
  sinv L D s → validators s !! v_OperatorAddr old = Some old →
  v_OperatorAddr new = v_OperatorAddr old → v_ConsPubKey new = v_ConsPubKey old → v_Status new = v_Status old →
  v_Tokens new = v_Tokens old → v_DelegatorShares new = v_DelegatorShares old →
  getValidatorPowerRank old = Ok k → (v_Jailed new = false → getValidatorPowerRank new = Ok k') →
  sinv L D (set_byPower (reindex k k' new) (set_validators (insert (v_OperatorAddr new) new) s)).
Proof.
  intros Hi Ho E1 E2 E3 E4 E5 Hk Hk'. destruct (si_pool _ _ _ Hi) as (p&Hp&_).
  rewrite <-(put_validator_same _ _ _ p) by done.
  eapply sinv_ext; [..|eapply (sinv_put L D s old new); try done].
  - apply Z.add_0_r.
  - intros a. unfold at_val. rewrite E5. case_decide; lia.
  - destruct (si_vals _ _ _ Hi _ _ Ho) as [_ []]. split; rewrite ?E1, ?E4, ?E5; done.
  - exists p. split; [done|]. apply moved_same; unfold BondedTokens, loose_tokens; rewrite E3, E4; done.
Qed.
Definition jail_state (k : string) (v : Validator) s : StakeState X :=
  set_byPower (delete k) (set_validators (insert (v_OperatorAddr v) (with_jailed true v)) s).
Lemma wp_jailValidator v (Q : unit → StakeState X → Prop) L D s :
  sinv L D s → validators s !! v_OperatorAddr v = Some v →
  (∀ k, v_Jailed v = false → sinv L D (jail_state k v s) → Q tt (jail_state k v s)) → wp (jailValidator v) Q s.
Proof.
  intros Hi Hv HQ. unfold jailValidator, SetValidator, DeleteValidatorByPowerIndex. apply wp_bind, wp_expect.
  intros Hj%negb_true_iff. apply wp_bind, wp_GetPool. intros p _. wps. apply HQ; [done|].
  by apply (sinv_relabel L D s v (with_jailed true v) x x Hi Hv).
Qed.
Definition unjail_state (k : string) (v : Validator) s : StakeState X :=
  set_byPower (insert k (v_OperatorAddr v)) (set_validators (insert (v_OperatorAddr v) (with_jailed false v)) s).
Lemma wp_unjailValidator v (Q : unit → StakeState X → Prop) L D s :
  sinv L D s → validators s !! v_OperatorAddr v = Some v →
  (∀ k, v_Jailed v = true → sinv L D (unjail_state k v s) → Q tt (unjail_state k v s)) → wp (unjailValidator v) Q s.
Proof.
  intros Hi Hv HQ. unfold unjailValidator, SetValidator. apply wp_bind, wp_expect. intros Hj.
  apply wp_bind, wp_GetPool. intros p _. unfold SetValidatorByPowerIndex. cbn [with_jailed v_Jailed]. wps. apply HQ; [done|].
  rename x into k, Hx into Hk.
  pose proof (sinv_relabel L D s v (with_jailed false v) k k Hi Hv eq_refl eq_refl eq_refl eq_refl eq_refl Hk (λ _, Hk)) as [].
  split; try done. simpl in *. apply index_unjail; [apply Hi|apply Hi|done..].
Qed.
(** A validator without shares and tokens leaves. *)
Definition remove_state (k : string) (v : Validator) s : StakeState X :=
  set_byPower (delete k) (set_byConsAddr (delete (ConsAddr v)) (set_validators (delete (v_OperatorAddr v)) s)).
Lemma sinv_remove L D s v k :
  sinv L D s → validators s !! v_OperatorAddr v = Some v → v_DelegatorShares v = 0 → v_Status v ≠ Bonded →
  getValidatorPowerRank v = Ok k → sinv L D (remove_state k v s).
Proof.
  intros [] Hv Hs Hst Hk. pose proof (vo_empty _ (proj2 (si_vals0 _ _ Hv)) Hs) as Ht.
  assert (BondedTokens v = 0) by (unfold BondedTokens; by rewrite decide_False).
  assert (loose_tokens v = 0) by (unfold loose_tokens; by rewrite decide_False).
  split; simpl; try done.
  - intros a w [_ Ha]%lookup_delete_Some. by apply si_vals0.
  - destruct si_pool0 as (p&Hp&Ep). exists p. split; [done|]. rewrite Ep, (map_sum_delete _ _ _ _ Hv). lia.
  - by apply index_remove.
  - intros c a. rewrite lookup_delete_Some, (si_cons0 c a). split.
    + intros (Hne&w&Ha&Hc). exists w. rewrite lookup_delete_ne; [done|]. intros <-. congruence.
    + intros (w&[Hne Ha]%lookup_delete_Some&Hc). split; [|eauto]. intros <-.
      pose proof (proj2 (si_cons0 (ConsAddr v) _) (ex_intro _ v (conj Hv eq_refl))).
      pose proof (proj2 (si_cons0 (ConsAddr v) _) (ex_intro _ w (conj Ha Hc))). congruence.
  - intros a. rewrite <-si_shares0. unfold shares_of. destruct (decide (a = v_OperatorAddr v)) as [->|].
    + rewrite lookup_delete_eq, Hv. done.
    + by rewrite lookup_delete_ne.
  - pose proof (map_sum_delete loose_tokens _ _ _ Hv). lia.
Qed.
Lemma wp_RemoveValidator ctx v (Q : unit → StakeState X → Prop) L D s :
  sinv L D s → validators s !! v_OperatorAddr v = Some v → v_DelegatorShares v = 0 →
  (∀ k a x, v_Status v = Unbonded → let s' := set_other x (set_auth a (remove_state k v s)) in sinv L D s' → Q tt s') →
  wp (RemoveValidator ctx (v_OperatorAddr v)) Q s.
Proof.
  intros Hi Hv Hs HQ. unfold RemoveValidator. apply wp_bind, wp_GetValidator; [congruence|].
  intros w Hw. assert (w = v) as -> by congruence. apply wp_bind, wp_expect. intros Hst%bool_decide_eq_true.
  apply wp_bind, wp_GetPool. intros p _. unfold DeleteValidatorByPowerIndex. wps.
  eapply wp_outside; [apply law_removed|done|apply (sinv_remove L D s v x Hi Hv Hs); [by rewrite Hst|done]|].
  intros [] a o. by apply HQ.
Qed.

(** ** Delegations *)
Lemma pair_key_inj (d d' : AccAddress) (v v' : ValAddress) : is_addr d → is_addr d' → d +:+ v = d' +:+ v' → d = d' ∧ v = v'.
Proof. unfold is_addr. intros H1' H2'. apply str_app_inj. congruence. Qed.
Definition shares_at (dels : gmap string Delegation) (k : string) : Z :=
  match dels !! k with Some d => d_Shares d | None => 0 end.
Lemma at_key_shares dels d b :
  dels_ok dels → is_addr (d_DelegatorAddr d) →
  at_key (shares_to b) dels (GetDelegationKey (d_DelegatorAddr d) (d_ValidatorAddr d)) =
  if decide (d_ValidatorAddr d = b) then shares_at dels (GetDelegationKey (d_DelegatorAddr d) (d_ValidatorAddr d)) else 0.
Proof.
  intros Hd Ha. unfold at_key, shares_at. destruct (dels !! _) as [e|] eqn:E; [|by case_decide].
  destruct (Hd _ _ E) as (Ek&[He _]&_). apply pair_key_inj in Ek as [_ Ev]; [|done..]. unfold shares_to. by rewrite <-Ev.
Qed.
Lemma sinv_SetDelegation L D s d :
  sinv L D s → good_signer (d_DelegatorAddr d) → is_addr (d_ValidatorAddr d) → 0 ≤ d_Shares d →
  let k := GetDelegationKey (d_DelegatorAddr d) (d_ValidatorAddr d) in
  sinv L (at_val (d_ValidatorAddr d) (shares_at (delegations s) k - d_Shares d) D) (set_delegations (insert k d) s).
Proof.
  intros [] Ha Hv Hs k. split; simpl; try done.
  - intros j e [[<- <-]|[_ Hj]]%lookup_insert_Some; [done|by apply si_dels0].
  - intros b. rewrite si_shares0, map_sum_insert. unfold k at 1. rewrite at_key_shares by (done || apply Ha).
    unfold at_val, shares_to. fold k. repeat case_decide; subst; try done; lia.
Qed.
Lemma sinv_DeleteDelegation L D s d :
  sinv L D s → is_addr (d_DelegatorAddr d) →
  let k := GetDelegationKey (d_DelegatorAddr d) (d_ValidatorAddr d) in
  sinv L (at_val (d_ValidatorAddr d) (shares_at (delegations s) k) D) (set_delegations (delete k) s).
Proof.
  intros [] Ha k. split; simpl; try done.
  - intros j e [_ Hj]%lookup_delete_Some. by apply si_dels0.
  - intros b. rewrite si_shares0. pose proof (at_key_shares (delegations s) d b si_dels0 Ha) as Hk. fold k in Hk.
    unfold at_val. destruct (delegations s !! k) as [e|] eqn:E.
    + rewrite (map_sum_delete _ _ _ _ E). unfold at_key in Hk. rewrite E in Hk. rewrite Hk. repeat case_decide; subst; try congruence; lia.
    + rewrite delete_id by done. unfold shares_at. rewrite E. destruct (decide (b = d_ValidatorAddr d)); lia.
Qed.
Lemma wp_GetDelegation d v (Q : option Delegation → StakeState X → Prop) s :
  (delegations s !! GetDelegationKey d v = None → Q None s) →
  (∀ e, delegations s !! GetDelegationKey d v = Some e → Q (Some e) s) → wp (GetDelegation d v) Q s.
Proof.
  intros HN HS. unfold GetDelegation. wps. destruct (delegations s !! _) as [e|] eqn:E; wps; [|auto].
  apply wp_unmarshal. intros _. wps. auto.
Qed.
(** The record a key leads to has the addresses of the key. *)
Lemma dels_addrs dels d v e :
  dels_ok dels → is_addr d → dels !! GetDelegationKey d v = Some e →
  d_DelegatorAddr e = d ∧ d_ValidatorAddr e = v ∧ is_addr v ∧ 0 ≤ d_Shares e ∧ good_signer d.
Proof. intros Hd Ha He. destruct (Hd _ _ He) as (Ek&H1'&H2'&Hs). apply pair_key_inj in Ek as [-> ->]; [|done|apply H1']. by split_and!. Qed.
Lemma shares_le L D s k e v :
  sinv L D s → delegations s !! k = Some e → validators s !! d_ValidatorAddr e = Some v →
  d_Shares e + D (d_ValidatorAddr e) ≤ v_DelegatorShares v.
Proof.
  intros [] He Hv. pose proof (si_shares0 (d_ValidatorAddr e)) as Hs. unfold shares_of in Hs. rewrite Hv in Hs.
  assert (shares_to (d_ValidatorAddr e) e ≤ map_sum (shares_to (d_ValidatorAddr e)) (delegations s)) as Hle.
  { eapply map_sum_le_key; [|done]. intros j f Hf. destruct (si_dels0 _ _ Hf) as (_&_&_&?). unfold shares_to. by case_decide. }
  unfold shares_to at 1 in Hle. rewrite decide_True in Hle by done. lia.
Qed.

(** ** Unbonding delegations *)
Definition balance_at (us : gmap string UnbondingDelegation) (k : string) : Z :=
  match us !! k with Some u => ubd_balance u | None => 0 end.
Definition put_ubd (u : UnbondingDelegation) s : StakeState X :=
  set_ubdByVal (insert (GetUBDByValIndexKey (ub_DelegatorAddr u) (ub_ValidatorAddr u)) tt)
    (set_ubds (insert (GetUBDKey (ub_DelegatorAddr u) (ub_ValidatorAddr u)) u) s).
Lemma sinv_put_ubd L D s u :
  sinv L D s → is_addr (ub_DelegatorAddr u) → is_addr (ub_ValidatorAddr u) → denom (ub_Balance u) = IrisAtto →
  0 ≤ amount (ub_Balance u) → 0 ≤ amount (ub_InitialBalance u) →
  sinv (L + P * (balance_at (ubds s) (GetUBDKey (ub_DelegatorAddr u) (ub_ValidatorAddr u)) - ubd_balance u)) D (put_ubd u s).
Proof.
  intros [] Hd Hv Hden Hb Hib. set (k := GetUBDKey _ _). split; simpl; try done; fold k.
  - destruct si_ubds0 as [Hr Hx]. split.
    + intros j w [[<- <-]|[_ Hj]]%lookup_insert_Some; [done|by apply Hr].
    + intros ik. rewrite lookup_insert_is_Some, (Hx ik). split.
      * intros [<-|(Hne&j&w&Hj&->)]; [exists k, u; by rewrite lookup_insert_eq|].
        exists j, w. split; [|done]. rewrite lookup_insert_ne; [done|]. intros <-. apply Hne.
        destruct (Hr _ _ Hj) as (Ek&Hd'&_). apply pair_key_inj in Ek as [-> ->]; done.
      * intros (j&w&[[<- <-]|[Hne Hj]]%lookup_insert_Some&->); [by left|].
        destruct (decide (GetUBDByValIndexKey (ub_DelegatorAddr u) (ub_ValidatorAddr u) =
                          GetUBDByValIndexKey (ub_DelegatorAddr w) (ub_ValidatorAddr w))) as [|Hn]; [by left|right; eauto].
  - rewrite map_sum_insert. unfold at_key, balance_at. destruct (ubds s !! k); lia.
Qed.
Definition drop_ubd (u : UnbondingDelegation) s : StakeState X :=
  set_ubdByVal (delete (GetUBDByValIndexKey (ub_DelegatorAddr u) (ub_ValidatorAddr u)))
    (set_ubds (delete (GetUBDKey (ub_DelegatorAddr u) (ub_ValidatorAddr u))) s).
Lemma sinv_drop_ubd L D s u :
  sinv L D s → ubds s !! GetUBDKey (ub_DelegatorAddr u) (ub_ValidatorAddr u) = Some u →
  sinv (L + P * ubd_balance u) D (drop_ubd u s).
Proof.
  intros [] Hu. set (k := GetUBDKey _ _) in *. pose proof si_ubds0 as [Hr Hx].
  destruct (Hr _ _ Hu) as (_&Hd&Hv&_). split; simpl; try done; fold k.
  - split; [intros j w [_ Hj]%lookup_delete_Some; by apply Hr|].
    intros ik. rewrite lookup_delete_is_Some, (Hx ik). split.
    + intros (Hne&j&w&Hj&->). exists j, w. split; [|done]. rewrite lookup_delete_ne; [done|]. intros <-. congruence.
    + intros (j&w&[Hne Hj]%lookup_delete_Some&->). split; [|eauto]. intros Eik. apply Hne.
      destruct (Hr _ _ Hj) as (->&Hd'&Hv'&_). unfold GetUBDByValIndexKey in Eik.
      apply pair_key_inj in Eik as [Ev Ed]; [|done..]. unfold k. by rewrite Ev, Ed.
  - rewrite (map_sum_delete ubd_balance _ _ _ Hu). lia.
Qed.
Lemma wp_GetUBD d v (Q : option UnbondingDelegation → StakeState X → Prop) s :
  (ubds s !! GetUBDKey d v = None → Q None s) →
  (∀ u, ubds s !! GetUBDKey d v = Some u → Q (Some u) s) → wp (GetUnbondingDelegation d v) Q s.
Proof.
  intros HN HS. unfold GetUnbondingDelegation. wps. destruct (ubds s !! _) as [e|] eqn:E; wps; [|auto].
  apply wp_unmarshal. intros _. wps. auto.
Qed.

(** ** Redelegations *)
Definition red_key (r : Redelegation) : string := GetREDKey (rd_DelegatorAddr r) (rd_ValidatorSrcAddr r) (rd_ValidatorDstAddr r).
Definition src_key (r : Redelegation) : string := GetREDByValSrcIndexKey (rd_DelegatorAddr r) (rd_ValidatorSrcAddr r) (rd_ValidatorDstAddr r).
Definition dst_key (r : Redelegation) : string := GetREDByValDstIndexKey (rd_DelegatorAddr r) (rd_ValidatorSrcAddr r) (rd_ValidatorDstAddr r).
Definition red_addrs (r : Redelegation) : Prop :=
  is_addr (rd_DelegatorAddr r) ∧ is_addr (rd_ValidatorSrcAddr r) ∧ is_addr (rd_ValidatorDstAddr r).
Definition same_red (r r' : Redelegation) : Prop :=
  rd_DelegatorAddr r = rd_DelegatorAddr r' ∧ rd_ValidatorSrcAddr r = rd_ValidatorSrcAddr r' ∧ rd_ValidatorDstAddr r = rd_ValidatorDstAddr r'.
Lemma red_key_inj r r' : red_addrs r → red_addrs r' → red_key r = red_key r' → same_red r r'.
Proof.
  intros (A1&A2&A3) (B1&B2&B3). unfold red_key, GetREDKey. rewrite !addr_field_id by done. unfold is_addr in *.
  intros [E1 E]%str_app_inj; [|congruence]. apply str_app_inj in E as [E2 E3]; [by split_and!|congruence].
Qed.
Lemma src_key_inj r r' : red_addrs r → red_addrs r' → src_key r = src_key r' → same_red r r'.
Proof.
  intros (A1&A2&A3) (B1&B2&B3). unfold src_key, GetREDByValSrcIndexKey. rewrite !addr_field_id by done. unfold is_addr in *.
  intros [E1 E]%str_app_inj; [|congruence]. apply str_app_inj in E as [E2 E3]; [by split_and!|congruence].
Qed.
Lemma dst_key_inj r r' : red_addrs r → red_addrs r' → dst_key r = dst_key r' → same_red r r'.
Proof.
  intros (A1&A2&A3) (B1&B2&B3). unfold dst_key, GetREDByValDstIndexKey. rewrite !addr_field_id by done. unfold is_addr in *.
  intros [E1 E]%str_app_inj; [|congruence]. apply str_app_inj in E as [E2 E3]; [by split_and!|congruence].
Qed.
Lemma same_red_keys r r' : same_red r r' → red_key r = red_key r' ∧ src_key r = src_key r' ∧ dst_key r = dst_key r'.
Proof. unfold red_key, src_key, dst_key. intros (->&->&->). done. Qed.
(** One index of the redelegations after an insertion or a removal. *)
Lemma index_insert (ikey : Redelegation → string) (rs : gmap string Redelegation) (idx : gmap string unit) r :
  (∀ k r', rs !! k = Some r' → k = red_key r' ∧ red_addrs r') → red_addrs r →
  (∀ r', same_red r r' → ikey r = ikey r') →
  (∀ ik, is_Some (idx !! ik) ↔ ∃ k r', rs !! k = Some r' ∧ ik = ikey r') →
  ∀ ik, is_Some (<[ikey r := tt]> idx !! ik) ↔ ∃ k r', <[red_key r := r]> rs !! k = Some r' ∧ ik = ikey r'.
Proof.
  intros Hr Ha Hsame Hx ik. rewrite lookup_insert_is_Some, (Hx ik). split.
  - intros [<-|(Hne&j&w&Hj&->)]; [exists (red_key r), r; by rewrite lookup_insert_eq|].
    exists j, w. split; [|done]. rewrite lookup_insert_ne; [done|]. intros <-. apply Hne, Hsame.
    destruct (Hr _ _ Hj) as (Ek&Hw). by apply red_key_inj.
  - intros (j&w&[[<- <-]|[Hne Hj]]%lookup_insert_Some&->); [by left|].
    destruct (decide (ikey r = ikey w)) as [|Hn]; [by left|right; eauto].
Qed.
Lemma index_delete (ikey : Redelegation → string) (rs : gmap string Redelegation) (idx : gmap string unit) r :
  (∀ k r', rs !! k = Some r' → k = red_key r' ∧ red_addrs r') → red_addrs r → rs !! red_key r = Some r →
  (∀ r', red_addrs r' → ikey r = ikey r' → same_red r r') →
  (∀ ik, is_Some (idx !! ik) ↔ ∃ k r', rs !! k = Some r' ∧ ik = ikey r') →
  ∀ ik, is_Some (delete (ikey r) idx !! ik) ↔ ∃ k r', delete (red_key r) rs !! k = Some r' ∧ ik = ikey r'.
Proof.
  intros Hr Ha Hrr Hinj Hx ik. rewrite lookup_delete_is_Some, (Hx ik). split.
  - intros (Hne&j&w&Hj&->). exists j, w. split; [|done]. rewrite lookup_delete_ne; [done|]. intros <-. congruence.
  - intros (j&w&[Hne Hj]%lookup_delete_Some&->). split; [|eauto]. intros Eik. apply Hne.
    destruct (Hr _ _ Hj) as (->&Hw). by apply same_red_keys, Hinj.
Qed.

Record red_ok (r : Redelegation) : Prop := {
  rk_addrs : red_addrs r;
  rk_ne : rd_ValidatorSrcAddr r ≠ rd_ValidatorDstAddr r;
  rk_shares : 0 ≤ rd_SharesDst r;
  rk_balance : 0 ≤ amount (rd_Balance r);
  rk_initial : 0 ≤ amount (rd_InitialBalance r) }.
Lemma red_record rs src dst k r : reds_ok rs src dst → rs !! k = Some r → k = red_key r ∧ red_ok r.
Proof. intros [Hr _ _] Hk. destruct (Hr _ _ Hk) as (->&?&?&?&?&?&?&?). by repeat split. Qed.
Definition put_red (r : Redelegation) s : StakeState X :=
  set_redByDst (insert (dst_key r) tt) (set_redBySrc (insert (src_key r) tt) (set_reds (insert (red_key r) r) s)).
Lemma sinv_put_red L D s r : sinv L D s → red_ok r → sinv L D (put_red r s).
Proof.
  intros [] Hr. split; try done. simpl. pose proof (λ k r', red_record _ _ _ k r' si_reds0) as Hrec.
  assert (∀ k r', reds s !! k = Some r' → k = red_key r' ∧ red_addrs r') as Hrec'.
  { intros k r' Hk. destruct (Hrec _ _ Hk) as [? []]. done. }
  destruct si_reds0 as [Hx Hs Hd]. split.
  - intros k r' [[<- <-]|[_ Hk]]%lookup_insert_Some; [|by apply Hx]. destruct Hr as [(?&?&?) ? ? ? ?]. done.
  - apply index_insert; [done|apply Hr|intros; by apply same_red_keys|done].
  - apply index_insert; [done|apply Hr|intros; by apply same_red_keys|done].
Qed.
Definition drop_red (r : Redelegation) s : StakeState X :=
  set_redByDst (delete (dst_key r)) (set_redBySrc (delete (src_key r)) (set_reds (delete (red_key r)) s)).
Lemma sinv_drop_red L D s r : sinv L D s → reds s !! red_key r = Some r → sinv L D (drop_red r s).
Proof.
  intros [] Hr. split; try done. simpl. pose proof (λ k r', red_record _ _ _ k r' si_reds0) as Hrec.
  assert (∀ k r', reds s !! k = Some r' → k = red_key r' ∧ red_addrs r') as Hrec'.
  { intros k r' Hk. destruct (Hrec _ _ Hk) as [? []]. done. }
  destruct (Hrec' _ _ Hr) as [_ Ha]. destruct si_reds0 as [Hx Hs Hd]. split.
  - intros k r' [_ Hk]%lookup_delete_Some. by apply Hx.
  - apply index_delete; [done..|intros; by apply src_key_inj|done].
  - apply index_delete; [done..|intros; by apply dst_key_inj|done].
Qed.
Lemma wp_GetRedelegation d v w (Q : option Redelegation → StakeState X → Prop) s :
  (reds s !! GetREDKey d v w = None → Q None s) →
  (∀ r, reds s !! GetREDKey d v w = Some r → Q (Some r) s) → wp (GetRedelegation d v w) Q s.
Proof.
  intros HN HS. unfold GetRedelegation. wps. destruct (reds s !! _) as [e|] eqn:E; wps; [|auto].
  apply wp_unmarshal. intros _. wps. auto.
Qed.
End inv.
End StakeInv.
