(* ===== verification/StakeFrame.v ===== *)
(** * Staking: what the operations keep

    A relation between states that the writes of the module and the hooks keep is
    kept by every operation.  A part [g] of the state that validators, delegations
    and accounts are not in is an example: the unbonding delegations with their
    queue, or the redelegations with theirs. *)

From S2P Require Import Prelude SdkErrors IntType GoStrings Denom Coin CoinFacts Dec TimeBytes KVStore Gas Auth Bank BankFacts BankFrame Frame StakeTypes Stake StakeFacts StakeInv.
#[local] Open Scope Z_scope.

Module StakeFrame.
Import StakeTypes Stake StakeFacts StakeInv.
(** ** No account loses coins *)
Definition grows (a a' : AuthState) : Prop := auth_wf a → auth_wf a' ∧ ∀ x d, balance a x d ≤ balance a' x d.
#[export] Instance grows_po : PreOrder grows.
Proof.
  unfold grows. split; [by intros a Ha; split; [|intros; lia]|]. intros a1 a2 a3 H1 H2 Hw. destruct (H1 Hw) as [Hw2 L1], (H2 Hw2) as [Hw3 L2].
  split; [done|]. intros x d. specialize (L1 x d). specialize (L2 x d). lia.
Qed.
Lemma grows_accounts a a' : same_accounts a a' → grows a a'.
Proof.
  intros E [W1 W2 W3]. assert (Hc : ∀ x, coins_of a' x = coins_of a x) by (intros x; unfold coins_of; by rewrite E).
  split; [split|].
  - by rewrite E.
  - intros x. by rewrite Hc.
  - intros x. by rewrite Hc.
  - intros x d. unfold balance. by rewrite Hc.
Qed.
Section grows.
Context `{Crypto}.
Lemma grows_add a c : keeps grows (addCoins a c).
Proof.
  intros s r s' Hr Hw. destruct (addCoins_changes _ _ _ _ _ Hw Hr) as (Hv&[Hw' Hb _]&_). apply Coins_IsValid_iff in Hv as (_&Hn&_).
  split; [done|]. intros x d. rewrite Hb. pose proof (amt_nonneg c d Hn). case_decide; lia.
Qed.
Lemma grows_getCoins a : keeps grows (getCoins a).
Proof. intros s r s' [[g ->] _]%getCoins_ok. by apply grows_accounts. Qed.
Lemma grows_dec c : keeps grows (DecreaseTotalLoosenToken c).
Proof. intros s r s' Hr. by eapply grows_accounts, DecreaseTotalLoosenToken_accounts. Qed.
Lemma grows_inc c : keeps grows (IncreaseTotalLoosenToken c).
Proof. unfold IncreaseTotalLoosenToken, GetTotalLoosenToken. keeps. apply keeps_modify. intros s. by apply grows_accounts. Qed.
#[local] Hint Resolve grows_add grows_getCoins grows_dec grows_inc : keeps.
Lemma grows_loosenCoins : keeps grows getLoosenCoins.
Proof. unfold getLoosenCoins, GetTotalLoosenToken, ctx_ConsumeGas. keeps. apply keeps_zoom. intros s g. by apply grows_accounts. Qed.
#[local] Hint Resolve grows_loosenCoins : keeps.
Lemma grows_amount : keeps grows GetLoosenTokenAmount.
Proof. unfold GetLoosenTokenAmount. keeps. Qed.
Lemma grows_tokens v p n : keeps grows (AddTokensFromDel v p n).
Proof. unfold AddTokensFromDel, loosenTokenToBonded. keeps. Qed.
Lemma grows_shares v p n : keeps grows (RemoveDelShares v p n).
Proof. unfold RemoveDelShares, bondedTokenToLoosen. keeps. Qed.
Lemma grows_remove v p n : keeps grows (RemoveTokens v p n).
Proof. unfold RemoveTokens, bondedTokenToLoosen. keeps. Qed.
Lemma grows_status v p st : keeps grows (UpdateStatus v p st).
Proof. unfold UpdateStatus, bondedTokenToLoosen, loosenTokenToBonded. keeps. Qed.
End grows.
#[export] Hint Resolve grows_add grows_getCoins grows_dec grows_inc grows_loosenCoins grows_amount grows_tokens grows_shares grows_remove grows_status : keeps.

Section frame.
Context {X : Type} `{Crypto, ConsCrypto, StakingHooks X}.
Implicit Types s : StakeState X.
(** [C] tells the contexts the hooks are called with. *)
Context (C : Ctx → Prop) (R : relation (StakeState X)) `{!PreOrder R}.
(** The hooks that run when tokens or shares are taken keep the relation, *)
Record hooked_taking : Prop := {
  hk_modified ctx v : C ctx → keeps R (OnValidatorModified ctx v);
  hk_removed ctx c v : C ctx → keeps R (OnValidatorRemoved ctx c v);
  hk_del_modified ctx d v : C ctx → keeps R (OnDelegationSharesModified ctx d v);
  hk_del_removed ctx d v : C ctx → keeps R (OnDelegationRemoved ctx d v) }.
(** and so do the others. *)
Record hooked : Prop := {
  hk_taking :> hooked_taking;
  hk_created ctx v : C ctx → keeps R (OnValidatorCreated ctx v);
  hk_bonded ctx c v : C ctx → keeps R (OnValidatorBonded ctx c v);
  hk_unbonding ctx c v : C ctx → keeps R (OnValidatorBeginUnbonding ctx c v);
  hk_power ctx c v : C ctx → keeps R (OnValidatorPowerDidChange ctx c v);
  hk_del_created ctx d v : C ctx → keeps R (OnDelegationCreated ctx d v) }.
(** So do the writes to the stores of validators and delegations, and changes of
    accounts where none loses coins, *)
Record closed : Prop := {
  cl_auth x s : grows (st_auth s) x → R s (set_auth x s);
  cl_pool x s : R s (set_pool x s);
  cl_validators f s : R s (set_validators f s);
  cl_byCons f s : R s (set_byConsAddr f s);
  cl_byPower f s : R s (set_byPower f s);
  cl_dels f s : R s (set_delegations f s);
  cl_valQueue f s : R s (set_valQueue f s) }.
(** to the record of the last set, *)
Record closed_last : Prop := {
  cl_lastPower f s : R s (set_lastPower f s);
  cl_lastTotal x s : R s (set_lastTotalPower x s) }.
(** and to the stores of what is in transit. *)
Record closed_transit : Prop := {
  cl_ubds f s : R s (set_ubds f s);
  cl_ubdByVal f s : R s (set_ubdByVal f s);
  cl_ubdQueue f s : R s (set_ubdQueue f s);
  cl_reds f s : R s (set_reds f s);
  cl_redBySrc f s : R s (set_redBySrc f s);
  cl_redByDst f s : R s (set_redByDst f s);
  cl_redQueue f s : R s (set_redQueue f s) }.
Abbreviation K := (keeps R).
Context (Hg : closed).

Lemma K_auth {A} (c : M AuthState A) : keeps grows c → K (on_auth c).
Proof. intros Hc s. apply wp_zoom. intros a t Hr. apply Hg. by eapply Hc. Qed.
Lemma K_expect b w : K (expect b w).
Proof. unfold expect. keeps. Qed.
Lemma K_unmarshal {A} n k (a : A) : K (unmarshal n k a).
Proof. unfold unmarshal. keeps; apply K_expect. Qed.
#[local] Hint Resolve K_auth K_expect K_unmarshal : keeps.
#[local] Hint Extern 1 (K (modify _)) => (apply keeps_modify; intros ?; apply Hg) : keeps.

Lemma K_GetPool : K GetPool.
Proof. unfold GetPool. keeps. Qed.
Lemma K_GetValidator a : K (GetValidator a).
Proof. unfold GetValidator. keeps. Qed.
#[local] Hint Resolve K_GetPool K_GetValidator : keeps.
Lemma K_mustGetValidator a : K (mustGetValidator a).
Proof. unfold mustGetValidator. keeps. Qed.
Lemma K_ByCons c : K (GetValidatorByConsAddr c).
Proof. unfold GetValidatorByConsAddr. keeps. Qed.
Lemma K_SetIndex v : K (SetValidatorByPowerIndex v).
Proof. unfold SetValidatorByPowerIndex. keeps. Qed.
Lemma K_DeleteIndex v : K (DeleteValidatorByPowerIndex v).
Proof. unfold DeleteValidatorByPowerIndex. keeps. Qed.
Lemma K_GetDelegation d v : K (GetDelegation d v).
Proof. unfold GetDelegation. keeps. Qed.
#[local] Hint Resolve K_mustGetValidator K_ByCons K_SetIndex K_DeleteIndex K_GetDelegation : keeps.
Ltac keep := unfold SetPool, SetValidator, SetValidatorByConsAddr, SetDelegation, SetLastValidatorPower, DeleteLastValidatorPower,
  SetLastTotalPower, GetParams, SetValidatorQueueTimeSlice, DeleteValidatorQueueTimeSlice, GetValidatorQueueTimeSlice; keeps.
Lemma K_AddTokens v n : K (AddValidatorTokensAndShares v n).
Proof. unfold AddValidatorTokensAndShares. keep. Qed.
Lemma K_RemoveShares v n : K (RemoveValidatorTokensAndShares v n).
Proof. unfold RemoveValidatorTokensAndShares. keep. Qed.
Lemma K_RemoveTokens v n : K (RemoveValidatorTokens v n).
Proof. unfold RemoveValidatorTokens. keep. Qed.
Lemma K_jail v : K (jailValidator v).
Proof. unfold jailValidator. keep. Qed.
Lemma K_unjail v : K (unjailValidator v).
Proof. unfold unjailValidator. keep. Qed.
#[local] Hint Resolve K_AddTokens K_RemoveShares K_RemoveTokens K_jail K_unjail : keeps.
Lemma K_Jail c : K (Jail c).
Proof. unfold Jail, mustGetValidatorByConsAddr. keep. Qed.
Lemma K_Unjail c : K (Unjail c).
Proof. unfold Unjail, mustGetValidatorByConsAddr. keep. Qed.
#[local] Hint Resolve K_Jail K_Unjail : keeps.
(** ** Taking tokens and shares *)
Lemma K_GetUBD d v : K (GetUnbondingDelegation d v).
Proof. unfold GetUnbondingDelegation. keeps. Qed.
Lemma K_GetRED d v w : K (GetRedelegation d v w).
Proof. unfold GetRedelegation. keeps. Qed.
Lemma K_read_index {A} (store : StakeState X → gmap string A) key n l : K (read_index store key n l).
Proof. induction l as [|k l IH]; cbn [read_index]; keeps. Qed.
Section taking.
Context (Hk : hooked_taking).
#[local] Hint Extern 1 (K (OnValidatorModified _ _)) => (by apply (hk_modified Hk)) : keeps.
#[local] Hint Extern 1 (K (OnValidatorRemoved _ _ _)) => (by apply (hk_removed Hk)) : keeps.
#[local] Hint Extern 1 (K (OnDelegationSharesModified _ _ _)) => (by apply (hk_del_modified Hk)) : keeps.
#[local] Hint Extern 1 (K (OnDelegationRemoved _ _ _)) => (by apply (hk_del_removed Hk)) : keeps.
Lemma K_RemoveValidator ctx a : C ctx → K (RemoveValidator ctx a).
Proof. intros Hc. unfold RemoveValidator. keep. Qed.
#[local] Hint Resolve K_RemoveValidator : keeps.
Lemma K_unbond ctx d v sh : C ctx → K (unbond ctx d v sh).
Proof. intros Hc. unfold unbond, RemoveDelegation. keep. Qed.
Context (Ht : closed_transit).
#[local] Hint Extern 1 (K (modify (set_ubds _))) => (apply keeps_modify; intros ?; apply Ht) : keeps.
#[local] Hint Extern 1 (K (modify (set_ubdByVal _))) => (apply keeps_modify; intros ?; apply Ht) : keeps.
#[local] Hint Extern 1 (K (modify (set_ubdQueue _))) => (apply keeps_modify; intros ?; apply Ht) : keeps.
#[local] Hint Extern 1 (K (modify (set_reds _))) => (apply keeps_modify; intros ?; apply Ht) : keeps.
#[local] Hint Extern 1 (K (modify (set_redBySrc _))) => (apply keeps_modify; intros ?; apply Ht) : keeps.
#[local] Hint Extern 1 (K (modify (set_redByDst _))) => (apply keeps_modify; intros ?; apply Ht) : keeps.
#[local] Hint Extern 1 (K (modify (set_redQueue _))) => (apply keeps_modify; intros ?; apply Ht) : keeps.
#[local] Hint Resolve K_GetUBD K_GetRED K_read_index : keeps.
Ltac keep_transit := unfold SetUnbondingDelegation, RemoveUnbondingDelegation, InsertUnbondingQueue, SetRedelegation, RemoveRedelegation,
  InsertRedelegationQueue, HasReceivingRedelegation; keep.
Lemma K_slashUBD ctx u h f : K (slashUnbondingDelegation ctx u h f).
Proof. unfold slashUnbondingDelegation. keep_transit. Qed.
Lemma K_slashRED ctx r h f : C ctx → K (slashRedelegation ctx r h f).
Proof.
  intros Hc. unfold slashRedelegation. keep_transit. intros s x s'. pose proof (K_unbond ctx (rd_DelegatorAddr r) (rd_ValidatorDstAddr r)) as Hu.
  match goal with |- context [unbond _ _ _ ?sh s] => specialize (Hu sh Hc s); destruct (unbond ctx (rd_DelegatorAddr r) (rd_ValidatorDstAddr r) sh s) as [[y|e|w] s1] eqn:E end;
    intros [= <- <-]. exact (Hu _ _ E).
Qed.
Lemma K_slash_all {A} (slash : A → M (StakeState X) Dec) rem l : (∀ a, K (slash a)) → K (slash_all slash rem l).
Proof. intros Hs. revert rem. induction l as [|a l IH]; intros; cbn [slash_all]; keeps. Qed.
Lemma K_Slash ctx c h p f : C ctx → K (Slash ctx c h p f).
Proof.
  intros Hc. unfold Slash, GetUnbondingDelegationsFromValidator, GetRedelegationsFromValidator. keep; apply K_slash_all; intros ?;
    [apply K_slashUBD|by apply K_slashRED].
Qed.
End taking.
Context (Hk : hooked).
#[local] Hint Extern 1 (K (OnValidatorCreated _ _)) => (by apply (hk_created Hk)) : keeps.
#[local] Hint Extern 1 (K (OnValidatorModified _ _)) => (by apply (hk_modified (hk_taking Hk))) : keeps.
#[local] Hint Extern 1 (K (OnValidatorRemoved _ _ _)) => (by apply (hk_removed (hk_taking Hk))) : keeps.
#[local] Hint Extern 1 (K (OnDelegationSharesModified _ _ _)) => (by apply (hk_del_modified (hk_taking Hk))) : keeps.
#[local] Hint Extern 1 (K (OnDelegationRemoved _ _ _)) => (by apply (hk_del_removed (hk_taking Hk))) : keeps.
#[local] Hint Extern 1 (K (OnValidatorBonded _ _ _)) => (by apply (hk_bonded Hk)) : keeps.
#[local] Hint Extern 1 (K (OnValidatorBeginUnbonding _ _ _)) => (by apply (hk_unbonding Hk)) : keeps.
#[local] Hint Extern 1 (K (OnValidatorPowerDidChange _ _ _)) => (by apply (hk_power Hk)) : keeps.
#[local] Hint Extern 1 (K (OnDelegationCreated _ _ _)) => (by apply (hk_del_created Hk)) : keeps.
#[local] Hint Extern 1 (K (RemoveValidator _ _)) => (by apply (K_RemoveValidator (hk_taking Hk))) : keeps.
#[local] Hint Extern 1 (K (unbond _ _ _ _)) => (by apply (K_unbond (hk_taking Hk))) : keeps.
(** What is delegated is taken from an account. *)
Definition takes : Prop := ∀ a c, K (on_auth (subtractCoins a c)).
Lemma K_Delegate ctx d c v sub : C ctx → (sub = true → takes) → K (Delegate ctx d c v sub).
Proof. intros Hc Hs. unfold Delegate. destruct sub; [specialize (Hs eq_refl)|]; unfold takes in *; keep. Qed.
Lemma K_bond ctx v : C ctx → K (bondValidator ctx v).
Proof.
  intros Hc. unfold bondValidator, DeleteValidatorQueue, DeleteValidatorQueueTimeSlice, SetValidatorQueueTimeSlice, GetValidatorQueueTimeSlice. keep.
Qed.
Lemma K_beginUnbonding ctx v : C ctx → K (beginUnbondingValidator ctx v).
Proof.
  intros Hc. unfold beginUnbondingValidator, InsertValidatorQueue, SetValidatorQueueTimeSlice, GetValidatorQueueTimeSlice, GetParams. keep.
Qed.
#[local] Hint Resolve K_Delegate K_bond K_beginUnbonding : keeps.
Lemma K_Create ctx m : C ctx → takes → K (handleMsgCreateValidator ctx m).
Proof. intros Hc Hs. unfold handleMsgCreateValidator, SetNewValidatorByPowerIndex. keep. Qed.
Lemma K_Edit ctx m : C ctx → K (handleMsgEditValidator ctx m).
Proof. intros Hc. unfold handleMsgEditValidator. keep. Qed.
Lemma K_MsgDelegate ctx m : C ctx → takes → K (handleMsgDelegate ctx m).
Proof. intros Hc Hs. unfold handleMsgDelegate. keep. Qed.
Lemma K_UnbondAllMature ctx : C ctx → K (UnbondAllMatureValidatorQueue ctx).
Proof. intros Hc. unfold UnbondAllMatureValidatorQueue, unbond_mature, unbondingToUnbonded, completeUnbondingValidator. keep. Qed.
Lemma K_UpdateMetrics : K UpdateMetrics.
Proof. unfold UpdateMetrics. keep. Qed.
#[local] Hint Resolve K_Create K_Edit K_MsgDelegate K_UnbondAllMature K_UpdateMetrics : keeps.

Section last.
Context (Hl : closed_last).
#[local] Hint Extern 1 (K (modify (set_lastPower _))) => (apply keeps_modify; intros ?; apply Hl) : keeps.
#[local] Hint Extern 1 (K (modify (set_lastTotalPower _))) => (apply keeps_modify; intros ?; apply Hl) : keeps.
Lemma K_bond_loop ctx max count l acc : C ctx → K (bond_loop ctx max count l acc).
Proof. intros Hc. revert count acc. induction l as [|a l IH]; intros; cbn [bond_loop]; unfold unbondedToBonded, unbondingToBonded; keep. Qed.
Lemma K_unbond_loop ctx l u : C ctx → K (unbond_loop ctx l u).
Proof. intros Hc. revert u. induction l as [|a l IH]; intros; cbn [unbond_loop]; unfold bondedToUnbonding; keep. Qed.
#[local] Hint Resolve K_bond_loop K_unbond_loop : keeps.
Lemma K_Apply ctx : C ctx → K (ApplyAndReturnValidatorSetUpdates ctx).
Proof. intros Hc. unfold ApplyAndReturnValidatorSetUpdates, GetParams. keep. Qed.
End last.

Section transit.
Context (Ht : closed_transit).
#[local] Hint Extern 1 (K (modify (set_ubds _))) => (apply keeps_modify; intros ?; apply Ht) : keeps.
#[local] Hint Extern 1 (K (modify (set_ubdByVal _))) => (apply keeps_modify; intros ?; apply Ht) : keeps.
#[local] Hint Extern 1 (K (modify (set_ubdQueue _))) => (apply keeps_modify; intros ?; apply Ht) : keeps.
#[local] Hint Extern 1 (K (modify (set_reds _))) => (apply keeps_modify; intros ?; apply Ht) : keeps.
#[local] Hint Extern 1 (K (modify (set_redBySrc _))) => (apply keeps_modify; intros ?; apply Ht) : keeps.
#[local] Hint Extern 1 (K (modify (set_redByDst _))) => (apply keeps_modify; intros ?; apply Ht) : keeps.
#[local] Hint Extern 1 (K (modify (set_redQueue _))) => (apply keeps_modify; intros ?; apply Ht) : keeps.
#[local] Hint Resolve K_GetUBD K_GetRED K_read_index : keeps.
Ltac keep_transit := unfold SetUnbondingDelegation, RemoveUnbondingDelegation, InsertUnbondingQueue, SetRedelegation, RemoveRedelegation,
  InsertRedelegationQueue, HasReceivingRedelegation; keep.
Lemma K_BeginUnbonding ctx d v sh : C ctx → K (BeginUnbonding ctx d v sh).
Proof. intros Hc. unfold BeginUnbonding. keep_transit. Qed.
Lemma K_BeginRedelegation ctx d v w sh : C ctx → K (BeginRedelegation ctx d v w sh).
Proof. intros Hc. unfold BeginRedelegation. keep_transit. by apply K_Delegate. Qed.
#[local] Hint Resolve K_BeginUnbonding K_BeginRedelegation : keeps.
Lemma K_Handler ctx msg : C ctx → takes → K (stake_Handler ctx msg).
Proof. intros Hc Hs. destruct msg; cbn [stake_Handler]; unfold handleMsgBeginUnbonding, handleMsgBeginRedelegate; keeps. Qed.
(** The end of a block; an error of a payment is ignored. *)
Section block.
Context (Hl : closed_last).
Lemma K_ignore {A} (c : M (StakeState X) A) : K c → (∀ s e s', c s = (Err e, s') → R s s') → K (ignore_err c).
Proof. intros Hc He s [] s' Hr. unfold ignore_err in Hr. destruct (c s) as [[a|e|w] s1] eqn:Ec; simplify_eq; [by eapply Hc|by eapply He]. Qed.
Lemma K_CompleteUnbonding d v : K (ignore_err (CompleteUnbonding d v)).
Proof.
  apply K_ignore; [unfold CompleteUnbonding; keep_transit|]. intros s e s'. unfold CompleteUnbonding, GetUnbondingDelegation, bind at 1 2, gets.
  destruct (ubds s !! GetUBDKey d v) as [u|]; [|by intros [= _ <-]]. unfold unmarshal, expect, bind at 1 2, ret at 1.
  case_bool_decide; [|done]. unfold bind, ret, on_auth, zoom, RemoveUnbondingDelegation, bind, modify.
  destruct (addCoins _ _ _) as [[c|e'|w] a] eqn:Ea; [done|by apply addCoins_no_err in Ea|done].
Qed.
Lemma K_CompleteRedelegation ctx d v w : K (ignore_err (CompleteRedelegation ctx d v w)).
Proof.
  apply K_ignore; [unfold CompleteRedelegation; keep_transit|]. intros s e s'. unfold CompleteRedelegation, GetRedelegation, bind at 1 2, gets.
  destruct (reds s !! GetREDKey d v w) as [r|]; [|by intros [= _ <-]]. unfold unmarshal, expect, bind at 1 2, ret at 1.
  case_bool_decide; [|done]. unfold bind, ret, require, throw, RemoveRedelegation, bind, modify. destruct (BlockTime ctx <? rd_MinTime r); simpl; [by intros [= _ <-]|done].
Qed.
#[local] Hint Resolve K_CompleteUnbonding K_CompleteRedelegation K_Apply : keeps.
Lemma K_EndBlocker ctx : C (WithCoinFlowTrigger StakeEndBlocker ctx) → K (EndBlocker ctx).
Proof.
  intros Hc. unfold EndBlocker, complete_unbondings, complete_redelegations, DequeueAllMatureUnbondingQueue, DequeueAllMatureRedelegationQueue. keep.
Qed.
End block.
End transit.
End frame.

(** ** A part of the state that is left alone *)
Section part.
Context {X B : Type} `{Crypto, ConsCrypto, StakingHooks X, !HookLaws X} (g : StakeState X → B).
Implicit Types s : StakeState X.
Definition same_part s s' : Prop := g s' = g s.
#[global] Instance same_part_po : PreOrder same_part.
Proof. split; [done|]. unfold same_part. intros s1 s2 s3 E1 E2. congruence. Qed.
Lemma hooked_outside C : (∀ x s, g (set_auth x s) = g s) → (∀ x s, g (set_other x s) = g s) → hooked C same_part.
Proof.
  intros Ha Ho. assert (∀ called A (c : M (StakeState X) A), outside held other_ok called c → keeps same_part c) as Hk.
  { intros called A c Hc s. eapply wp_mono; [apply Hc|]. intros r s' (a&x&->&_). unfold same_part. by rewrite Ho, Ha. }
  split; [split|..]; intros; eapply Hk;
    [apply law_modified|apply law_removed|apply law_del_modified|apply law_del_removed|apply law_created|apply law_bonded|apply law_unbonding|apply law_power|apply law_del_created].
Qed.
End part.
End StakeFrame.
