(* ===== verification/StakeSlash.v ===== *)
(** * Staking: what the operations preserve

    [StakeOps]: delegating, unbonding and redelegating.  [StakeSlash]: slashing,
    jailing and the messages. *)

From Stdlib Require Import Ascii.
From S2P Require Import Prelude SdkErrors Frame IntType GoStrings Denom Coin CoinFacts Dec TimeBytes Gas KVStore Auth Bank BankFacts BankBurn BankFrame StakeTypes Stake StakeFacts StakeInv StakeFrame.
#[local] Open Scope Z_scope.

(** ** Staking: what delegating, unbonding and redelegating preserve *)
Module StakeOps.
Import StakeTypes Stake StakeFacts StakeInv.
Lemma Truncate_whole n r : Dec_TruncateInt (n * P) = Ok r → r = n.
Proof. intros [-> _]%NewIntFromBigInt_ok. unfold chopPrecisionAndTruncate. by rewrite Z.quot_mul. Qed.
Ltac whole_coin H1 H2 := apply Truncate_whole in H1 as ->; apply NewCoin_ok in H2 as [-> ?].
Ltac same_stores := match goal with H : sinv _ _ _ |- _ => eapply sinv_fields; [..|exact H]; reflexivity end.

Section ops.
Context {X : Type} `{Crypto, ConsCrypto, StakingHooks X, !HookLaws X}.
Implicit Types s : StakeState X.

(** ** What stays out of the reach of delegators

    The set of the last block, the queue of the validators, and which validators
    are bonded or unbonding, with which keys. *)
Definition stage (v : Validator) : option (BondStatus * Z * ConsKey) :=
  if decide (v_Status v = Unbonded) then None else Some (v_Status v, v_UnbondingMinTime v, v_ConsPubKey v).
Record steady s s' : Prop := {
  sd_last : lastPower s' = lastPower s;
  sd_total : lastTotalPower s' = lastTotalPower s;
  sd_queue : valQueue s' = valQueue s;
  sd_params : st_params s' = st_params s;
  sd_stage a : (validators s' !! a ≫= stage) = (validators s !! a ≫= stage) }.
#[global] Instance steady_po : PreOrder steady.
Proof.
  split; [done|]. intros s1 s2 s3 [A1 A2 A3 A4 A5] [B1 B2 B3 B4 B5]. split; congruence.
Qed.
Lemma steady_fields s s' :
  lastPower s' = lastPower s → lastTotalPower s' = lastTotalPower s → valQueue s' = valQueue s →
  st_params s' = st_params s → validators s' = validators s → steady s s'.
Proof. intros ? ? ? ? E. split; try done. intros a. by rewrite E. Qed.
Lemma steady_outside s a x : steady s (set_other x (set_auth a s)).
Proof. by apply steady_fields. Qed.
Lemma steady_put s k k' old new p a :
  validators s !! v_OperatorAddr old = Some old → v_OperatorAddr new = v_OperatorAddr old → stage new = stage old →
  steady s (put_validator k k' new p a s).
Proof.
  intros Ho En Es. split; try done. intros b. simpl. rewrite En.
  destruct (decide (b = v_OperatorAddr old)) as [->|]; [rewrite lookup_insert_eq, Ho; done|by rewrite lookup_insert_ne].
Qed.
Lemma steady_jail s k v : validators s !! v_OperatorAddr v = Some v → steady s (jail_state k v s).
Proof.
  intros Hv. split; try done. intros b. simpl.
  destruct (decide (b = v_OperatorAddr v)) as [->|]; [rewrite lookup_insert_eq, Hv; done|by rewrite lookup_insert_ne].
Qed.
Lemma steady_unjail s k v : validators s !! v_OperatorAddr v = Some v → steady s (unjail_state k v s).
Proof.
  intros Hv. split; try done. intros b. simpl.
  destruct (decide (b = v_OperatorAddr v)) as [->|]; [rewrite lookup_insert_eq, Hv; done|by rewrite lookup_insert_ne].
Qed.
Lemma steady_remove s k v :
  validators s !! v_OperatorAddr v = Some v → v_Status v = Unbonded → steady s (remove_state k v s).
Proof.
  intros Hv Hst. split; try done. intros b. simpl.
  destruct (decide (b = v_OperatorAddr v)) as [->|]; [|by rewrite lookup_delete_ne].
  rewrite lookup_delete_eq, Hv. simpl. unfold stage. by rewrite decide_True.
Qed.

(** ** Delegating *)
Definition given (sub : bool) (n : Z) : Z := if sub then 0 else n * P.
Lemma wp_Delegate ctx d c v sub L s :
  sinv L none s → validators s !! v_OperatorAddr v = Some v → good_signer d → 0 ≤ amount c →
  (sub = true → denom c = IrisAtto) →
  wp (Delegate ctx d c v sub) (λ sh s', sinv (L - given sub (amount c)) none s' ∧ 0 ≤ sh ∧ steady s s') s.
Proof.
  intros Hi Hv Hd Hc Hsub. unfold Delegate. wps.
  destruct (si_vals _ _ _ Hi _ _ Hv) as [_ Hvo].
  set (key := GetDelegationKey d (v_OperatorAddr v)).
  eapply (wp_mono _ (λ f s', s' = s ∧ f = delegations s !! key)).
  { apply wp_GetDelegation; auto. }
  intros f s' [-> ->]. set (e := match delegations s !! key with Some e => e | None => _ end).
  assert (d_DelegatorAddr e = d ∧ d_ValidatorAddr e = v_OperatorAddr v ∧ 0 ≤ d_Shares e ∧ d_Shares e = shares_at (delegations s) key)
    as (Ed&Ev&Hs0&Es).
  { unfold e, shares_at. destruct (delegations s !! key) as [e'|] eqn:E; [|done].
    destruct (dels_addrs _ _ _ _ (si_dels _ _ _ Hi) (proj1 Hd) E) as (?&?&?&?&?). done. }
  wpb. eapply (wp_mono _ (λ _ s', ∃ a x, s' = set_other x (set_auth a s) ∧ sinv L none s')).
  { destruct (delegations s !! key).
    - eapply wp_outside; [apply law_del_modified|done|done|]. eauto.
    - eapply wp_outside; [apply law_del_created|done|done|]. eauto. }
  intros _ s1 (a1&x1&->&Hi1). wpb. rewrite Ed.
  eapply (wp_mono _ (λ _ s', ∃ a, s' = set_auth a (set_other x1 (set_auth a1 s)) ∧ sinv (L + (if sub then amount c * P else 0)) none s')).
  { destruct sub; [|wps; exists a1; split; [done|]; eapply sinv_ext; [..|done]; [lia|done]].
    pose proof (Hsub eq_refl) as Hden. destruct Hd as [_ Hnb]. destruct c as [cd cn]. simpl in *. subst cd. wpb.
    eapply (wp_subtract d cn); [done..|]. intros r a Hia. wps. eauto. }
  intros _ s2 (a2&->&Hi2). wpb.
  eapply (wp_AddValidatorTokensAndShares v (amount c)); [done..|]. intros iss k k' p a Hiss v' Hi3.
  wps. unfold SetDelegation. wps.
  rewrite ?Ed, ?Ev. apply dec_checked_ok in Hx0 as [-> _]. fold key.
  split_and!; [|done|].
  - pose proof (sinv_SetDelegation _ _ _ (mkDelegation d (v_OperatorAddr v) (d_Shares e + iss) (BlockHeight ctx)) Hi3) as Hi4.
    simpl in Hi4. fold key in Hi4. eapply sinv_ext; [..|apply Hi4]; [unfold given; destruct sub; lia| |done|apply Hvo|lia].
    intros b. unfold at_val, none. rewrite <-Es. repeat case_decide; lia.
  - transitivity (put_validator k k' v' p a s); [by apply (steady_put _ _ _ v)|by apply steady_fields].
Qed.

(** ** Unbonding *)
Definition same_others (a : ValAddress) s s' : Prop := ∀ b, b ≠ a → validators s' !! b = validators s !! b.
Lemma wp_unbond ctx d va shares L s :
  sinv L none s → is_addr d → 0 ≤ shares →
  wp (unbond ctx d va shares) (λ amt s', sinv (L + amt) none s' ∧ 0 ≤ amt ∧ (P | amt) ∧ steady s s' ∧
    same_others va s s' ∧ ubds s' = ubds s ∧ reds s' = reds s ∧ is_addr va) s.
Proof.
  intros Hi Hd Hsh. unfold unbond. wpb; apply wp_GetDelegation; [intros; wps|]. intros e He.
  destruct (dels_addrs _ _ _ _ (si_dels _ _ _ Hi) Hd He) as (Ed&Ev&Hva&He0&Hgd).
  wpb. eapply wp_outside; [apply law_del_modified|done|done|]. intros _ a1 x1 Hi1. wps.
  apply negb_true_iff, Z.ltb_ge in Hb. apply wp_GetValidator; [intros; wps|]. intros v Hv. wps.
  apply dec_checked_ok in Hx as [-> _]. set (s1 := set_other x1 (set_auth a1 s)) in *.
  destruct (si_vals _ _ _ Hi1 _ _ Hv) as [Eop Hvo]. destruct Eop.
  set (key := GetDelegationKey d (v_OperatorAddr v)) in *.
  assert (Hkey : shares_at (delegations s1) key = d_Shares e) by (unfold shares_at; simpl; by rewrite He).
  (* the delegation is reduced or removed *)
  wpb. eapply (wp_mono _ (λ w s2, sinv L (at_val (v_OperatorAddr v) shares none) s2 ∧
    validators s2 !! v_OperatorAddr v = Some w ∧ v_OperatorAddr w = v_OperatorAddr v ∧ v_DelegatorShares w = v_DelegatorShares v ∧
    steady s s2 ∧ same_others (v_OperatorAddr v) s s2 ∧ ubds s2 = ubds s ∧ reds s2 = reds s)).
  { destruct (Dec_IsZero (d_Shares e - shares)) eqn:Ez.
    - apply Dec_IsZero_iff in Ez. wpb.
      eapply (wp_mono _ (λ w s2, sinv L none s2 ∧ validators s2 !! v_OperatorAddr v = Some w ∧ v_OperatorAddr w = v_OperatorAddr v ∧
        v_DelegatorShares w = v_DelegatorShares v ∧ steady s s2 ∧ same_others (v_OperatorAddr v) s s2 ∧
        delegations s2 = delegations s ∧ ubds s2 = ubds s ∧ reds s2 = reds s)).
      { case_match; [|by wps]. wpb. eapply wp_jailValidator; [done..|]. intros k Hj Hi2.
        apply wp_mustGetValidator. simpl. rewrite lookup_insert_eq. intros w [= <-]. split_and!; try done.
        + transitivity s1; [by apply steady_fields|by apply steady_jail].
        + intros b Hb'. simpl. by rewrite lookup_insert_ne. }
      intros w s2 (Hi2&Hw&Ew&Esw&Hst&Hso&Edel&Eu&Er). unfold RemoveDelegation. wps.
      eapply wp_outside; [apply law_del_removed|by rewrite Ed|done|]. intros _ a3 x3 Hi3. wps. rewrite Ed, Ev. fold key.
      split_and!; try done.
      + pose proof (sinv_DeleteDelegation _ _ _ e Hi3) as Hi4. simpl in Hi4. rewrite Ed, Ev, Edel in Hi4. fold key in Hi4.
        eapply sinv_ext; [..|by apply Hi4]; [done|]. intros b. unfold at_val, none. unfold shares_at. rewrite He.
        case_decide; lia.
      + etrans; [done|]. by apply steady_fields.
    - apply Dec_IsZero_false in Ez. unfold SetDelegation. wps. rewrite Ed, Ev. fold key. split_and!; try done.
      pose proof (sinv_SetDelegation _ _ _ (mkDelegation d (v_OperatorAddr v) (d_Shares e - shares) (BlockHeight ctx)) Hi1) as Hi2.
      simpl in Hi2. fold key in Hi2. eapply sinv_ext; [..|apply Hi2]; [done| |done|apply Hvo|lia].
      intros b. unfold at_val, none. change (delegations s) with (delegations s1). rewrite Hkey. case_decide; lia. }
  intros w s2 (Hi2&Hw&Ew&Esw&Hst&Hso&Eu&Er).
  assert (d_Shares e ≤ v_DelegatorShares v) as Hle.
  { pose proof (shares_le L none s1 key e v Hi1 He ltac:(by rewrite Ev)) as Hle. unfold none in Hle. lia. }
  wpb. rewrite <-Ew in Hw. eapply (wp_RemoveValidatorTokensAndShares w shares); [done|done|lia|].
  intros iss k k' p a Hiss Hdiv v' Hi3. rewrite Ew in Hi3.
  assert (Hi3' : sinv (L + iss) none (put_validator k k' v' p a s2)).
  { eapply sinv_ext; [..|exact Hi3]; [done|]. intros b. unfold at_val. case_decide; unfold none; lia. }
  assert (Hst3 : steady s (put_validator k k' v' p a s2)).
  { etrans; [done|]. by eapply (steady_put s2 k k' w v'). }
  assert (Hso3 : same_others (v_OperatorAddr v) s (put_validator k k' v' p a s2)).
  { intros b Hb'. simpl. rewrite Ew, lookup_insert_ne by done. by apply Hso. }
  wpb. destruct (Dec_IsZero (v_DelegatorShares v')) eqn:Ez; cbn [andb]; [|wps; by split_and!].
  case_bool_decide as Est; [|wps; by split_and!]. apply Dec_IsZero_iff in Ez.
  eapply (wp_RemoveValidator ctx v' _ _ _ _ Hi3'); [simpl; by rewrite lookup_insert_eq|done|].
  intros k4 a4 x4 _ s4 Hi4. wps. split_and!; try done.
  - etrans; [exact Hst3|]. etrans; [apply (steady_remove _ k4 v'); [simpl; by rewrite lookup_insert_eq|done]|]. apply steady_outside.
  - intros b Hb'. rewrite <-(Hso3 b Hb'). simpl. rewrite Ew. rewrite lookup_delete_ne by done. done.
Qed.

Lemma wp_BeginUnbonding ctx d va shares s :
  sinv 0 none s → is_addr d → 0 ≤ shares →
  wp (BeginUnbonding ctx d va shares) (λ _ s', sinv 0 none s' ∧ steady s s') s.
Proof.
  intros Hi Hd Hsh. unfold BeginUnbonding. wpb. apply wp_GetUBD; [|intros; by wps]. intros Hn. wps.
  eapply wp_mono; [by apply wp_unbond|]. intros amt s1 (Hi1&Ha&[q ->]&Hst&_&Eu&_&Hva). unfold GetParams. wps. whole_coin Hx Hx0.
  unfold SetUnbondingDelegation, InsertUnbondingQueue. wps.
  set (u := mkUBD _ _ _ _ _ _ _). pose proof (sinv_put_ubd _ _ _ u Hi1 Hd Hva eq_refl ltac:(done) ltac:(done)) as Hi2.
  rewrite Eu in Hi2. unfold balance_at in Hi2. simpl in Hi2. rewrite Hn in Hi2.
  split; [|etrans; [exact Hst|by apply steady_fields]].
  eapply sinv_ext; [..|same_stores]; [unfold ubd_balance; simpl; lia|done].
Qed.
Lemma wp_CompleteUnbonding d va s :
  sinv 0 none s → wp (CompleteUnbonding d va) (λ _ s', sinv 0 none s' ∧ steady s s') s.
Proof.
  intros Hi. unfold CompleteUnbonding. wpb. apply wp_GetUBD; [intros; wps|]. intros u Hu. wpb.
  destruct (uo_record _ _ (si_ubds _ _ _ Hi) _ _ Hu) as (Ek&_&_&Hden&_). rewrite Ek in Hu.
  destruct (ub_Balance u) as [cd cn] eqn:Eb. simpl in Hden. subst cd.
  eapply wp_addCoins; [done|]. intros _ a Hi1. unfold RemoveUnbondingDelegation. wps.
  split; [|by apply steady_fields]. eapply sinv_ext; [..|by apply (sinv_drop_ubd _ _ _ u Hi1)]; [|done].
  unfold ubd_balance. rewrite Eb. simpl. lia.
Qed.
Lemma wp_BeginRedelegation ctx d va vb shares s :
  sinv 0 none s → good_signer d → 0 ≤ shares →
  wp (BeginRedelegation ctx d va vb shares) (λ _ s', sinv 0 none s' ∧ steady s s') s.
Proof.
  intros Hi Hg Hsh. pose proof (proj1 Hg) as Hd. unfold BeginRedelegation, HasReceivingRedelegation. wps.
  apply negb_true_iff, bool_decide_eq_false in Hb.
  apply wp_GetRedelegation; [|intros; by wps]. intros Hn. wps.
  eapply wp_mono; [by apply wp_unbond|]. intros amt s1 (Hi1&Ha&[q ->]&Hst&_&_&_&Hva). wps. whole_coin Hx Hx0.
  apply wp_GetValidator; [intros; wps|]. intros w Hw. destruct (si_vals _ _ _ Hi1 _ _ Hw) as [Eop Hwo].
  pose proof (vo_addr _ Hwo) as Hb'. rewrite Eop in Hb'. rewrite <-Eop in Hw. wpb.
  eapply wp_mono; [by apply (wp_Delegate ctx d (mkCoin StakeDenom q) w false (0 + q * P) s1)|].
  intros sh s2 (Hi2&Hs2&Hst2). unfold GetParams, SetRedelegation, InsertRedelegationQueue. wps.
  set (r := mkRED _ _ _ _ _ _ _ _ _). assert (red_ok r) as Hr by (by repeat split).
  pose proof (sinv_put_red _ _ _ r Hi2 Hr) as Hi3.
  split; [|etrans; [exact Hst|]; etrans; [exact Hst2|by apply steady_fields]].
  eapply sinv_ext; [..|same_stores]; [unfold given; simpl; lia|done].
Qed.
Lemma wp_CompleteRedelegation ctx d va vb s :
  sinv 0 none s → wp (CompleteRedelegation ctx d va vb) (λ _ s', sinv 0 none s' ∧ steady s s') s.
Proof.
  intros Hi. unfold CompleteRedelegation. wpb. apply wp_GetRedelegation; [intros; wps|]. intros r Hr.
  destruct (red_record _ _ _ _ _ (si_reds _ _ _ Hi) Hr) as [Ek _]. rewrite Ek in Hr.
  unfold RemoveRedelegation. wps. split; [by apply (sinv_drop_red _ _ _ r Hi)|by apply steady_fields].
Qed.
End ops.
End StakeOps.

Module StakeSlash.
Import StakeTypes Stake StakeFacts StakeQueue StakeInv StakeFrame StakeOps.
Section slash.
Context {X : Type} `{Crypto, ConsCrypto, StakingHooks X, !HookLaws X}.
Implicit Types s : StakeState X.

(** ** Reading the records of a validator *)
Lemma wp_read_index {A} (store : StakeState X → gmap string A) key_of n (ikey rkey : A → string) l s :
  (∀ ik, ik ∈ l → ∃ r, store s !! rkey r = Some r ∧ ik = ikey r ∧ key_of ik = Ok (rkey r)) →
  wp (read_index store key_of n l)
    (λ rs s', s' = s ∧ ikey <$> rs = l ∧ Forall (λ r, store s !! rkey r = Some r) rs) s.
Proof.
  induction l as [|ik l IH]; intros Hl; simpl; wps; [done|].
  destruct (Hl ik) as (r&Hr&->&Hk); [set_solver|]. rewrite Hk in Hx. injection Hx as <-. rewrite Hr. wpb.
  apply wp_unmarshal. intros _. wpb. eapply wp_mono; [apply IH; intros; apply Hl; set_solver|].
  intros rs s' (->&<-&Hrs). wps. split_and!; [done|done|by constructor].
Qed.
Lemma read_NoDup {A} (store : gmap string A) (ikey rkey : A → string) rs :
  NoDup (ikey <$> rs) → Forall (λ r, store !! rkey r = Some r) rs → NoDup (rkey <$> rs).
Proof.
  intros Hn Hs. rewrite Forall_forall in Hs. apply NoDup_fmap_2_strong; [|by eapply NoDup_fmap_1].
  intros r r' Hr%Hs Hr'%Hs E. rewrite E in Hr. congruence.
Qed.
Lemma take_addr (a b : string) : is_addr a → str (take AddrLen (chars (a +:+ b))) = a.
Proof. unfold is_addr, str_len. intros E. rewrite chars_app, take_app_le, firstn_all2 by lia. apply str_chars. Qed.
Lemma drop_addr (a b : string) : is_addr a → str (drop AddrLen (chars (a +:+ b))) = b.
Proof. unfold is_addr, str_len. intros E. rewrite chars_app, drop_app_le, drop_ge by lia. apply str_chars. Qed.
Lemma UBDKey_of_index d v : is_addr d → is_addr v → GetUBDKeyFromValIndexKey (GetUBDByValIndexKey d v) = Ok (GetUBDKey d v).
Proof.
  intros Hd Hv. unfold GetUBDKeyFromValIndexKey, GetUBDByValIndexKey.
  rewrite bool_decide_eq_true_2 by (rewrite str_len_app, Hd, Hv; done). cbn [negb]. by rewrite drop_addr, take_addr.
Qed.
Lemma REDKey_of_index d v w :
  is_addr d → is_addr v → is_addr w → GetREDKeyFromValSrcIndexKey (GetREDByValSrcIndexKey d v w) = Ok (GetREDKey d v w).
Proof.
  intros Hd Hv Hw. unfold GetREDKeyFromValSrcIndexKey, GetREDByValSrcIndexKey. rewrite !(addr_field_id d), !(addr_field_id w) by done.
  rewrite bool_decide_eq_true_2 by (rewrite !str_len_app, Hd, Hv, Hw; done). cbn [negb].
  change (2 * AddrLen)%nat with (AddrLen + AddrLen)%nat. rewrite <-drop_drop.
  assert (∀ l, take AddrLen (drop AddrLen l) = take AddrLen (chars (str (drop AddrLen l)))) as E1 by (intros; by rewrite chars_str).
  assert (∀ l, drop AddrLen (drop AddrLen l) = drop AddrLen (chars (str (drop AddrLen l)))) as E2 by (intros; by rewrite chars_str).
  rewrite E1, E2, drop_addr, take_addr, take_addr, drop_addr by done. done.
Qed.

Definition ubd_key (u : UnbondingDelegation) : string := GetUBDKey (ub_DelegatorAddr u) (ub_ValidatorAddr u).
Lemma wp_UBDsFromValidator va L D s :
  sinv L D s → wp (GetUnbondingDelegationsFromValidator va)
    (λ us s', s' = s ∧ Forall (λ u, ubds s !! ubd_key u = Some u) us ∧ NoDup (ubd_key <$> us)) s.
Proof.
  intros Hi. unfold GetUnbondingDelegationsFromValidator. wps. destruct (si_ubds _ _ _ Hi) as [Hr Hx].
  eapply wp_mono; [apply (wp_read_index _ _ _ (λ u, GetUBDByValIndexKey (ub_DelegatorAddr u) (ub_ValidatorAddr u)) ubd_key)|].
  - intros ik ([k []]&->&[Hik _]%prefix_iterator_elem)%list_elem_of_fmap. simpl.
    destruct (proj1 (Hx k) (ex_intro _ _ Hik)) as (j&u&Hu&->). destruct (Hr _ _ Hu) as (->&Hd&Hv&_).
    exists u. split_and!; [done..|]. by apply UBDKey_of_index.
  - intros us s' (->&El&Hus). split_and!; [done..|]. eapply read_NoDup; [|done]. rewrite El. apply prefix_iterator_NoDup.
Qed.
Lemma wp_REDsFromValidator va L D s :
  sinv L D s → is_addr va → wp (GetRedelegationsFromValidator va)
    (λ rs s', s' = s ∧ Forall (λ r, red_ok r ∧ rd_ValidatorSrcAddr r = va) rs ∧
       Forall (λ r, reds s !! red_key r = Some r) rs ∧ NoDup (red_key <$> rs)) s.
Proof.
  intros Hi Hva. unfold GetRedelegationsFromValidator. wps. destruct (si_reds _ _ _ Hi) as [_ Hx _].
  eapply wp_mono; [apply (wp_read_index _ _ _ src_key red_key)|].
  - intros ik ([k []]&->&[Hik _]%prefix_iterator_elem)%list_elem_of_fmap. simpl.
    destruct (proj1 (Hx k) (ex_intro _ _ Hik)) as (j&r&Hr&->).
    destruct (red_record _ _ _ _ _ (si_reds _ _ _ Hi) Hr) as (->&[(?&?&?) _ _ _ _]).
    exists r. split_and!; [done..|]. by apply REDKey_of_index.
  - intros rs s' (->&El&Hrs). split; [done|].
    split; [|split; [done|eapply read_NoDup; [rewrite El; apply prefix_iterator_NoDup|done]]].
    rewrite Forall_forall in *. intros r Hin.
    destruct (red_record _ _ _ _ _ (si_reds _ _ _ Hi) (Hrs _ Hin)) as [_ Hok]. split; [done|].
    assert (src_key r ∈ (prefix_iterator (redBySrc s) va).*1) as Hp by (rewrite <-El; by apply list_elem_of_fmap_2).
    apply list_elem_of_fmap in Hp as ([k []]&E&[_ Hp]%prefix_iterator_elem). simpl in E. subst k.
    apply HasPrefix_iff in Hp as [t Et]. unfold src_key, GetREDByValSrcIndexKey in Et. destruct (rk_addrs _ Hok) as (_&Hs&_).
    apply str_app_inj in Et as [E _]; [done|]. unfold is_addr in *. congruence.
Qed.

(** ** When delegations in transit are due *)
Definition ubd_due s (p : DVPair) : option Z :=
  match ubds s !! GetUBDKey (dv_DelegatorAddr p) (dv_ValidatorAddr p) with
  | Some u => if decide (ub_DelegatorAddr u = dv_DelegatorAddr p ∧ ub_ValidatorAddr u = dv_ValidatorAddr p) then Some (ub_MinTime u) else None
  | None => None
  end.
Definition red_due s (t : DVVTriplet) : option Z :=
  match reds s !! GetREDKey (dvv_DelegatorAddr t) (dvv_ValidatorSrcAddr t) (dvv_ValidatorDstAddr t) with
  | Some r => if decide (rd_DelegatorAddr r = dvv_DelegatorAddr t ∧ rd_ValidatorSrcAddr r = dvv_ValidatorSrcAddr t ∧
                         rd_ValidatorDstAddr r = dvv_ValidatorDstAddr t) then Some (rd_MinTime r) else None
  | None => None
  end.
Record same_due s s' : Prop := {
  du_ubd p : ubd_due s' p = ubd_due s p;
  du_ubdQueue : ubdQueue s' = ubdQueue s;
  du_red t : red_due s' t = red_due s t;
  du_redQueue : redQueue s' = redQueue s }.
#[global] Instance same_due_po : PreOrder same_due.
Proof. split; [done|]. intros s1 s2 s3 [] []. split; congruence. Qed.
(** The stores these are read from, with the parameters. *)
Definition transit s := (ubds s, ubdQueue s, reds s, redQueue s, st_params s).
Lemma transit_hooked : hooked (λ _, True) (same_part transit).
Proof. by apply hooked_outside. Qed.
Lemma transit_closed : closed (same_part transit).
Proof. by split. Qed.
Lemma transit_takes : takes (same_part transit).
Proof. intros a c. by apply keeps_zoom. Qed.
Lemma transit_last : closed_last (same_part transit).
Proof. by split. Qed.
Lemma transit_due s s' : transit s' = transit s → same_due s s'.
Proof. intros [= E1 E2 E3 E4 _]. split; [..|done| |done]; intros; unfold ubd_due, red_due; by rewrite ?E1, ?E3. Qed.
Lemma keeps_due {A} (c : M (StakeState X) A) s : keeps (same_part transit) c → wp c (λ _, same_due s) s.
Proof. intros Hc. eapply wp_mono; [apply Hc|]. intros a s' E. by apply transit_due. Qed.
Lemma wp_and {A} (c : M (StakeState X) A) (Q R : A → StakeState X → Prop) s : wp c Q s → wp c R s → wp c (λ a s', Q a s' ∧ R a s') s.
Proof. unfold wp. auto. Qed.
Lemma due_put_ubd s u u' :
  ubds s !! ubd_key u = Some u → ub_DelegatorAddr u' = ub_DelegatorAddr u → ub_ValidatorAddr u' = ub_ValidatorAddr u →
  ub_MinTime u' = ub_MinTime u → same_due s (put_ubd u' s).
Proof.
  intros Hu E1 E2 E3. split; try done. intros p. unfold ubd_due. simpl. rewrite E1, E2. fold (ubd_key u).
  destruct (decide (GetUBDKey (dv_DelegatorAddr p) (dv_ValidatorAddr p) = ubd_key u)) as [->|Hne].
  - by rewrite lookup_insert_eq, Hu, E1, E2, E3.
  - by rewrite lookup_insert_ne.
Qed.
Lemma due_put_red s r r' : reds s !! red_key r = Some r → same_red r' r → rd_MinTime r' = rd_MinTime r → same_due s (put_red r' s).
Proof.
  intros Hr Hs Et. destruct (same_red_keys _ _ Hs) as (Ek&_&_). destruct Hs as (E1&E2&E3).
  split; try done. intros t. unfold red_due. simpl. rewrite Ek.
  destruct (decide (GetREDKey (dvv_DelegatorAddr t) (dvv_ValidatorSrcAddr t) (dvv_ValidatorDstAddr t) = red_key r)) as [->|Hne].
  - by rewrite lookup_insert_eq, Hr, E1, E2, E3, Et.
  - by rewrite lookup_insert_ne.
Qed.

(** ** Slashing *)
Lemma wp_slash_all {A} (slash : A → M (StakeState X) Dec) (I : list A → StakeState X → Prop) rem l s :
  I l s → (∀ a l' s1, I (a :: l') s1 → wp (slash a) (λ _, I l') s1) → wp (slash_all slash rem l) (λ _, I []) s.
Proof.
  intros Hs Hb. revert rem s Hs. induction l as [|a l IH]; intros rem s Hs; [by apply wp_ret|]. cbn [slash_all]. wpb.
  eapply wp_mono; [by apply Hb|]. intros d s1 Hs1. wpb. destruct (Dec_IsZero d); wps; by apply IH.
Qed.
Lemma MinInt_min a b : MinInt a b = Z.min a b.
Proof. unfold MinInt, Int_GT. destruct (Z.ltb_spec b a); lia. Qed.

Record ubd_loop s0 (us : list UnbondingDelegation) s : Prop := {
  ul_inv : sinv 0 none s;
  ul_steady : steady s0 s;
  ul_vals : validators s = validators s0;
  ul_due : same_due s0 s;
  ul_stored : Forall (λ u, ubds s !! ubd_key u = Some u) us;
  ul_nodup : NoDup (ubd_key <$> us) }.
Lemma wp_slashUBD ctx u l h f s0 s :
  ubd_loop s0 (u :: l) s → wp (slashUnbondingDelegation ctx u h f) (λ _, ubd_loop s0 l) s.
Proof.
  intros [Hi Hst Hv Hdue Hu Hn]. apply Forall_cons in Hu as [Hu Hl]. cbn in Hn. apply NoDup_cons in Hn as [Hni Hn].
  assert (ubd_loop s0 l s) as Hdone by (by split). unfold slashUnbondingDelegation. case_match; [by wps|]. case_match; [by wps|]. wps.
  destruct (Int_IsZero _); [by wps|]. unfold SetUnbondingDelegation. wps.
  apply Int_Sub_ok in Hx1 as [-> _]. apply NewCoin_ok in Hx2 as [-> Hpos].
  rewrite MinInt_min in *. set (n := Z.min _ _) in *. set (u' := mkUBD _ _ _ _ _ _ _).
  destruct (uo_record _ _ (si_ubds _ _ _ Hi) _ _ Hu) as (_&Ha1&Ha2&Hden&Hb&Hib).
  pose proof (sinv_put_ubd _ _ _ u' Hi Ha1 Ha2 Hden ltac:(simpl; lia) Hib) as Hi2.
  unfold balance_at in Hi2. change (GetUBDKey _ _) with (ubd_key u) in Hi2 at 1. rewrite Hu in Hi2.
  eapply (wp_Decrease n); [done|exact Hi2|]. intros a Hi3. wps. split; try done.
  - eapply sinv_ext; [..|exact Hi3]; [unfold ubd_balance; simpl; lia|done].
  - etrans; [exact Hst|by apply steady_fields].
  - etrans; [exact Hdue|]. transitivity (put_ubd u' s); [by apply (due_put_ubd s u)|by apply transit_due].
  - rewrite Forall_forall in *. intros w Hw. simpl. rewrite lookup_insert_ne; [by apply Hl|].
    intros E. apply Hni. change (ubd_key u = ubd_key w) in E. rewrite E. by apply list_elem_of_fmap_2.
Qed.

(** A panic in place of an error changes no normal return. *)
Lemma wp_must {A} (c : M (StakeState X) A) w (Q : A → StakeState X → Prop) s :
  wp c Q s → wp (λ s, match c s with (Err _, s) => (Panic w, s) | r => r end) Q s.
Proof. intros Hc a s'. specialize (Hc a s'). destruct (c s) as [[b|e|w'] s1]; intros [= -> ->]; auto. Qed.
Record red_loop s0 (va : ValAddress) (rs : list Redelegation) s : Prop := {
  rl_inv : sinv 0 none s;
  rl_steady : steady s0 s;
  rl_val : validators s !! va = validators s0 !! va;
  rl_due : same_due s0 s;
  rl_recs : Forall (λ r, red_ok r ∧ rd_ValidatorSrcAddr r = va) rs;
  rl_stored : Forall (λ r, reds s !! red_key r = Some r) rs;
  rl_nodup : NoDup (red_key <$> rs) }.
Lemma wp_slashRED ctx r l h f s0 va s :
  0 ≤ f → red_loop s0 va (r :: l) s → wp (slashRedelegation ctx r h f) (λ _, red_loop s0 va l) s.
Proof.
  intros Hf [Hi Hst Hv Hdue Hr Hsto Hnd]. apply Forall_cons in Hr as [[Hr Hva] Hl]. apply Forall_cons in Hsto as [Hrs Hls].
  cbn in Hnd. apply NoDup_cons in Hnd as [Hni Hnd].
  assert (red_loop s0 va l s) as Hdone by (by split). unfold slashRedelegation. case_match; [by wps|]. case_match; [by wps|]. wps.
  eapply (wp_mono _ (λ _, red_loop s0 va l)).
  { destruct (Int_IsZero _); [by wps|]. unfold SetRedelegation. wps. apply Int_Sub_ok in Hx1 as [-> _].
    set (r' := mkRED _ _ _ _ _ _ _ _ _). change (red_loop s0 va l (put_red r' s)).
    split; [|etrans; [exact Hst|by apply steady_fields]|done|etrans; [exact Hdue|by apply (due_put_red s r)]|done| |done].
    - apply (sinv_put_red _ _ _ r' Hi). destruct Hr. split; try done. simpl. rewrite MinInt_min. lia.
    - rewrite Forall_forall in *. intros w Hw. simpl. rewrite lookup_insert_ne; [by apply Hls|].
      intros E. apply Hni. change (red_key r = red_key w) in E. rewrite E. by apply list_elem_of_fmap_2. }
  clear Hi Hst Hv Hdone Hdue Hls. intros _ s1 Hdone. pose proof Hdone as [Hi Hst Hv Hdue _ Hls _]. wps.
  unfold Dec_Mul in Hx1. apply dec_checked_ok in Hx1 as [-> _].
  assert (0 ≤ chopPrecisionAndRound (f * rd_SharesDst r)) as Hsh by (apply chop_pos; pose proof (rk_shares _ Hr); nia).
  set (sh := chopPrecisionAndRound _) in *. destruct (Dec_IsZero sh); [by wps|]. wpb. apply wp_GetDelegation; [intros; by wps|]. intros d Hd. wpb.
  destruct (rk_addrs _ Hr) as (A1&A2&A3). destruct (dels_addrs _ _ _ _ (si_dels _ _ _ Hi) A1 Hd) as (_&_&_&Hds&_).
  apply wp_must. eapply wp_mono; [apply wp_and; [apply wp_unbond; [exact Hi|done|]|by apply (K_unbond (λ _, True) (same_part transit) transit_closed transit_hooked)]|]; [by case_match|].
  intros amt s2 [(Hi2&Ha&[q ->]&Hst2&Hso&_&Er&_) Ht]. wps. whole_coin Hx1 Hx2.
  eapply (wp_Decrease q); [done|exact Hi2|]. intros a Hi3. wps. split; [..|done].
  - eapply sinv_ext; [..|exact Hi3]; [lia|done].
  - etrans; [exact Hst|]. etrans; [exact Hst2|by apply steady_fields].
  - rewrite <-Hv. apply Hso. rewrite <-Hva. apply rk_ne, Hr.
  - etrans; [exact Hdue|]. by apply transit_due.
  - done.
  - simpl. by rewrite Er.
Qed.
Lemma wp_true {S A} (c : M S A) (s : S) : wp c (λ _ _, True) s.
Proof. by intros ? ?. Qed.
Lemma wp_GetValidatorByConsAddr c (Q : option Validator → StakeState X → Prop) L D s :
  sinv L D s → Q None s →
  (∀ v, validators s !! v_OperatorAddr v = Some v → ConsAddr v = c → Q (Some v) s) → wp (GetValidatorByConsAddr c) Q s.
Proof.
  intros Hi HN HS. unfold GetValidatorByConsAddr. wps. destruct (byConsAddr s !! c) as [a|] eqn:E; [|by wps].
  apply (si_cons _ _ _ Hi) in E as (v&Hv&Hc). destruct (si_vals _ _ _ Hi _ _ Hv) as [<- _].
  apply wp_GetValidator; [congruence|]. intros w Hw. assert (w = v) as -> by congruence. auto.
Qed.
Lemma wp_Slash ctx c h p f s :
  sinv 0 none s → wp (Slash ctx c h p f) (λ _ s', sinv 0 none s' ∧ steady s s' ∧ same_due s s') s.
Proof.
  intros Hi. unfold Slash. wpb. apply wp_expect. intros Hf%negb_true_iff%Z.ltb_ge. wps.
  eapply wp_GetValidatorByConsAddr; [done|by wps|]. intros v Hv _.
  destruct (si_vals _ _ _ Hi _ _ Hv) as [_ Hvo]. wpb. apply wp_expect. intros _. wpb.
  eapply wp_outside; [apply law_modified|done|done|]. intros _ a1 x1 Hi1. wpb. set (s1 := set_other x1 (set_auth a1 s)) in *.
  assert (red_loop s1 (v_OperatorAddr v) [] s1) as Hbase by (split; try done; constructor).
  eapply (wp_mono _ (λ _ s2, red_loop s1 (v_OperatorAddr v) [] s2)).
  { case_match; [by wps|]. case_match; [by wps|]. wpb.
    eapply wp_mono; [by apply (wp_UBDsFromValidator _ 0 none)|]. intros us s2 (->&Hus&Hnd). wpb.
    eapply wp_mono; [apply (wp_slash_all _ (ubd_loop s1)); [by split|intros; by apply wp_slashUBD]|].
    intros rem s2 [Hi2 Hst2 Hv2 Hd2 _ _]. wpb.
    eapply wp_mono; [eapply wp_REDsFromValidator; [done|apply Hvo]|]. intros rs s3 (->&Hrs&Hrs'&Hnd').
    apply (wp_slash_all _ (red_loop s1 (v_OperatorAddr v))); [split; try done; by rewrite Hv2|intros; by apply wp_slashRED]. }
  intros rem s2 [Hi2 Hst2 Hv2 Hd2 _ _ _]. set (t := MaxDec _ _). wpb. change (validators s1) with (validators s) in Hv2. rewrite Hv in Hv2.
  destruct (decide (t = chopPrecisionAndTruncate t * P)) as [Ew|Ew].
  - rewrite Ew in *. set (q := chopPrecisionAndTruncate t) in *.
    eapply (wp_RemoveValidatorTokens v); [done|done|by exists q|]. intros k k' pl a Hq v' Hi3. wps.
    apply wp_expect. intros _. wps. whole_coin Hx2 Hx3.
    eapply (wp_Decrease q); [done|exact Hi3|]. intros a' Hi4. split_and!.
    + eapply sinv_ext; [..|exact Hi4]; [lia|done].
    + transitivity s1; [by apply steady_fields|]. etrans; [exact Hst2|].
      transitivity (put_validator k k' v' pl a s2); [by apply (steady_put _ _ _ v)|by apply steady_fields].
    + transitivity s1; [by apply transit_due|]. etrans; [exact Hd2|]. by apply transit_due.
  - eapply wp_mono; [apply wp_true|]. intros _ s3 _. wps. apply wp_expect. intros Hz%Dec_IsZero_iff. exfalso. apply Ew.
    unfold Dec_TruncateDec in Hx0. inv_ok Hx0. apply NewIntFromBigInt_ok in E as [-> _]. rewrite NewDecFromInt_ok in Hx0.
    injection Hx0 as <-. apply dec_checked_ok in Hx1 as [-> _]. lia.
Qed.
Lemma wp_Jail c s : sinv 0 none s → wp (Jail c) (λ _ s', sinv 0 none s' ∧ steady s s') s.
Proof.
  intros Hi. unfold Jail, mustGetValidatorByConsAddr. wpb. eapply wp_GetValidatorByConsAddr; [done|by wps|]. intros v Hv _. wps.
  eapply wp_jailValidator; [done..|]. intros k _ Hi'. split; [done|by apply steady_jail].
Qed.
Lemma wp_Unjail c s : sinv 0 none s → wp (Unjail c) (λ _ s', sinv 0 none s' ∧ steady s s') s.
Proof.
  intros Hi. unfold Unjail, mustGetValidatorByConsAddr. wpb. eapply wp_GetValidatorByConsAddr; [done|by wps|]. intros v Hv _. wps.
  eapply wp_unjailValidator; [done..|]. intros k _ Hi'. split; [done|by apply steady_unjail].
Qed.

(** ** Messages *)
(** A new description or commission. *)
Record same_stake (v w : Validator) : Prop := {
  ss_addr : v_OperatorAddr w = v_OperatorAddr v;
  ss_key : v_ConsPubKey w = v_ConsPubKey v;
  ss_jailed : v_Jailed w = v_Jailed v;
  ss_status : v_Status w = v_Status v;
  ss_tokens : v_Tokens w = v_Tokens v;
  ss_shares : v_DelegatorShares w = v_DelegatorShares v;
  ss_time : v_UnbondingMinTime w = v_UnbondingMinTime v }.
Lemma same_rank v w : same_stake v w → getValidatorPowerRank w = getValidatorPowerRank v.
Proof. intros []. unfold getValidatorPowerRank, potential_power, GetPotentialPower. by rewrite ss_tokens0, ss_addr0. Qed.
Lemma sinv_same L D s v w :
  sinv L D s → validators s !! v_OperatorAddr v = Some v → same_stake v w →
  sinv L D (set_validators (insert (v_OperatorAddr w) w) s).
Proof.
  intros [] Hv Hw. pose proof (same_rank _ _ Hw) as Hr. destruct Hw as [Ea Ec Ej Est Et Esh _]. rewrite Ea. split; simpl; try done.
  - apply vals_ok_update; [done..|]. destruct (si_vals0 _ _ Hv) as [_ []]. split; rewrite ?Ea, ?Et, ?Esh; done.
  - destruct si_pool0 as (p&Hp&Ep). exists p. split; [done|]. rewrite Ep, (sum_update _ _ _ v) by done.
    unfold BondedTokens. rewrite Est, Et. lia.
  - intros k a. rewrite (si_index0 k a). destruct (decide (a = v_OperatorAddr v)) as [->|].
    + rewrite lookup_insert_eq, Hv. split; intros (x&[= <-]&Hj&Hk); eexists; (split; [done|]); split; congruence.
    + by rewrite lookup_insert_ne.
  - eapply cons_ok_update; [done..|]. unfold ConsAddr. by rewrite Ec.
  - intros a. rewrite shares_of_update, <-si_shares0. case_decide; [subst|done]. unfold shares_of. by rewrite Hv, Esh.
  - rewrite (sum_update _ _ _ v) by done. unfold loose_tokens in *. rewrite Est, Et. lia.
Qed.
Lemma steady_same s v w :
  validators s !! v_OperatorAddr v = Some v → same_stake v w → steady s (set_validators (insert (v_OperatorAddr w) w) s).
Proof.
  intros Hv []. split; try done. intros a. simpl. rewrite ss_addr0. destruct (decide (a = v_OperatorAddr v)) as [->|].
  - rewrite lookup_insert_eq, Hv. simpl. unfold stage. by rewrite ss_status0, ss_time0, ss_key0.
  - by rewrite lookup_insert_ne.
Qed.
Lemma wp_handleMsgEditValidator ctx m s :
  sinv 0 none s → wp (handleMsgEditValidator ctx m) (λ _ s', sinv 0 none s' ∧ steady s s') s.
Proof.
  intros Hi. unfold handleMsgEditValidator. wpb. apply wp_GetValidator; [intros; wps|]. intros v Hv.
  destruct (si_vals _ _ _ Hi _ _ Hv) as [Ea _]. rewrite <-Ea in *. wps.
  eapply (wp_mono _ (λ w s', same_stake v w ∧ ∃ a o, s' = set_other o (set_auth a s) ∧ sinv 0 none s')).
  { destruct (ev_CommissionRate m) as [rate|]; wps; [|split; [by split|]; by exists (st_auth s), (st_other s); destruct s].
    eapply wp_outside; [apply law_modified|done|done|]. intros _ a o Hi'. wps. split; [by split|eauto]. }
  intros w s1 (Hw&a&o&->&Hi1). unfold SetValidator. wps. split; [by apply (sinv_same _ _ _ v)|].
  etrans; [apply (steady_outside s a o)|]. by apply (steady_same _ v).
Qed.

(** A new validator, without tokens. *)
Definition new_state (k : string) (v : Validator) s : StakeState X :=
  set_byPower (insert k (v_OperatorAddr v))
    (set_byConsAddr (insert (ConsAddr v) (v_OperatorAddr v)) (set_validators (insert (v_OperatorAddr v) v) s)).
Lemma sinv_new L s v k :
  sinv L none s → validators s !! v_OperatorAddr v = None → byConsAddr s !! ConsAddr v = None → is_addr (v_OperatorAddr v) →
  v_Jailed v = false → v_Status v = Unbonded → v_Tokens v = 0 → v_DelegatorShares v = 0 → getValidatorPowerRank v = Ok k →
  sinv L none (new_state k v s).
Proof.
  intros [] Hn Hc Ha Hj Hst Ht Hsh Hk.
  assert (∀ f : Validator → Z, map_sum f (<[v_OperatorAddr v := v]> (validators s)) = map_sum f (validators s) + f v) as Hsum.
  { intros f. rewrite map_sum_insert. unfold at_key. rewrite Hn. lia. }
  assert (BondedTokens v = 0) by (unfold BondedTokens; by rewrite Hst).
  assert (loose_tokens v = 0) by (unfold loose_tokens; by rewrite Hst).
  split; simpl; try done.
  - apply vals_ok_update; [done..|]. split; rewrite ?Ht, ?Hsh; try done. apply Z.divide_0_r.
  - destruct si_pool0 as (p&Hp&Ep). exists p. split; [done|]. rewrite Ep, Hsum. lia.
  - by apply index_new.
  - intros c a. rewrite lookup_insert_Some, (si_cons0 c a). split.
    + intros [[<- <-]|(Hne&w&Hw&Hcw)]; [exists v|exists w]; [by rewrite lookup_insert_eq|].
      rewrite lookup_insert_ne; [done|]. congruence.
    + intros (w&[[<- <-]|[Hne Hw]]%lookup_insert_Some&Hcw); [by left|]. right. split; [|eauto]. intros E.
      pose proof (proj2 (si_cons0 c a) (ex_intro _ w (conj Hw Hcw))). congruence.
  - intros a. rewrite shares_of_update. case_decide; [subst a|done]. rewrite Hsh.
    pose proof (si_shares0 (v_OperatorAddr v)) as E. unfold shares_of in E. by rewrite Hn in E.
  - rewrite Hsum. lia.
Qed.
Lemma steady_new s k v : validators s !! v_OperatorAddr v = None → v_Status v = Unbonded → steady s (new_state k v s).
Proof.
  intros Hn Hst. split; try done. intros a. simpl. destruct (decide (a = v_OperatorAddr v)) as [->|]; [|by rewrite lookup_insert_ne].
  rewrite lookup_insert_eq, Hn. simpl. unfold stage. by rewrite decide_True.
Qed.
Lemma IsValidIrisAtto_ok c : Coin_IsValidIrisAtto c = true → denom c = IrisAtto ∧ 0 ≤ amount c.
Proof.
  unfold Coin_IsValidIrisAtto. rewrite andb_true_iff, bool_decide_eq_true. intros [? Hp]. split; [done|].
  unfold Coin_IsPositive in Hp. autorewrite with sdk_sign in Hp. lia.
Qed.
Lemma wp_handleMsgCreateValidator ctx m s :
  sinv 0 none s → MsgCreateValidator_ValidateBasic m = Ok tt → Forall good_signer (MsgCreateValidator_GetSigners m) →
  wp (handleMsgCreateValidator ctx m) (λ _ s', sinv 0 none s' ∧ steady s s') s.
Proof.
  intros Hi Hb Hg. unfold handleMsgCreateValidator. wpb. apply wp_GetValidator; [|intros; by wps]. intros Hn. wps.
  assert (good_signer (cv_DelegatorAddr m) ∧ is_addr (cv_ValidatorAddr m)) as [Hd Hv].
  { unfold MsgCreateValidator_GetSigners in Hg. apply Forall_cons in Hg as [Hg Hg']. split; [done|].
    destruct (bool_decide (cv_DelegatorAddr m = cv_ValidatorAddr m)) eqn:E.
    - apply bool_decide_eq_true in E. rewrite <-E. apply Hg.
    - apply Forall_cons in Hg' as [[? _] _]. done. }
  assert (Coin_IsValidIrisAtto (cv_Delegation m) = true) as [Hden Hamt]%IsValidIrisAtto_ok.
  { unfold MsgCreateValidator_ValidateBasic in Hb. by destruct (is_nil _), (is_nil _), (Coin_IsValidIrisAtto _). }
  destruct (cv_PubKey m) as [pk|]; [|wps]. wps.
  unfold GetValidatorByConsAddr. wps. destruct (byConsAddr s !! PubKey_Address pk) as [b|] eqn:Ec.
  { apply (si_cons _ _ _ Hi) in Ec as (w&Hw&_). apply wp_GetValidator; [congruence|]. intros. by wps. }
  wps. destruct (cm_Rate _) as [rate|]; [|wps]. wps.
  unfold SetInitialCommission in Hx0. inv_ok Hx0. injection Hx0 as <-. set (v := with_commission _ _).
  unfold SetValidator, SetValidatorByConsAddr, SetNewValidatorByPowerIndex. wps. apply wp_GetPool. intros p _. wps.
  assert (sinv 0 none (new_state x0 v s)) as Hi1 by (by apply sinv_new).
  eapply wp_outside; [apply law_created|done|exact Hi1|]. intros _ a1 o Hi2. wpb.
  eapply wp_mono; [eapply (wp_Delegate ctx _ (cv_Delegation m) v true 0); [exact Hi2| |done..]|].
  { simpl. by rewrite lookup_insert_eq. }
  intros sh s3 (Hi3&_&Hst3). wps. split; [done|].
  etrans; [by apply (steady_new s x0 v)|]. etrans; [apply (steady_outside _ a1 o)|]. exact Hst3.
Qed.
Lemma wp_handleMsgDelegate ctx m s :
  sinv 0 none s → MsgDelegate_ValidateBasic m = Ok tt → good_signer (md_DelegatorAddr m) →
  wp (handleMsgDelegate ctx m) (λ _ s', sinv 0 none s' ∧ steady s s') s.
Proof.
  intros Hi Hb Hd. unfold handleMsgDelegate. wpb. apply wp_GetValidator; [intros; wps|]. intros v Hv.
  destruct (si_vals _ _ _ Hi _ _ Hv) as [Ea _]. rewrite <-Ea in *. wps.
  assert (Coin_IsValidIrisAtto (md_Delegation m) = true) as [Hden Hamt]%IsValidIrisAtto_ok.
  { unfold MsgDelegate_ValidateBasic in Hb. by destruct (is_nil _), (is_nil _), (Coin_IsValidIrisAtto _). }
  eapply wp_mono; [by apply (wp_Delegate ctx _ (md_Delegation m) v true 0)|]. intros sh s1 (Hi1&_&Hst). by wps.
Qed.
Lemma shares_ok_pos d : shares_ok (Some d) = true → 0 ≤ d.
Proof. simpl. unfold Dec_LTE, ZeroDec. destruct (Z.leb_spec d 0); [done|lia]. Qed.
Lemma wp_stake_Handler ctx msg s :
  sinv 0 none s → StakeMsg_ValidateBasic msg = Ok tt → Forall good_signer (StakeMsg_GetSigners msg) →
  wp (stake_Handler ctx msg) (λ _ s', sinv 0 none s' ∧ steady s s') s.
Proof.
  intros Hi Hb Hg. destruct msg as [m|m|m|m|m]; simpl in *.
  - by apply wp_handleMsgCreateValidator.
  - by apply wp_handleMsgEditValidator.
  - apply Forall_cons in Hg as [Hg _]. by apply wp_handleMsgDelegate.
  - apply Forall_cons in Hg as [Hd _]. unfold handleMsgBeginRedelegate, MsgBeginRedelegate_ValidateBasic in *.
    destruct (mr_SharesAmount m) as [d|]; [|wps]. wpb.
    assert (0 ≤ d) by (apply shares_ok_pos; by destruct (is_nil _), (is_nil _), (is_nil _), (shares_ok _)).
    eapply wp_mono; [by apply wp_BeginRedelegation|]. intros. by wps.
  - apply Forall_cons in Hg as [[Hd _] _]. unfold handleMsgBeginUnbonding, MsgBeginUnbonding_ValidateBasic in *.
    destruct (mu_SharesAmount m) as [d|]; [|wps]. wpb.
    assert (0 ≤ d) by (apply shares_ok_pos; by destruct (is_nil _), (is_nil _), (shares_ok _)).
    eapply wp_mono; [by apply wp_BeginUnbonding|]. intros. by wps.
Qed.
End slash.
End StakeSlash.
