(* ===== verification/StakeSet.v ===== *)
(** * Staking: changes of the validator set

    The queue of the unbonding validators and the powers of the last block follow
    the stages of the validators. *)

From Stdlib Require Import Ascii.
From S2P Require Import Prelude SdkErrors Frame IntType GoStrings Denom Coin CoinFacts Dec TimeBytes Gas KVStore Auth Bank BankFacts BankBurn BankFrame StakeTypes Stake StakeFacts StakeInv StakeSlash.
#[local] Open Scope Z_scope.

Module StakeSet.
Import StakeTypes Stake StakeFacts StakeQueue StakeInv StakeOps StakeSlash.

Abbreviation Stages := (ValAddress → option (BondStatus * Z * ConsKey)).

Section set.
Context {X : Type} `{Crypto, ConsCrypto, StakingHooks X, !HookLaws X}.
Implicit Types s : StakeState X.
Definition stages s : Stages := λ a, validators s !! a ≫= stage.
(** When an unbonding validator is due. *)
Definition due_at (o : option (BondStatus * Z * ConsKey)) : option Z :=
  match o with Some (Unbonding, t, _) => Some t | _ => None end.
Definition waiting s (a : ValAddress) : option Z := due_at (stages s a).

(** ** Changes of status *)
(** Only the status, the heights and the time of unbonding differ. *)
Record same_tokens (v w : Validator) : Prop := {
  sk_addr : v_OperatorAddr w = v_OperatorAddr v;
  sk_key : v_ConsPubKey w = v_ConsPubKey v;
  sk_jailed : v_Jailed w = v_Jailed v;
  sk_tokens : v_Tokens w = v_Tokens v;
  sk_shares : v_DelegatorShares w = v_DelegatorShares v }.
Lemma same_tokens_refl v : same_tokens v v.
Proof. by split. Qed.
Lemma same_tokens_trans v w x : same_tokens v w → same_tokens w x → same_tokens v x.
Proof. intros [] []. split; congruence. Qed.
Lemma same_tokens_rank v w : same_tokens v w → getValidatorPowerRank w = getValidatorPowerRank v.
Proof. intros []. unfold getValidatorPowerRank, potential_power, GetPotentialPower. by rewrite sk_tokens0, sk_addr0. Qed.
Lemma reindex_same vals idx v w k :
  vals_ok vals → index_ok vals idx → vals !! v_OperatorAddr v = Some v → same_tokens v w → getValidatorPowerRank v = Ok k →
  reindex k k w idx = idx.
Proof.
  intros Hv Hi Ho [Ea _ Ej _ _] Hk. unfold reindex. rewrite Ea, Ej. destruct (v_Jailed v) eqn:Hj.
  - apply delete_id. destruct (idx !! k) as [b|] eqn:Eb; [|done]. apply Hi in Eb as (x&Hx&Hxj&Hxk).
    destruct (Hv _ _ Ho) as [_ Ha]. destruct (Hv _ _ Hx) as [Eb Hb].
    assert (v_OperatorAddr x = v_OperatorAddr v) as E by (eapply rank_inj; [apply Hb|apply Ha|done..]).
    rewrite <-Eb, E in Hx. congruence.
  - rewrite insert_delete_eq. apply insert_id, Hi. eauto.
Qed.
Definition restate (p : Pool) (a : AuthState) (v : Validator) s : StakeState X :=
  set_pool (Some p) (set_validators (insert (v_OperatorAddr v) v) (set_auth a s)).
Lemma sinv_restate L D s v w p p' a' :
  sinv L D s → validators s !! v_OperatorAddr v = Some v → same_tokens v w → pool s = Some p →
  moved v w p p' (st_auth s) a' 0 → sinv L D (restate p' a' w s).
Proof.
  intros [] Hv Hs Hp [Hmp (n&Hsh&Hg)]. pose proof (same_tokens_rank _ _ Hs) as Hr. destruct Hs as [Ea Ec Ej Et Esh].
  destruct si_pool0 as (q&Hq&Eq). assert (q = p) as -> by congruence. split; simpl; rewrite ?Ea; try done.
  - by eapply shifted_wf.
  - by eapply sh_ok.
  - apply vals_ok_update; [done..|]. destruct (si_vals0 _ _ Hv) as [_ []]. split; rewrite ?Ea, ?Et, ?Esh; done.
  - exists p'. split; [done|]. rewrite (sum_update _ _ _ v) by done. unfold new_pool in Hmp. lia.
  - intros k a. rewrite (si_index0 k a). destruct (decide (a = v_OperatorAddr v)) as [->|].
    + rewrite lookup_insert_eq, Hv. split; intros (x&[= <-]&Hj&Hk); eexists; (split; [done|]); split; congruence.
    + by rewrite lookup_insert_ne.
  - eapply cons_ok_update; [done..|]. unfold ConsAddr. by rewrite Ec.
  - intros a. rewrite shares_of_update, <-si_shares0. case_decide; [subst|done]. unfold shares_of. by rewrite Hv, Esh.
  - rewrite (sum_update _ _ _ v) by done. unfold gap in *. rewrite (shifted_circulating _ _ _ Hsh), (sh_amt _ _ _ Hsh). lia.
Qed.

(** What a change of the status of [v] to [w] leaves of the rest. *)
Record moves_to (v w : Validator) s s' : Prop := {
  mt_inv : sinv 0 none s';
  mt_vals : validators s' = <[v_OperatorAddr v := w]> (validators s);
  mt_index : byPower s' = byPower s;
  mt_last : lastPower s' = lastPower s;
  mt_total : lastTotalPower s' = lastTotalPower s;
  mt_params : st_params s' = st_params s;
  mt_same : same_tokens v w;
  mt_queue : queue_ok (waiting s) (valQueue s) → queue_ok (waiting s') (valQueue s') }.
Lemma stages_insert s s' v w :
  validators s' = <[v_OperatorAddr v := w]> (validators s) →
  stages s' (v_OperatorAddr v) = stage w ∧ ∀ b, b ≠ v_OperatorAddr v → stages s' b = stages s b.
Proof. intros E. unfold stages. rewrite E, lookup_insert_eq. split; [done|]. intros b Hb. by rewrite lookup_insert_ne. Qed.
Lemma stages_stored s v : validators s !! v_OperatorAddr v = Some v → stages s (v_OperatorAddr v) = stage v.
Proof. unfold stages. by intros ->. Qed.

Lemma set_byPower_id g s : g (byPower s) = byPower s → set_byPower g s = s.
Proof. intros E. unfold set_byPower. rewrite E. by destruct s. Qed.
(** The state after the pool, the record and the index were written, in the order of
    the code. *)
Lemma restate_index k v w p p' a' s :
  sinv 0 none s → validators s !! v_OperatorAddr v = Some v → same_tokens v w → getValidatorPowerRank v = Ok k →
  pool s = Some p → moved v w p p' (st_auth s) a' 0 →
  sinv 0 none (restate p' a' w s) ∧
  (if v_Jailed w then restate p' a' w (set_byPower (delete k) s)
   else set_byPower (insert k (v_OperatorAddr w)) (restate p' a' w (set_byPower (delete k) s))) = restate p' a' w s.
Proof.
  intros Hi Hv Hs Hk Hp Hm. split; [by eapply sinv_restate|].
  pose proof (reindex_same _ _ v w k (si_vals _ _ _ Hi) (si_index _ _ _ Hi) Hv Hs Hk) as E. unfold reindex in E.
  destruct (v_Jailed w).
  - by rewrite (set_byPower_id _ _ E).
  - change (restate p' a' w (set_byPower (λ m, <[k := v_OperatorAddr w]> (delete k m)) s) = restate p' a' w s).
    by rewrite (set_byPower_id (λ m, <[k := v_OperatorAddr w]> (delete k m)) s E).
Qed.
Lemma wp_bondValidator ctx v s :
  sinv 0 none s → validators s !! v_OperatorAddr v = Some v →
  wp (bondValidator ctx v) (λ w s', moves_to v w s s' ∧ v_Status w = Bonded) s.
Proof.
  intros Hi Hv. unfold bondValidator, DeleteValidatorByPowerIndex. wpb. apply wp_GetPool. intros p Hp. wps.
  rename x into k, Hx into Hk. apply wp_zoom. intros [w p'] a' Hr. simpl in Hr. apply UpdateStatus_ok in Hr as [-> Hm].
  set (w := with_status Bonded _). assert (same_tokens v w) as Hs by by split.
  unfold SetPool, SetValidator. wps. apply wp_SetIndex. intros k' Hk'.
  assert (v_Jailed w = false → k' = k) as Ek.
  { intros Hj. specialize (Hk' Hj). rewrite (same_tokens_rank _ _ Hs) in Hk'. congruence. }
  assert (moved v w p p' (st_auth s) a' 0) as Hm' by (by destruct Hm; split).
  destruct (restate_index k v w p p' a' s Hi Hv Hs Hk Hp Hm') as [Hi1 E].
  match goal with |- wp _ _ ?s1 => replace s1 with (restate p' a' w s) end.
  2:{ rewrite <-E. destruct (v_Jailed w) eqn:Ej; [done|]. by rewrite (Ek eq_refl). }
  unfold DeleteValidatorQueue, GetValidatorQueueTimeSlice, DeleteValidatorQueueTimeSlice, SetValidatorQueueTimeSlice. wps.
  eapply (wp_mono _ (λ _ s2, s2 = set_valQueue (dequeue (v_OperatorAddr w) (v_UnbondingMinTime w)) (restate p' a' w s))).
  { unfold dequeue. case_bool_decide as Eb; wps; unfold queued; simpl in *; destruct s; unfold set_valQueue; simpl in *;
      [by rewrite bool_decide_eq_true_2|by rewrite bool_decide_eq_false_2]. }
  intros _ s2 ->. assert (sinv 0 none (set_valQueue (dequeue (v_OperatorAddr w) (v_UnbondingMinTime w)) (restate p' a' w s))) as Hi2 by same_stores.
  wpb. eapply wp_outside; [apply law_bonded|done|exact Hi2|]. intros _ a3 x3 Hi3. wps. split; [|done]. split; try done. simpl.
  intros Hq. eapply (queue_dequeue (waiting s)); [..|exact Hq].
  - intros b Hb. unfold waiting, stages. simpl. by rewrite lookup_insert_ne.
  - intros t. unfold waiting. rewrite (stages_stored s v Hv). unfold stage. by case_decide; [|destruct (v_Status v)]; intros [= <-].
  - unfold waiting, stages. simpl. by rewrite lookup_insert_eq.
Qed.
Lemma wp_beginUnbonding ctx v s :
  sinv 0 none s → validators s !! v_OperatorAddr v = Some v →
  wp (beginUnbondingValidator ctx v) (λ w s', moves_to v w s s' ∧ v_Status v = Bonded ∧ v_Status w = Unbonding) s.
Proof.
  intros Hi Hv. unfold beginUnbondingValidator, DeleteValidatorByPowerIndex, GetParams. wpb. apply wp_GetPool. intros p Hp. wps.
  rename x into k, Hx into Hk. apply wp_expect. intros Hst%bool_decide_eq_true. wpb. apply wp_zoom. intros [w0 p'] a' Hr. simpl in Hr.
  apply UpdateStatus_ok in Hr as [-> Hm]. unfold SetPool, SetValidator. wps.
  set (w := with_unbonding _ _ _). assert (same_tokens v w) as Hs by by split. apply wp_SetIndex. intros k' Hk'.
  assert (v_Jailed w = false → k' = k) as Ek.
  { intros Hj. specialize (Hk' Hj). rewrite (same_tokens_rank _ _ Hs) in Hk'. congruence. }
  assert (moved v w p p' (st_auth s) a' 0) as Hm' by (by destruct Hm; split).
  destruct (restate_index k v w p p' a' s Hi Hv Hs Hk Hp Hm') as [Hi1 E].
  match goal with |- wp _ _ ?s1 => replace s1 with (restate p' a' w s) end.
  2:{ rewrite <-E. destruct (v_Jailed w) eqn:Ej; [done|]. by rewrite (Ek eq_refl). }
  unfold InsertValidatorQueue, GetValidatorQueueTimeSlice, SetValidatorQueueTimeSlice. wps.
  set (s2 := set_valQueue _ _). assert (sinv 0 none s2) as Hi2 by same_stores.
  eapply wp_outside; [apply law_unbonding|done|exact Hi2|]. intros _ a3 x3 Hi3. wps. split; [|done]. split; try done. simpl.
  intros Hq. change (valQueue s2) with (enqueue (v_OperatorAddr v) (v_UnbondingMinTime w) (valQueue s)).
  eapply (queue_enqueue (waiting s)); [..|exact Hq].
  - intros b Hb. unfold waiting, stages. simpl. by rewrite lookup_insert_ne.
  - unfold waiting. rewrite (stages_stored s v Hv). unfold stage. by rewrite Hst.
  - unfold waiting, stages. simpl. by rewrite lookup_insert_eq.
Qed.

(** ** Validators whose unbonding is over *)
Definition last_ok (f : Stages) (last : gmap ValAddress Int) : Prop :=
  ∀ a, is_Some (last !! a) ↔ ∃ t c, f a = Some (Bonded, t, c).
Record set_ok s : Prop := { so_last : last_ok (stages s) (lastPower s); so_queue : queue_ok (waiting s) (valQueue s) }.
Lemma set_ok_steady s s' : steady s s' → set_ok s → set_ok s'.
Proof.
  intros [E1 _ E2 _ E3] [Hl Hq]. split.
  - intros a. rewrite E1, (Hl a). unfold stages. by rewrite E3.
  - rewrite E2. eapply queue_ext; [|exact Hq]. intros a. unfold waiting, stages. by rewrite E3.
Qed.

Record retired (a : ValAddress) s s' : Prop := {
  rt_inv : sinv 0 none s';
  rt_others b : b ≠ a → validators s' !! b = validators s !! b;
  rt_self : stages s' a = None;
  rt_val w : validators s' !! a = Some w → ∃ v, validators s !! a = Some v ∧ same_tokens v w;
  rt_last : lastPower s' = lastPower s;
  rt_total : lastTotalPower s' = lastTotalPower s;
  rt_params : st_params s' = st_params s;
  rt_queue : valQueue s' = valQueue s }.
Lemma waiting_stage s a t : waiting s a = Some t → ∃ c, stages s a = Some (Unbonding, t, c).
Proof. unfold waiting, due_at. repeat case_match; try done. intros [= ->]. eauto. Qed.
Lemma wp_unbond_mature ctx a t s :
  sinv 0 none s → waiting s a = Some t → wp (unbond_mature ctx a) (λ _ s', retired a s s') s.
Proof.
  intros Hi [c Ha]%waiting_stage. unfold unbond_mature. wpb. apply wp_GetValidator.
  { intros Hn. unfold stages in Ha. by rewrite Hn in Ha. }
  intros v Hv. destruct (si_vals _ _ _ Hi _ _ Hv) as [<- Hvo]. wpb. apply wp_expect. intros _.
  unfold unbondingToUnbonded, completeUnbondingValidator. wpb. apply wp_expect. intros Hst%bool_decide_eq_true.
  wpb. apply wp_GetPool. intros p Hp. wpb. apply wp_zoom. intros [w p'] a' Hr. simpl in Hr. apply UpdateStatus_ok in Hr as [-> Hm].
  unfold SetPool, SetValidator. wps. set (w := with_status Unbonded v).
  assert (same_tokens v w) as Hs by by split.
  assert (sinv 0 none (restate p' a' w s)) as Hi1 by (by eapply sinv_restate).
  assert (retired (v_OperatorAddr v) s (restate p' a' w s)) as Hret.
  { split; try done; [intros b Hb; simpl; by rewrite lookup_insert_ne|unfold stages; simpl; by rewrite lookup_insert_eq|].
    intros x. simpl. rewrite lookup_insert_eq. intros [= <-]. eauto. }
  change (wp (if Dec_IsZero (v_DelegatorShares v) then RemoveValidator ctx (v_OperatorAddr v) else ret tt)
            (λ _, retired (v_OperatorAddr v) s) (restate p' a' w s)).
  destruct (Dec_IsZero (v_DelegatorShares v)) eqn:Ez; [|by wps]. apply Dec_IsZero_iff in Ez.
  eapply (wp_RemoveValidator ctx w _ 0 none); [done|simpl; by rewrite lookup_insert_eq|done|].
  intros k a3 x3 _ s3 Hi3. split; try done.
  - intros b Hb. simpl. rewrite lookup_delete_ne, lookup_insert_ne by done. done.
  - unfold stages. simpl. by rewrite lookup_delete_eq.
  - intros x. simpl. by rewrite lookup_delete_eq.
Qed.

(** What is left after some slices of the queue. *)
Record faded s s' : Prop := {
  fa_vals a : waiting s a = None → validators s' !! a = validators s !! a;
  fa_same a w : validators s' !! a = Some w → ∃ v, validators s !! a = Some v ∧ same_tokens v w;
  fa_gone a t : waiting s' a = Some t → waiting s a = Some t;
  fa_new a t c : stages s' a = Some (Bonded, t, c) → stages s a = Some (Bonded, t, c);
  fa_last : lastPower s' = lastPower s;
  fa_total : lastTotalPower s' = lastTotalPower s;
  fa_params : st_params s' = st_params s }.
Record matured s s' : Prop := {
  ma_inv : sinv 0 none s';
  ma_queue : queue_ok (waiting s') (valQueue s');
  ma_faded : faded s s' }.
Lemma retired_stages a s s' b : retired a s s' → b ≠ a → stages s' b = stages s b.
Proof. intros Hr Hb. unfold stages. by rewrite (rt_others _ _ _ Hr b Hb). Qed.
(** Within the slice [k], of which [l] remains. *)
Record in_slice s0 (k : string) (q : gmap string (list ValAddress)) (l : list ValAddress) s : Prop := {
  is_queue : valQueue s = q;
  is_ok : queue_ok (waiting s) (<[k := l]> q);
  is_faded : faded s0 s;
  is_inv : sinv 0 none s }.
Lemma wp_slice ctx s0 k q l s :
  in_slice s0 k q l s → wp (for_each l (unbond_mature ctx)) (λ _, in_slice s0 k q []) s.
Proof.
  intros Hs. apply (wp_for_each_list _ _ (in_slice s0 k q)); [done|]. clear. intros a l s [Eq Hok Hm Hi].
  destruct (qo_slice _ _ Hok k (a :: l)) as [_ Hin]; [by rewrite lookup_insert_eq|].
  destruct (Hin a) as (t&Ha&_); [set_solver|]. eapply wp_mono; [exact (wp_unbond_mature ctx a t s Hi Ha)|].
  intros [] s1 Hr. cbv beta in Hr.
  assert (Hst : ∀ b, b ≠ a → stages s1 b = stages s b) by (intros; by eapply retired_stages).
  assert (Hwa : waiting s1 a = None) by (unfold waiting; by rewrite (rt_self _ _ _ Hr)).
  assert (Hwt : ∀ b, b ≠ a → waiting s1 b = waiting s b) by (intros; unfold waiting; by rewrite Hst).
  destruct Hm as [M1 M0 M2 M3 M4 M5 M6]. split; [rewrite <-Eq; apply Hr| |split|apply Hr].
  - by eapply (queue_pop (waiting s) _ _ a).
  - intros b Hb. rewrite <-M1 by done. apply Hr. intros ->. apply M2 in Ha. congruence.
  - intros b w Hw. destruct (decide (b = a)) as [->|Hne]; [|rewrite (rt_others _ _ _ Hr) in Hw by done; by apply M0].
    destruct (rt_val _ _ _ Hr _ Hw) as (v&Hv&Hs). destruct (M0 _ _ Hv) as (v0&Hv0&Hs0). exists v0. split; [done|by eapply same_tokens_trans].
  - intros b t' Hb. destruct (decide (b = a)) as [Eb|Hne]; [congruence|]. rewrite Hwt in Hb by done. by apply M2.
  - intros b t' c' Hb. destruct (decide (b = a)) as [Eb|Hne]; [subst; by rewrite (rt_self _ _ _ Hr) in Hb|]. rewrite Hst in Hb by done. by apply M3.
  - rewrite <-M4. apply Hr.
  - rewrite <-M5. apply Hr.
  - rewrite <-M6. apply Hr.
Qed.
Record slices_left s0 (l0 l : list (string * list ValAddress)) s : Prop := {
  sl_matured : matured s0 s;
  sl_nodup : NoDup l.*1;
  sl_there k x : (k, x) ∈ l → valQueue s !! k = Some x;
  sl_done k : k ∈ l0.*1 → k ∈ l.*1 ∨ valQueue s !! k = None;
  sl_sub k x : valQueue s !! k = Some x → valQueue s0 !! k = Some x }.
Lemma matured_refl s : sinv 0 none s → queue_ok (waiting s) (valQueue s) → matured s s.
Proof. intros Hi Hq. split; [done..|]. split; try done. intros a w Hw. exists w. split; [done|apply same_tokens_refl]. Qed.
(** After the loop no validator is unbonding whose time has come. *)
Lemma wp_UnbondAllMature ctx s :
  sinv 0 none s → queue_ok (waiting s) (valQueue s) →
  wp (UnbondAllMatureValidatorQueue ctx) (λ _ s', matured s s' ∧
    ∀ a t, waiting s' a = Some t → str_lt (FormatTimeBytes (BlockTime ctx)) (FormatTimeBytes t)) s.
Proof.
  intros Hi Hq. unfold UnbondAllMatureValidatorQueue. wps. set (l0 := due (valQueue s) (BlockTime ctx)).
  eapply wp_mono; [apply (wp_for_each_list _ _ (slices_left s l0))|].
  - split; [by apply matured_refl|apply due_NoDup|by intros k x [? _]%due_elem|by left|done].
  - clear. intros [k x] l s1 [[M1 M2 M3] Hn Hth Hdone Hsub]. cbn in Hn. apply NoDup_cons in Hn as [Hkl Hn].
    assert (valQueue s1 !! k = Some x) as Hk by (apply Hth; set_solver). wpb.
    eapply wp_mono; [apply (wp_slice ctx s k (valQueue s1) x s1)|].
    { split; [done| |done|done]. by rewrite insert_id. }
    intros _ s2 [Eq Hok Hm Hi2]. wps. split.
    + split; [same_stores|simpl; rewrite Eq; by apply queue_clear|by destruct Hm].
    + done.
    + intros j y Hj. simpl. rewrite Eq. assert (j ∈ l.*1) by (apply (list_elem_of_fmap_2 fst) in Hj; done).
      rewrite lookup_delete_ne by (intros <-; done). apply Hth. set_solver.
    + intros j Hj. simpl. rewrite Eq. destruct (decide (j = k)) as [->|Hne]; [right; by rewrite lookup_delete_eq|].
      rewrite lookup_delete_ne by done. destruct (Hdone j Hj) as [Hj'|]; [left; set_solver|by right].
    + intros j y Hj. simpl in Hj. apply lookup_delete_Some in Hj as [Hne Hj]. rewrite Eq in Hj. by apply Hsub.
  - intros _ s' [Hm _ _ Hdone Hsub]. split; [done|]. intros a t Ha.
    destruct (qo_in _ _ (ma_queue _ _ Hm) _ _ Ha) as (l&Hl&_).
    destruct (decide (str_lt (FormatTimeBytes (BlockTime ctx)) (FormatTimeBytes t))) as [|Hlt]; [done|]. exfalso.
    destruct (Hdone (FormatTimeBytes t)) as [?%elem_of_nil|E]; [|done|congruence].
    apply (list_elem_of_fmap_2 fst _ (FormatTimeBytes t, l)), due_elem. split; [by apply Hsub|done].
Qed.
Lemma matured_last s s' : matured s s' → last_ok (stages s) (lastPower s) → last_ok (stages s') (lastPower s').
Proof.
  intros [_ _ Hm] Hl a. rewrite (fa_last _ _ Hm), (Hl a). split; intros (t&c&Ha); exists t, c; [|by apply Hm].
  unfold stages. rewrite (fa_vals _ _ Hm); [done|]. unfold waiting. by rewrite Ha.
Qed.
End set.
End StakeSet.
