(* ===== verification/StakeApply.v ===== *)
(** * Staking: the validator set of a block

    [ApplyAndReturnValidatorSetUpdates] bonds the validators of highest power, and
    the updates it returns keep the set of Tendermint equal to the powers it
    records. *)

From Stdlib Require Import Ascii.
From S2P Require Import Prelude SdkErrors Frame IntType GoStrings Denom Coin CoinFacts Dec TimeBytes Gas KVStore Auth Bank BankFacts BankBurn BankFrame StakeTypes Stake StakeFacts StakeInv StakeSlash StakeSet.
#[local] Open Scope Z_scope.

Module StakeApply.
Import StakeTypes Stake StakeFacts StakeQueue StakeInv StakeOps StakeSlash StakeSet.

(** ** The set of Tendermint: an update of power zero removes a key *)
Definition tm_update (m : gmap ConsKey Z) (u : ValidatorUpdate) : gmap ConsKey Z :=
  if decide (vu_Power u = 0) then delete (vu_PubKey u) m else <[vu_PubKey u := vu_Power u]> m.
Definition tm_rel (f : Stages) (last : gmap ValAddress Int) (m : gmap ConsKey Z) : Prop :=
  ∀ key p, m !! key = Some p ↔ ∃ a t, f a = Some (Bonded, t, key) ∧ last !! a = Some p.
Definition one_key (f : Stages) : Prop :=
  ∀ a b x y t u key, f a = Some (x, t, key) → f b = Some (y, u, key) → a = b.
Lemma tm_rel_insert f f' last m a t key p :
  tm_rel f last m → one_key f' → f' a = Some (Bonded, t, key) → (∀ b, b ≠ a → f' b = f b) →
  (∀ u k, f a = Some (Bonded, u, k) → k = key) →
  tm_rel f' (<[a := p]> last) (<[key := p]> m).
Proof.
  intros Hm H1 Ha Hf Hk k q. rewrite lookup_insert_Some, (Hm k q). split.
  - intros [[<- <-]|(Hne&b&u&Hb&Hl)]; [exists a, t; by rewrite lookup_insert_eq|].
    exists b, u. assert (b ≠ a) by (intros ->; by apply Hne, eq_sym, (Hk u)). by rewrite Hf, lookup_insert_ne.
  - intros (b&u&Hb&Hl). destruct (decide (b = a)) as [->|Hba].
    + rewrite lookup_insert_eq in Hl. left. split; congruence.
    + right. rewrite lookup_insert_ne in Hl by done. split; [|exists b, u; by rewrite <-Hf].
      intros ->. apply Hba. by eapply H1.
Qed.
Lemma tm_rel_delete f f' last m a t key :
  tm_rel f last m → one_key f → f a = Some (Bonded, t, key) → (∀ u k, f' a ≠ Some (Bonded, u, k)) → (∀ b, b ≠ a → f' b = f b) →
  tm_rel f' (delete a last) (delete key m).
Proof.
  intros Hm H1 Ha Hf' Hf k q. rewrite lookup_delete_Some, (Hm k q). split.
  - intros (Hne&b&u&Hb&Hl). assert (b ≠ a) by (intros ->; congruence). exists b, u. by rewrite Hf, lookup_delete_ne.
  - intros (b&u&Hb&[Hba Hl]%lookup_delete_Some). rewrite Hf in Hb by done. split; [|eauto]. intros ->. apply Hba. by eapply H1.
Qed.
Lemma tm_rel_ext f f' last m :
  (∀ a t k, f a = Some (Bonded, t, k) → ∃ u, f' a = Some (Bonded, u, k)) →
  (∀ a t k, is_Some (last !! a) → f' a = Some (Bonded, t, k) → ∃ u, f a = Some (Bonded, u, k)) →
  tm_rel f last m → tm_rel f' last m.
Proof.
  intros H1 H2 Hm k p. rewrite (Hm k p). split; intros (a&t&Ha&Hl).
  - destruct (H1 _ _ _ Ha) as [u Hu]. eauto.
  - destruct (H2 a t k) as [u Hu]; eauto.
Qed.

Section apply.
Context {X : Type} `{Crypto, ConsCrypto, StakingHooks X, !HookLaws X}.
Implicit Types s : StakeState X.

Lemma stage_key v x t k : stage v = Some (x, t, k) → v_ConsPubKey v = k ∧ v_Status v = x ∧ v_UnbondingMinTime v = t.
Proof. unfold stage. case_decide; [done|]. by intros [= <- <- <-]. Qed.
Lemma stage_bonded v : v_Status v = Bonded → stage v = Some (Bonded, v_UnbondingMinTime v, v_ConsPubKey v).
Proof. intros E. unfold stage. by rewrite E. Qed.
(** Two validators have different keys, since they have different consensus addresses. *)
Lemma sinv_one_key L D s : sinv L D s → one_key (stages s).
Proof.
  intros Hi a b x y t u key. unfold stages. destruct (validators s !! a) as [v|] eqn:Ea; [|done].
  destruct (validators s !! b) as [w|] eqn:Eb; [|done]. simpl. intros [Ev _]%stage_key [Ew _]%stage_key.
  pose proof (proj2 (si_cons _ _ _ Hi (PubKey_Address key) a)) as Ha. pose proof (proj2 (si_cons _ _ _ Hi (PubKey_Address key) b)) as Hb.
  rewrite Ha in Hb; [|exists v; split; [done|by unfold ConsAddr; rewrite Ev]].
  assert (Some a = Some b) as [= ->]; [|done]. apply Hb. exists w. split; [done|by unfold ConsAddr; rewrite Ew].
Qed.
Lemma tm_power_bonded v w : same_tokens v w → v_Status w = Bonded → tm_power w = potential_power v.
Proof. intros Hs Hb. unfold tm_power, potential_power, GetPower, GetPotentialPower, BondedTokens. by rewrite Hb, decide_True, (sk_tokens _ _ Hs). Qed.

(** ** Bonding *)
Definition power_at s (a : ValAddress) : Z := default 0 (lastPower s !! a).
Definition powers s (l : list ValAddress) : Z := foldr (λ a z, power_at s a + z) 0 l.
Record bond_inv s0 m0 (bonded : list ValAddress) (acc : SetChange) s : Prop := {
  bi_sinv : sinv 0 none s;
  bi_queue : queue_ok (waiting s) (valQueue s);
  bi_index : byPower s = byPower s0;
  bi_params : st_params s = st_params s0;
  bi_total : lastTotalPower s = lastTotalPower s0;
  bi_vals a : a ∉ bonded → validators s !! a = validators s0 !! a;
  bi_last a : a ∉ bonded → lastPower s !! a = lastPower s0 !! a;
  bi_done a : a ∈ bonded → ∃ v0 v p, validators s0 !! a = Some v0 ∧ validators s !! a = Some v ∧ same_tokens v0 v ∧
    v_Status v = Bonded ∧ v_Jailed v0 = false ∧ potential_power v0 = Ok p ∧ p ≠ 0 ∧ lastPower s !! a = Some p;
  bi_acc a : sc_last acc !! a = if decide (a ∈ bonded) then None else lastPower s0 !! a;
  bi_power : sc_totalPower acc = powers s bonded;
  bi_none : sc_updates acc = [] → lastPower s = lastPower s0;
  bi_tm : tm_rel (stages s) (lastPower s) (foldl tm_update m0 (sc_updates acc)) }.
Definition stops s0 (max : Z) (bonded rest : list ValAddress) : Prop :=
  rest = [] ∨ max ≤ Z.of_nat (length bonded) ∨
  ∃ a rest' v, rest = a :: rest' ∧ validators s0 !! a = Some v ∧ potential_power v = Ok 0.

Lemma wp_bond_if ctx v s :
  sinv 0 none s → validators s !! v_OperatorAddr v = Some v →
  wp (match v_Status v with
      | Unbonded => unbondedToBonded ctx v | Unbonding => unbondingToBonded ctx v | Bonded => ret v
      end) (λ w s', moves_to v w s s' ∧ v_Status w = Bonded) s.
Proof.
  intros Hi Hv. destruct (v_Status v) eqn:E; unfold unbondedToBonded, unbondingToBonded; wpb.
  - apply wp_expect. intros _. by apply wp_bondValidator.
  - apply wp_expect. intros _. by apply wp_bondValidator.
  - wps. split; [|done]. split; try done. by rewrite insert_id.
Qed.

Lemma powers_ext s s' l : (∀ a, a ∈ l → lastPower s' !! a = lastPower s !! a) → powers s' l = powers s l.
Proof.
  induction l as [|a l IH]; intros E; [done|]. unfold powers, power_at in *. cbn [foldr].
  rewrite IH by (intros; apply E; set_solver). by rewrite E by set_solver.
Qed.
Lemma powers_app s l a : powers s (l ++ [a]) = powers s l + power_at s a.
Proof. induction l as [|b l IH]; unfold powers in *; simpl; [lia|]. rewrite IH. lia. Qed.

Section loop.
Context (s0 : StakeState X) (m0 : gmap ConsKey Z).
Context (Hlast : last_ok (stages s0) (lastPower s0)).

(** One validator more.  [s1] is the state after it was bonded, [s2] after its power
    was recorded. *)
Lemma bond_next bonded acc s s1 s2 a v0 w p total updates :
  bond_inv s0 m0 bonded acc s → a ∉ bonded → validators s0 !! a = Some v0 → v_OperatorAddr v0 = a → v_Jailed v0 = false →
  potential_power v0 = Ok p → p ≠ 0 → moves_to v0 w s s1 → v_Status w = Bonded →
  sinv 0 none s2 → validators s2 = validators s1 → valQueue s2 = valQueue s1 → byPower s2 = byPower s1 → st_params s2 = st_params s1 →
  lastTotalPower s2 = lastTotalPower s1 →
  (lastPower s1 !! a = Some p ∧ lastPower s2 = lastPower s1 ∧ updates = sc_updates acc ∨
   lastPower s2 = <[a := p]> (lastPower s1) ∧ updates = sc_updates acc ++ [mkUpdate (v_ConsPubKey w) p]) →
  total = sc_totalPower acc + p →
  bond_inv s0 m0 (bonded ++ [a]) (mkChange (delete a (sc_last acc)) total updates) s2.
Proof.
  intros [B1 B2 B3 B4 B5 B6 B7 B8 B9 B10 B11 B12] Ha Hv0 Eop Hj Hp Hp0 Hm Hw Hi2 Ev Eq Ei Ep Et Hupd ->.
  assert (Hlp : lastPower s2 !! a = Some p ∧ ∀ b, b ≠ a → lastPower s2 !! b = lastPower s !! b).
  { rewrite <-(mt_last _ _ _ _ Hm). destruct Hupd as [(E1&E2&_)|(E1&_)]; rewrite ?E1, ?E2; [done|].
    rewrite lookup_insert_eq. split; [done|]. intros b Hb. by rewrite lookup_insert_ne. }
  assert (Hvb : ∀ b, b ≠ a → validators s2 !! b = validators s !! b).
  { intros b Hb. by rewrite Ev, (mt_vals _ _ _ _ Hm), Eop, lookup_insert_ne. }
  assert (Hva : validators s2 !! a = Some w) by by rewrite Ev, (mt_vals _ _ _ _ Hm), Eop, lookup_insert_eq.
  assert (Hsb : ∀ b, b ≠ a → stages s2 b = stages s b) by (intros b Hb; unfold stages; by rewrite Hvb).
  assert (Hsa : stages s2 a = Some (Bonded, v_UnbondingMinTime w, v_ConsPubKey w)).
  { unfold stages. rewrite Hva. by apply stage_bonded. }
  assert (Hs0a : stages s a = stage v0) by (unfold stages; by rewrite (B6 _ Ha), Hv0).
  destruct Hlp as [Hlpa Hlpb]. split; try done; simpl.
  - replace (waiting s2) with (waiting s1) by (unfold waiting, stages; by rewrite Ev). rewrite Eq. by apply (mt_queue _ _ _ _ Hm).
  - rewrite Ei, (mt_index _ _ _ _ Hm). done.
  - rewrite Ep, (mt_params _ _ _ _ Hm). done.
  - rewrite Et, (mt_total _ _ _ _ Hm). done.
  - intros b Hb. rewrite Hvb by set_solver. apply B6. set_solver.
  - intros b Hb. rewrite Hlpb by set_solver. apply B7. set_solver.
  - intros b Hb. destruct (decide (b = a)) as [->|Hne].
    + exists v0, w, p. split_and!; try done. apply Hm.
    + rewrite Hvb, Hlpb by done. apply B8. set_solver.
  - intros b. destruct (decide (b = a)) as [->|Hne].
    + rewrite lookup_delete_eq, decide_True by set_solver. done.
    + rewrite lookup_delete_ne, B9 by done. destruct (decide (b ∈ bonded)), (decide (b ∈ bonded ++ [a])); set_solver.
  - rewrite powers_app, B10, (powers_ext s s2) by (intros b Hb; apply Hlpb; by intros ->). unfold power_at. by rewrite Hlpa.
  - intros Enil. destruct Hupd as [(E1&E2&->)|(_&->)]; [|by apply app_nil in Enil as [_ ?]]. by rewrite E2, (mt_last _ _ _ _ Hm), B11.
  - destruct Hupd as [(E1&E2&->)|(E2&->)].
    + rewrite E2, (mt_last _ _ _ _ Hm). rewrite (mt_last _ _ _ _ Hm), (B7 _ Ha) in E1.
      destruct (proj1 (Hlast a)) as (t&k&Hst); [by eexists|]. unfold stages in Hst. rewrite Hv0 in Hst. simpl in Hst.
      destruct (stage_key _ _ _ _ Hst) as (Ek&Est&_).
      apply (tm_rel_ext (stages s)); [..|done].
      * intros b u c Hb. destruct (decide (b = a)) as [->|Hne]; [|rewrite Hsb by done; eauto].
        rewrite Hsa. rewrite Hs0a in Hb. apply stage_key in Hb as (<-&_). rewrite (sk_key _ _ (mt_same _ _ _ _ Hm)). eauto.
      * intros b u c _ Hb. destruct (decide (b = a)) as [->|Hne]; [|rewrite Hsb in Hb by done; eauto].
        rewrite Hsa in Hb. injection Hb as <- <-. rewrite Hs0a, (stage_bonded _ Est), (sk_key _ _ (mt_same _ _ _ _ Hm)). eauto.
    + rewrite E2, foldl_app, (mt_last _ _ _ _ Hm). cbn [foldl]. unfold tm_update at 1. cbn [vu_Power vu_PubKey]. rewrite decide_False by done.
      eapply (tm_rel_insert (stages s)); [done|by eapply sinv_one_key|done|done|].
      intros u k Hk. rewrite Hs0a in Hk. apply stage_key in Hk as (<-&_). by rewrite (sk_key _ _ (mt_same _ _ _ _ Hm)).
Qed.

Definition listed (l : list ValAddress) : Prop :=
  NoDup l ∧ ∀ a, a ∈ l → ∃ v, validators s0 !! a = Some v ∧ v_Jailed v = false ∧ v_OperatorAddr v = a ∧ is_addr a.
Lemma wp_bond_loop ctx max l bonded acc s :
  listed (bonded ++ l) → bond_inv s0 m0 bonded acc s → Z.of_nat (length bonded) ≤ max →
  wp (bond_loop ctx max (Z.of_nat (length bonded)) l acc)
    (λ acc' s', ∃ bonded' rest, bonded ++ l = bonded' ++ rest ∧ bond_inv s0 m0 bonded' acc' s' ∧
       Z.of_nat (length bonded') ≤ max ∧ stops s0 max bonded' rest) s.
Proof.
  revert bonded acc s. induction l as [|a l IH]; intros bonded acc s Hl Hb Hmax; cbn [bond_loop].
  { wps. exists bonded, []. rewrite app_nil_r in *. split_and!; try done. by left. }
  destruct Hl as [Hnd Hin]. destruct (Hin a) as (v&Hv&Hj&Eop&Haddr); [set_solver|].
  assert (a ∉ bonded) as Ha. { apply NoDup_app in Hnd as (_&Hd&_). intros Hab. apply (Hd a Hab). set_solver. }
  destruct (Z.ltb_spec (Z.of_nat (length bonded)) max) as [Hlt|Hge]; cbn [negb].
  2:{ wps. exists bonded, (a :: l). split_and!; try done. right. by left. }
  wpb. apply wp_mustGetValidator. intros v' Hv'. rewrite (bi_vals _ _ _ _ _ Hb _ Ha), Hv in Hv'. injection Hv' as <-.
  wpb. apply wp_expect. intros _. wps. rename x into p, Hx into Hp. destruct (Z.eqb_spec p 0) as [->|Hp0].
  { wps. exists bonded, (a :: l). split_and!; try done. right. right. by exists a, l, v. }
  wpb. eapply wp_mono; [apply wp_bond_if; [apply Hb|by rewrite Eop, (bi_vals _ _ _ _ _ Hb _ Ha)]|].
  intros w s1 [Hm Hw]. wps. rewrite (tm_power_bonded v w (mt_same _ _ _ _ Hm) Hw), Hp in Hx. injection Hx as <-.
  rewrite (addr_field_id a Haddr), (bi_acc _ _ _ _ _ Hb), decide_False by done.
  eapply (wp_mono _ (λ u s2, sinv 0 none s2 ∧ validators s2 = validators s1 ∧ valQueue s2 = valQueue s1 ∧ byPower s2 = byPower s1 ∧
    st_params s2 = st_params s1 ∧ lastTotalPower s2 = lastTotalPower s1 ∧
    (lastPower s1 !! a = Some p ∧ lastPower s2 = lastPower s1 ∧ u = sc_updates acc ∨
     lastPower s2 = <[a := p]> (lastPower s1) ∧ u = sc_updates acc ++ [mkUpdate (v_ConsPubKey w) p]))).
  { case_bool_decide as E; wps.
    - split_and!; try done; [apply Hm|]. left. split_and!; [|done..]. by rewrite (mt_last _ _ _ _ Hm), (bi_last _ _ _ _ _ Hb).
    - unfold ABCIValidatorUpdate in Hx. rewrite (tm_power_bonded v w (mt_same _ _ _ _ Hm) Hw), Hp in Hx. simpl in Hx. injection Hx as <-.
      eapply wp_outside; [apply law_power|done|apply Hm|]. intros _ a2 x2 Hi2. unfold SetLastValidatorPower. wps.
      split_and!; try done; [same_stores|]. by right. }
  intros u s2 (Hi2&Ev&Eq&Ei&Ep&Et&Hu). wps. apply Int_Add_ok in Hx as [-> _].
  assert (bond_inv s0 m0 (bonded ++ [a]) (mkChange (delete a (sc_last acc)) (sc_totalPower acc + p) u) s2) as Hb'.
  { by eapply (bond_next bonded acc s s1 s2 a v w p). }
  replace (bonded ++ a :: l) with ((bonded ++ [a]) ++ l) in * by by rewrite <-app_assoc.
  replace (Z.of_nat (length bonded) + 1) with (Z.of_nat (length (bonded ++ [a]))) by (rewrite length_app; simpl; lia).
  apply IH; [by split|done|]. rewrite length_app. simpl. lia.
Qed.
End loop.

(** ** Unbonding the others *)
Record unbond_inv s1 (m1 : gmap ConsKey Z) (out r : list ValAddress) (u0 updates : list ValidatorUpdate) s : Prop := {
  ui_sinv : sinv 0 none s;
  ui_queue : queue_ok (waiting s) (valQueue s);
  ui_index : byPower s = byPower s1;
  ui_params : st_params s = st_params s1;
  ui_total : lastTotalPower s = lastTotalPower s1;
  ui_vals a : a ∉ out ∨ a ∈ r → validators s !! a = validators s1 !! a;
  ui_last a : lastPower s !! a = if decide (a ∈ out ∧ a ∉ r) then None else lastPower s1 !! a;
  ui_out a : a ∈ out → a ∉ r → ∃ v0 v, validators s1 !! a = Some v0 ∧ validators s !! a = Some v ∧ same_tokens v0 v ∧ v_Status v = Unbonding;
  ui_none : ∃ ext, updates = u0 ++ ext ∧ (ext = [] → r = out);
  ui_tm : tm_rel (stages s) (lastPower s) (foldl tm_update m1 updates) }.
Lemma wp_unbond_loop ctx s1 m1 out r u0 updates s :
  NoDup r → (∀ a, a ∈ r → a ∈ out) → unbond_inv s1 m1 out r u0 updates s →
  wp (unbond_loop ctx r updates) (λ u s', unbond_inv s1 m1 out [] u0 u s') s.
Proof.
  revert updates s. induction r as [|a r IH]; intros updates s Hnd Hsub Hu; cbn [unbond_loop]; [by wps|].
  apply NoDup_cons in Hnd as [Har Hnd]. pose proof Hu as [U1 U2 U3 U4 U5 U6 U7 U8 U9 U10].
  wpb. apply wp_mustGetValidator. intros v Hv. destruct (si_vals _ _ _ U1 _ _ Hv) as [Eop _].
  assert (validators s !! v_OperatorAddr v = Some v) as Hvo by by rewrite Eop. unfold bondedToUnbonding. wpb.
  apply wp_expect. intros _. eapply wp_mono; [by apply wp_beginUnbonding|]. intros w s2 (Hm&Hb&Hw).
  unfold DeleteLastValidatorPower. wps. apply IH; [done|set_solver|].
  assert (Hother : ∀ b, b ≠ a → validators s2 !! b = validators s !! b).
  { intros b Hb'. by rewrite (mt_vals _ _ _ _ Hm), Eop, lookup_insert_ne. }
  assert (Hself : validators s2 !! a = Some w) by by rewrite (mt_vals _ _ _ _ Hm), Eop, lookup_insert_eq.
  split; simpl.
  - pose proof (mt_inv _ _ _ _ Hm). same_stores.
  - by apply (mt_queue _ _ _ _ Hm).
  - by rewrite (mt_index _ _ _ _ Hm).
  - by rewrite (mt_params _ _ _ _ Hm).
  - by rewrite (mt_total _ _ _ _ Hm).
  - intros b Hb'. rewrite Hother by set_solver. apply U6. set_solver.
  - intros b. rewrite (mt_last _ _ _ _ Hm). destruct (decide (b = a)) as [->|Hne].
    + rewrite lookup_delete_eq, decide_True by set_solver. done.
    + rewrite lookup_delete_ne, U7 by done. destruct (decide (b ∈ out ∧ b ∉ a :: r)), (decide (b ∈ out ∧ b ∉ r)); set_solver.
  - intros b Hb' Hr. destruct (decide (b = a)) as [->|Hne].
    + exists v, w. rewrite <-U6 by set_solver. split_and!; try done. apply Hm.
    + rewrite Hother by done. apply U8; set_solver.
  - destruct U9 as (ext&->&_). exists (ext ++ [ABCIValidatorUpdateZero v]). rewrite app_assoc. split; [done|].
    intros E. by apply app_nil in E as [_ ?].
  - rewrite foldl_app, (mt_last _ _ _ _ Hm). cbn [foldl]. unfold tm_update at 1, ABCIValidatorUpdateZero. cbn [vu_Power vu_PubKey].
    rewrite decide_True by done. eapply (tm_rel_delete (stages s)); [done|by eapply sinv_one_key| | |].
    + unfold stages. rewrite Hv. simpl. by apply stage_bonded.
    + intros u k. unfold stages. simpl. rewrite Hself. simpl. unfold stage. rewrite Hw. by intros [=].
    + intros b Hb'. unfold stages. simpl. by rewrite Hother.
Qed.

(** ** The whole update *)
Lemma last_by_addr (m : gmap string Int) :
  (∀ a, is_Some (m !! a) → is_addr a) → foldl (λ m kv, <[addr_field kv.1 := kv.2]> m) ∅ (entries m) = m.
Proof.
  intros Ha. assert (∀ l, (∀ kv, kv ∈ l → is_addr kv.1) → ∀ m0 : gmap string Int,
    foldl (λ m kv, <[addr_field kv.1 := kv.2]> m) m0 l = foldr (λ kv, <[kv.1 := kv.2]>) m0 (rev l)) as E.
  { induction l as [|kv l IH]; intros Hl m0; [done|]. simpl. rewrite foldr_app, IH by (intros; apply Hl; set_solver). simpl.
    by rewrite addr_field_id by (apply Hl; set_solver). }
  rewrite E by (intros [k p] Hk%entries_elem; simpl; eauto). change (list_to_map (rev (entries m)) = m).
  apply map_eq. intros k. apply option_eq. intros p. rewrite <-elem_of_list_to_map.
  - by rewrite <-(Permutation_rev (entries m)), entries_elem.
  - rewrite <-(Permutation_rev (entries m)). apply entries_NoDup.
Qed.
Lemma iterator_listed s : sinv 0 none s → listed s (ValidatorsPowerStoreIterator s).
Proof.
  intros Hi. pose proof (si_index _ _ _ Hi) as Hx. unfold ValidatorsPowerStoreIterator, listed. split.
  - rewrite <-Permutation_rev. apply NoDup_fmap_2_strong; [|apply NoDup_fmap_1 with fst, entries_NoDup].
    intros [k a] [j b] (v&Hv&_&Hk)%entries_elem%Hx (w&Hw&_&Hj)%entries_elem%Hx E. simpl in E. subst b. congruence.
  - intros a. rewrite <-(Permutation_rev ((entries (byPower s)).*2)). intros ([k b]&->&(v&Hv&Hj&_)%entries_elem%Hx)%list_elem_of_fmap.
    exists v. destruct (si_vals _ _ _ Hi _ _ Hv) as [Eop Hvo]. split_and!; try done. simpl. rewrite <-Eop. apply Hvo.
Qed.
Definition total_ok s : Prop := default 0 (lastTotalPower s) = map_sum (λ p, p) (lastPower s).
Lemma powers_sum s l : NoDup l → (∀ a, is_Some (lastPower s !! a) ↔ a ∈ l) → powers s l = map_sum (λ p, p) (lastPower s).
Proof.
  unfold powers, power_at. generalize (lastPower s). clear. induction l as [|a l IH]; intros m Hn Hd.
  - assert (m = ∅) as ->; [|by rewrite map_sum_empty]. apply map_empty. intros a. apply eq_None_not_Some. rewrite Hd. apply not_elem_of_nil.
  - apply NoDup_cons in Hn as [Ha Hn]. destruct (proj2 (Hd a)) as [p Hp]; [set_solver|]. cbn [foldr]. rewrite Hp. simpl.
    pose proof (map_sum_delete (λ p, p) m a p Hp) as E. rewrite <-(IH (delete a m)) in E; [|done|].
    + enough (foldr (λ b z, default 0 (delete a m !! b) + z) 0 l = foldr (λ b z, default 0 (m !! b) + z) 0 l) by lia.
      clear IH Hd E. induction l as [|b l IH]; [done|]. cbn [foldr]. apply NoDup_cons in Hn as [_ Hn].
      rewrite IH by set_solver. rewrite lookup_delete_ne by set_solver. done.
    + intros b. rewrite lookup_delete_is_Some, Hd. split; [set_solver|]. intros Hb. split; [set_solver|set_solver].
Qed.

Record top_bonded s (top : list ValAddress) s' : Prop := {
  tb_dom a : is_Some (lastPower s' !! a) ↔ a ∈ top;
  tb_val a : a ∈ top → ∃ v0 v p, validators s !! a = Some v0 ∧ validators s' !! a = Some v ∧ same_tokens v0 v ∧
    v_Status v = Bonded ∧ v_Jailed v0 = false ∧ potential_power v0 = Ok p ∧ p ≠ 0 ∧ lastPower s' !! a = Some p;
  tb_stop : ∃ rest, ValidatorsPowerStoreIterator s = top ++ rest ∧ stops s (MaxValidators (st_params s)) top rest;
  tb_max : Z.of_nat (length top) ≤ MaxValidators (st_params s) }.
Record applied s m updates s' : Prop := {
  ap_inv : sinv 0 none s';
  ap_set : set_ok s';
  ap_params : st_params s' = st_params s;
  ap_index : byPower s' = byPower s;
  ap_vals a : match validators s !! a, validators s' !! a with
              | Some v, Some w => same_tokens v w | None, None => True | _, _ => False end;
  ap_total : total_ok s → total_ok s';
  ap_top : ∃ top, top_bonded s top s';
  ap_tm : tm_rel (stages s') (lastPower s') (foldl tm_update m updates) }.
Lemma after_loops s m acc top out u0 updates s1 s2 :
  last_ok (stages s) (lastPower s) → bond_inv s m top acc s1 →
  (∀ a, a ∈ out ↔ (a ∉ top) ∧ is_Some (lastPower s !! a)) →
  unbond_inv s1 m out [] u0 updates s2 →
  set_ok s2 ∧ (∀ a, is_Some (lastPower s2 !! a) ↔ a ∈ top) ∧
  (∀ a, a ∈ top → ∃ v0 v p, validators s !! a = Some v0 ∧ validators s2 !! a = Some v ∧ same_tokens v0 v ∧
    v_Status v = Bonded ∧ v_Jailed v0 = false ∧ potential_power v0 = Ok p ∧ p ≠ 0 ∧ lastPower s2 !! a = Some p) ∧
  (∀ a, match validators s !! a, validators s2 !! a with
        | Some v, Some w => same_tokens v w | None, None => True | _, _ => False end).
Proof.
  intros Hl [B1 B2 B3 B4 B5 B6 B7 B8 B9 B10 B11 B12] Hout [U1 U2 U3 U4 U5 U6 U7 U8 _ U10].
  assert (Hlast : ∀ a, lastPower s2 !! a = if decide (a ∈ top) then lastPower s1 !! a else None).
  { intros a. rewrite U7. destruct (decide (a ∈ top)) as [Ht|Ht].
    - rewrite decide_False; [done|]. intros [[? _]%Hout _]. done.
    - case_decide as E; [done|]. rewrite B7 by done. apply eq_None_not_Some. intros Hs. apply E. rewrite Hout. set_solver. }
  assert (Hval : ∀ a, a ∈ top → ∃ v0 v p, validators s !! a = Some v0 ∧ validators s2 !! a = Some v ∧ same_tokens v0 v ∧
    v_Status v = Bonded ∧ v_Jailed v0 = false ∧ potential_power v0 = Ok p ∧ p ≠ 0 ∧ lastPower s2 !! a = Some p).
  { intros a Ha. rewrite Hlast, decide_True, U6 by (try done; left; rewrite Hout; tauto). by apply B8. }
  assert (Hdom : ∀ a, is_Some (lastPower s2 !! a) ↔ a ∈ top).
  { intros a. split; [rewrite Hlast; case_decide; [done|by intros [? ?]]|]. intros Ha.
    destruct (Hval _ Ha) as (?&?&p&?&?&?&?&?&?&?&Hp). eauto. }
  assert (Hrest : ∀ a, a ∉ top → (a ∈ out ∧ ∃ v0 v, validators s !! a = Some v0 ∧ validators s2 !! a = Some v ∧ same_tokens v0 v ∧ v_Status v = Unbonding)
    ∨ validators s2 !! a = validators s !! a ∧ lastPower s !! a = None).
  { intros a Ha. destruct (decide (a ∈ out)) as [Ho|Ho].
    - left. split; [done|]. destruct (U8 a Ho) as (v0&v&?&?&?&?); [set_solver|]. rewrite B6 in * by done. eauto 10.
    - right. rewrite U6, B6 by (try done; by left). split; [done|]. apply eq_None_not_Some. intros Hs. apply Ho, Hout. done. }
  split_and!; [|done|done|].
  - split; [|done]. intros a. rewrite Hdom. split.
    + intros Ha. destruct (Hval _ Ha) as (v0&v&p&_&Hv&_&Hb&_). unfold stages. rewrite Hv. simpl. rewrite stage_bonded by done. eauto.
    + intros (t&c&Ha). destruct (decide (a ∈ top)) as [|Hn]; [done|]. exfalso. destruct (Hrest _ Hn) as [(_&v0&v&_&Hv&_&Hs)|[Hv Hp]].
      * unfold stages in Ha. rewrite Hv in Ha. apply stage_key in Ha as (_&Hb&_). congruence.
      * destruct (proj2 (Hl a)) as [p E]; [|congruence]. unfold stages in *. rewrite Hv in Ha. eauto.
  - intros a. destruct (decide (a ∈ top)) as [Ht|Hn].
    + destruct (Hval _ Ht) as (v0&v&p&->&->&Hs&_). done.
    + destruct (Hrest _ Hn) as [(_&v0&v&->&->&Hs&_)|[-> _]]; [done|]. destruct (validators s !! a); [apply same_tokens_refl|done].
Qed.
Lemma wp_Apply ctx m s :
  sinv 0 none s → set_ok s → 0 ≤ MaxValidators (st_params s) → tm_rel (stages s) (lastPower s) m →
  wp (ApplyAndReturnValidatorSetUpdates ctx) (λ updates s', applied s m updates s') s.
Proof.
  intros Hi [Hl Hq] Hmax Htm. unfold ApplyAndReturnValidatorSetUpdates, GetParams. wps.
  assert (getLastValidatorsByAddr s = lastPower s) as ->.
  { apply last_by_addr. intros a (t&c&Ha)%Hl. unfold stages in Ha. destruct (validators s !! a) as [v|] eqn:Ev; [|done].
    destruct (si_vals _ _ _ Hi _ _ Ev) as [<- Hvo]. apply Hvo. }
  eapply wp_mono; [apply (wp_bond_loop s m Hl ctx _ _ [])|]; [by apply iterator_listed| |done|].
  { split; try done; try (intros a; set_solver). }
  intros acc s1 (top&rest&El&Hb&Hlen&Hstop). simpl in El. pose proof Hb as [B1 B2 B3 B4 B5 B6 B7 B8 B9 B10 B11 B12].
  assert (Hout : ∀ a, a ∈ sortNoLongerBonded (sc_last acc) ↔ (a ∉ top) ∧ is_Some (lastPower s !! a)).
  { intros a. unfold sortNoLongerBonded. rewrite list_elem_of_fmap. split.
    - intros ([b p]&->&Hin%entries_elem). rewrite B9 in Hin. simpl. case_decide; [done|]. eauto.
    - intros [Ha [p Hp]]. exists (a, p). split; [done|]. apply entries_elem. by rewrite B9, decide_False. }
  set (out := sortNoLongerBonded (sc_last acc)) in *. wpb.
  eapply wp_mono; [apply (wp_unbond_loop ctx s1 m out out (sc_updates acc))|].
  { apply entries_NoDup. } { done. }
  { split; try done; [intros a; by rewrite decide_False by tauto|exists []; by rewrite app_nil_r]. }
  intros updates s2 Hu. destruct (after_loops s m acc top out (sc_updates acc) updates s1 s2 Hl Hb Hout Hu) as (Hset&Hdom&Hval&Hvals).
  pose proof (iterator_listed s Hi) as [Hnd _]. rewrite El in Hnd. apply NoDup_app in Hnd as (Hnd&_&_).
  assert (top_bonded s top s2) as Htop by (split; [done|done|eauto|done]).
  destruct Hu as [U1 U2 U3 U4 U5 _ U7 _ (ext&Eu&Hext) U10]. case_bool_decide as Enil; unfold SetLastTotalPower; wps.
  - rewrite Enil in Eu. symmetry in Eu. apply app_nil in Eu as [E0 E1].
    split; try done; [by rewrite U4|by rewrite U3| |eauto].
    unfold total_ok. rewrite U5, B5. intros ->. f_equal. apply map_eq. intros a. rewrite U7, <-(B11 E0), <-(Hext E1).
    by rewrite decide_False by set_solver.
  - split; try done; [same_stores|by destruct Hset|by rewrite <-B4, <-U4|by rewrite <-B3, <-U3| |exists top; by destruct Htop].
    intros _. unfold total_ok. simpl. rewrite B10, (powers_ext s2 s1), (powers_sum s2) by (try done; intros a Ha; rewrite U7, decide_False by (rewrite Hout; tauto); done).
    done.
Qed.
End apply.
End StakeApply.
