(* ===== verification/StakeDue.v ===== *)
(** * Staking: delegations in transit

    Unbonding delegations and redelegations wait in queues, and are completed at
    the end of the first block that reaches their time. *)

From Stdlib Require Import Ascii.
From S2P Require Import Prelude SdkErrors Frame IntType GoStrings Denom Coin CoinFacts Dec TimeBytes Gas KVStore Auth Bank BankFacts BankBurn BankFrame StakeTypes Stake StakeFacts StakeInv StakeFrame StakeSlash.
#[local] Open Scope Z_scope.

Module StakeDue.
Import StakeTypes Stake StakeFacts StakeQueue StakeInv StakeFrame StakeOps StakeSlash.
#[export] Instance DVPair_eq_dec : EqDecision DVPair.
Proof. solve_decision. Defined.
#[export] Instance DVVTriplet_eq_dec : EqDecision DVVTriplet.
Proof. solve_decision. Defined.

Section due.
Context {X : Type} `{Crypto, ConsCrypto, StakingHooks X, !HookLaws X}.
Implicit Types s : StakeState X.
Definition in_calendar (t : Z) : Prop := 0 ≤ t < year10000.
Record transit_ok s : Prop := {
  to_ubd : queue_ok (ubd_due s) (ubdQueue s);
  to_red : queue_ok (red_due s) (redQueue s);
  to_ubd_time p t : ubd_due s p = Some t → in_calendar t;
  to_red_time p t : red_due s p = Some t → in_calendar t }.
Lemma transit_ok_same s s' : same_due s s' → transit_ok s → transit_ok s'.
Proof.
  intros [E1 E2 E3 E4] [H1' H2' H3' H4']. split; [rewrite E2; by eapply queue_ext|rewrite E4; by eapply queue_ext|..].
  - intros p t. rewrite E1. apply H3'.
  - intros p t. rewrite E3. apply H4'.
Qed.
Lemma keeps_transit_ok {A} (c : M (StakeState X) A) s : keeps (same_part transit) c → transit_ok s → wp c (λ _, transit_ok) s.
Proof. intros Hc Ht. eapply wp_mono; [by apply keeps_due|]. intros a s' E. by apply (transit_ok_same s). Qed.
Definition ubd_pair (u : UnbondingDelegation) : DVPair := mkDVPair (ub_DelegatorAddr u) (ub_ValidatorAddr u).
Definition red_triple (r : Redelegation) : DVVTriplet := mkDVV (rd_DelegatorAddr r) (rd_ValidatorSrcAddr r) (rd_ValidatorDstAddr r).
Lemma ubd_due_iff s p t :
  ubd_due s p = Some t ↔ ∃ u, ubds s !! ubd_key u = Some u ∧ p = ubd_pair u ∧ ub_MinTime u = t.
Proof.
  unfold ubd_due. destruct p as [d v]. simpl. split.
  - destruct (ubds s !! _) as [u|] eqn:E; [|done]. case_decide as Ep; [|done]. destruct Ep as [<- <-]. intros [= <-]. by exists u.
  - intros (u&Hu&[= -> ->]&<-). unfold ubd_key in Hu. rewrite Hu. by rewrite decide_True.
Qed.
Lemma red_due_iff s p t :
  red_due s p = Some t ↔ ∃ r, reds s !! red_key r = Some r ∧ p = red_triple r ∧ rd_MinTime r = t.
Proof.
  unfold red_due. destruct p as [d v w]. simpl. split.
  - destruct (reds s !! _) as [r|] eqn:E; [|done]. case_decide as Ep; [|done]. destruct Ep as (<-&<-&<-). intros [= <-]. by exists r.
  - intros (r&Hr&[= -> -> ->]&<-). unfold red_key in Hr. rewrite Hr. by rewrite decide_True.
Qed.

(** ** Beginning *)
Lemma ubd_due_put s u p :
  ubds s !! ubd_key u = None →
  ubd_due (put_ubd u s) p = if decide (p = ubd_pair u) then Some (ub_MinTime u) else ubd_due s p.
Proof.
  intros Hn. unfold ubd_due. simpl. fold (ubd_key u). destruct p as [d v]. simpl.
  destruct (decide (GetUBDKey d v = ubd_key u)) as [->|Hne].
  - rewrite lookup_insert_eq, Hn. destruct (decide (mkDVPair d v = ubd_pair u)) as [[= -> ->]|Hp]; [by rewrite decide_True|].
    rewrite decide_False; [done|]. intros [<- <-]. by apply Hp.
  - rewrite lookup_insert_ne by done. rewrite (decide_False (P := mkDVPair d v = ubd_pair u)); [done|]. by intros [= -> ->].
Qed.
Lemma red_due_put s r t :
  reds s !! red_key r = None →
  red_due (put_red r s) t = if decide (t = red_triple r) then Some (rd_MinTime r) else red_due s t.
Proof.
  intros Hn. unfold red_due. simpl. destruct t as [d v w]. simpl.
  destruct (decide (GetREDKey d v w = red_key r)) as [->|Hne].
  - rewrite lookup_insert_eq, Hn. destruct (decide (mkDVV d v w = red_triple r)) as [[= -> -> ->]|Hp]; [by rewrite decide_True|].
    rewrite decide_False; [done|]. intros (<-&<-&<-). by apply Hp.
  - rewrite lookup_insert_ne by done. rewrite (decide_False (P := mkDVV d v w = red_triple r)); [done|]. by intros [= -> -> ->].
Qed.
(** The time at which what begins now is due. *)
Definition timely (ctx : Ctx) s : Prop := in_calendar (BlockTime ctx + UnbondingTime (st_params s)).
Lemma wp_BeginUnbonding_due ctx d va shares s :
  transit_ok s → timely ctx s → wp (BeginUnbonding ctx d va shares) (λ _, transit_ok) s.
Proof.
  intros [Hu Hr Hut Hrt] Hc. unfold BeginUnbonding. wpb. apply wp_GetUBD; [|intros; by wps]. intros Hn. wps.
  eapply wp_mono; [by apply (K_unbond (λ _, True) (same_part transit) transit_closed transit_hooked)|]. intros amt s1 Ht. unfold GetParams. wps.
  apply transit_due in Ht as Hd. injection Ht as Eu _ _ _ Ep. unfold SetUnbondingDelegation, InsertUnbondingQueue. wps.
  set (u := mkUBD _ _ _ _ _ _ _). destruct Hd as [D1 D2 D3 D4].
  assert (ubds s1 !! ubd_key u = None) as Hn1 by by rewrite Eu.
  assert (Hdue : ∀ p, ubd_due (put_ubd u s1) p = if decide (p = ubd_pair u) then Some (ub_MinTime u) else ubd_due s p).
  { intros p. rewrite ubd_due_put by done. by rewrite D1. }
  split; [|eapply queue_ext; [apply D3|]; simpl; by rewrite D4| |intros p t Hp; apply (Hrt p t); rewrite <-D3; exact Hp].
  2:{ intros p t Hp. change (ubd_due (put_ubd u s1) p = Some t) in Hp. rewrite Hdue in Hp. case_decide; [|by eapply Hut].
      injection Hp as <-. simpl. by rewrite Ep. }
  change (queue_ok (ubd_due (put_ubd u s1)) (enqueue (ubd_pair u) (ub_MinTime u) (ubdQueue s1))). rewrite D2.
  eapply (queue_enqueue (ubd_due s)); [| | |exact Hu].
  - intros p Hp. by rewrite Hdue, decide_False.
  - rewrite <-D1. unfold ubd_due. unfold ubd_key in Hn1. simpl. simpl in Hn1. by rewrite Hn1.
  - by rewrite Hdue, decide_True.
Qed.
Lemma wp_BeginRedelegation_due ctx d va vb shares s :
  transit_ok s → timely ctx s → wp (BeginRedelegation ctx d va vb shares) (λ _, transit_ok) s.
Proof.
  intros [Hu Hr Hut Hrt] Hc. unfold BeginRedelegation, HasReceivingRedelegation. wps. apply wp_GetRedelegation; [|intros; by wps]. intros Hn. wps.
  eapply wp_mono; [by apply (K_unbond (λ _, True) (same_part transit) transit_closed transit_hooked)|]. intros amt s1 Ht. wps.
  apply wp_GetValidator; [intros; wps|]. intros w _. wpb.
  eapply wp_mono; [by apply (K_Delegate (λ _, True) (same_part transit) transit_closed transit_hooked)|]. intros sh s2 Ht2. unfold GetParams. wps.
  assert (transit s2 = transit s) as Ht' by (unfold same_part in *; congruence). clear Ht Ht2.
  apply transit_due in Ht' as Hd. injection Ht' as _ _ Er _ Ep. unfold SetRedelegation, InsertRedelegationQueue. wps.
  set (r := mkRED _ _ _ _ _ _ _ _ _). destruct Hd as [D1 D2 D3 D4].
  assert (reds s2 !! red_key r = None) as Hn1 by by rewrite Er.
  assert (Hdue : ∀ t, red_due (put_red r s2) t = if decide (t = red_triple r) then Some (rd_MinTime r) else red_due s t).
  { intros t. rewrite red_due_put by done. by rewrite D3. }
  split; [eapply queue_ext; [apply D1|]; simpl; by rewrite D2| |intros p t Hp; apply (Hut p t); rewrite <-D1; exact Hp|].
  2:{ intros p t Hp. change (red_due (put_red r s2) p = Some t) in Hp. rewrite Hdue in Hp. case_decide; [|by eapply Hrt].
      injection Hp as <-. simpl. by rewrite Ep. }
  change (queue_ok (red_due (put_red r s2)) (enqueue (red_triple r) (rd_MinTime r) (redQueue s2))). rewrite D4.
  eapply (queue_enqueue (red_due s)); [| | |exact Hr].
  - intros p Hp. by rewrite Hdue, decide_False.
  - rewrite <-D3. unfold red_due. unfold red_key in Hn1. simpl. simpl in Hn1. by rewrite Hn1.
  - by rewrite Hdue, decide_True.
Qed.
Lemma wp_stake_Handler_due ctx msg s : transit_ok s → timely ctx s → wp (stake_Handler ctx msg) (λ _, transit_ok) s.
Proof.
  intros Ht Hc. destruct msg as [m|m|m|m|m]; simpl.
  - apply keeps_transit_ok; [by apply (K_Create (λ _, True) (same_part transit) transit_closed transit_hooked), transit_takes|done].
  - apply keeps_transit_ok; [by apply (K_Edit (λ _, True) (same_part transit) transit_closed transit_hooked)|done].
  - apply keeps_transit_ok; [by apply (K_MsgDelegate (λ _, True) (same_part transit) transit_closed transit_hooked), transit_takes|done].
  - unfold handleMsgBeginRedelegate. destruct (mr_SharesAmount m); [|wps]. wpb.
    eapply wp_mono; [by apply wp_BeginRedelegation_due|]. intros. by wps.
  - unfold handleMsgBeginUnbonding. destruct (mu_SharesAmount m); [|wps]. wpb.
    eapply wp_mono; [by apply wp_BeginUnbonding_due|]. intros. by wps.
Qed.

(** ** Completing unbonding delegations *)
Lemma GetUBD_run u s :
  ubds s !! ubd_key u = Some u → is_addr (ub_DelegatorAddr u) → is_addr (ub_ValidatorAddr u) →
  GetUnbondingDelegation (ub_DelegatorAddr u) (ub_ValidatorAddr u) s = (Ok (Some u), s).
Proof.
  intros Hu Hd Hv. unfold GetUnbondingDelegation, bind, gets. unfold ubd_key in Hu. rewrite Hu.
  unfold unmarshal, bind, expect. rewrite bool_decide_eq_true_2; [done|]. unfold GetUBDKey. rewrite str_len_app, Hd, Hv. done.
Qed.
Record completed (u : UnbondingDelegation) s s' : Prop := {
  cp_inv : sinv 0 none s';
  cp_steady : steady s s';
  cp_vals : validators s' = validators s;
  cp_ubds : ubds s' = delete (ubd_key u) (ubds s);
  cp_rest : ubdQueue s' = ubdQueue s ∧ reds s' = reds s ∧ redQueue s' = redQueue s;
  cp_paid : changes (st_auth s) (st_auth s') (ub_DelegatorAddr u) (amt [ub_Balance u]) }.
Lemma wp_CompleteUnbonding_at u s :
  sinv 0 none s → ubds s !! ubd_key u = Some u →
  wp (ignore_err (CompleteUnbonding (ub_DelegatorAddr u) (ub_ValidatorAddr u))) (λ _, completed u s) s.
Proof.
  intros Hi Hu. destruct (uo_record _ _ (si_ubds _ _ _ Hi) _ _ Hu) as (_&Hd&Hv&_).
  assert (Herr : ∀ e s', CompleteUnbonding (ub_DelegatorAddr u) (ub_ValidatorAddr u) s ≠ (Err e, s')).
  { intros e s'. unfold CompleteUnbonding. rewrite (bind_run _ _ _ _ _ (GetUBD_run u s Hu Hd Hv)).
    unfold bind, on_auth, zoom. destruct (addCoins _ _ _) as [[c|e'|w] a'] eqn:E; [done| |done]. by apply addCoins_no_err in E. }
  apply wp_ignore; [|intros e s' E; by destruct (Herr e s')]. pose proof (wp_CompleteUnbonding (ub_DelegatorAddr u) (ub_ValidatorAddr u) s Hi) as Hw.
  intros [] s' Hrun. destruct (Hw _ _ Hrun) as [Hi' Hst]. unfold CompleteUnbonding in Hrun.
  rewrite (bind_run _ _ _ _ _ (GetUBD_run u s Hu Hd Hv)) in Hrun. apply bind_ok in Hrun as (c&s1&H1'&H2').
  apply zoom_ok in H1' as (a&Ha&->). unfold RemoveUnbondingDelegation, bind, modify in H2'. injection H2' as <-.
  split; [done|done|done|done|done|]. simpl. by destruct (addCoins_changes _ _ _ _ _ (si_auth _ _ _ Hi) Ha) as (_&?&_).
Qed.
Lemma dequeue_run (slices : list (string * list DVPair)) s :
  for_each slices (λ kv, modify (set_ubdQueue (delete kv.1))) s = (Ok tt, set_ubdQueue (λ q, foldl (λ q kv, delete kv.1 q) q slices) s).
Proof.
  revert s. induction slices as [|kv l IH]; intros s; [by destruct s|]. simpl. unfold bind, modify. by rewrite IH.
Qed.
(** What is left when [l] of the mature pairs [ms] remain. *)
Record paying s0 (ms l : list DVPair) s : Prop := {
  pg_inv : sinv 0 none s;
  pg_steady : steady s0 s;
  pg_vals : validators s = validators s0;
  pg_rest : ubdQueue s = ubdQueue s0 ∧ reds s = reds s0 ∧ redQueue s = redQueue s0;
  pg_ubds k : ubds s !! k = match ubds s0 !! k with
                            | Some u => if decide (ubd_pair u ∈ ms ∧ ubd_pair u ∉ l) then None else Some u
                            | None => None
                            end }.
Lemma ubd_key_pair u w : ubd_pair u = ubd_pair w → ubd_key u = ubd_key w.
Proof. unfold ubd_pair, ubd_key. by intros [= -> ->]. Qed.
Lemma paying_next s0 ms l u s s' :
  sinv 0 none s0 → paying s0 ms (ubd_pair u :: l) s → ubd_pair u ∉ l → ubd_pair u ∈ ms → ubds s0 !! ubd_key u = Some u →
  completed u s s' → paying s0 ms l s'.
Proof.
  intros Hs0 [P1 P2 Pv P3 P4] Hul Hms Hu [C1 C2 Cv C3 (C4&C5&C6) _]. destruct P3 as (Q1&Q2&Q3).
  split; [done|by etrans|congruence|split_and!; congruence|]. intros k. rewrite C3. destruct (decide (k = ubd_key u)) as [->|Hne].
  - by rewrite lookup_delete_eq, Hu, decide_True.
  - rewrite lookup_delete_ne, P4 by done. destruct (ubds s0 !! k) as [w|] eqn:Ew; [|done].
    destruct (uo_record _ _ (si_ubds _ _ _ Hs0) _ _ Ew) as (Ek&_). change (k = ubd_key w) in Ek. subst k.
    assert (ubd_pair w ≠ ubd_pair u) by (intros E; by apply Hne, ubd_key_pair).
    destruct (decide (ubd_pair w ∈ ms ∧ ubd_pair w ∉ ubd_pair u :: l)), (decide (ubd_pair w ∈ ms ∧ ubd_pair w ∉ l)); set_solver.
Qed.
Lemma paying_start s0 ms : sinv 0 none s0 → paying s0 ms ms s0.
Proof. intros Hi. split; try done. intros k. destruct (ubds s0 !! k); [|done]. by rewrite decide_False by tauto. Qed.

(** The delegations that are left. *)
Definition not_yet (t : Z) (u : UnbondingDelegation) : bool := t <? ub_MinTime u.
Definition left_of (t : Z) (us : gmap string UnbondingDelegation) (k : string) : option UnbondingDelegation :=
  match us !! k with Some u => if not_yet t u then Some u else None | None => None end.
Lemma matures_ubd s t u :
  transit_ok s → in_calendar t → ubds s !! ubd_key u = Some u → ubd_pair u ∈ matures (ubdQueue s) t ↔ not_yet t u = false.
Proof.
  intros Ht Hc Hu. assert (ubd_due s (ubd_pair u) = Some (ub_MinTime u)) as Hd by (apply ubd_due_iff; eauto).
  rewrite (matures_elem (ubd_due s)) by apply Ht. unfold not_yet. rewrite Z.ltb_ge, Hd.
  pose proof (to_ubd_time _ Ht _ _ Hd) as Hr. split.
  - intros (t'&[= <-]&Hn). by apply FormatTimeBytes_due in Hn.
  - intros Hle. exists (ub_MinTime u). split; [done|]. by apply FormatTimeBytes_due.
Qed.
(** The queue after a completed loop. *)
Lemma paying_end s t s' :
  sinv 0 none s → transit_ok s → in_calendar t →
  let q := drop_due (ubdQueue s) t in
  paying (set_ubdQueue (λ _, q) s) (matures (ubdQueue s) t) [] s' →
  sinv 0 none s' ∧ steady s s' ∧ transit_ok s' ∧ (validators s' = validators s ∧ reds s' = reds s) ∧
  (∀ k, ubds s' !! k = left_of t (ubds s) k).
Proof.
  intros Hi Ht Hc q [P1 P2 Pv (P3&P4&P5) P6]. simpl in *.
  assert (Hu : ∀ k, ubds s' !! k = left_of t (ubds s) k).
  { intros k. rewrite P6. unfold left_of. destruct (ubds s !! k) as [u|] eqn:Eu; [|done].
    destruct (uo_record _ _ (si_ubds _ _ _ Hi) _ _ Eu) as (Ek&_). change (k = ubd_key u) in Ek. subst k.
    pose proof (matures_ubd s t u Ht Hc Eu) as Hm. destruct (not_yet t u).
    - rewrite decide_False; [done|]. intros [E _]. by apply Hm in E.
    - rewrite decide_True; [done|]. split; [by apply Hm|apply not_elem_of_nil]. }
  assert (Hd : ∀ p, ubd_due s' p = if decide (p ∈ matures (ubdQueue s) t) then None else ubd_due s p).
  { intros p. apply option_eq. intros x. rewrite ubd_due_iff. split.
    - intros (u&Hu'&->&<-). rewrite Hu in Hu'. unfold left_of in Hu'. destruct (ubds s !! ubd_key u) as [w|] eqn:Ew; [|done].
      destruct (not_yet t w) eqn:En; [|done]. injection Hu' as ->. rewrite decide_False; [apply ubd_due_iff; eauto|].
      intros Hm. apply (matures_ubd s t u) in Hm; [congruence|done..].
    - case_decide as Hm; [done|]. intros (u&Hu'&->&<-)%ubd_due_iff. exists u. split; [|done]. rewrite Hu. unfold left_of. rewrite Hu'.
      destruct (not_yet t u) eqn:En; [done|]. destruct Hm. by apply matures_ubd. }
  split_and!; [done|etrans; [|exact P2]; by apply steady_fields| |done|done|done].
  assert (Hr : ∀ p, red_due s' p = red_due s p) by (intros p; unfold red_due; by rewrite P4).
  split.
  - rewrite P3. eapply queue_drop_due; [exact Hd|apply Ht].
  - rewrite P5. eapply queue_ext; [exact Hr|apply Ht].
  - intros p x. rewrite Hd. case_decide; [done|]. apply Ht.
  - intros p x. rewrite Hr. apply Ht.
Qed.
Lemma complete_unbondings_unfold ctx s :
  complete_unbondings ctx s = for_each (matures (ubdQueue s) (BlockTime ctx))
    (λ p, ignore_err (CompleteUnbonding (dv_DelegatorAddr p) (dv_ValidatorAddr p)))
    (set_ubdQueue (λ _, drop_due (ubdQueue s) (BlockTime ctx)) s).
Proof.
  unfold complete_unbondings, DequeueAllMatureUnbondingQueue. unfold bind at 1 2 3, gets. rewrite dequeue_run. done.
Qed.
Lemma matures_stored s t p : transit_ok s → p ∈ matures (ubdQueue s) t → ∃ u, p = ubd_pair u ∧ ubds s !! ubd_key u = Some u.
Proof. intros Ht (t'&(u&Hu&->&_)%ubd_due_iff&_)%(matures_elem (ubd_due s)); [eauto|apply Ht]. Qed.
Lemma paying_stored s0 ms u l s : paying s0 ms (ubd_pair u :: l) s → ubds s0 !! ubd_key u = Some u → ubds s !! ubd_key u = Some u.
Proof. intros Hp Hu. rewrite (pg_ubds _ _ _ _ Hp), Hu, decide_False; [done|]. intros [_ E]. apply E. by left. Qed.
(** The loop over mature pairs, by the body that pays one. *)
Definition paying_list s0 (ms l : list DVPair) s : Prop := paying s0 ms l s ∧ NoDup l ∧ ∀ p, p ∈ l → p ∈ ms.
Lemma paying_list_next s0 ms p l s :
  sinv 0 none s0 → (∀ p, p ∈ ms → ∃ u, p = ubd_pair u ∧ ubds s0 !! ubd_key u = Some u) → paying_list s0 ms (p :: l) s →
  ∃ u, p = ubd_pair u ∧ ubds s !! ubd_key u = Some u ∧ ubds s0 !! ubd_key u = Some u ∧ ∀ s', completed u s s' → paying_list s0 ms l s'.
Proof.
  intros Hi Hms (Hp&[Hpl Hnd]%NoDup_cons&Hin). destruct (Hms p) as (u&->&Hu); [apply Hin; by left|]. exists u.
  split_and!; [done|by eapply paying_stored|done|]. intros s' Hc. split; [|split; [done|intros q Hq; apply Hin; by right]].
  eapply paying_next; try done. apply Hin. by left.
Qed.
Lemma paying_list_start s t :
  sinv 0 none s → transit_ok s → let ms := matures (ubdQueue s) t in
  let s0 := set_ubdQueue (λ _, drop_due (ubdQueue s) t) s in
  sinv 0 none s0 ∧ (∀ p, p ∈ ms → ∃ u, p = ubd_pair u ∧ ubds s0 !! ubd_key u = Some u) ∧ paying_list s0 ms ms s0.
Proof.
  intros Hi Ht ms s0. assert (sinv 0 none s0) as Hi0 by same_stores. split_and!; [done|intros p; by apply (matures_stored s t)|].
  split; [by apply paying_start|]. split; [|done]. eapply matures_NoDup, Ht.
Qed.
Lemma wp_complete_unbondings ctx s :
  sinv 0 none s → transit_ok s → in_calendar (BlockTime ctx) →
  wp (complete_unbondings ctx) (λ _ s', sinv 0 none s' ∧ steady s s' ∧ transit_ok s' ∧ (validators s' = validators s ∧ reds s' = reds s) ∧
    (∀ k, ubds s' !! k = left_of (BlockTime ctx) (ubds s) k)) s.
Proof.
  intros Hi Ht Hc u s'. rewrite complete_unbondings_unfold. destruct (paying_list_start s (BlockTime ctx) Hi Ht) as (Hi0&Hms&Hst).
  intros Hrun. apply (paying_end s (BlockTime ctx)); [done..|]. revert u s' Hrun. set (s0 := set_ubdQueue _ s) in *.
  eapply wp_mono; [apply (wp_for_each_list _ _ (paying_list s0 (matures (ubdQueue s) (BlockTime ctx)))); [exact Hst|]|by intros _ s' [? _]].
  intros p l s1 Hp. destruct (paying_list_next _ _ _ _ _ Hi0 Hms Hp) as (u&->&Hu&_&Hnext).
  eapply wp_mono; [apply (wp_CompleteUnbonding_at u s1); [apply Hp|done]|]. intros [] s2 Hcp. by apply Hnext.
Qed.

(** ** The delegators are paid *)
Definition pay (t : Z) (a : AccAddress) (u : UnbondingDelegation) : Z :=
  if not_yet t u then 0 else if decide (ub_DelegatorAddr u = a) then ubd_balance u else 0.
Record funded (t : Z) s0 (l : list DVPair) s : Prop := {
  fd_total d : total (st_auth s) d + amt [mkCoin IrisAtto (map_sum ubd_balance (ubds s))] d < 2^255;
  fd_gas : has_gas (st_auth s) (gasAdd * Z.of_nat (length l));
  fd_paid a : balance (st_auth s) a IrisAtto + map_sum (pay t a) (ubds s) = balance (st_auth s0) a IrisAtto + map_sum (pay t a) (ubds s0) }.
Lemma tot_CompleteUnbonding_at u s :
  sinv 0 none s → ubds s !! ubd_key u = Some u → ub_DelegatorAddr u ≠ BurnedCoinsAccAddr → has_gas (st_auth s) gasAdd →
  (∀ d, total (st_auth s) d + amt [mkCoin IrisAtto (map_sum ubd_balance (ubds s))] d < 2^255) →
  tot (ignore_err (CompleteUnbonding (ub_DelegatorAddr u) (ub_ValidatorAddr u)))
    (λ _ s', gas_wf (gas (st_auth s')) ∧ gas_room (gas (st_auth s')) = gas_room (gas (st_auth s)) - gasAdd) s.
Proof.
  intros Hi Hu Hb Hg Hfit. destruct (uo_record _ _ (si_ubds _ _ _ Hi) _ _ Hu) as (_&Hd&Hv&Hden&Hpos&_).
  apply tot_ignore. unfold CompleteUnbonding. apply tot_bind. exists (Some u), s. split; [by apply GetUBD_run|]. apply tot_bind, tot_zoom.
  destruct (ub_Balance u) as [cd cn] eqn:Eb. simpl in Hden, Hpos. subst cd.
  destruct (addCoins_runs (ub_DelegatorAddr u) [mkCoin IrisAtto cn] (st_auth s)) as (r&a'&Hr&Hw&Hroom&_); [apply Hi|done|done|..].
  - apply Coins_IsValid_iff. split_and!; [apply sorted_one|by repeat constructor|by repeat constructor].
  - intros d. pose proof (balance_le_total (st_auth s) (ub_DelegatorAddr u) d (si_auth _ _ _ Hi)) as Hle.
    pose proof (balance_nonneg (st_auth s) (ub_DelegatorAddr u) d (si_auth _ _ _ Hi)) as Hnn. specialize (Hfit d).
    assert (cn ≤ map_sum ubd_balance (ubds s)) as Hcn.
    { assert (ubd_balance u = cn) as <- by (unfold ubd_balance; by rewrite Eb). apply (map_sum_le_key ubd_balance _ (ubd_key u)); [|done].
      intros k w Hw'. by destruct (uo_record _ _ (si_ubds _ _ _ Hi) _ _ Hw') as (_&_&_&_&?&_). }
    unfold int_ok. cbn [amt denom amount] in *. case_decide; lia.
  - exists r, a'. split; [done|]. unfold RemoveUnbondingDelegation. apply tot_bind, tot_modify, tot_modify. done.
Qed.
Lemma map_sum_zero {K V} `{Countable K} (f : V → Z) (m : gmap K V) : (∀ k v, m !! k = Some v → f v = 0) → map_sum f m = 0.
Proof. intros Hf. rewrite (map_sum_ext f (λ _, 0) m Hf). clear. induction m as [|k v m Hk IH] using map_ind; [done|]. by rewrite map_sum_insert_new. Qed.
Lemma funded_next t s0 u l s s' :
  sinv 0 none s → funded t s0 (ubd_pair u :: l) s → ubds s !! ubd_key u = Some u → not_yet t u = false → completed u s s' →
  gas_wf (gas (st_auth s')) → gas_room (gas (st_auth s')) = gas_room (gas (st_auth s)) - gasAdd → funded t s0 l s'.
Proof.
  intros Hi [F1 [_ F2] F3] Hu Hm [_ _ _ C3 _ [_ Hbal Htot]] Hw Hr. destruct (uo_record _ _ (si_ubds _ _ _ Hi) _ _ Hu) as (_&_&_&Hden&_).
  assert (Hamt : ∀ d, amt [ub_Balance u] d = if decide (IrisAtto = d) then ubd_balance u else 0).
  { intros d. unfold ubd_balance. simpl. rewrite Hden. case_decide; lia. }
  split.
  - intros d. rewrite Htot, C3, (map_sum_delete _ _ _ _ Hu), Hamt. specialize (F1 d). cbn [amt denom amount] in *. case_decide; lia.
  - split; [done|]. rewrite Hr. cbn [length] in F2. lia.
  - intros a. rewrite <-F3, C3, (map_sum_delete _ _ _ _ Hu), Hbal, Hamt. rewrite (decide_True (P := IrisAtto = IrisAtto)) by done. unfold pay at 2. rewrite Hm.
    destruct (decide (a = ub_DelegatorAddr u)), (decide (ub_DelegatorAddr u = a)); subst; try done; lia.
Qed.
Lemma tot_complete_unbondings ctx s :
  sinv 0 none s → transit_ok s → in_calendar (BlockTime ctx) → (∀ k u, ubds s !! k = Some u → ub_DelegatorAddr u ≠ BurnedCoinsAccAddr) →
  (∀ d, total (st_auth s) d + amt [mkCoin IrisAtto (map_sum ubd_balance (ubds s))] d < 2^255) →
  has_gas (st_auth s) (gasAdd * Z.of_nat (length (matures (ubdQueue s) (BlockTime ctx)))) →
  ∃ s', complete_unbondings ctx s = (Ok tt, s') ∧ (∀ k, ubds s' !! k = left_of (BlockTime ctx) (ubds s) k) ∧
    (∀ a, balance (st_auth s') a IrisAtto = balance (st_auth s) a IrisAtto + map_sum (pay (BlockTime ctx) a) (ubds s)).
Proof.
  intros Hi Ht Hc Hb Hfit Hgas. destruct (paying_list_start s (BlockTime ctx) Hi Ht) as (Hi0&Hms&Hst).
  rewrite complete_unbondings_unfold. set (s0 := set_ubdQueue _ s) in *. set (ms := matures _ _) in *.
  assert (funded (BlockTime ctx) s0 ms s0) as Hf0 by by split.
  assert (tot (for_each ms (λ p, ignore_err (CompleteUnbonding (dv_DelegatorAddr p) (dv_ValidatorAddr p))))
            (λ _ s', paying_list s0 ms [] s' ∧ funded (BlockTime ctx) s0 [] s') s0) as ([]&s'&Hrun&[Hp _]&[_ _ Hpaid]).
  { apply (tot_for_each_list _ _ (λ l s', paying_list s0 ms l s' ∧ funded (BlockTime ctx) s0 l s')); [done|].
    intros p l s1 [Hp Hf]. destruct (paying_list_next _ _ _ _ _ Hi0 Hms Hp) as (u&->&Hu&Hu0&Hnext). destruct Hp as (Hp&_&Hin).
    assert (sinv 0 none s1) as Hi1 by apply Hp. pose proof Hf as [F1 [Fw F2] F3].
    eapply tot_mono; [apply tot_wp; [apply (tot_CompleteUnbonding_at u s1)|by apply (wp_CompleteUnbonding_at u s1)]|]; [done|done|by eapply Hb| |done|].
    { split; [done|]. cbn [length] in F2. unfold gasAdd, costAddCoins, costGetCoins, costSetCoins in *. lia. }
    intros [] s2 [[Hw Hr] Hcp]. split; [by apply Hnext|]. eapply funded_next; try done.
    apply (matures_ubd s (BlockTime ctx) u Ht Hc); [done|]. apply Hin. by left. }
  exists s'. destruct (paying_end s (BlockTime ctx) s' Hi Ht Hc Hp) as (_&_&_&_&Hu). split_and!; [done|done|].
  intros a. specialize (Hpaid a). change (st_auth s0) with (st_auth s) in Hpaid. change (ubds s0) with (ubds s) in Hpaid.
  rewrite <-Hpaid, (map_sum_zero _ (ubds s')); [lia|]. intros k u Hk. rewrite Hu in Hk. unfold left_of in Hk. unfold pay.
  destruct (ubds s !! k) as [w|]; [|done]. destruct (not_yet (BlockTime ctx) w) eqn:En; [|done]. injection Hk as ->. by rewrite En.
Qed.

(** ** Completing redelegations *)
Lemma dequeue_red_run (slices : list (string * list DVVTriplet)) s :
  for_each slices (λ kv, modify (set_redQueue (delete kv.1))) s = (Ok tt, set_redQueue (λ q, foldl (λ q kv, delete kv.1 q) q slices) s).
Proof.
  revert s. induction slices as [|kv l IH]; intros s; [by destruct s|]. simpl. unfold bind, modify. by rewrite IH.
Qed.
Lemma complete_redelegations_unfold ctx s :
  complete_redelegations ctx s = for_each (matures (redQueue s) (BlockTime ctx))
    (λ t, ignore_err (CompleteRedelegation ctx (dvv_DelegatorAddr t) (dvv_ValidatorSrcAddr t) (dvv_ValidatorDstAddr t)))
    (set_redQueue (λ _, drop_due (redQueue s) (BlockTime ctx)) s).
Proof. unfold complete_redelegations, DequeueAllMatureRedelegationQueue. unfold bind at 1 2 3, gets. rewrite dequeue_red_run. done. Qed.
Lemma GetRED_run r s :
  reds s !! red_key r = Some r → red_addrs r →
  GetRedelegation (rd_DelegatorAddr r) (rd_ValidatorSrcAddr r) (rd_ValidatorDstAddr r) s = (Ok (Some r), s).
Proof.
  intros Hr (Hd&Hv&Hw). unfold GetRedelegation, bind, gets. unfold red_key in Hr. rewrite Hr. unfold unmarshal, bind, expect.
  rewrite bool_decide_eq_true_2; [done|]. unfold GetREDKey. rewrite !addr_field_id, !str_len_app, Hd, Hv, Hw by done. done.
Qed.
(** A mature redelegation is removed. *)
Lemma CompleteRedelegation_run ctx r s :
  reds s !! red_key r = Some r → red_addrs r → rd_MinTime r ≤ BlockTime ctx →
  ignore_err (CompleteRedelegation ctx (rd_DelegatorAddr r) (rd_ValidatorSrcAddr r) (rd_ValidatorDstAddr r)) s = (Ok tt, drop_red r s).
Proof.
  intros Hr Ha Hle. unfold ignore_err, CompleteRedelegation. rewrite (bind_run _ _ _ _ _ (GetRED_run r s Hr Ha)).
  unfold bind at 1, require. by destruct (Z.ltb_spec (BlockTime ctx) (rd_MinTime r)); [lia|].
Qed.
Definition red_left_of (t : Z) (rs : gmap string Redelegation) (k : string) : option Redelegation :=
  match rs !! k with Some r => if t <? rd_MinTime r then Some r else None | None => None end.
Lemma matures_red s t r :
  transit_ok s → in_calendar t → reds s !! red_key r = Some r → red_triple r ∈ matures (redQueue s) t ↔ rd_MinTime r ≤ t.
Proof.
  intros Ht Hc Hr. assert (red_due s (red_triple r) = Some (rd_MinTime r)) as Hd by (apply red_due_iff; eauto).
  rewrite (matures_elem (red_due s)) by apply Ht. rewrite Hd. pose proof (to_red_time _ Ht _ _ Hd) as Hrt. split.
  - intros (t'&[= <-]&Hn). by apply FormatTimeBytes_due in Hn.
  - intros Hle. exists (rd_MinTime r). split; [done|]. by apply FormatTimeBytes_due.
Qed.
(** What is left of the redelegations when [l] of the mature ones [ms] remain. *)
Record closing s0 (ms l : list DVVTriplet) s : Prop := {
  cl_inv : sinv 0 none s;
  cl_steady : steady s0 s;
  cl_vals : validators s = validators s0;
  cl_rest : redQueue s = redQueue s0 ∧ ubds s = ubds s0 ∧ ubdQueue s = ubdQueue s0;
  cl_nodup : NoDup l;
  cl_in t : t ∈ l → t ∈ ms;
  cl_reds k : reds s !! k = match reds s0 !! k with
                            | Some r => if decide (red_triple r ∈ ms ∧ red_triple r ∉ l) then None else Some r
                            | None => None
                            end }.
Lemma red_key_triple r w : red_triple r = red_triple w → red_key r = red_key w.
Proof. unfold red_triple, red_key. by intros [= -> -> ->]. Qed.
Lemma closing_next s0 ms l r s :
  sinv 0 none s0 → closing s0 ms (red_triple r :: l) s → reds s0 !! red_key r = Some r →
  reds s !! red_key r = Some r ∧ closing s0 ms l (drop_red r s).
Proof.
  intros Hs0 [P1 P2 Pv P3 [Hrl Hnd]%NoDup_cons P4 P5] Hr.
  assert (reds s !! red_key r = Some r) as Hrs.
  { rewrite P5, Hr, decide_False; [done|]. intros [_ E]. apply E. by left. }
  split; [done|]. split; [by apply sinv_drop_red|etrans; [done|by apply steady_fields]|done|done|done|intros t Hin; apply P4; by right|].
  intros k. simpl. destruct (decide (k = red_key r)) as [->|Hne].
  - rewrite lookup_delete_eq, Hr, decide_True; [done|]. split; [apply P4; by left|done].
  - rewrite lookup_delete_ne, P5 by done. destruct (reds s0 !! k) as [w|] eqn:Ew; [|done].
    destruct (red_record _ _ _ _ _ (si_reds _ _ _ Hs0) Ew) as (->&_).
    assert (red_triple w ≠ red_triple r) by (intros E; by apply Hne, red_key_triple).
    destruct (decide (red_triple w ∈ ms ∧ red_triple w ∉ red_triple r :: l)), (decide (red_triple w ∈ ms ∧ red_triple w ∉ l)); set_solver.
Qed.
(** The loop always returns, and removes exactly the mature redelegations. *)
Lemma tot_complete_redelegations ctx s :
  sinv 0 none s → transit_ok s → in_calendar (BlockTime ctx) →
  ∃ s', complete_redelegations ctx s = (Ok tt, s') ∧ sinv 0 none s' ∧ steady s s' ∧ transit_ok s' ∧ ubds s' = ubds s ∧
    validators s' = validators s ∧ st_auth s' = st_auth s ∧ ∀ k, reds s' !! k = red_left_of (BlockTime ctx) (reds s) k.
Proof.
  intros Hi Ht Hc. rewrite complete_redelegations_unfold. set (s0 := set_redQueue _ s). set (ms := matures _ _).
  assert (sinv 0 none s0) as Hi0 by same_stores.
  assert (tot (for_each ms (λ t, ignore_err (CompleteRedelegation ctx (dvv_DelegatorAddr t) (dvv_ValidatorSrcAddr t) (dvv_ValidatorDstAddr t))))
            (λ _ s', closing s0 ms [] s' ∧ st_auth s' = st_auth s) s0) as ([]&s'&Hrun&[C1 C2 Cv (C3&C4&C5) _ _ C6]&Ha).
  { apply (tot_for_each_list _ _ (λ l s', closing s0 ms l s' ∧ st_auth s' = st_auth s)).
    - split; [|done]. split; try done; [eapply matures_NoDup, Ht|]. intros k. destruct (reds s0 !! k); [|done]. by rewrite decide_False by tauto.
    - intros t l s1 [Hcl Ha]. assert (t ∈ ms) as Hin by (eapply cl_in; [done|by left]).
      pose proof Hin as (t'&(r&Hr&->&Et)%red_due_iff&_)%(matures_elem (red_due s)); [|apply Ht].
      destruct (closing_next _ _ _ _ _ Hi0 Hcl Hr) as [Hr1 Hnext]. apply (matures_red s _ r Ht Hc Hr) in Hin.
      destruct (red_record _ _ _ _ _ (si_reds _ _ _ Hi) Hr) as (_&Hok). eexists tt, _.
      split; [by apply CompleteRedelegation_run; [|apply Hok|]|]. done. }
  exists s'. simpl in C3, C4, C5. split; [done|].
  assert (Hreds : ∀ k, reds s' !! k = red_left_of (BlockTime ctx) (reds s) k).
  { intros k. rewrite C6. unfold red_left_of. simpl. destruct (reds s !! k) as [r|] eqn:Er; [|done].
    destruct (red_record _ _ _ _ _ (si_reds _ _ _ Hi) Er) as (->&_). pose proof (matures_red s _ r Ht Hc Er) as Hm. fold ms in Hm.
    destruct (Z.ltb_spec (BlockTime ctx) (rd_MinTime r)); [rewrite decide_False by (rewrite Hm; lia)|rewrite decide_True by (rewrite Hm; set_solver)]; done. }
  assert (Hd : ∀ p, red_due s' p = if decide (p ∈ ms) then None else red_due s p).
  { intros p. apply option_eq. intros x. rewrite red_due_iff. split.
    - intros (r&Hr&->&<-). rewrite Hreds in Hr. unfold red_left_of in Hr. destruct (reds s !! red_key r) as [w|] eqn:Ew; [|done].
      destruct (Z.ltb_spec (BlockTime ctx) (rd_MinTime w)); [|done]. injection Hr as ->.
      rewrite decide_False by (unfold ms; rewrite matures_red by done; lia). apply red_due_iff. eauto.
    - case_decide as Hm; [done|]. intros (r&Hr&->&<-)%red_due_iff. exists r. split; [|done]. rewrite Hreds. unfold red_left_of. rewrite Hr.
      destruct (Z.ltb_spec (BlockTime ctx) (rd_MinTime r)); [done|]. destruct Hm. by apply matures_red. }
  assert (Hu : ∀ p, ubd_due s' p = ubd_due s p) by (intros p; unfold ubd_due; by rewrite C4).
  split_and!; [done|etrans; [|exact C2]; by apply steady_fields| |done|done|done|done]. split.
  - rewrite C5. eapply queue_ext; [exact Hu|apply Ht].
  - rewrite C3. eapply queue_drop_due; [exact Hd|apply Ht].
  - intros p x. rewrite Hu. apply Ht.
  - intros p x. rewrite Hd. case_decide; [done|]. apply Ht.
Qed.
End due.
End StakeDue.
