(* ===== verification/StakeThms.v ===== *)
(** * Staking: the checks of the module at run time (app/v1/stake/invariants.go)

    The application runs them at the end of a block.  A panic in a check counts as
    its failure. *)

From Stdlib Require Import Ascii.
From S2P Require Import Prelude SdkErrors Frame IntType GoStrings Denom Coin CoinFacts Dec TimeBytes Gas KVStore Auth Bank BankFacts BankBurn BankFrame StakeTypes Stake StakeFacts StakeInv StakeFrame StakeSlash StakeSet StakeApply StakeDue.
#[local] Open Scope Z_scope.

Module StakeChecks.
Import StakeTypes Stake StakeFacts StakeInv.

Definition add_all {A} (f : A → Dec) (l : list A) (acc : Dec) : Outcome Dec :=
  foldl (λ o a, let? z := o in Dec_Add z (f a)) (Ok acc) l.
(** [defer recover]. *)
Definition passes {S A} (c : M S A) (s : S) : bool := match (c s).1 with Ok _ => true | _ => false end.

Section checks.
Context {X : Type} `{Crypto, ConsCrypto, StakingHooks X}.
Abbreviation SM := (M (StakeState X)).
(** The loose tokens that the fee collector and the distribution module hold, in
    the order they are added. *)
Variable held_tokens : X → Outcome (list Dec).

Definition loose_account (acc : BaseAccount) : Dec :=
  if AccAddress_Equals (acc_Address acc) BurnedCoinsAccAddr then ZeroDec
  else AmountOf (acc_Coins acc) StakeDenom * precisionReuse.
Definition SupplyInvariants : SM unit :=
  pool <- GetPool ;;
  s <- get ;;
  loose <- lift (add_all loose_account (entries (accounts (st_auth s))).*2 ZeroDec) ;;
  let us := (entries (ubds s)).*2 in
  expect (forallb (λ u, negb (Int_LT (amount (ub_Balance u)) 0)) us) "found negative balance in unbonding delegation" ;;;
  loose <- lift (add_all (λ u, amount (ub_Balance u) * precisionReuse) us loose) ;;
  let vals := GetAllValidators s in
  bonded <- lift (add_all v_Tokens (filter (λ v, v_Status v = Bonded) vals) ZeroDec) ;;
  loose <- lift (add_all v_Tokens (filter (λ v, v_Status v ≠ Bonded) vals) loose) ;;
  loose <- lift (let? l := held_tokens (st_other s) in add_all (λ d, d) l loose) ;;
  looseTokens <- on_auth GetLoosenTokenAmount ;;
  require (Dec_Equal looseTokens loose) fmt_Errorf ;;;
  require (Dec_Equal (BondedPool pool) bonded) fmt_Errorf.

Fixpoint power_entries (l : list (string * ValAddress)) : SM unit :=
  match l with
  | [] => ret tt
  | (key, a) :: l =>
      v <- mustGetValidator a ;;
      powerKey <- lift (getValidatorPowerRank v) ;;
      require (bool_decide (key = powerKey)) fmt_Errorf ;;;
      require (negb (Dec_IsNegative (v_Tokens v))) fmt_Errorf ;;;
      require (negb (negb (Dec_IsZero (v_Tokens v)) && Dec_IsZero (v_DelegatorShares v))) fmt_Errorf ;;;
      power_entries l
  end.
Definition NonNegativePowerInvariant : SM unit :=
  l <- gets (λ s, rev (entries (byPower s))) ;; GetPool ;;; power_entries l.
Definition PositiveDelegationInvariant : SM unit :=
  l <- gets GetAllDelegations ;;
  for_each l (λ d, require (negb (Dec_IsNegative (d_Shares d))) fmt_Errorf ;;; require (negb (Dec_IsZero (d_Shares d))) fmt_Errorf).
Definition DelegatorSharesInvariant : SM unit :=
  l <- gets GetAllValidators ;;
  for_each l (λ v,
    ds <- gets (GetValidatorDelegations (v_OperatorAddr v)) ;;
    total <- lift (add_all d_Shares ds ZeroDec) ;;
    require (Dec_Equal (v_DelegatorShares v) total) fmt_Errorf).
Definition stake_AllInvariants : SM unit :=
  SupplyInvariants ;;; NonNegativePowerInvariant ;;; PositiveDelegationInvariant ;;; DelegatorSharesInvariant.
End checks.

(** ** They pass *)
Definition dec_fits (z : Z) : Prop := z < 2^289.
Lemma Dec_Add_fits a b : 0 ≤ a + b → dec_fits (a + b) → Dec_Add a b = Ok (a + b).
Proof.
  intros Hp Hf. unfold Dec_Add, dec_checked, DecimalPrecisionBits, dec_fits in *.
  pose proof (BitLen_le (a + b) 289 ltac:(lia)) as Hb. destruct (Z.ltb_spec (255 + 34) (BitLen (a + b))); [lia|done].
Qed.
Lemma add_all_ok {A} (f : A → Dec) l acc :
  Forall (λ a, 0 ≤ f a) l → 0 ≤ acc → dec_fits (acc + list_sum f l) → add_all f l acc = Ok (acc + list_sum f l).
Proof.
  intros Hf. revert acc. induction Hf as [|a l Hfa Hf IH]; intros acc Ha Hfit; [simpl; by rewrite Z.add_0_r|].
  unfold add_all in *. cbn [foldl list_sum obind] in *. pose proof (list_sum_nonneg f l Hf). unfold dec_fits in *.
  rewrite Dec_Add_fits by (unfold dec_fits; lia). rewrite IH; [f_equal; lia|lia|lia].
Qed.
Lemma list_sum_entries {V} (f : V → Z) (m : gmap string V) : list_sum f (entries m).*2 = map_sum f m.
Proof. rewrite map_sum_list. apply list_sum_perm. by rewrite entries_perm. Qed.
Lemma entries_value {V} (m : gmap string V) v : v ∈ (entries m).*2 → ∃ k, m !! k = Some v.
Proof. intros ([k w]&->&Hin%entries_elem)%list_elem_of_fmap. eauto. Qed.
Lemma list_sum_filter {A} (Q : A → Prop) `{∀ a, Decision (Q a)} (f : A → Z) l :
  list_sum f (filter Q l) = list_sum (λ a, if decide (Q a) then f a else 0) l.
Proof. induction l as [|a l IH]; [done|]. rewrite filter_cons. case_decide; simpl; rewrite IH; [by rewrite decide_True|rewrite decide_False by done; lia]. Qed.

Lemma Forall_in_filter {A} (Q R : A → Prop) `{∀ a, Decision (Q a)} l : Forall R l → Forall R (filter Q l).
Proof. rewrite !Forall_forall. intros Hr a [_ Ha]%list_elem_of_filter. auto. Qed.
Section pass.
Context {X : Type} `{Crypto, ConsCrypto, StakingHooks X, !HookLaws X}.
Implicit Types s : StakeState X.
Lemma passes_tot {S A} (c : M S A) (s : S) : tot c (λ _ _, True) s → passes c s = true.
Proof. intros (a&s'&E&_). unfold passes. by rewrite E. Qed.
Lemma tot_expect {S} b w (Q : unit → S → Prop) (s : S) : b = true → Q tt s → tot (expect b w) Q s.
Proof. intros -> HQ. by apply tot_ret. Qed.
Lemma tot_GetPool (Q : Pool → StakeState X → Prop) s p : pool s = Some p → Q p s → tot GetPool Q s.
Proof. intros Hp HQ. unfold GetPool. apply tot_bind, tot_gets. rewrite Hp. by apply tot_ret. Qed.
Lemma tot_mustGetValidator a v (Q : Validator → StakeState X → Prop) s :
  validators s !! a = Some v → is_addr a → Q v s → tot (mustGetValidator a) Q s.
Proof.
  intros Hv Ha HQ. unfold mustGetValidator, GetValidator, unmarshal. repeat apply tot_bind. apply tot_gets. rewrite Hv.
  repeat apply tot_bind. apply tot_expect; [by apply bool_decide_eq_true|]. by repeat apply tot_ret.
Qed.
Lemma power_check_passes s : sinv 0 none s → passes NonNegativePowerInvariant s = true.
Proof.
  intros Hi. apply passes_tot. unfold NonNegativePowerInvariant. apply tot_bind, tot_gets, tot_bind.
  destruct (si_pool _ _ _ Hi) as (p&Hp&_). eapply tot_GetPool; [done|].
  assert (∀ k a, (k, a) ∈ rev (entries (byPower s)) → byPower s !! k = Some a) as Hl.
  { intros k a Hin. rewrite <-(Permutation_rev (entries (byPower s))) in Hin. by apply entries_elem. }
  induction (rev (entries (byPower s))) as [|[k a] l IH]; cbn [power_entries]; [by apply tot_ret|].
  destruct (proj1 (si_index _ _ _ Hi k a) (Hl k a ltac:(by left))) as (v&Hv&_&Hk). destruct (si_vals _ _ _ Hi _ _ Hv) as [Ea Hvo].
  apply tot_bind. eapply tot_mustGetValidator; [done|rewrite <-Ea; apply Hvo|]. apply tot_bind. eapply tot_lift; [done|].
  destruct Hvo as [_ V2 _ V4 V5]. apply tot_bind, tot_require; [by apply bool_decide_eq_true|].
  apply tot_bind, tot_require. { unfold Dec_IsNegative. pose proof (Z.sgn_neg_iff (v_Tokens v)). destruct (Z.eqb_spec (Z.sgn (v_Tokens v)) (-1)); [lia|done]. }
  apply tot_bind, tot_require.
  { destruct (Dec_IsZero (v_DelegatorShares v)) eqn:Ez; [|by rewrite andb_false_r]. apply Dec_IsZero_iff, V5 in Ez. by rewrite Ez. }
  apply IH. intros j b Hin. apply Hl. by right.
Qed.
Lemma shares_check_passes s :
  sinv 0 none s → (∀ a v, validators s !! a = Some v → dec_fits (v_DelegatorShares v)) → passes DelegatorSharesInvariant s = true.
Proof.
  intros Hi Hfit. apply passes_tot. unfold DelegatorSharesInvariant. apply tot_bind, tot_gets.
  assert (∀ v, v ∈ GetAllValidators s → ∃ a, validators s !! a = Some v) as Hl by (intros v; apply entries_value).
  induction (GetAllValidators s) as [|v l IH]; [by apply tot_ret|].
  change (tot (bind (ds <- gets (GetValidatorDelegations (v_OperatorAddr v)) ;; total <- lift (add_all d_Shares ds ZeroDec) ;;
    require (Dec_Equal (v_DelegatorShares v) total) fmt_Errorf) (λ _, for_each l (λ v,
    ds <- gets (GetValidatorDelegations (v_OperatorAddr v)) ;; total <- lift (add_all d_Shares ds ZeroDec) ;;
    require (Dec_Equal (v_DelegatorShares v) total) fmt_Errorf))) (λ _ _, True) s).
  destruct (Hl v ltac:(by left)) as [a Hv]. destruct (si_vals _ _ _ Hi _ _ Hv) as [Ea _].
  assert (list_sum d_Shares (GetValidatorDelegations (v_OperatorAddr v) s) = v_DelegatorShares v) as Hsum.
  { unfold GetValidatorDelegations, GetAllDelegations. rewrite list_sum_filter. change (list_sum (shares_to (v_OperatorAddr v)) (entries (delegations s)).*2 = v_DelegatorShares v).
    rewrite list_sum_entries. pose proof (si_shares _ _ _ Hi a) as Hs. unfold shares_of, none in Hs. rewrite Hv in Hs. rewrite Ea. lia. }
  repeat apply tot_bind. apply tot_gets, tot_bind. eapply tot_lift.
  { apply add_all_ok; [|done|rewrite Hsum; eapply Hfit; exact Hv].
    apply Forall_forall. intros d (_&[k Hk]%entries_value)%list_elem_of_filter. by destruct (si_dels _ _ _ Hi _ _ Hk) as (_&_&_&?). }
  apply tot_require; [unfold Dec_Equal; rewrite Hsum; apply Z.eqb_refl|]. apply IH. intros w Hw. apply Hl. by right.
Qed.
(** The tokens counted on each side. *)
Lemma loose_account_sum s :
  auth_wf (st_auth s) → map_sum loose_account (accounts (st_auth s)) = circulating (st_auth s) * P.
Proof.
  intros Hw. assert (∀ a acc, accounts (st_auth s) !! a = Some acc →
    loose_account acc = if decide (a = BurnedCoinsAccAddr) then 0 else amt (acc_Coins acc) IrisAtto * P) as Hacc.
  { intros a acc Ha. unfold loose_account. rewrite (wf_address _ Hw _ _ Ha). pose proof (AccAddress_Equals_iff a BurnedCoinsAccAddr) as Hb.
    pose proof (wf_canonical _ Hw a) as [Hs _]. rewrite (coins_of_Some _ _ _ Ha) in Hs. rewrite (AmountOf_amt _ _ Hs).
    destruct (AccAddress_Equals a BurnedCoinsAccAddr); case_decide; naive_solver. }
  unfold circulating, total, balance, coins_of. revert Hacc. generalize (accounts (st_auth s)) as m. clear. intros m Hacc.
  assert (∀ m' : gmap AccAddress BaseAccount, (∀ a acc, m' !! a = Some acc → m !! a = Some acc) → m' !! BurnedCoinsAccAddr = None →
    map_sum loose_account m' = map_sum (λ acc, amt (acc_Coins acc) IrisAtto) m' * P) as Hrest.
  { induction m' as [|a acc m' Ha IH] using map_ind; intros Hm Hb; [by rewrite !map_sum_empty|].
    rewrite !map_sum_insert_new by done. apply lookup_insert_None in Hb as [Hb Hab].
    rewrite IH; [|intros b x Hx; apply Hm; rewrite lookup_insert_ne; [done|congruence]|done].
    rewrite (Hacc a acc) by (apply Hm; by rewrite lookup_insert_eq). rewrite decide_False by done. ring. }
  destruct (m !! BurnedCoinsAccAddr) as [b|] eqn:Eb.
  - pose proof (map_sum_delete loose_account _ _ _ Eb) as E1. pose proof (map_sum_delete (λ acc, amt (acc_Coins acc) IrisAtto) _ _ _ Eb) as E2.
    rewrite (Hacc _ _ Eb), decide_True in E1 by done. rewrite (Hrest (delete BurnedCoinsAccAddr m)) in E1; [rewrite E2 in E1; lia| |by rewrite lookup_delete_eq].
    by intros a acc [_ ?]%lookup_delete_Some.
  - rewrite Hrest by done. simpl. lia.
Qed.
Definition fits s : Prop :=
  loosen (st_auth s) IrisAtto < 2^255 ∧ (∀ p, pool s = Some p → dec_fits (BondedPool p)) ∧
  (∀ a v, validators s !! a = Some v → dec_fits (v_DelegatorShares v)) ∧ has_gas (st_auth s) costGetLoosenCoins.
(** How a computation ends. *)
Definition ends {S A} (c : M S A) (o : Outcome A) (s : S) : Prop := (c s).1 = o.
Lemma ends_bind {S A B} (c : M S A) (k : A → M S B) o (s : S) : tot c (λ a, ends (k a) o) s → ends (bind c k) o s.
Proof. intros (a&s'&E&He). unfold ends. by rewrite (bind_run _ _ _ _ _ E). Qed.
(** The check of the supply compares what the other modules hold with what they
    should. *)
Lemma supply_check held_tokens l s :
  sinv 0 none s → fits s → held_tokens (st_other s) = Ok l → Forall (λ d, 0 ≤ d) l → 0 ≤ held (st_other s) →
  Z.abs (held (st_other s) - list_sum (λ d, d) l) < 2^256 →
  ends (SupplyInvariants held_tokens) (if decide (list_sum (λ d, d) l = held (st_other s)) then Ok tt else Err fmt_Errorf) s.
Proof.
  intros Hi (Hl&Hb&_&Hg) Hhl Hln Hh Hnear. unfold SupplyInvariants. destruct (si_pool _ _ _ Hi) as (p&Hp&Ep).
  apply ends_bind. eapply tot_GetPool; [done|]. apply ends_bind, tot_get.
  set (us := (entries (ubds s)).*2). set (vals := GetAllValidators s).
  assert (Hus : Forall (λ u, 0 ≤ amount (ub_Balance u)) us).
  { apply Forall_forall. intros u [k Hk]%entries_value. by destruct (uo_record _ _ (si_ubds _ _ _ Hi) _ _ Hk) as (_&_&_&_&?&_). }
  assert (Hvs : Forall (λ v, 0 ≤ v_Tokens v) vals).
  { apply Forall_forall. intros v [k Hk]%entries_value. by destruct (si_vals _ _ _ Hi _ _ Hk) as [_ []]. }
  assert (E1 : list_sum loose_account (entries (accounts (st_auth s))).*2 = circulating (st_auth s) * P).
  { rewrite list_sum_entries. apply loose_account_sum, Hi. }
  assert (E2 : list_sum (λ u, amount (ub_Balance u) * P) us = map_sum ubd_balance (ubds s) * P).
  { unfold us. rewrite list_sum_entries. unfold ubd_balance. generalize (ubds s) as m. induction m as [|k u m Hk IH] using map_ind; [done|].
    rewrite !map_sum_insert_new, IH by done. lia. }
  assert (E3 : list_sum v_Tokens (filter (λ v, v_Status v = Bonded) vals) = BondedPool p).
  { rewrite Ep, list_sum_filter, <-list_sum_entries. done. }
  assert (E4 : list_sum v_Tokens (filter (λ v, v_Status v ≠ Bonded) vals) = map_sum loose_tokens (validators s)).
  { rewrite list_sum_filter, <-list_sum_entries. apply list_sum_ext. intros v _. unfold loose_tokens. repeat case_decide; done. }
  pose proof (si_ledger _ _ _ Hi) as Hled. unfold gap in Hled.
  assert (0 ≤ circulating (st_auth s)) as Hc.
  { unfold circulating. pose proof (balance_le_total (st_auth s) BurnedCoinsAccAddr IrisAtto (si_auth _ _ _ Hi)). lia. }
  assert (0 ≤ map_sum ubd_balance (ubds s)) as Hu0 by (unfold us in Hus; rewrite <-list_sum_entries; by apply list_sum_nonneg).
  assert (0 ≤ map_sum loose_tokens (validators s)) as Hv0.
  { rewrite <-E4. by apply list_sum_nonneg, Forall_in_filter. }
  assert (P * 2^255 + 2^256 < 2^289) as HP by done. unfold dec_fits in *. set (lo := loosen (st_auth s) IrisAtto) in *. pose proof P_pos.
  apply ends_bind. eapply tot_lift.
  { apply add_all_ok; [|done|rewrite E1; unfold dec_fits, ZeroDec; nia]. apply Forall_forall. intros acc [k Hk]%entries_value.
    unfold loose_account. case_match; [done|]. pose proof (wf_amt_nonneg _ IrisAtto _ _ (si_auth _ _ _ Hi) Hk).
    pose proof (wf_canonical _ (si_auth _ _ _ Hi) k) as [Hs _]. rewrite (coins_of_Some _ _ _ Hk) in Hs. rewrite (AmountOf_amt _ _ Hs). change StakeDenom with IrisAtto. nia. }
  apply ends_bind, tot_expect.
  { apply forallb_forall. intros u Hin%list_elem_of_In. rewrite Forall_forall in Hus. specialize (Hus _ Hin). unfold Int_LT.
    destruct (Z.ltb_spec (amount (ub_Balance u)) 0); [lia|done]. }
  apply ends_bind. eapply tot_lift.
  { apply add_all_ok; [|rewrite E1; unfold ZeroDec; nia|rewrite E1, E2; unfold dec_fits, ZeroDec; nia]. apply (Forall_impl _ _ _ Hus). intros u Hx. nia. }
  apply ends_bind. eapply tot_lift.
  { apply add_all_ok; [by apply Forall_in_filter|done|]. rewrite E3. apply (Hb p Hp). }
  apply ends_bind. eapply tot_lift.
  { apply add_all_ok; [by apply Forall_in_filter|rewrite E1, E2; unfold ZeroDec; nia|]. rewrite E1, E2, E4. unfold dec_fits, ZeroDec. nia. }
  apply ends_bind. eapply tot_lift.
  { rewrite Hhl. cbn [obind]. apply add_all_ok; [done|rewrite E1, E2, E4; unfold ZeroDec; nia|]. rewrite E1, E2, E4. unfold dec_fits, ZeroDec. nia. }
  apply ends_bind, tot_zoom. destruct (ConsumeGas_runs costGetLoosenCoins "getLoosenCoins" (st_auth s) Hg ltac:(done)) as ([]&a1&Ha1&_&_&g&->).
  exists (lo * P), (set_gas g (st_auth s)). split.
  { assert (getLoosenCoins (st_auth s) = (Ok (default [] (totalLoosenToken (st_auth s))), set_gas g (st_auth s))) as Hrun.
    { unfold getLoosenCoins. by rewrite (bind_run _ _ _ _ _ Ha1). }
    unfold GetLoosenTokenAmount. rewrite (bind_run _ _ _ _ _ Hrun). unfold lift. rewrite NewDecFromInt_ok.
    rewrite AmountOf_amt by apply (si_loose _ _ _ Hi). done. }
  case_decide as Eh.
  - apply ends_bind, tot_require; [unfold Dec_Equal; rewrite E1, E2, E4; apply Z.eqb_eq; unfold ZeroDec; lia|].
    unfold ends, require, Dec_Equal. rewrite E3. by rewrite Z.eqb_refl.
  - unfold ends, require, Dec_Equal. rewrite E1, E2, E4. rewrite (proj2 (Z.eqb_neq _ _)); [done|]. unfold ZeroDec. lia.
Qed.
End pass.
End StakeChecks.

(** * Staking: what the module guarantees *)
Module StakeThms.
Import StakeTypes Stake StakeFacts StakeQueue StakeInv StakeFrame StakeOps StakeSlash StakeSet StakeApply StakeDue StakeChecks.

(** ** The order of the power index *)
Lemma inv_bytes_lt a b : str_len a = str_len b → str_lt (inv_bytes a) (inv_bytes b) → str_lt b a.
Proof.
  unfold inv_bytes. rewrite <-(str_chars a), <-(str_chars b), !chars_str. unfold str_len. rewrite !chars_str. generalize (chars a) (chars b). clear.
  induction l as [|x l IH]; intros [|y k] Hl; try done.
  injection Hl as Hl. cbn [fmap list_fmap].
  assert (∀ c, byte_val (inv_byte c) = 255 - byte_val c) as Hi.
  { intros c. unfold byte_val, inv_byte. pose proof (Ascii.N_ascii_bounded c). rewrite Ascii.N_ascii_embedding by lia. lia. }
  destruct (Z.lt_total (byte_val x) (byte_val y)) as [Hxy|[Hxy|Hxy]].
  - intros Hlt. exfalso. apply (str_lt_irrefl (str (inv_byte x :: (inv_byte <$> l)))). etrans; [exact Hlt|].
    apply str_lt_head. rewrite !Hi. lia.
  - apply byte_val_inj in Hxy as ->. intros Hlt. apply str_lt_cons, IH; [done|].
    change (str_lt (str [inv_byte y] +:+ str (inv_byte <$> l)) (str [inv_byte y] +:+ str (inv_byte <$> k))) in Hlt.
    unfold str_lt in *. simpl in Hlt. unfold Ascii.compare in Hlt. by rewrite N.compare_refl in Hlt.
  - intros _. by apply str_lt_head.
Qed.
Lemma potential_power_range v p : 0 ≤ v_Tokens v → potential_power v = Ok p → 0 ≤ p < 2^63.
Proof.
  intros Ht. unfold potential_power, GetPotentialPower, Dec_QuoInt, big_Quo. cbn [obind].
  destruct (AttoScaleFactor =? 0) eqn:E; [done|]. cbn [obind]. unfold Dec_RoundInt64, is_int64.
  assert (0 ≤ chopPrecisionAndRound (Z.quot (v_Tokens v) AttoScaleFactor)) as Hc.
  { apply chop_pos. rewrite Z.quot_div_nonneg by done. by apply Z.div_pos. }
  case_match eqn:Eb; [|done]. intros [= <-]. lia.
Qed.
(** [v] comes before [w] in the index. *)
Definition before (v w : Validator) : Prop := ∀ p q, potential_power v = Ok p → potential_power w = Ok q →
  q < p ∨ (q = p ∧ str_lt (v_OperatorAddr v) (v_OperatorAddr w)).
Lemma rank_order v w k j :
  val_ok v → val_ok w → getValidatorPowerRank v = Ok k → getValidatorPowerRank w = Ok j → ¬ str_lt k j → v_OperatorAddr v ≠ v_OperatorAddr w →
  before v w.
Proof.
  intros Hv Hw (p&Hp&->)%rank_ok (q&Hq&->)%rank_ok Hlt Hne p' q' Hp' Hq'. rewrite Hp in Hp'. rewrite Hq in Hq'.
  injection Hp' as <-. injection Hq' as <-. pose proof (potential_power_range v p (vo_tokens _ Hv) Hp). pose proof (potential_power_range w q (vo_tokens _ Hw) Hq).
  assert (wrap64 p = p) as Ewp by (unfold wrap64; apply Z.mod_small; lia). assert (wrap64 q = q) as Ewq by (unfold wrap64; apply Z.mod_small; lia).
  rewrite Ewp, Ewq in Hlt. rewrite !addr_field_id in Hlt by (unfold is_addr; rewrite inv_bytes_len; by apply vo_addr).
  destruct (Z.lt_total p q) as [Hpq|[->|Hpq]]; [|right; split; [done|]|by left].
  - destruct Hlt. rewrite <-(str_chars (Uint64ToBigEndian p)), <-(str_chars (Uint64ToBigEndian q)), <-(str_chars (inv_bytes (v_OperatorAddr v))), <-(str_chars (inv_bytes (v_OperatorAddr w))), <-!str_app.
    apply str_lt_same_len; [apply (Uint64ToBigEndian_length)|]. rewrite !str_chars. apply Uint64ToBigEndian_order; lia.
  - destruct (str_lt_total (inv_bytes (v_OperatorAddr v)) (inv_bytes (v_OperatorAddr w))) as [Hl|[Hl|Hl]].
    + destruct Hlt. by apply str_lt_app_l.
    + by apply inv_bytes_inj in Hl.
    + apply inv_bytes_lt in Hl; [done|]. rewrite (vo_addr _ Hv), (vo_addr _ Hw). done.
Qed.

Section thms.
Context {X : Type} `{Crypto, ConsCrypto, StakingHooks X, !HookLaws X}.
Implicit Types s : StakeState X.
Lemma iterator_order s top rest a b v w :
  sinv 0 none s → ValidatorsPowerStoreIterator s = top ++ rest → a ∈ top → b ∈ rest →
  validators s !! a = Some v → validators s !! b = Some w → before v w.
Proof.
  intros Hi El Ha Hb Hv Hw. pose proof (iterator_listed s Hi) as [Hnd _]. rewrite El in Hnd. apply NoDup_app in Hnd as (_&Hnd&_).
  assert (a ≠ b) as Hab by (intros ->; by eapply Hnd). unfold ValidatorsPowerStoreIterator in El. apply (f_equal (@rev _)) in El. rewrite rev_involutive, rev_app_distr in El.
  apply fmap_app_inv in El as (l1&l2&E1&E2&El). pose proof (entries_sorted (byPower s)) as Hs. rewrite El in Hs.
  rewrite (Permutation_rev rest), E1 in Hb. rewrite (Permutation_rev top), E2 in Ha.
  apply list_elem_of_fmap in Ha as ([k a']&->&Hka). apply list_elem_of_fmap in Hb as ([j b']&->&Hjb). simpl in *.
  pose proof (StronglySorted_app_1_elem_of _ _ _ _ _ Hs Hjb Hka) as Hle. unfold key_le in Hle. simpl in Hle.
  assert (byPower s !! k = Some a') as Hk by (apply entries_elem; rewrite El; apply elem_of_app; by right).
  assert (byPower s !! j = Some b') as Hj by (apply entries_elem; rewrite El; apply elem_of_app; by left).
  apply (si_index _ _ _ Hi) in Hk as (v'&Hv'&_&Hk). apply (si_index _ _ _ Hi) in Hj as (w'&Hw'&_&Hj).
  rewrite Hv in Hv'. injection Hv' as <-. rewrite Hw in Hw'. injection Hw' as <-.
  destruct (si_vals _ _ _ Hi _ _ Hv) as [Ea Hvo]. destruct (si_vals _ _ _ Hi _ _ Hw) as [Eb Hwo].
  eapply rank_order; try done. by rewrite Ea, Eb.
Qed.

(** ** The set that a block leaves *)
Definition candidate s (a : ValAddress) (v : Validator) (p : Z) : Prop :=
  validators s !! a = Some v ∧ v_Jailed v = false ∧ potential_power v = Ok p ∧ p ≠ 0.
Record best_set s : Prop := {
  bs_bonded a : is_Some (lastPower s !! a) ↔ ∃ v, validators s !! a = Some v ∧ v_Status v = Bonded;
  bs_power a p : lastPower s !! a = Some p → ∃ v, candidate s a v p;
  bs_max : Z.of_nat (size (lastPower s)) ≤ MaxValidators (st_params s);
  bs_best a v p : candidate s a v p → lastPower s !! a = None →
    Z.of_nat (size (lastPower s)) = MaxValidators (st_params s) ∧
    ∀ b q, lastPower s !! b = Some q → p < q ∨ (p = q ∧ str_lt b a) }.
Lemma size_top (last : gmap ValAddress Int) (top : list ValAddress) :
  NoDup top → (∀ a, is_Some (last !! a) ↔ a ∈ top) → size last = length top.
Proof.
  intros Hn Hd. rewrite <-size_dom, <-(size_list_to_set (C := gset ValAddress) top) by done. f_equal. apply set_eq. intros a.
  by rewrite elem_of_dom, elem_of_list_to_set.
Qed.
Lemma same_tokens_power v w : same_tokens v w → potential_power w = potential_power v.
Proof. intros []. unfold potential_power, GetPotentialPower. by rewrite sk_tokens0. Qed.
(** From [s], where the index is read, to [s'], the end of the block. *)
Lemma top_best s top s1 s' :
  sinv 0 none s → top_bonded s top s1 → set_ok s' → lastPower s' = lastPower s1 → st_params s' = st_params s →
  (∀ a w, validators s' !! a = Some w → ∃ v, validators s !! a = Some v ∧ same_tokens v w) →
  (∀ a, a ∈ top → validators s' !! a = validators s1 !! a) → best_set s'.
Proof.
  intros Hi [T1 T2 (rest&El&Hstop) T4] [Hlast _] El' Ep Hsame Htop.
  pose proof (iterator_listed s Hi) as [Hnd Hin]. pose proof Hnd as Hnd'. rewrite El in Hnd'. apply NoDup_app in Hnd' as (Hndt&_&_).
  assert (Hcand : ∀ a v p, candidate s' a v p → ∃ v0, candidate s a v0 p ∧ v_OperatorAddr v0 = a ∧ a ∈ top ++ rest).
  { intros a v p (Hv&Hj&Hp&Hp0). destruct (Hsame _ _ Hv) as (v0&Hv0&Hst). exists v0. destruct (si_vals _ _ _ Hi _ _ Hv0) as [Ea _].
    assert (candidate s a v0 p) as Hc by (split_and!; [done|by rewrite <-(sk_jailed _ _ Hst)|by rewrite <-(same_tokens_power _ _ Hst)|done]).
    split_and!; [done|done|]. destruct Hc as (_&Hj0&Hpp&_). rewrite <-El. unfold ValidatorsPowerStoreIterator.
    rewrite <-(Permutation_rev ((entries (byPower s)).*2)). apply list_elem_of_fmap.
    destruct (getValidatorPowerRank v0) as [k|e|w] eqn:Ek; [|by unfold getValidatorPowerRank in Ek; rewrite Hpp in Ek..].
    exists (k, a). split; [done|]. apply entries_elem, (si_index _ _ _ Hi). eauto. }
  assert (Hbonded : ∀ a, is_Some (lastPower s' !! a) ↔ ∃ v, validators s' !! a = Some v ∧ v_Status v = Bonded).
  { intros a. rewrite (Hlast a). unfold stages. destruct (validators s' !! a) as [v|]; simpl.
    - split; [intros (t&c&(_&Hs&_)%stage_key); eauto|]. intros (v'&[= <-]&Hs). rewrite (stage_bonded _ Hs). eauto.
    - split; [by intros (?&?&?)|by intros (?&?&_)]. }
  split; rewrite ?El', ?Ep.
  - intros a. rewrite <-El'. apply Hbonded.
  - intros a p Hp. destruct (T2 a) as (v0&v&q&Hv0&Hv&Hs&_&Hj&Hq&Hq0&Hlp); [by apply T1; eauto|].
    assert (q = p) as -> by congruence. exists v. split_and!; [|by rewrite (sk_jailed _ _ Hs)|by rewrite (same_tokens_power _ _ Hs)|done].
    rewrite Htop; [done|]. apply T1. eauto.
  - rewrite (size_top _ top) by done. done.
  - intros a v p Hc Hn. destruct (Hcand _ _ _ Hc) as (v0&Hc0&Eop&Hin'). destruct Hc0 as (Hv0&Hj0&Hp&Hp0).
    destruct (si_vals _ _ _ Hi _ _ Hv0) as [_ Hvo]. pose proof (potential_power_range v0 p (vo_tokens _ Hvo) Hp) as Hrange.
    assert (a ∉ top) as Hat by (intros Ht; apply T1 in Ht; rewrite Hn in Ht; by destruct Ht).
    apply elem_of_app in Hin' as [|Hr]; [done|]. split.
    + rewrite (size_top _ top) by done. destruct Hstop as [->|[Hge|(h&rest'&w&->&Hw&Hz)]]; [by apply elem_of_nil in Hr|lia|]. exfalso.
      apply elem_of_cons in Hr as [->|Hr]; [rewrite Hv0 in Hw; injection Hw as <-; congruence|].
      assert (before w v0) as Hb. { apply (iterator_order s (top ++ [h]) rest' h a); try done; [rewrite El; by rewrite <-app_assoc|set_solver]. }
      destruct (Hb 0 p Hz Hp) as [|[]]; lia.
    + intros b q Hq. destruct (T2 b) as (w0&w&q'&Hw0&_&_&_&_&Hq'&_&Hlb); [apply T1; eauto|]. assert (q' = q) as -> by congruence.
      assert (before w0 v0) as Hb by (apply (iterator_order s top rest b a); try done; apply T1; eauto).
      destruct (si_vals _ _ _ Hi _ _ Hw0) as [Eb _]. destruct (Hb q p Hq' Hp) as [|[-> Hlt]]; [by left|right]. split; [done|]. by rewrite Eb, Eop in Hlt.
Qed.

(** ** The state between two steps, beside the set [m] of Tendermint *)
Record stake_ok (m : gmap ConsKey Z) s : Prop := {
  ok_inv : sinv 0 none s;
  ok_set : set_ok s;
  ok_transit : transit_ok s;
  ok_tm : tm_rel (stages s) (lastPower s) m;
  ok_total : total_ok s;
  ok_max : 0 ≤ MaxValidators (st_params s) }.
Lemma tm_steady s s' m : steady s s' → tm_rel (stages s) (lastPower s) m → tm_rel (stages s') (lastPower s') m.
Proof.
  intros Hs Hm k p. rewrite (Hm k p), (sd_last _ _ Hs). unfold stages. split; intros (a&t&Ha&Hl); exists a, t;
    [rewrite (sd_stage _ _ Hs)|rewrite (sd_stage _ _ Hs) in Ha]; done.
Qed.
Lemma total_steady s s' : steady s s' → total_ok s → total_ok s'.
Proof. intros Hs. unfold total_ok. by rewrite (sd_total _ _ Hs), (sd_last _ _ Hs). Qed.
(** Steps that leave the set of the last block alone. *)
Lemma stake_ok_steady m s s' : stake_ok m s → sinv 0 none s' → steady s s' → transit_ok s' → stake_ok m s'.
Proof.
  intros [O1 O2 O3 O4 O5 O6] Hi Hs Ht. split; [done|by eapply set_ok_steady|done|by eapply tm_steady|by eapply total_steady|].
  by rewrite (sd_params _ _ Hs).
Qed.
Lemma wp_UpdateMetrics (Q : unit → StakeState X → Prop) s :
  (∀ g, Q tt (set_auth (set_gas g (st_auth s)) s)) → wp UpdateMetrics Q s.
Proof.
  intros HQ. unfold UpdateMetrics, getLoosenCoins, GetTotalLoosenToken. wpb. apply wp_zoom. intros c a Hr. apply getCoins_ok in Hr as [[g ->] _].
  wpb. apply wp_zoom. intros c' a Hr. apply bind_ok in Hr as ([]&a1&[g' ->]%ctx_ConsumeGas_inv&[= _ <-]). wps. apply HQ.
Qed.
Lemma sinv_gas L D s g : sinv L D s → sinv L D (set_auth (set_gas g (st_auth s)) s).
Proof. intros []. split; try done. by apply auth_wf_gas. Qed.
Lemma wp_EndBlocker ctx m s :
  stake_ok m s → in_calendar (BlockTime ctx) →
  wp (EndBlocker ctx) (λ updates s', stake_ok (foldl tm_update m updates) s' ∧ best_set s' ∧
    (∀ a t, waiting s' a = Some t → str_lt (FormatTimeBytes (BlockTime ctx)) (FormatTimeBytes t)) ∧
    (∀ k, ubds s' !! k = left_of (BlockTime ctx) (ubds s) k) ∧ (∀ k, reds s' !! k = red_left_of (BlockTime ctx) (reds s) k)) s.
Proof.
  intros [O1 O2 O3 O4 O5 O6] Hc. unfold EndBlocker. set (c := WithCoinFlowTrigger _ ctx). wpb.
  eapply wp_mono; [apply wp_and; [by apply (wp_Apply c m)|by apply (K_Apply (λ _, True) (same_part transit) transit_closed transit_hooked transit_last)]|].
  intros updates s1 [[A1 A2 A3 A4 A5 A6 [top A7] A8] T1]. wpb.
  eapply wp_mono; [apply wp_and; [apply (wp_UnbondAllMature c s1 A1), A2|by apply (K_UnbondAllMature (λ _, True) (same_part transit) transit_closed transit_hooked)]|].
  intros _ s2 [[Hm Hdue] T2]. assert (transit s2 = transit s) as T by (unfold same_part in *; congruence). clear T1 T2.
  pose proof Hm as [M1 M2 [F1 F2 F3 F4 F5 F6 F7]].
  assert (transit_ok s2) as Ht2 by exact (transit_ok_same s s2 (transit_due s s2 T) O3). injection T as Eu _ Er _ _. wpb.
  eapply wp_mono; [by apply wp_complete_unbondings|]. intros _ s3 (I3&S3&Ht3&[V3 Er3]&U3). wpb.
  destruct (tot_complete_redelegations c s3 I3 Ht3 Hc) as (s4&Hrun&I4&S4&Ht4&U4&V4&_&R4). apply (wp_run _ _ _ _ _ Hrun). wpb.
  apply wp_UpdateMetrics. intros g. wps. set (s5 := set_auth _ s4).
  assert (steady s2 s4) as S24 by (by etrans). assert (steady s2 s5) as S25 by (etrans; [exact S24|by apply steady_fields]).
  assert (set_ok s2) as Hs2 by (split; [by apply (matured_last s1 s2), A2|done]).
  assert (stake_ok (foldl tm_update m updates) s2) as Ok2.
  { split; try done.
    - rewrite F5. apply (tm_rel_ext (stages s1)); [..|done].
      + intros a t k Ha. exists t. unfold stages. rewrite F1; [done|]. unfold waiting. by rewrite Ha.
      + intros a t k _ Ha. exists t. by apply F4.
    - unfold total_ok. rewrite F5, F6. by apply A6.
    - by rewrite F7, A3. }
  split_and!.
  - apply (stake_ok_steady _ s2); [done|by apply sinv_gas|done|]. eapply transit_ok_same; [|exact Ht4]. by apply transit_due.
  - eapply (top_best s top s1); [done|done|by eapply set_ok_steady| | | |].
    + rewrite (sd_last _ _ S25). done.
    + rewrite (sd_params _ _ S25), F7. done.
    + intros a w. simpl. rewrite V4, V3. intros Hw. destruct (F2 _ _ Hw) as (v&Hv&Hs). specialize (A5 a). rewrite Hv in A5.
      destruct (validators s !! a) as [v0|]; [|done]. exists v0. split; [done|by eapply same_tokens_trans].
    + intros a Ha. simpl. rewrite V4, V3. apply F1. destruct (tb_val _ _ _ A7 a Ha) as (v0&v&p&_&Hv&_&Hb&_).
      unfold waiting, stages. rewrite Hv. simpl. by rewrite stage_bonded.
  - intros a t Ha. apply (Hdue a t). unfold waiting, stages in *. simpl in Ha. by rewrite V4, V3 in Ha.
  - intros k. simpl. rewrite U4, U3, Eu. done.
  - intros k. simpl. rewrite R4, Er3, Er. done.
Qed.
End thms.
End StakeThms.
