(* ===== verification/StakeSteps.v ===== *)
(** * Staking: every reachable state

    A run of the chain as steps of the module (messages, the end of a block, what
    slashing asks of it, new parameters and the other modules), beside the
    validator set that Tendermint has received.  The theorems hold in every state
    such a run reaches. *)

From S2P Require Import Prelude SdkErrors Frame IntType GoStrings Denom Coin CoinFacts Dec TimeBytes Gas KVStore Auth Bank BankFacts BankBurn BankFrame StakeTypes Stake StakeFacts StakeInv StakeFrame StakeSlash StakeSet StakeApply StakeDue StakeThms.
#[local] Open Scope Z_scope.

Module StakeSteps.
Import StakeTypes Stake StakeFacts StakeQueue StakeInv StakeFrame StakeOps StakeSlash StakeSet StakeApply StakeDue StakeChecks StakeThms.

Section steps.
Context {X : Type} `{Crypto, ConsCrypto, StakingHooks X, !HookLaws X}.
Implicit Types (s : StakeState X) (m : gmap ConsKey Z).

(** ** Runs *)
Inductive stake_step : gmap ConsKey Z * StakeState X → gmap ConsKey Z * StakeState X → Prop :=
| step_msg ctx msg m s s' :
    StakeMsg_ValidateBasic msg = Ok tt → Forall good_signer (StakeMsg_GetSigners msg) → timely ctx s →
    stake_Handler ctx msg s = (Ok tt, s') → stake_step (m, s) (m, s')
| step_end ctx updates m s s' :
    in_calendar (BlockTime ctx) → EndBlocker ctx s = (Ok updates, s') →
    stake_step (m, s) (foldl tm_update m updates, s')
| step_slash ctx consAddr h power factor m s s' :
    Slash ctx consAddr h power factor s = (Ok tt, s') → stake_step (m, s) (m, s')
| step_jail consAddr m s s' : Jail consAddr s = (Ok tt, s') → stake_step (m, s) (m, s')
| step_unjail consAddr m s s' : Unjail consAddr s = (Ok tt, s') → stake_step (m, s) (m, s')
| step_params p m s : 0 ≤ MaxValidators p → stake_step (m, s) (m, set_params p s)
| step_others a x m s :
    kept held other_ok (st_auth s) (st_other s) a x → stake_step (m, s) (m, set_other x (set_auth a s)).

(** Before the first validator. *)
Record fresh_stake s : Prop := {
  fr_auth : auth_wf (st_auth s);
  fr_loose : loose_ok (st_auth s);
  fr_other : other_ok (st_other s);
  fr_gap : gap held (st_auth s) (st_other s) = 0;
  fr_stores : s = mkStake (st_auth s) (st_other s) (Some InitialBondedPool) ∅ None ∅ ∅ ∅ ∅ ∅ ∅ ∅ ∅ ∅ ∅ ∅ ∅ (st_params s);
  fr_max : 0 ≤ MaxValidators (st_params s) }.

Lemma queue_empty {A} (f : A → option Z) : (∀ a, f a = None) → queue_ok f ∅.
Proof. intros Hf. split; [by intros k l|]. intros a t. by rewrite Hf. Qed.
Lemma fresh_ok s : fresh_stake s → stake_ok ∅ s.
Proof.
  intros [F1 F2 F3 F4 F5 F6]. assert (sinv 0 none s) as Hi.
  { rewrite F5. split; simpl; try done.
    - by exists InitialBondedPool.
    - intros k a. split; [done|]. by intros (?&?&_).
    - intros k a. split; [done|]. by intros (?&?&_).
    - split; [done|]. intros ik. split; [by intros [? ?]|by intros (?&?&?&_)].
    - split; [done|..]; intros ik; (split; [by intros [? ?]|by intros (?&?&?&_)]).
    - rewrite F4, !map_sum_empty. lia. }
  split; [done|..|done]; rewrite F5.
  - split; simpl.
    + intros a. split; [by intros [? ?]|by intros (?&?&?)].
    + by apply queue_empty.
  - split; simpl; [by apply queue_empty..|by intros ? ?|by intros ? ?].
  - intros key p. split; [done|]. by intros (?&?&?&_).
  - unfold total_ok. simpl. by rewrite map_sum_empty.
Qed.

Lemma stake_step_ok m s m' s' : stake_step (m, s) (m', s') → stake_ok m s → stake_ok m' s'.
Proof.
  intros Hst Hok. inversion Hst as [ctx msg m0 s0 s1 Hb Hg Ht Hr|ctx u m0 s0 s1 Hc Hr|ctx c h p f m0 s0 s1 Hr|c m0 s0 s1 Hr|c m0 s0 s1 Hr|p m0 s0 Hp|a x m0 s0 Hk]; subst.
  - destruct (wp_stake_Handler ctx msg s (ok_inv _ _ Hok) Hb Hg _ _ Hr) as [Hi Hs].
    apply (stake_ok_steady _ s); try done. exact (wp_stake_Handler_due ctx msg s (ok_transit _ _ Hok) Ht _ _ Hr).
  - by destruct (wp_EndBlocker ctx m s Hok Hc _ _ Hr).
  - destruct (wp_Slash ctx c h p f s (ok_inv _ _ Hok) _ _ Hr) as (Hi&Hs&Hd).
    apply (stake_ok_steady _ s); try done. eapply transit_ok_same; [done|apply Hok].
  - destruct (wp_Jail c s (ok_inv _ _ Hok) _ _ Hr) as (Hi&Hs).
    apply (stake_ok_steady _ s); try done. exact (keeps_transit_ok (Jail c) s (K_Jail _ transit_closed c) (ok_transit _ _ Hok) _ _ Hr).
  - destruct (wp_Unjail c s (ok_inv _ _ Hok) _ _ Hr) as (Hi&Hs).
    apply (stake_ok_steady _ s); try done. exact (keeps_transit_ok (Unjail c) s (K_Unjail _ transit_closed c) (ok_transit _ _ Hok) _ _ Hr).
  - destruct Hok as [O1 [] [] O4 O5 O6]. split; try done. by destruct O1.
  - apply (stake_ok_steady _ s); [done|apply sinv_kept; [apply Hok|done]|by apply steady_fields|].
    by destruct (ok_transit _ _ Hok).
Qed.
Lemma reachable_ok s0 m s : fresh_stake s0 → rtc stake_step (∅, s0) (m, s) → stake_ok m s.
Proof.
  intros Hf%fresh_ok Hr. remember (∅, s0) as x eqn:Ex. remember (m, s) as y eqn:Ey. revert s0 m s Hf Ex Ey.
  cut (stake_ok x.1 x.2 → stake_ok y.1 y.2); [intros Hc s0 m s Hf -> ->; by apply Hc|].
  induction Hr as [|x z y Hx Hr IH]; [done|]. intros Hok. apply IH. destruct x, z. by eapply stake_step_ok.
Qed.

(** ** The ledger *)
(** C3. In every reachable state the recorded loose tokens are those of the accounts,
    of the other modules, of the unbonding delegations and of the validators that
    are not bonded; the bonded pool has the tokens of the bonded validators; and
    the shares of a validator are those of its delegations, none of them negative,
    against a whole number of tokens. *)
Theorem stake_ledger s0 m s :
  fresh_stake s0 → rtc stake_step (∅, s0) (m, s) →
  loosen (st_auth s) IrisAtto * P =
    circulating (st_auth s) * P + held (st_other s) + map_sum ubd_balance (ubds s) * P + map_sum loose_tokens (validators s) ∧
  (∃ p, pool s = Some p ∧ BondedPool p = map_sum BondedTokens (validators s)) ∧
  (∀ a v, validators s !! a = Some v →
     v_DelegatorShares v = map_sum (shares_to a) (delegations s) ∧ 0 ≤ v_Tokens v ∧ (P | v_Tokens v)) ∧
  (∀ k d, delegations s !! k = Some d → 0 ≤ d_Shares d) ∧
  (∀ k u, ubds s !! k = Some u → 0 ≤ amount (ub_Balance u)).
Proof.
  intros Hf Hr. destruct (ok_inv _ _ (reachable_ok _ _ _ Hf Hr)) as [S1 S2 S3 S4 S5 S6 S7 S8 S9 S10 S11 S12]. split_and!.
  - unfold gap in S12. lia.
  - done.
  - intros a v Hv. destruct (S4 _ _ Hv) as [_ []]. specialize (S11 a). unfold shares_of, none in S11. rewrite Hv in S11. split_and!; [lia|done..].
  - intros k d Hd. by destruct (S8 _ _ Hd) as (_&_&_&?).
  - intros k u Hu. by destruct (uo_record _ _ S9 _ _ Hu) as (_&_&_&_&?&_).
Qed.

(** ** The stores *)
(** C26. The stores of the module describe one another: every record is under the key
    of its own addresses; the indexes of validators by power and by consensus
    address, of unbonding delegations and of redelegations list exactly the
    records; and each queue has every waiting element once, in the slice of the
    time it is due. *)
Theorem stake_stores s0 m s :
  fresh_stake s0 → rtc stake_step (∅, s0) (m, s) →
  vals_ok (validators s) ∧ dels_ok (delegations s) ∧ ubds_ok (ubds s) (ubdByVal s) ∧ reds_ok (reds s) (redBySrc s) (redByDst s) ∧
  index_ok (validators s) (byPower s) ∧ cons_ok (validators s) (byConsAddr s) ∧
  queue_ok (waiting s) (valQueue s) ∧ queue_ok (ubd_due s) (ubdQueue s) ∧ queue_ok (red_due s) (redQueue s).
Proof. intros Hf Hr. destruct (reachable_ok _ _ _ Hf Hr) as [[] [] [] _ _ _]. done. Qed.

(** ** The validator set *)
Lemma tm_rel_bonded m s key p :
  tm_rel (stages s) (lastPower s) m →
  m !! key = Some p ↔ ∃ a v, validators s !! a = Some v ∧ v_Status v = Bonded ∧ v_ConsPubKey v = key ∧ lastPower s !! a = Some p.
Proof.
  intros Hm. rewrite (Hm key p). unfold stages. split.
  - intros (a&t&Ha&Hl). destruct (validators s !! a) as [v|] eqn:Hv; [|done]. exists a, v. apply stage_key in Ha as (?&?&_). done.
  - intros (a&v&Hv&Hb&<-&Hl). exists a. rewrite Hv. simpl. rewrite (stage_bonded _ Hb). eauto.
Qed.
(** C5. At the end of a block the validators that are bonded are the best ones: no
    jailed or powerless one, no more than the parameter allows, and a validator is
    left out only when the set is full of stronger ones, or equally strong ones of
    a lower address.  With the updates it has received, Tendermint has exactly
    their keys, with the powers of their tokens, which add up to the recorded
    total. *)
Theorem stake_validator_set s0 m s ctx updates s' :
  fresh_stake s0 → rtc stake_step (∅, s0) (m, s) → in_calendar (BlockTime ctx) → EndBlocker ctx s = (Ok updates, s') →
  best_set s' ∧
  (∀ key p, foldl tm_update m updates !! key = Some p ↔
     ∃ a v, validators s' !! a = Some v ∧ v_Status v = Bonded ∧ v_ConsPubKey v = key ∧ potential_power v = Ok p) ∧
  default 0 (lastTotalPower s') = map_sum (λ p, p) (lastPower s').
Proof.
  intros Hf Hr Hc He. destruct (wp_EndBlocker ctx m s (reachable_ok _ _ _ Hf Hr) Hc _ _ He) as (Hok&Hb&_).
  split_and!; [done| |apply Hok]. intros key p. rewrite (tm_rel_bonded _ s' key p) by apply Hok.
  split; intros (a&v&Hv&Hs&Hk&Hp); exists a, v; (split_and!; [done..|]).
  - destruct (bs_power _ Hb a p Hp) as (w&Hw&_&Hq&_). congruence.
  - destruct (proj2 (bs_bonded _ Hb a)) as [q Hq]; [eauto|]. destruct (bs_power _ Hb a q Hq) as (w&Hw&_&Hpw&_). congruence.
Qed.

(** ** Delegations in transit *)
(** C19. The unbonding delegations whose time has come are paid at the end of the
    block: the loop returns, it removes exactly them, and every account gains
    exactly the balances of its own. *)
Theorem unbonding_paid s0 m s ctx :
  fresh_stake s0 → rtc stake_step (∅, s0) (m, s) → in_calendar (BlockTime ctx) →
  (∀ k u, ubds s !! k = Some u → ub_DelegatorAddr u ≠ BurnedCoinsAccAddr) →
  (∀ d, total (st_auth s) d + amt [mkCoin IrisAtto (map_sum ubd_balance (ubds s))] d < 2^255) →
  has_gas (st_auth s) (gasAdd * Z.of_nat (length (matures (ubdQueue s) (BlockTime ctx)))) →
  ∃ s', complete_unbondings ctx s = (Ok tt, s') ∧ (∀ k, ubds s' !! k = left_of (BlockTime ctx) (ubds s) k) ∧
    (∀ a, balance (st_auth s') a IrisAtto = balance (st_auth s) a IrisAtto + map_sum (pay (BlockTime ctx) a) (ubds s)).
Proof.
  intros Hf Hr Hc Hb Ht Hg. pose proof (reachable_ok _ _ _ Hf Hr) as Hok. apply tot_complete_unbondings; [apply Hok|apply Hok|done..].
Qed.

(** ** The checks at run time *)
(** Three of the four checks that the application runs at the end of a block pass
    in every reachable state whose amounts fit a decimal: the supply, the power
    index and the shares of the validators. *)
Theorem stake_checks_pass s0 m s held_tokens l :
  fresh_stake s0 → rtc stake_step (∅, s0) (m, s) → fits s →
  held_tokens (st_other s) = Ok l → Forall (λ d, 0 ≤ d) l → list_sum (λ d, d) l = held (st_other s) →
  passes (SupplyInvariants held_tokens) s = true ∧ passes NonNegativePowerInvariant s = true ∧ passes DelegatorSharesInvariant s = true.
Proof.
  intros Hf Hr Hfit Hl Hn Es. pose proof (ok_inv _ _ (reachable_ok _ _ _ Hf Hr)) as Hi.
  split_and!; [|by apply power_check_passes|apply shares_check_passes; [done|apply Hfit]].
  pose proof (supply_check held_tokens l s Hi Hfit Hl Hn) as Hs. rewrite <-Es, Z.sub_diag, decide_True in Hs by done.
  unfold passes. rewrite Hs; [done|by apply list_sum_nonneg|done].
Qed.
End steps.
End StakeSteps.

(** ** A chain without other modules *)
Module StakeExample.
Import StakeTypes Stake StakeFacts StakeQueue StakeInv StakeFrame StakeOps StakeSlash StakeSet StakeApply StakeDue StakeChecks StakeThms StakeSteps.
#[local] Existing Instance name_crypto.
#[local] Instance name_cons : ConsCrypto := {| PubKey_Address k := k; TM2PB_Type _ := "ed25519" |}.
#[local] Instance no_hooks : StakingHooks unit :=
  {| OnValidatorCreated _ _ := ret tt; OnValidatorModified _ _ := ret tt; OnValidatorRemoved _ _ _ := ret tt;
     OnValidatorBonded _ _ _ := ret tt; OnValidatorBeginUnbonding _ _ _ := ret tt; OnValidatorPowerDidChange _ _ _ := ret tt;
     OnDelegationCreated _ _ _ := ret tt; OnDelegationSharesModified _ _ _ := ret tt; OnDelegationRemoved _ _ _ := ret tt |}.
Lemma outside_ret called : outside (X := unit) (λ _, 0) (λ _, True) called (ret tt).
Proof. intros s. wps. exists (st_auth s), (st_other s). split; [by destruct s|]. done. Qed.
#[local] Instance no_hooks_laws : HookLaws unit.
Proof. by exists (λ _, 0) (λ _, True); intros; apply outside_ret. Defined.

Definition alice : string := "alice_______________".
Definition bob : string := "bob_________________".
Definition iris (n : Z) : Coin := mkCoin IrisAtto (n * AttoScaleFactor).
Definition shares (atto : Z) : option Dec := Some (atto * P).
Definition ex_ctx (h : Z) : Ctx := mkCtx h (h * 5 * Second) "" None.
Definition ex_create (a : string) : StakeMsg :=
  CreateValidator (mkMsgCreateValidator (NewDescription a "" "" "") (mkCommissionMsg (Some 0) None None) a a (Some a) (iris 100)).
Definition ex_redelegate (n : option Dec) : StakeMsg := BeginRedelegate (mkMsgBeginRedelegate alice alice bob n).
Definition ex_unbond (n : option Dec) : StakeMsg := BeginUnbonding_ (mkMsgBeginUnbonding bob bob n).
Definition ex_run (h : Z) (msg : StakeMsg) (s : StakeState unit) : StakeState unit := (stake_Handler (ex_ctx h) msg s).2.

Definition ex_params : Params := mkParams (10 * Second) 100.
(** Two validators, and the end of the block that bonds them. *)
Definition ex0 : StakeState unit :=
  mkStake (ex_bank [(alice, [iris 1000]); (bob, [iris 1000])] (2000 * AttoScaleFactor) []) tt
    (Some InitialBondedPool) ∅ None ∅ ∅ ∅ ∅ ∅ ∅ ∅ ∅ ∅ ∅ ∅ ∅ ex_params.
Definition ex1 : StakeState unit := ex_run 2 (ex_create bob) (ex_run 2 (ex_create alice) ex0).
Definition ex2 : StakeState unit := (EndBlocker (ex_ctx 2) ex1).2.
Definition ex_set : gmap ConsKey Z := <[bob := 100]> (<[alice := 100]> ∅).
(** Tokens in transit. *)
Definition ex3 : StakeState unit :=
  ex_run 3 (ex_unbond (shares 12345678901)) (ex_run 3 (ex_redelegate (shares (10 * AttoScaleFactor))) ex2).

Lemma start_fresh : fresh_stake ex0.
Proof.
  split; [apply auth_wfb_ok; vm_compute; reflexivity| |done|vm_compute; reflexivity|done|done].
  split; [split; [repeat constructor|]|]; repeat constructor; done.
Qed.
Lemma message_step h msg m s a :
  a = alice ∨ a = bob → StakeMsg_ValidateBasic msg = Ok tt → StakeMsg_GetSigners msg = [a] → st_params s = ex_params → 0 ≤ h < 1000000 →
  (stake_Handler (ex_ctx h) msg s).1 = Ok tt → stake_step (m, s) (m, ex_run h msg s).
Proof.
  intros Ha Hb Hg Hp Hh Hr. assert (timely (ex_ctx h) s) as Ht.
  { unfold timely, in_calendar. rewrite Hp. assert (1000020 * 5 * Second < year10000) by done. change (UnbondingTime ex_params) with (10 * Second). simpl. assert (Second = 1000000000) as E by done. lia. }
  eapply step_msg; [done| |exact Ht|by apply run_ok]. rewrite Hg. repeat constructor; destruct Ha as [-> | ->]; done.
Qed.
Lemma ex_end1 : (EndBlocker (ex_ctx 2) ex1).1 = Ok [mkUpdate alice 100; mkUpdate bob 100].
Proof. vm_compute. reflexivity. Qed.
Lemma reach1 : rtc stake_step (∅, ex0) (∅, ex1).
Proof.
  eapply rtc_l; [apply (message_step 2 (ex_create alice) _ _ alice); [by left|vm_compute; reflexivity..|lia|vm_compute; reflexivity]|].
  eapply rtc_l; [apply (message_step 2 (ex_create bob) _ _ bob); [by right|vm_compute; reflexivity..|lia|vm_compute; reflexivity]|]. apply rtc_refl.
Qed.
Lemma ex_set_updates : foldl tm_update ∅ [mkUpdate alice 100; mkUpdate bob 100] = ex_set.
Proof. cbn [foldl]. unfold tm_update. by rewrite !decide_False. Qed.
Lemma reach2 : rtc stake_step (∅, ex0) (ex_set, ex2).
Proof.
  eapply rtc_r; [exact reach1|].
  pose proof (step_end (ex_ctx 2) [mkUpdate alice 100; mkUpdate bob 100] ∅ ex1 ex2 ltac:(done) (run_ok _ _ _ ex_end1)) as Hs.
  rewrite ex_set_updates in Hs. exact Hs.
Qed.
Lemma reach_red n :
  StakeMsg_ValidateBasic (ex_redelegate n) = Ok tt → (stake_Handler (ex_ctx 3) (ex_redelegate n) ex2).1 = Ok tt →
  rtc stake_step (∅, ex0) (ex_set, ex_run 3 (ex_redelegate n) ex2).
Proof. intros Hb Hr. eapply rtc_r; [exact reach2|]. apply (message_step 3 _ _ _ alice); [by left|exact Hb|reflexivity|vm_compute; reflexivity|lia|exact Hr]. Qed.
Lemma reach3 : rtc stake_step (∅, ex0) (ex_set, ex3).
Proof.
  eapply rtc_r; [apply (reach_red (shares (10 * AttoScaleFactor))); vm_compute; reflexivity|].
  apply (message_step 3 _ _ _ bob); [by right|vm_compute; reflexivity..|lia|vm_compute; reflexivity].
Qed.

Lemma stake_ledger_witness : ∃ p, pool ex3 = Some p ∧ BondedPool p = map_sum BondedTokens (validators ex3) ∧ map_sum ubd_balance (ubds ex3) = 12345678901.
Proof.
  destruct (stake_ledger ex0 ex_set ex3 start_fresh reach3) as (_&(p&Hp&Hb)&_). exists p. split_and!; [done..|]. vm_compute. reflexivity.
Defined.
Lemma stake_stores_witness : index_ok (validators ex3) (byPower ex3) ∧ size (byPower ex3) = 2%nat.
Proof. destruct (stake_stores ex0 ex_set ex3 start_fresh reach3) as (_&_&_&_&Hi&_). split; [done|]. vm_compute. reflexivity. Defined.
Lemma stake_validator_set_witness : best_set ex2 ∧ size (lastPower ex2) = 2%nat.
Proof.
  destruct (stake_validator_set ex0 ∅ ex1 (ex_ctx 2) [mkUpdate alice 100; mkUpdate bob 100] ex2) as (Hb&_&_);
    [exact start_fresh|exact reach1|done|exact (run_ok _ _ _ ex_end1)|]. split; [done|]. vm_compute. reflexivity.
Defined.
(** The amounts are far from the bounds. *)
Definition coins_sum (acc : BaseAccount) : Z := list_sum amount (acc_Coins acc).
Lemma amt_le_sum (l : Coins) d : nonneg l → amt l d ≤ list_sum amount l.
Proof. induction 1 as [|c l Hc Hl IH]; [done|]. simpl. case_decide; lia. Qed.
Lemma total_le_sum a d : auth_wf a → total a d ≤ map_sum coins_sum (accounts a).
Proof.
  intros Hw. unfold total. rewrite !map_sum_list. assert (∀ acc, acc ∈ (map_to_list (accounts a)).*2 → nonneg (acc_Coins acc)) as Hn.
  { intros acc ([k acc']&->&Hin%elem_of_map_to_list)%list_elem_of_fmap. simpl. rewrite <-(coins_of_Some _ _ _ Hin). apply Hw. }
  induction (map_to_list (accounts a)).*2 as [|acc l IH]; [done|]. simpl. pose proof (amt_le_sum (acc_Coins acc) d (Hn acc ltac:(by left))).
  unfold coins_sum at 1. specialize (IH ltac:(intros; apply Hn; by right)). lia.
Qed.
Definition ex_bounds {X} (s : StakeState X) : bool :=
  forallb (λ v, v_DelegatorShares v <? 2^289) (map_to_list (validators s)).*2 &&
  forallb (λ u, bool_decide (ub_DelegatorAddr u ≠ BurnedCoinsAccAddr)) (map_to_list (ubds s)).*2 &&
  (match pool s with Some p => BondedPool p <? 2^289 | None => true end) &&
  (loosen (st_auth s) IrisAtto <? 2^255) && (map_sum coins_sum (accounts (st_auth s)) + map_sum ubd_balance (ubds s) <? 2^255) &&
  (0 <=? map_sum ubd_balance (ubds s)).
Lemma forallb_values {A} (f : A → bool) (m : gmap string A) k v :
  forallb f (map_to_list m).*2 = true → m !! k = Some v → f v = true.
Proof.
  rewrite forallb_forall. intros Hf Hk. apply Hf, list_elem_of_In, list_elem_of_fmap. exists (k, v). split; [done|]. by apply elem_of_map_to_list.
Qed.
Lemma ex_bounds_fit {X} (s : StakeState X) n : ex_bounds s = true → costGetLoosenCoins ≤ n → has_gas (st_auth s) n → fits s.
Proof.
  unfold ex_bounds. rewrite !andb_true_iff, !Z.ltb_lt. intros (((((Hv&_)&Hp)&Hl)&_)&_) Hn [Hw Hr].
  split_and!; [exact Hl| | |split; [done|lia]].
  - intros p Ep. rewrite Ep in Hp. by apply Z.ltb_lt.
  - intros a v Ha. apply Z.ltb_lt. exact (forallb_values _ _ _ _ Hv Ha).
Qed.
Lemma ex_bounds_pay {X} (s : StakeState X) : ex_bounds s = true → auth_wf (st_auth s) →
  (∀ k u, ubds s !! k = Some u → ub_DelegatorAddr u ≠ BurnedCoinsAccAddr) ∧
  (∀ d, total (st_auth s) d + amt [mkCoin IrisAtto (map_sum ubd_balance (ubds s))] d < 2^255).
Proof.
  unfold ex_bounds. rewrite !andb_true_iff, !Z.ltb_lt, Z.leb_le. intros (((((_&Hu)&_)&_)&Ht)&Hz) Hw. split.
  - intros k u Hk. apply (bool_decide_eq_true _). exact (forallb_values _ _ _ _ Hu Hk).
  - intros d. pose proof (total_le_sum (st_auth s) d Hw). simpl. case_decide; lia.
Qed.
Lemma ex_bounds3 : ex_bounds ex3 = true.
Proof. vm_compute. reflexivity. Qed.
Lemma ex_gas3 n : n ≤ 1000 → has_gas (st_auth ex3) n.
Proof.
  intros Hn. assert (gas (st_auth ex3) = basicGasMeter 10000 260 None 0) as E by (vm_compute; reflexivity).
  unfold has_gas. rewrite E. simpl. split; [split_and!; done|lia].
Qed.
Lemma stake_checks_pass_witness : passes (SupplyInvariants (λ _, Ok [])) ex3 = true ∧ passes NonNegativePowerInvariant ex3 = true.
Proof.
  destruct (stake_checks_pass ex0 ex_set ex3 (λ _, Ok []) [] start_fresh reach3) as (Hs&Hp&_); [exact (ex_bounds_fit ex3 1000 ex_bounds3 ltac:(done) (ex_gas3 1000 ltac:(done)))|reflexivity|constructor|reflexivity|split; [exact Hs|exact Hp]].
Defined.
Lemma unbonding_paid_witness :
  ∃ s', complete_unbondings (ex_ctx 5) ex3 = (Ok tt, s') ∧ balance (st_auth s') bob IrisAtto = balance (st_auth ex3) bob IrisAtto + 12345678901.
Proof.
  pose proof (si_auth _ _ _ (ok_inv _ _ (reachable_ok _ _ _ start_fresh reach3))) as Hw. destruct (ex_bounds_pay ex3 ex_bounds3 Hw) as [Hu Ht].
  destruct (unbonding_paid ex0 ex_set ex3 (ex_ctx 5) start_fresh reach3) as (s'&Hr&_&Hp).
  - done.
  - exact Hu.
  - exact Ht.
  - apply ex_gas3. vm_compute. done.
  - exists s'. split; [exact Hr|]. rewrite Hp.
    assert (map_sum (pay (BlockTime (ex_ctx 5)) bob) (ubds ex3) = 12345678901) as -> by (vm_compute; reflexivity). reflexivity.
Defined.

(** ** Two ways to stop the chain *)
(** A run: when the unbonding delegation is slashed for a past infraction, its exact share
    is taken off the amount to burn and not the whole tokens that were burnt: the
    rest has a fraction of a token, which the pool refuses with a panic.  Slashing
    the same validator for an infraction of the current block is fine. *)
Example slash_of_unbonding_halts :
  rtc stake_step (∅, ex0) (ex_set, ex3) ∧
  (Slash (ex_ctx 4) bob 3 100 (3 * 10^6) ex3).1 = Panic "token is not integer" ∧
  (Slash (ex_ctx 4) bob 4 100 (3 * 10^6) ex3).1 = Ok tt.
Proof. split; [exact reach3|]. split; vm_compute; reflexivity. Qed.
(** A delegator can redelegate shares that are worth less than a token: the message
    succeeds and leaves a delegation without shares, and the check of positive
    delegations, which the application runs at the end of the block, then fails. *)
Example dust_redelegation_breaks_check :
  let s := ex_run 3 (ex_redelegate (Some 1)) ex2 in
  rtc stake_step (∅, ex0) (ex_set, s) ∧ passes PositiveDelegationInvariant ex2 = true ∧ passes PositiveDelegationInvariant s = false.
Proof.
  split; [apply reach_red; vm_compute; reflexivity|]. split; vm_compute; reflexivity.
Qed.
End StakeExample.
