(* ===== verification/Slashing.v ===== *)
(** * Slashing (app/v1/slashing)

    Who missed too many blocks of a window, or signed two blocks of one height, is
    slashed and jailed.  The keeper works on its part of the stores beside those of
    staking, and staking calls it through hooks. *)

From Stdlib Require Import Ascii.
From S2P Require Import Prelude SdkErrors IntType GoStrings Denom Coin Dec TimeBytes KVStore PrefixKV Auth Bank StdTx StakeTypes Stake.
#[local] Open Scope Z_scope.

Module Slashing.
Import StakeTypes Stake.

(** ** Errors (errors.go) *)
Definition DefaultCodespace : string := "slash".
Definition CodeInvalidValidator : Z := 101.
Definition CodeValidatorJailed : Z := 102.
Definition CodeValidatorNotJailed : Z := 103.
Definition CodeMissingSelfDelegation : Z := 104.
Definition slash_err (c : Z) : Error := NewError DefaultCodespace c.
Definition ErrNoValidatorForAddress : Error := slash_err CodeInvalidValidator.
Definition ErrBadValidatorAddr : Error := slash_err CodeInvalidValidator.
Definition ErrValidatorJailed : Error := slash_err CodeValidatorJailed.
Definition ErrValidatorNotJailed : Error := slash_err CodeValidatorNotJailed.
Definition ErrMissingSelfDelegation : Error := slash_err CodeMissingSelfDelegation.

(** ** Parameters (params.go) *)
Record Params := mkParams {
  p_MaxEvidenceAge : Z; p_SignedBlocksWindow : Z; p_MinSignedPerWindow : Dec; p_DoubleSignJailDuration : Z;
  p_DowntimeJailDuration : Z; p_CensorshipJailDuration : Z; p_SlashFractionDoubleSign : Dec;
  p_SlashFractionDowntime : Dec; p_SlashFractionCensorship : Dec }.
Definition BlocksPerMinute : Z := 12.
Definition BlocksPerDay : Z := BlocksPerMinute * 60 * 24.
Definition Day : Z := 24 * 60 * Minute.
Definition DefaultParams : Params :=
  mkParams (3 * BlocksPerDay) (2 * BlocksPerDay) (5 * 10^9) (2 * Day) (1 * Day) (2 * Day) (10^8) 0 0.
Definition DefaultParamsForTestnet : Params :=
  mkParams (3 * BlocksPerMinute) 200 (5 * 10^9) (20 * Minute) (10 * Minute) (20 * Minute) (5 * 10^8) 0 0.
Definition CodeInvalidSlashParams : Z := 800.
Definition slash_ensure (b : bool) : Outcome unit := ensure b (params_err CodeInvalidSlashParams).
Section params.
(** Whether [sdk.NetworkType] is the main network. *)
Variable mainnet : bool.
Definition validateMaxEvidenceAge (p : Z) : Outcome unit :=
  slash_ensure (negb (p <? (if mainnet then 2 * BlocksPerDay else 2 * BlocksPerMinute))).
Definition validateSignedBlocksWindow (p : Z) : Outcome unit := slash_ensure (negb ((p <? 100) || (140000 <? p))).
Definition validateMinSignedPerWindow (p : Dec) : Outcome unit := slash_ensure (negb (Dec_LT p (5 * 10^9) || Dec_GT p (9 * 10^9))).
Definition validateDoubleSignJailDuration (p : Z) : Outcome unit := slash_ensure (negb ((p <=? 0) || (2 * Week <=? p))).
Definition validateDowntimeJailDuration (p : Z) : Outcome unit := slash_ensure (negb ((p <=? 0) || (1 * Week <=? p))).
Definition validateCensorshipJailDuration (p : Z) : Outcome unit := slash_ensure (negb ((p <=? 0) || (2 * Week <=? p))).
Definition validateFraction (p : Dec) : Outcome unit := slash_ensure (negb (Dec_LT p ZeroDec || Dec_GT p (10^9))).
Definition validateParams (p : Params) : Outcome unit :=
  let? _ := validateMaxEvidenceAge (p_MaxEvidenceAge p) in
  let? _ := validateSignedBlocksWindow (p_SignedBlocksWindow p) in
  let? _ := validateMinSignedPerWindow (p_MinSignedPerWindow p) in
  let? _ := validateDoubleSignJailDuration (p_DoubleSignJailDuration p) in
  let? _ := validateDowntimeJailDuration (p_DowntimeJailDuration p) in
  let? _ := validateCensorshipJailDuration (p_CensorshipJailDuration p) in
  let? _ := validateFraction (p_SlashFractionDoubleSign p) in
  let? _ := validateFraction (p_SlashFractionDowntime p) in
  validateFraction (p_SlashFractionCensorship p).
End params.

(** ** The stores (signing_info.go, slashing_period.go, keys.go)

    The prefixes are separate maps. *)
Record ValidatorSigningInfo := mkSigningInfo {
  StartHeight : Z; IndexOffset : Z; JailedUntil : Z; MissedBlocksCounter : Z }.
Record ValidatorSlashingPeriodValue := mkPeriodValue { pv_EndHeight : Z; pv_SlashedSoFar : Dec }.
Record ValidatorSlashingPeriod := mkPeriod {
  sp_ValidatorAddr : ConsAddress; sp_StartHeight : Z; sp_EndHeight : Z; sp_SlashedSoFar : Dec }.
Record SlashState := mkSlash {
  signingInfos : gmap ConsAddress ValidatorSigningInfo;
  missedBits : gmap string bool;
  periods : gmap string ValidatorSlashingPeriodValue;
  addrPubkey : gmap ConsAddress ConsKey;
  sl_params : Params }.
Definition with_signingInfos f (s : SlashState) : SlashState :=
  mkSlash (f (signingInfos s)) (missedBits s) (periods s) (addrPubkey s) (sl_params s).
Definition with_missedBits f (s : SlashState) : SlashState :=
  mkSlash (signingInfos s) (f (missedBits s)) (periods s) (addrPubkey s) (sl_params s).
Definition with_periods f (s : SlashState) : SlashState :=
  mkSlash (signingInfos s) (missedBits s) (f (periods s)) (addrPubkey s) (sl_params s).
Definition with_addrPubkey f (s : SlashState) : SlashState :=
  mkSlash (signingInfos s) (missedBits s) (periods s) (f (addrPubkey s)) (sl_params s).
Definition with_params (p : Params) (s : SlashState) : SlashState :=
  mkSlash (signingInfos s) (missedBits s) (periods s) (addrPubkey s) p.

Definition Uint64ToLittleEndian (x : Z) : string := str (rev (chars (Uint64ToBigEndian x))).
Definition GetValidatorMissedBlockBitArrayKey (v : ConsAddress) (i : Z) : string := v +:+ Uint64ToLittleEndian (wrap64 i).
Definition GetValidatorSlashingPeriodKey (v : ConsAddress) (startHeight : Z) : string :=
  v +:+ Uint64ToBigEndian (wrap64 (startHeight + ValidatorUpdateDelay)).
Definition unmarshalSlashingPeriodKeyValue (key : string) (value : ValidatorSlashingPeriodValue) : ValidatorSlashingPeriod :=
  let address := str (take AddrLen (chars key)) in
  let startHeight := wrap_int64 (BigEndianToUint64 (str (take 8 (drop AddrLen (chars key)))) - ValidatorUpdateDelay) in
  mkPeriod address startHeight (pv_EndHeight value) (pv_SlashedSoFar value).

(** ** The keeper, on its own stores *)
Definition getValidatorSigningInfo (address : ConsAddress) : M SlashState (option ValidatorSigningInfo) :=
  gets (λ s, signingInfos s !! address).
Definition getValidatorMissedBlockBitArray (address : ConsAddress) (index : Z) : M SlashState bool :=
  gets (λ s, default false (missedBits s !! GetValidatorMissedBlockBitArrayKey address index)).
Definition setValidatorMissedBlockBitArray (address : ConsAddress) (index : Z) (missed : bool) : M SlashState unit :=
  modify (with_missedBits (insert (GetValidatorMissedBlockBitArrayKey address index) missed)).
Definition clearValidatorMissedBlockBitArray (address : ConsAddress) : M SlashState unit :=
  keys <- gets (λ s, (prefix_iterator (missedBits s) address).*1) ;;
  for_each keys (λ k, modify (with_missedBits (delete k))).
Definition SetValidatorSlashingPeriod (p : ValidatorSlashingPeriod) : M SlashState unit :=
  modify (with_periods (insert (GetValidatorSlashingPeriodKey (sp_ValidatorAddr p) (sp_StartHeight p))
    (mkPeriodValue (sp_EndHeight p) (sp_SlashedSoFar p)))).
(** The entries from [start] to the end of the keys with a prefix. *)
Definition below (stop : option string) (k : string) : Prop := ∀ e, stop = Some e → str_lt k e.
#[export] Instance below_dec stop k : Decision (below stop k).
Proof.
  destruct stop as [e|]; [destruct (decide (str_lt k e)); [left|right]|left]; unfold below; [by intros ? [= <-]|naive_solver|done].
Defined.
Definition range_iterator {V} (store : gmap string V) (start : string) (stop : option string) : list (string * V) :=
  filter (λ kv, ¬ str_lt kv.1 start ∧ below stop kv.1) (entries store).
Definition getValidatorSlashingPeriodForHeight (address : ConsAddress) (height : Z) : M SlashState ValidatorSlashingPeriod :=
  l <- gets (λ s, range_iterator (periods s) address (pend (GetValidatorSlashingPeriodKey address height))) ;;
  match last l with
  | None => panic "expected to find slashing period for validator"
  | Some (key, value) => ret (unmarshalSlashingPeriodKeyValue key value)
  end.
Definition capBySlashingPeriod (address : ConsAddress) (fraction : Dec) (infractionHeight : Z) : M SlashState Dec :=
  p <- getValidatorSlashingPeriodForHeight address infractionHeight ;;
  expect (negb ((0 <? sp_EndHeight p) && (sp_EndHeight p <? infractionHeight))) "slashing period ended before infraction" ;;;
  let totalToSlash := MaxDec (sp_SlashedSoFar p) fraction in
  revisedFraction <- lift (Dec_Sub totalToSlash (sp_SlashedSoFar p)) ;;
  SetValidatorSlashingPeriod (mkPeriod (sp_ValidatorAddr p) (sp_StartHeight p) (sp_EndHeight p) totalToSlash) ;;;
  ret revisedFraction.
Definition DeleteValidatorSlashingPeriods : M SlashState unit := modify (with_periods (λ _, ∅)).
Definition getPubkey (address : ConsAddress) : M SlashState (option ConsKey) := gets (λ s, addrPubkey s !! address).
Definition addPubkey `{ConsCrypto} (pubkey : ConsKey) : M SlashState unit :=
  modify (with_addrPubkey (insert (PubKey_Address pubkey) pubkey)).
Definition deleteAddrPubkeyRelation (address : ConsAddress) : M SlashState unit := modify (with_addrPubkey (delete address)).
Definition param {A} (f : Params → A) : M SlashState A := gets (λ s, f (sl_params s)).
Definition MinSignedPerWindow : M SlashState Z :=
  minSignedPerWindow <- param p_MinSignedPerWindow ;;
  signedBlocksWindow <- param p_SignedBlocksWindow ;;
  lift (let? w := NewDec signedBlocksWindow in let? m := Dec_Mul w minSignedPerWindow in Dec_RoundInt64 m).

(** ** Messages (msg.go) *)
Record MsgUnjail := mkMsgUnjail { uj_ValidatorAddr : ValAddress }.
Definition MsgUnjail_ValidateBasic (m : MsgUnjail) : Outcome unit :=
  if is_nil (uj_ValidatorAddr m) then Err ErrBadValidatorAddr else Ok tt.
Definition MsgUnjail_GetSigners (m : MsgUnjail) : list AccAddress := [uj_ValidatorAddr m].

(** ** The keeper beside staking *)
Record VoteInfo := mkVote { vote_Address : ConsAddress; vote_Power : Z; vote_Signed : bool }.
Inductive EvidenceType := DuplicateVote | UnknownEvidence.
Record Evidence := mkEvidence { ev_Type : EvidenceType; ev_Address : ConsAddress; ev_Height : Z; ev_Power : Z }.

Section keeper.
Context {X : Type} `{Crypto, ConsCrypto, !Part X SlashState}.
Abbreviation SM := (M (StakeState X)).
Definition on_slash {A} (c : M SlashState A) : SM A := on_part c.
(** The validator is read for the metrics. *)
Definition SetValidatorSigningInfo (address : ConsAddress) (info : ValidatorSigningInfo) : SM unit :=
  GetValidatorByConsAddr address ;;; on_slash (modify (with_signingInfos (insert address info))).

(** Hooks (hooks.go); the other hooks do nothing. *)
Definition onValidatorBonded (ctx : Ctx) (address : ConsAddress) : SM unit :=
  found <- on_slash (getValidatorSigningInfo address) ;;
  (match found with
   | None => SetValidatorSigningInfo address (mkSigningInfo (BlockHeight ctx) 0 0 0)
   | Some _ => ret tt
   end) ;;;
  on_slash (SetValidatorSlashingPeriod (mkPeriod address (BlockHeight ctx) 0 ZeroDec)).
Definition onValidatorBeginUnbonding (ctx : Ctx) (address : ConsAddress) : SM unit :=
  p <- on_slash (getValidatorSlashingPeriodForHeight address (BlockHeight ctx)) ;;
  on_slash (SetValidatorSlashingPeriod (mkPeriod (sp_ValidatorAddr p) (sp_StartHeight p) (BlockHeight ctx) (sp_SlashedSoFar p))).
Definition onValidatorCreated (valAddr : ValAddress) : SM unit :=
  v <- GetValidator valAddr ;;
  match v with None => panic "nil validator" | Some v => on_slash (addPubkey (v_ConsPubKey v)) end.
Definition onValidatorRemoved (address : ConsAddress) : SM unit := on_slash (deleteAddrPubkeyRelation address).
End keeper.

Section module.
Context {X : Type} `{Crypto, ConsCrypto, !Part X SlashState, StakingHooks X}.
Abbreviation SM := (M (StakeState X)).
Definition must_getPubkey (addr : ConsAddress) : SM ConsKey :=
  pubkey <- on_slash (getPubkey addr) ;;
  match pubkey with None => panic "Validator consensus-address not found" | Some pubkey => ret pubkey end.
Definition must_SigningInfo (consAddr : ConsAddress) : SM ValidatorSigningInfo :=
  info <- on_slash (getValidatorSigningInfo consAddr) ;;
  match info with None => panic "Expected signing info for validator but not found" | Some info => ret info end.
Definition jail_until (consAddr : ConsAddress) (until : Z) : SM unit :=
  info <- must_SigningInfo consAddr ;;
  SetValidatorSigningInfo consAddr (mkSigningInfo (StartHeight info) (IndexOffset info) until (MissedBlocksCounter info)).

Definition handleDoubleSign (ctx : Ctx) (consAddr : ConsAddress) (infractionHeight power : Z) : SM unit :=
  let age := wrap_int64 (BlockHeight ctx - infractionHeight) in
  validator <- GetValidatorByConsAddr consAddr ;;
  match validator with
  | None => ret tt
  | Some v =>
      if bool_decide (v_Status v = Unbonded) then ret tt else
      must_getPubkey consAddr ;;;
      maxEvidenceAge <- on_slash (param p_MaxEvidenceAge) ;;
      if maxEvidenceAge <? age then ret tt else
      let distributionHeight := wrap_int64 (infractionHeight - ValidatorUpdateDelay) in
      fraction <- on_slash (param p_SlashFractionDoubleSign) ;;
      revisedFraction <- on_slash (capBySlashingPeriod consAddr fraction distributionHeight) ;;
      Slash ctx consAddr distributionHeight power revisedFraction ;;;
      (if v_Jailed v then ret tt else Jail consAddr) ;;;
      duration <- on_slash (param p_DoubleSignJailDuration) ;;
      jail_until consAddr (BlockTime ctx + duration)
  end.

(** The bit of the block and the counter. *)
Definition record_signature (consAddr : ConsAddress) (index : Z) (missed : bool) (counter : Z) : M SlashState Z :=
  previous <- getValidatorMissedBlockBitArray consAddr index ;;
  match previous, missed with
  | false, true => setValidatorMissedBlockBitArray consAddr index true ;;; ret (wrap_int64 (counter + 1))
  | true, false => setValidatorMissedBlockBitArray consAddr index false ;;; ret (wrap_int64 (counter - 1))
  | _, _ => ret counter
  end.
Definition handleValidatorSignature (ctx : Ctx) (consAddr : ConsAddress) (power : Z) (signed : bool) : SM unit :=
  let height := BlockHeight ctx in
  must_getPubkey consAddr ;;;
  info <- must_SigningInfo consAddr ;;
  window <- on_slash (param p_SignedBlocksWindow) ;;
  expect (negb (window =? 0)) "integer divide by zero" ;;;
  let index := Z.rem (IndexOffset info) window in
  let offset := wrap_int64 (IndexOffset info + 1) in
  counter <- on_slash (record_signature consAddr index (negb signed) (MissedBlocksCounter info)) ;;
  minSigned <- on_slash MinSignedPerWindow ;;
  let minHeight := wrap_int64 (StartHeight info + window) in
  let maxMissed := wrap_int64 (window - minSigned) in
  info <- (if (minHeight <? height) && (maxMissed <? counter) then
             validator <- GetValidatorByConsAddr consAddr ;;
             match validator with
             | Some v =>
                 if v_Jailed v then ret (mkSigningInfo (StartHeight info) offset (JailedUntil info) counter) else
                 let distributionHeight := wrap_int64 (height - ValidatorUpdateDelay - 1) in
                 fraction <- on_slash (param p_SlashFractionDowntime) ;;
                 Slash ctx consAddr distributionHeight power fraction ;;;
                 Jail consAddr ;;;
                 duration <- on_slash (param p_DowntimeJailDuration) ;;
                 on_slash (clearValidatorMissedBlockBitArray consAddr) ;;;
                 ret (mkSigningInfo (StartHeight info) 0 (BlockTime ctx + duration) 0)
             | None => ret (mkSigningInfo (StartHeight info) offset (JailedUntil info) counter)
             end
           else ret (mkSigningInfo (StartHeight info) offset (JailedUntil info) counter)) ;;
  SetValidatorSigningInfo consAddr info.

Definition handleProposerCensorship (ctx : Ctx) (consAddr : ConsAddress) (infractionHeight : Z) : SM unit :=
  must_getPubkey consAddr ;;;
  validator <- GetValidatorByConsAddr consAddr ;;
  match validator with
  | None => ret tt
  | Some v =>
      if bool_decide (v_Status v = Unbonded) then ret tt else
      let distributionHeight := wrap_int64 (infractionHeight - ValidatorUpdateDelay) in
      power <- lift (tm_power v) ;;
      fraction <- on_slash (param p_SlashFractionCensorship) ;;
      Slash ctx consAddr distributionHeight power fraction ;;;
      (if v_Jailed v then ret tt else Jail consAddr) ;;;
      duration <- on_slash (param p_CensorshipJailDuration) ;;
      jail_until consAddr (BlockTime ctx + duration)
  end.

(** ** Begin and end of a block (tick.go) *)
Definition SlashBeginBlocker : string := "slashBeginBlocker".
Definition SlashEndBlocker : string := "slashEndBlocker".
Definition BeginBlocker (ctx : Ctx) (votes : list VoteInfo) (byzantine : list Evidence) : SM unit :=
  let ctx := WithCoinFlowTrigger SlashBeginBlocker ctx in
  for_each votes (λ v, handleValidatorSignature ctx (vote_Address v) (vote_Power v) (vote_Signed v)) ;;;
  for_each byzantine (λ e,
    match ev_Type e with
    | DuplicateVote => handleDoubleSign ctx (ev_Address e) (ev_Height e) (ev_Power e)
    | UnknownEvidence => ret tt
    end).
(** [validTxs]: the transactions of the block that were valid. *)
Definition EndBlocker (ctx : Ctx) (validTxs numTxs : Z) (proposer : ConsAddress) : SM unit :=
  let ctx := WithCoinFlowTrigger SlashEndBlocker ctx in
  if validTxs <? numTxs then handleProposerCensorship ctx proposer (BlockHeight ctx) else ret tt.

(** ** Messages (handler.go) *)
Definition handleMsgUnjail (ctx : Ctx) (msg : MsgUnjail) : SM unit :=
  validator <- GetValidator (uj_ValidatorAddr msg) ;;
  match validator with
  | None => throw ErrNoValidatorForAddress
  | Some v =>
      selfDel <- GetDelegation (uj_ValidatorAddr msg) (uj_ValidatorAddr msg) ;;
      require (bool_decide (is_Some selfDel)) ErrMissingSelfDelegation ;;;
      require (v_Jailed v) ErrValidatorNotJailed ;;;
      let consAddr := PubKey_Address (v_ConsPubKey v) in
      info <- on_slash (getValidatorSigningInfo consAddr) ;;
      match info with
      | None => throw ErrNoValidatorForAddress
      | Some info =>
          require (negb (BlockTime ctx <? JailedUntil info)) ErrValidatorJailed ;;;
          Unjail consAddr
      end
  end.

(** ** Genesis (genesis.go); the text of an address stands for it *)
Record MissedBlock := mkMissed { mb_Index : Z; mb_Missed : bool }.
Record GenesisState := mkSlashGenesis {
  gs_Params : Params; gs_SigningInfos : list (string * ValidatorSigningInfo);
  gs_MissedBlocks : list (string * list MissedBlock); gs_SlashingPeriods : list ValidatorSlashingPeriod }.
Variable ConsAddressFromBech32 : string → option ConsAddress.
Variable ConsAddress_String : ConsAddress → string.
Definition must_address (text : string) : SM ConsAddress :=
  match ConsAddressFromBech32 text with None => panic "invalid address" | Some a => ret a end.
Definition InitGenesis (mainnet : bool) (data : GenesisState) (vals : list Validator) : SM unit :=
  (match validateParams mainnet (gs_Params data) with Ok _ => ret tt | Err _ => panic "invalid genesis" | Panic w => panic w end) ;;;
  for_each vals (λ v, on_slash (addPubkey (v_ConsPubKey v))) ;;;
  for_each (gs_SigningInfos data) (λ p, address <- must_address p.1 ;; SetValidatorSigningInfo address p.2) ;;;
  for_each (gs_MissedBlocks data) (λ p, address <- must_address p.1 ;;
    for_each p.2 (λ b, on_slash (setValidatorMissedBlockBitArray address (mb_Index b) (mb_Missed b)))) ;;;
  for_each (gs_SlashingPeriods data) (λ p, on_slash (SetValidatorSlashingPeriod p)) ;;;
  on_slash (modify (with_params (gs_Params data))).
Definition missed_of (s : SlashState) (address : ConsAddress) (index : Z) : list MissedBlock :=
  match missedBits s !! GetValidatorMissedBlockBitArrayKey address index with
  | None => []
  | Some missed => [mkMissed index missed]
  end.
Definition iterateValidatorMissedBlockBitArray (s : SlashState) (address : ConsAddress) : list MissedBlock :=
  mjoin (missed_of s address <$> seqZ 0 (p_SignedBlocksWindow (sl_params s))).
(** The maps of the genesis, with the addresses in the order of the store. *)
Definition ExportGenesis (s : SlashState) : GenesisState :=
  let infos := entries (signingInfos s) in
  mkSlashGenesis (sl_params s) ((λ p, (ConsAddress_String p.1, p.2)) <$> infos)
    ((λ p, (ConsAddress_String p.1, iterateValidatorMissedBlockBitArray s p.1)) <$> infos)
    ((λ p, unmarshalSlashingPeriodKeyValue p.1 p.2) <$> entries (periods s)).
End module.
End Slashing.
