(* ===== verification/SlashFacts.v ===== *)
(** * Slashing: signing windows and slashing periods *)

From Stdlib Require Import Ascii.
From S2P Require Import Prelude SdkErrors IntType GoStrings Denom Coin Dec TimeBytes KVStore PrefixKV Auth Bank StdTx Frame StakeTypes Stake StakeFacts StakeInv StakeSlash Slashing.
#[local] Open Scope Z_scope.

Module SlashFacts.
Import StakeTypes Stake StakeFacts StakeInv StakeSlash Slashing.

(** ** The window of signed blocks

    [hist] has the blocks a validator should have signed, the newest first, with
    whether it missed them. *)
Definition bit (s : SlashState) (a : ConsAddress) (i : Z) : bool := default false (missedBits s !! GetValidatorMissedBlockBitArrayKey a i).
Definition missed_in (W : Z) (hist : list bool) : Z := list_sum Z.b2z (take (Z.to_nat W) hist).
Record tracks (W : Z) (a : ConsAddress) (hist : list bool) (s : SlashState) (info : ValidatorSigningInfo) : Prop := {
  tk_offset : IndexOffset info = Z.of_nat (length hist);
  tk_bits j : 0 ≤ j < W → bit s a ((Z.of_nat (length hist) - 1 - j) mod W) = nth (Z.to_nat j) hist false;
  tk_count : MissedBlocksCounter info = missed_in W hist }.

Lemma missed_in_step W m hist :
  0 < W → missed_in W (m :: hist) = missed_in W hist + Z.b2z m - Z.b2z (nth (Z.to_nat (W - 1)) hist false).
Proof.
  intros HW. unfold missed_in. replace (Z.to_nat W) with (S (Z.to_nat (W - 1))) by lia. generalize (Z.to_nat (W - 1)) as n. intros n.
  rewrite firstn_cons. cbn [list_sum].
  assert (list_sum Z.b2z (take (S n) hist) = list_sum Z.b2z (take n hist) + Z.b2z (nth n hist false)) as ->; [|lia].
  clear m. revert n. induction hist as [|b hist IH]; intros n; [by destruct n|]. destruct n as [|n]; [simpl; lia|].
  rewrite !firstn_cons. cbn [list_sum nth]. rewrite IH. lia.
Qed.
Lemma missed_in_range W hist : 0 ≤ W → 0 ≤ missed_in W hist ≤ W.
Proof.
  intros HW. unfold missed_in. assert (∀ l : list bool, 0 ≤ list_sum Z.b2z l ≤ Z.of_nat (length l)) as Hl.
  { induction l as [|[] l IH]; simpl; lia. }
  pose proof (Hl (take (Z.to_nat W) hist)) as Hr. rewrite length_take in Hr. lia.
Qed.
Lemma missed_key_inj a i j :
  0 ≤ i < 2^64 → 0 ≤ j < 2^64 → GetValidatorMissedBlockBitArrayKey a i = GetValidatorMissedBlockBitArrayKey a j → i = j.
Proof.
  intros Hi Hj E. unfold GetValidatorMissedBlockBitArrayKey in E. apply str_app_inj in E as [_ E]; [|done].
  unfold Uint64ToLittleEndian in E. apply (f_equal chars) in E. rewrite !chars_str in E. apply (f_equal (@rev _)) in E.
  rewrite !rev_involutive in E. apply chars_inj in E. unfold wrap64 in E. rewrite !Z.mod_small in E by lia. by apply Uint64ToBigEndian_inj.
Qed.
(** What recording a signature does to the bits. *)
Lemma record_signature_run a i m c s :
  ∃ s', record_signature a i m c s = (Ok (match bit s a i, m with false, true => wrap_int64 (c + 1) | true, false => wrap_int64 (c - 1) | _, _ => c end), s') ∧
    (s' = s ∨ s' = with_missedBits (insert (GetValidatorMissedBlockBitArrayKey a i) m) s) ∧ bit s' a i = m.
Proof.
  unfold record_signature, getValidatorMissedBlockBitArray, setValidatorMissedBlockBitArray, bind, gets, modify, ret.
  fold (bit s a i). destruct (bit s a i) eqn:Eb, m; eexists; (split; [reflexivity|]); (split; [auto|]); try done;
    unfold bit; simpl; by rewrite lookup_insert_eq.
Qed.
Lemma bit_insert s a i m j :
  0 ≤ i < 2^64 → 0 ≤ j < 2^64 → bit (with_missedBits (insert (GetValidatorMissedBlockBitArrayKey a i) m) s) a j = if decide (j = i) then m else bit s a j.
Proof.
  intros Hi Hj. unfold bit. simpl. case_decide as E; [subst; by rewrite lookup_insert_eq|]. rewrite lookup_insert_ne; [done|].
  intros Ek. apply E. symmetry. by eapply missed_key_inj.
Qed.
Lemma bit_other s a i m b j :
  is_addr a → is_addr b → b ≠ a → bit (with_missedBits (insert (GetValidatorMissedBlockBitArrayKey a i) m) s) b j = bit s b j.
Proof.
  intros Ha Hb Hne. unfold bit. simpl. rewrite lookup_insert_ne; [done|]. unfold GetValidatorMissedBlockBitArrayKey.
  intros [E _]%str_app_inj; [done|]. by rewrite Ha, Hb.
Qed.
Lemma mod_prev n k W : 0 < k < W → (n - k) mod W ≠ n mod W.
Proof.
  intros Hk E. assert ((n - (n - k)) mod W = 0) as H0. { rewrite Zminus_mod, E, Z.sub_diag. apply Zmod_0_l. }
  replace (n - (n - k)) with k in H0 by lia. rewrite Z.mod_small in H0 by lia. lia.
Qed.
Lemma tracks_step W a hist s info m :
  tracks W a hist s info → 0 < W < 2^62 → Z.of_nat (length hist) < 2^62 →
  ∃ s', record_signature a (Z.rem (IndexOffset info) W) m (MissedBlocksCounter info) s = (Ok (missed_in W (m :: hist)), s') ∧
    (∃ f, s' = with_missedBits f s) ∧ (∀ b j, is_addr a → is_addr b → b ≠ a → bit s' b j = bit s b j) ∧
    ∀ info', IndexOffset info' = IndexOffset info + 1 → MissedBlocksCounter info' = missed_in W (m :: hist) → tracks W a (m :: hist) s' info'.
Proof.
  intros [To Tb Tc] HW Hn. rewrite To. rewrite Z.rem_mod_nonneg by lia. set (n := Z.of_nat (length hist)) in *. set (i := n mod W).
  assert (0 ≤ i < W) as Hi by (apply Z.mod_pos_bound; lia).
  assert (bit s a i = nth (Z.to_nat (W - 1)) hist false) as Hold.
  { rewrite <-Tb by lia. f_equal. unfold i. replace (n - 1 - (W - 1)) with (n + (-1) * W) by lia. by rewrite Z_mod_plus_full. }
  destruct (record_signature_run a i m (MissedBlocksCounter info) s) as (s'&Hrun&Hs'&Hbit). exists s'. pose proof (missed_in_range W hist ltac:(lia)) as Hrange.
  pose proof (missed_in_step W m hist ltac:(lia)) as Hstep. split_and!.
  - rewrite Hrun, Hold, Tc, Hstep. f_equal. f_equal. destruct (nth (Z.to_nat (W - 1)) hist false) eqn:En, m; simpl; try lia;
      rewrite wrap_int64_small; try (unfold is_int64; apply andb_true_iff; rewrite !Z.leb_le); lia.
  - destruct Hs' as [->| ->]; [exists id; by destruct s|eauto].
  - intros b j Ha Hb Hne. destruct Hs' as [->| ->]; [done|by apply bit_other].
  - intros info' Ho Hc. assert (∀ j, 0 ≤ j < W → j ≠ i → bit s' a j = bit s a j) as Hother.
    { intros j Hj Hne. destruct Hs' as [->| ->]; [done|]. rewrite bit_insert by lia. by rewrite decide_False. }
    split; [rewrite Ho; simpl; lia| |done]. intros j Hj. cbn [length]. rewrite Nat2Z.inj_succ. fold n.
    replace (Z.succ n - 1 - j) with (n - j) by lia. destruct (decide (j = 0)) as [->|Hj0].
    + rewrite Z.sub_0_r. exact Hbit.
    + rewrite Hother; [|apply Z.mod_pos_bound; lia|apply mod_prev; lia].
      replace (n - j) with (n - 1 - (j - 1)) by lia. rewrite Tb by lia. replace (Z.to_nat j) with (S (Z.to_nat (j - 1))) by lia. done.
Qed.
(** Clearing the bits starts a new window. *)
Lemma clear_run a s :
  ∃ s', clearValidatorMissedBlockBitArray a s = (Ok tt, s') ∧ (∃ f, s' = with_missedBits f s) ∧
    (∀ i, missedBits s' !! GetValidatorMissedBlockBitArrayKey a i = None) ∧ (∀ b j, is_addr a → is_addr b → b ≠ a → bit s' b j = bit s b j).
Proof.
  unfold clearValidatorMissedBlockBitArray. unfold bind at 1, gets.
  assert (∀ l (s : SlashState), for_each l (λ k, modify (with_missedBits (delete k))) s = (Ok tt, with_missedBits (λ m, foldl (λ m k, delete k m) m l) s)) as Hrun.
  { induction l as [|k l IH]; intros s0; [by destruct s0|]. change (for_each (k :: l) ?b) with (bind (b k) (λ _, for_each l b)).
    unfold bind, modify. rewrite IH. by destruct s0. }
  rewrite Hrun. eexists. split_and!; [reflexivity|eauto|..].
  - intros i. simpl.
    assert (∀ l (m : gmap string bool) k, k ∈ l ∨ m !! k = None → foldl (λ m k, delete k m) m l !! k = None) as Hdel.
    { induction l as [|k' l IH]; intros m k Hk; simpl; [destruct Hk as [Hk|]; [by apply elem_of_nil in Hk|done]|]. apply IH.
      destruct (decide (k = k')) as [->|Hne]; [right; by rewrite lookup_delete_eq|]. rewrite lookup_delete_ne by done.
      destruct Hk as [Hk|]; [|auto]. apply elem_of_cons in Hk as [->|]; [done|auto]. }
    apply Hdel. destruct (missedBits s !! GetValidatorMissedBlockBitArrayKey a i) as [b|] eqn:E; [left|auto].
    apply list_elem_of_fmap. exists (GetValidatorMissedBlockBitArrayKey a i, b). split; [done|]. apply prefix_iterator_elem. split; [done|].
    apply HasPrefix_iff. by eexists.
  - intros b j Ha Hb Hne. unfold bit. simpl. f_equal. set (k := GetValidatorMissedBlockBitArrayKey b j).
    assert (∀ l (m : gmap string bool), k ∉ l → foldl (λ m k, delete k m) m l !! k = m !! k) as Hkeep.
    { induction l as [|k' l IH]; intros m Hk; [done|]. apply not_elem_of_cons in Hk as [Hk Hl]. simpl. rewrite IH by done. by rewrite lookup_delete_ne. }
    apply Hkeep. intros ([k' v]&Ek&[_ Hp]%prefix_iterator_elem)%list_elem_of_fmap. simpl in Ek. subst k'. apply HasPrefix_iff in Hp as (t&Et).
    unfold k, GetValidatorMissedBlockBitArrayKey in Et. apply str_app_inj in Et as [Et _]; [done|]. by rewrite Ha, Hb.
Qed.
Lemma tracks_nil W a s info : IndexOffset info = 0 → MissedBlocksCounter info = 0 → (∀ i, bit s a i = false) → tracks W a [] s info.
Proof. intros Ho Hc Hb. split; [done|intros j _; rewrite Hb; by destruct (Z.to_nat j)|]. rewrite Hc. unfold missed_in. by destruct (Z.to_nat W). Qed.

(** ** Slashing periods *)
Lemma str_lt_field (a b x y : string) : str_len a = str_len b → str_lt a b → str_lt (a +:+ x) (b +:+ y).
Proof.
  intros Hl Hlt. rewrite <-(str_chars a), <-(str_chars b), <-(str_chars x), <-(str_chars y), <-!str_app. apply str_lt_same_len; [done|by rewrite !str_chars].
Qed.
Lemma str_nil_r (p : string) : p +:+ "" = p.
Proof. induction p as [|c p IH]; [done|]. change (String c (p +:+ "") = String c p). by rewrite IH. Qed.
Lemma below_pend p k : str_len k = str_len p → below (pend p) k ↔ str_lt k p ∨ k = p.
Proof.
  intros Hl. pose proof (pend_spec p k) as Hs. pose proof (pend_spec p p) as Hp. assert (HasPrefix p p = true) as Hpp by (apply HasPrefix_iff; exists ""; by rewrite str_nil_r).
  split.
  - intros Hb. destruct (str_lt_total k p) as [Hlt|[->|Hlt]]; [by left|by right|]. right.
    assert (HasPrefix k p = true) as (t&->)%HasPrefix_iff. { apply Hs. split; [|done]. intros Hkp. apply (str_lt_irrefl k). by etrans. }
    destruct t as [|c t]; [apply str_nil_r|]. unfold str_len in Hl. rewrite chars_app, length_app in Hl. simpl in Hl. lia.
  - apply Hp in Hpp as [_ Hpe]. intros [Hlt| ->]; [|done]. intros e He. etrans; [exact Hlt|by apply Hpe].
Qed.
(** The key of the period of a validator that starts at [n], the height with the
    delay of updates. *)
Definition period_key (a : ConsAddress) (n : Z) : string := a +:+ Uint64ToBigEndian n.
Definition periods_ok (s : SlashState) : Prop :=
  ∀ k v, periods s !! k = Some v → ∃ a n, k = period_key a n ∧ is_addr a ∧ 0 ≤ n < 2^64.
Definition period_at (s : SlashState) (a : ConsAddress) (n : Z) : option ValidatorSlashingPeriodValue := periods s !! period_key a n.
(** The period of a height: the last one that starts no later. *)
Record period_of (s : SlashState) (a : ConsAddress) (h n : Z) (v : ValidatorSlashingPeriodValue) : Prop := {
  po_at : period_at s a n = Some v;
  po_start : 0 ≤ n ≤ wrap64 (h + ValidatorUpdateDelay);
  po_last m : n < m ≤ wrap64 (h + ValidatorUpdateDelay) → period_at s a m = None }.

Lemma wrap64_range x : 0 ≤ wrap64 x < 2^64.
Proof. unfold wrap64. apply Z.mod_pos_bound. lia. Qed.
Lemma period_in_range a h b n :
  is_addr a → is_addr b → 0 ≤ n < 2^64 →
  ¬ str_lt (period_key b n) a ∧ below (pend (GetValidatorSlashingPeriodKey a h)) (period_key b n) ↔ b = a ∧ n ≤ wrap64 (h + ValidatorUpdateDelay).
Proof.
  intros Ha Hb Hn. pose proof (wrap64_range (h + ValidatorUpdateDelay)) as Hr. unfold GetValidatorSlashingPeriodKey. fold (period_key a (wrap64 (h + ValidatorUpdateDelay))).
  set (m := wrap64 (h + ValidatorUpdateDelay)) in *. rewrite below_pend.
  2:{ unfold period_key, str_len. rewrite !chars_app, !length_app. fold (str_len a) (str_len b). by rewrite Ha, Hb. }
  assert (str_len a = str_len b) as Hl by (by rewrite Ha, Hb). split.
  - intros [H1 H2]. assert (b = a) as ->.
    { destruct (str_lt_total b a) as [Hlt|[->|Hlt]]; [|done|]; exfalso.
      - apply H1. rewrite <-(str_nil_r a). by apply str_lt_field.
      - destruct H2 as [H2|H2]; [|apply str_app_inj in H2 as [-> _]; [by apply str_lt_irrefl in Hlt|congruence]].
        apply (str_lt_irrefl (period_key b n)). etrans; [exact H2|]. by apply str_lt_field. }
    split; [done|]. destruct H2 as [H2|H2]; [|apply str_app_inj in H2 as [_ H2]; [apply Uint64ToBigEndian_inj in H2; lia|done]].
    destruct (Z.le_gt_cases n m) as [|Hgt]; [done|]. exfalso. apply (str_lt_irrefl (period_key a n)). etrans; [exact H2|].
    apply str_lt_app. by apply Uint64ToBigEndian_order.
  - intros [-> Hnm]. split.
    + intros Hlt. by apply (str_lt_app_r _ _ (Uint64ToBigEndian n)), str_lt_irrefl in Hlt.
    + destruct (decide (n = m)) as [->|Hne]; [by right|left]. apply str_lt_app. apply Uint64ToBigEndian_order; lia.
Qed.
Lemma range_iterator_elem {V} (store : gmap string V) start stop k v :
  (k, v) ∈ range_iterator store start stop ↔ store !! k = Some v ∧ ¬ str_lt k start ∧ below stop k.
Proof. unfold range_iterator. rewrite list_elem_of_filter, entries_elem. naive_solver. Qed.
Lemma strongly_sorted_filter {A} (R : relation A) P `{!∀ x, Decision (P x)} l : StronglySorted R l → StronglySorted R (filter P l).
Proof.
  induction 1 as [|x l Hl IH Hall]; [constructor|]. rewrite filter_cons. case_decide; [|done]. constructor; [done|].
  rewrite Forall_forall in *. intros y Hy. apply Hall. by apply list_elem_of_filter in Hy as [_ ?].
Qed.
Lemma last_max {A} (R : relation A) l x y : StronglySorted R l → last l = Some y → x ∈ l → x = y ∨ R x y.
Proof.
  induction 1 as [|z l Hl IH Hall]; [done|]. intros Hy [->|Hx]%elem_of_cons.
  - destruct l as [|w l]; [left; by injection Hy|]. right. rewrite Forall_forall in Hall. apply Hall. by apply last_Some_elem_of.
  - destruct l as [|w l]; [by apply elem_of_nil in Hx|]. by apply IH.
Qed.
(** The search finds the period of the height, or none starts no later. *)
Lemma period_lookup s a h :
  periods_ok s → is_addr a →
  (∃ n v, period_of s a h n v ∧
     getValidatorSlashingPeriodForHeight a h s = (Ok (mkPeriod a (wrap_int64 (n - ValidatorUpdateDelay)) (pv_EndHeight v) (pv_SlashedSoFar v)), s)) ∨
  ((∀ n, 0 ≤ n ≤ wrap64 (h + ValidatorUpdateDelay) → period_at s a n = None) ∧
     getValidatorSlashingPeriodForHeight a h s = (Panic "expected to find slashing period for validator", s)).
Proof.
  intros Hok Ha. unfold getValidatorSlashingPeriodForHeight, bind, gets. pose proof (wrap64_range (h + ValidatorUpdateDelay)) as Hr.
  set (l := range_iterator _ _ _). assert (∀ n v, 0 ≤ n ≤ wrap64 (h + ValidatorUpdateDelay) → period_at s a n = Some v → (period_key a n, v) ∈ l) as Hin.
  { intros n v Hn Hv. apply range_iterator_elem. split; [done|]. apply period_in_range; [done|done|lia|]. split; [done|lia]. }
  destruct (last l) as [[k v]|] eqn:El.
  - left. pose proof (last_Some_elem_of _ _ El) as (Hk&Hrng)%range_iterator_elem. destruct (Hok _ _ Hk) as (b&n&->&Hb&Hn).
    apply period_in_range in Hrng as [-> Hle]; [|done..]. exists n, v. split.
    + split; [done|lia|]. intros m Hm. destruct (period_at s a m) as [w|] eqn:Em; [|done]. exfalso.
      assert (StronglySorted key_le l) as Hs by apply strongly_sorted_filter, entries_sorted.
      pose proof (last_max key_le l _ _ Hs El (Hin m w ltac:(lia) Em)) as [Heq|Hle'].
      { injection Heq as Heq _. apply str_app_inj in Heq as [_ Heq]; [|done]. apply Uint64ToBigEndian_inj in Heq; lia. }
      apply Hle'. unfold period_key. simpl. apply str_lt_app, Uint64ToBigEndian_order; lia.
    + unfold ret, unmarshalSlashingPeriodKeyValue. unfold period_key at 1. rewrite take_addr by done. pose proof (drop_addr a (Uint64ToBigEndian n) Ha) as Hd.
      assert (drop AddrLen (chars (period_key a n)) = chars (Uint64ToBigEndian n)) as ->. { rewrite <-Hd. by rewrite chars_str. }
      rewrite take_ge by (fold (str_len (Uint64ToBigEndian n)); by rewrite Uint64ToBigEndian_length). rewrite str_chars, BigEndian_roundtrip by lia. done.
  - right. apply last_None in El. split; [|done]. intros n Hn. destruct (period_at s a n) as [w|] eqn:Em; [|done].
    apply Hin in Em; [|done]. rewrite El in Em. by apply elem_of_nil in Em.
Qed.
Lemma wrap_period_key n : 0 ≤ n < 2^64 → wrap64 (wrap_int64 (n - ValidatorUpdateDelay) + ValidatorUpdateDelay) = n.
Proof. 
  intros Hn. unfold wrap64, wrap_int64. set (d := ValidatorUpdateDelay). rewrite (Z.mod_eq (n - d + 2^63) (2^64)) by lia. set (q := _ / _).
  replace (n - d + 2^63 - 2^64 * q - 2^63 + d) with (n + (-q) * 2^64) by lia. rewrite Z_mod_plus_full. by apply Z.mod_small.
Qed.
(** A period is charged what the worst infraction of it adds to what it was charged. *)
Definition charge (v : ValidatorSlashingPeriodValue) (fraction : Dec) : ValidatorSlashingPeriodValue :=
  mkPeriodValue (pv_EndHeight v) (Z.max (pv_SlashedSoFar v) fraction).
Lemma cap_run s a f h n v :
  periods_ok s → is_addr a → period_of s a h n v → pv_EndHeight v ≤ 0 ∨ h ≤ pv_EndHeight v → dec_ok (Z.max (pv_SlashedSoFar v) f - pv_SlashedSoFar v) →
  capBySlashingPeriod a f h s = (Ok (Z.max (pv_SlashedSoFar v) f - pv_SlashedSoFar v), with_periods (insert (period_key a n) (charge v f)) s).
Proof.
  intros Hok Ha Hp He Hd. unfold capBySlashingPeriod. pose proof (wrap64_range (h + ValidatorUpdateDelay)) as Hr.
  destruct (period_lookup s a h Hok Ha) as [(n'&v'&Hp'&Hrun)|[Hnone _]]; [|exfalso; pose proof (po_at _ _ _ _ _ Hp) as E; rewrite Hnone in E; [done|apply Hp]].
  assert (n' = n) as ->.
  { pose proof (po_start _ _ _ _ _ Hp) as S1. pose proof (po_start _ _ _ _ _ Hp') as S2. pose proof (po_at _ _ _ _ _ Hp) as E1. pose proof (po_at _ _ _ _ _ Hp') as E2.
    destruct (Z.lt_total n n') as [Hlt|[|Hlt]]; [|done|]; [rewrite (po_last _ _ _ _ _ Hp) in E2 by lia|rewrite (po_last _ _ _ _ _ Hp') in E1 by lia]; done. }
  assert (v' = v) as ->. { pose proof (po_at _ _ _ _ _ Hp) as E1. rewrite (po_at _ _ _ _ _ Hp') in E1. congruence. }
  unfold bind at 1. rewrite Hrun. cbn [sp_EndHeight sp_SlashedSoFar sp_ValidatorAddr sp_StartHeight].
  assert (negb ((0 <? pv_EndHeight v) && (pv_EndHeight v <? h)) = true) as ->.
  { apply negb_true_iff, andb_false_iff. rewrite !Z.ltb_ge. lia. }
  assert (MaxDec (pv_SlashedSoFar v) f = Z.max (pv_SlashedSoFar v) f) as ->.
  { unfold MaxDec, Dec_LT. destruct (Z.ltb_spec (pv_SlashedSoFar v) f); lia. }
  unfold Dec_Sub. assert (dec_checked (Z.max (pv_SlashedSoFar v) f - pv_SlashedSoFar v) = Ok (Z.max (pv_SlashedSoFar v) f - pv_SlashedSoFar v)) as -> by (by apply dec_checked_ok).
  unfold expect, ret, bind, lift, SetValidatorSlashingPeriod, modify. do 2 f_equal. cbn [sp_EndHeight sp_SlashedSoFar sp_ValidatorAddr sp_StartHeight].
  unfold GetValidatorSlashingPeriodKey. rewrite wrap_period_key; [done|]. pose proof (po_start _ _ _ _ _ Hp). lia.
Qed.
End SlashFacts.
