(* ===== verification/DistrTypes.v ===== *)
(** * Distribution: data (app/v1/distribution/types)

    Coins with decimals, the accumulated shares of validators and delegators, and
    what a withdrawal does to the pools of fees. *)

From S2P Require Import Prelude SdkErrors IntType GoStrings Denom Coin Dec KVStore Auth StakeTypes.
#[local] Open Scope Z_scope.

Module DistrTypes.
Import StakeTypes.

(** ** Errors (errors.go) *)
Definition DefaultCodespace : string := "distr".
Definition CodeInvalidInput : Z := 103.
Definition CodeNoDistributionInfo : Z := 104.
Definition distr_err (c : Z) : Error := NewError DefaultCodespace c.
Definition ErrNilDelegatorAddr : Error := distr_err CodeInvalidInput.
Definition ErrNilWithdrawAddr : Error := distr_err CodeInvalidInput.
Definition ErrNilValidatorAddr : Error := distr_err CodeInvalidInput.
Definition ErrNoDelegationDistInfo : Error := distr_err CodeNoDistributionInfo.
Definition ErrNoValidatorDistInfo : Error := distr_err CodeNoDistributionInfo.

(** ** Coins with decimals (dec_coin.go) *)
Record DecCoin := mkDecCoin { dc_Denom : string; dc_Amount : Dec }.
Abbreviation DecCoins := (list DecCoin).
#[export] Instance DecCoin_eq_dec : EqDecision DecCoin.
Proof. solve_decision. Defined.
Definition NewDecCoin (denom : string) (amount : Z) : Outcome DecCoin :=
  let? a := NewDec amount in Ok (mkDecCoin denom a).
Definition NewDecCoinFromCoin (coin : Coin) : Outcome DecCoin :=
  let? a := NewDecFromInt (amount coin) in Ok (mkDecCoin (denom coin) a).
Definition DecCoin_Plus (coin coinB : DecCoin) : Outcome DecCoin :=
  if negb (bool_decide (dc_Denom coin = dc_Denom coinB)) then Panic "coin denom different" else
  let? a := Dec_Add (dc_Amount coin) (dc_Amount coinB) in Ok (mkDecCoin (dc_Denom coin) a).
Definition DecCoin_Minus (coin coinB : DecCoin) : Outcome DecCoin :=
  if negb (bool_decide (dc_Denom coin = dc_Denom coinB)) then Panic "coin denom different" else
  let? a := Dec_Sub (dc_Amount coin) (dc_Amount coinB) in Ok (mkDecCoin (dc_Denom coin) a).
Definition DecCoin_TruncateDecimal (coin : DecCoin) : Outcome (Coin * DecCoin) :=
  let? truncated := Dec_TruncateInt (dc_Amount coin) in
  let? whole := NewDecFromInt truncated in
  let? change := Dec_Sub (dc_Amount coin) whole in
  let? c := NewCoin (dc_Denom coin) truncated in
  Ok (c, mkDecCoin (dc_Denom coin) change).

(** A function on every coin. *)
Fixpoint each {A B} (f : A → Outcome B) (l : list A) : Outcome (list B) :=
  match l with [] => Ok [] | a :: l => let? b := f a in let? r := each f l in Ok (b :: r) end.
Definition NewDecCoins (coins : Coins) : Outcome DecCoins := each NewDecCoinFromCoin coins.
(** The loop over both slices. *)
Fixpoint DecCoins_Plus (coins : DecCoins) : DecCoins → Outcome DecCoins :=
  fix inner (coinsB : DecCoins) : Outcome DecCoins :=
    match coins, coinsB with
    | [], _ => Ok coinsB
    | _, [] => Ok coins
    | coinA :: restA, coinB :: restB =>
        match String.compare (dc_Denom coinA) (dc_Denom coinB) with
        | Lt => let? sum := DecCoins_Plus restA coinsB in Ok (coinA :: sum)
        | Eq =>
            let? a := Dec_Add (dc_Amount coinA) (dc_Amount coinB) in
            if Dec_IsZero a then DecCoins_Plus restA restB else
            let? c := DecCoin_Plus coinA coinB in
            let? sum := DecCoins_Plus restA restB in Ok (c :: sum)
        | Gt => let? sum := inner restB in Ok (coinB :: sum)
        end
    end.
Definition DecCoins_Negative (coins : DecCoins) : DecCoins := map (λ c, mkDecCoin (dc_Denom c) (Dec_Neg (dc_Amount c))) coins.
Definition DecCoins_Minus (coins coinsB : DecCoins) : Outcome DecCoins := DecCoins_Plus coins (DecCoins_Negative coinsB).
Fixpoint truncate_loop (coins : DecCoins) (changeSum : DecCoins) : Outcome (Coins * DecCoins) :=
  match coins with
  | [] => Ok ([], changeSum)
  | coin :: coins =>
      let? tc := DecCoin_TruncateDecimal coin in
      let? changeSum := DecCoins_Plus changeSum [tc.2] in
      let? r := truncate_loop coins changeSum in
      Ok (tc.1 :: r.1, r.2)
  end.
Definition DecCoins_TruncateDecimal (coins : DecCoins) : Outcome (Coins * DecCoins) := truncate_loop coins [].
Definition DecCoins_MulDec (coins : DecCoins) (d : Dec) : Outcome DecCoins :=
  each (λ c, let? a := Dec_Mul (dc_Amount c) d in Ok (mkDecCoin (dc_Denom c) a)) coins.
Definition DecCoins_QuoDec (coins : DecCoins) (d : Dec) : Outcome DecCoins :=
  each (λ c, let? a := Dec_Quo (dc_Amount c) d in Ok (mkDecCoin (dc_Denom c) a)) coins.
(** Binary search; the length is enough fuel. *)
Fixpoint DecCoins_AmountOf_fuel (fuel : nat) (coins : DecCoins) (d : string) : Dec :=
  match fuel with
  | O => ZeroDec
  | S fuel =>
      match coins with
      | [] => ZeroDec
      | [c] => if bool_decide (dc_Denom c = d) then dc_Amount c else ZeroDec
      | _ =>
          let midIdx := (length coins / 2)%nat in
          match coins !! midIdx with
          | None => ZeroDec
          | Some c =>
              if str_ltb d (dc_Denom c) then DecCoins_AmountOf_fuel fuel (take midIdx coins) d
              else if bool_decide (d = dc_Denom c) then dc_Amount c
              else DecCoins_AmountOf_fuel fuel (drop (S midIdx) coins) d
          end
      end
  end.
Definition DecCoins_AmountOf (coins : DecCoins) (d : string) : Dec := DecCoins_AmountOf_fuel (length coins) coins d.
Definition DecCoins_IsZero (coins : DecCoins) : bool := forallb (λ c, Dec_IsZero (dc_Amount c)) coins.

(** ** Accumulation (total_accum.go, fee_pool.go) *)
Record TotalAccum := mkTotalAccum { UpdateHeight : Z; Accum : Dec }.
Definition NewTotalAccum (height : Z) : TotalAccum := mkTotalAccum height ZeroDec.
Definition TotalAccum_GetAccum (ta : TotalAccum) (height : Z) (accumCreatedPerBlock : Dec) : Outcome Dec :=
  let blocks := wrap_int64 (height - UpdateHeight ta) in
  if blocks <? 0 then Panic "reverse updated for new height" else
  let? delta := Dec_MulInt accumCreatedPerBlock (NewInt blocks) in
  Dec_Add (Accum ta) delta.
Definition UpdateForNewHeight (ta : TotalAccum) (height : Z) (accumCreatedPerBlock : Dec) : Outcome TotalAccum :=
  let blocks := wrap_int64 (height - UpdateHeight ta) in
  if blocks <? 0 then Panic "reverse updated for new height" else
  let? accumDelta := Dec_MulInt accumCreatedPerBlock (NewInt blocks) in
  let? accum := Dec_Add (Accum ta) accumDelta in
  Ok (mkTotalAccum height accum).
Record FeePool := mkFeePool { TotalValAccum : TotalAccum; ValPool : DecCoins; CommunityPool : DecCoins }.
Definition UpdateTotalValAccum (f : FeePool) (height : Z) (totalBondedTokens : Dec) : Outcome FeePool :=
  let? ta := UpdateForNewHeight (TotalValAccum f) height totalBondedTokens in
  Ok (mkFeePool ta (ValPool f) (CommunityPool f)).
Definition GetTotalValAccum (f : FeePool) (height : Z) (totalBondedTokens : Dec) : Outcome Dec :=
  TotalAccum_GetAccum (TotalValAccum f) height totalBondedTokens.
Definition InitialFeePool : FeePool := mkFeePool (NewTotalAccum 0) [] [].

(** ** Validators (validator_info.go) *)
Record WithdrawContext := mkWithdraw {
  wc_FeePool : FeePool; wc_Height : Z; wc_TotalPower : Dec; wc_ValPower : Dec; wc_CommissionRate : Dec }.
Record ValidatorDistInfo := mkValInfo {
  vi_OperatorAddr : ValAddress; FeePoolWithdrawalHeight : Z; DelAccum : TotalAccum; DelPool : DecCoins; ValCommission : DecCoins }.
Definition NewValidatorDistInfo (operatorAddr : ValAddress) (currentHeight : Z) : ValidatorDistInfo :=
  mkValInfo operatorAddr currentHeight (NewTotalAccum currentHeight) [] [].
Definition with_FeePoolWithdrawalHeight (h : Z) (vi : ValidatorDistInfo) : ValidatorDistInfo :=
  mkValInfo (vi_OperatorAddr vi) h (DelAccum vi) (DelPool vi) (ValCommission vi).
Definition with_DelAccum (ta : TotalAccum) (vi : ValidatorDistInfo) : ValidatorDistInfo :=
  mkValInfo (vi_OperatorAddr vi) (FeePoolWithdrawalHeight vi) ta (DelPool vi) (ValCommission vi).
Definition with_pools (pool commission : DecCoins) (vi : ValidatorDistInfo) : ValidatorDistInfo :=
  mkValInfo (vi_OperatorAddr vi) (FeePoolWithdrawalHeight vi) (DelAccum vi) pool commission.
Definition UpdateTotalDelAccum (vi : ValidatorDistInfo) (height : Z) (totalDelShares : Dec) : Outcome ValidatorDistInfo :=
  let? ta := UpdateForNewHeight (DelAccum vi) height totalDelShares in Ok (with_DelAccum ta vi).
Definition GetTotalDelAccum (vi : ValidatorDistInfo) (height : Z) (totalDelShares : Dec) : Outcome Dec :=
  TotalAccum_GetAccum (DelAccum vi) height totalDelShares.
Definition GetValAccum (vi : ValidatorDistInfo) (height : Z) (valTokens : Dec) : Outcome Dec :=
  Dec_MulInt valTokens (NewInt (wrap_int64 (height - FeePoolWithdrawalHeight vi))).
Definition accum_check (accum total : Dec) : Outcome unit :=
  if Dec_GT accum total then Panic "individual accum should never be greater than the total" else Ok tt.
(** The part of the pool that [accum] of [total] stands for. *)
Definition part_of_pool (pool : DecCoins) (accum total : Dec) : Outcome DecCoins :=
  let? product := DecCoins_MulDec pool accum in DecCoins_QuoDec product total.
Definition TakeFeePoolRewards (vi : ValidatorDistInfo) (wc : WithdrawContext) : Outcome (ValidatorDistInfo * FeePool) :=
  let? fp := UpdateTotalValAccum (wc_FeePool wc) (wc_Height wc) (wc_TotalPower wc) in
  let total := Accum (TotalValAccum fp) in
  if Dec_IsZero total then Ok (with_FeePoolWithdrawalHeight (wc_Height wc) vi, fp) else
  let? accum := GetValAccum vi (wc_Height wc) (wc_ValPower wc) in
  let? _ := accum_check accum total in
  let? withdrawalTokens := part_of_pool (ValPool fp) accum total in
  let? remValPool := DecCoins_Minus (ValPool fp) withdrawalTokens in
  let? commission := DecCoins_MulDec withdrawalTokens (wc_CommissionRate wc) in
  let? afterCommission := DecCoins_Minus withdrawalTokens commission in
  let? accumLeft := Dec_Sub total accum in
  let? valCommission := DecCoins_Plus (ValCommission vi) commission in
  let? delPool := DecCoins_Plus (DelPool vi) afterCommission in
  Ok (with_pools delPool valCommission (with_FeePoolWithdrawalHeight (wc_Height wc) vi),
      mkFeePool (mkTotalAccum (UpdateHeight (TotalValAccum fp)) accumLeft) remValPool (CommunityPool fp)).
Definition WithdrawCommission (vi : ValidatorDistInfo) (wc : WithdrawContext) : Outcome (ValidatorDistInfo * FeePool * DecCoins) :=
  let? r := TakeFeePoolRewards vi wc in
  Ok (with_pools (DelPool r.1) [] r.1, r.2, ValCommission r.1).
(** What a validator would take from the pool, and the commission on it. *)
Definition current_take (vi : ValidatorDistInfo) (wc : WithdrawContext) : Outcome (DecCoins * DecCoins) :=
  let fp := wc_FeePool wc in
  let? totalValAccum := GetTotalValAccum fp (wc_Height wc) (wc_TotalPower wc) in
  let? valAccum := GetValAccum vi (wc_Height wc) (wc_ValPower wc) in
  let? _ := accum_check valAccum totalValAccum in
  let? withdrawalTokens := part_of_pool (ValPool fp) valAccum totalValAccum in
  let? commission := DecCoins_MulDec withdrawalTokens (wc_CommissionRate wc) in
  Ok (withdrawalTokens, commission).
Definition CurrentPoolRewards (vi : ValidatorDistInfo) (wc : WithdrawContext) : Outcome DecCoins :=
  let? r := current_take vi wc in
  let? afterCommission := DecCoins_Minus r.1 r.2 in
  DecCoins_Plus (DelPool vi) afterCommission.
Definition CurrentCommissionRewards (vi : ValidatorDistInfo) (wc : WithdrawContext) : Outcome DecCoins :=
  let? r := current_take vi wc in DecCoins_Plus (ValCommission vi) r.2.

(** ** Delegations (delegator_info.go) *)
Record DelegationDistInfo := mkDelInfo { di_DelegatorAddr : AccAddress; di_ValOperatorAddr : ValAddress; DelPoolWithdrawalHeight : Z }.
Definition GetDelAccum (di : DelegationDistInfo) (height : Z) (delegatorShares : Dec) : Outcome Dec :=
  Dec_MulInt delegatorShares (NewInt (wrap_int64 (height - DelPoolWithdrawalHeight di))).
Definition WithdrawRewards (di : DelegationDistInfo) (wc : WithdrawContext) (vi : ValidatorDistInfo) (totalDelShares delegatorShares : Dec)
    : Outcome (DelegationDistInfo * ValidatorDistInfo * FeePool * DecCoins) :=
  let? vi := UpdateTotalDelAccum vi (wc_Height wc) totalDelShares in
  if Dec_IsZero (Accum (DelAccum vi)) then Ok (di, vi, wc_FeePool wc, []) else
  let? r := TakeFeePoolRewards vi wc in
  let '(vi, fp) := r in
  let? accum := GetDelAccum di (wc_Height wc) delegatorShares in
  let? withdrawalTokens := part_of_pool (DelPool vi) accum (Accum (DelAccum vi)) in
  let? remDelPool := DecCoins_Minus (DelPool vi) withdrawalTokens in
  let? accumLeft := Dec_Sub (Accum (DelAccum vi)) accum in
  Ok (mkDelInfo (di_DelegatorAddr di) (di_ValOperatorAddr di) (wc_Height wc),
      with_DelAccum (mkTotalAccum (UpdateHeight (DelAccum vi)) accumLeft) (with_pools remDelPool (ValCommission vi) vi), fp, withdrawalTokens).
Definition CurrentRewards (di : DelegationDistInfo) (wc : WithdrawContext) (vi : ValidatorDistInfo) (totalDelShares delegatorShares : Dec)
    : Outcome DecCoins :=
  let? totalDelAccum := GetTotalDelAccum vi (wc_Height wc) totalDelShares in
  if Dec_IsZero (Accum (DelAccum vi)) then Ok [] else
  let? rewards := CurrentPoolRewards vi wc in
  let? accum := GetDelAccum di (wc_Height wc) delegatorShares in
  part_of_pool rewards accum totalDelAccum.

(** ** Parameters (params.go) *)
Record Params := mkParams { CommunityTax : Dec; BaseProposerReward : Dec; BonusProposerReward : Dec }.
Definition DefaultParams : Params := mkParams (2 * 10^8) (10^8) (4 * 10^8).
Definition CodeInvalidCommunityTax : Z := 700.
Definition CodeInvalidBaseProposerReward : Z := 701.
Definition CodeInvalidBonusProposerReward : Z := 702.
Definition validateCommunityTax (v : Dec) : Outcome unit :=
  if Dec_LTE v ZeroDec || Dec_GT v (2 * 10^9) then Err (params_err CodeInvalidCommunityTax) else Ok tt.
Definition validateBaseProposerReward (v : Dec) : Outcome unit :=
  if Dec_LTE v ZeroDec || Dec_GT v (2 * 10^8) then Err (params_err CodeInvalidBaseProposerReward) else Ok tt.
Definition validateBonusProposerReward (v : Dec) : Outcome unit :=
  if Dec_LTE v ZeroDec || Dec_GT v (8 * 10^8) then Err (params_err CodeInvalidBonusProposerReward) else Ok tt.
Definition ValidateParams (p : Params) : Outcome unit :=
  let? _ := validateCommunityTax (CommunityTax p) in
  let? _ := validateBaseProposerReward (BaseProposerReward p) in
  validateBonusProposerReward (BonusProposerReward p).

(** ** Messages (msg.go) *)
Record MsgSetWithdrawAddress := mkMsgSetWithdrawAddress { sw_DelegatorAddr : AccAddress; sw_WithdrawAddr : AccAddress }.
Record MsgWithdrawDelegatorReward := mkMsgWithdrawDelegatorReward { wd_DelegatorAddr : AccAddress; wd_ValidatorAddr : ValAddress }.
Inductive DistrMsg :=
| SetWithdrawAddress_ (m : MsgSetWithdrawAddress)
| WithdrawDelegatorRewardsAll_ (delegatorAddr : AccAddress)
| WithdrawDelegatorReward_ (m : MsgWithdrawDelegatorReward)
| WithdrawValidatorRewardsAll_ (validatorAddr : ValAddress).
Definition check_nil (a : string) (e : Error) : Outcome unit := if is_nil a then Err e else Ok tt.
Definition MsgSetWithdrawAddress_ValidateBasic (m : MsgSetWithdrawAddress) : Outcome unit :=
  let? _ := check_nil (sw_DelegatorAddr m) ErrNilDelegatorAddr in check_nil (sw_WithdrawAddr m) ErrNilWithdrawAddr.
Definition MsgWithdrawDelegatorReward_ValidateBasic (m : MsgWithdrawDelegatorReward) : Outcome unit :=
  let? _ := check_nil (wd_DelegatorAddr m) ErrNilDelegatorAddr in check_nil (wd_ValidatorAddr m) ErrNilValidatorAddr.
Definition DistrMsg_ValidateBasic (m : DistrMsg) : Outcome unit :=
  match m with
  | SetWithdrawAddress_ m => MsgSetWithdrawAddress_ValidateBasic m
  | WithdrawDelegatorRewardsAll_ d => check_nil d ErrNilDelegatorAddr
  | WithdrawDelegatorReward_ m => MsgWithdrawDelegatorReward_ValidateBasic m
  | WithdrawValidatorRewardsAll_ v => check_nil v ErrNilValidatorAddr
  end.
Definition DistrMsg_GetSigners (m : DistrMsg) : list AccAddress :=
  match m with
  | SetWithdrawAddress_ m => [sw_DelegatorAddr m]
  | WithdrawDelegatorRewardsAll_ d => [d]
  | WithdrawDelegatorReward_ m => [wd_DelegatorAddr m]
  | WithdrawValidatorRewardsAll_ v => [v]
  end.
End DistrTypes.
