(* ===== verification/Distr.v ===== *)
(** * Distribution: the keeper (app/v1/distribution)

    The fees of a block go to a pool, to the proposer and to the community.  A
    validator takes its part of the pool, and a delegator its part of what the
    validator took, when the power of the validator or the shares of the delegator
    change, or when they ask for it. *)

From S2P Require Import Prelude SdkErrors IntType GoStrings Denom Coin Dec KVStore Auth StdTx Bank StakeTypes Stake DistrTypes.
#[local] Open Scope Z_scope.

Module Distr.
Import StakeTypes Stake DistrTypes.

(** ** The stores (key.go)

    The prefixes are separate maps. *)
Record DistrState := mkDistr {
  feePool : option FeePool;
  valInfos : gmap ValAddress ValidatorDistInfo;
  delInfos : gmap string DelegationDistInfo;
  withdrawAddrs : gmap AccAddress AccAddress;
  proposerAddr : option ConsAddress;
  d_params : Params }.
Definition set_feePool x (s : DistrState) : DistrState := mkDistr x (valInfos s) (delInfos s) (withdrawAddrs s) (proposerAddr s) (d_params s).
Definition set_valInfos f (s : DistrState) : DistrState := mkDistr (feePool s) (f (valInfos s)) (delInfos s) (withdrawAddrs s) (proposerAddr s) (d_params s).
Definition set_delInfos f (s : DistrState) : DistrState := mkDistr (feePool s) (valInfos s) (f (delInfos s)) (withdrawAddrs s) (proposerAddr s) (d_params s).
Definition set_withdrawAddrs f (s : DistrState) : DistrState := mkDistr (feePool s) (valInfos s) (delInfos s) (f (withdrawAddrs s)) (proposerAddr s) (d_params s).
Definition set_proposerAddr x (s : DistrState) : DistrState := mkDistr (feePool s) (valInfos s) (delInfos s) (withdrawAddrs s) x (d_params s).
Definition set_dparams x (s : DistrState) : DistrState := mkDistr (feePool s) (valInfos s) (delInfos s) (withdrawAddrs s) (proposerAddr s) x.

Definition GetDelegationDistInfoKey (delAddr : AccAddress) (valAddr : ValAddress) : string := delAddr +:+ valAddr.
Definition GetDelegatorWithdrawInfoAddress (key : string) : Outcome AccAddress :=
  if bool_decide (str_len key = AddrLen) then Ok key else Panic "unexpected key length".

(** ** The keeper, on its own stores (keeper.go, validator.go, delegation.go) *)
Definition must_some {S A} (o : option A) (w : string) : M S A := match o with None => panic w | Some a => ret a end.
Definition GetFeePool : M DistrState FeePool := p <- gets feePool ;; must_some p "Stored fee pool should not have been nil".
Definition SetFeePool (p : FeePool) : M DistrState unit := modify (set_feePool (Some p)).
Definition GetPreviousProposerConsAddr : M DistrState ConsAddress :=
  a <- gets proposerAddr ;; must_some a "Previous proposer not set".
Definition SetPreviousProposerConsAddr (a : ConsAddress) : M DistrState unit := modify (set_proposerAddr (Some a)).
Definition HasValidatorDistInfo (operatorAddr : ValAddress) : M DistrState bool :=
  gets (λ s, bool_decide (is_Some (valInfos s !! operatorAddr))).
Definition GetValidatorDistInfo (operatorAddr : ValAddress) : M DistrState ValidatorDistInfo :=
  v <- gets (λ s, valInfos s !! operatorAddr) ;; must_some v "Stored validator-distribution info should not have been nil".
Definition SetValidatorDistInfo (vdi : ValidatorDistInfo) : M DistrState unit :=
  modify (set_valInfos (insert (vi_OperatorAddr vdi) vdi)).
Definition RemoveValidatorDistInfo (valAddr : ValAddress) : M DistrState unit :=
  vdi <- GetValidatorDistInfo valAddr ;;
  expect (negb (Dec_IsPositive (Accum (DelAccum vdi)))) "Should not delete validator with unwithdrawn delegator accum" ;;;
  expect (DecCoins_IsZero (ValCommission vdi)) "Should not delete validator with unwithdrawn validator commission" ;;;
  modify (set_valInfos (delete valAddr)).
Definition HasDelegationDistInfo (delAddr : AccAddress) (valOperatorAddr : ValAddress) : M DistrState bool :=
  gets (λ s, bool_decide (is_Some (delInfos s !! GetDelegationDistInfoKey delAddr valOperatorAddr))).
Definition GetDelegationDistInfo (delAddr : AccAddress) (valOperatorAddr : ValAddress) : M DistrState DelegationDistInfo :=
  d <- gets (λ s, delInfos s !! GetDelegationDistInfoKey delAddr valOperatorAddr) ;;
  must_some d "Stored delegation-distribution info should not have been nil".
Definition SetDelegationDistInfo (ddi : DelegationDistInfo) : M DistrState unit :=
  modify (set_delInfos (insert (GetDelegationDistInfoKey (di_DelegatorAddr ddi) (di_ValOperatorAddr ddi)) ddi)).
Definition RemoveDelegationDistInfo (delAddr : AccAddress) (valOperatorAddr : ValAddress) : M DistrState unit :=
  modify (set_delInfos (delete (GetDelegationDistInfoKey delAddr valOperatorAddr))).
Definition RemoveDelegationDistInfos : M DistrState unit := modify (set_delInfos (λ _, ∅)).
Definition GetDelegatorWithdrawAddr (delAddr : AccAddress) : M DistrState AccAddress :=
  gets (λ s, default delAddr (withdrawAddrs s !! delAddr)).
Definition SetDelegatorWithdrawAddr (delAddr withdrawAddr : AccAddress) : M DistrState unit :=
  modify (set_withdrawAddrs (insert delAddr withdrawAddr)).
Definition RemoveDelegatorWithdrawAddr (delAddr : AccAddress) : M DistrState unit :=
  modify (set_withdrawAddrs (delete delAddr)).
(** The parts of a withdrawal are stored one by one. *)
Definition store_withdrawal (fp : FeePool) (vi : ValidatorDistInfo) (di : DelegationDistInfo) : M DistrState unit :=
  SetFeePool fp ;;; SetValidatorDistInfo vi ;;; SetDelegationDistInfo di.

Section keeper.
Context {X : Type} `{Crypto, ConsCrypto, !Part X DistrState, !Part X FeeStore}.
Abbreviation SM := (M (StakeState X)).
Definition on_distr {A} (c : M DistrState A) : SM A := on_part c.
Definition on_fees {A} (c : M FeeStore A) : SM A := on_part c.

(** The views of staking return nil where there is no record, and a method of nil
    panics. *)
Definition stake_Validator (a : ValAddress) : SM Validator := v <- GetValidator a ;; must_some v "nil validator".
Definition stake_Delegation (d : AccAddress) (v : ValAddress) : SM Delegation := x <- GetDelegation d v ;; must_some x "nil delegation".
Definition decPower (n : Int) : SM Dec := lift (NewDecFromInt n).
Definition GetFeePoolValAccum (ctx : Ctx) : SM Dec :=
  total <- GetLastTotalPower ;; totalPower <- decPower total ;;
  fp <- on_distr GetFeePool ;;
  lift (GetTotalValAccum fp (BlockHeight ctx) totalPower).
Definition GetWithdrawContext (ctx : Ctx) (valOperatorAddr : ValAddress) : SM WithdrawContext :=
  fp <- on_distr GetFeePool ;;
  validator <- GetValidator valOperatorAddr ;;
  lastValPower <- GetLastValidatorPower valOperatorAddr ;;
  lastTotal <- GetLastTotalPower ;;
  lastTotalPower <- decPower lastTotal ;;
  valPower <- decPower lastValPower ;;
  validator <- must_some validator "nil validator" ;;
  ret (mkWithdraw fp (BlockHeight ctx) lastTotalPower valPower (Rate (v_Commission validator))).

(** ** Withdrawals *)
Definition withdrawDelegationReward (ctx : Ctx) (delAddr : AccAddress) (valAddr : ValAddress)
    : SM (FeePool * ValidatorDistInfo * DelegationDistInfo * DecCoins) :=
  wc <- GetWithdrawContext ctx valAddr ;;
  valInfo <- on_distr (GetValidatorDistInfo valAddr) ;;
  delInfo <- on_distr (GetDelegationDistInfo delAddr valAddr) ;;
  validator <- stake_Validator valAddr ;;
  delegation <- stake_Delegation delAddr valAddr ;;
  r <- lift (WithdrawRewards delInfo wc valInfo (v_DelegatorShares validator) (d_Shares delegation)) ;;
  let '(delInfo, valInfo, fp, withdraw) := r in
  lift (DecCoins_TruncateDecimal withdraw) ;;;
  ret (fp, valInfo, delInfo, withdraw).
Definition currentDelegationReward (ctx : Ctx) (delAddr : AccAddress) (valAddr : ValAddress) : SM DecCoins :=
  wc <- GetWithdrawContext ctx valAddr ;;
  valInfo <- on_distr (GetValidatorDistInfo valAddr) ;;
  delInfo <- on_distr (GetDelegationDistInfo delAddr valAddr) ;;
  validator <- stake_Validator valAddr ;;
  delegation <- stake_Delegation delAddr valAddr ;;
  lift (CurrentRewards delInfo wc valInfo (v_DelegatorShares validator) (d_Shares delegation)).
(** An error of [AddCoins] is a panic. *)
Definition must {A} (c : M AuthState A) : M AuthState unit :=
  λ s, match c s with (Ok _, s') => (Ok tt, s') | (Err _, s') => (Panic "error", s') | (Panic w, s') => (Panic w, s') end.
Definition WithdrawToDelegator (fp : FeePool) (delAddr : AccAddress) (amount : DecCoins) : SM unit :=
  withdrawAddr <- on_distr (GetDelegatorWithdrawAddr delAddr) ;;
  tc <- lift (DecCoins_TruncateDecimal amount) ;;
  let '(coinsToAdd, change) := tc in
  valPool <- lift (DecCoins_Plus (ValPool fp) change) ;;
  on_distr (SetFeePool (mkFeePool (TotalValAccum fp) valPool (CommunityPool fp))) ;;;
  on_auth (must (addCoins withdrawAddr coinsToAdd)).
Definition WithdrawDelegationReward (ctx : Ctx) (delAddr : AccAddress) (valAddr : ValAddress) : SM DecCoins :=
  has <- on_distr (HasDelegationDistInfo delAddr valAddr) ;;
  require has ErrNoDelegationDistInfo ;;;
  r <- withdrawDelegationReward ctx delAddr valAddr ;;
  let '(fp, valInfo, delInfo, withdraw) := r in
  on_distr (SetValidatorDistInfo valInfo) ;;;
  on_distr (SetDelegationDistInfo delInfo) ;;;
  WithdrawToDelegator fp delAddr withdraw ;;;
  ret withdraw.
Definition CurrentDelegationReward (ctx : Ctx) (delAddr : AccAddress) (valAddr : ValAddress) : SM Coins :=
  has <- on_distr (HasDelegationDistInfo delAddr valAddr) ;;
  require has ErrNoDelegationDistInfo ;;;
  estCoins <- currentDelegationReward ctx delAddr valAddr ;;
  tc <- lift (DecCoins_TruncateDecimal estCoins) ;;
  ret tc.1.
Fixpoint withdraw_delegations (ctx : Ctx) (delAddr : AccAddress) (l : list Delegation) (withdraw : DecCoins) : SM DecCoins :=
  match l with
  | [] => ret withdraw
  | del :: l =>
      r <- withdrawDelegationReward ctx delAddr (d_ValidatorAddr del) ;;
      let '(fp, valInfo, delInfo, diWithdraw) := r in
      withdraw <- lift (DecCoins_Plus withdraw diWithdraw) ;;
      on_distr (store_withdrawal fp valInfo delInfo) ;;;
      lift (DecCoins_TruncateDecimal diWithdraw) ;;;
      withdraw_delegations ctx delAddr l withdraw
  end.
Definition withdrawDelegationRewardsAll (ctx : Ctx) (delAddr : AccAddress) : SM DecCoins :=
  l <- gets (GetAllDelegatorDelegations delAddr) ;; withdraw_delegations ctx delAddr l [].
Definition WithdrawDelegationRewardsAll (ctx : Ctx) (delAddr : AccAddress) : SM DecCoins :=
  withdraw <- withdrawDelegationRewardsAll ctx delAddr ;;
  fp <- on_distr GetFeePool ;;
  WithdrawToDelegator fp delAddr withdraw ;;;
  ret withdraw.
Fixpoint current_delegations (ctx : Ctx) (delAddr : AccAddress) (l : list Delegation) (total : DecCoins) : SM DecCoins :=
  match l with
  | [] => ret total
  | del :: l =>
      est <- currentDelegationReward ctx delAddr (d_ValidatorAddr del) ;;
      total <- lift (DecCoins_Plus total est) ;;
      current_delegations ctx delAddr l total
  end.
Definition CurrentDelegationRewardsAll (ctx : Ctx) (delAddr : AccAddress) : SM DecCoins :=
  l <- gets (GetAllDelegatorDelegations delAddr) ;; current_delegations ctx delAddr l [].

Definition GetValidatorAccum (ctx : Ctx) (operatorAddr : ValAddress) : SM Dec :=
  has <- on_distr (HasValidatorDistInfo operatorAddr) ;;
  require has ErrNoValidatorDistInfo ;;;
  lastValPower <- GetLastValidatorPower operatorAddr ;;
  valInfo <- on_distr (GetValidatorDistInfo operatorAddr) ;;
  power <- decPower lastValPower ;;
  lift (GetValAccum valInfo (BlockHeight ctx) power).
(** A withdrawal that is stored and paid. *)
Definition withdraw_and_pay (ctx : Ctx) (delAddr : AccAddress) (operatorAddr : ValAddress) : SM unit :=
  r <- withdrawDelegationReward ctx delAddr operatorAddr ;;
  let '(fp, vi, di, withdraw) := r in
  on_distr (store_withdrawal fp vi di) ;;;
  WithdrawToDelegator fp delAddr withdraw.
Definition takeValidatorFeePoolRewards (ctx : Ctx) (operatorAddr : ValAddress) : SM unit :=
  has <- on_distr (HasValidatorDistInfo operatorAddr) ;;
  require has ErrNoValidatorDistInfo ;;;
  hasSelf <- on_distr (HasDelegationDistInfo operatorAddr operatorAddr) ;;
  (if hasSelf : bool then withdraw_and_pay ctx operatorAddr operatorAddr
   else
     delegations <- gets (GetValidatorDelegations operatorAddr) ;;
     for_each delegations (λ d, withdraw_and_pay ctx (d_DelegatorAddr d) operatorAddr) ;;;
     (if bool_decide (delegations = []) then
        vi <- on_distr (GetValidatorDistInfo operatorAddr) ;;
        on_distr (SetValidatorDistInfo (with_FeePoolWithdrawalHeight (BlockHeight ctx)
                    (with_DelAccum (mkTotalAccum (BlockHeight ctx) (Accum (DelAccum vi))) vi)))
      else ret tt)) ;;;
  valInfo <- on_distr (GetValidatorDistInfo operatorAddr) ;;
  wc <- GetWithdrawContext ctx operatorAddr ;;
  r <- lift (TakeFeePoolRewards valInfo wc) ;;
  on_distr (SetFeePool r.2) ;;;
  on_distr (SetValidatorDistInfo r.1).
Definition withdrawValidatorCommission (ctx : Ctx) (operatorAddr : ValAddress) : SM (FeePool * DecCoins) :=
  valInfo <- on_distr (GetValidatorDistInfo operatorAddr) ;;
  wc <- GetWithdrawContext ctx operatorAddr ;;
  r <- lift (WithdrawCommission valInfo wc) ;;
  let '(valInfo, fp, commission) := r in
  on_distr (SetValidatorDistInfo valInfo) ;;;
  ret (fp, commission).
Definition WithdrawValidatorRewardsAll (ctx : Ctx) (operatorAddr : ValAddress) : SM DecCoins :=
  has <- on_distr (HasValidatorDistInfo operatorAddr) ;;
  require has ErrNoValidatorDistInfo ;;;
  withdraw <- withdrawDelegationRewardsAll ctx operatorAddr ;;
  r <- withdrawValidatorCommission ctx operatorAddr ;;
  let '(fp, commission) := r in
  withdraw <- lift (DecCoins_Plus withdraw commission) ;;
  lift (DecCoins_TruncateDecimal commission) ;;;
  WithdrawToDelegator fp operatorAddr withdraw ;;;
  ret withdraw.
Definition CurrentValidatorRewardsAll (ctx : Ctx) (operatorAddr : ValAddress) : SM Coins :=
  has <- on_distr (HasValidatorDistInfo operatorAddr) ;;
  require has ErrNoValidatorDistInfo ;;;
  withdraw <- CurrentDelegationRewardsAll ctx operatorAddr ;;
  valInfo <- on_distr (GetValidatorDistInfo operatorAddr) ;;
  wc <- GetWithdrawContext ctx operatorAddr ;;
  commission <- lift (CurrentCommissionRewards valInfo wc) ;;
  withdraw <- lift (DecCoins_Plus withdraw commission) ;;
  tc <- lift (DecCoins_TruncateDecimal withdraw) ;;
  ret tc.1.

(** ** Hooks (hooks.go) *)
Definition onValidatorCreated (ctx : Ctx) (valAddr : ValAddress) : SM unit :=
  on_distr (SetValidatorDistInfo (NewValidatorDistInfo valAddr (BlockHeight ctx))).
Definition must_hook {A} (c : SM A) : SM unit :=
  λ s, match c s with (Ok _, s') => (Ok tt, s') | (Err _, s') => (Panic "error in a hook", s') | (Panic w, s') => (Panic w, s') end.
Definition onValidatorModified (ctx : Ctx) (valAddr : ValAddress) : SM unit :=
  if 0 <? BlockHeight ctx then must_hook (takeValidatorFeePoolRewards ctx valAddr) else ret tt.
Definition onValidatorBonded (ctx : Ctx) (valAddr : ValAddress) : SM unit :=
  lastPower <- GetLastValidatorPower valAddr ;;
  expect (Int_Equal lastPower 0) "expected last power to be 0 for validator entering bonded state" ;;;
  onValidatorModified ctx valAddr.
Definition onValidatorPowerDidChange (ctx : Ctx) (valAddr : ValAddress) : SM unit :=
  vi <- on_distr (GetValidatorDistInfo valAddr) ;;
  expect (FeePoolWithdrawalHeight vi =? BlockHeight ctx) "expected validator dist info FeePoolWithdrawalHeight to be updated".
Definition onValidatorRemoved (valAddr : ValAddress) : SM unit := on_distr (RemoveValidatorDistInfo valAddr).
Definition onDelegationCreated (ctx : Ctx) (delAddr : AccAddress) (valAddr : ValAddress) : SM unit :=
  on_distr (SetDelegationDistInfo (mkDelInfo delAddr valAddr (BlockHeight ctx))).
Definition onDelegationSharesModified (ctx : Ctx) (delAddr : AccAddress) (valAddr : ValAddress) : SM unit :=
  must_hook (WithdrawDelegationReward ctx delAddr valAddr).
Definition onDelegationRemoved (ctx : Ctx) (delAddr : AccAddress) (valAddr : ValAddress) : SM unit :=
  (if bool_decide (valAddr = delAddr) then
     r <- withdrawValidatorCommission ctx valAddr ;;
     let '(fp, commission) := r in
     lift (DecCoins_TruncateDecimal commission) ;;;
     WithdrawToDelegator fp delAddr commission
   else ret tt) ;;;
  on_distr (RemoveDelegationDistInfo delAddr valAddr).
Definition hook_DelegationCreated (ctx : Ctx) (delAddr : AccAddress) (valAddr : ValAddress) : SM unit :=
  onValidatorModified ctx valAddr ;;; onDelegationCreated ctx delAddr valAddr.
Definition hook_DelegationSharesModified (ctx : Ctx) (delAddr : AccAddress) (valAddr : ValAddress) : SM unit :=
  onValidatorModified ctx valAddr ;;; onDelegationSharesModified ctx delAddr valAddr.

(** ** Allocation of the fees (allocation.go) *)
Definition AllocateTokens (percentVotes : Dec) (proposer : ConsAddress) : SM unit :=
  found <- GetValidatorByConsAddr proposer ;;
  proposerValidator <- must_some found "nil validator" ;;
  proposerDist <- on_distr (GetValidatorDistInfo (v_OperatorAddr proposerValidator)) ;;
  feesCollected <- on_fees GetCollectedFees ;;
  feesCollectedDec <- lift (NewDecCoins feesCollected) ;;
  fp <- on_distr GetFeePool ;;
  lastTotal <- GetLastTotalPower ;;
  if Int_IsZero lastTotal then
    on_auth (ignore_err (addCoins CommunityTaxCoinsAccAddr feesCollected)) ;;;
    on_fees ClearCollectedFees
  else
    validator <- stake_Validator (v_OperatorAddr proposerValidator) ;;
    params <- on_distr (gets d_params) ;;
    proposerReward <-
      (if v_Jailed validator then ret [] else
       bonus <- lift (Dec_Mul (BonusProposerReward params) percentVotes) ;;
       proposerMultiplier <- lift (Dec_Add (BaseProposerReward params) bonus) ;;
       proposerReward <- lift (DecCoins_MulDec feesCollectedDec proposerMultiplier) ;;
       commission <- lift (DecCoins_MulDec proposerReward (Rate (v_Commission proposerValidator))) ;;
       remaining <- lift (DecCoins_Minus proposerReward commission) ;;
       valCommission <- lift (DecCoins_Plus (ValCommission proposerDist) commission) ;;
       delPool <- lift (DecCoins_Plus (DelPool proposerDist) remaining) ;;
       on_distr (SetValidatorDistInfo (with_pools delPool valCommission proposerDist)) ;;;
       ret proposerReward) ;;
    communityFunding <- lift (DecCoins_MulDec feesCollectedDec (CommunityTax params)) ;;
    tc <- lift (DecCoins_TruncateDecimal communityFunding) ;;
    let '(fundingCoins, change) := tc in
    on_auth (ignore_err (addCoins CommunityTaxCoinsAccAddr fundingCoins)) ;;;
    on_auth (getCoins CommunityTaxCoinsAccAddr) ;;;
    poolReceived <- lift (let? r := DecCoins_Minus feesCollectedDec proposerReward in
                          let? r := DecCoins_Minus r communityFunding in DecCoins_Plus r change) ;;
    valPool <- lift (DecCoins_Plus (ValPool fp) poolReceived) ;;
    on_distr (SetFeePool (mkFeePool (TotalValAccum fp) valPool (CommunityPool fp))) ;;;
    on_fees ClearCollectedFees.
Definition AllocateFeeTax (destAddr : AccAddress) (percent : Dec) (burn : bool) : SM unit :=
  taxCoins <- on_auth (getCoins CommunityTaxCoinsAccAddr) ;;
  taxDecCoins <- lift (NewDecCoins taxCoins) ;;
  allocatedDecCoins <- lift (DecCoins_MulDec taxDecCoins percent) ;;
  tc <- lift (DecCoins_TruncateDecimal allocatedDecCoins) ;;
  lift (DecCoins_Minus taxDecCoins allocatedDecCoins) ;;;
  if burn then on_auth (must (BurnCoins CommunityTaxCoinsAccAddr tc.1))
  else on_auth (must (sendCoins CommunityTaxCoinsAccAddr destAddr tc.1)).

(** ** Begin of a block (abci.go) *)
Definition DistributionBeginBlocker : string := "distributionBeginBlocker".
(** The power of a vote, and whether it signed the last block. *)
Definition getPreviousPercentPrecommitVotes (votes : list (Z * bool)) : Outcome Dec :=
  let totalPower := foldl (λ n v, wrap_int64 (n + v.1)) 0 votes in
  let sumPrecommitPower := foldl (λ n v, if v.2 : bool then wrap_int64 (n + v.1) else n) 0 votes in
  if totalPower =? 0 then Ok ZeroDec else
  let? sum := NewDec sumPrecommitPower in let? total := NewDec totalPower in Dec_Quo sum total.
Definition BeginBlocker (ctx : Ctx) (votes : list (Z * bool)) (proposer : ConsAddress) : SM unit :=
  (if 1 <? BlockHeight ctx then
     percent <- lift (getPreviousPercentPrecommitVotes votes) ;;
     previousProposer <- on_distr GetPreviousProposerConsAddr ;;
     AllocateTokens percent previousProposer
   else ret tt) ;;;
  on_distr (SetPreviousProposerConsAddr proposer).

(** ** Messages (handler.go) *)
Definition distr_Handler (ctx : Ctx) (msg : DistrMsg) : SM unit :=
  match msg with
  | SetWithdrawAddress_ m => on_distr (SetDelegatorWithdrawAddr (sw_DelegatorAddr m) (sw_WithdrawAddr m))
  | WithdrawDelegatorRewardsAll_ d =>
      reward <- WithdrawDelegationRewardsAll ctx d ;; lift (DecCoins_TruncateDecimal reward) ;;; ret tt
  | WithdrawDelegatorReward_ m =>
      reward <- WithdrawDelegationReward ctx (wd_DelegatorAddr m) (wd_ValidatorAddr m) ;;
      lift (DecCoins_TruncateDecimal reward) ;;; ret tt
  | WithdrawValidatorRewardsAll_ v =>
      reward <- WithdrawValidatorRewardsAll ctx v ;; lift (DecCoins_TruncateDecimal reward) ;;; ret tt
  end.

(** ** Genesis (genesis.go, keeper/genesis.go) *)
Record GenesisState := mkDistrGenesis {
  gs_Params : Params; gs_FeePool : FeePool; gs_ValidatorDistInfos : list ValidatorDistInfo;
  gs_DelegationDistInfos : list DelegationDistInfo; gs_DelegatorWithdrawInfos : list (AccAddress * AccAddress);
  gs_PreviousProposer : ConsAddress }.
Definition SetGenesisFeePool (fp : FeePool) : SM unit :=
  fp <- (if DecCoins_IsZero (ValPool fp) then ret fp else
         tc <- lift (DecCoins_TruncateDecimal (ValPool fp)) ;;
         on_auth (IncreaseTotalLoosenToken tc.1) ;;;
         valPool <- lift (NewDecCoins tc.1) ;;
         ret (mkFeePool (TotalValAccum fp) valPool (CommunityPool fp))) ;;
  on_distr (SetFeePool fp).
Definition InitGenesis (data : GenesisState) : SM unit :=
  (match ValidateParams (gs_Params data) with Ok _ => ret tt | Err _ => panic "invalid params" | Panic w => panic w end) ;;;
  on_distr (modify (set_dparams (gs_Params data))) ;;;
  SetGenesisFeePool (gs_FeePool data) ;;;
  for_each (gs_ValidatorDistInfos data) (λ vdi,
    expect (DecCoins_IsZero (ValCommission vdi) && DecCoins_IsZero (DelPool vdi)) "Delegation pool or commission pool are not zero" ;;;
    on_distr (SetValidatorDistInfo vdi)) ;;;
  for_each (gs_DelegationDistInfos data) (λ ddi, on_distr (SetDelegationDistInfo ddi)) ;;;
  for_each (gs_DelegatorWithdrawInfos data) (λ dw, on_distr (SetDelegatorWithdrawAddr dw.1 dw.2)) ;;;
  on_distr (SetPreviousProposerConsAddr (gs_PreviousProposer data)).
Definition GetAllValidatorDistInfos (s : DistrState) : list ValidatorDistInfo := (entries (valInfos s)).*2.
Definition GetAllDelegationDistInfos (s : DistrState) : list DelegationDistInfo := (entries (delInfos s)).*2.
Definition GetAllDelegatorWithdrawInfos (s : DistrState) : Outcome (list (AccAddress * AccAddress)) :=
  each (λ kv, let? d := GetDelegatorWithdrawInfoAddress kv.1 in Ok (d, kv.2)) (entries (withdrawAddrs s)).
Definition ExportGenesis : M DistrState GenesisState :=
  params <- gets d_params ;;
  fp <- GetFeePool ;;
  vdis <- gets GetAllValidatorDistInfos ;;
  ddis <- gets GetAllDelegationDistInfos ;;
  dwis <- (λ s, (GetAllDelegatorWithdrawInfos s, s)) ;;
  pp <- GetPreviousProposerConsAddr ;;
  ret (mkDistrGenesis params fp vdis ddis dwis pp).
(** The start of protocol v1: the community pool becomes an account. *)
Definition keeper_Init : SM unit :=
  fp <- on_distr GetFeePool ;;
  tc <- lift (DecCoins_TruncateDecimal (CommunityPool fp)) ;;
  let '(communityTaxCoins, change) := tc in
  on_auth (ignore_err (addCoins CommunityTaxCoinsAccAddr communityTaxCoins)) ;;;
  communityPool <- lift (NewDecCoins []) ;;
  valPool <- lift (DecCoins_Plus (ValPool fp) change) ;;
  on_distr (SetFeePool (mkFeePool (TotalValAccum fp) valPool communityPool)).

(** ** Checks at run time (invariants.go); a panic counts as a failure *)
Definition ValAccumInvariants (ctx : Ctx) : SM unit :=
  vdis <- on_distr (gets GetAllValidatorDistInfos) ;;
  accums <- (λ s, (each (λ vdi, let? p := NewDecFromInt (default 0 (lastPower s !! vi_OperatorAddr vdi)) in
                              GetValAccum vdi (BlockHeight ctx) p) vdis, s)) ;;
  valAccum <- lift (foldl (λ o a, let? z := o in Dec_Add z a) (Ok ZeroDec) accums) ;;
  lastTotal <- GetLastTotalPower ;;
  lastTotalPower <- decPower lastTotal ;;
  fp <- on_distr GetFeePool ;;
  totalAccum <- lift (GetTotalValAccum fp (BlockHeight ctx) lastTotalPower) ;;
  require (Dec_Equal totalAccum valAccum) fmt_Errorf.
Fixpoint val_totals (ctx : Ctx) (l : list ValidatorDistInfo) (acc : gmap ValAddress Dec) : SM (gmap ValAddress Dec) :=
  match l with
  | [] => ret acc
  | vdi :: l =>
      validator <- stake_Validator (vi_OperatorAddr vdi) ;;
      total <- lift (GetTotalDelAccum vdi (BlockHeight ctx) (v_DelegatorShares validator)) ;;
      val_totals ctx l (<[vi_OperatorAddr vdi := total]> acc)
  end.
(** A validator that is not in the map has the nil decimal, which panics. *)
Fixpoint del_totals (ctx : Ctx) (l : list DelegationDistInfo) (acc : gmap ValAddress Dec) : SM (gmap ValAddress Dec) :=
  match l with
  | [] => ret acc
  | ddi :: l =>
      delegation <- stake_Delegation (di_DelegatorAddr ddi) (di_ValOperatorAddr ddi) ;;
      accum <- lift (GetDelAccum ddi (BlockHeight ctx) (d_Shares delegation)) ;;
      old <- must_some (acc !! di_ValOperatorAddr ddi) "nil decimal" ;;
      total <- lift (Dec_Add old accum) ;;
      del_totals ctx l (<[di_ValOperatorAddr ddi := total]> acc)
  end.
Definition DelAccumInvariants (ctx : Ctx) : SM unit :=
  vdis <- on_distr (gets GetAllValidatorDistInfos) ;;
  totalDelAccumFromVal <- val_totals ctx vdis ∅ ;;
  ddis <- on_distr (gets GetAllDelegationDistInfos) ;;
  totalDelAccum <- del_totals ctx ddis ((λ _, ZeroDec) <$> totalDelAccumFromVal) ;;
  require (bool_decide (totalDelAccum = totalDelAccumFromVal)) fmt_Errorf.
(** On a copy of the stores: everything is withdrawn, and nothing is left. *)
Definition CanWithdrawInvariant (ctx : Ctx) : SM unit :=
  vdis <- on_distr (gets GetAllValidatorDistInfos) ;;
  for_each vdis (λ vi, must_hook (WithdrawValidatorRewardsAll ctx (vi_OperatorAddr vi))) ;;;
  ddis <- on_distr (gets GetAllDelegationDistInfos) ;;
  for_each ddis (λ di, must_hook (WithdrawDelegationReward ctx (di_DelegatorAddr di) (di_ValOperatorAddr di))) ;;;
  fp <- on_distr GetFeePool ;;
  require (Dec_IsZero (Accum (TotalValAccum fp))) fmt_Errorf ;;;
  vdis <- on_distr (gets GetAllValidatorDistInfos) ;;
  for_each vdis (λ vi,
    expect (Dec_IsZero (Accum (DelAccum vi))) "unexpected leftover in validator delegation accumulation" ;;;
    expect (DecCoins_IsZero (DelPool vi)) "unexpected leftover in validator delegation pool" ;;;
    expect (DecCoins_IsZero (ValCommission vi)) "unexpected leftover in validator commission pool").

(** ** Queries (querier.go) *)
Record DelegationsReward := mkDelegationsReward { dr_Validator : ValAddress; dr_Reward : Coins }.
Record Rewards := mkRewards { rw_Total : Coins; rw_Delegations : list DelegationsReward; rw_Commission : Coins }.
(** The loop of the rewards of an address: the pool as the withdrawals before
    leave it, and the record of the validator of that address. *)
Fixpoint query_delegations (ctx : Ctx) (self : option ValAddress) (l : list Delegation)
    (acc : FeePool * option ValidatorDistInfo * DecCoins * list DelegationsReward)
    : SM (FeePool * option ValidatorDistInfo * DecCoins * list DelegationsReward) :=
  match l with
  | [] => ret acc
  | del :: l =>
      let '(fp, selfVdi, total, rewards) := acc in
      validator <- GetValidator (d_ValidatorAddr del) ;;
      vdi <- on_distr (GetValidatorDistInfo (d_ValidatorAddr del)) ;;
      wc <- GetWithdrawContext ctx (d_ValidatorAddr del) ;;
      distInfo <- on_distr (GetDelegationDistInfo (d_DelegatorAddr del) (d_ValidatorAddr del)) ;;
      validator <- must_some validator "nil validator" ;;
      r <- lift (WithdrawRewards distInfo (mkWithdraw fp (wc_Height wc) (wc_TotalPower wc) (wc_ValPower wc) (wc_CommissionRate wc))
                   vdi (v_DelegatorShares validator) (d_Shares del)) ;;
      let '(_, vdi, newFeePool, diWithdraw) := r in
      total <- lift (DecCoins_Plus total diWithdraw) ;;
      tc <- lift (DecCoins_TruncateDecimal diWithdraw) ;;
      query_delegations ctx self l
        (newFeePool, if bool_decide (self = Some (vi_OperatorAddr vdi)) then Some vdi else selfVdi, total,
         rewards ++ [mkDelegationsReward (d_ValidatorAddr del) tc.1])
  end.
Definition queryRewards (ctx : Ctx) (address : AccAddress) : SM Rewards :=
  selfValidator <- GetValidator address ;;
  let self := match selfValidator with
              | Some v => if bool_decide (v_OperatorAddr v = address) then Some (v_OperatorAddr v) else None
              | None => None
              end in
  selfVdi <- (match self with
              | Some a => vdi <- on_distr (GetValidatorDistInfo a) ;; ret (Some vdi)
              | None => ret None
              end) ;;
  fp <- on_distr GetFeePool ;;
  l <- gets (GetAllDelegatorDelegations address) ;;
  r <- query_delegations ctx (v_OperatorAddr <$> selfValidator) l (fp, selfVdi, [], []) ;;
  let '(fp, selfVdi, total, delegations) := r in
  r <- (match selfVdi, selfValidator with
        | Some vdi, Some v =>
            if negb (is_nil (vi_OperatorAddr vdi)) && bool_decide (vi_OperatorAddr vdi = address) then
              wc <- GetWithdrawContext ctx (v_OperatorAddr v) ;;
              r <- lift (WithdrawCommission vdi (mkWithdraw fp (wc_Height wc) (wc_TotalPower wc) (wc_ValPower wc) (wc_CommissionRate wc))) ;;
              total <- lift (DecCoins_Plus total r.2) ;;
              tc <- lift (DecCoins_TruncateDecimal r.2) ;;
              ret (total, tc.1)
            else ret (total, [])
        | _, _ => ret (total, [])
        end) ;;
  let '(total, commission) := r in
  tc <- lift (DecCoins_TruncateDecimal total) ;;
  ret (mkRewards tc.1 delegations commission).
Definition queryDelegatorWithdrawAddress (address : AccAddress) : SM AccAddress := on_distr (GetDelegatorWithdrawAddr address).
Definition queryDelegationDistInfo (d : AccAddress) (v : ValAddress) : SM DelegationDistInfo :=
  has <- on_distr (HasDelegationDistInfo d v) ;; require has ErrNoDelegationDistInfo ;;; on_distr (GetDelegationDistInfo d v).
Definition queryAllDelegationDistInfo (d : AccAddress) (s : DistrState) : list DelegationDistInfo :=
  (prefix_iterator (delInfos s) d).*2.
Definition queryValidatorDistInfo (v : ValAddress) : SM ValidatorDistInfo :=
  has <- on_distr (HasValidatorDistInfo v) ;; require has ErrNoValidatorDistInfo ;;; on_distr (GetValidatorDistInfo v).
End keeper.
End Distr.
