(* ===== verification/DistrFacts.v ===== *)
(** * Distribution: every coin is in one pool

    The operations on coins with decimals as operations on amounts, and that a
    withdrawal moves what it takes from one pool to another, to an account, or back
    to the pool of all validators. *)

From S2P Require Import Prelude SdkErrors IntType GoStrings Denom Coin CoinFacts Dec TimeBytes KVStore Gas Auth StdTx Bank BankFacts BankFrame Frame StakeTypes Stake StakeFacts StakeInv StakeFrame DistrTypes Distr.
#[local] Open Scope Z_scope.

Module DistrFacts.
Import StakeTypes Stake StakeFacts StakeInv StakeFrame DistrTypes Distr.

(** ** Amounts *)
Definition damt (l : DecCoins) (d : string) : Z := list_sum (λ c, if decide (dc_Denom c = d) then dc_Amount c else 0) l.
Definition dsorted (l : DecCoins) : Prop := StronglySorted (λ a b, str_lt (dc_Denom a) (dc_Denom b)) l.
Lemma damt_cons c l d : damt (c :: l) d = (if decide (dc_Denom c = d) then dc_Amount c else 0) + damt l d.
Proof. done. Qed.
Lemma DecCoin_Plus_ok a b c : DecCoin_Plus a b = Ok c → dc_Denom a = dc_Denom b ∧ c = mkDecCoin (dc_Denom a) (dc_Amount a + dc_Amount b).
Proof.
  unfold DecCoin_Plus. case_bool_decide as E; [|done]. simpl. intros Hc. inv_ok Hc. apply dec_checked_ok in E0 as [-> _]. by injection Hc as <-.
Qed.
(** The loop of [Plus] as a relation. *)
Inductive plus_spec : DecCoins → DecCoins → DecCoins → Prop :=
| plus_nil_l b : plus_spec [] b b
| plus_nil_r a : plus_spec a [] a
| plus_lt x a y b s : str_lt (dc_Denom x) (dc_Denom y) → plus_spec a (y :: b) s → plus_spec (x :: a) (y :: b) (x :: s)
| plus_gt x a y b s : str_lt (dc_Denom y) (dc_Denom x) → plus_spec (x :: a) b s → plus_spec (x :: a) (y :: b) (y :: s)
| plus_zero x a y b s : dc_Denom x = dc_Denom y → dc_Amount x + dc_Amount y = 0 → plus_spec a b s → plus_spec (x :: a) (y :: b) s
| plus_eq x a y b s : dc_Denom x = dc_Denom y → dc_Amount x + dc_Amount y ≠ 0 → plus_spec a b s →
    plus_spec (x :: a) (y :: b) (mkDecCoin (dc_Denom x) (dc_Amount x + dc_Amount y) :: s).
Lemma Plus_spec a b s : DecCoins_Plus a b = Ok s → plus_spec a b s.
Proof.
  revert b s. induction a as [|x a IHa]; intros b.
  { intros s. destruct b; intros [= <-]; constructor. }
  induction b as [|y b IHb]; intros s; [intros [= <-]; constructor|]. cbn [DecCoins_Plus].
  destruct (str_compareP (dc_Denom x) (dc_Denom y)) as [E|E|E]; intros Hs.
  - inv_ok Hs. apply dec_checked_ok in E0 as [-> _]. destruct (Dec_IsZero _) eqn:Ez.
    + apply Dec_IsZero_iff in Ez. apply plus_zero; auto.
    + apply Dec_IsZero_false in Ez. inv_ok Hs. injection Hs as <-. apply DecCoin_Plus_ok in E0 as [_ ->]. apply plus_eq; auto.
  - inv_ok Hs. injection Hs as <-. apply plus_lt; auto.
  - inv_ok Hs. injection Hs as <-. apply plus_gt; auto.
Qed.
Lemma plus_amt a b s d : plus_spec a b s → damt s d = damt a d + damt b d.
Proof.
  assert (damt [] d = 0) as H0 by done.
  induction 1 as [b|a|x a y b s _ _ IH|x a y b s _ _ IH|x a y b s E Ez _ IH|x a y b s E _ _ IH]; rewrite ?H0, ?damt_cons in *; cbn [dc_Denom dc_Amount] in *;
    rewrite ?IH, <-?E; repeat case_decide; lia.
Qed.
Lemma plus_denoms (Q : string → Prop) a b s : plus_spec a b s → Forall (λ c, Q (dc_Denom c)) a → Forall (λ c, Q (dc_Denom c)) b → Forall (λ c, Q (dc_Denom c)) s.
Proof.
  induction 1; intros Ha Hb; try done; repeat match goal with H : Forall _ (_ :: _) |- _ => apply Forall_cons in H as [??] end; auto.
Qed.
Lemma plus_sorted a b s : plus_spec a b s → dsorted a → dsorted b → dsorted s.
Proof.
  assert (∀ x y l, str_lt x (dc_Denom y) → Forall (λ c, str_lt (dc_Denom y) (dc_Denom c)) l → Forall (λ c, str_lt x (dc_Denom c)) (y :: l)) as Hup.
  { intros x y l Hxy Hl. constructor; [done|]. eapply Forall_impl; [done|]. intros c Hc. by etrans. }
  induction 1 as [b|a|x a y b s Hlt Hs IH|x a y b s Hlt Hs IH|x a y b s E Ez Hs IH|x a y b s E En Hs IH]; intros Ha Hb; try done;
    pose proof Ha as [Ha1 Ha2]%StronglySorted_inv; pose proof Hb as [Hb1 Hb2]%StronglySorted_inv.
  - constructor; [by apply IH|]. eapply (plus_denoms (str_lt (dc_Denom x))); [done|done|]. by apply Hup.
  - constructor; [by apply IH|]. eapply (plus_denoms (str_lt (dc_Denom y))); [done| |done]. by apply Hup.
  - by apply IH.
  - constructor; [by apply IH|]. simpl. eapply (plus_denoms (str_lt (dc_Denom x))); [done|done|]. by rewrite E.
Qed.
Lemma Plus_amt a b s d : DecCoins_Plus a b = Ok s → damt s d = damt a d + damt b d.
Proof. intros Hs. by apply plus_amt, Plus_spec. Qed.
Lemma Plus_sorted a b s : DecCoins_Plus a b = Ok s → dsorted a → dsorted b → dsorted s.
Proof. intros Hs. by apply plus_sorted, Plus_spec. Qed.
(** Operations coin by coin keep the denominations. *)
Lemma each_denoms {A B} (f : A → Outcome B) (g : A → string) (h : B → string) l r :
  (∀ a b, f a = Ok b → h b = g a) → each f l = Ok r → map h r = map g l.
Proof.
  intros Hf. revert r. induction l as [|a l IH]; intros r; [by intros [= <-]|]. cbn [each]. intros Hr. inv_ok Hr.
  injection Hr as <-. simpl. f_equal; auto.
Qed.
Lemma sorted_denoms l r : map dc_Denom r = map dc_Denom l → dsorted l → dsorted r.
Proof.
  unfold dsorted. revert r. induction l as [|c l IH]; intros [|e r]; try done. intros [= He Hr] [Hl Hall]%StronglySorted_inv.
  constructor; [by apply IH|]. rewrite He. apply Forall_forall. intros x Hx. assert (dc_Denom x ∈ map dc_Denom l) as Hin.
  { rewrite <-Hr. by apply list_elem_of_fmap_2. }
  apply list_elem_of_fmap in Hin as (y&->&Hy). by eapply Forall_forall in Hall.
Qed.
Lemma MulDec_denoms l d r : DecCoins_MulDec l d = Ok r → map dc_Denom r = map dc_Denom l.
Proof. apply each_denoms. intros a b Hb. inv_ok Hb. by injection Hb as <-. Qed.
Lemma QuoDec_denoms l d r : DecCoins_QuoDec l d = Ok r → map dc_Denom r = map dc_Denom l.
Proof. apply each_denoms. intros a b Hb. inv_ok Hb. by injection Hb as <-. Qed.
Lemma Negative_amt l d : damt (DecCoins_Negative l) d = - damt l d.
Proof. induction l as [|c l IH]; [done|]. unfold DecCoins_Negative in *. simpl map. rewrite !damt_cons, IH. simpl. unfold Dec_Neg. case_decide; lia. Qed.
Lemma Negative_denoms l : map dc_Denom (DecCoins_Negative l) = map dc_Denom l.
Proof. unfold DecCoins_Negative. by rewrite map_map. Qed.
Lemma Minus_amt a b s d : DecCoins_Minus a b = Ok s → damt s d = damt a d - damt b d.
Proof. intros Hs. rewrite (Plus_amt _ _ _ _ Hs), Negative_amt. lia. Qed.
Lemma Minus_sorted a b s : DecCoins_Minus a b = Ok s → dsorted a → dsorted b → dsorted s.
Proof. intros Hs Ha Hb. eapply Plus_sorted; [done|done|]. eapply sorted_denoms; [apply Negative_denoms|done]. Qed.
Lemma part_of_pool_sorted p a t r : part_of_pool p a t = Ok r → dsorted p → dsorted r.
Proof.
  unfold part_of_pool. intros Hr Hp. inv_ok Hr. eapply sorted_denoms; [by eapply QuoDec_denoms|]. eapply sorted_denoms; [by eapply MulDec_denoms|done].
Qed.
Lemma NewDecCoins_ok l r : NewDecCoins l = Ok r → (∀ d, damt r d = amt l d * P) ∧ map dc_Denom r = map denom l.
Proof.
  revert r. induction l as [|c l IH]; intros r; [by intros [= <-]|]. unfold NewDecCoins. cbn [each]. intros Hr. inv_ok Hr. injection Hr as <-.
  unfold NewDecCoinFromCoin in E. rewrite NewDecFromInt_ok in E. injection E as <-. destruct (IH _ E0) as [Ha Hd].
  split; [|simpl; by rewrite Hd]. intros d. rewrite damt_cons, Ha. simpl. case_decide; lia.
Qed.
Lemma truncate_loop_ok l acc out change :
  truncate_loop l acc = Ok (out, change) →
  (∀ d, amt out d * P + damt change d = damt l d + damt acc d) ∧ map denom out = map dc_Denom l ∧ nonneg out ∧ (dsorted acc → dsorted change).
Proof.
  revert acc out change. induction l as [|c l IH]; intros acc out change.
  { intros [= <- <-]. split_and!; [intros d; simpl; change (damt [] d) with 0; lia|done|constructor|done]. }
  cbn [truncate_loop]. intros Hr. inv_ok Hr. destruct a as [t ch], a1 as [o1 c1]. injection Hr as <- <-. simpl in *.
  unfold DecCoin_TruncateDecimal in E. inv_ok E. rewrite NewDecFromInt_ok in E3. injection E3 as <-. apply dec_checked_ok in E4 as [-> _].
  apply NewCoin_ok in E5 as [-> Ht]. injection E as <- <-. destruct (IH _ _ _ E1) as (Ha&Hd&Hn&Hs). split_and!.
  - intros d. specialize (Ha d). rewrite (Plus_amt _ _ _ _ E0), damt_cons in Ha. rewrite damt_cons. change (damt [] d) with 0 in Ha. simpl in *.
    case_decide; lia.
  - simpl. by rewrite Hd.
  - by constructor.
  - intros Hacc. apply Hs. eapply Plus_sorted; [exact E0|done|]. by repeat constructor.
Qed.
Lemma TruncateDecimal_ok l out change :
  DecCoins_TruncateDecimal l = Ok (out, change) →
  (∀ d, amt out d * P + damt change d = damt l d) ∧ map denom out = map dc_Denom l ∧ nonneg out ∧ dsorted change.
Proof.
  intros Hr. apply truncate_loop_ok in Hr as (Ha&?&?&Hs). split_and!; [|done|done|apply Hs; constructor].
  intros d. rewrite Ha. change (damt [] d) with 0. lia.
Qed.

(** ** Withdrawals keep the coins *)
Definition vi_amt (vi : ValidatorDistInfo) (d : string) : Z := damt (DelPool vi) d + damt (ValCommission vi) d.
Definition vi_sorted (vi : ValidatorDistInfo) : Prop := dsorted (DelPool vi) ∧ dsorted (ValCommission vi).
(** From [fp] and [vi] to [fp'] and [vi'], with [w] taken out. *)
Record taken (fp : FeePool) (vi : ValidatorDistInfo) (fp' : FeePool) (vi' : ValidatorDistInfo) (w : DecCoins) : Prop := {
  tn_addr : vi_OperatorAddr vi' = vi_OperatorAddr vi;
  tn_community : CommunityPool fp' = CommunityPool fp;
  tn_amt d : damt (ValPool fp') d + vi_amt vi' d + damt w d = damt (ValPool fp) d + vi_amt vi d;
  tn_sorted : dsorted (ValPool fp) → vi_sorted vi → dsorted (ValPool fp') ∧ vi_sorted vi' ∧ dsorted w }.
Lemma TakeFeePoolRewards_taken vi wc vi' fp' : TakeFeePoolRewards vi wc = Ok (vi', fp') → taken (wc_FeePool wc) vi fp' vi' [].
Proof.
  unfold TakeFeePoolRewards. intros Hr. inv_ok Hr. unfold UpdateTotalValAccum in E. inv_ok E. injection E as <-. simpl in *.
  destruct (Dec_IsZero _).
  { injection Hr as <- <-. split; [done|done| |]; [intros d; change (damt [] d) with 0; unfold vi_amt; simpl; lia|].
    intros ? [??]. split_and!; try done; constructor. }
  inv_ok Hr. injection Hr as <- <-. split; [done|done| |].
  - intros d. unfold vi_amt. simpl. rewrite (Plus_amt _ _ _ _ E7), (Plus_amt _ _ _ _ E8), (Minus_amt _ _ _ _ E3), (Minus_amt _ _ _ _ E5).
    change (damt [] d) with 0. lia.
  - intros Hp [Hd Hc]. pose proof (part_of_pool_sorted _ _ _ _ E2 Hp) as Hw.
    pose proof (sorted_denoms _ _ (MulDec_denoms _ _ _ E4) Hw) as Hm. simpl.
    split_and!; [by eapply Minus_sorted|split; simpl|constructor]; [|by eapply Plus_sorted]. eapply Plus_sorted; [done|done|]. by eapply Minus_sorted.
Qed.
Lemma WithdrawCommission_taken vi wc vi' fp' w : WithdrawCommission vi wc = Ok (vi', fp', w) → taken (wc_FeePool wc) vi fp' vi' w.
Proof.
  unfold WithdrawCommission. intros Hr. inv_ok Hr. destruct a as [v f]. injection Hr as <- <- <-. simpl in *.
  destruct (TakeFeePoolRewards_taken _ _ _ _ E) as [T1 T2 T3 T4]. split; [done|done| |].
  - intros d. specialize (T3 d). unfold vi_amt in *. simpl in *. change (damt [] d) with 0 in *. lia.
  - intros Hp Hv. destruct (T4 Hp Hv) as (?&[??]&_). split_and!; try done. split; [done|constructor].
Qed.
Record withdrawn (fp : FeePool) (vi : ValidatorDistInfo) (di : DelegationDistInfo) (fp' : FeePool) (vi' : ValidatorDistInfo)
    (di' : DelegationDistInfo) (w : DecCoins) : Prop := {
  wn_taken : taken fp vi fp' vi' w;
  wn_delegator : di_DelegatorAddr di' = di_DelegatorAddr di;
  wn_validator : di_ValOperatorAddr di' = di_ValOperatorAddr di }.
Lemma WithdrawRewards_ok di wc vi ts ds di' vi' fp' w :
  WithdrawRewards di wc vi ts ds = Ok (di', vi', fp', w) → withdrawn (wc_FeePool wc) vi di fp' vi' di' w.
Proof.
  unfold WithdrawRewards. intros Hr. inv_ok Hr. unfold UpdateTotalDelAccum in E. inv_ok E. injection E as <-.
  destruct (Dec_IsZero _).
  { injection Hr as <- <- <- <-. split; [|done..]. split; [done|done| |]; [intros d; change (damt [] d) with 0; unfold vi_amt; simpl; lia|].
    intros ? [??]. split_and!; try done. constructor. }
  inv_ok Hr. destruct a as [v f]. inv_ok Hr. injection Hr as <- <- <- <-.
  destruct (TakeFeePoolRewards_taken _ _ _ _ E) as [T1 T2 T3 T4]. split; [|done..]. split; [done|done| |].
  - intros d. specialize (T3 d). unfold vi_amt in *. simpl in *. change (damt [] d) with 0 in *. rewrite (Minus_amt _ _ _ _ E3). lia.
  - intros Hp Hv. destruct (T4 Hp Hv) as (?&[H1 ?]&_). pose proof (part_of_pool_sorted _ _ _ _ E2 H1). split_and!; try done.
    split; simpl; [by eapply Minus_sorted|done].
Qed.

(** ** The stores of the module among the others *)
Class PartLaws (X A : Type) `{!Part X A} := {
  part_set a x : part (set_part a x) = a;
  set_part_set a b x : set_part a (set_part b x) = set_part a x;
  set_part_same x : set_part (part x) x = x }.
Class Apart (X A B : Type) `{!Part X A, !Part X B} := apart (a : A) (x : X) : part (set_part a x) = part x :> B.
(** The addresses that the code computes are addresses, and two of them differ. *)
Class AddressLaws `{Crypto} := {
  address_len u : is_addr (AddressHash u);
  community_not_burned : CommunityTaxCoinsAccAddr ≠ BurnedCoinsAccAddr }.

Definition pool_amt (fp : option FeePool) : Z := match fp with Some fp => damt (ValPool fp) IrisAtto | None => 0 end.
Definition fees_of (f : FeeStore) : Coins := default [] (collectedFees f).
Record distr_ok `{Crypto} (s : DistrState) : Prop := {
  do_vals a vi : valInfos s !! a = Some vi → vi_OperatorAddr vi = a ∧ vi_sorted vi;
  do_pool fp : feePool s = Some fp → dsorted (ValPool fp);
  do_dels k di : delInfos s !! k = Some di → k = GetDelegationDistInfoKey (di_DelegatorAddr di) (di_ValOperatorAddr di) ∧ good_signer (di_DelegatorAddr di);
  do_addrs d a : withdrawAddrs s !! d = Some a → a ≠ BurnedCoinsAccAddr }.

(** ** What the operations keep

    A relation that changes of accounts where none loses coins, and changes of the
    stores of the module and of the collected fees keep. *)
Lemma grows_must {A} (c : M AuthState A) : keeps grows c → keeps grows (must c).
Proof. intros Hk s [] s'. unfold must. destruct (c s) as [[a|e|w] s1] eqn:E; intros [= <-]. exact (Hk _ _ _ E). Qed.
Lemma grows_ignore {A} (c : M AuthState A) : keeps grows c → never_errs c → keeps grows (ignore_err c).
Proof. intros Hk Hn s. apply wp_ignore; [apply Hk|]. by intros e s' ?%Hn. Qed.
#[local] Hint Resolve grows_must grows_ignore addCoins_no_err : keeps.
Section frame.
Context {X : Type} `{Crypto, ConsCrypto, !Part X DistrState, !Part X FeeStore}.
Implicit Types s : StakeState X.
Context (R : relation (StakeState X)) `{!PreOrder R}.
Record distr_closed : Prop := {
  dc_auth a s : grows (st_auth s) a → R s (set_auth a s);
  dc_distr (d : DistrState) s : R s (set_other (set_part d (st_other s)) s);
  dc_fees (f : FeeStore) s : R s (set_other (set_part f (st_other s)) s) }.
Context (Hc : distr_closed).
Abbreviation B := (keeps R).
Lemma B_auth {A} (c : M AuthState A) : keeps grows c → B (on_auth c).
Proof. intros Hk s. apply wp_zoom. intros a t Hr. apply Hc. by eapply Hk. Qed.
Lemma B_distr {A} (c : M DistrState A) : B (on_distr c).
Proof. apply keeps_zoom. intros s t. apply Hc. Qed.
Lemma B_fees {A} (c : M FeeStore A) : B (on_fees c).
Proof. apply keeps_zoom. intros s t. apply Hc. Qed.
#[local] Hint Resolve B_auth B_distr B_fees : keeps.
Lemma B_GetValidator a : B (GetValidator a).
Proof. unfold GetValidator, unmarshal, expect. keeps. Qed.
Lemma B_GetDelegation d v : B (GetDelegation d v).
Proof. unfold GetDelegation, unmarshal, expect. keeps. Qed.
Lemma B_must {A} (o : option A) w : B (must_some o w).
Proof. unfold must_some. keeps. Qed.
#[local] Hint Resolve B_GetValidator B_GetDelegation B_must : keeps.
Ltac bs := unfold GetLastValidatorPower, GetLastTotalPower, decPower, stake_Validator, stake_Delegation, expect; keeps.
Lemma B_ByCons c : B (GetValidatorByConsAddr c).
Proof. unfold GetValidatorByConsAddr. keeps. Qed.
Lemma B_WithdrawContext ctx v : B (GetWithdrawContext ctx v).
Proof. unfold GetWithdrawContext. bs. Qed.
#[local] Hint Resolve B_ByCons B_WithdrawContext : keeps.
Lemma B_withdraw ctx d v : B (withdrawDelegationReward ctx d v).
Proof. unfold withdrawDelegationReward. bs. Qed.
Lemma B_ToDelegator fp d w : B (WithdrawToDelegator fp d w).
Proof. unfold WithdrawToDelegator. bs. Qed.
#[local] Hint Resolve B_withdraw B_ToDelegator : keeps.
Lemma B_WithdrawReward ctx d v : B (WithdrawDelegationReward ctx d v).
Proof. unfold WithdrawDelegationReward. bs. Qed.
Lemma B_withdraw_delegations ctx d l w : B (withdraw_delegations ctx d l w).
Proof. revert w. induction l as [|x l IH]; intros w; cbn [withdraw_delegations]; bs. Qed.
Lemma B_take ctx v : B (takeValidatorFeePoolRewards ctx v).
Proof. unfold takeValidatorFeePoolRewards, withdraw_and_pay. bs. Qed.
Lemma B_commission ctx v : B (withdrawValidatorCommission ctx v).
Proof. unfold withdrawValidatorCommission. bs. Qed.
Lemma B_must_hook {A} (c : M (StakeState X) A) : B c → B (must_hook c).
Proof. intros Hk s [] s'. unfold must_hook. destruct (c s) as [[a|e|w] s1] eqn:E; intros [= <-]. exact (Hk _ _ _ E). Qed.
#[local] Hint Resolve B_WithdrawReward B_withdraw_delegations B_take B_commission B_must_hook : keeps.
Lemma B_modified ctx v : B (onValidatorModified ctx v).
Proof. unfold onValidatorModified. bs. Qed.
#[local] Hint Resolve B_modified : keeps.
Lemma B_bonded ctx v : B (onValidatorBonded ctx v).
Proof. unfold onValidatorBonded. bs. Qed.
Lemma B_power ctx v : B (onValidatorPowerDidChange ctx v).
Proof. unfold onValidatorPowerDidChange. bs. Qed.
Lemma B_del_modified ctx d v : B (hook_DelegationSharesModified ctx d v).
Proof. unfold hook_DelegationSharesModified, onDelegationSharesModified. bs. Qed.
Lemma B_del_created ctx d v : B (hook_DelegationCreated ctx d v).
Proof. unfold hook_DelegationCreated, onDelegationCreated. bs. Qed.
Lemma B_del_removed ctx d v : B (onDelegationRemoved ctx d v).
Proof. unfold onDelegationRemoved. bs. Qed.
Lemma B_Allocate p c : B (AllocateTokens p c).
Proof. unfold AllocateTokens. bs. Qed.
Lemma B_distr_Handler ctx msg : B (distr_Handler ctx msg).
Proof.
  destruct msg; cbn [distr_Handler]; unfold WithdrawDelegationRewardsAll, WithdrawValidatorRewardsAll, withdrawDelegationRewardsAll; bs.
Qed.
#[local] Hint Resolve B_Allocate : keeps.
Lemma B_BeginBlocker ctx v p : B (BeginBlocker ctx v p).
Proof. unfold BeginBlocker. bs. Qed.
End frame.
(** Only accounts and the stores of other modules change. *)
Section beside.
Context {X : Type}.
Implicit Types s : StakeState X.
Definition beside s s' : Prop := ∃ a x, s' = set_other x (set_auth a s).
#[global] Instance beside_po : PreOrder beside.
Proof.
  split; [intros s; exists (st_auth s), (st_other s); by destruct s|]. intros s1 s2 s3 (a1&x1&->) (a2&x2&->). by exists a2, x2.
Qed.
Lemma beside_part {A} `{!Part X A} (a : A) s : beside s (set_other (set_part a (st_other s)) s).
Proof. exists (st_auth s). eexists. by destruct s. Qed.
Lemma beside_closed `{!Part X DistrState, !Part X FeeStore} : distr_closed beside.
Proof. split; intros; [exists a, (st_other s); by destruct s|apply beside_part..]. Qed.
End beside.

(** ** Accounts, pools and fees together *)
Section ledger.
Context {X : Type} `{Crypto, !AddressLaws, ConsCrypto, !Part X DistrState, !Part X FeeStore, !PartLaws X DistrState, !PartLaws X FeeStore}.
Context `{!Apart X DistrState FeeStore, !Apart X FeeStore DistrState}.
Implicit Types s : StakeState X.
Definition dst s : DistrState := part (st_other s).
Definition fst_ s : FeeStore := part (st_other s).
Definition held_distr (d : DistrState) : Z := pool_amt (feePool d) + map_sum (λ vi, vi_amt vi IrisAtto) (valInfos d).
(** The loose tokens in the pools and in the collected fees. *)
Definition dheld (x : X) : Z := held_distr (part x) + amt (fees_of (part x)) IrisAtto * P.
Record dinv (g : Z) s : Prop := {
  di_auth : auth_wf (st_auth s);
  di_loose : loose_ok (st_auth s);
  di_ok : distr_ok (dst s);
  di_fees : sorted (fees_of (fst_ s));
  di_gap : gap dheld (st_auth s) (st_other s) = g }.
Lemma dinv_ext g g' s : g = g' → dinv g s → dinv g' s.
Proof. by intros ->. Qed.
Definition put_d (d : DistrState) s : StakeState X := set_other (set_part d (st_other s)) s.
Lemma dst_put d s : dst (put_d d s) = d.
Proof. apply part_set. Qed.
Lemma fst_put d s : fst_ (put_d d s) = fst_ s.
Proof. apply apart. Qed.
Lemma put_put d e s : put_d d (put_d e s) = put_d d s.
Proof. unfold put_d. simpl. by rewrite set_part_set. Qed.
Lemma put_same s : put_d (dst s) s = s.
Proof. unfold put_d, dst. rewrite set_part_same. by destruct s. Qed.
(** A new state of the module. *)
Lemma dinv_put g s d : dinv g s → distr_ok d → dinv (g + held_distr (dst s) - held_distr d) (put_d d s).
Proof.
  intros [] Hok. split; try done; [by rewrite dst_put|by rewrite fst_put|].
  unfold gap, dheld in *. cbn [st_auth st_other put_d set_other] in *. rewrite part_set, apart. unfold dst. rewrite <-di_gap0. lia.
Qed.
Lemma wp_distr {A} (c : M DistrState A) (Q : A → StakeState X → Prop) s :
  wp c (λ r d, Q r (put_d d s)) (dst s) → wp (on_distr c) Q s.
Proof. intros Hc. apply wp_zoom. intros r d. apply Hc. Qed.
(** Reads. *)
Lemma wp_must_some {S A} (o : option A) w (Q : A → S → Prop) (s : S) : (∀ a, o = Some a → Q a s) → wp (must_some o w) Q s.
Proof. intros HQ. unfold must_some. destruct o; wps. auto. Qed.
Lemma wp_GetFeePool (Q : FeePool → StakeState X → Prop) s : (∀ fp, feePool (dst s) = Some fp → Q fp s) → wp (on_distr GetFeePool) Q s.
Proof. intros HQ. apply wp_distr. unfold GetFeePool. wps. apply wp_must_some. intros fp Hfp. rewrite put_same. auto. Qed.
Lemma wp_GetValInfo a (Q : ValidatorDistInfo → StakeState X → Prop) s :
  (∀ vi, valInfos (dst s) !! a = Some vi → Q vi s) → wp (on_distr (GetValidatorDistInfo a)) Q s.
Proof. intros HQ. apply wp_distr. unfold GetValidatorDistInfo. wps. apply wp_must_some. intros vi Hvi. rewrite put_same. auto. Qed.
Lemma wp_GetDelInfo d v (Q : DelegationDistInfo → StakeState X → Prop) s :
  (∀ di, delInfos (dst s) !! GetDelegationDistInfoKey d v = Some di → Q di s) → wp (on_distr (GetDelegationDistInfo d v)) Q s.
Proof. intros HQ. apply wp_distr. unfold GetDelegationDistInfo. wps. apply wp_must_some. intros di Hdi. rewrite put_same. auto. Qed.
Lemma wp_distr_gets {A} (f : DistrState → A) (Q : A → StakeState X → Prop) s : Q (f (dst s)) s → wp (on_distr (gets f)) Q s.
Proof. intros HQ. apply wp_distr. wps. by rewrite put_same. Qed.
Lemma wp_GetWithdrawContext ctx v (Q : WithdrawContext → StakeState X → Prop) s :
  (∀ wc, feePool (dst s) = Some (wc_FeePool wc) → Q wc s) → wp (GetWithdrawContext ctx v) Q s.
Proof.
  intros HQ. unfold GetWithdrawContext, GetLastValidatorPower, GetLastTotalPower, decPower. wpb. apply wp_GetFeePool. intros fp Hfp. wpb.
  apply wp_GetValidator; intros; wps; apply wp_must_some; intros ? [= <-]; wps; auto.
Qed.
Lemma wp_withdraw ctx d v (Q : FeePool * ValidatorDistInfo * DelegationDistInfo * DecCoins → StakeState X → Prop) s :
  (∀ fp0 vi0 di0 fp vi di w, feePool (dst s) = Some fp0 → valInfos (dst s) !! v = Some vi0 →
     delInfos (dst s) !! GetDelegationDistInfoKey d v = Some di0 → withdrawn fp0 vi0 di0 fp vi di w → Q (fp, vi, di, w) s) →
  wp (withdrawDelegationReward ctx d v) Q s.
Proof.
  intros HQ. unfold withdrawDelegationReward. wpb. apply wp_GetWithdrawContext. intros wc Hwc. wpb. apply wp_GetValInfo. intros vi Hvi. wpb.
  apply wp_GetDelInfo. intros di Hdi. unfold stake_Validator, stake_Delegation. wpb.
  apply wp_GetValidator; intros; apply wp_must_some; intros va [= <-]. wpb.
  apply wp_GetDelegation; intros; apply wp_must_some; intros de [= <-]. wps. destruct x as [[[di' vi'] fp'] w]. wps.
  eapply HQ; [done..|]. by eapply WithdrawRewards_ok.
Qed.

(** Writes. *)
Lemma held_feePool d fp : held_distr (set_feePool (Some fp) d) = held_distr d - pool_amt (feePool d) + damt (ValPool fp) IrisAtto.
Proof. unfold held_distr. simpl. lia. Qed.
Lemma held_valInfo d vi :
  held_distr (set_valInfos (insert (vi_OperatorAddr vi) vi) d) =
  held_distr d - at_key (λ vi, vi_amt vi IrisAtto) (valInfos d) (vi_OperatorAddr vi) + vi_amt vi IrisAtto.
Proof. unfold held_distr. simpl. rewrite map_sum_insert. lia. Qed.
Lemma ok_feePool d fp : distr_ok d → dsorted (ValPool fp) → distr_ok (set_feePool (Some fp) d).
Proof. intros [] Hs. split; try done. simpl. by intros ? [= <-]. Qed.
Lemma ok_valInfo d vi : distr_ok d → vi_sorted vi → distr_ok (set_valInfos (insert (vi_OperatorAddr vi) vi) d).
Proof. intros [] Hs. split; try done. simpl. intros a w [[<- <-]|[_ Hw]]%lookup_insert_Some; auto. Qed.
Lemma ok_delInfo d di : distr_ok d → good_signer (di_DelegatorAddr di) →
  distr_ok (set_delInfos (insert (GetDelegationDistInfoKey (di_DelegatorAddr di) (di_ValOperatorAddr di)) di) d).
Proof. intros [] Hs. split; try done. simpl. intros a w [[<- <-]|[_ Hw]]%lookup_insert_Some; auto. Qed.
Lemma wp_SetFeePool fp (Q : unit → StakeState X → Prop) g s :
  dinv g s → dsorted (ValPool fp) →
  (dinv (g + pool_amt (feePool (dst s)) - damt (ValPool fp) IrisAtto) (put_d (set_feePool (Some fp) (dst s)) s) →
     Q tt (put_d (set_feePool (Some fp) (dst s)) s)) → wp (on_distr (SetFeePool fp)) Q s.
Proof.
  intros Hi Hs HQ. apply wp_distr. unfold SetFeePool. wps. apply HQ. pose proof (ok_feePool _ fp (di_ok _ _ Hi) Hs) as Hok.
  eapply dinv_ext; [|by apply (dinv_put g)]. rewrite held_feePool. lia.
Qed.
Definition put_vi (vi : ValidatorDistInfo) s : StakeState X := put_d (set_valInfos (insert (vi_OperatorAddr vi) vi) (dst s)) s.
Definition put_di (di : DelegationDistInfo) s : StakeState X :=
  put_d (set_delInfos (insert (GetDelegationDistInfoKey (di_DelegatorAddr di) (di_ValOperatorAddr di)) di) (dst s)) s.
Lemma wp_SetValInfo vi (Q : unit → StakeState X → Prop) g s :
  dinv g s → vi_sorted vi →
  (dinv (g + at_key (λ vi, vi_amt vi IrisAtto) (valInfos (dst s)) (vi_OperatorAddr vi) - vi_amt vi IrisAtto) (put_vi vi s) → Q tt (put_vi vi s)) →
  wp (on_distr (SetValidatorDistInfo vi)) Q s.
Proof.
  intros Hi Hs HQ. apply wp_distr. unfold SetValidatorDistInfo. wps. apply HQ. pose proof (ok_valInfo _ vi (di_ok _ _ Hi) Hs) as Hok.
  eapply dinv_ext; [|by apply (dinv_put g)]. rewrite held_valInfo. lia.
Qed.
Lemma wp_SetDelInfo di (Q : unit → StakeState X → Prop) g s :
  dinv g s → good_signer (di_DelegatorAddr di) →
  (dinv g (put_di di s) → Q tt (put_di di s)) → wp (on_distr (SetDelegationDistInfo di)) Q s.
Proof.
  intros Hi Hs HQ. apply wp_distr. unfold SetDelegationDistInfo. wps. apply HQ. pose proof (ok_delInfo _ di (di_ok _ _ Hi) Hs) as Hok.
  eapply dinv_ext; [|by apply (dinv_put g)]. unfold held_distr. simpl. lia.
Qed.
(** Coins paid to an account. *)
Lemma dinv_add a c s g r au :
  dinv g s → a ≠ BurnedCoinsAccAddr → addCoins a c (st_auth s) = (Ok r, au) → dinv (g - amt c IrisAtto * P) (set_auth au s).
Proof.
  intros [] Ha Hr. destruct (addCoins_changes _ _ _ _ _ di_auth0 Hr) as (_&[Hw Hbal Ht]&Hnb). destruct (Hnb Ha) as (El&_&_).
  split; try done; simpl; [unfold loose_ok; by rewrite El|]. unfold gap, circulating, loosen in *. simpl in *. rewrite El, Ht, Hbal, decide_False by done. lia.
Qed.
Lemma wp_must_add a c (Q : unit → StakeState X → Prop) g s :
  dinv g s → a ≠ BurnedCoinsAccAddr → (∀ au, dinv (g - amt c IrisAtto * P) (set_auth au s) → Q tt (set_auth au s)) → wp (on_auth (must (addCoins a c))) Q s.
Proof.
  intros Hi Ha HQ. apply wp_zoom. intros [] au. unfold must. destruct (addCoins a c (st_auth s)) as [[r|e|w] a1] eqn:E; intros [= <-].
  apply HQ. by eapply dinv_add.
Qed.
Lemma del_info_good ds d v di : distr_ok ds → delInfos ds !! GetDelegationDistInfoKey d v = Some di → d ≠ BurnedCoinsAccAddr.
Proof.
  intros Hok Hdi ->. destruct (do_dels _ Hok _ _ Hdi) as [Ek [Hl Hn]]. apply pair_key_inj in Ek as [E _]; [by rewrite E in Hn|apply address_len|done].
Qed.
Lemma wp_ToDelegator fp d w g s :
  dinv g s → dsorted (ValPool fp) → d ≠ BurnedCoinsAccAddr →
  wp (WithdrawToDelegator fp d w) (λ _, dinv (g + pool_amt (feePool (dst s)) - damt (ValPool fp) IrisAtto - damt w IrisAtto)) s.
Proof.
  intros Hi Hs Hd. unfold WithdrawToDelegator, GetDelegatorWithdrawAddr. wpb. apply wp_distr_gets. wps. destruct x as [out change].
  destruct (TruncateDecimal_ok _ _ _ Hx) as (Ha&_&_&Hsc). wps. wpb.
  eapply (wp_SetFeePool _ _ g); [done|by eapply Plus_sorted|]. intros Hi1.
  eapply wp_must_add; [exact Hi1| |].
  - destruct (withdrawAddrs (dst s) !! d) as [a|] eqn:Ea; [|done]. by eapply (do_addrs _ (di_ok _ _ Hi)).
  - intros au Hi2. eapply dinv_ext; [|exact Hi2]. simpl. specialize (Ha IrisAtto). rewrite (Plus_amt _ _ _ _ Hx0). lia.
Qed.
Section withdrawal.
Context (g : Z) (s : StakeState X) (d : AccAddress) (v : ValAddress) (Hi : dinv g s).
Context (fp0 fp : FeePool) (vi0 vi : ValidatorDistInfo) (di0 di : DelegationDistInfo) (w : DecCoins).
Context (Hfp : feePool (dst s) = Some fp0) (Hvi : valInfos (dst s) !! v = Some vi0).
Lemma taken_sorted : taken fp0 vi0 fp vi w → dsorted (ValPool fp) ∧ vi_sorted vi ∧ dsorted w ∧ vi_OperatorAddr vi = v.
Proof.
  intros Ht. destruct (do_vals _ (di_ok _ _ Hi) _ _ Hvi) as [Ea Hvs]. destruct (tn_sorted _ _ _ _ _ Ht) as (?&?&?); [by apply (do_pool _ (di_ok _ _ Hi))|done|].
  split_and!; try done. by rewrite (tn_addr _ _ _ _ _ Ht).
Qed.
Lemma at_val_info : at_key (λ vi, vi_amt vi IrisAtto) (valInfos (dst s)) v = vi_amt vi0 IrisAtto.
Proof. unfold at_key. by rewrite Hvi. Qed.
Context (Hdi : delInfos (dst s) !! GetDelegationDistInfoKey d v = Some di0).
Lemma withdrawn_good : withdrawn fp0 vi0 di0 fp vi di w → good_signer (di_DelegatorAddr di).
Proof. intros Hw. rewrite (wn_delegator _ _ _ _ _ _ _ Hw). by apply (do_dels _ (di_ok _ _ Hi) _ _ Hdi). Qed.
Lemma wp_store : withdrawn fp0 vi0 di0 fp vi di w →
  wp (on_distr (store_withdrawal fp vi di)) (λ _ s', dinv (g + damt w IrisAtto) s' ∧ feePool (dst s') = Some fp) s.
Proof.
  intros Hw. pose proof (withdrawn_good Hw) as Hg. pose proof (wn_taken _ _ _ _ _ _ _ Hw) as Ht. destruct (taken_sorted Ht) as (Hs1&Hs2&_&Ea).
  apply wp_distr. unfold store_withdrawal, SetFeePool, SetValidatorDistInfo, SetDelegationDistInfo. wps. rewrite dst_put. split; [|done].
  eapply dinv_ext; [|apply dinv_put; [exact Hi|]].
  - set (d1 := set_feePool _ (dst s)). change (held_distr (set_delInfos ?f ?x)) with (held_distr x). rewrite held_valInfo. unfold d1.
    rewrite held_feePool, Ea, Hfp. change (valInfos (set_feePool _ ?x)) with (valInfos x). rewrite at_val_info. simpl.
    pose proof (tn_amt _ _ _ _ _ Ht IrisAtto). lia.
  - apply ok_delInfo; [|done]. apply ok_valInfo; [|done]. apply ok_feePool; [apply Hi|done].
Qed.
End withdrawal.
Lemma wp_withdraw_and_pay ctx d v g s : dinv g s → wp (withdraw_and_pay ctx d v) (λ _, dinv g) s.
Proof.
  intros Hi. unfold withdraw_and_pay. wpb. apply wp_withdraw. intros fp0 vi0 di0 fp vi di w Hfp Hvi Hdi Hw. wpb.
  eapply wp_mono; [by eapply wp_store|]. intros _ s1 [Hi1 Hfp1]. destruct (taken_sorted _ _ v Hi _ _ _ _ _ Hfp Hvi (wn_taken _ _ _ _ _ _ _ Hw)) as (Hs1&_).
  eapply wp_mono; [apply (wp_ToDelegator fp d w _ _ Hi1 Hs1)|]; [by eapply del_info_good; [apply Hi|]|].
  intros [] s2 Hi2. cbv beta in Hi2. eapply dinv_ext; [|exact Hi2]. rewrite Hfp1. simpl. lia.
Qed.
Lemma wp_WithdrawDelegationReward ctx d v g s : dinv g s → wp (WithdrawDelegationReward ctx d v) (λ _, dinv g) s.
Proof.
  intros Hi. unfold WithdrawDelegationReward, HasDelegationDistInfo. wpb. apply wp_distr_gets. wpb. apply wp_require. intros _. wpb.
  apply wp_withdraw. intros fp0 vi0 di0 fp vi di w Hfp Hvi Hdi Hw. pose proof (wn_taken _ _ _ _ _ _ _ Hw) as Ht.
  destruct (taken_sorted _ _ v Hi _ _ _ _ _ Hfp Hvi Ht) as (Hs1&Hs2&_&Ea). wpb.
  eapply (wp_SetValInfo vi _ g); [done|done|]. intros Hi1. wpb. rewrite Ea in Hi1 at 1. rewrite (at_val_info _ _ _ Hvi) in Hi1.
  eapply wp_SetDelInfo; [exact Hi1|exact (withdrawn_good _ _ d v Hi _ _ _ _ _ _ _ Hdi Hw)|]. intros Hi2. wpb.
  eapply wp_mono; [apply (wp_ToDelegator fp d w _ _ Hi2 Hs1)|]; [by eapply del_info_good; [apply Hi|]|].
  intros [] s2 Hi3. cbv beta in Hi3. wps. eapply dinv_ext; [|exact Hi3]. unfold put_di, put_vi. rewrite !dst_put. simpl. rewrite Hfp. simpl. pose proof (tn_amt _ _ _ _ _ Ht IrisAtto). lia.
Qed.
(** What a validator takes is stored. *)
Lemma wp_store_taken v fp0 vi0 fp vi g s :
  dinv g s → feePool (dst s) = Some fp0 → valInfos (dst s) !! v = Some vi0 → taken fp0 vi0 fp vi [] →
  wp (on_distr (SetFeePool fp) ;;; on_distr (SetValidatorDistInfo vi)) (λ _, dinv g) s.
Proof.
  intros Hi Hfp Hvi Ht. destruct (taken_sorted _ _ v Hi _ _ _ _ _ Hfp Hvi Ht) as (Hs1&Hs2&_&Ea). wpb.
  eapply (wp_SetFeePool _ _ g); [done|done|]. intros Hi1. eapply wp_SetValInfo; [exact Hi1|done|]. intros Hi2.
  eapply dinv_ext; [|exact Hi2]. rewrite dst_put, Ea, Hfp. change (valInfos (set_feePool _ ?x)) with (valInfos x). rewrite (at_val_info _ _ _ Hvi).
  pose proof (tn_amt _ _ _ _ _ Ht IrisAtto) as E. change (damt [] IrisAtto) with 0 in E. simpl. lia.
Qed.
Lemma wp_takeValidatorFeePoolRewards ctx v g s : dinv g s → wp (takeValidatorFeePoolRewards ctx v) (λ _, dinv g) s.
Proof.
  intros Hi. unfold takeValidatorFeePoolRewards, HasValidatorDistInfo, HasDelegationDistInfo. wpb. apply wp_distr_gets. wpb. apply wp_require. intros _.
  wpb. apply wp_distr_gets. wpb. eapply (wp_mono _ (λ _, dinv g)).
  - case_bool_decide; [by apply wp_withdraw_and_pay|]. wps. eapply wp_mono; [apply (wp_for_each _ _ (dinv g)); [done|]|].
    { intros d s1 _ Hi1. by apply wp_withdraw_and_pay. }
    intros [] s1 Hi1. cbv beta in Hi1. case_bool_decide; [|by wps]. wpb. apply wp_GetValInfo. intros vi Hvi.
    destruct (do_vals _ (di_ok _ _ Hi1) _ _ Hvi) as [Ea Hs]. eapply (wp_SetValInfo _ _ g); [done|done|]. intros Hi2.
    eapply dinv_ext; [|exact Hi2]. simpl. rewrite Ea, (at_val_info _ _ _ Hvi). unfold vi_amt. simpl. lia.
  - clear s Hi. intros [] s Hi. cbv beta in Hi. wpb. apply wp_GetValInfo. intros vi Hvi. wpb. apply wp_GetWithdrawContext. intros wc Hwc.
    wpb. apply wp_lift. intros [vi' fp'] Ht%TakeFeePoolRewards_taken. by eapply wp_store_taken.
Qed.
Lemma wp_commission ctx v g s :
  dinv g s → wp (withdrawValidatorCommission ctx v) (λ r s', dsorted (ValPool r.1) ∧
    dinv (g + damt (ValPool r.1) IrisAtto - pool_amt (feePool (dst s')) + damt r.2 IrisAtto) s') s.
Proof.
  intros Hi. unfold withdrawValidatorCommission. wpb. apply wp_GetValInfo. intros vi Hvi. wpb. apply wp_GetWithdrawContext. intros wc Hwc. wpb.
  apply wp_lift. intros [[vi' fp'] w] Ht%WithdrawCommission_taken. destruct (taken_sorted _ _ v Hi _ _ _ _ _ Hwc Hvi Ht) as (Hs1&Hs2&_&Ea). wpb.
  eapply (wp_SetValInfo _ _ g); [done|done|]. intros Hi1. wps. split; [done|]. eapply dinv_ext; [|exact Hi1]. simpl. unfold put_vi. rewrite dst_put. simpl.
  rewrite Ea, (at_val_info _ _ _ Hvi), Hwc. simpl. pose proof (tn_amt _ _ _ _ _ Ht IrisAtto). lia.
Qed.
Lemma wp_pay_commission ctx v d g s :
  dinv g s → d ≠ BurnedCoinsAccAddr →
  wp (r <- withdrawValidatorCommission ctx v ;; let '(fp, commission) := r in
      lift (DecCoins_TruncateDecimal commission) ;;; WithdrawToDelegator fp d commission) (λ _, dinv g) s.
Proof.
  intros Hi Hd. wpb. eapply wp_mono; [by apply wp_commission|]. intros [fp w] s1 [Hs Hi1]. simpl in *. wps.
  eapply wp_mono; [by apply (wp_ToDelegator _ _ _ _ _ Hi1)|]. intros [] s2 Hi2. eapply dinv_ext; [|exact Hi2]. lia.
Qed.
Lemma wp_withdraw_delegations ctx d l w g s :
  dinv (g + damt w IrisAtto) s → wp (withdraw_delegations ctx d l w) (λ r, dinv (g + damt r IrisAtto)) s.
Proof.
  revert w s. induction l as [|x l IH]; intros w s Hi; cbn [withdraw_delegations]; [by wps|]. wpb. apply wp_withdraw.
  intros fp0 vi0 di0 fp vi di w' Hfp Hvi Hdi Hw. wps. eapply wp_mono; [by eapply wp_store|]. intros [] s1 [Hi1 _]. wps. apply IH.
  eapply dinv_ext; [|exact Hi1]. rewrite (Plus_amt _ _ _ _ Hx). lia.
Qed.
Lemma wp_must_hook {A} (c : M (StakeState X) A) (Q : StakeState X → Prop) s : wp c (λ _, Q) s → wp (must_hook c) (λ _, Q) s.
Proof. intros Hc [] s'. unfold must_hook. destruct (c s) as [[a|e|w] s1] eqn:E; intros [= <-]. exact (Hc _ _ E). Qed.

(** ** Hooks *)
Lemma wp_onValidatorModified ctx v g s : dinv g s → wp (onValidatorModified ctx v) (λ _, dinv g) s.
Proof. intros Hi. unfold onValidatorModified. case_match; [|by wps]. apply wp_must_hook. by apply wp_takeValidatorFeePoolRewards. Qed.
Lemma wp_onValidatorBonded ctx v g s : dinv g s → wp (onValidatorBonded ctx v) (λ _, dinv g) s.
Proof. intros Hi. unfold onValidatorBonded, GetLastValidatorPower. wps. apply wp_expect. intros _. by apply wp_onValidatorModified. Qed.
Lemma wp_onValidatorPowerDidChange ctx v g s : dinv g s → wp (onValidatorPowerDidChange ctx v) (λ _, dinv g) s.
Proof. intros Hi. unfold onValidatorPowerDidChange. wpb. apply wp_GetValInfo. intros vi _. by apply wp_expect. Qed.
(** A record that is there is overwritten: what it held is lost. *)
Lemma wp_onValidatorCreated ctx v g s :
  dinv g s → wp (onValidatorCreated ctx v) (λ _, dinv (g + at_key (λ vi, vi_amt vi IrisAtto) (valInfos (dst s)) v)) s.
Proof.
  intros Hi. unfold onValidatorCreated. eapply (wp_SetValInfo _ _ g); [done|by repeat constructor|]. intros Hi1. eapply dinv_ext; [|exact Hi1].
  unfold vi_amt. simpl. change (damt [] IrisAtto) with 0. lia.
Qed.
Lemma wp_onValidatorRemoved v g s :
  dinv g s → wp (onValidatorRemoved v) (λ _, dinv (g + at_key (λ vi, vi_amt vi IrisAtto) (valInfos (dst s)) v)) s.
Proof.
  intros Hi. unfold onValidatorRemoved. apply wp_distr. unfold RemoveValidatorDistInfo, GetValidatorDistInfo. wps. apply wp_must_some. intros vi Hvi. wpb.
  apply wp_expect. intros _. wpb. apply wp_expect. intros _. wps. eapply dinv_ext; [|apply dinv_put; [exact Hi|]].
  - unfold held_distr. simpl. rewrite (map_sum_delete _ _ _ _ Hvi), (at_val_info _ _ _ Hvi). lia.
  - destruct (di_ok _ _ Hi). split; try done. simpl. intros a w [_ Hw]%lookup_delete_Some. auto.
Qed.
Lemma wp_hook_created ctx d v g s : dinv g s → good_signer d → wp (hook_DelegationCreated ctx d v) (λ _, dinv g) s.
Proof.
  intros Hi Hd. unfold hook_DelegationCreated, onDelegationCreated. wpb. eapply wp_mono; [by apply wp_onValidatorModified|]. intros [] s1 Hi1.
  by eapply (wp_SetDelInfo _ _ g).
Qed.
Lemma wp_hook_modified ctx d v g s : dinv g s → wp (hook_DelegationSharesModified ctx d v) (λ _, dinv g) s.
Proof.
  intros Hi. unfold hook_DelegationSharesModified, onDelegationSharesModified. wpb. eapply wp_mono; [by apply wp_onValidatorModified|]. intros [] s1 Hi1.
  apply wp_must_hook. by apply wp_WithdrawDelegationReward.
Qed.
Lemma wp_hook_removed ctx d v g s : dinv g s → good_signer d → wp (onDelegationRemoved ctx d v) (λ _, dinv g) s.
Proof.
  intros Hi [_ Hd]. unfold onDelegationRemoved. wpb. eapply (wp_mono _ (λ _, dinv g)).
  { case_bool_decide; [by apply wp_pay_commission|by wps]. }
  intros [] s1 Hi1. cbv beta in Hi1. apply wp_distr. unfold RemoveDelegationDistInfo. wps. eapply dinv_ext; [|apply dinv_put; [exact Hi1|]].
  - unfold held_distr. simpl. lia.
  - destruct (di_ok _ _ Hi1). split; try done. simpl. intros a w [_ Hw]%lookup_delete_Some. auto.
Qed.

(** ** Allocation and messages *)
Lemma wp_ignore_add a c (Q : unit → StakeState X → Prop) g s :
  dinv g s → a ≠ BurnedCoinsAccAddr → (∀ au, dinv (g - amt c IrisAtto * P) (set_auth au s) → Q tt (set_auth au s)) → wp (on_auth (ignore_err (addCoins a c))) Q s.
Proof.
  intros Hi Ha HQ. apply wp_zoom. intros [] au. unfold ignore_err. destruct (addCoins a c (st_auth s)) as [[r|e|w] a1] eqn:E; intros [= <-].
  - apply HQ. by eapply dinv_add.
  - by apply addCoins_no_err in E.
Qed.
Lemma wp_read_coins a (Q : Coins → StakeState X → Prop) g s :
  dinv g s → (∀ c gas, dinv g (set_auth (set_gas gas (st_auth s)) s) → Q c (set_auth (set_gas gas (st_auth s)) s)) → wp (on_auth (getCoins a)) Q s.
Proof.
  intros [] HQ. apply wp_zoom. intros c au Hc. apply getCoins_ok in Hc as [[gas ->] _]. apply HQ. split; try done. by apply auth_wf_gas.
Qed.
Lemma wp_fees_gets (Q : Coins → StakeState X → Prop) s : Q (fees_of (fst_ s)) s → wp (on_fees GetCollectedFees) Q s.
Proof.
  intros HQ. apply wp_zoom. intros c f [= <- <-]. unfold fst_ in HQ. rewrite set_part_same. by destruct s.
Qed.
Lemma wp_ClearFees (Q : unit → StakeState X → Prop) g s :
  dinv g s → (∀ s', dinv (g + amt (fees_of (fst_ s)) IrisAtto * P) s' → Q tt s') → wp (on_fees ClearCollectedFees) Q s.
Proof.
  intros [] HQ. apply wp_zoom. intros [] f [= <-]. apply HQ. split; try done.
  - unfold dst. simpl. by rewrite apart.
  - unfold fst_. simpl. rewrite part_set. constructor.
  - unfold gap, dheld, fst_ in *. simpl. rewrite apart, part_set. unfold fees_of at 1. simpl. lia.
Qed.
Lemma wp_AllocateTokens p c g s : dinv g s → wp (AllocateTokens p c) (λ _, dinv g) s.
Proof.
  intros Hi. unfold AllocateTokens. wpb. unfold GetValidatorByConsAddr. wps. eapply (wp_mono _ (λ _ s', s' = s)).
  { destruct (byConsAddr s !! c); [|by wps]. apply wp_GetValidator; done. }
  intros f s0 ->. wpb. apply wp_must_some. intros v _. wpb. apply wp_GetValInfo. intros vi Hvi. wpb. apply wp_fees_gets. wpb. apply wp_lift. intros fees Hfees.
  apply NewDecCoins_ok in Hfees as [Hfa Hfd]. wpb. apply wp_GetFeePool. intros fp Hfp. unfold GetLastTotalPower. wps.
  assert (dsorted fees) as Hfs.
  { pose proof (di_fees _ _ Hi) as Hs. revert Hs Hfd. clear. generalize (fees_of (fst_ s)) as l. intros l. revert fees. unfold sorted, dsorted.
    induction l as [|x l IH]; intros [|y r]; try done; [constructor|]. intros [Hl Hall]%StronglySorted_inv [= Hy Hr]. constructor; [by apply IH|].
    apply Forall_forall. intros z Hz. assert (dc_Denom z ∈ map denom l) as (w&->&Hw)%list_elem_of_fmap by (rewrite <-Hr; by apply list_elem_of_fmap_2).
    rewrite Hy. by eapply Forall_forall in Hall. }
  destruct (Int_IsZero _).
  { wpb. eapply (wp_ignore_add _ _ _ g); [done|apply community_not_burned|]. intros au Hi1. eapply wp_ClearFees; [exact Hi1|]. intros s' Hi2.
    eapply dinv_ext; [|exact Hi2]. unfold fst_. simpl. lia. }
  unfold stake_Validator. wpb. apply wp_GetValidator; intros; apply wp_must_some; intros v' [= <-]. wpb. apply wp_distr_gets. wpb.
  eapply (wp_mono _ (λ R s', dsorted R ∧ dinv (g - damt R IrisAtto) s' ∧ fst_ s' = fst_ s ∧ feePool (dst s') = Some fp)).
  { destruct (v_Jailed _); [wps; split_and!; [constructor|eapply dinv_ext; [|done]; change (damt [] IrisAtto) with 0; lia|done..]|].
    wps. destruct (do_vals _ (di_ok _ _ Hi) _ _ Hvi) as [Ea [Hs1 Hs2]].
    pose proof (sorted_denoms _ _ (MulDec_denoms _ _ _ Hx1) Hfs) as Hrs. pose proof (sorted_denoms _ _ (MulDec_denoms _ _ _ Hx2) Hrs) as Hcs.
    eapply (wp_SetValInfo _ _ g); [done| |].
    { split; simpl; [|by eapply Plus_sorted]. eapply Plus_sorted; [done|done|]. by eapply Minus_sorted. }
    intros Hi1. wps. split_and!; [done| |apply fst_put|unfold put_vi; by rewrite dst_put]. eapply dinv_ext; [|exact Hi1]. simpl.
    rewrite Ea, (at_val_info _ _ _ Hvi). unfold vi_amt. simpl. rewrite (Plus_amt _ _ _ _ Hx4), (Plus_amt _ _ _ _ Hx5), (Minus_amt _ _ _ _ Hx3). lia. }
  intros R s1 (HR&Hi1&Ef&Efp). wps. destruct x0 as [out change]. destruct (TruncateDecimal_ok _ _ _ Hx0) as (Hta&_&_&Htc).
  pose proof (sorted_denoms _ _ (MulDec_denoms _ _ _ Hx) Hfs) as Hcs. wpb.
  eapply wp_ignore_add; [exact Hi1|apply community_not_burned|]. intros au Hi2. wpb. eapply wp_read_coins; [exact Hi2|]. intros coins gas Hi3. wps.
  inv_ok Hx1. wpb. eapply wp_SetFeePool; [exact Hi3| |].
  { simpl. eapply Plus_sorted; [done|by apply (do_pool _ (di_ok _ _ Hi))|]. eapply Plus_sorted; [exact Hx1| |done]. eapply Minus_sorted; [done| |done]. by eapply Minus_sorted. }
  intros Hi4. eapply wp_ClearFees; [exact Hi4|]. intros s5 Hi5. eapply dinv_ext; [|exact Hi5]. rewrite fst_put.
  change (fst_ (set_auth ?x (set_auth au s1))) with (fst_ s1). change (dst (set_auth ?x (set_auth au s1))) with (dst s1). rewrite Efp, Ef. simpl.
  rewrite (Plus_amt _ _ _ _ Hx2), (Plus_amt _ _ _ _ Hx1), (Minus_amt _ _ _ _ E0), (Minus_amt _ _ _ _ E), Hfa. specialize (Hta IrisAtto). lia.
Qed.
Lemma wp_BeginBlocker ctx votes p g s : dinv g s → wp (BeginBlocker ctx votes p) (λ _, dinv g) s.
Proof.
  intros Hi. unfold BeginBlocker. wpb. eapply (wp_mono _ (λ _, dinv g)).
  { case_match; [|by wps]. wps. apply wp_distr. unfold GetPreviousProposerConsAddr. wps. apply wp_must_some. intros a _. rewrite put_same. by apply wp_AllocateTokens. }
  intros [] s1 Hi1. cbv beta in Hi1. apply wp_distr. unfold SetPreviousProposerConsAddr. wps. eapply dinv_ext; [|apply dinv_put; [exact Hi1|by destruct (di_ok _ _ Hi1)]].
  unfold held_distr. simpl. lia.
Qed.
(** Somebody can have the keys of the signer of a message, and the coins of a withdrawal
    do not go to the address of burned coins.  There [addCoins] burns the coins of
    an array that [removeZeroCoins] has shifted, and the recorded loose tokens
    would not go down by what was withdrawn. *)
Definition good_distr_msg (m : DistrMsg) : Prop :=
  Forall good_signer (DistrMsg_GetSigners m) ∧ match m with SetWithdrawAddress_ m => sw_WithdrawAddr m ≠ BurnedCoinsAccAddr | _ => True end.
Lemma wp_distr_Handler ctx msg g s : dinv g s → good_distr_msg msg → wp (distr_Handler ctx msg) (λ _, dinv g) s.
Proof.
  intros Hi [Hg Hm]. assert (∀ w, dinv g w → dinv (g + damt [] IrisAtto) w) as H0' by (intros w; apply dinv_ext; change (damt [] IrisAtto) with 0; lia).
  destruct msg as [m|d|m|v]; cbn [distr_Handler]; simpl in Hg; apply Forall_cons in Hg as [[_ Hg] _].
  - apply wp_distr. unfold SetDelegatorWithdrawAddr. wps. eapply dinv_ext; [|apply dinv_put; [exact Hi|]]; [unfold held_distr; simpl; lia|].
    destruct (di_ok _ _ Hi). split; try done. simpl. intros d a [[_ <-]|[_ Ha]]%lookup_insert_Some; [done|eauto].
  - unfold WithdrawDelegationRewardsAll, withdrawDelegationRewardsAll. wps. eapply wp_mono; [by apply (wp_withdraw_delegations _ _ _ _ g), H0'|].
    intros w s1 Hi1. cbv beta in Hi1. wpb. apply wp_GetFeePool. intros fp Hfp. wpb.
    eapply wp_mono; [by apply (wp_ToDelegator _ _ _ _ _ Hi1); [apply (do_pool _ (di_ok _ _ Hi1))|]|]. intros [] s2 Hi2. cbv beta in Hi2. wps.
    eapply dinv_ext; [|exact Hi2]. rewrite Hfp. simpl. lia.
  - wpb. eapply wp_mono; [by apply wp_WithdrawDelegationReward|]. intros w s1 Hi1. by wps.
  - unfold WithdrawValidatorRewardsAll, HasValidatorDistInfo, withdrawDelegationRewardsAll. wpb. apply wp_distr_gets. wps.
    eapply wp_mono; [by apply (wp_withdraw_delegations _ _ _ _ g), H0'|]. intros w s1 Hi1. cbv beta in Hi1. wpb.
    eapply wp_mono; [by apply wp_commission|]. intros [fp w'] s2 [Hs Hi2]. simpl in *. wps.
    eapply wp_mono; [by apply (wp_ToDelegator _ _ _ _ _ Hi2)|]. intros [] s3 Hi3. cbv beta in Hi3. wps. eapply dinv_ext; [|exact Hi3].
    rewrite (Plus_amt _ _ _ _ Hx). lia.
Qed.
End ledger.
End DistrFacts.
