(* ===== verification/Chain.v ===== *)
(** * Staking, distribution and slashing together (app/v2/protocol_v2.go)

    The hooks of staking are those of distribution and slashing.  They meet what
    staking expects of hooks, and every step of the three modules is a run of
    staking, so that the theorems of staking hold of the chain. *)

From S2P Require Import Prelude SdkErrors Frame IntType GoStrings Denom Coin CoinFacts Dec TimeBytes Gas KVStore Auth StdTx Bank BankFacts BankFrame Mint StakeTypes Stake StakeFacts StakeInv StakeFrame StakeSlash StakeSet StakeApply StakeDue StakeThms StakeSteps Slashing DistrTypes Distr DistrFacts.
#[local] Open Scope Z_scope.

Module Chain.
Import StakeTypes Stake StakeFacts StakeQueue StakeInv StakeFrame StakeOps StakeSlash StakeSet StakeApply StakeDue StakeChecks StakeThms StakeSteps DistrTypes DistrFacts.

(** ** The stores beside staking

    [written_off] is no store: it records the native tokens in the distribution
    records that are dropped, for the accounts; nothing reads it. *)
Record Others := mkOthers {
  o_slash : Slashing.SlashState; o_distr : Distr.DistrState; o_fees : FeeStore;
  o_minter : option Mint.Minter; o_mint_params : Mint.Params; written_off : Z }.
#[export] Instance slash_part : Part Others Slashing.SlashState :=
  {| part := o_slash; set_part a x := mkOthers a (o_distr x) (o_fees x) (o_minter x) (o_mint_params x) (written_off x) |}.
#[export] Instance distr_part : Part Others Distr.DistrState :=
  {| part := o_distr; set_part a x := mkOthers (o_slash x) a (o_fees x) (o_minter x) (o_mint_params x) (written_off x) |}.
#[export] Instance fees_part : Part Others FeeStore :=
  {| part := o_fees; set_part a x := mkOthers (o_slash x) (o_distr x) a (o_minter x) (o_mint_params x) (written_off x) |}.
#[export] Instance distr_part_laws : PartLaws Others Distr.DistrState.
Proof. by split; [done|done|intros []]. Qed.
#[export] Instance fees_part_laws : PartLaws Others FeeStore.
Proof. by split; [done|done|intros []]. Qed.
#[export] Instance distr_fees_apart : Apart Others Distr.DistrState FeeStore.
Proof. done. Qed.
#[export] Instance fees_distr_apart : Apart Others FeeStore Distr.DistrState.
Proof. done. Qed.
Abbreviation ChainState := (StakeState Others).

(** ** The combined hooks *)
Section hooks.
Context `{Crypto, ConsCrypto}.
Abbreviation CM := (M ChainState).
Definition record_amt (s : ChainState) (v : ValAddress) : Z := at_key (λ vi, vi_amt vi IrisAtto) (Distr.valInfos (o_distr (st_other s))) v.
Definition write_off (n : Z) (s : ChainState) : ChainState :=
  let x := st_other s in
  set_other (mkOthers (o_slash x) (o_distr x) (o_fees x) (o_minter x) (o_mint_params x) (written_off x + n)) s.
(** The record of [v] that [c] drops is written off. *)
Definition dropping (v : ValAddress) (c : CM unit) : CM unit :=
  n <- gets (λ s, record_amt s v) ;; c ;;; modify (write_off n).
#[export] Instance chain_hooks : StakingHooks Others := {|
  OnValidatorCreated ctx v := dropping v (Distr.onValidatorCreated ctx v) ;;; Slashing.onValidatorCreated v;
  OnValidatorModified ctx v := Distr.onValidatorModified ctx v;
  OnValidatorRemoved ctx c v := dropping v (Distr.onValidatorRemoved v) ;;; Slashing.onValidatorRemoved c;
  OnValidatorBonded ctx c v := Distr.onValidatorBonded ctx v ;;; Slashing.onValidatorBonded ctx c;
  OnValidatorBeginUnbonding ctx c v := Distr.onValidatorModified ctx v ;;; Slashing.onValidatorBeginUnbonding ctx c;
  OnValidatorPowerDidChange ctx c v := Distr.onValidatorPowerDidChange ctx v;
  OnDelegationCreated ctx d v := Distr.hook_DelegationCreated ctx d v;
  OnDelegationSharesModified ctx d v := Distr.hook_DelegationSharesModified ctx d v;
  OnDelegationRemoved ctx d v := Distr.onDelegationRemoved ctx d v |}.
End hooks.

(** ** They meet the laws *)
Section laws.
Context `{Crypto, !AddressLaws, ConsCrypto}.
Abbreviation CM := (M ChainState).
Implicit Types s : ChainState.
Definition chain_held (x : Others) : Z := dheld x + written_off x.
Definition minter_ok (m : option Mint.Minter) : Prop := ∀ m', m = Some m' → Mint.MintDenom m' = IrisAtto.
Definition chain_ok (x : Others) : Prop := distr_ok (o_distr x) ∧ sorted (fees_of (o_fees x)) ∧ minter_ok (o_minter x).
Definition cinv (g : Z) s : Prop := dinv (g + written_off (st_other s)) s ∧ minter_ok (o_minter (st_other s)).
Lemma cinv_kept s a x g :
  gap chain_held (st_auth s) (st_other s) = g → cinv g (set_other x (set_auth a s)) → kept chain_held chain_ok (st_auth s) (st_other s) a x.
Proof. intros <- [[D1 D2 D3 D4 D5] Hm]. split; [done|done|done|]. unfold gap, chain_held in *. simpl in *. lia. Qed.
Lemma cinv_start s :
  auth_wf (st_auth s) → loose_ok (st_auth s) → chain_ok (st_other s) → cinv (gap chain_held (st_auth s) (st_other s)) s.
Proof. intros Hw Hl (Ho&Hf&Hm). split; [|done]. split; try done. unfold gap, chain_held. simpl. lia. Qed.
Lemma outside_intro (called : Prop) {A} (c : CM A) :
  keeps beside c → (∀ g s, called → cinv g s → wp c (λ _, cinv g) s) → outside chain_held chain_ok called c.
Proof.
  intros Hk Hc s r s' Hr. destruct (Hk s _ _ Hr) as (a&x&->). exists a, x. split; [done|]. intros Hcall Hw Hl Ho.
  eapply (cinv_kept s a x); [done|]. eapply Hc; [done|by apply cinv_start|exact Hr].
Qed.
(** Distribution writes nothing off and has nothing to do with the minter. *)
Definition same_books s s' : Prop := written_off (st_other s') = written_off (st_other s) ∧ o_minter (st_other s') = o_minter (st_other s).
#[global] Instance same_books_po : PreOrder same_books.
Proof. split; [done|]. unfold same_books. intros s1 s2 s3 [? ?] [? ?]. split; congruence. Qed.
Lemma books_closed : distr_closed same_books.
Proof. done. Qed.
Lemma cinv_distr {A} (c : CM A) g s :
  keeps same_books c → (∀ h, dinv h s → wp c (λ _, dinv h) s) → cinv g s → wp c (λ _, cinv g) s.
Proof. intros Hk Hc [Hi Hm] r s' Hr. unfold cinv. destruct (Hk _ _ _ Hr) as [-> ->]. split; [by eapply Hc|done]. Qed.
Lemma cinv_slash {A} (c : M Slashing.SlashState A) g s : cinv g s → wp (Slashing.on_slash c) (λ _, cinv g) s.
Proof. intros [[] Hm]. apply wp_zoom. intros r t _. by split. Qed.
Lemma cinv_dropping v (c : CM unit) g s :
  keeps same_books c → (∀ h, dinv h s → wp c (λ _, dinv (h + record_amt s v)) s) → cinv g s → wp (dropping v c) (λ _, cinv g) s.
Proof.
  intros Hk Hc [Hi Hm]. unfold dropping. wps. intros [] s' Hr. apply wp_modify. destruct (Hk _ _ _ Hr) as [Ew Em]. specialize (Hc _ Hi _ _ Hr). cbv beta in Hc.
  destruct Hc as [D1 D2 D3 D4 D5]. split; [|simpl; by rewrite Em]. split; [done|done|done|done|]. simpl. rewrite Ew.
  unfold gap, dheld in *. simpl in *. lia.
Qed.
Lemma beside_write_off n : keeps beside (modify (write_off n)).
Proof. apply keeps_modify. intros s. exists (st_auth s). eexists. unfold write_off. by destruct s. Qed.
Lemma beside_dropping v (c : CM unit) : keeps beside c → keeps beside (dropping v c).
Proof. intros Hc. unfold dropping. pose proof beside_write_off as Hw. keeps; auto. Qed.
Lemma beside_slash {A} (c : M Slashing.SlashState A) : keeps beside (Slashing.on_slash (X := Others) c).
Proof. apply keeps_zoom. intros s t. apply beside_part. Qed.
#[local] Hint Extern 1 (keeps _ (GetValidatorByConsAddr _)) => (apply B_ByCons; apply _) : keeps.
#[local] Hint Extern 1 (keeps _ (GetValidator _)) => (apply B_GetValidator; apply _) : keeps.
#[local] Hint Resolve beside_slash beside_dropping : keeps.
Lemma beside_SetInfo a i : keeps beside (Slashing.SetValidatorSigningInfo (X := Others) a i).
Proof. unfold Slashing.SetValidatorSigningInfo. keeps. Qed.
#[local] Hint Resolve beside_SetInfo : keeps.
Lemma beside_slash_created v : keeps beside (Slashing.onValidatorCreated (X := Others) v).
Proof. unfold Slashing.onValidatorCreated. keeps. Qed.
Lemma beside_slash_bonded ctx c : keeps beside (Slashing.onValidatorBonded (X := Others) ctx c).
Proof. unfold Slashing.onValidatorBonded. keeps. Qed.
Lemma beside_slash_unbonding ctx c : keeps beside (Slashing.onValidatorBeginUnbonding (X := Others) ctx c).
Proof. unfold Slashing.onValidatorBeginUnbonding. keeps. Qed.
Lemma beside_slash_removed c : keeps beside (Slashing.onValidatorRemoved (X := Others) c).
Proof. unfold Slashing.onValidatorRemoved. keeps. Qed.
#[local] Hint Resolve beside_slash_created beside_slash_bonded beside_slash_unbonding beside_slash_removed : keeps.
#[local] Hint Extern 1 (keeps beside (Distr.on_distr _)) => (apply (B_distr beside beside_closed)) : keeps.
#[local] Hint Extern 1 (keeps beside (Distr.onValidatorModified _ _)) => (apply (B_modified beside beside_closed)) : keeps.
#[local] Hint Extern 1 (keeps beside (Distr.onValidatorBonded _ _)) => (apply (B_bonded beside beside_closed)) : keeps.

(** The slashing hooks are no concern of the pools. *)
Lemma cinv_SetInfo a i g s : cinv g s → wp (Slashing.SetValidatorSigningInfo a i) (λ _, cinv g) s.
Proof.
  intros Hi. unfold Slashing.SetValidatorSigningInfo. wpb. eapply (wp_mono _ (λ _ s', s' = s)); [|intros o s' ->; by apply cinv_slash].
  unfold GetValidatorByConsAddr. wps. destruct (byConsAddr s !! a); [|by wps]. by apply wp_GetValidator.
Qed.
Lemma cinv_slash_created v g s : cinv g s → wp (Slashing.onValidatorCreated v) (λ _, cinv g) s.
Proof. intros Hi. unfold Slashing.onValidatorCreated. wpb. apply wp_GetValidator; intros; [wps|by apply cinv_slash]. Qed.
Lemma cinv_slash_bonded ctx c g s : cinv g s → wp (Slashing.onValidatorBonded ctx c) (λ _, cinv g) s.
Proof.
  intros Hi. unfold Slashing.onValidatorBonded. wpb. eapply wp_mono; [by apply cinv_slash|]. intros f s1 Hi1. cbv beta in Hi1. wpb.
  eapply (wp_mono _ (λ _, cinv g)); [destruct f; [by wps|by apply cinv_SetInfo]|]. intros [] s2 Hi2. by apply cinv_slash.
Qed.
Lemma cinv_slash_unbonding ctx c g s : cinv g s → wp (Slashing.onValidatorBeginUnbonding ctx c) (λ _, cinv g) s.
Proof.
  intros Hi. unfold Slashing.onValidatorBeginUnbonding. wpb. eapply wp_mono; [by apply cinv_slash|]. intros f s1 Hi1. by apply cinv_slash.
Qed.
#[export] Instance chain_laws : HookLaws Others.
Proof.
  exists chain_held chain_ok; intros; apply outside_intro; cbn [chain_hooks OnValidatorCreated OnValidatorModified OnValidatorRemoved OnValidatorBonded
    OnValidatorBeginUnbonding OnValidatorPowerDidChange OnDelegationCreated OnDelegationSharesModified OnDelegationRemoved].
  - unfold Distr.onValidatorCreated. keeps.
  - intros g s _ Hi. wpb. eapply wp_mono; [eapply cinv_dropping; [by apply (B_distr same_books)| |done]|].
    { intros h Hh. exact (wp_onValidatorCreated ctx v h s Hh). }
    intros [] s1 Hi1. by apply cinv_slash_created.
  - keeps.
  - intros g s _ Hi. eapply cinv_distr; [by apply (B_modified same_books)| |done]. intros h Hh. by apply wp_onValidatorModified.
  - unfold Distr.onValidatorRemoved. keeps.
  - intros g s _ Hi. wpb. eapply wp_mono; [eapply cinv_dropping; [by apply (B_distr same_books)| |done]|].
    { intros h Hh. exact (wp_onValidatorRemoved v h s Hh). }
    intros [] s1 Hi1. by apply cinv_slash.
  - keeps.
  - intros g s _ Hi. wpb. eapply wp_mono; [eapply cinv_distr; [by apply (B_bonded same_books)| |done]|].
    { intros h Hh. by apply wp_onValidatorBonded. }
    intros [] s1 Hi1. by apply cinv_slash_bonded.
  - keeps.
  - intros g s _ Hi. wpb. eapply wp_mono; [eapply cinv_distr; [by apply (B_modified same_books)| |done]|].
    { intros h Hh. by apply wp_onValidatorModified. }
    intros [] s1 Hi1. by apply cinv_slash_unbonding.
  - apply (B_power beside beside_closed).
  - intros g s _ Hi. eapply cinv_distr; [by apply (B_power same_books)| |done]. intros h Hh. by apply wp_onValidatorPowerDidChange.
  - apply (B_del_created beside beside_closed).
  - intros g s Hd Hi. eapply cinv_distr; [by apply (B_del_created same_books)| |done]. intros h Hh. by apply wp_hook_created.
  - apply (B_del_modified beside beside_closed).
  - intros g s Hd Hi. eapply cinv_distr; [by apply (B_del_modified same_books)| |done]. intros h Hh. by apply wp_hook_modified.
  - apply (B_del_removed beside beside_closed).
  - intros g s Hd Hi. eapply cinv_distr; [by apply (B_del_removed same_books)| |done]. intros h Hh. by apply wp_hook_removed.
Defined.
End laws.

(** ** Begin of a block

    The first part of the application's: inflation, distribution and slashing. *)
Section blocks.
Context `{Crypto, ConsCrypto}.
Abbreviation CM := (M ChainState).
Definition on_mint {A} (c : M Mint.MintState A) : CM A :=
  zoom (λ s, Mint.mkMint (mkTxState (st_auth s) (o_fees (st_other s))) (o_minter (st_other s)) (o_mint_params (st_other s)))
    (λ m s, set_other (mkOthers (o_slash (st_other s)) (o_distr (st_other s)) (ts_fee (Mint.mt_tx m)) (Mint.mt_minter m) (Mint.mt_params m)
                         (written_off (st_other s))) (set_auth (ts_auth (Mint.mt_tx m)) s)) c.
Definition vote_of (v : Slashing.VoteInfo) : Z * bool := (Slashing.vote_Power v, Slashing.vote_Signed v).
Definition BeginBlocker (ctx : Ctx) (votes : list Slashing.VoteInfo) (byzantine : list Slashing.Evidence) (proposer : ConsAddress) : CM unit :=
  on_mint (Mint.BeginBlocker (BlockHeight ctx) (BlockTime ctx)) ;;;
  Distr.BeginBlocker ctx (vote_of <$> votes) proposer ;;;
  Slashing.BeginBlocker ctx votes byzantine.
End blocks.

(** ** Steps

    A message, the begin of a block, the two parts of its end, a change of
    parameters, or a change of accounts and fees by another module.  The last is
    assumed to account for the tokens it moves; it does not change the stores of
    the three modules, nor what was written off. *)
Section steps.
Context `{Crypto, !AddressLaws, ConsCrypto}.
Abbreviation CM := (M ChainState).
Implicit Types s : ChainState.
Inductive chain_step : gmap ConsKey Z * ChainState → gmap ConsKey Z * ChainState → Prop :=
| chain_stake ctx msg m s s' :
    StakeMsg_ValidateBasic msg = Ok tt → Forall good_signer (StakeMsg_GetSigners msg) → timely ctx s →
    stake_Handler ctx msg s = (Ok tt, s') → chain_step (m, s) (m, s')
| chain_distr ctx msg m s s' :
    good_distr_msg msg → Distr.distr_Handler ctx msg s = (Ok tt, s') → chain_step (m, s) (m, s')
| chain_unjail ctx msg m s s' :
    Slashing.handleMsgUnjail ctx msg s = (Ok tt, s') → chain_step (m, s) (m, s')
| chain_begin ctx votes byzantine proposer m s s' :
    NoDup (Slashing.vote_Address <$> votes) → Forall (λ v, is_addr (Slashing.vote_Address v)) votes →
    BeginBlocker ctx votes byzantine proposer s = (Ok tt, s') → chain_step (m, s) (m, s')
| chain_censor ctx validTxs numTxs proposer m s s' :
    Slashing.EndBlocker ctx validTxs numTxs proposer s = (Ok tt, s') → chain_step (m, s) (m, s')
| chain_end ctx updates m s s' :
    in_calendar (BlockTime ctx) → EndBlocker ctx s = (Ok updates, s') →
    chain_step (m, s) (foldl tm_update m updates, s')
| chain_params p m s : 0 ≤ MaxValidators p → chain_step (m, s) (m, set_params p s)
| chain_slash_params p m s : chain_step (m, s) (m, set_other (set_part (Slashing.with_params p (o_slash (st_other s))) (st_other s)) s)
| chain_distr_params p m s : chain_step (m, s) (m, set_other (set_part (Distr.set_dparams p (o_distr (st_other s))) (st_other s)) s)
| chain_rest a x m s :
    kept chain_held chain_ok (st_auth s) (st_other s) a x → o_slash x = o_slash (st_other s) → o_distr x = o_distr (st_other s) →
    written_off x = written_off (st_other s) → chain_step (m, s) (m, set_other x (set_auth a s)).

Definition runs s s' : Prop := ∀ m, stake_ok m s → rtc stake_step (m, s) (m, s').
Lemma steps_ok x y : rtc (stake_step (X := Others)) x y → stake_ok x.1 x.2 → stake_ok y.1 y.2.
Proof. induction 1 as [|x z y Hx Hr IH]; [done|]. intros Hok. apply IH. destruct x, z. by eapply stake_step_ok. Qed.
#[global] Instance runs_po : PreOrder runs.
Proof.
  split; [by intros s m|]. intros s1 s2 s3 Ha Hb m Hok. etrans; [by apply Ha|]. apply Hb. by apply (steps_ok (m, s1) (m, s2)); [apply Ha|].
Qed.
Lemma runs_step s s' : (∀ m, stake_ok m s → stake_step (m, s) (m, s')) → runs s s'.
Proof. intros Hs m Hok. by apply rtc_once, Hs. Qed.
Lemma runs_cinv {A} (c : CM A) s :
  keeps beside c → (∀ g, cinv g s → wp c (λ _, cinv g) s) → wp c (λ _, runs s) s.
Proof.
  intros Hk Hc r s' Hr m Hok. apply rtc_once. destruct (Hk s _ _ Hr) as (a&x&->). apply step_others.
  pose proof (ok_inv _ _ Hok) as Hi. eapply (cinv_kept s a x); [done|]. eapply Hc; [|exact Hr]. by apply cinv_start; apply Hi.
Qed.
Lemma runs_slash {A} (c : M Slashing.SlashState A) : keeps runs (Slashing.on_slash (X := Others) c).
Proof. intros s. apply runs_cinv; [apply beside_slash|]. intros g. apply cinv_slash. Qed.
Lemma runs_Slash ctx c h p f : keeps runs (Slash ctx c h p f).
Proof. intros s [] s' Hr. apply runs_step. intros m _. by eapply step_slash. Qed.
Lemma runs_Jail c : keeps runs (Jail c).
Proof. intros s [] s' Hr. apply runs_step. intros m _. by eapply step_jail. Qed.
Lemma runs_Unjail c : keeps runs (Unjail c).
Proof. intros s [] s' Hr. apply runs_step. intros m _. by eapply step_unjail. Qed.
#[local] Hint Extern 1 (keeps _ (GetValidatorByConsAddr _)) => (apply B_ByCons; apply _) : keeps.
#[local] Hint Extern 1 (keeps _ (GetValidator _)) => (apply B_GetValidator; apply _) : keeps.
#[local] Hint Extern 1 (keeps _ (GetDelegation _ _)) => (apply B_GetDelegation; apply _) : keeps.
#[local] Hint Resolve runs_slash runs_Slash runs_Jail runs_Unjail : keeps.
Lemma runs_expect b w : keeps runs (expect b w).
Proof. unfold expect. keeps. Qed.
Lemma runs_SetInfo a i : keeps runs (Slashing.SetValidatorSigningInfo (X := Others) a i).
Proof. unfold Slashing.SetValidatorSigningInfo. keeps. Qed.
#[local] Hint Resolve runs_expect runs_SetInfo : keeps.
Lemma runs_pubkey a : keeps runs (Slashing.must_getPubkey (X := Others) a).
Proof. unfold Slashing.must_getPubkey. keeps. Qed.
Lemma runs_info a : keeps runs (Slashing.must_SigningInfo (X := Others) a).
Proof. unfold Slashing.must_SigningInfo. keeps. Qed.
#[local] Hint Resolve runs_pubkey runs_info : keeps.
Lemma runs_jail_until a n : keeps runs (Slashing.jail_until (X := Others) a n).
Proof. unfold Slashing.jail_until. keeps. Qed.
#[local] Hint Resolve runs_jail_until : keeps.
Lemma runs_signature ctx a p b : keeps runs (Slashing.handleValidatorSignature ctx a p b).
Proof. unfold Slashing.handleValidatorSignature. keeps. Qed.
Lemma runs_double_sign ctx a h p : keeps runs (Slashing.handleDoubleSign ctx a h p).
Proof. unfold Slashing.handleDoubleSign. keeps. Qed.
Lemma runs_censorship ctx a h : keeps runs (Slashing.handleProposerCensorship ctx a h).
Proof. unfold Slashing.handleProposerCensorship. keeps. Qed.
#[local] Hint Resolve runs_signature runs_double_sign runs_censorship : keeps.
Lemma runs_unjail ctx msg : keeps runs (Slashing.handleMsgUnjail ctx msg).
Proof. unfold Slashing.handleMsgUnjail. keeps. Qed.
Lemma runs_slash_begin ctx votes byz : keeps runs (Slashing.BeginBlocker ctx votes byz).
Proof. unfold Slashing.BeginBlocker. keeps. Qed.
Lemma runs_slash_end ctx n k a : keeps runs (Slashing.EndBlocker ctx n k a).
Proof. unfold Slashing.EndBlocker. keeps. Qed.
Lemma runs_distr_begin ctx votes p : keeps runs (Distr.BeginBlocker (X := Others) ctx votes p).
Proof.
  intros s. apply runs_cinv; [apply (B_BeginBlocker beside beside_closed)|]. intros g. apply cinv_distr; [by apply (B_BeginBlocker same_books)|].
  intros h. apply wp_BeginBlocker.
Qed.
Lemma runs_distr_msg ctx msg s : good_distr_msg msg → wp (Distr.distr_Handler (X := Others) ctx msg) (λ _, runs s) s.
Proof.
  intros Hg. apply runs_cinv; [apply (B_distr_Handler beside beside_closed)|]. intros g. apply cinv_distr; [by apply (B_distr_Handler same_books)|].
  intros h Hh. by apply wp_distr_Handler.
Qed.

(** What is minted is collected as fees. *)
Lemma cinv_mint h t g s : cinv g s → wp (on_mint (Mint.BeginBlocker h t)) (λ _, cinv g) s.
Proof.
  intros [[D1 D2 D3 D4 D5] Hm]. apply wp_zoom. intros [] st Hr. unfold Mint.BeginBlocker, Mint.GetMinter, Mint.SetMinter in Hr.
  unfold bind at 1 2, gets in Hr. cbn [Mint.mt_minter] in Hr. destruct (o_minter (st_other s)) as [mi|] eqn:Em; [|done]. simpl in Hr.
  pose proof (Hm mi eq_refl) as Hd. destruct (h <=? 1).
  { injection Hr as <-. split; [by split|]. intros m' [= <-]. done. }
  unfold Mint.GetParamSet, AddCollectedFees, GetCollectedFees, setCollectedFees in Hr. inv_ok Hr.
  unfold Mint.BlockProvision in E0. inv_ok E0. rewrite Hd in E0. apply NewCoin_ok in E0 as [-> Hn].
  apply zoom_ok in E1 as (t1&E1&->). apply zoom_ok in E1 as (au&E1&->). apply zoom_ok in E2 as (t2&E2&->). apply zoom_ok in E2 as (f&E2&->). inv_ok E2. match goal with H : Coins_Add _ _ = Ok _ |- _ => rename H into Ec end.
  apply Increase_shifted in E1; [|done]. simpl in *. split; [|by intros m' [= <-]]. split; simpl.
  - by eapply shifted_wf.
  - by apply E1.
  - done.
  - unfold fst_, fees_of. simpl. apply (Coins_Add_canonical _ _ _ D4 (sorted_one _) Ec).
  - rewrite <-D5. unfold gap, dheld. simpl. rewrite (shifted_circulating _ _ _ E1), (sh_amt _ _ _ E1). unfold fees_of. simpl.
    rewrite (Coins_Add_amt _ _ _ _ Ec). simpl.
    ring.
Qed.
Lemma beside_mint {A} (c : M Mint.MintState A) : keeps beside (on_mint c).
Proof. apply keeps_zoom. intros s t. by eexists _, _. Qed.
Lemma runs_begin ctx votes byz p : keeps runs (BeginBlocker ctx votes byz p).
Proof.
  unfold BeginBlocker. apply (keeps_bind runs); [|intros _; apply (keeps_bind runs); [apply runs_distr_begin|intros _; apply runs_slash_begin]].
  intros s. apply runs_cinv; [apply beside_mint|]. intros g. apply cinv_mint.
Qed.
Lemma chain_step_stake x y : chain_step x y → stake_ok x.1 x.2 → rtc stake_step x y.
Proof.
  intros [ctx msg m s s' Hb Hg Ht Hr|ctx msg m s s' Hg Hr|ctx msg m s s' Hr|ctx votes byz p m s s' _ _ Hr|ctx n k a m s s' Hr|ctx u m s s' Hc Hr|p m s Hp|p m s|p m s|a x0 m s Hk _ _] Hok.
  - apply rtc_once. by eapply step_msg.
  - by eapply runs_distr_msg.
  - by eapply runs_unjail.
  - by eapply runs_begin.
  - by eapply runs_slash_end.
  - apply rtc_once. by eapply step_end.
  - apply rtc_once. by apply step_params.
  - apply (runs_slash (modify (Slashing.with_params p)) s tt); done.
  - apply rtc_once. pose proof (ok_inv _ _ Hok) as Hi. apply (step_others (st_auth s)). destruct (si_other _ _ _ Hi) as ([]&?&?). by split; [apply Hi..| |].
  - apply rtc_once. by apply step_others.
Qed.
End steps.
End Chain.
