(* ===== verification/ChainThms.v ===== *)
(** * What the chain guarantees *)

From Stdlib Require Import Ascii.
From S2P Require Import Prelude SdkErrors Frame IntType GoStrings Denom Coin CoinFacts Dec TimeBytes Gas KVStore Auth StdTx Bank BankFacts BankFrame Mint StakeTypes Stake StakeFacts StakeInv StakeFrame StakeSlash StakeSet StakeApply StakeDue StakeThms StakeSteps Slashing DistrTypes Distr DistrFacts Chain.
#[local] Open Scope Z_scope.

Module ChainThms.
Import StakeTypes Stake StakeFacts StakeQueue StakeInv StakeFrame StakeOps StakeSlash StakeSet StakeApply StakeDue StakeChecks StakeThms StakeSteps DistrTypes DistrFacts Chain.

(** ** Amounts by binary search *)
Lemma dsorted_app a c b : dsorted (a ++ c :: b) → dsorted a ∧ dsorted b ∧
  Forall (λ x, str_lt (dc_Denom x) (dc_Denom c)) a ∧ Forall (λ x, str_lt (dc_Denom c) (dc_Denom x)) b.
Proof.
  unfold dsorted. induction a as [|x a IH]; simpl; intros Hs.
  - apply StronglySorted_inv in Hs as [Hb Hc]. split_and!; [constructor|done|constructor|done].
  - apply StronglySorted_inv in Hs as [Hs Hx]. apply IH in Hs as (Ha&Hb&Hac&Hcb). apply Forall_app in Hx as [Hxa Hxc%Forall_cons].
    split_and!; [by constructor|done|constructor; [apply Hxc|done]|done].
Qed.
Lemma damt_notin l d : Forall (λ c, dc_Denom c ≠ d) l → damt l d = 0.
Proof. induction 1 as [|c l Hc Hl IH]; [done|]. rewrite damt_cons, IH, decide_False by done. done. Qed.
Lemma damt_app a b d : damt (a ++ b) d = damt a d + damt b d.
Proof. induction a as [|c a IH]; [done|]. cbn [app]. rewrite !damt_cons, IH. lia. Qed.
Lemma dec_AmountOf fuel l d : dsorted l → (length l ≤ fuel)%nat → DecCoins_AmountOf_fuel fuel l d = damt l d.
Proof.
  revert l. induction fuel as [|fuel IH]; intros l Hs Hf; [destruct l; [done|simpl in Hf; lia]|].
  destruct l as [|c0 [|c1 rest]]; [done|..].
  { cbn [DecCoins_AmountOf_fuel]. rewrite damt_cons. change (damt [] d) with 0. rewrite Z.add_0_r. by destruct (decide (dc_Denom c0 = d)) as [E|E]; [rewrite bool_decide_true|rewrite bool_decide_false]. }
  cbn [DecCoins_AmountOf_fuel]. set (l := c0 :: c1 :: rest) in *. set (mid := (length l / 2)%nat).
  assert ((0 < mid < length l)%nat) as Hmid. { unfold mid. split; [apply Nat.div_str_pos|apply Nat.div_lt]; unfold l; simpl; lia. }
  destruct (lookup_lt_is_Some_2 l mid) as [c Hc]; [lia|]. rewrite Hc. pose proof (take_drop_middle _ _ _ Hc) as El. rewrite <-El in Hs.
  apply dsorted_app in Hs as (Ha&Hb&Hac&Hcb). rewrite <-El at 3. rewrite damt_app, damt_cons.
  assert (¬ str_lt d (dc_Denom c) → damt (take mid l) d = 0) as Hleft.
  { intros Hn. apply damt_notin. eapply Forall_impl; [exact Hac|]. by intros x Hx <-. }
  assert (¬ str_lt (dc_Denom c) d → damt (drop (S mid) l) d = 0) as Hright.
  { intros Hn. apply damt_notin. eapply Forall_impl; [exact Hcb|]. by intros x Hx <-. }
  destruct (str_ltb_spec d (dc_Denom c)) as [Hlt|Hge].
  - rewrite IH by (done || (rewrite length_take; lia)). rewrite decide_False, Hright; [lia|..]; intros E.
    + apply (str_lt_irrefl d). by etrans.
    + subst d. by apply str_lt_irrefl in Hlt.
  - rewrite Hleft by done. destruct (decide (d = dc_Denom c)) as [->|Hne].
    + rewrite bool_decide_true, decide_True, Hright by (done || apply str_lt_irrefl). lia.
    + rewrite bool_decide_false, decide_False by done. rewrite IH by (done || (rewrite length_drop; lia)). lia.
Qed.
Lemma DecCoins_AmountOf_damt l d : dsorted l → DecCoins_AmountOf l d = damt l d.
Proof. intros Hs. by apply dec_AmountOf. Qed.

(** ** The check of the supply (stake/invariants.go)

    What it adds up of fees and distribution. *)
Definition info_tokens (vi : ValidatorDistInfo) : list Dec :=
  [DecCoins_AmountOf (DelPool vi) StakeDenom; DecCoins_AmountOf (ValCommission vi) StakeDenom].
Definition held_tokens (x : Others) : Outcome (list Dec) :=
  match Distr.feePool (o_distr x) with
  | None => Panic "Stored fee pool should not have been nil"
  | Some fp =>
      Ok (AmountOf (fees_of (o_fees x)) StakeDenom * precisionReuse :: DecCoins_AmountOf (ValPool fp) StakeDenom ::
          mjoin (info_tokens <$> Distr.GetAllValidatorDistInfos (o_distr x)))
  end.
Lemma list_sum_join {A} (f : A → list Z) l : list_sum (λ d, d) (mjoin (f <$> l)) = list_sum (λ a, list_sum (λ d, d) (f a)) l.
Proof.
  induction l as [|a l IH]; [done|]. change (mjoin (f <$> a :: l)) with (f a ++ mjoin (f <$> l)). cbn [list_sum]. rewrite <-IH.
  generalize (mjoin (f <$> l)) as k. intros k. induction (f a) as [|z t IHt]; [done|]. cbn [app list_sum]. rewrite IHt. lia.
Qed.
Lemma held_tokens_sum `{Crypto} x l : chain_ok x → held_tokens x = Ok l → list_sum (λ d, d) l = chain_held x - written_off x.
Proof.
  intros (Ho&Hf&_) Hl. unfold held_tokens in Hl. destruct (Distr.feePool (o_distr x)) as [fp|] eqn:Efp; [|done]. injection Hl as <-.
  cbn [list_sum]. rewrite list_sum_join. unfold Distr.GetAllValidatorDistInfos, info_tokens. cbn [list_sum].
  rewrite (list_sum_ext _ (λ vi, vi_amt vi IrisAtto)).
  - rewrite list_sum_entries, (AmountOf_amt _ _ Hf), DecCoins_AmountOf_damt by by apply (do_pool _ Ho).
    unfold chain_held, dheld, held_distr. simpl. rewrite Efp. simpl. unfold StakeDenom. lia.
  - intros vi [k Hk]%entries_value. destruct (do_vals _ Ho _ _ Hk) as [_ [Hd Hc]]. rewrite !DecCoins_AmountOf_damt by done.
    unfold vi_amt, StakeDenom. lia.
Qed.

Section thms.
Context `{Crypto, !AddressLaws, ConsCrypto}.
Implicit Types s : ChainState.
Lemma chain_runs_stake s0 m s : fresh_stake s0 → rtc chain_step (∅, s0) (m, s) → rtc stake_step (∅, s0) (m, s).
Proof.
  intros Hf%fresh_ok Hr. remember (∅, s0) as x eqn:Ex. assert (stake_ok x.1 x.2) as Hok by (by subst).
  clear Ex Hf. induction Hr as [|x z y Hx Hr IH]; [done|]. pose proof (chain_step_stake _ _ Hx Hok) as Hxz. etrans; [exact Hxz|].
  apply IH. by eapply steps_ok.
Qed.
(** C4. Every run of the chain, with the messages of staking, distribution and slashing,
    its begin and end of blocks, inflation, the distribution of the fees and the
    punishment of validators, is a run of staking: the hooks that distribution and
    slashing have in staking change only what staking lets them change.  So the
    theorems of staking hold of the chain.  Two things are assumed of the run.  No
    delegator sets the address of burned coins as the one its rewards are withdrawn
    to.  And the messages of the other modules, which are one step that may change
    accounts and collected fees, keep the account of the loose tokens; a burn of
    coins that start with a zero coin, for one, does not. *)
Theorem chain_refines_staking s0 m s :
  fresh_stake s0 → rtc chain_step (∅, s0) (m, s) → rtc stake_step (∅, s0) (m, s) ∧ stake_ok m s ∧ chain_ok (st_other s).
Proof.
  intros Hf Hr. pose proof (chain_runs_stake _ _ _ Hf Hr) as Hs. pose proof (reachable_ok _ _ _ Hf Hs) as Hok.
  split_and!; [done|done|exact (si_other _ _ _ (ok_inv _ _ Hok))].
Qed.
(** C9. In every state of the chain the recorded loose tokens are those of the
    accounts, of the collected fees, of the pool of the validators, of the rewards
    and commissions that wait for a withdrawal, of the unbonding delegations, of
    the validators that are not bonded, and what was in the distribution records
    that the hooks dropped when a validator was created or removed; only the hooks
    add to this last number, which the program does not store.  The runs are those
    of the chain in which no delegator withdraws to the address of burned coins,
    and in which the messages of the other modules keep this account of the tokens. *)
Theorem chain_ledger s0 m s :
  fresh_stake s0 → rtc chain_step (∅, s0) (m, s) →
  loosen (st_auth s) IrisAtto * P =
    circulating (st_auth s) * P + amt (fees_of (o_fees (st_other s))) IrisAtto * P + pool_amt (Distr.feePool (o_distr (st_other s))) +
    map_sum (λ vi, damt (DelPool vi) IrisAtto + damt (ValCommission vi) IrisAtto) (Distr.valInfos (o_distr (st_other s))) +
    map_sum ubd_balance (ubds s) * P + map_sum loose_tokens (validators s) + written_off (st_other s).
Proof.
  intros Hf Hr. pose proof (ok_inv _ _ (reachable_ok _ _ _ Hf (chain_runs_stake _ _ _ Hf Hr))) as Hi.
  pose proof (si_ledger _ _ _ Hi) as Hl. change (held (X := Others)) with chain_held in Hl. unfold gap, chain_held, dheld, held_distr in Hl.
  unfold vi_amt in Hl. simpl in Hl. lia.
Qed.
(** The check of the supply that the application runs at the end of a block passes
    exactly when no token was in a distribution record that was dropped. *)
Theorem chain_supply_check s0 m s l :
  fresh_stake s0 → rtc chain_step (∅, s0) (m, s) → fits s →
  held_tokens (st_other s) = Ok l → Forall (λ d, 0 ≤ d) l → - list_sum (λ d, d) l ≤ written_off (st_other s) < 2^256 → list_sum (λ d, d) l < 2^256 →
  ends (SupplyInvariants held_tokens) (if decide (written_off (st_other s) = 0) then Ok tt else Err fmt_Errorf) s.
Proof.
  intros Hf Hr Hfit Hl Hn Hw Hb. pose proof (ok_inv _ _ (reachable_ok _ _ _ Hf (chain_runs_stake _ _ _ Hf Hr))) as Hi.
  pose proof (held_tokens_sum _ _ (si_other _ _ _ Hi) Hl) as Es.
  pose proof (supply_check held_tokens l s Hi Hfit Hl Hn) as Hs. change (held (X := Others)) with chain_held in Hs.
  destruct (decide (written_off (st_other s) = 0)) as [Ez|Ez].
  - rewrite decide_True in Hs by lia. apply Hs; lia.
  - rewrite decide_False in Hs by lia. apply Hs; lia.
Qed.
End thms.
End ChainThms.

(** ** A chain with two validators *)
Module ChainExample.
Import StakeTypes Stake StakeFacts StakeQueue StakeInv StakeFrame StakeOps StakeSlash StakeSet StakeApply StakeDue StakeChecks StakeThms StakeSteps StakeExample DistrTypes DistrFacts Chain ChainThms.
Definition pad (s : string) : string := str (take AddrLen (chars s ++ repeat "_"%char AddrLen)).
#[local] Instance pad_crypto : Crypto := {| AddressHash := pad |}.
#[local] Instance pad_laws : AddressLaws.
Proof.
  split; [|done]. intros u. change (str_len (pad u) = AddrLen). unfold pad, str_len. rewrite chars_str, length_take, length_app, repeat_length. lia.
Qed.
#[local] Instance name_cons : ConsCrypto := {| PubKey_Address k := k; TM2PB_Type _ := "ed25519" |}.
Definition c_create (a : string) : StakeMsg :=
  CreateValidator (mkMsgCreateValidator (NewDescription a "" "" "") (mkCommissionMsg (Some (10^9)) None None) a a (Some a) (iris 100)).
Definition c_unbond (n : Dec) : StakeMsg := BeginUnbonding_ (mkMsgBeginUnbonding alice alice (Some n)).
Definition c_others : Others :=
  mkOthers (Slashing.mkSlash ∅ ∅ ∅ ∅ Slashing.DefaultParamsForTestnet)
    (Distr.mkDistr (Some InitialFeePool) ∅ ∅ ∅ (Some alice) DistrTypes.DefaultParams)
    (mkFees None (Some IrisAtto) (mkAuthParams 0 0)) (Some (Mint.NewMinter 0 IrisAtto (2 * 10^27))) (Mint.mkParams (4 * 10^8)) 0.
Definition c0 : ChainState :=
  mkStake (set_gas NewInfiniteGasMeter (ex_bank [(alice, [iris 1000]); (bob, [iris 1000])] (2000 * AttoScaleFactor) [])) c_others
    (Some InitialBondedPool) ∅ None ∅ ∅ ∅ ∅ ∅ ∅ ∅ ∅ ∅ ∅ ∅ ∅ (StakeTypes.mkParams (5 * Second) 100).
Definition c_begin (h : Z) (proposer : ConsAddress) : M ChainState unit :=
  BeginBlocker (ex_ctx h) [Slashing.mkVote alice 100 true; Slashing.mkVote bob 100 true] [] proposer.
Definition c_msg (h : Z) (msg : StakeMsg) : M ChainState unit := stake_Handler (ex_ctx h) msg.
Definition c_end (h : Z) : M ChainState (list ValidatorUpdate) := EndBlocker (ex_ctx h).
(** Alice takes back all but the smallest fraction of a share, gets a reward as the
    proposer of that block, and takes back the rest. *)
Definition c1 : ChainState := (c_end 1 (c_msg 1 (c_create bob) (c_msg 1 (c_create alice) c0).2).2).2.
Definition c2 : ChainState := (c_end 2 (c_msg 2 (c_unbond (100 * AttoScaleFactor * P - 1)) (c_begin 2 alice c1).2).2).2.
Definition c3 : ChainState := (c_begin 4 bob (c_end 3 (c_begin 3 bob c2).2).2).2.
Definition c4 : ChainState := (c_msg 4 (c_unbond 1) c3).2.
Definition reached (s : ChainState) : Prop := ∃ m, rtc chain_step (∅, c0) (m, s).
Lemma chain_fresh : fresh_stake c0.
Proof.
  split; [apply auth_wfb_ok; vm_compute; reflexivity| |..|vm_compute; reflexivity|done|done].
  - split; [split; [repeat constructor|]|]; repeat constructor; done.
  - split_and!; [|constructor|by intros m [= <-]]. split; [done| |done|done]. intros fp [= <-]. constructor.
Qed.
Lemma reached_step s s' m' : reached s → (∀ m, chain_step (m, s) (m' m, s')) → reached s'.
Proof. intros [m Hm] Hs. exists (m' m). by eapply rtc_r. Qed.
Lemma passes_run {S A} (c : M S A) s : passes c s = true → ∃ a, c s = (Ok a, (c s).2).
Proof. unfold passes. destruct (c s) as [[a| |] s']; try done. by exists a. Qed.
Lemma c_msg_step h msg a s :
  a = alice ∨ a = bob → StakeMsg_ValidateBasic msg = Ok tt → StakeMsg_GetSigners msg = [a] →
  UnbondingTime (st_params s) = 5 * Second → 0 ≤ h < 1000000 → passes (c_msg h msg) s = true → ∀ m, chain_step (m, s) (m, (c_msg h msg s).2).
Proof.
  intros Ha Hb Hg Hp Hh [[] Hr]%passes_run m. eapply chain_stake; [done|..|exact Hr].
  - rewrite Hg. repeat constructor; destruct Ha as [-> | ->]; done.
  - unfold timely, in_calendar. rewrite Hp. assert (1000020 * 5 * Second < year10000) by done. simpl. assert (Second = 1000000000) as E by done. lia.
Qed.
Lemma c_begin_step h p s : passes (c_begin h p) s = true → ∀ m, chain_step (m, s) (m, (c_begin h p s).2).
Proof. intros [[] Hr]%passes_run m. eapply chain_begin, Hr; simpl; repeat constructor; set_solver. Qed.
Lemma c_end_step h s : 0 ≤ h < 1000000 → passes (c_end h) s = true → ∃ u, ∀ m, chain_step (m, s) (foldl tm_update m u, (c_end h s).2).
Proof.
  intros Hh [u Hr]%passes_run. exists u. intros m. eapply chain_end, Hr.
  unfold in_calendar. simpl. assert (1000020 * 5 * Second < year10000) by done. assert (Second = 1000000000) as E by done. lia.
Qed.
Lemma reached_msg h msg a s :
  reached s → a = alice ∨ a = bob → StakeMsg_ValidateBasic msg = Ok tt → StakeMsg_GetSigners msg = [a] →
  UnbondingTime (st_params s) = 5 * Second → 0 ≤ h < 1000000 → passes (c_msg h msg) s = true → reached (c_msg h msg s).2.
Proof. intros Hs Ha Hb Hg Hp Hh Hr. apply (reached_step s _ id Hs). by apply (c_msg_step h msg a). Qed.
Lemma reached_begin h p s : reached s → passes (c_begin h p) s = true → reached (c_begin h p s).2.
Proof. intros Hs Hr. apply (reached_step s _ id Hs). by apply c_begin_step. Qed.
Lemma reached_end h s : reached s → 0 ≤ h < 1000000 → passes (c_end h) s = true → reached (c_end h s).2.
Proof. intros Hs Hh Hr. destruct (c_end_step h s Hh Hr) as [u Hu]. by apply (reached_step s _ (λ m, foldl tm_update m u) Hs). Qed.
Lemma reach_c1 : reached c1.
Proof.
  apply reached_end; [|lia|vm_compute; reflexivity]. apply (reached_msg 1 (c_create bob) bob); [|by right|vm_compute; reflexivity..|lia|vm_compute; reflexivity].
  apply (reached_msg 1 (c_create alice) alice); [by exists ∅|by left|vm_compute; reflexivity..|lia|vm_compute; reflexivity].
Qed.
Lemma reach_c2 : reached c2.
Proof.
  apply reached_end; [|lia|vm_compute; reflexivity]. apply (reached_msg 2 (c_unbond (100 * AttoScaleFactor * P - 1)) alice); [|by left|vm_compute; reflexivity..|lia|vm_compute; reflexivity].
  apply reached_begin; [exact reach_c1|vm_compute; reflexivity].
Qed.
Lemma reach_c3 : reached c3.
Proof.
  apply reached_begin; [|vm_compute; reflexivity]. apply reached_end; [|lia|vm_compute; reflexivity].
  apply reached_begin; [exact reach_c2|vm_compute; reflexivity].
Qed.
Lemma reach_c4 : reached c4.
Proof. apply (reached_msg 4 (c_unbond 1) alice); [exact reach_c3|by left|vm_compute; reflexivity..|lia|vm_compute; reflexivity]. Qed.
Lemma chain_refines_staking_witness : ∃ m, rtc stake_step (∅, c0) (m, c3) ∧ stake_ok m c3 ∧ size (validators c3) = 2%nat.
Proof.
  destruct reach_c3 as [m Hm]. destruct (chain_refines_staking c0 m c3 chain_fresh Hm) as (Hs&Hok&_). exists m. split_and!; [done..|]. vm_compute. reflexivity.
Defined.
Lemma chain_ledger_witness :
  loosen (st_auth c4) IrisAtto * P - circulating (st_auth c4) * P =
    pool_amt (Distr.feePool (o_distr (st_other c4))) + map_sum (λ vi, damt (DelPool vi) IrisAtto + damt (ValCommission vi) IrisAtto) (Distr.valInfos (o_distr (st_other c4))) + P + 23 * 10^8.
Proof.
  destruct reach_c4 as [m Hm]. pose proof (chain_ledger c0 m c4 chain_fresh Hm) as Hl.
  assert (written_off (st_other c4) = 23 * 10^8) as Ew by (vm_compute; reflexivity).
  assert (amt (fees_of (o_fees (st_other c4))) IrisAtto = 0) as Ef by (vm_compute; reflexivity).
  assert (map_sum ubd_balance (ubds c4) = 1) as Eu by (vm_compute; reflexivity).
  assert (map_sum loose_tokens (validators c4) = 0) as Ev by (vm_compute; reflexivity).
  rewrite Ew, Ef, Eu, Ev in Hl. lia.
Defined.
Definition tokens_in (s : ChainState) : list Dec := match held_tokens (st_other s) with Ok l => l | _ => [] end.
Lemma chain_supply_check_witness : ends (SupplyInvariants held_tokens) (Ok tt) c3 ∧ ends (SupplyInvariants held_tokens) (Err fmt_Errorf) c4.
Proof.
  assert (∀ s : ChainState, ex_bounds s = true → gas (st_auth s) = infiniteGasMeter (GasConsumed (gas (st_auth s))) →
    0 ≤ GasConsumed (gas (st_auth s)) < 10^6 → fits s) as Hfit.
  { intros s Hb Hg Hc. apply (ex_bounds_fit s 1000 Hb); [done|]. unfold has_gas. rewrite Hg. unfold gas_wf, gas_room, uint64_max. lia. }
  destruct reach_c3 as [m3 H3]. destruct reach_c4 as [m4 H4]. split.
  - pose proof (chain_supply_check c0 m3 c3 (tokens_in c3) chain_fresh H3) as Hc.
    assert (written_off (st_other c3) = 0) as Ew by (vm_compute; reflexivity). rewrite decide_True in Hc by done. apply Hc; clear Hc.
    + apply (Hfit c3); [vm_compute; reflexivity..|]. vm_compute. split; [discriminate|reflexivity].
    + vm_compute. reflexivity.
    + vm_compute. repeat constructor; discriminate.
    + rewrite Ew. split; [vm_compute; discriminate|done].
    + vm_compute. reflexivity.
  - pose proof (chain_supply_check c0 m4 c4 (tokens_in c4) chain_fresh H4) as Hc.
    assert (written_off (st_other c4) = 23 * 10^8) as Ew by (vm_compute; reflexivity). rewrite decide_False in Hc by (rewrite Ew; done). apply Hc; clear Hc.
    + apply (Hfit c4); [vm_compute; reflexivity..|]. vm_compute. split; [discriminate|reflexivity].
    + vm_compute. reflexivity.
    + vm_compute. repeat constructor; discriminate.
    + rewrite Ew. split; [vm_compute; discriminate|done].
    + vm_compute. reflexivity.
Defined.
(** A delegator that leaves a fraction of a share small enough breaks the supply:
    the part of the rewards that the rounding does not pay stays in the record of
    the validator, and is dropped with it when the last share goes, without a
    check.  The recorded loose tokens are never those that are left again. *)
Theorem dust_rewards_dropped :
  reached c4 ∧ (SupplyInvariants held_tokens c3).1 = Ok tt ∧ written_off (st_other c3) = 0 ∧
  validators c3 !! alice ≠ None ∧ validators c4 !! alice = None ∧
  written_off (st_other c4) = 23 * 10^8 ∧ (SupplyInvariants held_tokens c4).1 = Err fmt_Errorf.
Proof. split; [exact reach_c4|]. vm_compute. split_and!; done. Qed.
End ChainExample.
