(* ===== verification/SlashThms.v ===== *)
(** * Slashing: what the module guarantees

    The count of missed blocks of a validator, the infractions of one slashing
    period, and the way back for a jailed validator. *)

From Stdlib Require Import Ascii.
From S2P Require Import Prelude SdkErrors Frame IntType GoStrings Denom Coin CoinFacts Dec TimeBytes Gas KVStore PrefixKV Auth StdTx Bank BankFacts BankFrame Mint StakeTypes Stake StakeFacts StakeInv StakeFrame StakeSlash StakeSet StakeApply StakeDue StakeThms StakeSteps Slashing SlashFacts DistrTypes Distr DistrFacts Chain ChainThms.
#[local] Open Scope Z_scope.

Module SlashThms.
Import StakeTypes Stake StakeFacts StakeQueue StakeInv StakeFrame StakeOps StakeSlash StakeSet StakeApply StakeDue StakeChecks StakeThms StakeSteps DistrTypes DistrFacts Chain Slashing SlashFacts.

(** ** The windows of signed blocks *)
(** The record of [a] counts the last [W] of at most [n] blocks. *)
Definition window_ok (W n : Z) (a : ConsAddress) (s : SlashState) : Prop :=
  match signingInfos s !! a with
  | Some i => ∃ hist, Z.of_nat (length hist) ≤ n ∧ tracks W a hist s i
  | None => ∀ j, bit s a j = false
  end.
Record windows (W : Z) (n : ConsAddress → Z) (s : SlashState) : Prop := {
  ws_window : p_SignedBlocksWindow (sl_params s) = W;
  ws_ok a : is_addr a → window_ok W (n a) a s }.
(** A change that leaves the windows alone. *)
Record same_windows (s s' : SlashState) : Prop := {
  sw_bits : missedBits s' = missedBits s;
  sw_params : sl_params s' = sl_params s;
  sw_infos a : match signingInfos s !! a, signingInfos s' !! a with
               | Some i, Some i' => IndexOffset i' = IndexOffset i ∧ MissedBlocksCounter i' = MissedBlocksCounter i
               | None, Some i' => IndexOffset i' = 0 ∧ MissedBlocksCounter i' = 0
               | None, None => True
               | Some _, None => False
               end }.
#[global] Instance same_windows_po : PreOrder same_windows.
Proof.
  split; [intros s; split; [done|done|]; intros a; by destruct (signingInfos s !! a)|].
  intros s1 s2 s3 [B1 P1 I1] [B2 P2 I2]. split; [congruence|congruence|]. intros a. specialize (I1 a). specialize (I2 a).
  destruct (signingInfos s1 !! a), (signingInfos s2 !! a), (signingInfos s3 !! a); try done; destruct I2; try (destruct I1; split; congruence); by split.
Qed.
Lemma tracks_same W a hist s s' i i' :
  missedBits s' = missedBits s → IndexOffset i' = IndexOffset i → MissedBlocksCounter i' = MissedBlocksCounter i → tracks W a hist s i → tracks W a hist s' i'.
Proof. intros Eb Eo Ec [T1 T2 T3]. split; [congruence| |congruence]. intros j Hj. rewrite <-T2 by done. unfold bit. by rewrite Eb. Qed.
Lemma window_ok_same W n b t t' : same_windows t t' → 0 ≤ n → window_ok W n b t → window_ok W n b t'.
Proof.
  intros [B P I] Hn Ho. specialize (I b). unfold window_ok in *.
  destruct (signingInfos t !! b) as [i|], (signingInfos t' !! b) as [i'|]; try done.
  - destruct Ho as (hist&Hl&Ht), I as [Eo Ec]. exists hist. split; [done|]. by eapply tracks_same.
  - destruct I as [Eo Ec]. exists []. split; [done|]. apply tracks_nil; [done..|]. intros j. unfold bit. rewrite B. apply Ho.
  - intros j. unfold bit. rewrite B. apply Ho.
Qed.
Lemma windows_same W n s s' : same_windows s s' → (∀ a, 0 ≤ n a) → windows W n s → windows W n s'.
Proof. intros Hs Hn [Hw Ho]. split; [destruct Hs; congruence|]. intros a Ha. eapply window_ok_same; [done|apply Hn|auto]. Qed.
Lemma windows_le W n n' s : (∀ a, n a ≤ n' a) → windows W n s → windows W n' s.
Proof.
  intros Hle [Hw Ho]. split; [done|]. intros a Ha. specialize (Ho a Ha). unfold window_ok in *. destruct (signingInfos s !! a); [|done].
  destruct Ho as (hist&?&?). exists hist. split; [specialize (Hle a); lia|done].
Qed.

(** ** What the other operations do to them *)
Section frame.
Context `{Crypto, ConsCrypto}.
Implicit Types s : ChainState.
Definition sl s : SlashState := o_slash (st_other s).
Definition with_sl (t : SlashState) s : ChainState := set_other (set_part t (st_other s)) s.
Definition keeps_windows s s' : Prop := same_windows (sl s) (sl s').
#[global] Instance keeps_windows_po : PreOrder keeps_windows.
Proof. split; [intros s; unfold keeps_windows; reflexivity|]. intros s1 s2 s3. unfold keeps_windows. apply transitivity. Qed.
Lemma kw_same s s' : sl s' = sl s → keeps_windows s s'.
Proof. unfold keeps_windows. intros ->. reflexivity. Qed.
Lemma kw_distr : distr_closed keeps_windows.
Proof. split; intros; by apply kw_same. Qed.
Lemma kw_closed : closed keeps_windows.
Proof. split; intros; by apply kw_same. Qed.
Lemma kw_takes : takes keeps_windows.
Proof. intros a c. apply keeps_zoom. intros s t. by apply kw_same. Qed.
Lemma kw_closed_last : closed_last keeps_windows.
Proof. split; intros; by apply kw_same. Qed.
Lemma kw_closed_transit : closed_transit keeps_windows.
Proof. split; intros; by apply kw_same. Qed.
Lemma kw_slash {A} (c : M SlashState A) : (∀ t : SlashState, wp c (λ _, same_windows t) t) → keeps keeps_windows (on_slash (X := Others) c).
Proof. intros Hc s. apply wp_zoom. intros r t Hr. unfold keeps_windows. simpl. by eapply Hc. Qed.
Lemma kw_read {A} (c : M SlashState A) : (∀ t : SlashState, wp c (λ _ t', t' = t) t) → keeps keeps_windows (on_slash (X := Others) c).
Proof. intros Hc. apply kw_slash. intros s. eapply wp_mono; [apply Hc|]. intros r s' ->. reflexivity. Qed.
Lemma kw_modify f :
  (∀ t, missedBits (f t) = missedBits t) → (∀ t, sl_params (f t) = sl_params t) → (∀ t, signingInfos (f t) = signingInfos t) →
  keeps keeps_windows (on_slash (X := Others) (modify f)).
Proof. intros E1 E2 E3. apply kw_slash. intros s. apply wp_modify. split; [done|by rewrite E2|]. intros a. rewrite E3. by destruct (signingInfos s !! a). Qed.
Lemma kw_SetPeriod p : keeps keeps_windows (on_slash (X := Others) (SetValidatorSlashingPeriod p)).
Proof. by apply kw_modify. Qed.
Lemma kw_addPubkey k : keeps keeps_windows (on_slash (X := Others) (addPubkey k)).
Proof. by apply kw_modify. Qed.
Lemma kw_delPubkey a : keeps keeps_windows (on_slash (X := Others) (deleteAddrPubkeyRelation a)).
Proof. by apply kw_modify. Qed.
Lemma kw_getPeriod a h : keeps keeps_windows (on_slash (X := Others) (getValidatorSlashingPeriodForHeight a h)).
Proof. apply kw_read. intros s. unfold getValidatorSlashingPeriodForHeight. wps. case_match; [|by wps]. case_match. by wps. Qed.
Lemma kw_param {A} (f : Slashing.Params → A) : keeps keeps_windows (on_slash (X := Others) (param f)).
Proof. apply kw_read. intros s. unfold param. by wps. Qed.
Lemma kw_getInfo a : keeps keeps_windows (on_slash (X := Others) (getValidatorSigningInfo a)).
Proof. apply kw_read. intros s. unfold getValidatorSigningInfo. by wps. Qed.
Lemma kw_getPubkey a : keeps keeps_windows (on_slash (X := Others) (getPubkey a)).
Proof. apply kw_read. intros s. unfold getPubkey. by wps. Qed.
Lemma kw_cap a f h : keeps keeps_windows (on_slash (X := Others) (capBySlashingPeriod a f h)).
Proof.
  apply kw_slash. intros s. unfold capBySlashingPeriod, getValidatorSlashingPeriodForHeight, SetValidatorSlashingPeriod, expect. wps.
  destruct (last _) as [[k v]|]; [|by wps]. wps. case_match; wps. split; [done..|]. intros b. simpl. by destruct (signingInfos s !! b).
Qed.
#[local] Hint Resolve kw_SetPeriod kw_addPubkey kw_delPubkey kw_getPeriod kw_param kw_getInfo kw_getPubkey kw_cap : keeps.
#[local] Hint Extern 1 (keeps _ (GetValidatorByConsAddr _)) => (apply B_ByCons; apply _) : keeps.
#[local] Hint Extern 1 (keeps _ (GetValidator _)) => (apply B_GetValidator; apply _) : keeps.
#[local] Hint Extern 1 (keeps _ (GetDelegation _ _)) => (apply B_GetDelegation; apply _) : keeps.
(** Writing a record with the same count, or a new one. *)
Lemma kw_SetInfo a i s :
  (match signingInfos (sl s) !! a with Some j => IndexOffset i = IndexOffset j ∧ MissedBlocksCounter i = MissedBlocksCounter j | None => IndexOffset i = 0 ∧ MissedBlocksCounter i = 0 end) →
  wp (SetValidatorSigningInfo (X := Others) a i) (λ _, keeps_windows s) s.
Proof.
  intros Hi. unfold SetValidatorSigningInfo. wpb. eapply (wp_mono _ (λ _ s', s' = s)).
  { unfold GetValidatorByConsAddr. wps. destruct (byConsAddr s !! a); [|by wps]. by apply wp_GetValidator. }
  intros o s' ->. apply wp_zoom. intros [] t [= <-]. split; [done|done|]. intros b. simpl. fold (sl s).
  destruct (decide (b = a)) as [->|Hne]; [rewrite lookup_insert_eq; by destruct (signingInfos (sl s) !! a)|].
  rewrite lookup_insert_ne by done. by destruct (signingInfos (sl s) !! b).
Qed.
Lemma wp_slash_gets {A} (f : SlashState → A) (Q : A → ChainState → Prop) s : Q (f (sl s)) s → wp (on_slash (gets f)) Q s.
Proof. intros HQ. apply wp_zoom. intros o t [= <- <-]. by destruct s as [? []]. Qed.
Lemma kw_pubkey a : keeps keeps_windows (must_getPubkey (X := Others) a).
Proof. unfold must_getPubkey. keeps. Qed.
Lemma kw_jail_until a n : keeps keeps_windows (jail_until (X := Others) a n).
Proof.
  intros s. unfold jail_until, must_SigningInfo. unfold getValidatorSigningInfo. wpb. wpb. apply wp_slash_gets.
  destruct (signingInfos (sl s) !! a) as [i|] eqn:Ei; [|by wps]. wps. apply kw_SetInfo. by rewrite Ei.
Qed.
Lemma kw_bonded ctx a : keeps keeps_windows (Slashing.onValidatorBonded (X := Others) ctx a).
Proof.
  intros s. unfold Slashing.onValidatorBonded. unfold getValidatorSigningInfo. wpb. apply wp_slash_gets. wpb.
  eapply (wp_mono _ (λ _, keeps_windows s)).
  { destruct (signingInfos (sl s) !! a) as [i|] eqn:Ei; [by wps|]. apply kw_SetInfo. by rewrite Ei. }
  intros [] s1 Hs1. eapply wp_mono; [apply kw_SetPeriod|]. intros [] s2 Hs2. cbv beta in *. by etrans.
Qed.
Lemma kw_unbonding ctx a : keeps keeps_windows (Slashing.onValidatorBeginUnbonding (X := Others) ctx a).
Proof. unfold Slashing.onValidatorBeginUnbonding. keeps. Qed.
Lemma kw_created v : keeps keeps_windows (Slashing.onValidatorCreated (X := Others) v).
Proof. unfold Slashing.onValidatorCreated. keeps. Qed.
Lemma kw_dropping v (c : M ChainState unit) : keeps keeps_windows c → keeps keeps_windows (dropping v c).
Proof.
  intros Hc. unfold dropping. assert (∀ n, keeps keeps_windows (modify (write_off n))) as Hw by (intros n; apply keeps_modify; intros s; by apply kw_same). keeps; auto.
Qed.
#[local] Hint Resolve kw_pubkey kw_jail_until kw_bonded kw_unbonding kw_created kw_dropping : keeps.
#[local] Hint Extern 1 (keeps keeps_windows (Distr.onValidatorModified _ _)) => (apply (B_modified keeps_windows kw_distr)) : keeps.
#[local] Hint Extern 1 (keeps keeps_windows (Distr.onValidatorBonded _ _)) => (apply (B_bonded keeps_windows kw_distr)) : keeps.
#[local] Hint Extern 1 (keeps keeps_windows (Distr.on_distr _)) => (apply (B_distr keeps_windows kw_distr)) : keeps.
Lemma kw_hooked : hooked (λ _, True) keeps_windows.
Proof.
  split; [split|..]; intros; cbn [chain_hooks OnValidatorCreated OnValidatorModified OnValidatorRemoved OnValidatorBonded
    OnValidatorBeginUnbonding OnValidatorPowerDidChange OnDelegationCreated OnDelegationSharesModified OnDelegationRemoved].
  - keeps.
  - unfold Distr.onValidatorRemoved, Slashing.onValidatorRemoved. keeps.
  - apply (B_del_modified keeps_windows kw_distr).
  - apply (B_del_removed keeps_windows kw_distr).
  - unfold Distr.onValidatorCreated. keeps.
  - keeps.
  - keeps.
  - apply (B_power keeps_windows kw_distr).
  - apply (B_del_created keeps_windows kw_distr).
Qed.
Lemma kw_Slash ctx c h p f : keeps keeps_windows (Slash (X := Others) ctx c h p f).
Proof. by apply (K_Slash (λ _, True) keeps_windows kw_closed kw_hooked kw_closed_transit). Qed.
Lemma kw_Jail c : keeps keeps_windows (Jail (X := Others) c).
Proof. by apply (K_Jail keeps_windows kw_closed). Qed.
Lemma kw_Unjail c : keeps keeps_windows (Unjail (X := Others) c).
Proof. by apply (K_Unjail keeps_windows kw_closed). Qed.
#[local] Hint Resolve kw_Slash kw_Jail kw_Unjail : keeps.
Lemma kw_double_sign ctx a h p : keeps keeps_windows (handleDoubleSign ctx a h p).
Proof. unfold handleDoubleSign. keeps. Qed.
Lemma kw_censorship ctx a h : keeps keeps_windows (handleProposerCensorship ctx a h).
Proof. unfold handleProposerCensorship. keeps. Qed.
#[local] Hint Resolve kw_double_sign kw_censorship : keeps.
Lemma kw_unjail ctx msg : keeps keeps_windows (handleMsgUnjail ctx msg).
Proof. unfold handleMsgUnjail. keeps. Qed.
Lemma kw_slash_end ctx n k a : keeps keeps_windows (Slashing.EndBlocker ctx n k a).
Proof. unfold Slashing.EndBlocker. keeps. Qed.

(** ** A signature *)
(** The bits of [a] say [hist], and its record is to be written. *)
Record pending (W : Z) (n : ConsAddress → Z) (a : ConsAddress) (hist : list bool) (t : SlashState) : Prop := {
  pd_window : p_SignedBlocksWindow (sl_params t) = W;
  pd_other b : is_addr b → b ≠ a → window_ok W (n b) b t;
  pd_len : Z.of_nat (length hist) ≤ n a;
  pd_tracks i : IndexOffset i = Z.of_nat (length hist) → MissedBlocksCounter i = missed_in W hist → tracks W a hist t i }.
Lemma pending_same W n a hist t t' : (∀ b, 0 ≤ n b) → same_windows t t' → pending W n a hist t → pending W n a hist t'.
Proof.
  intros Hn Hs [P1 P2 P3 P4]. split; [destruct Hs; congruence| |done|].
  - intros b Hb Hne. eapply window_ok_same; [done|apply Hn|auto].
  - intros i Ho Hc. eapply tracks_same; [apply Hs|done..|by apply P4].
Qed.
Lemma window_ok_bits W n b t f : (∀ j, bit (with_missedBits f t) b j = bit t b j) → window_ok W n b t → window_ok W n b (with_missedBits f t).
Proof.
  intros Hb Ho. unfold window_ok in *. simpl. destruct (signingInfos t !! b) as [i|]; [|intros j; by rewrite Hb].
  destruct Ho as (hist&Hl&[T1 T2 T3]). exists hist. split; [done|]. split; [done| |done]. intros j Hj. by rewrite Hb, T2.
Qed.
Definition bump (n : ConsAddress → Z) (a b : ConsAddress) : Z := n b + (if decide (b = a) then 1 else 0).
(** Two slashing stores that differ at most in the signing record and the bits of [a]. *)
Record only_window (a : ConsAddress) (t t' : SlashState) : Prop := {
  ow_infos b : b ≠ a → signingInfos t' !! b = signingInfos t !! b;
  ow_bits b j : is_addr b → b ≠ a → bit t' b j = bit t b j;
  ow_periods : periods t' = periods t;
  ow_pubkeys : addrPubkey t' = addrPubkey t;
  ow_params : sl_params t' = sl_params t }.
#[global] Instance only_window_trans a : Transitive (only_window a).
Proof. intros t1 t2 t3 [I1 B1 P1 K1 R1] [I2 B2 P2 K2 R2]. split; [intros b Hb; by rewrite I2, I1|intros b j Hb Hne; by rewrite B2, B1|congruence..]. Qed.
Lemma only_window_info a i t : only_window a t (with_signingInfos (insert a i) t).
Proof. split; try done. intros b Hb. simpl. by rewrite lookup_insert_ne. Qed.
Lemma only_window_bits a f t : (∀ b j, is_addr b → b ≠ a → bit (with_missedBits f t) b j = bit t b j) → only_window a t (with_missedBits f t).
Proof. by split. Qed.
Lemma pending_recorded W n a t i hist m :
  windows W n t → is_addr a → tracks W a hist t i → 0 < W < 2^62 → Z.of_nat (length hist) ≤ n a < 2^62 →
  ∃ t', record_signature a (Z.rem (IndexOffset i) W) m (MissedBlocksCounter i) t = (Ok (missed_in W (m :: hist)), t') ∧
    (∃ f, t' = with_missedBits f t) ∧ only_window a t t' ∧ pending W (bump n a) a (m :: hist) t'.
Proof.
  intros [Hw Ho] Ha Ht HW Hn.
  destruct (tracks_step W a hist t i m Ht HW ltac:(lia)) as (t'&Hr&[f ->]&Hb&Hnew). exists (with_missedBits f t).
  split_and!; [done|by exists f|apply only_window_bits; auto|]. split; [done| | |].
  - intros b Hbb Hne. apply window_ok_bits; [intros j; by apply Hb|]. unfold bump. rewrite decide_False by done. rewrite Z.add_0_r. auto.
  - unfold bump. rewrite decide_True by done. simpl. lia.
  - intros i' Ho' Hc'. apply Hnew; [|done]. rewrite Ho', (tk_offset _ _ _ _ _ Ht). simpl. lia.
Qed.
Lemma pending_cleared W n a hist t :
  is_addr a → 0 ≤ n a → pending W n a hist t →
  ∃ t', clearValidatorMissedBlockBitArray a t = (Ok tt, t') ∧ only_window a t t' ∧ pending W n a [] t'.
Proof.
  intros Ha Hn [P1 P2 P3 P4]. destruct (clear_run a t) as (t'&Hr&[f ->]&Hnone&Hb). exists (with_missedBits f t). split_and!; [done|apply only_window_bits; auto|].
  split; [done| |done|].
  - intros b Hbb Hne. apply window_ok_bits; [intros j; by apply Hb|auto].
  - intros i Ho Hc. apply tracks_nil; [done|rewrite Hc; unfold missed_in; by destruct (Z.to_nat W)|]. intros j. unfold bit. by rewrite Hnone.
Qed.
Lemma wp_SetInfo_pending W n a hist i s :
  pending W n a hist (sl s) → IndexOffset i = Z.of_nat (length hist) → MissedBlocksCounter i = missed_in W hist →
  wp (SetValidatorSigningInfo (X := Others) a i) (λ _ s', ∃ t, s' = with_sl t s ∧ windows W n t ∧ only_window a (sl s) t ∧ signingInfos t !! a = Some i ∧ tracks W a hist t i) s.
Proof.
  intros [P1 P2 P3 P4] Ho Hc. unfold SetValidatorSigningInfo. wpb. eapply (wp_mono _ (λ _ s', s' = s)).
  { unfold GetValidatorByConsAddr. wps. destruct (byConsAddr s !! a); [|by wps]. by apply wp_GetValidator. }
  intros o s' ->. apply wp_zoom. intros [] t [= <-]. eexists. split; [done|]. change (part (st_other s)) with (sl s).
  set (t' := with_signingInfos _ _). assert (tracks W a hist t' i) as Ht. { eapply (tracks_same _ _ _ (sl s) _ i); [done..|]. by apply P4. }
  split_and!; [|apply only_window_info|simpl; by rewrite lookup_insert_eq|done].
  split; [done|]. intros b Hb. unfold window_ok. simpl. destruct (decide (b = a)) as [->|Hne].
  - rewrite lookup_insert_eq. by exists hist.
  - rewrite lookup_insert_ne by done. change (o_slash (st_other s)) with (sl s). specialize (P2 b Hb Hne). unfold window_ok in P2. destruct (signingInfos (sl s) !! b) as [i'|]; [|done].
    destruct P2 as (h'&?&?). exists h'. split; [done|]. by eapply (tracks_same _ _ _ (sl s) _ i').
Qed.
End frame.

Section signature.
Context `{Crypto, !AddressLaws, ConsCrypto}.
Implicit Types s : ChainState.
Definition signs_as (jailed : bool) (a : ConsAddress) s : Prop :=
  ∃ v, validators s !! v_OperatorAddr v = Some v ∧ ConsAddr v = a ∧ v_Jailed v = jailed.
(** More blocks missed than the parameters allow, after a full window. *)
Definition absent (ctx : Ctx) (W : Z) (hist : list bool) (i : ValidatorSigningInfo) (minSigned : Z) : bool :=
  (wrap_int64 (StartHeight i + W) <? BlockHeight ctx) && (wrap_int64 (W - minSigned) <? missed_in W hist).
(** What a block that was signed or missed does: it is counted, or the validator is
    slashed, jailed and starts again.  [t1] is the slashing store with the block
    noted in the bits. *)
Inductive noted (ctx : Ctx) (W : Z) (a : ConsAddress) (power : Z) (hist : list bool) (i : ValidatorSigningInfo) (minSigned : Z) s s' : Prop :=
| noted_counted t :
    absent ctx W hist i minSigned = false ∨ ¬ signs_as false a s → s' = set_other (set_part t (st_other s)) s → only_window a (sl s) t →
    signingInfos t !! a = Some (mkSigningInfo (StartHeight i) (Z.of_nat (length hist)) (JailedUntil i) (missed_in W hist)) →
    tracks W a hist t (mkSigningInfo (StartHeight i) (Z.of_nat (length hist)) (JailedUntil i) (missed_in W hist)) → noted ctx W a power hist i minSigned s s'
| noted_punished t1 s2 s3 t until :
    absent ctx W hist i minSigned = true → signs_as false a s → only_window a (sl s) t1 →
    Slash ctx a (wrap_int64 (BlockHeight ctx - ValidatorUpdateDelay - 1)) power (p_SlashFractionDowntime (sl_params (sl s))) (set_other (set_part t1 (st_other s)) s) = (Ok tt, s2) →
    Jail a s2 = (Ok tt, s3) → s' = set_other (set_part t (st_other s3)) s3 → only_window a (sl s3) t →
    signs_as true a s' → until = BlockTime ctx + p_DowntimeJailDuration (sl_params (sl s)) →
    signingInfos (sl s') !! a = Some (mkSigningInfo (StartHeight i) 0 until 0) →
    tracks W a [] (sl s') (mkSigningInfo (StartHeight i) 0 until 0) → noted ctx W a power hist i minSigned s s'.
Lemma wp_Jail_signs a s : sinv 0 none s → wp (Jail a) (λ _ s', signs_as true a s' ∧ st_other s' = st_other s) s.
Proof.
  intros Hi. unfold Jail, mustGetValidatorByConsAddr. wpb. eapply wp_GetValidatorByConsAddr; [done|by wps|]. intros v Hv Hc. wps.
  eapply wp_jailValidator; [done..|]. intros k _ _. split; [|done]. exists (with_jailed true v). split_and!; [|done..]. simpl. by rewrite lookup_insert_eq.
Qed.
Lemma sinv_sl t s : sinv 0 none s → sinv 0 none (with_sl t s).
Proof. intros Hi. change (with_sl t s) with (set_other (set_part t (st_other s)) (set_auth (st_auth s) s)). apply sinv_kept; [done|]. split; [apply Hi..|done]. Qed.
Lemma wp_ByCons_signs c (Q : option Validator → ChainState → Prop) s :
  sinv 0 none s → ((∀ v, validators s !! v_OperatorAddr v = Some v → ConsAddr v ≠ c) → Q None s) →
  (∀ v, validators s !! v_OperatorAddr v = Some v → ConsAddr v = c →
     (∀ w, validators s !! v_OperatorAddr w = Some w → ConsAddr w = c → w = v) → Q (Some v) s) → wp (GetValidatorByConsAddr c) Q s.
Proof.
  intros Hi HN HS. pose proof (si_cons _ _ _ Hi) as Hc. unfold GetValidatorByConsAddr. wps. destruct (byConsAddr s !! c) as [a|] eqn:E.
  - pose proof E as (v&Hv&Hcv)%Hc. destruct (si_vals _ _ _ Hi _ _ Hv) as [<- _]. apply wp_GetValidator; [congruence|]. intros w Hw.
    assert (w = v) as -> by congruence. apply HS; [done..|]. intros w' Hw' Hcw. assert (byConsAddr s !! c = Some (v_OperatorAddr w')) as E2 by (apply Hc; eauto).
    congruence.
  - wps. apply HN. intros v Hv Hcv. assert (byConsAddr s !! c = Some (v_OperatorAddr v)) as E2 by (apply Hc; eauto). congruence.
Qed.
Lemma signs_sl j a t s : signs_as j a (with_sl t s) ↔ signs_as j a s.
Proof. done. Qed.
Lemma wp_ran {A} (c : M ChainState A) (Q : A → ChainState → Prop) s : wp c Q s → wp c (λ r s', c s = (Ok r, s') ∧ Q r s') s.
Proof. intros Hw r s' Hr. split; [done|by apply Hw]. Qed.
Lemma wp_slash_run {A} (c : M SlashState A) (Q : A → ChainState → Prop) s r t : c (sl s) = (Ok r, t) → Q r (with_sl t s) → wp (on_slash c) Q s.
Proof. intros Hr HQ. apply wp_zoom. intros r' t' Hr'. change (part (st_other s)) with (sl s) in Hr'. rewrite Hr in Hr'. by injection Hr' as <- <-. Qed.
Lemma wp_MinSigned (Q : Z → ChainState → Prop) s :
  (∀ k, (MinSignedPerWindow (sl s)).1 = Ok k → Q k s) → wp (on_slash MinSignedPerWindow) Q s.
Proof.
  intros HQ. apply wp_zoom. intros k t Hr. change (part (st_other s)) with (sl s) in Hr. assert (t = sl s) as ->.
  { unfold MinSignedPerWindow, param in Hr. by inv_ok Hr. }
  assert (set_other (set_part (sl s) (st_other s)) s = s) as -> by (by destruct s as [? []]). apply HQ. by rewrite Hr.
Qed.
Section one.
Context (ctx : Ctx) (a : ConsAddress) (power : Z) (W : Z) (n : ConsAddress → Z) (s : ChainState) (i : ValidatorSigningInfo).
Context (Hi : sinv 0 none s) (Ha : is_addr a) (Hn : ∀ b, 0 ≤ n b).
(** Slashed, jailed and cleared. *)
Lemma wp_punish minSigned hist :
  pending W (bump n a) a hist (sl s) → absent ctx W hist i minSigned = true → signs_as false a s →
  wp (Slash ctx a (wrap_int64 (BlockHeight ctx - ValidatorUpdateDelay - 1)) power (p_SlashFractionDowntime (sl_params (sl s))) ;;;
      Jail a ;;; duration <- on_slash (param p_DowntimeJailDuration) ;;
      on_slash (clearValidatorMissedBlockBitArray a) ;;; ret (mkSigningInfo (StartHeight i) 0 (BlockTime ctx + duration) 0))
    (λ i' s', i' = mkSigningInfo (StartHeight i) 0 (BlockTime ctx + p_DowntimeJailDuration (sl_params (sl s))) 0 ∧
       pending W (bump n a) a [] (sl s') ∧ signs_as true a s' ∧ ∃ s2 s3 t,
         Slash ctx a (wrap_int64 (BlockHeight ctx - ValidatorUpdateDelay - 1)) power (p_SlashFractionDowntime (sl_params (sl s))) s = (Ok tt, s2) ∧
         Jail a s2 = (Ok tt, s3) ∧ s' = with_sl t s3 ∧ only_window a (sl s3) t) s.
Proof.
  intros Hp Hab Hs. assert (∀ b, 0 ≤ bump n a b) as Hn'. { intros b. unfold bump. specialize (Hn b). case_decide; lia. }
  wpb. eapply wp_mono; [apply wp_ran, wp_and; [by apply wp_Slash|apply kw_Slash]|]. intros [] s1 [Hr1 [(Hi1&_&_) Hk1]]. wpb.
  eapply wp_mono; [by apply wp_ran, wp_Jail_signs|]. intros [] s2 [Hr2 [Hs2 E2]]. wpb. unfold param. apply wp_slash_gets. wpb.
  assert (sl s2 = sl s1) as E21 by (unfold sl; by rewrite E2).
  pose proof (pending_same _ _ _ _ _ _ Hn' Hk1 Hp) as Hp1. rewrite <-E21 in Hp1.
  destruct (pending_cleared _ _ _ _ _ Ha (Hn' a) Hp1) as (t&Hr&How&Hp2). eapply wp_slash_run; [exact Hr|]. wps. split_and!; [|done|done|by exists s1, s2, t].
  rewrite E21. by rewrite (sw_params _ _ Hk1).
Qed.
End one.
Lemma wp_signature ctx a power signed W n s i hist :
  sinv 0 none s → is_addr a → (∀ b, 0 ≤ n b) → windows W n (sl s) → 0 < W < 2^62 →
  signingInfos (sl s) !! a = Some i → tracks W a hist (sl s) i → Z.of_nat (length hist) ≤ n a < 2^62 →
  wp (handleValidatorSignature ctx a power signed) (λ _ s', windows W (bump n a) (sl s') ∧
    ∃ k, (MinSignedPerWindow (sl s)).1 = Ok k ∧ noted ctx W a power (negb signed :: hist) i k s s') s.
Proof.
  intros Hi Ha Hn Hw HW Ei Ht Hl. unfold handleValidatorSignature, must_getPubkey, must_SigningInfo, getPubkey, getValidatorSigningInfo.
  wpb. wpb. apply wp_slash_gets. eapply (wp_mono _ (λ _ s', s' = s)); [case_match; by wps|]. intros pk s0 ->.
  wpb. wpb. apply wp_slash_gets. rewrite Ei. wps. unfold param at 1. apply wp_slash_gets. rewrite (ws_window _ _ _ Hw). wpb. apply wp_expect. intros _.
  set (m := negb signed). destruct (pending_recorded W n a (sl s) i hist m Hw Ha Ht HW Hl) as (t1&Hr&[f Et1]&How1&Hp).
  wpb. eapply wp_slash_run; [exact Hr|]. wpb. apply wp_MinSigned. intros k Hk. wpb. set (s1 := with_sl t1 s).
  assert (sl s1 = t1) as E1 by done.
  assert ((MinSignedPerWindow (sl s)).1 = Ok k) as Hk'. { rewrite <-Hk, Et1. done. }
  assert (wrap_int64 (IndexOffset i + 1) = Z.of_nat (length (m :: hist))) as Eo.
  { rewrite (tk_offset _ _ _ _ _ Ht). cbn [length]. rewrite Nat2Z.inj_succ. rewrite wrap_int64_small; [lia|]. unfold is_int64. apply andb_true_iff. rewrite !Z.leb_le. lia. }
  rewrite Eo. set (plain := mkSigningInfo (StartHeight i) (Z.of_nat (length (m :: hist))) (JailedUntil i) (missed_in W (m :: hist))).
  assert (absent ctx W (m :: hist) i k = false ∨ ¬ signs_as false a s → wp (SetValidatorSigningInfo a plain)
    (λ _ s', windows W (bump n a) (sl s') ∧ ∃ k, (MinSignedPerWindow (sl s)).1 = Ok k ∧ noted ctx W a power (m :: hist) i k s s') s1) as Hplain.
  { intros Hno. eapply wp_mono; [by apply (wp_SetInfo_pending W (bump n a) a (m :: hist) plain)|]. intros [] s' (t2&->&Hws&How2&Hin&Htr).
    split; [done|]. exists k. split; [done|]. eapply (noted_counted _ _ _ _ _ _ _ _ _ t2); [done|by destruct s as [? []]|by trans t1|done..]. }
  fold (absent ctx W (m :: hist) i k). destruct (absent ctx W (m :: hist) i k) eqn:Eab; [|wps; apply Hplain; by left].
  wpb. assert (sinv 0 none s1) as Hi1 by (by apply sinv_sl). eapply wp_ByCons_signs; [exact Hi1| |].
  { intros Hno. wps. apply Hplain. right. intros (v&Hv&Hc&_). by eapply Hno. }
  intros v Hv Hc Huniq. destruct (v_Jailed v) eqn:Ej.
  { wps. apply Hplain. right. intros (w&Hw'&Hcw&Hjw). rewrite (Huniq w Hw' Hcw) in Hjw. congruence. }
  wpb. unfold param at 1. apply wp_slash_gets. eapply wp_mono.
  { eapply (wp_punish ctx a power W n s1 i Hi1 Ha Hn k (m :: hist) Hp Eab). by exists v. }
  intros i' s2 (->&Hp2&Hj&u2&u3&t2&Hsl&Hja&->&How2). eapply wp_mono; [apply (wp_SetInfo_pending W (bump n a) a []); [exact Hp2|done|unfold missed_in; by destruct (Z.to_nat W)]|].
  assert (sl_params (sl s1) = sl_params (sl s)) as Ep by (change (sl s1) with t1; by rewrite Et1). rewrite Ep in *.
  intros [] s3 (t3&->&Hws&How3&Hin&Htr). split; [done|]. exists k. split; [done|].
  eapply (noted_punished _ _ _ _ _ _ _ _ _ t1 u2 u3 t3); [done|by exists v|done|exact Hsl|exact Hja|by destruct u3 as [? []]|by trans t2|exact Hj|done|exact Hin|exact Htr].
Qed.
(** ** Along a run *)
Section run.
Context (W : Z) (HW : 0 < W < 2^62).
Definition on_time (n : ConsAddress → Z) m s : Prop := stake_ok m s ∧ windows W n (sl s) ∧ ∀ b, 0 ≤ n b.
Lemma on_time_kept {A} (c : M ChainState A) n m s : keeps runs c → keeps keeps_windows c → on_time n m s → wp c (λ _, on_time n m) s.
Proof.
  intros Hr Hk (Hok&Hw&Hn) r s' Hc. split_and!; [|by eapply windows_same; [eapply Hk|..]|done].
  by apply (steps_ok (m, s) (m, s')); [eapply Hr|].
Qed.
Lemma wp_signature_on_time ctx a power signed n m s :
  is_addr a → n a < 2^62 → on_time n m s → wp (handleValidatorSignature ctx a power signed) (λ _, on_time (bump n a) m) s.
Proof.
  intros Ha Hl (Hok&Hw&Hn). intros [] s' Hr. assert (stake_ok m s') as Hok'. { by apply (steps_ok (m, s) (m, s')); [eapply runs_signature|]. }
  split_and!; [done| |intros b; unfold bump; specialize (Hn b); case_decide; lia]. destruct (signingInfos (sl s) !! a) as [i|] eqn:Ei.
  - pose proof (ws_ok _ _ _ Hw a Ha) as Ho. unfold window_ok in Ho. rewrite Ei in Ho. destruct Ho as (hist&Hlen&Ht).
    by eapply (wp_signature ctx a power signed W n s i hist (ok_inv _ _ Hok)).
  - exfalso. assert (wp (handleValidatorSignature ctx a power signed) (λ _ _, False) s) as Hf; [|by apply Hf in Hr].
    unfold handleValidatorSignature, must_getPubkey, must_SigningInfo, getPubkey, getValidatorSigningInfo.
    wpb. wpb. apply wp_slash_gets. eapply (wp_mono _ (λ _ s', s' = s)); [case_match; by wps|]. intros pk s0 ->.
    wpb. wpb. apply wp_slash_gets. rewrite Ei. by wps.
Qed.
Definition votes_of (votes : list VoteInfo) (b : ConsAddress) : Z := list_sum (λ v, if decide (b = vote_Address v) then 1 else 0) votes.
Lemma votes_of_once votes b : NoDup (vote_Address <$> votes) → votes_of votes b ≤ 1.
Proof.
  unfold votes_of. induction votes as [|v votes IH]; simpl; [lia|]. intros [Hv Hd]%NoDup_cons. case_decide as E; [|by apply IH].
  assert (list_sum (λ v, if decide (b = vote_Address v) then 1 else 0) votes = 0) as ->; [|lia]. clear IH Hd. subst b.
  induction votes as [|w votes IH]; [done|]. simpl in *. apply not_elem_of_cons in Hv as [Hne Hv]. rewrite decide_False by done. by rewrite IH.
Qed.
Lemma votes_of_nonneg votes b : 0 ≤ votes_of votes b.
Proof. unfold votes_of. induction votes as [|v votes IH]; simpl; [done|]. case_decide; lia. Qed.
Lemma wp_votes ctx votes n m s :
  Forall (λ v, is_addr (vote_Address v)) votes → (∀ b, n b + votes_of votes b ≤ 2^62) → on_time n m s →
  wp (for_each votes (λ v, handleValidatorSignature ctx (vote_Address v) (vote_Power v) (vote_Signed v))) (λ _, on_time (λ b, n b + votes_of votes b) m) s.
Proof.
  intros Hv. revert n s. induction Hv as [|v votes Ha Hv IH]; intros n s Hn Ho; cbn [for_each].
  - apply wp_ret. destruct Ho as (Hok&Hw&Hnn). split_and!; [done| |intros b; specialize (Hnn b); unfold votes_of; simpl; lia].
    eapply windows_le; [|exact Hw]. intros b. unfold votes_of. simpl. lia.
  - wpb. eapply wp_mono; [apply wp_signature_on_time; [done| |exact Ho]|].
    { specialize (Hn (vote_Address v)). unfold votes_of in Hn. simpl in Hn. rewrite decide_True in Hn by done. pose proof (votes_of_nonneg votes (vote_Address v)). unfold votes_of in *. lia. }
    intros [] s1 Ho1. eapply wp_mono; [apply IH; [|exact Ho1]|].
    + intros b. specialize (Hn b). unfold bump, votes_of in *. simpl in Hn. lia.
    + intros [] s2 (Hok2&Hw2&Hn2). assert (∀ b, bump n (vote_Address v) b + votes_of votes b = n b + votes_of (v :: votes) b) as Eb.
      { intros b. unfold bump, votes_of. simpl. lia. }
      split_and!; [done|eapply windows_le; [|exact Hw2]; intros b; specialize (Eb b); simpl in *; lia|intros b; specialize (Hn2 b); specialize (Eb b); simpl in *; lia].
Qed.
Lemma kw_distr_msg ctx msg : keeps keeps_windows (Distr.distr_Handler (X := Others) ctx msg).
Proof. apply (B_distr_Handler keeps_windows kw_distr). Qed.
Lemma wp_begin_on_time ctx votes byz p n m s :
  NoDup (vote_Address <$> votes) → Forall (λ v, is_addr (vote_Address v)) votes → (∀ b, n b < 2^62) → on_time n m s →
  wp (Chain.BeginBlocker ctx votes byz p) (λ _, on_time (λ b, n b + votes_of votes b) m) s.
Proof.
  intros Hd Hv Hl Ho. unfold Chain.BeginBlocker. wpb. eapply wp_mono; [apply on_time_kept; [| |exact Ho]|].
  { intros s1. apply runs_cinv; [apply beside_mint|]. intros g. apply cinv_mint. }
  { apply keeps_zoom. intros s1 t. by apply kw_same. }
  intros [] s1 Ho1. wpb. eapply wp_mono; [apply on_time_kept; [apply runs_distr_begin|apply (B_BeginBlocker keeps_windows kw_distr)|exact Ho1]|].
  intros [] s2 Ho2. unfold Slashing.BeginBlocker. wpb. eapply wp_mono; [apply wp_votes; [done| |exact Ho2]|].
  { intros b. pose proof (votes_of_once votes b Hd). specialize (Hl b). lia. }
  intros [] s3 Ho3. apply on_time_kept; [| |exact Ho3].
  - apply (keeps_for_each runs). intros e. case_match; [apply runs_double_sign|apply (keeps_ret runs)].
  - apply (keeps_for_each keeps_windows). intros e. case_match; [apply kw_double_sign|apply (keeps_ret keeps_windows)].
Qed.
(** A step that does not change the length of the window. *)
Definition window_step (x y : gmap ConsKey Z * ChainState) : Prop := chain_step x y ∧ p_SignedBlocksWindow (sl_params (sl y.2)) = W.
Lemma window_step_on_time k x y :
  0 ≤ k < 2^62 → window_step x y → on_time (λ _, k) x.1 x.2 → on_time (λ _, k + 1) y.1 y.2.
Proof.
  intros Hk [Hst Hy] Ho. pose proof Ho as (Hok&Hw&_). assert (stake_ok y.1 y.2) as Hok' by (by eapply steps_ok; [eapply chain_step_stake|]).
  assert (∀ s s', keeps_windows s s' → windows W (λ _, k) (sl s) → windows W (λ _, k + 1) (sl s')) as Hkeep.
  { intros s s' Hs Hws. eapply (windows_le _ (λ _, k)); [intros; lia|]. eapply windows_same; [done|intros; lia|done]. }
  split_and!; [done| |intros; lia]. clear Hok'.
  destruct Hst as [ctx msg m s s' Hb Hg Ht Hr|ctx msg m s s' Hg Hr|ctx msg m s s' Hr|ctx votes byz p m s s' Hd Hv Hr|ctx n k' a m s s' Hr|ctx u m s s' Hc Hr|p m s Hp|p m s|p m s|a x0 m s Hkp Es Ed Ew];
    simpl in *.
  - eapply Hkeep, Hw. by eapply (K_Handler (λ _, True) keeps_windows kw_closed kw_hooked kw_closed_transit ctx msg I kw_takes).
  - eapply Hkeep, Hw. by eapply kw_distr_msg.
  - eapply Hkeep, Hw. by eapply kw_unjail.
  - destruct (wp_begin_on_time ctx votes byz p (λ _, k) m s Hd Hv ltac:(intros; lia) Ho _ _ Hr) as (_&Hw'&_).
    eapply windows_le; [|exact Hw']. intros b. simpl. pose proof (votes_of_once votes b Hd). lia.
  - eapply Hkeep, Hw. by eapply kw_slash_end.
  - eapply Hkeep, Hw. by eapply (K_EndBlocker (λ _, True) keeps_windows kw_closed kw_hooked kw_closed_transit kw_closed_last).
  - eapply Hkeep, Hw. by apply kw_same.
  - destruct Hw as [_ Hwo]. split; [done|]. intros b Hbb. specialize (Hwo b Hbb). unfold window_ok in *. simpl. change (o_slash (st_other s)) with (sl s).
    destruct (signingInfos (sl s) !! b) as [i|]; [|done]. destruct Hwo as (hist&?&?). exists hist. split; [lia|]. by eapply (tracks_same _ _ _ (sl s) _ i).
  - eapply Hkeep, Hw. by apply kw_same.
  - eapply Hkeep, Hw. by apply kw_same.
Qed.
Lemma nsteps_on_time k x y :
  nsteps window_step k x y → Z.of_nat k < 2^62 → on_time (λ _, 0) x.1 x.2 → on_time (λ _, Z.of_nat k) y.1 y.2.
Proof.
  intros Hs. assert (∀ k x y j, nsteps window_step k x y → 0 ≤ j → j + Z.of_nat k < 2^62 → on_time (λ _, j) x.1 x.2 → on_time (λ _, j + Z.of_nat k) y.1 y.2) as Hg.
  { clear k x y Hs. intros k x y j Hs. revert j. induction Hs as [x|k x y z Hx Hs IH]; intros j Hj Hk Ho; [by rewrite Z.add_0_r|].
    replace (j + Z.of_nat (S k)) with (j + 1 + Z.of_nat k) by lia. apply IH; [lia|lia|]. by eapply window_step_on_time; [|exact Hx|]; [lia|]. }
  intros Hk Ho. by apply (Hg k x y 0 Hs).
Qed.
End run.

(** ** Counting returns *)
Lemma tot_slash_run {A} (c : M SlashState A) (Q : A → ChainState → Prop) s r t : c (sl s) = (Ok r, t) → Q r (with_sl t s) → tot (on_slash c) Q s.
Proof. intros Hr HQ. apply tot_zoom. by exists r, t. Qed.
Lemma tot_slash_gets {A} (f : SlashState → A) (Q : A → ChainState → Prop) s : Q (f (sl s)) s → tot (on_slash (gets f)) Q s.
Proof. intros HQ. eapply tot_slash_run; [done|]. unfold with_sl. by destruct s as [? []]. Qed.
Lemma tot_ByCons a (Q : option Validator → ChainState → Prop) s : sinv 0 none s → (∀ o, Q o s) → tot (GetValidatorByConsAddr a) Q s.
Proof.
  intros Hi HQ. unfold GetValidatorByConsAddr, GetValidator. apply tot_bind, tot_gets. destruct (byConsAddr s !! a) as [op|]; [|by apply tot_ret].
  apply tot_bind, tot_gets. destruct (validators s !! op) as [v|] eqn:Ev; [|by apply tot_ret]. destruct (si_vals _ _ _ Hi _ _ Ev) as [<- Hv].
  unfold unmarshal. apply tot_bind, tot_bind, tot_expect; [apply bool_decide_eq_true, Hv|]. by apply tot_ret, tot_ret.
Qed.
Lemma signature_returns ctx a power signed W n s i hist k :
  sinv 0 none s → is_addr a → windows W n (sl s) → 0 < W < 2^62 →
  signingInfos (sl s) !! a = Some i → tracks W a hist (sl s) i → Z.of_nat (length hist) ≤ n a < 2^62 →
  is_Some (addrPubkey (sl s) !! a) → (MinSignedPerWindow (sl s)).1 = Ok k → absent ctx W (negb signed :: hist) i k = false →
  ∃ s', handleValidatorSignature ctx a power signed s = (Ok tt, s').
Proof.
  intros Hi Ha Hw HW Ei Ht Hl [pk Hpk] Hk Hab. cut (tot (handleValidatorSignature ctx a power signed) (λ _ _, True) s).
  { intros ([]&s'&Hr&_). by exists s'. }
  unfold handleValidatorSignature, must_getPubkey, must_SigningInfo, getPubkey, getValidatorSigningInfo.
  apply tot_bind, tot_bind, tot_slash_gets. rewrite Hpk. apply tot_ret, tot_bind, tot_bind, tot_slash_gets. rewrite Ei. apply tot_ret, tot_bind.
  unfold param at 1. apply tot_slash_gets. rewrite (ws_window _ _ _ Hw). apply tot_bind, tot_expect; [apply negb_true_iff, Z.eqb_neq; lia|].
  set (m := negb signed) in *. destruct (pending_recorded W n a (sl s) i hist m Hw Ha Ht HW Hl) as (t1&Hr&[f Et1]&How1&Hp).
  apply tot_bind. eapply tot_slash_run; [exact Hr|]. set (s1 := with_sl t1 s).
  assert (MinSignedPerWindow (sl s1) = (Ok k, sl s1)) as Hk1.
  { change (sl s1) with t1. rewrite Et1. revert Hk. unfold MinSignedPerWindow, param, bind, gets, lift. simpl. by intros ->. }
  apply tot_bind. eapply tot_slash_run; [exact Hk1|]. apply tot_bind.
  fold (absent ctx W (m :: hist) i k). rewrite Hab. apply tot_ret. unfold SetValidatorSigningInfo. apply tot_bind, tot_ByCons; [by do 2 apply sinv_sl|].
  intros o. by eapply tot_slash_run.
Qed.
(** C16. The count of missed blocks of a validator is that of the last blocks of the
    window, in every state of a chain that does not change the length of the window.
    When a block is signed or missed, the next count is right as well: the block is
    counted, and nothing but the bits and the signing record of the validator
    changes in the chain, unless more blocks were missed than allowed and the
    validator is not in jail; then, and only then, it is slashed by the fraction of
    the parameters and put into jail, nothing else of the slashing store changes but
    its bits and its record, it has to stay there for the time of the parameters,
    and its count starts again.  While no more blocks are missed than allowed,
    counting returns. *)
Theorem downtime_window W k s0 m s a i :
  fresh_stake s0 → signingInfos (sl s0) = ∅ → missedBits (sl s0) = ∅ → p_SignedBlocksWindow (sl_params (sl s0)) = W → 0 < W < 2^62 →
  nsteps (window_step W) k (∅, s0) (m, s) → Z.of_nat k < 2^62 → is_addr a → signingInfos (sl s) !! a = Some i →
  ∃ hist, tracks W a hist (sl s) i ∧ 0 ≤ MissedBlocksCounter i ≤ W ∧ ∀ ctx power signed,
    (∀ s', handleValidatorSignature ctx a power signed s = (Ok tt, s') →
       ∃ minSigned, (MinSignedPerWindow (sl s)).1 = Ok minSigned ∧ noted ctx W a power (negb signed :: hist) i minSigned s s') ∧
    (∀ minSigned, is_Some (addrPubkey (sl s) !! a) → (MinSignedPerWindow (sl s)).1 = Ok minSigned → absent ctx W (negb signed :: hist) i minSigned = false →
       ∃ s', handleValidatorSignature ctx a power signed s = (Ok tt, s')).
Proof.
  intros Hf E1 E2 E3 HW Hs Hk Ha Hi. destruct (nsteps_on_time W HW k (∅, s0) (m, s) Hs Hk) as (Hok&Hw&_).
  { split_and!; [by apply fresh_ok| |done]. split; [done|]. intros b _. unfold window_ok. simpl. rewrite E1, lookup_empty. intros j. unfold bit. by rewrite E2, lookup_empty. }
  simpl in *. pose proof (ws_ok _ _ _ Hw a Ha) as Ho. unfold window_ok in Ho. rewrite Hi in Ho. destruct Ho as (hist&Hlen&Ht). exists hist.
  split_and!; [done|rewrite (tk_count _ _ _ _ _ Ht); apply missed_in_range; lia..|]. intros ctx power signed. pose proof (ok_inv _ _ Hok) as Hinv. split.
  - intros s' Hr. by destruct (wp_signature ctx a power signed W (λ _, Z.of_nat k) s i hist Hinv Ha ltac:(intros; lia) Hw HW Hi Ht ltac:(lia) _ _ Hr).
  - intros minSigned. by apply (signature_returns ctx a power signed W (λ _, Z.of_nat k) s i hist minSigned Hinv Ha Hw HW Hi Ht ltac:(lia)).
Qed.

(** ** Back from jail *)
Definition unjail_outcome (ctx : Ctx) (op : ValAddress) s : Outcome unit :=
  match validators s !! op with
  | None => Err ErrNoValidatorForAddress
  | Some v =>
      if decide (delegations s !! GetDelegationKey op op = None) then Err ErrMissingSelfDelegation else
      if v_Jailed v then
        match signingInfos (sl s) !! ConsAddr v with
        | None => Err ErrNoValidatorForAddress
        | Some i => if BlockTime ctx <? JailedUntil i then Err ErrValidatorJailed else
                    let? _ := getValidatorPowerRank (with_jailed false v) in Ok tt
        end
      else Err ErrValidatorNotJailed
  end.
Section reads.
Context s (Hi : sinv 0 none s).
Lemma GetValidator_run op : GetValidator op s = (Ok (validators s !! op), s).
Proof.
  unfold GetValidator, bind, gets. destruct (validators s !! op) as [v|] eqn:E; [|done]. destruct (si_vals _ _ _ Hi _ _ E) as [<- Hv].
  unfold unmarshal, expect, bind. rewrite bool_decide_true; [done|]. apply Hv.
Qed.
Lemma GetDelegation_run d v : GetDelegation d v s = (Ok (delegations s !! GetDelegationKey d v), s).
Proof.
  unfold GetDelegation, bind, gets. destruct (delegations s !! GetDelegationKey d v) as [x|] eqn:E; [|done].
  destruct (si_dels _ _ _ Hi _ _ E) as (Ek&[Hd _]&Hv&_). unfold unmarshal, expect, bind. rewrite bool_decide_true; [done|].
  rewrite Ek. unfold GetDelegationKey. rewrite str_len_app, Hd, Hv. done.
Qed.
Lemma ByCons_run v : validators s !! v_OperatorAddr v = Some v → GetValidatorByConsAddr (ConsAddr v) s = (Ok (Some v), s).
Proof.
  intros Hv. unfold GetValidatorByConsAddr, bind, gets. rewrite (proj2 (si_cons _ _ _ Hi (ConsAddr v) (v_OperatorAddr v))) by eauto.
  by rewrite GetValidator_run, Hv.
Qed.
End reads.
Lemma rank_no_err v e : getValidatorPowerRank v ≠ Err e.
Proof.
  unfold getValidatorPowerRank, potential_power, GetPotentialPower, Dec_QuoInt, big_Quo, Dec_RoundInt64.
  change (AttoScaleFactor =? 0) with false. cbn [obind]. by destruct (is_int64 _).
Qed.
Lemma unjail_run ctx msg s :
  sinv 0 none s → ∃ s', handleMsgUnjail ctx msg s = (unjail_outcome ctx (uj_ValidatorAddr msg) s, s') ∧
    (∀ e, unjail_outcome ctx (uj_ValidatorAddr msg) s = Err e → s' = s) ∧
    (unjail_outcome ctx (uj_ValidatorAddr msg) s = Ok tt → ∃ v key, validators s !! uj_ValidatorAddr msg = Some v ∧ v_Jailed v = true ∧
       getValidatorPowerRank (with_jailed false v) = Ok key ∧ s' = unjail_state key v s).
Proof.
  intros Hi. unfold unjail_outcome, handleMsgUnjail. set (op := uj_ValidatorAddr msg). rewrite (bind_run _ _ _ _ _ (GetValidator_run s Hi op)).
  destruct (validators s !! op) as [v|] eqn:Ev; [|by exists s]. rewrite (bind_run _ _ _ _ _ (GetDelegation_run s Hi op op)).
  case_decide as Ed; [rewrite Ed; by exists s|]. assert (bool_decide (is_Some (delegations s !! GetDelegationKey op op)) = true) as ->.
  { apply bool_decide_eq_true. destruct (delegations s !! _); [by eexists|done]. }
  rewrite (bind_run _ _ _ _ _ (eq_refl : require true ErrMissingSelfDelegation s = (Ok tt, s))).
  destruct (v_Jailed v) eqn:Ej; [|by exists s]. rewrite (bind_run _ _ _ _ _ (eq_refl : require true ErrValidatorNotJailed s = (Ok tt, s))).
  change (PubKey_Address (v_ConsPubKey v)) with (ConsAddr v).
  assert (on_slash (getValidatorSigningInfo (ConsAddr v)) s = (Ok (signingInfos (sl s) !! ConsAddr v), s)) as Hinfo by (by destruct s as [? []]).
  rewrite (bind_run _ _ _ _ _ Hinfo). destruct (signingInfos (sl s) !! ConsAddr v) as [i|]; [|by exists s].
  destruct (BlockTime ctx <? JailedUntil i); [by exists s|]. rewrite (bind_run _ _ _ _ _ (eq_refl : require true ErrValidatorJailed s = (Ok tt, s))).
  destruct (si_vals _ _ _ Hi _ _ Ev) as [Eop Hvo]. assert (validators s !! v_OperatorAddr v = Some v) as Hv by (by rewrite Eop).
  unfold Unjail, mustGetValidatorByConsAddr. unfold bind at 1. rewrite (bind_run _ _ _ _ _ (ByCons_run s Hi v Hv)). unfold ret at 1. unfold unjailValidator. rewrite Ej.
  rewrite (bind_run _ _ _ _ _ (eq_refl : expect true "cannot unjail already unjailed validator" s = (Ok tt, s))).
  destruct (si_pool _ _ _ Hi) as (p&Hp&_). assert (GetPool s = (Ok p, s)) as Hpool by (unfold GetPool, bind, gets; by rewrite Hp).
  rewrite (bind_run _ _ _ _ _ Hpool). unfold SetValidator, SetValidatorByPowerIndex. unfold bind at 1, modify. cbn [v_Jailed with_jailed]. unfold bind, lift.
  destruct (getValidatorPowerRank (with_jailed false v)) as [key|e|w] eqn:Ek; cbn [obind].
  - eexists. split_and!; [done|done|]. intros _. by exists v, key.
  - by apply rank_no_err in Ek.
  - by eexists.
Qed.
(** A message to leave the jail is decided by the validator's own record, its self
    delegation and the time of its sentence.  It ends in one of the four errors, or
    puts the validator back into the power index and changes nothing else; an
    error leaves the state as it is. *)
Theorem unjail_decided s0 m s ctx msg :
  fresh_stake s0 → rtc chain_step (∅, s0) (m, s) →
  (handleMsgUnjail ctx msg s).1 = unjail_outcome ctx (uj_ValidatorAddr msg) s ∧
  (∀ e, unjail_outcome ctx (uj_ValidatorAddr msg) s = Err e → (handleMsgUnjail ctx msg s).2 = s) ∧
  (unjail_outcome ctx (uj_ValidatorAddr msg) s = Ok tt → ∃ v key, validators s !! uj_ValidatorAddr msg = Some v ∧ v_Jailed v = true ∧
     getValidatorPowerRank (with_jailed false v) = Ok key ∧
     (handleMsgUnjail ctx msg s).2 = unjail_state key v s ∧ stake_ok m (unjail_state key v s)).
Proof.
  intros Hf Hr. pose proof (reachable_ok _ _ _ Hf (ChainThms.chain_runs_stake _ _ _ Hf Hr)) as Hok.
  destruct (unjail_run ctx msg s (ok_inv _ _ Hok)) as (s'&Hrun&He&Ho). rewrite Hrun. split_and!; [done|done|]. intros Eo.
  destruct (Ho Eo) as (v&key&Hv&Hj&Hk&->). exists v, key. split_and!; [done..|]. apply (steps_ok (m, s) (m, unjail_state key v s)); [|done].
  eapply (runs_unjail ctx msg s tt); [|done]. by rewrite Hrun, Eo.
Qed.
End signature.

(** ** Double signs of one period *)
Section infractions.
Context `{Crypto, !AddressLaws, ConsCrypto}.
Implicit Types s : ChainState.
(** The same stake: the tokens of the validators, and what is delegated, unbonding and
    redelegated. *)
Record same_bonds s s' : Prop := {
  sb_tokens op : v_Tokens <$> validators s' !! op = v_Tokens <$> validators s !! op;
  sb_dels : delegations s' = delegations s;
  sb_ubds : ubds s' = ubds s;
  sb_reds : reds s' = reds s }.
#[global] Instance same_bonds_po : PreOrder same_bonds.
Proof.
  split; [by split|]. intros s1 s2 s3 [T1 D1 U1 R1] [T2 D2 U2 R2]. split; [intros op; by rewrite T2, T1|congruence..].
Qed.
Lemma same_bonds_beside a x s : same_bonds s (set_other x (set_auth a s)).
Proof. by split. Qed.
Lemma same_bonds_put v w s s' :
  validators s !! v_OperatorAddr v = Some v → v_Tokens w = v_Tokens v → validators s' = <[v_OperatorAddr v := w]> (validators s) →
  delegations s' = delegations s → ubds s' = ubds s → reds s' = reds s → same_bonds s s'.
Proof.
  intros Hv Et Es. split; [|done..]. intros op. rewrite Es.
  destruct (decide (op = v_OperatorAddr v)) as [->|Hne]; [rewrite lookup_insert_eq, Hv; simpl; congruence|by rewrite lookup_insert_ne].
Qed.

(** Slashing by nothing takes nothing. *)
Lemma chop_zero : chopPrecisionAndRound 0 = 0.
Proof. reflexivity. Qed.
Lemma no_amount power x :
  (let? p := NewDec power in let? a := Dec_Mul p 0 in let? a := Dec_MulInt a AttoScaleFactor in Dec_TruncateDec a) = Ok x → x = 0.
Proof.
  intros Hx. inv_ok Hx. unfold Dec_Mul, Dec_MulInt, Dec_TruncateDec in *. inv_ok Hx. rewrite NewDecFromInt_ok in Hx. injection Hx as <-.
  repeat match goal with E : dec_checked _ = Ok _ |- _ => apply dec_checked_ok in E as [-> _] | E : NewIntFromBigInt _ = Ok _ |- _ => apply NewIntFromBigInt_ok in E as [-> _] end.
  by rewrite Z.mul_0_r, chop_zero, Z.mul_0_l.
Qed.
Lemma wp_slash_none {A} (slash : A → M ChainState Dec) l s :
  Forall (λ a, wp (slash a) (λ d s', d = 0 ∧ s' = s) s) l → wp (slash_all slash 0 l) (λ d s', d = 0 ∧ s' = s) s.
Proof.
  induction 1 as [|a l Ha Hl IH]; [by apply wp_ret|]. cbn [slash_all]. wpb. eapply wp_mono; [exact Ha|]. intros d s' [-> ->]. wpb. by apply wp_ret.
Qed.
Lemma no_rounded (n : Int) x y : Dec_MulInt 0 n = Ok x → Dec_RoundInt x = Ok y → x = 0 ∧ y = 0.
Proof. intros [-> _]%dec_checked_ok [-> _]%NewIntFromBigInt_ok. by rewrite Z.mul_0_l, chop_zero. Qed.
Lemma wp_no_ubd ctx u h s : 0 ≤ amount (ub_Balance u) → wp (slashUnbondingDelegation ctx u h 0) (λ d s', d = 0 ∧ s' = s) s.
Proof.
  intros Hb. unfold slashUnbondingDelegation. case_match; [by wps|]. case_match; [by wps|]. wps.
  destruct (no_rounded _ _ _ Hx Hx0) as [-> ->]. rewrite MinInt_min, Z.min_l by done. apply wp_ret. by wps.
Qed.
Lemma wp_no_red ctx r h s : 0 ≤ amount (rd_Balance r) → wp (slashRedelegation ctx r h 0) (λ d s', d = 0 ∧ s' = s) s.
Proof.
  intros Hb. unfold slashRedelegation. case_match; [by wps|]. case_match; [by wps|]. wps.
  destruct (no_rounded _ _ _ Hx Hx0) as [-> ->]. rewrite MinInt_min, Z.min_l by done. apply wp_ret. wps.
  apply dec_checked_ok in Hx1 as [-> _]. rewrite Z.mul_0_l, chop_zero. by apply wp_ret.
Qed.
Lemma wp_Slash_none ctx c h p s : sinv 0 none s → wp (Slash ctx c h p 0) (λ _, same_bonds s) s.
Proof.
  intros Hi. unfold Slash. wpb. apply wp_expect. intros _. wps. apply no_amount in Hx as ->.
  eapply wp_GetValidatorByConsAddr; [done|by wps|]. intros v Hv _.
  destruct (si_vals _ _ _ Hi _ _ Hv) as [_ Hvo]. wpb. apply wp_expect. intros _. wpb.
  eapply wp_outside; [apply law_modified|done|done|]. intros _ a1 x1 Hi1. wpb. set (s1 := set_other x1 (set_auth a1 s)) in *.
  eapply (wp_mono _ (λ d s2, d = 0 ∧ s2 = s1)).
  { case_match; [by wps|]. case_match; [by wps|]. wpb.
    eapply wp_mono; [by apply (wp_UBDsFromValidator _ 0 none)|]. intros us s2 (->&Hus&_). wpb. eapply wp_mono; [apply wp_slash_none|].
    { eapply Forall_impl; [exact Hus|]. intros u Hu. apply wp_no_ubd. by destruct (uo_record _ _ (si_ubds _ _ _ Hi1) _ _ Hu) as (_&_&_&_&Hb&_). }
    intros d s2 [-> ->]. wpb. eapply wp_mono; [eapply wp_REDsFromValidator; [done|apply Hvo]|]. intros rs s3 (->&Hrs&_&_).
    apply wp_slash_none. eapply Forall_impl; [exact Hrs|]. intros r [Hr _]. apply wp_no_red, Hr. }
  intros d s2 [-> ->]. assert (MaxDec (MinDec 0 (v_Tokens v)) ZeroDec = 0) as ->.
  { unfold MinDec, MaxDec, Dec_LT. destruct (0 <? v_Tokens v) eqn:E1; [done|]. destruct (v_Tokens v <? ZeroDec) eqn:E2; [done|]. apply Z.ltb_ge in E1, E2. unfold ZeroDec in *. lia. }
  wpb. eapply (wp_RemoveValidatorTokens v); [done|done|by exists 0|]. intros k k' pl a _ v' _. wps. apply wp_expect. intros _. wps.
  apply wp_zoom. intros [] a' _. trans s1; [apply same_bonds_beside|]. apply (same_bonds_put v v'); try done. simpl. lia.
Qed.

(** Slashing leaves the periods alone. *)
Definition same_periods s s' : Prop := periods (sl s') = periods (sl s).
#[global] Instance same_periods_po : PreOrder same_periods.
Proof. unfold same_periods. split; [by intros s|]. intros s1 s2 s3. congruence. Qed.
Lemma sp_closed : closed same_periods.
Proof. by split. Qed.
Lemma sp_transit : closed_transit same_periods.
Proof. by split. Qed.
Lemma sp_distr : distr_closed same_periods.
Proof. by split. Qed.
Lemma sp_dropping v (c : M ChainState unit) : keeps same_periods c → keeps same_periods (dropping v c).
Proof. intros Hc. unfold dropping. assert (∀ n, keeps same_periods (modify (write_off n))) as Hw by (intros n; by apply keeps_modify). keeps; auto. Qed.
Lemma sp_taking : hooked_taking (λ _, True) same_periods.
Proof.
  split; intros; cbn [chain_hooks OnValidatorModified OnValidatorRemoved OnDelegationSharesModified OnDelegationRemoved].
  - apply (B_modified same_periods sp_distr).
  - unfold Distr.onValidatorRemoved, Slashing.onValidatorRemoved.
    assert (keeps same_periods (on_slash (X := Others) (deleteAddrPubkeyRelation c))) by (intros s; apply wp_zoom; by intros [] t [= <-]).
    keeps. apply sp_dropping, (B_distr same_periods sp_distr).
  - apply (B_del_modified same_periods sp_distr).
  - apply (B_del_removed same_periods sp_distr).
Qed.
Lemma wp_SetInfo a i s : wp (SetValidatorSigningInfo (X := Others) a i) (λ _ s', s' = with_sl (with_signingInfos (insert a i) (sl s)) s) s.
Proof.
  unfold SetValidatorSigningInfo. wpb. eapply (wp_mono _ (λ _ s', s' = s)).
  { unfold GetValidatorByConsAddr. wps. destruct (byConsAddr s !! a); [|by wps]. by apply wp_GetValidator. }
  intros o s' ->. apply wp_zoom. by intros [] t [= <-].
Qed.
(** What the cap does when it returns. *)
Lemma wp_cap a f h t :
  periods_ok t → is_addr a → wp (capBySlashingPeriod a f h) (λ r t', ∃ n v, period_of t a h n v ∧ (pv_EndHeight v ≤ 0 ∨ h ≤ pv_EndHeight v) ∧
    r = Z.max (pv_SlashedSoFar v) f - pv_SlashedSoFar v ∧ t' = with_periods (insert (period_key a n) (charge v f)) t) t.
Proof.
  intros Hok Ha r t' Hr. destruct (period_lookup t a h Hok Ha) as [(n&v&Hp&Hrun)|[_ Hrun]].
  - exists n, v. pose proof (cap_run t a f h n v Hok Ha Hp) as Hcap. assert (pv_EndHeight v ≤ 0 ∨ h ≤ pv_EndHeight v) as He.
    { unfold capBySlashingPeriod in Hr. rewrite (bind_run _ _ _ _ _ Hrun) in Hr. unfold expect in Hr. cbn [sp_EndHeight] in Hr.
      destruct (Z.ltb_spec 0 (pv_EndHeight v)), (Z.ltb_spec (pv_EndHeight v) h); simpl in Hr; [done|lia..]. }
    assert (dec_ok (Z.max (pv_SlashedSoFar v) f - pv_SlashedSoFar v)) as Hd.
    { unfold capBySlashingPeriod in Hr. rewrite (bind_run _ _ _ _ _ Hrun) in Hr. cbn [sp_EndHeight sp_SlashedSoFar sp_ValidatorAddr sp_StartHeight] in Hr. inv_ok Hr.
      match goal with E : Dec_Sub (MaxDec ?x ?y) ?x = Ok _ |- _ => apply dec_checked_ok in E as [_ E]; replace (MaxDec x y) with (Z.max x y) in E; [done|] end.
      unfold MaxDec, Dec_LT. destruct (Z.ltb_spec (pv_SlashedSoFar v) f); lia. }
    rewrite Hcap in Hr by done. by injection Hr as <- <-.
  - unfold capBySlashingPeriod, bind in Hr. by rewrite Hrun in Hr.
Qed.

(** What evidence of a double sign does: it is too late to punish it, or the validator
    is slashed by what the fraction of the parameters adds to the fraction [z] its
    period was charged before, and goes to jail. *)
Definition infraction_height (h : Z) : Z := wrap_int64 (h - ValidatorUpdateDelay).
Definition too_late (ctx : Ctx) (a : ConsAddress) (h : Z) s : Prop :=
  (∀ v, validators s !! v_OperatorAddr v = Some v → ConsAddr v = a → v_Status v = Unbonded) ∨
  p_MaxEvidenceAge (sl_params (sl s)) < wrap_int64 (BlockHeight ctx - h).
Record punished (ctx : Ctx) (a : ConsAddress) (h power n : Z) (v : ValidatorSlashingPeriodValue) s s' : Prop := {
  pn_period : period_of (sl s) a (infraction_height h) n v;
  pn_charged : periods (sl s') = <[period_key a n := charge v (p_SlashFractionDoubleSign (sl_params (sl s)))]> (periods (sl s));
  pn_params : sl_params (sl s') = sl_params (sl s);
  pn_slashed : let f := p_SlashFractionDoubleSign (sl_params (sl s)) in let z := pv_SlashedSoFar v in
    ∃ s1, Slash ctx a (infraction_height h) power (Z.max z f - z)
      (set_other (set_part (with_periods (insert (period_key a n) (charge v f)) (sl s)) (st_other s)) s) = (Ok tt, s1) ∧ same_bonds s1 s';
  pn_jailed : signs_as false a s → signs_as true a s';
  pn_until : JailedUntil <$> signingInfos (sl s') !! a = Some (BlockTime ctx + p_DoubleSignJailDuration (sl_params (sl s))) }.
Lemma wp_Jail_bonds a s : sinv 0 none s → wp (Jail a) (λ _, same_bonds s) s.
Proof.
  intros Hi. unfold Jail, mustGetValidatorByConsAddr. wpb. eapply wp_GetValidatorByConsAddr; [done|by wps|]. intros v Hv _. wps.
  eapply wp_jailValidator; [done..|]. intros k _ _. by apply (same_bonds_put v (with_jailed true v)).
Qed.
Lemma wp_jail_until a n s :
  wp (jail_until (X := Others) a n) (λ _ s', ∃ i, s' = with_sl (with_signingInfos (insert a i) (sl s)) s ∧ JailedUntil i = n) s.
Proof.
  unfold jail_until, must_SigningInfo, getValidatorSigningInfo. wpb. wpb. apply wp_slash_gets. destruct (signingInfos (sl s) !! a) as [i|]; [|by wps]. wps.
  eapply wp_mono; [apply wp_SetInfo|]. intros [] s' ->. by eexists.
Qed.
Lemma wp_double_sign ctx a h power s :
  sinv 0 none s → periods_ok (sl s) → is_addr a →
  wp (handleDoubleSign ctx a h power) (λ _ s', (too_late ctx a h s ∧ s' = s) ∨ ∃ n v, punished ctx a h power n v s s') s.
Proof.
  intros Hi Hok Ha. unfold handleDoubleSign, must_getPubkey, getPubkey. wpb. eapply wp_ByCons_signs; [done| |].
  { intros Hno. wps. left. split; [left; intros v Hv Hc; by destruct (Hno v Hv)|done]. }
  intros w Hw Hc Huniq. case_bool_decide as Eu; [wps; left; split; [left; intros v Hv Hcv; by rewrite (Huniq v Hv Hcv)|done]|].
  wpb. wpb. apply wp_slash_gets. eapply (wp_mono _ (λ _ s', s' = s)); [case_match; by wps|]. intros pk s0 ->. wpb. unfold param at 1. apply wp_slash_gets.
  destruct (Z.ltb_spec (p_MaxEvidenceAge (sl_params (sl s))) (wrap_int64 (BlockHeight ctx - h))); [wps; left; split; [by right|done]|].
  wpb. unfold param at 1. apply wp_slash_gets. 
  eapply (wp_mono _ (λ _ s', ∃ n v, punished ctx a h power n v s s')); [|by right]. wpb. fold (infraction_height h).
  set (f := p_SlashFractionDoubleSign (sl_params (sl s))). apply wp_zoom. intros r t Hr. destruct (wp_cap a f (infraction_height h) (sl s) Hok Ha _ _ Hr) as (n&v&Hp&He&->&->).
  set (s0 := set_other _ s). wpb. eapply wp_mono; [apply wp_ran, wp_and; [apply wp_Slash; by apply sinv_sl|apply wp_and; [apply kw_Slash|]]|].
  { by apply (K_Slash (λ _, True) same_periods sp_closed sp_taking sp_transit). }
  intros [] s1 [Hs1 [(Hi1&Hst&_) [Hk1 Hp1]]]. wpb.
  eapply (wp_mono _ (λ _ s2, same_bonds s1 s2 ∧ sl s2 = sl s1 ∧ (v_Jailed w = false → signs_as true a s2))).
  { destruct (v_Jailed w); [by wps|]. eapply wp_mono; [apply wp_and; [by apply wp_Jail_signs|by apply wp_Jail_bonds]|].
    intros [] s2 [[Hs2 E2] Hb2]. split_and!; [done|unfold sl; by rewrite E2|done]. }
  intros [] s2 (Hb2&E2&Hj2). wpb. unfold param. apply wp_slash_gets. eapply wp_mono; [apply wp_jail_until|].
  intros [] s3 (i&->&Eu'). exists n, v. assert (sl_params (sl s2) = sl_params (sl s)) as Ep by (rewrite E2; by rewrite (sw_params _ _ Hk1)). split; [done| | | | |].
  - simpl. change (o_slash (st_other s2)) with (sl s2). rewrite E2. by rewrite Hp1.
  - done.
  - exists s1. split; [exact Hs1|]. trans s2; [done|by split].
  - intros (w'&Hw'&Hcw&Hjw). apply signs_sl, Hj2. by rewrite <-(Huniq w' Hw' Hcw).
  - simpl. rewrite lookup_insert_eq. simpl. by rewrite Eu', Ep.
Qed.
Lemma period_of_unique t a h n v n' v' : period_of t a h n v → period_of t a h n' v' → n' = n ∧ v' = v.
Proof.
  intros [A1 S1 L1] [A2 S2 L2]. assert (n' = n) as ->.
  { destruct (Z.lt_total n n') as [Hlt|[|Hlt]]; [|done|]; [rewrite L1 in A2 by lia|rewrite L2 in A1 by lia]; done. }
  split; [done|congruence].
Qed.
Lemma period_of_charged t t' a n v w h :
  periods t' = <[period_key a n := w]> (periods t) → period_of t a h n v → period_of t' a h n w.
Proof.
  intros Et [A S L]. pose proof (wrap64_range (h + ValidatorUpdateDelay)). split; [unfold period_at; by rewrite Et, lookup_insert_eq|done|].
  intros k Hk. unfold period_at. rewrite Et, lookup_insert_ne; [by apply L|]. intros [_ E]%str_app_inj; [|done]. apply Uint64ToBigEndian_inj in E; lia.
Qed.
Lemma periods_ok_charged t t' a h n v w : is_addr a → periods_ok t → period_of t a h n v → periods t' = <[period_key a n := w]> (periods t) → periods_ok t'.
Proof.
  intros Ha Hok [_ S _] Et k x. rewrite Et. pose proof (wrap64_range (h + ValidatorUpdateDelay)).
  intros [[<- _]|[_ Hk]]%lookup_insert_Some; [exists a, n; split_and!; [done..|lia|lia]|by eapply Hok].
Qed.
(** A period charged the whole fraction costs no more. *)
Lemma punished_again ctx a h power n v s s' :
  sinv 0 none s → p_SlashFractionDoubleSign (sl_params (sl s)) ≤ pv_SlashedSoFar v → punished ctx a h power n v s s' → same_bonds s s'.
Proof.
  intros Hi Hf [Hp _ _ (s1&Hs&Hb) _ _]. simpl in Hs. rewrite Z.max_l, Z.sub_diag in Hs by done. trans s1; [|done].
  trans (set_other (set_part (with_periods (insert (period_key a n) (charge v (p_SlashFractionDoubleSign (sl_params (sl s))))) (sl s)) (st_other s)) s); [by split|].
  eapply wp_Slash_none; [|exact Hs]. by apply sinv_sl.
Qed.
Definition double_signs (ctx : Ctx) (a : ConsAddress) (l : list Evidence) : M ChainState unit :=
  for_each l (λ e, handleDoubleSign ctx a (ev_Height e) (ev_Power e)).
Lemma wp_charged ctx a n v m l s :
  stake_ok m s → periods_ok (sl s) → is_addr a → p_SlashFractionDoubleSign (sl_params (sl s)) ≤ pv_SlashedSoFar v →
  Forall (λ e, period_of (sl s) a (infraction_height (ev_Height e)) n v) l → wp (double_signs ctx a l) (λ _, same_bonds s) s.
Proof.
  intros Hok Hp Ha Hf Hl. revert s Hok Hp Hf Hl. induction l as [|e l IH]; intros s Hok Hp Hf Hl; unfold double_signs; cbn [for_each]; [by apply wp_ret|].
  apply Forall_cons in Hl as [He Hl]. wpb. eapply wp_mono; [apply wp_and; [apply wp_double_sign; [apply Hok|done..]|apply runs_double_sign]|].
  intros [] s1 [Hd Hr]. assert (stake_ok m s1) as Hok1 by (apply (steps_ok (m, s) (m, s1)); [by apply Hr|done]).
  destruct Hd as [[_ ->]|(n'&v'&Hpn)]; [by apply IH|]. destruct (period_of_unique _ _ _ _ _ _ _ He (pn_period _ _ _ _ _ _ _ _ Hpn)) as [-> ->].
  pose proof (pn_charged _ _ _ _ _ _ _ _ Hpn) as Ec. assert (charge v (p_SlashFractionDoubleSign (sl_params (sl s))) = v) as Ev.
  { unfold charge. rewrite Z.max_l by done. by destruct v. }
  rewrite Ev in Ec. eapply wp_mono; [apply IH; [done|by eapply periods_ok_charged|by rewrite (pn_params _ _ _ _ _ _ _ _ Hpn)|]|].
  { eapply Forall_impl; [exact Hl|]. intros e' He'. exact (period_of_charged _ _ _ _ _ _ _ Ec He'). }
  intros [] s2 Hs2. cbv beta in Hs2. trans s1; [exact (punished_again _ _ _ _ _ _ _ _ (ok_inv _ _ Hok) Hf Hpn)|done].
Qed.
End infractions.
End SlashThms.

Module SlashExample.
Import StakeTypes Stake StakeFacts StakeQueue StakeInv StakeFrame StakeOps StakeSlash StakeSet StakeApply StakeDue StakeChecks StakeThms StakeSteps StakeExample DistrTypes DistrFacts Chain ChainThms ChainExample Slashing SlashFacts SlashThms.
#[local] Existing Instance pad_crypto.
#[local] Existing Instance pad_laws.
#[local] Existing Instance ChainExample.name_cons.
(** Bob misses the second block. *)
Definition missing_begin : M ChainState unit := Chain.BeginBlocker (ex_ctx 2) [mkVote alice 100 true; mkVote bob 100 false] [] alice.
Definition missed : ChainState := (missing_begin c1).2.
Definition counted (k : nat) (s : ChainState) : Prop := ∃ m, nsteps (window_step 200) k (∅, c0) (m, s).
Lemma counted_step k s s' m' : counted k s → (∀ m, chain_step (m, s) (m' m, s')) → p_SignedBlocksWindow (sl_params (sl s')) = 200 → counted (S k) s'.
Proof. intros [m Hm] Hs Hw. exists (m' m). eapply nsteps_r; [exact Hm|]. by split. Qed.
Lemma counted_c1 : counted 3 c1.
Proof.
  assert (counted 2 (c_msg 1 (c_create bob) (c_msg 1 (c_create alice) c0).2).2) as H2.
  { eapply (counted_step 1 _ _ id); [|apply (c_msg_step 1 (c_create bob) bob); [by right|vm_compute; reflexivity..|lia|vm_compute; reflexivity]|vm_compute; reflexivity].
    eapply (counted_step 0 _ _ id); [by exists ∅; constructor|apply (c_msg_step 1 (c_create alice) alice); [by left|vm_compute; reflexivity..|lia|vm_compute; reflexivity]|vm_compute; reflexivity]. }
  destruct (c_end_step 1 (c_msg 1 (c_create bob) (c_msg 1 (c_create alice) c0).2).2) as [u Hu]; [lia|vm_compute; reflexivity|].
  apply (counted_step 2 _ c1 (λ m, foldl tm_update m u) H2 Hu). vm_compute. reflexivity.
Qed.
Lemma missing_step s : passes missing_begin s = true → ∀ m, chain_step (m, s) (m, (missing_begin s).2).
Proof. intros [[] Hr]%passes_run m. eapply chain_begin, Hr; simpl; repeat constructor; set_solver. Qed.
Lemma counted_missed : counted 4 missed.
Proof. apply (counted_step 3 _ missed id counted_c1); [apply missing_step; vm_compute; reflexivity|vm_compute; reflexivity]. Qed.
Definition bob_record : ValidatorSigningInfo := mkSigningInfo 1 1 0 1.
Lemma downtime_window_witness :
  ∃ hist, tracks 200 bob hist (sl missed) bob_record ∧ hist = [true] ∧
    ∃ s', handleValidatorSignature (ex_ctx 3) bob 100 false missed = (Ok tt, s') ∧ noted (ex_ctx 3) 200 bob 100 [true; true] bob_record 100 missed s'.
Proof.
  destruct counted_missed as [m Hm].
  destruct (downtime_window 200 4 c0 m missed bob bob_record chain_fresh) as (hist&Ht&_&Hnext);
    [reflexivity..|lia|exact Hm|lia|reflexivity|vm_compute; reflexivity|]. exists hist.
  assert (hist = [true]) as ->.
  { pose proof (tk_offset _ _ _ _ _ Ht) as Ho. pose proof (tk_count _ _ _ _ _ Ht) as Hc. destruct hist as [|[] [|b hist]]; try done; simpl in Ho; lia. }
  split_and!; [done|done|]. destruct (Hnext (ex_ctx 3) 100 false) as [Hn Hr].
  destruct (Hr 100) as [s' Hs']; [eexists; vm_compute; reflexivity|vm_compute; reflexivity|vm_compute; reflexivity|]. exists s'. split; [done|].
  destruct (Hn s' Hs') as (k&Hk&Hnoted). assert (k = 100) as ->; [|exact Hnoted]. revert Hk. vm_compute. by intros [= <-].
Defined.
Lemma unjail_decided_witness : (handleMsgUnjail (ex_ctx 2) (mkMsgUnjail alice) c1).1 = Err ErrValidatorNotJailed.
Proof.
  destruct reach_c1 as [m Hm]. destruct (unjail_decided c0 m c1 (ex_ctx 2) (mkMsgUnjail alice) chain_fresh Hm) as [Ho _]. rewrite Ho. vm_compute. reflexivity.
Defined.
(** Alice signed twice in the third block. *)
Abbreviation twice := (handleDoubleSign (X := Others) (ex_ctx 5) alice 3 100).
Lemma periods_c1 : periods_ok (sl c1).
Proof.
  assert (forallb (λ kv, bool_decide (kv.1 = period_key alice 2) || bool_decide (kv.1 = period_key bob 2)) (map_to_list (periods (sl c1))) = true) as Hl.
  { vm_compute. reflexivity. }
  intros k v Hk%elem_of_map_to_list. rewrite forallb_forall in Hl. specialize (Hl _ (proj1 (list_elem_of_In _ _) Hk)). cbn [fst] in Hl. apply orb_true_iff in Hl.
  destruct Hl as [->%bool_decide_eq_true| ->%bool_decide_eq_true]; [exists alice, 2|exists bob, 2]; by split_and!.
Qed.
End SlashExample.
