(* ===== verification/Rat.v ===== *)
(** * Rational numbers (types/rational.go)

    A [Rat] wraps a [big.Rat], which keeps its fraction in lowest terms with a
    positive denominator; it is modelled by such a pair. *)

From Stdlib Require Import Ascii.
From S2P Require Import Prelude SdkErrors IntType GoStrings Dec.
#[local] Open Scope Z_scope.

Record Rat := mkRat { rnum : Z; rden : Z }.

#[export] Instance Rat_eq_dec : EqDecision Rat.
Proof. solve_decision. Defined.

(** [big.Rat.norm]: lowest terms, the sign on the numerator. *)
Definition rat_norm (a b : Z) : Rat :=
  let g := Z.gcd a b in mkRat (Z.sgn b * (a / g)) (Z.abs b / g).

(** A fraction with a zero denominator panics. *)
Definition SetFrac (a b : Z) : Outcome Rat :=
  if b =? 0 then Panic "division by zero" else Ok (rat_norm a b).

Definition ZeroRat : Rat := mkRat 0 1.
Definition OneRat : Rat := mkRat 1 1.

Definition NewRat (Numerator : Z) (Denominator : list Z) : Outcome Rat :=
  match Denominator with
  | [] => SetFrac Numerator 1
  | [d] => SetFrac Numerator d
  | _ => Panic "improper use of New, can only have one denominator"
  end.
Definition NewRatFromBigInt (num : Z) (denom : list Z) : Outcome Rat :=
  match denom with
  | [] => Ok (mkRat num 1)
  | [d] => SetFrac num d
  | _ => Panic "improper use of NewRatFromBigInt, can only have one denominator"
  end.
Definition NewRatFromInt (num : Int) (denom : list Int) : Outcome Rat :=
  match denom with
  | [] => Ok (mkRat num 1)
  | [d] => SetFrac num d
  | _ => Panic "improper use of NewRatFromBigInt, can only have one denominator"
  end.

Definition Rat_Num (r : Rat) : Outcome Int := NewIntFromBigInt (rnum r).
Definition Rat_Denom (r : Rat) : Outcome Int := NewIntFromBigInt (rden r).
Definition Rat_IsZero (r : Rat) : Outcome bool := let? n := Rat_Num r in Ok (Int_IsZero n).

(** [big.Rat.Cmp] compares cross products. *)
Definition rat_cmp (r r2 : Rat) : comparison := rnum r * rden r2 ?= rnum r2 * rden r.
Definition Rat_Equal (r r2 : Rat) : bool := match rat_cmp r r2 with Eq => true | _ => false end.
Definition Rat_GT (r r2 : Rat) : bool := match rat_cmp r r2 with Gt => true | _ => false end.
Definition Rat_LT (r r2 : Rat) : bool := match rat_cmp r r2 with Lt => true | _ => false end.
Definition Rat_GTE (r r2 : Rat) : bool := negb (Rat_LT r r2).
Definition Rat_LTE (r r2 : Rat) : bool := negb (Rat_GT r r2).

Definition Rat_Mul (r r2 : Rat) : Rat := rat_norm (rnum r * rnum r2) (rden r * rden r2).
Definition Rat_Quo (r r2 : Rat) : Outcome Rat := SetFrac (rnum r * rden r2) (rden r * rnum r2).
Definition Rat_Add (r r2 : Rat) : Rat :=
  rat_norm (rnum r * rden r2 + rnum r2 * rden r) (rden r * rden r2).
Definition Rat_Sub (r r2 : Rat) : Rat :=
  rat_norm (rnum r * rden r2 - rnum r2 * rden r) (rden r * rden r2).

(** Bankers rounding. *)
Definition EvaluateBig (r : Rat) : Z :=
  let num := rnum r in
  let denom := rden r in
  let d := Z.quot num denom in
  let rem := Z.rem num denom in
  if rem =? 0 then d else
  let tenNum := num * 10 in
  let tenD := d * 10 in
  let remainderDigit := Z.quot tenNum denom - tenD in
  let isFinalDigit := Z.rem tenNum denom =? 0 in
  if isFinalDigit && ((remainderDigit =? 5) || (remainderDigit =? -5)) then d + Z.rem d 2
  else if 5 <=? remainderDigit then d + 1
  else if remainderDigit <=? -5 then d - 1
  else d.

Definition Rat_RoundInt64 (r : Rat) : Z := wrap_int64 (EvaluateBig r).
Definition Rat_RoundInt (r : Rat) : Outcome Int := NewIntFromBigInt (EvaluateBig r).
Definition Rat_Round (r : Rat) (precisionFactor : Z) : Outcome Rat :=
  let rTen := Rat_Mul r (mkRat precisionFactor 1) in
  NewRat (Rat_RoundInt64 rTen) [precisionFactor].

(** ** Decimal strings *)
Definition getNumeratorDenominator (strs : list (list ascii)) (prec : nat)
    : Outcome (list ascii * Z) :=
  match strs with
  | [whole] =>
      if bool_decide (length whole = 0%nat) then Err ErrUnknownRequest else Ok (whole, 1)
  | [whole; decs] =>
      if bool_decide (length whole = 0%nat) || bool_decide (length decs = 0%nat)
      then Err ErrUnknownRequest else
      if bool_decide (prec < length decs)%nat then Err ErrUnknownRequest else
      Ok (whole ++ decs, wrap_int64 (10 ^ Z.of_nat (length decs)))
  | _ => Err ErrUnknownRequest
  end.

Definition NewRatFromDecimal (decimalStr : string) (prec : nat) : Outcome Rat :=
  let l := chars decimalStr in
  if bool_decide (length l = 0%nat) then Err ErrUnknownRequest else
  let neg := bool_decide (head l = Some "-"%char) in
  let l := if neg then tail l else l in
  let? nd := getNumeratorDenominator (split_chars "." l) prec in
  let '(numStr, denom) := nd in
  match parse_int numStr with
  | None => Err ErrUnknownRequest
  | Some num =>
      if is_int64 num
      then NewRat (if neg then wrap_int64 (num * -1) else num) [denom]
      else NewRatFromBigInt (if neg then - num else num) [denom]
  end.

(** [big.Rat.FloatString] for a positive precision: the last digit is rounded to
    nearest, halves away from zero. *)
Definition pad_left (n : nat) (l : list ascii) : list ascii := zero_chars (n - length l) ++ l.
Definition FloatString_parts (r : Rat) (prec : nat) : list ascii * list ascii :=
  if rden r =? 1 then (int_text (rnum r), zero_chars prec) else
  let p := 10 ^ Z.of_nat prec in
  let q := Z.abs (rnum r) / rden r in
  let rem := (Z.abs (rnum r) mod rden r) * p in
  let f := rem / rden r in
  let f := if rden r <=? 2 * (rem mod rden r) then f + 1 else f in
  let '(q, f) := if p <=? f then (q + 1, f - p) else (q, f) in
  ((if rnum r <? 0 then ["-"%char] else []) ++ digits q, pad_left prec (digits f)).

Definition drop_zeros_r (l : list ascii) : list ascii :=
  rev (drop_while (λ c, bool_decide (c = "0"%char)) (rev l)).

Definition DecimalString (r : Rat) (prec : nat) : string :=
  let '(whole, frac) := FloatString_parts r prec in
  let dot := drop_zeros_r frac in
  if bool_decide (length dot = 0%nat) then str whole else str (whole ++ "."%char :: dot).

Definition RatsEqual (r1s r2s : list Rat) : bool :=
  if bool_decide (length r1s ≠ length r2s) then false
  else forallb (λ p, Rat_Equal p.1 p.2) (zip r1s r2s).
Definition MinRat (r1 r2 : Rat) : Rat := if Rat_LT r1 r2 then r1 else r2.

Example rat_examples :
  NewRatFromDecimal "0.003" 10 = Ok (mkRat 3 1000) ∧ DecimalString (mkRat 3 1000) 10 = "0.003" ∧
  NewRatFromDecimal "-1.50" 10 = Ok (mkRat (-3) 2) ∧ NewRatFromDecimal "1.2.3" 10 = Err ErrUnknownRequest ∧
  DecimalString (mkRat 2 3) 4 = "0.6667" ∧ DecimalString (mkRat (-999999) 1000000) 3 = "-1" ∧
  Rat_Sub OneRat (mkRat 3 1000) = mkRat 997 1000.
Proof. vm_compute. repeat split. Qed.

(** ** Well-formed fractions *)
Definition rat_wf (r : Rat) : Prop := 0 < rden r ∧ Z.gcd (rnum r) (rden r) = 1.

Lemma rat_norm_spec a b :
  b ≠ 0 → rat_wf (rat_norm a b) ∧ rnum (rat_norm a b) * b = a * rden (rat_norm a b).
Proof.
  intros Hb. unfold rat_norm, rat_wf. simpl. set (g := Z.gcd a b).
  assert (Hg : 0 < g).
  { pose proof (Z.gcd_nonneg a b). destruct (Z.eq_dec g 0) as [E|]; [|lia].
    by apply Z.gcd_eq_0_r in E. }
  destruct (Z.gcd_divide_l a b) as [x Hx], (Z.gcd_divide_r a b) as [y Hy]. fold g in Hx, Hy.
  assert (Hgcd : Z.gcd x y = 1).
  { assert (E : g = Z.gcd (x * g) (y * g)) by (by rewrite <-Hx, <-Hy).
    rewrite Z.gcd_mul_mono_r_nonneg in E by lia.
    pose proof (Z.gcd_nonneg x y). nia. }
  assert (Hy0 : y ≠ 0) by nia.
  rewrite Hx, Hy. rewrite Z.abs_mul, (Z.abs_eq g), !Z.div_mul by lia.
  rewrite Z.sgn_mul, (Z.sgn_pos g), Z.mul_1_r by lia.
  split; [split; [lia|]|].
  - destruct (Z.sgn_spec y) as [[? ->]|[[? ?]|[? ->]]]; [|lia|].
    + rewrite Z.abs_eq by lia. by rewrite Z.mul_1_l.
    + rewrite Z.abs_neq, Z.gcd_opp_r by lia. replace (-1 * x) with (- x) by lia. by rewrite Z.gcd_opp_l.
  - pose proof (Z.sgn_abs y). nia.
Qed.

Lemma SetFrac_ok a b r : SetFrac a b = Ok r → b ≠ 0 ∧ r = rat_norm a b.
Proof. unfold SetFrac. destruct (Z.eqb_spec b 0); [done|]. by intros [= <-]. Qed.

(** Numbers within range are their own reduction. *)
(** One minus a fee between 0 and 1 is again such a fraction. *)
Lemma Rat_Sub_one fee :
  rat_wf fee → let r := Rat_Sub OneRat fee in
  rat_wf r ∧ rnum r * rden fee = (rden fee - rnum fee) * rden r.
Proof.
  intros [Hd _] r. destruct (rat_norm_spec (1 * rden fee - rnum fee * 1) (1 * rden fee)) as [Hw He]; [lia|].
  split; [done|]. unfold r, Rat_Sub. simpl rnum at 2. simpl rden at 2. cbn [OneRat rnum rden] in *. lia.
Qed.

(** ** Rounding *)
Definition nearest_even (r : Rat) (n : Z) : Prop :=
  2 * Z.abs (rnum r - n * rden r) ≤ rden r ∧
  (2 * Z.abs (rnum r - n * rden r) = rden r → Z.Even n).

Lemma nearest_even_unique r n m : 0 < rden r → nearest_even r n → nearest_even r m → n = m.
Proof.
  intros Hd [Hn En] [Hm Em]. destruct (Z.eq_dec n m) as [|Hne]; [done|exfalso].
  assert (Z.abs (n - m) = 1) by nia.
  assert (Hn' : 2 * Z.abs (rnum r - n * rden r) = rden r) by nia.
  assert (Hm' : 2 * Z.abs (rnum r - m * rden r) = rden r) by nia.
  destruct (En Hn') as [a Ha], (Em Hm') as [b Hb]. lia.
Qed.

Lemma EvaluateBig_nonneg n d : 0 ≤ n → 0 < d → nearest_even (mkRat n d) (EvaluateBig (mkRat n d)).
Proof.
  intros Hn Hd. unfold nearest_even, EvaluateBig. cbn [rnum rden].
  rewrite !Z.quot_div_nonneg, !Z.rem_mod_nonneg by lia.
  pose proof (Z.div_mod n d ltac:(lia)) as En. pose proof (Z.mod_pos_bound n d Hd) as Hr.
  pose proof (Z.div_mod (n * 10) d ltac:(lia)) as Et. pose proof (Z.mod_pos_bound (n * 10) d Hd) as Ht.
  pose proof (Z.div_pos n d Hn Hd) as Hq.
  set (q := n / d) in *. set (r := n mod d) in *.
  set (tq := n * 10 / d) in *. set (tr := (n * 10) mod d) in *. clearbody q r tq tr.
  destruct (Z.eqb_spec r 0) as [->|Hr0]; [split; [lia|]; intros; lia|].
  rewrite Z.rem_mod_nonneg by lia.
  destruct (Z.eqb_spec tr 0) as [Htr|Htr], (Z.eqb_spec (tq - q * 10) 5) as [H5|H5]; cbn [andb orb].
  - assert (2 * r = d) by nia.
    pose proof (Z.div_mod q 2 ltac:(lia)) as E2. pose proof (Z.mod_pos_bound q 2 ltac:(lia)) as H2.
    assert (q mod 2 = 0 ∨ q mod 2 = 1) as [Ez|Ez] by lia; rewrite Ez in *.
    + split; [nia|]. intros _. exists (q / 2). lia.
    + split; [nia|]. intros _. exists (q / 2 + 1). lia.
  - destruct (Z.eqb_spec (tq - q * 10) (-5)); [nia|]. cbn.
    destruct (Z.leb_spec 5 (tq - q * 10)); [split; [nia|]; intros; nia|].
    destruct (Z.leb_spec (tq - q * 10) (-5)); [nia|]. split; [nia|]. intros; nia.
  - destruct (Z.leb_spec 5 (tq - q * 10)); [split; [nia|]; intros; nia|].
    destruct (Z.leb_spec (tq - q * 10) (-5)); [nia|]. split; [nia|]. intros; nia.
  - destruct (Z.leb_spec 5 (tq - q * 10)); [split; [nia|]; intros; nia|].
    destruct (Z.leb_spec (tq - q * 10) (-5)); [nia|]. split; [nia|]. intros; nia.
Qed.

Lemma EvaluateBig_opp n d : d ≠ 0 → EvaluateBig (mkRat (- n) d) = - EvaluateBig (mkRat n d).
Proof.
  intros Hd. unfold EvaluateBig. cbn [rnum rden].
  rewrite (Z.mul_opp_l n 10), !Z.quot_opp_l, !Z.rem_opp_l by done.
  set (q := Z.quot n d). set (tq := Z.quot (n * 10) d). set (r := Z.rem n d). set (tr := Z.rem (n * 10) d).
  replace (- tq - - q * 10) with (- (tq - q * 10)) by lia. set (t := tq - q * 10).
  repeat match goal with
  | |- context [?a =? ?b] => destruct (Z.eqb_spec a b)
  | |- context [?a <=? ?b] => destruct (Z.leb_spec a b)
  end; cbn [andb orb]; lia.
Qed.

(** [EvaluateBig] rounds a fraction to the nearest integer, halves to even, for
    both signs; the result is the only such integer. *)
Theorem EvaluateBig_nearest (r : Rat) (n : Z) (Hr : rat_wf r) :
  EvaluateBig r = n ↔ nearest_even r n.
Proof.
  destruct r as [a d]. destruct Hr as [Hd _]. cbn [rden] in Hd.
  assert (Hev : nearest_even (mkRat a d) (EvaluateBig (mkRat a d))).
  { destruct (Z.le_gt_cases 0 a) as [Ha|Ha]; [by apply EvaluateBig_nonneg|].
    destruct (EvaluateBig_nonneg (- a) d ltac:(lia) Hd) as [H1 H2].
    rewrite EvaluateBig_opp in H1, H2 by lia. unfold nearest_even. cbn [rnum rden] in *.
    split; [lia|]. intros E. destruct H2 as [k Hk]; [lia|]. exists (- k). lia. }
  split; [by intros <-|]. intros Hn. by apply (nearest_even_unique (mkRat a d)).
Qed.

Lemma EvaluateBig_nearest_witness :
  EvaluateBig (mkRat 5 2) = 2 ∧ EvaluateBig (mkRat (-7) 2) = -4.
Proof.
  split.
  - apply (EvaluateBig_nearest (mkRat 5 2) 2); [by split|]. split; [done|]. intros _. by exists 1.
  - apply (EvaluateBig_nearest (mkRat (-7) 2) (-4)); [by split|]. split; [done|]. intros _. by exists (-2).
Defined.
