(* ===== verification/Asset.v ===== *)
(** * Assets and gateways (app/v1/asset)

    Tokens are issued, edited, minted and handed over by their owners; a gateway
    issues tokens under its moniker.  Issuing and minting cost a fee in the native
    token, of which a part goes to the community and the rest is burned.  The
    recorded supply of a token is kept with the accounts. *)

From Stdlib Require Import Ascii.
From S2P Require Import Prelude SdkErrors IntType GoStrings Denom Coin CoinFacts Dec Gas KVStore Auth Bank StdTx.
#[local] Open Scope Z_scope.

Module Asset.

(** ** Errors (internal/types/errors.go) *)
Definition DefaultCodespace : string := "asset".
Inductive AssetCode :=
| CodeInvalidMoniker | CodeInvalidIdentity | CodeInvalidDetails | CodeInvalidWebsite | CodeUnknownGateway
| CodeGatewayAlreadyExists | CodeInvalidOwner | CodeNoUpdatesProvided | CodeInvalidAddress | CodeInvalidToAddress
| CodeNilAssetOwner | CodeInvalidAssetFamily | CodeInvalidAssetSource | CodeInvalidAssetName
| CodeInvalidAssetSymbol | CodeInvalidAssetCanonicalSymbol | CodeInvalidAssetMinUnitAlias
| CodeInvalidAssetInitSupply | CodeInvalidAssetMaxSupply | CodeInvalidAssetDecimal | CodeAssetAlreadyExists
| CodeUnauthorizedIssueGatewayAsset | CodeAssetNotExists | CodeAssetNotMintable
| CodeInsufficientCoins | CodeSignersMissingInContext.
Definition code_num (c : AssetCode) : Z :=
  match c with
  | CodeInvalidMoniker => 100 | CodeInvalidIdentity => 101 | CodeInvalidDetails => 102
  | CodeInvalidWebsite => 103 | CodeUnknownGateway => 104 | CodeGatewayAlreadyExists => 105
  | CodeInvalidOwner => 106 | CodeNoUpdatesProvided => 107 | CodeInvalidAddress => 108
  | CodeInvalidToAddress => 109 | CodeNilAssetOwner => 110 | CodeInvalidAssetFamily => 111
  | CodeInvalidAssetSource => 112 | CodeInvalidAssetName => 113 | CodeInvalidAssetSymbol => 114
  | CodeInvalidAssetCanonicalSymbol => 115 | CodeInvalidAssetMinUnitAlias => 116
  | CodeInvalidAssetInitSupply => 117 | CodeInvalidAssetMaxSupply => 118 | CodeInvalidAssetDecimal => 119
  | CodeAssetAlreadyExists => 120 | CodeUnauthorizedIssueGatewayAsset => 121 | CodeAssetNotExists => 122
  | CodeAssetNotMintable => 123 | CodeInsufficientCoins => 130 | CodeSignersMissingInContext => 131
  end.
Definition asset_err (c : AssetCode) : Error := NewError DefaultCodespace (code_num c).

(** ** Families, sources, optional booleans (family.go, source.go) *)
Inductive AssetFamily := FUNGIBLE | OtherFamily (b : Z).
Inductive AssetSource := NATIVE | EXTERNAL | GATEWAY | OtherSource (b : Z).
#[export] Instance AssetFamily_dec : EqDecision AssetFamily.
Proof. solve_decision. Defined.
#[export] Instance AssetSource_dec : EqDecision AssetSource.
Proof. solve_decision. Defined.
Definition IsValidAssetFamily (family : AssetFamily) : bool :=
  match family with FUNGIBLE => true | OtherFamily _ => false end.
Definition AssetFamilyFromString (s : string) : option AssetFamily :=
  if bool_decide (ToLower s = "fungible") then Some FUNGIBLE else None.
Definition AssetSource_String (source : AssetSource) : string :=
  match source with NATIVE => "native" | EXTERNAL => "external" | GATEWAY => "gateway" | OtherSource _ => "" end.
Definition AssetSourceFromString (s : string) : option AssetSource :=
  let s := ToLower s in
  if bool_decide (s = "native") then Some NATIVE else
  if bool_decide (s = "external") then Some EXTERNAL else
  if bool_decide (s = "gateway") then Some GATEWAY else None.
(** [strconv.ParseBool]; a [Bool] is a string, empty when it is not given. *)
Definition ParseBool (s : string) : option bool :=
  if bool_decide (s ∈ ["1"; "t"; "T"; "true"; "TRUE"; "True"]) then Some true else
  if bool_decide (s ∈ ["0"; "f"; "F"; "false"; "FALSE"; "False"]) then Some false else None.
Definition ToBool (b : string) : bool := default false (ParseBool b).

(** ** Limits and patterns (msgs.go) *)
Definition DoNotModify : string := "[do-not-modify]".
Definition MaximumAssetMaxSupply : Z := 1000000000000.
Definition MaximumAssetInitSupply : Z := 100000000000.
Definition MaximumAssetDecimal : Z := 18.
Definition in_len (lo hi : nat) (s : string) : bool := (lo <=? str_len s)%nat && (str_len s <=? hi)%nat.
Definition symbol_size (s : string) : bool := in_len 3 8 s.
Definition alias_size (s : string) : bool := in_len 3 10 s.
Definition moniker_size (s : string) : bool := in_len 3 8 s.
Definition IsAlphaNumeric (s : string) : bool :=
  match chars s with [] => false | l => forallb is_alnum l end.
Definition IsBeginWithAlpha (s : string) : bool :=
  match chars s with c :: _ => is_upper c || is_lower c | [] => false end.
Fixpoint contains_chars (p l : list ascii) : bool :=
  bool_decide (p `prefix_of` l) || match l with [] => false | _ :: l => contains_chars p l end.
Definition Contains (s p : string) : bool := contains_chars (chars p) (chars s).
Definition clean (s : string) : string := ToLower (TrimSpace s).

Definition ValidateMoniker (moniker : string) : Outcome unit :=
  if negb (moniker_size moniker) then Err (asset_err CodeInvalidMoniker) else
  if negb (IsBeginWithAlpha moniker) || negb (IsAlphaNumeric moniker) then Err (asset_err CodeInvalidMoniker) else
  if Contains (ToLower moniker) Iris then Err (asset_err CodeInvalidMoniker) else Ok tt.
(** [None] is a field that is not updated. *)
Definition validateGatewayDesc (identity details website : option string) : Outcome unit :=
  let too_long (f : option string) (n : nat) := match f with Some s => (n <? str_len s)%nat | None => false end in
  if too_long identity 128%nat then Err (asset_err CodeInvalidIdentity) else
  if too_long details 280%nat then Err (asset_err CodeInvalidDetails) else
  if too_long website 128%nat then Err (asset_err CodeInvalidWebsite) else Ok tt.

(** ** Token ids (asset.go) *)
Definition GetTokenID (source : AssetSource) (symbol gateway : string) : Outcome string :=
  match source with
  | NATIVE => Ok (ToLower ("i." +:+ symbol))
  | EXTERNAL => Ok (ToLower ("x." +:+ symbol))
  | GATEWAY => Ok (ToLower (gateway +:+ "." +:+ symbol))
  | OtherSource _ => Err (asset_err CodeInvalidAssetSource)
  end.
Fixpoint Join (parts : list string) (sep : string) : string :=
  match parts with
  | [] => ""
  | [p] => p
  | p :: parts => p +:+ sep +:+ Join parts sep
  end.
Definition GetTokenIDParts (id : string) : string * string :=
  match Split (ToLower id) "." with
  | prefix :: ((_ :: _) as rest) => (prefix, Join rest ".")
  | [symbol] => ("", symbol)
  | [] => ("", "")
  end.
Definition CheckTokenID (id : string) : Outcome unit :=
  let '(prefix, symbol) := GetTokenIDParts id in
  let? _ := (if bool_decide (prefix ≠ "") && bool_decide (prefix ≠ "i") && bool_decide (prefix ≠ "x")
             then ValidateMoniker prefix else Ok tt) in
  if negb (symbol_size symbol) || negb (IsBeginWithAlpha symbol) || negb (IsAlphaNumeric symbol) ||
     Contains symbol Iris
  then Err (asset_err CodeInvalidAssetSymbol) else Ok tt.

(** ** Messages (msgs.go) *)
Record MsgIssueToken := mkIssue {
  it_Family : AssetFamily; it_Source : AssetSource; it_Gateway : string; it_Symbol : string;
  it_CanonicalSymbol : string; it_Name : string; it_Decimal : Z; it_MinUnitAlias : string;
  it_InitialSupply : Z; it_MaxSupply : Z; it_Mintable : bool; it_Owner : AccAddress }.
Record MsgCreateGateway := mkCreateGateway {
  cg_Owner : AccAddress; cg_Moniker : string; cg_Identity : string; cg_Details : string; cg_Website : string }.
Record MsgEditGateway := mkEditGateway {
  eg_Owner : AccAddress; eg_Moniker : string; eg_Identity : string; eg_Details : string; eg_Website : string }.
Record MsgTransferGatewayOwner := mkTransferGateway {
  tg_Owner : AccAddress; tg_Moniker : string; tg_To : AccAddress }.
Record MsgTransferTokenOwner := mkTransferToken {
  tt_SrcOwner : AccAddress; tt_DstOwner : AccAddress; tt_TokenId : string }.
Record MsgEditToken := mkEditToken {
  et_TokenId : string; et_Owner : AccAddress; et_CanonicalSymbol : string; et_MinUnitAlias : string;
  et_MaxSupply : Z; et_Mintable : string; et_Name : string }.
Record MsgMintToken := mkMint { mt_TokenId : string; mt_Owner : AccAddress; mt_To : AccAddress; mt_Amount : Z }.
Inductive AssetMsg :=
| IssueTokenMsg (msg : MsgIssueToken)
| CreateGatewayMsg (msg : MsgCreateGateway)
| EditGatewayMsg (msg : MsgEditGateway)
| EditTokenMsg (msg : MsgEditToken)
| TransferGatewayMsg (msg : MsgTransferGatewayOwner)
| MintTokenMsg (msg : MsgMintToken)
| TransferTokenMsg (msg : MsgTransferTokenOwner)
| OtherMsg.

(** Works on a pointer; the callers pass that of a copy, so that nothing of the
    cleaned-up message is kept. *)
Definition ValidateMsgIssueToken (msg : MsgIssueToken) : Outcome unit :=
  let gateway := clean (it_Gateway msg) in
  let symbol := clean (it_Symbol msg) in
  let alias := clean (it_MinUnitAlias msg) in
  let name := TrimSpace (it_Name msg) in
  let maxSupply := if it_MaxSupply msg =? 0
                   then (if it_Mintable msg then MaximumAssetMaxSupply else it_InitialSupply msg)
                   else it_MaxSupply msg in
  let? _ := match it_Source msg with
            | NATIVE => if AccAddress_Empty (it_Owner msg) then Err (asset_err CodeNilAssetOwner) else Ok tt
            | EXTERNAL => Ok tt
            | GATEWAY => if negb (moniker_size gateway) then Err (asset_err CodeInvalidMoniker) else Ok tt
            | OtherSource _ => Err (asset_err CodeInvalidAssetSource)
            end in
  if negb (IsValidAssetFamily (it_Family msg)) then Err (asset_err CodeInvalidAssetFamily) else
  if negb (in_len 1 32 name) then Err (asset_err CodeInvalidAssetName) else
  if negb (symbol_size symbol) || negb (IsBeginWithAlpha symbol) || negb (IsAlphaNumeric symbol)
  then Err (asset_err CodeInvalidAssetSymbol) else
  if Contains (ToLower symbol) Iris then Err (asset_err CodeInvalidAssetSymbol) else
  if (0 <? str_len alias)%nat && (negb (alias_size alias) || negb (IsAlphaNumeric alias) || negb (IsBeginWithAlpha alias))
  then Err (asset_err CodeInvalidAssetMinUnitAlias) else
  if MaximumAssetInitSupply <? it_InitialSupply msg then Err (asset_err CodeInvalidAssetInitSupply) else
  if (maxSupply <? it_InitialSupply msg) || (MaximumAssetMaxSupply <? maxSupply)
  then Err (asset_err CodeInvalidAssetMaxSupply) else
  if MaximumAssetDecimal <? it_Decimal msg then Err (asset_err CodeInvalidAssetDecimal) else Ok tt.
Definition MsgIssueToken_ValidateBasic (msg : MsgIssueToken) : Outcome unit :=
  if bool_decide (it_Source msg = EXTERNAL) then Err (asset_err CodeInvalidAssetSource)
  else ValidateMsgIssueToken msg.

Definition MsgCreateGateway_ValidateBasic (msg : MsgCreateGateway) : Outcome unit :=
  if AccAddress_Empty (cg_Owner msg) then Err (asset_err CodeInvalidAddress) else
  let? _ := ValidateMoniker (cg_Moniker msg) in
  validateGatewayDesc (Some (cg_Identity msg)) (Some (cg_Details msg)) (Some (cg_Website msg)).

Definition updated (s : string) : option string := if bool_decide (s = DoNotModify) then None else Some s.
Definition MsgEditGateway_ValidateBasic (msg : MsgEditGateway) : Outcome unit :=
  if AccAddress_Empty (eg_Owner msg) then Err (asset_err CodeInvalidAddress) else
  let? _ := ValidateMoniker (eg_Moniker msg) in
  match updated (eg_Identity msg), updated (eg_Details msg), updated (eg_Website msg) with
  | None, None, None => Err (asset_err CodeNoUpdatesProvided)
  | identity, details, website => validateGatewayDesc identity details website
  end.

Definition MsgTransferTokenOwner_ValidateBasic (msg : MsgTransferTokenOwner) : Outcome unit :=
  if AccAddress_Empty (tt_SrcOwner msg) then Err (asset_err CodeInvalidAddress) else
  if AccAddress_Empty (tt_DstOwner msg) then Err (asset_err CodeInvalidAddress) else
  if AccAddress_Equals (tt_SrcOwner msg) (tt_DstOwner msg) then Err (asset_err CodeInvalidToAddress) else
  CheckTokenID (tt_TokenId msg).
Definition MsgTransferGatewayOwner_ValidateBasic (msg : MsgTransferGatewayOwner) : Outcome unit :=
  if AccAddress_Empty (tg_Owner msg) then Err (asset_err CodeInvalidAddress) else
  if AccAddress_Empty (tg_To msg) then Err (asset_err CodeInvalidAddress) else
  if AccAddress_Equals (tg_To msg) (tg_Owner msg) then Err (asset_err CodeInvalidToAddress) else
  ValidateMoniker (tg_Moniker msg).

Definition MsgEditToken_ValidateBasic (msg : MsgEditToken) : Outcome unit :=
  if AccAddress_Empty (et_Owner msg) then Err (asset_err CodeNilAssetOwner) else
  if bool_decide (et_Name msg ≠ DoNotModify) && (32 <? str_len (et_Name msg))%nat
  then Err (asset_err CodeInvalidAssetName) else
  if MaximumAssetMaxSupply <? et_MaxSupply msg then Err (asset_err CodeInvalidAssetMaxSupply) else
  let? _ := CheckTokenID (et_TokenId msg) in
  let canonical := et_CanonicalSymbol msg in
  if bool_decide (canonical ≠ DoNotModify) && (negb (symbol_size canonical) || negb (IsAlphaNumeric canonical))
  then Err (asset_err CodeInvalidAssetCanonicalSymbol) else
  let alias := et_MinUnitAlias msg in
  if bool_decide (alias ≠ DoNotModify) &&
     (negb (alias_size alias) || negb (IsAlphaNumeric alias) || negb (IsBeginWithAlpha alias))
  then Err (asset_err CodeInvalidAssetMinUnitAlias) else Ok tt.

Definition MsgMintToken_ValidateBasic (msg : MsgMintToken) : Outcome unit :=
  if AccAddress_Empty (mt_Owner msg) then Err (asset_err CodeInvalidAddress) else
  if (mt_Amount msg <=? 0) || (MaximumAssetMaxSupply <? mt_Amount msg)
  then Err (asset_err CodeInvalidAssetMaxSupply) else CheckTokenID (mt_TokenId msg).

Definition ValidateBasic (msg : AssetMsg) : Outcome unit :=
  match msg with
  | IssueTokenMsg msg => MsgIssueToken_ValidateBasic msg
  | CreateGatewayMsg msg => MsgCreateGateway_ValidateBasic msg
  | EditGatewayMsg msg => MsgEditGateway_ValidateBasic msg
  | EditTokenMsg msg => MsgEditToken_ValidateBasic msg
  | TransferGatewayMsg msg => MsgTransferGatewayOwner_ValidateBasic msg
  | MintTokenMsg msg => MsgMintToken_ValidateBasic msg
  | TransferTokenMsg msg => MsgTransferTokenOwner_ValidateBasic msg
  | OtherMsg => Ok tt
  end.
Definition GetSigners (msg : AssetMsg) : list AccAddress :=
  match msg with
  | IssueTokenMsg msg => [it_Owner msg]
  | CreateGatewayMsg msg => [cg_Owner msg]
  | EditGatewayMsg msg => [eg_Owner msg]
  | EditTokenMsg msg => [et_Owner msg]
  | TransferGatewayMsg msg => [tg_Owner msg]
  | MintTokenMsg msg => [mt_Owner msg]
  | TransferTokenMsg msg => [tt_SrcOwner msg]
  | OtherMsg => []
  end.

(** ** Tokens and gateways (asset.go, gateway.go) *)
Record FungibleToken := mkToken {
  ft_Id : string; ft_Family : AssetFamily; ft_Source : AssetSource; ft_Gateway : string; ft_Symbol : string;
  ft_Name : string; ft_Decimal : Z; ft_CanonicalSymbol : string; ft_MinUnitAlias : string;
  ft_InitialSupply : Int; ft_MaxSupply : Int; ft_Mintable : bool; ft_Owner : AccAddress }.
Record Gateway := NewGateway {
  gw_Owner : AccAddress; gw_Moniker : string; gw_Identity : string; gw_Details : string; gw_Website : string }.
Definition zero_Gateway : Gateway := NewGateway "" "" "" "" "".

Definition unique_id (source : AssetSource) (gateway symbol : string) : string :=
  match source with
  | NATIVE => ToLower symbol
  | EXTERNAL => ToLower ("x." +:+ symbol)
  | GATEWAY => ToLower (gateway +:+ "." +:+ symbol)
  | OtherSource _ => ""
  end.
Definition GetUniqueID (ft : FungibleToken) : string := unique_id (ft_Source ft) (ft_Gateway ft) (ft_Symbol ft).
Definition GetDenom (ft : FungibleToken) : string := default "" (GetCoinMinDenom (GetUniqueID ft)).
Definition token_id (ft : FungibleToken) : Outcome string :=
  GetTokenID (ft_Source ft) (ft_Symbol ft) (ft_Gateway ft).
Definition GetCoinType (ft : FungibleToken) : CoinType :=
  mkCoinType (GetUniqueID ft) (NewUnit (GetDenom ft) (ft_Decimal ft))
    [NewUnit (GetUniqueID ft) 0; NewUnit (GetDenom ft) (ft_Decimal ft)] (ft_Name ft).

(** A maximum of zero is replaced by the default. *)
Definition NewFungibleToken (source : AssetSource) (gateway symbol name : string) (decimal : Z)
    (canonicalSymbol minUnitAlias : string) (initialSupply maxSupply : Int) (mintable : bool)
    (owner : AccAddress) : FungibleToken :=
  let gateway := clean gateway in
  let symbol := clean symbol in
  let maxSupply := if Int_IsZero maxSupply
                   then (if mintable then NewInt (wrap_int64 MaximumAssetMaxSupply) else initialSupply)
                   else maxSupply in
  mkToken (unique_id source gateway symbol) FUNGIBLE source gateway symbol (TrimSpace name) decimal
    (clean canonicalSymbol) (clean minUnitAlias) initialSupply maxSupply mintable owner.

Definition with_native (ft : FungibleToken) : FungibleToken :=
  mkToken (ft_Id ft) (ft_Family ft) (ft_Source ft) "" (ft_Symbol ft) (ft_Name ft) (ft_Decimal ft) ""
    (ft_MinUnitAlias ft) (ft_InitialSupply ft) (ft_MaxSupply ft) (ft_Mintable ft) (ft_Owner ft).
Definition with_owner (ft : FungibleToken) (owner : AccAddress) : FungibleToken :=
  mkToken (ft_Id ft) (ft_Family ft) (ft_Source ft) (ft_Gateway ft) (ft_Symbol ft) (ft_Name ft) (ft_Decimal ft)
    (ft_CanonicalSymbol ft) (ft_MinUnitAlias ft) (ft_InitialSupply ft) (ft_MaxSupply ft) (ft_Mintable ft) owner.
Definition with_edits (ft : FungibleToken) (name canonical alias : string) (maxSupply : Int) (mintable : bool)
    : FungibleToken :=
  mkToken (ft_Id ft) (ft_Family ft) (ft_Source ft) (ft_Gateway ft) (ft_Symbol ft) name (ft_Decimal ft)
    canonical alias (ft_InitialSupply ft) maxSupply mintable (ft_Owner ft).

Definition Gateway_Validate (g : Gateway) : Outcome unit :=
  let? _ := ValidateMoniker (gw_Moniker g) in
  validateGatewayDesc (Some (gw_Identity g)) (Some (gw_Details g)) (Some (gw_Website g)).

Fixpoint Tokens_Validate (tokens : list FungibleToken) : Outcome unit :=
  match tokens with
  | [] => Ok tt
  | token :: tokens =>
      let? exp := NewIntWithDecimal 1 (ft_Decimal token) in
      let? initial := Int_Div (ft_InitialSupply token) exp in
      let? initialSupply := Int_Int64 initial in
      let? maximum := Int_Div (ft_MaxSupply token) exp in
      let? maxSupply := Int_Int64 maximum in
      let? _ := ValidateMsgIssueToken
                  (mkIssue (ft_Family token) (ft_Source token) (ft_Gateway token) (ft_Symbol token)
                     (ft_CanonicalSymbol token) (ft_Name token) (ft_Decimal token) (ft_MinUnitAlias token)
                     (wrap64 initialSupply) (wrap64 maxSupply) (ft_Mintable token) (ft_Owner token)) in
      Tokens_Validate tokens
  end.

(** ** Parameters (params.go) *)
Record Params := mkParams {
  AssetTaxRate : Dec; IssueTokenBaseFee : Coin; MintTokenFeeRatio : Dec; CreateGatewayBaseFee : Coin;
  GatewayAssetFeeRatio : Dec }.
Definition DefaultParams : Params :=
  mkParams (4 * 10^9) (mkCoin IrisAtto (60000 * 10^18)) (10^9) (mkCoin IrisAtto (120000 * 10^18)) (10^9).
Definition validate_ratio (code : Z) (v : Dec) : Outcome unit :=
  let? one := NewDec 1 in
  if Dec_GT v one || Dec_LT v ZeroDec then Err (NewError "params" code) else Ok tt.
Definition validate_fee (code : Z) (coin : Coin) : Outcome unit :=
  if Coin_IsNegative coin then Err (NewError "params" code) else Ok tt.
Definition ValidateParams (p : Params) : Outcome unit :=
  let? _ := validate_ratio 900 (AssetTaxRate p) in
  let? _ := validate_ratio 901 (MintTokenFeeRatio p) in
  let? _ := validate_ratio 902 (GatewayAssetFeeRatio p) in
  let? _ := validate_fee 903 (IssueTokenBaseFee p) in
  validate_fee 904 (CreateGatewayBaseFee p).
End Asset.
