(* ===== verification/AssetKeeper.v ===== *)
(** * The asset keeper, its fees, handlers and genesis
    (app/v1/asset: internal/keeper, handler.go, genesis.go) *)

From Stdlib Require Import Ascii.
From S2P Require Import Prelude SdkErrors IntType GoStrings Denom Coin CoinFacts Dec Gas KVStore Auth Bank StdTx Asset.
#[local] Open Scope Z_scope.

Module AssetKeeper.
Import Asset.

(** ** Keys (keeper_keys.go); an error of the conversion is dropped *)
Definition KeyToken (tokenId : string) : string := "token:" +:+ default "" (ConvertIdToTokenKeyId tokenId).
Definition KeyGateway (moniker : string) : string := "gateways:" +:+ moniker.
(** [%d] of an address is its text in capital hexadecimal digits. *)
Definition upper_char (c : ascii) : ascii :=
  if is_lower c then Ascii.ascii_of_N (Ascii.N_of_ascii c - 32) else c.
Definition HexX (s : string) : string := str (upper_char <$> chars (EncodeToString s)).
Definition KeyGatewaysSubspace (owner : AccAddress) : string := "ownerGateways:" +:+ HexX owner +:+ ":".
Definition KeyOwnerGateway (owner : AccAddress) (moniker : string) : string := KeyGatewaysSubspace owner +:+ moniker.

Record AssetState := mkAsset {
  as_auth : AuthState;
  tokens : gmap string FungibleToken;
  token_index : gmap string string;
  gateways : gmap string Gateway;
  owner_gateways : gmap string string;
  as_params : Params }.

Section keeper.
Context `{Crypto}.
(** The bech32 text of an address. *)
Variable acc_String : AccAddress → string.
(** [strconv.FormatFloat(math.Pow(math.Log(n)/math.Log(3), 4), 'f', 2, 64)]. *)
Variable fee_factor_text : Z → string.
Abbreviation MA := (M AssetState).

Definition KeyTokens (owner : AccAddress) (tokenId : string) : string :=
  if AccAddress_Empty owner then "tokens:" +:+ tokenId
  else "ownerTokens:" +:+ acc_String owner +:+ ":" +:+ tokenId.

Definition bank_of {A} (c : M AuthState A) : MA A :=
  zoom as_auth (λ a s, mkAsset a (tokens s) (token_index s) (gateways s) (owner_gateways s) (as_params s)) c.
Definition set_tokens (f : gmap string FungibleToken → gmap string FungibleToken) (s : AssetState) : AssetState :=
  mkAsset (as_auth s) (f (tokens s)) (token_index s) (gateways s) (owner_gateways s) (as_params s).
Definition set_index (f : gmap string string → gmap string string) (s : AssetState) : AssetState :=
  mkAsset (as_auth s) (tokens s) (f (token_index s)) (gateways s) (owner_gateways s) (as_params s).
Definition set_gateways (f : gmap string Gateway → gmap string Gateway) (s : AssetState) : AssetState :=
  mkAsset (as_auth s) (tokens s) (token_index s) (f (gateways s)) (owner_gateways s) (as_params s).
Definition set_owner_gateways (f : gmap string string → gmap string string) (s : AssetState) : AssetState :=
  mkAsset (as_auth s) (tokens s) (token_index s) (gateways s) (f (owner_gateways s)) (as_params s).

(** ** Store access (keeper.go) *)
Definition HasToken (tokenId : string) : MA bool := gets (λ s, bool_decide (is_Some (tokens s !! KeyToken tokenId))).
Definition getToken (tokenId : string) : MA (option FungibleToken) := gets (λ s, tokens s !! KeyToken tokenId).
Definition SetToken (token : FungibleToken) : MA unit :=
  let token := if bool_decide (ft_Source token = GATEWAY) then with_owner token "" else token in
  tokenId <- lift (token_id token) ;;
  modify (set_tokens (insert (KeyToken tokenId) token)).
Definition SetTokens (owner : AccAddress) (token : FungibleToken) : MA unit :=
  tokenId <- lift (token_id token) ;;
  modify (set_index (insert (KeyTokens owner tokenId) tokenId)).
Definition HasGateway (moniker : string) : MA bool :=
  gets (λ s, bool_decide (is_Some (gateways s !! KeyGateway moniker))).
Definition GetGateway (moniker : string) : MA Gateway :=
  g <- gets (λ s, gateways s !! KeyGateway moniker) ;;
  match g with None => throw (asset_err CodeUnknownGateway) | Some g => ret g end.
Definition SetGateway (gateway : Gateway) : MA unit :=
  modify (set_gateways (insert (KeyGateway (gw_Moniker gateway)) gateway)).
Definition SetOwnerGateway (owner : AccAddress) (moniker : string) : MA unit :=
  modify (set_owner_gateways (insert (KeyOwnerGateway owner moniker) moniker)).
Definition UpdateOwnerGateway (moniker : string) (originOwner newOwner : AccAddress) : MA unit :=
  modify (set_owner_gateways (delete (KeyOwnerGateway originOwner moniker))) ;;;
  modify (set_owner_gateways (insert (KeyOwnerGateway newOwner moniker) moniker)).
Definition GetGateways (owner : AccAddress) (s : AssetState) : list (string * string) :=
  prefix_iterator (owner_gateways s) (KeyGatewaysSubspace owner).
Definition IterateGateways (s : AssetState) : list Gateway := (prefix_iterator (gateways s) "gateways:").*2.
Definition IterateTokens (s : AssetState) : list FungibleToken := (prefix_iterator (tokens s) "token:").*2.
Definition GetParamSet : MA Params := gets as_params.
Definition SetParamSet (p : Params) : MA unit :=
  modify (λ s, mkAsset (as_auth s) (tokens s) (token_index s) (gateways s) (owner_gateways s) p).

(** ** Fees (fees.go) *)
Definition calcFeeFactor (name : string) : Outcome Dec :=
  let nameLen := Z.of_nat (str_len name) in
  if nameLen =? 0 then Panic "the length of name must be greater than 0" else
  match NewDecFromStr (fee_factor_text nameLen) with
  | Ok d => Ok d
  | Err _ => Panic "invalid string"
  | Panic w => Panic w
  end.
Definition calcFeeByBase (name : string) (baseFee : Int) : Outcome Dec :=
  let? feeFactor := calcFeeFactor name in
  let? base := NewDecFromInt baseFee in
  Dec_Quo base feeFactor.
Definition convertFeeToInt (fee : Dec) : Outcome Int :=
  let? atto := NewIntWithDecimal 1 18 in
  let? attoDec := NewDecFromInt atto in
  let? feeNativeToken := Dec_Quo fee attoDec in
  let? one := NewDec 1 in
  if Dec_GT feeNativeToken one
  then let? n := Dec_TruncateInt feeNativeToken in Int_Mul n atto
  else Int_Mul (NewInt 1) atto.
Definition iris_fee (fee : Outcome Dec) : Outcome Coin :=
  let? fee := fee in let? n := convertFeeToInt fee in NewCoin IrisAtto n.
(** A fee scaled by a ratio. *)
Definition scaled_fee (fee : Outcome Coin) (ratio : Dec) : Outcome Coin :=
  let? fee := fee in
  iris_fee (let? d := NewDecFromInt (amount fee) in Dec_Mul d ratio).

Definition GetGatewayCreateFee (p : Params) (moniker : string) : Outcome Coin :=
  iris_fee (calcFeeByBase moniker (amount (CreateGatewayBaseFee p))).
Definition GetTokenIssueFee (p : Params) (symbol : string) : Outcome Coin :=
  iris_fee (calcFeeByBase symbol (amount (IssueTokenBaseFee p))).
Definition GetTokenMintFee (p : Params) (symbol : string) : Outcome Coin :=
  scaled_fee (GetTokenIssueFee p symbol) (MintTokenFeeRatio p).
Definition GetGatewayTokenIssueFee (p : Params) (symbol : string) : Outcome Coin :=
  scaled_fee (GetTokenIssueFee p symbol) (GatewayAssetFeeRatio p).
Definition GetGatewayTokenMintFee (p : Params) (symbol : string) : Outcome Coin :=
  scaled_fee (GetTokenMintFee p symbol) (GatewayAssetFeeRatio p).

Definition community_tax (p : Params) (fee : Coin) : Outcome Coin :=
  let? d := NewDecFromInt (amount fee) in
  let? d := Dec_Mul d (AssetTaxRate p) in
  let? n := Dec_TruncateInt d in
  NewCoin (denom fee) n.
Definition feeHandler (feeAcc : AccAddress) (fee : Coin) : MA unit :=
  params <- GetParamSet ;;
  communityTaxCoin <- lift (community_tax params fee) ;;
  burnedCoin <- lift (Coin_Sub fee communityTaxCoin) ;;
  bank_of (sendCoins feeAcc CommunityTaxCoinsAccAddr [communityTaxCoin]) ;;;
  bank_of (BurnCoins feeAcc [burnedCoin]).
Definition charge (get_fee : Params → Outcome Coin) (owner : AccAddress) : MA unit :=
  params <- GetParamSet ;;
  fee <- lift (get_fee params) ;;
  feeHandler owner fee.
Definition GatewayCreateFeeHandler (owner : AccAddress) (moniker : string) : MA unit :=
  charge (λ p, GetGatewayCreateFee p moniker) owner.
Definition TokenIssueFeeHandler (owner : AccAddress) (symbol : string) : MA unit :=
  charge (λ p, GetTokenIssueFee p symbol) owner.
Definition TokenMintFeeHandler (owner : AccAddress) (symbol : string) : MA unit :=
  charge (λ p, GetTokenMintFee p symbol) owner.
Definition GatewayTokenIssueFeeHandler (owner : AccAddress) (symbol : string) : MA unit :=
  charge (λ p, GetGatewayTokenIssueFee p symbol) owner.
Definition GatewayTokenMintFeeHandler (owner : AccAddress) (symbol : string) : MA unit :=
  charge (λ p, GetGatewayTokenMintFee p symbol) owner.

(** ** Operations (keeper.go) *)
(** [Sanitize] works on a copy that is dropped, so nothing is cleaned up here. *)
Definition AddToken (token : FungibleToken) : MA (FungibleToken * AccAddress) :=
  tokenId <- lift (token_id token) ;;
  has <- HasToken tokenId ;;
  if has : bool then throw (asset_err CodeAssetAlreadyExists) else
  r <- match ft_Source token with
       | GATEWAY => gateway <- GetGateway (ft_Gateway token) ;; ret (token, gw_Owner gateway)
       | NATIVE => ret (with_native token, ft_Owner token)
       | _ => ret (token, "")
       end ;;
  let '(token, owner) := r in
  SetToken token ;;;
  (if bool_decide (ft_Source token = NATIVE) then SetTokens owner token else ret tt) ;;;
  SetTokens "" token ;;;
  ret (token, owner).

Definition IssueToken (token : FungibleToken) : MA unit :=
  (if bool_decide (ft_Source token = GATEWAY) then
     gateway <- GetGateway (ft_Gateway token) ;;
     require (AccAddress_Equals (gw_Owner gateway) (ft_Owner token)) (asset_err CodeUnauthorizedIssueGatewayAsset)
   else ret tt) ;;;
  r <- AddToken token ;;
  let '(token, owner) := r in
  initialSupply <- lift (NewCoin (GetDenom token) (ft_InitialSupply token)) ;;
  (if negb (AccAddress_Empty owner) then bank_of (addCoins owner [initialSupply]) ;;; ret tt else ret tt) ;;;
  bank_of (SetTotalSupply initialSupply).

Definition CreateGateway (msg : MsgCreateGateway) : MA unit :=
  has <- HasGateway (cg_Moniker msg) ;;
  if has : bool then throw (asset_err CodeGatewayAlreadyExists) else
  SetGateway (NewGateway (cg_Owner msg) (cg_Moniker msg) (cg_Identity msg) (cg_Details msg) (cg_Website msg)) ;;;
  SetOwnerGateway (cg_Owner msg) (cg_Moniker msg).

Definition EditGateway (msg : MsgEditGateway) : MA unit :=
  gateway <- GetGateway (eg_Moniker msg) ;;
  require (AccAddress_Equals (eg_Owner msg) (gw_Owner gateway)) (asset_err CodeInvalidOwner) ;;;
  SetGateway (NewGateway (gw_Owner gateway) (gw_Moniker gateway)
    (default (gw_Identity gateway) (updated (eg_Identity msg)))
    (default (gw_Details gateway) (updated (eg_Details msg)))
    (default (gw_Website gateway) (updated (eg_Website msg)))).

Definition TransferGatewayOwner (msg : MsgTransferGatewayOwner) : MA unit :=
  gateway <- GetGateway (tg_Moniker msg) ;;
  require (AccAddress_Equals (tg_Owner msg) (gw_Owner gateway)) (asset_err CodeInvalidOwner) ;;;
  SetGateway (NewGateway (tg_To msg) (gw_Moniker gateway) (gw_Identity gateway) (gw_Details gateway)
                (gw_Website gateway)) ;;;
  UpdateOwnerGateway (gw_Moniker gateway) (tg_Owner msg) (tg_To msg).

(** The token with its owner: that of the gateway for a token of a gateway, the
    zero value for a gateway that is not found. *)
Definition owned_token (tokenId : string) : MA FungibleToken :=
  token <- getToken tokenId ;;
  match token with
  | None => throw (asset_err CodeAssetNotExists)
  | Some token =>
      if bool_decide (ft_Source token = GATEWAY) then
        g <- gets (λ s, gateways s !! KeyGateway (ft_Gateway token)) ;;
        ret (with_owner token (gw_Owner (default zero_Gateway g)))
      else ret token
  end.

Definition EditToken (msg : MsgEditToken) : MA unit :=
  token <- owned_token (et_TokenId msg) ;;
  require (AccAddress_Equals (et_Owner msg) (ft_Owner token)) (asset_err CodeInvalidOwner) ;;;
  hasIssuedAmt <- bank_of (GetTotalSupply (GetDenom token)) ;;
  match hasIssuedAmt with
  | None => throw (asset_err CodeAssetNotExists)
  | Some hasIssuedAmt =>
      maxSupply <- lift (NewIntWithDecimal (wrap_int64 (et_MaxSupply msg)) (ft_Decimal token)) ;;
      require (negb (Int_GT maxSupply 0 &&
                     (Int_LT maxSupply (amount hasIssuedAmt) || Int_GT maxSupply (ft_MaxSupply token))))
        (asset_err CodeInvalidAssetMaxSupply) ;;;
      SetToken (with_edits token
        (default (ft_Name token) (updated (et_Name msg)))
        (if bool_decide (ft_Source token = NATIVE) then ft_CanonicalSymbol token
         else default (ft_CanonicalSymbol token) (updated (et_CanonicalSymbol msg)))
        (default (ft_MinUnitAlias token) (updated (et_MinUnitAlias msg)))
        (if Int_GT maxSupply 0 then maxSupply else ft_MaxSupply token)
        (if bool_decide (et_Mintable msg = "") then ft_Mintable token else ToBool (et_Mintable msg)))
  end.

Definition resetStoreKeyForQueryToken (msg : MsgTransferTokenOwner) (token : FungibleToken) : MA unit :=
  tokenId <- lift (token_id token) ;;
  modify (set_index (delete (KeyTokens (tt_SrcOwner msg) tokenId))) ;;;
  SetTokens (tt_DstOwner msg) token.
Definition TransferTokenOwner (msg : MsgTransferTokenOwner) : MA unit :=
  token <- getToken (tt_TokenId msg) ;;
  match token with
  | None => throw (asset_err CodeAssetNotExists)
  | Some token =>
      require (bool_decide (ft_Source token = NATIVE)) (asset_err CodeInvalidAssetSource) ;;;
      require (AccAddress_Equals (tt_SrcOwner msg) (ft_Owner token)) (asset_err CodeInvalidOwner) ;;;
      let token := with_owner token (tt_DstOwner msg) in
      SetToken token ;;;
      resetStoreKeyForQueryToken msg token
  end.

Definition mint_fee (token : FungibleToken) (owner : AccAddress) : MA unit :=
  match ft_Source token with
  | NATIVE => TokenMintFeeHandler owner (ft_Symbol token)
  | GATEWAY => GatewayTokenMintFeeHandler owner (ft_Symbol token)
  | _ => ret tt
  end.
Definition MintToken (msg : MsgMintToken) : MA unit :=
  token <- owned_token (mt_TokenId msg) ;;
  require (AccAddress_Equals (mt_Owner msg) (ft_Owner token)) (asset_err CodeInvalidOwner) ;;;
  require (ft_Mintable token) (asset_err CodeAssetNotMintable) ;;;
  hasIssuedAmt <- bank_of (GetTotalSupply (GetDenom token)) ;;
  match hasIssuedAmt with
  | None => throw (asset_err CodeAssetNotExists)
  | Some hasIssuedAmt =>
      let expDenom := GetDenom token in
      require (bool_decide (expDenom = denom hasIssuedAmt)) (asset_err CodeAssetNotExists) ;;;
      mintAmt <- lift (NewIntWithDecimal (wrap_int64 (mt_Amount msg)) (ft_Decimal token)) ;;
      sum <- lift (Int_Add mintAmt (amount hasIssuedAmt)) ;;
      (if Int_GT sum (ft_MaxSupply token) then
         exp <- lift (NewIntWithDecimal 1 (ft_Decimal token)) ;;
         canAmt <- lift (Int_Sub (ft_MaxSupply token) (amount hasIssuedAmt)) ;;
         lift (Int_Div canAmt exp) ;;;
         throw (asset_err CodeInvalidAssetMaxSupply)
       else ret tt) ;;;
      mint_fee token (mt_Owner msg) ;;;
      mintCoin <- lift (NewCoin expDenom mintAmt) ;;
      bank_of (IncreaseTotalSupply mintCoin) ;;;
      let mintAcc := if AccAddress_Empty (mt_To msg) then ft_Owner token else mt_To msg in
      bank_of (addCoins mintAcc [mintCoin]) ;;;
      ret tt
  end.

Definition Init : MA unit :=
  SetParamSet DefaultParams ;;;
  maxSupply <- lift (NewIntWithDecimal (wrap_int64 MaximumAssetMaxSupply) 8) ;;
  ignore_err (IssueToken (NewFungibleToken EXTERNAL "" "BTC" "Bitcoin" 8 "BTC" "satoshi" 0 maxSupply true "")) ;;;
  maxSupply <- lift (NewIntWithDecimal (wrap_int64 MaximumAssetMaxSupply) 18) ;;
  ignore_err (IssueToken (NewFungibleToken EXTERNAL "" "ETH" "Ethereum" 18 "ETH" "wei" 0 maxSupply true "")).

(** ** Handlers (handler.go) *)
Definition handleIssueToken (msg : MsgIssueToken) : MA unit :=
  match it_Family msg with
  | FUNGIBLE =>
      initial <- lift (NewIntWithDecimal (wrap_int64 (it_InitialSupply msg)) (it_Decimal msg)) ;;
      maximum <- lift (NewIntWithDecimal (wrap_int64 (it_MaxSupply msg)) (it_Decimal msg)) ;;
      let token := NewFungibleToken (it_Source msg) (it_Gateway msg) (it_Symbol msg) (it_Name msg) (it_Decimal msg)
                     (it_CanonicalSymbol msg) (it_MinUnitAlias msg) initial maximum (it_Mintable msg) (it_Owner msg) in
      match it_Source msg with
      | NATIVE => TokenIssueFeeHandler (it_Owner msg) (it_Symbol msg)
      | GATEWAY => GatewayTokenIssueFeeHandler (it_Owner msg) (it_Symbol msg)
      | _ => ret tt
      end ;;;
      IssueToken token
  | OtherFamily _ => throw (asset_err CodeInvalidAssetFamily)
  end.
Definition handleMsgCreateGateway (msg : MsgCreateGateway) : MA unit :=
  GatewayCreateFeeHandler (cg_Owner msg) (cg_Moniker msg) ;;;
  CreateGateway (mkCreateGateway (cg_Owner msg) (ToLower (cg_Moniker msg)) (cg_Identity msg) (cg_Details msg)
                   (cg_Website msg)).
Definition handleMsgEditGateway (msg : MsgEditGateway) : MA unit :=
  EditGateway (mkEditGateway (eg_Owner msg) (ToLower (eg_Moniker msg)) (eg_Identity msg) (eg_Details msg)
                 (eg_Website msg)).
Definition handleMsgTransferGatewayOwner (msg : MsgTransferGatewayOwner) : MA unit :=
  TransferGatewayOwner (mkTransferGateway (tg_Owner msg) (ToLower (tg_Moniker msg)) (tg_To msg)).
Definition Handler (msg : AssetMsg) : MA unit :=
  match msg with
  | IssueTokenMsg msg => handleIssueToken msg
  | CreateGatewayMsg msg => handleMsgCreateGateway msg
  | EditGatewayMsg msg => handleMsgEditGateway msg
  | EditTokenMsg msg => EditToken msg
  | TransferGatewayMsg msg => handleMsgTransferGatewayOwner msg
  | MintTokenMsg msg => MintToken msg
  | TransferTokenMsg msg => TransferTokenOwner msg
  | OtherMsg => throw ErrTxDecode
  end.

(** ** The ante handler (ante.go): the leading asset messages of a transaction and
    the coins of the first signer; a fee left nil breaks the addition *)
Definition msg_fee (p : Params) (msg : AssetMsg) : option (Outcome Coin) :=
  match msg with
  | CreateGatewayMsg msg => Some (GetGatewayCreateFee p (cg_Moniker msg))
  | IssueTokenMsg msg =>
      match it_Source msg with
      | NATIVE => Some (GetTokenIssueFee p (it_Symbol msg))
      | GATEWAY => Some (GetGatewayTokenIssueFee p (it_Symbol msg))
      | _ => None
      end
  | MintTokenMsg msg =>
      let '(prefix, symbol) := GetTokenIDParts (mt_TokenId msg) in
      if bool_decide (prefix = "") || bool_decide (prefix = "i") then Some (GetTokenMintFee p symbol) else
      if bool_decide (prefix ≠ "x") then Some (GetGatewayTokenMintFee p symbol) else None
  | _ => Some (NewCoin IrisAtto 0)
  end.
Fixpoint total_fee (p : Params) (totalFee : Coins) (msgs : list AssetMsg) : Outcome Coins :=
  match msgs with
  | [] => Ok totalFee
  | msg :: msgs =>
      match msg_fee p msg with
      | None => Panic "nil pointer dereference"
      | Some fee =>
          let? fee := fee in
          let? totalFee := Coins_Add totalFee [fee] in
          total_fee p totalFee msgs
      end
  end.
Definition asset_AnteHandler (signers : list BaseAccount) (msgs : list AssetMsg) : MA unit :=
  match signers with
  | [] => throw (asset_err CodeSignersMissingInContext)
  | payer :: _ =>
      p <- GetParamSet ;;
      totalFee <- lift (total_fee p [] msgs) ;;
      require (IsAllLTE totalFee (acc_Coins payer)) (asset_err CodeInsufficientCoins)
  end.

(** ** Genesis (genesis.go) *)
Record GenesisState := mkGenesis { gs_Params : Params; gs_Tokens : list FungibleToken; gs_Gateways : list Gateway }.
Fixpoint validateGateways (l : list Gateway) : Outcome unit :=
  match l with [] => Ok tt | g :: l => let? _ := Gateway_Validate g in validateGateways l end.
Definition ValidateGenesis (data : GenesisState) : Outcome unit :=
  let? _ := ValidateParams (gs_Params data) in
  let? _ := validateGateways (gs_Gateways data) in
  Tokens_Validate (gs_Tokens data).
Definition must {A} (c : MA A) : MA A := λ s,
  match c s with (Err _, s) => (Panic "genesis", s) | r => r end.
Definition InitGenesis (data : GenesisState) : MA unit :=
  must (lift (ValidateGenesis data)) ;;;
  SetParamSet (gs_Params data) ;;;
  for_each (gs_Gateways data) (λ gateway,
    SetGateway gateway ;;; SetOwnerGateway (gw_Owner gateway) (gw_Moniker gateway)) ;;;
  for_each (gs_Tokens data) (λ token, must (AddToken token) ;;; ret tt).
Definition ExportGenesis (s : AssetState) : GenesisState :=
  mkGenesis (as_params s) (IterateTokens s) (IterateGateways s).

(** ** Queries (querier.go) *)
Definition queryGateway (moniker : string) : MA Gateway :=
  lift (ValidateMoniker moniker) ;;; GetGateway moniker.
Definition queryGatewaysByOwner (owner : AccAddress) (s : AssetState) : list Gateway :=
  flat_map (λ kv, option_list (gateways s !! KeyGateway kv.2)) (GetGateways owner s).
Definition queryGateways (owner : AccAddress) (s : AssetState) : list Gateway :=
  if AccAddress_Empty owner then IterateGateways s else queryGatewaysByOwner owner s.
Definition queryTokenFees (id : string) (s : AssetState) : Outcome (bool * Coin * Coin) :=
  let? _ := CheckTokenID id in
  let '(prefix, symbol) := GetTokenIDParts id in
  let p := as_params s in
  if bool_decide (prefix = "x") then Err ErrUnknownRequest else
  let native := bool_decide (prefix = "") || bool_decide (prefix = "i") in
  let? issueFee := if native then GetTokenIssueFee p symbol else GetGatewayTokenIssueFee p symbol in
  let? mintFee := if native then GetTokenMintFee p symbol else GetGatewayTokenMintFee p symbol in
  Ok (bool_decide (is_Some (tokens s !! KeyToken id)), issueFee, mintFee).
End keeper.
End AssetKeeper.
