(* ===== verification/AssetThms.v ===== *)
(** * What the asset messages keep

    [AssetFacts] has the names, keys and supplies of tokens; [AssetThms] the theorems.
    Tokens keep valid names and a recorded supply; the supply stays within the
    maximum of the token; the bank sees no native token made or lost. *)

From Stdlib Require Import Ascii.
From S2P Require Import Prelude SdkErrors Frame IntType GoStrings Regex Denom Coin CoinFacts Dec Gas KVStore Auth StdTx Bank BankFacts BankFrame Asset AssetKeeper.
#[local] Open Scope Z_scope.

(** ** Names, keys and supplies of tokens *)
Module AssetFacts.
Import Asset AssetKeeper.

(** ** Symbols and monikers *)
Definition symbol_ok (s : string) : Prop := matches reSymbol (chars s).

Lemma lower_alnum c : is_alnum (lower_char c) = true → cls_az09 (lower_char c) = true.
Proof. destruct c as [[] [] [] [] [] [] [] []]; vm_compute; done. Qed.
Lemma lower_alpha c : is_upper (lower_char c) || is_lower (lower_char c) = true → cls_az (lower_char c) = true.
Proof. destruct c as [[] [] [] [] [] [] [] []]; vm_compute; done. Qed.

(** What the checks of a symbol and of a moniker leave. *)
Lemma lower_symbol_ok s :
  in_len 3 8 (ToLower s) = true → IsBeginWithAlpha (ToLower s) = true → IsAlphaNumeric (ToLower s) = true →
  symbol_ok (ToLower s).
Proof.
  unfold symbol_ok, in_len, IsBeginWithAlpha, IsAlphaNumeric, str_len, ToLower. rewrite !chars_str.
  rewrite length_fmap. intros [H1%Nat.leb_le H2%Nat.leb_le]%andb_true_iff.
  destruct (chars s) as [|c l]; [done|]. csimpl. intros Ha [Hc Hl]%andb_true_iff.
  apply (MCat _ _ [lower_char c]); [constructor; by apply lower_alpha|].
  apply matches_range_class; [rewrite length_fmap; simpl in *; lia|].
  apply Forall_fmap, Forall_forall. intros x Hx. apply lower_alnum. rewrite forallb_forall in Hl.
  apply Hl, list_elem_of_In, list_elem_of_fmap. eauto.
Qed.

Lemma symbol_chars s : symbol_ok s → Forall (λ c, cls_az09 c = true) (chars s).
Proof. intros Hs. by apply reSymbol_shape. Qed.
Lemma symbol_lower s : symbol_ok s → ToLower s = s.
Proof.
  intros Hs%symbol_chars. apply ToLower_id. eapply Forall_impl; [done|]. intros c Hc.
  by apply cls_az09_name in Hc as (_&?&_).
Qed.
Lemma symbol_no_dot s : symbol_ok s → "."%char ∉ chars s.
Proof.
  intros Hs%symbol_chars Hin. rewrite Forall_forall in Hs. by apply Hs, cls_az09_not_sep in Hin as [_ ?].
Qed.

Lemma name_native s : symbol_ok s → IsCoinNameValid s = true.
Proof.
  intros Hs. apply re_match_iff. change (chars s) with ([] ++ [] ++ chars s).
  constructor; [apply matches_opt; by left|]. constructor; [apply matches_opt; by left|done].
Qed.
Lemma name_prefixed g s :
  matches (RAlt reSymbol (rchar "x")) (chars g) → symbol_ok s → IsCoinNameValid (g +:+ "." +:+ s) = true.
Proof.
  intros Hg Hs. apply re_match_iff. rewrite !chars_app.
  change (chars g ++ chars "." ++ chars s) with ([] ++ chars g ++ ["."%char] ++ chars s). rewrite (app_assoc (chars g)).
  constructor; [apply matches_opt; by left|]. constructor; [|done]. apply matches_opt. right.
  constructor; [done|]. by apply matches_char.
Qed.

(** ** Well-formed tokens *)
Record token_wf (t : FungibleToken) : Prop := {
  tk_symbol : symbol_ok (ft_Symbol t);
  tk_source : match ft_Source t with
              | NATIVE => ft_Symbol t ≠ Iris
              | EXTERNAL => True
              | GATEWAY => symbol_ok (ft_Gateway t)
              | OtherSource _ => False
              end }.

Lemma ToLower_dot a b : ToLower (a +:+ "." +:+ b) = ToLower a +:+ "." +:+ ToLower b.
Proof. unfold ToLower. rewrite !chars_app, !fmap_app, !str_app. done. Qed.

Lemma token_name t : token_wf t → IsCoinNameValid (GetUniqueID t) = true ∧ GetUniqueID t ≠ Iris.
Proof.
  intros [Hs Hsrc]. unfold GetUniqueID, unique_id. destruct (ft_Source t).
  - rewrite symbol_lower by done. split; [by apply name_native|done].
  - change ("x." +:+ ft_Symbol t) with ("x" +:+ "." +:+ ft_Symbol t). rewrite ToLower_dot, (symbol_lower (ft_Symbol t)) by done.
    split; [|done]. apply name_prefixed; [|done]. apply matches_alt. right. by apply matches_char.
  - rewrite ToLower_dot, !symbol_lower by done. split; [apply name_prefixed; [|done]; apply matches_alt; by left|].
    intros E. apply (f_equal chars) in E. rewrite !chars_app in E.
    assert (Hin : "."%char ∈ chars Iris) by (rewrite <-E; set_solver). vm_compute in Hin. set_solver.
  - done.
Qed.

Lemma token_denom t : token_wf t → GetDenom t = GetUniqueID t +:+ MinDenomSuffix.
Proof.
  intros Ht. destruct (token_name t Ht) as [Hn Hi]. unfold GetDenom, GetCoinMinDenom.
  rewrite name_valid_trim, name_valid_lower by done. by rewrite bool_decide_false.
Qed.
Lemma token_denom_valid t : token_wf t → IsCoinMinDenomValid (GetDenom t) = true.
Proof. intros Ht. destruct (token_name t Ht) as [Hn Hi]. rewrite token_denom by done. by apply min_denom_intro. Qed.
Lemma token_denom_not_iris t : token_wf t → GetDenom t ≠ IrisAtto.
Proof.
  intros Ht E. pose proof (token_denom t Ht) as Hd. rewrite E in Hd. apply (f_equal chars) in Hd.
  rewrite chars_app in Hd. apply (f_equal last) in Hd. rewrite last_app in Hd. by vm_compute in Hd.
Qed.

(** The two keys of a token end in the same text. *)
Lemma token_supply_key t : token_wf t → TotalSupplyStoreKey (GetDenom t) = totalSupplyKeyPrefix +:+ token_key (GetUniqueID t).
Proof.
  intros Ht. destruct (token_name t Ht) as [Hn Hi]. unfold TotalSupplyStoreKey. rewrite token_denom by done.
  change MinDenomSuffix with ("-" +:+ "min"). by rewrite ConvertDenomToTokenKeyId_name.
Qed.

Lemma key_dotted a b :
  ToLower a = a → symbol_ok b → ConvertIdToTokenKeyId (a +:+ "." +:+ b) = Some (a +:+ "." +:+ b).
Proof.
  intros Ha Hb. unfold ConvertIdToTokenKeyId.
  assert (Hre : re_search reToken (chars (a +:+ "." +:+ b)) = true).
  { rewrite !chars_app, <-(app_nil_r (chars b)), app_assoc. apply re_search_intro.
    destruct (reSymbol_shape _ Hb) as [Hc Hl]. apply matches_range_class; [lia|]. eapply Forall_impl; [exact Hc|].
    intros c Hc'. simpl in *. by rewrite az09_alnum. }
  rewrite Hre. simpl. unfold Contains_char. rewrite bool_decide_eq_true_2; [|rewrite !chars_app; set_solver].
  by rewrite ToLower_dot, Ha, (symbol_lower b).
Qed.

Lemma token_store_key t :
  token_wf t → ∃ id, token_id t = Ok id ∧ KeyToken id = "token:" +:+ token_key (GetUniqueID t).
Proof.
  intros Ht. pose proof Ht as [Hs Hsrc]. unfold token_id, GetTokenID, GetUniqueID, unique_id, KeyToken.
  destruct (ft_Source t); [| | |done]; eexists; (split; [done|]).
  - change ("i." +:+ ft_Symbol t) with ("i" +:+ "." +:+ ft_Symbol t). rewrite ToLower_dot, (symbol_lower (ft_Symbol t)) by done.
    change (ToLower "i") with "i". rewrite key_dotted by done. unfold token_key, Contains_char.
    rewrite bool_decide_eq_false_2 by (by apply symbol_no_dot). done.
  - change ("x." +:+ ft_Symbol t) with ("x" +:+ "." +:+ ft_Symbol t). rewrite ToLower_dot, (symbol_lower (ft_Symbol t)) by done.
    change (ToLower "x") with "x". rewrite key_dotted by done. unfold token_key, Contains_char.
    rewrite bool_decide_eq_true_2 by (rewrite !chars_app; set_solver). done.
  - rewrite ToLower_dot, !symbol_lower by done.
    rewrite key_dotted by (done || by apply symbol_lower). unfold token_key, Contains_char.
    rewrite bool_decide_eq_true_2 by (rewrite !chars_app; set_solver). done.
Qed.

(** ** Supplies only fall in the bank *)
Definition supply_le (s s' : AuthState) : Prop := ∀ k,
  match totalSupply s !! k with
  | None => totalSupply s' !! k = None
  | Some c => ∃ c', totalSupply s' !! k = Some c' ∧ denom c' = denom c ∧ amount c' ≤ amount c
  end.
#[export] Instance supply_le_po : PreOrder supply_le.
Proof.
  split.
  - intros s k. destruct (totalSupply s !! k) as [c|]; [|done]. exists c. split_and!; [done|done|lia].
  - intros s1 s2 s3 H1 H2 k. specialize (H1 k). specialize (H2 k). destruct (totalSupply s1 !! k) as [c|].
    + destruct H1 as (c'&E&?&?). rewrite E in H2. destruct H2 as (c''&?&?&?). exists c''.
      split_and!; [done|congruence|lia].
    + by rewrite H1 in H2.
Qed.
Lemma supply_le_same s s' : totalSupply s' = totalSupply s → supply_le s s'.
Proof.
  intros E k. rewrite E. destruct (totalSupply s !! k) as [c|]; [|done]. exists c. split_and!; [done|done|lia].
Qed.
Lemma supply_le_gas g s : supply_le s (set_gas g s).
Proof. by apply supply_le_same. Qed.

Lemma consume_supply n d : framed supply_le (ctx_ConsumeGas n d).
Proof.
  apply framed_intro; [intros s u s' [g ->]%ctx_ConsumeGas_inv; apply supply_le_gas|].
  intros s e s' E. by eapply (framed_err any_rel), E; apply consume_any.
Qed.
Lemma getCoins_supply a : framed supply_le (getCoins a).
Proof. apply (framed_bind supply_le); [apply consume_supply|intros _]. unfold GetAccount. framed. Qed.
Lemma setCoins_supply a c : framed supply_le (setCoins a c).
Proof.
  apply (framed_bind supply_le); [apply consume_supply|intros _].
  unfold GetAccount, SetAccount, NewAccountWithAddress, GetNextAccountNumber.
  framed; apply (framed_modify supply_le); intros s; by apply supply_le_same.
Qed.
#[local] Hint Resolve consume_supply getCoins_supply setCoins_supply : frame.


Lemma subtractCoins_supply a c : framed supply_le (subtractCoins a c).
Proof. unfold subtractCoins. framed. Qed.

Lemma DecreaseTotalSupply_supply c s o s' : DecreaseTotalSupply c s = (o, s') → supply_le s s'.
Proof.
  unfold DecreaseTotalSupply. case_match; [by intros [= _ <-]|].
  destruct (Coin_IsPositive c) eqn:Hp; [|by intros [= _ <-]]. simpl. unfold bind at 1, GetTotalSupply, gets.
  destruct (totalSupply s !! TotalSupplyStoreKey (denom c)) as [sup|] eqn:Es; [|by intros [= _ <-]].
  unfold bind, lift. destruct (Coin_Sub sup c) as [r|e|w] eqn:Er; [|by intros [= _ <-]..].
  case_match; [by intros [= _ <-]|]. intros [= _ <-].
  unfold Coin_Sub in Er. case_bool_decide as Hd; [done|]. simpl in Er.
  destruct (Int_Sub (amount sup) (amount c)) as [n|e|w] eqn:Ei; [|done..]. apply Int_Sub_ok in Ei as [-> _].
  simpl in Er. unfold NewCoin in Er. case_match; [done|]. injection Er as <-.
  apply Int_IsPositive_iff in Hp. intros k. unfold set_totalSupply. simpl. rewrite lookup_insert.
  destruct (decide (denom sup = denom c)) as [E|]; [|done]. rewrite E. case_decide as Hk.
  - subst. rewrite Es. eexists. split_and!; [done|done|]. simpl. lia.
  - destruct (totalSupply s !! k) as [d|]; [|done]. exists d. split_and!; [done|done|lia].
Qed.
Lemma burn_coin_supply c : framed supply_le (burn_coin c).
Proof.
  unfold burn_coin. case_match.
  - unfold DecreaseTotalLoosenToken, GetTotalLoosenToken. framed.
    apply (framed_modify supply_le). intros s. by apply supply_le_same.
  - intros s. unfold ignore_err. destruct (DecreaseTotalSupply c s) as [[[]|e|w] s'] eqn:E; [| |done];
      by eapply DecreaseTotalSupply_supply.
Qed.
#[local] Hint Resolve burn_coin_supply : frame.

Section bank.
Context `{Crypto}.
Lemma addCoins_supply a c : framed supply_le (addCoins a c).
Proof. unfold addCoins. framed. Qed.
#[local] Hint Resolve addCoins_supply subtractCoins_supply : frame.
Lemma sendCoins_supply a b c : framed supply_le (sendCoins a b c).
Proof. unfold sendCoins. framed. Qed.
Lemma BurnCoins_supply a c : framed supply_le (BurnCoins a c).
Proof. apply (framed_bind supply_le); [apply consume_supply|intros _; apply sendCoins_supply]. Qed.
End bank.
End AssetFacts.

Module AssetThms.
Import Asset AssetKeeper AssetFacts.

(** ** The invariant *)
Definition store_key (t : FungibleToken) : string := "token:" +:+ token_key (GetUniqueID t).
Definition supply_key (t : FungibleToken) : string := TotalSupplyStoreKey (GetDenom t).
Definition supply_of (s : AssetState) (t : FungibleToken) : option Coin := totalSupply (as_auth s) !! supply_key t.
Record asset_inv (s : AssetState) : Prop := {
  ai_auth : auth_wf (as_auth s);
  ai_token k t : tokens s !! k = Some t → token_wf t ∧ k = store_key t;
  ai_supply k t : tokens s !! k = Some t → ∃ c, supply_of s t = Some c ∧ denom c = GetDenom t;
  ai_gateway k g : gateways s !! k = Some g → symbol_ok (gw_Moniker g) ∧ k = KeyGateway (gw_Moniker g) }.
(** The supply of every token is within its maximum. *)
Definition supply_bounded (s : AssetState) : Prop :=
  ∀ k t c, tokens s !! k = Some t → supply_of s t = Some c → amount c ≤ ft_MaxSupply t.
(** The same up to the tokens of [E], which may have all of their initial supply. *)
Definition supply_within (E : string → Prop) (s : AssetState) : Prop :=
  ∀ k t c, tokens s !! k = Some t → supply_of s t = Some c → amount c ≤ ft_MaxSupply t ∨ E k ∧ amount c ≤ ft_InitialSupply t.

(** ** Changes of the bank only *)
Record bank_only (s s' : AssetState) : Prop := {
  bo_tokens : tokens s' = tokens s;
  bo_gateways : gateways s' = gateways s;
  bo_params : as_params s' = as_params s;
  bo_supply : supply_le (as_auth s) (as_auth s');
  bo_bank : bank_rel (as_auth s) (as_auth s') }.
#[export] Instance bank_only_po : PreOrder bank_only.
Proof.
  split; [intros s; split; (done || reflexivity)|].
  intros s1 s2 s3 [] []. split; [congruence|congruence|congruence|by etrans|by etrans].
Qed.

Lemma bank_only_inv s s' : bank_only s s' → asset_inv s → asset_inv s'.
Proof.
  intros [Et Eg _ Hle Hb] [Ha Ht Hs Hg]. split.
  - by apply Hb.
  - intros k t. rewrite Et. apply Ht.
  - intros k t. rewrite Et. intros Hk. destruct (Hs _ _ Hk) as (c&Hc&Hd). specialize (Hle (supply_key t)).
    unfold supply_of in *. rewrite Hc in Hle. destruct Hle as (c'&?&?&_). exists c'. split; [done|congruence].
  - intros k g. rewrite Eg. apply Hg.
Qed.
Lemma bank_only_within E s s' : bank_only s s' → asset_inv s → supply_within E s → supply_within E s'.
Proof.
  intros [Et _ _ Hle _] Hi Hb k t c'. rewrite Et. intros Hk Hc'. destruct (ai_supply s Hi _ _ Hk) as (c&Hc&_).
  specialize (Hle (supply_key t)). unfold supply_of in *. rewrite Hc in Hle. destruct Hle as (c2&Hc2&_&?).
  rewrite Hc' in Hc2. injection Hc2 as <-. destruct (Hb _ _ _ Hk Hc) as [|[? ?]]; [left|right; split; [done|]]; lia.
Qed.

Lemma framed_both {S A} (R Q : relation S) (c : M S A) : framed R c → framed Q c → framed (λ s s', R s s' ∧ Q s s') c.
Proof. intros HR HQ s. specialize (HR s). specialize (HQ s). by destruct (c s) as [[]]. Qed.

Section keeper.
Context `{Crypto}.
Variable acc_String : AccAddress → string.
Variable fee_factor_text : Z → string.

Lemma bank_of_framed {A} (c : M AuthState A) : framed supply_le c → framed bank_rel c → framed bank_only (bank_of c).
Proof.
  intros H1 H2. eapply (framed_zoom (λ s s', supply_le s s' ∧ bank_rel s s')); [|by apply framed_both].
  intros s s' [??]. by split.
Qed.

(** ** Fees *)
Lemma calcFeeFactor_nz n : err_nz (calcFeeFactor fee_factor_text n).
Proof. unfold calcFeeFactor. err_nz. Qed.
#[local] Hint Resolve calcFeeFactor_nz : frame.
Lemma convertFeeToInt_nz f : err_nz (convertFeeToInt f).
Proof. unfold convertFeeToInt. err_nz. Qed.
#[local] Hint Resolve convertFeeToInt_nz : frame.
Lemma iris_fee_nz o : err_nz o → err_nz (iris_fee o).
Proof. intros Ho. unfold iris_fee. err_nz. Qed.
Lemma calcFeeByBase_nz n b : err_nz (calcFeeByBase fee_factor_text n b).
Proof. unfold calcFeeByBase. err_nz. Qed.
#[local] Hint Resolve iris_fee_nz calcFeeByBase_nz : frame.
Lemma scaled_fee_nz o r : err_nz o → err_nz (scaled_fee o r).
Proof. intros Ho. unfold scaled_fee. err_nz. apply iris_fee_nz. err_nz. Qed.
#[local] Hint Resolve scaled_fee_nz : frame.
Lemma fees_nz p n :
  err_nz (GetGatewayCreateFee fee_factor_text p n) ∧ err_nz (GetTokenIssueFee fee_factor_text p n) ∧
  err_nz (GetTokenMintFee fee_factor_text p n) ∧ err_nz (GetGatewayTokenIssueFee fee_factor_text p n) ∧
  err_nz (GetGatewayTokenMintFee fee_factor_text p n).
Proof.
  unfold GetGatewayCreateFee, GetGatewayTokenMintFee, GetGatewayTokenIssueFee, GetTokenMintFee, GetTokenIssueFee.
  split_and!; eauto 6 with frame.
Qed.

Lemma send_both a b c : framed bank_only (bank_of (sendCoins a b c)).
Proof. apply bank_of_framed; [apply sendCoins_supply|apply sendCoins_framed]. Qed.
Lemma burn_both a c : framed bank_only (bank_of (BurnCoins a c)).
Proof. apply bank_of_framed; [apply BurnCoins_supply|apply BurnCoins_framed]. Qed.
#[local] Hint Resolve send_both burn_both : frame.
Lemma community_tax_nz p f : err_nz (community_tax p f).
Proof. unfold community_tax. err_nz. Qed.
#[local] Hint Resolve community_tax_nz : frame.
Lemma charge_framed get_fee owner : (∀ p, err_nz (get_fee p)) → framed bank_only (charge get_fee owner).
Proof. intros Hf. unfold charge, feeHandler, GetParamSet. framed. Qed.
Lemma issue_fee_framed o n : framed bank_only (TokenIssueFeeHandler fee_factor_text o n).
Proof. apply charge_framed. intros p. apply fees_nz. Qed.
Lemma gateway_issue_fee_framed o n : framed bank_only (GatewayTokenIssueFeeHandler fee_factor_text o n).
Proof. apply charge_framed. intros p. apply fees_nz. Qed.
Lemma gateway_fee_framed o n : framed bank_only (GatewayCreateFeeHandler fee_factor_text o n).
Proof. apply charge_framed. intros p. apply fees_nz. Qed.
Lemma mint_fee_framed t o : framed bank_only (mint_fee fee_factor_text t o).
Proof.
  unfold mint_fee. case_match; [apply charge_framed; intros p; apply fees_nz|framed|apply charge_framed; intros p; apply fees_nz|framed].
Qed.

(** ** Writing a token *)
Definition stored (t : FungibleToken) : FungibleToken :=
  if bool_decide (ft_Source t = GATEWAY) then with_owner t "" else t.
Definition put_token (t : FungibleToken) (s : AssetState) : AssetState :=
  set_tokens (insert (store_key t) (stored t)) s.

Lemma stored_wf t : token_wf t → token_wf (stored t).
Proof. intros [H1 H2]. unfold stored. case_bool_decide; by split. Qed.
Lemma stored_keys t :
  store_key (stored t) = store_key t ∧ supply_key (stored t) = supply_key t ∧ GetDenom (stored t) = GetDenom t ∧
  ft_MaxSupply (stored t) = ft_MaxSupply t ∧ ft_InitialSupply (stored t) = ft_InitialSupply t.
Proof. unfold stored. by case_bool_decide. Qed.

Lemma SetToken_ok t s u s' : token_wf t → SetToken t s = (Ok u, s') → s' = put_token t s.
Proof.
  intros Ht Hr. unfold SetToken in Hr. fold (stored t) in Hr. inv_ok Hr.
  destruct (token_store_key _ (stored_wf t Ht)) as (id&Hid&Hk). rewrite Hid in E. injection E as <-.
  rewrite Hk. unfold put_token. destruct (stored_keys t) as (Ek&_). unfold store_key in Ek at 1. by rewrite Ek.
Qed.

Lemma put_token_inv t s :
  asset_inv s → token_wf t → (∃ c, supply_of s t = Some c ∧ denom c = GetDenom t) → asset_inv (put_token t s).
Proof.
  intros [Ha Ht Hs Hg] Hwf Hc. destruct (stored_keys t) as (Ek&Es&Ed&_). split; simpl; try done.
  - intros k t' [[<- <-]|[_ Hk]]%lookup_insert_Some; [|by apply Ht]. split; [by apply stored_wf|by rewrite Ek].
  - intros k t' [[<- <-]|[_ Hk]]%lookup_insert_Some; [|by eapply Hs]. unfold supply_of in *. simpl. by rewrite Es, Ed.
Qed.
Lemma put_token_within E t s :
  supply_within E s → (∀ c, supply_of s t = Some c → amount c ≤ ft_MaxSupply t ∨ E (store_key t) ∧ amount c ≤ ft_InitialSupply t) →
  supply_within E (put_token t s).
Proof.
  intros Hb Ht k t' c Hk. simpl in Hk. destruct (stored_keys t) as (Ek&Es&_&Em&Ei).
  apply lookup_insert_Some in Hk as [[<- <-]|[_ Hk]]; [|by eapply Hb].
  unfold supply_of in *. simpl. rewrite Es, Em, Ei. apply Ht.
Qed.

(** Parts the invariant does not look at. *)
Record same_core (s s' : AssetState) : Prop := {
  sc_auth : as_auth s' = as_auth s; sc_tokens : tokens s' = tokens s; sc_gateways : gateways s' = gateways s }.
Lemma same_core_inv s s' : same_core s s' → asset_inv s → asset_inv s'.
Proof.
  intros [Ea Et Eg] [? Ht Hs Hg]. split; rewrite ?Ea, ?Et, ?Eg; try done. intros k t Hk.
  unfold supply_of. rewrite Ea. by eapply Hs.
Qed.
Lemma same_core_within E s s' : same_core s s' → supply_within E s → supply_within E s'.
Proof. intros [Ea Et Eg] Hb k t c. unfold supply_of. rewrite Et, Ea. apply Hb. Qed.

Lemma SetTokens_core o t s u s' : SetTokens acc_String o t s = (Ok u, s') → same_core s s'.
Proof. intros Hr. unfold SetTokens in Hr. inv_ok Hr. by split. Qed.

(** ** Tokens of the store *)
Definition owner_of (s : AssetState) (t : FungibleToken) : AccAddress :=
  if bool_decide (ft_Source t = GATEWAY)
  then gw_Owner (default zero_Gateway (gateways s !! KeyGateway (ft_Gateway t))) else ft_Owner t.
Lemma owned_token_ok tokenId s t s' :
  asset_inv s → owned_token tokenId s = (Ok t, s') →
  s' = s ∧ token_wf t ∧ ∃ t0, tokens s !! store_key t = Some t0 ∧ (ft_MaxSupply t = ft_MaxSupply t0 ∧ ft_InitialSupply t = ft_InitialSupply t0) ∧
  (∃ c, supply_of s t = Some c ∧ denom c = GetDenom t) ∧ GetDenom t0 = GetDenom t ∧
  ft_Owner t = owner_of s t0.
Proof.
  intros Hi Hr. unfold owned_token, getToken in Hr. unfold bind at 1, gets in Hr.
  destruct (tokens s !! KeyToken tokenId) as [t0|] eqn:Ek; [|done].
  destruct (ai_token s Hi _ _ Ek) as [Hwf Hkey]. pose proof (ai_supply s Hi _ _ Ek) as Hsup. rewrite Hkey in Ek.
  unfold owner_of. case_bool_decide as Hg.
  - unfold bind, gets, ret in Hr. injection Hr as <- <-. split; [done|]. split; [by destruct Hwf; split|].
    exists t0. by rewrite bool_decide_true.
  - injection Hr as <- <-. split; [done|]. split; [done|]. exists t0. by rewrite bool_decide_false.
Qed.

(** ** The messages *)
Lemma in_len_lower lo hi s : in_len lo hi (ToLower s) = in_len lo hi s.
Proof. unfold in_len, str_len, ToLower. by rewrite chars_str, length_fmap. Qed.
Lemma begin_lower s : IsBeginWithAlpha s = true → IsBeginWithAlpha (ToLower s) = true.
Proof.
  unfold IsBeginWithAlpha, ToLower. rewrite chars_str. destruct (chars s) as [|c l]; [done|]. simpl.
  destruct c as [[] [] [] [] [] [] [] []]; vm_compute; done.
Qed.
Lemma alnum_lower_char c : is_alnum c = true → is_alnum (lower_char c) = true.
Proof. destruct c as [[] [] [] [] [] [] [] []]; vm_compute; done. Qed.
Lemma alnum_lower s : IsAlphaNumeric s = true → IsAlphaNumeric (ToLower s) = true.
Proof.
  unfold IsAlphaNumeric, ToLower. rewrite chars_str. destruct (chars s) as [|c l]; [done|]. csimpl.
  rewrite !andb_true_iff, !forallb_forall. intros [Hc Hl]. split; [by apply alnum_lower_char|].
  intros x (y&->&Hy%list_elem_of_In)%list_elem_of_In%list_elem_of_fmap. by apply alnum_lower_char, Hl.
Qed.
Lemma ValidateMoniker_ok m : ValidateMoniker m = Ok tt → symbol_ok (ToLower m).
Proof.
  unfold ValidateMoniker, moniker_size. destruct (in_len 3 8 m) eqn:Hl; [|done].
  destruct (IsBeginWithAlpha m) eqn:Hb; [|done]. destruct (IsAlphaNumeric m) eqn:Ha; [|done]. intros _.
  apply lower_symbol_ok; [by rewrite in_len_lower|by apply begin_lower|by apply alnum_lower].
Qed.

Lemma put_gateway_inv g s :
  asset_inv s → symbol_ok (gw_Moniker g) → asset_inv (set_gateways (insert (KeyGateway (gw_Moniker g)) g) s).
Proof.
  intros [Ha Ht Hs Hg] Hm. split; simpl; try done.
  intros k g' [[<- <-]|[_ Hk]]%lookup_insert_Some; [done|by apply Hg].
Qed.

Lemma GetGateway_ok m s g s' : GetGateway m s = (Ok g, s') → s' = s ∧ gateways s !! KeyGateway m = Some g.
Proof.
  unfold GetGateway, bind, gets. destruct (gateways s !! KeyGateway m) as [g0|] eqn:E; [|done].
  by intros [= <- <-].
Qed.

(** ** Steps: the invariant, the frame of the bank, and the bound on supplies up to the
    tokens of [P] *)
Definition keeps (P : string → Prop) (s s' : AssetState) : Prop :=
  asset_inv s → asset_inv s' ∧ bank_rel (as_auth s) (as_auth s') ∧ ∀ E, (∀ k, P k → E k) → supply_within E s → supply_within E s'.
#[local] Instance keeps_po P : PreOrder (keeps P).
Proof.
  split; [intros s Hi; split_and!; [done|reflexivity|done]|]. intros s1 s2 s3 H1 H2 Hi.
  destruct (H1 Hi) as (Hi2&Hr2&Hb2). destruct (H2 Hi2) as (Hi3&Hr3&Hb3). split_and!; [done|by etrans|auto].
Qed.
Lemma keeps_bank_only P s s' : bank_only s s' → keeps P s s'.
Proof. intros Hb Hi. split_and!; [by eapply bank_only_inv|apply Hb|intros E _; by eapply bank_only_within]. Qed.
Lemma keeps_core P s s' : same_core s s' → keeps P s s'.
Proof.
  intros Hc Hi. split_and!; [by eapply same_core_inv| |intros E _; by eapply same_core_within].
  destruct Hc as [-> _ _]. reflexivity.
Qed.
Lemma keeps_put P t s :
  token_wf t → (∃ c, supply_of s t = Some c ∧ denom c = GetDenom t) →
  (∀ E c, supply_of s t = Some c → supply_within E s → amount c ≤ ft_MaxSupply t ∨ E (store_key t) ∧ amount c ≤ ft_InitialSupply t) →
  keeps P s (put_token t s).
Proof.
  intros Ht Hc Hb Hi. split_and!; [by apply put_token_inv|reflexivity|]. intros E _ Hs. apply put_token_within; [done|]. auto.
Qed.
Lemma keeps_gateway P g s :
  symbol_ok (gw_Moniker g) → keeps P s (set_gateways (insert (KeyGateway (gw_Moniker g)) g) s).
Proof. intros Hm Hi. split_and!; [by apply put_gateway_inv|reflexivity|done]. Qed.
Lemma keeps_gateway_owner P f g s :
  symbol_ok (gw_Moniker g) →
  keeps P s (set_owner_gateways f (set_gateways (insert (KeyGateway (gw_Moniker g)) g) s)).
Proof. intros Hm. etrans; [by apply (keeps_gateway P g)|]. apply keeps_core. by split. Qed.

Lemma CreateGateway_keeps P msg s s' :
  MsgCreateGateway_ValidateBasic msg = Ok tt → handleMsgCreateGateway fee_factor_text msg s = (Ok tt, s') → keeps P s s'.
Proof.
  intros Hv Hr. unfold handleMsgCreateGateway in Hr. inv_ok Hr. etrans.
  { eapply keeps_bank_only, framed_ok; [apply gateway_fee_framed|done]. }
  unfold CreateGateway, HasGateway in Hr. inv_ok Hr. case_match; [done|].
  unfold SetGateway, SetOwnerGateway, bind, modify in Hr. injection Hr as <-.
  apply (keeps_gateway_owner P _ (NewGateway _ _ _ _ _)).
  unfold MsgCreateGateway_ValidateBasic in Hv. case_match; [done|].
  destruct (ValidateMoniker (cg_Moniker msg)) as [[]| |] eqn:Em; [|done..]. by apply ValidateMoniker_ok.
Qed.
Lemma EditGateway_keeps P msg s s' : handleMsgEditGateway msg s = (Ok tt, s') → keeps P s s'.
Proof.
  intros Hr Hi. unfold handleMsgEditGateway, EditGateway in Hr. inv_ok Hr. apply GetGateway_ok in E as [-> Hg].
  destruct (ai_gateway s Hi _ _ Hg) as [Hm Hk]. unfold SetGateway, modify in Hr. injection Hr as <-. revert Hi.
  by apply (keeps_gateway P (NewGateway _ _ _ _ _)).
Qed.
Lemma TransferGateway_keeps P msg s s' : handleMsgTransferGatewayOwner msg s = (Ok tt, s') → keeps P s s'.
Proof.
  intros Hr Hi. unfold handleMsgTransferGatewayOwner, TransferGatewayOwner in Hr. inv_ok Hr. apply GetGateway_ok in E as [-> Hg].
  destruct (ai_gateway s Hi _ _ Hg) as [Hm Hk]. revert Hi.
  unfold SetGateway, modify in E1. injection E1 as <- <-.
  unfold UpdateOwnerGateway, bind, modify in Hr. injection Hr as <-.
  change (keeps P s (set_owner_gateways (insert (KeyOwnerGateway (tg_To msg) (gw_Moniker a)) (gw_Moniker a) ∘
    delete (KeyOwnerGateway (tg_Owner msg) (gw_Moniker a))) (set_gateways (insert (KeyGateway (gw_Moniker a))
      (NewGateway (tg_To msg) (gw_Moniker a) (gw_Identity a) (gw_Details a) (gw_Website a))) s))).
  by apply (keeps_gateway_owner P _ (NewGateway _ _ _ _ _)).
Qed.

Lemma wf_edits t n c a m b : token_wf t → token_wf (with_edits t n c a m b).
Proof. intros [H1 H2]. by split. Qed.
Lemma wf_owner t o : token_wf t → token_wf (with_owner t o).
Proof. intros [H1 H2]. by split. Qed.

Lemma EditToken_keeps P msg s s' : EditToken msg s = (Ok tt, s') → keeps P s s'.
Proof.
  intros Hr Hi. unfold EditToken in Hr. inv_ok Hr. destruct (owned_token_ok _ _ _ _ Hi E) as (->&Hwf&t0&Hk&[Hmax Hini]&Hsup&Hkey&_).
  apply zoom_ok in E1 as (st&E1&->). injection E1 as <- <-.
  destruct (totalSupply (as_auth s) !! TotalSupplyStoreKey (GetDenom a)) as [issued|] eqn:Ei; [|done]. inv_ok Hr.
  replace (mkAsset _ _ _ _ _ _) with s in Hr by (by destruct s).
  apply SetToken_ok in Hr as ->; [|by apply wf_edits]. revert Hi. apply keeps_put; [by apply wf_edits|done|].
  intros X c Hc Hb. unfold supply_of, supply_key in Hc. simpl. change (GetDenom (with_edits _ _ _ _ _ _)) with (GetDenom a) in Hc.
  rewrite Ei in Hc. injection Hc as <-.
  destruct (Int_GT a1 0); [left; unfold Int_LT, Int_GT in E2; simpl in E2; lia|]. rewrite Hmax, Hini. apply (Hb _ _ _ Hk).
  unfold supply_of, supply_key. by rewrite Hkey.
Qed.
Lemma TransferToken_keeps P msg s s' : TransferTokenOwner acc_String msg s = (Ok tt, s') → keeps P s s'.
Proof.
  intros Hr Hi. unfold TransferTokenOwner, getToken in Hr. unfold bind at 1, gets in Hr.
  destruct (tokens s !! KeyToken (tt_TokenId msg)) as [t|] eqn:Ek; [|done].
  destruct (ai_token s Hi _ _ Ek) as [Hwf Hkey]. pose proof (ai_supply s Hi _ _ Ek) as Hsup. inv_ok Hr.
  apply SetToken_ok in E1; [|by apply wf_owner]. subst. revert Hi. cut (keeps P s s'); [done|].
  etrans; [apply (keeps_put P (with_owner t (tt_DstOwner msg)))|].
  - by apply wf_owner.
  - done.
  - intros X c Hc Hb. change (store_key (with_owner _ _)) with (store_key t). rewrite <-Hkey. by apply (Hb _ t).
  - unfold resetStoreKeyForQueryToken in Hr. inv_ok Hr. apply SetTokens_core in Hr. apply keeps_core.
    destruct Hr. by split.
Qed.

(** ** Minting *)
Definition put_supply (k : string) (c : Coin) (s : AssetState) : AssetState :=
  mkAsset (set_totalSupply (insert k c) (as_auth s)) (tokens s) (token_index s) (gateways s) (owner_gateways s) (as_params s).

Lemma set_totalSupply_bank f s : bank_rel s (set_totalSupply f s).
Proof. intros [H1 H2 H3]. split; [by split|done|by apply keeps_same_accounts]. Qed.
(** Tokens with the same supply entry have the same entry. *)
Lemma supply_key_inj t t' : token_wf t → token_wf t' → supply_key t = supply_key t' → store_key t = store_key t'.
Proof.
  intros Ht Ht'. unfold supply_key, store_key. rewrite !token_supply_key by done. intros E.
  by apply (inj (String.app totalSupplyKeyPrefix)) in E as ->.
Qed.

Lemma keeps_supply P t k c s :
  tokens s !! k = Some t → denom c = GetDenom t → amount c ≤ ft_MaxSupply t →
  keeps P s (put_supply (supply_key t) c s).
Proof.
  intros Hk Hd Hb Hi. destruct (ai_token s Hi _ _ Hk) as [Hwf ->].
  assert (Hu : ∀ k' t', tokens s !! k' = Some t' → supply_key t = supply_key t' → t' = t).
  { intros k' t' Hk' E. destruct (ai_token s Hi _ _ Hk') as [Hwf' ->].
    apply supply_key_inj in E; [|done..]. rewrite E in Hk. congruence. }
  split_and!; [|apply set_totalSupply_bank|].
  - destruct Hi as [Ha Ht Hs Hg]. split; simpl; try done; [by apply set_totalSupply_bank|].
    intros k' t' Hk'. unfold supply_of. simpl. rewrite lookup_insert. case_decide as E; [|by eapply Hs].
    exists c. split; [done|]. by rewrite (Hu _ _ Hk' E).
  - intros X _ Hs k' t' c' Hk'. unfold supply_of. simpl. rewrite lookup_insert. case_decide as E; [|by eapply Hs].
    intros [= <-]. rewrite (Hu _ _ Hk' E). by left.
Qed.

Lemma IncreaseTotalSupply_ok c sup s u s' :
  IncreaseTotalSupply c s = (Ok u, s') → totalSupply s !! TotalSupplyStoreKey (denom c) = Some sup →
  s' = s ∨ denom sup = denom c ∧
    s' = set_totalSupply (insert (TotalSupplyStoreKey (denom c)) (mkCoin (denom c) (amount sup + amount c))) s.
Proof.
  intros Hr Hs. unfold IncreaseTotalSupply in Hr. case_match; [done|]. case_match; [injection Hr as _ <-; by left|].
  unfold GetTotalSupply in Hr. unfold bind at 1, gets in Hr. rewrite Hs in Hr. inv_ok Hr.
  apply Coin_Add_ok in E as (Hd&_&->). unfold SetTotalSupply, modify in Hr. injection Hr as _ <-. right.
  split; [done|]. simpl. by rewrite Hd.
Qed.

Lemma amt_not_iris t n : token_wf t → amt [mkCoin (GetDenom t) n] IrisAtto = 0.
Proof.
  intros Ht. pose proof (token_denom_not_iris t Ht). unfold amt. simpl. by case_decide.
Qed.
Lemma add_token_coins t n owner :
  token_wf t → framed bank_only (bank_of (addCoins owner [mkCoin (GetDenom t) n])).
Proof. intros Ht. apply bank_of_framed; [apply addCoins_supply|]. by apply addCoins_framed, amt_not_iris. Qed.
(** Raising the supply within the maximum, after a fee was taken. *)
Lemma raise_supply_keeps P t k issued n s s1 u s2 :
  asset_inv s → bank_only s s1 → tokens s !! k = Some t → supply_of s t = Some issued →
  n + amount issued ≤ ft_MaxSupply t → bank_of (IncreaseTotalSupply (mkCoin (GetDenom t) n)) s1 = (Ok u, s2) →
  keeps P s1 s2.
Proof.
  intros Hi [Et _ _ Hle _] Hk Hs Hn Hr. apply zoom_ok in Hr as (st&Hr&->).
  specialize (Hle (supply_key t)). unfold supply_of in Hs. rewrite Hs in Hle. destruct Hle as (sup&Hsup&Hd&Ha).
  destruct (IncreaseTotalSupply_ok _ _ _ _ _ Hr Hsup) as [->|[Hd' ->]].
  - apply keeps_core. by split.
  - apply (keeps_supply P t k); simpl; [by rewrite Et|done|lia].
Qed.

Lemma MintToken_keeps P msg s s' : MintToken fee_factor_text msg s = (Ok tt, s') → keeps P s s'.
Proof.
  intros Hr Hi. unfold MintToken in Hr. inv_ok Hr. destruct (owned_token_ok _ _ _ _ Hi E) as (->&Hwf&t0&Hk&[Hmax _]&Hsup&Hkey&_).
  apply zoom_ok in E2 as (st&E2&->). injection E2 as <- <-.
  replace (mkAsset _ _ _ _ _ _) with s in Hr by (by destruct s).
  destruct (totalSupply (as_auth s) !! TotalSupplyStoreKey (GetDenom a)) as [issued|] eqn:Ei; [|done]. inv_ok Hr.
  destruct (Int_GT a4 (ft_MaxSupply a)) eqn:Hgt; [inv_ok E5; done|]. injection E5 as <- <-.
  apply NewCoin_ok in E7 as [-> _]. apply Int_Add_ok in E4 as [-> _].
  pose proof (framed_ok _ _ _ _ _ (mint_fee_framed a (mt_Owner msg)) E6) as Hb.
  cut (keeps P s s'); [auto|].
  etrans; [by apply keeps_bank_only|]. rewrite <-Hkey in E8.
  etrans; [eapply (raise_supply_keeps P t0 _ issued); [done|done|done| | |exact E8]|].
  - unfold supply_of, supply_key. by rewrite Hkey.
  - unfold Int_GT in Hgt. rewrite <-Hmax. lia.
  - eapply keeps_bank_only, framed_ok; [|exact E9]. by apply add_token_coins.
Qed.

(** ** Issuing *)
Lemma keeps_new_token P t c au s s' :
  tokens s !! store_key t = None → token_wf t → denom c = GetDenom t → amount c = ft_InitialSupply t → ft_InitialSupply t ≤ ft_MaxSupply t ∨ P (store_key t) →
  supply_le (as_auth s) au → bank_rel (as_auth s) au → as_auth s' = set_totalSupply (insert (supply_key t) c) au →
  tokens s' = <[store_key t := stored t]> (tokens s) → gateways s' = gateways s → keeps P s s'.
Proof.
  intros Hnew Hwf Hd Hin Hmax Hle Hb Ea Et Eg [Ha Ht Hs Hg]. destruct (stored_keys t) as (Ek&Es&Ed&Em&Ei).
  assert (Hold : ∀ k t', tokens s !! k = Some t' → supply_of s' t' = totalSupply au !! supply_key t').
  { intros k t' Hk. destruct (Ht _ _ Hk) as [Hwf' ->]. unfold supply_of. rewrite Ea. apply lookup_insert_ne.
    intros E%supply_key_inj; [|done..]. rewrite <-E in Hk. congruence. }
  assert (Hfresh : supply_of s' (stored t) = Some c).
  { unfold supply_of. rewrite Ea, Es. apply lookup_insert_eq. }
  split_and!.
  - split; rewrite ?Ea, ?Et, ?Eg; [by apply set_totalSupply_bank, Hb| | |done].
    + intros k t' [[<- <-]|[_ Hk]]%lookup_insert_Some; [|by apply Ht]. split; [by apply stored_wf|by rewrite Ek].
    + intros k t' [[<- <-]|[_ Hk]]%lookup_insert_Some; [by exists c; rewrite Ed|].
      rewrite (Hold _ _ Hk). destruct (Hs _ _ Hk) as (c0&Hc0&Hd0). specialize (Hle (supply_key t')).
      unfold supply_of in Hc0. rewrite Hc0 in Hle. destruct Hle as (c1&?&?&_). exists c1. split; [done|congruence].
  - rewrite Ea. etrans; [exact Hb|apply set_totalSupply_bank].
  - intros X HP Hbd k t' c'. rewrite Et. intros [[<- <-]|[_ Hk]]%lookup_insert_Some.
    + rewrite Hfresh, Em, Ei. intros [= <-]. destruct Hmax as [|Hp]; [left; lia|right]. split; [auto|lia].
    + rewrite (Hold _ _ Hk). intros Hc'. destruct (Hs _ _ Hk) as (c0&Hc0&_). specialize (Hle (supply_key t')).
      specialize (Hbd _ _ _ Hk Hc0). unfold supply_of in Hc0. rewrite Hc0 in Hle. destruct Hle as (c1&E1&_&?).
      rewrite Hc' in E1. injection E1 as <-. destruct Hbd as [|[? ?]]; [left|right; split; [done|]]; lia.
Qed.

(** The token that is stored for a new one. *)
Record token_for (t t' : FungibleToken) : Prop := {
  tf_wf : token_wf t'; tf_key : store_key t' = store_key t; tf_denom : GetDenom t' = GetDenom t;
  tf_max : ft_MaxSupply t' = ft_MaxSupply t; tf_initial : ft_InitialSupply t' = ft_InitialSupply t }.
Lemma token_for_refl t : token_wf t → token_for t t.
Proof. by split. Qed.
Lemma token_for_native t : token_wf t → ft_Source t = NATIVE → token_for t (with_native t).
Proof.
  intros [H1 H2] Hs. rewrite Hs in H2. split; try done; [split; simpl; by rewrite ?Hs| |];
    unfold store_key, GetDenom, GetUniqueID; simpl; by rewrite Hs.
Qed.

Lemma AddToken_ok t s t' owner s' :
  token_wf t → AddToken acc_String t s = (Ok (t', owner), s') →
  token_for t t' ∧ tokens s !! store_key t = None ∧
  tokens s' = <[store_key t' := stored t']> (tokens s) ∧ gateways s' = gateways s ∧ as_auth s' = as_auth s.
Proof.
  intros Hwf Hr. unfold AddToken in Hr. inv_ok Hr. destruct (token_store_key _ Hwf) as (id&Hid&Hk).
  rewrite E in Hid. injection Hid as ->. fold (store_key t) in Hk.
  unfold HasToken, gets in E0. injection E0 as <- <-. rewrite Hk in Hr. case_bool_decide as Hnew; [done|]. inv_ok Hr.
  assert (s0 = s ∧ token_for t a.1) as [-> Hfor].
  { pose proof (token_for_refl t Hwf). destruct (ft_Source t) eqn:Es.
    - injection E0 as <- <-. split; [done|]. by apply token_for_native.
    - by injection E0 as <- <-.
    - inv_ok E0. by apply GetGateway_ok in E1 as [-> _].
    - by injection E0 as <- <-. }
  clear E0. destruct a as [t1 o]. inv_ok Hr. simpl in Hfor. apply SetToken_ok in E0; [|apply Hfor]. subst.
  split; [done|]. split; [by destruct (_ !! _) eqn:Hn; [destruct Hnew|]|].
  apply SetTokens_core in E2 as [Ea Et Eg]. rewrite Ea, Et, Eg.
  case_bool_decide; [apply SetTokens_core in E1 as [-> -> ->]|injection E1 as _ <-]; done.
Qed.

(** The name of a token before its gateway is looked up. *)
Definition token_named (t : FungibleToken) : Prop :=
  symbol_ok (ft_Symbol t) ∧
  match ft_Source t with NATIVE => ft_Symbol t ≠ Iris | OtherSource _ => False | _ => True end.
Lemma gateway_named m s g s' : asset_inv s → GetGateway m s = (Ok g, s') → symbol_ok m.
Proof.
  intros Hi [_ Hg]%GetGateway_ok. destruct (ai_gateway s Hi _ _ Hg) as [Hm Hk].
  unfold KeyGateway in Hk. by apply (inj (String.app _)) in Hk as ->.
Qed.

(** What a successful issue leaves. *)
Record issued_as (t t' : FungibleToken) (s s' : AssetState) (au : AuthState) : Prop := {
  ia_for : token_for t t';
  ia_new : tokens s !! store_key t' = None;
  ia_supply : supply_le (as_auth s) au;
  ia_bank : bank_rel (as_auth s) au;
  ia_auth : as_auth s' = set_totalSupply (insert (supply_key t') (mkCoin (GetDenom t') (ft_InitialSupply t'))) au;
  ia_tokens : tokens s' = <[store_key t' := stored t']> (tokens s);
  ia_gateways : gateways s' = gateways s }.
Lemma IssueToken_ok t s s' :
  asset_inv s → token_named t → IssueToken acc_String t s = (Ok tt, s') → ∃ t' au, issued_as t t' s s' au.
Proof.
  intros Hi [Hsym Hsrc] Hr. unfold IssueToken in Hr. inv_ok Hr.
  assert (s0 = s ∧ token_wf t) as [-> Hwf].
  { case_bool_decide as Hg; [|injection E as _ <-; split; [done|]; split; [done|by destruct (ft_Source t)]]. inv_ok E.
    split; [by apply GetGateway_ok in E1 as [-> _]|]. split; [done|]. rewrite Hg. by eapply gateway_named. }
  destruct a0 as [t' owner]. destruct (AddToken_ok _ _ _ _ _ Hwf E0) as (Hfor&Hnew&Et&Eg&Ea).
  inv_ok Hr. apply NewCoin_ok in E1 as [-> _].
  assert (bank_only s1 s0) as [Bt Bg _ Bs Bb].
  { destruct (AccAddress_Empty owner); simpl in E2; [by injection E2 as _ <-|]. inv_ok E2.
    eapply framed_ok; [apply (add_token_coins t'), Hfor|done]. }
  apply zoom_ok in Hr as (au&Hr&->). injection Hr as <-. rewrite Ea in Bs, Bb.
  exists t', (as_auth s0). split; try done; simpl.
  - by rewrite (tf_key _ _ Hfor).
  - by rewrite Bt.
  - by rewrite Bg.
Qed.
Lemma IssueToken_keeps P t s s' :
  token_named t → ft_InitialSupply t ≤ ft_MaxSupply t ∨ P (store_key t) → IssueToken acc_String t s = (Ok tt, s') → keeps P s s'.
Proof.
  intros Hn HP Hr Hi. destruct (IssueToken_ok _ _ _ Hi Hn Hr) as (t'&au&[[] ]). revert Hi.
  eapply (keeps_new_token P t' (mkCoin (GetDenom t') (ft_InitialSupply t')) au); try done; simpl. by rewrite tf_max0, tf_initial0, tf_key0.
Qed.

(** ** A message to issue a token *)
Lemma contains_self p : contains_chars p p = true.
Proof. destruct p; simpl; [done|]. by rewrite bool_decide_true. Qed.
Record issue_valid (msg : MsgIssueToken) : Prop := {
  iv_source : it_Source msg = NATIVE ∨ it_Source msg = GATEWAY;
  iv_symbol : symbol_ok (clean (it_Symbol msg));
  iv_iris : clean (it_Symbol msg) ≠ Iris;
  iv_initial : it_InitialSupply msg ≤ MaximumAssetInitSupply;
  iv_max : it_MaxSupply msg ≠ 0 → it_InitialSupply msg ≤ it_MaxSupply msg ≤ MaximumAssetMaxSupply }.
Lemma issue_valid_ok msg : MsgIssueToken_ValidateBasic msg = Ok tt → issue_valid msg.
Proof.
  unfold MsgIssueToken_ValidateBasic, ValidateMsgIssueToken, obind. case_bool_decide as Hext; [done|]. intros Hv.
  destruct (match it_Source msg with NATIVE => _ | _ => _ end) as [[]| |] eqn:Hsrc; [|done..].
  case_match; [done|]. case_match; [done|]. case_match eqn:Hsym; [done|]. case_match eqn:Hiris; [done|].
  case_match; [done|]. case_match eqn:Hinit; [done|]. case_match eqn:Hmax; [done|]. clear Hv.
  apply orb_false_iff in Hsym as [[Hs1%negb_false_iff Hs2%negb_false_iff]%orb_false_iff Hs3%negb_false_iff].
  split.
  - destruct (it_Source msg); naive_solver.
  - by apply lower_symbol_ok.
  - intros E. rewrite E in Hiris. by vm_compute in Hiris.
  - lia.
  - intros Hm. destruct (Z.eqb_spec (it_MaxSupply msg) 0); [done|]. lia.
Qed.

(** The integers of a message are in their types. *)
Definition msg_typed (msg : AssetMsg) : Prop :=
  match msg with
  | IssueTokenMsg msg => 0 ≤ it_InitialSupply msg < 2^64 ∧ 0 ≤ it_MaxSupply msg < 2^64 ∧ 0 ≤ it_Decimal msg < 2^8
  | EditTokenMsg msg => 0 ≤ et_MaxSupply msg < 2^64
  | MintTokenMsg msg => 0 ≤ mt_Amount msg < 2^64
  | _ => True
  end.
Lemma NewIntWithDecimal_ok n d i : NewIntWithDecimal n d = Ok i → i = n * 10 ^ d ∧ 0 ≤ d.
Proof. unfold NewIntWithDecimal. destruct (Z.ltb_spec d 0); [done|]. case_match; [done|]. by intros [= <-]. Qed.
Lemma supply_int64 n : 0 ≤ n ≤ MaximumAssetMaxSupply → wrap_int64 n = n.
Proof. unfold MaximumAssetMaxSupply. intros Hn. apply wrap_int64_small. unfold is_int64. lia. Qed.

(** The token a message asks for, after the fee. *)
Definition token_of (msg : MsgIssueToken) : FungibleToken :=
  NewFungibleToken (it_Source msg) (it_Gateway msg) (it_Symbol msg) (it_Name msg) (it_Decimal msg)
    (it_CanonicalSymbol msg) (it_MinUnitAlias msg) (it_InitialSupply msg * 10 ^ it_Decimal msg)
    (it_MaxSupply msg * 10 ^ it_Decimal msg) (it_Mintable msg) (it_Owner msg).
Lemma token_of_named msg : issue_valid msg → token_named (token_of msg).
Proof. intros [Hsrc Hsym Hiris _ _]. split; simpl; [done|]. by destruct Hsrc as [-> | ->]. Qed.
Lemma handleIssueToken_ok msg s s' :
  MsgIssueToken_ValidateBasic msg = Ok tt → msg_typed (IssueTokenMsg msg) →
  handleIssueToken acc_String fee_factor_text msg s = (Ok tt, s') →
  issue_valid msg ∧ ∃ s1, bank_only s s1 ∧ IssueToken acc_String (token_of msg) s1 = (Ok tt, s').
Proof.
  intros Hv%issue_valid_ok (Hi1&Hi2&Hi3) Hr. split; [done|]. destruct Hv as [Hsrc _ _ Hinit Hmax].
  unfold handleIssueToken in Hr. destruct (it_Family msg); [|done]. inv_ok Hr.
  apply NewIntWithDecimal_ok in E as [-> _]. apply NewIntWithDecimal_ok in E0 as [-> _].
  rewrite supply_int64 in Hr by (unfold MaximumAssetInitSupply, MaximumAssetMaxSupply in *; lia).
  assert (wrap_int64 (it_MaxSupply msg) = it_MaxSupply msg) as Hw.
  { destruct (decide (it_MaxSupply msg = 0)) as [->|Hz]; [done|]. apply supply_int64. specialize (Hmax Hz). lia. }
  rewrite Hw in Hr. exists s0. split; [|done].
  destruct Hsrc as [Hs|Hs]; rewrite Hs in E1; (eapply framed_ok; [|exact E1]); [apply issue_fee_framed|apply gateway_issue_fee_framed].
Qed.

(** The key of a token that is issued mintable and without a maximum, and with an
    initial supply above the default maximum; this is not scaled by the decimals
    ([default_max_unscaled]). *)
Definition above_default (msg : AssetMsg) (k : string) : Prop :=
  match msg with
  | IssueTokenMsg msg =>
      it_Mintable msg = true ∧ it_MaxSupply msg = 0 ∧
      MaximumAssetMaxSupply < it_InitialSupply msg * 10 ^ it_Decimal msg ∧ k = store_key (token_of msg)
  | _ => False
  end.
Lemma token_of_fits msg :
  issue_valid msg → msg_typed (IssueTokenMsg msg) →
  ft_InitialSupply (token_of msg) ≤ ft_MaxSupply (token_of msg) ∨ above_default (IssueTokenMsg msg) (store_key (token_of msg)).
Proof.
  intros [_ _ _ Hinit Hmax] (Hi1&Hi2&Hi3). simpl.
  pose proof (Z.pow_pos_nonneg 10 (it_Decimal msg) ltac:(lia) ltac:(lia)) as Hp.
  change (NewInt (wrap_int64 MaximumAssetMaxSupply)) with MaximumAssetMaxSupply. rewrite Int_IsZero_eqb.
  destruct (Z.eqb_spec (it_MaxSupply msg * 10 ^ it_Decimal msg) 0) as [Hz|Hz].
  - destruct (it_Mintable msg); [|left; lia]. assert (it_MaxSupply msg = 0) by nia.
    destruct (Z_le_gt_dec (it_InitialSupply msg * 10 ^ it_Decimal msg) MaximumAssetMaxSupply); [by left|right]. split_and!; [done..|lia|done].
  - left. specialize (Hmax ltac:(nia)). nia.
Qed.
Lemma handleIssueToken_keeps msg s s' :
  MsgIssueToken_ValidateBasic msg = Ok tt → msg_typed (IssueTokenMsg msg) →
  handleIssueToken acc_String fee_factor_text msg s = (Ok tt, s') → keeps (above_default (IssueTokenMsg msg)) s s'.
Proof.
  intros Hv Ht Hr. destruct (handleIssueToken_ok _ _ _ Hv Ht Hr) as (Hiv&s1&Hb&Hr1).
  etrans; [by apply keeps_bank_only|]. eapply IssueToken_keeps; [by apply token_of_named|by apply token_of_fits|exact Hr1].
Qed.

(** Every message that is handled keeps the invariant and the frame of the bank, and
    supplies stay within their maximum, up to a token above the default. *)
Lemma Handler_keeps msg s s' :
  ValidateBasic msg = Ok tt → msg_typed msg → Handler acc_String fee_factor_text msg s = (Ok tt, s') →
  keeps (above_default msg) s s'.
Proof.
  destruct msg; simpl; intros Hv Ht Hr; [by apply handleIssueToken_keeps|..|done];
    eauto using CreateGateway_keeps, EditGateway_keeps, EditToken_keeps, TransferGateway_keeps, MintToken_keeps, TransferToken_keeps.
Qed.
End keeper.
End AssetThms.
