(* ===== verification/AssetSupply.v ===== *)
(** * The supply and the owners of tokens

    Whatever messages are handled, supplies stay within their maximum, only the
    owner of a token changes it or raises its supply, and a fee is split between
    the community and the burned coins. *)

From S2P Require Import Prelude SdkErrors Frame IntType GoStrings Regex Denom Coin CoinFacts Dec Gas KVStore Auth StdTx Bank BankFacts BankBurn BankFrame Asset AssetKeeper AssetThms.
#[local] Open Scope Z_scope.

Module AssetSupply.
Import Asset AssetKeeper AssetFacts AssetThms.

Section keeper.
Context `{Crypto}.
Variable acc_String : AccAddress → string.
Variable fee_factor_text : Z → string.

(** ** Histories: asset messages that passed their checks, and transfers and burns *)
Inductive asset_step (s s' : AssetState) : list AssetMsg → Prop :=
| step_msg msg :
    ValidateBasic msg = Ok tt → msg_typed msg →
    Handler acc_String fee_factor_text msg s = (Ok tt, s') → asset_step s s' [msg]
| step_send from to c : bank_of (sendCoins from to c) s = (Ok tt, s') → asset_step s s' []
| step_burn from c : bank_of (BurnCoins from c) s = (Ok tt, s') → asset_step s s' [].
(** The messages of a history. *)
Inductive asset_run : AssetState → AssetState → list AssetMsg → Prop :=
| run_none s : asset_run s s []
| run_step s s1 s' l ls : asset_step s s1 l → asset_run s1 s' ls → asset_run s s' (l ++ ls).
(** One of the messages issued a token at [k] above the default maximum. *)
Definition exceeds (ls : list AssetMsg) (k : string) : Prop := Exists (λ msg, above_default msg k) ls.

Lemma asset_step_keeps s s' l : asset_step s s' l → keeps (exceeds l) s s'.
Proof.
  intros [msg Hv Ht Hr|from to c Hr|from c Hr].
  - intros Hi. destruct (Handler_keeps _ _ _ _ _ Hv Ht Hr Hi) as (?&?&Hw). split_and!; [done..|]. intros E HE. apply Hw. intros k Hk. apply HE. by left.
  - eapply keeps_bank_only, framed_ok; [apply send_both|exact Hr].
  - eapply keeps_bank_only, framed_ok; [apply burn_both|exact Hr].
Qed.
Lemma asset_run_keeps s s' ls : asset_run s s' ls → keeps (exceeds ls) s s'.
Proof.
  induction 1 as [s|s s1 s' l ls Hs _ IH]; intros Hi; [by split_and!|]. destruct (asset_step_keeps _ _ _ Hs Hi) as (Hi1&Hk1&Hw1).
  destruct (IH Hi1) as (Hi2&Hk2&Hw2). split_and!; [done|by etrans|]. intros E HE Hw. apply Hw2; [|apply Hw1; [|done]]; intros k Hk; apply HE, Exists_app; auto.
Qed.

(** C12. In every history of asset messages, transfers and burns, the recorded supply of a
    token stays within its maximum, unless a message of the history issued this
    token as mintable, without a maximum, and with more than the default one; even
    then it stays within the initial supply.  The recorded names stay valid, and no
    native token is made or lost. *)
Theorem asset_supply_bounded (s s' : AssetState) (msgs : list AssetMsg) (Hi : asset_inv s) (Hb : supply_bounded s)
    (Hr : asset_run s s' msgs) :
  asset_inv s' ∧ total (as_auth s') IrisAtto = total (as_auth s) IrisAtto ∧
  ∀ k t c, tokens s' !! k = Some t → supply_of s' t = Some c →
    amount c ≤ ft_MaxSupply t ∨ Exists (λ msg, above_default msg k) msgs ∧ amount c ≤ ft_InitialSupply t.
Proof.
  destruct (asset_run_keeps _ _ _ Hr Hi) as (Hi'&Hk&Hw). split_and!; [done|by apply Hk, ai_auth|]. apply (Hw (exceeds msgs)); [done|].
  intros k t c Ht Hc. left. by apply (Hb k t c).
Qed.

(** ** The default maximum *)
Lemma put_supply_self k c au : totalSupply (set_totalSupply (insert k c) au) !! k = Some c.
Proof. apply lookup_insert_eq. Qed.
(** A mintable token issued without a maximum gets the default one as a number of
    minimal units, while its supply is scaled by its decimals. *)
Theorem default_max_unscaled (msg : MsgIssueToken) (s s' : AssetState)
    (Hv : MsgIssueToken_ValidateBasic msg = Ok tt) (Ht : msg_typed (IssueTokenMsg msg)) (Hi : asset_inv s)
    (Hm : it_Mintable msg = true) (Hz : it_MaxSupply msg = 0)
    (Hr : handleIssueToken acc_String fee_factor_text msg s = (Ok tt, s')) :
  ∃ k t c, tokens s !! k = None ∧ tokens s' !! k = Some t ∧ supply_of s' t = Some c ∧
    ft_MaxSupply t = MaximumAssetMaxSupply ∧ amount c = it_InitialSupply msg * 10 ^ it_Decimal msg.
Proof.
  destruct (handleIssueToken_ok _ _ _ _ _ Hv Ht Hr) as (Hiv&s1&Hb&Hr1).
  destruct (IssueToken_ok _ _ _ _ (bank_only_inv _ _ Hb Hi) (token_of_named _ Hiv) Hr1) as (t'&au&[[_ _ _ Em Ei] Hnew _ _ Ha Et _]).
  destruct (stored_keys t') as (Ek&Es&_&Em'&_).
  exists (store_key t'), (stored t'), (mkCoin (GetDenom t') (ft_InitialSupply t')). split_and!.
  - by rewrite <-(bo_tokens _ _ Hb).
  - rewrite Et. apply lookup_insert_eq.
  - unfold supply_of. rewrite Ha, Es. apply put_supply_self.
  - rewrite Em', Em. simpl. by rewrite Hz, Hm.
  - simpl. by rewrite Ei.
Qed.

(** ** Authority: the entry of a token, the entry of a gateway, and the supply of a
    token, change only for the owner *)
Record authorized (signers : list AccAddress) (s s' : AssetState) : Prop := {
  au_tokens k t : tokens s !! k = Some t → tokens s' !! k = Some t ∨ signers = [owner_of s t];
  au_gateways k g : gateways s !! k = Some g → gateways s' !! k = Some g ∨ signers = [gw_Owner g];
  au_supplies k t c c' : tokens s !! k = Some t → supply_of s t = Some c → supply_of s' t = Some c' →
    amount c' ≤ amount c ∨ signers = [owner_of s t] }.

Lemma authorized_refl l s : authorized l s s.
Proof. split; [by left..|]. intros k t c c' _ -> [= <-]. left. lia. Qed.
Lemma supply_le_of s s' t c c' :
  bank_only s s' → supply_of s t = Some c → supply_of s' t = Some c' → amount c' ≤ amount c.
Proof.
  intros Hb Hc Hc'. pose proof (bo_supply _ _ Hb (supply_key t)) as Hle. unfold supply_of in *. rewrite Hc in Hle.
  destruct Hle as (c1&E&_&?). rewrite Hc' in E. by injection E as <-.
Qed.
Lemma owner_of_bank s s' t : bank_only s s' → owner_of s' t = owner_of s t.
Proof. intros Hb. unfold owner_of. by rewrite (bo_gateways _ _ Hb). Qed.
Lemma authorized_after l s s1 s' : asset_inv s → bank_only s s1 → authorized l s1 s' → authorized l s s'.
Proof.
  intros Hi Hb [At Ag As]. split.
  - intros k t. rewrite <-(bo_tokens _ _ Hb), <-(owner_of_bank _ _ _ Hb). apply At.
  - intros k g. rewrite <-(bo_gateways _ _ Hb). apply Ag.
  - intros k t c c' Hk Hc Hc'. destruct (ai_supply s1 (bank_only_inv _ _ Hb Hi) k t) as (c1&Hc1&_); [by rewrite (bo_tokens _ _ Hb)|].
    pose proof (supply_le_of _ _ _ _ _ Hb Hc Hc1). rewrite <-(bo_tokens _ _ Hb) in Hk.
    rewrite <-(owner_of_bank _ _ _ Hb). destruct (As _ _ _ _ Hk Hc1 Hc'); [left; lia|by right].
Qed.
Lemma authorized_before l s s1 s' : authorized l s s1 → bank_only s1 s' → authorized l s s'.
Proof.
  intros [At Ag As] Hb. split.
  - intros k t. rewrite (bo_tokens _ _ Hb). apply At.
  - intros k g. rewrite (bo_gateways _ _ Hb). apply Ag.
  - intros k t c c' Hk Hc Hc'. pose proof (bo_supply _ _ Hb (supply_key t)) as Hle.
    unfold supply_of in *. destruct (totalSupply (as_auth s1) !! supply_key t) as [c1|] eqn:E1; [|congruence].
    destruct Hle as (c2&E2&_&?). rewrite Hc' in E2. injection E2 as <-.
    destruct (As _ _ _ _ Hk Hc E1); [left; lia|by right].
Qed.
Lemma authorized_core l s s1 s' : authorized l s s1 → same_core s1 s' → authorized l s s'.
Proof. intros [At Ag As] [Ea Et Eg]. split; [rewrite Et; apply At|rewrite Eg; apply Ag|unfold supply_of; rewrite Ea; apply As]. Qed.
Lemma authorized_put l t t0 s :
  tokens s !! store_key t = Some t0 → l = [owner_of s t0] → authorized l s (put_token t s).
Proof.
  intros Hk Hl. split; [|by left|].
  - intros k t1 Hk1. simpl. rewrite lookup_insert. case_decide as E; [|by left]. right. subst. congruence.
  - intros k t1 c c' _ Hc. unfold supply_of in *. simpl. rewrite Hc. intros [= <-]. left. lia.
Qed.
Lemma authorized_gateway l g s :
  (∀ g0, gateways s !! KeyGateway (gw_Moniker g) = Some g0 → l = [gw_Owner g0]) →
  authorized l s (set_gateways (insert (KeyGateway (gw_Moniker g)) g) s).
Proof.
  intros Hg. split; [by left| |].
  - intros k g1 Hk. simpl. rewrite lookup_insert. case_decide as E; [|by left]. right. subst. auto.
  - intros k t c c' _ Hc. unfold supply_of in *. simpl. rewrite Hc. intros [= <-]. left. lia.
Qed.
Lemma authorized_gateway_owner l f g s :
  (∀ g0, gateways s !! KeyGateway (gw_Moniker g) = Some g0 → l = [gw_Owner g0]) →
  authorized l s (set_owner_gateways f (set_gateways (insert (KeyGateway (gw_Moniker g)) g) s)).
Proof. intros Hg. eapply authorized_core; [by apply (authorized_gateway _ g)|by split]. Qed.

Lemma CreateGateway_authorized msg s s' :
  asset_inv s → handleMsgCreateGateway fee_factor_text msg s = (Ok tt, s') → authorized [cg_Owner msg] s s'.
Proof.
  intros Hi Hr. unfold handleMsgCreateGateway in Hr. inv_ok Hr.
  eapply authorized_after; [done|eapply framed_ok; [apply gateway_fee_framed|exact E]|].
  unfold CreateGateway, HasGateway in Hr. unfold bind at 1, gets in Hr. case_bool_decide as Hn; [done|].
  unfold SetGateway, SetOwnerGateway, bind, modify in Hr. injection Hr as <-.
  apply (authorized_gateway_owner _ _ (NewGateway _ _ _ _ _)). intros g0 Hg0. by destruct Hn.
Qed.
Lemma EditGateway_authorized msg s s' :
  asset_inv s → handleMsgEditGateway msg s = (Ok tt, s') → authorized [eg_Owner msg] s s'.
Proof.
  intros Hi Hr. unfold handleMsgEditGateway, EditGateway in Hr. inv_ok Hr. apply GetGateway_ok in E as [-> Hg].
  destruct (ai_gateway s Hi _ _ Hg) as [_ Hk]. unfold SetGateway, modify in Hr. injection Hr as <-.
  apply (authorized_gateway _ (NewGateway _ _ _ _ _)). rewrite Hk in Hg. intros g0 Hg0.
  assert (Some g0 = Some a) as [= ->] by (etrans; [symmetry; exact Hg0|exact Hg]).
  apply AccAddress_Equals_iff in E0. by rewrite <-E0.
Qed.
Lemma TransferGateway_authorized msg s s' :
  asset_inv s → handleMsgTransferGatewayOwner msg s = (Ok tt, s') → authorized [tg_Owner msg] s s'.
Proof.
  intros Hi Hr. unfold handleMsgTransferGatewayOwner, TransferGatewayOwner in Hr. inv_ok Hr. apply GetGateway_ok in E as [-> Hg].
  destruct (ai_gateway s Hi _ _ Hg) as [_ Hk].
  unfold SetGateway, modify in E1. injection E1 as <- <-.
  unfold UpdateOwnerGateway, bind, modify in Hr. injection Hr as <-.
  eapply (authorized_core _ _ (set_gateways (insert (KeyGateway (gw_Moniker a)) _) s)); [apply (authorized_gateway _ (NewGateway (tg_To msg) (gw_Moniker a) (gw_Identity a) (gw_Details a) (gw_Website a)))|by split].
  rewrite Hk in Hg. intros g0 Hg0.
  assert (Some g0 = Some a) as [= ->] by (etrans; [symmetry; exact Hg0|exact Hg]). apply AccAddress_Equals_iff in E0. by rewrite <-E0.
Qed.
Lemma EditToken_authorized msg s s' : asset_inv s → EditToken msg s = (Ok tt, s') → authorized [et_Owner msg] s s'.
Proof.
  intros Hi Hr. unfold EditToken in Hr. inv_ok Hr. destruct (owned_token_ok _ _ _ _ Hi E) as (->&Hwf&t0&Hk&_&_&_&Ho).
  apply zoom_ok in E1 as (st&E1&->). injection E1 as <- <-.
  destruct (totalSupply (as_auth s) !! TotalSupplyStoreKey (GetDenom a)) as [issued|] eqn:Ei; [|done]. inv_ok Hr.
  replace (mkAsset _ _ _ _ _ _) with s in Hr by (by destruct s).
  apply SetToken_ok in Hr as ->; [|by apply wf_edits]. eapply authorized_put; [exact Hk|].
  apply AccAddress_Equals_iff in E0. congruence.
Qed.
Lemma TransferToken_authorized msg s s' :
  asset_inv s → TransferTokenOwner acc_String msg s = (Ok tt, s') → authorized [tt_SrcOwner msg] s s'.
Proof.
  intros Hi Hr. unfold TransferTokenOwner, getToken in Hr. unfold bind at 1, gets in Hr.
  destruct (tokens s !! KeyToken (tt_TokenId msg)) as [t|] eqn:Ek; [|done].
  destruct (ai_token s Hi _ _ Ek) as [Hwf Hkey]. inv_ok Hr. apply SetToken_ok in E1; [|by apply wf_owner].
  apply AccAddress_Equals_iff in E0. subst. rewrite Hkey in Ek. apply bool_decide_eq_true in E.
  eapply authorized_core; [apply (authorized_put _ (with_owner t (tt_DstOwner msg)) t); [done|]|].
  - unfold owner_of. rewrite bool_decide_false by congruence. congruence.
  - unfold resetStoreKeyForQueryToken in Hr. inv_ok Hr. apply SetTokens_core in Hr. destruct Hr. by split.
Qed.
Lemma raise_authorized t k n s u s' :
  asset_inv s → tokens s !! k = Some t → bank_of (IncreaseTotalSupply (mkCoin (GetDenom t) n)) s = (Ok u, s') →
  authorized [owner_of s t] s s'.
Proof.
  intros Hi Hk Hr. apply zoom_ok in Hr as (st&Hr&->). destruct (ai_supply s Hi _ _ Hk) as (c&Hc&_).
  destruct (IncreaseTotalSupply_ok _ _ _ _ _ Hr Hc) as [->|[Hd ->]].
  { eapply authorized_core; [apply authorized_refl|by split]. }
  split; [by left..|]. intros k' t' c1 c2 Hk' Hc1. unfold supply_of in *. simpl. rewrite lookup_insert. case_decide as E.
  - right. destruct (ai_token s Hi _ _ Hk) as [Hwf E1]. destruct (ai_token s Hi _ _ Hk') as [Hwf' E2].
    apply supply_key_inj in E; [|done..]. congruence.
  - rewrite Hc1. intros [= <-]. left. lia.
Qed.
Lemma MintToken_authorized msg s s' :
  asset_inv s → MintToken fee_factor_text msg s = (Ok tt, s') → authorized [mt_Owner msg] s s'.
Proof.
  intros Hi Hr. unfold MintToken in Hr. inv_ok Hr. destruct (owned_token_ok _ _ _ _ Hi E) as (->&Hwf&t0&Hk&_&_&Hkey&Ho).
  apply zoom_ok in E2 as (st&E2&->). injection E2 as <- <-.
  replace (mkAsset _ _ _ _ _ _) with s in Hr by (by destruct s).
  destruct (totalSupply (as_auth s) !! TotalSupplyStoreKey (GetDenom a)) as [issued|] eqn:Ei; [|done]. inv_ok Hr.
  destruct (Int_GT a4 (ft_MaxSupply a)) eqn:Hgt; [inv_ok E5; done|]. injection E5 as <- <-.
  apply NewCoin_ok in E7 as [-> _]. apply AccAddress_Equals_iff in E0.
  pose proof (framed_ok _ _ _ _ _ (mint_fee_framed _ a (mt_Owner msg)) E6) as Hb.
  eapply authorized_after; [done|exact Hb|]. eapply authorized_before; [|eapply framed_ok; [|exact E9]; by apply add_token_coins].
  rewrite E0, Ho, <-(owner_of_bank _ _ _ Hb). rewrite <-Hkey in E8.
  eapply (raise_authorized t0 (store_key a)); [by eapply bank_only_inv|by rewrite (bo_tokens _ _ Hb)|exact E8].
Qed.
Lemma IssueToken_authorized msg s s' :
  asset_inv s → MsgIssueToken_ValidateBasic msg = Ok tt → msg_typed (IssueTokenMsg msg) →
  handleIssueToken acc_String fee_factor_text msg s = (Ok tt, s') → authorized [it_Owner msg] s s'.
Proof.
  intros Hi Hv Ht Hr. destruct (handleIssueToken_ok _ _ _ _ _ Hv Ht Hr) as (Hiv&s1&Hb&Hr1).
  pose proof (bank_only_inv _ _ Hb Hi) as Hi1. eapply authorized_after; [done|done|].
  destruct (IssueToken_ok _ _ _ _ Hi1 (token_of_named _ Hiv) Hr1) as (t'&au&[[Hwf _ _ _ _] Hnew Hs _ Ha Et Eg]).
  split.
  - intros k t Hk. left. rewrite Et. rewrite lookup_insert_ne; [done|congruence].
  - rewrite Eg. by left.
  - intros k t c c' Hk Hc. unfold supply_of. rewrite Ha. simpl. rewrite lookup_insert_ne.
    + intros Hc'. left. specialize (Hs (supply_key t)). unfold supply_of in Hc. rewrite Hc in Hs.
      destruct Hs as (c1&E&_&?). rewrite Hc' in E. by injection E as <-.
    + destruct (ai_token _ Hi1 _ _ Hk) as [Hwf' ->]. intros E%supply_key_inj; [|done..]. congruence.
Qed.

Lemma Handler_authorized (msg : AssetMsg) (s s' : AssetState) :
  asset_inv s → ValidateBasic msg = Ok tt → msg_typed msg → Handler acc_String fee_factor_text msg s = (Ok tt, s') →
  authorized (GetSigners msg) s s'.
Proof.
  destruct msg; simpl; intros; eauto using IssueToken_authorized, CreateGateway_authorized, EditGateway_authorized,
    EditToken_authorized, TransferGateway_authorized, MintToken_authorized, TransferToken_authorized. done.
Qed.
(** The entry of a token or gateway changes, and the supply of a token rises, only
    through a message whose signer owns it. *)
Theorem asset_authority (msg : AssetMsg) (s s' : AssetState) (Hi : asset_inv s)
    (Hv : ValidateBasic msg = Ok tt) (Ht : msg_typed msg)
    (Hr : Handler acc_String fee_factor_text msg s = (Ok tt, s')) :
  authorized (GetSigners msg) s s'.
Proof. by apply Handler_authorized. Qed.

(** ** Fees *)
Lemma Coin_Sub_ok c cB r :
  Coin_Sub c cB = Ok r → denom c = denom cB ∧ r = mkCoin (denom c) (amount c - amount cB) ∧ amount cB ≤ amount c.
Proof.
  unfold Coin_Sub. case_bool_decide as Hd; [done|]. simpl. intros Hr.
  destruct (Int_Sub (amount c) (amount cB)) as [n| |] eqn:E; [|done..]. apply Int_Sub_ok in E as [-> _].
  apply NewCoin_ok in Hr as [-> ?]. split_and!; [|done|lia]. by destruct (decide (denom c = denom cB)).
Qed.
Lemma community_tax_ok p fee tax : community_tax p fee = Ok tax → denom tax = denom fee ∧ 0 ≤ amount tax.
Proof.
  unfold community_tax, obind. intros Hr. repeat (case_match; [|done..]). apply NewCoin_ok in Hr as [-> ?]. done.
Qed.

(** A fee is taken whole from the payer: the tax rate of it, rounded down, goes to
    the community, the rest is burned. *)
Theorem fee_split (payer : AccAddress) (fee : Coin) (s s' : AssetState) (Hs : auth_wf (as_auth s))
    (Hb : payer ≠ BurnedCoinsAccAddr) (Hc : payer ≠ CommunityTaxCoinsAccAddr) (Hbc : CommunityTaxCoinsAccAddr ≠ BurnedCoinsAccAddr)
    (Hr : feeHandler payer fee s = (Ok tt, s')) :
  ∃ tax, community_tax (as_params s) fee = Ok (mkCoin (denom fee) tax) ∧ 0 ≤ tax ≤ amount fee ∧
    ∀ d,
      balance (as_auth s') payer d = balance (as_auth s) payer d - amt [fee] d ∧
      balance (as_auth s') CommunityTaxCoinsAccAddr d = balance (as_auth s) CommunityTaxCoinsAccAddr d + amt [mkCoin (denom fee) tax] d ∧
      balance (as_auth s') BurnedCoinsAccAddr d = balance (as_auth s) BurnedCoinsAccAddr d + amt [mkCoin (denom fee) (amount fee - tax)] d.
Proof.
  unfold feeHandler, GetParamSet in Hr. unfold bind at 1, gets in Hr. inv_ok Hr.
  destruct (community_tax_ok _ _ _ E) as [Hd Ht]. apply zoom_ok in E1 as (st&E1&->). apply zoom_ok in Hr as (st'&Hr&->).
  cbn [as_auth as_params] in *. unfold BurnCoins in Hr. inv_ok Hr. apply ctx_ConsumeGas_inv in E2 as [g ->].
  apply Coin_Sub_ok in E0 as (_&->&Hle). destruct a as [da tax]. cbn [denom amount] in *. subst da.
  destruct (sendCoins_ok _ _ _ _ _ _ Hs E1) as (_&Hw&Hb1&_).
  destruct (sendCoins_ok _ _ _ _ _ _ (auth_wf_gas g _ Hw) Hr) as (_&_&Hb2&_).
  exists tax. split_and!; [done|lia|lia|]. intros d. rewrite !Hb2.
  change (balance (set_gas g st) ?x d) with (balance st x d). rewrite !Hb1.
  assert (amt [mkCoin (denom fee) (amount fee - tax)] d = amt [fee] d - amt [mkCoin (denom fee) tax] d) as ->.
  { simpl. case_decide; lia. }
  generalize (amt [fee] d), (amt [mkCoin (denom fee) tax] d). intros x y.
  split_and!; repeat case_decide; try congruence; lia.
Qed.
End keeper.

(** ** Examples *)
Definition ex_factor (n : Z) : string := "1.00".
Definition ex_asset : AssetState :=
  mkAsset (ex_bank [("alice", [mkCoin IrisAtto (10^24)])] (10^24) []) ∅ ∅ ∅ ∅ DefaultParams.
Definition ex_issue (max : Z) (dec : Z) : MsgIssueToken :=
  mkIssue FUNGIBLE NATIVE "" " Abc" "" "a token" dec "" 1000 max true "alice".
Definition ex_mint (n : Z) : MsgMintToken := mkMint "i.abc" "alice" "bob" n.
Definition ex_run (msg : AssetMsg) (s : AssetState) : AssetState :=
  (Handler (H := name_crypto) id ex_factor msg s).2.
Definition ex_issued : AssetState := ex_run (IssueTokenMsg (ex_issue 5000 2)) ex_asset.
Definition ex_minted : AssetState := ex_run (MintTokenMsg (ex_mint 4000)) ex_issued.

Lemma ex_asset_inv : asset_inv ex_asset.
Proof. split; [apply auth_wfb_ok; vm_compute; reflexivity|intros k t Hk; simpl in Hk; by rewrite lookup_empty in Hk..]. Qed.
Lemma asset_supply_bounded_witness :
  supply_bounded ex_minted ∧ supply (as_auth ex_minted) "abc-min" = Some 500000 ∧
  total (as_auth ex_minted) IrisAtto = 10^24.
Proof.
  destruct (asset_supply_bounded (H := name_crypto) id ex_factor ex_asset ex_minted [IssueTokenMsg (ex_issue 5000 2); MintTokenMsg (ex_mint 4000)] ex_asset_inv) as (_&Ht&Hb).
  - intros k t c Hk. simpl in Hk. by rewrite lookup_empty in Hk.
  - apply (run_step _ _ _ ex_issued _ [_] [_]); [apply step_msg; [vm_compute; reflexivity|simpl; lia|run_vm]|].
    apply (run_step _ _ _ ex_minted _ [_] []); [apply step_msg; [vm_compute; reflexivity|simpl; lia|run_vm]|constructor].
  - split; [|split; [vm_compute; reflexivity|rewrite Ht; vm_compute; reflexivity]]. intros k t c Hk Hc.
    destruct (Hb k t c Hk Hc) as [|[[(_&E&_)|[[]|[]%Exists_nil]%Exists_cons]%Exists_cons _]]; [done|discriminate E].
Defined.

Lemma default_max_unscaled_witness :
  let s' := ex_run (IssueTokenMsg (ex_issue 0 18)) ex_asset in
  ¬ supply_bounded s' ∧ (Handler (H := name_crypto) id ex_factor (MintTokenMsg (ex_mint 1)) s').1 = Err (asset_err CodeInvalidAssetMaxSupply).
Proof.
  intros s'. split; [|vm_compute; reflexivity]. intros Hb.
  destruct (default_max_unscaled (H := name_crypto) id ex_factor (ex_issue 0 18) ex_asset s') as (k&t&c&_&Hk&Hc&Hm&Ha);
    [vm_compute; reflexivity|simpl; lia|apply ex_asset_inv|done|done|run_vm|].
  specialize (Hb _ _ _ Hk Hc). rewrite Ha, Hm in Hb. unfold MaximumAssetMaxSupply in Hb. simpl in Hb. lia.
Defined.
Lemma asset_authority_witness :
  authorized ["alice"] ex_issued ex_minted ∧
  (Handler (H := name_crypto) id ex_factor (MintTokenMsg (mkMint "i.abc" "bob" "bob" 1)) ex_issued).1 =
    Err (asset_err CodeInvalidOwner).
Proof.
  split; [|vm_compute; reflexivity].
  apply (asset_authority (H := name_crypto) id ex_factor (MintTokenMsg (ex_mint 4000))).
  - apply (Handler_keeps (H := name_crypto) id ex_factor (IssueTokenMsg (ex_issue 5000 2)) ex_asset ex_issued); [vm_compute; reflexivity|simpl; lia|run_vm|apply ex_asset_inv].
  - vm_compute. reflexivity.
  - simpl. lia.
  - run_vm.
Defined.
Lemma fee_split_witness :
  let s' := (feeHandler (H := name_crypto) "alice" (mkCoin IrisAtto 1001) ex_asset).2 in
  balance (as_auth s') "alice" IrisAtto = 10^24 - 1001 ∧ balance (as_auth s') "communityTaxCoins" IrisAtto = 400 ∧
  balance (as_auth s') "burnedCoins" IrisAtto = 601.
Proof.
  intros s'. destruct (fee_split (H := name_crypto) "alice" (mkCoin IrisAtto 1001) ex_asset s') as (tax&Ht&_&Hd);
    [apply ex_asset_inv|discriminate|discriminate|discriminate|run_vm|].
  destruct (Hd IrisAtto) as (->&Hc&Hb).
  assert (tax = 400) as -> by (vm_compute in Ht; by injection Ht). split; [vm_compute; reflexivity|].
  split; [etrans; [exact Hc|]|etrans; [exact Hb|]]; vm_compute; reflexivity.
Defined.
End AssetSupply.
