(* ===== verification/Rand.v ===== *)
(** * Random numbers on demand (app/v1/rand: internal/types, internal/keeper, handler.go, abci.go, genesis.go)

    A request is queued under the height it asks for; the block after that height
    computes the number from the hash of the block before, the time and the
    consumer's address, and stores it under the request's identifier. *)

From Stdlib Require Import Ascii.
From S2P Require Import Prelude SdkErrors Frame IntType GoStrings KVStore Sha256 Dec Rat Auth.
#[local] Open Scope Z_scope.

Module Rand.

(** ** Types (internal/types) *)
Definition DefaultCodespace : string := "rand".
Inductive RandCode := CodeInvalidConsumer | CodeInvalidReqID | CodeInvalidHeight.
Definition rand_err (c : RandCode) : Error :=
  NewError DefaultCodespace
    (match c with CodeInvalidConsumer => 100 | CodeInvalidReqID => 101 | CodeInvalidHeight => 102 end).

Record Rand := NewRand { rd_RequestTxHash : string; rd_Height : Z; rd_Value : Rat }.
Record Request := NewRequest { rq_Height : Z; rq_Consumer : AccAddress; rq_TxHash : string }.
#[export] Instance Request_dec : EqDecision Request.
Proof. solve_decision. Defined.

Definition GenerateRequestID (r : Request) : string :=
  SHA256 (Uint64ToBigEndian (wrap64 (rq_Height r)) +:+ rq_Consumer r).
Definition CheckReqID (reqID : string) : Outcome unit :=
  if negb (bool_decide (str_len reqID = 64%nat)) then Err (rand_err CodeInvalidReqID) else
  match DecodeString reqID with None => Err (rand_err CodeInvalidReqID) | Some _ => Ok tt end.

Record MsgRequestRand := mkMsgRequestRand { rr_Consumer : AccAddress; rr_BlockInterval : Z }.
Inductive RandMsg := RequestRandMsg (msg : MsgRequestRand) | OtherMsg.
Definition MsgRequestRand_ValidateBasic (msg : MsgRequestRand) : Outcome unit :=
  if bool_decide (str_len (rr_Consumer msg) = 0%nat) then Err (rand_err CodeInvalidConsumer) else Ok tt.
Definition ValidateBasic (msg : RandMsg) : Outcome unit :=
  match msg with RequestRandMsg msg => MsgRequestRand_ValidateBasic msg | OtherMsg => Ok tt end.
Definition GetSigners (msg : RandMsg) : list AccAddress :=
  match msg with RequestRandMsg msg => [rr_Consumer msg] | OtherMsg => [] end.

(** ** The generator (internal/types/rng.go) *)
(** [big.Int.SetBytes] and [big.Int.Bytes]: big-endian, no leading zero byte, no
    sign. *)
Definition SetBytes (s : string) : Z := foldl (λ acc c, acc * 256 + byte_val c) 0 (chars s).
Fixpoint bytes_fuel (fuel : nat) (n : Z) : list ascii :=
  match fuel with
  | O => []
  | S fuel => if n <=? 0 then [] else bytes_fuel fuel (n / 256) ++ [byte_at 0 n]
  end.
Definition Bytes (z : Z) : string := str (bytes_fuel (S (Z.to_nat (Z.log2 (Z.abs z)))) (Z.abs z)).

Definition RandPrec : Z := 20.
Record PRNG := MakePRNG { BlockHash : string; BlockTimestamp : Z; TxInitiator : AccAddress }.
Definition big_Div (a b : Z) : Outcome Z :=
  if b =? 0 then Panic "division by zero" else Ok (euclid_div a b).
Definition GetRand (p : PRNG) : Outcome Rat :=
  let seedBT := BlockTimestamp p in
  let? seedBH := big_Div (SetBytes (SHA256 (BlockHash p))) seedBT in
  let? seedTI := big_Div (SetBytes (SHA256 (TxInitiator p))) seedBT in
  let seedSum := seedBT + seedBH + seedTI in
  let seed := SetBytes (SHA256 (Bytes seedSum)) in
  let precision := 10 ^ RandPrec in
  NewRatFromBigInt (euclid_mod seed precision) [precision].

(** ** Keeper (internal/keeper) *)
Record RandStore := mkRandStore { rands : gmap string Rand; queue : gmap string Request }.
Definition PrefixRand : string := "rands:".
Definition PrefixRandRequestQueue : string := "randRequestQueue:".
Definition KeyRand (reqID : string) : string := PrefixRand +:+ reqID.
Definition KeyRandRequestQueueSubspace (height : Z) : string :=
  PrefixRandRequestQueue +:+ str (int_text height) +:+ ":".
Definition KeyRandRequestQueue (height : Z) (reqID : string) : string :=
  KeyRandRequestQueueSubspace height +:+ reqID.

Definition SetRand (reqID : string) (rand : Rand) : M RandStore unit :=
  modify (λ s, mkRandStore (<[KeyRand reqID := rand]> (rands s)) (queue s)).
Definition EnqueueRandRequest (height : Z) (reqID : string) (request : Request) : M RandStore unit :=
  modify (λ s, mkRandStore (rands s) (<[KeyRandRequestQueue height reqID := request]> (queue s))).
Definition DequeueRandRequest (height : Z) (reqID : string) : M RandStore unit :=
  modify (λ s, mkRandStore (rands s) (delete (KeyRandRequestQueue height reqID) (queue s))).
Definition keeper_GetRand (reqID : string) : M RandStore Rand :=
  r <- gets (λ s, rands s !! KeyRand reqID) ;;
  match r with None => throw (rand_err CodeInvalidReqID) | Some rand => ret rand end.
Definition IterateRands (s : RandStore) : list Rand := (prefix_iterator (rands s) PrefixRand).*2.
Definition IterateRandRequestQueueByHeight (height : Z) (s : RandStore) : list (string * Request) :=
  prefix_iterator (queue s) (KeyRandRequestQueueSubspace height).

Definition IterateRandRequestQueue (s : RandStore) : list (Z * Request) :=
  map (λ kv, ((ParseInt64 (nth 1 (Split kv.1 ":"%char) "")).1, kv.2))
      (prefix_iterator (queue s) PrefixRandRequestQueue).

(** [height] is the height of the block. *)
Definition RequestRand (height : Z) (txBytes : string) (consumer : AccAddress) (blockInterval : Z)
    : M RandStore unit :=
  let destHeight := wrap_int64 (height + wrap_int64 blockInterval) in
  let request := NewRequest height consumer (SHA256 txBytes) in
  EnqueueRandRequest destHeight (GenerateRequestID request) request.

(** ** Handler and block begin (handler.go, abci.go) *)
Definition handleMsgRequestRand (height : Z) (txBytes : string) (msg : MsgRequestRand) : M RandStore unit :=
  RequestRand height txBytes (rr_Consumer msg) (rr_BlockInterval msg).
Definition Handler (height : Z) (txBytes : string) (msg : RandMsg) : M RandStore unit :=
  match msg with
  | RequestRandMsg msg => handleMsgRequestRand height txBytes msg
  | OtherMsg => throw ErrTxDecode
  end.

Definition serve (lastBlockHeight currentTimestamp : Z) (lastBlockHash : string) (request : Request)
    : M RandStore unit :=
  let reqID := GenerateRequestID request in
  rand <- lift (GetRand (MakePRNG lastBlockHash currentTimestamp (rq_Consumer request))) ;;
  SetRand reqID (NewRand (rq_TxHash request) lastBlockHeight rand) ;;;
  DequeueRandRequest lastBlockHeight reqID.
Definition BeginBlocker (height currentTimestamp : Z) (lastBlockHash : string) : M RandStore unit :=
  let lastBlockHeight := wrap_int64 (height - 1) in
  l <- gets (IterateRandRequestQueueByHeight lastBlockHeight) ;;
  for_each l (λ kv, serve lastBlockHeight currentTimestamp lastBlockHash kv.2).

(** ** Genesis (genesis.go); a Go map is ranged over in some order *)
Definition GenesisState : Type := list (string * list Request).
Definition InitGenesis (data : GenesisState) : M RandStore unit :=
  for_each data (λ p, for_each p.2 (λ request,
    let '(h, err) := ParseInt64 p.1 in
    if err : bool then ret tt else EnqueueRandRequest h (GenerateRequestID request) request)).
Definition ExportGenesis (height : Z) (s : RandStore) : gmap string (list Request) :=
  foldl (λ pending hr,
    let leftHeight := str (int_text (wrap_int64 (hr.1 - height + 1))) in
    <[leftHeight := default [] (pending !! leftHeight) ++ [hr.2]]> pending)
    ∅ (IterateRandRequestQueue s).

(** ** Queries (internal/keeper/querier.go) *)
Definition queryRand (reqID : string) : M RandStore Rand :=
  match DecodeString reqID with
  | None => throw ErrUnknownRequest
  | Some reqID => keeper_GetRand reqID
  end.
Definition queryRandRequestQueue (height : Z) (s : RandStore) : Outcome (list Request) :=
  if height <? 0 then Err (rand_err CodeInvalidHeight) else
  if height =? 0 then Ok (IterateRandRequestQueue s).*2
  else Ok (IterateRandRequestQueueByHeight height s).*2.

(** * Theorems *)
#[local] Opaque SHA256 GenerateRequestID.

(** ** The generator *)
Lemma GetRand_range p r : GetRand p = Ok r → 0 ≤ rnum r < rden r ∧ (rden r | 10 ^ RandPrec).
Proof.
  unfold GetRand, big_Div. destruct (Z.eqb_spec (BlockTimestamp p) 0) as [|_]; [done|]. simpl.
  set (seed := SetBytes (SHA256 (Bytes _))). unfold SetFrac. intros [= <-].
  set (n := euclid_mod seed (10 ^ RandPrec)). assert (Hn : 0 ≤ n < 10 ^ RandPrec).
  { unfold n, euclid_mod. apply Z.mod_pos_bound. reflexivity. }
  set (d := 10 ^ RandPrec) in *. assert (0 < d) by reflexivity. clearbody d n. clear seed.
  unfold rat_norm. simpl. set (g := Z.gcd n d).
  assert (Hg : 0 < g) by (pose proof (Z.gcd_nonneg n d); pose proof (Z.gcd_eq_0_r n d); lia).
  destruct (Z.gcd_divide_l n d) as [a Ha]. destruct (Z.gcd_divide_r n d) as [b Hb]. fold g in Ha, Hb.
  rewrite Z.sgn_pos, Z.abs_eq by lia. rewrite Ha at 1 2. rewrite Hb. rewrite !Z.div_mul by lia.
  split; [nia|]. by exists g; lia.
Qed.

(** ** Keys of the queue *)
Lemma int_text_no_colon z : ":"%char ∉ int_text z.
Proof.
  assert (Hd : ∀ n, 0 ≤ n → ":"%char ∉ digits n).
  { intros n Hn Hin. pose proof (digits_digit n Hn) as HF. rewrite Forall_forall in HF. by specialize (HF _ Hin). }
  unfold int_text. destruct (Z.ltb_spec z 0); [|by apply Hd].
  rewrite not_elem_of_cons. split; [done|]. apply Hd. lia.
Qed.
Lemma int_text_inj x y : int_text x = int_text y → x = y.
Proof. intros E. apply (f_equal parse_int) in E. rewrite !parse_int_text in E. by injection E. Qed.

Lemma queue_key_chars h id :
  chars (KeyRandRequestQueue h id) = chars PrefixRandRequestQueue ++ int_text h ++ ":"%char :: chars id.
Proof.
  unfold KeyRandRequestQueue, KeyRandRequestQueueSubspace. by rewrite !chars_app, chars_str, <-!app_assoc.
Qed.
(** A key of the queue is under the prefix of its own height only. *)
Lemma queue_key_prefix h h' id :
  HasPrefix (KeyRandRequestQueue h id) (KeyRandRequestQueueSubspace h') = true ↔ h' = h.
Proof.
  split; [|intros ->; apply HasPrefix_app]. intros [t Ht]%HasPrefix_iff.
  change (KeyRandRequestQueueSubspace h' +:+ t) with (KeyRandRequestQueue h' t) in Ht.
  apply (f_equal chars) in Ht. rewrite !queue_key_chars in Ht. apply app_inv_head in Ht. symmetry.
  apply int_text_inj. eapply first_sep_inj; [apply int_text_no_colon..|done].
Qed.
Lemma queue_key_inj h h' id id' : KeyRandRequestQueue h id = KeyRandRequestQueue h' id' → h = h' ∧ id = id'.
Proof.
  intros E. assert (Hp : HasPrefix (KeyRandRequestQueue h id) (KeyRandRequestQueueSubspace h') = true)
    by (rewrite E; apply HasPrefix_app).
  apply queue_key_prefix in Hp as ->. split; [done|]. apply (f_equal chars) in E.
  rewrite !queue_key_chars in E. do 2 apply app_inv_head in E. injection E as E. by apply chars_inj.
Qed.

(** ** The states of a chain *)
(** Every entry of the queue is a request under its identifier. *)
Definition queue_wf (s : RandStore) : Prop :=
  ∀ k r, queue s !! k = Some r → ∃ h, k = KeyRandRequestQueue h (GenerateRequestID r).
Definition pending (s : RandStore) (dest : Z) (id : string) : Prop :=
  ∃ r, queue s !! KeyRandRequestQueue dest id = Some r ∧ GenerateRequestID r = id.
Definition answered (s : RandStore) (dest : Z) (id : string) : Prop :=
  ∃ r, rands s !! KeyRand id = Some r ∧ rd_Height r = dest ∧ 0 ≤ rnum (rd_Value r) < rden (rd_Value r).

Definition served_ids (l : list (string * Request)) : list string := (λ kv, GenerateRequestID kv.2) <$> l.

Lemma KeyRand_inj a b : KeyRand a = KeyRand b → a = b.
Proof.
  unfold KeyRand. intros E. apply (f_equal chars) in E. rewrite !chars_app in E.
  by apply app_inv_head, chars_inj in E.
Qed.

Lemma GetRand_total p : BlockTimestamp p ≠ 0 → ∃ r, GetRand p = Ok r.
Proof. intros Hp. unfold GetRand, big_Div. destruct (Z.eqb_spec (BlockTimestamp p) 0); [done|]. simpl. eauto. Qed.

(** The store after some requests were served. *)
Lemma serve_all h ts hash l s :
  ts ≠ 0 →
  ∃ s', for_each l (λ kv : string * Request, serve h ts hash kv.2) s = (Ok tt, s') ∧
    (∀ d id, queue s' !! KeyRandRequestQueue d id =
       if decide (d = h ∧ id ∈ served_ids l) then None else queue s !! KeyRandRequestQueue d id) ∧
    (∀ k r, queue s' !! k = Some r → queue s !! k = Some r) ∧
    (∀ id, id ∈ served_ids l → answered s' h id) ∧
    (∀ id, id ∉ served_ids l → rands s' !! KeyRand id = rands s !! KeyRand id).
Proof.
  intros Hts. revert s. induction l as [|[k r] l IH]; intros s.
  { exists s. split_and!; [done| |done|set_solver|done]. intros d id. rewrite decide_False; [done|set_solver]. }
  cbn [for_each]. destruct (GetRand_total (MakePRNG hash ts (rq_Consumer r)) Hts) as [v Hv].
  set (id0 := GenerateRequestID r).
  set (s1 := mkRandStore (<[KeyRand id0 := NewRand (rq_TxHash r) h v]> (rands s)) (delete (KeyRandRequestQueue h id0) (queue s))).
  assert (E1 : serve h ts hash r s = (Ok tt, s1)).
  { unfold serve, bind, lift. rewrite Hv. reflexivity. }
  destruct (IH s1) as (s'&Hr&Hq&Hqs&Ha&Hk). exists s'. unfold bind at 1. cbn [snd]. rewrite E1. split; [done|].
  unfold served_ids in *. csimpl. fold id0. clearbody id0. clear E1 Hr IH. split_and!.
  - intros d id. rewrite Hq. simpl. destruct (decide (d = h ∧ id ∈ _)) as [Hin|Hni].
    + rewrite decide_True; [done|]. destruct Hin. split; [done|by right].
    + rewrite lookup_delete. case_decide as Ek.
      * apply queue_key_inj in Ek as [<- <-]. rewrite decide_True; [done|]. split; [done|by left].
      * rewrite decide_False; [done|]. intros [-> [->|Hin]%elem_of_cons]; [by apply Ek|by apply Hni].
  - intros k' r' Hk'. apply Hqs in Hk'. simpl in Hk'. by apply lookup_delete_Some in Hk' as [_ ?].
  - intros id Hid. destruct (decide (id ∈ (λ kv : string * Request, GenerateRequestID kv.2) <$> l)) as [Hin|Hni]; [by apply Ha|].
    apply elem_of_cons in Hid as [->|Hid]; [|done]. unfold answered. rewrite Hk by done. simpl. rewrite lookup_insert_eq.
    eexists. split; [done|]. split; [done|]. simpl. apply (GetRand_range _ _ Hv).
  - intros id [Hne Hni]%not_elem_of_cons. rewrite Hk by done. simpl. rewrite lookup_insert_ne; [done|].
    intros E%KeyRand_inj. done.
Qed.

(** The block that begins at [height] serves exactly the requests for the height
    before. *)
Lemma BeginBlocker_spec height ts hash s :
  ts ≠ 0 → queue_wf s → is_int64 (height - 1) = true →
  ∃ s', BeginBlocker height ts hash s = (Ok tt, s') ∧ queue_wf s' ∧
    (∀ d id, d ≠ height - 1 → queue s' !! KeyRandRequestQueue d id = queue s !! KeyRandRequestQueue d id) ∧
    (∀ id, queue s' !! KeyRandRequestQueue (height - 1) id = None) ∧
    (∀ id, pending s (height - 1) id → answered s' (height - 1) id) ∧
    (∀ id, ¬ pending s (height - 1) id → rands s' !! KeyRand id = rands s !! KeyRand id).
Proof.
  intros Hts Hw Hh. unfold BeginBlocker. rewrite wrap_int64_small by exact Hh. unfold bind at 1, gets.
  set (l := IterateRandRequestQueueByHeight (height - 1) s).
  destruct (serve_all (height - 1) ts hash l s Hts) as (s'&Hr&Hq&Hqs&Ha&Hk). exists s'.
  assert (Hid : ∀ id, id ∈ served_ids l ↔ pending s (height - 1) id).
  { intros id. unfold served_ids, pending. rewrite list_elem_of_fmap. split.
    - intros ([k r]&->&[Hin Hp]%prefix_iterator_elem). exists r. split; [|done]. simpl.
      destruct (Hw _ _ Hin) as [h ->]. apply queue_key_prefix in Hp as <-. done.
    - intros (r&Hin&<-). exists (KeyRandRequestQueue (height - 1) (GenerateRequestID r), r). split; [done|].
      apply prefix_iterator_elem. split; [done|]. by apply queue_key_prefix. }
  split_and!; [done| | | | |].
  - intros k r Hk'. apply Hw. by apply Hqs.
  - intros d id Hd. rewrite Hq, decide_False; [done|]. by intros [-> _].
  - intros id. rewrite Hq. case_decide as Hin; [done|].
    destruct (queue s !! KeyRandRequestQueue (height - 1) id) as [r|] eqn:E; [|done].
    destruct Hin. split; [done|]. apply Hid. exists r. split; [done|].
    destruct (Hw _ _ E) as [h [_ ?]%queue_key_inj]. done.
  - intros id Hp. apply Ha. by apply Hid.
  - intros id Hp. apply Hk. by rewrite Hid.
Qed.

(** ** Requests over a run of blocks *)
Record Block := mkBlock { b_Height : Z; b_Time : Z; b_LastHash : string; b_Requests : list (string * MsgRequestRand) }.
Definition run_block (b : Block) : M RandStore unit :=
  BeginBlocker (b_Height b) (b_Time b) (b_LastHash b) ;;;
  for_each (b_Requests b) (λ tm, handleMsgRequestRand (b_Height b) tm.1 tm.2).
(** Consecutive blocks, with times other than the epoch, from height [h]. *)
Fixpoint chain (h : Z) (bs : list Block) : Prop :=
  match bs with
  | [] => True
  | b :: bs => b_Height b = h ∧ b_Time b ≠ 0 ∧ chain (h + 1) bs
  end.

Definition dest_height (height interval : Z) : Z := wrap_int64 (height + wrap_int64 interval).

Lemma requests_spec h (l : list (string * MsgRequestRand)) s :
  queue_wf s →
  ∃ s', for_each l (λ tm, handleMsgRequestRand h tm.1 tm.2) s = (Ok tt, s') ∧ queue_wf s' ∧
    rands s' = rands s ∧
    (∀ d id, pending s d id → pending s' d id) ∧
    (∀ d id, is_Some (queue s' !! KeyRandRequestQueue d id) →
       is_Some (queue s !! KeyRandRequestQueue d id) ∨ ∃ tm, tm ∈ l ∧ d = dest_height h (rr_BlockInterval tm.2)).
Proof.
  revert s. induction l as [|[tx m] l IH]; intros s Hw.
  { exists s. split_and!; try done. by left. }
  cbn [for_each]. unfold bind at 1.
  set (r := NewRequest h (rr_Consumer m) (SHA256 tx)).
  set (s1 := mkRandStore (rands s) (<[KeyRandRequestQueue (dest_height h (rr_BlockInterval m)) (GenerateRequestID r) := r]> (queue s))).
  change (handleMsgRequestRand h (tx, m).1 (tx, m).2 s) with (Ok tt : Outcome unit, s1).
  assert (Hw1 : queue_wf s1).
  { intros k r' Hk. simpl in Hk. apply lookup_insert_Some in Hk as [[<- <-]|[_ Hk]]; [eauto|by apply Hw]. }
  destruct (IH s1 Hw1) as (s'&Hr&Hw'&Hrs&Hp&Hd). exists s'. split_and!; [done|done|by rewrite Hrs| |].
  - intros d id (r'&Hk&Hid). apply Hp. unfold pending. simpl. rewrite lookup_insert. case_decide as E; [|by exists r'].
    exists r. split; [done|]. by apply queue_key_inj in E as [_ <-].
  - intros d id Hs. destruct (Hd _ _ Hs) as [[r' Hk]|(tm&Htm&->)]; [|right; exists tm; split; [by right|done]].
    simpl in Hk. apply lookup_insert_Some in Hk as [[E _]|[_ Hk]]; [|left; eauto].
    apply queue_key_inj in E as [<- _]. right. exists (tx, m). split; [by left|done].
Qed.

Lemma run_block_spec b s :
  b_Time b ≠ 0 → queue_wf s → is_int64 (b_Height b - 1) = true →
  ∃ s', run_block b s = (Ok tt, s') ∧ queue_wf s' ∧
    (∀ d id, d ≠ b_Height b - 1 → pending s d id → pending s' d id) ∧
    (∀ id, pending s (b_Height b - 1) id → answered s' (b_Height b - 1) id) ∧
    (∀ id, (∀ d, pending s d id → d ≠ b_Height b - 1) → rands s' !! KeyRand id = rands s !! KeyRand id).
Proof.
  intros Ht Hw Hh. unfold run_block, bind.
  destruct (BeginBlocker_spec (b_Height b) (b_Time b) (b_LastHash b) s Ht Hw Hh) as (s1&->&Hw1&Hq&_&Ha&Hk).
  destruct (requests_spec (b_Height b) (b_Requests b) s1 Hw1) as (s'&->&Hw'&Hrs&Hp&_).
  exists s'. split_and!; [done|done| | |].
  - intros d id Hd (r&Hr&Hid). apply Hp. exists r. by rewrite Hq.
  - intros id Hid. destruct (Ha id Hid) as (r&Hr&Hrest). exists r. by rewrite Hrs.
  - intros id Hid. rewrite Hrs. apply Hk. intros Hp'. by apply (Hid _ Hp').
Qed.

Definition run_blocks (bs : list Block) : M RandStore unit := for_each bs run_block.

(** A pending request is answered in the block after the height it names, whatever
    else is requested in the meantime. *)
Lemma pending_answered bs : ∀ h dest id s,
  queue_wf s → chain h bs → is_int64 (h - 1) = true → is_int64 (dest + 1) = true →
  pending s dest id → h - 1 ≤ dest → length bs = Z.to_nat (dest - h + 2) →
  ∃ s', run_blocks bs s = (Ok tt, s') ∧ answered s' dest id.
Proof.
  induction bs as [|b bs IH]; intros h dest id s Hw Hc Hh Hdest Hp Hle Hl.
  { simpl in Hl. lia. }
  destruct Hc as (Hb&Ht&Hc). rewrite <-Hb in Hh. unfold run_blocks. cbn [for_each]. unfold bind at 1.
  destruct (run_block_spec b s Ht Hw Hh) as (s1&->&Hw1&Hkeep&Hans&_). fold (run_blocks bs).
  destruct (decide (dest = b_Height b - 1)) as [->|Hne].
  - assert (bs = []) as -> by (apply length_zero_iff_nil; simpl in Hl; lia). exists s1. split; [done|]. by apply Hans.
  - apply (IH (h + 1) dest id s1); try done; [|by apply Hkeep|lia|simpl in Hl; lia].
    unfold is_int64 in *. zbool. apply andb_true_iff. split; [apply Z.leb_le|apply Z.ltb_lt]; lia.
Qed.

Lemma RequestRand_spec h txBytes consumer interval s :
  queue_wf s →
  let id := GenerateRequestID (NewRequest h consumer (SHA256 txBytes)) in
  ∃ s1, RequestRand h txBytes consumer interval s = (Ok tt, s1) ∧ queue_wf s1 ∧ rands s1 = rands s ∧
        pending s1 (dest_height h interval) id.
Proof.
  intros Hw. eexists. split; [reflexivity|]. split_and!; [|done|].
  - intros k r' Hk. simpl in Hk. apply lookup_insert_Some in Hk as [[<- <-]|[_ Hk]]; [eauto|by apply Hw].
  - eexists. simpl. rewrite lookup_insert_eq. done.
Qed.

Lemma dest_height_small h interval :
  0 ≤ h → 0 ≤ interval → h + interval < 2^63 → dest_height h interval = h + interval.
Proof.
  intros. unfold dest_height, wrap_int64. rewrite (Z.mod_small (interval + _)) by lia. rewrite Z.mod_small; lia.
Qed.
Lemma is_int64_small z : 0 ≤ z < 2^63 → is_int64 z = true.
Proof. intros. unfold is_int64. apply andb_true_iff. split; [apply Z.leb_le|apply Z.ltb_lt]; lia. Qed.

(** C31. A request is answered after the number of blocks it asks for: the block at its
    height plus the interval plus one stores a number in [0, 1) under the request's
    identifier, whatever else is requested in the meantime. *)
Theorem request_answered (h interval : Z) (txBytes : string) (consumer : AccAddress) (bs : list Block) (s : RandStore)
    (Hw : queue_wf s) (Hh : 0 ≤ h) (Hi : 0 ≤ interval) (Hmax : h + interval + 1 < 2^63)
    (Hc : chain (h + 1) bs) (Hl : length bs = Z.to_nat (interval + 1)) :
  let id := GenerateRequestID (NewRequest h consumer (SHA256 txBytes)) in
  ∃ s', (RequestRand h txBytes consumer interval ;;; run_blocks bs) s = (Ok tt, s') ∧
        answered s' (h + interval) id.
Proof.
  intros id. destruct (RequestRand_spec h txBytes consumer interval s Hw) as (s1&Hr&Hw1&_&Hp).
  unfold bind. rewrite Hr. rewrite dest_height_small in Hp by lia.
  apply (pending_answered bs (h + 1)); try done; try (apply is_int64_small; lia); lia.
Qed.
Definition ex_block (h : Z) : Block := mkBlock h 1600000000 "hash" [].
Lemma request_answered_witness :
  ∃ s', (RequestRand 7 "tx" "alice" 1 ;;; run_blocks [ex_block 8; ex_block 9]) (mkRandStore ∅ ∅) = (Ok tt, s') ∧
        answered s' 8 (GenerateRequestID (NewRequest 7 "alice" (SHA256 "tx"))).
Proof.
  apply (request_answered 7 1 "tx" "alice" [ex_block 8; ex_block 9] (mkRandStore ∅ ∅)); try lia; try reflexivity.
  - intros k r Hk. simpl in Hk. by rewrite lookup_empty in Hk.
  - repeat split; discriminate.
Defined.

(** A request whose interval does not fit a signed 64-bit number is queued under a
    height before the block it is in, and no later block ever takes it out. *)
Theorem request_lost (h interval : Z) (txBytes : string) (consumer : AccAddress) (bs : list Block) (s : RandStore)
    (Hw : queue_wf s) (Hh : 0 ≤ h) (Hi : 2^63 ≤ interval < 2^64)
    (Hc : chain (h + 1) bs) (Hmax : h + Z.of_nat (length bs) < 2^63) :
  let id := GenerateRequestID (NewRequest h consumer (SHA256 txBytes)) in
  dest_height h interval < h ∧
  ∃ s', (RequestRand h txBytes consumer interval ;;; run_blocks bs) s = (Ok tt, s') ∧
        pending s' (dest_height h interval) id.
Proof.
  intros id.
  assert (Hd : dest_height h interval = h + interval - 2^64).
  { unfold dest_height, wrap_int64.
    rewrite <-(Z.mod_unique (interval + 2^63) (2^64) 1 (interval - 2^63)) by lia.
    rewrite Z.mod_small; lia. }
  split; [lia|]. destruct (RequestRand_spec h txBytes consumer interval s Hw) as (s1&Hr&Hw1&_&Hp).
  unfold bind. rewrite Hr. cbv beta iota. fold id in Hp. set (d := dest_height h interval) in *. clearbody d id. clear Hr Hw.
  assert (Hlt : d < h) by lia. clear Hd Hi. revert h s1 Hh Hlt Hc Hmax Hw1 Hp.
  induction bs as [|b bs IH]; intros h s1 Hh Hlt Hc Hmax Hw1 Hp; [exists s1; done|].
  destruct Hc as (Hb&Ht&Hc). cbn [length] in Hmax. unfold run_blocks. cbn [for_each]. unfold bind at 1.
  destruct (run_block_spec b s1 Ht Hw1) as (s2&->&Hw2&Hkeep&_); [apply is_int64_small; lia|].
  apply (IH (h + 1) s2); try done; try lia. apply Hkeep; [lia|done].
Qed.
Lemma request_lost_witness :
  dest_height 7 (2^64 - 1) = 6 ∧
  ∃ s', (RequestRand 7 "tx" "alice" (2^64 - 1) ;;; run_blocks [ex_block 8; ex_block 9]) (mkRandStore ∅ ∅) = (Ok tt, s') ∧
        pending s' 6 (GenerateRequestID (NewRequest 7 "alice" (SHA256 "tx"))).
Proof.
  split; [reflexivity|].
  apply (request_lost 7 (2^64 - 1) "tx" "alice" [ex_block 8; ex_block 9] (mkRandStore ∅ ∅)); try (simpl; lia).
  intros k r Hk. simpl in Hk. by rewrite lookup_empty in Hk.
Defined.
End Rand.
