(* ===== verification/Coinswap.v ===== *)
(** * Coinswap (app/v2/coinswap)

    A constant-product exchange between the native token and every other token.
    The reserve pool of a pair is an account whose address is the hash of the
    pair's id; the liquidity tokens issued for a pool are also counted on the
    pool's own account.  The keeper reads and writes only the bank and the fee
    parameter. *)

From S2P Require Import Prelude SdkErrors IntType GoStrings Denom Coin CoinFacts Rat Auth BankFrame.
#[local] Open Scope Z_scope.

(** ** Errors (internal/types/errors.go) *)
Definition swap_Codespace : string := "coinswap".
Definition ErrReservePoolNotExists : Error := NewError swap_Codespace 101.
Definition ErrEqualDenom : Error := NewError swap_Codespace 102.
Definition ErrInvalidDeadline : Error := NewError swap_Codespace 103.
Definition ErrNotPositive : Error := NewError swap_Codespace 104.
Definition ErrConstraintNotMet : Error := NewError swap_Codespace 105.
Definition ErrIllegalDenom : Error := NewError swap_Codespace 106.
Definition ErrIllegalUniId : Error := NewError swap_Codespace 107.
Definition swap_ErrInsufficientFunds : Error := NewError swap_Codespace 108.

(** ** Pool ids and liquidity denominations (internal/types/utils.go) *)
Definition FormatUniId (coinName : string) : string := FormatUniABSPrefix +:+ coinName.

Definition GetUniId (denom1 denom2 : string) : Outcome string :=
  if bool_decide (denom1 = denom2) then Err ErrEqualDenom else
  if bool_decide (denom1 ≠ IrisAtto) && bool_decide (denom2 ≠ IrisAtto)
  then Err ErrIllegalDenom else
  let denom := if bool_decide (denom1 = IrisAtto) then denom2 else denom1 in
  match GetCoinNameByDenom denom with
  | None => Err ErrIllegalDenom
  | Some coinName => Ok (FormatUniId coinName)
  end.

Definition CheckUniDenom (uniDenom : string) : Outcome unit :=
  if negb (IsCoinMinDenomValid uniDenom) || negb (HasPrefix uniDenom FormatUniABSPrefix)
  then Err ErrIllegalDenom else Ok tt.

Definition CheckUniId (uniId : string) : Outcome unit :=
  if negb (IsCoinNameValid uniId) || negb (HasPrefix uniId FormatUniABSPrefix)
  then Err ErrIllegalUniId else Ok tt.

Definition GetCoinMinDenomFromUniDenom (uniDenom : string) : Outcome string :=
  let? _ := CheckUniDenom uniDenom in Ok (TrimPrefix uniDenom FormatUniABSPrefix).

Definition GetUniDenom (uniId : string) : Outcome string :=
  let? _ := CheckUniId uniId in
  match GetCoinMinDenom uniId with
  | None => Err ErrIllegalUniId
  | Some uniDenom => Ok uniDenom
  end.

Definition AttoScale : Z := 18.
Definition GetUniCoinType (uniId : string) : Outcome CoinType :=
  let? uniDenom := GetUniDenom uniId in
  let units := [NewUnit uniId 0; NewUnit uniDenom AttoScale] in
  Ok (mkCoinType uniId (NewUnit uniDenom AttoScale) units "").

(** ** Messages (internal/types/msgs.go) *)
Record SwapParty := mkParty { p_Address : AccAddress; p_Coin : Coin }.
Record MsgSwapOrder := mkMsgSwapOrder {
  sw_Input : SwapParty; sw_Output : SwapParty; sw_Deadline : Z; sw_IsBuyOrder : bool }.
Record MsgAddLiquidity := mkMsgAddLiquidity {
  al_MaxToken : Coin; al_ExactIrisAmt : Int; al_MinLiquidity : Int; al_Deadline : Z;
  al_Sender : AccAddress }.
Record MsgRemoveLiquidity := mkMsgRemoveLiquidity {
  rl_MinToken : Int; rl_WithdrawLiquidity : Coin; rl_MinIrisAmt : Int; rl_Deadline : Z;
  rl_Sender : AccAddress }.

Definition MsgSwapOrder_ValidateBasic (msg : MsgSwapOrder) : Outcome unit :=
  let input := p_Coin (sw_Input msg) in
  let output := p_Coin (sw_Output msg) in
  if negb (Coin_IsValid input && Coin_IsPositive input) then Err ErrInvalidCoins else
  if HasPrefix (denom input) FormatUniABSPrefix then Err ErrInvalidCoins else
  if negb (Coin_IsValid output && Coin_IsPositive output) then Err ErrInvalidCoins else
  if HasPrefix (denom output) FormatUniABSPrefix then Err ErrInvalidCoins else
  if bool_decide (denom input = denom output) then Err ErrEqualDenom else
  if sw_Deadline msg <=? 0 then Err ErrInvalidDeadline else
  if AccAddress_Empty (p_Address (sw_Input msg)) then Err ErrInvalidAddress else Ok tt.

Definition MsgAddLiquidity_ValidateBasic (msg : MsgAddLiquidity) : Outcome unit :=
  if negb (Coin_IsValid (al_MaxToken msg) && Coin_IsPositive (al_MaxToken msg))
  then Err ErrInvalidCoins else
  if bool_decide (denom (al_MaxToken msg) = IrisAtto) then Err ErrInvalidCoins else
  if HasPrefix (denom (al_MaxToken msg)) FormatUniABSPrefix then Err ErrInvalidCoins else
  if negb (Int_IsPositive (al_ExactIrisAmt msg)) then Err ErrNotPositive else
  if Int_IsNegative (al_MinLiquidity msg) then Err ErrNotPositive else
  if al_Deadline msg <=? 0 then Err ErrInvalidDeadline else
  if AccAddress_Empty (al_Sender msg) then Err ErrInvalidAddress else Ok tt.

Definition MsgRemoveLiquidity_ValidateBasic (msg : MsgRemoveLiquidity) : Outcome unit :=
  if Int_IsNegative (rl_MinToken msg) then Err ErrInvalidCoins else
  if negb (Coin_IsValid (rl_WithdrawLiquidity msg)) || negb (Coin_IsPositive (rl_WithdrawLiquidity msg))
  then Err ErrNotPositive else
  let? _ := CheckUniDenom (denom (rl_WithdrawLiquidity msg)) in
  if Int_IsNegative (rl_MinIrisAmt msg) then Err ErrNotPositive else
  if rl_Deadline msg <=? 0 then Err ErrInvalidDeadline else
  if AccAddress_Empty (rl_Sender msg) then Err ErrInvalidAddress else Ok tt.

(** ** Parameters (internal/types/params.go) *)
Definition MaxFeePrecision : nat := 10.
Record SwapParams := mkSwapParams { Fee : Rat }.
Definition DefaultParams : SwapParams := mkSwapParams (rat_norm 3 1000).

Definition params_Codespace : string := "params".
Definition ParseParamsErr : Error := ErrUnknownRequest.
Definition validateFee (fee : Rat) : Outcome unit :=
  if negb (Rat_GT fee ZeroRat) then Err ParseParamsErr else
  if negb (Rat_LT fee OneRat) then Err ParseParamsErr else Ok tt.

Definition Params_Validate (key value : string) : Outcome Rat :=
  if bool_decide (key = "fee") then
    let? fee := NewRatFromDecimal value MaxFeePrecision in
    let? _ := validateFee fee in Ok fee
  else Err (NewError params_Codespace 111).

(** ** Prices (internal/keeper/swap.go) *)
Definition getInputPrice (inputAmt inputReserve outputReserve : Int) (fee : Rat) : Outcome Int :=
  let deltaFee := Rat_Sub OneRat fee in
  let? num := Rat_Num deltaFee in
  let? inputAmtWithFee := Int_Mul inputAmt num in
  let? numerator := Int_Mul inputAmtWithFee outputReserve in
  let? den := Rat_Denom deltaFee in
  let? scaled := Int_Mul inputReserve den in
  let? denominator := Int_Add scaled inputAmtWithFee in
  Int_Div numerator denominator.

Definition getOutputPrice (outputAmt inputReserve outputReserve : Int) (fee : Rat) : Outcome Int :=
  let deltaFee := Rat_Sub OneRat fee in
  let? product := Int_Mul inputReserve outputAmt in
  let? den := Rat_Denom deltaFee in
  let? numerator := Int_Mul product den in
  let? rest := Int_Sub outputReserve outputAmt in
  let? num := Rat_Num deltaFee in
  let? denominator := Int_Mul rest num in
  let? q := Int_Div numerator denominator in
  Int_Add q 1.

(** ** The keeper (internal/keeper/keeper.go, swap.go) *)
Record SwapState (S : Type) := mkSwap { sbank : S; sparams : SwapParams }.
Arguments mkSwap {S}.
Arguments sbank {S}.
Arguments sparams {S}.

Section keeper.
Context {S : Type} `{BankKeeper S} `{Crypto}.
Abbreviation St := (SwapState S).

Definition swap_bank {A} (c : M S A) : M St A :=
  zoom sbank (λ b s, mkSwap b (sparams s)) c.

Definition getReservePoolAddr (uniDenom : string) : AccAddress := AddressHash uniDenom.

(** A pool without coins is read as nil. *)
Definition GetReservePool (uniId : string) : M St Coins :=
  gets (λ s, bk_coins (sbank s) (getReservePoolAddr uniId)).

Definition swapCoins (sender recipient : AccAddress) (coinSold coinBought : Coin) : M St unit :=
  uniId <- lift (GetUniId (denom coinSold) (denom coinBought)) ;;
  let poolAddr := getReservePoolAddr uniId in
  sold <- lift (NewCoins [coinSold]) ;;
  swap_bank (bk_SendCoins sender poolAddr sold) ;;;
  let recipient := if AccAddress_Empty recipient then sender else recipient in
  bought <- lift (NewCoins [coinBought]) ;;
  swap_bank (bk_SendCoins poolAddr recipient bought).

Definition calculateWithExactInput (exactSoldCoin : Coin) (boughtTokenDenom : string) : M St Int :=
  uniId <- lift (GetUniId (denom exactSoldCoin) boughtTokenDenom) ;;
  reservePool <- GetReservePool uniId ;;
  require (negb (Coins_Empty reservePool)) ErrReservePoolNotExists ;;;
  let inputReserve := AmountOf reservePool (denom exactSoldCoin) in
  let outputReserve := AmountOf reservePool boughtTokenDenom in
  require (Int_IsPositive inputReserve) swap_ErrInsufficientFunds ;;;
  require (Int_IsPositive outputReserve) swap_ErrInsufficientFunds ;;;
  param <- gets sparams ;;
  lift (getInputPrice (amount exactSoldCoin) inputReserve outputReserve (Fee param)).

Definition tradeExactInputForOutput (input output : SwapParty) : M St Int :=
  boughtTokenAmt <- calculateWithExactInput (p_Coin input) (denom (p_Coin output)) ;;
  require (negb (Int_LT boughtTokenAmt (amount (p_Coin output)))) ErrConstraintNotMet ;;;
  boughtToken <- lift (NewCoin (denom (p_Coin output)) boughtTokenAmt) ;;
  swapCoins (p_Address input) (p_Address output) (p_Coin input) boughtToken ;;;
  ret boughtTokenAmt.

Definition doubleTradeExactInputForOutput (input output : SwapParty) : M St Int :=
  nativeAmount <- calculateWithExactInput (p_Coin input) IrisAtto ;;
  nativeCoin <- lift (NewCoin IrisAtto nativeAmount) ;;
  swapCoins (p_Address input) (p_Address output) (p_Coin input) nativeCoin ;;;
  boughtAmt <- calculateWithExactInput nativeCoin (denom (p_Coin output)) ;;
  boughtToken <- lift (NewCoin (denom (p_Coin output)) boughtAmt) ;;
  require (negb (Int_LT boughtAmt (amount (p_Coin output)))) ErrConstraintNotMet ;;;
  swapCoins (p_Address input) (p_Address output) nativeCoin boughtToken ;;;
  ret boughtAmt.

(** Every error of the pool id is reported as a missing pool. *)
Definition calculateWithExactOutput (exactBoughtCoin : Coin) (soldTokenDenom : string) : M St Int :=
  uniId <- lift (match GetUniId (denom exactBoughtCoin) soldTokenDenom with
                 | Err _ => Err ErrReservePoolNotExists
                 | r => r
                 end) ;;
  reservePool <- GetReservePool uniId ;;
  require (negb (Coins_Empty reservePool)) ErrReservePoolNotExists ;;;
  let outputReserve := AmountOf reservePool (denom exactBoughtCoin) in
  let inputReserve := AmountOf reservePool soldTokenDenom in
  require (Int_IsPositive inputReserve) swap_ErrInsufficientFunds ;;;
  require (Int_IsPositive outputReserve) swap_ErrInsufficientFunds ;;;
  require (negb (Int_GTE (amount exactBoughtCoin) outputReserve)) swap_ErrInsufficientFunds ;;;
  param <- gets sparams ;;
  lift (getOutputPrice (amount exactBoughtCoin) inputReserve outputReserve (Fee param)).

Definition tradeInputForExactOutput (input output : SwapParty) : M St Int :=
  soldTokenAmt <- calculateWithExactOutput (p_Coin output) (denom (p_Coin input)) ;;
  require (negb (Int_GT soldTokenAmt (amount (p_Coin input)))) ErrConstraintNotMet ;;;
  soldToken <- lift (NewCoin (denom (p_Coin input)) soldTokenAmt) ;;
  swapCoins (p_Address input) (p_Address output) soldToken (p_Coin output) ;;;
  ret soldTokenAmt.

Definition doubleTradeInputForExactOutput (input output : SwapParty) : M St Int :=
  soldIrisAmount <- calculateWithExactOutput (p_Coin output) IrisAtto ;;
  soldIrisCoin <- lift (NewCoin IrisAtto soldIrisAmount) ;;
  soldTokenAmt <- calculateWithExactOutput soldIrisCoin (denom (p_Coin input)) ;;
  soldTokenCoin <- lift (NewCoin (denom (p_Coin input)) soldTokenAmt) ;;
  require (negb (Int_GT soldTokenAmt (amount (p_Coin input)))) ErrConstraintNotMet ;;;
  swapCoins (p_Address input) (p_Address output) soldTokenCoin soldIrisCoin ;;;
  swapCoins (p_Address input) (p_Address output) soldIrisCoin (p_Coin output) ;;;
  ret soldTokenAmt.

(** The tag of the pair; an unknown denomination panics. *)
Definition getTokenPairByDenom (inputDenom outputDenom : string) : Outcome string :=
  match GetCoinNameByDenom inputDenom, GetCoinNameByDenom outputDenom with
  | Some inputToken, Some outputToken => Ok (outputToken +:+ "-" +:+ inputToken)
  | _, _ => Panic "cannot find coin name"
  end.

Definition HandleSwap (msg : MsgSwapOrder) : M St Int :=
  let input := sw_Input msg in
  let output := sw_Output msg in
  let isDoubleSwap := bool_decide (denom (p_Coin input) ≠ IrisAtto) &&
                      bool_decide (denom (p_Coin output) ≠ IrisAtto) in
  amt <- (if sw_IsBuyOrder msg && isDoubleSwap then doubleTradeInputForExactOutput input output
          else if sw_IsBuyOrder msg && negb isDoubleSwap then tradeInputForExactOutput input output
          else if negb (sw_IsBuyOrder msg) && isDoubleSwap
               then doubleTradeExactInputForOutput input output
          else tradeExactInputForOutput input output) ;;
  lift (getTokenPairByDenom (denom (p_Coin input)) (denom (p_Coin output))) ;;;
  ret amt.

Definition addLiquidity (sender : AccAddress) (irisCoin token : Coin) (uniId : string)
    (mintLiquidityAmt : Int) : M St unit :=
  depositedTokens <- lift (NewCoins [irisCoin; token]) ;;
  let poolAddr := getReservePoolAddr uniId in
  swap_bank (bk_SendCoins sender poolAddr depositedTokens) ;;;
  uniDenom <- lift (GetUniDenom uniId) ;;
  mintCoin <- lift (NewCoin uniDenom mintLiquidityAmt) ;;
  mintToken <- lift (NewCoins [mintCoin]) ;;
  ignore_err (swap_bank (bk_AddCoins poolAddr mintToken)) ;;;
  ignore_err (swap_bank (bk_AddCoins sender mintToken)).

(** The liquidity to mint and the token to deposit, given the reserves. *)
Definition liquidity_terms (msg : MsgAddLiquidity) (irisReserveAmt tokenReserveAmt liquidity : Int)
    : Outcome (Int * Coin) :=
  if Int_IsZero liquidity then
    let? depositToken := NewCoin (denom (al_MaxToken msg)) (amount (al_MaxToken msg)) in
    Ok (al_ExactIrisAmt msg, depositToken)
  else
    let? m := Int_Mul liquidity (al_ExactIrisAmt msg) in
    let? mintLiquidityAmt := Int_Div m irisReserveAmt in
    if Int_LT mintLiquidityAmt (al_MinLiquidity msg) then Err ErrConstraintNotMet else
    let? t := Int_Mul tokenReserveAmt (al_ExactIrisAmt msg) in
    let? t := Int_Div t irisReserveAmt in
    let? depositAmt := Int_AddRaw t 1 in
    let? depositToken := NewCoin (denom (al_MaxToken msg)) depositAmt in
    if Int_GT depositAmt (amount (al_MaxToken msg)) then Err ErrConstraintNotMet else
    Ok (mintLiquidityAmt, depositToken).

Definition HandleAddLiquidity (msg : MsgAddLiquidity) : M St unit :=
  uniId <- lift (GetUniId IrisAtto (denom (al_MaxToken msg))) ;;
  uniDenom <- lift (GetUniDenom uniId) ;;
  reservePool <- GetReservePool uniId ;;
  let irisReserveAmt := AmountOf reservePool IrisAtto in
  let tokenReserveAmt := AmountOf reservePool (denom (al_MaxToken msg)) in
  let liquidity := AmountOf reservePool uniDenom in
  irisCoin <- lift (NewCoin IrisAtto (al_ExactIrisAmt msg)) ;;
  terms <- lift (liquidity_terms msg irisReserveAmt tokenReserveAmt liquidity) ;;
  let '(mintLiquidityAmt, depositToken) := terms in
  lift (getTokenPairByDenom (denom (al_MaxToken msg)) IrisAtto) ;;;
  addLiquidity (al_Sender msg) irisCoin depositToken uniId mintLiquidityAmt.

Definition removeLiquidity (poolAddr sender : AccAddress)
    (deductUniCoin irisWithdrawCoin tokenWithdrawCoin : Coin) : M St unit :=
  deltaCoins <- lift (NewCoins [deductUniCoin]) ;;
  swap_bank (bk_SubtractCoins poolAddr deltaCoins) ;;;
  swap_bank (bk_SubtractCoins sender deltaCoins) ;;;
  coins <- lift (NewCoins [irisWithdrawCoin; tokenWithdrawCoin]) ;;
  swap_bank (bk_SendCoins poolAddr sender coins).

Definition HandleRemoveLiquidity (msg : MsgRemoveLiquidity) : M St unit :=
  let uniDenom := denom (rl_WithdrawLiquidity msg) in
  uniId <- lift (match GetCoinNameByDenom uniDenom with
                 | None => Err ErrIllegalDenom | Some n => Ok n end) ;;
  minTokenDenom <- lift (GetCoinMinDenomFromUniDenom uniDenom) ;;
  reservePool <- GetReservePool uniId ;;
  require (negb (Coins_Empty reservePool)) ErrReservePoolNotExists ;;;
  let irisReserveAmt := AmountOf reservePool IrisAtto in
  let tokenReserveAmt := AmountOf reservePool minTokenDenom in
  let liquidityReserve := AmountOf reservePool uniDenom in
  require (negb (Int_LT irisReserveAmt (rl_MinIrisAmt msg))) swap_ErrInsufficientFunds ;;;
  require (negb (Int_LT tokenReserveAmt (rl_MinToken msg))) swap_ErrInsufficientFunds ;;;
  require (negb (Int_LT liquidityReserve (amount (rl_WithdrawLiquidity msg)))) swap_ErrInsufficientFunds ;;;
  i <- lift (Int_Mul (amount (rl_WithdrawLiquidity msg)) irisReserveAmt) ;;
  irisWithdrawnAmt <- lift (Int_Div i liquidityReserve) ;;
  t <- lift (Int_Mul (amount (rl_WithdrawLiquidity msg)) tokenReserveAmt) ;;
  tokenWithdrawnAmt <- lift (Int_Div t liquidityReserve) ;;
  irisWithdrawCoin <- lift (NewCoin IrisAtto irisWithdrawnAmt) ;;
  tokenWithdrawCoin <- lift (NewCoin minTokenDenom tokenWithdrawnAmt) ;;
  require (negb (Int_LT (amount irisWithdrawCoin) (rl_MinIrisAmt msg))) ErrConstraintNotMet ;;;
  require (negb (Int_LT (amount tokenWithdrawCoin) (rl_MinToken msg))) ErrConstraintNotMet ;;;
  let poolAddr := getReservePoolAddr uniId in
  lift (getTokenPairByDenom minTokenDenom IrisAtto) ;;;
  removeLiquidity poolAddr (rl_Sender msg) (rl_WithdrawLiquidity msg) irisWithdrawCoin tokenWithdrawCoin.

(** ** Handlers (handler.go) *)
Inductive SwapMsg :=
| SwSwap (m : MsgSwapOrder)
| SwAdd (m : MsgAddLiquidity)
| SwRemove (m : MsgRemoveLiquidity)
| SwOther.

Definition SwapMsg_ValidateBasic (msg : SwapMsg) : Outcome unit :=
  match msg with
  | SwSwap m => MsgSwapOrder_ValidateBasic m
  | SwAdd m => MsgAddLiquidity_ValidateBasic m
  | SwRemove m => MsgRemoveLiquidity_ValidateBasic m
  | SwOther => Ok tt
  end.
Definition SwapMsg_GetSigners (msg : SwapMsg) : list AccAddress :=
  match msg with
  | SwSwap m => [p_Address (sw_Input m)]
  | SwAdd m => [al_Sender m]
  | SwRemove m => [rl_Sender m]
  | SwOther => []
  end.

(** [time.After] on a block time given in nanoseconds since 1970.  [time.Unix]
    counts seconds from year 1, in 64 bits. *)
Definition unixToInternal : Z := 62135596800.
Definition deadline_passed (blockTime deadline : Z) : bool :=
  let ts := blockTime / 10^9 + unixToInternal in
  let us := wrap_int64 (deadline + unixToInternal) in
  (us <? ts) || ((us =? ts) && (0 <? blockTime mod 10^9)).

Definition swap_Handler (blockTime : Z) (msg : SwapMsg) : M St unit :=
  match msg with
  | SwSwap m => require (negb (deadline_passed blockTime (sw_Deadline m))) ErrInvalidDeadline ;;;
                HandleSwap m ;;; ret tt
  | SwAdd m => require (negb (deadline_passed blockTime (al_Deadline m))) ErrInvalidDeadline ;;;
               HandleAddLiquidity m
  | SwRemove m => require (negb (deadline_passed blockTime (rl_Deadline m))) ErrInvalidDeadline ;;;
                  HandleRemoveLiquidity m
  | SwOther => throw ErrUnknownRequest
  end.

(** ** Parameters and genesis *)
Definition swap_GetParams : M St SwapParams := gets sparams.
Definition swap_SetParams (p : SwapParams) : M St unit := modify (λ s, mkSwap (sbank s) p).
Definition swap_Init : M St unit := swap_SetParams DefaultParams.
Definition swap_InitGenesis (data : SwapParams) : M St unit :=
  match validateFee (Fee data) with
  | Ok _ => swap_SetParams data
  | _ => panic "panic for ValidateGenesis"
  end.
Definition swap_ExportGenesis : M St SwapParams := swap_GetParams.

(** ** Query (internal/keeper/querier.go) *)
Record LiquidityInfo := mkLiquidityInfo {
  q_Iris : Coin; q_Token : Coin; q_Liquidity : Coin; q_Fee : string }.
Definition queryLiquidity (id : string) : M St LiquidityInfo :=
  uniDenom <- lift (match GetUniDenom id with Err _ => Err ErrUnknownRequest | r => r end) ;;
  tokenDenom <- lift (match GetCoinMinDenomFromUniDenom uniDenom with
                      | Err _ => Err ErrUnknownRequest | r => r end) ;;
  reservePool <- GetReservePool id ;;
  iris <- lift (NewCoin IrisAtto (AmountOf reservePool IrisAtto)) ;;
  token <- lift (NewCoin tokenDenom (AmountOf reservePool tokenDenom)) ;;
  liquidity <- lift (NewCoin uniDenom (AmountOf reservePool uniDenom)) ;;
  p <- swap_GetParams ;;
  ret (mkLiquidityInfo iris token liquidity (DecimalString (Fee p) MaxFeePrecision)).
End keeper.
