(* ===== verification/ParamSets.v ===== *)
(** * Parameter sets (app/v1/params)

    The modules register the types of their parameters and how a value is read
    from the text of a proposal.  The parsers of packages strconv, math/big and
    time, the [Validate] methods of the modules, and the table of the sets that
    protocol v2 registers. *)

From Stdlib Require Import Ascii SpecFloat.
From S2P Require Import Prelude SdkErrors IntType GoStrings Regex Denom Coin Dec TimeBytes Rat Auth StdTx Mint StakeTypes Stake Slashing DistrTypes Service Asset Coinswap.
#[local] Open Scope Z_scope.

Module ParamSets.

(** ** Package math/big: [SetString(s, 0)] of Go 1.12 *)
Definition digit_of (c : ascii) : Z :=
  let n := byte_val c in
  if is_digit c then n - 48 else if is_lower c then n - 97 + 10 else if is_upper c then n - 65 + 10 else 36.
Fixpoint scan_base (base acc : Z) (l : list ascii) : option Z :=
  match l with
  | [] => Some acc
  | c :: l => if digit_of c <? base then scan_base base (acc * base + digit_of c) l else None
  end.
Definition scan_nat (l : list ascii) : option Z :=
  match l with
  | [] => None
  | "0"%char :: [] => Some 0
  | "0"%char :: ("x"%char | "X"%char) :: l => match l with [] => None | _ => scan_base 16 0 l end
  | "0"%char :: ("b"%char | "B"%char) :: l => match l with [] => None | _ => scan_base 2 0 l end
  | "0"%char :: l => scan_base 8 0 l
  | l => scan_base 10 0 l
  end.
Definition newIntegerFromString (s : string) : option Z :=
  match chars s with
  | "-"%char :: l => Z.opp <$> scan_nat l
  | "+"%char :: l => scan_nat l
  | l => scan_nat l
  end.
Definition NewIntFromString (s : string) : option Int :=
  match newIntegerFromString s with
  | Some i => if Z.abs i <? 2^255 then Some i else None
  | None => None
  end.

(** ** A coin (types/coin.go) *)
Fixpoint span {A} (p : A → bool) (l : list A) : list A * list A :=
  match l with
  | [] => ([], [])
  | x :: l' => if p x then let '(a, b) := span p l' in (x :: a, b) else ([], l)
  end.
(** [[0-9]+(\.[0-9]+)?]: the amount and what follows. *)
Definition amount_part (l : list ascii) : option (list ascii * list ascii) :=
  let '(whole, rest) := span is_digit l in
  match whole, rest with
  | [], _ => None
  | _, "."%char :: r =>
      let '(decs, r) := span is_digit r in
      match decs with [] => None | _ => Some (whole ++ "."%char :: decs, r) end
  | _, _ => Some (whole, rest)
  end.
Definition ParseCoin (coinStr : string) : Outcome Coin :=
  match amount_part (chars (ToLower (TrimSpace coinStr))) with
  | None => Err ErrUnknownRequest
  | Some (amountStr, rest) =>
      let denomStr := (span is_space rest).2 in
      if negb (re_match reDenom denomStr) then Err ErrUnknownRequest else
      match NewIntFromString (str amountStr) with
      | None => Err ErrUnknownRequest
      | Some amount => NewCoin (str denomStr) amount
      end
  end.

(** ** Package strconv *)
Definition ParseUint (s : string) (bits : Z) : option Z :=
  match parse_digits (chars s) with
  | Some n => if n <? 2^bits then Some n else None
  | None => None
  end.
Definition ParseInt (s : string) : option Z := let '(n, bad) := ParseInt64 s in if bad : bool then None else Some n.

(** ** Package time: [ParseDuration] of Go 1.12

    Fractions are computed in double precision. *)
Definition float64_of (n : Z) : spec_float := binary_normalize 53 1024 n 0 false.
Definition int64_of (f : spec_float) : Z :=
  match f with
  | S754_finite s m e => cond_Zopp s (if 0 <=? e then Zpos m * 2^e else Zpos m / 2^(- e))
  | _ => 0
  end.
Definition maxInt64 : Z := 2^63 - 1.
Fixpoint leadingInt (x : Z) (l : list ascii) : option (Z * list ascii) :=
  match l with
  | [] => Some (x, [])
  | c :: l' =>
      match digit_val c with
      | None => Some (x, l)
      | Some d =>
          if maxInt64 / 10 <? x then None else
          let x := x * 10 + d in if maxInt64 <? x then None else leadingInt x l'
      end
  end.
(** The scale is a power of ten below [2^64], which a double holds exactly. *)
Fixpoint leadingFraction (x scale : Z) (overflow : bool) (l : list ascii) : Z * Z * list ascii :=
  match l with
  | [] => (x, scale, [])
  | c :: l' =>
      match digit_val c with
      | None => (x, scale, l)
      | Some d =>
          if overflow || (maxInt64 / 10 <? x) || (maxInt64 <? x * 10 + d) then leadingFraction x scale true l'
          else leadingFraction (x * 10 + d) (scale * 10) false l'
      end
  end.
Definition Microsecond : Z := 1000.
Definition Millisecond : Z := 10^6.
Definition micro_sign : string := str [Ascii.ascii_of_N 194; Ascii.ascii_of_N 181; "s"%char].
Definition greek_mu : string := str [Ascii.ascii_of_N 206; Ascii.ascii_of_N 188; "s"%char].
Definition unitMap (u : string) : option Z :=
  if bool_decide (u = "ns") then Some 1 else
  if bool_decide (u = "us") || bool_decide (u = micro_sign) || bool_decide (u = greek_mu) then Some Microsecond else
  if bool_decide (u = "ms") then Some Millisecond else
  if bool_decide (u = "s") then Some Second else
  if bool_decide (u = "m") then Some (60 * Second) else
  if bool_decide (u = "h") then Some (3600 * Second) else None.
Definition is_number_char (c : ascii) : bool := is_digit c || bool_decide (c = "."%char).
Definition unit_part (l : list ascii) : list ascii * list ascii := span (λ c, negb (is_number_char c)) l.
(** The digits after the point, if there is one, and whether there are any. *)
Definition fraction_part (l : list ascii) : Z * Z * list ascii * bool :=
  match l with
  | "."%char :: r => let '(f, scale, r') := leadingFraction 0 1 false r in (f, scale, r', negb (length r =? length r')%nat)
  | _ => (0, 1, l, false)
  end.
(** One number with its unit; every round consumes a character. *)
Definition duration_term (l : list ascii) : option (Z * list ascii) :=
  match l with
  | [] => None
  | c :: _ =>
      if negb (is_number_char c) then None else
      match leadingInt 0 l with
      | None => None
      | Some (v, rest) =>
          let pre := negb (length l =? length rest)%nat in
          let '(f, scale, rest, post) := fraction_part rest in
          if negb (pre || post) then None else
          let '(u, rest) := unit_part rest in
          match u with
          | [] => None
          | _ =>
              match unitMap (str u) with
              | None => None
              | Some unit =>
                  if maxInt64 / unit <? v then None else
                  let v := v * unit in
                  let v := if 0 <? f then v + int64_of (SFmul 53 1024 (float64_of f) (SFdiv 53 1024 (float64_of unit) (float64_of scale))) else v in
                  if maxInt64 <? v then None else Some (v, rest)
              end
          end
      end
  end.
Fixpoint duration_terms (fuel : nat) (d : Z) (l : list ascii) : option Z :=
  match l with
  | [] => Some d
  | _ =>
      match fuel with
      | O => None
      | S fuel =>
          match duration_term l with
          | None => None
          | Some (v, rest) => if maxInt64 <? d + v then None else duration_terms fuel (d + v) rest
          end
      end
  end.
Definition ParseDuration (s : string) : option Z :=
  let '(neg, l) :=
    match chars s with
    | "-"%char :: l => (true, l)
    | "+"%char :: l => (false, l)
    | l => (false, l)
    end in
  if bool_decide (l = ["0"%char]) then Some 0 else
  if bool_decide (l = []) then None else
  d ← duration_terms (length l) 0 l; Some (if neg : bool then - d else d).

(** ** Values and types *)
Inductive ParamType := TDec | TInt64 | TUint64 | TUint16 | TInt | TDuration | TCoin | TCoins | TRat.
Inductive ParamValue :=
| VDec (d : Dec) | VInt64 (n : Z) | VUint64 (n : Z) | VUint16 (n : Z) | VInt (n : Int) | VDuration (n : Z)
| VCoin (c : Coin) | VCoins (c : Coins) | VRat (r : Rat).
#[export] Instance ParamType_eq_dec : EqDecision ParamType.
Proof. solve_decision. Defined.
Definition TypeOf (v : ParamValue) : ParamType :=
  match v with
  | VDec _ => TDec | VInt64 _ => TInt64 | VUint64 _ => TUint64 | VUint16 _ => TUint16 | VInt _ => TInt
  | VDuration _ => TDuration | VCoin _ => TCoin | VCoins _ => TCoins | VRat _ => TRat
  end.
(** A set of parameters (subspace/pair.go); a nil value is [None]. *)
Record ParamSet := mkParamSet {
  ps_Space : string; ps_Pairs : list (string * ParamType); ps_Validate : string → string → Outcome (option ParamValue) }.

(** ** The sets of the modules *)
Definition CodeInvalidKey : Z := 111.
Definition ErrInvalidString : Error := NewError params_DefaultCodespace 0.
Definition ErrInvalidKey : Error := NewError params_DefaultCodespace CodeInvalidKey.
(** Read a value, check it, return it. *)
Definition checked {A} (value : option A) (validate : A → Outcome unit) (wrap : A → ParamValue) : Outcome (option ParamValue) :=
  match value with
  | None => Err ErrInvalidString
  | Some a => let? _ := validate a in Ok (Some (wrap a))
  end.
Definition read_dec (s : string) : option Dec := match NewDecFromStr s with Ok d => Some d | _ => None end.
Definition read_coin (s : string) (validate : Coin → Outcome unit) : Outcome (option ParamValue) :=
  match ParseCoin s with
  | Panic w => Panic w
  | Err _ => Err ErrInvalidString
  | Ok fee => if bool_decide (denom fee ≠ IrisAtto) then Err ErrInvalidString else let? _ := validate fee in Ok (Some (VCoin fee))
  end.
Section sets.
(** Whether [sdk.NetworkType] is the main network. *)
Variable mainnet : bool.
Definition mint_Validate (key value : string) : Outcome (option ParamValue) := omap (λ d, Some (VDec d)) (Mint.Params_Validate key value).
Definition swap_Validate (key value : string) : Outcome (option ParamValue) := omap (λ r, Some (VRat r)) (Coinswap.Params_Validate key value).
Definition slashing_Validate (key value : string) : Outcome (option ParamValue) :=
  if bool_decide (key = "MaxEvidenceAge") then checked (ParseInt value) (Slashing.validateMaxEvidenceAge mainnet) VInt64 else
  if bool_decide (key = "SignedBlocksWindow") then checked (ParseInt value) Slashing.validateSignedBlocksWindow VInt64 else
  if bool_decide (key = "MinSignedPerWindow") then checked (read_dec value) Slashing.validateMinSignedPerWindow VDec else
  if bool_decide (key = "DoubleSignJailDuration") then checked (ParseDuration value) Slashing.validateDoubleSignJailDuration VDuration else
  if bool_decide (key = "DowntimeJailDuration") then checked (ParseDuration value) Slashing.validateDowntimeJailDuration VDuration else
  if bool_decide (key = "CensorshipJailDuration") then checked (ParseDuration value) Slashing.validateCensorshipJailDuration VDuration else
  if bool_decide (key = "SlashFractionDoubleSign") then checked (read_dec value) Slashing.validateFraction VDec else
  if bool_decide (key = "SlashFractionDowntime") then checked (read_dec value) Slashing.validateFraction VDec else
  if bool_decide (key = "SlashFractionCensorship") then checked (read_dec value) Slashing.validateFraction VDec else
  Err ErrInvalidKey.
Definition service_Validate (key value : string) : Outcome (option ParamValue) :=
  if bool_decide (key = "MaxRequestTimeout") then checked (ParseInt value) (Service.validateMaxRequestTimeout mainnet) VInt64 else
  if bool_decide (key = "MinDepositMultiple") then checked (ParseInt value) (Service.validateMinDepositMultiple mainnet) VInt64 else
  if bool_decide (key = "ServiceFeeTax") then checked (read_dec value) Service.validateServiceFeeTax VDec else
  if bool_decide (key = "SlashFraction") then checked (read_dec value) Service.validateSlashFraction VDec else
  if bool_decide (key = "ComplaintRetrospect") then checked (ParseDuration value) (Service.validateComplaintRetrospect mainnet) VDuration else
  if bool_decide (key = "ArbitrationTimeLimit") then checked (ParseDuration value) (Service.validateArbitrationTimeLimit mainnet) VDuration else
  if bool_decide (key = "TxSizeLimit") then checked (ParseUint value 64) Service.validateTxSizeLimit VUint64 else
  Err ErrInvalidKey.
Definition auth_Validate (key value : string) : Outcome (option ParamValue) :=
  if bool_decide (key = "gasPriceThreshold") then
    checked (NewIntFromString value)
      (λ threshold, if negb (Int_GT threshold MinimumGasPrice) || Int_GT threshold MaximumGasPrice
                    then Err (NewError params_DefaultCodespace CodeInvalidGasPriceThreshold) else Ok tt) VInt else
  if bool_decide (key = "txSizeLimit") then
    checked (ParseUint value 64)
      (λ txsize, if (txsize <? MinimumTxSizeLimit) || (MaximumTxSizeLimit <? txsize)
                 then Err (NewError params_DefaultCodespace CodeInvalidTxSizeLimit) else Ok tt) VUint64 else
  Err ErrInvalidKey.
Definition stake_Validate (key value : string) : Outcome (option ParamValue) :=
  if bool_decide (key = "UnbondingTime") then checked (ParseDuration value) (StakeTypes.validateUnbondingTime mainnet) VDuration else
  if bool_decide (key = "MaxValidators") then checked (ParseUint value 16) (StakeTypes.validateMaxValidators mainnet) VUint16 else
  Err ErrInvalidKey.
Definition distr_Validate (key value : string) : Outcome (option ParamValue) :=
  if bool_decide (key = "CommunityTax") then checked (read_dec value) DistrTypes.validateCommunityTax VDec else
  if bool_decide (key = "BaseProposerReward") then checked (read_dec value) DistrTypes.validateBaseProposerReward VDec else
  if bool_decide (key = "BonusProposerReward") then checked (read_dec value) DistrTypes.validateBonusProposerReward VDec else
  Err ErrInvalidKey.
Definition asset_Validate (key value : string) : Outcome (option ParamValue) :=
  if bool_decide (key = "AssetTaxRate") then checked (read_dec value) (Asset.validate_ratio 900) VDec else
  if bool_decide (key = "IssueTokenBaseFee") then read_coin value (Asset.validate_fee 903) else
  if bool_decide (key = "MintTokenFeeRatio") then checked (read_dec value) (Asset.validate_ratio 901) VDec else
  if bool_decide (key = "CreateGatewayBaseFee") then read_coin value (Asset.validate_fee 904) else
  if bool_decide (key = "GatewayAssetFeeRatio") then checked (read_dec value) (Asset.validate_ratio 902) VDec else
  Err ErrInvalidKey.
(** The parameters of governance are read only, and the check says nothing. *)
Definition gov_Validate (key value : string) : Outcome (option ParamValue) := Ok None.
Definition gov_level_pairs (level : string) : list (string * ParamType) :=
  [(level +:+ "DepositPeriod", TDuration); (level +:+ "MinDeposit", TCoins); (level +:+ "VotingPeriod", TDuration);
   (level +:+ "MaxNum", TUint64); (level +:+ "Threshold", TDec); (level +:+ "Veto", TDec); (level +:+ "Participation", TDec);
   (level +:+ "Penalty", TDec)].
Definition gov_pairs : list (string * ParamType) :=
  gov_level_pairs "Critical" ++ gov_level_pairs "Important" ++ gov_level_pairs "Normal" ++ [("SystemHaltPeriod", TInt64)].

(** ** What protocol v2 registers (protocol_v2.go) *)
Definition configParams : list ParamSet :=
  [mkParamSet "mint" [("Inflation", TDec)] mint_Validate;
   mkParamSet "slashing"
     [("MaxEvidenceAge", TInt64); ("SignedBlocksWindow", TInt64); ("MinSignedPerWindow", TDec); ("DoubleSignJailDuration", TDuration);
      ("DowntimeJailDuration", TDuration); ("CensorshipJailDuration", TDuration); ("SlashFractionDoubleSign", TDec);
      ("SlashFractionDowntime", TDec); ("SlashFractionCensorship", TDec)] slashing_Validate;
   mkParamSet "service"
     [("MaxRequestTimeout", TInt64); ("MinDepositMultiple", TInt64); ("ServiceFeeTax", TDec); ("SlashFraction", TDec);
      ("ComplaintRetrospect", TDuration); ("ArbitrationTimeLimit", TDuration); ("TxSizeLimit", TUint64)] service_Validate;
   mkParamSet "auth" [("gasPriceThreshold", TInt); ("txSizeLimit", TUint64)] auth_Validate;
   mkParamSet "stake" [("UnbondingTime", TDuration); ("MaxValidators", TUint16)] stake_Validate;
   mkParamSet "distr" [("CommunityTax", TDec); ("BaseProposerReward", TDec); ("BonusProposerReward", TDec)] distr_Validate;
   mkParamSet "asset"
     [("AssetTaxRate", TDec); ("IssueTokenBaseFee", TCoin); ("MintTokenFeeRatio", TDec); ("CreateGatewayBaseFee", TCoin);
      ("GatewayAssetFeeRatio", TDec)] asset_Validate;
   mkParamSet "gov" gov_pairs gov_Validate;
   mkParamSet "coinswap" [("fee", TRat)] swap_Validate].
Fixpoint find_set (space : string) (l : list ParamSet) : option ParamSet :=
  match l with
  | [] => None
  | ps :: l => if bool_decide (ps_Space ps = space) then Some ps else find_set space l
  end.
Definition GetParamSet (paramSpace : string) : option ParamSet := find_set paramSpace configParams.
Fixpoint assoc {A} (key : string) (l : list (string * A)) : option A :=
  match l with
  | [] => None
  | (k, a) :: l => if bool_decide (k = key) then Some a else assoc key l
  end.
(** The checks of [Subspace.Set]: the key is registered, the value is not nil and
    has the type of the key. *)
Definition Subspace_check (ps : ParamSet) (key : string) (value : option ParamValue) : Outcome ParamValue :=
  match assoc key (ps_Pairs ps) with
  | None => Panic "Parameter not registered"
  | Some ty =>
      match value with
      | None => Panic "invalid memory address or nil pointer dereference"
      | Some v => if bool_decide (TypeOf v ≠ ty) then Panic "Type mismatch with registered table" else Ok v
      end
  end.
End sets.

(** ** The fuel of [ParseDuration] is enough: a round reads a character *)
Lemma span_length {A} (p : A → bool) l : (length (span p l).1 + length (span p l).2 = length l)%nat.
Proof. induction l as [|x l IH]; [done|]. simpl. destruct (p x); [|done]. destruct (span p l); simpl in *. lia. Qed.
Lemma leadingInt_length x l v r : leadingInt x l = Some (v, r) → (length r ≤ length l)%nat.
Proof.
  revert x. induction l as [|c l IH]; simpl; intros x Hr; [by simplify_eq|]. repeat case_match; simplify_eq; simpl; try lia.
  etrans; [by eapply IH|lia].
Qed.
Lemma leadingFraction_length x scale o l : (length (leadingFraction x scale o l).2 ≤ length l)%nat.
Proof. revert x scale o. induction l as [|c l IH]; intros x scale o; [done|]. simpl. repeat case_match; simpl; try lia; etrans; [apply IH|lia|apply IH|lia]. Qed.
Lemma fraction_part_length l f scale r post : fraction_part l = (f, scale, r, post) → (length r ≤ length l)%nat.
Proof.
  intros Hf. unfold fraction_part in Hf. destruct l as [|c l]; [by simplify_eq|]. pose proof (leadingFraction_length 0 1 false l) as Hl.
  destruct (leadingFraction 0 1 false l) as [[f' s'] r']. simpl in Hl. repeat case_match; simplify_eq; simpl; lia.
Qed.
Lemma duration_term_length l v r : duration_term l = Some (v, r) → (length r < length l)%nat.
Proof.
  destruct l as [|c l]; [done|]. unfold duration_term. case_match; [done|]. destruct (leadingInt 0 (c :: l)) as [[x rest]|] eqn:Ei; [|done].
  apply leadingInt_length in Ei. intros Hr.
  destruct (fraction_part rest) as [[[f scale] rest'] post] eqn:Ef. apply fraction_part_length in Ef.
  case_match; [done|]. unfold unit_part in Hr. pose proof (span_length (λ c, negb (is_number_char c)) rest') as Hs.
  destruct (span _ rest') as [[|u us] rest2]; [done|]. simpl in Hs, Hr. repeat case_match; simplify_eq; simpl in *; lia.
Qed.
Lemma duration_terms_enough fuel fuel' d l :
  (length l ≤ fuel)%nat → (length l ≤ fuel')%nat → duration_terms fuel d l = duration_terms fuel' d l.
Proof.
  revert fuel' d l. induction fuel as [|fuel IH]; intros fuel' d l Hf Hf'; destruct l as [|c l]; [by destruct fuel'|simpl in Hf; lia|by destruct fuel'|].
  destruct fuel' as [|fuel']; [simpl in Hf'; lia|]. cbn [duration_terms]. destruct (duration_term (c :: l)) as [[v r]|] eqn:Et; [|done].
  apply duration_term_length in Et. case_match; [done|]. apply IH; lia.
Qed.

(** ** What the parsers read *)
Lemma parse_examples :
  ParseDuration "336h0m0s" = Some (14 * 24 * 3600 * Second) ∧ ParseDuration "1.5h" = Some (5400 * Second) ∧
  ParseDuration "-.25s" = Some (- 250 * Millisecond) ∧ ParseDuration "0.1ms" = Some 100000 ∧ ParseDuration "3" = None ∧ ParseDuration "" = None ∧
  NewIntFromString "0x10" = Some 16 ∧ NewIntFromString "010" = Some 8 ∧ NewIntFromString "08" = None ∧
  ParseCoin "100iris-atto" = Ok (mkCoin IrisAtto 100) ∧ ParseCoin "1.5iris" = Err ErrUnknownRequest.
Proof. vm_compute. split_and!; reflexivity. Qed.
End ParamSets.
