(* ===== verification/Upgrade.v ===== *)
(** * Upgrades of the protocol (types/protocol.go, app/v1/upgrade)

    The protocol keeper has the current version, the last version whose switch
    failed, and the upgrade that is waiting.  While one waits, the proposer of a
    block signals whether it runs the new software; the block before the switch
    counts the voting power behind the signals. *)

From Stdlib Require Import Ascii.
From S2P Require Import Prelude SdkErrors IntType GoStrings Denom Coin Dec Frame KVStore Auth Bank StakeTypes Stake StakeFacts StakeInv StakeFrame Chain.
#[local] Open Scope Z_scope.

Module Upgrade.
Import StakeTypes Stake StakeInv Chain.

(** ** The protocol keeper (types/protocol.go) *)
Record ProtocolDefinition := mkProtocolDefinition { pd_Version : Z; pd_Software : string; pd_Height : Z; pd_Threshold : Dec }.
Record UpgradeConfig := mkUpgradeConfig { uc_ProposalID : Z; uc_Protocol : ProtocolDefinition }.
Definition DefaultUpgradeConfig (protocolId : Z) (software : string) : UpgradeConfig :=
  mkUpgradeConfig 0 (mkProtocolDefinition protocolId software 1 (9 * 10^9)).
Record ProtocolStore := mkProtocol {
  upgrade_config : option UpgradeConfig; current_version : option Z; last_failed_version : option Z }.
Abbreviation PM := (M ProtocolStore).
Definition GetCurrentVersion : PM Z := gets (λ s, default 0 (current_version s)).
Definition SetCurrentVersion (v : Z) : PM unit := modify (λ s, mkProtocol (upgrade_config s) (Some v) (last_failed_version s)).
Definition GetLastFailedVersion : PM Z := gets (λ s, default 0 (last_failed_version s)).
Definition SetLastFailedVersion (v : Z) : PM unit := modify (λ s, mkProtocol (upgrade_config s) (current_version s) (Some v)).
Definition GetUpgradeConfig : PM (option UpgradeConfig) := gets upgrade_config.
Definition SetUpgradeConfig (c : UpgradeConfig) : PM unit := modify (λ s, mkProtocol (Some c) (current_version s) (last_failed_version s)).
Definition ClearUpgradeConfig : PM unit := modify (λ s, mkProtocol None (current_version s) (last_failed_version s)).
Definition isValidVersion (currentVersion lastFailedVersion version : Z) : bool :=
  if lastFailedVersion <=? currentVersion then wrap64 (currentVersion + 1) =? version
  else (lastFailedVersion =? version) || (wrap64 (lastFailedVersion + 1) =? version).
Definition IsValidVersion (version : Z) : PM bool :=
  currentVersion <- GetCurrentVersion ;;
  lastFailedVersion <- GetLastFailedVersion ;;
  ret (isValidVersion currentVersion lastFailedVersion version).

(** ** Keys (keeper_keys.go) *)
(** [strconv.FormatUint(i, 16)]; a number of 64 bits has at most 16 digits. *)
Fixpoint format_hex (fuel : nat) (i : Z) (acc : list ascii) : list ascii :=
  match fuel with
  | O => acc
  | S fuel => let acc := hex_digit (i mod 16) :: acc in if i <? 16 then acc else format_hex fuel (i / 16) acc
  end.
Definition UintToHexString (i : Z) : string :=
  let hex := format_hex 16 i [] in str (repeat "0"%char (16 - length hex) ++ hex).
Definition GetProposalIDKey (proposalID : Z) : string := "p/" +:+ UintToHexString proposalID.
Definition GetSuccessVersionKey (versionID : Z) : string := "success/" +:+ UintToHexString versionID.
Definition GetFailedVersionKey (versionID proposalID : Z) : string :=
  "failed/" +:+ UintToHexString versionID +:+ "/" +:+ UintToHexString proposalID.
Definition GetSignalKey (versionID : Z) (switchVoterAddr : string) : string :=
  "s/" +:+ UintToHexString versionID +:+ "/" +:+ switchVoterAddr.

(** ** The keeper (keeper.go, types.go) *)
Record VersionInfo := mkVersionInfo { vi_UpgradeInfo : UpgradeConfig; vi_Success : bool }.
(** The entries of a version, of a success, of a failure and of a signal. *)
Record UpgradeStore := mkUpgradeStore {
  up_versions : gmap string VersionInfo; up_success : gmap string Z; up_failed : gmap string Z; up_signals : gmap string bool }.
Record UpgradeState := mkUpgrade { up_chain : ChainState; up_protocol : ProtocolStore; up_store : UpgradeStore }.

Section keeper.
Context `{Crypto, ConsCrypto}.
(** The bech32 text of a consensus address. *)
Variable cons_String : ConsAddress → string.
Abbreviation UM := (M UpgradeState).
Definition on_chain {A} (c : M ChainState A) : UM A := zoom up_chain (λ x s, mkUpgrade x (up_protocol s) (up_store s)) c.
Definition on_protocol {A} (c : PM A) : UM A := zoom up_protocol (λ x s, mkUpgrade (up_chain s) x (up_store s)) c.
Definition on_store {A} (c : M UpgradeStore A) : UM A := zoom up_store (λ x s, mkUpgrade (up_chain s) (up_protocol s) x) c.

Definition AddNewVersionInfo (v : VersionInfo) : M UpgradeStore unit :=
  let id := uc_ProposalID (vi_UpgradeInfo v) in
  let version := pd_Version (uc_Protocol (vi_UpgradeInfo v)) in
  modify (λ s, mkUpgradeStore (<[GetProposalIDKey id := v]> (up_versions s)) (up_success s) (up_failed s) (up_signals s)) ;;;
  if vi_Success v
  then modify (λ s, mkUpgradeStore (up_versions s) (<[GetSuccessVersionKey version := id]> (up_success s)) (up_failed s) (up_signals s))
  else modify (λ s, mkUpgradeStore (up_versions s) (up_success s) (<[GetFailedVersionKey version id := id]> (up_failed s)) (up_signals s)).
Definition set_signals (f : gmap string bool → gmap string bool) (s : UpgradeStore) : UpgradeStore :=
  mkUpgradeStore (up_versions s) (up_success s) (up_failed s) (f (up_signals s)).
Definition SetSignal (protocol : Z) (address : string) : M UpgradeStore unit :=
  modify (set_signals (insert (GetSignalKey protocol address) true)).
Definition GetSignal (protocol : Z) (address : string) : M UpgradeStore bool :=
  gets (λ s, bool_decide (is_Some (up_signals s !! GetSignalKey protocol address))).
Definition DeleteSignal (protocol : Z) (address : string) : M UpgradeStore bool :=
  ok <- GetSignal protocol address ;;
  if ok : bool then modify (set_signals (delete (GetSignalKey protocol address))) ;;; ret true else ret false.

(** ** The count (tally.go) *)
Fixpoint tally_loop (versionProtocol : Z) (vals : list Validator) (totalVotingPower signalsVotingPower : Dec) : UM (Dec * Dec) :=
  match vals with
  | [] => ret (totalVotingPower, signalsVotingPower)
  | v :: vals =>
      power <- lift (GetPower v) ;;
      totalVotingPower <- lift (Dec_Add totalVotingPower power) ;;
      ok <- on_store (GetSignal versionProtocol (cons_String (ConsAddr v))) ;;
      signalsVotingPower <- lift (if ok : bool then Dec_Add signalsVotingPower power else Ok signalsVotingPower) ;;
      tally_loop versionProtocol vals totalVotingPower signalsVotingPower
  end.
Definition tally (versionProtocol : Z) (threshold : Dec) : UM bool :=
  vals <- on_chain GetBondedValidatorsByPower ;;
  r <- tally_loop versionProtocol vals ZeroDec ZeroDec ;;
  rate <- lift (Dec_Quo r.2 r.1) ;;
  ret (Dec_GT rate threshold).

(** ** End of a block (abci.go)

    The proposer and the version of the software are those of the header of the
    block; the result is the version of the tag. *)
Definition EndBlocker (ctx : Ctx) (proposerAddress : ConsAddress) (appVersion : Z) : UM Z :=
  upgradeConfig <- on_protocol GetUpgradeConfig ;;
  match upgradeConfig with
  | None => ret tt
  | Some c =>
      let version := pd_Version (uc_Protocol c) in
      v <- on_chain (GetValidatorByConsAddr proposerAddress) ;;
      match v with
      | None => panic "validator with consensus-address not found"
      | Some v =>
          (if appVersion =? version then on_store (SetSignal version (cons_String (ConsAddr v)))
           else on_store (DeleteSignal version (cons_String (ConsAddr v))) ;;; ret tt) ;;;
          if wrap64 (wrap64 (BlockHeight ctx) + 1) =? pd_Height (uc_Protocol c) then
            success <- tally version (pd_Threshold (uc_Protocol c)) ;;
            (if success : bool then on_protocol (SetCurrentVersion version) else on_protocol (SetLastFailedVersion version)) ;;;
            on_store (AddNewVersionInfo (mkVersionInfo c success)) ;;;
            on_protocol ClearUpgradeConfig
          else ret tt
      end
  end ;;;
  on_protocol GetCurrentVersion.

(** ** Genesis (genesis.go) *)
Definition InitGenesis (genesisVersion : VersionInfo) : UM unit :=
  on_store (AddNewVersionInfo genesisVersion) ;;;
  on_protocol ClearUpgradeConfig ;;;
  on_protocol (SetCurrentVersion (pd_Version (uc_Protocol (vi_UpgradeInfo genesisVersion)))).
(** [software] is the page of the release. *)
Definition ExportGenesis (protocolVersion : Z) (software : string) : VersionInfo :=
  mkVersionInfo (DefaultUpgradeConfig protocolVersion software) true.
End keeper.
(** Sixteen digits are enough for 64 bits. *)
Lemma format_hex_enough fuel fuel' i acc : 0 ≤ i < 16 ^ Z.of_nat (S fuel) → format_hex (S fuel + fuel') i acc = format_hex (S fuel) i acc.
Proof.
  revert i acc. induction fuel as [|fuel IH]; intros i acc Hi; cbn [Nat.add format_hex]; destruct (i <? 16) eqn:E; zbool; try done; [lia|].
  apply IH. split; [apply Z.div_pos; lia|]. apply Z.div_lt_upper_bound; [lia|]. rewrite (Nat2Z.inj_succ (S fuel)), Z.pow_succ_r in Hi; lia.
Qed.
Lemma hex_examples :
  UintToHexString 0 = "0000000000000000" ∧ UintToHexString 255 = "00000000000000ff" ∧ UintToHexString (2^64 - 1) = "ffffffffffffffff".
Proof. vm_compute. split_and!; reflexivity. Qed.
End Upgrade.
