(* ===== verification/GovTypes.v ===== *)
(** * Governance: types (app/v1/gov)

    The proposals and their kinds, levels and states, the votes and deposits, the
    messages and their checks, the parameters and their checks, and the keys of the
    store. *)

From Stdlib Require Import Ascii.
From S2P Require Import Prelude SdkErrors IntType GoStrings Denom Coin Dec TimeBytes Auth StdTx Mint StakeTypes Asset ParamSets Upgrade.
#[local] Open Scope Z_scope.

Module GovTypes.
Import StakeTypes ParamSets.

(** ** Errors (errors.go) *)
Definition DefaultCodespace : string := "gov".
Definition gov_err (c : Z) : Error := NewError DefaultCodespace c.
Definition ErrUnknownProposal : Error := gov_err 1.
Definition ErrInactiveProposal : Error := gov_err 2.
Definition ErrInvalidTitle : Error := gov_err 6.
Definition ErrInvalidDescription : Error := gov_err 7.
Definition ErrInvalidProposalType : Error := gov_err 8.
Definition ErrInvalidVote : Error := gov_err 9.
(** With the code of an invalid vote. *)
Definition ErrInvalidGenesis : Error := gov_err 9.
Definition ErrInvalidParam : Error := gov_err 12.
Definition ErrSwitchPeriodInProcess : Error := gov_err 14.
Definition ErrInvalidPercent : Error := gov_err 15.
Definition ErrInvalidUsageType : Error := gov_err 16.
Definition ErrNotTrustee : Error := gov_err 17.
Definition ErrNotProfiler : Error := gov_err 17.
Definition ErrCodeInvalidVersion : Error := gov_err 18.
Definition ErrCodeInvalidSwitchHeight : Error := gov_err 18.
(** [sdk.ErrInvalidLength] with [CodeInvalidProposal]. *)
Definition ErrInvalidLength : Error := gov_err 19.
Definition ErrNotEnoughInitialDeposit : Error := gov_err 20.
Definition ErrCodeDepositDeleted : Error := gov_err 21.
Definition ErrCodeVoteNotExisted : Error := gov_err 22.
Definition ErrCodeDepositNotExisted : Error := gov_err 23.
Definition ErrNotInDepositPeriod : Error := gov_err 24.
Definition ErrAlreadyVote : Error := gov_err 25.
Definition ErrOnlyValidatorOrDelegatorVote : Error := gov_err 26.
Definition ErrMoreThanMaxProposal : Error := gov_err 27.
Definition ErrInvalidUpgradeThreshold : Error := gov_err 28.
Definition ErrEmptyParam : Error := gov_err 29.
Definition ErrInvalidParamNum : Error := gov_err 30.

(** ** Kinds, levels and states of proposals (proposals.go, govparams_util.go) *)
Inductive ProposalLevel := ProposalLevelNil | ProposalLevelCritical | ProposalLevelImportant | ProposalLevelNormal.
Inductive ProposalStatus := StatusNil | StatusDepositPeriod | StatusVotingPeriod | StatusPassed | StatusRejected.
#[export] Instance ProposalLevel_dec : EqDecision ProposalLevel.
Proof. solve_decision. Defined.
#[export] Instance ProposalStatus_dec : EqDecision ProposalStatus.
Proof. solve_decision. Defined.
(** A kind is a byte, and any byte can be in a message. *)
Definition ProposalTypeParameter : Z := 1.
Definition ProposalTypeSoftwareUpgrade : Z := 2.
Definition ProposalTypeSystemHalt : Z := 3.
Definition ProposalTypeCommunityTaxUsage : Z := 4.
Definition ProposalTypePlainText : Z := 5.
Definition ProposalTypeTokenAddition : Z := 6.
Record pTypeInfo := mkInfo { pt_Type : Z; pt_Level : ProposalLevel }.
Definition pTypeMap : list (string * pTypeInfo) :=
  [("PlainText", mkInfo ProposalTypePlainText ProposalLevelNormal);
   ("Parameter", mkInfo ProposalTypeParameter ProposalLevelImportant);
   ("SoftwareUpgrade", mkInfo ProposalTypeSoftwareUpgrade ProposalLevelCritical);
   ("SystemHalt", mkInfo ProposalTypeSystemHalt ProposalLevelCritical);
   ("CommunityTaxUsage", mkInfo ProposalTypeCommunityTaxUsage ProposalLevelImportant);
   ("TokenAddition", mkInfo ProposalTypeTokenAddition ProposalLevelImportant)].
Fixpoint kind_name (pt : Z) (l : list (string * pTypeInfo)) : string :=
  match l with
  | [] => ""
  | (k, v) :: l => if pt_Type v =? pt then k else kind_name pt l
  end.
Definition ProposalKind_String (pt : Z) : string := kind_name pt pTypeMap.
Definition ValidProposalType (pt : Z) : bool := bool_decide (is_Some (assoc (ProposalKind_String pt) pTypeMap)).
Definition ProposalTypeFromString (s : string) : option Z := pt_Type <$> assoc s pTypeMap.
Definition GetProposalLevel (pt : Z) : ProposalLevel :=
  match assoc (ProposalKind_String pt) pTypeMap with Some i => pt_Level i | None => ProposalLevelNil end.
Definition ProposalStatusFromString (s : string) : option ProposalStatus :=
  assoc s [("DepositPeriod", StatusDepositPeriod); ("VotingPeriod", StatusVotingPeriod); ("Passed", StatusPassed); ("Rejected", StatusRejected)].
Definition ValidProposalStatus (status : ProposalStatus) : bool := negb (bool_decide (status = StatusNil)).

(** ** Votes and deposits (depositsvotes.go) *)
Definition OptionEmpty : Z := 0.
Definition OptionYes : Z := 1.
Definition OptionAbstain : Z := 2.
Definition OptionNo : Z := 3.
Definition OptionNoWithVeto : Z := 4.
Definition ValidVoteOption (option : Z) : bool :=
  (option =? OptionYes) || (option =? OptionAbstain) || (option =? OptionNo) || (option =? OptionNoWithVeto).
Record Vote := mkVote { vt_Voter : AccAddress; vt_ProposalID : Z; vt_Option : Z }.
Record Deposit := mkDeposit { dp_Depositor : AccAddress; dp_ProposalID : Z; dp_Amount : Coins }.

(** ** Proposals (proposals.go, proposal_*.go) *)
Record TallyResult := mkTallyResult { tr_Yes : Dec; tr_Abstain : Dec; tr_No : Dec; tr_NoWithVeto : Dec; tr_SystemVotingPower : Dec }.
Definition EmptyTallyResult : TallyResult := mkTallyResult ZeroDec ZeroDec ZeroDec ZeroDec ZeroDec.
Record BasicProposal := mkBasic {
  bp_ProposalID : Z; bp_Title : string; bp_Description : string; bp_ProposalType : Z; bp_Status : ProposalStatus;
  bp_TallyResult : TallyResult; bp_SubmitTime : Z; bp_DepositEndTime : Z; bp_TotalDeposit : Coins;
  bp_VotingStartTime : Z; bp_VotingEndTime : Z; bp_Proposer : AccAddress }.
Definition UsageTypeBurn : Z := 1.
Definition UsageTypeDistribute : Z := 2.
Definition UsageTypeGrant : Z := 3.
Definition ValidUsageType (ut : Z) : bool := (ut =? UsageTypeBurn) || (ut =? UsageTypeDistribute) || (ut =? UsageTypeGrant).
Record TaxUsage := mkTaxUsage { tu_Usage : Z; tu_DestAddress : AccAddress; tu_Percent : Dec }.
Record Param := mkParam { pr_Subspace : string; pr_Key : string; pr_Value : string }.
Inductive Body :=
| PlainText
| Parameters (params : list Param)
| SoftwareUpgrade (p : Upgrade.ProtocolDefinition)
| SystemHalt
| CommunityTaxUsage (u : TaxUsage)
| TokenAddition (t : Asset.FungibleToken).
(** A proposal of one of the types, around the basic one. *)
Record Proposal := mkProposal { pp_Basic : BasicProposal; pp_Body : Body }.
Definition GetProposalID (p : Proposal) : Z := bp_ProposalID (pp_Basic p).
Definition GetStatus (p : Proposal) : ProposalStatus := bp_Status (pp_Basic p).
Definition GetTotalDeposit (p : Proposal) : Coins := bp_TotalDeposit (pp_Basic p).
Definition GetDepositEndTime (p : Proposal) : Z := bp_DepositEndTime (pp_Basic p).
Definition GetVotingEndTime (p : Proposal) : Z := bp_VotingEndTime (pp_Basic p).
Definition GetProposer (p : Proposal) : AccAddress := bp_Proposer (pp_Basic p).
Definition proposal_Level (p : Proposal) : ProposalLevel := GetProposalLevel (bp_ProposalType (pp_Basic p)).
Definition on_basic (f : BasicProposal → BasicProposal) (p : Proposal) : Proposal := mkProposal (f (pp_Basic p)) (pp_Body p).
Definition SetStatus (st : ProposalStatus) : Proposal → Proposal := on_basic (λ b,
  mkBasic (bp_ProposalID b) (bp_Title b) (bp_Description b) (bp_ProposalType b) st (bp_TallyResult b) (bp_SubmitTime b)
    (bp_DepositEndTime b) (bp_TotalDeposit b) (bp_VotingStartTime b) (bp_VotingEndTime b) (bp_Proposer b)).
Definition SetTallyResult (t : TallyResult) : Proposal → Proposal := on_basic (λ b,
  mkBasic (bp_ProposalID b) (bp_Title b) (bp_Description b) (bp_ProposalType b) (bp_Status b) t (bp_SubmitTime b)
    (bp_DepositEndTime b) (bp_TotalDeposit b) (bp_VotingStartTime b) (bp_VotingEndTime b) (bp_Proposer b)).
Definition SetTotalDeposit (c : Coins) : Proposal → Proposal := on_basic (λ b,
  mkBasic (bp_ProposalID b) (bp_Title b) (bp_Description b) (bp_ProposalType b) (bp_Status b) (bp_TallyResult b) (bp_SubmitTime b)
    (bp_DepositEndTime b) c (bp_VotingStartTime b) (bp_VotingEndTime b) (bp_Proposer b)).
(** The identifier and the times that submission fills in. *)
Definition SetSubmission (id submitTime depositEndTime : Z) : Proposal → Proposal := on_basic (λ b,
  mkBasic id (bp_Title b) (bp_Description b) (bp_ProposalType b) (bp_Status b) (bp_TallyResult b) submitTime
    depositEndTime (bp_TotalDeposit b) (bp_VotingStartTime b) (bp_VotingEndTime b) (bp_Proposer b)).
Definition SetVotingTimes (start stop : Z) : Proposal → Proposal := on_basic (λ b,
  mkBasic (bp_ProposalID b) (bp_Title b) (bp_Description b) (bp_ProposalType b) (bp_Status b) (bp_TallyResult b) (bp_SubmitTime b)
    (bp_DepositEndTime b) (bp_TotalDeposit b) start stop (bp_Proposer b)).

(** ** Messages (msgs.go) *)
Record MsgSubmitProposal := mkSubmit {
  sp_Title : string; sp_Description : string; sp_ProposalType : Z; sp_Proposer : AccAddress; sp_InitialDeposit : Coins;
  sp_Params : list Param }.
(** The messages that submit; the others embed the first.  A missing decimal is
    [None]. *)
Inductive Content :=
| Submit (m : MsgSubmitProposal)
| SubmitSoftwareUpgrade (m : MsgSubmitProposal) (Version : Z) (Software : string) (SwitchHeight : Z) (Threshold : option Dec)
| SubmitCommunityTaxUsage (m : MsgSubmitProposal) (Usage : Z) (DestAddress : AccAddress) (Percent : option Dec)
| SubmitTokenAddition (m : MsgSubmitProposal) (Symbol CanonicalSymbol Name : string) (Decimal : Z) (MinUnitAlias : string).
Definition content_msg (c : Content) : MsgSubmitProposal :=
  match c with
  | Submit m | SubmitSoftwareUpgrade m _ _ _ _ | SubmitCommunityTaxUsage m _ _ _ | SubmitTokenAddition m _ _ _ _ _ => m
  end.
Record MsgDeposit := mkMsgDeposit { md_ProposalID : Z; md_Depositor : AccAddress; md_Amount : Coins }.
Record MsgVote := mkMsgVote { mv_ProposalID : Z; mv_Voter : AccAddress; mv_Option : Z }.
Inductive GovMsg := SubmitMsg (c : Content) | DepositMsg (m : MsgDeposit) | VoteMsg (m : MsgVote) | OtherMsg.

Definition EnsureLength (m : MsgSubmitProposal) : Outcome unit :=
  if (70 <? str_len (sp_Title m))%nat then Err ErrInvalidLength else
  if (280 <? str_len (sp_Description m))%nat then Err ErrInvalidLength else Ok tt.
Definition MsgSubmitProposal_ValidateBasic (m : MsgSubmitProposal) : Outcome unit :=
  if bool_decide (sp_Title m = "") then Err ErrInvalidTitle else
  if bool_decide (sp_Description m = "") then Err ErrInvalidDescription else
  if negb (ValidProposalType (sp_ProposalType m)) then Err ErrInvalidProposalType else
  if bool_decide (sp_Proposer m = "") then Err ErrInvalidAddress else
  if negb (Coins_IsValidIrisAtto (sp_InitialDeposit m)) then Err ErrInvalidCoins else
  let? _ := EnsureLength m in
  if sp_ProposalType m =? ProposalTypeParameter then
    match sp_Params m with [] => Err ErrEmptyParam | [_] => Ok tt | _ => Err ErrInvalidParamNum end
  else Ok tt.
Definition Content_ValidateBasic (c : Content) : Outcome unit :=
  let? _ := MsgSubmitProposal_ValidateBasic (content_msg c) in
  match c with
  | Submit _ => Ok tt
  | SubmitSoftwareUpgrade _ _ software _ threshold =>
      if (70 <? str_len software)%nat then Err ErrInvalidLength else
      match threshold with
      | None => Err ErrInvalidUpgradeThreshold
      | Some t =>
          let? lo := NewDecWithPrec 80 2 in let? hi := NewDec 1 in
          if Dec_LT t lo || Dec_GTE t hi then Err ErrInvalidUpgradeThreshold else Ok tt
      end
  | SubmitCommunityTaxUsage _ usage dest percent =>
      if negb (ValidUsageType usage) then Err ErrInvalidUsageType else
      if negb (usage =? UsageTypeBurn) && bool_decide (dest = "") then Err ErrInvalidAddress else
      match percent with
      | None => Err ErrInvalidPercent
      | Some p =>
          let? lo := NewDec 0 in let? hi := NewDec 1 in
          if Dec_LTE p lo || Dec_GT p hi then Err ErrInvalidPercent else Ok tt
      end
  | SubmitTokenAddition _ symbol canonical name decimal alias =>
      Asset.ValidateMsgIssueToken
        (Asset.mkIssue Asset.FUNGIBLE Asset.EXTERNAL "" symbol canonical name decimal alias 0 Asset.MaximumAssetMaxSupply true "")
  end.
Definition MsgDeposit_ValidateBasic (m : MsgDeposit) : Outcome unit :=
  if bool_decide (md_Depositor m = "") then Err ErrInvalidAddress else
  if negb (Coins_IsValidIrisAtto (md_Amount m)) then Err ErrInvalidCoins else Ok tt.
Definition MsgVote_ValidateBasic (m : MsgVote) : Outcome unit :=
  if bool_decide (mv_Voter m = "") then Err ErrInvalidAddress else
  if negb (ValidVoteOption (mv_Option m)) then Err ErrInvalidVote else Ok tt.
Definition GovMsg_ValidateBasic (msg : GovMsg) : Outcome unit :=
  match msg with
  | SubmitMsg c => Content_ValidateBasic c
  | DepositMsg m => MsgDeposit_ValidateBasic m
  | VoteMsg m => MsgVote_ValidateBasic m
  | OtherMsg => Ok tt
  end.
Definition GovMsg_GetSigners (msg : GovMsg) : list AccAddress :=
  match msg with
  | SubmitMsg c => [sp_Proposer (content_msg c)]
  | DepositMsg m => [md_Depositor m]
  | VoteMsg m => [mv_Voter m]
  | OtherMsg => []
  end.

(** ** Building a proposal (proposal_util.go) *)
(** The zero of [time.Time], the first of January of year 1. *)
Definition zero_time : Z := - 62135596800 * Second.
Definition buildProposal (m : MsgSubmitProposal) (body : Body) : Proposal :=
  mkProposal (mkBasic 0 (sp_Title m) (sp_Description m) (sp_ProposalType m) StatusDepositPeriod EmptyTallyResult zero_time zero_time
                [] zero_time zero_time (sp_Proposer m)) body.
Definition interface_conversion : string := "interface conversion".
(** A message of another type than the kind asks for is a panic; a decimal that is
    missing does not get here, as the check of the message refuses it. *)
Definition NewProposal (c : Content) : Outcome Proposal :=
  let m := content_msg c in
  let kind := sp_ProposalType m in
  if negb (ValidProposalType kind) then Err ErrInvalidProposalType else
  if kind =? ProposalTypePlainText then Ok (buildProposal m PlainText) else
  if kind =? ProposalTypeParameter then Ok (buildProposal m (Parameters (sp_Params m))) else
  if kind =? ProposalTypeSystemHalt then Ok (buildProposal m SystemHalt) else
  if kind =? ProposalTypeSoftwareUpgrade then
    match c with
    | SubmitSoftwareUpgrade _ version software height (Some threshold) =>
        Ok (buildProposal m (SoftwareUpgrade (Upgrade.mkProtocolDefinition version software height threshold)))
    | _ => Panic interface_conversion
    end else
  if kind =? ProposalTypeCommunityTaxUsage then
    match c with
    | SubmitCommunityTaxUsage _ usage dest (Some percent) => Ok (buildProposal m (CommunityTaxUsage (mkTaxUsage usage dest percent)))
    | _ => Panic interface_conversion
    end
  else
    match c with
    | SubmitTokenAddition _ symbol canonical name decimal alias =>
        let? maxSupply := NewIntWithDecimal (wrap_int64 Asset.MaximumAssetMaxSupply) decimal in
        Ok (buildProposal m (TokenAddition
             (Asset.NewFungibleToken Asset.EXTERNAL "" symbol name decimal canonical alias 0 maxSupply true "")))
    | _ => Panic interface_conversion
    end.

(** ** Parameters (params.go) *)
Record LevelParams := mkLevel {
  lp_DepositPeriod : Z; lp_MinDeposit : Coins; lp_VotingPeriod : Z; lp_MaxNum : Z; lp_Threshold : Dec; lp_Veto : Dec;
  lp_Participation : Dec; lp_Penalty : Dec }.
Record GovParams := mkGovParams { gp_Critical : LevelParams; gp_Important : LevelParams; gp_Normal : LevelParams; gp_SystemHaltPeriod : Z }.
Definition Day : Z := 24 * 3600 * Second.
Definition iris_deposit (n : Z) : Coins := [mkCoin IrisAtto (n * AttoScaleFactor)].
Definition default_params (votingPeriod haltPeriod : Z) : GovParams :=
  mkGovParams
    (mkLevel Day (iris_deposit 4000) votingPeriod 1 (75 * 10^8) (33 * 10^8) (50 * 10^8) ZeroDec)
    (mkLevel Day (iris_deposit 2000) votingPeriod 5 (67 * 10^8) (33 * 10^8) (50 * 10^8) ZeroDec)
    (mkLevel Day (iris_deposit 1000) votingPeriod 7 (50 * 10^8) (33 * 10^8) (50 * 10^8) ZeroDec) haltPeriod.
Definition DefaultParams (mainnet : bool) : GovParams :=
  if mainnet then default_params (5 * Day) 20000 else default_params (2 * 60 * Second) 60.
Definition validateDepositProcedure (minDeposit : Coins) (maxDepositPeriod : Z) : Outcome unit :=
  match minDeposit with
  | [] => Panic "index out of range"
  | c :: _ =>
      if bool_decide (denom c ≠ IrisAtto) then Err (params_err 101) else
      if Int_LT (amount c) (10 * AttoScaleFactor) || Int_GT (amount c) (10000 * AttoScaleFactor) then Err (params_err 102) else
      if (maxDepositPeriod <? 20 * Second) || (3 * Day <? maxDepositPeriod) then Err (params_err 103) else Ok tt
  end.
Definition validatorVotingProcedure (votingPeriod : Z) : Outcome unit :=
  if (votingPeriod <? 20 * Second) || (7 * Day <? votingPeriod) then Err (params_err 104) else Ok tt.
Definition validateTallyingProcedure (l : LevelParams) : Outcome unit :=
  let? one := NewDec 1 in
  if Dec_LTE (lp_Threshold l) ZeroDec || Dec_GTE (lp_Threshold l) one then Err (params_err 106) else
  if Dec_LTE (lp_Participation l) ZeroDec || Dec_GTE (lp_Participation l) one then Err (params_err 107) else
  if Dec_LTE (lp_Veto l) ZeroDec || Dec_GTE (lp_Veto l) one then Err (params_err 108) else
  if Dec_LT (lp_Penalty l) ZeroDec || Dec_GTE (lp_Penalty l) one then Err (params_err 109) else Ok tt.
Definition validate_level (l : LevelParams) : Outcome unit :=
  let? _ := validateDepositProcedure (lp_MinDeposit l) (lp_DepositPeriod l) in
  let? _ := validatorVotingProcedure (lp_VotingPeriod l) in
  validateTallyingProcedure l.
Definition validateMaxNum (p : GovParams) : Outcome unit :=
  if negb (lp_MaxNum (gp_Critical p) =? 1) then Err (params_err 114) else
  if lp_MaxNum (gp_Important p) <? 1 then Err (params_err 114) else
  if lp_MaxNum (gp_Normal p) <? 1 then Err (params_err 114) else Ok tt.
Definition validateParams (p : GovParams) : Outcome unit :=
  let? _ := validate_level (gp_Critical p) in
  let? _ := validate_level (gp_Important p) in
  let? _ := validate_level (gp_Normal p) in
  let? _ := validateMaxNum p in
  if (gp_SystemHaltPeriod p <? 0) || (50000 <? gp_SystemHaltPeriod p) then Err (params_err 115) else Ok tt.

(** ** Keys (keeper_keys.go)

    An address is printed in upper-case hexadecimal digits by its [Format]. *)
Definition upper_char (c : ascii) : ascii := if is_lower c then Ascii.ascii_of_N (Ascii.N_of_ascii c - 32) else c.
Definition address_text (a : AccAddress) : string := str (upper_char <$> hex_encode (chars a)).
Definition id_text (id : Z) : string := str (digits id).
Definition KeyDepositsSubspace (proposalID : Z) : string := "deposits:" +:+ id_text proposalID +:+ ":".
Definition KeyDeposit (proposalID : Z) (depositorAddr : AccAddress) : string := KeyDepositsSubspace proposalID +:+ address_text depositorAddr.
Definition KeyVotesSubspace (proposalID : Z) : string := "votes:" +:+ id_text proposalID +:+ ":".
Definition KeyVote (proposalID : Z) (voterAddr : AccAddress) : string := KeyVotesSubspace proposalID +:+ address_text voterAddr.
Definition PrefixActiveProposalQueue : string := "activeProposalQueue".
Definition PrefixInactiveProposalQueue : string := "inactiveProposalQueue".
Definition queue_time (prefix : string) (endTime : Z) : string := prefix +:+ ":" +:+ FormatTimeBytes endTime.
Definition queue_key (prefix : string) (endTime proposalID : Z) : string :=
  queue_time prefix endTime +:+ ":" +:+ Uint64ToBigEndian proposalID.
Definition KeyActiveProposalQueueProposal : Z → Z → string := queue_key PrefixActiveProposalQueue.
Definition KeyInactiveProposalQueueProposal : Z → Z → string := queue_key PrefixInactiveProposalQueue.
End GovTypes.
