(* ===== verification/Gov.v ===== *)
(** * Governance: the keeper (app/v1/gov)

    A proposal is submitted with a deposit; once its deposits reach the minimum of
    its level, validators and delegators vote on it.  At the end of a block the
    proposals whose time is over are dropped, or counted: one that passes is
    executed.  The keeper works on the stores of the whole chain, since a proposal
    can change parameters, issue tokens, plan an upgrade, stop the chain or spend
    the tax of the community. *)

From Stdlib Require Import Ascii.
From S2P Require Import Prelude SdkErrors IntType GoStrings Denom Coin CoinFacts Dec TimeBytes KVStore CacheKVThms PrefixKV Gas Auth StdTx Bank BankFrame Mint Guardian Service StakeTypes Stake Slashing DistrTypes Distr Chain Rat Asset AssetKeeper Coinswap ParamSets Upgrade GovTypes.
#[local] Open Scope Z_scope.

Module Gov.
Import StakeTypes Stake Chain ParamSets GovTypes.

(** ** The stores

    The entries of each prefix are a map; those that have the number of a proposal
    as the rest of their key have it as the key. *)
Record GovStore := mkGov {
  gv_nextID : option Z;
  gv_proposals : gmap Z Proposal;
  gv_deposits : gmap string Deposit;
  gv_votes : gmap string Vote;
  gv_active : gmap string Z;
  gv_inactive : gmap string Z;
  gv_validatorSet : gmap Z (list ValAddress);
  gv_haltHeight : option Z;
  gv_critical : option Z;
  gv_importantNum : option Z;
  gv_normalNum : option Z;
  gv_params : GovParams }.
Definition set_nextID x g := mkGov x (gv_proposals g) (gv_deposits g) (gv_votes g) (gv_active g) (gv_inactive g)
  (gv_validatorSet g) (gv_haltHeight g) (gv_critical g) (gv_importantNum g) (gv_normalNum g) (gv_params g).
Definition set_proposals f g := mkGov (gv_nextID g) (f (gv_proposals g)) (gv_deposits g) (gv_votes g) (gv_active g) (gv_inactive g)
  (gv_validatorSet g) (gv_haltHeight g) (gv_critical g) (gv_importantNum g) (gv_normalNum g) (gv_params g).
Definition set_deposits f g := mkGov (gv_nextID g) (gv_proposals g) (f (gv_deposits g)) (gv_votes g) (gv_active g) (gv_inactive g)
  (gv_validatorSet g) (gv_haltHeight g) (gv_critical g) (gv_importantNum g) (gv_normalNum g) (gv_params g).
Definition set_votes f g := mkGov (gv_nextID g) (gv_proposals g) (gv_deposits g) (f (gv_votes g)) (gv_active g) (gv_inactive g)
  (gv_validatorSet g) (gv_haltHeight g) (gv_critical g) (gv_importantNum g) (gv_normalNum g) (gv_params g).
Definition set_active f g := mkGov (gv_nextID g) (gv_proposals g) (gv_deposits g) (gv_votes g) (f (gv_active g)) (gv_inactive g)
  (gv_validatorSet g) (gv_haltHeight g) (gv_critical g) (gv_importantNum g) (gv_normalNum g) (gv_params g).
Definition set_inactive f g := mkGov (gv_nextID g) (gv_proposals g) (gv_deposits g) (gv_votes g) (gv_active g) (f (gv_inactive g))
  (gv_validatorSet g) (gv_haltHeight g) (gv_critical g) (gv_importantNum g) (gv_normalNum g) (gv_params g).
Definition set_validatorSet f g := mkGov (gv_nextID g) (gv_proposals g) (gv_deposits g) (gv_votes g) (gv_active g) (gv_inactive g)
  (f (gv_validatorSet g)) (gv_haltHeight g) (gv_critical g) (gv_importantNum g) (gv_normalNum g) (gv_params g).
Definition set_haltHeight x g := mkGov (gv_nextID g) (gv_proposals g) (gv_deposits g) (gv_votes g) (gv_active g) (gv_inactive g)
  (gv_validatorSet g) x (gv_critical g) (gv_importantNum g) (gv_normalNum g) (gv_params g).
Definition set_critical x g := mkGov (gv_nextID g) (gv_proposals g) (gv_deposits g) (gv_votes g) (gv_active g) (gv_inactive g)
  (gv_validatorSet g) (gv_haltHeight g) x (gv_importantNum g) (gv_normalNum g) (gv_params g).
Definition set_importantNum x g := mkGov (gv_nextID g) (gv_proposals g) (gv_deposits g) (gv_votes g) (gv_active g) (gv_inactive g)
  (gv_validatorSet g) (gv_haltHeight g) (gv_critical g) x (gv_normalNum g) (gv_params g).
Definition set_normalNum x g := mkGov (gv_nextID g) (gv_proposals g) (gv_deposits g) (gv_votes g) (gv_active g) (gv_inactive g)
  (gv_validatorSet g) (gv_haltHeight g) (gv_critical g) (gv_importantNum g) x (gv_params g).
Definition set_gov_params x g := mkGov (gv_nextID g) (gv_proposals g) (gv_deposits g) (gv_votes g) (gv_active g) (gv_inactive g)
  (gv_validatorSet g) (gv_haltHeight g) (gv_critical g) (gv_importantNum g) (gv_normalNum g) x.

(** The stores that governance reaches: accounts, staking, distribution, slashing
    and inflation are those of [ChainState]; of service and coinswap it reaches the
    parameters. *)
Record World := mkWorld {
  w_chain : ChainState;
  w_gov : GovStore;
  w_protocol : Upgrade.ProtocolStore;
  w_upgrade : Upgrade.UpgradeStore;
  w_guardian : Guardian.Store;
  w_tokens : gmap string Asset.FungibleToken;
  w_token_index : gmap string string;
  w_gateways : gmap string Asset.Gateway;
  w_owner_gateways : gmap string string;
  w_asset : Asset.Params;
  w_service : Service.Params;
  w_swap : SwapParams }.
Definition set_chain x w := mkWorld x (w_gov w) (w_protocol w) (w_upgrade w) (w_guardian w) (w_tokens w) (w_token_index w)
  (w_gateways w) (w_owner_gateways w) (w_asset w) (w_service w) (w_swap w).
Definition set_gov x w := mkWorld (w_chain w) x (w_protocol w) (w_upgrade w) (w_guardian w) (w_tokens w) (w_token_index w)
  (w_gateways w) (w_owner_gateways w) (w_asset w) (w_service w) (w_swap w).
Definition set_protocol x w := mkWorld (w_chain w) (w_gov w) x (w_upgrade w) (w_guardian w) (w_tokens w) (w_token_index w)
  (w_gateways w) (w_owner_gateways w) (w_asset w) (w_service w) (w_swap w).
Definition set_guardian x w := mkWorld (w_chain w) (w_gov w) (w_protocol w) (w_upgrade w) x (w_tokens w) (w_token_index w)
  (w_gateways w) (w_owner_gateways w) (w_asset w) (w_service w) (w_swap w).
Definition set_asset_params x w := mkWorld (w_chain w) (w_gov w) (w_protocol w) (w_upgrade w) (w_guardian w) (w_tokens w) (w_token_index w)
  (w_gateways w) (w_owner_gateways w) x (w_service w) (w_swap w).
Definition set_service x w := mkWorld (w_chain w) (w_gov w) (w_protocol w) (w_upgrade w) (w_guardian w) (w_tokens w) (w_token_index w)
  (w_gateways w) (w_owner_gateways w) (w_asset w) x (w_swap w).
Definition set_swap x w := mkWorld (w_chain w) (w_gov w) (w_protocol w) (w_upgrade w) (w_guardian w) (w_tokens w) (w_token_index w)
  (w_gateways w) (w_owner_gateways w) (w_asset w) (w_service w) x.
Definition world_auth (w : World) : AuthState := st_auth (w_chain w).
Definition world_asset (w : World) : AssetKeeper.AssetState :=
  AssetKeeper.mkAsset (world_auth w) (w_tokens w) (w_token_index w) (w_gateways w) (w_owner_gateways w) (w_asset w).
Definition set_world_asset (a : AssetKeeper.AssetState) (w : World) : World :=
  mkWorld (set_auth (AssetKeeper.as_auth a) (w_chain w)) (w_gov w) (w_protocol w) (w_upgrade w) (w_guardian w) (AssetKeeper.tokens a)
    (AssetKeeper.token_index a) (AssetKeeper.gateways a) (AssetKeeper.owner_gateways a) (AssetKeeper.as_params a) (w_service w) (w_swap w).
Abbreviation WM := (M World).
Definition on_chain {A} (c : M ChainState A) : WM A := zoom w_chain set_chain c.
Definition on_gov {A} (c : M GovStore A) : WM A := zoom w_gov set_gov c.
Definition on_protocol {A} (c : M Upgrade.ProtocolStore A) : WM A := zoom w_protocol set_protocol c.
Definition on_guardian {A} (c : M Guardian.Store A) : WM A := zoom w_guardian set_guardian c.
Definition on_bank {A} (c : M AuthState A) : WM A := on_chain (on_auth c).
Definition on_asset {A} (c : M AssetKeeper.AssetState A) : WM A := zoom world_asset set_world_asset c.
(** An error is a panic. *)
Definition must {A} (c : WM A) : WM A :=
  λ w, match c w with (Ok a, w') => (Ok a, w') | (Err _, w') => (Panic "error", w') | (Panic y, w') => (Panic y, w') end.

(** ** The keeper (keeper.go): parameters and numbers *)
Abbreviation GM := (M GovStore).
Definition no_level {A} : GM A := panic "There is no level for this proposal".
Definition level_params (p : ProposalLevel) : GM LevelParams :=
  match p with
  | ProposalLevelCritical => gets (λ g, gp_Critical (gv_params g))
  | ProposalLevelImportant => gets (λ g, gp_Important (gv_params g))
  | ProposalLevelNormal => gets (λ g, gp_Normal (gv_params g))
  | ProposalLevelNil => no_level
  end.
(** The least deposit, and the time to reach it. *)
Definition GetDepositProcedure (p : ProposalLevel) : GM (Coins * Z) :=
  l <- level_params p ;; ret (lp_MinDeposit l, lp_DepositPeriod l).
Definition GetVotingProcedure (p : ProposalLevel) : GM Z := l <- level_params p ;; ret (lp_VotingPeriod l).
Definition GetMaxNumByProposalLevel (p : ProposalLevel) : GM Z := l <- level_params p ;; ret (lp_MaxNum l).
Definition GetTallyingProcedure (p : ProposalLevel) : GM LevelParams := level_params p.
Definition BurnRate : Dec := 2 * 10^9.
Definition MinDepositRate : Dec := 3 * 10^9.
Definition getMinInitialDeposit (p : ProposalLevel) : GM Coins :=
  d <- GetDepositProcedure p ;;
  minDepositDec <- lift (NewDecFromInt (AmountOf d.1 StakeDenom)) ;;
  part <- lift (Dec_Mul minDepositDec MinDepositRate) ;;
  minDepositInt <- lift (Dec_RoundInt part) ;;
  c <- lift (NewCoin StakeDenom minDepositInt) ;;
  ret [c].

Definition GetCriticalProposalID : GM (option Z) := gets gv_critical.
Definition GetCriticalProposalNum : GM Z := gets (λ g, match gv_critical g with Some _ => 1 | None => 0 end).
Definition AddCriticalProposalNum (proposalID : Z) : GM unit := modify (set_critical (Some proposalID)).
Definition SubCriticalProposalNum : GM unit := modify (set_critical None).
Definition SetImportantProposalNum (num : Z) : GM unit := modify (set_importantNum (Some num)).
Definition GetImportantProposalNum : GM Z :=
  n <- gets gv_importantNum ;; match n with None => SetImportantProposalNum 0 ;;; ret 0 | Some num => ret num end.
Definition AddImportantProposalNum : GM unit := num <- GetImportantProposalNum ;; SetImportantProposalNum (wrap64 (num + 1)).
Definition SubImportantProposalNum : GM unit := num <- GetImportantProposalNum ;; SetImportantProposalNum (wrap64 (num - 1)).
Definition SetNormalProposalNum (num : Z) : GM unit := modify (set_normalNum (Some num)).
(** Without a number of normal proposals, the number of important ones is set. *)
Definition GetNormalProposalNum : GM Z :=
  n <- gets gv_normalNum ;; match n with None => SetImportantProposalNum 0 ;;; ret 0 | Some num => ret num end.
Definition AddNormalProposalNum : GM unit := num <- GetNormalProposalNum ;; SetNormalProposalNum (wrap64 (num + 1)).
Definition SubNormalProposalNum : GM unit := num <- GetNormalProposalNum ;; SetNormalProposalNum (wrap64 (num - 1)).
Definition AddProposalNum (p : ProposalLevel) (proposalID : Z) : GM unit :=
  match p with
  | ProposalLevelCritical => AddCriticalProposalNum proposalID
  | ProposalLevelImportant => AddImportantProposalNum
  | ProposalLevelNormal => AddNormalProposalNum
  | ProposalLevelNil => no_level
  end.
Definition SubProposalNum (p : ProposalLevel) : GM unit :=
  match p with
  | ProposalLevelCritical => SubCriticalProposalNum
  | ProposalLevelImportant => SubImportantProposalNum
  | ProposalLevelNormal => SubNormalProposalNum
  | ProposalLevelNil => no_level
  end.
(** The three numbers are read for the log. *)
Definition HasReachedTheMaxProposalNum (p : ProposalLevel) : GM bool :=
  GetCriticalProposalNum ;;; GetImportantProposalNum ;;; GetNormalProposalNum ;;;
  maxNum <- GetMaxNumByProposalLevel p ;;
  let reached (c : GM Z) : GM bool := c ;;; num <- c ;; ret (num =? maxNum) in
  match p with
  | ProposalLevelCritical => reached GetCriticalProposalNum
  | ProposalLevelImportant => reached GetImportantProposalNum
  | ProposalLevelNormal => reached GetNormalProposalNum
  | ProposalLevelNil => no_level
  end.

(** ** The keeper: the records *)
Definition GetProposal (proposalID : Z) : GM (option Proposal) := gets (λ g, gv_proposals g !! proposalID).
Definition SetProposal (p : Proposal) : GM unit := modify (set_proposals (insert (GetProposalID p) p)).
Definition nil_pointer : string := "invalid memory address or nil pointer dereference".
Definition must_proposal (proposalID : Z) : GM Proposal :=
  p <- GetProposal proposalID ;; match p with None => panic nil_pointer | Some p => ret p end.
Definition setInitialProposalID (proposalID : Z) : GM unit :=
  next <- gets gv_nextID ;;
  match next with Some _ => throw ErrInvalidGenesis | None => modify (set_nextID (Some proposalID)) end.
Definition peekCurrentProposalID : GM Z :=
  next <- gets gv_nextID ;; match next with None => throw ErrInvalidGenesis | Some id => ret id end.
Definition getNewProposalID : GM Z :=
  proposalID <- peekCurrentProposalID ;; modify (set_nextID (Some (wrap64 (proposalID + 1)))) ;;; ret proposalID.
Definition GetLastProposalID (g : GovStore) : Z := match gv_nextID g with None => 0 | Some id => wrap64 (id - 1) end.
Definition GetVote (proposalID : Z) (voterAddr : AccAddress) : GM (option Vote) := gets (λ g, gv_votes g !! KeyVote proposalID voterAddr).
Definition setVote (proposalID : Z) (voterAddr : AccAddress) (v : Vote) : GM unit :=
  modify (set_votes (insert (KeyVote proposalID voterAddr) v)).
Definition GetVotes (proposalID : Z) (g : GovStore) : list (string * Vote) := prefix_iterator (gv_votes g) (KeyVotesSubspace proposalID).
Definition deleteVote (proposalID : Z) (voterAddr : AccAddress) : GM unit := modify (set_votes (delete (KeyVote proposalID voterAddr))).
Definition GetDeposit (proposalID : Z) (depositorAddr : AccAddress) : GM (option Deposit) :=
  gets (λ g, gv_deposits g !! KeyDeposit proposalID depositorAddr).
Definition setDeposit (proposalID : Z) (depositorAddr : AccAddress) (d : Deposit) : GM unit :=
  modify (set_deposits (insert (KeyDeposit proposalID depositorAddr) d)).
Definition GetDeposits (proposalID : Z) (g : GovStore) : list (string * Deposit) :=
  prefix_iterator (gv_deposits g) (KeyDepositsSubspace proposalID).
(** The entries from [prefix] to the end of those of [endTime]. *)
Definition queue_iterator (prefix : string) (endTime : Z) (queue : gmap string Z) : Outcome (list (string * Z)) :=
  let? stop := PrefixEndBytes (Some (queue_time prefix endTime)) in
  Ok (filter (λ kv, in_domain_b kv.1 (Some prefix) stop = true) (entries queue)).
Definition ActiveProposalQueueIterator (endTime : Z) : GM (list (string * Z)) :=
  g <- get ;; lift (queue_iterator PrefixActiveProposalQueue endTime (gv_active g)).
Definition InsertActiveProposalQueue (endTime proposalID : Z) : GM unit :=
  modify (set_active (insert (KeyActiveProposalQueueProposal endTime proposalID) proposalID)).
Definition RemoveFromActiveProposalQueue (endTime proposalID : Z) : GM unit :=
  modify (set_active (delete (KeyActiveProposalQueueProposal endTime proposalID))).
Definition InactiveProposalQueueIterator (endTime : Z) : GM (list (string * Z)) :=
  g <- get ;; lift (queue_iterator PrefixInactiveProposalQueue endTime (gv_inactive g)).
Definition InsertInactiveProposalQueue (endTime proposalID : Z) : GM unit :=
  modify (set_inactive (insert (KeyInactiveProposalQueueProposal endTime proposalID) proposalID)).
Definition RemoveFromInactiveProposalQueue (endTime proposalID : Z) : GM unit :=
  modify (set_inactive (delete (KeyInactiveProposalQueueProposal endTime proposalID))).
Definition DeleteProposal (proposalID : Z) : GM unit :=
  p <- must_proposal proposalID ;;
  RemoveFromInactiveProposalQueue (GetDepositEndTime p) proposalID ;;;
  RemoveFromActiveProposalQueue (GetVotingEndTime p) proposalID ;;;
  modify (set_proposals (delete proposalID)).
Definition GetSystemHaltHeight : GM Z := gets (λ g, default (-1) (gv_haltHeight g)).
Definition SetSystemHaltHeight (height : Z) : GM unit := modify (set_haltHeight (Some height)).
Definition GetSystemHaltPeriod : GM Z := gets (λ g, gp_SystemHaltPeriod (gv_params g)).
Definition GetValidatorSet (proposalID : Z) : GM (list ValAddress) := gets (λ g, default [] (gv_validatorSet g !! proposalID)).
Definition DeleteValidatorSet (proposalID : Z) : GM unit := modify (set_validatorSet (delete proposalID)).
Definition gov_SetParamSet (p : GovParams) : GM unit := modify (set_gov_params p).

Definition matches (voterAddr depositorAddr : AccAddress) (status : ProposalStatus) (id : Z) (g : GovStore) : option Proposal :=
  if negb (AccAddress_Empty voterAddr) && bool_decide (gv_votes g !! KeyVote id voterAddr = None) then None else
  if negb (AccAddress_Empty depositorAddr) && bool_decide (gv_deposits g !! KeyDeposit id depositorAddr = None) then None else
  p ← gv_proposals g !! id;
  if ValidProposalStatus status && bool_decide (GetStatus p ≠ status) then None else Some p.
Definition GetProposalsFiltered (voterAddr depositorAddr : AccAddress) (status : ProposalStatus) (numLatest : Z) (g : GovStore) : list Proposal :=
  match gv_nextID g with
  | None => []
  | Some maxProposalID =>
      let numLatest := if (numLatest =? 0) || (maxProposalID <? numLatest) then maxProposalID else numLatest in
      base.omap (λ id, matches voterAddr depositorAddr status id g) (seqZ (maxProposalID - numLatest) numLatest)
  end.

Section keeper.
Context `{Crypto, ConsCrypto}.
(** Whether [sdk.NetworkType] is the main network. *)
Variable mainnet : bool.
(** The bech32 texts of the address of an account and of an operator. *)
Variable acc_String : AccAddress → string.
Variable val_String : ValAddress → string.

Definition SetValidatorSet (proposalID : Z) : WM unit :=
  vals <- on_chain GetBondedValidatorsByPower ;;
  on_gov (modify (set_validatorSet (insert proposalID (v_OperatorAddr <$> vals)))).
Definition activateVotingPeriod (ctx : Ctx) (p : Proposal) : WM unit :=
  votingPeriod <- on_gov (GetVotingProcedure (proposal_Level p)) ;;
  let p := SetStatus StatusVotingPeriod (SetVotingTimes (BlockTime ctx) (BlockTime ctx + votingPeriod) p) in
  on_gov (SetProposal p ;;;
          RemoveFromInactiveProposalQueue (GetDepositEndTime p) (GetProposalID p) ;;;
          InsertActiveProposalQueue (GetVotingEndTime p) (GetProposalID p)) ;;;
  SetValidatorSet (GetProposalID p).

(** ** Votes *)
(** The delegations of an address; their keys are read. *)
Fixpoint read_delegations (l : list (string * Delegation)) : M ChainState (list Delegation) :=
  match l with
  | [] => ret []
  | (key, d) :: l => d <- unmarshal (2 * AddrLen) key d ;; rest <- read_delegations l ;; ret (d :: rest)
  end.
Definition delegations_of (delAddr : AccAddress) (s : ChainState) : list (string * Delegation) := prefix_iterator (delegations s) delAddr.
Definition AddVote (proposalID : Z) (voterAddr : AccAddress) (option : Z) : WM unit :=
  p <- on_gov (GetProposal proposalID) ;;
  match p with
  | None => throw ErrUnknownProposal
  | Some p =>
      require (bool_decide (GetStatus p = StatusVotingPeriod)) ErrInactiveProposal ;;;
      validator <- on_chain (GetValidator voterAddr) ;;
      (match validator with
       | Some _ => ret tt
       | None =>
           ds <- on_chain (l <- gets (delegations_of voterAddr) ;; read_delegations (take 1 l)) ;;
           require (negb (bool_decide (ds = []))) ErrOnlyValidatorOrDelegatorVote
       end) ;;;
      vote <- on_gov (GetVote proposalID voterAddr) ;;
      match vote with
      | Some _ => throw ErrAlreadyVote
      | None =>
          require (ValidVoteOption option) ErrInvalidVote ;;;
          on_gov (setVote proposalID voterAddr (mkVote voterAddr proposalID option))
      end
  end.

(** ** Deposits *)
(** Sending and adding can change the slice of the amount in place. *)
Definition AddDeposit (ctx : Ctx) (proposalID : Z) (depositorAddr : AccAddress) (depositAmount : Coins) : WM bool :=
  p <- on_gov (GetProposal proposalID) ;;
  match p with
  | None => throw ErrUnknownProposal
  | Some p =>
      require (bool_decide (GetStatus p = StatusDepositPeriod)) ErrNotInDepositPeriod ;;;
      sent <- gets (λ w, sendCoins_amt depositorAddr GovDepositCoinsAccAddr depositAmount (world_auth w)) ;;
      on_bank (sendCoins depositorAddr GovDepositCoinsAccAddr depositAmount) ;;;
      total <- lift (Coins_Add (GetTotalDeposit p) sent) ;;
      let amount := safeAdd_arrayB (GetTotalDeposit p) sent in
      let p := SetTotalDeposit total p in
      on_gov (SetProposal p) ;;;
      procedure <- on_gov (GetDepositProcedure (proposal_Level p)) ;;
      let activated := IsAllGTE total procedure.1 in
      (if activated then activateVotingPeriod ctx p else ret tt) ;;;
      currDeposit <- on_gov (GetDeposit proposalID depositorAddr) ;;
      match currDeposit with
      | None => on_gov (setDeposit proposalID depositorAddr (mkDeposit depositorAddr proposalID amount))
      | Some d =>
          sum <- lift (Coins_Add (dp_Amount d) amount) ;;
          on_gov (setDeposit proposalID depositorAddr (mkDeposit (dp_Depositor d) (dp_ProposalID d) sum))
      end ;;;
      ret activated
  end.
(** Take the deposits out of the store; adding up can change the slices of their
    amounts in place. *)
Fixpoint collect_deposits (l : list (string * Deposit)) (sum : Coins) : GM (Coins * list (AccAddress * Coins)) :=
  match l with
  | [] => ret (sum, [])
  | (key, d) :: l =>
      sum' <- lift (Coins_Add sum (dp_Amount d)) ;;
      modify (set_deposits (delete key)) ;;;
      r <- collect_deposits l sum' ;;
      ret (r.1, (dp_Depositor d, safeAdd_arrayB sum (dp_Amount d)) :: r.2)
  end.
Definition refund_amount (rate : Dec) (amount : Coins) : Outcome Int :=
  let? a := NewDecFromInt (AmountOf amount StakeDenom) in
  let? b := Dec_Mul a rate in
  let? r := Dec_Sub a b in
  Dec_RoundInt r.
Fixpoint refund_loop (rate : Dec) (l : list (AccAddress * Coins)) (refundSum : Int) : WM Int :=
  match l with
  | [] => ret refundSum
  | (depositor, amount) :: l =>
      refund <- lift (refund_amount rate amount) ;;
      refundSum <- lift (Int_Add refundSum refund) ;;
      c <- lift (NewCoin StakeDenom refund) ;;
      must (on_bank (sendCoins GovDepositCoinsAccAddr depositor [c])) ;;;
      refund_loop rate l refundSum
  end.
Definition RefundDeposits (proposalID : Z) : WM unit :=
  l <- gets (λ w, GetDeposits proposalID (w_gov w)) ;;
  r <- on_gov (collect_deposits l []) ;;
  let '(depositSum, deposits) := r in
  p <- on_gov (must_proposal proposalID) ;;
  procedure <- on_gov (GetDepositProcedure (proposal_Level p)) ;;
  minDeposit <- lift (NewDecFromInt (AmountOf procedure.1 StakeDenom)) ;;
  burnAmount <- lift (Dec_Mul minDeposit BurnRate) ;;
  let depositSumInt := AmountOf depositSum StakeDenom in
  depositSumDec <- lift (NewDecFromInt depositSumInt) ;;
  rate <- lift (Dec_Quo burnAmount depositSumDec) ;;
  refundSum <- refund_loop rate deposits 0 ;;
  burn <- lift (Int_Sub depositSumInt refundSum) ;;
  burnCoin <- lift (NewCoin StakeDenom burn) ;;
  must (on_bank (BurnCoins GovDepositCoinsAccAddr [burnCoin])).
Definition DeleteDeposits (proposalID : Z) : WM unit :=
  l <- gets (λ w, GetDeposits proposalID (w_gov w)) ;;
  for_each l (λ kv, must (on_bank (BurnCoins GovDepositCoinsAccAddr (dp_Amount kv.2))) ;;;
                    on_gov (modify (set_deposits (delete kv.1)))).

(** ** The count of the votes (tally.go) *)
Inductive ProposalResult := PASS | REJECT | REJECTVETO.
#[export] Instance ProposalResult_dec : EqDecision ProposalResult.
Proof. solve_decision. Defined.
Record validatorGovInfo := mkGovInfo {
  gi_Address : ValAddress; gi_Vote : Z; gi_TokenPerShare : Dec; gi_DelegatorShares : Dec; gi_DelegatorDeductions : Dec }.
(** The maps are keyed by the text of the address of the operator. *)
Record Counting := mkCounting {
  ct_results : gmap Z Dec; ct_totalVotingPower : Dec; ct_currValidators : gmap string validatorGovInfo; ct_votingVals : gset string }.
Definition no_results : gmap Z Dec :=
  <[OptionYes := ZeroDec]> (<[OptionAbstain := ZeroDec]> (<[OptionNo := ZeroDec]> {[OptionNoWithVeto := ZeroDec]})).
Fixpoint govInfos (vals : list Validator) (curr : gmap string validatorGovInfo) (system : Dec) : Outcome (gmap string validatorGovInfo * Dec) :=
  match vals with
  | [] => Ok (curr, system)
  | v :: vals =>
      let? tokenPerShare := Dec_Quo (v_Tokens v) (v_DelegatorShares v) in
      let? system := Dec_Add system (v_Tokens v) in
      govInfos vals (<[val_String (v_OperatorAddr v) :=
        mkGovInfo (v_OperatorAddr v) OptionEmpty tokenPerShare (v_DelegatorShares v) ZeroDec]> curr) system
  end.
(** [results[option] = results[option].Add(power)] and the total; a result that is
    not in the map is a nil. *)
Definition add_power (option : Z) (power : Dec) (c : Counting) : Outcome Counting :=
  match ct_results c !! option with
  | None => Panic nil_pointer
  | Some r =>
      let? r := Dec_Add r power in
      let? total := Dec_Add (ct_totalVotingPower c) power in
      Ok (mkCounting (<[option := r]> (ct_results c)) total (ct_currValidators c) (ct_votingVals c))
  end.
Definition set_curr (key : string) (i : validatorGovInfo) (c : Counting) : Counting :=
  mkCounting (ct_results c) (ct_totalVotingPower c) (<[key := i]> (ct_currValidators c)) (ct_votingVals c).
Definition record_vote (v : Vote) (c : Counting) : Counting :=
  let key := val_String (vt_Voter v) in
  match ct_currValidators c !! key with
  | None => c
  | Some i =>
      let c := set_curr key (mkGovInfo (gi_Address i) (vt_Option v) (gi_TokenPerShare i) (gi_DelegatorShares i) (gi_DelegatorDeductions i)) c in
      mkCounting (ct_results c) (ct_totalVotingPower c) (ct_currValidators c) ({[key]} ∪ ct_votingVals c)
  end.
Definition count_delegation (v : Vote) (d : Delegation) (c : Counting) : Outcome Counting :=
  let key := val_String (d_ValidatorAddr d) in
  if bool_decide (key = val_String (vt_Voter v)) then Ok c else
  match ct_currValidators c !! key with
  | None => Ok c
  | Some i =>
      let? deductions := Dec_Add (gi_DelegatorDeductions i) (d_Shares d) in
      let c := set_curr key (mkGovInfo (gi_Address i) (gi_Vote i) (gi_TokenPerShare i) (gi_DelegatorShares i) deductions) c in
      let? votingPower := Dec_Mul (d_Shares d) (gi_TokenPerShare i) in
      add_power (vt_Option v) votingPower c
  end.
Fixpoint count_delegations (v : Vote) (ds : list Delegation) (c : Counting) : Outcome Counting :=
  match ds with
  | [] => Ok c
  | d :: ds => let? c := count_delegation v d c in count_delegations v ds c
  end.
Fixpoint count_votes (votes : list (string * Vote)) (c : Counting) : WM Counting :=
  match votes with
  | [] => ret c
  | (_, v) :: votes =>
      ds <- on_chain (l <- gets (delegations_of (vt_Voter v)) ;; read_delegations l) ;;
      c <- lift (count_delegations v ds (record_vote v c)) ;;
      count_votes votes c
  end.
Definition count_validator (i : validatorGovInfo) (c : Counting) : Outcome Counting :=
  if gi_Vote i =? OptionEmpty then Ok c else
  let? shares := Dec_Sub (gi_DelegatorShares i) (gi_DelegatorDeductions i) in
  let? votingPower := Dec_Mul shares (gi_TokenPerShare i) in
  add_power (gi_Vote i) votingPower c.
Fixpoint count_validators (l : list validatorGovInfo) (c : Counting) : Outcome Counting :=
  match l with
  | [] => Ok c
  | i :: l => let? c := count_validator i c in count_validators l c
  end.
Definition result_of (option : Z) (c : Counting) : Dec := default 0 (ct_results c !! option).
Definition tally_results (c : Counting) (system : Dec) : Outcome TallyResult :=
  let? yes := Dec_QuoInt (result_of OptionYes c) AttoScaleFactor in
  let? abstain := Dec_QuoInt (result_of OptionAbstain c) AttoScaleFactor in
  let? no := Dec_QuoInt (result_of OptionNo c) AttoScaleFactor in
  let? veto := Dec_QuoInt (result_of OptionNoWithVeto c) AttoScaleFactor in
  let? system := Dec_QuoInt system AttoScaleFactor in
  Ok (mkTallyResult yes abstain no veto system).
Definition decide_result (procedure : LevelParams) (c : Counting) (system : Dec) : Outcome ProposalResult :=
  let total := ct_totalVotingPower c in
  let? notAbstained := Dec_Sub total (result_of OptionAbstain c) in
  if Dec_Equal notAbstained ZeroDec then Ok REJECT else
  let? participation := Dec_Quo total system in
  if Dec_GT (lp_Participation procedure) participation then Ok REJECT else
  let? veto := Dec_Quo (result_of OptionNoWithVeto c) total in
  if Dec_GT veto (lp_Veto procedure) then Ok REJECTVETO else
  let? yes := Dec_Quo (result_of OptionYes c) total in
  if Dec_GT yes (lp_Threshold procedure) then Ok PASS else Ok REJECT.
(** The last loop is over a map, whose order Go leaves open. *)
Definition tally (p : Proposal) : WM (ProposalResult * TallyResult * gset string) :=
  vals <- on_chain GetBondedValidatorsByPower ;;
  r <- lift (govInfos vals ∅ ZeroDec) ;;
  let '(curr, system) := r in
  votes <- gets (λ w, GetVotes (GetProposalID p) (w_gov w)) ;;
  c <- count_votes votes (mkCounting no_results ZeroDec curr ∅) ;;
  c <- lift (count_validators ((map_to_list (ct_currValidators c)).*2) c) ;;
  procedure <- on_gov (GetTallyingProcedure (proposal_Level p)) ;;
  results <- lift (tally_results c system) ;;
  result <- lift (decide_result procedure c system) ;;
  ret (result, results, ct_votingVals c).

(** ** Validation of proposals (proposal_*.go) *)
Definition BasicProposal_Validate (b : BasicProposal) (verify : bool) : WM unit :=
  if negb verify then ret tt else
  reached <- on_gov (HasReachedTheMaxProposalNum (GetProposalLevel (bp_ProposalType b))) ;;
  if reached : bool then throw ErrMoreThanMaxProposal else ret tt.
Definition is_profiler (a : AccAddress) : WM bool := g <- on_guardian (Guardian.GetProfiler a) ;; ret (bool_decide (is_Some g)).
Definition is_trustee (a : AccAddress) : WM bool := g <- on_guardian (Guardian.GetTrustee a) ;; ret (bool_decide (is_Some g)).
Definition Proposal_Validate (ctx : Ctx) (p : Proposal) (verify : bool) : WM unit :=
  BasicProposal_Validate (pp_Basic p) verify ;;;
  match pp_Body p with
  | PlainText => ret tt
  | Parameters params =>
      match params with
      | [] => panic "index out of range"
      | param :: _ =>
          match GetParamSet mainnet (pr_Subspace param) with
          | None => throw ErrInvalidParam
          | Some ps => lift (ps_Validate ps (pr_Key param) (pr_Value param)) ;;; ret tt
          end
      end
  | SoftwareUpgrade d =>
      valid <- on_protocol (Upgrade.IsValidVersion (Upgrade.pd_Version d)) ;;
      require valid ErrCodeInvalidVersion ;;;
      require (negb (Upgrade.pd_Height d <? wrap64 (BlockHeight ctx))) ErrCodeInvalidSwitchHeight ;;;
      found <- is_profiler (GetProposer p) ;;
      require found ErrNotProfiler ;;;
      config <- on_protocol Upgrade.GetUpgradeConfig ;;
      require (bool_decide (config = None)) ErrSwitchPeriodInProcess
  | SystemHalt => found <- is_profiler (GetProposer p) ;; require found ErrNotProfiler
  | CommunityTaxUsage u =>
      if tu_Usage u =? UsageTypeBurn then ret tt else
      found <- is_trustee (tu_DestAddress u) ;; require found ErrNotTrustee
  | TokenAddition t =>
      has <- on_asset (AssetKeeper.HasToken (Asset.GetUniqueID t)) ;;
      require (negb has) (gov_err (Asset.code_num Asset.CodeAssetAlreadyExists))
  end.

(** ** Execution of proposals *)
(** The parameters that [Subspace.Set] writes in each space. *)
Definition slashing_write (key : string) (v : ParamValue) (p : Slashing.Params) : Slashing.Params :=
  let '(Slashing.mkParams a b c d e f g h i) := p in
  match v with
  | VInt64 n =>
      if bool_decide (key = "MaxEvidenceAge") then Slashing.mkParams n b c d e f g h i else
      if bool_decide (key = "SignedBlocksWindow") then Slashing.mkParams a n c d e f g h i else p
  | VDuration n =>
      if bool_decide (key = "DoubleSignJailDuration") then Slashing.mkParams a b c n e f g h i else
      if bool_decide (key = "DowntimeJailDuration") then Slashing.mkParams a b c d n f g h i else
      if bool_decide (key = "CensorshipJailDuration") then Slashing.mkParams a b c d e n g h i else p
  | VDec x =>
      if bool_decide (key = "MinSignedPerWindow") then Slashing.mkParams a b x d e f g h i else
      if bool_decide (key = "SlashFractionDoubleSign") then Slashing.mkParams a b c d e f x h i else
      if bool_decide (key = "SlashFractionDowntime") then Slashing.mkParams a b c d e f g x i else
      if bool_decide (key = "SlashFractionCensorship") then Slashing.mkParams a b c d e f g h x else p
  | _ => p
  end.
Definition service_write (key : string) (v : ParamValue) (p : Service.Params) : Service.Params :=
  let '(Service.mkParams a b c d e f g) := p in
  match v with
  | VInt64 n =>
      if bool_decide (key = "MaxRequestTimeout") then Service.mkParams n b c d e f g else
      if bool_decide (key = "MinDepositMultiple") then Service.mkParams a n c d e f g else p
  | VDec x =>
      if bool_decide (key = "ServiceFeeTax") then Service.mkParams a b x d e f g else
      if bool_decide (key = "SlashFraction") then Service.mkParams a b c x e f g else p
  | VDuration n =>
      if bool_decide (key = "ComplaintRetrospect") then Service.mkParams a b c d n f g else
      if bool_decide (key = "ArbitrationTimeLimit") then Service.mkParams a b c d e n g else p
  | VUint64 n => if bool_decide (key = "TxSizeLimit") then Service.mkParams a b c d e f n else p
  | _ => p
  end.
Definition auth_write (key : string) (v : ParamValue) (p : AuthParams) : AuthParams :=
  let '(mkAuthParams a b) := p in
  match v with
  | VInt n => if bool_decide (key = "gasPriceThreshold") then mkAuthParams n b else p
  | VUint64 n => if bool_decide (key = "txSizeLimit") then mkAuthParams a n else p
  | _ => p
  end.
Definition stake_write (key : string) (v : ParamValue) (p : StakeTypes.Params) : StakeTypes.Params :=
  match v with
  | VDuration n => if bool_decide (key = "UnbondingTime") then StakeTypes.mkParams n (MaxValidators p) else p
  | VUint16 n => if bool_decide (key = "MaxValidators") then StakeTypes.mkParams (UnbondingTime p) n else p
  | _ => p
  end.
Definition distr_write (key : string) (v : ParamValue) (p : DistrTypes.Params) : DistrTypes.Params :=
  let '(DistrTypes.mkParams a b c) := p in
  match v with
  | VDec x =>
      if bool_decide (key = "CommunityTax") then DistrTypes.mkParams x b c else
      if bool_decide (key = "BaseProposerReward") then DistrTypes.mkParams a x c else
      if bool_decide (key = "BonusProposerReward") then DistrTypes.mkParams a b x else p
  | _ => p
  end.
Definition asset_write (key : string) (v : ParamValue) (p : Asset.Params) : Asset.Params :=
  let '(Asset.mkParams a b c d e) := p in
  match v with
  | VDec x =>
      if bool_decide (key = "AssetTaxRate") then Asset.mkParams x b c d e else
      if bool_decide (key = "MintTokenFeeRatio") then Asset.mkParams a b x d e else
      if bool_decide (key = "GatewayAssetFeeRatio") then Asset.mkParams a b c d x else p
  | VCoin x =>
      if bool_decide (key = "IssueTokenBaseFee") then Asset.mkParams a x c d e else
      if bool_decide (key = "CreateGatewayBaseFee") then Asset.mkParams a b c x e else p
  | _ => p
  end.
(** The value is not nil and has the type of its key, so that the cases left out
    do not arise; the check of governance's own set returns nothing. *)
Definition write_param (space key : string) (v : ParamValue) (w : World) : World :=
  let x := st_other (w_chain w) in
  if bool_decide (space = "mint") then
    match v with
    | VDec d => set_chain (set_other (mkOthers (o_slash x) (o_distr x) (o_fees x) (o_minter x) (Mint.mkParams d) (written_off x)) (w_chain w)) w
    | _ => w
    end else
  if bool_decide (space = "slashing") then
    set_chain (set_other (set_part (Slashing.with_params (slashing_write key v (Slashing.sl_params (o_slash x))) (o_slash x)) x) (w_chain w)) w else
  if bool_decide (space = "service") then set_service (service_write key v (w_service w)) w else
  if bool_decide (space = "auth") then
    set_chain (set_other (set_part (mkFees (collectedFees (o_fees x)) (feeAuth (o_fees x)) (auth_write key v (feeParams (o_fees x)))) x) (w_chain w)) w else
  if bool_decide (space = "stake") then set_chain (set_params (stake_write key v (st_params (w_chain w))) (w_chain w)) w else
  if bool_decide (space = "distr") then
    set_chain (set_other (set_part (Distr.set_dparams (distr_write key v (Distr.d_params (o_distr x))) (o_distr x)) x) (w_chain w)) w else
  if bool_decide (space = "asset") then set_asset_params (asset_write key v (w_asset w)) w else
  if bool_decide (space = "coinswap") then match v with VRat r => set_swap (mkSwapParams r) w | _ => w end else w.
(** The parameters of a module under their keys ([KeyValuePairs] of its set). *)
Definition mint_KeyValuePairs (p : Mint.Params) : list (string * ParamValue) := [("Inflation", VDec (Mint.Inflation p))].
Definition slashing_KeyValuePairs (p : Slashing.Params) : list (string * ParamValue) :=
  let '(Slashing.mkParams a b c d e f g h i) := p in
  [("MaxEvidenceAge", VInt64 a); ("SignedBlocksWindow", VInt64 b); ("MinSignedPerWindow", VDec c);
   ("DoubleSignJailDuration", VDuration d); ("DowntimeJailDuration", VDuration e); ("CensorshipJailDuration", VDuration f);
   ("SlashFractionDoubleSign", VDec g); ("SlashFractionDowntime", VDec h); ("SlashFractionCensorship", VDec i)].
Definition service_KeyValuePairs (p : Service.Params) : list (string * ParamValue) :=
  let '(Service.mkParams a b c d e f g) := p in
  [("MaxRequestTimeout", VInt64 a); ("MinDepositMultiple", VInt64 b); ("ServiceFeeTax", VDec c); ("SlashFraction", VDec d);
   ("ComplaintRetrospect", VDuration e); ("ArbitrationTimeLimit", VDuration f); ("TxSizeLimit", VUint64 g)].
Definition auth_KeyValuePairs (p : AuthParams) : list (string * ParamValue) :=
  [("gasPriceThreshold", VInt (GasPriceThreshold p)); ("txSizeLimit", VUint64 (TxSizeLimit p))].
Definition stake_KeyValuePairs (p : StakeTypes.Params) : list (string * ParamValue) :=
  [("UnbondingTime", VDuration (UnbondingTime p)); ("MaxValidators", VUint16 (MaxValidators p))].
Definition distr_KeyValuePairs (p : DistrTypes.Params) : list (string * ParamValue) :=
  let '(DistrTypes.mkParams a b c) := p in
  [("CommunityTax", VDec a); ("BaseProposerReward", VDec b); ("BonusProposerReward", VDec c)].
Definition asset_KeyValuePairs (p : Asset.Params) : list (string * ParamValue) :=
  let '(Asset.mkParams a b c d e) := p in
  [("AssetTaxRate", VDec a); ("IssueTokenBaseFee", VCoin b); ("MintTokenFeeRatio", VDec c); ("CreateGatewayBaseFee", VCoin d);
   ("GatewayAssetFeeRatio", VDec e)].
Definition swap_KeyValuePairs (p : SwapParams) : list (string * ParamValue) := [("fee", VRat (Fee p))].
Definition level_KeyValuePairs (level : string) (p : LevelParams) : list (string * ParamValue) :=
  [(level +:+ "DepositPeriod", VDuration (lp_DepositPeriod p)); (level +:+ "MinDeposit", VCoins (lp_MinDeposit p));
   (level +:+ "VotingPeriod", VDuration (lp_VotingPeriod p)); (level +:+ "MaxNum", VUint64 (lp_MaxNum p));
   (level +:+ "Threshold", VDec (lp_Threshold p)); (level +:+ "Veto", VDec (lp_Veto p));
   (level +:+ "Participation", VDec (lp_Participation p)); (level +:+ "Penalty", VDec (lp_Penalty p))].
Definition gov_KeyValuePairs (p : GovParams) : list (string * ParamValue) :=
  level_KeyValuePairs "Critical" (gp_Critical p) ++ level_KeyValuePairs "Important" (gp_Important p) ++
  level_KeyValuePairs "Normal" (gp_Normal p) ++ [("SystemHaltPeriod", VInt64 (gp_SystemHaltPeriod p))].
(** The value that [Subspace.Get] finds. *)
Definition space_pairs (space : string) (w : World) : list (string * ParamValue) :=
  let x := st_other (w_chain w) in
  if bool_decide (space = "mint") then mint_KeyValuePairs (o_mint_params x) else
  if bool_decide (space = "slashing") then slashing_KeyValuePairs (Slashing.sl_params (o_slash x)) else
  if bool_decide (space = "service") then service_KeyValuePairs (w_service w) else
  if bool_decide (space = "auth") then auth_KeyValuePairs (feeParams (o_fees x)) else
  if bool_decide (space = "stake") then stake_KeyValuePairs (st_params (w_chain w)) else
  if bool_decide (space = "distr") then distr_KeyValuePairs (Distr.d_params (o_distr x)) else
  if bool_decide (space = "asset") then asset_KeyValuePairs (w_asset w) else
  if bool_decide (space = "gov") then gov_KeyValuePairs (gv_params (w_gov w)) else
  if bool_decide (space = "coinswap") then swap_KeyValuePairs (w_swap w) else [].
Definition read_param (space key : string) (w : World) : option ParamValue := assoc key (space_pairs space w).
(** An error of the check is dropped, and leaves a nil value. *)
Definition execute_parameters (params : list Param) : WM unit :=
  match params with
  | [param] =>
      match GetParamSet mainnet (pr_Subspace param) with
      | None => panic nil_pointer
      | Some ps =>
          value <- lift (match ps_Validate ps (pr_Key param) (pr_Value param) with
                         | Ok v => Ok v | Err _ => Ok None | Panic y => Panic y end) ;;
          v <- lift (Subspace_check ps (pr_Key param) value) ;;
          modify (write_param (pr_Subspace param) (pr_Key param) v)
      end
  | _ => ret tt
  end.
Definition execute_upgrade (ctx : Ctx) (proposalID : Z) (d : Upgrade.ProtocolDefinition) : WM unit :=
  config <- on_protocol Upgrade.GetUpgradeConfig ;;
  match config with
  | Some _ => ret tt
  | None =>
      valid <- on_protocol (Upgrade.IsValidVersion (Upgrade.pd_Version d)) ;;
      if negb valid then ret tt else
      if Upgrade.pd_Height d <=? wrap64 (wrap64 (BlockHeight ctx) + 1) then ret tt else
      on_protocol (Upgrade.SetUpgradeConfig (Upgrade.mkUpgradeConfig proposalID d))
  end.
Definition Execute (ctx : Ctx) (p : Proposal) : WM unit :=
  match pp_Body p with
  | PlainText => Proposal_Validate ctx p false
  | Parameters params => execute_parameters params
  | SoftwareUpgrade d => execute_upgrade ctx (GetProposalID p) d
  | SystemHalt =>
      Proposal_Validate ctx p false ;;;
      height <- on_gov GetSystemHaltHeight ;;
      if height =? -1 then
        period <- on_gov GetSystemHaltPeriod ;; on_gov (SetSystemHaltHeight (wrap_int64 (period + BlockHeight ctx)))
      else ret tt
  | CommunityTaxUsage u =>
      Proposal_Validate ctx p false ;;;
      on_chain (Distr.AllocateFeeTax (tu_DestAddress u) (tu_Percent u) (tu_Usage u =? UsageTypeBurn))
  | TokenAddition t => on_asset (AssetKeeper.IssueToken acc_String t)
  end.

(** ** Messages (keeper.go, handler.go) *)
Definition SubmitProposal (ctx : Ctx) (c : Content) : WM unit :=
  p <- lift (NewProposal c) ;;
  let level := proposal_Level p in
  let initialDeposit := sp_InitialDeposit (content_msg c) in
  minInitialDeposit <- on_gov (getMinInitialDeposit level) ;;
  require (IsAllGTE initialDeposit minInitialDeposit) ErrNotEnoughInitialDeposit ;;;
  Proposal_Validate ctx p true ;;;
  proposalID <- on_gov getNewProposalID ;;
  procedure <- on_gov (GetDepositProcedure level) ;;
  let p := SetSubmission proposalID (BlockTime ctx) (BlockTime ctx + procedure.2) p in
  on_gov (SetProposal p ;;; InsertInactiveProposalQueue (GetDepositEndTime p) proposalID) ;;;
  AddDeposit ctx proposalID (GetProposer p) initialDeposit ;;;
  on_gov (AddProposalNum level proposalID).
Definition gov_Handler (ctx : Ctx) (msg : GovMsg) : WM unit :=
  match msg with
  | SubmitMsg c => SubmitProposal ctx c
  | DepositMsg m => AddDeposit ctx (md_ProposalID m) (md_Depositor m) (md_Amount m) ;;; ret tt
  | VoteMsg m => AddVote (mv_ProposalID m) (mv_Voter m) (mv_Option m)
  | OtherMsg => throw ErrUnknownRequest
  end.

(** ** End of a block (abci.go) *)
Definition GovEndBlocker : string := "govEndBlocker".
Definition ignore {A} (c : WM A) : WM unit :=
  λ w, match c w with (Ok _, w') | (Err _, w') => (Ok tt, w') | (Panic y, w') => (Panic y, w') end.
Definition drop_inactive (proposalID : Z) : WM unit :=
  p <- on_gov (must_proposal proposalID) ;;
  on_gov (SubProposalNum (proposal_Level p)) ;;;
  DeleteDeposits proposalID ;;;
  on_gov (DeleteProposal proposalID) ;;;
  on_gov (RemoveFromInactiveProposalQueue (GetDepositEndTime p) (GetProposalID p)) ;;;
  on_gov (GetDepositProcedure (proposal_Level p)) ;;; ret tt.
Definition punish (ctx : Ctx) (level : ProposalLevel) (votingVals : gset string) (valAddr : ValAddress) : WM unit :=
  if bool_decide (val_String valAddr ∈ votingVals) then ret tt else
  val <- on_chain (GetValidator valAddr) ;;
  match val with
  | None => ret tt
  | Some v =>
      if decide (v_Status v = Bonded) then
        power <- lift (tm_power v) ;;
        procedure <- on_gov (GetTallyingProcedure level) ;;
        on_chain (Slash ctx (ConsAddr v) (BlockHeight ctx) power (lp_Penalty procedure))
      else ret tt
  end.
Definition finish_active (ctx : Ctx) (proposalID : Z) : WM unit :=
  p <- on_gov (must_proposal proposalID) ;;
  r <- tally p ;;
  let '(result, results, votingVals) := r in
  let level := proposal_Level p in
  p <- (match result with
        | PASS =>
            RefundDeposits (GetProposalID p) ;;;
            let p := SetStatus StatusPassed p in
            ignore (Execute ctx p) ;;; ret p
        | REJECT => RefundDeposits (GetProposalID p) ;;; ret (SetStatus StatusRejected p)
        | REJECTVETO => DeleteDeposits (GetProposalID p) ;;; ret (SetStatus StatusRejected p)
        end) ;;
  on_gov (RemoveFromActiveProposalQueue (GetVotingEndTime p) (GetProposalID p)) ;;;
  on_gov (SetProposal (SetTallyResult results p)) ;;;
  vals <- on_gov (GetValidatorSet proposalID) ;;
  for_each vals (punish ctx level votingVals) ;;;
  on_gov (SubProposalNum level) ;;;
  on_gov (DeleteValidatorSet (GetProposalID p)).
(** The result is whether the block has the tag that stops the chain. *)
Definition EndBlocker (ctx : Ctx) : WM bool :=
  let ctx := WithCoinFlowTrigger GovEndBlocker ctx in
  haltHeight <- on_gov GetSystemHaltHeight ;;
  inactive <- on_gov (InactiveProposalQueueIterator (BlockTime ctx)) ;;
  for_each inactive (λ kv, drop_inactive kv.2) ;;;
  active <- on_gov (ActiveProposalQueueIterator (BlockTime ctx)) ;;
  for_each active (λ kv, finish_active ctx kv.2) ;;;
  ret (BlockHeight ctx =? haltHeight).

(** ** Genesis (genesis.go) *)
Definition StartingProposalID : Z := 1.
Definition InitGenesis (data : GovParams) : WM unit :=
  must (lift (validateParams data)) ;;;
  must (on_gov (setInitialProposalID StartingProposalID)) ;;;
  on_gov (SetSystemHaltHeight (-1)) ;;;
  on_gov (gov_SetParamSet data).
Definition ExportGenesis : WM GovParams := gets (λ w, gv_params (w_gov w)).
Definition PrepForZeroHeightGenesis : WM unit :=
  ps <- gets (λ w, GetProposalsFiltered "" "" StatusDepositPeriod 0 (w_gov w)) ;;
  for_each ps (λ p, RefundDeposits (GetProposalID p)) ;;;
  ps <- gets (λ w, GetProposalsFiltered "" "" StatusVotingPeriod 0 (w_gov w)) ;;
  for_each ps (λ p, RefundDeposits (GetProposalID p)).
Definition Init : WM unit := if mainnet then on_gov (gov_SetParamSet (DefaultParams mainnet)) else ret tt.

(** ** Queries (queryable.go), on their parsed parameters *)
Inductive Query :=
| QueryProposals (voter depositor : AccAddress) (status : string) (limit : Z)
| QueryProposal (proposalID : Z)
| QueryDeposits (proposalID : Z)
| QueryDeposit (proposalID : Z) (depositor : AccAddress)
| QueryVotes (proposalID : Z)
| QueryVote (proposalID : Z) (voter : AccAddress)
| QueryTally (proposalID : Z)
| QueryOther.
Inductive Answer :=
| AProposals (l : list Proposal) | AProposal (p : Proposal) | ADeposits (l : list Deposit) | ADeposit (d : Deposit)
| AVotes (l : list Vote) | AVote (v : Vote) | ATally (t : TallyResult).
Definition known_proposal (proposalID : Z) : WM Proposal :=
  p <- on_gov (GetProposal proposalID) ;; match p with None => throw ErrUnknownProposal | Some p => ret p end.
Definition finished (p : Proposal) : bool := bool_decide (GetStatus p = StatusPassed) || bool_decide (GetStatus p = StatusRejected).
Definition gov_Querier (q : Query) : WM Answer :=
  match q with
  | QueryProposals voter depositor status limit =>
      gets (λ w, AProposals (GetProposalsFiltered voter depositor (default StatusNil (ProposalStatusFromString status)) limit (w_gov w)))
  | QueryProposal id => p <- known_proposal id ;; ret (AProposal p)
  | QueryDeposits id =>
      p <- known_proposal id ;; require (negb (finished p)) ErrCodeDepositDeleted ;;;
      gets (λ w, ADeposits (GetDeposits id (w_gov w)).*2)
  | QueryDeposit id depositor =>
      p <- known_proposal id ;; require (negb (finished p)) ErrCodeDepositDeleted ;;;
      d <- on_gov (GetDeposit id depositor) ;; match d with None => throw ErrCodeDepositNotExisted | Some d => ret (ADeposit d) end
  | QueryVotes id => known_proposal id ;;; gets (λ w, AVotes (GetVotes id (w_gov w)).*2)
  | QueryVote id voter =>
      known_proposal id ;;;
      v <- on_gov (GetVote id voter) ;; match v with None => throw ErrCodeVoteNotExisted | Some v => ret (AVote v) end
  | QueryTally id =>
      p <- known_proposal id ;;
      match GetStatus p with
      | StatusDepositPeriod => ret (ATally EmptyTallyResult)
      | StatusPassed | StatusRejected => ret (ATally (bp_TallyResult (pp_Basic p)))
      | _ => r <- tally p ;; ret (ATally r.1.2)
      end
  | QueryOther => throw ErrUnknownRequest
  end.
End keeper.
End Gov.
