(* ===== verification/GovFacts.v ===== *)
(** * Governance: its store, its operations and the end of a block

    [GovFacts]: the keys of the deposits, votes and queues, and the invariant of
    the store, with every open proposal in one queue and covered by its deposits.
    [GovOps]: what every operation of the keeper does to the store and to the
    account of the deposits.  [GovEnd]: what the end of a block does. *)

From Stdlib Require Import Ascii.
From S2P Require Import Prelude SdkErrors Frame IntType GoStrings Denom Coin CoinFacts Dec TimeBytes KVStore CacheKVThms PrefixKV Auth StdTx Bank BankFacts BankBurn BankFrame Mint Guardian Service ServiceFacts StakeTypes Stake StakeFacts StakeInv StakeFrame StakeSlash StakeSet StakeApply StakeDue StakeThms StakeSteps Slashing SlashFacts DistrTypes Distr DistrFacts Chain Asset AssetKeeper Coinswap ParamSets Upgrade GovTypes Gov.
#[local] Open Scope Z_scope.

Module GovFacts.
Import StakeTypes Stake StakeFacts StakeQueue StakeInv StakeFrame StakeDue StakeSteps SlashFacts Chain ParamSets GovTypes Gov.

(** ** Keys *)
Lemma digits_no_colon n : 0 ≤ n → ":"%char ∉ digits n.
Proof. intros Hn Hin. pose proof (digits_digit n Hn) as Hd. rewrite Forall_forall in Hd. by specialize (Hd _ Hin). Qed.
Lemma digits_inj n m : 0 ≤ n → 0 ≤ m → digits n = digits m → n = m.
Proof. intros Hn Hm E. pose proof (digits_parse n Hn) as P. rewrite E, digits_parse in P by done. by injection P. Qed.
Lemma hex_upper c :
  hex_val (upper_char (hex_digit (byte_val c / 16))) = Some (byte_val c / 16) ∧
  hex_val (upper_char (hex_digit (byte_val c mod 16))) = Some (byte_val c mod 16).
Proof. destruct c as [[] [] [] [] [] [] [] []]; vm_compute; split; reflexivity. Qed.
Lemma address_text_inj a b : address_text a = address_text b → a = b.
Proof.
  intros E%(f_equal DecodeString). unfold DecodeString, address_text in E. rewrite !chars_str in E.
  assert (∀ l, hex_decode (upper_char <$> hex_encode l) = Some l) as Hd.
  { induction l as [|c l IH]; [done|]. cbn [hex_encode]. rewrite !fmap_cons. cbn [hex_decode].
    destruct (hex_upper c) as [-> ->]. destruct (byte_hex c) as (_&_&->). by rewrite IH. }
  rewrite !Hd in E. simpl in E. rewrite !str_chars in E. by injection E.
Qed.
(** The keys under a prefix with the number of a proposal. *)
Lemma numbered_prefix (p : string) n m t :
  0 ≤ n → 0 ≤ m → HasPrefix (p +:+ id_text n +:+ ":" +:+ t) (p +:+ id_text m +:+ ":") = true ↔ n = m.
Proof.
  intros Hn Hm. rewrite HasPrefix_iff. split.
  - intros [u E]. apply (f_equal chars) in E. rewrite !chars_app, <-!app_assoc in E. apply app_inv_head in E. unfold id_text in E. rewrite !chars_str in E.
    apply (digits_inj n m Hn Hm). eapply first_sep_inj; [by apply digits_no_colon..|exact E].
  - intros ->. exists t. apply chars_inj. by rewrite !chars_app, <-!app_assoc.
Qed.
Lemma deposits_prefix n m a : 0 ≤ n → 0 ≤ m → HasPrefix (KeyDeposit n a) (KeyDepositsSubspace m) = true ↔ n = m.
Proof.
  intros Hn Hm. rewrite <-(numbered_prefix "deposits:" n m (address_text a) Hn Hm). unfold KeyDeposit, KeyDepositsSubspace.
  by rewrite <-!str_app_assoc.
Qed.
Lemma votes_prefix n m a : 0 ≤ n → 0 ≤ m → HasPrefix (KeyVote n a) (KeyVotesSubspace m) = true ↔ n = m.
Proof.
  intros Hn Hm. rewrite <-(numbered_prefix "votes:" n m (address_text a) Hn Hm). unfold KeyVote, KeyVotesSubspace.
  by rewrite <-!str_app_assoc.
Qed.
Lemma KeyDeposit_inj n m a b : 0 ≤ n → 0 ≤ m → KeyDeposit n a = KeyDeposit m b → n = m ∧ a = b.
Proof.
  intros Hn Hm E. assert (n = m) as <-.
  { apply (deposits_prefix n m a Hn Hm). rewrite E. unfold KeyDeposit. apply HasPrefix_app. }
  split; [done|]. apply (f_equal chars) in E. unfold KeyDeposit in E. rewrite !chars_app in E. apply app_inv_head in E.
  by apply address_text_inj, chars_inj.
Qed.
Lemma KeyVote_inj n m a b : 0 ≤ n → 0 ≤ m → KeyVote n a = KeyVote m b → n = m ∧ a = b.
Proof.
  intros Hn Hm E. assert (n = m) as <-.
  { apply (votes_prefix n m a Hn Hm). rewrite E. unfold KeyVote. apply HasPrefix_app. }
  split; [done|]. apply (f_equal chars) in E. unfold KeyVote in E. rewrite !chars_app in E. apply app_inv_head in E.
  by apply address_text_inj, chars_inj.
Qed.

(** ** The keys of the queues *)
Lemma FormatTimeBytes_length t : in_calendar t → str_len (FormatTimeBytes t) = 29%nat.
Proof.
  unfold in_calendar, year10000, FormatTimeBytes. change secondsPerDay with 86400. change Second with 1000000000. intros Ht.
  assert (0 ≤ t / 1000000000 / 86400 < 2932897) as Hd by (Z.div_mod_to_equations; lia).
  pose proof (Date_bounds _ Hd) as B. pose proof (clock_bounds (t / 1000000000 mod 86400) ltac:(Z.div_mod_to_equations; lia)) as C.
  assert (0 ≤ t mod 1000000000 < 1000000000) as N by (Z.div_mod_to_equations; lia).
  destruct (Date (t / 1000000000 / 86400)) as [[y m] d]. unfold str_len. rewrite chars_str.
  assert (∀ x w, 0 ≤ x < 10 ^ Z.of_nat w → (0 < w)%nat → length (appendInt x w) = w) as L by (intros; by apply appendInt_parse).
  repeat (rewrite ?length_app; cbn [length]; rewrite ?L by (simpl; lia)). done.
Qed.
Lemma queue_key_id p t t' n m :
  0 ≤ n < 2^64 → 0 ≤ m < 2^64 → queue_key p t n = queue_key p t' m → n = m.
Proof.
  intros Hn Hm E. unfold queue_key in E. apply (f_equal (λ s, rev (chars s))) in E.
  rewrite !chars_app, !rev_app_distr, <-!app_assoc in E. apply app_inj_1 in E as [E _].
  - apply rev_inj in E. apply chars_inj in E. by apply Uint64ToBigEndian_inj.
  - rewrite !length_rev. pose proof (Uint64ToBigEndian_length n) as Ln. pose proof (Uint64ToBigEndian_length m) as Lm. unfold str_len in *. congruence.
Qed.
Lemma queue_due p t n now :
  in_calendar t → in_calendar now → in_domain_b (queue_key p t n) (Some p) (pend (queue_time p now)) = true ↔ t ≤ now.
Proof.
  intros Ht Hnow. rewrite in_domain_b_spec. set (k := queue_key p t n).
  assert (k = queue_time p t +:+ ":" +:+ Uint64ToBigEndian n) as Ek by done.
  assert (str_le p k) as Hle. { apply pend_spec, HasPrefix_iff. eexists. unfold k, queue_key, queue_time. by rewrite <-!str_app_assoc. }
  assert (∀ u, in_calendar u → str_len (queue_time p u) = (str_len p + 30)%nat) as Hlen.
  { intros u Hu. unfold queue_time. rewrite !str_len_app, (FormatTimeBytes_length u Hu). done. }
  assert (HasPrefix (queue_time p now) (queue_time p now) = true) as [_ Hq]%pend_spec by (apply HasPrefix_iff; exists ""; by rewrite str_nil_r).
  assert (∀ u v, in_calendar u → in_calendar v → u < v → str_lt (queue_time p u) (queue_time p v)) as Hmono.
  { intros u v [Hu _] [_ Hv] Huv. unfold queue_time. do 2 apply str_lt_app_l. by apply FormatTimeBytes_lt. }
  unfold in_domain. split.
  - intros [_ Hb]. destruct (decide (t ≤ now)) as [|Hgt]; [done|]. exfalso.
    assert (HasPrefix k (queue_time p now) = true) as (u&Eu)%HasPrefix_iff.
    { apply pend_spec. split; [|exact Hb]. intros Hlt. apply (str_lt_irrefl k). etrans; [exact Hlt|]. rewrite Ek, <-(str_nil_r (queue_time p now)).
      apply str_lt_field; [by rewrite !Hlen|]. apply Hmono; [done..|lia]. }
    rewrite Ek in Eu. apply str_app_inj in Eu as [Eu _]; [|by rewrite !Hlen].
    apply (str_lt_irrefl (queue_time p t)). rewrite Eu at 1. apply Hmono; [done..|lia].
  - intros Htn. split; [by intros a [= <-]|]. intros e He. destruct (decide (t = now)) as [->|].
    + assert (HasPrefix k (queue_time p now) = true) as [_ H]%pend_spec; [|by apply H]. apply HasPrefix_iff. by eexists.
    + etrans; [|by apply Hq]. rewrite Ek, <-(str_nil_r (queue_time p now)). apply str_lt_field; [by rewrite !Hlen|]. apply Hmono; [done..|lia].
Qed.
(** An iteration takes the entries that are due. *)
Lemma queue_iterator_ok p now q : ∃ l, queue_iterator p now q = Ok l ∧ NoDup l.*1 ∧
  ∀ k id, (k, id) ∈ l ↔ q !! k = Some id ∧ in_domain_b k (Some p) (pend (queue_time p now)) = true.
Proof.
  unfold queue_iterator. rewrite PrefixEndBytes_pend. 2:{ unfold queue_time. by destruct p. } eexists. split; [reflexivity|]. split.
  - eapply sublist_NoDup; [apply (entries_NoDup q)|]. apply fmap_sublist, sublist_filter.
  - intros k id. rewrite list_elem_of_filter, entries_elem. naive_solver.
Qed.

(** ** The invariant of the store *)
Import ServiceFacts (iris, iris_coins).
Definition is_open (p : Proposal) : Prop := GetStatus p = StatusDepositPeriod ∨ GetStatus p = StatusVotingPeriod.
#[export] Instance is_open_dec p : Decision (is_open p).
Proof. unfold is_open. apply _. Defined.
Definition one_coin (l : LevelParams) : Prop := ∃ n, 0 < n ∧ lp_MinDeposit l = [mkCoin IrisAtto n].
Definition params_ok (P : GovParams) : Prop :=
  validateParams P = Ok tt ∧ one_coin (gp_Critical P) ∧ one_coin (gp_Important P) ∧ one_coin (gp_Normal P) ∧
  lp_MaxNum (gp_Normal P) < 2^64.
Definition level_of (P : GovParams) (l : ProposalLevel) : LevelParams :=
  match l with ProposalLevelImportant => gp_Important P | ProposalLevelNormal => gp_Normal P | _ => gp_Critical P end.
Definition min_deposit (P : GovParams) (p : Proposal) : Z := iris (lp_MinDeposit (level_of P (proposal_Level p))).
Definition deposits_of (id : Z) (g : GovStore) : Z :=
  map_sum (λ d, if decide (dp_ProposalID d = id) then iris (dp_Amount d) else 0) (gv_deposits g).
Definition all_deposits (g : GovStore) : Z := map_sum (λ d, iris (dp_Amount d)) (gv_deposits g).
Definition next_id (g : GovStore) : Z := default 0 (gv_nextID g).
Record proposal_ok (P : GovParams) (g : GovStore) (id : Z) (p : Proposal) : Prop := {
  po_id : GetProposalID p = id;
  po_range : 0 ≤ id < next_id g;
  po_level : proposal_Level p ≠ ProposalLevelNil;
  po_status : GetStatus p ≠ StatusNil;
  po_deposit_end : in_calendar (GetDepositEndTime p);
  po_voting_end : GetStatus p = StatusVotingPeriod → in_calendar (GetVotingEndTime p);
  po_total : iris_coins (GetTotalDeposit p);
  po_open : is_open p → iris (GetTotalDeposit p) = deposits_of id g;
  po_enough : GetStatus p = StatusVotingPeriod → min_deposit P p ≤ iris (GetTotalDeposit p) }.
Definition queued (end_of : Proposal → Z) (key : Z → Z → string) (st : ProposalStatus) (g : GovStore) (q : gmap string Z) : Prop :=
  ∀ k id, q !! k = Some id ↔ ∃ p, gv_proposals g !! id = Some p ∧ GetStatus p = st ∧ k = key (end_of p) id.
Record gov_ok (P : GovParams) (g : GovStore) : Prop := {
  go_params : gv_params g = P;
  go_next : is_Some (gv_nextID g) ∧ 0 < next_id g < 2^64;
  go_proposal id p : gv_proposals g !! id = Some p → proposal_ok P g id p;
  go_inactive : queued GetDepositEndTime KeyInactiveProposalQueueProposal StatusDepositPeriod g (gv_inactive g);
  go_active : queued GetVotingEndTime KeyActiveProposalQueueProposal StatusVotingPeriod g (gv_active g);
  go_deposit k d : gv_deposits g !! k = Some d →
    k = KeyDeposit (dp_ProposalID d) (dp_Depositor d) ∧ (∃ n, 0 < n ∧ dp_Amount d = [mkCoin IrisAtto n]) ∧
    ∃ p, gv_proposals g !! dp_ProposalID d = Some p ∧ is_open p;
  go_vote k v : gv_votes g !! k = Some v →
    k = KeyVote (vt_ProposalID v) (vt_Voter v) ∧ ValidVoteOption (vt_Option v) = true ∧
    ∃ p, gv_proposals g !! vt_ProposalID v = Some p ∧ GetStatus p ≠ StatusDepositPeriod;
  go_set id : is_Some (gv_validatorSet g !! id) ↔ ∃ p, gv_proposals g !! id = Some p ∧ GetStatus p = StatusVotingPeriod }.

(** ** Changes of the store that keep it *)
(** Entries of a queue under the keys of their own number. *)
Definition keyed (pre : string) (q : gmap string Z) : Prop :=
  ∀ k id, q !! k = Some id → 0 ≤ id < 2^64 ∧ ∃ t, k = queue_key pre t id.
Lemma q_insert pre q t id k id' :
  keyed pre q → 0 ≤ id < 2^64 → (∀ k, q !! k ≠ Some id) →
  <[queue_key pre t id := id]> q !! k = Some id' ↔ if decide (id' = id) then k = queue_key pre t id else q !! k = Some id'.
Proof.
  intros Hq Hid Hno. rewrite lookup_insert_Some. case_decide as E; [subst id'|].
  - split; [|by left]. by intros [[? _]|[_ ?%Hno]].
  - split; [by intros [[_ ?]|[_ ?]]|]. intros Hk. right. split; [|done]. intros <-.
    destruct (Hq _ _ Hk) as (Hr&u&Eu). by apply queue_key_id in Eu.
Qed.
Lemma q_delete pre q t id k id' :
  keyed pre q → 0 ≤ id < 2^64 → (∀ k, q !! k = Some id → k = queue_key pre t id) →
  delete (queue_key pre t id) q !! k = Some id' ↔ if decide (id' = id) then False else q !! k = Some id'.
Proof.
  intros Hq Hid Hone. rewrite lookup_delete_Some. case_decide as E; [subst id'|].
  - split; [|done]. intros [Hne Hk]. by destruct Hne; rewrite (Hone _ Hk).
  - split; [by intros [_ ?]|]. intros Hk. split; [|done]. intros <-.
    destruct (Hq _ _ Hk) as (Hr&u&Eu). by apply queue_key_id in Eu.
Qed.
Section ok.
Context {P : GovParams} {g : GovStore} (Hok : gov_ok P g).
Lemma ok_range id p : gv_proposals g !! id = Some p → 0 ≤ id < 2^64.
Proof using Hok. intros Hp. pose proof (po_range _ _ _ _ (go_proposal _ _ Hok _ _ Hp)). pose proof (go_next _ _ Hok). lia. Qed.
Lemma ok_inactive_keyed : keyed PrefixInactiveProposalQueue (gv_inactive g).
Proof using Hok. intros k id (p&Hp&_&->)%(go_inactive _ _ Hok). split; [by eapply ok_range|]. by eexists. Qed.
Lemma ok_active_keyed : keyed PrefixActiveProposalQueue (gv_active g).
Proof using Hok. intros k id (p&Hp&_&->)%(go_active _ _ Hok). split; [by eapply ok_range|]. by eexists. Qed.
(** One proposal changes, with its entries. *)
Lemma ok_change g' id (op : option Proposal) :
  gv_params g' = gv_params g → is_Some (gv_nextID g') → next_id g ≤ next_id g' < 2^64 →
  (∀ i, gv_proposals g' !! i = if decide (i = id) then op else gv_proposals g !! i) →
  (∀ p, op = Some p → proposal_ok P g' id p) →
  (∀ i, i ≠ id → deposits_of i g' = deposits_of i g) →
  (∀ k i, gv_inactive g' !! k = Some i ↔
    if decide (i = id) then ∃ p, op = Some p ∧ GetStatus p = StatusDepositPeriod ∧ k = KeyInactiveProposalQueueProposal (GetDepositEndTime p) id
    else gv_inactive g !! k = Some i) →
  (∀ k i, gv_active g' !! k = Some i ↔
    if decide (i = id) then ∃ p, op = Some p ∧ GetStatus p = StatusVotingPeriod ∧ k = KeyActiveProposalQueueProposal (GetVotingEndTime p) id
    else gv_active g !! k = Some i) →
  (∀ k d, gv_deposits g' !! k = Some d →
    if decide (dp_ProposalID d = id) then k = KeyDeposit id (dp_Depositor d) ∧ (∃ n, 0 < n ∧ dp_Amount d = [mkCoin IrisAtto n]) ∧ ∃ p, op = Some p ∧ is_open p
    else gv_deposits g !! k = Some d) →
  (∀ k v, gv_votes g' !! k = Some v →
    if decide (vt_ProposalID v = id) then k = KeyVote id (vt_Voter v) ∧ ValidVoteOption (vt_Option v) = true ∧ ∃ p, op = Some p ∧ GetStatus p ≠ StatusDepositPeriod
    else gv_votes g !! k = Some v) →
  (∀ i, is_Some (gv_validatorSet g' !! i) ↔
    if decide (i = id) then ∃ p, op = Some p ∧ GetStatus p = StatusVotingPeriod else is_Some (gv_validatorSet g !! i)) →
  gov_ok P g'.
Proof using Hok.
  intros Hp Hn Hle Hprop Hnew Hdep Hin Hac Hde Hvo Hse. split.
  - by rewrite Hp, (go_params _ _ Hok).
  - split; [done|]. pose proof (go_next _ _ Hok). lia.
  - intros i p. rewrite Hprop. case_decide as E; [by intros ->; subst; apply Hnew|]. intros Hi.
    destruct (go_proposal _ _ Hok _ _ Hi) as [H1 H2 H3 H4 H5 H6 H7 H8 H9]. split; try done; [lia|]. intros Ho. rewrite Hdep by done. by apply H8.
  - intros k i. rewrite Hin, Hprop. case_decide; [by subst|]. apply (go_inactive _ _ Hok).
  - intros k i. rewrite Hac, Hprop. case_decide; [by subst|]. apply (go_active _ _ Hok).
  - intros k d Hk%Hde. rewrite Hprop. case_decide as E; [by rewrite E|]. by apply (go_deposit _ _ Hok).
  - intros k v Hk%Hvo. rewrite Hprop. case_decide as E; [by rewrite E|]. by apply (go_vote _ _ Hok).
  - intros i. rewrite Hse, Hprop. case_decide; [done|]. apply (go_set _ _ Hok).
Qed.
(** What an entry that is not touched says. *)
Lemma ok_deposit_id k d id : gv_deposits g !! k = Some d → dp_ProposalID d = id →
  k = KeyDeposit id (dp_Depositor d) ∧ (∃ n, 0 < n ∧ dp_Amount d = [mkCoin IrisAtto n]) ∧ ∃ p, gv_proposals g !! id = Some p ∧ is_open p.
Proof using Hok. intros Hk <-. by apply (go_deposit _ _ Hok). Qed.
Lemma ok_vote_id k v id : gv_votes g !! k = Some v → vt_ProposalID v = id →
  k = KeyVote id (vt_Voter v) ∧ ValidVoteOption (vt_Option v) = true ∧ ∃ p, gv_proposals g !! id = Some p ∧ GetStatus p ≠ StatusDepositPeriod.
Proof using Hok. intros Hk <-. by apply (go_vote _ _ Hok). Qed.
Lemma ok_no_deposit id : (∀ p, gv_proposals g !! id = Some p → ¬ is_open p) → deposits_of id g = 0.
Proof using Hok.
  intros Hno. unfold deposits_of. rewrite (map_sum_ext _ (λ _, 0)); [by rewrite map_sum_list; induction (map_to_list (gv_deposits g)); csimpl|].
  intros k d Hk. case_decide as E; [|done]. destruct (ok_deposit_id _ _ _ Hk E) as (_&_&p&Hp&Ho). by destruct (Hno p).
Qed.

(** A fresh proposal. *)
Lemma ok_submitted n p :
  gv_nextID g = Some n → n + 1 < 2^64 → GetProposalID p = n → proposal_Level p ≠ ProposalLevelNil → GetStatus p = StatusDepositPeriod →
  in_calendar (GetDepositEndTime p) → GetTotalDeposit p = [] →
  gov_ok P (set_inactive (insert (KeyInactiveProposalQueueProposal (GetDepositEndTime p) n) n) (set_proposals (insert n p) (set_nextID (Some (n + 1)) g))).
Proof using Hok.
  intros En Hn Hid Hl Hst Hend Htot. pose proof (go_next _ _ Hok) as [_ Hnext]. unfold next_id in Hnext. rewrite En in Hnext. simpl in Hnext.
  assert (gv_proposals g !! n = None) as Hnone.
  { destruct (gv_proposals g !! n) as [q|] eqn:Eq; [|done]. pose proof (po_range _ _ _ _ (go_proposal _ _ Hok _ _ Eq)) as Hr.
    unfold next_id in Hr. rewrite En in Hr. simpl in Hr. lia. }
  assert (deposits_of n g = 0) as Hd0 by (apply ok_no_deposit; by rewrite Hnone).
  apply (ok_change _ n (Some p)); try done.
  - unfold next_id. simpl. rewrite En. simpl. lia.
  - intros i. simpl. case_decide as E; [subst; apply lookup_insert_eq|by apply lookup_insert_ne].
  - intros q [= <-]. split; try done; [unfold next_id; simpl; lia|congruence|congruence|by left; rewrite Htot|by rewrite Htot|congruence].
  - intros k i. simpl. unfold KeyInactiveProposalQueueProposal at 1. rewrite (q_insert PrefixInactiveProposalQueue).
    + case_decide; [|done]. subst. naive_solver.
    + by eapply ok_inactive_keyed.
    + lia.
    + intros k' (q&Hq&_)%(go_inactive _ _ Hok). congruence.
  - intros k i. simpl. case_decide; [subst|done]. rewrite (go_active _ _ Hok k). split; [naive_solver|]. intros (q&[= <-]&?&_). congruence.
  - intros k d Hk. simpl in Hk. case_decide as E; [|done]. destruct (ok_deposit_id _ _ _ Hk E) as (_&_&q&Hq&_). congruence.
  - intros k v Hk. simpl in Hk. case_decide as E; [|done]. destruct (ok_vote_id _ _ _ Hk E) as (_&_&q&Hq&_). congruence.
  - intros i. simpl. case_decide; [subst|done]. rewrite (go_set _ _ Hok). split; [naive_solver|]. intros (q&[= <-]&?). congruence.
Qed.
Lemma ok_voted id p a o :
  gv_proposals g !! id = Some p → GetStatus p = StatusVotingPeriod → ValidVoteOption o = true →
  gov_ok P (set_votes (insert (KeyVote id a) (mkVote a id o)) g).
Proof using Hok.
  intros Hp Hst Ho. destruct Hok as [H1 H2 H3 H4 H5 H6 H7 H8]. split; try done.
  - intros i q Hq. by destruct (H3 _ _ Hq).
  - intros k v. simpl. rewrite lookup_insert_Some. intros [[<- <-]|[_ Hk]]; [|by apply H7].
    split_and!; [done|done|]. simpl. exists p. by rewrite Hst.
Qed.

(** A deposit of [c] by [a], and the start of the votes. *)
Definition deposited (id : Z) (p : Proposal) (a : AccAddress) (d : Deposit) (g : GovStore) : GovStore :=
  set_deposits (insert (KeyDeposit id a) d) (set_proposals (insert id p) g).
Lemma deposits_of_insert i id a d :
  deposits_of i (set_deposits (insert (KeyDeposit id a) d) g) =
  deposits_of i g - at_key (λ d, if decide (dp_ProposalID d = i) then iris (dp_Amount d) else 0) (gv_deposits g) (KeyDeposit id a)
  + (if decide (dp_ProposalID d = i) then iris (dp_Amount d) else 0).
Proof using. unfold deposits_of. simpl. apply map_sum_insert. Qed.
Definition own_deposit (id : Z) (a : AccAddress) : Z := at_key (λ d, iris (dp_Amount d)) (gv_deposits g) (KeyDeposit id a).
(** The entry of a depositor is of the same proposal. *)
Lemma own_entry id a d : 0 ≤ id → gv_deposits g !! KeyDeposit id a = Some d → dp_ProposalID d = id ∧ dp_Depositor d = a.
Proof using Hok.
  intros Hid Hd. destruct (go_deposit _ _ Hok _ _ Hd) as (E&_&q&Hq&_). apply KeyDeposit_inj in E as [<- <-]; [done|done|].
  pose proof (ok_range _ _ Hq). lia.
Qed.
Lemma deposits_of_other i id a d : 0 ≤ id → i ≠ id → dp_ProposalID d = id → deposits_of i (set_deposits (insert (KeyDeposit id a) d) g) = deposits_of i g.
Proof using Hok.
  intros Hid Hne Ed. rewrite deposits_of_insert, Ed, (decide_False (P := id = i)) by done. unfold at_key.
  destruct (gv_deposits g !! KeyDeposit id a) as [d0|] eqn:E0; [|lia]. destruct (own_entry _ _ _ Hid E0) as [-> _]. rewrite decide_False by done. lia.
Qed.
Lemma deposits_of_own id a d : 0 ≤ id → dp_ProposalID d = id →
  deposits_of id (set_deposits (insert (KeyDeposit id a) d) g) = deposits_of id g - own_deposit id a + iris (dp_Amount d).
Proof using Hok.
  intros Hid Ed. rewrite deposits_of_insert, Ed, decide_True by done. unfold own_deposit, at_key.
  destruct (gv_deposits g !! KeyDeposit id a) as [d0|] eqn:E0; [|lia]. destruct (own_entry _ _ _ Hid E0) as [-> _]. rewrite decide_True by done. lia.
Qed.
Lemma ok_deposited id p p' a d m c :
  gv_proposals g !! id = Some p → GetStatus p = StatusDepositPeriod →
  p' = SetTotalDeposit (GetTotalDeposit p') p → iris_coins (GetTotalDeposit p') → iris (GetTotalDeposit p') = iris (GetTotalDeposit p) + c →
  dp_ProposalID d = id → dp_Depositor d = a → dp_Amount d = [mkCoin IrisAtto m] → m = own_deposit id a + c → 0 < m →
  gov_ok P (deposited id p' a d g).
Proof using Hok.
  intros Hp Hst Ep Htot Hsum Ed Ea Em Hm Hpos. pose proof (ok_range _ _ Hp) as Hr.
  destruct (go_proposal _ _ Hok _ _ Hp) as [H1 H2 H3 H4 H5 H6 H7 H8 H9].
  assert (GetStatus p' = StatusDepositPeriod) as Hst' by (by rewrite Ep).
  assert (GetDepositEndTime p' = GetDepositEndTime p) as Hend' by (by rewrite Ep).
  apply (ok_change _ id (Some p')); try done; [apply (go_next _ _ Hok)|pose proof (go_next _ _ Hok); change (next_id (deposited id p' a d g)) with (next_id g); lia|..].
  - intros i. simpl. case_decide as E; [subst; apply lookup_insert_eq|by apply lookup_insert_ne].
  - intros q [= <-]. assert (iris (dp_Amount d) = m) as Hi by (rewrite Em; simpl; lia).
    split; try done; [by rewrite Ep|by rewrite Ep|congruence|by rewrite Hend'|congruence| |congruence].
    intros _. change (iris (GetTotalDeposit p') = deposits_of id (set_deposits (insert (KeyDeposit id a) d) g)).
    rewrite deposits_of_own, Hsum, H8, Hi by (done || lia || by left). lia.
  - intros i Hne. apply (deposits_of_other i id a d); [lia|done..].
  - intros k i. simpl. case_decide; [subst i|done]. rewrite (go_inactive _ _ Hok k). split.
    + intros (q&Hq&_&->). simplify_eq. exists p'. by rewrite Hend'.
    + intros (q&[= <-]&_&->). exists p. by rewrite Hend'.
  - intros k i. simpl. case_decide; [subst i|done]. rewrite (go_active _ _ Hok k). naive_solver congruence.
  - intros k d'. simpl. rewrite lookup_insert_Some. intros [[<- <-]|[_ Hk]].
    + rewrite decide_True by done. rewrite Ea. split_and!; [done|by exists m|]. exists p'. by split; [|left].
    + case_decide as E; [|done]. destruct (ok_deposit_id _ _ _ Hk E) as (?&?&_). split_and!; [done|done|]. exists p'. by split; [|left].
  - intros k v. simpl. intros Hk. case_decide as E; [|done]. destruct (ok_vote_id _ _ _ Hk E) as (?&?&q&Hq&?). naive_solver congruence.
  - intros i. simpl. case_decide; [subst|done]. rewrite (go_set _ _ Hok). naive_solver congruence.
Qed.

Definition activated (id : Z) (p : Proposal) (vals : list ValAddress) (g : GovStore) : GovStore :=
  set_validatorSet (insert id vals)
    (set_active (insert (KeyActiveProposalQueueProposal (GetVotingEndTime p) id) id)
      (set_inactive (delete (KeyInactiveProposalQueueProposal (GetDepositEndTime p) id)) (set_proposals (insert id p) g))).
Lemma ok_activated id p p' vals t u :
  gv_proposals g !! id = Some p → GetStatus p = StatusDepositPeriod → p' = SetStatus StatusVotingPeriod (SetVotingTimes t u p) →
  in_calendar u → min_deposit P p ≤ iris (GetTotalDeposit p) → gov_ok P (activated id p' vals g).
Proof using Hok.
  intros Hp Hst Ep Hu Hmin. pose proof (ok_range _ _ Hp) as Hr.
  destruct (go_proposal _ _ Hok _ _ Hp) as [H1 H2 H3 H4 H5 H6 H7 H8 H9].
  assert (GetStatus p' = StatusVotingPeriod) as Hst' by (by rewrite Ep).
  assert (GetDepositEndTime p' = GetDepositEndTime p) as Hend' by (by rewrite Ep).
  apply (ok_change _ id (Some p')); try done; [apply (go_next _ _ Hok)|pose proof (go_next _ _ Hok); change (next_id (activated id p' vals g)) with (next_id g); lia|..].
  - intros i. simpl. case_decide as E; [subst; apply lookup_insert_eq|by apply lookup_insert_ne].
  - intros q [= <-]. split; try (subst p'; done). intros _. subst p'. apply H8. by left.
  - intros k i. simpl. unfold KeyInactiveProposalQueueProposal at 1. rewrite (q_delete PrefixInactiveProposalQueue).
    + case_decide; [|done]. split; [done|]. naive_solver congruence.
    + apply ok_inactive_keyed.
    + done.
    + intros k' (q&Hq&_&->)%(go_inactive _ _ Hok). simplify_eq. by rewrite Hend'.
  - intros k i. simpl. unfold KeyActiveProposalQueueProposal at 1. rewrite (q_insert PrefixActiveProposalQueue).
    + case_decide; [|done]. naive_solver.
    + apply ok_active_keyed.
    + done.
    + intros k' (q&Hq&?&_)%(go_active _ _ Hok). simplify_eq. congruence.
  - intros k d. simpl. intros Hk. case_decide as E; [|done]. destruct (ok_deposit_id _ _ _ Hk E) as (?&?&_). split_and!; [done|done|]. exists p'. by split; [|right].
  - intros k v. simpl. intros Hk. case_decide as E; [|done]. destruct (ok_vote_id _ _ _ Hk E) as (?&?&q&Hq&?). naive_solver congruence.
  - intros i. simpl. case_decide as E; [subst|by rewrite lookup_insert_ne]. rewrite lookup_insert_eq. naive_solver.
Qed.
(** The deposits of a proposal are gone. *)
Definition cleared (id : Z) (g : GovStore) : GovStore := set_deposits (filter (λ kd, dp_ProposalID kd.2 ≠ id)) g.
Lemma cleared_of i id : deposits_of i (cleared id g) = if decide (i = id) then 0 else deposits_of i g.
Proof using.
  unfold deposits_of, cleared. simpl. induction (gv_deposits g) as [|k d m Hk IH] using map_ind.
  { rewrite map_filter_empty, !map_sum_empty. by case_decide. }
  destruct (decide (dp_ProposalID d = id)) as [E|E].
  - rewrite map_filter_insert_False, delete_id, IH, map_sum_insert_new, E by (done || naive_solver).
    repeat case_decide; try done; try lia; congruence.
  - rewrite map_filter_insert_True, !map_sum_insert_new, IH; [|done|by apply map_lookup_filter_None; left|done].
    repeat case_decide; try lia; congruence.
Qed.
Lemma cleared_all id : all_deposits (cleared id g) = all_deposits g - deposits_of id g.
Proof using.
  unfold all_deposits, deposits_of, cleared. simpl. induction (gv_deposits g) as [|k d m Hk IH] using map_ind.
  { by rewrite map_filter_empty, !map_sum_empty. }
  destruct (decide (dp_ProposalID d = id)) as [E|E].
  - rewrite map_filter_insert_False, delete_id, IH, !map_sum_insert_new, decide_True by (done || naive_solver). lia.
  - rewrite map_filter_insert_True, !map_sum_insert_new, decide_False, IH by (done || (apply map_lookup_filter_None; by left)). lia.
Qed.
Definition closed (id : Z) (p : Proposal) (g : GovStore) : GovStore :=
  set_validatorSet (delete id) (set_proposals (insert id p)
    (set_active (delete (KeyActiveProposalQueueProposal (GetVotingEndTime p) id)) (cleared id g))).
Lemma ok_closed id p p' :
  gv_proposals g !! id = Some p → GetStatus p = StatusVotingPeriod →
  GetProposalID p' = id → proposal_Level p' = proposal_Level p → ¬ is_open p' → GetStatus p' ≠ StatusNil →
  GetDepositEndTime p' = GetDepositEndTime p → GetVotingEndTime p' = GetVotingEndTime p → GetTotalDeposit p' = GetTotalDeposit p →
  gov_ok P (closed id p' g).
Proof using Hok.
  intros Hp Hst Hid Hl Hno Hnil Hde Hve Ht. pose proof (ok_range _ _ Hp) as Hr.
  destruct (go_proposal _ _ Hok _ _ Hp) as [H1 H2 H3 H4 H5 H6 H7 H8 H9].
  assert (GetStatus p' ≠ StatusDepositPeriod ∧ GetStatus p' ≠ StatusVotingPeriod) as [Hn1 Hn2] by (unfold is_open in Hno; tauto).
  apply (ok_change _ id (Some p')); try done; [apply (go_next _ _ Hok)|pose proof (go_next _ _ Hok); change (next_id (closed id p' g)) with (next_id g); lia|..].
  - intros i. simpl. case_decide as E; [subst; apply lookup_insert_eq|by apply lookup_insert_ne].
  - intros q [= <-]. split; try done; [by rewrite Hl|by rewrite Hde|by rewrite Ht].
  - intros i Hne. change (deposits_of i (cleared id g) = deposits_of i g). by rewrite cleared_of, decide_False.
  - intros k i. simpl. case_decide; [subst i|done]. rewrite (go_inactive _ _ Hok k). naive_solver congruence.
  - intros k i. simpl. unfold KeyActiveProposalQueueProposal at 1. rewrite (q_delete PrefixActiveProposalQueue).
    + case_decide; [|done]. split; [done|]. naive_solver congruence.
    + apply ok_active_keyed.
    + done.
    + intros k' (q&Hq&_&->)%(go_active _ _ Hok). simplify_eq. by rewrite Hve.
  - intros k d. simpl. intros [Hk Hd]%map_lookup_filter_Some. simpl in Hd. by rewrite decide_False.
  - intros k v. simpl. intros Hk. case_decide as E; [|done]. destruct (ok_vote_id _ _ _ Hk E) as (?&?&q&Hq&?). naive_solver.
  - intros i. simpl. case_decide as E; [subst|by rewrite lookup_delete_ne]. rewrite lookup_delete_eq. split; [by intros []|]. naive_solver.
Qed.
Definition dropped (id : Z) (p : Proposal) (g : GovStore) : GovStore :=
  set_proposals (delete id) (set_active (delete (KeyActiveProposalQueueProposal (GetVotingEndTime p) id))
    (set_inactive (delete (KeyInactiveProposalQueueProposal (GetDepositEndTime p) id)) (cleared id g))).
Lemma ok_dropped id p :
  gv_proposals g !! id = Some p → GetStatus p = StatusDepositPeriod → gov_ok P (dropped id p g).
Proof using Hok.
  intros Hp Hst. pose proof (ok_range _ _ Hp) as Hr.
  apply (ok_change _ id None); try done; [apply (go_next _ _ Hok)|pose proof (go_next _ _ Hok); change (next_id (dropped id p g)) with (next_id g); lia|..].
  - intros i. simpl. case_decide as E; [subst; apply lookup_delete_eq|by apply lookup_delete_ne].
  - intros i Hne. change (deposits_of i (cleared id g) = deposits_of i g). by rewrite cleared_of, decide_False.
  - intros k i. simpl. unfold KeyInactiveProposalQueueProposal at 1. rewrite (q_delete PrefixInactiveProposalQueue).
    + case_decide; [naive_solver|done].
    + apply ok_inactive_keyed.
    + done.
    + intros k' (q&Hq&_&->)%(go_inactive _ _ Hok). by simplify_eq.
  - intros k i. simpl. unfold KeyActiveProposalQueueProposal at 1. rewrite (q_delete PrefixActiveProposalQueue).
    + case_decide; [naive_solver|done].
    + apply ok_active_keyed.
    + done.
    + intros k' (q&Hq&?&->)%(go_active _ _ Hok). simplify_eq. congruence.
  - intros k d. simpl. intros [Hk Hd]%map_lookup_filter_Some. simpl in Hd. by rewrite decide_False.
  - intros k v. simpl. intros Hk. case_decide as E; [|done]. destruct (ok_vote_id _ _ _ Hk E) as (?&?&q&Hq&?). naive_solver.
  - intros i. simpl. case_decide as E; [subst|done]. rewrite (go_set _ _ Hok). naive_solver congruence.
Qed.
End ok.
(** The other fields do not matter. *)
Lemma ok_same P g g' :
  gov_ok P g → gv_params g' = gv_params g → gv_nextID g' = gv_nextID g → gv_proposals g' = gv_proposals g → gv_deposits g' = gv_deposits g →
  gv_votes g' = gv_votes g → gv_active g' = gv_active g → gv_inactive g' = gv_inactive g → gv_validatorSet g' = gv_validatorSet g → gov_ok P g'.
Proof.
  destruct g, g'. simpl. intros [H1 H2 H3 H4 H5 H6 H7 H8] -> -> -> -> -> -> -> ->. split; try done. intros id p Hp. by destruct (H3 id p Hp).
Qed.
End GovFacts.

(** ** Governance: what the operations do

    The effect of every operation of the keeper on the store of governance and on
    the account of the deposits. *)
Module GovOps.
Import StakeTypes Stake StakeFacts StakeQueue StakeInv StakeFrame StakeDue StakeSteps SlashFacts DistrFacts Chain ParamSets GovTypes Gov GovFacts.
Import ServiceFacts (iris, iris_coins).

(** ** Views of the world *)
Lemma wp_gov_must {A} (c : M World A) (Q : A → World → Prop) w : wp c Q w → wp (Gov.must c) Q w.
Proof. intros Hc a w'. unfold Gov.must. destruct (c w) as [[b|e|y] w1] eqn:E; [|done..]. intros [= <- <-]. by apply Hc. Qed.
Lemma set_chain_same w : set_chain (w_chain w) w = w.
Proof. by destruct w. Qed.
Lemma set_gov_same w : set_gov (w_gov w) w = w.
Proof. by destruct w. Qed.
Lemma wp_gov {A} (c : M GovStore A) (Q : A → World → Prop) w : wp c (λ a g, Q a (set_gov g w)) (w_gov w) → wp (on_gov c) Q w.
Proof. intros Hc. apply wp_zoom. intros a g. apply Hc. Qed.
Lemma wp_gov_read {A} (c : M GovStore A) (Q : A → World → Prop) w : wp c (λ a g, g = w_gov w ∧ Q a w) (w_gov w) → wp (on_gov c) Q w.
Proof. intros Hc. apply wp_gov. eapply wp_mono; [exact Hc|]. intros a g [-> HQ]. by rewrite set_gov_same. Qed.
Lemma wp_chain {A} (c : M ChainState A) (Q : A → World → Prop) w : wp c (λ a s, Q a (set_chain s w)) (w_chain w) → wp (on_chain c) Q w.
Proof. intros Hc. apply wp_zoom. intros a s. apply Hc. Qed.
Lemma wp_chain_read {A} (c : M ChainState A) (Q : A → World → Prop) w :
  keeps eq c → (∀ a, c (w_chain w) = (Ok a, w_chain w) → Q a w) → wp (on_chain c) Q w.
Proof.
  intros Hk HQ. apply wp_chain. intros a s Hr. assert (s = w_chain w) as -> by (symmetry; exact (Hk _ _ _ Hr)). rewrite set_chain_same. by apply HQ.
Qed.
Lemma wp_bank {A} (c : M AuthState A) (Q : A → World → Prop) w :
  wp c (λ r a, Q r (set_chain (set_auth a (w_chain w)) w)) (world_auth w) → wp (on_bank c) Q w.
Proof. intros Hc. apply wp_chain. apply wp_zoom. intros r a. apply Hc. Qed.

Lemma eq_zoom {S T A} (view : S → T) upd (c : M T A) : (∀ s, upd (view s) s = s) → keeps eq c → keeps eq (zoom view upd c).
Proof. intros Hupd Hc s. apply wp_zoom. intros a t Hr. by rewrite <-(Hc _ _ _ Hr), Hupd. Qed.
Lemma eq_protocol {A} (c : M Upgrade.ProtocolStore A) : keeps eq c → keeps eq (on_protocol c).
Proof. apply eq_zoom. by intros []. Qed.
Lemma eq_guardian {A} (c : M Guardian.Store A) : keeps eq c → keeps eq (on_guardian c).
Proof. apply eq_zoom. by intros []. Qed.
Lemma eq_asset {A} (c : M AssetKeeper.AssetState A) : keeps eq c → keeps eq (on_asset c).
Proof. apply eq_zoom. intros [c0]. by destruct c0. Qed.
Lemma eq_on_chain {A} (c : M ChainState A) : keeps eq c → keeps eq (on_chain c).
Proof. apply eq_zoom. by intros []. Qed.
Lemma eq_on_gov {A} (c : M GovStore A) : keeps eq c → keeps eq (on_gov c).
Proof. apply eq_zoom. by intros []. Qed.

(** ** Reads of the chain *)
Section reads.
Context `{Crypto, ConsCrypto}.
Lemma eq_GetValidator a : keeps eq (GetValidator (X := Others) a).
Proof. unfold GetValidator, unmarshal, expect. keeps. Qed.
#[local] Hint Resolve eq_GetValidator : keeps.
Lemma eq_bonded n l : keeps eq (bonded_by_power (X := Others) n l).
Proof. revert n. induction l as [|a l IH]; intros n; cbn [bonded_by_power]; unfold mustGetValidator; keeps. Qed.
#[local] Hint Resolve eq_bonded : keeps.
Lemma eq_by_power : keeps eq (GetBondedValidatorsByPower (X := Others)).
Proof. unfold GetBondedValidatorsByPower, GetParams. keeps. Qed.
Lemma eq_read_delegations l : keeps eq (read_delegations l).
Proof. induction l as [|[k d] l IH]; cbn [read_delegations]; unfold unmarshal, expect; keeps. Qed.
Lemma eq_delegations a n : keeps eq (l <- gets (delegations_of a) ;; read_delegations (take n l)).
Proof. pose proof eq_read_delegations. keeps. Qed.
End reads.

(** ** Votes and deposits *)
(** The open proposals of a level, and the numbers that are kept of them. *)
Definition opens (l : ProposalLevel) (p : Proposal) : Z := if decide (is_open p ∧ proposal_Level p = l) then 1 else 0.
Definition open_count (l : ProposalLevel) (g : GovStore) : Z := map_sum (opens l) (gv_proposals g).
Definition numbers (g : GovStore) := (gv_critical g, gv_importantNum g, gv_normalNum g).
Lemma opens_range l p : 0 ≤ opens l p ≤ 1.
Proof. unfold opens. case_decide; lia. Qed.
Lemma opens_open l p : is_open p → opens l p = if decide (proposal_Level p = l) then 1 else 0.
Proof. intros Ho. unfold opens. repeat case_decide; naive_solver. Qed.
Lemma open_count_nonneg l g : 0 ≤ open_count l g.
Proof. apply map_sum_nonneg. intros k p _. apply opens_range. Qed.
Lemma open_count_le l g id p : gv_proposals g !! id = Some p → opens l p ≤ open_count l g.
Proof. apply map_sum_le_key. intros k q _. apply opens_range. Qed.
Lemma NewProposal_ok c p : NewProposal c = Ok p → ∃ body, p = buildProposal (content_msg c) body.
Proof. unfold NewProposal. intros Hp. repeat case_match; inv_ok Hp; naive_solver. Qed.
Section ops.
Context `{Crypto, ConsCrypto}.
Variable mainnet : bool.
Implicit Types w : World.

Lemma wp_AddVote id a o w :
  wp (AddVote id a o) (λ _ w', ∃ p, gv_proposals (w_gov w) !! id = Some p ∧ GetStatus p = StatusVotingPeriod ∧ ValidVoteOption o = true ∧
    w' = set_gov (set_votes (insert (KeyVote id a) (mkVote a id o)) (w_gov w)) w) w.
Proof.
  unfold AddVote. wpb. apply wp_gov_read. unfold GetProposal. wps. split; [done|]. destruct (gv_proposals (w_gov w) !! id) as [p|] eqn:Ep; [|wps].
  wps. zbool. apply wp_chain_read; [apply eq_GetValidator|]. intros v _. wpb.
  eapply (wp_mono _ (λ _ w', w' = w)).
  { destruct v; [by wps|]. wpb. apply wp_chain_read; [apply eq_delegations|]. intros ds _. by wps. }
  intros [] w' ->. wpb. apply wp_gov_read. unfold GetVote. wps. split; [done|]. destruct (gv_votes (w_gov w) !! KeyVote id a); [wps|]. wps.
  apply wp_gov. unfold setVote. wps. naive_solver.
Qed.
Lemma amt_sent a b c s : sendCoins_amt a b [c] s = [c].
Proof. unfold sendCoins_amt. destruct (subtractCoins a [c] s) as [[] s1]; [apply ServiceFacts.arrayB_one|done..]. Qed.
Lemma level_params_ok l g : l ≠ ProposalLevelNil → level_params l g = (Ok (level_of (gv_params g) l), g).
Proof. by destruct l. Qed.

Section inv.
Context {P : GovParams} (HP : params_ok P).
Lemma level_one l : l ≠ ProposalLevelNil → one_coin (level_of P l).
Proof using HP. destruct HP as (_&H1&H2&H3&_). by destruct l. Qed.
(** The longest period of votes. *)
Definition voting_fits (t : Z) : Prop := 0 ≤ t ∧ ∀ l, in_calendar (t + lp_VotingPeriod (level_of P l)).
Definition deposit_fits (t : Z) : Prop := 0 ≤ t ∧ ∀ l, in_calendar (t + lp_DepositPeriod (level_of P l)).

Lemma wp_activate ctx id p w (Q : unit → World → Prop) :
  gv_params (w_gov w) = P → GetProposalID p = id → proposal_Level p ≠ ProposalLevelNil → voting_fits (BlockTime ctx) →
  (∀ p' vals t u, p' = SetStatus StatusVotingPeriod (SetVotingTimes t u p) → in_calendar u → Q tt (set_gov (activated id p' vals (w_gov w)) w)) →
  wp (activateVotingPeriod ctx p) Q w.
Proof using HP.
  intros HPg Hid Hl [_ Hfit] HQ. unfold activateVotingPeriod. wpb. apply wp_gov_read.
  unfold GetVotingProcedure. wpb. eapply wp_run; [by apply level_params_ok|]. wps. split; [done|].
  rewrite HPg. wpb. apply wp_gov. unfold SetProposal, RemoveFromInactiveProposalQueue, InsertActiveProposalQueue. wps.
  unfold SetValidatorSet. wpb. apply wp_chain_read; [apply eq_by_power|]. intros vals _. apply wp_gov. wps. simpl.
  change (GetProposalID (SetStatus StatusVotingPeriod (SetVotingTimes (BlockTime ctx) (BlockTime ctx + lp_VotingPeriod (level_of P (proposal_Level p))) p))) with (GetProposalID p).
  rewrite Hid. eapply HQ; [reflexivity|apply Hfit].
Qed.
(** A deposit: the coins are moved, and the store records them. *)
Record moved (n : Z) (a : AccAddress) (w w' : World) : Prop := {
  mv_ok : gov_ok P (w_gov w');
  mv_all : all_deposits (w_gov w') = all_deposits (w_gov w) + n;
  mv_world : ∃ s', sendCoins a GovDepositCoinsAccAddr [mkCoin IrisAtto n] (world_auth w) = (Ok tt, s') ∧
    w' = set_gov (w_gov w') (set_chain (set_auth s' (w_chain w)) w) }.
Record deposit_done (n : Z) (a : AccAddress) (w w' : World) : Prop := {
  dd_moved : moved n a w w';
  dd_counts l : open_count l (w_gov w') = open_count l (w_gov w);
  dd_numbers : numbers (w_gov w') = numbers (w_gov w) }.
Lemma iris_one n : iris [mkCoin IrisAtto n] = n.
Proof. simpl. lia. Qed.
Lemma iris_coins_one n : 0 < n → iris_coins [mkCoin IrisAtto n].
Proof. intros Hn. right. by exists n. Qed.
Lemma iris_coins_eq c : iris_coins c → 0 < iris c → c = [mkCoin IrisAtto (iris c)].
Proof. intros [->|(n&Hn&->)]; [simpl; lia|]. by rewrite iris_one. Qed.
Lemma open_count_insert g id p p' l :
  gv_proposals g !! id = Some p → opens l p' = opens l p → open_count l (set_proposals (insert id p') g) = open_count l g.
Proof. intros Hp Ho. unfold open_count. simpl. rewrite map_sum_insert, Ho. unfold at_key. rewrite Hp. lia. Qed.
Lemma wp_AddDeposit ctx id a n w :
  gov_ok P (w_gov w) → 0 < n → voting_fits (BlockTime ctx) →
  wp (AddDeposit ctx id a [mkCoin IrisAtto n]) (λ _, deposit_done n a w) w.
Proof using HP.
  intros Hok Hn Hfit. unfold AddDeposit. wpb. apply wp_gov_read. unfold GetProposal. wps. split; [done|].
  destruct (gv_proposals (w_gov w) !! id) as [p|] eqn:Ep; [|wps]. pose proof (go_proposal _ _ Hok _ _ Ep) as Hpo. pose proof (ok_range Hok _ _ Ep) as Hr.
  wps. zbool. rename Hb into Hst. apply wp_bank. intros [] s' Hsend. wps. rewrite amt_sent in Hx.
  rewrite amt_sent, ServiceFacts.arrayB_one. rename x into total, Hx into Htotal.
  destruct (ServiceFacts.iris_add _ _ _ (po_total _ _ _ _ Hpo) (iris_coins_one n Hn) Htotal) as [Htc Hts]. rewrite iris_one in Hts.
  apply wp_gov. unfold SetProposal. wps. apply wp_gov_read. unfold GetDepositProcedure. wpb.
  eapply wp_run; [apply level_params_ok, (po_level _ _ _ _ Hpo)|]. wps. split; [done|]. simpl.
  change (GetProposalID (SetTotalDeposit total p)) with (GetProposalID p). rewrite (po_id _ _ _ _ Hpo).
  set (p' := SetTotalDeposit total p). set (g1 := set_proposals (insert id p') (w_gov w)).
  set (w1 := set_gov g1 (set_chain (set_auth s' (w_chain w)) w)).
  (* the end, from a store that records the deposit *)
  assert (∀ g2 : GovStore, gv_deposits g2 = gv_deposits (w_gov w) →
    (∀ d, dp_ProposalID d = id → dp_Depositor d = a → (∃ m, dp_Amount d = [mkCoin IrisAtto m] ∧ m = own_deposit (g := w_gov w) id a + n ∧ 0 < m) →
      gov_ok P (set_deposits (insert (KeyDeposit id a) d) g2)) →
    (∀ l, open_count l g2 = open_count l (w_gov w)) → numbers g2 = numbers (w_gov w) → ∀ b : bool,
    wp (currDeposit <- on_gov (GetDeposit id a) ;;
        (match currDeposit with
         | Some d => sum <- lift (Coins_Add (dp_Amount d) [mkCoin IrisAtto n]) ;; on_gov (setDeposit id a (mkDeposit (dp_Depositor d) (dp_ProposalID d) sum))
         | None => on_gov (setDeposit id a (mkDeposit a id [mkCoin IrisAtto n])) end) ;;; ret b) (λ _, deposit_done n a w)
       (set_gov g2 (set_chain (set_auth s' (w_chain w)) w))) as Hend.
  { intros g2 Eg Hg2 Hl2 Hn2 b. wpb. apply wp_gov_read. unfold GetDeposit. wps. split; [done|]. simpl. rewrite Eg.
    unfold own_deposit, at_key in Hg2. unfold setDeposit.
    assert (∀ d m, all_deposits (set_deposits (insert (KeyDeposit id a) d) g2) = all_deposits (w_gov w) - at_key (λ d, iris (dp_Amount d)) (gv_deposits (w_gov w)) (KeyDeposit id a) + m ↔ iris (dp_Amount d) = m) as Hall.
    { intros d m. unfold all_deposits. cbn [gv_deposits set_deposits]. rewrite Eg, map_sum_insert. lia. }
    unfold at_key in Hall.
    destruct (gv_deposits (w_gov w) !! KeyDeposit id a) as [d|] eqn:Ed.
    - destruct (own_entry Hok _ _ _ (proj1 Hr) Ed) as [E1 E2]. destruct (go_deposit _ _ Hok _ _ Ed) as (_&(m&Hm&Em)&_).
      rewrite Em in *. wps. destruct (ServiceFacts.iris_add _ _ _ (iris_coins_one m Hm) (iris_coins_one n Hn) Hx) as [Hsc Hss]. rewrite !iris_one in *.
      apply wp_gov. wps. simpl. assert (x = [mkCoin IrisAtto (m + n)]) as -> by (rewrite (iris_coins_eq x Hsc) by lia; by rewrite Hss).
      split; [split; [apply Hg2; [done|done|]; exists (m + n); split_and!; [done|done|lia]| |by exists s']|done|done].
      specialize (Hall (mkDeposit (dp_Depositor d) (dp_ProposalID d) [mkCoin IrisAtto (m + n)]) (m + n)). cbn [dp_Amount] in Hall. rewrite iris_one in Hall. simpl in *. lia.
    - apply wp_bind, wp_gov. wps. simpl. split; [split; [apply Hg2; [done|done|]; exists n; split_and!; [done|lia|lia]| |by exists s']|done|done].
      specialize (Hall (mkDeposit a id [mkCoin IrisAtto n]) n). cbn [dp_Amount] in Hall. rewrite iris_one in Hall. simpl in *. lia. }
  assert (is_open p) as Hopen by (by left).
  assert (∀ d, dp_ProposalID d = id → dp_Depositor d = a → (∃ m, dp_Amount d = [mkCoin IrisAtto m] ∧ m = own_deposit (g := w_gov w) id a + n ∧ 0 < m) →
    gov_ok P (deposited id p' a d (w_gov w))) as Hdep.
  { intros d Ed1 Ed2 (m&Em&Hm&Hpos). by eapply (ok_deposited Hok id p p' a d m n). }
  destruct (IsAllGTE total (lp_MinDeposit (level_of (gv_params (w_gov w)) (proposal_Level p')))) eqn:Egte.
  - wpb. apply (wp_activate ctx id p'); [exact (go_params _ _ Hok)|exact (po_id _ _ _ _ Hpo)|exact (po_level _ _ _ _ Hpo)|exact Hfit|].
    intros p'' vals t u Ep'' Hu. apply Hend; [done| |intros l; etrans; [|by apply (open_count_insert (w_gov w) id p p')]|done].
    + intros d Ed1 Ed2 Hm. specialize (Hdep d Ed1 Ed2 Hm). eapply (ok_activated Hdep id p' p'' vals t u); [apply lookup_insert_eq|done|done|done|].
      unfold min_deposit. change (GetTotalDeposit p') with total.
      destruct (level_one (proposal_Level p') (po_level _ _ _ _ Hpo)) as (k&Hk&Ek). rewrite (go_params _ _ Hok), Ek in Egte. rewrite Ek.
      destruct (ServiceFacts.iris_coins_canonical _ Htc) as [[Hs1 _] Hs2].
      destruct (ServiceFacts.iris_coins_canonical _ (iris_coins_one k Hk)) as [[Hs3 _] Hs4].
      by apply (proj1 (IsAllGTE_iff total _ Hs1 Hs3 Hs2 Hs4)).
    + apply (open_count_insert g1 id p' p'' l); [apply lookup_insert_eq|]. rewrite (opens_open l p'') by (right; by rewrite Ep''). rewrite (opens_open l p') by (by left). by rewrite Ep''.
  - wpb. apply wp_ret, Hend; [done|exact Hdep|intros l; by apply (open_count_insert (w_gov w) id p p')|done].
Qed.
(** ** Numbers of proposals *)
Definition nums_ok (g : GovStore) : Prop :=
  open_count ProposalLevelCritical g = (match gv_critical g with Some _ => 1 | None => 0 end) ∧
  default 0 (gv_normalNum g) = open_count ProposalLevelNormal g ∧ open_count ProposalLevelNormal g ≤ lp_MaxNum (gp_Normal P).
(** Another proposal of the level fits. *)
Definition not_full (l : ProposalLevel) (g : GovStore) : Prop :=
  match l with
  | ProposalLevelCritical => gv_critical g = None
  | ProposalLevelNormal => default 0 (gv_normalNum g) ≠ lp_MaxNum (gp_Normal P)
  | _ => True
  end.
Lemma max_critical : lp_MaxNum (gp_Critical P) = 1.
Proof using HP. destruct HP as [Hv _]. unfold validateParams, validateMaxNum in Hv. inv_ok Hv. repeat (case_match; [done|]). lia. Qed.
Lemma wp_important (Q : Z → GovStore → Prop) g : (∀ n i, Q n (set_importantNum i g)) → wp GetImportantProposalNum Q g.
Proof.
  intros HQ. unfold GetImportantProposalNum, SetImportantProposalNum. wps. destruct (gv_importantNum g) as [n|] eqn:E; wps; [|apply HQ].
  specialize (HQ n (gv_importantNum g)). by destruct g.
Qed.
Lemma wp_normal (Q : Z → GovStore → Prop) g : (∀ i, Q (default 0 (gv_normalNum g)) (set_importantNum i g)) → wp GetNormalProposalNum Q g.
Proof.
  intros HQ. unfold GetNormalProposalNum, SetImportantProposalNum. wps. destruct (gv_normalNum g) as [n|] eqn:E; wps; [|apply HQ].
  specialize (HQ (gv_importantNum g)). by destruct g.
Qed.
Lemma wp_HasReached l g :
  gv_params g = P → wp (HasReachedTheMaxProposalNum l) (λ b g', (∃ i, g' = set_importantNum i g) ∧ (b = false → not_full l g)) g.
Proof using HP.
  intros HPg. unfold HasReachedTheMaxProposalNum, GetMaxNumByProposalLevel, GetCriticalProposalNum. wps. apply wp_important. intros _ i. wpb.
  apply wp_normal. intros i1. destruct l; cbn [level_params]; unfold no_level; wps; simpl; rewrite ?HPg.
  - split; [by exists i1|]. rewrite max_critical. destruct (gv_critical g); [done|]. done.
  - apply wp_important. intros _ i2. wpb. apply wp_important. intros n i3. wps. split; [by exists i3|done].
  - apply wp_normal. intros i2. wpb. apply wp_normal. intros i3. wps. split; [by exists i3|]. simpl. lia.
Qed.
Lemma eq_Validate ctx p : keeps eq (Proposal_Validate mainnet ctx p false).
Proof using.
  unfold Proposal_Validate, BasicProposal_Validate, is_profiler, is_trustee. simpl.
  keeps; unfold Upgrade.IsValidVersion, Upgrade.GetCurrentVersion, Upgrade.GetLastFailedVersion, Upgrade.GetUpgradeConfig,
    Guardian.GetProfiler, Guardian.GetTrustee, AssetKeeper.HasToken;
    first [apply eq_protocol|apply eq_guardian|apply eq_asset]; keeps.
Qed.
Lemma wp_Validate ctx p w :
  gv_params (w_gov w) = P →
  wp (Proposal_Validate mainnet ctx p true) (λ _ w', not_full (proposal_Level p) (w_gov w) ∧ ∃ i, w' = set_gov (set_importantNum i (w_gov w)) w) w.
Proof using HP.
  intros HPg. unfold Proposal_Validate. wpb. unfold BasicProposal_Validate. simpl negb. cbv iota. wpb. apply wp_gov.
  eapply wp_mono; [by apply wp_HasReached|]. intros b g' [[i ->] Hb]. destruct b; [apply wp_throw|]. apply wp_ret.
  eapply wp_mono; [exact (eq_Validate ctx p (set_gov (set_importantNum i (w_gov w)) w))|]. intros _ w' <-. split; [by apply Hb|by exists i].
Qed.
Definition renumbered (g g' : GovStore) : Prop := ∃ c i n, g' = set_critical c (set_importantNum i (set_normalNum n g)).
Lemma renumbered_ok g g' : renumbered g g' → gov_ok P g → gov_ok P g'.
Proof using. intros (c&i&n&->) Hok. by eapply ok_same. Qed.
Definition one_of (l l' : ProposalLevel) : Z := if decide (l = l') then 1 else 0.
Definition critical_num (g : GovStore) : Z := match gv_critical g with Some _ => 1 | None => 0 end.
Lemma wp_AddProposalNum l id g :
  not_full l g → open_count ProposalLevelCritical g = critical_num g + one_of l ProposalLevelCritical →
  0 ≤ default 0 (gv_normalNum g) ≤ lp_MaxNum (gp_Normal P) →
  open_count ProposalLevelNormal g = default 0 (gv_normalNum g) + one_of l ProposalLevelNormal →
  wp (AddProposalNum l id) (λ _ g', renumbered g g' ∧ nums_ok g') g.
Proof using HP.
  intros Hfull Hc Hr Hn. assert (lp_MaxNum (gp_Normal P) < 2^64) as Hmax by apply HP. unfold nums_ok, critical_num, one_of in *.
  destruct l; cbn [AddProposalNum not_full] in *; unfold AddCriticalProposalNum, AddImportantProposalNum, AddNormalProposalNum, no_level, SetImportantProposalNum, SetNormalProposalNum; simpl in Hc, Hn.
  - apply wp_panic.
  - wps. split; [by eexists (Some id), (gv_importantNum g), (gv_normalNum g)|]. rewrite Hfull in Hc. simpl. split; [exact Hc|]. change (open_count ProposalLevelNormal (set_critical (Some id) g)) with (open_count ProposalLevelNormal g). lia.
  - wpb. apply wp_important. intros n i. wps. split; [by exists (gv_critical g), (Some (wrap64 (n + 1))), (gv_normalNum g)|]. split; [etrans; [exact Hc|simpl; lia]|].
    change (open_count ProposalLevelNormal _) with (open_count ProposalLevelNormal g). simpl. lia.
  - wpb. apply wp_normal. intros i. wps. rewrite wrap64_small by lia. split; [by exists (gv_critical g), i, (Some (default 0 (gv_normalNum g) + 1))|]. split; [etrans; [exact Hc|simpl; lia]|].
    change (open_count ProposalLevelNormal _) with (open_count ProposalLevelNormal g). simpl. lia.
Qed.
Lemma wp_SubProposalNum l c n g :
  critical_num g = c + one_of l ProposalLevelCritical → 0 ≤ c →
  default 0 (gv_normalNum g) = n + one_of l ProposalLevelNormal → 0 ≤ n → n + one_of l ProposalLevelNormal ≤ lp_MaxNum (gp_Normal P) →
  wp (SubProposalNum l) (λ _ g', renumbered g g' ∧ critical_num g' = c ∧ default 0 (gv_normalNum g') = n) g.
Proof using HP.
  intros Hc Hc0 Hn Hn0 Hr. assert (lp_MaxNum (gp_Normal P) < 2^64) as Hmax by apply HP. unfold one_of, critical_num in *.
  destruct l; cbn [SubProposalNum] in *; unfold SubCriticalProposalNum, SubImportantProposalNum, SubNormalProposalNum, no_level, SetImportantProposalNum, SetNormalProposalNum; simpl in Hc, Hn, Hr.
  - apply wp_panic.
  - wps. split; [by exists None, (gv_importantNum g), (gv_normalNum g)|]. simpl. destruct (gv_critical g); lia.
  - wpb. apply wp_important. intros m i. wps. split; [by exists (gv_critical g), (Some (wrap64 (m - 1))), (gv_normalNum g)|]. simpl. lia.
  - wpb. apply wp_normal. intros i. wps. rewrite wrap64_small by lia. split; [by exists (gv_critical g), i, (Some (default 0 (gv_normalNum g) - 1))|]. simpl. lia.
Qed.
Lemma wp_level l g : wp (level_params l) (λ r g', g' = g ∧ r = level_of (gv_params g) l ∧ l ≠ ProposalLevelNil) g.
Proof using. destruct l; cbn [level_params]; unfold no_level; by wps. Qed.
Lemma wp_min_initial l g : wp (getMinInitialDeposit l) (λ _ g', g' = g ∧ l ≠ ProposalLevelNil) g.
Proof using.
  unfold getMinInitialDeposit, GetDepositProcedure. wpb. eapply wp_mono; [apply wp_level|]. intros r g' (->&_&Hl). by wps.
Qed.
Lemma wp_SubmitProposal ctx c n w :
  gov_ok P (w_gov w) → nums_ok (w_gov w) → sp_InitialDeposit (content_msg c) = [mkCoin IrisAtto n] → 0 < n →
  next_id (w_gov w) + 1 < 2^64 → voting_fits (BlockTime ctx) → deposit_fits (BlockTime ctx) →
  wp (SubmitProposal mainnet ctx c) (λ _ w', moved n (sp_Proposer (content_msg c)) w w' ∧ nums_ok (w_gov w')) w.
Proof using HP.
  intros Hok (Hcrit&Hnorm&Hmax) Hd Hn Hnext Hvf [_ Hdf]. unfold SubmitProposal. wps. rename x into p. apply NewProposal_ok in Hx as [body Ep].
  apply wp_gov_read. eapply wp_mono; [apply wp_min_initial|]. intros m g' [-> Hl]. split; [done|]. wpb. apply wp_require. intros _. wpb.
  eapply wp_mono; [apply wp_Validate, (go_params _ _ Hok)|]. intros _ w1 [Hfull [i ->]]. wpb. apply wp_gov. unfold getNewProposalID, peekCurrentProposalID. wps.
  simpl. destruct (go_next _ _ Hok) as [[id En] Hrange]. unfold next_id in Hnext, Hrange. rewrite En in *. simpl in Hnext, Hrange. wps. rewrite wrap64_small by lia.
  apply wp_gov_read. unfold GetDepositProcedure. wpb. eapply wp_mono; [apply wp_level|]. intros r g' (->&->&_). wps. split; [done|]. simpl.
  rewrite (go_params _ _ Hok). set (p' := SetSubmission id (BlockTime ctx) (BlockTime ctx + lp_DepositPeriod (level_of P (proposal_Level p))) p).
  unfold SetProposal, InsertInactiveProposalQueue. wpb. apply wp_gov. wps. simpl.
  set (g0 := set_importantNum i (w_gov w)).
  set (g2 := set_inactive (insert (KeyInactiveProposalQueueProposal (GetDepositEndTime p') id) id) (set_proposals (insert id p') (set_nextID (Some (id + 1)) g0))).
  assert (gov_ok P g0) as Hok0 by (by eapply ok_same).
  assert (gov_ok P g2) as Hok2.
  { apply (ok_submitted Hok0); try done; unfold p'; [by rewrite Ep|exact (Hdf _)|by rewrite Ep]. }
  assert (∀ l, open_count l g2 = open_count l (w_gov w) + one_of (proposal_Level p) l) as Hcount.
  { intros l. unfold open_count. change (gv_proposals g2) with (<[id := p']> (gv_proposals (w_gov w))). rewrite map_sum_insert_new.
    - rewrite opens_open by (left; unfold p'; by rewrite Ep). unfold one_of. change (proposal_Level p') with (proposal_Level p). lia.
    - destruct (gv_proposals (w_gov w) !! id) as [q|] eqn:Eq; [|done]. pose proof (po_range _ _ _ _ (go_proposal _ _ Hok _ _ Eq)) as Hr.
      unfold next_id in Hr. rewrite En in Hr. simpl in Hr. lia. }
  rewrite Hd. eapply wp_mono; [apply (wp_AddDeposit ctx id (GetProposer p') n (set_gov g2 w)); [exact Hok2|done|done]|].
  intros _ w3 [[Hok3 Hall3 (s'&Hsend&Ew3)] Hc3 Hn3]. apply wp_gov. pose proof (open_count_nonneg ProposalLevelNormal (w_gov w)).
  unfold numbers in Hn3. simpl in Hn3. injection Hn3 as E1 _ E3.
  eapply wp_mono; [apply wp_AddProposalNum|].
  - unfold not_full in *. rewrite E1, E3. done.
  - rewrite Hc3. cbn [w_gov set_gov]. rewrite Hcount, Hcrit. unfold critical_num. by rewrite E1.
  - rewrite E3. lia.
  - rewrite Hc3, E3. cbn [w_gov set_gov]. rewrite Hcount. lia.
  - intros [] g' [Hren Hnums]. split; [|exact Hnums]. split.
    + by eapply renumbered_ok.
    + destruct Hren as (?&?&?&->). exact Hall3.
    + exists s'. split; [|by rewrite Ew3]. by subst p.
Qed.

(** ** The invariant *)
Record gov_inv (w : World) : Prop := {
  gi_ok : gov_ok P (w_gov w);
  gi_nums : nums_ok (w_gov w);
  gi_wf : auth_wf (world_auth w);
  gi_covered : all_deposits (w_gov w) ≤ balance (world_auth w) GovDepositCoinsAccAddr IrisAtto }.
Lemma moved_covered n a w w' :
  gov_inv w → a ≠ GovDepositCoinsAccAddr → moved n a w w' →
  auth_wf (world_auth w') ∧ all_deposits (w_gov w') ≤ balance (world_auth w') GovDepositCoinsAccAddr IrisAtto.
Proof using.
  intros [_ _ Hw Hc] Ha [_ Hall (s'&Hs&->)]. destruct (sendCoins_ok _ _ _ _ _ _ Hw Hs) as (_&Hw'&Hb&_). split; [done|].
  change (all_deposits (w_gov w') ≤ balance s' GovDepositCoinsAccAddr IrisAtto). change (w_gov (set_gov _ _)) with (w_gov w') in Hall.
  rewrite Hall, Hb, decide_False, decide_True by done. simpl. lia.
Qed.
(** A message fits when the times and the numbers it makes can be written. *)
Definition msg_fits (ctx : Ctx) (w : World) : Prop :=
  voting_fits (BlockTime ctx) ∧ deposit_fits (BlockTime ctx) ∧ next_id (w_gov w) + 1 < 2^64.
Lemma one_iris c : Coins_IsValidIrisAtto c = true → ∃ n, 0 < n ∧ c = [mkCoin IrisAtto n].
Proof using.
  destruct c as [|[d n] []]; simpl; [done| |done]. unfold Coin_IsValidIrisAtto, Coin_IsPositive, Int_IsPositive. simpl. intros [Hd Hn]%andb_prop.
  apply bool_decide_eq_true in Hd as ->. exists n. split; [lia|done].
Qed.
Lemma wp_Handler ctx msg w :
  gov_inv w → GovMsg_ValidateBasic msg = Ok tt → GovDepositCoinsAccAddr ∉ GovMsg_GetSigners msg → msg_fits ctx w →
  wp (gov_Handler mainnet ctx msg) (λ _, gov_inv) w.
Proof using HP.
  intros Hi Hv Hs (Hvf&Hdf&Hn). pose proof Hi as [Hok Hnums Hw Hc]. destruct msg as [c|m|m|]; simpl in Hs; cbn [gov_Handler GovMsg_ValidateBasic] in *.
  - unfold Content_ValidateBasic, MsgSubmitProposal_ValidateBasic in Hv. inv_ok Hv.
    destruct (Coins_IsValidIrisAtto (sp_InitialDeposit (content_msg c))) eqn:Ec; [|repeat case_match; done].
    apply one_iris in Ec as (n&Hpos&En). eapply wp_mono; [by eapply wp_SubmitProposal|]. intros [] w' [Hm Hnums'].
    assert (sp_Proposer (content_msg c) ≠ GovDepositCoinsAccAddr) as Hne by set_solver.
    destruct (moved_covered _ _ _ _ Hi Hne Hm). destruct Hm. by split.
  - unfold MsgDeposit_ValidateBasic in Hv. destruct (Coins_IsValidIrisAtto (md_Amount m)) eqn:Ec; [|repeat case_match; done].
    apply one_iris in Ec as (n&Hpos&->). wpb. eapply wp_mono; [by eapply wp_AddDeposit|]. intros b w' [Hm Hcount Hnum]. apply wp_ret.
    assert (md_Depositor m ≠ GovDepositCoinsAccAddr) as Hne by set_solver. destruct (moved_covered _ _ _ _ Hi Hne Hm). destruct Hm. split; [done| |done|done].
    unfold nums_ok in *. rewrite !Hcount. unfold numbers in Hnum. by injection Hnum as -> _ ->.
  - eapply wp_mono; [apply wp_AddVote|]. intros [] w' (p&Hp&Hst&Ho&->). split; try done. by eapply (ok_voted Hok).
  - apply wp_throw.
Qed.
End inv.
End ops.
End GovOps.

(** ** Governance: the end of a block

    What the end of a block does with the proposals that are due: the deposits are
    refunded or burned, the proposal is closed, and nothing that is due remains. *)
Module GovEnd.
Import StakeTypes Stake StakeFacts StakeQueue StakeInv StakeFrame StakeDue StakeSteps SlashFacts DistrFacts Chain ParamSets GovTypes Gov GovFacts GovOps.
Import ServiceFacts (iris, iris_coins).

(** ** What an operation keeps when it returns or fails

    A failure at the end of a block is dropped, and what was written stays. *)
Section stable.
Context {S : Type} (R : relation S) `{!PreOrder R}.
Definition stable {A} (c : M S A) : Prop := ∀ s, match c s with (Panic _, _) => True | (_, s') => R s s' end.
Lemma stable_ret {A} (a : A) : stable (ret a).
Proof. by intros s; simpl. Qed.
Lemma stable_gets {A} (f : S → A) : stable (gets f).
Proof. by intros s; simpl. Qed.
Lemma stable_throw {A} e : stable (throw (A := A) e).
Proof. by intros s; simpl. Qed.
Lemma stable_panic {A} y : stable (panic (A := A) y).
Proof. by intros s. Qed.
Lemma stable_lift {A} (o : Outcome A) : stable (lift o).
Proof. intros s. unfold lift. by destruct o. Qed.
Lemma stable_require b e : stable (require b e).
Proof. intros s. by destruct b; simpl. Qed.
Lemma stable_modify f : (∀ s, R s (f s)) → stable (modify f).
Proof. intros Hf s. simpl. apply Hf. Qed.
Lemma stable_bind {A B} (c : M S A) (k : A → M S B) : stable c → (∀ a, stable (k a)) → stable (bind c k).
Proof.
  intros Hc Hk s. unfold bind. specialize (Hc s). destruct (c s) as [[a|e|y] s1]; [|done..].
  specialize (Hk a s1). destruct (k a s1) as [[]]; [by etrans..|done].
Qed.
Lemma stable_keeps {A} (c : M S A) : keeps R c → never_errs c → stable c.
Proof. intros Hc Hn s. destruct (c s) as [[a|e|y] s1] eqn:E; [by eapply Hc|by apply Hn in E|done]. Qed.
End stable.
Lemma stable_zoom {S T A} (Q : relation T) (R : relation S) (view : S → T) upd (c : M T A) :
  (∀ s t, Q (view s) t → R s (upd t s)) → stable Q c → stable R (zoom view upd c).
Proof. intros Hu Hc s. unfold zoom. specialize (Hc (view s)). destruct (c (view s)) as [[a|e|y] t]; auto. Qed.
Lemma stable_impl {S A} (Q R : relation S) (c : M S A) : (∀ s s', Q s s' → R s s') → stable Q c → stable R c.
Proof. intros HQ Hc s. specialize (Hc s). destruct (c s) as [[]]; auto. Qed.
Create HintDb stable.
Ltac stable_step :=
  lazymatch goal with
  | |- stable ?R (bind _ _) => apply (stable_bind R); [|intros ?]
  | |- stable ?R (ret _) => apply (stable_ret R)
  | |- stable ?R (gets _) => apply (stable_gets R)
  | |- stable ?R (throw _) => apply (stable_throw R)
  | |- stable ?R (panic _) => apply (stable_panic R)
  | |- stable ?R (lift _) => apply (stable_lift R)
  | |- stable ?R (require _ _) => apply (stable_require R)
  | |- stable _ (if ?b then _ else _) => destruct b
  | |- stable _ (let '(_, _) := ?x in _) => destruct x
  | |- stable _ (match ?x with _ => _ end) => destruct x
  | |- stable _ _ => solve [eauto with stable]
  end.
Ltac stable := repeat stable_step.

(** ** The deposits of a proposal *)
Definition drop_keys (ks : list string) (m : gmap string Deposit) : gmap string Deposit := fold_left (λ m k, delete k m) ks m.
Lemma drop_keys_lookup ks m k : drop_keys ks m !! k = if decide (k ∈ ks) then None else m !! k.
Proof.
  revert m. induction ks as [|x ks IH]; intros m; cbn [drop_keys fold_left]; [by destruct (decide (k ∈ [])) as [?%not_elem_of_nil|]|]. change (drop_keys ks (delete x m) !! k = if decide (k ∈ x :: ks) then None else m !! k). rewrite IH.
  destruct (decide (k = x)) as [->|Hne].
  - rewrite (decide_True (P := x ∈ x :: ks)) by set_solver. case_decide; [done|]. apply lookup_delete_eq.
  - rewrite lookup_delete_ne by done. repeat case_decide; set_solver.
Qed.
Lemma set_deposits_drop k ks g : set_deposits (drop_keys ks) (set_deposits (delete k) g) = set_deposits (drop_keys (k :: ks)) g.
Proof. done. Qed.
Section deposits.
Context {P : GovParams} {g : GovStore} (Hok : gov_ok P g).
Lemma GetDeposits_elem id k d : 0 ≤ id → (k, d) ∈ GetDeposits id g ↔ gv_deposits g !! k = Some d ∧ dp_ProposalID d = id.
Proof using Hok.
  intros Hid. unfold GetDeposits. rewrite prefix_iterator_elem. split.
  - intros [Hk Hp]. split; [done|]. destruct (go_deposit _ _ Hok _ _ Hk) as (->&_&p&Hq&_). apply (deposits_prefix _ id (dp_Depositor d)); [|done|done].
    pose proof (ok_range Hok _ _ Hq). lia.
  - intros [Hk Hd]. split; [done|]. destruct (go_deposit _ _ Hok _ _ Hk) as (->&_&_). rewrite Hd. by apply deposits_prefix.
Qed.
Lemma deposits_one id k d : (k, d) ∈ GetDeposits id g → ∃ m, 0 < m ∧ dp_Amount d = [mkCoin IrisAtto m].
Proof using Hok. unfold GetDeposits. rewrite prefix_iterator_elem. intros [Hk _]. by destruct (go_deposit _ _ Hok _ _ Hk) as (_&?&_). Qed.
Lemma drop_deposits id : 0 ≤ id → set_deposits (drop_keys (GetDeposits id g).*1) g = cleared id g.
Proof using Hok.
  intros Hid. unfold cleared, set_deposits. f_equal. apply map_eq. intros k. rewrite drop_keys_lookup. case_decide as Hin.
  - symmetry. apply map_lookup_filter_None. right. intros d Hd. simpl. apply list_elem_of_fmap in Hin as ([k' d']&->&Hin).
    apply (GetDeposits_elem id) in Hin as [Hd' Hid']; [|done]. simpl in *. simplify_eq. naive_solver.
  - destruct (gv_deposits g !! k) as [d|] eqn:Hd; symmetry.
    + apply map_lookup_filter_Some. split; [done|]. simpl. intros E. destruct Hin. apply list_elem_of_fmap. exists (k, d). split; [done|]. by apply GetDeposits_elem.
    + apply map_lookup_filter_None. by left.
Qed.
Lemma deposits_sum id : 0 ≤ id → list_sum (λ kd, iris (dp_Amount kd.2)) (GetDeposits id g) = deposits_of id g.
Proof using Hok.
  intros Hid. unfold deposits_of. rewrite <-StakeChecks.list_sum_entries, list_sum_fmap. unfold GetDeposits, prefix_iterator.
  rewrite StakeChecks.list_sum_filter. apply list_sum_ext. intros [k d] Hin. pose proof (GetDeposits_elem id k d Hid) as Hg.
  unfold GetDeposits, prefix_iterator in Hg. rewrite list_elem_of_filter in Hg. simpl in *. apply entries_elem in Hin as Hk. repeat case_decide; naive_solver.
Qed.
Lemma deposits_ok id : Forall (λ kd, ∃ m, 0 < m ∧ dp_Amount kd.2 = [mkCoin IrisAtto m]) (GetDeposits id g).
Proof using Hok. apply Forall_forall. intros [k d]. apply deposits_one. Qed.
End deposits.

(** ** Refunds *)
Definition refund_of (kd : string * Deposit) : AccAddress * Coins := (dp_Depositor kd.2, dp_Amount kd.2).
Lemma wp_collect l sum g :
  Forall (λ kd, ∃ m, 0 < m ∧ dp_Amount kd.2 = [mkCoin IrisAtto m]) l → iris_coins sum →
  wp (collect_deposits l sum) (λ r g', g' = set_deposits (drop_keys l.*1) g ∧ iris_coins r.1 ∧
    iris r.1 = iris sum + list_sum (λ kd, iris (dp_Amount kd.2)) l ∧ r.2 = refund_of <$> l) g.
Proof.
  revert sum g. induction l as [|[k d] l IH]; intros sum g Hl Hs; cbn [collect_deposits].
  { wps. split_and!; [by destruct g|done|simpl; lia|done]. }
  inversion Hl as [|? ? (m&Hm&Em) Hl']; subst. simpl in Em. wps. rewrite Em in Hx.
  destruct (ServiceFacts.iris_add _ _ _ Hs (iris_coins_one m Hm) Hx) as [Hxc Hxs]. rewrite iris_one in Hxs.
  eapply wp_mono; [by apply IH|]. intros [sum' rest] g' (->&Hc&Hi&Hr). cbn [fst snd] in *. wps. cbn [list_sum fst snd]. split_and!; [done|done|rewrite Hi, Hxs, Em, iris_one; lia|].
  rewrite Hr, Em, ServiceFacts.arrayB_one. unfold refund_of at 2. simpl. by rewrite Em.
Qed.
Section refunds.
Context `{Crypto, ConsCrypto}.
Implicit Types w : World.
Abbreviation D := GovDepositCoinsAccAddr.
(** The accounts after payments [outs] of the account of the deposits. *)
Definition paid (x : AccAddress) (outs : list (AccAddress * Z)) : Z := list_sum (λ o, if decide (o.1 = x) then o.2 else 0) outs.
Record paid_out (outs : list (AccAddress * Z)) (s s' : AuthState) : Prop := {
  pd_wf : auth_wf s';
  pd_iris x : balance s' x IrisAtto = balance s x IrisAtto - (if decide (x = D) then list_sum snd outs else 0) + paid x outs;
  pd_others x d : d ≠ IrisAtto → balance s' x d = balance s x d;
  pd_total d : total s' d = total s d;
  pd_nonneg : Forall (λ o, 0 ≤ o.2) outs }.
Lemma paid_nil s : auth_wf s → paid_out [] s s.
Proof. intros Hs. split; try done. intros x. unfold paid. simpl. case_decide; lia. Qed.
Lemma paid_app outs outs' s s1 s' : auth_wf s → (auth_wf s → paid_out outs s s1) → (auth_wf s1 → paid_out outs' s1 s') → paid_out (outs ++ outs') s s'.
Proof.
  intros Hs H1 H2. destruct (H1 Hs) as [W1 I1 O1 T1 N1], (H2 W1) as [W2 I2 O2 T2 N2]. split; [done|..].
  - intros x. rewrite I2, I1. unfold paid. rewrite !list_sum_app. repeat case_decide; lia.
  - intros x d Hd. by rewrite O2, O1.
  - intros d. by rewrite T2.
  - by apply Forall_app.
Qed.
Lemma paid_send a n s s' : auth_wf s → sendCoins D a [mkCoin IrisAtto n] s = (Ok tt, s') → paid_out [(a, n)] s s'.
Proof.
  intros Hs Hr. destruct (sendCoins_ok _ _ _ _ _ _ Hs Hr) as (Hv&Hw&Hb&Ht&_). split; [done| | |done|].
  - intros x. rewrite Hb. unfold paid. simpl. repeat case_decide; subst; try done; lia.
  - intros x d Hd. rewrite Hb. simpl. repeat case_decide; subst; try done; lia.
  - apply Coins_IsValid_iff in Hv as (_&Hv&_). by inversion Hv; constructor.
Qed.
Lemma paid_burn n s s' : auth_wf s → BurnCoins D [mkCoin IrisAtto n] s = (Ok tt, s') → paid_out [(BurnedCoinsAccAddr, n)] s s'.
Proof.
  intros Hs Hr. unfold BurnCoins in Hr. inv_ok Hr. apply ctx_ConsumeGas_inv in E as [g ->].
  destruct (paid_send _ _ _ _ (auth_wf_gas g s Hs) Hr) as [W I O T N]. by split.
Qed.
Lemma set_auth_same (s : ChainState) : set_auth (st_auth s) s = s.
Proof. by destruct s. Qed.
Lemma wp_refund_loop rate l sum w :
  wp (refund_loop rate l sum) (λ r w', ∃ outs s', Forall2 (λ am o, o.1 = am.1 ∧ refund_amount rate am.2 = Ok o.2) l outs ∧
    r = sum + list_sum snd outs ∧ w' = set_chain (set_auth s' (w_chain w)) w ∧ (auth_wf (world_auth w) → paid_out outs (world_auth w) s')) w.
Proof.
  revert sum w. induction l as [|[a c] l IH]; intros sum w; cbn [refund_loop].
  { wps. exists [], (world_auth w). split_and!; [constructor|simpl; lia|unfold world_auth; by rewrite set_auth_same, set_chain_same|apply paid_nil]. }
  wps. apply Int_Add_ok in Hx0 as [-> _]. apply NewCoin_ok in Hx1 as [-> Hpos]. apply wp_gov_must, wp_bank. intros [] s1 Hsend.
  eapply wp_mono; [apply IH|]. intros r w' (outs&s'&Hall&->&->&Hp). exists ((a, x) :: outs), s'. split_and!.
  - by constructor.
  - simpl. lia.
  - done.
  - intros Hw. eapply (paid_app [(a, x)] outs _ s1); [done|intros; by apply paid_send|exact Hp].
Qed.
Lemma AmountOf_iris c : iris_coins c → AmountOf c StakeDenom = iris c.
Proof. intros Hc. apply AmountOf_amt. by apply ServiceFacts.iris_coins_canonical. Qed.
(** The part of each deposit that is burned. *)
Definition burn_rate (minimum sum : Int) : Outcome Dec :=
  let? m := NewDecFromInt minimum in let? b := Dec_Mul m BurnRate in let? d := NewDecFromInt sum in Dec_Quo b d.
Lemma wp_RefundDeposits {P} (HP : params_ok P) id w :
  gov_ok P (w_gov w) → 0 ≤ id →
  wp (RefundDeposits id) (λ _ w', ∃ p rate outs s', gv_proposals (w_gov w) !! id = Some p ∧
    burn_rate (min_deposit P p) (deposits_of id (w_gov w)) = Ok rate ∧
    Forall2 (λ kd o, o.1 = dp_Depositor kd.2 ∧ refund_amount rate (dp_Amount kd.2) = Ok o.2) (GetDeposits id (w_gov w)) outs ∧
    0 ≤ deposits_of id (w_gov w) - list_sum snd outs ∧
    w' = set_gov (cleared id (w_gov w)) (set_chain (set_auth s' (w_chain w)) w) ∧
    (auth_wf (world_auth w) → paid_out (outs ++ [(BurnedCoinsAccAddr, deposits_of id (w_gov w) - list_sum snd outs)]) (world_auth w) s')) w.
Proof.
  intros Hok Hid. unfold RefundDeposits. wps. apply wp_gov. eapply wp_mono; [apply wp_collect; [by eapply deposits_ok|by left]|].
  intros [sum l] g' (->&Hc&Hs&El). cbn [fst snd] in *. subst l. rewrite (deposits_sum Hok id Hid) in Hs. cbn [amt] in Hs.
  rewrite (drop_deposits Hok id Hid). wpb. apply wp_gov_read. unfold must_proposal, GetProposal. wps. cbn [gv_proposals cleared set_deposits w_gov set_gov].
  destruct (gv_proposals (w_gov w) !! id) as [p|] eqn:Ep; [|wps]. wps. split; [done|]. wpb. apply wp_gov_read. unfold GetDepositProcedure. wpb.
  eapply wp_mono; [apply wp_level|]. intros r g' (->&->&Hl). apply wp_ret. split; [done|]. cbn [fst snd w_gov set_gov gv_params cleared set_deposits].
  rewrite (go_params _ _ Hok), (AmountOf_iris sum Hc), Hs. destruct (level_one HP _ Hl) as (k&Hk&Ek).
  rewrite AmountOf_iris by (rewrite Ek; by apply iris_coins_one). wps. rename x2 into rate.
  eapply wp_mono; [apply wp_refund_loop|]. intros rs w1 (outs&s1&Hall&->&->&Hp). wps. rewrite Z.add_0_l in Hx3. apply Int_Sub_ok in Hx3 as [-> _].
  apply NewCoin_ok in Hx4 as [-> Hpos]. apply wp_gov_must, wp_bank. intros [] s' Hburn. exists p, rate, outs, s'. rewrite Z.add_0_l in *. split_and!; try done.
  - unfold burn_rate, min_deposit. rewrite Hx. cbn [obind]. rewrite Hx0. cbn [obind]. rewrite Hx1. done.
  - by apply Forall2_fmap_l in Hall.
  - intros Hw. eapply paid_app; [done|exact Hp|]. intros Hw1. by apply paid_burn.
Qed.
Lemma wp_burn_loop l w :
  Forall (λ kd, ∃ m, 0 < m ∧ dp_Amount kd.2 = [mkCoin IrisAtto m]) l →
  wp (for_each l (λ kv, Gov.must (on_bank (BurnCoins D (dp_Amount kv.2))) ;;; on_gov (modify (set_deposits (delete kv.1)))))
    (λ _ w', ∃ s', w' = set_gov (set_deposits (drop_keys l.*1) (w_gov w)) (set_chain (set_auth s' (w_chain w)) w) ∧
      (auth_wf (world_auth w) → paid_out ((λ kd, (BurnedCoinsAccAddr, iris (dp_Amount kd.2))) <$> l) (world_auth w) s')) w.
Proof.
  revert w. induction l as [|[k d] l IH]; intros w Hl; cbn [for_each].
  { wps. exists (world_auth w). split; [|apply paid_nil]. unfold world_auth. rewrite set_auth_same, set_chain_same. by destruct w as [? []]. }
  inversion Hl as [|? ? (m&Hm&Em) Hl']; subst. cbn [fst snd] in *. wpb. rewrite Em. apply wp_gov_must, wp_bank. intros [] s1 Hb. apply wp_gov. wps.
  eapply wp_mono; [by apply IH|]. intros _ w' (s'&->&Hp). exists s'. split; [done|]. intros Hw. rewrite fmap_cons. cbn [fst snd]. rewrite Em, iris_one.
  eapply (paid_app [(_, m)] _ _ s1); [done|intros; by apply paid_burn|exact Hp].
Qed.
Lemma wp_DeleteDeposits {P} id w :
  gov_ok P (w_gov w) → 0 ≤ id →
  wp (DeleteDeposits id) (λ _ w', ∃ outs s', list_sum snd outs = deposits_of id (w_gov w) ∧ Forall (λ o, o.1 = BurnedCoinsAccAddr) outs ∧
    w' = set_gov (cleared id (w_gov w)) (set_chain (set_auth s' (w_chain w)) w) ∧ (auth_wf (world_auth w) → paid_out outs (world_auth w) s')) w.
Proof.
  intros Hok Hid. unfold DeleteDeposits. wps. eapply wp_mono; [apply wp_burn_loop; by eapply deposits_ok|].
  intros _ w' (s'&->&Hp). eexists _, s'. split_and!; [..|exact Hp].
  - rewrite list_sum_fmap. by apply (deposits_sum Hok).
  - apply Forall_fmap, Forall_true. done.
  - by rewrite (drop_deposits Hok id Hid).
Qed.

(** ** Penalties: nobody loses coins of an account *)
Definition rich (s s' : ChainState) : Prop := grows (st_auth s) (st_auth s').
#[export] Instance rich_po : PreOrder rich.
Proof. unfold rich. split; [by intros s|]. intros s1 s2 s3 H1 H2. by etrans. Qed.
Lemma rich_same s s' : st_auth s' = st_auth s → rich s s'.
Proof. unfold rich. by intros ->. Qed.
Lemma rich_distr : distr_closed rich.
Proof. split; intros; first [done|by apply rich_same]. Qed.
Lemma rich_closed : StakeFrame.closed rich.
Proof. split; intros; first [done|by apply rich_same]. Qed.
Lemma rich_transit : closed_transit rich.
Proof. split; intros; by apply rich_same. Qed.
Lemma rich_slash {A} (c : M Slashing.SlashState A) : keeps rich (Slashing.on_slash (X := Others) c).
Proof. apply keeps_zoom. intros s t. by apply rich_same. Qed.
Lemma rich_GetValidator a : keeps rich (GetValidator (X := Others) a).
Proof. intros s r s' Hr. by rewrite (eq_GetValidator a _ _ _ Hr). Qed.
#[local] Hint Resolve rich_slash rich_GetValidator : keeps.
#[local] Hint Extern 1 (keeps rich (Distr.onValidatorModified _ _)) => (apply (B_modified rich rich_distr)) : keeps.
#[local] Hint Extern 1 (keeps rich (Distr.onValidatorBonded _ _)) => (apply (B_bonded rich rich_distr)) : keeps.
#[local] Hint Extern 1 (keeps rich (Distr.on_distr _)) => (apply (B_distr rich rich_distr)) : keeps.
Lemma rich_dropping v (c : M ChainState unit) : keeps rich c → keeps rich (dropping v c).
Proof.
  intros Hc. unfold dropping. assert (∀ n, keeps rich (modify (write_off n))) as Hw by (intros n; apply keeps_modify; intros s; by apply rich_same). keeps; auto.
Qed.
#[local] Hint Resolve rich_dropping : keeps.
Lemma rich_hooked : hooked (λ _, True) rich.
Proof.
  split; [split|..]; intros; cbn [chain_hooks OnValidatorCreated OnValidatorModified OnValidatorRemoved OnValidatorBonded
    OnValidatorBeginUnbonding OnValidatorPowerDidChange OnDelegationCreated OnDelegationSharesModified OnDelegationRemoved].
  - keeps.
  - unfold Distr.onValidatorRemoved, Slashing.onValidatorRemoved. keeps.
  - apply (B_del_modified rich rich_distr).
  - apply (B_del_removed rich rich_distr).
  - unfold Distr.onValidatorCreated, Slashing.onValidatorCreated. keeps.
  - unfold Slashing.onValidatorBonded, Slashing.SetValidatorSigningInfo, GetValidatorByConsAddr, mustGetValidator. keeps.
  - unfold Slashing.onValidatorBeginUnbonding. keeps.
  - apply (B_power rich rich_distr).
  - apply (B_del_created rich rich_distr).
Qed.
Lemma rich_Slash ctx c h p f : keeps rich (Slash (X := Others) ctx c h p f).
Proof. by apply (K_Slash (λ _, True) rich rich_closed rich_hooked rich_transit). Qed.

(** ** Execution of a proposal *)
Definition safe (s s' : AuthState) : Prop := auth_wf s → auth_wf s' ∧ balance s D IrisAtto ≤ balance s' D IrisAtto.
#[export] Instance safe_po : PreOrder safe.
Proof.
  unfold safe. split; [by intros s Hs; split; [|lia]|]. intros s1 s2 s3 H1 H2 Hs. destruct (H1 Hs) as [W1 L1], (H2 W1) as [W2 L2]. split; [done|lia].
Qed.
Lemma grows_safe s s' : grows s s' → safe s s'.
Proof. intros Hg Hs. destruct (Hg Hs) as [? Hb]. by split. Qed.
Definition calm (w w' : World) : Prop := (∃ h, w_gov w' = set_haltHeight h (w_gov w)) ∧ safe (world_auth w) (world_auth w').
#[export] Instance calm_po : PreOrder calm.
Proof.
  split; [intros w; split; [exists (gv_haltHeight (w_gov w)); by destruct (w_gov w)|done]|].
  intros w1 w2 w3 [[h1 E1] S1] [[h2 E2] S2]. split; [exists h2; by rewrite E2, E1|by etrans].
Qed.
Lemma calm_same w w' : w_gov w' = w_gov w → safe (world_auth w) (world_auth w') → calm w w'.
Proof. intros E Hs. split; [|done]. rewrite E. exists (gv_haltHeight (w_gov w)). by destruct (w_gov w). Qed.
Lemma wp_ignore_stable {A} (c : WM A) (Q : unit → World → Prop) w : stable calm c → (∀ w', calm w w' → Q tt w') → wp (Gov.ignore c) Q w.
Proof. intros Hc HQ u w'. unfold Gov.ignore. specialize (Hc w). destruct (c w) as [[a|e|y] w1]; intros E; simplify_eq; by apply HQ. Qed.
Variable mainnet : bool.
Variable acc_String : AccAddress → string.
Hypothesis tax_apart : CommunityTaxCoinsAccAddr ≠ D.
Lemma stable_protocol {A} (c : M Upgrade.ProtocolStore A) : stable (λ _ _, True) c → stable calm (on_protocol c).
Proof. apply stable_zoom. intros w t _. by apply calm_same. Qed.
Lemma stable_guardian {A} (c : M Guardian.Store A) : stable (λ _ _, True) c → stable calm (on_guardian c).
Proof. apply stable_zoom. intros w t _. by apply calm_same. Qed.
Lemma stable_chain {A} (c : M ChainState A) : stable (λ s s', safe (st_auth s) (st_auth s')) c → stable calm (on_chain c).
Proof. apply stable_zoom. intros w t Ht. by apply calm_same. Qed.
Lemma stable_asset {A} (c : M AssetKeeper.AssetState A) : stable (λ s s', grows (AssetKeeper.as_auth s) (AssetKeeper.as_auth s')) c → stable calm (on_asset c).
Proof. apply stable_zoom. intros w t Ht. apply calm_same; [done|]. by apply grows_safe. Qed.
#[local] Instance true_po {T} : PreOrder (λ _ _ : T, True).
Proof. by split. Qed.
#[local] Instance as_po : PreOrder (λ s s', grows (AssetKeeper.as_auth s) (AssetKeeper.as_auth s')).
Proof. split; [by intros s|]. intros s1 s2 s3 H1 H2. by etrans. Qed.
#[local] Instance st_po : PreOrder (λ s s' : ChainState, safe (st_auth s) (st_auth s')).
Proof. split; [by intros s|]. intros s1 s2 s3 H1 H2. by etrans. Qed.
Lemma stable_Validate ctx p : stable calm (Proposal_Validate mainnet ctx p false).
Proof.
  unfold Proposal_Validate, BasicProposal_Validate, is_profiler, is_trustee. simpl.
  stable; first [apply stable_protocol|apply stable_guardian|apply stable_asset];
  unfold Upgrade.IsValidVersion, Upgrade.GetCurrentVersion, Upgrade.GetLastFailedVersion, Upgrade.GetUpgradeConfig, Guardian.GetProfiler, Guardian.GetTrustee, AssetKeeper.HasToken; stable.
Qed.
Lemma safe_send a b c : a ≠ D → keeps safe (sendCoins a b c).
Proof.
  intros Ha s u s' Hr Hs. destruct (sendCoins_ok _ _ _ _ _ _ Hs Hr) as (Hv&Hw&Hb&_). split; [done|]. rewrite Hb, decide_False by done.
  apply Coins_IsValid_iff in Hv as (Hso&Hp&_). assert (0 ≤ amt c IrisAtto) by (apply amt_nonneg; eapply Forall_impl; [exact Hp|simpl; lia]). case_decide; lia.
Qed.
Lemma safe_burn a c : a ≠ D → keeps safe (BurnCoins a c).
Proof.
  intros Ha s u s' Hr. unfold BurnCoins in Hr. inv_ok Hr. apply ctx_ConsumeGas_inv in E as [g ->]. etrans; [|by eapply (safe_send a)].
  by apply grows_safe, grows_accounts.
Qed.
Lemma safe_must {A} (c : M AuthState A) : keeps safe c → stable safe (Distr.must c).
Proof. intros Hc s. unfold Distr.must. destruct (c s) as [[a|e|y] s1] eqn:E; [by eapply Hc|done..]. Qed.
Lemma stable_FeeTax d p b : stable (λ s s' : ChainState, safe (st_auth s) (st_auth s')) (Distr.AllocateFeeTax d p b).
Proof.
  unfold Distr.AllocateFeeTax. stable.
  - apply (stable_zoom safe); [done|]. apply stable_keeps.
    + intros s r s' Hr. eapply grows_safe, grows_getCoins, Hr.
    + unfold getCoins, ctx_ConsumeGas, GetAccount. repeat (apply never_errs_bind; [|intros]); auto using ConsumeGas_no_err with noerr. case_match; auto with noerr.
  - apply (stable_zoom safe); [done|]. by apply safe_must, safe_burn.
  - apply (stable_zoom safe); [done|]. by apply safe_must, safe_send.
Qed.
Lemma stable_IssueToken t : stable (λ s s', grows (AssetKeeper.as_auth s) (AssetKeeper.as_auth s')) (AssetKeeper.IssueToken acc_String t).
Proof.
  unfold AssetKeeper.IssueToken, AssetKeeper.AddToken, AssetKeeper.SetToken, AssetKeeper.SetTokens, AssetKeeper.GetGateway, AssetKeeper.HasToken.
  stable; try (apply stable_modify; by intros []); (apply (stable_zoom grows); [done|]).
  - apply stable_keeps; [apply grows_add|apply addCoins_no_err].
  - unfold SetTotalSupply. apply stable_modify. intros s0. by apply grows_accounts.
Qed.
Lemma calm_write space key v w : calm w (write_param space key v w).
Proof. unfold write_param. repeat case_match; first [reflexivity|by apply calm_same]. Qed.
Lemma stable_Execute ctx p : stable calm (Execute mainnet acc_String ctx p).
Proof.
  unfold Execute, execute_parameters, execute_upgrade, GetSystemHaltHeight, GetSystemHaltPeriod, SetSystemHaltHeight.
  pose proof (stable_Validate ctx p) as HV. stable.
  - apply stable_modify. intros w. apply calm_write.
  - apply stable_protocol. unfold Upgrade.GetUpgradeConfig. stable.
  - apply stable_protocol. unfold Upgrade.IsValidVersion, Upgrade.GetCurrentVersion, Upgrade.GetLastFailedVersion. stable.
  - apply stable_protocol. by apply stable_modify.
  - apply (stable_zoom eq); [intros w t <-; by apply calm_same|stable].
  - apply (stable_zoom eq); [intros w t <-; by apply calm_same|stable].
  - apply (stable_zoom (λ g g', ∃ h, g' = set_haltHeight h g)); [by split|]. apply stable_modify. intros g. by eexists.
  - apply stable_chain, stable_FeeTax.
  - apply stable_asset, stable_IssueToken.
Qed.

(** ** Proposals that are due *)
Variable val_String : ValAddress → string.
Context {P : GovParams} (HP : params_ok P).
Lemma paid_covered outs s s' : paid_out outs s s' → balance s D IrisAtto - list_sum snd outs ≤ balance s' D IrisAtto.
Proof using.
  intros [_ Hb _ _ Hn]. rewrite Hb, decide_True by done. assert (0 ≤ paid D outs); [|lia]. apply list_sum_nonneg.
  eapply Forall_impl; [exact Hn|]. intros o Ho. cbv beta in *. case_decide; lia.
Qed.
Lemma open_count_closed g id p q l :
  gv_proposals g !! id = Some p → is_open p → ¬ is_open q →
  open_count l (set_proposals (insert id q) g) + one_of (proposal_Level p) l = open_count l g.
Proof using.
  intros Hp Ho Hq. unfold open_count. simpl. rewrite map_sum_insert. unfold at_key. rewrite Hp, opens_open by done. unfold opens, one_of.
  rewrite (decide_False (P := is_open q ∧ _)) by naive_solver. lia.
Qed.
Lemma open_count_dropped g id p l :
  gv_proposals g !! id = Some p → is_open p → open_count l (set_proposals (delete id) g) + one_of (proposal_Level p) l = open_count l g.
Proof using. intros Hp Ho. unfold open_count. simpl. rewrite (map_sum_delete _ _ _ p Hp), opens_open by done. unfold one_of. lia. Qed.
(** The number of a proposal that is open is taken off. *)
Lemma wp_Sub_open g p id g1 :
  nums_ok (P := P) g → gv_proposals g !! id = Some p → is_open p → numbers g1 = numbers g →
  wp (SubProposalNum (proposal_Level p)) (λ _ g', renumbered g1 g' ∧ ∀ g2, numbers g2 = numbers g' →
    (∀ l, open_count l g2 + one_of (proposal_Level p) l = open_count l g) → nums_ok (P := P) g2) g1.
Proof using HP.
  intros (Hc&Hn&Hm) Hp Ho En. unfold numbers in En. injection En as E1 _ E3.
  pose proof (open_count_le ProposalLevelCritical g id p Hp) as Hc1. pose proof (open_count_le ProposalLevelNormal g id p Hp) as Hn1. rewrite opens_open in Hc1, Hn1 by done.
  eapply wp_mono; [apply (wp_SubProposalNum HP _ (open_count ProposalLevelCritical g - one_of (proposal_Level p) ProposalLevelCritical)
    (open_count ProposalLevelNormal g - one_of (proposal_Level p) ProposalLevelNormal))|].
  - unfold critical_num. rewrite E1, Hc. lia.
  - unfold one_of. lia.
  - rewrite E3, Hn. lia.
  - unfold one_of. lia.
  - lia.
  - intros [] g' (Hren&Hcr&Hno). split; [done|]. intros g2 E2 Hcount. unfold numbers in E2. injection E2 as F1 _ F3.
    pose proof (Hcount ProposalLevelCritical). pose proof (Hcount ProposalLevelNormal). unfold nums_ok, critical_num in *. rewrite F1, F3. split_and!; [lia|lia|].
    pose proof (opens_range ProposalLevelNormal p). rewrite opens_open in * by done. unfold one_of in *. lia.
Qed.
Lemma wp_must_proposal id g : wp (must_proposal id) (λ p g', g' = g ∧ gv_proposals g !! id = Some p) g.
Proof using. unfold must_proposal, GetProposal. wps. destruct (gv_proposals g !! id); by wps. Qed.
Lemma wp_drop_inactive id p w :
  gov_inv (P := P) w → gv_proposals (w_gov w) !! id = Some p → GetStatus p = StatusDepositPeriod →
  wp (drop_inactive id) (λ _ w', gov_inv (P := P) w' ∧ gv_proposals (w_gov w') = delete id (gv_proposals (w_gov w))) w.
Proof using HP.
  intros [Hok Hnums Hw Hc] Hp Hst. pose proof (go_proposal _ _ Hok _ _ Hp) as Hpo. pose proof (ok_range Hok _ _ Hp) as Hr.
  unfold drop_inactive. wpb. apply wp_gov_read. eapply wp_mono; [apply wp_must_proposal|]. intros q g [-> Hq]. simplify_eq. split; [done|].
  wpb. apply wp_gov. eapply wp_mono; [apply (wp_Sub_open _ p id (w_gov w) Hnums Hp); [by left|done]|]. intros [] g1 [Hren Hnums1].
  assert (gov_ok P g1) as Hok1 by (by eapply renumbered_ok). wpb.
  eapply wp_mono; [apply (wp_DeleteDeposits (P := P)); [exact Hok1|lia]|]. intros [] w1 (outs&s'&Hsum&_&->&Hpaid).
  destruct Hren as (cr&im&no&Eg1). assert (gv_proposals g1 = gv_proposals (w_gov w)) as Eprops by (by rewrite Eg1).
  unfold DeleteProposal, RemoveFromInactiveProposalQueue, RemoveFromActiveProposalQueue. wpb. apply wp_gov. wpb.
  eapply wp_mono; [apply wp_must_proposal|]. intros q g [-> Hq]. assert (q = p) as -> by (simpl in Hq; rewrite Eprops in Hq; congruence). wps.
  apply wp_gov. wps. apply wp_gov_read. unfold GetDepositProcedure. wpb. eapply wp_mono; [apply wp_level|]. intros r g (->&_). wps. split; [done|].
  cbn [w_gov set_gov]. rewrite (po_id _ _ _ _ Hpo). apply wp_ret.
  match goal with |- gov_inv ?w' ∧ _ => assert (w_gov w' = dropped id p g1) as Edrop end.
  { unfold dropped. simpl. unfold set_inactive, set_proposals, set_active. simpl. by rewrite delete_delete_eq. }
  assert (Hp1 : gv_proposals g1 !! id = Some p) by (by rewrite Eprops).
  split; [|by rewrite Edrop; simpl; rewrite Eprops]. split.
  - rewrite Edrop. by eapply (ok_dropped Hok1).
  - rewrite Edrop. apply Hnums1; [done|]. intros l. rewrite <-(open_count_dropped (w_gov w) id p l Hp) by (by left). f_equal. unfold open_count. simpl. by rewrite Eprops.
  - by apply Hpaid.
  - rewrite Edrop. change (all_deposits (dropped id p g1)) with (all_deposits (cleared id g1)). rewrite cleared_all.
    pose proof (paid_covered _ _ _ (Hpaid Hw)) as Hb. change (all_deposits g1 - deposits_of id g1 ≤ balance s' D IrisAtto).
    assert (all_deposits g1 = all_deposits (w_gov w)) as -> by (by rewrite Eg1). change (world_auth (set_gov g1 w)) with (world_auth w) in Hb. cbn [w_gov set_gov] in Hsum. lia.
Qed.
Lemma eq_level l : keeps eq (level_params l).
Proof using. destruct l; cbn [level_params]; unfold no_level; keeps. Qed.
Lemma eq_count_votes l c : keeps eq (Gov.count_votes val_String l c).
Proof using.
  revert c. induction l as [|[k v] l IH]; intros c; cbn [count_votes]; keeps. apply eq_on_chain. keeps. apply eq_read_delegations.
Qed.
Lemma eq_tally p : keeps eq (Gov.tally val_String p).
Proof using.
  pose proof eq_count_votes as Hv.
  unfold Gov.tally, GetTallyingProcedure. keeps; [apply eq_on_chain, eq_by_power|apply eq_on_gov, eq_level].
Qed.
(** The deposits are gone, and what was executed is calm. *)
Definition settled (id : Z) (w w' : World) : Prop :=
  (∃ h, w_gov w' = set_haltHeight h (cleared id (w_gov w))) ∧ auth_wf (world_auth w') ∧
  balance (world_auth w) D IrisAtto - deposits_of id (w_gov w) ≤ balance (world_auth w') D IrisAtto.
Lemma settled_same id w s' outs :
  paid_out outs (world_auth w) s' → list_sum snd outs = deposits_of id (w_gov w) →
  settled id w (set_gov (cleared id (w_gov w)) (set_chain (set_auth s' (w_chain w)) w)).
Proof using.
  intros Hp Hs. split_and!; [exists (gv_haltHeight (w_gov w)); by destruct (w_gov w)|by apply Hp|]. rewrite <-Hs. by apply paid_covered.
Qed.
Lemma wp_refund id w : gov_ok P (w_gov w) → auth_wf (world_auth w) → 0 ≤ id → wp (RefundDeposits id) (λ _, settled id w) w.
Proof using HP.
  intros Hok Hw Hid. eapply wp_mono; [by apply (wp_RefundDeposits HP)|]. intros [] w' (p&r&outs&s'&_&_&_&_&->&Hp).
  eapply settled_same; [by apply Hp|]. rewrite list_sum_app. simpl. lia.
Qed.
Lemma wp_delete id w : gov_ok P (w_gov w) → auth_wf (world_auth w) → 0 ≤ id → wp (DeleteDeposits id) (λ _, settled id w) w.
Proof using.
  intros Hok Hw Hid. eapply wp_mono; [by apply (wp_DeleteDeposits (P := P))|]. intros [] w' (outs&s'&Hs&_&->&Hp). by eapply settled_same; [apply Hp|].
Qed.
Lemma settled_calm id w w1 w' : settled id w w1 → calm w1 w' → settled id w w'.
Proof using.
  intros ([h1 E1]&W1&B1) [[h2 E2] Hs]. destruct (Hs W1) as [W2 B2]. split_and!; [exists h2; by rewrite E2, E1|done|lia].
Qed.
Lemma wp_gov_punish ctx l vv a w (Q : unit → World → Prop) :
  (∀ s', rich (w_chain w) s' → Q tt (set_chain s' w)) → wp (punish val_String ctx l vv a) Q w.
Proof using.
  intros HQ. assert (Q tt w) as Hsame by (rewrite <-(set_chain_same w); by apply HQ). unfold punish. case_bool_decide; [by wps|]. wpb. apply wp_chain_read; [apply eq_GetValidator|]. intros [v|] _; [|by wps].
  case_decide; [|by wps]. wps. apply wp_gov_read. unfold GetTallyingProcedure. eapply wp_mono; [apply wp_level|]. intros r g (->&_). split; [done|].
  apply wp_chain. intros [] s' Hr. apply HQ. by eapply rich_Slash.
Qed.
Lemma wp_punish_all ctx l vv vals w (Q : unit → World → Prop) :
  (∀ s', rich (w_chain w) s' → Q tt (set_chain s' w)) → wp (for_each vals (punish val_String ctx l vv)) Q w.
Proof using.
  intros HQ. eapply wp_mono; [apply (wp_for_each_list vals _ (λ _ w', ∃ s', w' = set_chain s' w ∧ rich (w_chain w) s'))|].
  - exists (w_chain w). by rewrite set_chain_same.
  - intros a l' w1 (s1&->&H1). apply wp_gov_punish. intros s2 H2. exists s2. split; [done|]. by etrans.
  - intros [] w' (s'&->&Hs). by apply HQ.
Qed.
(** A proposal whose votes were counted. *)
Definition decided (p p' : Proposal) : Prop :=
  ∃ st r, p' = SetTallyResult r (SetStatus st p) ∧ (st = StatusPassed ∨ st = StatusRejected).
Lemma wp_finish_active ctx id p w :
  gov_inv (P := P) w → gv_proposals (w_gov w) !! id = Some p → GetStatus p = StatusVotingPeriod →
  wp (finish_active mainnet acc_String val_String ctx id) (λ _ w', gov_inv (P := P) w' ∧ ∃ p', decided p p' ∧
    gv_proposals (w_gov w') = insert id p' (gv_proposals (w_gov w))) w.
Proof using HP tax_apart.
  intros [Hok Hnums Hw Hc] Hp Hst. pose proof (go_proposal _ _ Hok _ _ Hp) as Hpo. pose proof (ok_range Hok _ _ Hp) as Hr.
  unfold finish_active. wpb. apply wp_gov_read. eapply wp_mono; [apply wp_must_proposal|]. intros q g [-> Hq]. simplify_eq. split; [done|].
  wpb. eapply wp_mono; [apply eq_tally|]. intros [[res results] vv] w1 <-. rewrite (po_id _ _ _ _ Hpo). wpb.
  eapply (wp_mono _ (λ p' w1, settled id w w1 ∧ ∃ st, p' = SetStatus st p ∧ (st = StatusPassed ∨ st = StatusRejected))).
  { destruct res; wpb.
    - eapply wp_mono; [apply wp_refund; [done|done|lia]|]. intros [] w1 Hs1. wpb. apply wp_ignore_stable; [by apply stable_Execute|]. intros w2 H2. wps. split; [by eapply settled_calm|]. exists StatusPassed. naive_solver.
    - eapply wp_mono; [apply wp_refund; [done|done|lia]|]. intros [] w1 Hs1. wps. split; [done|]. exists StatusRejected. naive_solver.
    - eapply wp_mono; [apply wp_delete; [done|done|lia]|]. intros [] w1 Hs1. wps. split; [done|]. exists StatusRejected. naive_solver. }
  intros p' w1 [[[h Eg] [Hw1 Hb1]] (st&Ep'&Hst')]. wpb. apply wp_gov. unfold RemoveFromActiveProposalQueue, SetProposal, GetValidatorSet, DeleteValidatorSet. wps.
  apply wp_gov. wps. apply wp_gov_read. wps. split; [done|]. wpb. apply wp_punish_all. intros s2 Hrich. cbn [w_gov set_gov set_chain].
  set (p2 := SetTallyResult results p'). assert (GetProposalID p2 = id) as Eid by (subst p'; exact (po_id _ _ _ _ Hpo)).
  assert (GetProposalID p' = id) as Eid' by exact Eid. assert (¬ is_open p2) as Hclosed by (subst p'; intros [E|E]; destruct Hst'; subst st; done).
  rewrite Eid, Eid', Eg. wpb. apply wp_gov. eapply wp_mono; [eapply (wp_Sub_open (w_gov w) p id); [done|done|by right|done]|].
  intros [] g3 [(cr&im&no&->) Hnums3]. apply wp_gov. wps. cbn [w_gov set_gov].
  set (g0 := set_critical cr (set_importantNum im (set_normalNum no (set_haltHeight h (w_gov w))))).
  match goal with |- gov_inv ?w' ∧ _ => set (wf := w'); assert (w_gov wf = GovFacts.closed id p2 g0) as Eclosed by (subst p'; done) end.
  assert (gov_ok P g0) as Hok0 by (by eapply ok_same).
  split; [|exists p2; split; [by exists st, results; subst p'|]; etrans; [apply (f_equal gv_proposals Eclosed)|done]]. split.
  - rewrite Eclosed. apply (ok_closed Hok0 id p); try done; (subst p'; first [done|by destruct Hst'; subst st]).
  - rewrite Eclosed. apply Hnums3; [done|]. intros l. rewrite <-(open_count_closed (w_gov w) id p p2 l Hp); [done|by right|done].
  - by apply Hrich.
  - rewrite Eclosed. change (all_deposits (cleared id (w_gov w)) ≤ balance (st_auth s2) D IrisAtto). rewrite cleared_all.
    destruct (Hrich Hw1) as [_ Hb2]. specialize (Hb2 D IrisAtto). change (st_auth (w_chain _)) with (world_auth w1) in Hb2. lia.
Qed.

(** ** The end of a block *)
Definition due (end_of : Proposal → Z) (st : ProposalStatus) (now : Z) (g : GovStore) (id : Z) : Prop :=
  ∃ p, gv_proposals g !! id = Some p ∧ GetStatus p = st ∧ end_of p ≤ now.
(** Proposals [ids] are all that are due, and each is so. *)
Definition all_due end_of st now g (ids : list Z) : Prop := NoDup ids ∧ ∀ id, id ∈ ids ↔ due end_of st now g id.
Lemma queue_all_due end_of pre st now g q l :
  (∀ k id, q !! k = Some id ↔ ∃ p, gv_proposals g !! id = Some p ∧ GetStatus p = st ∧ k = queue_key pre (end_of p) id) →
  (∀ id p, gv_proposals g !! id = Some p → GetStatus p = st → in_calendar (end_of p)) → in_calendar now →
  queue_iterator pre now q = Ok l → all_due end_of st now g l.*2.
Proof using.
  intros Hq Hcal Hnow Hl. destruct (queue_iterator_ok pre now q) as (l'&El&Hnd&Hin). rewrite Hl in El. injection El as <-. split.
  - assert (∀ k k' id, (k, id) ∈ l → (k', id) ∈ l → k = k') as Hone.
    { intros k k' id [(p&Hp&_&->)%Hq _]%Hin [(p'&Hp'&_&->)%Hq _]%Hin. by simplify_eq. }
    clear -Hnd Hone. induction l as [|[k id] l IH]; [constructor|]. apply NoDup_cons in Hnd as [Hn Hnd]. apply NoDup_cons. split.
    + intros ([k' id']&E&Hk')%list_elem_of_fmap. simpl in E. subst id'. destruct Hn. apply list_elem_of_fmap. exists (k', id). split; [|done]. simpl. apply (Hone k k' id); set_solver.
    + apply IH; [done|]. intros k1 k2 i H1 H2. apply (Hone k1 k2 i); set_solver.
  - intros id. split.
    + intros ([k id']&->&[(p&Hp&Hst&->)%Hq Hd]%Hin)%list_elem_of_fmap. exists p. split_and!; [done|done|]. apply queue_due in Hd; [done| |done]. by eapply Hcal.
    + intros (p&Hp&Hst&Hd). apply list_elem_of_fmap. exists (queue_key pre (end_of p) id, id). split; [done|]. apply Hin. split; [apply Hq; eauto|]. apply queue_due; [by eapply Hcal|done|done].
Qed.
(** The proposals after those that are due were handled. *)
Definition dropped_from (now : Z) (g : GovStore) (id : Z) (op : option Proposal) : Prop :=
  op = p ← gv_proposals g !! id; if decide (GetStatus p = StatusDepositPeriod ∧ GetDepositEndTime p ≤ now) then None else Some p.
Definition decided_from (now : Z) (g : GovStore) (id : Z) (op : option Proposal) : Prop :=
  match gv_proposals g !! id with
  | Some p => if decide (GetStatus p = StatusVotingPeriod ∧ GetVotingEndTime p ≤ now) then ∃ p', op = Some p' ∧ decided p p' else op = Some p
  | None => op = None
  end.
(** Proposals [ids] of [g] wait. *)
Record waiting end_of st now (R : GovStore → Z → option Proposal → Prop) (g : GovStore) (ids : list Z) (w : World) : Prop := {
  wt_inv : gov_inv (P := P) w;
  wt_nodup : NoDup ids;
  wt_due id : id ∈ ids → due end_of st now g id ∧ gv_proposals (w_gov w) !! id = gv_proposals g !! id;
  wt_done id : id ∉ ids → R g id (gv_proposals (w_gov w) !! id) }.
Lemma wp_waiting {A} end_of st now R g (f : A → Z) l body w :
  gov_inv (P := P) w → g = w_gov w → all_due end_of st now g (f <$> l) →
  (∀ id, ¬ due end_of st now g id → R g id (gv_proposals g !! id)) →
  (∀ x p w, gov_inv (P := P) w → gv_proposals g !! f x = Some p → GetStatus p = st → end_of p ≤ now → gv_proposals (w_gov w) !! f x = Some p →
    wp (body x) (λ _ w', gov_inv (P := P) w' ∧ R g (f x) (gv_proposals (w_gov w') !! f x) ∧ ∀ id, id ≠ f x → gv_proposals (w_gov w') !! id = gv_proposals (w_gov w) !! id) w) →
  wp (for_each l body) (λ _ w', gov_inv (P := P) w' ∧ ∀ id, R g id (gv_proposals (w_gov w') !! id)) w.
Proof using.
  intros Hi Eg [Hnd Hall] Hbase Hbody. eapply wp_mono; [apply (wp_for_each_list l _ (λ l, waiting end_of st now R g (f <$> l)))|].
  - split; [done|done|intros id Hid%Hall; by subst g|]. intros id Hid. rewrite <-Eg. apply Hbase. by rewrite <-Hall.
  - intros x l' w1 [Hi1 Hnd1 Hdue1 Hdone1]. apply NoDup_cons in Hnd1 as [Hn Hnd1]. destruct (Hdue1 (f x)) as [(p&Hp&Hst&He) Ew]; [apply elem_of_cons; by left|].
    eapply wp_mono; [apply (Hbody x p); [done|done|done|done|by rewrite Ew]|]. intros [] w2 (Hi2&Hx&Hother). split; [done|done|..].
    + intros id Hid. assert (id ≠ f x) by (by intros ->). rewrite Hother by done. apply Hdue1, elem_of_cons. by right.
    + intros id Hid. destruct (decide (id = f x)) as [->|Hne]; [done|]. rewrite Hother by done. apply Hdone1. rewrite fmap_cons. intros [|]%elem_of_cons; done.
  - intros [] w' [Hi' _ _ Hdone]. split; [done|]. intros id. apply Hdone, not_elem_of_nil.
Qed.
Lemma wp_drops l now w :
  gov_inv (P := P) w → all_due GetDepositEndTime StatusDepositPeriod now (w_gov w) l.*2 →
  wp (for_each l (λ kv : string * Z, drop_inactive kv.2)) (λ _ w', gov_inv (P := P) w' ∧ ∀ id, dropped_from now (w_gov w) id (gv_proposals (w_gov w') !! id)) w.
Proof using HP.
  clear tax_apart acc_String val_String. intros Hi Hd. eapply (wp_waiting _ _ _ (dropped_from now)); [done|done|exact Hd|..].
  - intros id Hid. unfold dropped_from. destruct (gv_proposals (w_gov w) !! id) as [p|] eqn:Ep; [|done]. simpl. rewrite decide_False; [done|]. intros [? ?]. apply Hid. by exists p.
  - intros [k id] p w1 Hi1 Hp0 Hst He Hp1. simpl in *. eapply wp_mono; [by apply (wp_drop_inactive id p)|]. intros [] w2 [Hi2 ->]. split_and!; [done|..].
    + unfold dropped_from. rewrite Hp0, lookup_delete_eq. simpl. by rewrite decide_True.
    + intros i Hne. by rewrite lookup_delete_ne.
Qed.
Lemma wp_finishes ctx l now w :
  gov_inv (P := P) w → all_due GetVotingEndTime StatusVotingPeriod now (w_gov w) l.*2 →
  wp (for_each l (λ kv : string * Z, finish_active mainnet acc_String val_String ctx kv.2))
    (λ _ w', gov_inv (P := P) w' ∧ ∀ id, decided_from now (w_gov w) id (gv_proposals (w_gov w') !! id)) w.
Proof using HP tax_apart.
  intros Hi Hd. eapply (wp_waiting _ _ _ (decided_from now)); [done|done|exact Hd|..].
  - intros id Hid. unfold decided_from. destruct (gv_proposals (w_gov w) !! id) as [p|] eqn:Ep; [|done]. rewrite decide_False; [done|]. intros [? ?]. apply Hid. by exists p.
  - intros [k id] p w1 Hi1 Hp0 Hst He Hp1. simpl in *. eapply wp_mono; [by apply (wp_finish_active _ id p)|]. intros [] w2 [Hi2 (p'&Hp'&->)]. split_and!; [done|..].
    + unfold decided_from. rewrite Hp0, lookup_insert_eq, decide_True by done. by exists p'.
    + intros i Hne. by rewrite lookup_insert_ne.
Qed.
(** What the end of a block at [now] makes of the proposals. *)
Definition resolved (now : Z) (g g' : GovStore) : Prop := ∀ id,
  match gv_proposals g !! id with
  | None => gv_proposals g' !! id = None
  | Some p =>
      if decide (GetStatus p = StatusDepositPeriod ∧ GetDepositEndTime p ≤ now) then gv_proposals g' !! id = None else
      if decide (GetStatus p = StatusVotingPeriod ∧ GetVotingEndTime p ≤ now) then ∃ p', gv_proposals g' !! id = Some p' ∧ decided p p'
      else gv_proposals g' !! id = Some p
  end.
Lemma wp_gov_EndBlocker ctx w :
  gov_inv (P := P) w → in_calendar (BlockTime ctx) →
  wp (Gov.EndBlocker mainnet acc_String val_String ctx) (λ _ w', gov_inv (P := P) w' ∧ resolved (BlockTime ctx) (w_gov w) (w_gov w')) w.
Proof using HP tax_apart.
  intros Hi Hcal. unfold Gov.EndBlocker, GetSystemHaltHeight, InactiveProposalQueueIterator, ActiveProposalQueueIterator. wpb. apply wp_gov_read. wps. split; [done|].
  wpb. apply wp_gov_read. wps. split; [done|]. pose proof (gi_ok _ Hi) as Hok. wpb.
  eapply wp_mono; [apply (wp_drops x (BlockTime ctx) w Hi)|].
  { eapply (queue_all_due GetDepositEndTime); [apply (go_inactive _ _ Hok)| |exact Hcal|exact Hx]. intros id p Hp _. apply (po_deposit_end _ _ _ _ (go_proposal _ _ Hok _ _ Hp)). }
  intros [] w1 [Hi1 Hd1]. wpb. apply wp_gov_read. wps. split; [done|]. pose proof (gi_ok _ Hi1) as Hok1. wpb.
  eapply wp_mono; [apply (wp_finishes _ x0 (BlockTime ctx) w1 Hi1)|].
  { eapply (queue_all_due GetVotingEndTime); [apply (go_active _ _ Hok1)| |exact Hcal|exact Hx0]. intros id p Hp Hst. by apply (po_voting_end _ _ _ _ (go_proposal _ _ Hok1 _ _ Hp)). }
  intros [] w2 [Hi2 Hd2]. wps. split; [done|]. intros id. specialize (Hd1 id). specialize (Hd2 id). unfold dropped_from in Hd1. unfold decided_from in Hd2. rewrite Hd1 in Hd2.
  destruct (gv_proposals (w_gov w) !! id) as [p|]; [|done]. simpl in Hd2. case_decide; done.
Qed.
End refunds.
End GovEnd.
