(* ===== verification/GovRules.v ===== *)
(** * Governance: the rules of proposals

    Parameter proposals: what they can write.  Votes: how the power of validators
    and delegators is counted. *)

From Stdlib Require Import Ascii.
From S2P Require Import Prelude SdkErrors Frame IntType GoStrings Denom Coin CoinFacts Dec TimeBytes KVStore CacheKVThms PrefixKV Auth StdTx Bank BankFacts BankBurn BankFrame Mint Guardian Service ServiceFacts StakeTypes Stake StakeFacts StakeInv StakeFrame StakeSlash StakeSet StakeApply StakeDue StakeThms StakeSteps Slashing SlashFacts DistrTypes Distr DistrFacts Chain ChainThms Asset AssetKeeper Coinswap ParamSets Upgrade GovTypes Gov GovFacts.
#[local] Open Scope Z_scope.

Module ParamRules.
Import Stake Chain ParamSets GovTypes Gov.

(** ** What a check accepts *)
(** The value is of the type of its key, so that it can be set; a record of
    parameters that passes the check of its module passes it with the value; and
    the value is then read under its key, and what was read before under the other
    keys of the module. *)
Record accepted {T} (ps : ParamSet) (key : string) (write : string → ParamValue → T → T) (pairs : T → list (string * ParamValue))
    (valid : T → Prop) (v : option ParamValue) (u : ParamValue) : Prop := {
  ac_value : v = Some u;
  ac_set : Subspace_check ps key v = Ok u;
  ac_valid p : valid p → valid (write key u p);
  ac_read p key' : assoc key' (pairs (write key u p)) = if bool_decide (key' = key) then Some u else assoc key' (pairs p) }.
Lemma checked_ok {A} (o : option A) validate wrap v : checked o validate wrap = Ok v → ∃ a, validate a = Ok tt ∧ v = Some (wrap a).
Proof. unfold checked. destruct o as [a|]; [|done]. intros ([]&E&[= <-])%obind_ok. by exists a. Qed.
Lemma read_coin_ok s validate v : read_coin s validate = Ok v → ∃ c, validate c = Ok tt ∧ v = Some (VCoin c).
Proof.
  unfold read_coin. destruct (ParseCoin s) as [c|e|y]; [|done..]. case_bool_decide; [done|]. intros ([]&E&[= <-])%obind_ok. by exists c.
Qed.
Ltac read_key :=
  intros [] key'; lazymatch goal with |- _ = if bool_decide (_ = ?k) then _ else _ =>
    destruct (decide (key' = k)) as [->|Hk];
      [vm_compute; reflexivity|rewrite (bool_decide_eq_false_2 (key' = k)) by done; simpl; rewrite (bool_decide_eq_false_2 (k = key')) by congruence; reflexivity] end.
Ltac each_key :=
  intros Hv; repeat (case_bool_decide; [subst; first [apply checked_ok in Hv as (a&Ha&->)|apply read_coin_ok in Hv as (a&Ha&->)];
    eexists; split; [reflexivity|vm_compute; reflexivity|intros [] Hp; simpl in *|read_key]|]); try done.
Ltac valid_key :=
  simpl in *; match goal with Hp : obind _ _ = Ok tt |- _ => inv_ok Hp end;
  repeat match goal with H : ?a = Ok ?b |- context [obind ?a _] => rewrite H; cbn [obind] end; try done.
Section sets.
Variable mainnet : bool.
Definition set_of (space : string) : ParamSet := default (mkParamSet "" [] (λ _ _, Ok None)) (GetParamSet mainnet space).
Lemma stake_accepted key value v :
  stake_Validate mainnet key value = Ok v → ∃ u, accepted (set_of "stake") key stake_write stake_KeyValuePairs (λ p, StakeTypes.ValidateParams mainnet p = Ok tt) v u.
Proof. unfold stake_Validate. each_key; unfold StakeTypes.ValidateParams in *; valid_key. Qed.
Lemma slashing_accepted key value v :
  slashing_Validate mainnet key value = Ok v → ∃ u, accepted (set_of "slashing") key slashing_write slashing_KeyValuePairs (λ p, Slashing.validateParams mainnet p = Ok tt) v u.
Proof. unfold slashing_Validate. each_key; unfold Slashing.validateParams in *; valid_key. Qed.
Lemma service_accepted key value v :
  service_Validate mainnet key value = Ok v → ∃ u, accepted (set_of "service") key service_write service_KeyValuePairs (λ p, Service.validateParams mainnet p = Ok tt) v u.
Proof. unfold service_Validate. each_key; unfold Service.validateParams in *; valid_key. Qed.
Lemma distr_accepted key value v :
  distr_Validate key value = Ok v → ∃ u, accepted (set_of "distr") key distr_write distr_KeyValuePairs (λ p, DistrTypes.ValidateParams p = Ok tt) v u.
Proof. unfold distr_Validate. each_key; unfold DistrTypes.ValidateParams in *; valid_key. Qed.
Lemma asset_accepted key value v :
  asset_Validate key value = Ok v → ∃ u, accepted (set_of "asset") key asset_write asset_KeyValuePairs (λ p, Asset.ValidateParams p = Ok tt) v u.
Proof. unfold asset_Validate. each_key; unfold Asset.ValidateParams in *; valid_key. Qed.
Lemma auth_accepted key value v :
  auth_Validate key value = Ok v → ∃ u, accepted (set_of "auth") key auth_write auth_KeyValuePairs (λ p, StdTx.validateParams p = Ok tt) v u.
Proof.
  unfold auth_Validate. each_key; unfold StdTx.validateParams in *; simpl in *; repeat case_match; done.
Qed.
Lemma mint_accepted key value v :
  mint_Validate key value = Ok v → ∃ d, key = "Inflation" ∧ v = Some (VDec d) ∧ Subspace_check (set_of "mint") key v = Ok (VDec d) ∧ Mint.validateParams (Mint.mkParams d) = Ok tt.
Proof.
  unfold mint_Validate. intros Hv. destruct (Mint.Params_Validate key value) as [d| |] eqn:Ed; [|done..]. injection Hv as <-. unfold Mint.Params_Validate in Ed.
  case_bool_decide; [subst|done]. destruct (NewDecFromStr value); [|done..]. exists d. split_and!; [done|done|done|]. unfold Mint.validateParams.
  change (NewDecWithPrec 2 1) with (@Ok Dec (2 * 10^9)) in *. change (NewDecWithPrec 0 0) with (@Ok Dec ZeroDec) in Ed. cbn [obind] in *. case_match; [done|]. injection Ed as ->. simpl. by case_match.
Qed.
Lemma swap_accepted key value v :
  swap_Validate key value = Ok v → ∃ r, key = "fee" ∧ v = Some (VRat r) ∧ Subspace_check (set_of "coinswap") key v = Ok (VRat r) ∧ validateFee r = Ok tt.
Proof.
  unfold swap_Validate. intros Hv. destruct (Coinswap.Params_Validate key value) as [r| |] eqn:Er; [|done..]. injection Hv as <-. unfold Coinswap.Params_Validate in Er.
  case_bool_decide; [subst|done]. apply obind_ok in Er as (r'&_&([]&Hf&[= <-])%obind_ok). by exists r'.
Qed.

(** ** Parameter proposals *)
Record valid_params (w : World) : Prop := {
  vp_mint : Mint.validateParams (o_mint_params (st_other (w_chain w))) = Ok tt;
  vp_slashing : Slashing.validateParams mainnet (Slashing.sl_params (o_slash (st_other (w_chain w)))) = Ok tt;
  vp_service : Service.validateParams mainnet (w_service w) = Ok tt;
  vp_auth : StdTx.validateParams (feeParams (o_fees (st_other (w_chain w)))) = Ok tt;
  vp_stake : StakeTypes.ValidateParams mainnet (st_params (w_chain w)) = Ok tt;
  vp_distr : DistrTypes.ValidateParams (Distr.d_params (o_distr (st_other (w_chain w)))) = Ok tt;
  vp_asset : Asset.ValidateParams (w_asset w) = Ok tt;
  vp_swap : validateFee (Fee (w_swap w)) = Ok tt }.
(** The state without the parameters that a proposal can change. *)
Definition without_params (w : World) : World :=
  let x := st_other (w_chain w) in
  let x := mkOthers (Slashing.with_params Slashing.DefaultParams (o_slash x)) (Distr.set_dparams DistrTypes.DefaultParams (o_distr x))
    (mkFees (collectedFees (o_fees x)) (feeAuth (o_fees x)) auth_DefaultParams) (o_minter x) (Mint.mkParams 0) (written_off x) in
  set_chain (set_params StakeTypes.DefaultParams (set_other x (w_chain w)))
    (set_asset_params Asset.DefaultParams (set_service Service.DefaultParams (set_swap Coinswap.DefaultParams w))).
Lemma write_without space key u w : without_params (write_param space key u w) = without_params w.
Proof. unfold write_param. repeat case_match; done. Qed.
Lemma write_apart space space' key u w : space' ≠ space → space_pairs space' (write_param space key u w) = space_pairs space' w.
Proof.
  intros Hne. unfold write_param. repeat (case_bool_decide; [subst space|]); [..|done].
  all: unfold space_pairs; repeat (case_bool_decide; [subst space'; first [done|repeat case_match; done]|]); done.
Qed.
Lemma swap_read r w key' : assoc key' (swap_KeyValuePairs (mkSwapParams r)) = if bool_decide (key' = "fee") then Some (VRat r) else assoc key' (swap_KeyValuePairs (w_swap w)).
Proof. simpl. repeat case_bool_decide; congruence. Qed.

(** C22. The proposal that changes a parameter to a value that the check of its set
    accepts is executed: the parameter is then read with that value and every other
    parameter as before, nothing else in the state changes, and the parameters of
    all the modules stay valid.  But one that changes a parameter of governance,
    which the check accepts as well, is a panic, whatever the key and the value. *)
Theorem parameter_proposal_executed ps param v w :
  valid_params w → GetParamSet mainnet (pr_Subspace param) = Some ps → ps_Validate ps (pr_Key param) (pr_Value param) = Ok v →
  if decide (pr_Subspace param = "gov") then ∃ y, execute_parameters mainnet [param] w = (Panic y, w)
  else ∃ w' u, v = Some u ∧ execute_parameters mainnet [param] w = (Ok tt, w') ∧ valid_params w' ∧ without_params w' = without_params w ∧
    ∀ space key, read_param space key w' = if decide (space = pr_Subspace param ∧ key = pr_Key param) then Some u else read_param space key w.
Proof.
  intros Hw Hs Hv. assert (set_of (pr_Subspace param) = ps) as <- by (unfold set_of; by rewrite Hs).
  assert (∀ u, Subspace_check (set_of (pr_Subspace param)) (pr_Key param) v = Ok u →
    execute_parameters mainnet [param] w = (Ok tt, write_param (pr_Subspace param) (pr_Key param) u w)) as Hrun.
  { intros u Hu. unfold execute_parameters. rewrite Hs, Hv. unfold bind, lift, modify. by rewrite Hu. }
  destruct param as [space key value]. cbn [pr_Subspace pr_Key pr_Value] in *. destruct Hw as [V1 V2 V3 V4 V5 V6 V7 V8].
  unfold GetParamSet, configParams in Hs. cbn [find_set ps_Space] in Hs.
  assert (∀ u, v = Some u → Subspace_check (set_of space) key v = Ok u → valid_params (write_param space key u w) →
    (∀ key', assoc key' (space_pairs space (write_param space key u w)) = if bool_decide (key' = key) then Some u else assoc key' (space_pairs space w)) →
    space ≠ "gov" → if decide (space = "gov") then ∃ y, execute_parameters mainnet [mkParam space key value] w = (Panic y, w)
    else ∃ w' u, v = Some u ∧ execute_parameters mainnet [mkParam space key value] w = (Ok tt, w') ∧ valid_params w' ∧ without_params w' = without_params w ∧
      ∀ space' key', read_param space' key' w' = if decide (space' = space ∧ key' = key) then Some u else read_param space' key' w) as Hend.
  { intros u Hvu Hu Hval Hread Hne. rewrite decide_False by done. exists (write_param space key u w), u.
    split_and!; [done|by apply Hrun|done|apply write_without|]. intros space' key'. unfold read_param.
    destruct (decide (space' = space)) as [->|Hsp]; [|rewrite decide_False by naive_solver; by rewrite write_apart].
    rewrite Hread. destruct (decide (key' = key)) as [->|Hk]; [by rewrite bool_decide_eq_true_2, decide_True by done|].
    rewrite bool_decide_eq_false_2 by done. by rewrite decide_False by (by intros []). }
  repeat (case_bool_decide; [subst space|]); [..|done].
  - destruct (mint_accepted _ _ _ Hv) as (d&->&->&Hc&Hd). apply (Hend _ eq_refl Hc); [by split|intros key'; simpl; repeat case_bool_decide; congruence|done].
  - destruct (slashing_accepted _ _ _ Hv) as (u&[-> Hc Hd Hk]). apply (Hend _ eq_refl Hc); [split; try done; by apply Hd|intros; apply Hk|done].
  - destruct (service_accepted _ _ _ Hv) as (u&[-> Hc Hd Hk]). apply (Hend _ eq_refl Hc); [split; try done; by apply Hd|intros; apply Hk|done].
  - destruct (auth_accepted _ _ _ Hv) as (u&[-> Hc Hd Hk]). apply (Hend _ eq_refl Hc); [split; try done; by apply Hd|intros; apply Hk|done].
  - destruct (stake_accepted _ _ _ Hv) as (u&[-> Hc Hd Hk]). apply (Hend _ eq_refl Hc); [split; try done; by apply Hd|intros; apply Hk|done].
  - destruct (distr_accepted _ _ _ Hv) as (u&[-> Hc Hd Hk]). apply (Hend _ eq_refl Hc); [split; try done; by apply Hd|intros; apply Hk|done].
  - destruct (asset_accepted _ _ _ Hv) as (u&[-> Hc Hd Hk]). apply (Hend _ eq_refl Hc); [split; try done; by apply Hd|intros; apply Hk|done].
  - rewrite decide_True by done. injection Hv as <-. unfold execute_parameters, bind, lift. cbn [pr_Subspace pr_Key pr_Value]. change (GetParamSet mainnet "gov") with (Some (set_of "gov")).
    cbn [ps_Validate set_of]. change (ps_Validate (set_of "gov") key value) with (@Ok (option ParamValue) None). unfold Subspace_check. destruct (assoc key (ps_Pairs (set_of "gov"))); eexists; reflexivity.
  - destruct (swap_accepted _ _ _ Hv) as (r&->&->&Hc&Hd). apply (Hend _ eq_refl Hc); [by split|intros; apply (swap_read r w)|done].
Qed.
End sets.
End ParamRules.

(** ** The count of the votes *)
Module TallyRules.
Import StakeTypes Stake StakeFacts StakeInv StakeChecks StakeThms DistrFacts Chain GovTypes Gov GovFacts GovOps.

(** *** Sums *)
Lemma map_sum_plus {K V} `{Countable K} (f g : V → Z) (m : gmap K V) : map_sum (λ v, f v + g v) m = map_sum f m + map_sum g m.
Proof.
  induction m as [|k v m Hk IH] using map_ind; [by rewrite !map_sum_empty|]. rewrite !map_sum_insert_new, IH by done. lia.
Qed.
Lemma map_sum_mono {K V} `{Countable K} (f g : V → Z) (m : gmap K V) : (∀ k v, m !! k = Some v → f v ≤ g v) → map_sum f m ≤ map_sum g m.
Proof.
  intros Hle. enough (0 ≤ map_sum (λ v, g v - f v) m) as Hd.
  { assert (map_sum g m = map_sum f m + map_sum (λ v, g v - f v) m) as ->; [|lia]. rewrite <-map_sum_plus. apply map_sum_ext. intros. lia. }
  apply map_sum_nonneg. intros k v Hk. specialize (Hle k v Hk). lia.
Qed.
Lemma sum_exchange {K V A} `{Countable K} (f : A → V → Z) (l : list A) (m : gmap K V) :
  list_sum (λ x, map_sum (f x) m) l = map_sum (λ v, list_sum (λ x, f x v) l) m.
Proof.
  induction l as [|x l IH]; simpl; [|by rewrite IH, map_sum_plus]. symmetry. by apply StakeDue.map_sum_zero.
Qed.
Lemma sum_one (x : string) (n : Z) l : 0 ≤ n → NoDup l → list_sum (λ y, if decide (x = y) then n else 0) l ≤ n.
Proof.
  intros Hn. induction 1 as [|y l Hy Hnd IH]; simpl; [done|]. case_decide; [subst|lia].
  assert (list_sum (λ z, if decide (y = z) then n else 0) l = 0) as ->; [|lia].
  rewrite (list_sum_ext _ (λ _, 0)); [by clear; induction l|]. intros z Hz. rewrite decide_False; [done|]. by intros ->.
Qed.
Lemma list_sum_mono {A} (f g : A → Z) l : (∀ x, f x ≤ g x) → list_sum f l ≤ list_sum g l.
Proof. intros Hle. induction l as [|x l IH]; simpl; [done|]. specialize (Hle x). lia. Qed.
Lemma Dec_Mul_nonneg a b r : 0 ≤ a → 0 ≤ b → Dec_Mul a b = Ok r → 0 ≤ r.
Proof. intros Ha Hb [-> _]%dec_checked_ok. apply chop_pos. nia. Qed.

(** *** The results *)
Record results_ok (c : Counting) : Prop := {
  ro_options o : is_Some (ct_results c !! o) ↔ ValidVoteOption o = true;
  ro_nonneg o r : ct_results c !! o = Some r → 0 ≤ r;
  ro_total : ct_totalVotingPower c = map_sum (λ r, r) (ct_results c) }.
Lemma no_results_ok curr vv : results_ok (mkCounting no_results ZeroDec curr vv).
Proof.
  split; simpl; [|intros o r; unfold no_results; rewrite !lookup_insert_Some, lookup_singleton_Some; naive_solver lia|done].
  intros o. unfold no_results, ValidVoteOption, is_Some. setoid_rewrite lookup_insert_Some. setoid_rewrite lookup_insert_Some. setoid_rewrite lookup_insert_Some. setoid_rewrite lookup_singleton_Some.
  rewrite !orb_true_iff, !Z.eqb_eq. split; [naive_solver|]. intros Ho. exists ZeroDec. destruct (decide (OptionYes = o)), (decide (OptionAbstain = o)), (decide (OptionNo = o)); naive_solver.
Qed.
Lemma results_sum c :
  results_ok c → ct_totalVotingPower c = result_of OptionYes c + result_of OptionAbstain c + result_of OptionNo c + result_of OptionNoWithVeto c.
Proof.
  intros [H1 _ H3]. rewrite H3. unfold result_of.
  assert (∀ o, ValidVoteOption o = true → ct_results c !! o = Some (default 0 (ct_results c !! o))) as Hs by (intros o [r ->]%H1; done).
  assert (ct_results c = <[OptionYes := default 0 (ct_results c !! OptionYes)]> (<[OptionAbstain := default 0 (ct_results c !! OptionAbstain)]>
    (<[OptionNo := default 0 (ct_results c !! OptionNo)]> (<[OptionNoWithVeto := default 0 (ct_results c !! OptionNoWithVeto)]> ∅)))) as E.
  { apply map_eq. intros o. destruct (decide (ValidVoteOption o = true)) as [Ho|Ho].
    - rewrite (Hs o Ho). unfold ValidVoteOption in Ho. rewrite !orb_true_iff, !Z.eqb_eq in Ho. by destruct Ho as [[[-> | ->]| ->]| ->].
    - assert (ct_results c !! o = None) as -> by (apply eq_None_not_Some; by rewrite H1). symmetry.
      unfold ValidVoteOption in Ho. rewrite !orb_true_iff, !Z.eqb_eq in Ho. rewrite !lookup_insert_ne by naive_solver. done. }
  rewrite E at 1. rewrite !map_sum_insert_new by done. rewrite map_sum_empty. lia.
Qed.
Lemma add_power_ok o power c c' :
  results_ok c → 0 ≤ power → add_power o power c = Ok c' →
  results_ok c' ∧ ct_currValidators c' = ct_currValidators c ∧ ct_votingVals c' = ct_votingVals c.
Proof.
  intros [H1 H2 H3] Hp. unfold add_power. destruct (ct_results c !! o) as [r|] eqn:Er; [|done]. intros Ha. inv_ok Ha. injection Ha as <-.
  apply dec_checked_ok in E as [-> _]. apply dec_checked_ok in E0 as [-> _]. split_and!; [|done|done]. split; simpl.
  - intros o'. destruct (decide (o = o')) as [<-|]; [rewrite lookup_insert_eq, <-H1, Er|by rewrite lookup_insert_ne]. split; intros; by eexists.
  - intros o' r'. rewrite lookup_insert_Some. intros [[<- <-]|[_ ?]]; [|by eapply H2]. specialize (H2 _ _ Er). lia.
  - rewrite map_sum_insert. unfold at_key. rewrite Er, H3. lia.
Qed.

(** *** The shares *)
Section count.
Context `{Crypto, ConsCrypto}.
Variable val_String : ValAddress → string.
Hypothesis text_inj : ∀ a b, val_String a = val_String b → a = b.
Variable s : ChainState.
Hypothesis Hvals : vals_ok (validators s).
Hypothesis Hdels : dels_ok (delegations s).
Hypothesis Hshares : ∀ a, shares_of (validators s) a = map_sum (shares_to a) (delegations s).
(** What [x] delegates to the validator [a]. *)
Definition share (x : AccAddress) (a : ValAddress) : Z :=
  map_sum (λ d, if decide (d_DelegatorAddr d = x ∧ d_ValidatorAddr d = a) then d_Shares d else 0) (delegations s).
Lemma share_nonneg x a : 0 ≤ share x a.
Proof using Hdels. apply map_sum_nonneg. intros k d Hd. destruct (Hdels _ _ Hd) as (_&_&_&?). case_decide; lia. Qed.
Lemma shares_distinct l a : NoDup l → list_sum (λ x, share x a) l ≤ shares_of (validators s) a.
Proof using Hdels Hshares.
  intros Hnd. rewrite Hshares. unfold share. rewrite (sum_exchange (λ x d, if decide (d_DelegatorAddr d = x ∧ d_ValidatorAddr d = a) then d_Shares d else 0)).
  apply map_sum_mono. intros k d Hd. destruct (Hdels _ _ Hd) as (_&_&_&Hn). unfold shares_to. destruct (decide (d_ValidatorAddr d = a)) as [Ea|Ea].
  - etrans; [|apply (sum_one (d_DelegatorAddr d) (d_Shares d) l Hn Hnd)]. apply Z.eq_le_incl, list_sum_ext. intros x _. repeat case_decide; naive_solver.
  - apply Z.eq_le_incl. etrans; [apply (list_sum_ext _ (λ _, 0)); intros x _; rewrite decide_False; naive_solver|]. clear. by induction l.
Qed.
(** The delegations of [x], as the iteration gives them. *)
Lemma delegations_elem x k d : is_addr x → (k, d) ∈ delegations_of x s ↔ delegations s !! k = Some d ∧ d_DelegatorAddr d = x.
Proof using Hdels.
  intros Hx. unfold delegations_of. rewrite prefix_iterator_elem. split.
  - intros [Hk Hp]. split; [done|]. destruct (Hdels _ _ Hk) as (->&[Ha _]&_). apply HasPrefix_iff in Hp as [u Hu]. unfold GetDelegationKey in Hu.
    apply str_app_inj in Hu as [-> _]; [done|]. unfold is_addr in *. congruence.
  - intros [Hk <-]. split; [done|]. destruct (Hdels _ _ Hk) as (->&_). apply HasPrefix_app.
Qed.
Lemma delegations_sum x a : is_addr x → list_sum (λ d, if decide (d_ValidatorAddr d = a) then d_Shares d else 0) (delegations_of x s).*2 = share x a.
Proof using Hdels.
  intros Hx. unfold share. rewrite <-list_sum_entries, !list_sum_fmap. unfold delegations_of, prefix_iterator. rewrite list_sum_filter.
  apply list_sum_ext. intros [k d] Hin. pose proof (delegations_elem x k d Hx) as Hg. unfold delegations_of, prefix_iterator in Hg. rewrite list_elem_of_filter in Hg.
  simpl in *. apply entries_elem in Hin as Hk. repeat case_decide; naive_solver.
Qed.
(** The record of a validator, of which [D] shares were counted for delegators. *)
Record info_ok (D : ValAddress → Z) (key : string) (i : validatorGovInfo) : Prop := {
  io_key : key = val_String (gi_Address i);
  io_shares : gi_DelegatorShares i = shares_of (validators s) (gi_Address i);
  io_tokens : 0 ≤ gi_TokenPerShare i;
  io_deducted : gi_DelegatorDeductions i = D (gi_Address i) }.
Record tally_inv (D : ValAddress → Z) (c : Counting) : Prop := {
  ti_info key i : ct_currValidators c !! key = Some i → info_ok D key i;
  ti_results : results_ok c }.
Lemma govInfos_ok vals curr sys r :
  Forall (λ v, validators s !! v_OperatorAddr v = Some v) vals → (∀ key i, curr !! key = Some i → info_ok (λ _, 0) key i) →
  govInfos val_String vals curr sys = Ok r → ∀ key i, r.1 !! key = Some i → info_ok (λ _, 0) key i.
Proof using Hvals.
  revert curr sys. induction vals as [|v vals IH]; intros curr sys Hv Hc Hr; cbn [govInfos] in Hr; [injection Hr as <-; exact Hc|].
  inversion Hv as [|? ? Hv1 Hv2]; subst. inv_ok Hr. eapply IH; [done| |exact Hr]. intros key i. rewrite lookup_insert_Some. intros [[<- <-]|[_ ?]]; [|by apply Hc].
  destruct (Hvals _ _ Hv1) as [_ Hok]. split; simpl; [done|unfold shares_of; by rewrite Hv1| |done]. exact (Dec_Quo_nonneg _ _ _ (vo_tokens _ Hok) (vo_shares _ Hok) E).
Qed.
Lemma record_vote_ok D v c : tally_inv D c → tally_inv D (record_vote val_String v c).
Proof.
  intros [Hi [R1 R2 R3]]. unfold record_vote. destruct (ct_currValidators c !! _) as [i|] eqn:Ei; [|by split]. split; [|by split].
  intros key j. simpl. rewrite lookup_insert_Some. intros [[<- <-]|[_ ?]]; [|by apply Hi]. destruct (Hi _ _ Ei). by split.
Qed.
Definition counted (v : Vote) (d : Delegation) (a : ValAddress) : Z :=
  if decide (d_ValidatorAddr d = a ∧ vt_Voter v ≠ a) then d_Shares d else 0.
Lemma tally_inv_ext D D' c : (∀ a, D a = D' a) → tally_inv D c → tally_inv D' c.
Proof. intros HD [Hi Hr]. split; [|done]. intros key i Hk. destruct (Hi _ _ Hk) as [? ? ? E]. split; try done. by rewrite E, HD. Qed.
Lemma count_delegation_ok D v d c c' :
  tally_inv D c → 0 ≤ d_Shares d → count_delegation val_String v d c = Ok c' → tally_inv (λ a, D a + counted v d a) c'.
Proof using text_inj.
  intros [Hi Hr] Hd. unfold count_delegation, counted. case_bool_decide as Hself.
  { apply text_inj in Hself. intros [= <-]. eapply tally_inv_ext; [|by split]. intros a. simpl. rewrite decide_False by naive_solver. lia. }
  assert (d_ValidatorAddr d ≠ vt_Voter v) as Hne by congruence.
  destruct (ct_currValidators c !! val_String (d_ValidatorAddr d)) as [i|] eqn:Ei.
  - intros Hc. inv_ok Hc. apply dec_checked_ok in E as [-> _]. pose proof (Hi _ _ Ei) as [I1 I2 I3 I4]. apply text_inj in I1.
    pose proof (Dec_Mul_nonneg _ _ _ Hd I3 E0) as Hp. apply add_power_ok in Hc as (Hr'&Ec&_); [|by destruct Hr; split|done]. split; [|done].
    intros key j. rewrite Ec. simpl. rewrite lookup_insert_Some. intros [[<- <-]|[Hk Hj]].
    + split; simpl; [by rewrite I1|done|done|]. rewrite I4, decide_True by (split; congruence). done.
    + destruct (Hi _ _ Hj) as [J1 J2 J3 J4]. split; try done. rewrite decide_False; [lia|]. intros [E _]. apply Hk. congruence.
  - intros [= <-]. split; [|done]. intros key j Hj. destruct (Hi _ _ Hj) as [J1 J2 J3 J4]. split; try done.
    rewrite decide_False; [lia|]. intros [E _]. rewrite E, <-J1, Hj in Ei. done.
Qed.
Lemma count_delegations_ok D v ds c c' :
  tally_inv D c → Forall (λ d, 0 ≤ d_Shares d) ds → count_delegations val_String v ds c = Ok c' → tally_inv (λ a, D a + list_sum (λ d, counted v d a) ds) c'.
Proof using text_inj.
  revert D c. induction ds as [|d ds IH]; intros D c Hi Hd; cbn [count_delegations]; [intros [= <-]; eapply tally_inv_ext; [|done]; intros; simpl; lia|].
  inversion Hd as [|? ? H1 H2]; subst. intros (c1&Hc1&Hr)%obind_ok. eapply tally_inv_ext; [|eapply IH; [by eapply count_delegation_ok|done|exact Hr]].
  intros a. simpl. lia.
Qed.
Lemma wp_read l (s0 : ChainState) : wp (read_delegations l) (λ ds s', s' = s0 ∧ ds = l.*2) s0.
Proof.
  induction l as [|[k d] l IH]; cbn [read_delegations]; [by wps|]. wpb. apply wp_unmarshal. intros _. wpb. eapply wp_mono; [apply IH|]. intros ds s' [-> ->]. by wps.
Qed.
Lemma wp_count_votes votes D c w :
  w_chain w = s → Forall (λ kv, is_addr (vt_Voter kv.2)) votes → tally_inv D c →
  wp (count_votes val_String votes c) (λ c' w', w' = w ∧
    tally_inv (λ a, D a + list_sum (λ kv, if decide (vt_Voter kv.2 = a) then 0 else share (vt_Voter kv.2) a) votes) c') w.
Proof using Hdels text_inj.
  intros Ew. revert D c. induction votes as [|[k v] votes IH]; intros D c Hv Hi; cbn [count_votes].
  { wps. split; [done|]. eapply tally_inv_ext; [|done]. intros; simpl; lia. }
  apply Forall_cons in Hv as [H1 H2]. simpl in H1. wpb. apply wp_chain_read; [apply (keeps_bind eq); [apply keeps_gets; apply _|intros; apply eq_read_delegations]|].
  intros ds Hds. assert (ds = (delegations_of (vt_Voter v) s).*2) as ->.
  { rewrite <-Ew. refine (wp_use _ (λ r _, r = (delegations_of (vt_Voter v) (w_chain w)).*2) _ _ _ Hds _). wps. eapply wp_mono; [apply wp_read|]. by intros r s' [_ ->]. }
  wps. eapply wp_mono; [eapply (IH (λ a, D a + list_sum (λ d, counted v d a) (delegations_of (vt_Voter v) s).*2)); [done|]|].
  - eapply count_delegations_ok; [by apply record_vote_ok| |exact Hx]. apply Forall_forall. intros d ([k' d']&->&[Hk' _]%delegations_elem)%list_elem_of_fmap; [|done].
    by destruct (Hdels _ _ Hk') as (_&_&_&?).
  - intros c' w' [-> Hc']. split; [done|]. eapply tally_inv_ext; [|exact Hc']. intros a. simpl. rewrite <-(delegations_sum (vt_Voter v) a H1).
    assert (list_sum (λ d, counted v d a) (delegations_of (vt_Voter v) s).*2 =
      if decide (vt_Voter v = a) then 0 else list_sum (λ d, if decide (d_ValidatorAddr d = a) then d_Shares d else 0) (delegations_of (vt_Voter v) s).*2) as ->; [|lia].
    unfold counted. case_decide as Ea.
    + etrans; [apply (list_sum_ext _ (λ _, 0)); intros x0 _; rewrite decide_False; naive_solver|]. clear. by induction (_.*2).
    + apply list_sum_ext. intros x0 _. repeat case_decide; naive_solver.
Qed.
End count.

(** *** The last loop, over a map *)
Lemma add_power_iff o p c c' :
  add_power o p c = Ok c' ↔ ∃ r, ct_results c !! o = Some r ∧ dec_ok (r + p) ∧ dec_ok (ct_totalVotingPower c + p) ∧
    c' = mkCounting (<[o := r + p]> (ct_results c)) (ct_totalVotingPower c + p) (ct_currValidators c) (ct_votingVals c).
Proof.
  unfold add_power. split.
  - destruct (ct_results c !! o) as [r|]; [|done]. intros Ha. inv_ok Ha. injection Ha as <-.
    apply dec_checked_ok in E as [-> ?]. apply dec_checked_ok in E0 as [-> ?]. by exists r.
  - intros (r&->&H1&H2&->). unfold Dec_Add. rewrite (proj2 (dec_checked_ok (r + p) (r + p))) by done. cbn [obind].
    by rewrite (proj2 (dec_checked_ok (ct_totalVotingPower c + p) (ct_totalVotingPower c + p))).
Qed.
Lemma results_total c o r : results_ok c → ct_results c !! o = Some r → 0 ≤ r ≤ ct_totalVotingPower c.
Proof.
  intros [_ H2 H3] Hr. split; [by eapply H2|]. rewrite H3. apply (map_sum_le_key (λ r, r) _ o); [|done]. intros k v. apply H2.
Qed.
Lemma add_power_swap o1 p1 o2 p2 c c1 c' :
  results_ok c → 0 ≤ p1 → 0 ≤ p2 → add_power o1 p1 c = Ok c1 → add_power o2 p2 c1 = Ok c' →
  ∃ c2, add_power o2 p2 c = Ok c2 ∧ add_power o1 p1 c2 = Ok c'.
Proof.
  intros Hc Hp1 Hp2 (r1&Hr1&H1&H1'&->)%add_power_iff (r2&Hr2&H2&H2'&->)%add_power_iff. simpl in *. unfold dec_ok in *.
  pose proof (results_total c o1 r1 Hc Hr1). set (B := 2^289) in *. destruct (decide (o1 = o2)) as [<-|Hne].
  - rewrite lookup_insert_eq in Hr2. injection Hr2 as <-. eexists. split; apply add_power_iff.
    + exists r1. split_and!; [done|unfold dec_ok; fold B; lia..|done].
    + exists (r1 + p2). simpl. rewrite lookup_insert_eq, !insert_insert_eq. split_and!; [done|unfold dec_ok; fold B; lia..|]. f_equal; [f_equal; lia|lia].
  - rewrite lookup_insert_ne in Hr2 by done. pose proof (results_total c o2 r2 Hc Hr2). eexists. split; apply add_power_iff.
    + exists r2. split_and!; [done|unfold dec_ok; fold B; lia..|done].
    + exists r1. simpl. rewrite lookup_insert_ne by done. split_and!; [done|unfold dec_ok; fold B; lia..|]. f_equal; [by apply insert_insert_ne|lia].
Qed.
(** A record whose own power is not negative. *)
Definition power_ok (i : validatorGovInfo) : Prop := gi_DelegatorDeductions i ≤ gi_DelegatorShares i ∧ 0 ≤ gi_TokenPerShare i.
Lemma count_validator_ok i c c' :
  power_ok i → count_validator i c = Ok c' →
  c' = c ∧ (∀ d, count_validator i d = Ok d) ∨ ∃ power, 0 ≤ power ∧ add_power (gi_Vote i) power c = Ok c' ∧ ∀ d, count_validator i d = add_power (gi_Vote i) power d.
Proof.
  intros [Hd Ht]. unfold count_validator. destruct (gi_Vote i =? OptionEmpty); [intros [= <-]; by left|]. intros Hc. inv_ok Hc. right. exists a0.
  split_and!; [|done|intros d; rewrite E; cbn [obind]; by rewrite E0]. apply dec_checked_ok in E as [Ea _]. apply (Dec_Mul_nonneg a (gi_TokenPerShare i)); [lia|done|done].
Qed.
Lemma count_validator_results i c c' : power_ok i → results_ok c → count_validator i c = Ok c' → results_ok c'.
Proof.
  intros Hi Hc [[-> _]|(p&Hp&Ha&_)]%count_validator_ok; [done| |done]. by eapply (add_power_ok _ p c c') in Ha as [? _].
Qed.
Lemma count_validator_swap i j c c1 c' :
  results_ok c → power_ok i → power_ok j → count_validator i c = Ok c1 → count_validator j c1 = Ok c' →
  ∃ c2, count_validator j c = Ok c2 ∧ count_validator i c2 = Ok c'.
Proof.
  intros Hc Hi Hj H1 H2. apply count_validator_ok in H1 as [[-> K1]|(p1&Hp1&A1&K1)]; [exists c'; by split|..|done].
  apply count_validator_ok in H2 as [[-> K2]|(p2&Hp2&A2&K2)]; [exists c; by rewrite K1|..|done].
  setoid_rewrite K1. setoid_rewrite K2. by eapply add_power_swap.
Qed.
Lemma count_validators_perm l l' c c' :
  l ≡ₚ l' → Forall power_ok l → results_ok c → count_validators l c = Ok c' → count_validators l' c = Ok c'.
Proof.
  intros Hp. revert c. induction Hp as [|i l l' _ IH|i j l|l1 l2 l3 Hp1 IH1 Hp2 IH2]; intros c Hl Hc; [done|..].
  - cbn [count_validators]. apply Forall_cons in Hl as [Hi Hl]. intros (c1&H1&Hr)%obind_ok. rewrite H1. cbn [obind]. apply IH; [done| |done]. by eapply count_validator_results.
  - apply Forall_cons in Hl as [Hj Hl]. apply Forall_cons in Hl as [Hi Hl]. cbn [count_validators]. intros (c1&H1&(c2&H2&Hr)%obind_ok)%obind_ok.
    destruct (count_validator_swap _ _ _ _ _ Hc Hj Hi H1 H2) as (c3&->&H4). cbn [obind]. by rewrite H4.
  - intros H1. apply IH2; [by rewrite <-Hp1|done|]. by apply IH1.
Qed.

(** *** The count of a proposal *)
Section thms.
Context `{Crypto, ConsCrypto, !AddressLaws}.
Variable val_String : ValAddress → string.
Hypothesis text_inj : ∀ a b, val_String a = val_String b → a = b.
Lemma wp_bonded n l (s : ChainState) :
  vals_ok (validators s) → wp (bonded_by_power n l) (λ vals _, Forall (λ v, validators s !! v_OperatorAddr v = Some v) vals) s.
Proof using.
  intros Hv. revert n. induction l as [|a l IH]; intros n; cbn [bonded_by_power]; [by wps; constructor|]. case_match; [by wps; constructor|].
  unfold mustGetValidator. wpb. apply wp_GetValidator; [intros _; wps|]. intros v Ea. wps. destruct (Hv _ _ Ea) as [Eo _]. case_decide; [|apply IH]. wpb.
  eapply wp_mono; [apply IH|]. intros vals s' Hvals. wps. constructor; [by rewrite Eo|done].
Qed.
(** The count [c] of the votes on a proposal, before the validators' own. *)
Definition counted_votes (w : World) (id : Z) (c : Counting) : Prop :=
  ∃ vals curr system, GetBondedValidatorsByPower (w_chain w) = (Ok vals, w_chain w) ∧ govInfos val_String vals ∅ ZeroDec = Ok (curr, system) ∧
    count_votes val_String (GetVotes id (w_gov w)) (mkCounting no_results ZeroDec curr ∅) w = (Ok c, w).
(** The votes are of addresses. *)
Definition voters_ok (w : World) : Prop := ∀ k v, gv_votes (w_gov w) !! k = Some v → is_addr (vt_Voter v).
Lemma voters_NoDup P g id : gov_ok P g → 0 ≤ id → NoDup ((λ kv, vt_Voter kv.2) <$> GetVotes id g).
Proof using.
  intros Hok Hid. assert (∀ k v, (k, v) ∈ GetVotes id g → k = KeyVote id (vt_Voter v)) as Hkey.
  { intros k v [Hk Hp]%prefix_iterator_elem. destruct (go_vote _ _ Hok _ _ Hk) as (->&_&p&Hq&_). f_equal. apply (votes_prefix _ id (vt_Voter v)); [|done|done].
    pose proof (ok_range Hok _ _ Hq). lia. }
  pose proof (prefix_iterator_NoDup (gv_votes g) (KeyVotesSubspace id)) as Hnd. fold (GetVotes id g) in Hnd. revert Hkey Hnd. generalize (GetVotes id g). clear.
  induction l as [|[k v] l IH]; intros Hkey Hnd; [constructor|]. apply NoDup_cons in Hnd as [Hn Hnd]. apply NoDup_cons. split; [|apply IH; [|done]; intros; apply Hkey; set_solver].
  intros ([k' v']&E&Hin)%list_elem_of_fmap. apply Hn, list_elem_of_fmap. exists (k', v'). split; [|done]. simpl in *.
  rewrite (Hkey k v), (Hkey k' v') by set_solver. by rewrite E.
Qed.
Lemma counted_inv m P w id c :
  stake_ok m (w_chain w) → gov_ok P (w_gov w) → voters_ok w → counted_votes w id c →
  tally_inv val_String (w_chain w) (λ a, 0 + list_sum (λ kv, if decide (vt_Voter kv.2 = a) then 0 else share (w_chain w) (vt_Voter kv.2) a) (GetVotes id (w_gov w))) c.
Proof using text_inj.
  intros Hs Hok Hv (vals&curr&sys&Hb&Hg&Hc). pose proof (ok_inv _ _ Hs) as Hi.
  refine (proj2 (wp_count_votes val_String text_inj (w_chain w) (si_dels _ _ _ Hi) _ (λ _, 0) _ w eq_refl _ _ _ _ Hc)).
  - apply Forall_forall. intros [k v] [Hk _]%prefix_iterator_elem. by eapply Hv.
  - split; [|apply no_results_ok]. simpl. apply (govInfos_ok val_String (w_chain w) (si_vals _ _ _ Hi) vals ∅ ZeroDec (curr, sys)); [|by intros|done].
    refine (wp_use _ (λ vals _, Forall _ vals) _ _ _ Hb _). unfold GetBondedValidatorsByPower, GetParams. wps. apply wp_bonded, Hi.
Qed.
Lemma counted_power m P w id c :
  stake_ok m (w_chain w) → gov_ok P (w_gov w) → 0 ≤ id → voters_ok w → counted_votes w id c →
  results_ok c ∧ ∀ key i, ct_currValidators c !! key = Some i →
    gi_DelegatorDeductions i = list_sum (λ kv, if decide (vt_Voter kv.2 = gi_Address i) then 0 else share (w_chain w) (vt_Voter kv.2) (gi_Address i)) (GetVotes id (w_gov w)) ∧
    0 ≤ gi_DelegatorDeductions i ∧ power_ok i.
Proof using text_inj.
  intros Hs Hok Hid Hv Hc. destruct (counted_inv m P w id c Hs Hok Hv Hc) as [Hinfo Hr]. split; [done|]. intros key i [Hkey Hsh Ht Hd]%Hinfo. pose proof (ok_inv _ _ Hs) as Hi.
  rewrite Z.add_0_l in Hd. split; [done|]. split.
  - rewrite Hd. apply list_sum_nonneg, Forall_forall. intros kv _. case_decide; [lia|]. by apply share_nonneg, (si_dels _ _ _ Hi).
  - split; [|done]. rewrite Hd, Hsh. etrans; [|apply (shares_distinct (w_chain w) (si_dels _ _ _ Hi)); [|by apply (voters_NoDup P (w_gov w) id)]].
    + rewrite list_sum_fmap. apply list_sum_mono. intros kv. case_decide; [|done]. apply share_nonneg, (si_dels _ _ _ Hi).
    + intros a. rewrite (si_shares _ _ _ Hi a). unfold none. lia.
Qed.
(** C17. The shares that are counted for delegators of a validator are what those who
    voted, each once and not counting the validator itself, delegate to it; they
    are never more than all of its shares, so that what the validator votes with is
    not negative; and the total is the sum of the four results. *)
Theorem votes_counted_once m P w id c key i :
  stake_ok m (w_chain w) → gov_ok P (w_gov w) → 0 ≤ id → voters_ok w → counted_votes w id c → ct_currValidators c !! key = Some i →
  gi_DelegatorDeductions i = list_sum (λ kv, if decide (vt_Voter kv.2 = gi_Address i) then 0 else share (w_chain w) (vt_Voter kv.2) (gi_Address i)) (GetVotes id (w_gov w)) ∧
  0 ≤ gi_DelegatorDeductions i ≤ gi_DelegatorShares i ∧
  ct_totalVotingPower c = result_of OptionYes c + result_of OptionAbstain c + result_of OptionNo c + result_of OptionNoWithVeto c.
Proof using text_inj.
  intros Hs Hok Hid Hv Hc Hi. destruct (counted_power m P w id c Hs Hok Hid Hv Hc) as [Hr Hall]. destruct (Hall _ _ Hi) as (?&?&[]).
  split_and!; [done..|]. by apply results_sum.
Qed.
(** C23. The last loop goes over a map, whose order is not determined; the outcome is
    the same in every order. *)
Theorem tally_order_free m P w id c l c' :
  stake_ok m (w_chain w) → gov_ok P (w_gov w) → 0 ≤ id → voters_ok w → counted_votes w id c →
  l ≡ₚ (map_to_list (ct_currValidators c)).*2 →
  count_validators l c = Ok c' ↔ count_validators (map_to_list (ct_currValidators c)).*2 c = Ok c'.
Proof using text_inj.
  intros Hs Hok Hid Hv Hc Hp. destruct (counted_power m P w id c Hs Hok Hid Hv Hc) as [Hr Hall].
  assert (Forall power_ok (map_to_list (ct_currValidators c)).*2) as Hpow.
  { apply Forall_forall. intros i ([key j]&->&Hj%elem_of_map_to_list)%list_elem_of_fmap. by apply Hall in Hj as (_&_&?). }
  split; apply count_validators_perm; try done. by rewrite Hp.
Qed.
End thms.
End TallyRules.
