(* ===== verification/GovThms.v ===== *)
(** * Governance: what the module guarantees

    The deposits are backed and the queues are exact in every state that is reached;
    the end of a block decides what is due; refunds give back all of a deposit but
    the part that is burned.  An upgrade that was voted for is decided on time. *)

From Stdlib Require Import Ascii.
From S2P Require Import Prelude SdkErrors Frame IntType GoStrings Denom Coin CoinFacts Dec TimeBytes Gas KVStore CacheKVThms PrefixKV Auth StdTx Bank BankFacts BankBurn BankFrame Mint Guardian Service ServiceFacts ServiceTimeout StakeTypes Stake StakeFacts StakeInv StakeFrame StakeSlash StakeSet StakeApply StakeDue StakeThms StakeSteps Slashing SlashFacts DistrTypes Distr DistrFacts Chain ChainThms Asset AssetKeeper Coinswap ParamSets Upgrade GovTypes Gov GovFacts GovRules.
#[local] Open Scope Z_scope.

Module GovThms.
Import StakeTypes Stake StakeFacts StakeQueue StakeInv StakeFrame StakeDue StakeSteps SlashFacts DistrFacts Chain ParamSets GovTypes Gov GovFacts GovOps GovEnd.
Import ServiceFacts (iris, iris_coins, iris_coins_like).
Import ServiceTimeout (bank_fits, bf_wf, loose, gasBurn, BurnCoins_runs).

(** ** Runs *)
(** The store before genesis. *)
Definition no_gov (p : GovParams) : GovStore := mkGov None ∅ ∅ ∅ ∅ ∅ ∅ None None None None p.
Section thms.
Context `{Crypto, ConsCrypto}.
Variable mainnet : bool.
Variable acc_String : AccAddress → string.
Variable val_String : ValAddress → string.
Variable P : GovParams.
(** A message of governance, the end of a block, or a step of the rest of the
    application, which takes nothing out of the account of the deposits. *)
Inductive gov_step : World → World → Prop :=
| step_message ctx msg w w' :
    GovMsg_ValidateBasic msg = Ok tt → GovDepositCoinsAccAddr ∉ GovMsg_GetSigners msg → msg_fits (P := P) ctx w →
    gov_Handler mainnet ctx msg w = (Ok tt, w') → gov_step w w'
| step_end_block ctx b w w' :
    in_calendar (BlockTime ctx) → Gov.EndBlocker mainnet acc_String val_String ctx w = (Ok b, w') → gov_step w w'
| step_rest w w' : w_gov w' = w_gov w → safe (world_auth w) (world_auth w') → gov_step w w'.
(** The state after the genesis with the parameters [P]. *)
Definition gov_genesis (w : World) : Prop :=
  ∃ p w0, w_gov w0 = no_gov p ∧ auth_wf (world_auth w0) ∧ Gov.InitGenesis P w0 = (Ok tt, w).
Hypothesis HP : params_ok P.
Hypothesis tax_apart : CommunityTaxCoinsAccAddr ≠ GovDepositCoinsAccAddr.
Lemma genesis_inv w : gov_genesis w → gov_inv (P := P) w.
Proof using HP.
  intros (p&w0&Eg&Hw&Hr). refine (wp_use _ (λ _, gov_inv (P := P)) _ _ _ Hr _). clear Hr. unfold Gov.InitGenesis. wpb. apply wp_gov_must. wps.
  apply wp_gov_must, wp_gov. unfold setInitialProposalID, SetSystemHaltHeight, gov_SetParamSet. rewrite Eg. wps. simpl. wps. apply wp_gov. wps. apply wp_gov. wps. simpl.
  split; [|split_and!|done|by apply balance_nonneg].
  - split; try done.
    + intros k id. split; [done|]. by intros (?&?&_).
    + intros k id. split; [done|]. by intros (?&?&_).
    + intros id. split; [by intros []|]. by intros (?&?&_).
  - done.
  - done.
  - change (0 ≤ lp_MaxNum (gp_Normal P)). destruct HP as [Hv _]. unfold validateParams, validateMaxNum in Hv. inv_ok Hv. repeat case_match; try done. lia.
Qed.
Lemma gov_step_inv w w' : gov_step w w' → gov_inv (P := P) w → gov_inv (P := P) w'.
Proof using HP tax_apart.
  intros [ctx msg w1 w2 Hv Hs Hf Hr|ctx b w1 w2 Hc Hr|w1 w2 Eg Hs] Hi.
  - by eapply (wp_Handler mainnet HP ctx msg w1); [..|exact Hr].
  - by eapply (wp_gov_EndBlocker mainnet acc_String tax_apart val_String HP ctx w1); [..|exact Hr].
  - destruct Hi as [H1 H2 H3 H4]. destruct (Hs H3) as [H3' Hb]. split; rewrite ?Eg; try done. lia.
Qed.
Lemma runs_inv w0 w : gov_genesis w0 → rtc gov_step w0 w → gov_inv (P := P) w.
Proof using HP tax_apart. intros Hg Hr. pose proof (genesis_inv _ Hg) as Hi. clear Hg. induction Hr as [|x y z Hx _ IH]; [done|]. by eapply IH, gov_step_inv. Qed.

(** C6. In every state that is reached, the total of an open proposal is the sum of the
    deposits that are recorded for it, those of a decided one are gone, and the
    account of the deposits holds at least all that is recorded. *)
Theorem deposits_backed w0 w :
  gov_genesis w0 → rtc gov_step w0 w →
  (∀ id p, gv_proposals (w_gov w) !! id = Some p →
    deposits_of id (w_gov w) = if decide (is_open p) then AmountOf (GetTotalDeposit p) IrisAtto else 0) ∧
  all_deposits (w_gov w) ≤ balance (world_auth w) GovDepositCoinsAccAddr IrisAtto.
Proof using HP tax_apart.
  intros Hg Hr. destruct (runs_inv _ _ Hg Hr) as [Hok _ _ Hc]. split; [|done]. intros id p Hp. case_decide as Ho.
  - rewrite <-(po_open _ _ _ _ (go_proposal _ _ Hok _ _ Hp) Ho). symmetry. apply AmountOf_iris, (go_proposal _ _ Hok _ _ Hp).
  - apply (ok_no_deposit Hok). naive_solver.
Qed.
(** C10. In every state that is reached, a proposal is in the queue of its status and in
    no other, under the time its status ends; it has a set of validators exactly
    while it is voted on, and then its deposits have reached the minimum; and only
    such proposals, and those that were, have votes. *)
Theorem proposals_queued w0 w :
  gov_genesis w0 → rtc gov_step w0 w →
  (∀ k id, gv_inactive (w_gov w) !! k = Some id ↔
    ∃ p, gv_proposals (w_gov w) !! id = Some p ∧ GetStatus p = StatusDepositPeriod ∧ k = KeyInactiveProposalQueueProposal (GetDepositEndTime p) id) ∧
  (∀ k id, gv_active (w_gov w) !! k = Some id ↔
    ∃ p, gv_proposals (w_gov w) !! id = Some p ∧ GetStatus p = StatusVotingPeriod ∧ k = KeyActiveProposalQueueProposal (GetVotingEndTime p) id) ∧
  (∀ id, is_Some (gv_validatorSet (w_gov w) !! id) ↔ ∃ p, gv_proposals (w_gov w) !! id = Some p ∧ GetStatus p = StatusVotingPeriod) ∧
  (∀ id p, gv_proposals (w_gov w) !! id = Some p → GetStatus p = StatusVotingPeriod → min_deposit P p ≤ deposits_of id (w_gov w)) ∧
  (∀ k v, gv_votes (w_gov w) !! k = Some v →
    ∃ p, gv_proposals (w_gov w) !! vt_ProposalID v = Some p ∧ GetStatus p ≠ StatusDepositPeriod ∧ ValidVoteOption (vt_Option v) = true).
Proof using HP tax_apart.
  intros Hg Hr. destruct (runs_inv _ _ Hg Hr) as [Hok _ _ _]. split_and!; [apply Hok..| |].
  - intros id p Hp Hst. rewrite <-(po_open _ _ _ _ (go_proposal _ _ Hok _ _ Hp)) by (by right). by apply (po_enough _ _ _ _ (go_proposal _ _ Hok _ _ Hp)).
  - intros k v Hk. destruct (go_vote _ _ Hok _ _ Hk) as (_&Ho&p&Hp&Hst). by exists p.
Qed.
(** C39. At most one critical proposal is open at a time, and at most the maximum of
    normal ones.  (The maximum of important ones does not hold: reading the number of
    normal proposals before there is one sets the number of important ones to zero,
    as [important_uncounted] shows.) *)
Theorem proposals_limited w0 w :
  gov_genesis w0 → rtc gov_step w0 w →
  open_count ProposalLevelCritical (w_gov w) ≤ 1 ∧ open_count ProposalLevelNormal (w_gov w) ≤ lp_MaxNum (gp_Normal P).
Proof using HP tax_apart.
  intros Hg Hr. destruct (runs_inv _ _ Hg Hr) as [_ (Hc&_&Hm) _ _]. split; [|done]. rewrite Hc. case_match; lia.
Qed.
(** The deposits of the proposals that expire can be burned: the accounts fit the integers
    of the bank, the recorded loose tokens cover the deposits, and there is gas. *)
Record can_burn (w : World) : Prop := {
  cb_bank : bank_fits (world_auth w);
  cb_loose : all_deposits (w_gov w) ≤ iris (loose (world_auth w));
  cb_gas : has_gas (world_auth w) (Z.of_nat (size (gv_deposits (w_gov w))) * gasBurn) }.
(** No vote ends by [now]. *)
Definition no_vote_ends (now : Z) (g : GovStore) : Prop :=
  ∀ id p, gv_proposals g !! id = Some p → GetStatus p = StatusVotingPeriod → now < GetVotingEndTime p.
Section expiry.
Context (apart : GovDepositCoinsAccAddr ≠ BurnedCoinsAccAddr).
Record burnable (w : World) : Prop := {
  bn_can : can_burn w;
  bn_held : all_deposits (w_gov w) ≤ balance (world_auth w) GovDepositCoinsAccAddr IrisAtto;
  bn_ones k d : gv_deposits (w_gov w) !! k = Some d → ∃ n, 0 < n ∧ dp_Amount d = [mkCoin IrisAtto n] }.
Lemma burnable_gov g w : gv_deposits g = gv_deposits (w_gov w) → burnable w → burnable (set_gov g w).
Proof using. intros E [[Hb Hl Hg] Hh Ho]. split; [split|..]; unfold all_deposits in *; simpl; rewrite ?E; done. Qed.
Lemma tot_burn_one k d w :
  burnable w → gv_deposits (w_gov w) !! k = Some d →
  tot (Gov.must (on_bank (BurnCoins GovDepositCoinsAccAddr (dp_Amount d))) ;;; on_gov (modify (set_deposits (delete k))))
    (λ _ w', burnable w' ∧ w_gov w' = set_deposits (delete k) (w_gov w)) w.
Proof using apart.
  intros [[Hb Hl Hg] Hh Ho] Hk. destruct (Ho _ _ Hk) as (n&Hn&En).
  assert (all_deposits (set_deposits (delete k) (w_gov w)) = all_deposits (w_gov w) - n) as Hall.
  { unfold all_deposits. simpl. rewrite (map_sum_delete _ _ _ _ Hk), En, iris_one. lia. }
  assert (0 ≤ all_deposits (set_deposits (delete k) (w_gov w))) as Hpos.
  { apply map_sum_nonneg. simpl. intros k' d' [_ Hd]%lookup_delete_Some. destruct (Ho _ _ Hd) as (m&Hm&->). rewrite iris_one. lia. }
  assert (size (gv_deposits (w_gov w)) = S (size (delete k (gv_deposits (w_gov w))))) as Hsz.
  { rewrite <-(insert_delete_id _ _ _ Hk) at 1. apply map_size_insert_None, lookup_delete_eq. }
  assert (0 ≤ gasBurn) as Hgb by done. destruct Hg as [Hgw Hgr]. rewrite Hsz, Nat2Z.inj_succ in Hgr.
  destruct (BurnCoins_runs GovDepositCoinsAccAddr [mkCoin IrisAtto n] (world_auth w)) as ([]&s'&Hrun&Hw'&Hr'&Hlc&Hla);
    [done|done|by apply iris_coins_like, iris_coins_one|rewrite iris_one; lia|rewrite iris_one; lia|split; [done|nia]|]. rewrite iris_one in Hla.
  destruct (paid_burn _ _ _ (bf_wf _ Hb) Hrun) as [Hwf Hiris _ Htot _].
  rewrite En. apply tot_bind. exists tt, (set_chain (set_auth s' (w_chain w)) w). split.
  { unfold Gov.must, on_bank, on_chain, on_auth, zoom. change (st_auth (w_chain w)) with (world_auth w). by rewrite Hrun. }
  apply tot_zoom, tot_modify. split; [|done]. split; [split|..]; simpl.
  - destruct Hb as [B1 B2 B3 B4]. split; [done|intros d'; rewrite Htot; apply B2|done|]. unfold int_ok in *. change (world_auth _) with s'. lia.
  - rewrite Hall. change (world_auth _) with s'. lia.
  - split; [done|]. change (world_auth _) with s'. nia.
  - rewrite Hall. change (world_auth _) with s'. specialize (Hiris GovDepositCoinsAccAddr). rewrite decide_True in Hiris by done.
    unfold paid in Hiris. simpl in Hiris. rewrite decide_False in Hiris by done. lia.
  - intros k' d' [_ Hd]%lookup_delete_Some. eauto.
Qed.
Lemma tot_DeleteDeposits id w :
  burnable w → tot (DeleteDeposits id) (λ _ w', burnable w' ∧ gv_proposals (w_gov w') = gv_proposals (w_gov w)) w.
Proof using apart.
  intros Hb. unfold DeleteDeposits. apply tot_bind, tot_gets.
  eapply tot_mono; [apply (tot_for_each_list _ _ (λ l w', burnable w' ∧ gv_proposals (w_gov w') = gv_proposals (w_gov w) ∧ NoDup l.*1 ∧ ∀ k d, (k, d) ∈ l → gv_deposits (w_gov w') !! k = Some d))|].
  - split_and!; [done|done|apply prefix_iterator_NoDup|]. by intros k d [? _]%prefix_iterator_elem.
  - intros [k d] l w1 (Hb1&Ep&Hnd&Hin). apply NoDup_cons in Hnd as [Hn Hnd]. eapply tot_mono; [apply (tot_burn_one k d); [done|apply Hin; by left]|].
    intros [] w2 [Hb2 E2]. rewrite E2. split_and!; [done|done|done|]. intros k' d' Hd. simpl. rewrite lookup_delete_ne; [apply Hin; by right|].
    intros <-. apply Hn. by apply (list_elem_of_fmap_2 fst _ (k, d')).
  - by intros [] w' (?&?&_).
Qed.
Lemma tot_Sub l g : l ≠ ProposalLevelNil → tot (SubProposalNum l) (λ _ g', gv_proposals g' = gv_proposals g ∧ gv_deposits g' = gv_deposits g) g.
Proof using.
  intros Hl. destruct l; [done|..]; cbn [SubProposalNum]; unfold SubCriticalProposalNum, SubImportantProposalNum, SubNormalProposalNum, GetImportantProposalNum, GetNormalProposalNum.
  - by apply tot_modify.
  - apply tot_bind, tot_bind, tot_gets. destruct (gv_importantNum g); [by apply tot_ret, tot_modify|]. by apply tot_bind, tot_modify, tot_ret, tot_modify.
  - apply tot_bind, tot_bind, tot_gets. destruct (gv_normalNum g); [by apply tot_ret, tot_modify|]. by apply tot_bind, tot_modify, tot_ret, tot_modify.
Qed.
Lemma tot_must_proposal id p g (Q : Proposal → GovStore → Prop) : gv_proposals g !! id = Some p → Q p g → tot (must_proposal id) Q g.
Proof using. intros Hp HQ. unfold must_proposal, GetProposal. apply tot_bind, tot_gets. rewrite Hp. by apply tot_ret. Qed.
Lemma tot_drop_inactive id p w :
  burnable w → gv_proposals (w_gov w) !! id = Some p → proposal_Level p ≠ ProposalLevelNil →
  tot (drop_inactive id) (λ _ w', burnable w' ∧ gv_proposals (w_gov w') = delete id (gv_proposals (w_gov w))) w.
Proof using apart.
  intros Hb Hp Hl. unfold drop_inactive. apply tot_bind, tot_zoom, (tot_must_proposal id p); [done|]. rewrite set_gov_same.
  apply tot_bind, tot_zoom. eapply tot_mono; [by apply tot_Sub|]. intros [] g1 [E1 E2]. apply tot_bind.
  eapply tot_mono; [apply tot_DeleteDeposits; by apply burnable_gov|]. intros [] w1 [Hb1 Ep1]. simpl in Ep1. rewrite E1 in Ep1.
  apply tot_bind, tot_zoom. unfold DeleteProposal, RemoveFromInactiveProposalQueue, RemoveFromActiveProposalQueue.
  apply tot_bind, (tot_must_proposal id p); [by rewrite Ep1|]. apply tot_bind, tot_modify, tot_bind, tot_modify, tot_modify.
  apply tot_bind, tot_zoom, tot_modify. apply tot_bind, tot_zoom. unfold GetDepositProcedure. apply tot_bind.
  eapply (tot_mono _ (λ _ g, g = _)); [destruct (proposal_Level p); [done|..]; by apply tot_gets|]. intros r g ->. apply tot_ret, tot_ret.
  split; [|simpl; by rewrite Ep1]. by repeat apply burnable_gov.
Qed.
Lemma tot_drops l w :
  burnable w → NoDup l.*2 → (∀ id, id ∈ l.*2 → ∃ p, gv_proposals (w_gov w) !! id = Some p ∧ proposal_Level p ≠ ProposalLevelNil) →
  tot (for_each l (λ kv : string * Z, drop_inactive kv.2)) (λ _ _, True) w.
Proof using apart.
  intros Hb Hnd Hin. eapply tot_mono; [apply (tot_for_each_list _ _ (λ l w', burnable w' ∧ NoDup l.*2 ∧
    ∀ id, id ∈ l.*2 → ∃ p, gv_proposals (w_gov w') !! id = Some p ∧ proposal_Level p ≠ ProposalLevelNil))|done]; [done|].
  intros [k id] l' w1 (Hb1&Hnd1&Hin1). apply NoDup_cons in Hnd1 as [Hn Hnd1]. destruct (Hin1 id) as (p&Hp&Hl); [by left|].
  eapply tot_mono; [by apply (tot_drop_inactive id p)|]. intros [] w2 [Hb2 ->]. split_and!; [done|done|].
  intros i Hi. rewrite lookup_delete_ne; [apply Hin1; by right|]. by intros <-.
Qed.
Lemma tot_EndBlocker ctx w :
  gov_inv (P := P) w → can_burn w → in_calendar (BlockTime ctx) → no_vote_ends (BlockTime ctx) (w_gov w) →
  tot (Gov.EndBlocker mainnet acc_String val_String ctx) (λ b _, b = (BlockHeight ctx =? default (-1) (gv_haltHeight (w_gov w)))) w.
Proof using HP apart.
  intros Hi Hcb Hcal Hno. pose proof (gi_ok _ Hi) as Hok. unfold Gov.EndBlocker, GetSystemHaltHeight, InactiveProposalQueueIterator, ActiveProposalQueueIterator.
  apply tot_bind, tot_zoom, tot_gets. rewrite set_gov_same. destruct (queue_iterator_ok PrefixInactiveProposalQueue (BlockTime ctx) (gv_inactive (w_gov w))) as (l&El&_).
  apply tot_bind, tot_zoom, tot_bind, tot_get. eapply tot_lift; [exact El|]. rewrite set_gov_same.
  assert (all_due GetDepositEndTime StatusDepositPeriod (BlockTime ctx) (w_gov w) l.*2) as Hdue.
  { eapply (queue_all_due GetDepositEndTime); [apply (go_inactive _ _ Hok)| |exact Hcal|exact El]. intros id p Hp _. apply (po_deposit_end _ _ _ _ (go_proposal _ _ Hok _ _ Hp)). }
  apply tot_bind. eapply tot_mono; [eapply tot_wp; [apply tot_drops|by apply (wp_drops HP)]|].
  { split; [done|apply Hi|]. intros k d Hd. by destruct (go_deposit _ _ Hok _ _ Hd) as (_&?&_). }
  { apply Hdue. }
  { intros id Hid. apply Hdue in Hid as (p&Hp&_). exists p. split; [done|]. apply (po_level _ _ _ _ (go_proposal _ _ Hok _ _ Hp)). }
  intros [] w1 [_ [Hi1 Hd1]]. pose proof (gi_ok _ Hi1) as Hok1.
  destruct (queue_iterator_ok PrefixActiveProposalQueue (BlockTime ctx) (gv_active (w_gov w1))) as (l1&El1&_).
  apply tot_bind, tot_zoom, tot_bind, tot_get. eapply tot_lift; [exact El1|]. rewrite set_gov_same.
  assert (all_due GetVotingEndTime StatusVotingPeriod (BlockTime ctx) (w_gov w1) l1.*2) as [_ Hdue1].
  { eapply (queue_all_due GetVotingEndTime); [apply (go_active _ _ Hok1)| |exact Hcal|exact El1]. intros id p Hp Hst. by apply (po_voting_end _ _ _ _ (go_proposal _ _ Hok1 _ _ Hp)). }
  assert (l1 = []) as ->.
  { destruct l1 as [|[k id] l1]; [done|]. exfalso. destruct (proj1 (Hdue1 id)) as (p&Hp&Hst&He); [by left|].
    specialize (Hd1 id). unfold dropped_from in Hd1. rewrite Hp in Hd1. destruct (gv_proposals (w_gov w) !! id) as [q|] eqn:Eq; [|done]. simpl in Hd1.
    case_decide; [done|]. injection Hd1 as <-. specialize (Hno _ _ Eq Hst). lia. }
  by apply tot_bind, tot_ret, tot_ret.
Qed.
End expiry.
(** C15. When the end of a block goes through, it has taken every proposal whose time to
    reach the minimum deposit is over out of the store, decided every proposal whose
    votes are over, and left the others as they are.  It does go through when no
    vote ends in the block, and the deposits can be burned: the accounts fit the
    integers of the bank, the recorded loose tokens cover the deposits, and there is
    gas. *)
Theorem end_block_resolves w0 w ctx :
  gov_genesis w0 → rtc gov_step w0 w → in_calendar (BlockTime ctx) →
  (∀ b w', Gov.EndBlocker mainnet acc_String val_String ctx w = (Ok b, w') → resolved (BlockTime ctx) (w_gov w) (w_gov w')) ∧
  (GovDepositCoinsAccAddr ≠ BurnedCoinsAccAddr → can_burn w → no_vote_ends (BlockTime ctx) (w_gov w) →
   ∃ w', Gov.EndBlocker mainnet acc_String val_String ctx w = (Ok (BlockHeight ctx =? default (-1) (gv_haltHeight (w_gov w))), w') ∧
     resolved (BlockTime ctx) (w_gov w) (w_gov w')).
Proof using HP tax_apart.
  intros Hg Hr Hc. pose proof (runs_inv _ _ Hg Hr) as Hi. pose proof (wp_gov_EndBlocker mainnet acc_String tax_apart val_String HP ctx w Hi Hc) as Hw. split.
  - intros b w' He. by destruct (Hw _ _ He).
  - intros Ha Hb Hn. destruct (tot_EndBlocker Ha ctx w Hi Hb Hc Hn) as (b&w'&He&->). exists w'. split; [done|]. by destruct (Hw _ _ He).
Qed.
(** C20. A refund takes exactly the deposits of the proposal out of their account: every
    depositor is paid back a part by the rate of that proposal, which is never more
    than was deposited in all, and the rest is burned. *)
Theorem refund_exact w0 w id w' :
  gov_genesis w0 → rtc gov_step w0 w → 0 ≤ id → RefundDeposits id w = (Ok tt, w') →
  ∃ p rate outs, gv_proposals (w_gov w) !! id = Some p ∧ burn_rate (min_deposit P p) (deposits_of id (w_gov w)) = Ok rate ∧
    Forall2 (λ kd o, o.1 = dp_Depositor kd.2 ∧ refund_amount rate (dp_Amount kd.2) = Ok o.2) (GetDeposits id (w_gov w)) outs ∧
    0 ≤ list_sum snd outs ≤ deposits_of id (w_gov w) ∧
    let all := outs ++ [(BurnedCoinsAccAddr, deposits_of id (w_gov w) - list_sum snd outs)] in
    (∀ x, balance (world_auth w') x IrisAtto =
      balance (world_auth w) x IrisAtto - (if decide (x = GovDepositCoinsAccAddr) then deposits_of id (w_gov w) else 0) + paid x all) ∧
    w_gov w' = cleared id (w_gov w).
Proof using HP tax_apart.
  intros Hg Hr Hid Hrun. pose proof (runs_inv _ _ Hg Hr) as [Hok _ Hw _].
  destruct (wp_RefundDeposits HP id w Hok Hid _ _ Hrun) as (p&rate&outs&s'&Hp&Hrate&Hall&Hle&->&Hpaid). destruct (Hpaid Hw) as [_ Hb _ _ Hn].
  exists p, rate, outs. split_and!; try done; [|lia|].
  - apply list_sum_nonneg. by apply Forall_app in Hn as [? _].
  - intros all. split; [|done]. intros x. etrans; [exact (Hb x)|]. rewrite list_sum_app. cbn [list_sum snd]. fold all. case_decide; lia.
Qed.
End thms.
End GovThms.

(** ** Upgrades *)
Module UpgradeThms.
Import StakeTypes Stake StakeFrame Chain Upgrade Gov.

Section upgrades.
Context `{Crypto, ConsCrypto}.
Variable cons_String : ConsAddress → string.
(** The state of the upgrade keeper in the state of the application. *)
Definition upgrade_view (w : World) : UpgradeState := mkUpgrade (w_chain w) (w_protocol w) (w_upgrade w).
Definition set_upgrade (u : UpgradeState) (w : World) : World :=
  mkWorld (up_chain u) (w_gov w) (up_protocol u) (up_store u) (w_guardian w) (w_tokens w) (w_token_index w)
    (w_gateways w) (w_owner_gateways w) (w_asset w) (w_service w) (w_swap w).
Definition end_upgrade (ctx : Ctx) (proposer : ConsAddress) (appVersion : Z) : M World Z :=
  zoom upgrade_view set_upgrade (Upgrade.EndBlocker cons_String ctx proposer appVersion).
(** The state after block [h] and a step of the application in block [h + 1]: an
    upgrade proposal is executed, the block ends, or something else happens. *)
Inductive upgrade_step : Z * World → Z * World → Prop :=
| upgrade_executed ctx id d h w w' :
    BlockHeight ctx = h + 1 → h + 2 < 2^63 → execute_upgrade ctx id d w = (Ok tt, w') → upgrade_step (h, w) (h, w')
| upgrade_block_end ctx proposer appVersion v h w w' :
    BlockHeight ctx = h + 1 → h + 2 < 2^63 → end_upgrade ctx proposer appVersion w = (Ok v, w') → upgrade_step (h, w) (h + 1, w')
| upgrade_rest h w w' : w_protocol w' = w_protocol w → upgrade_step (h, w) (h, w').

(** The state in which the signals are counted: that of the proposer is in. *)
Definition signalled (version appVersion : Z) (v : Validator) (u : UpgradeState) : UpgradeState :=
  let key := GetSignalKey version (cons_String (ConsAddr v)) in
  mkUpgrade (up_chain u) (up_protocol u)
    (set_signals (if appVersion =? version then insert key true else delete key) (up_store u)).
Definition decided_upgrade (success : bool) (version : Z) (p : ProtocolStore) : ProtocolStore :=
  mkProtocol None (if success then Some version else current_version p) (if success then last_failed_version p else Some version).
(** The pending upgrade is ahead and of a version that is allowed. *)
Definition ahead (h : Z) (p : ProtocolStore) : Prop :=
  ∀ c, upgrade_config p = Some c → h + 1 < pd_Height (uc_Protocol c) ∧
    isValidVersion (default 0 (current_version p)) (default 0 (last_failed_version p)) (pd_Version (uc_Protocol c)) = true.

Definition power_of (v : Validator) : Z := match GetPower v with Ok p => p | _ => 0 end.
Definition has_signal (version : Z) (u : UpgradeState) (v : Validator) : Prop :=
  is_Some (up_signals (up_store u) !! GetSignalKey version (cons_String (ConsAddr v))).
(** The count of the signals of [vals]: the power of those that signal, over that of
    all, is above the threshold. *)
Definition counted (version : Z) (threshold : Dec) (vals : list Validator) (u : UpgradeState) (success : bool) : Prop :=
  ∃ rate, Dec_Quo (list_sum (λ v, if decide (has_signal version u v) then power_of v else 0) vals) (list_sum power_of vals) = Ok rate ∧
    success = Dec_GT rate threshold.
Lemma upgrade_chain_same u : mkUpgrade (up_chain u) (up_protocol u) (up_store u) = u.
Proof. by destruct u. Qed.
Lemma wp_tally_loop version vals t g u :
  wp (tally_loop cons_String version vals t g) (λ r u', u' = u ∧ r.1 = t + list_sum power_of vals ∧
    r.2 = g + list_sum (λ v, if decide (has_signal version u v) then power_of v else 0) vals) u.
Proof.
  revert t g. induction vals as [|v vals IH]; intros t g; cbn [tally_loop list_sum]; [wps; simpl; split_and!; [done|lia|lia]|].
  wps. apply wp_zoom. intros b st Hb. unfold GetSignal in Hb. inv_ok Hb. rewrite upgrade_chain_same. wps.
  assert (power_of v = x) as -> by (unfold power_of; by rewrite Hx). apply dec_checked_ok in Hx0 as [-> _].
  eapply wp_mono; [apply IH|]. intros [t' g'] u' (->&Ht&Hg); simpl in *. split_and!; [done|lia|].
  rewrite Hg. unfold has_signal. case_bool_decide; case_decide; try done; [apply dec_checked_ok in Hx1 as [-> _]|injection Hx1 as <-]; lia.
Qed.
Lemma wp_tally version threshold u :
  wp (Upgrade.tally cons_String version threshold) (λ b u', u' = u ∧ ∃ vals, GetBondedValidatorsByPower (up_chain u) = (Ok vals, up_chain u) ∧
    counted version threshold vals u b) u.
Proof.
  unfold Upgrade.tally. wpb. apply wp_zoom. intros vals s Hv. pose proof (GovOps.eq_by_power _ _ _ Hv) as <-. rewrite upgrade_chain_same.
  wpb. eapply wp_mono; [apply wp_tally_loop|]. intros [t g] u' (->&Ht&Hg). wps. split; [done|]. exists vals. split; [done|].
  simpl in *. subst. exists x. by rewrite !Z.add_0_l in Hx.
Qed.
(** The end of a block before the one of height [next]: what becomes of the upgrade
    that waits. *)
Definition block_end (next : Z) (proposer : ConsAddress) (appVersion : Z) (u u' : UpgradeState) : Prop :=
  match upgrade_config (up_protocol u) with
  | None => u' = u
  | Some c =>
      let version := pd_Version (uc_Protocol c) in
      ∃ v, GetValidatorByConsAddr proposer (up_chain u) = (Ok (Some v), up_chain u) ∧
        let u1 := signalled version appVersion v u in
        if decide (next = pd_Height (uc_Protocol c)) then
          ∃ success vals, GetBondedValidatorsByPower (up_chain u) = (Ok vals, up_chain u) ∧
            counted version (pd_Threshold (uc_Protocol c)) vals u1 success ∧
            up_protocol u' = decided_upgrade success version (up_protocol u) ∧
            up_versions (up_store u') !! GetProposalIDKey (uc_ProposalID c) = Some (mkVersionInfo c success)
        else u' = u1
  end.
Lemma eq_by_cons a : keeps eq (GetValidatorByConsAddr (X := Others) a).
Proof. unfold GetValidatorByConsAddr. keeps. apply GovOps.eq_GetValidator. Qed.
Lemma wp_signal version appVersion v u :
  wp (if appVersion =? version then on_store (SetSignal version (cons_String (ConsAddr v)))
      else on_store (DeleteSignal version (cons_String (ConsAddr v))) ;;; ret tt) (λ _ u', u' = signalled version appVersion v u) u.
Proof.
  unfold signalled. case_match; wpb; apply wp_zoom; intros a s Hs.
  - unfold SetSignal in Hs. by inv_ok Hs.
  - wps. unfold DeleteSignal, GetSignal in Hs. inv_ok Hs. case_bool_decide as Hk; inv_ok Hs; [done|].
    f_equal. unfold set_signals. rewrite delete_id by by apply eq_None_not_Some. by destruct (up_store u).
Qed.
Lemma wp_block_end ctx proposer appVersion u :
  wp (Upgrade.EndBlocker cons_String ctx proposer appVersion)
    (λ v u', block_end (wrap64 (wrap64 (BlockHeight ctx) + 1)) proposer appVersion u u' ∧ v = default 0 (current_version (up_protocol u'))) u.
Proof.
  unfold Upgrade.EndBlocker. wpb. apply wp_zoom. intros a p Hp. unfold GetUpgradeConfig in Hp. inv_ok Hp. rewrite upgrade_chain_same.
  set (next := wrap64 (wrap64 (BlockHeight ctx) + 1)).
  assert (∀ u', block_end next proposer appVersion u u' → wp (Upgrade.on_protocol GetCurrentVersion)
    (λ v u', block_end next proposer appVersion u u' ∧ v = default 0 (current_version (up_protocol u'))) u') as Hlast.
  { intros u' Hu. apply wp_zoom. intros v q Hq. unfold GetCurrentVersion in Hq. inv_ok Hq. by rewrite upgrade_chain_same. }
  unfold block_end in *. destruct (upgrade_config (up_protocol u)) as [c|]; wpb; [|wps; by apply Hlast].
  apply wp_zoom. intros v s Hv. assert (s = up_chain u) as -> by (symmetry; exact (eq_by_cons _ _ _ _ Hv)).
  rewrite upgrade_chain_same. destruct v as [v|]; [|wps].
  wpb. eapply wp_mono; [apply wp_signal|]. intros [] u1 ->. set (u1 := signalled _ _ v u) in *.
  fold next. destruct (decide (next = pd_Height (uc_Protocol c))) as [Eh|Eh];
    [rewrite (proj2 (Z.eqb_eq _ _) Eh)|rewrite (proj2 (Z.eqb_neq _ _) Eh); wps; apply Hlast; by exists v].
  wpb. eapply wp_mono; [apply wp_tally|]. intros success u2 (->&vals&Hvals&Hcount).
  wpb. eapply (wp_mono _ (λ _ u2, up_store u2 = up_store u1 ∧ up_protocol u2 = mkProtocol (upgrade_config (up_protocol u)) (current_version (decided_upgrade success (pd_Version (uc_Protocol c)) (up_protocol u)))
     (last_failed_version (decided_upgrade success (pd_Version (uc_Protocol c)) (up_protocol u))))).
  { destruct success; apply wp_zoom; intros [] q Hq; unfold SetCurrentVersion, SetLastFailedVersion in Hq; inv_ok Hq; done. }
  intros [] u2 (Es&Ep). wpb. apply wp_zoom. intros [] st Hst. wpb. apply wp_zoom. intros [] q Hq. unfold ClearUpgradeConfig in Hq. inv_ok Hq.
  apply Hlast. exists v. split; [done|]. exists success, vals. split_and!; [done|done|simpl; by rewrite Ep|].
  simpl. unfold AddNewVersionInfo in Hst. inv_ok Hst. destruct success; cbn [vi_Success] in Hst; inv_ok Hst; apply lookup_insert_eq.
Qed.

(** ** Every upgrade is decided on time *)
Lemma next_height h : 0 ≤ h → h + 2 < 2^63 → wrap64 (wrap64 (h + 1) + 1) = h + 2.
Proof. intros. unfold wrap64. rewrite (Z.mod_small (h + 1)), Z.mod_small; lia. Qed.
Lemma block_end_at next proposer appVersion u u' :
  block_end next proposer appVersion u u' →
  up_protocol u' = up_protocol u ∧ (∀ c, upgrade_config (up_protocol u) = Some c → next ≠ pd_Height (uc_Protocol c)) ∨ upgrade_config (up_protocol u') = None.
Proof.
  unfold block_end. destruct (upgrade_config (up_protocol u)) as [c|] eqn:Ec; [|intros ->; left; naive_solver].
  intros (v&_&Hd). simpl in Hd. case_decide; [right|left; subst; naive_solver]. destruct Hd as (b&vals&_&_&->&_). done.
Qed.
Lemma wp_execute ctx id d h w :
  BlockHeight ctx = h + 1 → 0 ≤ h → h + 2 < 2^63 → ahead h (w_protocol w) → wp (execute_upgrade ctx id d) (λ _ w', ahead h (w_protocol w')) w.
Proof.
  intros Hh H0' Hb Ha. unfold execute_upgrade. rewrite Hh, next_height by done. wpb. apply wp_zoom. intros a p Hp. unfold GetUpgradeConfig in Hp. inv_ok Hp.
  destruct (upgrade_config (w_protocol w)); [by wps|].
  wpb. apply wp_zoom. intros b p Hp. unfold IsValidVersion, GetCurrentVersion, GetLastFailedVersion in Hp. inv_ok Hp.
  case_match eqn:Ev; [by wps|]. case_match eqn:Eh; [by wps|]. zbool.
  apply wp_zoom. intros [] p Hp. unfold SetUpgradeConfig in Hp. inv_ok Hp. intros c Hc. injection Hc as <-. simpl in *. split; [lia|done].
Qed.
Lemma ahead_step x y : upgrade_step x y → 0 ≤ x.1 ∧ ahead x.1 (w_protocol x.2) → 0 ≤ y.1 ∧ ahead y.1 (w_protocol y.2).
Proof.
  intros [ctx id d h w w' Hh Hb Hr|ctx proposer appVersion v h w w' Hh Hb Hr|h w w' E]; simpl; intros [H0' Ha]; (split; [lia|]).
  - by eapply (wp_execute ctx id d h w Hh H0' Hb Ha).
  - apply zoom_ok in Hr as (u'&Hr&->). apply wp_block_end in Hr as [Hr _]. rewrite Hh, next_height in Hr by done.
    apply block_end_at in Hr as [[E Hn]|E]; simpl in *; intros c Hc; [|congruence].
    rewrite E in *. destruct (Ha c Hc) as [Hc1 Hc2]. split; [specialize (Hn c Hc); lia|done].
  - by rewrite E.
Qed.
Lemma reach_ahead h0 w0 h w :
  0 ≤ h0 → upgrade_config (w_protocol w0) = None → rtc upgrade_step (h0, w0) (h, w) → 0 ≤ h ∧ ahead h (w_protocol w).
Proof.
  intros H0' Hn Hr. refine (rtc_ind_r (λ x, 0 ≤ x.1 ∧ ahead x.1 (w_protocol x.2)) (h0, w0) _ _ (h, w) Hr); [split; [done|intros c Hc; simpl in *; congruence]|].
  intros x y _ Hs Hx. by eapply ahead_step.
Qed.
(** C21. An upgrade is decided on time.  While one waits, its height is ahead and its
    version is allowed; the block before its height counts the voting power of the
    bonded validators that signal, and the version is switched to exactly if its
    share is above the threshold, otherwise it is the last that failed; and no other
    block changes the versions. *)
Theorem upgrade_decided_on_time h0 w0 h w ctx proposer appVersion v w' :
  0 ≤ h0 → upgrade_config (w_protocol w0) = None → rtc upgrade_step (h0, w0) (h, w) →
  BlockHeight ctx = h + 1 → h + 2 < 2^63 → end_upgrade ctx proposer appVersion w = (Ok v, w') →
  ahead h (w_protocol w) ∧ block_end (h + 2) proposer appVersion (upgrade_view w) (upgrade_view w') ∧
  v = default 0 (current_version (w_protocol w')).
Proof.
  intros H0' Hn Hr Hh Hb He. destruct (reach_ahead _ _ _ _ H0' Hn Hr) as [Hh0 Ha].
  apply zoom_ok in He as (u'&He&->). apply wp_block_end in He as [He Hv]. rewrite Hh, next_height in He by done.
  split_and!; [done| |done]. unfold upgrade_view at 2. simpl. by rewrite upgrade_chain_same.
Qed.
End upgrades.
End UpgradeThms.
(** ** A proposal from its submission to its end *)
Module GovExample.
Import StakeTypes Stake StakeFacts StakeQueue StakeInv StakeFrame StakeDue StakeChecks StakeThms StakeSteps StakeExample SlashFacts DistrFacts Chain ChainThms ChainExample ParamSets GovTypes Gov GovFacts GovOps GovEnd GovThms.
#[local] Existing Instance pad_crypto.
#[local] Existing Instance pad_laws.
#[local] Existing Instance name_cons.
Definition g_level (maxNum : Z) : LevelParams := mkLevel (20 * Second) (iris_deposit 10) (20 * Second) maxNum (50 * 10^8) (33 * 10^8) (50 * 10^8) ZeroDec.
Definition g_params : GovParams := mkGovParams (g_level 1) (g_level 5) (g_level 7) 60.
Definition g_world (s : ChainState) : World :=
  mkWorld s (no_gov g_params) (Upgrade.mkProtocol None None None) (Upgrade.mkUpgradeStore ∅ ∅ ∅ ∅) ∅ ∅ ∅ ∅ ∅ Asset.DefaultParams Service.DefaultParams Coinswap.DefaultParams.
Definition g_text (kind : Z) (params : list Param) : GovMsg :=
  SubmitMsg (Submit (mkSubmit "title" "description" kind bob (iris_deposit 10) params)).
Definition g_vote (a : AccAddress) : GovMsg := VoteMsg (mkMsgVote 1 a OptionYes).
Definition g_msg (h : Z) (msg : GovMsg) : M World unit := gov_Handler true (ex_ctx h) msg.
Definition g_end (h : Z) : M World bool := Gov.EndBlocker true id id (ex_ctx h).
Definition w0 : World := (Gov.InitGenesis g_params (g_world c1)).2.
Definition w1 : World := (g_msg 2 (g_text ProposalTypePlainText []) w0).2.
Definition w2 : World := (g_msg 2 (g_vote bob) (g_msg 2 (g_vote alice) w1).2).2.
Definition w3 : World := (g_end 10 w2).2.

Definition g_steps : World → World → Prop := rtc (gov_step true id id g_params).
Lemma g_params_ok : params_ok g_params.
Proof. split_and!; [vm_compute; reflexivity|by exists (10 * AttoScaleFactor)..|done]. Qed.
Lemma g_apart : CommunityTaxCoinsAccAddr ≠ GovDepositCoinsAccAddr.
Proof. vm_compute. discriminate. Qed.
Lemma g_genesis : gov_genesis g_params w0.
Proof.
  exists g_params, (g_world c1). split_and!; [done|apply auth_wfb_ok; vm_compute; reflexivity|].
  assert (passes (Gov.InitGenesis g_params) (g_world c1) = true) as Hp by (vm_compute; reflexivity). destruct (passes_run _ _ Hp) as [[] Hr]. exact Hr.
Qed.
Lemma g_fits h (w : World) : 0 ≤ h < 1000000 → next_id (w_gov w) + 1 < 2^64 → msg_fits (P := g_params) (ex_ctx h) w.
Proof.
  intros Hh Hn. assert (Second = 1000000000) as Es by done. assert (1000020 * 5 * Second < year10000) as Hy by done.
  split_and!; [..|done]; (split; [simpl; lia|]); intros []; unfold in_calendar; simpl; lia.
Qed.
Lemma g_msg_step h msg w :
  g_steps w0 w → GovMsg_ValidateBasic msg = Ok tt → GovMsg_GetSigners msg = [alice] ∨ GovMsg_GetSigners msg = [bob] → 0 ≤ h < 1000000 → next_id (w_gov w) + 1 < 2^64 →
  passes (g_msg h msg) w = true → g_steps w0 (g_msg h msg w).2.
Proof.
  intros Hw Hv Hs Hh Hn Hp. eapply rtc_r; [exact Hw|]. destruct (passes_run _ _ Hp) as [[] Hr]. eapply step_message; [exact Hv| |by apply (g_fits h)|exact Hr].
  destruct Hs as [-> | ->]; intros Hin%list_elem_of_singleton; vm_compute in Hin; discriminate.
Qed.
Lemma reach_w2 : g_steps w0 w2.
Proof.
  apply g_msg_step; [|vm_compute; reflexivity|by right|lia|vm_compute; reflexivity..].
  apply g_msg_step; [|vm_compute; reflexivity|by left|lia|vm_compute; reflexivity..].
  apply g_msg_step; [apply rtc_refl|vm_compute; reflexivity|by right|lia|vm_compute; reflexivity..].
Qed.
Lemma deposits_backed_witness :
  deposits_of 1 (w_gov w2) = 10 * AttoScaleFactor ∧ all_deposits (w_gov w2) ≤ balance (world_auth w2) GovDepositCoinsAccAddr IrisAtto.
Proof.
  destruct (deposits_backed true id id g_params g_params_ok g_apart w0 w2 g_genesis reach_w2) as [H1 H2]. split; [|exact H2].
  etrans; [apply (H1 1); vm_compute; reflexivity|vm_compute; reflexivity].
Defined.
Definition g_proposal : Proposal := default (mkProposal (pp_Basic (buildProposal (mkSubmit "" "" 0 "" [] []) PlainText)) PlainText) (gv_proposals (w_gov w2) !! 1).
Lemma proposals_queued_witness :
  gv_active (w_gov w2) !! KeyActiveProposalQueueProposal (30 * Second) 1 = Some 1 ∧ gv_inactive (w_gov w2) = ∅ ∧
  ∀ id p, gv_proposals (w_gov w2) !! id = Some p → GetStatus p = StatusVotingPeriod → min_deposit g_params p ≤ deposits_of id (w_gov w2).
Proof.
  destruct (proposals_queued true id id g_params g_params_ok g_apart w0 w2 g_genesis reach_w2) as (_&H2&_&H4&_). split_and!; [|vm_compute; reflexivity|exact H4].
  apply (proj2 (H2 (KeyActiveProposalQueueProposal (30 * Second) 1) 1)). exists g_proposal. split_and!; vm_compute; reflexivity.
Defined.
Lemma proposals_limited_witness : open_count ProposalLevelNormal (w_gov w2) = 1 ∧ open_count ProposalLevelNormal (w_gov w2) ≤ 7.
Proof.
  destruct (proposals_limited true id id g_params g_params_ok g_apart w0 w2 g_genesis reach_w2) as [_ H]. split; [vm_compute; reflexivity|exact H].
Defined.
(** A proposal that does not reach the minimum deposit. *)
Definition w_low : World := (g_msg 2 (SubmitMsg (Submit (mkSubmit "title" "description" ProposalTypePlainText bob (iris_deposit 5) []))) w0).2.
Lemma reach_low : g_steps w0 w_low.
Proof. apply g_msg_step; [apply rtc_refl|vm_compute; reflexivity|by right|lia|vm_compute; reflexivity..]. Qed.
Lemma low_burns : can_burn w_low.
Proof.
  assert (auth_wf (world_auth w_low)) as Hw by (apply auth_wfb_ok; vm_compute; reflexivity). split.
  - split; [done| | |vm_compute; auto].
    + intros d. eapply Z.le_lt_trans; [apply ServiceTimeout.total_bound, Hw|]. vm_compute. reflexivity.
    + right. eexists. split; [|vm_compute; reflexivity]. done.
  - vm_compute. discriminate.
  - split; [vm_compute; intuition discriminate|vm_compute; discriminate].
Qed.
Lemma end_block_resolves_witness :
  (resolved (50 * Second) (w_gov w2) (w_gov w3) ∧ GetStatus <$> gv_proposals (w_gov w3) !! 1 = Some StatusPassed) ∧
  ∃ w', g_end 10 w_low = (Ok false, w') ∧ gv_proposals (w_gov w') !! 1 = None.
Proof.
  assert (in_calendar (BlockTime (ex_ctx 10))) as Hc.
  { split; [done|]. assert (1000020 * 5 * Second < year10000) by done. assert (Second = 1000000000) by done. simpl. lia. }
  split; [split; [|vm_compute; reflexivity]|].
  - assert (passes (g_end 10) w2 = true) as Hp by (vm_compute; reflexivity). destruct (passes_run _ _ Hp) as [b Hr].
    exact (proj1 (end_block_resolves true id id g_params g_params_ok g_apart w0 w2 (ex_ctx 10) g_genesis reach_w2 Hc) b w3 Hr).
  - destruct (proj2 (end_block_resolves true id id g_params g_params_ok g_apart w0 w_low (ex_ctx 10) g_genesis reach_low Hc)) as (w'&Hr&Hres).
    + vm_compute. discriminate.
    + exact low_burns.
    + assert (map_Forall (λ _ p, GetStatus p = StatusVotingPeriod → False) (gv_proposals (w_gov w_low))) as Hall.
      { apply (bool_decide_unpack _). vm_compute. exact I. }
      intros i p Hp Hst. destruct (Hall i p Hp Hst).
    + exists w'. split; [exact Hr|]. specialize (Hres 1). revert Hres. vm_compute. done.
Defined.
Definition w_refund : World := (RefundDeposits 1 w2).2.
Lemma refund_exact_witness :
  balance (world_auth w_refund) GovDepositCoinsAccAddr IrisAtto = 0 ∧ ∃ rate, burn_rate (10 * AttoScaleFactor) (10 * AttoScaleFactor) = Ok rate ∧
  refund_amount rate (iris_deposit 10) = Ok (8 * AttoScaleFactor).
Proof.
  assert (passes (RefundDeposits 1) w2 = true) as Hp by (vm_compute; reflexivity). destruct (passes_run _ _ Hp) as [[] Hr].
  destruct (refund_exact true id id g_params g_params_ok g_apart w0 w2 1 w_refund g_genesis reach_w2) as (p&rate&outs&_&_&_&_&_&Eg); [lia|exact Hr|].
  split; [vm_compute; reflexivity|]. exists (2 * 10^9). split; vm_compute; reflexivity.
Defined.
(** The chain with the parameters of the main network. *)
Definition g_valid : World := g_world (set_other (mkOthers (Slashing.mkSlash ∅ ∅ ∅ ∅ Slashing.DefaultParams) (o_distr c_others) (mkFees None None auth_DefaultParams) None (Mint.mkParams (4 * 10^8)) 0)
  (set_params StakeTypes.DefaultParams c1)).
Lemma g_valid_params : ParamRules.valid_params true g_valid.
Proof. split; vm_compute; reflexivity. Qed.
Lemma parameter_proposal_executed_witness :
  (∃ w', execute_parameters true [mkParam "stake" "MaxValidators" "120"] g_valid = (Ok tt, w') ∧ read_param "stake" "MaxValidators" w' = Some (VUint16 120) ∧
    read_param "stake" "UnbondingTime" w' = read_param "stake" "UnbondingTime" g_valid) ∧
  ∃ y, execute_parameters true [mkParam "gov" "NormalMaxNum" "9"] g_valid = (Panic y, g_valid).
Proof.
  split.
  - destruct (ParamRules.parameter_proposal_executed true _ (mkParam "stake" "MaxValidators" "120") (Some (VUint16 120)) g_valid g_valid_params eq_refl) as (w'&u&[= <-]&Hr&_&_&Hk);
      [vm_compute; reflexivity|]. exists w'. split_and!; [exact Hr|by rewrite Hk|by rewrite Hk].
  - exact (ParamRules.parameter_proposal_executed true _ (mkParam "gov" "NormalMaxNum" "9") None g_valid g_valid_params eq_refl eq_refl).
Defined.
(** The votes of [w2] in the state of the chain before the deposit. *)
Abbreviation g_votes := (set_chain c1 w2).
Lemma gov_set_chain c w : w_gov (set_chain c w) = w_gov w.
Proof. done. Qed.
Definition get_ok {S A} (d : A) (c : M S A) (s : S) : A := match (c s).1 with Ok a => a | _ => d end.
Lemma get_ok_run {S A} (d : A) (c : M S A) s : keeps eq c → passes c s = true → c s = (Ok (get_ok d c s), s).
Proof. intros Hc [a Hr]%passes_run. unfold get_ok. rewrite Hr. simpl. f_equal. symmetry. by apply (Hc s a). Qed.
Definition g_vals : list Validator := get_ok [] GetBondedValidatorsByPower c1.
Definition g_infos := match govInfos id g_vals ∅ ZeroDec with Ok r => r | _ => (∅, 0) end.
Definition g_counting : M World Counting := count_votes id (GetVotes 1 (w_gov g_votes)) (mkCounting no_results ZeroDec g_infos.1 ∅).
Definition g_count : Counting := get_ok (mkCounting ∅ 0 ∅ ∅) g_counting g_votes.
Lemma g_counted : TallyRules.counted_votes id g_votes 1 g_count.
Proof.
  exists g_vals, g_infos.1, g_infos.2. split_and!.
  - apply get_ok_run; [apply eq_by_power|vm_compute; reflexivity].
  - vm_compute. reflexivity.
  - apply get_ok_run; [apply eq_count_votes|vm_compute; reflexivity].
Qed.
Lemma g_stake : ∃ m, stake_ok m c1.
Proof. destruct reach_c1 as [m Hm]. exists m. exact (reachable_ok _ _ _ chain_fresh (chain_runs_stake _ _ _ chain_fresh Hm)). Qed.
Lemma g_gov : gov_ok g_params (w_gov g_votes).
Proof. rewrite (gov_set_chain c1 w2). apply (gi_ok (P := g_params) w2). exact (runs_inv true id id g_params g_params_ok g_apart w0 w2 g_genesis reach_w2). Qed.
Lemma g_voters : TallyRules.voters_ok g_votes.
Proof.
  assert (Forall (λ kv, is_addr (vt_Voter kv.2)) (map_to_list (gv_votes (w_gov g_votes)))) as Hall by (vm_compute; repeat constructor).
  intros k v Hk%elem_of_map_to_list. by apply (proj1 (Forall_forall _ _) Hall) in Hk.
Qed.
Definition g_alice : validatorGovInfo := default (mkGovInfo "" 0 0 0 0) (ct_currValidators g_count !! alice).
Lemma votes_counted_once_witness :
  gi_DelegatorDeductions g_alice = 0 ∧ gi_DelegatorShares g_alice = 100 * AttoScaleFactor * precisionReuse ∧ 0 ≤ gi_DelegatorDeductions g_alice ≤ gi_DelegatorShares g_alice.
Proof.
  destruct g_stake as [m Hs].
  destruct (TallyRules.votes_counted_once id ltac:(done) m g_params g_votes 1 g_count alice g_alice Hs g_gov ltac:(lia) g_voters g_counted) as (_&Hle&_); [vm_compute; reflexivity|].
  split_and!; [vm_compute; reflexivity..|apply Hle|apply Hle].
Defined.
Lemma tally_order_free_witness :
  passes (λ w : unit, (count_validators (reverse (map_to_list (ct_currValidators g_count)).*2) g_count, w)) tt = true ∧
  ∀ c', count_validators (reverse (map_to_list (ct_currValidators g_count)).*2) g_count = Ok c' ↔ count_validators (map_to_list (ct_currValidators g_count)).*2 g_count = Ok c'.
Proof.
  split; [vm_compute; reflexivity|]. destruct g_stake as [m Hs]. intros c'.
  apply (TallyRules.tally_order_free id ltac:(done) m g_params g_votes 1 g_count _ c' Hs g_gov ltac:(lia) g_voters g_counted). apply reverse_Permutation.
Defined.

(** An upgrade to version 1 at height 4, for which one of two validators signals. *)
Definition u_upgrade : Upgrade.ProtocolDefinition := Upgrade.mkProtocolDefinition 1 "release" 4 (4 * 10^9).
Abbreviation u_end h := (UpgradeThms.end_upgrade id (ex_ctx h) alice 1).
Definition u1 : World := (execute_upgrade (ex_ctx 2) 1 u_upgrade w0).2.
Definition u2 : World := (u_end 2 u1).2.
Definition u3 : World := (u_end 3 u2).2.
Lemma reach_u2 : rtc (UpgradeThms.upgrade_step id) (1, w0) (2, u2).
Proof.
  eapply rtc_l; [|apply rtc_once].
  - assert (passes (execute_upgrade (ex_ctx 2) 1 u_upgrade) w0 = true) as Hp by (vm_compute; reflexivity). destruct (passes_run _ _ Hp) as [[] Hr].
    exact (UpgradeThms.upgrade_executed id (ex_ctx 2) 1 u_upgrade 1 w0 u1 eq_refl ltac:(lia) Hr).
  - assert (passes (u_end 2) u1 = true) as Hp by (vm_compute; reflexivity). destruct (passes_run _ _ Hp) as [v Hr].
    exact (UpgradeThms.upgrade_block_end id (ex_ctx 2) alice 1 v 1 u1 u2 eq_refl ltac:(lia) Hr).
Qed.
Lemma upgrade_decided_on_time_witness :
  UpgradeThms.ahead 2 (w_protocol u2) ∧ UpgradeThms.block_end id 4 alice 1 (UpgradeThms.upgrade_view u2) (UpgradeThms.upgrade_view u3) ∧
  w_protocol u3 = Upgrade.mkProtocol None (Some 1) None.
Proof.
  assert (passes (u_end 3) u2 = true) as Hp by (vm_compute; reflexivity). destruct (passes_run _ _ Hp) as [v Hr].
  destruct (UpgradeThms.upgrade_decided_on_time id 1 w0 2 u2 (ex_ctx 3) alice 1 v u3 ltac:(lia) ltac:(vm_compute; reflexivity) reach_u2 eq_refl ltac:(lia) Hr) as (Ha&Hb&_).
  split_and!; [exact Ha|exact Hb|vm_compute; reflexivity].
Defined.

(** ** What goes wrong *)
Definition g_change (space key value : string) : GovMsg := g_text ProposalTypeParameter [mkParam space key value].
Fixpoint g_again (n : nat) (msg : GovMsg) (w : World) : World := match n with O => w | S n => (g_msg 2 msg (g_again n msg w)).2 end.
Definition g_six : World := g_again 6 (g_change "mint" "Inflation" "0.1") w0.
(** A run in which the limit of important proposals does not hold before the first normal one:
    every submission reads the number of normal proposals, and without one the
    number of important proposals is set to zero. *)
Example important_uncounted :
  g_steps w0 g_six ∧ lp_MaxNum (gp_Important g_params) = 5 ∧ open_count ProposalLevelImportant (w_gov g_six) = 6 ∧ gv_importantNum (w_gov g_six) = Some 1.
Proof.
  split; [|vm_compute; split_and!; reflexivity].
  unfold g_six. do 6 (apply g_msg_step; [|vm_compute; reflexivity|by right|lia|vm_compute; reflexivity..]). apply rtc_refl.
Qed.
Definition g_stop : World := (g_msg 2 (g_vote bob) (g_msg 2 (g_vote alice) (g_msg 2 (g_change "gov" "NormalMaxNum" "9") w0).2).2).2.
(** A run in which a proposal that changes a parameter of governance is accepted, and the end of
    the block in which it passes is a panic, so that the chain stops. *)
Example gov_parameter_stops : g_steps w0 g_stop ∧ (g_end 10 g_stop).1 = Panic nil_pointer.
Proof.
  split; [|vm_compute; reflexivity]. do 3 (apply g_msg_step; [|vm_compute; reflexivity|first [by right|by left]|lia|vm_compute; reflexivity..]). apply rtc_refl.
Qed.
Definition d_chain : ChainState :=
  let s := mkStake (set_gas NewInfiniteGasMeter (ex_bank [(alice, [iris 1000]); (bob, [iris 1000]); (CommunityTaxCoinsAccAddr, [iris 100; mkCoin "xrp-min" 1; mkCoin "zec-min" 100])]
             (2100 * AttoScaleFactor) [mkCoin "xrp-min" 1; mkCoin "zec-min" 100])) c_others (Some InitialBondedPool) ∅ None ∅ ∅ ∅ ∅ ∅ ∅ ∅ ∅ ∅ ∅ ∅ ∅ (StakeTypes.mkParams (5 * Second) 100) in
  (c_end 1 (c_msg 1 (c_create bob) (c_msg 1 (c_create alice) s).2).2).2.
Definition d0 : World := (Gov.InitGenesis g_params (g_world d_chain)).2.
Definition d_burn : GovMsg := SubmitMsg (SubmitCommunityTaxUsage (mkSubmit "title" "description" ProposalTypeCommunityTaxUsage bob (iris_deposit 10) []) UsageTypeBurn "" (Some (10^9))).
Definition d1 : World := (g_msg 2 (g_vote bob) (g_msg 2 (g_vote alice) (g_msg 2 d_burn d0).2).2).2.
Definition d2 : World := (g_end 10 d1).2.
(** A proposal that burns a part of the community tax can take a token off its
    recorded supply twice: when the part of another token, of which anybody can send
    a little to that account, is rounded down to zero. *)
Theorem tax_burned_twice :
  passes (g_end 10) d1 = true ∧ supply (world_auth d1) "zec-min" = Some 100 ∧ supply (world_auth d2) "zec-min" = Some 80 ∧
  balance (world_auth d1) CommunityTaxCoinsAccAddr "zec-min" = 100 ∧ balance (world_auth d2) CommunityTaxCoinsAccAddr "zec-min" = 90 ∧
  balance (world_auth d2) BurnedCoinsAccAddr "zec-min" = 10.
Proof. vm_compute. split_and!; reflexivity. Qed.
End GovExample.
