(* ===== verification/CoinswapFacts.v ===== *)
(** * Coinswap: prices, pool ids and the effect of a trade *)

From S2P Require Import Prelude SdkErrors IntType GoStrings Denom Coin CoinFacts Rat Gas KVStore Auth Bank BankFacts BankFrame Coinswap.
#[local] Open Scope Z_scope.

(** ** The fee *)
Definition fee_ok (fee : Rat) : Prop := rat_wf fee ∧ 0 < rnum fee < rden fee.

Lemma validateFee_iff fee : rat_wf fee → validateFee fee = Ok tt ↔ fee_ok fee.
Proof.
  intros Hw. destruct Hw as [Hd Hg]. unfold validateFee, fee_ok, Rat_GT, Rat_LT, rat_cmp. cbn [ZeroRat OneRat rnum rden].
  destruct (Z.compare_spec (rnum fee * 1) (0 * rden fee)); cbn [negb];
    try (split; [done|]; intros [_ ?]; lia).
  destruct (Z.compare_spec (rnum fee * 1) (1 * rden fee)); cbn [negb];
    (split; [|intros [_ ?]]; try done; try lia).
  intros _. split; [done|lia].
Qed.

Lemma NewRat_wf n l r : NewRat n l = Ok r → rat_wf r.
Proof.
  destruct l as [|d [|]]; simpl; try done; intros [? ->]%SetFrac_ok; by apply rat_norm_spec.
Qed.

Lemma NewRatFromDecimal_wf v p r : NewRatFromDecimal v p = Ok r → rat_wf r.
Proof.
  unfold NewRatFromDecimal. intros H. case_match; [done|]. inv_ok H. destruct a as [l d].
  destruct (parse_int l) as [num|]; [|done]. case_match; [by eapply NewRat_wf|].
  simpl in H. apply SetFrac_ok in H as [? ->]. by apply rat_norm_spec.
Qed.

(** A fee set through a parameter change lies strictly between 0 and 1. *)
Lemma Params_Validate_fee v r : Params_Validate "fee" v = Ok r → fee_ok r.
Proof.
  unfold Params_Validate. simpl. intros H. inv_ok H. simplify_eq.
  apply NewRatFromDecimal_wf in E as Hw. destruct a0. by apply validateFee_iff.
Qed.

Lemma DefaultParams_ok : fee_ok (Fee DefaultParams).
Proof. vm_compute. repeat split. Qed.

(** The complement of a fee, in lowest terms. *)
Lemma fee_delta fee :
  fee_ok fee → let r := Rat_Sub OneRat fee in
  0 < rnum r < rden r ∧ rnum r * rden fee = (rden fee - rnum fee) * rden r ∧
  rden r ≤ rden fee.
Proof.
  intros [Hw Hf] r. destruct (Rat_Sub_one fee Hw) as [[Hd Hg] He]. fold r in Hd, Hg, He.
  assert (Hdiv : (rden r | rden fee)).
  { apply (Z.gauss _ (rnum r)); [exists (rden fee - rnum fee); lia|by rewrite Z.gcd_comm]. }
  split_and!; [nia|nia|done|apply Z.divide_pos_le; [lia|done]].
Qed.

(** ** Prices *)
Section price.
Variables (fee : Rat) (Ri Ro : Z).
Hypotheses (Hfee : fee_ok fee) (HRi : 0 < Ri) (HRo : 0 < Ro).

(** The amount bought in closed form. *)
Lemma getInputPrice_inv x y :
  0 ≤ x → getInputPrice x Ri Ro fee = Ok y →
  let n := rnum (Rat_Sub OneRat fee) in let d := rden (Rat_Sub OneRat fee) in
  y = (x * n * Ro) / (Ri * d + x * n).
Proof.
  intros Hx H. destruct (fee_delta fee Hfee) as (Hn & _). unfold getInputPrice in H. inv_ok H.
  repeat match goal with
  | H : Int_Mul _ _ = Ok _ |- _ => apply Int_Mul_exact in H as [-> _]
  | H : Int_Add _ _ = Ok _ |- _ => apply Int_Add_ok in H as [-> _]
  | H : Rat_Num _ = Ok _ |- _ => apply NewIntFromBigInt_ok in H as [-> _]
  | H : Rat_Denom _ = Ok _ |- _ => apply NewIntFromBigInt_ok in H as [-> _]
  end.
  apply Int_Div_pos in H; [done|nia].
Qed.

(** The trade leaves at least the old product, counting only the part of the
    input that is not fee, and one more unit of output would not. *)
Definition best_output (x y : Z) : Prop :=
  0 ≤ y < Ro ∧
  Ri * Ro * rden fee ≤ (Ri * rden fee + x * (rden fee - rnum fee)) * (Ro - y) ∧
  (Ri * rden fee + x * (rden fee - rnum fee)) * (Ro - (y + 1)) < Ri * Ro * rden fee.

Lemma input_price_best x y :
  0 ≤ x →
  let n := rnum (Rat_Sub OneRat fee) in let d := rden (Rat_Sub OneRat fee) in
  y = (x * n * Ro) / (Ri * d + x * n) → best_output x y.
Proof.
  intros Hx n d ->. destruct (fee_delta fee Hfee) as (Hn & He & _). fold n d in Hn, He.
  destruct Hfee as [_ Hf].
  set (q := _ / _). assert (Hden : 0 < Ri * d + x * n) by nia.
  assert (Hlo : (Ri * d + x * n) * q ≤ x * n * Ro) by (apply Z.mul_div_le; done).
  assert (Hhi : x * n * Ro < (Ri * d + x * n) * Z.succ q) by (apply Z.mul_succ_div_gt; done).
  assert (Hq : 0 ≤ q) by (apply Z.div_pos; nia). clearbody q.
  assert (Hk : ∀ k, (Ri * rden fee + x * (rden fee - rnum fee)) * k * d = (Ri * d + x * n) * k * rden fee).
  { intros k. transitivity (Ri * rden fee * k * d + x * k * ((rden fee - rnum fee) * d)); [lia|]. rewrite <-He. lia. }
  assert (Hpos : 0 < Ri * d * Ro) by (apply Z.mul_pos_pos; [apply Z.mul_pos_pos|]; lia).
  assert (Hq2 : q < Ro).
  { destruct (Z.lt_ge_cases q Ro) as [|Hge]; [done|].
    assert ((Ri * d + x * n) * Ro ≤ (Ri * d + x * n) * q) by (apply Z.mul_le_mono_nonneg_l; lia). lia. }
  unfold best_output. split_and!; [done|done| |].
  - apply (Zmult_le_reg_r _ _ d); [lia|]. rewrite Hk.
    transitivity (Ri * d * Ro * rden fee); [lia|]. apply Z.mul_le_mono_nonneg_r; lia.
  - apply (Z.mul_lt_mono_pos_r d); [lia|]. rewrite Hk.
    apply (Z.lt_le_trans _ (Ri * d * Ro * rden fee)); [|lia]. apply Z.mul_lt_mono_pos_r; lia.
Qed.

Lemma best_output_product x y : 0 ≤ x → best_output x y → Ri * Ro ≤ (Ri + x) * (Ro - y).
Proof.
  intros Hx (Hy & Hlo & _). destruct Hfee as [_ Hf].
  apply (Zmult_le_reg_r _ _ (rden fee)); [lia|]. etrans; [done|].
  replace ((Ri + x) * (Ro - y) * rden fee) with ((Ri * rden fee + x * rden fee) * (Ro - y)) by lia.
  apply Z.mul_le_mono_nonneg_r; nia.
Qed.

Lemma getInputPrice_ok x y : 0 ≤ x → getInputPrice x Ri Ro fee = Ok y → best_output x y.
Proof. intros Hx H. apply input_price_best; [done|]. by apply getInputPrice_inv. Qed.

Lemma int_ok_le a b : 0 ≤ a ≤ b → b < 2^255 → int_ok a.
Proof. unfold int_ok. lia. Qed.

Lemma getInputPrice_total x :
  0 ≤ x → (Ri + x) * Ro * rden fee < 2^255 → ∃ y, getInputPrice x Ri Ro fee = Ok y.
Proof.
  intros Hx Hfit. destruct (fee_delta fee Hfee) as (Hn & _ & Hd). unfold getInputPrice, Rat_Num, Rat_Denom.
  set (n := rnum _) in *. set (d := rden (Rat_Sub _ _)) in *.
  assert (Hb : ∀ a, 0 ≤ a ≤ (Ri + x) * Ro * rden fee → int_ok a) by (intros a Ha; by eapply int_ok_le).
  assert (Hxn : 0 ≤ x * n ≤ x * rden fee) by nia.
  assert (HRD : rden fee ≤ Ro * rden fee) by nia.
  assert (HxD : x * rden fee ≤ x * (Ro * rden fee)) by nia.
  assert (HRiD : 0 ≤ Ri * d ≤ Ri * (Ro * rden fee)) by nia.
  rewrite (proj2 (NewIntFromBigInt_ok n n)); [|split; [done|apply Hb; nia]]. cbn [obind].
  rewrite (proj2 (Int_Mul_ok x n (x * n) ltac:(apply Hb; nia) ltac:(apply Hb; nia)))
    by (split; [done|apply Hb; nia]). cbn [obind].
  rewrite (proj2 (Int_Mul_ok (x * n) Ro (x * n * Ro) ltac:(apply Hb; nia) ltac:(apply Hb; nia)))
    by (split; [done|apply Hb; nia]). cbn [obind].
  rewrite (proj2 (NewIntFromBigInt_ok d d)); [|split; [done|apply Hb; nia]]. cbn [obind].
  rewrite (proj2 (Int_Mul_ok Ri d (Ri * d) ltac:(apply Hb; nia) ltac:(apply Hb; nia)))
    by (split; [done|apply Hb; nia]). cbn [obind].
  rewrite (proj2 (Int_Add_ok (Ri * d) (x * n) (Ri * d + x * n))); [|split; [done|apply Hb; nia]]. cbn [obind].
  eexists. apply Int_Div_pos; [nia|done].
Qed.

(** The amount to sell in closed form. *)
Lemma getOutputPrice_inv x y :
  0 < y < Ro → getOutputPrice y Ri Ro fee = Ok x →
  let n := rnum (Rat_Sub OneRat fee) in let d := rden (Rat_Sub OneRat fee) in
  x = (Ri * y * d) / ((Ro - y) * n) + 1.
Proof.
  intros Hy H. destruct (fee_delta fee Hfee) as (Hn & _). unfold getOutputPrice in H. inv_ok H.
  repeat match goal with
  | H : Int_Mul _ _ = Ok _ |- _ => apply Int_Mul_exact in H as [-> _]
  | H : Int_Add _ _ = Ok _ |- _ => apply Int_Add_ok in H as [-> _]
  | H : Int_Sub _ _ = Ok _ |- _ => apply Int_Sub_ok in H as [-> _]
  | H : Rat_Num _ = Ok _ |- _ => apply NewIntFromBigInt_ok in H as [-> _]
  | H : Rat_Denom _ = Ok _ |- _ => apply NewIntFromBigInt_ok in H as [-> _]
  | H : Int_Div _ _ = Ok _ |- _ => apply Int_Div_pos in H; [subst|nia]
  end. done.
Qed.

(** The price of [y] units of output buys them, and overcharges at most one unit. *)
Lemma output_price_covers x y :
  0 < y < Ro → getOutputPrice y Ri Ro fee = Ok x →
  0 < x ∧ ∀ x' y', 0 ≤ x' → best_output x' y' → (x ≤ x' → y ≤ y') ∧ (y ≤ y' → x ≤ x' + 1).
Proof.
  intros Hy H%getOutputPrice_inv; [|done]. destruct (fee_delta fee Hfee) as (Hn & He & _).
  destruct Hfee as [_ Hf]. set (n := rnum _) in *. set (d := rden (Rat_Sub _ _)) in *. cbn zeta in H.
  set (D := rden fee) in *. set (k := D - rnum fee) in *. assert (Hk : 0 < k) by lia.
  assert (Hpos : 0 < (Ro - y) * n) by (apply Z.mul_pos_pos; lia).
  assert (Hlo : (Ro - y) * n * (x - 1) ≤ Ri * y * d) by (subst x; rewrite Z.add_simpl_r; by apply Z.mul_div_le).
  assert (Hhi : Ri * y * d < (Ro - y) * n * x) by (subst x; by apply Z.mul_succ_div_gt).
  assert (Hx : 0 < x).
  { apply (Z.mul_pos_cancel_l _ _ Hpos). eapply Z.le_lt_trans; [|exact Hhi]. repeat apply Z.mul_nonneg_nonneg; lia. }
  clear H. split; [done|].
  (* the same bounds for the fee's own fraction *)
  assert (Hlo' : (Ro - y) * k * (x - 1) ≤ Ri * y * D).
  { apply (Zmult_le_reg_r _ _ d); [lia|]. replace ((Ro - y) * k * (x - 1) * d) with ((Ro - y) * (x - 1) * (k * d)) by lia.
    rewrite <-He. replace ((Ro - y) * (x - 1) * (n * D)) with ((Ro - y) * n * (x - 1) * D) by lia.
    replace (Ri * y * D * d) with (Ri * y * d * D) by lia. apply Z.mul_le_mono_nonneg_r; lia. }
  assert (Hhi' : Ri * y * D < (Ro - y) * k * x).
  { apply (Z.mul_lt_mono_pos_r d); [lia|]. replace ((Ro - y) * k * x * d) with ((Ro - y) * x * (k * d)) by lia.
    rewrite <-He. replace ((Ro - y) * x * (n * D)) with ((Ro - y) * n * x * D) by lia.
    replace (Ri * y * D * d) with (Ri * y * d * D) by lia. apply Z.mul_lt_mono_pos_r; lia. }
  intros x' y' Hx' (Hy' & Hb & Hm). fold D k in Hb, Hm. split; intros Hle.
  - assert (Hmono : (Ro - y) * k * x ≤ (Ro - y) * k * x') by (apply Z.mul_le_mono_nonneg_l; nia).
    destruct (Z.le_gt_cases y y') as [|Hgt]; [done|].
    assert ((Ri * D + x' * k) * (Ro - y) ≤ (Ri * D + x' * k) * (Ro - (y' + 1)))
      by (apply Z.mul_le_mono_nonneg_l; nia). lia.
  - assert ((Ri * D + x' * k) * (Ro - y') ≤ (Ri * D + x' * k) * (Ro - y))
      by (apply Z.mul_le_mono_nonneg_l; nia).
    destruct (Z.le_gt_cases x (x' + 1)) as [|Hgt]; [done|].
    assert (Hs : (Ro - y) * k * (x' + 1) ≤ (Ro - y) * k * (x - 1)) by (apply Z.mul_le_mono_nonneg_l; nia).
    assert (0 < (Ro - y) * k) by nia. lia.
Qed.

Lemma output_price_product x y :
  0 < y < Ro → getOutputPrice y Ri Ro fee = Ok x → Ri * Ro ≤ (Ri + x) * (Ro - y).
Proof.
  intros Hy Hp. destruct (output_price_covers x y Hy Hp) as [Hx Hall].
  set (n := rnum (Rat_Sub OneRat fee)). set (d := rden (Rat_Sub OneRat fee)).
  pose proof (input_price_best x _ (Z.lt_le_incl _ _ Hx) eq_refl) as Hb. fold n d in Hb.
  destruct (Hall x _ (Z.lt_le_incl _ _ Hx) Hb) as [Hyy _].
  etrans; [apply (best_output_product x _ (Z.lt_le_incl _ _ Hx) Hb)|].
  apply Z.mul_le_mono_nonneg_l; [lia|]. specialize (Hyy ltac:(lia)). lia.
Qed.

Lemma getOutputPrice_total y :
  0 < y < Ro → Ri * Ro * rden fee < 2^255 - 1 → ∃ x, getOutputPrice y Ri Ro fee = Ok x.
Proof.
  intros Hy Hfit. destruct (fee_delta fee Hfee) as (Hn & _ & Hd). unfold getOutputPrice, Rat_Num, Rat_Denom.
  set (n := rnum _) in *. set (d := rden (Rat_Sub _ _)) in *.
  assert (Hb : ∀ a, 0 ≤ a ≤ Ri * Ro * rden fee → int_ok a) by (intros a Ha; unfold int_ok; lia).
  assert (HRR : Ro ≤ Ri * Ro) by nia. assert (H0 : 0 ≤ Ri * y ≤ Ri * Ro) by nia.
  assert (HD : Ro * rden fee ≤ Ri * Ro * rden fee) by (apply Z.mul_le_mono_nonneg_r; lia).
  assert (HD1 : Ri * Ro ≤ Ri * Ro * rden fee) by nia.
  assert (H1 : 0 ≤ Ri * y * d ≤ Ri * Ro * rden fee).
  { split; [apply Z.mul_nonneg_nonneg; lia|]. apply Z.mul_le_mono_nonneg; lia. }
  assert (H2 : 0 < (Ro - y) * n ≤ Ro * rden fee) by nia.
  rewrite (proj2 (Int_Mul_ok Ri y (Ri * y) ltac:(apply Hb; nia) ltac:(apply Hb; nia)))
    by (split; [done|apply Hb; lia]). cbn [obind].
  rewrite (proj2 (NewIntFromBigInt_ok d d)); [|split; [done|apply Hb; nia]]. cbn [obind].
  rewrite (proj2 (Int_Mul_ok (Ri * y) d (Ri * y * d) ltac:(apply Hb; lia) ltac:(apply Hb; nia)))
    by (split; [done|apply Hb; lia]). cbn [obind].
  rewrite (proj2 (Int_Sub_ok Ro y (Ro - y))) by (split; [done|apply Hb; nia]). cbn [obind].
  rewrite (proj2 (NewIntFromBigInt_ok n n)); [|split; [done|apply Hb; nia]]. cbn [obind].
  rewrite (proj2 (Int_Mul_ok (Ro - y) n ((Ro - y) * n) ltac:(apply Hb; nia) ltac:(apply Hb; nia)))
    by (split; [done|apply Hb; lia]). cbn [obind].
  rewrite (proj2 (Int_Div_pos (Ri * y * d) ((Ro - y) * n) _ ltac:(lia)) eq_refl). cbn [obind].
  assert (0 ≤ Ri * y * d / ((Ro - y) * n) ≤ Ri * y * d).
  { split; [apply Z.div_pos; lia|]. apply Z.div_le_upper_bound; [lia|].
    rewrite <-(Z.mul_1_l (Ri * y * d)) at 1. apply Z.mul_le_mono_nonneg_r; lia. }
  eexists. apply Int_Add_ok. split; [done|]. unfold int_ok. lia.
Qed.
End price.

(** ** Pool ids *)
Lemma GetUniId_ne a b id : GetUniId a b = Ok id → a ≠ b.
Proof. unfold GetUniId. case_bool_decide; [done|]. done. Qed.

Lemma GetUniId_comm a b : GetUniId a b = GetUniId b a.
Proof.
  unfold GetUniId. repeat case_bool_decide; simpl; congruence.
Qed.

Lemma GetUniId_iris d id :
  IsCoinMinDenomValid d = true → GetUniId IrisAtto d = Ok id →
  ∃ n, d = n +:+ MinDenomSuffix ∧ IsCoinNameValid n = true ∧ id = FormatUniABSPrefix +:+ n.
Proof.
  intros Hd Hu. apply GetUniId_ne in Hu as Hne.
  destruct (min_denom_inv d Hd) as [->|(n&->&Hn&Hi)]; [done|]. exists n. split_and!; [done..|].
  unfold GetUniId in Hu. rewrite bool_decide_false in Hu by done.
  rewrite (bool_decide_false (IrisAtto ≠ IrisAtto)), (bool_decide_true (IrisAtto = IrisAtto)) in Hu by naive_solver.
  rewrite GetCoinNameByDenom_min in Hu by done. by injection Hu as <-.
Qed.

Lemma GetUniDenom_ok n ud :
  GetUniDenom (FormatUniABSPrefix +:+ n) = Ok ud →
  IsCoinNameValid (FormatUniABSPrefix +:+ n) = true ∧ ud = FormatUniABSPrefix +:+ n +:+ MinDenomSuffix.
Proof.
  unfold GetUniDenom, CheckUniId. intros H. destruct (IsCoinNameValid _) eqn:Hv; [|done].
  simpl in H. inv_ok H. unfold GetCoinMinDenom in H.
  rewrite name_valid_trim, name_valid_lower in H by done.
  rewrite bool_decide_false in H by done. injection H as <-. split; [done|]. by rewrite <-str_app_assoc.
Qed.

(** The id, the liquidity denomination and the token denomination of a pool
    determine each other. *)
Lemma uni_ids d id ud :
  IsCoinMinDenomValid d = true → GetUniId IrisAtto d = Ok id → GetUniDenom id = Ok ud →
  GetCoinMinDenomFromUniDenom ud = Ok d ∧ GetCoinNameByDenom ud = Some id ∧
  IsCoinMinDenomValid ud = true ∧ ud ≠ d ∧ ud ≠ IrisAtto.
Proof.
  intros Hd Hu Hud. destruct (GetUniId_iris d id Hd Hu) as (n&->&Hn&->).
  apply GetUniDenom_ok in Hud as [Hv ->].
  assert (Hmin : IsCoinMinDenomValid (FormatUniABSPrefix +:+ n +:+ MinDenomSuffix) = true).
  { rewrite str_app_assoc. by apply min_denom_intro. }
  split_and!.
  - unfold GetCoinMinDenomFromUniDenom, CheckUniDenom. rewrite Hmin, HasPrefix_app. simpl orb. cbn [obind].
    by rewrite TrimPrefix_app.
  - rewrite str_app_assoc. by apply GetCoinNameByDenom_min.
  - done.
  - intros E%(f_equal (λ s, length (chars s))). rewrite !chars_app, !length_app in E. simpl in E. lia.
  - done.
Qed.

(** ** What a trade moves *)
Definition coin_amt (c : Coin) (d : string) : Z := if decide (denom c = d) then amount c else 0.

(** The change of the balance of [x] when [c] goes from [f] to [t]. *)
Definition moved (f t : AccAddress) (c : Coin) (x : AccAddress) (d : string) : Z :=
  (if decide (x = t) then coin_amt c d else 0) - (if decide (x = f) then coin_amt c d else 0).

Lemma moved_other f t c x d : denom c ≠ d → moved f t c x d = 0.
Proof. intros. unfold moved, coin_amt. by repeat case_decide. Qed.

Lemma moved_neither f t c x d : f ≠ x → t ≠ x → moved f t c x d = 0.
Proof. intros. unfold moved. by repeat case_decide. Qed.
Lemma moved_to f t c x d : f ≠ x → t = x → denom c = d → moved f t c x d = amount c.
Proof. intros. unfold moved, coin_amt. repeat case_decide; try congruence; lia. Qed.
Lemma moved_from f t c x d : f = x → t ≠ x → denom c = d → moved f t c x d = - amount c.
Proof. intros. unfold moved, coin_amt. repeat case_decide; try congruence; lia. Qed.

(** Evaluate the movements whose parties and denominations are known. *)
Ltac moved_simpl :=
  repeat match goal with
  | |- context [moved ?f ?t ?c ?x ?d] =>
      first [ rewrite (moved_other f t c x d) by (cbn [denom]; congruence)
            | rewrite (moved_neither f t c x d) by congruence
            | rewrite (moved_to f t c x d) by (cbn [denom]; congruence)
            | rewrite (moved_from f t c x d) by (cbn [denom]; congruence) ]
  | H : context [moved ?f ?t ?c ?x ?d] |- _ =>
      first [ rewrite (moved_other f t c x d) in H by (cbn [denom]; congruence)
            | rewrite (moved_neither f t c x d) in H by congruence
            | rewrite (moved_to f t c x d) in H by (cbn [denom]; congruence)
            | rewrite (moved_from f t c x d) in H by (cbn [denom]; congruence) ]
  end; cbn [amount] in *.

(** The recipient of a trade; an empty address stands for the sender. *)
Definition payee (sender recipient : AccAddress) : AccAddress :=
  if AccAddress_Empty recipient then sender else recipient.

Lemma amt_singleton c d : amt [c] d = coin_amt c d.
Proof. simpl. unfold coin_amt. lia. Qed.

Lemma NewCoins_single c l : NewCoins [c] = Ok l → (∀ d, amt l d = coin_amt c d) ∧ 0 ≤ amount c.
Proof.
  intros (_&Hn&_&Hl)%NewCoins_ok. split; [intros d; by rewrite Hl, amt_singleton|].
  pose proof (amt_nonneg l (denom c) Hn) as H0. rewrite Hl, amt_singleton in H0.
  unfold coin_amt in H0. by rewrite decide_True in H0.
Qed.

Section effects.
Context {S : Type} `{BankLaws S} `{Crypto}.
Implicit Types (s : SwapState S).
Abbreviation wf s := (bk_wf (sbank s)).
Abbreviation pool := getReservePoolAddr.

(** A bank call leaves the parameters alone. *)
Lemma swap_bank_ok {A} (c : M S A) s a s' :
  swap_bank c s = (Ok a, s') ↔ ∃ b, c (sbank s) = (Ok a, b) ∧ s' = mkSwap b (sparams s).
Proof. unfold swap_bank. by rewrite zoom_ok. Qed.

Lemma swap_send_ok f t c l s s' :
  wf s → NewCoins [c] = Ok l → swap_bank (bk_SendCoins f t l) s = (Ok tt, s') →
  wf s' ∧ sparams s' = sparams s ∧ 0 ≤ amount c ≤ bal (sbank s) f (denom c) ∧
  ∀ x d, bal (sbank s') x d = bal (sbank s) x d + moved f t c x d.
Proof.
  intros Hs [Hl Hc]%NewCoins_single (b&Hrun&->)%swap_bank_ok. simpl.
  destruct (law_send _ _ _ _ _ Hs Hrun) as (_&Hw&Hle&Hb).
  split_and!; [done|done|done| |].
  - specialize (Hle (denom c)). rewrite Hl in Hle. unfold coin_amt in Hle. by rewrite decide_True in Hle.
  - intros x d. rewrite Hb, Hl. unfold moved. repeat case_decide; lia.
Qed.

Record traded (s s' : SwapState S) (id : string) (f t : AccAddress) (sold bought : Coin) : Prop := {
  tr_id : GetUniId (denom sold) (denom bought) = Ok id;
  tr_wf : wf s';
  tr_params : sparams s' = sparams s;
  tr_sold : 0 ≤ amount sold ≤ bal (sbank s) f (denom sold);
  tr_bought : 0 ≤ amount bought;
  tr_bal x d : bal (sbank s') x d =
    bal (sbank s) x d + moved f (pool id) sold x d + moved (pool id) (payee f t) bought x d }.

Lemma swapCoins_traded f t sold bought s u s' :
  wf s → swapCoins f t sold bought s = (Ok u, s') → ∃ id, traded s s' id f t sold bought.
Proof.
  intros Hs Hrun. unfold swapCoins in Hrun. inv_ok Hrun. destruct a1, u.
  destruct (swap_send_ok _ _ _ _ _ _ Hs E0 E1) as (Hw1&Hp1&Hsold&Hb1).
  destruct (swap_send_ok _ _ _ _ _ _ Hw1 E2 Hrun) as (Hw2&Hp2&Hbought&Hb2).
  exists a. split; [done|done|congruence|done|lia|]. intros x d. rewrite Hb2, Hb1. done.
Qed.

(** ** Prices read from a pool *)
Lemma GetReservePool_ok id s r s' :
  GetReservePool id s = (Ok r, s') → r = bk_coins (sbank s) (pool id) ∧ s' = s.
Proof. unfold GetReservePool, gets. naive_solver. Qed.

Lemma calculateWithExactInput_ok c d s y s' :
  wf s → calculateWithExactInput c d s = (Ok y, s') →
  ∃ id, s' = s ∧ GetUniId (denom c) d = Ok id ∧
    0 < bal (sbank s) (pool id) (denom c) ∧ 0 < bal (sbank s) (pool id) d ∧
    getInputPrice (amount c) (bal (sbank s) (pool id) (denom c)) (bal (sbank s) (pool id) d)
      (Fee (sparams s)) = Ok y.
Proof.
  intros Hs Hrun. unfold calculateWithExactInput in Hrun. inv_ok Hrun.
  apply GetReservePool_ok in E0 as [-> ->].
  rewrite !AmountOf_bal in * by done. rewrite !Int_IsPositive_iff in *. eauto 10.
Qed.

Lemma calculateWithExactOutput_ok c d s x s' :
  wf s → calculateWithExactOutput c d s = (Ok x, s') →
  ∃ id, s' = s ∧ GetUniId d (denom c) = Ok id ∧
    0 < bal (sbank s) (pool id) d ∧ amount c < bal (sbank s) (pool id) (denom c) ∧
    getOutputPrice (amount c) (bal (sbank s) (pool id) d) (bal (sbank s) (pool id) (denom c))
      (Fee (sparams s)) = Ok x.
Proof.
  intros Hs Hrun. unfold calculateWithExactOutput in Hrun. inv_ok Hrun.
  apply GetReservePool_ok in E0 as [-> ->].
  destruct (GetUniId (denom c) d) as [id| |] eqn:Hid; simplify_eq.
  rewrite !AmountOf_bal in * by done. rewrite Int_IsPositive_iff in *.
  exists a. rewrite GetUniId_comm. split_and!; try done.
  unfold Int_GTE in *. zbool. lia.
Qed.
End effects.

(** ** A concrete exchange, for evaluating the theorems *)


Module CoinswapExample.
#[export] Existing Instance name_crypto.

Definition bank0 : AuthState :=
  ex_bank [("alice", [mkCoin "btc-min" 10000; mkCoin "iris-atto" 100000; mkCoin "uni:btc-min" 70000]);
           ("bob", [mkCoin "btc-min" 5]);
           ("uni:btc", [mkCoin "btc-min" 50000; mkCoin "iris-atto" 70000; mkCoin "uni:btc-min" 70000]);
           ("uni:eth", [mkCoin "eth-min" 30000; mkCoin "iris-atto" 60000; mkCoin "uni:eth-min" 60000])]
          230000 [mkCoin "btc-min" 60005; mkCoin "eth-min" 30000].
Definition swap0 : SwapState AuthState := mkSwap bank0 DefaultParams.

Lemma swap0_wf : bk_wf (sbank swap0).
Proof. apply auth_wfb_ok. vm_compute. reflexivity. Qed.

(** alice sells 1000 btc-min for native tokens for bob *)
Definition sell : MsgSwapOrder :=
  mkMsgSwapOrder (mkParty "alice" (mkCoin "btc-min" 1000)) (mkParty "bob" (mkCoin "iris-atto" 1300)) 100 false.
(** alice buys 500 eth-min with btc-min, for bob *)
Definition buy2 : MsgSwapOrder :=
  mkMsgSwapOrder (mkParty "alice" (mkCoin "btc-min" 1000)) (mkParty "bob" (mkCoin "eth-min" 500)) 100 true.
Definition add : MsgAddLiquidity := mkMsgAddLiquidity (mkCoin "btc-min" 800) 1000 900 100 "alice".
Definition rem : MsgRemoveLiquidity := mkMsgRemoveLiquidity 700 (mkCoin "uni:btc-min" 1000) 900 100 "alice".

Definition sell' := (HandleSwap sell swap0).2.
Definition buy2' := (HandleSwap buy2 swap0).2.
Definition add' := (HandleAddLiquidity add swap0).2.
Definition rem' := (HandleRemoveLiquidity rem add').2.
End CoinswapExample.
