(* ===== verification/CoinswapThms.v ===== *)
(** * Coinswap: the theorems

    Prices are the best ones the constant-product rule allows; no swap lowers the
    product of the reserves of any pool; adding and removing liquidity never
    lowers what a liquidity token is worth. *)

From S2P Require Import Prelude SdkErrors IntType GoStrings Denom Coin CoinFacts Rat Auth BankFrame Coinswap CoinswapFacts.
#[local] Open Scope Z_scope.

(** [getInputPrice] returns the largest amount the pool can pay out without
    lowering the product of its reserves, counting only the part of the input
    that is not fee; the pool is never emptied.  It returns whenever the
    products it forms fit in 255 bits. *)
Theorem getInputPrice_best (x Ri Ro : Int) (fee : Rat)
    (Hfee : fee_ok fee) (HRi : 0 < Ri) (HRo : 0 < Ro) (Hx : 0 ≤ x)
    (Hfit : (Ri + x) * Ro * rden fee < 2^255) :
  ∃ y, getInputPrice x Ri Ro fee = Ok y ∧ best_output fee Ri Ro x y ∧
       Ri * Ro ≤ (Ri + x) * (Ro - y).
Proof.
  destruct (getInputPrice_total fee Ri Ro Hfee HRi HRo x Hx Hfit) as [y Hy].
  assert (Hb : best_output fee Ri Ro x y) by (by apply getInputPrice_ok).
  exists y. split_and!; [done|done|]. by apply (best_output_product fee).
Qed.

Lemma getInputPrice_best_witness :
  ∃ y, getInputPrice 1000 50000 70000 (mkRat 3 1000) = Ok y ∧
       best_output (mkRat 3 1000) 50000 70000 1000 y ∧ 50000 * 70000 ≤ (50000 + 1000) * (70000 - y).
Proof.
  apply (getInputPrice_best 1000 50000 70000 (mkRat 3 1000)); [|lia|lia|lia|].
  - exact DefaultParams_ok.
  - vm_compute. reflexivity.
Defined.

(** [getOutputPrice] returns an amount whose sale buys the requested output, and
    at most one unit more than any amount that does; the product of the reserves
    does not fall. *)
Theorem getOutputPrice_tight (y Ri Ro : Int) (fee : Rat)
    (Hfee : fee_ok fee) (HRi : 0 < Ri) (Hy : 0 < y < Ro)
    (Hfit : Ri * Ro * rden fee < 2^255 - 1) :
  ∃ x, getOutputPrice y Ri Ro fee = Ok x ∧ 0 < x ∧ Ri * Ro ≤ (Ri + x) * (Ro - y) ∧
       (∀ y', getInputPrice x Ri Ro fee = Ok y' → y ≤ y') ∧
       (∀ x' y', 0 ≤ x' → getInputPrice x' Ri Ro fee = Ok y' → y ≤ y' → x ≤ x' + 1).
Proof.
  assert (HRo : 0 < Ro) by lia.
  destruct (getOutputPrice_total fee Ri Ro Hfee HRi HRo y Hy Hfit) as [x Hx].
  destruct (output_price_covers fee Ri Ro Hfee HRi HRo x y Hy Hx) as [Hpos Hall].
  exists x. split_and!; [done|done|by apply (output_price_product fee)| |].
  - intros y' Hy'. apply (Hall x y'); [lia|apply getInputPrice_ok; (done || lia)|lia].
  - intros x' y' Hx' Hy' Hle. apply (Hall x' y'); [done|by apply getInputPrice_ok|done].
Qed.

Lemma getOutputPrice_tight_witness :
  ∃ x, getOutputPrice 1373 50000 70000 (mkRat 3 1000) = Ok x ∧ 0 < x ∧
       50000 * 70000 ≤ (50000 + x) * (70000 - 1373) ∧
       (∀ y', getInputPrice x 50000 70000 (mkRat 3 1000) = Ok y' → 1373 ≤ y') ∧
       (∀ x' y', 0 ≤ x' → getInputPrice x' 50000 70000 (mkRat 3 1000) = Ok y' → 1373 ≤ y' → x ≤ x' + 1).
Proof.
  apply (getOutputPrice_tight 1373 50000 70000 (mkRat 3 1000)); [|lia|lia|].
  - exact DefaultParams_ok.
  - vm_compute. reflexivity.
Defined.

(** The id, the liquidity denomination and the token denomination of a pool
    determine each other: the id formed when liquidity is added, or a coin
    traded, is the one recovered from the liquidity coin when it is redeemed,
    and so is the token. *)
Theorem uni_ids_roundtrip (d id ud : string)
    (Hd : IsCoinMinDenomValid d = true) (Hid : GetUniId IrisAtto d = Ok id)
    (Hud : GetUniDenom id = Ok ud) :
  GetUniId d IrisAtto = Ok id ∧ GetCoinMinDenomFromUniDenom ud = Ok d ∧
  GetCoinNameByDenom ud = Some id ∧ IsCoinMinDenomValid ud = true.
Proof.
  destruct (uni_ids d id ud Hd Hid Hud) as (?&?&?&_). by rewrite GetUniId_comm.
Qed.

Lemma uni_ids_roundtrip_witness :
  GetUniId "btc-min" IrisAtto = Ok "uni:btc" ∧ GetCoinMinDenomFromUniDenom "uni:btc-min" = Ok "btc-min" ∧
  GetCoinNameByDenom "uni:btc-min" = Some "uni:btc" ∧ IsCoinMinDenomValid "uni:btc-min" = true.
Proof. apply (uni_ids_roundtrip "btc-min" "uni:btc" "uni:btc-min"); vm_compute; reflexivity. Defined.

Section trades.
Context {S : Type} `{BankLaws S} `{Crypto}.
Implicit Types (s : SwapState S).
Abbreviation wf s := (bk_wf (sbank s)).
Abbreviation pool := getReservePoolAddr.

Record valid_order (msg : MsgSwapOrder) : Prop := {
  vo_in : 0 < amount (p_Coin (sw_Input msg));
  vo_out : 0 < amount (p_Coin (sw_Output msg));
  vo_in_denom : IsCoinMinDenomValid (denom (p_Coin (sw_Input msg))) = true;
  vo_out_denom : IsCoinMinDenomValid (denom (p_Coin (sw_Output msg))) = true;
  vo_ne : denom (p_Coin (sw_Input msg)) ≠ denom (p_Coin (sw_Output msg)) }.

Lemma ValidateBasic_order msg : MsgSwapOrder_ValidateBasic msg = Ok tt → valid_order msg.
Proof.
  unfold MsgSwapOrder_ValidateBasic, Coin_IsPositive. intros Hv.
  repeat match type of Hv with (if ?b then _ else _) = _ => destruct b eqn:?; [discriminate Hv|] end.
  zbool. rewrite ?Coin_IsValid_iff, ?Int_IsPositive_iff in *. destruct_and?. by split.
Qed.

(** *** One pool, before and after a trade *)
Section pools.
Variables (s s' : SwapState S) (idx : string) (f t : AccAddress) (sold bought : Coin).
Hypotheses (Hs : wf s) (Htr : traded s s' idx f t sold bought).
Variables (p : AccAddress).
Hypothesis (Hf : f ≠ p).

Lemma traded_other_pool d : p ≠ pool idx → bal (sbank s) p d ≤ bal (sbank s') p d.
Proof.
  intros Hp. rewrite (tr_bal _ _ _ _ _ _ _ Htr). unfold moved, coin_amt.
  pose proof (tr_bought _ _ _ _ _ _ _ Htr).
  repeat case_decide; subst; try lia; congruence.
Qed.

Lemma traded_own_pool d :
  p = pool idx →
  bal (sbank s') p d = bal (sbank s) p d + coin_amt sold d - coin_amt bought d +
    (if decide (p = payee f t) then coin_amt bought d else 0).
Proof.
  intros Hp. rewrite (tr_bal _ _ _ _ _ _ _ Htr). unfold moved.
  rewrite (decide_True (P := p = pool idx)) by done. rewrite (decide_True (P := p = pool idx)) by done.
  rewrite (decide_False (P := p = f)) by congruence. repeat case_decide; lia.
Qed.

(** A trade at a price that keeps the product keeps it. *)
Lemma traded_product :
  p = pool idx →
  let Ri := bal (sbank s) p (denom sold) in let Ro := bal (sbank s) p (denom bought) in
  0 < Ri → amount bought ≤ Ro → Ri * Ro ≤ (Ri + amount sold) * (Ro - amount bought) →
  Ri * Ro ≤ bal (sbank s') p (denom sold) * bal (sbank s') p (denom bought).
Proof.
  intros Hp Ri Ro HRi HRo Hprod. pose proof (GetUniId_ne _ _ _ (tr_id _ _ _ _ _ _ _ Htr)) as Hne.
  pose proof (tr_sold _ _ _ _ _ _ _ Htr). pose proof (tr_bought _ _ _ _ _ _ _ Htr).
  rewrite !traded_own_pool by done. fold Ri Ro. unfold coin_amt.
  rewrite !(decide_True (P := denom sold = denom sold)), !(decide_True (P := denom bought = denom bought)) by done.
  rewrite !(decide_False (P := denom bought = denom sold)), !(decide_False (P := denom sold = denom bought)) by done.
  case_decide; nia.
Qed.
End pools.

(** *** The trades of an order *)
Definition order_sold (msg : MsgSwapOrder) (a : Int) : Coin :=
  if sw_IsBuyOrder msg then mkCoin (denom (p_Coin (sw_Input msg))) a else p_Coin (sw_Input msg).
Definition order_bought (msg : MsgSwapOrder) (a : Int) : Coin :=
  if sw_IsBuyOrder msg then p_Coin (sw_Output msg) else mkCoin (denom (p_Coin (sw_Output msg))) a.

(** A price that does not lower the product of the reserves read in [s]. *)
Definition fair_price s (p : AccAddress) (sold bought : Coin) : Prop :=
  let Ri := bal (sbank s) p (denom sold) in let Ro := bal (sbank s) p (denom bought) in
  0 < Ri ∧ amount bought < Ro ∧ Ri * Ro ≤ (Ri + amount sold) * (Ro - amount bought).

Lemma input_fair c d s y s' :
  wf s → fee_ok (Fee (sparams s)) → 0 ≤ amount c →
  calculateWithExactInput c d s = (Ok y, s') →
  ∃ id, s' = s ∧ GetUniId (denom c) d = Ok id ∧ fair_price s (pool id) c (mkCoin d y).
Proof.
  intros Hs Hfee Hc (id&->&Hid&HRi&HRo&Hp)%calculateWithExactInput_ok; [|done].
  exists id. split_and!; [done|done|].
  pose proof (getInputPrice_ok _ _ _ Hfee HRi HRo _ _ Hc Hp) as Hb.
  unfold fair_price. cbn [denom amount]. split_and!; [done|apply Hb|]. by apply (best_output_product (Fee (sparams s))).
Qed.

Lemma output_fair c d s x s' :
  wf s → fee_ok (Fee (sparams s)) → 0 < amount c →
  calculateWithExactOutput c d s = (Ok x, s') →
  ∃ id, s' = s ∧ GetUniId d (denom c) = Ok id ∧ 0 < x ∧ fair_price s (pool id) (mkCoin d x) c.
Proof.
  intros Hs Hfee Hc (id&->&Hid&HRi&HRo&Hp)%calculateWithExactOutput_ok; [|done].
  assert (Hy : 0 < bal (sbank s) (pool id) (denom c)) by lia.
  exists id. split_and!; [done|done| |].
  - by destruct (output_price_covers _ _ _ Hfee HRi Hy _ _ (conj Hc HRo) Hp).
  - unfold fair_price. cbn [denom amount]. split_and!; [done|done|]. by apply (output_price_product (Fee (sparams s))).
Qed.

Section order.
Variables (msg : MsgSwapOrder) (s s' : SwapState S) (a : Int).
Hypotheses (Hs : wf s) (Hfee : fee_ok (Fee (sparams s))) (Hmsg : valid_order msg)
           (Hrun : HandleSwap msg s = (Ok a, s')).
Let f := p_Address (sw_Input msg).
Let t := p_Address (sw_Output msg).
Let din := denom (p_Coin (sw_Input msg)).
Let dout := denom (p_Coin (sw_Output msg)).

(** An order between a token and the native token is one trade, within the
    limits the sender set. *)
Lemma single_order :
  din = IrisAtto ∨ dout = IrisAtto →
  amount (order_sold msg a) ≤ amount (p_Coin (sw_Input msg)) ∧
  amount (p_Coin (sw_Output msg)) ≤ amount (order_bought msg a) ∧
  ∃ id, traded s s' id f t (order_sold msg a) (order_bought msg a) ∧
        fair_price s (pool id) (order_sold msg a) (order_bought msg a).
Proof.
  intros Hone. unfold HandleSwap in Hrun. fold din dout in Hrun.
  replace (bool_decide (din ≠ IrisAtto) && bool_decide (dout ≠ IrisAtto)) with false in Hrun
    by (destruct Hone as [E|E]; rewrite E; repeat case_bool_decide; naive_solver).
  rewrite !andb_false_r, andb_true_r in Hrun. unfold order_sold, order_bought.
  destruct Hmsg as [Hin Hout _ _ _]. destruct (sw_IsBuyOrder msg).
  - inv_ok Hrun. unfold tradeInputForExactOutput in E. inv_ok E.
    apply output_fair in E1 as (id&->&Hid&Hx&Hfair); [|done..].
    apply NewCoin_ok in E3 as [-> _]. apply swapCoins_traded in E4 as [id' Htr]; [|done].
    unfold Int_GT in E2. zbool. split_and!; [done|done|]. exists id'.
    pose proof (tr_id _ _ _ _ _ _ _ Htr) as Hid'. simpl in Hid'. rewrite Hid in Hid'. injection Hid' as <-. done.
  - inv_ok Hrun. unfold tradeExactInputForOutput in E. inv_ok E.
    apply input_fair in E1 as (id&->&Hid&Hfair); [|done|done|lia].
    apply NewCoin_ok in E3 as [-> _]. apply swapCoins_traded in E4 as [id' Htr]; [|done].
    unfold Int_LT in E2. zbool. split_and!; [done|done|]. exists id'.
    pose proof (tr_id _ _ _ _ _ _ _ Htr) as Hid'. simpl in Hid'. rewrite Hid in Hid'. injection Hid' as <-. done.
Qed.

(** An order between two other tokens is a trade for the native token and a
    trade of that amount for the other token. *)
Lemma double_order :
  din ≠ IrisAtto → dout ≠ IrisAtto →
  amount (order_sold msg a) ≤ amount (p_Coin (sw_Input msg)) ∧
  amount (p_Coin (sw_Output msg)) ≤ amount (order_bought msg a) ∧
  ∃ s1 idA idB n, let native := mkCoin IrisAtto n in
    traded s s1 idA f t (order_sold msg a) native ∧
    traded s1 s' idB f t native (order_bought msg a) ∧
    fair_price s (pool idA) (order_sold msg a) native ∧
    (fair_price s1 (pool idB) native (order_bought msg a) ∨
     fair_price s (pool idB) native (order_bought msg a)).
Proof.
  intros H1i H1o. unfold HandleSwap in Hrun. fold din dout in Hrun.
  rewrite !bool_decide_true in Hrun by done. rewrite !andb_true_r in Hrun.
  unfold order_sold, order_bought. destruct Hmsg as [Hin Hout _ _ _]. destruct (sw_IsBuyOrder msg); cbn [negb andb] in Hrun.
  - inv_ok Hrun. unfold doubleTradeInputForExactOutput in E. inv_ok E.
    apply output_fair in E1 as (idB&->&HidB&HxB&HfairB); [|done..].
    apply NewCoin_ok in E2 as [-> _].
    apply output_fair in E3 as (idA&->&HidA&HxA&HfairA); [|done..].
    apply NewCoin_ok in E4 as [-> _].
    apply swapCoins_traded in E6 as [idA' HtrA]; [|done].
    apply swapCoins_traded in E7 as [idB' HtrB]; [|apply HtrA].
    pose proof (tr_id _ _ _ _ _ _ _ HtrA) as EA. pose proof (tr_id _ _ _ _ _ _ _ HtrB) as EB.
    cbn [denom] in EA, EB, HidA. rewrite HidA in EA. rewrite HidB in EB. injection EA as <-. injection EB as <-.
    unfold Int_GT in E5. zbool. split_and!; [done|done|]. eauto 12.
  - inv_ok Hrun. unfold doubleTradeExactInputForOutput in E. inv_ok E.
    apply input_fair in E1 as (idA&->&HidA&HfairA); [|done|done|lia].
    apply NewCoin_ok in E2 as [-> Hn].
    apply swapCoins_traded in E3 as [idA' HtrA]; [|done].
    pose proof (tr_params _ _ _ _ _ _ _ HtrA) as Hpar. pose proof (tr_wf _ _ _ _ _ _ _ HtrA) as Hw1.
    apply input_fair in E4 as (idB&->&HidB&HfairB); [|done|by rewrite Hpar|done].
    apply NewCoin_ok in E5 as [-> _].
    apply swapCoins_traded in E7 as [idB' HtrB]; [|done].
    pose proof (tr_id _ _ _ _ _ _ _ HtrA) as EA. pose proof (tr_id _ _ _ _ _ _ _ HtrB) as EB.
    cbn [denom] in EA, EB, HidB. rewrite HidA in EA. rewrite HidB in EB. injection EA as <-. injection EB as <-.
    unfold Int_LT in E6. zbool. split_and!; [done|done|]. eauto 12.
Qed.
End order.

(** *** Products of reserves *)
Definition product s (p : AccAddress) (d : string) : Z :=
  bal (sbank s) p IrisAtto * bal (sbank s) p d.

Lemma product_mono s s' p d :
  wf s → (∀ e, bal (sbank s) p e ≤ bal (sbank s') p e) → product s p d ≤ product s' p d.
Proof. intros Hs Hle. apply Z.mul_le_mono_nonneg; (apply Hle || by apply bal_nonneg). Qed.

Lemma GetUniId_inj d d' id :
  IsCoinMinDenomValid d = true → IsCoinMinDenomValid d' = true →
  GetUniId IrisAtto d = Ok id → GetUniId IrisAtto d' = Ok id → d = d'.
Proof.
  intros Hd Hd' (n&->&_&->)%GetUniId_iris (n'&->&_&E)%GetUniId_iris; [|done..].
  by apply (inj _) in E as ->.
Qed.

(** The pair a trade is made on. *)
Definition pair_of (sold bought : Coin) (d : string) : Prop :=
  (denom sold = IrisAtto ∧ denom bought = d) ∨ (denom sold = d ∧ denom bought = IrisAtto).

Lemma fair_traded_product s s' id f t sold bought d :
  traded s s' id f t sold bought → pair_of sold bought d → f ≠ pool id →
  fair_price s (pool id) sold bought → product s (pool id) d ≤ product s' (pool id) d.
Proof.
  intros Htr Hpair Hf (HRi&HRo&Hprod).
  pose proof (traded_product _ _ _ _ _ _ _ Htr (pool id) Hf eq_refl HRi ltac:(lia) Hprod) as Hle.
  unfold product. destruct Hpair as [[E1 E2]|[E1 E2]]; rewrite E1, E2 in Hle; lia.
Qed.

(** A second trade priced before the first one took place. *)
Lemma late_traded_product s s1 s' idA idB f t sold native bought :
  wf s → traded s s1 idA f t sold native → traded s1 s' idB f t native bought →
  denom native = IrisAtto → f ≠ pool idB → pool idA ≠ pool idB →
  fair_price s (pool idB) native bought →
  product s (pool idB) (denom bought) ≤ product s' (pool idB) (denom bought).
Proof.
  intros Hs HA HB Hn Hf Hne Hfair.
  assert (Hb1 : ∀ d, bal (sbank s1) (pool idB) d = bal (sbank s) (pool idB) d +
            (if decide (pool idB = payee f t) then coin_amt native d else 0)).
  { intros d. rewrite (tr_bal _ _ _ _ _ _ _ HA). unfold moved.
    repeat case_decide; try congruence; lia. }
  destruct (decide (pool idB = payee f t)) as [Hp|Hp].
  - apply product_mono; [done|]. intros d. pose proof (tr_sold _ _ _ _ _ _ _ HB).
    rewrite (traded_own_pool _ _ _ _ _ _ _ HB (pool idB) Hf) by done. rewrite Hb1, decide_True by done.
    unfold coin_amt. repeat case_decide; lia.
  - assert (Hsame : ∀ d, bal (sbank s) (pool idB) d = bal (sbank s1) (pool idB) d) by (intros; rewrite Hb1; lia).
    unfold product. rewrite !Hsame. apply (fair_traded_product s1 s' idB f t native bought); [done|by left|done|].
    unfold fair_price in *. by rewrite <-!Hsame.
Qed.

(** C8. No swap lowers the product of the reserves of any pool, be it a single or a
    double swap, a buy or a sell order, and whoever the recipient is.  The
    sender is not the pool itself, and the addresses of pools do not collide. *)
Theorem swap_keeps_products (msg : MsgSwapOrder) s s' (a : Int) (d id : string)
    (Hs : wf s) (Hfee : fee_ok (Fee (sparams s)))
    (Hv : MsgSwapOrder_ValidateBasic msg = Ok tt)
    (Hrun : HandleSwap msg s = (Ok a, s'))
    (Hd : IsCoinMinDenomValid d = true) (Hid : GetUniId IrisAtto d = Ok id)
    (Hsender : p_Address (sw_Input msg) ≠ pool id)
    (Hinj : ∀ id', pool id' = pool id → id' = id) :
  product s (pool id) d ≤ product s' (pool id) d.
Proof.
  apply ValidateBasic_order in Hv as Hmsg. destruct Hmsg as [Hin Hout Hdi Hdo Hne].
  set (din := denom (p_Coin (sw_Input msg))) in *. set (dout := denom (p_Coin (sw_Output msg))) in *.
  assert (Hsd : denom (order_sold msg a) = din) by (unfold order_sold; by case_match).
  assert (Hbd : denom (order_bought msg a) = dout) by (unfold order_bought; by case_match).
  assert (Hother : ∀ s0 s1 idx sold bought, wf s0 → traded s0 s1 idx (p_Address (sw_Input msg))
    (p_Address (sw_Output msg)) sold bought → idx ≠ id → product s0 (pool id) d ≤ product s1 (pool id) d).
  { intros ????? Hw Htr Hix. apply product_mono; [done|]. intros e.
    apply (traded_other_pool _ _ _ _ _ _ _ Htr (pool id) Hsender). naive_solver. }
  destruct (decide (din = IrisAtto ∨ dout = IrisAtto)) as [Hone|Hno].
  - destruct (single_order msg s s' a Hs Hfee ltac:(by apply ValidateBasic_order) Hrun Hone) as (_&_&idx&Htr&Hfair).
    destruct (decide (idx = id)) as [->|Hix]; [|by eapply Hother].
    eapply fair_traded_product; [exact Htr| |done|done].
    pose proof (tr_id _ _ _ _ _ _ _ Htr) as Hid'. unfold pair_of. rewrite Hsd, Hbd in *.
    destruct Hone as [E|E]; rewrite E in *; [left|right]; (split; [|done || idtac]); try done.
    + by apply (GetUniId_inj dout d id).
    + rewrite GetUniId_comm in Hid'. by apply (GetUniId_inj din d id).
  - destruct (double_order msg s s' a Hs Hfee ltac:(by apply ValidateBasic_order) Hrun) as (_&_&s1&idA&idB&n&HA&HB&HfA&HfB);
      [naive_solver..|]. cbn zeta in *.
    pose proof (tr_id _ _ _ _ _ _ _ HA) as EA. pose proof (tr_id _ _ _ _ _ _ _ HB) as EB.
    rewrite Hsd in EA. rewrite Hbd in EB. cbn [denom] in EA, EB. rewrite GetUniId_comm in EA.
    assert (HAB : idA ≠ idB) by (intros ->; by apply Hne, (GetUniId_inj din dout idB)).
    pose proof (tr_wf _ _ _ _ _ _ _ HA) as Hw1.
    destruct (decide (idA = id)) as [->|HA']; [|destruct (decide (idB = id)) as [->|HB']].
    + trans (product s1 (pool id) d); [|by eapply Hother].
      eapply fair_traded_product; [exact HA| |done|done]. right. split; [|done].
      rewrite Hsd. by apply (GetUniId_inj din d id).
    + assert (Edo : dout = d) by (by apply (GetUniId_inj dout d id)). destruct HfB as [HfB|HfB].
      * trans (product s1 (pool id) d); [by eapply Hother|].
        eapply fair_traded_product; [exact HB| |done|done]. left. split; [done|]. by rewrite Hbd.
      * rewrite <-Edo, <-Hbd. eapply late_traded_product; [done|exact HA|exact HB|done|done| |done].
        intros E. by apply HA', Hinj.
    + trans (product s1 (pool id) d); by eapply Hother.
Qed.

(** A successful order between a token and the native token respects the limits
    of the message and moves exactly the coin sold from the sender to the pool
    and the coin bought from the pool to the recipient, the sender when none is
    given; nothing else changes. *)
Theorem swap_single_exact (msg : MsgSwapOrder) s s' (a : Int)
    (Hs : wf s) (Hfee : fee_ok (Fee (sparams s)))
    (Hv : MsgSwapOrder_ValidateBasic msg = Ok tt)
    (Hone : denom (p_Coin (sw_Input msg)) = IrisAtto ∨ denom (p_Coin (sw_Output msg)) = IrisAtto)
    (Hrun : HandleSwap msg s = (Ok a, s')) :
  let sold := order_sold msg a in
  let bought := order_bought msg a in
  let sender := p_Address (sw_Input msg) in
  let recipient := payee sender (p_Address (sw_Output msg)) in
  0 ≤ amount sold ≤ amount (p_Coin (sw_Input msg)) ∧
  amount (p_Coin (sw_Output msg)) ≤ amount bought ∧
  ∃ id, GetUniId (denom sold) (denom bought) = Ok id ∧ sparams s' = sparams s ∧
    ∀ x d, bal (sbank s') x d = bal (sbank s) x d
             + moved sender (pool id) sold x d + moved (pool id) recipient bought x d.
Proof.
  destruct (single_order msg s s' a Hs Hfee (ValidateBasic_order _ Hv) Hrun Hone) as (Hi&Ho&id&Htr&_).
  cbn zeta. pose proof (tr_sold _ _ _ _ _ _ _ Htr).
  split_and!; [lia|done|done|]. exists id. split_and!; [apply Htr..|]. apply (tr_bal _ _ _ _ _ _ _ Htr).
Qed.

Lemma fair_price_positive s p n bought :
  fair_price s p (mkCoin IrisAtto n) bought → 0 ≤ n → 0 < amount bought → 0 < n.
Proof. unfold fair_price. cbn [denom amount]. intros (?&?&?) ??. nia. Qed.

(** C40. An order between two other tokens sent to somebody else: the native token
    bought by the first trade goes to the recipient, who keeps it, and the second
    trade takes the same amount from the sender, who must own it.  The sender
    pays the native amount on top of the coin sold. *)
Theorem double_swap_charges_sender (msg : MsgSwapOrder) s s' (a : Int)
    (Hs : wf s) (Hfee : fee_ok (Fee (sparams s)))
    (Hv : MsgSwapOrder_ValidateBasic msg = Ok tt)
    (Hi : denom (p_Coin (sw_Input msg)) ≠ IrisAtto) (Ho : denom (p_Coin (sw_Output msg)) ≠ IrisAtto)
    (Hrun : HandleSwap msg s = (Ok a, s')) :
  let sender := p_Address (sw_Input msg) in
  let recipient := payee sender (p_Address (sw_Output msg)) in
  (∀ d id, GetUniId IrisAtto d = Ok id → pool id ≠ sender ∧ pool id ≠ recipient) →
  sender ≠ recipient →
  ∃ n, 0 < n ≤ bal (sbank s) sender IrisAtto ∧
    bal (sbank s') sender IrisAtto = bal (sbank s) sender IrisAtto - n ∧
    bal (sbank s') recipient IrisAtto = bal (sbank s) recipient IrisAtto + n ∧
    bal (sbank s') sender (denom (p_Coin (sw_Input msg))) =
      bal (sbank s) sender (denom (p_Coin (sw_Input msg))) - amount (order_sold msg a) ∧
    bal (sbank s') recipient (denom (p_Coin (sw_Output msg))) =
      bal (sbank s) recipient (denom (p_Coin (sw_Output msg))) + amount (order_bought msg a).
Proof.
  intros sender recipient Hpools Hsr. pose proof (ValidateBasic_order _ Hv) as [_ Hout _ _ Hne].
  destruct (double_order msg s s' a Hs Hfee (ValidateBasic_order _ Hv) Hrun Hi Ho) as (_&Hlim&s1&idA&idB&n&HA&HB&_&HfB).
  cbn zeta in *. fold sender in HA, HB.
  assert (Hsd : denom (order_sold msg a) = denom (p_Coin (sw_Input msg))) by (unfold order_sold; by case_match).
  assert (Hbd : denom (order_bought msg a) = denom (p_Coin (sw_Output msg))) by (unfold order_bought; by case_match).
  pose proof (tr_sold _ _ _ _ _ _ _ HB) as [Hn0 Hn]. cbn [amount denom] in Hn0, Hn.
  assert (Hpos : 0 < n) by (destruct HfB as [HfB|HfB]; eapply fair_price_positive; eauto; lia).
  pose proof (tr_id _ _ _ _ _ _ _ HA) as EA. rewrite GetUniId_comm in EA.
  destruct (Hpools _ _ EA) as [HsA HrA]. destruct (Hpools _ _ (tr_id _ _ _ _ _ _ _ HB)) as [HsB HrB].
  assert (Hb : ∀ x d, bal (sbank s') x d = bal (sbank s) x d
    + moved sender (pool idA) (order_sold msg a) x d + moved (pool idA) recipient (mkCoin IrisAtto n) x d
    + moved sender (pool idB) (mkCoin IrisAtto n) x d + moved (pool idB) recipient (order_bought msg a) x d).
  { intros x d. rewrite (tr_bal _ _ _ _ _ _ _ HB), (tr_bal _ _ _ _ _ _ _ HA). unfold recipient. lia. }
  rewrite (tr_bal _ _ _ _ _ _ _ HA) in Hn. fold recipient in Hn.
  exists n. rewrite !Hb. clear Hb. moved_simpl. split_and!; lia.
Qed.
End trades.

(** ** The theorems at a concrete exchange *)
Module SwapExample.
Import CoinswapExample.

Lemma swap_keeps_products_witness :
  product swap0 (getReservePoolAddr "uni:btc") "btc-min" ≤
  product sell' (getReservePoolAddr "uni:btc") "btc-min".
Proof.
  refine (swap_keeps_products sell swap0 sell' 1368 "btc-min" "uni:btc" swap0_wf DefaultParams_ok _ _ _ _ _ _).
  - vm_compute. reflexivity.
  - unfold sell'. run_vm.
  - vm_compute. reflexivity.
  - vm_compute. reflexivity.
  - discriminate.
  - intros id' E. exact E.
Defined.

Lemma swap_single_exact_witness :
  let sold := order_sold sell 1368 in
  let bought := order_bought sell 1368 in
  ∃ id, GetUniId (denom sold) (denom bought) = Ok id ∧
    ∀ x d, bal (sbank sell') x d = bal (sbank swap0) x d
      + moved (p_Address (sw_Input sell)) (getReservePoolAddr id) sold x d
      + moved (getReservePoolAddr id) (payee (p_Address (sw_Input sell)) (p_Address (sw_Output sell))) bought x d.
Proof.
  refine (match swap_single_exact sell swap0 sell' 1368 swap0_wf DefaultParams_ok _ _ _ with
          | conj _ (conj _ (ex_intro _ id (conj Hid (conj _ Hb)))) => ex_intro _ id (conj Hid Hb) end).
  - vm_compute. reflexivity.
  - right. reflexivity.
  - unfold sell'. run_vm.
Defined.

Lemma double_swap_charges_sender_witness :
  let sender := p_Address (sw_Input buy2) in
  let recipient := payee sender (p_Address (sw_Output buy2)) in
  ∃ n, 0 < n ≤ bal (sbank swap0) sender IrisAtto ∧
    bal (sbank buy2') sender IrisAtto = bal (sbank swap0) sender IrisAtto - n ∧
    bal (sbank buy2') recipient IrisAtto = bal (sbank swap0) recipient IrisAtto + n ∧
    bal (sbank buy2') sender (denom (p_Coin (sw_Input buy2))) =
      bal (sbank swap0) sender (denom (p_Coin (sw_Input buy2))) - amount (order_sold buy2 743) ∧
    bal (sbank buy2') recipient (denom (p_Coin (sw_Output buy2))) =
      bal (sbank swap0) recipient (denom (p_Coin (sw_Output buy2))) + amount (order_bought buy2 743).
Proof.
  refine (double_swap_charges_sender buy2 swap0 buy2' 743 swap0_wf DefaultParams_ok _ _ _ _ _ _).
  - vm_compute. reflexivity.
  - discriminate.
  - discriminate.
  - unfold buy2'. run_vm.
  - intros d id Hid. unfold GetUniId in Hid. repeat case_match; try discriminate Hid;
      injection Hid as Hid; rewrite <-Hid; split; discriminate.
  - discriminate.
Defined.
End SwapExample.
