(* ===== verification/CoinswapLiquidity.v ===== *)
(** * Coinswap: adding and removing liquidity *)

From S2P Require Import Prelude SdkErrors IntType GoStrings Denom Coin CoinFacts Rat Auth BankFrame Coinswap CoinswapFacts.
#[local] Open Scope Z_scope.

Lemma NewCoins_pair c1 c2 l :
  NewCoins [c1; c2] = Ok l → ∀ d, amt l d = coin_amt c1 d + coin_amt c2 d.
Proof. intros (_&_&_&Hl)%NewCoins_ok d. rewrite Hl. simpl. unfold coin_amt. lia. Qed.

(** The terms of a deposit, given the reserves and the issued liquidity. *)
Lemma liquidity_terms_ok msg R T L mint dep :
  0 ≤ R → 0 ≤ T → 0 ≤ L → 0 < al_ExactIrisAmt msg → 0 < amount (al_MaxToken msg) →
  liquidity_terms msg R T L = Ok (mint, dep) →
  let X := al_ExactIrisAmt msg in
  denom dep = denom (al_MaxToken msg) ∧ 0 ≤ mint ∧ 0 < amount dep ≤ amount (al_MaxToken msg) ∧
  (L = 0 → mint = X ∧ amount dep = amount (al_MaxToken msg)) ∧
  (L ≠ 0 → al_MinLiquidity msg ≤ mint ∧ mint * R ≤ L * X ∧ mint * T ≤ L * amount dep).
Proof.
  intros HR HT HL HE HM Hok X. unfold liquidity_terms in Hok. rewrite Int_IsZero_eqb in Hok.
  destruct (Z.eqb_spec L 0) as [->|HL0].
  - inv_ok Hok. apply NewCoin_ok in E as [-> _]. simplify_eq. simpl. split_and!; (done || lia).
  - inv_ok Hok. apply Int_Mul_exact in E as [-> _].
    assert (HR0 : 0 < R) by (unfold Int_Div in E0; destruct (Z.eqb_spec (Z.sgn R) 0); [done|lia]).
    apply Int_Div_pos in E0; [|done]. destruct (Int_LT a0 _) eqn:Hmin; [done|]. inv_ok Hok.
    apply Int_Mul_exact in E as [-> _]. apply Int_Div_pos in E1; [|done].
    apply Int_Add_ok in E2 as [-> _]. apply NewCoin_ok in E3 as [-> _].
    destruct (Int_GT _ _) eqn:Hmax; [done|]. simplify_eq. simpl.
    unfold Int_LT, Int_GT, NewInt in *. zbool. subst X. set (X := al_ExactIrisAmt msg) in *.
    pose proof (Z.mul_div_le (L * X) R HR0) as Hm. pose proof (Z.mul_succ_div_gt (T * X) R HR0) as Ht.
    pose proof (Z.div_pos (L * X) R ltac:(nia) HR0) as Hm0. pose proof (Z.div_pos (T * X) R ltac:(nia) HR0) as Ht0.
    set (m := L * X / R) in *. set (q := T * X / R) in *. clearbody m q.
    split_and!; try done; try lia. intros _. split_and!; [done|lia|].
    apply (Zmult_le_reg_r _ _ R); [lia|].
    trans (L * X * T); [replace (m * T * R) with (R * m * T) by lia; apply Z.mul_le_mono_nonneg_r; lia|].
    replace (L * X * T) with (L * (T * X)) by lia. rewrite <-Z.mul_assoc. apply Z.mul_le_mono_nonneg_l; lia.
Qed.

Section liquidity.
Context {S : Type} `{BankLaws S} `{Crypto}.
Implicit Types (s : SwapState S).
Abbreviation wf s := (bk_wf (sbank s)).
Abbreviation pool := getReservePoolAddr.
Abbreviation B s := (bal (sbank s)).

(** Coins credited to one account. *)
Definition credited (t : AccAddress) (c : Coin) (x : AccAddress) (d : string) : Z :=
  if decide (x = t) then coin_amt c d else 0.

Lemma swap_add_ok a c l s u s' :
  wf s → NewCoins [c] = Ok l → ignore_err (swap_bank (bk_AddCoins a l)) s = (Ok u, s') →
  wf s' ∧ sparams s' = sparams s ∧ ∀ x d, B s' x d = B s x d + credited a c x d.
Proof.
  intros Hs [Hl _]%NewCoins_single Hrun. unfold ignore_err, swap_bank, zoom in Hrun.
  destruct (bk_AddCoins a l (sbank s)) as [[r|e|w] b] eqn:Hadd; simplify_eq; [|by apply law_add_no_err in Hadd].
  destruct (law_add _ _ _ _ _ Hs Hadd) as [Hw Hb]. split_and!; [done|done|].
  intros x d. simpl. rewrite Hb, Hl. done.
Qed.

Lemma swap_sub_ok a c l s u s' :
  wf s → NewCoins [c] = Ok l → swap_bank (bk_SubtractCoins a l) s = (Ok u, s') →
  wf s' ∧ sparams s' = sparams s ∧ amount c ≤ B s a (denom c) ∧
  ∀ x d, B s' x d = B s x d - credited a c x d.
Proof.
  intros Hs [Hl _]%NewCoins_single (b&Hrun&->)%swap_bank_ok.
  destruct (law_subtract _ _ _ _ _ Hs Hrun) as (Hw&Hle&Hb). split_and!; [done|done| |].
  - specialize (Hle (denom c)). rewrite Hl in Hle. unfold coin_amt in Hle. by rewrite decide_True in Hle.
  - intros x d. simpl. rewrite Hb, Hl. done.
Qed.

Lemma swap_send_pair_ok f t c1 c2 l s u s' :
  wf s → NewCoins [c1; c2] = Ok l → swap_bank (bk_SendCoins f t l) s = (Ok u, s') →
  wf s' ∧ sparams s' = sparams s ∧
  ∀ x d, B s' x d = B s x d + moved f t c1 x d + moved f t c2 x d.
Proof.
  intros Hs Hnew (b&Hrun&->)%swap_bank_ok. pose proof (NewCoins_pair _ _ _ Hnew) as Hl. destruct u.
  destruct (law_send _ _ _ _ _ Hs Hrun) as (_&Hw&_&Hb). split_and!; [done|done|].
  intros x d. simpl. rewrite Hb, Hl. unfold moved. repeat case_decide; lia.
Qed.

(** *** Deposits *)
Definition deposit_effect s s' (sender : AccAddress) (id ud : string) (iris token : Coin) (mint : Z) : Prop :=
  ∀ x d, B s' x d = B s x d + moved sender (pool id) iris x d + moved sender (pool id) token x d
                  + credited (pool id) (mkCoin ud mint) x d + credited sender (mkCoin ud mint) x d.

Lemma addLiquidity_ok sender iris token id mint s u s' :
  wf s → addLiquidity sender iris token id mint s = (Ok u, s') →
  ∃ ud, GetUniDenom id = Ok ud ∧ wf s' ∧ sparams s' = sparams s ∧
        deposit_effect s s' sender id ud iris token mint.
Proof.
  intros Hs Hrun. unfold addLiquidity in Hrun. inv_ok Hrun.
  destruct (swap_send_pair_ok _ _ _ _ _ _ _ _ Hs E E0) as (Hw1&Hp1&Hb1).
  apply NewCoin_ok in E2 as [-> _].
  destruct (swap_add_ok _ _ _ _ _ _ Hw1 E3 E4) as (Hw2&Hp2&Hb2).
  destruct (swap_add_ok _ _ _ _ _ _ Hw2 E3 Hrun) as (Hw3&Hp3&Hb3).
  exists a1. split_and!; [done|done|congruence|]. intros x d. by rewrite Hb3, Hb2, Hb1.
Qed.

Lemma HandleAddLiquidity_ok msg s u s' :
  wf s → HandleAddLiquidity msg s = (Ok u, s') →
  ∃ id ud mint dep, let d := denom (al_MaxToken msg) in
    GetUniId IrisAtto d = Ok id ∧ GetUniDenom id = Ok ud ∧ wf s' ∧ sparams s' = sparams s ∧
    liquidity_terms msg (B s (pool id) IrisAtto) (B s (pool id) d) (B s (pool id) ud) = Ok (mint, dep) ∧
    deposit_effect s s' (al_Sender msg) id ud (mkCoin IrisAtto (al_ExactIrisAmt msg)) dep mint.
Proof.
  intros Hs Hrun. unfold HandleAddLiquidity in Hrun. inv_ok Hrun.
  apply GetReservePool_ok in E1 as [-> ->]. destruct a3 as [mint dep]. inv_ok Hrun.
  apply NewCoin_ok in E2 as [-> _]. rewrite !AmountOf_bal in E3 by done.
  destruct (addLiquidity_ok _ _ _ _ _ _ _ _ Hs Hrun) as (ud&Hud&Hw&Hp&Hb).
  rewrite E0 in Hud. injection Hud as <-. exists a, a0, mint, dep. done.
Qed.

Record valid_add (msg : MsgAddLiquidity) : Prop := {
  va_token : 0 < amount (al_MaxToken msg);
  va_iris : 0 < al_ExactIrisAmt msg;
  va_denom : IsCoinMinDenomValid (denom (al_MaxToken msg)) = true;
  va_ne : denom (al_MaxToken msg) ≠ IrisAtto }.

Lemma ValidateBasic_add msg : MsgAddLiquidity_ValidateBasic msg = Ok tt → valid_add msg.
Proof.
  unfold MsgAddLiquidity_ValidateBasic, Coin_IsPositive. intros Hv.
  repeat match type of Hv with (if ?b then _ else _) = _ => destruct b eqn:?; [discriminate Hv|] end.
  zbool. rewrite ?Coin_IsValid_iff, ?Int_IsPositive_iff in *. destruct_and?. by split.
Qed.

(** Everything a deposit does to the pool and to the sender. *)
Lemma deposit_spec msg s u s' :
  wf s → valid_add msg → HandleAddLiquidity msg s = (Ok u, s') →
  ∃ id ud mint dep, let d := denom (al_MaxToken msg) in let p := pool id in let f := al_Sender msg in
    let X := al_ExactIrisAmt msg in
    GetUniId IrisAtto d = Ok id ∧ GetUniDenom id = Ok ud ∧ wf s' ∧ sparams s' = sparams s ∧
    0 ≤ mint ∧ 0 < dep ≤ amount (al_MaxToken msg) ∧
    (B s p ud = 0 → mint = X ∧ dep = amount (al_MaxToken msg)) ∧
    (B s p ud ≠ 0 → al_MinLiquidity msg ≤ mint ∧ mint * B s p IrisAtto ≤ B s p ud * X ∧
                    mint * B s p d ≤ B s p ud * dep) ∧
    (f ≠ p →
       B s' p IrisAtto = B s p IrisAtto + X ∧ B s' p d = B s p d + dep ∧ B s' p ud = B s p ud + mint ∧
       B s' f IrisAtto = B s f IrisAtto - X ∧ B s' f d = B s f d - dep ∧ B s' f ud = B s f ud + mint).
Proof.
  intros Hs [HM HX Hd Hne] Hrun.
  destruct (HandleAddLiquidity_ok _ _ _ _ Hs Hrun) as (id&ud&mint&dep&Hid&Hud&Hw&Hp&Hterms&Hb). cbn zeta in *.
  destruct (uni_ids _ _ _ Hd Hid Hud) as (_&_&_&Hud1&Hud2).
  apply liquidity_terms_ok in Hterms as (Hdd&Hm&Hdep&Hfirst&Hnext); try done; try by apply bal_nonneg.
  exists id, ud, mint, (amount dep). cbn zeta. split_and!; try done; try lia.
  intros Hf. rewrite !Hb. moved_simpl. unfold credited, coin_amt. cbn [denom amount].
  repeat case_decide; try congruence; split_and!; lia.
Qed.

(** *** Withdrawals *)
Lemma removeLiquidity_ok p sender uni iris token s u s' :
  wf s → removeLiquidity p sender uni iris token s = (Ok u, s') →
  wf s' ∧ sparams s' = sparams s ∧
  ∀ x d, B s' x d = B s x d - credited p uni x d - credited sender uni x d
                  + moved p sender iris x d + moved p sender token x d.
Proof.
  intros Hs Hrun. unfold removeLiquidity in Hrun. inv_ok Hrun.
  destruct (swap_sub_ok _ _ _ _ _ _ Hs E E0) as (Hw1&Hp1&_&Hb1).
  destruct (swap_sub_ok _ _ _ _ _ _ Hw1 E E1) as (Hw2&Hp2&_&Hb2).
  destruct (swap_send_pair_ok _ _ _ _ _ _ _ _ Hw2 E2 Hrun) as (Hw3&Hp3&Hb3).
  split_and!; [done|congruence|]. intros x d. by rewrite Hb3, Hb2, Hb1.
Qed.

Lemma uni_denom_token ud d :
  GetCoinMinDenomFromUniDenom ud = Ok d →
  IsCoinMinDenomValid ud = true ∧ ud ≠ d ∧ ud ≠ IrisAtto ∧ d ≠ IrisAtto.
Proof.
  unfold GetCoinMinDenomFromUniDenom, CheckUniDenom. intros Hok. inv_ok Hok.
  destruct (IsCoinMinDenomValid ud) eqn:Hv; [|done]. destruct (HasPrefix ud _) eqn:Hpre; [|done].
  apply HasPrefix_iff in Hpre as [t ->]. rewrite TrimPrefix_app in Hok. simplify_eq. split_and!; try done.
  - intros Elen%(f_equal (λ x, length (chars x))). rewrite chars_app, length_app in Elen. simpl in Elen. lia.
  - intros ->. by vm_compute in Hv.
Qed.

Lemma withdraw_spec msg s u s' :
  wf s → 0 < amount (rl_WithdrawLiquidity msg) → HandleRemoveLiquidity msg s = (Ok u, s') →
  ∃ id d, let ud := denom (rl_WithdrawLiquidity msg) in let w := amount (rl_WithdrawLiquidity msg) in
    let p := pool id in let f := rl_Sender msg in
    let iris := w * B s p IrisAtto / B s p ud in let token := w * B s p d / B s p ud in
    GetCoinNameByDenom ud = Some id ∧ GetCoinMinDenomFromUniDenom ud = Ok d ∧
    wf s' ∧ sparams s' = sparams s ∧ w ≤ B s p ud ∧
    rl_MinIrisAmt msg ≤ iris ∧ rl_MinToken msg ≤ token ∧
    (f ≠ p →
       B s' p IrisAtto = B s p IrisAtto - iris ∧ B s' p d = B s p d - token ∧ B s' p ud = B s p ud - w ∧
       B s' f IrisAtto = B s f IrisAtto + iris ∧ B s' f d = B s f d + token ∧ B s' f ud = B s f ud - w).
Proof.
  intros Hs Hpos Hrun. unfold HandleRemoveLiquidity in Hrun. inv_ok Hrun.
  apply GetReservePool_ok in E1 as [-> ->]. rewrite !AmountOf_bal in * by done.
  destruct (GetCoinNameByDenom _) as [id|] eqn:Hname; [|done]. simplify_eq.
  repeat match goal with
  | H : Int_Mul _ _ = Ok _ |- _ => apply Int_Mul_exact in H as [-> _]
  | H : NewCoin _ _ = Ok _ |- _ => apply NewCoin_ok in H as [-> _]
  end. cbn [amount] in *. unfold Int_LT in *. zbool.
  repeat match goal with H : Int_Div _ _ = Ok _ |- _ => apply Int_Div_pos in H; [subst|lia] end.
  destruct (uni_denom_token _ _ E0) as (_&Hud1&Hud2&Hd).
  destruct (removeLiquidity_ok _ _ _ _ _ _ _ _ Hs Hrun) as (Hw&Hp&Hb).
  eexists _, _. cbn zeta. split_and!; try done.
  intros Hf. rewrite !Hb. moved_simpl. unfold credited, coin_amt. cbn [denom amount].
  repeat case_decide; try congruence; split_and!; lia.
Qed.

(** *** The value of a liquidity token

    The reserves behind one liquidity token do not fall from [s] to [s']. *)
Definition backing_kept s s' (p : AccAddress) (ud d : string) : Prop :=
  B s p IrisAtto * B s' p ud ≤ B s' p IrisAtto * B s p ud ∧
  B s p d * B s' p ud ≤ B s' p d * B s p ud.

(** C29. A deposit takes exactly the native amount and at most the token amount of the
    message, and issues the same liquidity to the sender and to the pool's own
    count.  When the pool has liquidity, the sender receives at least the minimum
    asked and the existing holders are not diluted.  The first deposit issues the
    native amount whatever the minimum is. *)
Theorem add_liquidity_no_dilution (msg : MsgAddLiquidity) s u s'
    (Hs : wf s) (Hv : MsgAddLiquidity_ValidateBasic msg = Ok tt)
    (Hrun : HandleAddLiquidity msg s = (Ok u, s')) :
  ∃ id ud mint dep, let d := denom (al_MaxToken msg) in let p := pool id in let f := al_Sender msg in
    GetUniId IrisAtto d = Ok id ∧ GetUniDenom id = Ok ud ∧ 0 < dep ≤ amount (al_MaxToken msg) ∧
    (B s p ud = 0 → mint = al_ExactIrisAmt msg) ∧ (B s p ud ≠ 0 → al_MinLiquidity msg ≤ mint) ∧
    (f ≠ p →
       B s' f IrisAtto = B s f IrisAtto - al_ExactIrisAmt msg ∧ B s' f d = B s f d - dep ∧
       B s' f ud = B s f ud + mint ∧ B s' p ud = B s p ud + mint ∧
       (B s p ud ≠ 0 → backing_kept s s' p ud d)).
Proof.
  destruct (deposit_spec _ _ _ _ Hs (ValidateBasic_add _ Hv) Hrun)
    as (id&ud&mint&dep&Hid&Hud&_&_&Hm&Hdep&Hfirst&Hnext&Hb). cbn zeta in *.
  exists id, ud, mint, dep. split_and!; [done|done|lia|lia|naive_solver|naive_solver|].
  intros Hf. destruct (Hb Hf) as (Ei&Ed&Eu&Fi&Fd&Fu). split_and!; try done.
  intros (_&Hi&Ht)%Hnext. unfold backing_kept. rewrite Ei, Ed, Eu. lia.
Qed.

Lemma floor_share w r l : 0 ≤ w → 0 < l → r * (l - w) ≤ (r - w * r / l) * l.
Proof. intros. pose proof (Z.mul_div_le (w * r) l). nia. Qed.

(** A withdrawal burns the liquidity of the sender and of the pool's count, pays
    out the share of both reserves rounded down, at least the minima asked, and
    leaves the remaining holders' backing intact. *)
Theorem remove_liquidity_no_dilution (msg : MsgRemoveLiquidity) s u s'
    (Hs : wf s) (Hv : MsgRemoveLiquidity_ValidateBasic msg = Ok tt)
    (Hrun : HandleRemoveLiquidity msg s = (Ok u, s')) :
  ∃ id d, let ud := denom (rl_WithdrawLiquidity msg) in let w := amount (rl_WithdrawLiquidity msg) in
    let p := pool id in let f := rl_Sender msg in
    GetCoinNameByDenom ud = Some id ∧ GetCoinMinDenomFromUniDenom ud = Ok d ∧ 0 < w ≤ B s p ud ∧
    (f ≠ p →
       B s' f ud = B s f ud - w ∧ B s' p ud = B s p ud - w ∧
       B s' f IrisAtto = B s f IrisAtto + w * B s p IrisAtto / B s p ud ∧
       B s' f d = B s f d + w * B s p d / B s p ud ∧
       rl_MinIrisAmt msg ≤ B s' f IrisAtto - B s f IrisAtto ∧ rl_MinToken msg ≤ B s' f d - B s f d ∧
       backing_kept s s' p ud d).
Proof.
  assert (Hpos : 0 < amount (rl_WithdrawLiquidity msg)).
  { unfold MsgRemoveLiquidity_ValidateBasic, Coin_IsPositive in Hv. case_match; [done|].
    case_match eqn:Hc; [done|]. zbool. by apply Int_IsPositive_iff. }
  destruct (withdraw_spec _ _ _ _ Hs Hpos Hrun) as (id&d&Hid&Hd&_&_&Hw&Hmi&Hmt&Hb). cbn zeta in *.
  exists id, d. split_and!; try done. intros Hf. destruct (Hb Hf) as (Ei&Ed&Eu&Fi&Fd&Fu).
  split_and!; try done; try lia. unfold backing_kept. rewrite Ei, Ed, Eu.
  split; apply floor_share; lia.
Qed.

Lemma redeem_le m r l e : m * r ≤ l * e → 0 ≤ m → 0 < l → m * (r + e) / (l + m) ≤ e.
Proof. intros. apply Z.div_le_upper_bound; lia. Qed.

(** What a deposit buys cannot be redeemed at once for more of either coin. *)
Theorem add_remove_no_profit (add : MsgAddLiquidity) (rem : MsgRemoveLiquidity) s u s1 u' s2 (id ud : string)
    (Hs : wf s) (Hv : MsgAddLiquidity_ValidateBasic add = Ok tt)
    (Hid : GetUniId IrisAtto (denom (al_MaxToken add)) = Ok id) (Hud : GetUniDenom id = Ok ud)
    (Hadd : HandleAddLiquidity add s = (Ok u, s1)) (Hrem : HandleRemoveLiquidity rem s1 = (Ok u', s2))
    (Hsender : rl_Sender rem = al_Sender add) (Hpool : al_Sender add ≠ pool id)
    (Hliq : B s (pool id) ud ≠ 0)
    (Hpos : 0 < amount (rl_WithdrawLiquidity rem)) (Hden : denom (rl_WithdrawLiquidity rem) = ud)
    (Hmint : amount (rl_WithdrawLiquidity rem) = B s1 (al_Sender add) ud - B s (al_Sender add) ud) :
  B s2 (al_Sender add) IrisAtto ≤ B s (al_Sender add) IrisAtto ∧
  B s2 (al_Sender add) (denom (al_MaxToken add)) ≤ B s (al_Sender add) (denom (al_MaxToken add)).
Proof.
  pose proof (ValidateBasic_add _ Hv) as Hva.
  destruct (deposit_spec _ _ _ _ Hs Hva Hadd) as (id'&ud'&mint&dep&Hid'&Hud'&Hw1&_&Hm&Hdep&_&Hnext&Hb1).
  cbn zeta in *. rewrite Hid in Hid'. injection Hid' as <-. rewrite Hud in Hud'. injection Hud' as <-.
  destruct (withdraw_spec _ _ _ _ Hw1 Hpos Hrem) as (id'&d'&Hid'&Hd'&_&_&_&_&_&Hb2). cbn zeta in *.
  rewrite Hden in *. destruct (uni_ids _ _ _ (va_denom _ Hva) Hid Hud) as (Ed&Eid&_).
  rewrite Eid in Hid'. injection Hid' as <-. rewrite Ed in Hd'. injection Hd' as <-.
  destruct (Hnext Hliq) as (_&Hi&Ht). destruct (Hb1 Hpool) as (Ei&Et&Eu&Fi&Ft&Fu).
  rewrite Hsender in *. destruct (Hb2 Hpool) as (_&_&_&Gi&Gt&_).
  assert (Ew : amount (rl_WithdrawLiquidity rem) = mint) by lia. rewrite Ew in *.
  pose proof (bal_nonneg (sbank s) (pool id) ud Hs).
  rewrite Gi, Gt, Fi, Ft, Ei, Et, Eu.
  pose proof (redeem_le _ _ _ _ Hi Hm ltac:(lia)). pose proof (redeem_le _ _ _ _ Ht Hm ltac:(lia)). lia.
Qed.
End liquidity.

(** ** The theorems at a concrete exchange *)
Module LiquidityExample.
Import CoinswapExample.

Lemma add_liquidity_no_dilution_witness :
  ∃ id ud mint dep, let d := denom (al_MaxToken add) in let p := getReservePoolAddr id in let f := al_Sender add in
    GetUniId IrisAtto d = Ok id ∧ GetUniDenom id = Ok ud ∧ 0 < dep ≤ amount (al_MaxToken add) ∧
    (bal (sbank swap0) p ud = 0 → mint = al_ExactIrisAmt add) ∧
    (bal (sbank swap0) p ud ≠ 0 → al_MinLiquidity add ≤ mint) ∧
    (f ≠ p →
       bal (sbank add') f IrisAtto = bal (sbank swap0) f IrisAtto - al_ExactIrisAmt add ∧
       bal (sbank add') f d = bal (sbank swap0) f d - dep ∧
       bal (sbank add') f ud = bal (sbank swap0) f ud + mint ∧
       bal (sbank add') p ud = bal (sbank swap0) p ud + mint ∧
       (bal (sbank swap0) p ud ≠ 0 → backing_kept swap0 add' p ud d)).
Proof.
  refine (add_liquidity_no_dilution add swap0 tt add' swap0_wf _ _).
  - vm_compute. reflexivity.
  - unfold add'. run_vm.
Defined.

Lemma add'_wf : bk_wf (sbank add').
Proof.
  assert (Hrun : HandleAddLiquidity add swap0 = (Ok tt, add')) by (unfold add'; run_vm).
  by destruct (HandleAddLiquidity_ok _ _ _ _ swap0_wf Hrun) as (?&?&?&?&_&_&Hw&_).
Qed.

Lemma remove_liquidity_no_dilution_witness :
  ∃ id d, let ud := denom (rl_WithdrawLiquidity rem) in let w := amount (rl_WithdrawLiquidity rem) in
    let p := getReservePoolAddr id in let f := rl_Sender rem in
    GetCoinNameByDenom ud = Some id ∧ GetCoinMinDenomFromUniDenom ud = Ok d ∧ 0 < w ≤ bal (sbank add') p ud ∧
    (f ≠ p →
       bal (sbank rem') f ud = bal (sbank add') f ud - w ∧ bal (sbank rem') p ud = bal (sbank add') p ud - w ∧
       bal (sbank rem') f IrisAtto = bal (sbank add') f IrisAtto
         + w * bal (sbank add') p IrisAtto / bal (sbank add') p ud ∧
       bal (sbank rem') f d = bal (sbank add') f d + w * bal (sbank add') p d / bal (sbank add') p ud ∧
       rl_MinIrisAmt rem ≤ bal (sbank rem') f IrisAtto - bal (sbank add') f IrisAtto ∧
       rl_MinToken rem ≤ bal (sbank rem') f d - bal (sbank add') f d ∧
       backing_kept add' rem' p ud d).
Proof.
  refine (remove_liquidity_no_dilution rem add' tt rem' add'_wf _ _).
  - vm_compute. reflexivity.
  - unfold rem'. run_vm.
Defined.

Lemma add_remove_no_profit_witness :
  bal (sbank rem') (al_Sender add) IrisAtto ≤ bal (sbank swap0) (al_Sender add) IrisAtto ∧
  bal (sbank rem') (al_Sender add) (denom (al_MaxToken add)) ≤
  bal (sbank swap0) (al_Sender add) (denom (al_MaxToken add)).
Proof.
  refine (add_remove_no_profit add rem swap0 tt add' tt rem' "uni:btc" "uni:btc-min"
            swap0_wf _ _ _ _ _ _ _ _ _ _ _).
  - vm_compute. reflexivity.
  - vm_compute. reflexivity.
  - vm_compute. reflexivity.
  - unfold add'. run_vm.
  - unfold rem'. run_vm.
  - reflexivity.
  - discriminate.
  - vm_compute. discriminate.
  - reflexivity.
  - reflexivity.
  - vm_compute. reflexivity.
Defined.
End LiquidityExample.
