(* ===== verification/ModuleFrames.v ===== *)
(** * The frames of HTLC and coinswap

    Both modules touch accounts only through the bank, so that whatever relation
    every transfer respects, and for coinswap also minting and destroying of
    liquidity tokens, is respected by their handlers.  Coins are taken only from
    the signers of a message and from the addresses the modules own. *)

From S2P Require Import Prelude SdkErrors Frame IntType GoStrings Denom Coin CoinFacts Dec Gas KVStore Auth StdTx Bank BankFacts BankThms BankFrame Htlc Rat Asset AssetKeeper AssetThms Coinswap CoinswapFacts.
#[local] Open Scope Z_scope.

(** The accounts the modules own: the locked coins of HTLC, and the reserve pool of
    every pool id. *)
Inductive module_account `{Crypto} : AccAddress → Prop :=
| ma_htlc : module_account HTLCLockedCoinsAccAddr
| ma_pool id : HasPrefix id FormatUniABSPrefix = true → module_account (getReservePoolAddr id).
Lemma GetUniId_prefix a b id : GetUniId a b = Ok id → HasPrefix id FormatUniABSPrefix = true.
Proof. unfold GetUniId. repeat case_match; intros; simplify_eq; apply HasPrefix_app. Qed.
Lemma prefix_of_min n : HasPrefix (n +:+ MinDenomSuffix) FormatUniABSPrefix = true → HasPrefix n FormatUniABSPrefix = true.
Proof.
  intros [r Hr]%HasPrefix_iff. destruct n as [|c1 [|c2 [|c3 [|c4 n]]]]; cbn in Hr; simplify_eq. apply HasPrefix_iff. by exists n.
Qed.
Lemma uni_name_prefix ud n t :
  GetCoinNameByDenom ud = Some n → GetCoinMinDenomFromUniDenom ud = Ok t → HasPrefix n FormatUniABSPrefix = true.
Proof.
  unfold GetCoinMinDenomFromUniDenom, CheckUniDenom. intros Hn Ht.
  destruct (IsCoinMinDenomValid ud) eqn:Hv; [|done]. destruct (HasPrefix ud FormatUniABSPrefix) eqn:Hp; [|done].
  destruct (min_denom_inv ud Hv) as [->|(m&->&Hm&Hi)]; [by vm_compute in Hp|].
  rewrite GetCoinNameByDenom_min in Hn by done. injection Hn as <-. by apply prefix_of_min.
Qed.

Section modules.
Context {S : Type} `{BankKeeper S} `{Crypto} (R : relation S) `{!PreOrder R}.
(** The accounts coins may be taken from: those of the modules at least. *)
Variable may : AccAddress → Prop.
Hypothesis may_module : ∀ x, module_account x → may x.
Hypothesis send_framed : ∀ from to c, may from → framed R (bk_SendCoins from to c).
Hypothesis add_framed : ∀ a c, amt c IrisAtto = 0 → framed R (bk_AddCoins a c).
Hypothesis add_no_err : ∀ a c, never_errs (bk_AddCoins a c).
Hypothesis sub_framed : ∀ a c, may a → amt c IrisAtto = 0 → framed R (bk_SubtractCoins a c).

(** ** HTLC *)
Definition htlc_rel (s s' : HtlcStore S) : Prop := R (hbank s) (hbank s').
#[local] Instance htlc_rel_po : PreOrder htlc_rel.
Proof. unfold htlc_rel. split; [by intros s|]. intros ???; by etrans. Qed.

Lemma send_amount_framed from to h : may from → framed htlc_rel (send_amount from to h).
Proof. intros Hm. unfold send_amount. framed. eapply framed_zoom; [|by apply send_framed]. done. Qed.
Lemma may_htlc : may HTLCLockedCoinsAccAddr.
Proof. apply may_module. constructor. Qed.
#[local] Hint Resolve send_amount_framed may_htlc : frame.

Lemma SetHTLC_framed h l : framed htlc_rel (SetHTLC h l).
Proof. apply framed_modify. intros s. unfold htlc_rel. reflexivity. Qed.
Lemma AddHTLCToExpireQueue_framed h l : framed htlc_rel (AddHTLCToExpireQueue h l).
Proof. apply framed_modify. intros s. unfold htlc_rel. reflexivity. Qed.
Lemma DeleteHTLCFromExpireQueue_framed h l : framed htlc_rel (DeleteHTLCFromExpireQueue h l).
Proof. apply framed_modify. intros s. unfold htlc_rel. reflexivity. Qed.
#[local] Hint Resolve SetHTLC_framed AddHTLCToExpireQueue_framed DeleteHTLCFromExpireQueue_framed : frame.

Lemma htlc_Handler_framed height msg :
  Forall may (HtlcMsg_GetSigners msg) → framed htlc_rel (htlc_Handler height msg).
Proof.
  destruct msg; simpl; intros Hm; rewrite ?Forall_singleton in Hm; unfold handleMsgCreateHTLC, handleMsgClaimHTLC, handleMsgRefundHTLC,
    CreateHTLC, ClaimHTLC, RefundHTLC, HasHashLock, GetHTLC; framed.
Qed.

Lemma htlc_BeginBlocker_framed height : framed htlc_rel (htlc_BeginBlocker height).
Proof. unfold htlc_BeginBlocker, expire_one. framed. Qed.

(** ** Coinswap *)
Definition swap_rel (s s' : SwapState S) : Prop := R (sbank s) (sbank s').
#[local] Instance swap_rel_po : PreOrder swap_rel.
Proof. unfold swap_rel. split; [by intros s|]. intros ???; by etrans. Qed.

Lemma swap_send_framed from to c : may from → framed swap_rel (swap_bank (bk_SendCoins from to c)).
Proof. intros Hm. eapply framed_zoom; [|by apply send_framed]. done. Qed.
Lemma may_pool a b id : GetUniId a b = Ok id → may (getReservePoolAddr id).
Proof. intros Hid. apply may_module. constructor. by eapply GetUniId_prefix. Qed.
Lemma may_named_pool ud id t :
  match GetCoinNameByDenom ud with None => Err ErrIllegalDenom | Some n => Ok n end = Ok id →
  GetCoinMinDenomFromUniDenom ud = Ok t → may (getReservePoolAddr id).
Proof.
  destruct (GetCoinNameByDenom ud) as [n|] eqn:Hn; intros [= <-] Ht. apply may_module. constructor. by eapply uni_name_prefix.
Qed.
#[local] Hint Resolve swap_send_framed may_pool may_named_pool : frame.

Lemma GetUniId_nz a b : err_nz (GetUniId a b).
Proof. unfold GetUniId. err_nz. Qed.
Lemma GetUniDenom_nz a : err_nz (GetUniDenom a).
Proof. unfold GetUniDenom, CheckUniId. err_nz. Qed.
#[local] Hint Resolve GetUniId_nz GetUniDenom_nz : frame.
Lemma getInputPrice_nz a b c f : err_nz (getInputPrice a b c f).
Proof. unfold getInputPrice, Rat_Num, Rat_Denom, NewIntFromBigInt. err_nz. Qed.
Lemma getOutputPrice_nz a b c f : err_nz (getOutputPrice a b c f).
Proof. unfold getOutputPrice, Rat_Num, Rat_Denom, NewIntFromBigInt. err_nz. Qed.
Lemma getTokenPairByDenom_nz a b : err_nz (getTokenPairByDenom a b).
Proof. unfold getTokenPairByDenom. err_nz. Qed.
Lemma liquidity_terms_nz m a b c : err_nz (liquidity_terms m a b c).
Proof. unfold liquidity_terms, Int_AddRaw. err_nz. Qed.
#[local] Hint Resolve getInputPrice_nz getOutputPrice_nz getTokenPairByDenom_nz liquidity_terms_nz : frame.

Lemma swapCoins_framed a b c d : may a → framed swap_rel (swapCoins a b c d).
Proof. intros Hm. unfold swapCoins. framed. Qed.
Lemma calculateWithExactInput_framed c d : framed swap_rel (calculateWithExactInput c d).
Proof. unfold calculateWithExactInput, GetReservePool. framed. Qed.
Lemma calculateWithExactOutput_framed c d : framed swap_rel (calculateWithExactOutput c d).
Proof. unfold calculateWithExactOutput, GetReservePool. framed. Qed.
#[local] Hint Resolve swapCoins_framed calculateWithExactInput_framed calculateWithExactOutput_framed : frame.

Lemma HandleSwap_framed m : may (p_Address (sw_Input m)) → framed swap_rel (HandleSwap m).
Proof.
  intros Hm. unfold HandleSwap, doubleTradeInputForExactOutput, tradeInputForExactOutput,
    doubleTradeExactInputForOutput, tradeExactInputForOutput. framed.
Qed.

(** Liquidity tokens are not the native token. *)
Lemma uni_not_iris d : HasPrefix d FormatUniABSPrefix = true → d ≠ IrisAtto.
Proof. intros Hp ->. by vm_compute in Hp. Qed.
Lemma GetUniDenom_not_iris uniId d : GetUniDenom uniId = Ok d → d ≠ IrisAtto.
Proof.
  unfold GetUniDenom, CheckUniId. destruct (IsCoinNameValid uniId) eqn:Hv; [|done].
  destruct (HasPrefix uniId FormatUniABSPrefix) eqn:Hp; [|done]. simpl. unfold GetCoinMinDenom.
  rewrite name_valid_trim, name_valid_lower by done.
  apply HasPrefix_iff in Hp as [n ->]. case_bool_decide as Hi; [done|]. intros [= <-].
  apply uni_not_iris. rewrite <-str_app_assoc. apply HasPrefix_app.
Qed.
Lemma NewCoins_not_iris c l : denom c ≠ IrisAtto → NewCoins [c] = Ok l → amt l IrisAtto = 0.
Proof. intros Hd [-> _]%NewCoins_single. unfold coin_amt. by rewrite decide_False. Qed.

Lemma minted_not_iris uniId d n c l :
  GetUniDenom uniId = Ok d → NewCoin d n = Ok c → NewCoins [c] = Ok l → amt l IrisAtto = 0.
Proof. intros Hd [-> _]%NewCoin_ok. apply NewCoins_not_iris. by eapply GetUniDenom_not_iris. Qed.

Lemma swap_mint_framed a c : amt c IrisAtto = 0 → framed swap_rel (ignore_err (swap_bank (bk_AddCoins a c))).
Proof.
  intros Hc. apply framed_ignore_no_err; [|apply never_errs_zoom, add_no_err].
  eapply framed_zoom; [|by apply add_framed]. done.
Qed.
Lemma swap_destroy_framed a c : may a → amt c IrisAtto = 0 → framed swap_rel (swap_bank (bk_SubtractCoins a c)).
Proof. intros Hm Hc. eapply framed_zoom; [|by apply sub_framed]. done. Qed.
#[local] Hint Resolve swap_mint_framed swap_destroy_framed minted_not_iris NewCoins_not_iris : frame.

Lemma addLiquidity_framed a b c u n : may a → framed swap_rel (addLiquidity a b c u n).
Proof. intros Hm. unfold addLiquidity. framed. Qed.
#[local] Hint Resolve addLiquidity_framed : frame.
Lemma HandleAddLiquidity_framed m : may (al_Sender m) → framed swap_rel (HandleAddLiquidity m).
Proof. intros Hm. unfold HandleAddLiquidity, GetReservePool. framed. Qed.

Lemma removeLiquidity_framed p a u i t :
  may p → may a → denom u ≠ IrisAtto → framed swap_rel (removeLiquidity p a u i t).
Proof. intros Hp Ha Hu. unfold removeLiquidity. framed. Qed.
Lemma GetCoinMinDenomFromUniDenom_nz d : err_nz (GetCoinMinDenomFromUniDenom d).
Proof. unfold GetCoinMinDenomFromUniDenom, CheckUniDenom. err_nz. Qed.
Lemma uni_denom_not_iris d t : GetCoinMinDenomFromUniDenom d = Ok t → d ≠ IrisAtto.
Proof.
  unfold GetCoinMinDenomFromUniDenom, CheckUniDenom. intros Ht. apply uni_not_iris.
  destruct (HasPrefix d _); [done|]. by rewrite orb_true_r in Ht.
Qed.
#[local] Hint Resolve removeLiquidity_framed GetCoinMinDenomFromUniDenom_nz uni_denom_not_iris : frame.
Lemma HandleRemoveLiquidity_framed m : may (rl_Sender m) → framed swap_rel (HandleRemoveLiquidity m).
Proof. intros Hm. unfold HandleRemoveLiquidity, GetReservePool. framed. Qed.

#[local] Hint Resolve HandleSwap_framed HandleAddLiquidity_framed HandleRemoveLiquidity_framed : frame.
Lemma swap_Handler_framed time msg :
  Forall may (SwapMsg_GetSigners msg) → framed swap_rel (swap_Handler time msg).
Proof. destruct msg; simpl; intros Hm; rewrite ?Forall_singleton in Hm; framed. Qed.
End modules.

(** * Whose coins a message takes

    Every operation of the bank and every message of the modules takes coins only
    from the signers and from the addresses the modules own; supplies are raised
    by the asset module alone. *)
Section debits.
Variable may : AccAddress → Prop.

Definition debits (s s' : AuthState) : Prop :=
  auth_wf s → auth_wf s' ∧ ∀ x d, ¬ may x → balance s x d ≤ balance s' x d.
#[export] Instance debits_po : PreOrder debits.
Proof.
  split; [intros s Hs; split; [done|lia]|]. intros s1 s2 s3 H1 H2 Hs. destruct (H1 Hs) as [W1 D1].
  destruct (H2 W1) as [W2 D2]. split; [done|]. intros x d Hx. specialize (D1 x d Hx). specialize (D2 x d Hx). lia.
Qed.
Lemma debits_same s s' : accounts s' = accounts s → debits s s'.
Proof.
  intros E [H1 H2 H3]. assert (Hc : ∀ x, coins_of s' x = coins_of s x) by (intros x; unfold coins_of; by rewrite E).
  split; [split; [rewrite E; done|intros a; rewrite Hc; apply H2|intros a; rewrite Hc; apply H3]|].
  intros x d _. unfold balance. rewrite Hc. lia.
Qed.

Lemma valid_nonneg c d : Coins_IsValid c = true → 0 ≤ amt c d.
Proof. intros (_&Hn&_)%Coins_IsValid_iff. by apply amt_nonneg. Qed.

Section bank.
Context `{Crypto}.

Lemma subtractCoins_debits a c : may a → framed debits (subtractCoins a c).
Proof.
  intros Ha. apply framed_intro; [|intros s e s' E; by eapply (framed_err any_rel), E; apply subtractCoins_any].
  intros s r s' Hr Hs. destruct (subtractCoins_ok _ _ _ _ _ Hs Hr) as (Hv&Hch&_). split; [by eapply ch_wf|].
  intros x d Hx. rewrite (ch_balance _ _ _ _ Hch). rewrite decide_False by (by intros ->). lia.
Qed.
Lemma addCoins_debits a c : framed debits (addCoins a c).
Proof.
  apply framed_intro; [|intros s e s' E; by apply addCoins_no_err in E].
  intros s r s' Hr Hs. destruct (addCoins_changes _ _ _ _ _ Hs Hr) as (Hv&Hch&_). split; [by eapply ch_wf|].
  intros x d Hx. rewrite (ch_balance _ _ _ _ Hch). pose proof (valid_nonneg _ d Hv). case_decide; lia.
Qed.
#[local] Hint Resolve subtractCoins_debits addCoins_debits : frame.
Lemma sendCoins_debits from to c : may from → framed debits (sendCoins from to c).
Proof. intros Hm. unfold sendCoins. framed. Qed.
Lemma consume_debits n d : framed debits (ctx_ConsumeGas n d).
Proof.
  apply framed_intro; [|intros s e s' E; by eapply (framed_err any_rel), E; apply consume_any].
  intros s u s' [g ->]%ctx_ConsumeGas_inv. by apply debits_same.
Qed.
#[local] Hint Resolve sendCoins_debits consume_debits : frame.
Lemma BurnCoins_debits a c : may a → framed debits (BurnCoins a c).
Proof. intros Hm. unfold BurnCoins. framed. Qed.

(** ** The messages of the bank *)
Lemma SetMemoRegexp_debits a r : framed debits (SetMemoRegexp a r).
Proof.
  apply framed_intro; [|intros s e s' E; eapply (framed_err bank_rel), E; apply SetMemoRegexp_framed].
  intros s u s' Hr Hs. split; [by eapply (framed_ok _ _ _ _ _ (SetMemoRegexp_framed a r) Hr)|].
  unfold SetMemoRegexp, GetAccount, SetAccount, bind, gets in Hr.
  destruct (accounts s !! a) as [acc|] eqn:Ea; [|done].
  unfold modify in Hr. injection Hr as <- <-. pose proof (wf_address _ Hs _ _ Ea) as Had.
  intros x d _. change (balance s x d ≤ balance (put_account (Account_SetMemoRegexp acc r) s) x d).
  unfold balance. rewrite put_account_coins. case_decide as E; [|lia]. simpl in *. rewrite E, Had, (coins_of_Some _ _ _ Ea). lia.
Qed.
Lemma bank_Handler_debits msg : Forall may (BankMsg_GetSigners msg) → framed debits (bank_Handler msg).
Proof.
  destruct msg as [m|m|m|]; simpl; intros Hm.
  - unfold handleMsgSend, inputOutputCoins. apply (framed_bind debits).
    + apply (framed_for_each_in debits). intros i Hi. framed. apply subtractCoins_debits.
      rewrite Forall_forall in Hm. apply Hm, list_elem_of_fmap. eauto.
    + intros ?. framed.
  - apply (proj1 (Forall_singleton may _)) in Hm. by apply BurnCoins_debits.
  - apply SetMemoRegexp_debits.
  - framed.
Qed.

(** ** The messages of the asset module *)
Section asset.
Import Asset AssetKeeper AssetFacts AssetThms.
Variable acc_String : AccAddress → string.
Variable fee_factor_text : Z → string.
Definition asset_debits (s s' : AssetState) : Prop := debits (as_auth s) (as_auth s').
#[local] Instance asset_debits_po : PreOrder asset_debits.
Proof. unfold asset_debits. split; [by intros s|]. intros ???; by etrans. Qed.

Lemma bank_of_debits {A} (c : M AuthState A) : framed debits c → framed asset_debits (bank_of c).
Proof. intros Hc. by eapply framed_zoom. Qed.
Lemma modify_debits f : (∀ s, as_auth (f s) = as_auth s) → framed asset_debits (modify f).
Proof. intros Hf. apply framed_modify. intros s. unfold asset_debits. rewrite Hf. reflexivity. Qed.
Lemma supply_debits f : framed debits (modify (set_totalSupply f)).
Proof. apply (framed_modify debits). intros s. by apply debits_same. Qed.
#[local] Hint Extern 3 (framed asset_debits (modify _)) => (apply modify_debits; done) : frame.
#[local] Hint Resolve bank_of_debits sendCoins_debits BurnCoins_debits addCoins_debits supply_debits : frame.
Lemma token_id_nz t : err_nz (token_id t).
Proof. unfold token_id, GetTokenID. err_nz. Qed.
#[local] Hint Resolve community_tax_nz token_id_nz : frame.

Lemma charge_debits get_fee owner : may owner → (∀ p, err_nz (get_fee p)) → framed asset_debits (charge get_fee owner).
Proof. intros Hm Hf. unfold charge, feeHandler, GetParamSet. framed. Qed.
Lemma issue_fee_debits o n : may o → framed asset_debits (TokenIssueFeeHandler fee_factor_text o n).
Proof. intros Hm. apply charge_debits; [done|]. intros p. apply fees_nz. Qed.
Lemma gateway_issue_fee_debits o n : may o → framed asset_debits (GatewayTokenIssueFeeHandler fee_factor_text o n).
Proof. intros Hm. apply charge_debits; [done|]. intros p. apply fees_nz. Qed.
Lemma gateway_fee_debits o n : may o → framed asset_debits (GatewayCreateFeeHandler fee_factor_text o n).
Proof. intros Hm. apply charge_debits; [done|]. intros p. apply fees_nz. Qed.
Lemma mint_fee_debits t o : may o → framed asset_debits (mint_fee fee_factor_text t o).
Proof.
  intros Hm. unfold mint_fee. case_match; [|framed| |framed]; (apply charge_debits; [done|intros p; apply fees_nz]).
Qed.
#[local] Hint Resolve issue_fee_debits gateway_issue_fee_debits gateway_fee_debits mint_fee_debits : frame.

Lemma IncreaseTotalSupply_debits c : framed debits (IncreaseTotalSupply c).
Proof. unfold IncreaseTotalSupply, GetTotalSupply, SetTotalSupply. framed. Qed.
#[local] Hint Resolve IncreaseTotalSupply_debits : frame.

Lemma GetGateway_debits m : framed asset_debits (GetGateway m).
Proof. unfold GetGateway. framed. Qed.
Lemma SetGateway_debits g : framed asset_debits (SetGateway g).
Proof. by apply modify_debits. Qed.
Lemma SetOwnerGateway_debits o m : framed asset_debits (SetOwnerGateway o m).
Proof. by apply modify_debits. Qed.
Lemma SetToken_debits t : framed asset_debits (SetToken t).
Proof. unfold SetToken. framed. Qed.
Lemma SetTokens_debits o t : framed asset_debits (SetTokens acc_String o t).
Proof. unfold SetTokens. framed. Qed.
Lemma GetTotalSupply_debits d : framed debits (GetTotalSupply d).
Proof. unfold GetTotalSupply. framed. Qed.
Lemma SetTotalSupply_debits c : framed debits (SetTotalSupply c).
Proof. apply supply_debits. Qed.
#[local] Hint Resolve GetGateway_debits SetGateway_debits SetOwnerGateway_debits SetToken_debits SetTokens_debits
  GetTotalSupply_debits SetTotalSupply_debits : frame.
Lemma owned_token_debits i : framed asset_debits (owned_token i).
Proof. unfold owned_token, getToken. framed. Qed.
Lemma AddToken_debits t : framed asset_debits (AddToken acc_String t).
Proof. unfold AddToken, HasToken. framed. Qed.
#[local] Hint Resolve owned_token_debits AddToken_debits : frame.
Lemma IssueToken_debits t : framed asset_debits (IssueToken acc_String t).
Proof. unfold IssueToken. framed. Qed.
#[local] Hint Resolve IssueToken_debits : frame.

Lemma asset_Handler_debits msg :
  Forall may (GetSigners msg) → framed asset_debits (Handler acc_String fee_factor_text msg).
Proof.
  destruct msg; simpl; intros Hm; rewrite ?Forall_singleton in Hm.
  - unfold handleIssueToken. framed.
  - unfold handleMsgCreateGateway, CreateGateway, HasGateway. framed.
  - unfold handleMsgEditGateway, EditGateway. framed.
  - unfold EditToken. framed.
  - unfold handleMsgTransferGatewayOwner, TransferGatewayOwner, UpdateOwnerGateway. framed.
  - unfold MintToken. framed.
  - unfold TransferTokenOwner, getToken, resetStoreKeyForQueryToken. framed.
  - framed.
Qed.
End asset.
End bank.
End debits.

(** ** Supplies under the messages of the bank *)
Section supply.
Import AssetFacts.
Context `{Crypto}.
#[local] Hint Resolve subtractCoins_supply addCoins_supply BurnCoins_supply : frame.
Lemma bank_Handler_supply msg : framed supply_le (bank_Handler msg).
Proof.
  destruct msg as [m|m|m|]; simpl.
  - unfold handleMsgSend, inputOutputCoins. framed.
  - apply BurnCoins_supply.
  - unfold handleMsgSetMemoRegexp, SetMemoRegexp, GetAccount, SetAccount. framed.
    apply (framed_modify supply_le). intros s. by apply supply_le_same.
  - framed.
Qed.
End supply.
