(* ===== verification/BaseAppFacts.v ===== *)
(** * What a transaction can do to the store

    The deferred functions and the caches of [runTx], for any protocol: the store
    is changed by the ante handlers, by the messages and by the refund only, and by
    each of them as a whole or not at all. *)

From S2P Require Import Prelude SdkErrors Frame IntType GoStrings Denom Coin CoinFacts Gas KVStore Auth StdTx Ante BaseApp Bank BankFrame AnteFacts.
#[local] Open Scope Z_scope.

(** ** Stores that differ in the gas meter only *)
Section same_store.
Context {S : Type} `{MultiStore S}.

Definition same_store (s s' : S) : Prop := ∃ g, s' = ms_set_gas g s.
#[export] Instance same_store_equiv : Equivalence same_store.
Proof.
  split.
  - intros s. exists (ms_gas s). by rewrite ms_set_gas_gas.
  - intros s s' [g ->]. exists (ms_gas s). by rewrite ms_set_set, ms_set_gas_gas.
  - intros s1 s2 s3 [g ->] [g' ->]. exists g'. by rewrite ms_set_set.
Qed.
Lemma same_store_gas g s : same_store s (ms_set_gas g s).
Proof. by exists g. Qed.
Lemma same_store_drop s s' : same_store s (drop_cache s' s).
Proof. apply same_store_gas. Qed.

(** A computation that reads the store, whatever its outcome. *)
Definition reads {A} (c : M S A) : Prop := ∀ s, same_store s (c s).2.
Lemma reads_ok {A} (c : M S A) s o s' : reads c → c s = (o, s') → same_store s s'.
Proof. intros Hc Hr. specialize (Hc s). by rewrite Hr in Hc. Qed.
Lemma reads_const {A} (o : Outcome A) : reads (lift o).
Proof. intros s. reflexivity. Qed.
Lemma reads_bind {A B} (c : M S A) (k : A → M S B) : reads c → (∀ a, reads (k a)) → reads (bind c k).
Proof.
  intros Hc Hk s. unfold bind. specialize (Hc s). destruct (c s) as [[a|e|w] s1]; [|done..].
  etrans; [apply Hc|apply Hk].
Qed.
Lemma reads_gas n d : reads (ms_ConsumeGas n d).
Proof.
  intros s. unfold ms_ConsumeGas, zoom. destruct (ConsumeGas n d (ms_gas s)). apply same_store_gas.
Qed.
End same_store.
#[export] Hint Extern 0 (same_store ?s ?s) => reflexivity : core.

(** ** Transactions *)
Section run.
Context {S T : Type} `{MultiStore S} `{Msg T}.
Variable p : Protocol S T.
Implicit Types (r : Run S) (tx : StdTx T).

Lemma on_store_run {A} (c : M S A) r : on_store c r = ((c (run_store r)).1, with_store (c (run_store r)).2 r).
Proof. unfold on_store, zoom. by destruct (c (run_store r)). Qed.

(** What a cache leaves. *)
Lemma cacheTxContext_spec {A} (write : A → bool) c r o r' :
  cacheTxContext write c r = (o, r') →
  ∃ r1, c r = (o, r1) ∧ run_ctx r' = run_ctx r1 ∧ run_gasWanted r' = run_gasWanted r1 ∧
    ((∃ a, o = Ok a ∧ write a = true ∧ r' = r1) ∨
     ((∀ a, o = Ok a → write a = false) ∧ same_store (run_store r) (run_store r'))).
Proof.
  unfold cacheTxContext. destruct (c r) as [o1 r1]. exists r1.
  destruct o1 as [a|e|w]; [|simplify_eq; split_and!; try done; right; split; [done|apply same_store_drop]..].
  destruct (write a) eqn:E; simplify_eq; split_and!; try done; [left; eauto|].
  right. split; [by intros ? [= <-]|apply same_store_drop].
Qed.

Lemma run_antes_blockGas hs tx sim r o r' :
  run_antes hs tx sim r = (o, r') → run_blockGas r' = run_blockGas r ∧ run_validTx r' = run_validTx r.
Proof.
  revert r. induction hs as [|h hs IH]; intros r; simpl; [by intros [= _ <-]|].
  unfold bind, get, modify. rewrite on_store_run.
  destruct (h (run_ctx r) tx sim (run_store r)) as [[[[newCtx result] abort]|e|w] s1]; simpl; [|by intros [= _ <-]..].
  destruct newCtx, abort; try (by intros [= _ <-]); intros Hr; by apply IH in Hr.
Qed.

(** The part with the ante handlers: all of them pass, or the store is as before. *)
Definition simulating (mode : RunTxMode) : bool := bool_decide (mode = RunTxModeSimulate).

Lemma ante_section_spec mode txBytes tx r o r' :
  ante_section p mode txBytes tx r = (o, r') →
  (o = Ok None ∧ ∃ rA, run_antes (p_anteHandlers p) tx (simulating mode) r = (Ok None, rA) ∧
     same_store (run_store rA) (run_store r') ∧ run_ctx r' = run_ctx rA ∧ run_gasWanted r' = run_gasWanted rA) ∨
  (o ≠ Ok None ∧ same_store (run_store r) (run_store r') ∧
   ∃ o' rA, run_antes (p_anteHandlers p) tx (simulating mode) r = (o', rA) ∧ run_ctx r' = run_ctx rA ∧
     (∀ res, o = Ok (Some res) → o' = Ok (Some res))).
Proof.
  unfold ante_section. destruct (p_anteHandlers p) as [|h hs] eqn:Eh.
  { intros [= <- <-]. left. split; [done|]. exists r. done. }
  intros Hr. apply cacheTxContext_spec in Hr as (r1&Hc&Hctx&Hgw&Hw).
  fold (simulating mode) in Hc. unfold bind at 1 in Hc.
  destruct (run_antes (h :: hs) tx (simulating mode) r) as [o' rA] eqn:EA.
  destruct o' as [[res|]|e|w]; simpl in Hc.
  - injection Hc as <- <-. right. destruct Hw as [(?&[= <-]&?&_)|[_ Hs]]; [done|].
    split_and!; [done|done|]. eexists _, _. split_and!; [done|done|]. by intros ? [= <-].
  - unfold bind in Hc. rewrite on_store_run in Hc.
    pose proof (reads_gas (S := S) (wrap64 (BlockStoreCostPerByte * Z.of_nat (str_len txBytes))) "blockstore" (run_store rA)) as Hg.
    destruct (ms_ConsumeGas (wrap64 (BlockStoreCostPerByte * Z.of_nat (str_len txBytes))) "blockstore" (run_store rA)) as [[[]|e|w] s1]; simpl in Hc; injection Hc as <- <-.
    + left. split; [done|]. exists rA. destruct Hw as [(?&_&_&->)|[Hf _]]; [done|]. by specialize (Hf _ eq_refl).
    + right. destruct Hw as [(?&?&_)|[_ Hs]]; [done|]. split_and!; [done|done|]. by eexists _, _.
    + right. destruct Hw as [(?&?&_)|[_ Hs]]; [done|]. split_and!; [done|done|]. by eexists _, _.
  - injection Hc as <- <-. right. destruct Hw as [(?&?&_)|[_ Hs]]; [done|]. split_and!; [done|done|]. by eexists _, _.
  - injection Hc as <- <-. right. destruct Hw as [(?&?&_)|[_ Hs]]; [done|]. split_and!; [done|done|]. by eexists _, _.
Qed.

(** ** The phases of a transaction *)
(** All ante handlers pass from the store [s] in the context [ctx]. *)
Definition antes_pass (mode : RunTxMode) tx (ctx : Context) (s : S) (rA : Run S) : Prop :=
  ∃ r0, run_ctx r0 = ctx ∧ same_store s (run_store r0) ∧
        run_antes (p_anteHandlers p) tx (simulating mode) r0 = (Ok None, rA).
(** All messages succeed from the store [s]. *)
Definition msgs_ran (mode : RunTxMode) tx (ctx : Context) (s s' : S) : Prop :=
  ∃ s0 res s1, same_store s s0 ∧ runMsgs p ctx (tx_Msgs tx) mode s0 = (Ok res, s1) ∧
               res_IsOK res = true ∧ same_store s1 s'.
(** The refund is given from the store [s], or it is not. *)
Definition refund_ran tx (ctx : Context) (s s' : S) : Prop :=
  same_store s s' ∨
  ∃ h res c s0 s1, p_feeRefundHandler p = Some h ∧ same_store s s0 ∧ h ctx tx res s0 = (Ok c, s1) ∧ same_store s1 s'.

(** What a transaction can do to the store [s]. *)
Inductive tx_effect (mode : RunTxMode) tx (ctx : Context) (s : S) : S → Prop :=
| tx_dropped s' : same_store s s' → tx_effect mode tx ctx s s'
| tx_charged rA s' :
    antes_pass mode tx ctx s rA → refund_ran tx (run_ctx rA) (run_store rA) s' → tx_effect mode tx ctx s s'
| tx_executed rA s1 s' :
    mode = RunTxModeDeliver → antes_pass mode tx ctx s rA → msgs_ran mode tx (run_ctx rA) (run_store rA) s1 →
    refund_ran tx (run_ctx rA) s1 s' → tx_effect mode tx ctx s s'.

Lemma antes_pass_start mode tx ctx s s1 rA :
  same_store s s1 → antes_pass mode tx ctx s1 rA → antes_pass mode tx ctx s rA.
Proof. intros Hs (r0&Hc&Hs0&HA). exists r0. split_and!; [done|by etrans|done]. Qed.
Lemma tx_effect_start mode tx ctx s s1 s' :
  same_store s s1 → tx_effect mode tx ctx s1 s' → tx_effect mode tx ctx s s'.
Proof.
  intros Hs [s'' Hs'|rA s'' HA HR|rA s2 s'' Hd HA HM HR].
  - apply tx_dropped. by etrans.
  - apply (tx_charged _ _ _ _ rA); [by eapply antes_pass_start|done].
  - apply (tx_executed _ _ _ _ rA s2); [done|by eapply antes_pass_start|done..].
Qed.

(** What the application relies on in a protocol. *)
Record ProtocolLaws : Prop := {
  pl_validate txBytes msgs : reads (p_ValidateTx p txBytes msgs);
  pl_validate_nz txBytes msgs s e s' : p_ValidateTx p txBytes msgs s = (Err e, s') → code e ≠ 0;
  pl_basic_nz m e m' : msg_ValidateBasic m = (Err e, m') → code e ≠ 0;
  pl_preprocess h tx : p_feePreprocessHandler p = Some h → reads (h tx);
  pl_preprocess_nz h tx s e s' : p_feePreprocessHandler p = Some h → h tx s = (Err e, s') → code e ≠ 0;
  pl_antes h ctx tx sim : h ∈ p_anteHandlers p → never_errs (h ctx tx sim);
  pl_abort tx sim r res rA :
    ctx_Signers (run_ctx r) = [] → run_antes (p_anteHandlers p) tx sim r = (Ok (Some res), rA) →
    res_IsOK res = false ∧ (res_GasWanted res = 0 ∨ ctx_Signers (run_ctx rA) = []);
  pl_refund h ctx tx res s c s' :
    p_feeRefundHandler p = Some h → res_GasWanted res = 0 ∨ ctx_Signers ctx = [] →
    h ctx tx res s = (Ok c, s') → same_store s s' }.
Hypothesis laws : ProtocolLaws.

(** The body: where the store is at the end, and with what outcome. *)
Inductive body_effect (mode : RunTxMode) tx r : Outcome Result → Run S → Prop :=
| body_dropped o r' :
    same_store (run_store r) (run_store r') →
    (∀ res, o = Ok res → res_IsOK res = false) →
    ctx_Signers (run_ctx r') = [] ∨ (∀ res, o = Ok res → res_GasWanted res = 0) →
    body_effect mode tx r o r'
| body_charged rA o r' :
    antes_pass mode tx (run_ctx r) (run_store r) rA →
    same_store (run_store rA) (run_store r') → run_ctx r' = run_ctx rA →
    (∀ res, mode = RunTxModeDeliver → o = Ok res → res_IsOK res = false) →
    body_effect mode tx r o r'
| body_executed rA res r' :
    mode = RunTxModeDeliver → antes_pass mode tx (run_ctx r) (run_store r) rA →
    msgs_ran mode tx (run_ctx rA) (run_store rA) (run_store r') → run_ctx r' = run_ctx rA →
    body_effect mode tx r (Ok res) r'.

Lemma Error_Result_not_ok e : code e ≠ 0 → res_IsOK (Error_Result e) = false.
Proof. intros He. unfold res_IsOK. simpl. by apply Z.eqb_neq. Qed.

Lemma runTx_messages mode tx r0 rA r1 o r' ctx s :
  mode ≠ RunTxModeCheck → run_ctx r0 = ctx → same_store s (run_store r0) →
  run_antes (p_anteHandlers p) tx (simulating mode) r0 = (Ok None, rA) →
  same_store (run_store rA) (run_store r1) → run_ctx r1 = run_ctx rA →
  cacheTxContext (λ result, bool_decide (mode = RunTxModeDeliver) && res_IsOK result)
    (r <- get ;;
     result <- on_store (runMsgs p (run_ctx r) (tx_Msgs tx) mode) ;;
     ret (mkResult (res_Codespace result) (res_Code result) (run_gasWanted r) (res_GasUsed result))) r1 = (o, r') →
  ∀ r, run_ctx r = ctx → run_store r = s → body_effect mode tx r o r'.
Proof.
  intros Hm Hc0 Hs0 HA Hs1 Hctx Hr r Ec Es. subst.
  assert (Hpass : antes_pass mode tx (run_ctx r0) (run_store r) rA) by (exists r0; done).
  apply cacheTxContext_spec in Hr as (r2&Hr&Hc&_&Hw). unfold bind at 1, get in Hr.
  unfold bind in Hr. rewrite on_store_run in Hr. rewrite Hctx in Hr.
  destruct (runMsgs p (run_ctx rA) (tx_Msgs tx) mode (run_store r1)) as [om s2] eqn:Em.
  simpl in Hr. destruct om as [res|e|w]; simpl in Hr; injection Hr as <- <-.
  - destruct Hw as [(?&[= <-]&Hw&->)|[Hw Hs]].
    + apply andb_true_iff in Hw as [Hd%bool_decide_eq_true Hok].
      apply (body_executed _ _ _ rA); [done|by rewrite Ec|by exists (run_store r1), res, s2|done].
    + apply (body_charged _ _ _ rA); [by rewrite Ec|by etrans|by rewrite Hc|].
      intros res' Hd [= <-]. specialize (Hw _ eq_refl). rewrite bool_decide_eq_true_2 in Hw by done. done.
  - destruct Hw as [(?&?&_)|[Hw Hs]]; [done|].
    apply (body_charged _ _ _ rA); [by rewrite Ec|by etrans|by rewrite Hc|done].
  - destruct Hw as [(?&?&_)|[Hw Hs]]; [done|].
    apply (body_charged _ _ _ rA); [by rewrite Ec|by etrans|by rewrite Hc|done].
Qed.

Lemma runTx_after_fee mode txBytes tx r r0 o r' :
  ctx_Signers (run_ctx r) = [] → run_ctx r0 = run_ctx r → same_store (run_store r) (run_store r0) →
  (aborted <- ante_section p mode txBytes tx ;;
   match aborted with
   | Some result => ret result
   | None =>
       if bool_decide (mode = RunTxModeCheck) then ret zero_Result else
       cacheTxContext (λ result, bool_decide (mode = RunTxModeDeliver) && res_IsOK result)
         (r <- get ;;
          result <- on_store (runMsgs p (run_ctx r) (tx_Msgs tx) mode) ;;
          ret (mkResult (res_Codespace result) (res_Code result) (run_gasWanted r) (res_GasUsed result)))
   end) r0 = (o, r') →
  body_effect mode tx r o r'.
Proof.
  intros Hsig Hc Hs Hr. unfold bind at 1 in Hr.
  destruct (ante_section p mode txBytes tx r0) as [oa r1] eqn:EA.
  destruct (ante_section_spec _ _ _ _ _ _ EA) as [(->&rA&HA&Hs1&Hctx&_)|(Hne&Hs1&o'&rA&HA&Hctx&Ho)].
  - destruct (decide (mode = RunTxModeCheck)) as [->|Hm].
    + injection Hr as <- <-. by apply (body_charged _ _ _ rA); [exists r0|..].
    + rewrite bool_decide_eq_false_2 in Hr by done. by eapply (runTx_messages mode tx r0 rA r1).
  - destruct oa as [[res|]|e|w]; [|done|..]; simpl in Hr; injection Hr as <- <-.
    + rewrite (Ho _ eq_refl) in HA. destruct (pl_abort laws _ _ _ _ _ (eq_trans (f_equal _ Hc) Hsig) HA) as [Hok Hg].
      apply body_dropped; [by etrans|by intros ? [= <-]|]. destruct Hg as [Hg|Hg]; [right; by intros ? [= <-]|].
      left. by rewrite Hctx.
    + apply body_dropped; [by etrans|done|by right].
    + apply body_dropped; [by etrans|done|by right].
Qed.

Lemma runTx_body_effect mode txBytes tx r o r' :
  ctx_Signers (run_ctx r) = [] → runTx_body p mode txBytes tx r = (o, r') → body_effect mode tx r o r'.
Proof.
  intros Hsig Hr. unfold runTx_body in Hr. unfold bind at 1, get in Hr.
  destruct (p_feePreprocessHandler p) as [h|] eqn:Eh; [|by apply (runTx_after_fee _ txBytes _ _ r)].
  case_match; [by apply (runTx_after_fee _ txBytes _ _ r)|].
  unfold bind at 1, try_err in Hr. rewrite on_store_run in Hr.
  pose proof (pl_preprocess laws h tx Eh (run_store r)) as Hread.
  destruct (h tx (run_store r)) as [[[]|e|w] s1] eqn:Es; simpl in Hread, Hr.
  - by eapply (runTx_after_fee _ txBytes _ _ (with_store s1 r)).
  - injection Hr as <- <-. pose proof (pl_preprocess_nz laws _ _ _ _ _ Eh Es) as Hnz.
    apply body_dropped; [done| |by left]. intros res [= <-]. by apply Error_Result_not_ok.
  - injection Hr as <- <-. apply body_dropped; [done|done|by left].
Qed.

(** ** The deferred functions *)
Lemma defer_blockGas_spec mode st r o r' :
  defer_blockGas mode st r = (o, r') →
  run_store r' = run_store r ∧ run_ctx r' = run_ctx r ∧ run_gasWanted r' = run_gasWanted r ∧
  run_validTx r' = run_validTx r ∧
  ∃ st', o = Ok st' ∧ st'.1 = st.1 ∧ (st'.2 = None → st.2 = None).
Proof.
  unfold defer_blockGas, on_blockGas, zoom. case_bool_decide; [|intros [= <- <-]; naive_solver].
  destruct (ConsumeGas _ _ _) as [[]]; intros [= <- <-]; naive_solver.
Qed.

Lemma defer_refund_spec mode tx st r o r' :
  defer_refund p mode tx st r = (o, r') →
  run_ctx r' = run_ctx r ∧
  refund_ran tx (run_ctx r) (run_store r) (run_store r') ∧
  (res_GasWanted st.1 = 0 ∨ ctx_Signers (run_ctx r) = [] → same_store (run_store r) (run_store r')) ∧
  ∃ st', o = Ok st' ∧ (res_IsOK st'.1 = true ∧ st'.2 = None → res_IsOK st.1 = true ∧ st.2 = None).
Proof.
  unfold defer_refund. set (res := mkResult _ _ _ _).
  assert (Hok : res_IsOK res = true → res_IsOK st.1 = true) by done.
  destruct (p_feeRefundHandler p) as [h|] eqn:Eh; [|intros [= <- <-]; split_and!; [done|by left|done|naive_solver]].
  case_bool_decide; [intros [= <- <-]; split_and!; [done|by left|done|naive_solver]|].
  destruct (cacheTxContext _ _ r) as [o1 r1] eqn:Ec. apply cacheTxContext_spec in Ec as (r2&Hr&Hctx&_&Hw).
  rewrite on_store_run in Hr. destruct (h (run_ctx r) tx res (run_store r)) as [o2 s2] eqn:E2. simpl in Hr.
  injection Hr as <- <-. simpl in Hctx.
  destruct o2 as [c|e|w]; intros [= <- <-].
  - destruct Hw as [(?&_&_&->)|[Hw _]]; [|by specialize (Hw _ eq_refl)].
    split_and!; [done|right; by exists h, res, c, (run_store r), s2| |naive_solver].
    intros Hno. exact (pl_refund laws h _ tx res _ _ _ Eh Hno E2).
  - destruct Hw as [(?&?&_)|[_ Hs]]; [done|]. split_and!; [done|by left|done|].
    eexists. split; [done|]. intros [? _]. done.
  - destruct Hw as [(?&?&_)|[_ Hs]]; [done|]. split_and!; [done|by left|done|].
    eexists. split; [done|]. intros [_ ?]. done.
Qed.

(** The checked transaction. *)
Definition with_msgs (msgs : list T) tx : StdTx T := mkStdTx msgs (tx_Fee tx) (tx_Signatures tx) (tx_Memo tx).

Lemma body_then_refund mode tx r o r1 s' :
  body_effect mode tx r o r1 → refund_ran tx (run_ctx r1) (run_store r1) s' →
  ((ctx_Signers (run_ctx r1) = [] ∨ ∀ res, o = Ok res → res_GasWanted res = 0) → same_store (run_store r1) s') →
  tx_effect mode tx (run_ctx r) (run_store r) s'.
Proof.
  intros [o' r1' Hs _ Hno|rA o' r1' HA Hs Hc _|rA res r1' Hd HA Hm Hc] Href Hsame.
  - apply tx_dropped. etrans; [done|auto].
  - apply (tx_charged _ _ _ _ rA); [done|]. rewrite Hc in Href. destruct Href as [Href|(h&re&c&s0&s1&?&?&?&?)].
    + left. by etrans.
    + right. exists h, re, c, s0, s1. split_and!; try done. by etrans.
  - apply (tx_executed _ _ _ _ rA (run_store r1')); try done. by rewrite <-Hc.
Qed.

(** The body with its deferred functions. *)
Definition with_defers (mode : RunTxMode) (txBytes : string) tx : M (Run S) Result := λ r,
  let '(o, r) := runTx_body p mode txBytes tx r in
  let st := match o with
            | Ok result => (result, None)
            | Err e => (Error_Result e, None)
            | Panic w => (zero_Result, Some w)
            end in
  (st <- defer_blockGas mode st ;; st <- defer_refund p mode tx st ;; defer_recover st) r.

Lemma try_err_no_err {S' A} (c : M S' A) : never_errs (try_err c).
Proof. intros s e s'. unfold try_err. by destruct (c s) as [[]]. Qed.
Lemma cacheTxContext_no_err {A} (write : A → bool) c : never_errs c → never_errs (cacheTxContext write c).
Proof. intros Hc r e r'. unfold cacheTxContext. destruct (c r) as [[] r1] eqn:E; try done. by destruct (Hc _ _ _ E). Qed.
#[local] Hint Resolve try_err_no_err cacheTxContext_no_err : noerr.

Lemma runMsgs_no_err ctx msgs mode : never_errs (runMsgs p ctx msgs mode).
Proof.
  induction msgs as [|m msgs IH]; simpl; [by auto with noerr|]. case_match; [|by auto with noerr].
  apply never_errs_bind; [case_bool_decide; by auto with noerr|]. intros [[]|e]; [done|].
  case_match; [done|]. by auto with noerr.
Qed.
Lemma run_antes_no_err tx sim : never_errs (run_antes (p_anteHandlers p) tx sim).
Proof.
  pose proof (λ h ctx, pl_antes laws h ctx tx sim) as Hh. revert Hh.
  induction (p_anteHandlers p) as [|h hs IH]; intros Hh; simpl; [by auto with noerr|].
  apply never_errs_bind; [by auto with noerr|intros r].
  apply never_errs_bind; [apply never_errs_zoom, Hh; set_solver|]. intros [[newCtx result] abort].
  apply never_errs_bind; [by auto with noerr|intros _]. destruct abort; [by auto with noerr|].
  apply never_errs_bind; [by auto with noerr|intros _]. apply IH. set_solver.
Qed.
Lemma ms_ConsumeGas_no_err n d : never_errs (ms_ConsumeGas (S := S) n d).
Proof. apply never_errs_zoom, ConsumeGas_no_err. Qed.

Lemma runTx_body_no_err mode txBytes tx : never_errs (runTx_body p mode txBytes tx).
Proof.
  unfold runTx_body. apply never_errs_bind; [by auto with noerr|intros r].
  apply never_errs_bind; [repeat case_match; by auto with noerr|]. intros [[]|e]; [|by auto with noerr].
  apply never_errs_bind.
  - unfold ante_section. destruct (p_anteHandlers p) as [|h hs] eqn:E; [by auto with noerr|].
    apply cacheTxContext_no_err. apply never_errs_bind; [rewrite <-E; apply run_antes_no_err|].
    intros [res|]; [by auto with noerr|].
    apply never_errs_bind; [apply never_errs_zoom, ms_ConsumeGas_no_err|by auto with noerr].
  - intros [res|]; [by auto with noerr|]. case_bool_decide; [by auto with noerr|].
    apply cacheTxContext_no_err. apply never_errs_bind; [by auto with noerr|intros r'].
    apply never_errs_bind; [apply never_errs_zoom, runMsgs_no_err|by auto with noerr].
Qed.

Lemma with_defers_effect mode txBytes tx r o r' :
  ctx_Signers (run_ctx r) = [] → with_defers mode txBytes tx r = (o, r') →
  tx_effect mode tx (run_ctx r) (run_store r) (run_store r') ∧
  ∃ res, o = Ok res ∧
    (res_IsOK res = true → mode = RunTxModeDeliver → ∃ rA s1,
       antes_pass mode tx (run_ctx r) (run_store r) rA ∧ msgs_ran mode tx (run_ctx rA) (run_store rA) s1 ∧
       refund_ran tx (run_ctx rA) s1 (run_store r')).
Proof.
  intros Hsig Hr. unfold with_defers in Hr. destruct (runTx_body p mode txBytes tx r) as [o1 r1] eqn:E1.
  assert (Hne : ∀ e, o1 ≠ Err e) by (intros e ->; by eapply runTx_body_no_err).
  apply (runTx_body_effect _ _ _ _ _ _ Hsig) in E1. unfold bind at 1 in Hr.
  set (st := match o1 with Ok result => (result, None) | Err e => _ | Panic w => _ end) in Hr.
  destruct (defer_blockGas mode st r1) as [o2 r2] eqn:E2.
  apply defer_blockGas_spec in E2 as (Hs2&Hc2&_&_&st2&->&Hst2&Hp2). unfold bind in Hr.
  destruct (defer_refund p mode tx st2 r2) as [o3 r3] eqn:E3.
  apply defer_refund_spec in E3 as (Hc3&Href&Hno&st3&->&Hok3). simpl in Hr. injection Hr as <- <-.
  rewrite Hs2, Hc2, Hst2 in *. split.
  - eapply body_then_refund; [done..|]. intros Hn. apply Hno. destruct Hn as [Hn|Hn]; [by right|left].
    destruct o1; [by apply Hn|done|done].
  - eexists. split; [done|]. intros Hok Hd.
    assert (Hst : ∃ res, o1 = Ok res ∧ res_IsOK res = true).
    { destruct st3 as [res3 [w3|]]; simpl in *; [by case_bool_decide|].
      destruct (Hok3 (conj Hok eq_refl)) as [Hok1 Hn]. apply Hp2 in Hn. unfold st in *.
      destruct o1; [by eexists|by destruct (Hne e)|done]. }
    destruct Hst as (res&->&Hres). inversion E1 as [o' r1' _ Hb|rA o' r1' _ _ _ Hb|rA res' r1' _ HA Hm Hc]; subst.
    + by rewrite (Hb _ eq_refl) in Hres.
    + by rewrite (Hb _ eq_refl eq_refl) in Hres.
    + exists rA, (run_store r1). split_and!; [done|done|by rewrite <-Hc].
Qed.

(** A transaction in the block, as [runTx] lets it through. *)
Definition admitted tx (msgs : list T) : Prop :=
  validateBasicTxMsgs (tx_Msgs tx) = (Ok tt, msgs) ∧
  (0 < p_Version p → fee_ok (fee_Amount (tx_Fee tx))).

Lemma code_default e cs : code (WithDefaultCodespace e cs) = code e.
Proof. unfold WithDefaultCodespace. by repeat case_match. Qed.
Lemma validateBasic_nz msgs e msgs' : validateBasicTxMsgs msgs = (Err e, msgs') → code e ≠ 0.
Proof.
  assert (Hv : ∀ l l', validate_msgs l = (Err e, l') → code e ≠ 0).
  { induction l as [|m l IH]; intros l'; simpl; [done|].
    destruct (msg_ValidateBasic m) as [[[]|e1|w] m1] eqn:E; [|intros [= <- _]; rewrite code_default; by eapply (pl_basic_nz laws)|done].
    destruct (validate_msgs l) as [o l1]. intros [= -> _]. by eapply IH. }
  destruct msgs as [|m msgs]; simpl; [by intros [= <- _]|]. apply (Hv (m :: msgs)).
Qed.

Lemma runTx_effect mode txBytes tx r res r' :
  ctx_Signers (run_ctx r) = [] → runTx p mode txBytes tx r = (Ok res, r') →
  (res_IsOK res = false ∧ same_store (run_store r) (run_store r')) ∨
  ∃ msgs, admitted tx msgs ∧
    tx_effect mode (with_msgs msgs tx) (run_ctx r) (run_store r) (run_store r') ∧
    (res_IsOK res = true → mode = RunTxModeDeliver → ∃ rA s1,
       antes_pass mode (with_msgs msgs tx) (run_ctx r) (run_store r) rA ∧
       msgs_ran mode (with_msgs msgs tx) (run_ctx rA) (run_store rA) s1 ∧
       refund_ran (with_msgs msgs tx) (run_ctx rA) s1 (run_store r')).
Proof.
  intros Hsig Hr. unfold runTx in Hr. unfold bind at 1, get in Hr.
  case_match; [injection Hr as <- <-; by left|]. unfold bind at 1, try_err at 1 in Hr. rewrite on_store_run in Hr.
  pose proof (pl_validate laws txBytes (tx_Msgs tx) (run_store r)) as Hs1.
  destruct (p_ValidateTx p txBytes (tx_Msgs tx) (run_store r)) as [[[]|e|w] s1] eqn:Ev; simpl in Hr, Hs1; [| |done].
  2: { injection Hr as <- <-. left. split; [|done]. by eapply Error_Result_not_ok, (pl_validate_nz laws). }
  destruct (validateBasicTxMsgs (tx_Msgs tx)) as [o msgs] eqn:Eb. unfold bind at 1, try_err, lift in Hr.
  destruct o as [[]|e|w]; [| |done].
  2: { injection Hr as <- <-. left. split; [|done]. by eapply Error_Result_not_ok, validateBasic_nz. }
  case_match eqn:Ef; [injection Hr as <- <-; by left|]. right. exists msgs.
  assert (Had : admitted tx msgs).
  { split; [done|]. intros Hp. apply Z.ltb_lt in Hp. rewrite Hp in Ef. unfold fee_ok.
    destruct (fee_Amount (tx_Fee tx)); [by left|right]. by destruct (Coins_IsValidIrisAtto _). }
  split; [done|]. unfold bind at 1 in Hr. fold (with_msgs msgs tx) in Hr.
  match type of Hr with (let (_, _) := ?c in _) = _ =>
    assert (Hc : ∃ r1, c = (Ok tt, r1) ∧ run_ctx r1 = run_ctx r ∧ run_store r1 = s1)
      by (case_bool_decide; eexists; split; done); destruct c as [o1 r1]; destruct Hc as (?&[= -> <-]&Hc1&Hs)
  end.
  rewrite <-Hs in Hs1. rewrite <-Hc1 in *. clear Hc1 Hs.
  apply (with_defers_effect mode txBytes (with_msgs msgs tx) r1) in Hr as [Heff (res'&[= <-]&Hok)]; [|done].
  split; [by eapply tx_effect_start|]. intros H1' H2'. destruct (Hok H1' H2') as (rA&s2&HA&HM&HR).
  exists rA, s2. split_and!; try done. by eapply antes_pass_start.
Qed.

(** ** Relations the phases respect *)
Lemma validate_msgs_in l o l' m :
  validate_msgs l = (Ok o, l') → m ∈ l' → ∃ m0, m0 ∈ l ∧ msg_ValidateBasic m0 = (Ok tt, m).
Proof.
  revert o l'. induction l as [|m0 l IH]; intros o l' Hv Hm; simpl in Hv.
  - injection Hv as _ <-. by apply elem_of_nil in Hm.
  - destruct (msg_ValidateBasic m0) as [[[]|e|w] m1] eqn:E; [|done..].
    destruct (validate_msgs l) as [o1 l1] eqn:El. injection Hv as -> <-. apply elem_of_cons in Hm as [->|Hm].
    + exists m0. split; [by left|done].
    + destruct (IH _ _ eq_refl Hm) as (m2&?&?). exists m2. split; [by right|done].
Qed.
Lemma admitted_in tx msgs m : admitted tx msgs → m ∈ msgs → ∃ m0, m0 ∈ tx_Msgs tx ∧ msg_ValidateBasic m0 = (Ok tt, m).
Proof.
  intros [Hv _] Hm. unfold validateBasicTxMsgs in Hv. destruct (tx_Msgs tx); [done|]. by eapply validate_msgs_in.
Qed.

Lemma runMsgs_framed (R : relation S) `{!PreOrder R} ctx msgs mode s res s' :
  (∀ m h, m ∈ msgs → p_router p (msg_Route m) = Some h → framed R (h ctx m)) →
  runMsgs p ctx msgs mode s = (Ok res, s') → res_IsOK res = true → R s s'.
Proof.
  revert s. induction msgs as [|m msgs IH]; intros s Hf Hr Hok; simpl in Hr.
  - injection Hr as _ <-. reflexivity.
  - destruct (p_router p (msg_Route m)) as [h|] eqn:Eh; [|injection Hr as <- _; done].
    assert (Hf' : ∀ m h, m ∈ msgs → p_router p (msg_Route m) = Some h → framed R (h ctx m)).
    { intros m' h' Hm. apply Hf. by right. }
    specialize (Hf m h ltac:(by left) Eh s). unfold bind at 1 in Hr. case_bool_decide.
    + simpl in Hr. by apply (IH s).
    + unfold try_err in Hr. destruct (h ctx m s) as [[[]|e|w] s1]; [| |done].
      * etrans; [exact Hf|]. by apply (IH s1).
      * destruct (Z.eqb_spec (code e) CodeOK); [done|]. injection Hr as <- _.
        unfold res_IsOK in Hok. simpl in Hok. by apply Z.eqb_eq in Hok.
Qed.

Lemma tx_effect_rel (R : relation S) `{!PreOrder R} mode tx ctx s s' :
  (∀ s1 s2, same_store s1 s2 → R s1 s2) →
  (∀ rA, antes_pass mode tx ctx s rA → R s (run_store rA)) →
  (∀ ctx m h, m ∈ tx_Msgs tx → p_router p (msg_Route m) = Some h → framed R (h ctx m)) →
  (∀ h ctx res c s1 s2, p_feeRefundHandler p = Some h → h ctx tx res s1 = (Ok c, s2) → R s1 s2) →
  tx_effect mode tx ctx s s' → R s s'.
Proof.
  intros Hsame Hante Hmsg Hrefund Heff.
  assert (Href : ∀ ctx s1 s2, refund_ran tx ctx s1 s2 → R s1 s2).
  { intros c s1 s2 [Hs|(h&re&co&s3&s4&Eh&Hs&Hh&Hs')]; [auto|]. etrans; [by apply Hsame|].
    etrans; [by eapply Hrefund|auto]. }
  destruct Heff as [s2 Hs|rA s2 HA HR|rA s1 s2 _ HA (s3&re&s4&Hs3&Hrun&Hok&Hs4) HR]; [auto|..].
  - etrans; [by apply Hante|by eapply Href].
  - etrans; [by apply Hante|]. etrans; [|by eapply Href]. etrans; [by apply Hsame|].
    etrans; [|by apply Hsame]. eapply (runMsgs_framed R); [|done|done]. intros m h Hm. by apply Hmsg.
Qed.
End run.
