(* ===== verification/App.v ===== *)
(** * Protocol v2 (app/v2/protocol_v2.go, app/protocol/router.go)

    The application put together: the stores of the modules side by side over one
    account store, the messages of the modules as one type, the routes, the three
    ante handlers and the fee handlers.  The messages are those of the bank,
    guardian, asset, rand, coinswap and htlc modules; what happens at the begin and
    the end of a block is an argument. *)

From S2P Require Import Prelude SdkErrors IntType GoStrings Denom Coin CoinFacts Gas KVStore Auth Bank BankFrame StdTx Ante BaseApp Htlc Guardian Rat Asset AssetKeeper Rand Coinswap.
#[local] Open Scope Z_scope.

(** ** The stores *)
Record AppState := mkAppState {
  ap_tx : TxState;
  ap_htlcs : gmap string HTLC;
  ap_expireQueue : gmap string string;
  ap_swap : SwapParams;
  ap_guardian : Guardian.Store;
  ap_rand : Rand.RandStore;
  ap_tokens : gmap string Asset.FungibleToken;
  ap_token_index : gmap string string;
  ap_gateways : gmap string Asset.Gateway;
  ap_owner_gateways : gmap string string;
  ap_asset : Asset.Params;
  ap_serviceTxSizeLimit : Z }.

Definition set_tx (t : TxState) (s : AppState) : AppState :=
  mkAppState t (ap_htlcs s) (ap_expireQueue s) (ap_swap s) (ap_guardian s) (ap_rand s) (ap_tokens s)
    (ap_token_index s) (ap_gateways s) (ap_owner_gateways s) (ap_asset s) (ap_serviceTxSizeLimit s).
Definition set_auth (a : AuthState) (s : AppState) : AppState := set_tx (mkTxState a (ts_fee (ap_tx s))) s.
Definition app_auth (s : AppState) : AuthState := ts_auth (ap_tx s).

#[export, program] Instance AppState_MultiStore : MultiStore AppState := {
  ms_gas s := gas (app_auth s);
  ms_set_gas g s := set_auth (set_gas g (app_auth s)) s }.
Next Obligation. done. Qed.
Next Obligation. by intros [[[] []]]. Qed.
Next Obligation. by intros g g' [[[] []]]. Qed.

(** What each module sees. *)
Definition app_htlc (s : AppState) : HtlcStore AuthState := mkHtlcStore (app_auth s) (ap_htlcs s) (ap_expireQueue s).
Definition set_htlc (h : HtlcStore AuthState) (s : AppState) : AppState :=
  let s := set_auth (hbank h) s in
  mkAppState (ap_tx s) (htlcs h) (expireQueue h) (ap_swap s) (ap_guardian s) (ap_rand s) (ap_tokens s)
    (ap_token_index s) (ap_gateways s) (ap_owner_gateways s) (ap_asset s) (ap_serviceTxSizeLimit s).
Definition app_swap (s : AppState) : SwapState AuthState := mkSwap (app_auth s) (ap_swap s).
Definition set_swap (w : SwapState AuthState) (s : AppState) : AppState :=
  let s := set_auth (sbank w) s in
  mkAppState (ap_tx s) (ap_htlcs s) (ap_expireQueue s) (sparams w) (ap_guardian s) (ap_rand s) (ap_tokens s)
    (ap_token_index s) (ap_gateways s) (ap_owner_gateways s) (ap_asset s) (ap_serviceTxSizeLimit s).
Definition set_guardian (g : Guardian.Store) (s : AppState) : AppState :=
  mkAppState (ap_tx s) (ap_htlcs s) (ap_expireQueue s) (ap_swap s) g (ap_rand s) (ap_tokens s)
    (ap_token_index s) (ap_gateways s) (ap_owner_gateways s) (ap_asset s) (ap_serviceTxSizeLimit s).
Definition set_rand (r : Rand.RandStore) (s : AppState) : AppState :=
  mkAppState (ap_tx s) (ap_htlcs s) (ap_expireQueue s) (ap_swap s) (ap_guardian s) r (ap_tokens s)
    (ap_token_index s) (ap_gateways s) (ap_owner_gateways s) (ap_asset s) (ap_serviceTxSizeLimit s).
Definition app_asset (s : AppState) : AssetKeeper.AssetState :=
  AssetKeeper.mkAsset (app_auth s) (ap_tokens s) (ap_token_index s) (ap_gateways s) (ap_owner_gateways s) (ap_asset s).
Definition set_asset (a : AssetKeeper.AssetState) (s : AppState) : AppState :=
  let s := set_auth (AssetKeeper.as_auth a) s in
  mkAppState (ap_tx s) (ap_htlcs s) (ap_expireQueue s) (ap_swap s) (ap_guardian s) (ap_rand s) (AssetKeeper.tokens a)
    (AssetKeeper.token_index a) (AssetKeeper.gateways a) (AssetKeeper.owner_gateways a) (AssetKeeper.as_params a)
    (ap_serviceTxSizeLimit s).

(** ** Routers (app/protocol/router.go): the first route with the path *)
Fixpoint Route {H} (routes : list (string * H)) (path : string) : option H :=
  match routes with
  | [] => None
  | (r, h) :: routes => if bool_decide (r = path) then Some h else Route routes path
  end.

(** ** Messages *)
Inductive AppMsg :=
| MBank (m : BankMsg)
| MGuardian (m : Guardian.GuardianMsg)
| MAsset (m : Asset.AssetMsg)
| MRand (m : Rand.RandMsg)
| MSwap (m : SwapMsg)
| MHtlc (m : HtlcMsg).

Definition AppMsg_Route (msg : AppMsg) : string :=
  match msg with
  | MBank _ => "bank" | MGuardian _ => "guardian" | MAsset _ => "asset"
  | MRand _ => "rand" | MSwap _ => "coinswap" | MHtlc _ => "htlc"
  end.
Definition AppMsg_Type (msg : AppMsg) : string :=
  match msg with
  | MBank (BMsgSend _) => "send"
  | MBank (BMsgBurn _) => "burn"
  | MBank (BMsgSetMemoRegexp _) => "set-memo-regexp"
  | MGuardian (Guardian.MsgAddProfiler _) => "guardian add-profiler"
  | MGuardian (Guardian.MsgDeleteProfiler _) => "guardian delete-profiler"
  | MGuardian (Guardian.MsgAddTrustee _) => "guardian add-trustee"
  | MGuardian (Guardian.MsgDeleteTrustee _) => "guardian delete-trustee"
  | MAsset (Asset.IssueTokenMsg _) => "issue_token"
  | MAsset (Asset.CreateGatewayMsg _) => "create_gateway"
  | MAsset (Asset.EditGatewayMsg _) => "edit_gateway"
  | MAsset (Asset.EditTokenMsg _) => "edit_token"
  | MAsset (Asset.TransferGatewayMsg _) => "transfer_gateway_owner"
  | MAsset (Asset.MintTokenMsg _) => "mint_token"
  | MAsset (Asset.TransferTokenMsg _) => "transfer_token_owner"
  | MRand (Rand.RequestRandMsg _) => "request_rand"
  | MSwap (SwSwap _) => "swap_order"
  | MSwap (SwAdd _) => "add_liquidity"
  | MSwap (SwRemove _) => "remove_liquidity"
  | MHtlc (HCreate _) => "create_htlc"
  | MHtlc (HClaim _) => "claim_htlc"
  | MHtlc (HRefund _) => "refund_htlc"
  | _ => ""
  end.
Definition AppMsg_GetSigners (msg : AppMsg) : list AccAddress :=
  match msg with
  | MBank m => BankMsg_GetSigners m
  | MGuardian m => Guardian.GetSigners m
  | MAsset m => Asset.GetSigners m
  | MRand m => Rand.GetSigners m
  | MSwap m => SwapMsg_GetSigners m
  | MHtlc m => HtlcMsg_GetSigners m
  end.

Section app.
Context `{Crypto} `{JsonOps} `{KeyOps}.
(** Package regexp on patterns chosen by users, the JSON of messages, the bech32
    text of an address, and two floating-point functions. *)
Variable Compile : string → bool.
Variable MatchString : string → string → bool.
Variable msg_json : AppMsg → string.
Variable acc_String : AccAddress → string.
Variable fee_factor_text : Z → string.
Variable log_gasBase : Z → Z.

Definition AppMsg_ValidateBasic : M AppMsg unit := λ msg,
  match msg with
  | MBank (BMsgSend m) => let '(o, m) := MsgSend_ValidateBasic m in (o, MBank (BMsgSend m))
  | MBank (BMsgBurn m) => (MsgBurn_ValidateBasic m, msg)
  | MBank (BMsgSetMemoRegexp m) => (MsgSetMemoRegexp_ValidateBasic Compile m, msg)
  | MBank BMsgOther => (Ok tt, msg)
  | MGuardian m => (Guardian.ValidateBasic m, msg)
  | MAsset m => (Asset.ValidateBasic m, msg)
  | MRand m => (Rand.ValidateBasic m, msg)
  | MSwap m => (SwapMsg_ValidateBasic m, msg)
  | MHtlc m => (HtlcMsg_ValidateBasic m, msg)
  end.
#[export] Instance AppMsg_Msg : Msg AppMsg := {
  msg_Route := AppMsg_Route;
  msg_Type := AppMsg_Type;
  msg_ValidateBasic := AppMsg_ValidateBasic;
  msg_GetSignBytes := msg_json;
  msg_GetSigners := AppMsg_GetSigners }.

(** ** Routes ([configRouters]): a module's handler gets a message of another module
    as one it does not know *)
Definition bank_route (ctx : Context) (msg : AppMsg) : M AppState unit :=
  zoom app_auth set_auth (bank_Handler match msg with MBank m => m | _ => BMsgOther end).
Definition guardian_route (ctx : Context) (msg : AppMsg) : M AppState unit :=
  zoom ap_guardian set_guardian (Guardian.Handler match msg with MGuardian m => m | _ => Guardian.OtherMsg end).
Definition asset_route (ctx : Context) (msg : AppMsg) : M AppState unit :=
  zoom app_asset set_asset
    (AssetKeeper.Handler acc_String fee_factor_text match msg with MAsset m => m | _ => Asset.OtherMsg end).
Definition rand_route (ctx : Context) (msg : AppMsg) : M AppState unit :=
  zoom ap_rand set_rand
    (Rand.Handler (hd_Height (ctx_Header ctx)) (ctx_TxBytes ctx) match msg with MRand m => m | _ => Rand.OtherMsg end).
Definition swap_route (ctx : Context) (msg : AppMsg) : M AppState unit :=
  zoom app_swap set_swap (swap_Handler (hd_Time (ctx_Header ctx)) match msg with MSwap m => m | _ => SwOther end).
Definition htlc_route (ctx : Context) (msg : AppMsg) : M AppState unit :=
  zoom app_htlc set_htlc (htlc_Handler (hd_Height (ctx_Header ctx)) match msg with MHtlc m => m | _ => HOther end).

Definition app_routes : list (string * (Context → AppMsg → M AppState unit)) :=
  [("bank", bank_route); ("guardian", guardian_route); ("asset", asset_route); ("rand", rand_route);
   ("coinswap", swap_route); ("htlc", htlc_route)].

(** ** Ante handlers and fee handlers ([configFeeHandlers]) *)
Abbreviation Ante := (Context → StdTx AppMsg → bool → M AppState (option Context * Result * bool)).
Definition on_tx {A} (c : M TxState A) : M AppState A := zoom ap_tx set_tx c.

Definition app_auth_ante : Ante := λ ctx tx simulate, on_tx (auth_AnteHandler log_gasBase ctx tx simulate).

(** The result of a check that leaves the context as it is. *)
Definition check_result (c : M AppState unit) : M AppState (option Context * Result * bool) := λ s,
  match c s with
  | (Ok _, s) => (Ok (None, zero_Result, false), s)
  | (Err e, s) => (Ok (None, Error_Result e, true), s)
  | (Panic w, s) => (Panic w, s)
  end.
Fixpoint bank_msgs (msgs : list AppMsg) : list BankMsg :=
  match msgs with
  | [] => []
  | MBank m :: msgs => m :: bank_msgs msgs
  | _ :: msgs => bank_msgs msgs
  end.
Definition app_bank_ante : Ante := λ ctx tx simulate,
  check_result (zoom app_auth set_auth (bank_AnteHandler MatchString (tx_Memo tx) (bank_msgs (tx_Msgs tx)))).
(** The asset messages a transaction begins with. *)
Fixpoint leading_asset_msgs (msgs : list AppMsg) : list Asset.AssetMsg :=
  match msgs with MAsset m :: msgs => m :: leading_asset_msgs msgs | _ => [] end.
Definition app_asset_ante : Ante := λ ctx tx simulate,
  check_result (zoom app_asset set_asset
    (AssetKeeper.asset_AnteHandler fee_factor_text (ctx_Signers ctx) (leading_asset_msgs (tx_Msgs tx)))).

(** ** Checks before a transaction runs ([ValidateTx]) *)
Definition ValidateTx (txBytes : string) (msgs : list AppMsg) : M AppState unit :=
  s <- get ;;
  let serviceMsgNum := length (filter (λ m, AppMsg_Route m = "service") msgs) in
  let size := Z.of_nat (str_len txBytes) in
  require (negb (negb (bool_decide (serviceMsgNum = 0%nat)) && negb (bool_decide (serviceMsgNum = length msgs))))
    ErrServiceTxLimit ;;;
  require (negb (bool_decide (serviceMsgNum = 0%nat) && (TxSizeLimit (feeParams (ts_fee (ap_tx s))) <? size)))
    ErrExceedsTxSize ;;;
  require (negb (bool_decide (serviceMsgNum = length msgs) && (ap_serviceTxSizeLimit s <? size)))
    ErrExceedsTxSize.

(** ** The protocol *)
Definition ProtocolV2 (version : Z) (beginBlocker : option (Context → M AppState unit))
    (endBlocker : option (Context → M AppState (option Z))) : Protocol AppState AppMsg := {|
  p_Version := version;
  p_Init := λ _, modify (λ s, set_swap (mkSwap (app_auth s) DefaultParams) s);
  p_ValidateTx := ValidateTx;
  p_anteHandlers := [app_auth_ante; app_bank_ante; app_asset_ante];
  p_feeRefundHandler := Some (λ ctx tx result, on_tx (FeeRefundHandler ctx tx result));
  p_feePreprocessHandler := Some (λ tx, on_tx (FeePreprocessHandler tx));
  p_router := Route app_routes;
  p_beginBlocker := beginBlocker;
  p_endBlocker := endBlocker |}.
End app.
