(* ===== verification/AppFacts.v ===== *)
(** * What the messages, the ante handlers and the refund do to the application *)

From S2P Require Import Prelude SdkErrors Frame IntType GoStrings Denom Coin CoinFacts Dec Gas KVStore Auth StdTx Ante BaseApp Bank BankFacts BankThms BankFrame AnteFacts Htlc Guardian Rat Asset AssetKeeper AssetThms Rand Coinswap CoinswapFacts ModuleFrames BaseAppFacts App.
#[local] Open Scope Z_scope.

Import AssetKeeper AssetFacts AssetThms.

(** ** Well-formed applications *)
Record app_wf (s : AppState) : Prop := {
  aw_tx : tx_wf (ap_tx s);
  aw_asset : asset_inv (app_asset s) }.
(** All of the native token, in accounts and in the pool of fees. *)
Definition all_iris (s : AppState) : Z := all_coins (ap_tx s) IrisAtto.

Section frames.
Context `{Crypto}.
Variable may : AccAddress → Prop.

Record app_step (s s' : AppState) : Prop := {
  st_wf : app_wf s';
  st_iris : all_iris s' = all_iris s;
  st_debits x d : ¬ may x → balance (app_auth s) x d ≤ balance (app_auth s') x d;
  st_keeps : keeps_accounts (app_auth s) (app_auth s') }.
Definition app_rel (s s' : AppState) : Prop := app_wf s → app_step s s'.
#[export] Instance app_rel_po : PreOrder app_rel.
Proof.
  split; [intros s Hs; by split; [|done|lia|]|]. intros s1 s2 s3 H1 H2 Hs. destruct (H1 Hs) as [W1 I1 D1 K1].
  destruct (H2 W1) as [W2 I2 D2 K2]. split; [done|congruence| |by etrans].
  intros x d Hx. specialize (D1 x d Hx). specialize (D2 x d Hx). lia.
Qed.

(** Changes of the accounts by the bank. *)
Definition bank_change (s s' : AuthState) : Prop := (supply_le s s' ∧ bank_rel s s') ∧ debits may s s'.
#[export] Instance bank_change_po : PreOrder bank_change.
Proof.
  unfold bank_change. split; [intros s; split_and!; reflexivity|].
  intros s1 s2 s3 [[??]?] [[??]?]. split_and!; by etrans.
Qed.

Lemma tx_wf_auth a s : tx_wf s → auth_wf a → tx_wf (mkTxState a (ts_fee s)).
Proof. intros [H1 H2 H3] Ha. by split. Qed.

Lemma app_rel_asset a s :
  (asset_inv (app_asset s) → asset_inv a ∧ bank_rel (app_auth s) (as_auth a)) →
  debits may (app_auth s) (as_auth a) → app_rel s (set_asset a s).
Proof.
  intros Ha Hd [Ht Hi]. destruct (Ha Hi) as [Hi' Hb]. destruct (Hb (tw_auth _ Ht)) as [Hw Hir Hk].
  destruct (Hd (tw_auth _ Ht)) as [_ Hdb]. split; simpl; try done.
  - split; simpl; [by apply tx_wf_auth|]. by destruct a.
  - unfold all_iris, all_coins. simpl. unfold app_auth in Hir. unfold fee_pool. simpl. lia.
Qed.
Lemma app_rel_auth a s : bank_change (app_auth s) a → app_rel s (set_auth a s).
Proof.
  intros [[Hs Hb] Hd]. set (b := mkAsset a (ap_tokens s) (ap_token_index s) (ap_gateways s) (ap_owner_gateways s) (ap_asset s)).
  change (app_rel s (set_asset b s)). apply app_rel_asset; [|done]. intros Hi. split; [|done].
  eapply bank_only_inv; [|exact Hi]. by split.
Qed.
(** Stores the relation does not look at. *)
Lemma app_rel_other s1 s2 s : ap_tx s1 = ap_tx s2 → app_asset s1 = app_asset s2 → app_rel s s1 → app_rel s s2.
Proof.
  intros Et Ea Hr Hs. destruct (Hr Hs) as [[Ht Hi] I D K]. unfold all_iris, app_auth in *.
  rewrite Et in *. rewrite Ea in *. by split; [split|..].
Qed.
End frames.

(** ** The messages *)
(** A message after its checks: what its checks establish and, for the asset
    module, that its integers are in their types. *)
Definition msg_checked (Compile : string → bool) (msg : AppMsg) : Prop :=
  (∃ msg0, AppMsg_ValidateBasic Compile msg0 = (Ok tt, msg)) ∧
  match msg with MAsset m => msg_typed m | _ => True end.

Section routes.
Context `{Crypto}.
Variable Compile : string → bool.
Variable acc_String : AccAddress → string.
Variable fee_factor_text : Z → string.
Variable may : AccAddress → Prop.
Hypothesis may_module : ∀ x, module_account x → may x.

Lemma framed_bank_change {A} (c : M AuthState A) :
  framed supply_le c → framed bank_rel c → framed (debits may) c → framed (bank_change may) c.
Proof. intros H1 H2 H3. by repeat apply framed_both. Qed.
Lemma send_change from to c : may from → framed (bank_change may) (sendCoins from to c).
Proof.
  intros Hm. apply framed_bank_change; [apply sendCoins_supply|apply sendCoins_framed|by apply sendCoins_debits].
Qed.
Lemma add_change a c : amt c IrisAtto = 0 → framed (bank_change may) (addCoins a c).
Proof.
  intros Hc. apply framed_bank_change; [apply addCoins_supply|by apply addCoins_framed|by apply addCoins_debits].
Qed.
Lemma sub_change a c : may a → amt c IrisAtto = 0 → framed (bank_change may) (subtractCoins a c).
Proof.
  intros Hm Hc. apply framed_bank_change; [apply subtractCoins_supply|by apply subtractCoins_framed|by apply subtractCoins_debits].
Qed.

Lemma bank_Handler_change msg :
  bank_checked msg → Forall may (BankMsg_GetSigners msg) → framed (bank_change may) (bank_Handler msg).
Proof.
  intros Hc Hm. apply framed_bank_change; [apply bank_Handler_supply|by apply bank_Handler_framed|by apply bank_Handler_debits].
Qed.

Definition anything {S : Type} (_ _ : S) : Prop := True.
#[local] Instance anything_po S : PreOrder (@anything S).
Proof. done. Qed.
Lemma guardian_any m : framed anything (Guardian.Handler m).
Proof.
  apply framed_intro; [done|]. intros s e s' E. destruct (Guardian.Handler_spec _ _ _ _ E) as [(?&_)|(e'&[= <-]&Hc&_)]; done.
Qed.
Lemma rand_any h b m : framed anything (Rand.Handler h b m).
Proof.
  destruct m; simpl; [|by apply (framed_throw anything)]. unfold Rand.handleMsgRequestRand, Rand.RequestRand, Rand.EnqueueRandRequest.
  by apply (framed_modify anything).
Qed.

Lemma asset_route_framed ctx m :
  Asset.ValidateBasic m = Ok tt → msg_typed m → Forall may (Asset.GetSigners m) →
  framed (app_rel may) (asset_route acc_String fee_factor_text ctx (MAsset m)).
Proof.
  intros Hv Ht Hm. pose proof (asset_Handler_debits may acc_String fee_factor_text m Hm) as Hd. intros s.
  unfold asset_route, zoom. specialize (Hd (app_asset s)).
  destruct (Handler acc_String fee_factor_text m (app_asset s)) as [[[]|e|w] a] eqn:E; [|done..].
  apply app_rel_asset; [|done]. intros Hi. by destruct (Handler_keeps _ _ _ _ _ Hv Ht E Hi) as (?&?&_).
Qed.

(** The handler of a checked message, whoever may be debited. *)
Lemma route_framed ctx msg h :
  msg_checked Compile msg → Forall may (AppMsg_GetSigners msg) →
  Route (app_routes acc_String fee_factor_text) (AppMsg_Route msg) = Some h → framed (app_rel may) (h ctx msg).
Proof.
  intros [[msg0 Hv] Ht] Hm Hroute. destruct msg as [m|m|m|m|m|m]; injection Hroute as <-; simpl in Hm.
  - eapply framed_zoom; [intros s a; apply app_rel_auth|]. apply bank_Handler_change; [|done].
    destruct m as [m|m|m|]; simpl; [|done..]. destruct msg0 as [[m0|m0|m0|]|m0|m0|m0|m0|m0]; try done.
    simpl in Hv. exists m0. destruct (MsgSend_ValidateBasic m0). congruence.
  - eapply framed_zoom; [|apply guardian_any]. intros s a _. by apply (app_rel_other may s).
  - apply asset_route_framed; [|done|done].
    destruct msg0 as [[m0|m0|m0|]|m0|m0|m0|m0|m0]; simpl in Hv; try done; [by destruct (MsgSend_ValidateBasic m0)|congruence].
  - eapply framed_zoom; [|apply rand_any]. intros s a _. by apply (app_rel_other may s).
  - eapply framed_zoom; [|apply (swap_Handler_framed (bank_change may) may)]; try done.
    + intros s a Hb. eapply (app_rel_other may (set_auth (sbank a) s)); [done|done|]. by apply app_rel_auth.
    + apply send_change.
    + apply add_change.
    + apply addCoins_no_err.
    + apply sub_change.
  - eapply framed_zoom; [|apply (htlc_Handler_framed (bank_change may) may)]; try done.
    + intros s a Hb. eapply (app_rel_other may (set_auth (hbank a) s)); [done|done|]. by apply app_rel_auth.
    + apply send_change.
Qed.
End routes.

(** ** The ante handlers *)
Section antes.
Context `{Crypto} `{JsonOps} `{KeyOps}.
Variable Compile : string → bool.
Variable MatchString : string → string → bool.
Variable msg_json : AppMsg → string.
Variable acc_String : AccAddress → string.
Variable fee_factor_text : Z → string.
Variable log_gasBase : Z → Z.
#[local] Instance app_msg : Msg AppMsg := AppMsg_Msg Compile msg_json.
Implicit Types (tx : StdTx AppMsg) (ctx : Context) (r : Run AppState).

Lemma check_result_ok c s newCtx res abort s' :
  check_result c s = (Ok (newCtx, res, abort), s') → newCtx = None ∧
  (abort = false ∧ res = zero_Result ∧ c s = (Ok tt, s') ∨
   abort = true ∧ ∃ e, c s = (Err e, s') ∧ res = Error_Result e).
Proof.
  unfold check_result. destruct (c s) as [[[]|e|w] s1]; intros [= <- <- <- <-]; split; try done; [by left|].
  right. split; [done|]. by exists e.
Qed.

Definition unchanged {S : Type} (s s' : S) : Prop := s' = s.
#[local] Instance unchanged_po S : PreOrder (@unchanged S).
Proof. unfold unchanged. split; [by intros ?|intros ???; congruence]. Qed.

Lemma bank_ante_framed memo msgs : framed unchanged (bank_AnteHandler MatchString memo msgs).
Proof. unfold bank_AnteHandler, GetAccount. framed. Qed.
Lemma total_fee_nz p t msgs : err_nz (total_fee fee_factor_text p t msgs).
Proof.
  revert t. induction msgs as [|m msgs IH]; intros t; simpl; [err_nz|].
  destruct (msg_fee fee_factor_text p m) as [fee|] eqn:Ef; [|err_nz].
  apply err_nz_obind; [|intros c _; apply err_nz_obind; [err_nz|intros; apply IH]].
  unfold msg_fee in Ef.
  pose proof (fees_nz fee_factor_text p) as Hn.
  repeat case_match; simplify_eq; (apply Hn || err_nz).
Qed.
Lemma asset_ante_framed signers msgs : framed unchanged (asset_AnteHandler fee_factor_text signers msgs).
Proof. unfold asset_AnteHandler, GetParamSet. framed. apply total_fee_nz. Qed.

Lemma set_auth_id s : set_auth (app_auth s) s = s.
Proof. by destruct s as [[]]. Qed.
Lemma set_asset_id s : set_asset (app_asset s) s = s.
Proof. by destruct s as [[]]. Qed.

Definition antes : list (Context → StdTx AppMsg → bool → M AppState (option Context * Result * bool)) :=
  [app_auth_ante Compile msg_json log_gasBase; app_bank_ante MatchString; app_asset_ante fee_factor_text].

Lemma bank_ante_spec ctx tx sim s newCtx res abort s' :
  app_bank_ante MatchString ctx tx sim s = (Ok (newCtx, res, abort), s') →
  newCtx = None ∧ if abort : bool then res_IsOK res = false ∧ res_GasWanted res = 0 else s' = s.
Proof.
  intros Hr. apply check_result_ok in Hr as [-> Hr]. split; [done|].
  destruct Hr as [(->&_&Hr)|(->&e&Hr&->)].
  - apply zoom_ok in Hr as (a&Hr&->). apply (framed_ok _ _ _ _ _ (bank_ante_framed _ _)) in Hr. rewrite Hr. apply set_auth_id.
  - split; [|done]. apply Error_Result_not_ok. unfold zoom in Hr.
    pose proof (bank_ante_framed (tx_Memo tx) (bank_msgs (tx_Msgs tx)) (app_auth s)) as Hn.
    destruct (bank_AnteHandler _ _ _ _) as [[]]; by simplify_eq.
Qed.
Lemma asset_ante_spec ctx tx sim s newCtx res abort s' :
  app_asset_ante fee_factor_text ctx tx sim s = (Ok (newCtx, res, abort), s') →
  newCtx = None ∧ if abort : bool then res_IsOK res = false ∧ res_GasWanted res = 0 else s' = s.
Proof.
  intros Hr. apply check_result_ok in Hr as [-> Hr]. split; [done|].
  destruct Hr as [(->&_&Hr)|(->&e&Hr&->)].
  - apply zoom_ok in Hr as (a&Hr&->). apply (framed_ok _ _ _ _ _ (asset_ante_framed _ _)) in Hr. rewrite Hr. apply set_asset_id.
  - split; [|done]. apply Error_Result_not_ok. unfold zoom in Hr.
    pose proof (asset_ante_framed (ctx_Signers ctx) (leading_asset_msgs (tx_Msgs tx)) (app_asset s)) as Hn.
    destruct (asset_AnteHandler _ _ _ _) as [[]]; by simplify_eq.
Qed.

(** One handler of the list. *)
Lemma run_antes_cons h hs tx sim r o rA :
  run_antes (h :: hs) tx sim r = (o, rA) →
  match h (run_ctx r) tx sim (run_store r) with
  | (Ok (newCtx, res, abort), s1) =>
      let r1 := with_ctx (default (run_ctx r) newCtx) (with_store s1 r) in
      if abort : bool then o = Ok (Some res) ∧ rA = r1
      else run_antes hs tx sim (add_gasWanted (res_GasWanted res) r1) = (o, rA)
  | (Err e, s1) => o = Err e
  | (Panic w, s1) => o = Panic w
  end.
Proof.
  cbn [run_antes]. unfold bind, get, modify. rewrite on_store_run.
  destruct (h (run_ctx r) tx sim (run_store r)) as [[[[newCtx res] abort]|e|w] s1]; cbn [fst snd]; [|by intros [= <- _]..].
  destruct newCtx, abort; simpl; (by intros [= <- <-]) || done.
Qed.
(** A handler that checks and leaves the context and the store as they are. *)
Definition checks (h : Context → StdTx AppMsg → bool → M AppState (option Context * Result * bool)) : Prop :=
  ∀ ctx tx sim s o s', h ctx tx sim s = (o, s') →
  match o with
  | Ok (newCtx, res, abort) => newCtx = None ∧ if abort : bool then res_IsOK res = false ∧ res_GasWanted res = 0 else s' = s
  | Err _ => False
  | Panic _ => True
  end.
Lemma bank_ante_checks : checks (app_bank_ante MatchString).
Proof.
  intros ctx tx sim s o s' Hr. destruct o as [[[newCtx res] abort]|e|w]; [by eapply bank_ante_spec| |done].
  unfold app_bank_ante, check_result in Hr. by destruct (zoom _ _ _ _) as [[]].
Qed.
Lemma asset_ante_checks : checks (app_asset_ante fee_factor_text).
Proof.
  intros ctx tx sim s o s' Hr. destruct o as [[[newCtx res] abort]|e|w]; [by eapply asset_ante_spec| |done].
  unfold app_asset_ante, check_result in Hr. by destruct (zoom _ _ _ _) as [[]].
Qed.
Lemma run_checks hs tx sim r o rA :
  Forall checks hs → run_antes hs tx sim r = (o, rA) →
  match o with
  | Ok None => run_store rA = run_store r ∧ run_ctx rA = run_ctx r
  | Ok (Some res) => res_IsOK res = false ∧ res_GasWanted res = 0
  | Err _ => False
  | Panic _ => True
  end.
Proof.
  intros Hh. revert r. induction Hh as [|h hs Hc _ IH]; intros r Hr; [by injection Hr as <- <-|].
  apply run_antes_cons in Hr. destruct (h (run_ctx r) tx sim (run_store r)) as [o1 s1] eqn:E1. apply Hc in E1.
  destruct o1 as [[[newCtx res] abort]|e|w]; [|done|by subst]. destruct E1 as [-> E1]. destruct abort.
  - destruct Hr as [-> ->]. done.
  - subst s1. apply IH in Hr. by destruct o as [[]| |].
Qed.

Lemma run_antes_v2 tx sim r o rA :
  run_antes antes tx sim r = (o, rA) →
  match o with
  | Ok None => ∃ g accs st,
      authenticate (run_ctx r) tx sim (mkTxState (set_gas g (app_auth (run_store r))) (ts_fee (ap_tx (run_store r)))) = (Ok accs, st) ∧
      run_store rA = set_tx st (run_store r) ∧ run_ctx rA = WithSigners (run_ctx r) accs
  | Ok (Some res) => res_IsOK res = false ∧
      (res_GasWanted res = 0 ∨ ctx_Signers (run_ctx rA) = ctx_Signers (run_ctx r))
  | Err _ => False
  | Panic _ => True
  end.
Proof.
  intros Hr. apply run_antes_cons in Hr. unfold app_auth_ante, on_tx, zoom in Hr.
  destruct (auth_AnteHandler log_gasBase (run_ctx r) tx sim (ap_tx (run_store r))) as [o1 s1] eqn:E1.
  apply auth_AnteHandler_spec in E1. destruct o1 as [[[newCtx res] abort]|e|w]; [|done|by subst].
  destruct E1 as [(->&g&accs&Ha&->&->)|(->&Hok&Hc)].
  - apply run_checks in Hr; [|repeat constructor; [apply bank_ante_checks|apply asset_ante_checks]].
    destruct o as [[res|]|e|w]; [|destruct Hr as [-> ->]; by exists g, accs, s1|done..]. destruct Hr as [??]. split; [done|by left].
  - destruct Hr as [-> ->]. split; [done|right]. by destruct Hc as [-> | ->].
Qed.
End antes.

(** * The protocol keeps to what the application relies on *)
(** ** Errors of the checks of messages have codes *)
Lemma addr_coins_nz a c : err_nz (validate_addr_coins a c).
Proof. unfold validate_addr_coins. err_nz. Qed.
Lemma validate_inputs_nz t ins : err_nz (validate_inputs t ins).1.
Proof.
  revert t. induction ins as [|i ins IH]; intros t; simpl; [err_nz|].
  pose proof (addr_coins_nz (in_Address i) (in_Coins i)) as Ha. unfold Input_ValidateBasic.
  destruct (validate_addr_coins _ _) as [[]|e|w]; simpl; [|err_nz; by apply Ha|err_nz].
  pose proof (Coins_Add_nz t (in_Coins i)) as Hc.
  destruct (Coins_Add t (in_Coins i)) as [c|e|w]; simpl; [|by intros e' [= <-]; apply Hc|err_nz].
  specialize (IH c). by destruct (validate_inputs c ins).
Qed.
Lemma validate_outputs_nz t outs : err_nz (validate_outputs t outs).1.
Proof.
  revert t. induction outs as [|i outs IH]; intros t; simpl; [err_nz|].
  pose proof (addr_coins_nz (out_Address i) (out_Coins i)) as Ha. unfold Output_ValidateBasic.
  destruct (validate_addr_coins _ _) as [[]|e|w]; simpl; [|err_nz; by apply Ha|err_nz].
  pose proof (Coins_Add_nz t (out_Coins i)) as Hc.
  destruct (Coins_Add t (out_Coins i)) as [c|e|w]; simpl; [|by intros e' [= <-]; apply Hc|err_nz].
  specialize (IH c). by destruct (validate_outputs c outs).
Qed.
Lemma MsgSend_ValidateBasic_nz m : err_nz (MsgSend_ValidateBasic m).1.
Proof.
  unfold MsgSend_ValidateBasic. case_bool_decide; simpl; [err_nz|]. case_bool_decide; simpl; [err_nz|].
  pose proof (validate_inputs_nz [] (Inputs m)) as Hi. destruct (validate_inputs [] (Inputs m)) as [[ti|e|w] ins]; simpl;
    [|by intros e' [= <-]; apply Hi|err_nz].
  pose proof (validate_outputs_nz [] (Outputs m)) as Ho. destruct (validate_outputs [] (Outputs m)) as [[to|e|w] outs]; simpl;
    [|by intros e' [= <-]; apply Ho|err_nz]. err_nz.
Qed.
Lemma guardian_ValidateBasic_nz m : err_nz (Guardian.ValidateBasic m).
Proof. destruct m; simpl; unfold Guardian.AddGuardian_ValidateBasic, Guardian.EnsureLength, Guardian.DeleteGuardian_ValidateBasic; err_nz. Qed.
Lemma rand_ValidateBasic_nz m : err_nz (Rand.ValidateBasic m).
Proof. destruct m; simpl; unfold Rand.MsgRequestRand_ValidateBasic; err_nz. Qed.
Lemma htlc_ValidateBasic_nz m : err_nz (HtlcMsg_ValidateBasic m).
Proof.
  destruct m; simpl; unfold MsgCreateHTLC_ValidateBasic, MsgClaimHTLC_ValidateBasic, MsgRefundHTLC_ValidateBasic; err_nz.
Qed.
Lemma swap_ValidateBasic_nz m : err_nz (SwapMsg_ValidateBasic m).
Proof.
  destruct m; simpl; unfold MsgSwapOrder_ValidateBasic, MsgAddLiquidity_ValidateBasic, MsgRemoveLiquidity_ValidateBasic,
    CheckUniDenom; err_nz.
Qed.
Section asset.
Import Asset.
Lemma ValidateMoniker_nz m : err_nz (ValidateMoniker m).
Proof. unfold ValidateMoniker. err_nz. Qed.
Lemma validateGatewayDesc_nz a b c : err_nz (validateGatewayDesc a b c).
Proof. unfold validateGatewayDesc. err_nz. Qed.
#[local] Hint Resolve ValidateMoniker_nz validateGatewayDesc_nz : frame.
Lemma CheckTokenID_nz i : err_nz (CheckTokenID i).
Proof. unfold CheckTokenID. err_nz. Qed.
#[local] Hint Resolve CheckTokenID_nz : frame.
Lemma asset_ValidateBasic_nz m : err_nz (ValidateBasic m).
Proof.
  destruct m; simpl; unfold MsgIssueToken_ValidateBasic, ValidateMsgIssueToken, MsgCreateGateway_ValidateBasic,
    MsgEditGateway_ValidateBasic, MsgEditToken_ValidateBasic, MsgTransferGatewayOwner_ValidateBasic,
    MsgMintToken_ValidateBasic, MsgTransferTokenOwner_ValidateBasic; err_nz.
Qed.
End asset.

Lemma AppMsg_ValidateBasic_nz Compile m : err_nz (AppMsg_ValidateBasic Compile m).1.
Proof.
  destruct m as [[m|m|m|]|m|m|m|m|m]; simpl;
    auto using guardian_ValidateBasic_nz, rand_ValidateBasic_nz, htlc_ValidateBasic_nz, swap_ValidateBasic_nz,
      asset_ValidateBasic_nz, addr_coins_nz.
  - pose proof (MsgSend_ValidateBasic_nz m) as Hm. by destruct (MsgSend_ValidateBasic m).
  - apply addr_coins_nz.
  - unfold MsgSetMemoRegexp_ValidateBasic. err_nz.
  - err_nz.
Qed.

(** ** The laws *)
Lemma checkFee_nz p f g : err_nz (checkFee p f g).
Proof. unfold checkFee. err_nz. Qed.
Lemma getFee_nz c : err_nz (getFee c).
Proof. unfold getFee. err_nz. Qed.
Lemma FeePreprocess_spec {T} (tx : StdTx T) s o s' :
  FeePreprocessHandler tx s = (o, s') → s' = s ∧ err_nz o.
Proof.
  unfold FeePreprocessHandler, bind, lift, get. pose proof (getFee_nz (fee_Amount (tx_Fee tx))) as Hg.
  destruct (getFee _) as [c|e|w]; [|intros [= <- <-]; split; [done|intros e' [= <-]; by apply Hg]|by intros [= <- <-]].
  intros [= <- <-]. split; [done|]. apply checkFee_nz.
Qed.
(** Without gas asked for, or without signers, nothing is refunded. *)
Lemma FeeRefund_none {T} ctx (tx : StdTx T) res s c s' :
  res_GasWanted res = 0 ∨ ctx_Signers ctx = [] → FeeRefundHandler ctx tx res s = (Ok c, s') → s' = s.
Proof.
  unfold FeeRefundHandler. intros Hn Hr. destruct (ctx_Signers ctx) as [|a l]; [by injection Hr as _ <-|].
  destruct Hn as [Hn|]; [|done]. inv_ok Hr. case_match; [by injection Hr as _ <-|].
  inv_ok Hr. rewrite Hn in E1. done.
Qed.

Section laws.
Context `{Crypto} `{JsonOps} `{KeyOps}.
Variable Compile : string → bool.
Variable MatchString : string → string → bool.
Variable msg_json : AppMsg → string.
Variable acc_String : AccAddress → string.
Variable fee_factor_text : Z → string.
Variable log_gasBase : Z → Z.
Variable version : Z.
Variable beginBlocker : option (Context → M AppState unit).
Variable endBlocker : option (Context → M AppState (option Z)).
#[local] Instance laws_msg : Msg AppMsg := AppMsg_Msg Compile msg_json.
Definition protocol_v2 : Protocol AppState AppMsg :=
  ProtocolV2 Compile MatchString msg_json acc_String fee_factor_text log_gasBase version beginBlocker endBlocker.

Lemma on_tx_id s : set_tx (ap_tx s) s = s.
Proof. by destruct s. Qed.
Lemma ValidateTx_spec b msgs s o s' : ValidateTx b msgs s = (o, s') → s' = s ∧ err_nz o.
Proof.
  unfold ValidateTx, bind, get, require.
  repeat (match goal with |- context [negb ?b] => destruct b end; simpl); intros [= <- <-]; split; try done; err_nz.
Qed.

Lemma v2_laws : ProtocolLaws protocol_v2.
Proof.
  split; simpl.
  - intros b msgs s. destruct (ValidateTx b msgs s) as [o s'] eqn:E. apply ValidateTx_spec in E as [-> _]. simpl. reflexivity.
  - intros b msgs s e s' E. apply ValidateTx_spec in E as [_ He]. by apply He.
  - intros m e m' E. pose proof (AppMsg_ValidateBasic_nz Compile m) as Hn. rewrite E in Hn. by apply Hn.
  - intros h tx [= <-] s. unfold on_tx, zoom. destruct (FeePreprocessHandler tx (ap_tx s)) as [o t] eqn:E.
    apply FeePreprocess_spec in E as [-> _]. simpl. by rewrite on_tx_id.
  - intros h tx s e s' [= <-]. unfold on_tx, zoom. destruct (FeePreprocessHandler tx (ap_tx s)) as [o t] eqn:E.
    apply FeePreprocess_spec in E as [_ He]. intros [= -> _]. by apply He.
  - intros h ctx tx sim Hh s e s' E. apply list_elem_of_In in Hh. destruct Hh as [<-|[<-|[<-|[]]]].
    + unfold app_auth_ante, on_tx, zoom in E.
      destruct (auth_AnteHandler log_gasBase ctx tx sim (ap_tx s)) as [o t] eqn:Ea. injection E as -> _.
      by apply auth_AnteHandler_spec in Ea.
    + by apply (bank_ante_checks MatchString) in E.
    + by apply (asset_ante_checks fee_factor_text) in E.
  - intros tx sim r res rA Hs Hr.
    apply (run_antes_v2 Compile MatchString msg_json fee_factor_text log_gasBase) in Hr as [Hok [Hg|Hg]]; [by split; [|left]|].
    split; [done|]. right. congruence.
  - intros h ctx tx res s c s' [= <-] Hn Hr. apply zoom_ok in Hr as (t&Hr&->).
    apply (FeeRefund_none _ _ _ _ _ _ Hn) in Hr as ->. by rewrite on_tx_id.
Qed.
End laws.
