(* ===== verification/AppThms.v ===== *)
(** * Transactions in a block

    What the delivery of transactions under protocol v2 keeps, and who has to sign
    for what it changes. *)

From S2P Require Import Prelude SdkErrors Frame IntType GoStrings Denom Coin CoinFacts Dec Gas KVStore Auth StdTx Ante BaseApp Bank BankFacts BankThms BankFrame AnteFacts Htlc Guardian Rat Asset AssetKeeper AssetThms AssetSupply Rand Coinswap ModuleFrames BaseAppFacts App AppFacts.
#[local] Open Scope Z_scope.
Import AssetKeeper AssetFacts AssetThms AssetSupply.

Section thms.
Context `{Crypto} `{JsonOps} `{KeyOps}.
Variable Compile : string → bool.
Variable MatchString : string → string → bool.
Variable msg_json : AppMsg → string.
Variable acc_String : AccAddress → string.
Variable fee_factor_text : Z → string.
Variable log_gasBase : Z → Z.
Variable version : Z.
Hypothesis version_pos : 0 < version.
Variable beginBlocker : option (Context → M AppState unit).
Variable endBlocker : option (Context → M AppState (option Z)).
#[local] Instance thms_msg : Msg AppMsg := AppMsg_Msg Compile msg_json.
Abbreviation v2 := (protocol_v2 Compile MatchString msg_json acc_String fee_factor_text log_gasBase version beginBlocker endBlocker).
Implicit Types (tx : StdTx AppMsg) (ctx : Context).

(** The integers of asset messages are in their types. *)
Definition tx_typed tx : Prop := ∀ m, MAsset m ∈ tx_Msgs tx → msg_typed m.

(** ** Antes *)
(** The transaction was authenticated from the store [s] in the context [ctx]. *)
Definition antes_ok ctx tx (s s' : AppState) : Prop :=
  ∃ s0 accs, same_store s s0 ∧ authenticated ctx tx false (ap_tx s0) accs (ap_tx s') ∧ s' = set_tx (ap_tx s') s.

Lemma same_store_app (s s' : AppState) :
  same_store s s' ↔ ∃ g, s' = set_auth (set_gas g (app_auth s)) s.
Proof. done. Qed.
Lemma app_wf_gas g s : app_wf s → app_wf (set_auth (set_gas g (app_auth s)) s).
Proof.
  intros [[Ha Hc Hn] Hi]. split; [by split; simpl; [apply auth_wf_gas|..]|].
  destruct Hi as [Hi1 Hi2 Hi3 Hi4]. split; simpl; try done. by apply auth_wf_gas.
Qed.
Lemma same_store_wf s s' : same_store s s' → app_wf s → app_wf s'.
Proof. intros [g ->]. apply app_wf_gas. Qed.

Lemma antes_pass_ok mode tx ctx s rA :
  fee_ok (fee_Amount (tx_Fee tx)) → app_wf s → simulating mode = false → antes_pass v2 mode tx ctx s rA →
  antes_ok ctx tx s (run_store rA) ∧ ∃ accs, run_ctx rA = WithSigners ctx accs.
Proof.
  intros Hf Hs Hm (r0&Hc&Hs0&HA). rewrite Hm in HA. apply run_antes_v2 in HA as (g&accs&st&Ha&Hst&Hcx).
  rewrite Hc in *. split; [|eauto]. destruct Hs0 as [g0 E0].
  apply authenticate_ok in Ha; [|done|].
  2: { rewrite E0. destruct (aw_tx _ Hs). split; simpl; [by do 2 apply auth_wf_gas|done..]. }
  exists (set_auth (set_gas g (app_auth s)) s), accs. split; [by exists g|]. rewrite Hst. simpl.
  split; [|by rewrite E0]. rewrite E0 in Ha. exact Ha.
Qed.

(** Only accounts and fees changed. *)
Lemma app_wf_accounts s t :
  app_wf s → tx_wf t → only_accounts (app_auth s) (ts_auth t) → app_wf (set_tx t s).
Proof.
  intros [_ [H1' H2' H3' H4']] Ht [_ (_&Es&_)]. split; [done|]. split; simpl; try done; [apply Ht|].
  intros k t' Hk. destruct (H3' _ _ Hk) as (c&Hc&Hd). exists c. split; [|done]. change (totalSupply (ts_auth t) !! supply_key t' = Some c). by rewrite Es.
Qed.

(** ** What a transaction keeps *)
Definition tx_rel (may : AccAddress → Prop) (s s' : AppState) : Prop :=
  app_wf s → app_wf s' ∧ all_iris s' = all_iris s ∧
  ∀ x d, ¬ may x → balance (app_auth s) x d ≤ balance (app_auth s') x d.
#[local] Instance tx_rel_po may : PreOrder (tx_rel may).
Proof.
  split; [intros s Hs; split_and!; [done|done|lia]|]. intros s1 s2 s3 H1' H2' Hs. destruct (H1' Hs) as (W1&I1&D1).
  destruct (H2' W1) as (W2&I2&D2). split_and!; [done|congruence|]. intros x d Hx. specialize (D1 x d Hx). specialize (D2 x d Hx). lia.
Qed.
Lemma tx_rel_step may s s' : app_rel may s s' → tx_rel may s s'.
Proof. intros Hr Hs. by destruct (Hr Hs). Qed.
Lemma tx_rel_same may s s' : same_store s s' → tx_rel may s s'.
Proof. intros [g ->] Hs. split_and!; [by apply app_wf_gas|done|]. intros x d _. change (balance (app_auth s) x d ≤ balance (app_auth s) x d). lia. Qed.

Lemma antes_ok_rel may ctx tx s s' :
  Forall may (StdTx.GetSigners tx) → antes_ok ctx tx s s' → tx_rel may s s'.
Proof.
  intros Hm (s0&accs&[g ->]&Ha&E) Hs. destruct Ha as [_ _ _ Ho Hsup _ Hc Hw]. rewrite E. split_and!.
  - by apply app_wf_accounts.
  - unfold all_iris. simpl. by rewrite Hc.
  - intros x d Hx. unfold balance, coins_of, app_auth. simpl. rewrite Ho; [done|].
    intros Hin. rewrite Forall_forall in Hm. by apply Hx, Hm.
Qed.

Lemma refund_ok {T} ctx (t : StdTx T) res s c s' :
  sorted (fee_Amount (tx_Fee t)) → app_wf s → on_tx (FeeRefundHandler ctx t res) s = (Ok c, s') →
  app_wf s' ∧ all_iris s' = all_iris s ∧ (∀ x d, balance (app_auth s) x d ≤ balance (app_auth s') x d) ∧
  keeps_accounts (app_auth s) (app_auth s') ∧ only_accounts (app_auth s) (app_auth s') ∧ s' = set_tx (ap_tx s') s.
Proof.
  intros Hf Hs Hr. apply zoom_ok in Hr as (t'&Hr&->).
  apply (FeeRefundHandler_ok _ _ _ _ _ _ Hf (aw_tx _ Hs)) in Hr.
  assert (Hsame : t' = ap_tx s ∨ ∃ payer r, refunded payer r (ap_tx s) t').
  { destruct (ctx_Signers ctx) as [|payer l]; [by left|]. case_match; [by left|]. right. destruct Hr as [Hr _]. by eexists _, _. }
  destruct Hsame as [->|(payer&r&[Hw Hr0 Hc _ Hb Hk Hsup _])].
  - rewrite on_tx_id. split_and!; [done|done|lia|done|done|by rewrite on_tx_id].
  - split_and!; [by apply app_wf_accounts|by unfold all_iris; simpl; rewrite Hc| |done|done|done].
    intros x d. unfold app_auth. simpl. rewrite Hb. case_decide; lia.
Qed.

(** Checked messages. *)
Lemma admitted_checked tx msgs m : tx_typed tx → admitted v2 tx msgs → m ∈ msgs → msg_checked Compile m.
Proof.
  intros Ht Ha Hm. destruct (admitted_in _ _ _ _ Ha Hm) as (m0&Hm0&Hv). split; [by exists m0|].
  destruct m as [m|m|m|m|m|m]; try done. apply Ht. simpl in Hv.
  destruct m0 as [[m0|m0|m0|]|m0|m0|m0|m0|m0]; simpl in Hv; simplify_eq; try done. by destruct (MsgSend_ValidateBasic m0).
Qed.
Lemma signers_of tx m x : m ∈ tx_Msgs tx → x ∈ AppMsg_GetSigners m → x ∈ StdTx.GetSigners tx.
Proof.
  intros Hm Hx. apply unseen_spec. split; [|set_solver]. apply list_elem_of_join. exists (AppMsg_GetSigners m).
  split; [done|]. apply list_elem_of_fmap. by exists m.
Qed.

(** The effect of an admitted transaction, whoever may be debited. *)
Lemma tx_effect_keeps may mode tx msgs ctx s s' :
  (∀ x, module_account x → may x) → Forall may (StdTx.GetSigners (with_msgs msgs tx)) →
  tx_typed tx → admitted v2 tx msgs → simulating mode = false →
  tx_effect v2 mode (with_msgs msgs tx) ctx s s' → tx_rel may s s'.
Proof.
  intros Hh Hm Ht Ha Hmode Heff Hs. pose proof (proj2 Ha version_pos) as Hfee.
  pose proof (proj1 (fee_ok_inv _ Hfee)) as Hsort. revert Hs.
  eapply (tx_effect_rel v2 (tx_rel may)); [apply tx_rel_same|..|exact Heff].
  - intros rA HA Hs. destruct (antes_pass_ok mode (with_msgs msgs tx) _ _ _ Hfee Hs Hmode HA) as [Hok _]. by eapply antes_ok_rel.
  - intros c m h Hmm Hroute. apply (framed_impl (app_rel may)); [apply tx_rel_step|].
    eapply (route_framed Compile acc_String fee_factor_text); [done|by eapply admitted_checked| |done].
    apply Forall_forall. intros x Hx. rewrite Forall_forall in Hm. apply Hm. by eapply signers_of.
  - intros h c res co s1 s2 [= <-] Hr Hs1. destruct (refund_ok _ _ _ _ _ _ Hsort Hs1 Hr) as (?&?&?&_). by split_and!.
Qed.

(** ** Tokens and their owners *)
(** The gateway of a token is known. *)
Definition homed (s : AppState) (t : Asset.FungibleToken) : Prop :=
  Asset.ft_Source t = Asset.GATEWAY → is_Some (ap_gateways s !! KeyGateway (Asset.ft_Gateway t)).
(** The token [t] is as before and its supply has not risen. *)
Record token_kept (k : string) (t : Asset.FungibleToken) (s s' : AppState) : Prop := {
  tk_entry : ap_tokens s' !! k = Some t;
  tk_homed : homed s' t;
  tk_owner : owner_of (app_asset s') t = owner_of (app_asset s) t;
  tk_supply c c' : supply_of (app_asset s) t = Some c → supply_of (app_asset s') t = Some c' → amount c' ≤ amount c }.
(** Tokens of owners outside the list are kept. *)
Definition tokens_kept (l : list AccAddress) (s s' : AppState) : Prop :=
  ∀ k t, ap_tokens s !! k = Some t → homed s t → owner_of (app_asset s) t ∉ l → token_kept k t s s'.
Definition token_rel (l : list AccAddress) (s s' : AppState) : Prop := app_wf s → app_wf s' ∧ tokens_kept l s s'.

Lemma token_kept_same k t s s' :
  ap_tokens s' = ap_tokens s → ap_gateways s' = ap_gateways s → supply_le (app_auth s) (app_auth s') →
  ap_tokens s !! k = Some t → homed s t → token_kept k t s s'.
Proof.
  intros Et Eg Hs Hk Hh. split; [by rewrite Et|by unfold homed; rewrite Eg|by unfold owner_of; simpl; rewrite Eg|].
  intros c c' Hc Hc'. specialize (Hs (supply_key t)). unfold supply_of in *. simpl in *. rewrite Hc in Hs.
  destruct Hs as (c1&E&_&?). rewrite Hc' in E. by injection E as <-.
Qed.
Lemma token_kept_trans k t s1 s2 s3 : app_wf s2 → token_kept k t s1 s2 → token_kept k t s2 s3 → token_kept k t s1 s3.
Proof.
  intros Hw [E1 H1' O1 S1] [E2 H2' O2 S2]. split; [done|done|congruence|]. intros c c'' Hc Hc''.
  destruct (ai_supply _ (aw_asset _ Hw) _ _ E1) as (c'&Hc'&_). specialize (S1 c c' Hc Hc'). specialize (S2 c' c'' Hc' Hc''). lia.
Qed.
#[local] Instance token_rel_po l : PreOrder (token_rel l).
Proof.
  split.
  - intros s Hs. split; [done|]. intros k t Hk Hh _. by apply token_kept_same.
  - intros s1 s2 s3 H1' H2' Hs. destruct (H1' Hs) as [W1 K1]. destruct (H2' W1) as [W2 K2]. split; [done|].
    intros k t Hk Hh Ho. specialize (K1 k t Hk Hh Ho). apply (token_kept_trans k t s1 s2 s3 W1 K1).
    destruct K1 as [E1 Hh1 O1 _]. apply K2; [done|done|by rewrite O1].
Qed.
Lemma tokens_kept_asset l a s :
  authorized l (app_asset s) a → ∀ l', (∀ x, x ∈ l → x ∈ l') → tokens_kept l' s (set_asset a s).
Proof.
  intros [At Ag As] l' Hl k t Hk Hh Ho.
  assert (Hne : ∀ x, l = [x] → owner_of (app_asset s) t ≠ x). { intros x Hx E. apply Ho, Hl. rewrite Hx, E. by left. }
  assert (Hgw : Asset.ft_Source t = Asset.GATEWAY → ∃ g,
    ap_gateways s !! KeyGateway (Asset.ft_Gateway t) = Some g ∧ gateways a !! KeyGateway (Asset.ft_Gateway t) = Some g).
  { intros Hsrc. destruct (Hh Hsrc) as [g Hg]. exists g. split; [done|]. destruct (Ag _ _ Hg) as [?|El]; [done|].
    destruct (Hne _ El). unfold owner_of. rewrite bool_decide_true by done. simpl. by rewrite Hg. }
  split; simpl.
  - destruct (At _ _ Hk) as [?|El]; [done|]. by destruct (Hne _ El).
  - intros Hsrc. destruct (Hgw Hsrc) as (g&_&Hg). simpl. rewrite Hg. done.
  - unfold owner_of. case_bool_decide as Hsrc; [|done]. destruct (Hgw Hsrc) as (g&Hg1&Hg2). simpl. by rewrite Hg1, Hg2.
  - intros c c' Hc Hc'. destruct (As _ _ _ _ Hk Hc Hc') as [?|El]; [done|]. by destruct (Hne _ El).
Qed.

(** A message keeps the tokens of those who did not sign it. *)
Lemma tokens_kept_bank l s s' :
  ap_tokens s' = ap_tokens s → ap_gateways s' = ap_gateways s → supply_le (app_auth s) (app_auth s') → tokens_kept l s s'.
Proof. intros Et Eg Hs k t Hk Hh _. by apply token_kept_same. Qed.
Lemma route_tokens l ctx msg h :
  msg_checked Compile msg → (∀ x, x ∈ AppMsg_GetSigners msg → x ∈ l) →
  Route (app_routes acc_String fee_factor_text) (AppMsg_Route msg) = Some h → framed (token_rel l) (h ctx msg).
Proof.
  intros Hc Hl Hroute. pose proof (route_framed Compile acc_String fee_factor_text (λ _, True) (λ _ _, I) ctx msg h Hc) as Hf.
  specialize (Hf ltac:(by apply Forall_true) Hroute). apply framed_intro; [|intros s e s' E; by eapply framed_err].
  intros s [] s' Hr Hs. pose proof (framed_ok _ _ _ _ _ Hf Hr Hs) as [Hw _ _ _]. split; [done|].
  destruct Hc as [[msg0 Hv] Ht]. destruct msg as [m|m|m|m|m|m]; injection Hroute as <-; apply zoom_ok in Hr as (a&Hr&->).
  - apply tokens_kept_bank; [done|done|]. by eapply framed_ok, Hr; apply bank_Handler_supply.
  - by apply tokens_kept_bank.
  - eapply tokens_kept_asset; [|exact Hl]. eapply Handler_authorized; [apply Hs| |done|exact Hr].
    destruct msg0 as [[m0|m0|m0|]|m0|m0|m0|m0|m0]; simpl in Hv; try done; [by destruct (MsgSend_ValidateBasic m0)|congruence].
  - by apply tokens_kept_bank.
  - apply tokens_kept_bank; [done|done|].
    apply (framed_ok (swap_rel (bank_change (λ _, True)))) in Hr; [apply Hr|].
    apply (swap_Handler_framed _ (λ _, True)); [done|by intros; apply send_change|by intros; apply add_change|apply addCoins_no_err|
      by intros; apply sub_change|by apply Forall_true].
  - apply tokens_kept_bank; [done|done|].
    apply (framed_ok (htlc_rel (bank_change (λ _, True)))) in Hr; [apply Hr|].
    apply (htlc_Handler_framed _ (λ _, True)); [done|by intros; apply send_change|by apply Forall_true].
Qed.

Lemma tx_effect_tokens mode tx msgs ctx s s' :
  tx_typed tx → admitted v2 tx msgs → simulating mode = false →
  tx_effect v2 mode (with_msgs msgs tx) ctx s s' → token_rel (StdTx.GetSigners (with_msgs msgs tx)) s s'.
Proof.
  intros Ht Ha Hmode Heff Hs. pose proof (proj2 Ha version_pos) as Hfee.
  pose proof (proj1 (fee_ok_inv _ Hfee)) as Hsort. revert Hs. set (l := StdTx.GetSigners (with_msgs msgs tx)).
  eapply (tx_effect_rel v2 (token_rel l)); [..|exact Heff].
  - intros s1 s2 Hsame Hs. split; [by eapply same_store_wf|]. destruct Hsame as [g ->]. apply tokens_kept_bank; [done|done|apply supply_le_gas].
  - intros rA HA Hs. destruct (antes_pass_ok mode (with_msgs msgs tx) _ _ _ Hfee Hs Hmode HA) as [Hok _].
    split; [by eapply (antes_ok_rel (λ _, True)); [apply Forall_true|..]|].
    destruct Hok as (s0&accs&[g ->]&Hau&E). rewrite E. apply tokens_kept_bank; [done|done|]. apply supply_le_same.
    apply (au_supply _ _ _ _ _ _ Hau).
  - intros c m h Hmm Hroute. eapply route_tokens; [by eapply admitted_checked| |done]. intros x Hx. by eapply signers_of.
  - intros h c res co s1 s2 [= <-] Hr Hs1. destruct (refund_ok _ _ _ _ _ _ Hsort Hs1 Hr) as (?&_&_&_&Hsup&E).
    split; [done|]. rewrite E. apply tokens_kept_bank; [done|done|]. apply supply_le_same, Hsup.
Qed.

(** ** Signatures *)
(** The account [x] of the store [s] signed the transaction: the signature at its
    place among the signers is valid. *)
Definition signed_by ctx tx (s : AppState) (x : AccAddress) : Prop :=
  ∃ i acc sig pk, StdTx.GetSigners tx !! i = Some x ∧ accounts (app_auth s) !! x = Some acc ∧ tx_Signatures tx !! i = Some sig ∧
    sig_Sequence sig = acc_Sequence acc ∧
    sig_AccountNumber sig = (if hd_Height (ctx_Header ctx) =? 0 then 0 else acc_AccountNumber acc) ∧
    (acc_PubKey acc = Some pk ∨ acc_PubKey acc = None ∧ pk_Address pk = x) ∧
    pk_VerifyBytes pk (sign_bytes ctx tx sig) (sig_Signature sig) = true.

Lemma paid_lookup fee accs accs' i acc' :
  paid fee accs accs' → accs' !! i = Some acc' →
  ∃ acc, accs !! i = Some acc ∧ acc_Address acc' = acc_Address acc ∧ acc_PubKey acc' = acc_PubKey acc ∧
         acc_Sequence acc' = acc_Sequence acc ∧ acc_AccountNumber acc' = acc_AccountNumber acc.
Proof.
  intros [[_ ->]|(payer&rest&c&->&->&_)] Hi; [by exists acc'|]. destruct i as [|i]; [|by exists acc'].
  injection Hi as <-. by exists payer.
Qed.

Lemma antes_signed ctx tx s s' x :
  app_wf s → antes_ok ctx tx s s' → x ∈ StdTx.GetSigners tx → signed_by ctx tx s x.
Proof.
  intros Hs (s0&accs'&[g ->]&Ha&_) Hx. destruct (au_signers _ _ _ _ _ _ Ha) as (accs&accs1&Hload&Hseq&Hpaid&Hsig).
  apply list_elem_of_lookup in Hx as [i Hi].
  destruct (Forall2_lookup_l _ _ _ _ _ Hload Hi) as (acc&Hacc&Hst). simpl in Hst.
  destruct (Forall2_lookup_l _ _ _ _ _ Hseq Hacc) as (sig&Hsi&Hsq&Hnum).
  assert (is_Some (accs1 !! i)) as [acc1 Hacc1].
  { apply lookup_lt_is_Some. rewrite (paid_length _ _ _ Hpaid). by eapply lookup_lt_Some. }
  destruct (paid_lookup _ _ _ _ _ Hpaid Hacc1) as (acc2&Hacc2&Ead&Epk&Esq&_).
  rewrite Hacc in Hacc2. injection Hacc2 as <-.
  destruct (Forall3_lookup_l _ _ _ _ _ _ Hsig Hacc1) as (sig'&acc3&Hsi'&_&pk&Hkey&Hver&_).
  rewrite Hsi in Hsi'. injection Hsi' as <-.
  exists i, acc, sig, pk. split_and!; [done|done|done|done| | |by destruct Hver].
  - destruct (hd_Height (ctx_Header ctx) =? 0); congruence.
  - unfold signing_key in Hkey. rewrite Epk, Ead in Hkey. destruct Hkey as [?|(?&_&?)]; [by left|right]. split; [done|].
    pose proof (wf_address _ (tw_auth _ (aw_tx _ Hs)) _ _ Hst). congruence.
Qed.

(** ** Sequence numbers *)
Definition accounts_kept (s s' : AppState) : Prop := app_wf s → app_wf s' ∧ keeps_accounts (app_auth s) (app_auth s').
#[export] Instance accounts_kept_po : PreOrder accounts_kept.
Proof.
  split; [by intros s Hs|]. intros s1 s2 s3 H1' H2' Hs. destruct (H1' Hs) as [W1 K1]. destruct (H2' W1) as [W2 K2].
  split; [done|by etrans].
Qed.
Lemma accounts_kept_same s s' : same_store s s' → accounts_kept s s'.
Proof. intros [g ->] Hs. split; [by apply app_wf_gas|by apply keeps_same_accounts]. Qed.

Lemma refund_kept tx ctx s s' :
  sorted (fee_Amount (tx_Fee tx)) → refund_ran v2 tx ctx s s' → accounts_kept s s'.
Proof.
  intros Hsort [Hsame|(h&re&co&s3&s4&[= <-]&Hs3&Hh&Hs4)]; [by apply accounts_kept_same|].
  etrans; [by apply accounts_kept_same|]. etrans; [|by apply accounts_kept_same]. intros Hw.
  by destruct (refund_ok _ _ _ _ _ _ Hsort Hw Hh) as (?&_&_&?&_).
Qed.
Lemma msgs_kept mode tx msgs ctx s s' :
  tx_typed tx → admitted v2 tx msgs → msgs_ran v2 mode (with_msgs msgs tx) ctx s s' → accounts_kept s s'.
Proof.
  intros Ht Ha (s3&re&s4&Hs3&Hrun&Hok&Hs4). etrans; [by apply accounts_kept_same|]. etrans; [|by apply accounts_kept_same].
  eapply (runMsgs_framed v2 accounts_kept); [|done|done]. intros m h Hm Hroute.
  apply (framed_impl (app_rel (λ _, True))); [intros s5 s6 Hr Hw; by destruct (Hr Hw)|].
  eapply (route_framed Compile acc_String fee_factor_text); [done|by eapply admitted_checked|by apply Forall_true|done].
Qed.
Lemma tx_effect_phases mode tx msgs ctx s s' :
  tx_typed tx → admitted v2 tx msgs → simulating mode = false → app_wf s →
  tx_effect v2 mode (with_msgs msgs tx) ctx s s' →
  same_store s s' ∨ ∃ sA, antes_ok ctx (with_msgs msgs tx) s sA ∧ accounts_kept sA s'.
Proof.
  intros Ht Ha Hmode Hs Heff. pose proof (proj2 Ha version_pos) as Hfee. pose proof (proj1 (fee_ok_inv _ Hfee)) as Hsort.
  destruct Heff as [s2 Hsame|rA s2 HA HR|rA s1 s2 _ HA HM HR]; [by left|right..];
    destruct (antes_pass_ok mode (with_msgs msgs tx) _ _ _ Hfee Hs Hmode HA) as [Hau _];
    exists (run_store rA); (split; [done|]).
  - by eapply (refund_kept (with_msgs msgs tx)).
  - etrans; [by eapply (msgs_kept mode tx)|by eapply (refund_kept (with_msgs msgs tx))].
Qed.

Lemma antes_sequences ctx tx s s' x acc :
  app_wf s → antes_ok ctx tx s s' → accounts (app_auth s) !! x = Some acc →
  ∃ acc', accounts (app_auth s') !! x = Some acc' ∧ acc_AccountNumber acc' = acc_AccountNumber acc ∧
    acc_Sequence acc' = if decide (x ∈ StdTx.GetSigners tx) then wrap64 (acc_Sequence acc + 1) else acc_Sequence acc.
Proof.
  intros Hs (s0&accs'&[g ->]&Ha&_) Hx. destruct (decide (x ∈ StdTx.GetSigners tx)) as [Hin|Hni].
  2: { exists acc. split; [|done]. etrans; [exact (au_others _ _ _ _ _ _ Ha x Hni)|exact Hx]. }
  destruct (au_signers _ _ _ _ _ _ Ha) as (accs&accs1&Hload&Hseq&Hpaid&Hsig).
  apply list_elem_of_lookup in Hin as [i Hi].
  destruct (Forall2_lookup_l _ _ _ _ _ Hload Hi) as (acc0&Hacc&Hst). simpl in Hst. rewrite Hx in Hst. injection Hst as <-.
  assert (is_Some (accs1 !! i)) as [acc1 Hacc1].
  { apply lookup_lt_is_Some. rewrite (paid_length _ _ _ Hpaid). by eapply lookup_lt_Some. }
  destruct (paid_lookup _ _ _ _ _ Hpaid Hacc1) as (acc2&Hacc2&Ead&_&Esq&Enum).
  rewrite Hacc in Hacc2. injection Hacc2 as <-.
  destruct (Forall3_lookup_l _ _ _ _ _ _ Hsig Hacc1) as (sig&acc3&_&Hacc3&pk&_&_&->).
  pose proof (au_stored _ _ _ _ _ _ Ha) as Hstored. rewrite Forall_forall in Hstored.
  specialize (Hstored _ ltac:(by eapply list_elem_of_lookup_2)). simpl in Hstored.
  pose proof (wf_address _ (tw_auth _ (aw_tx _ Hs)) _ _ Hx) as Had. rewrite Ead, Had in Hstored.
  eexists. split; [exact Hstored|]. simpl. by rewrite Enum, Esq.
Qed.

(** Over at most [n] transactions, below the largest sequence number. *)
Definition sequences (n : Z) (s s' : AppState) : Prop :=
  ∀ x acc, accounts (app_auth s) !! x = Some acc → 0 ≤ acc_Sequence acc → acc_Sequence acc + n < 2^64 →
  ∃ acc', accounts (app_auth s') !! x = Some acc' ∧ acc_Sequence acc ≤ acc_Sequence acc' ≤ acc_Sequence acc + n.
Lemma sequences_trans n m s1 s2 s3 : 0 ≤ m → sequences n s1 s2 → sequences m s2 s3 → sequences (n + m) s1 s3.
Proof.
  intros Hm H1' H2' x acc Hx Hp Hlt. destruct (H1' x acc Hx Hp ltac:(lia)) as (acc1&Hx1&?).
  destruct (H2' x acc1 Hx1 ltac:(lia) ltac:(lia)) as (acc2&?&?). exists acc2. split; [done|lia].
Qed.
Lemma sequences_same n s s' : 0 ≤ n → same_store s s' → sequences n s s'.
Proof. intros Hn [g ->] x acc Hx _ _. exists acc. split; [done|lia]. Qed.
Lemma tx_sequences mode tx msgs ctx s s' :
  tx_typed tx → admitted v2 tx msgs → simulating mode = false → app_wf s →
  tx_effect v2 mode (with_msgs msgs tx) ctx s s' → sequences 1 s s'.
Proof.
  intros Ht Ha Hmode Hs Heff. destruct (tx_effect_phases _ _ _ _ _ _ Ht Ha Hmode Hs Heff) as [Hsame|(sA&HA&Hk)].
  { by apply sequences_same. }
  intros x acc Hx Hp Hlt. destruct (antes_sequences _ _ _ _ _ _ Hs HA Hx) as (acc1&Hx1&_&Hsq).
  assert (Hw : app_wf sA) by (by eapply (antes_ok_rel (λ _, True)); [apply Forall_true|..]).
  destruct (proj2 (Hk Hw) _ _ Hx1) as (acc2&Hx2&_&_&_&Hsq2). exists acc2. split; [done|]. rewrite <-Hsq2, Hsq.
  case_decide; [rewrite wrap64_small by lia|]; lia.
Qed.

(** ** Delivery *)
Variable protocols : Z → option (Protocol AppState AppMsg).
Variable txDecoder : string → Outcome (StdTx AppMsg).
Hypothesis decoder_typed : ∀ b tx, txDecoder b = Ok tx → tx_typed tx.
Abbreviation deliver b := (DeliverTx protocols txDecoder b).

(** A block is in progress under protocol v2. *)
Record in_block (a : BaseApp AppState) (d : DeliverState AppState) : Prop := {
  ib_protocol : protocols (app_current a) = Some v2;
  ib_deliver : app_deliverState a = Some d;
  ib_signers : ctx_Signers (d_ctx d) = [] }.

(** What the delivery of a transaction did. *)
Inductive delivered (b : string) (ctx : Context) (s : AppState) (res : Result) (s' : AppState) : Prop :=
| delivered_rejected : res_IsOK res = false → same_store s s' → delivered b ctx s res s'
| delivered_ran tx msgs :
    txDecoder b = Ok tx → admitted v2 tx msgs →
    tx_effect v2 RunTxModeDeliver (with_msgs msgs tx) ctx s s' →
    (res_IsOK res = true → ∃ rA s1, antes_pass v2 RunTxModeDeliver (with_msgs msgs tx) ctx s rA ∧
       msgs_ran v2 RunTxModeDeliver (with_msgs msgs tx) (run_ctx rA) (run_store rA) s1 ∧
       refund_ran v2 (with_msgs msgs tx) (run_ctx rA) s1 s') →
    delivered b ctx s res s'.

Lemma DeliverTx_spec b a d res a' :
  (∀ e, txDecoder b = Err e → code e ≠ 0) → in_block a d → deliver b a = (Ok res, a') →
  ∃ d', in_block a' d' ∧ d_ctx d' = d_ctx d ∧ delivered b (WithTxBytes (d_ctx d) b) (d_store d) res (d_store d').
Proof.
  intros Hdec [Hp Hd Hs] Hr. unfold DeliverTx in Hr. destruct (txDecoder b) as [tx|e|w] eqn:Et; [| |done].
  2: { injection Hr as <- <-. exists d. split_and!; [done|done|]. apply delivered_rejected; [|done].
       by apply Error_Result_not_ok, Hdec. }
  unfold GetCurrentProtocol, get_deliver, bind, get in Hr. rewrite Hp in Hr. unfold ret in Hr. rewrite Hd in Hr.
  destruct (d_blockGas d) as [g|]; [|done].
  destruct (runTx v2 RunTxModeDeliver b tx _) as [o r] eqn:E. injection Hr as -> <-.
  eexists. split_and!; [by split|done|]. simpl.
  assert (Hfresh : same_store (d_store d) (fresh (d_store d))) by (by eexists).
  apply (runTx_effect v2 (v2_laws _ _ _ _ _ _ _ _ _)) in E as [[Hok Hsame]|(msgs&Had&Heff&Hok)]; [| |done].
  - apply delivered_rejected; [done|]. etrans; [exact Hfresh|done].
  - apply (delivered_ran _ _ _ _ _ tx msgs); [done|done|by eapply tx_effect_start|].
    intros Hr. destruct (Hok Hr eq_refl) as (rA&s1&HA&HM&HR). exists rA, s1. split_and!; [by eapply antes_pass_start|done|done].
Qed.
End thms.
