(* ===== verification/AppProps.v ===== *)
(** * Properties of the delivery of transactions

    For any history of transactions of the bank, guardian, asset, rand, coinswap and
    HTLC modules in a block under protocol v2: the native token is conserved, coins
    and tokens need the signatures of their owners, and a transaction cannot be
    replayed. *)

From S2P Require Import Prelude SdkErrors Frame IntType GoStrings Denom Coin CoinFacts Dec Gas KVStore Auth StdTx Ante BaseApp Bank BankFacts BankThms BankFrame AnteFacts Htlc Guardian Rat Asset AssetKeeper AssetThms AssetSupply Rand Coinswap ModuleFrames BaseAppFacts App AppFacts AppThms.
#[local] Open Scope Z_scope.
Import AssetKeeper AssetFacts AssetThms.

Section props.
Context `{Crypto} `{JsonOps} `{KeyOps}.
Variable Compile : string → bool.
Variable MatchString : string → string → bool.
Variable msg_json : AppMsg → string.
Variable acc_String : AccAddress → string.
Variable fee_factor_text : Z → string.
Variable log_gasBase : Z → Z.
Variable version : Z.
Hypothesis version_pos : 0 < version.
Variable beginBlocker : option (Context → M AppState unit).
Variable endBlocker : option (Context → M AppState (option Z)).
Variable protocols : Z → option (Protocol AppState AppMsg).
Variable Unmarshal : string → option (StdTx AppMsg).
(** The codec yields integers in their types. *)
Hypothesis Unmarshal_typed : ∀ b tx, Unmarshal b = Some tx → tx_typed tx.
#[local] Instance props_msg : Msg AppMsg := AppMsg_Msg Compile msg_json.
Abbreviation v2 := (protocol_v2 Compile MatchString msg_json acc_String fee_factor_text log_gasBase version beginBlocker endBlocker).
Abbreviation decoder := (DefaultTxDecoder Unmarshal).
Abbreviation deliver b := (DeliverTx protocols decoder b).
Abbreviation in_v2_block := (in_block Compile MatchString msg_json acc_String fee_factor_text log_gasBase version
  beginBlocker endBlocker protocols).
Implicit Types (a : BaseApp AppState) (d : DeliverState AppState).

(** The transactions of a block in turn. *)
Definition deliver_all (l : list string) : M (BaseApp AppState) unit := for_each l (λ b, deliver b ;;; ret tt).

Lemma decoder_nz b e : decoder b = Err e → code e ≠ 0.
Proof. unfold DefaultTxDecoder. repeat case_match; intros; simplify_eq; done. Qed.
Lemma decoder_typed b tx : decoder b = Ok tx → tx_typed tx.
Proof. unfold DefaultTxDecoder. repeat case_match; intros; simplify_eq. by eapply Unmarshal_typed. Qed.

Lemma deliver_spec b a d res a' :
  in_v2_block a d → deliver b a = (Ok res, a') →
  ∃ d', in_v2_block a' d' ∧ d_ctx d' = d_ctx d ∧
    delivered Compile MatchString msg_json acc_String fee_factor_text log_gasBase version beginBlocker endBlocker decoder
      b (WithTxBytes (d_ctx d) b) (d_store d) res (d_store d').
Proof. intros Hin Hr. eapply (DeliverTx_spec _ _ _ _ _ _ _ _ _ protocols decoder); [by eapply decoder_nz|done|done]. Qed.

(** One transaction. *)
Lemma deliver_keeps b a d res a' :
  in_v2_block a d → app_wf (d_store d) → deliver b a = (Ok res, a') →
  ∃ d', in_v2_block a' d' ∧ d_ctx d' = d_ctx d ∧ app_wf (d_store d') ∧
    all_iris (d_store d') = all_iris (d_store d) ∧ sequences 1 (d_store d) (d_store d').
Proof.
  intros Hin Hw Hr. destruct (deliver_spec _ _ _ _ _ Hin Hr) as (d'&Hin'&Hc&Hd). exists d'. split; [done|]. split; [done|].
  destruct Hd as [_ Hsame|tx msgs Hdec Had Heff _].
  - destruct (tx_rel_same (λ _, True) _ _ Hsame Hw) as (?&?&_). split_and!; [done|done|by apply sequences_same].
  - pose proof (decoder_typed _ _ Hdec) as Ht.
    edestruct (tx_effect_keeps Compile MatchString msg_json acc_String fee_factor_text log_gasBase version version_pos beginBlocker
      endBlocker (λ _, True) RunTxModeDeliver) as (?&?&_); [done|by apply Forall_true|exact Ht|exact Had|done|exact Heff|done|].
    split_and!; [done|done|]. by eapply (tx_sequences Compile MatchString msg_json acc_String fee_factor_text log_gasBase version version_pos _ _ RunTxModeDeliver).
Qed.
Lemma deliver_all_keeps l a d a' :
  in_v2_block a d → app_wf (d_store d) → deliver_all l a = (Ok tt, a') →
  ∃ d', in_v2_block a' d' ∧ d_ctx d' = d_ctx d ∧ app_wf (d_store d') ∧
    all_iris (d_store d') = all_iris (d_store d) ∧ sequences (Z.of_nat (length l)) (d_store d) (d_store d').
Proof.
  revert a d. induction l as [|b l IH]; intros a d Hin Hw Hr.
  - injection Hr as <-. exists d. split_and!; try done. by apply sequences_same.
  - unfold deliver_all in Hr. simpl in Hr. inv_ok Hr.
    destruct (deliver_keeps _ _ _ _ _ Hin Hw E0) as (d1&Hin1&Hc1&Hw1&Hi1&Hs1).
    destruct (IH _ _ Hin1 Hw1 Hr) as (d2&Hin2&Hc2&Hw2&Hi2&Hs2). exists d2. split_and!; [done|congruence|done|congruence|].
    replace (Z.of_nat (length (b :: l))) with (1 + Z.of_nat (length l)) by (simpl; lia). eapply sequences_trans; [lia|done|done].
Qed.

(** C2. Whatever transactions of the bank, guardian, asset, rand, coinswap and HTLC modules
    a block delivers, with whatever results, the native token in accounts and in the
    pool of fees stays the same, and balances and recorded tokens stay well-formed.
    (The messages of the other modules, which can move the native token from
    accounts to pools of delegations and rewards, are not among these transactions.) *)
Theorem iris_conserved (l : list string) a d a' (Hin : in_v2_block a d) (Hw : app_wf (d_store d))
    (Hr : deliver_all l a = (Ok tt, a')) :
  ∃ d', app_deliverState a' = Some d' ∧ app_wf (d_store d') ∧ all_iris (d_store d') = all_iris (d_store d).
Proof.
  destruct (deliver_all_keeps _ _ _ _ Hin Hw Hr) as (d'&[_ Hd' _]&_&?&?&_). by exists d'.
Qed.

(** The transaction that was delivered, checked, and signed by [x]. *)
Definition tx_signed_by (b : string) (ctx : Context) (s : AppState) (x : AccAddress) : Prop :=
  ∃ tx msgs, Unmarshal b = Some tx ∧ validateBasicTxMsgs (tx_Msgs tx) = (Ok tt, msgs) ∧
    signed_by Compile msg_json ctx (with_msgs msgs tx) s x.
Lemma decoder_ok b tx : decoder b = Ok tx → Unmarshal b = Some tx.
Proof. unfold DefaultTxDecoder. repeat case_match; intros; by simplify_eq. Qed.
(** A signer of an effective transaction signed it. *)
Lemma effect_signed b ctx tx msgs s s' x :
  decoder b = Ok tx → admitted v2 tx msgs → app_wf s →
  tx_effect v2 RunTxModeDeliver (with_msgs msgs tx) ctx s s' →
  x ∈ StdTx.GetSigners (with_msgs msgs tx) → ¬ same_store s s' → tx_signed_by b ctx s x.
Proof.
  intros Hdec Had Hw Heff Hx Hne. exists tx, msgs. split_and!; [by apply decoder_ok|apply Had|].
  destruct (tx_effect_phases Compile MatchString msg_json acc_String fee_factor_text log_gasBase version version_pos beginBlocker
    endBlocker RunTxModeDeliver tx msgs ctx s s' (decoder_typed _ _ Hdec) Had eq_refl Hw Heff) as [?|(sA&HA&_)]; [done|].
  by eapply antes_signed.
Qed.

(** C1. Among the transactions of the bank, guardian, asset, rand, coinswap and HTLC
    modules, the coins of an account leave it only through one that the account
    signed, with its current sequence number, and with the key it has or whose
    address it is.  The only accounts excepted are the locked coins of HTLC and the
    reserve pools of coinswap, which no key is for. *)
Theorem debit_needs_signature (b : string) a d res a' d' (x : AccAddress) (den : string)
    (Hin : in_v2_block a d) (Hw : app_wf (d_store d)) (Hr : deliver b a = (Ok res, a'))
    (Hd' : app_deliverState a' = Some d') (Hx : ¬ module_account x)
    (Hlt : balance (app_auth (d_store d')) x den < balance (app_auth (d_store d)) x den) :
  tx_signed_by b (d_ctx d) (d_store d) x.
Proof.
  destruct (deliver_spec _ _ _ _ _ Hin Hr) as (d1&[_ Hd1 _]&_&Hdel). rewrite Hd' in Hd1. injection Hd1 as <-.
  assert (Hne : ¬ same_store (d_store d) (d_store d')).
  { intros [g E]. rewrite E in Hlt. change (balance (app_auth (d_store d)) x den < balance (app_auth (d_store d)) x den) in Hlt. lia. }
  destruct Hdel as [_ ?|tx msgs Hdec Had Heff _]; [done|].
  destruct (decide (x ∈ StdTx.GetSigners (with_msgs msgs tx))) as [Hs|Hs].
  { change (tx_signed_by b (WithTxBytes (d_ctx d) b) (d_store d) x). by eapply effect_signed. }
  exfalso.
  edestruct (tx_effect_keeps Compile MatchString msg_json acc_String fee_factor_text log_gasBase version version_pos beginBlocker
    endBlocker (λ y, y ∈ StdTx.GetSigners (with_msgs msgs tx) ∨ module_account y) RunTxModeDeliver tx msgs)
    as (_&_&Hb); [by right|by apply Forall_forall; left|exact (decoder_typed _ _ Hdec)|exact Had|done|exact Heff|done|].
  specialize (Hb x den). assert (¬ (x ∈ StdTx.GetSigners (with_msgs msgs tx) ∨ module_account x)) as Hn by (intros [?|?]; done).
  specialize (Hb Hn). lia.
Qed.

(** C18. The entry of a token changes, or its supply rises, only through a transaction
    that the owner of the token signed. *)
Theorem token_needs_signature (b : string) a d res a' d' (k : string) (t : Asset.FungibleToken)
    (Hin : in_v2_block a d) (Hw : app_wf (d_store d)) (Hr : deliver b a = (Ok res, a'))
    (Hd' : app_deliverState a' = Some d')
    (Hk : ap_tokens (d_store d) !! k = Some t) (Hh : homed (d_store d) t)
    (Hch : ap_tokens (d_store d') !! k ≠ Some t ∨
           ∃ c c', supply_of (app_asset (d_store d)) t = Some c ∧ supply_of (app_asset (d_store d')) t = Some c' ∧ amount c < amount c') :
  tx_signed_by b (d_ctx d) (d_store d) (owner_of (app_asset (d_store d)) t).
Proof.
  destruct (deliver_spec _ _ _ _ _ Hin Hr) as (d1&[_ Hd1 _]&_&Hdel). rewrite Hd' in Hd1. injection Hd1 as <-.
  set (x := owner_of _ t) in *.
  assert (Hnk : ¬ token_kept k t (d_store d) (d_store d')).
  { intros [E _ _ S]. destruct Hch as [?|(c&c'&Hc&Hc'&?)]; [done|]. specialize (S _ _ Hc Hc'). lia. }
  assert (Hne : ¬ same_store (d_store d) (d_store d')).
  { intros [g E]. apply Hnk. rewrite E. apply token_kept_same; [done|done|apply supply_le_gas|done|done]. }
  destruct Hdel as [_ ?|tx msgs Hdec Had Heff _]; [done|].
  destruct (decide (x ∈ StdTx.GetSigners (with_msgs msgs tx))) as [Hs|Hs].
  { change (tx_signed_by b (WithTxBytes (d_ctx d) b) (d_store d) x). by eapply effect_signed. }
  destruct Hnk.
  edestruct (tx_effect_tokens Compile MatchString msg_json acc_String fee_factor_text log_gasBase version version_pos beginBlocker
    endBlocker RunTxModeDeliver tx msgs) as (_&Hkept); [exact (decoder_typed _ _ Hdec)|exact Had|done|exact Heff|done|].
  by apply Hkept.
Qed.

(** ** Replay *)
(** The sequence number of a signer is not that of its signature. *)
Lemma stale_rejected b a d res a' tx msgs i x sig acc :
  in_v2_block a d → app_wf (d_store d) → deliver b a = (Ok res, a') → decoder b = Ok tx →
  validateBasicTxMsgs (tx_Msgs tx) = (Ok tt, msgs) →
  StdTx.GetSigners (with_msgs msgs tx) !! i = Some x → tx_Signatures tx !! i = Some sig →
  accounts (app_auth (d_store d)) !! x = Some acc → sig_Sequence sig ≠ acc_Sequence acc →
  res_IsOK res = false ∧ ∃ d', in_v2_block a' d' ∧ same_store (d_store d) (d_store d').
Proof.
  intros Hin Hw Hr Hdec Hval Hx Hsig Hacc Hseq. destruct (deliver_spec _ _ _ _ _ Hin Hr) as (d'&Hin'&_&Hdel).
  destruct Hdel as [Hok Hsame|tx' msgs' Hdec' Had Heff Hok]; [split; [done|by exists d']|].
  assert (tx' = tx) as -> by congruence. pose proof (eq_trans (eq_sym Hval) (proj1 Had)) as [= <-].
  assert (Hno : ∀ sA, ¬ antes_ok Compile msg_json (WithTxBytes (d_ctx d) b) (with_msgs msgs tx) (d_store d) sA).
  { intros sA HA. destruct (antes_signed _ _ _ _ _ _ _ Hw HA (list_elem_of_lookup_2 _ _ _ Hx)) as (j&acc'&sig'&pk&Hj&Hacc'&Hsig'&Hsq&_).
    assert (j = i) as -> by (eapply NoDup_lookup; [apply GetSigners_NoDup|exact Hj|exact Hx]).
    simpl in Hsig'. rewrite Hsig in Hsig'. rewrite Hacc in Hacc'. injection Hsig' as <-. injection Hacc' as <-. done. }
  split.
  - destruct (res_IsOK res) eqn:E; [|done]. destruct (Hok eq_refl) as (rA&_&HA&_). exfalso.
    destruct (antes_pass_ok Compile MatchString msg_json acc_String fee_factor_text log_gasBase version beginBlocker endBlocker
      RunTxModeDeliver (with_msgs msgs tx) _ _ _ (proj2 Had version_pos) Hw eq_refl HA) as [Hau _]. by eapply Hno.
  - exists d'. split; [done|]. destruct (tx_effect_phases Compile MatchString msg_json acc_String fee_factor_text log_gasBase version
      version_pos beginBlocker endBlocker RunTxModeDeliver tx msgs _ _ _ (decoder_typed _ _ Hdec) Had eq_refl Hw Heff)
      as [?|(sA&HA&_)]; [done|]. by destruct (Hno sA).
Qed.

Lemma deliver_advances b a d res a' :
  in_v2_block a d → app_wf (d_store d) → deliver b a = (Ok res, a') → res_IsOK res = true →
  ∃ d' tx msgs i x sig acc acc', in_v2_block a' d' ∧ decoder b = Ok tx ∧ validateBasicTxMsgs (tx_Msgs tx) = (Ok tt, msgs) ∧
    StdTx.GetSigners (with_msgs msgs tx) !! i = Some x ∧ tx_Signatures tx !! i = Some sig ∧
    accounts (app_auth (d_store d)) !! x = Some acc ∧ accounts (app_auth (d_store d')) !! x = Some acc' ∧
    sig_Sequence sig = acc_Sequence acc ∧ acc_Sequence acc' = wrap64 (acc_Sequence acc + 1).
Proof.
  intros Hin Hw Hr Hok. destruct (deliver_spec _ _ _ _ _ Hin Hr) as (d'&Hin'&_&[? _|tx msgs Hdec Had _ Hran]); [congruence|].
  destruct (Hran Hok) as (rA&s1&HA&HM&HR). pose proof (proj2 Had version_pos) as Hfee.
  destruct (antes_pass_ok Compile MatchString msg_json acc_String fee_factor_text log_gasBase version beginBlocker endBlocker
    RunTxModeDeliver (with_msgs msgs tx) _ _ _ Hfee Hw eq_refl HA) as [Hau _].
  assert (Hsome : StdTx.GetSigners (with_msgs msgs tx) ≠ []) by (destruct Hau as (?&?&_&Hau&_); apply Hau).
  destruct (StdTx.GetSigners (with_msgs msgs tx)) as [|x0 l0] eqn:El; [done|]. clear Hsome.
  assert (Hx : x0 ∈ StdTx.GetSigners (with_msgs msgs tx)) by (rewrite El; by left).
  destruct (antes_signed _ _ _ _ _ _ _ Hw Hau Hx) as (i&acc&sig&pk&Hi&Hacc&Hsig&Hsq&_).
  destruct (antes_sequences _ _ _ _ _ _ _ _ Hw Hau Hacc) as (acc1&Hacc1&_&Hsq1). rewrite decide_True in Hsq1 by done.
  assert (Hkept : accounts_kept (run_store rA) (d_store d')).
  { etrans; [eapply (msgs_kept Compile MatchString msg_json acc_String fee_factor_text log_gasBase version beginBlocker endBlocker);
      [by eapply decoder_typed|exact Had|exact HM]|].
    eapply (refund_kept Compile MatchString msg_json acc_String fee_factor_text log_gasBase version); [|exact HR]. by apply fee_ok_inv. }
  assert (HwA : app_wf (run_store rA)) by (by eapply (antes_ok_rel _ _ (λ _, True)); [apply Forall_true|exact Hau|]).
  destruct (proj2 (Hkept HwA) _ _ Hacc1) as (acc2&Hacc2&_&_&_&Hsq2).
  exists d', tx, msgs, i, x0, sig, acc, acc2. split_and!; [done|done|apply Had|exact Hi|done|done|done|done|congruence].
Qed.

(** C11. A transaction that was delivered with success is rejected, and changes nothing,
    when it is delivered again, whatever transactions come in between, as long as
    sequence numbers stay below their maximum. *)
Theorem replay_rejected (b : string) (l : list string) a d res a1 a2 res' a3
    (Hin : in_v2_block a d) (Hw : app_wf (d_store d))
    (Hseq : ∀ x acc, accounts (app_auth (d_store d)) !! x = Some acc →
              0 ≤ acc_Sequence acc ∧ acc_Sequence acc + 1 + Z.of_nat (length l) < 2^64)
    (Hfirst : deliver b a = (Ok res, a1)) (Hok : res_IsOK res = true)
    (Hbetween : deliver_all l a1 = (Ok tt, a2)) (Hagain : deliver b a2 = (Ok res', a3)) :
  res_IsOK res' = false ∧ ∃ d2 d3, app_deliverState a2 = Some d2 ∧ app_deliverState a3 = Some d3 ∧ same_store (d_store d2) (d_store d3).
Proof.
  destruct (deliver_advances _ _ _ _ _ Hin Hw Hfirst Hok) as (d1&tx&msgs&i&x&sig&acc&acc1&Hin1&Hdec&Hval&Hi&Hsig&Hacc&Hacc1&Hsq&Hsq1).
  destruct (deliver_keeps _ _ _ _ _ Hin Hw Hfirst) as (d1'&Hin1'&_&Hw1&_).
  assert (d1' = d1) as -> by (destruct Hin1, Hin1'; congruence).
  destruct (deliver_all_keeps _ _ _ _ Hin1 Hw1 Hbetween) as (d2&Hin2&_&Hw2&_&Hs2).
  destruct (Hseq x acc Hacc) as [Hp Hlt]. rewrite wrap64_small in Hsq1 by lia.
  destruct (Hs2 x acc1 Hacc1 ltac:(lia) ltac:(lia)) as (acc2&Hacc2&?).
  destruct (stale_rejected _ _ _ _ _ _ _ _ _ _ _ Hin2 Hw2 Hagain Hdec Hval Hi Hsig Hacc2 ltac:(lia)) as [Hno (d3&Hin3&Hsame)].
  split; [done|]. exists d2, d3. split_and!; [apply Hin2|apply Hin3|done].
Qed.
End props.

(** ** Examples *)
Module AppExample.
Definition hash_crypto : Crypto := {| AddressHash s := "#" +:+ s |}.
Definition plain_json : JsonOps := {| json_fee _ := ""; json_doc _ := ""; MustSortJSON s := s |}.
(** A signature is the address of the key. *)
Definition name_keys : KeyOps := {|
  pk_Address pk := match pk with PubKeySecp256k1 k => k | _ => "" end;
  pk_VerifyBytes pk bytes sig := match pk with PubKeySecp256k1 k => bool_decide (sig = k) | _ => false end;
  multisig_Unmarshal _ := None |}.
#[local] Existing Instance hash_crypto.
#[local] Existing Instance plain_json.
#[local] Existing Instance name_keys.

Definition send (from to : string) (n : Z) : AppMsg :=
  MBank (BMsgSend (mkMsgSend [mkInput from [mkCoin IrisAtto n]] [mkOutput to [mkCoin IrisAtto n]])).
Definition tx_of (from : string) (seq : Z) (msgs : list AppMsg) : StdTx AppMsg :=
  mkStdTx msgs (mkFee [mkCoin IrisAtto (6 * 10^17)] 100000)
    [mkSig (Some (PubKeySecp256k1 from)) from 0 seq] "".
Definition msg_mint : AppMsg := MAsset (Asset.MintTokenMsg (Asset.mkMint "i.abc" "alice" "bob" 10)).
Definition ex_Unmarshal (b : string) : option (StdTx AppMsg) :=
  if bool_decide (b = "send") then Some (tx_of "alice" 0 [send "alice" "bob" 5]) else
  if bool_decide (b = "next") then Some (tx_of "alice" 1 [send "alice" "bob" 7]) else
  if bool_decide (b = "mint") then Some (tx_of "alice" 0 [msg_mint]) else
  if bool_decide (b = "big") then Some (tx_of "alice" 0
    [MBank (BMsgSend (mkMsgSend [mkInput "alice" [mkCoin IrisAtto (2^254)]; mkInput "alice" [mkCoin IrisAtto (2^254)]] [mkOutput "bob" [mkCoin IrisAtto 1]]))])
  else None.
Definition ex_token : Asset.FungibleToken :=
  Asset.mkToken "abc" Asset.FUNGIBLE Asset.NATIVE "" "abc" "a token" 2 "" "" 1000 5000 true "alice".
Definition ex_store : AppState :=
  mkAppState
    (mkTxState (ex_bank [("alice", [mkCoin "abc-min" 1000; mkCoin IrisAtto (10^24)])] (10^24) [mkCoin "abc-min" 1000])
       (mkFees None (Some IrisAtto) auth_DefaultParams))
    ∅ ∅ DefaultParams ∅ (Rand.mkRandStore ∅ ∅) {[ "token:i.abc" := ex_token ]} ∅ ∅ ∅ Asset.DefaultParams 1000.
Definition ex_v2 : Protocol AppState AppMsg :=
  protocol_v2 (λ _, true) (λ _ _, true) (λ _, "") id AssetSupply.ex_factor id 2 None None.
Definition ex_protocols (v : Z) : option (Protocol AppState AppMsg) := if v =? 2 then Some ex_v2 else None.
Definition ex_ctx : Context := NewContext (mkHeader "iris" 10 0 "") false.
Definition ex_deliver (limit : Z) : DeliverState AppState := mkDeliver ex_store ex_ctx (Some (NewGasMeter limit)) 0.
Definition ex_app (limit : Z) : BaseApp AppState :=
  mkApp ex_store (ex_store, ex_ctx) (Some (ex_deliver limit)) None [] 2.
#[local] Instance ex_msg : Msg AppMsg := AppMsg_Msg (λ _, true) (λ _, "").
Definition ex_run (b : string) (a : BaseApp AppState) := DeliverTx ex_protocols (DefaultTxDecoder ex_Unmarshal) b a.
Definition after (b : string) (a : BaseApp AppState) : BaseApp AppState := (ex_run b a).2.
Definition store_of (a : BaseApp AppState) : AppState := default ex_store (d_store <$> app_deliverState a).

Lemma ex_Unmarshal_typed b tx : ex_Unmarshal b = Some tx → tx_typed tx.
Proof.
  unfold ex_Unmarshal, tx_typed. repeat case_bool_decide; intros [= <-] m; simpl;
    rewrite list_elem_of_singleton; intros [= ->]; simpl; lia.
Qed.
Lemma ex_store_wf : app_wf ex_store.
Proof.
  split.
  - split; [apply auth_wfb_ok; vm_compute; reflexivity|by split; constructor|constructor].
  - split; simpl.
    + apply auth_wfb_ok. vm_compute. reflexivity.
    + intros k t [<- <-]%lookup_singleton_Some. split; [|vm_compute; reflexivity].
      split; simpl; [|done]. apply (lower_symbol_ok "abc"); vm_compute; reflexivity.
    + intros k t [<- <-]%lookup_singleton_Some. exists (mkCoin "abc-min" 1000). by split; vm_compute.
    + intros k g Hk. by rewrite lookup_empty in Hk.
Qed.
Lemma ex_in_block limit : in_block (λ _, true) (λ _ _, true) (λ _, "") id AssetSupply.ex_factor id 2 None None ex_protocols (ex_app limit) (ex_deliver limit).
Proof. by split. Qed.

Lemma ex_sequences x acc :
  accounts (app_auth ex_store) !! x = Some acc → 0 ≤ acc_Sequence acc ∧ acc_Sequence acc + 1 + Z.of_nat 1 < 2^64.
Proof.
  enough (map_Forall (λ _ acc, 0 ≤ acc_Sequence acc ∧ acc_Sequence acc + 1 + Z.of_nat 1 < 2^64) (accounts (app_auth ex_store))) as Hall
    by (intros Hx; exact (Hall x acc Hx)).
  apply (bool_decide_unpack _). vm_compute. exact I.
Qed.
Definition ex_all (l : list string) (a : BaseApp AppState) := deliver_all (λ _, true) (λ _, "") ex_protocols ex_Unmarshal l a.

Lemma iris_conserved_witness :
  let a' := (ex_all ["send"; "next"] (ex_app 1000000)).2 in
  balance (app_auth (store_of a')) "bob" IrisAtto = 12 ∧ all_iris (store_of a') = 10^24.
Proof.
  intros a'. split; [vm_compute; reflexivity|].
  destruct (iris_conserved (λ _, true) (λ _ _, true) (λ _, "") id AssetSupply.ex_factor id 2 ltac:(lia) None None ex_protocols
    ex_Unmarshal ex_Unmarshal_typed ["send"; "next"] (ex_app 1000000) (ex_deliver 1000000) a' (ex_in_block _) ex_store_wf)
    as (d'&Hd&_&Hi); [vm_compute; reflexivity|]. unfold store_of. rewrite Hd. simpl. rewrite Hi. vm_compute. reflexivity.
Defined.
Lemma debit_needs_signature_witness :
  tx_signed_by (λ _, true) (λ _, "") ex_Unmarshal "send" ex_ctx ex_store "alice".
Proof.
  apply (debit_needs_signature (λ _, true) (λ _ _, true) (λ _, "") id AssetSupply.ex_factor id 2 ltac:(lia) None None ex_protocols
    ex_Unmarshal ex_Unmarshal_typed "send" (ex_app 1000000) (ex_deliver 1000000) (mkResult "" 0 100000 380) (after "send" (ex_app 1000000))
    (default (ex_deliver 0) (app_deliverState (after "send" (ex_app 1000000)))) "alice" IrisAtto (ex_in_block _) ex_store_wf).
  - vm_compute. reflexivity.
  - vm_compute. reflexivity.
  - inversion 1.
  - vm_compute. reflexivity.
Defined.
Lemma token_needs_signature_witness :
  tx_signed_by (λ _, true) (λ _, "") ex_Unmarshal "mint" ex_ctx ex_store "alice".
Proof.
  apply (token_needs_signature (λ _, true) (λ _ _, true) (λ _, "") id AssetSupply.ex_factor id 2 ltac:(lia) None None ex_protocols
    ex_Unmarshal ex_Unmarshal_typed "mint" (ex_app 1000000) (ex_deliver 1000000) (mkResult "" 0 100000 840) (after "mint" (ex_app 1000000))
    (default (ex_deliver 0) (app_deliverState (after "mint" (ex_app 1000000)))) "token:i.abc" ex_token (ex_in_block _) ex_store_wf).
  - vm_compute. reflexivity.
  - vm_compute. reflexivity.
  - vm_compute. reflexivity.
  - intros Hg. discriminate Hg.
  - right. exists (mkCoin "abc-min" 1000), (mkCoin "abc-min" 2000). by split_and!; vm_compute.
Defined.
Lemma replay_rejected_witness :
  let a2 := (ex_all ["next"] (after "send" (ex_app 1000000))).2 in
  ∃ res', (ex_run "send" a2).1 = Ok res' ∧ res_IsOK res' = false.
Proof.
  intros a2. exists (mkResult "sdk" 3 0 0). split; [vm_compute; reflexivity|].
  eapply (replay_rejected (λ _, true) (λ _ _, true) (λ _, "") id AssetSupply.ex_factor id 2 ltac:(lia) None None ex_protocols
    ex_Unmarshal ex_Unmarshal_typed "send" ["next"] (ex_app 1000000) (ex_deliver 1000000) (mkResult "" 0 100000 380)
    (after "send" (ex_app 1000000)) a2 (mkResult "sdk" 3 0 0) (after "send" a2) (ex_in_block _) ex_store_wf).
  - apply ex_sequences.
  - vm_compute. reflexivity.
  - reflexivity.
  - vm_compute. reflexivity.
  - vm_compute. reflexivity.
Defined.

(** A transfer: the gas of the block is counted after the messages of a transaction have been
    written: a transaction that goes over the limit is answered "out of gas", and
    its transfer stays. *)
Example block_gas_overrun_commits :
  ∃ res, (ex_run "send" (ex_app 100)).1 = Ok res ∧ code ErrOutOfGas = res_Code res ∧
    balance (app_auth ex_store) "bob" IrisAtto = 0 ∧
    balance (app_auth (store_of (after "send" (ex_app 100)))) "bob" IrisAtto = 5.
Proof. eexists. split_and!; vm_compute; reflexivity. Qed.

(** The messages of a transaction are checked outside of the function that recovers
    from panics: amounts whose sum does not fit in 255 bits stop the node. *)
Example oversized_tx_panics : (ex_run "big" (ex_app 1000000)).1 = Panic "Int overflow".
Proof. vm_compute. reflexivity. Qed.
End AppExample.
